(* ===== verification/_CoqProject ===== *)
-Q . S2P
Prelude.v
Bytes.v
Utf8.v
Codec.v
Representations.v
Regex.v
BTree.v
Types.v
Signatures.v
Admission.v
Values.v
Serialization.v
RoundTrip.v
Deserialization.v
Injectivity.v
ValueCodec.v
Events.v
AssetMap.v
PostConditions.v
Hashes.v
Merkle.v
Keys.v
Natives.v
C32.v
C32Old.v
Principals.v
Lexer.v
PrintLex.v
Parser.v
PrintParse.v
Transaction.v
TransactionRoundTrip.v
Authorization.v
Signing.v
BackingStore.v
RollbackWrapper.v
RollbackRefinement.v
GlobalContext.v
ContextAtomicity.v
ClarityDb.v
ClarityState.v
Costs.v
Receipts.v
Blocks.v
BlockRoundTrip.v
Contexts.v
Callables.v
StxBalance.v
Assets.v
Machine.v
Specials.v
TypeRepr.v
DataNatives.v
Interpreter.v
Define.v
Ast.v
DefinitionOrder.v
StateLayout.v
Discipline.v
Respect.v
TypedState.v
Ledger.v
LedgerRefinement.v
Termination.v
Isolation.v
Deployment.v
Source.v
Connection.v
ConnectionRefinement.v
Processing.v
Nonces.v
Rewards.v
MapFunction.v
Withdrawal.v
BlockProcessing.v
BlockNonces.v
BlockAcceptance.v
Payments.v
