(* ===== verification/Prelude.v ===== *)
(** * Verification of the Stacks subnet node

    The program is a blockchain node, written in Rust, for a subnet of the
    Stacks chain: it executes smart contracts in the language Clarity, keeps
    their state in an authenticated key-value store, and commits in each block
    to the withdrawals that may be claimed on the main chain.  This library
    translates the deterministic core of it into Rocq functions and proves
    what the rest of the node relies on.

    ** The parts and the files that model them

    Paths are relative to the repository; [vm/] is [clarity/src/vm/] and
    [common/] is [stacks-common/src/].

    Data:
    - [Prelude]: integers of Rust's widths, the error monad and shared lemmas.
    - [Bytes], [Utf8]: hexadecimal strings and big-endian integers
      (common/util/hash.rs, pair.rs); UTF-8 of the standard library.
    - [Codec]: the consensus wire format, trait [StacksMessageCodec] and
      [BoundReader] (common/codec/mod.rs, macros.rs, common/util/retry.rs).
    - [Representations]: names, principals, identifiers and their codecs
      (vm/representations.rs, vm/types/mod.rs, common/types/chainstate.rs).
    - [BTree]: [BTreeMap] with string keys, as used for tuples.
    - [Types], [Signatures], [Admission]: Clarity's type signatures, their
      sizes and guarded constructors, [admits_type] and [least_supertype]
      (vm/types/signatures.rs, vm/errors.rs, vm/analysis/errors.rs).
    - [Values]: Clarity's values, their types and checked constructors
      (vm/types/mod.rs).
    - [Serialization], [RoundTrip], [Deserialization], [Injectivity]: the
      serialization of values and its typed and untyped deserializer
      (vm/types/serialization.rs).
    - [Hashes]: the hash newtypes over third-party digests, and
      [MerkleHashFunc] (common/util/hash.rs).
    - [Keys]: keys, signatures, redeem scripts and the addresses of keys
      (common/util/secp256k1.rs, common/address/mod.rs, common/types/mod.rs,
      common/deps_common/bitcoin/blockdata/script.rs).
    - [C32], [C32Old], [Principals]: c32 addresses (common/address/c32.rs,
      c32_old.rs) and the textual form of principals (vm/types/mod.rs).

    Transactions:
    - [ValueCodec]: values inside messages, read without an expected type
      (vm/types/serialization.rs).
    - [Transaction], [TransactionRoundTrip]: transactions, spending conditions,
      post-conditions and payloads with their wire format
      (src/chainstate/stacks/transaction.rs, auth.rs, mod.rs, block.rs,
      src/util_lib/strings.rs), and that it is read back.
    - [Authorization], [Signing]: signing sessions and verification
      (src/chainstate/stacks/auth.rs, transaction.rs), and what they guarantee.
    - [Blocks], [BlockRoundTrip]: blocks and microblocks, their wire format,
      static validation and signatures (src/chainstate/stacks/block.rs,
      common/util/vrf.rs), and that they are read back.
    - [Receipts]: the receipts of transactions (src/chainstate/stacks/events.rs,
      db/transactions.rs).

    State:
    - [BackingStore]: [ClarityBackingStore], its in-memory and null
      implementations and the metadata tables (vm/database/clarity_store.rs,
      sqlite.rs).
    - [RollbackWrapper], [RollbackRefinement]: the nested transactions over a
      backing store (vm/database/key_value_wrapper.rs).
    - [ClarityDb], [ClarityState]: keys, typed access and every kind of entry
      of [ClarityDatabase] (vm/database/clarity_db.rs); [StateLayout],
      [TypedState]: its keys do not collide, so that entries are independent.
    - [StxBalance]: the STX accounts (vm/database/structures.rs).
    - [Events], [AssetMap]: what a transaction emits and moves (vm/events.rs,
      vm/contexts.rs); [PostConditions]: the check of a transaction against
      what it moved (src/chainstate/stacks/db/transactions.rs).
    - [GlobalContext], [ContextAtomicity]: nested contexts, commit and roll back
      (vm/contexts.rs).

    Execution:
    - [Costs]: cost arithmetic and the cost trackers (vm/costs/).
    - [Contexts]: expressions, contract contexts, local contexts and the call
      stack (vm/contexts.rs, vm/representations.rs, vm/callables.rs).
    - [Natives]: the native functions on evaluated arguments
      (vm/functions/arithmetic.rs, boolean.rs, options.rs, sequences.rs,
      tuples.rs, crypto.rs).
    - [Callables]: the table of reserved functions and variables
      (vm/functions/mod.rs, vm/callables.rs, vm/variables.rs).
    - [Assets], [Ledger], [LedgerRefinement]: the functions on STX and tokens
      (vm/functions/assets.rs), an abstract ledger, and the refinement.
    - [Machine]: the state monad of the interpreter; [Specials], [DataNatives]:
      the special functions (vm/functions/); [Interpreter]: [eval], [apply] and
      contract-call transactions (vm/mod.rs).
    - [TypeRepr], [Define], [Deployment]: type expressions
      (vm/types/signatures.rs), the definition forms (vm/functions/define.rs) and
      the deployment of contracts (vm/mod.rs, vm/contracts.rs, vm/contexts.rs).
    - [Regex], [Lexer], [Parser]: from text to expressions (vm/ast/parser/mod.rs);
      [PrintLex], [PrintParse]: expressions that are written are read back.
    - [Ast], [DefinitionOrder]: the passes over expressions (vm/ast/) and the
      sorting of definitions; [Source]: contracts and programs given as text
      (vm/contexts.rs).
    - [Discipline], [Respect]: what a relation on contexts must satisfy to be
      respected by all code, and that the interpreter respects each such
      relation; [Termination], [Isolation]: two instances of it.
    - [MapFunction]: [map] over several sequences.

    Chain state (src/chainstate/stacks/db/ where no other file is named):
    - [Connection], [ConnectionRefinement]: the connections through which the
      node uses Clarity, of a block and of a transaction
      (src/clarity_vm/clarity.rs, vm/clarity.rs), and what each operation does to
      the pending writes.
    - [Processing], [Nonces]: the processing of a transaction (transactions.rs,
      accounts.rs, contracts.rs), and its effect on the nonces.
    - [Payments]: the state of the accounts through the processing of a transfer.
    - [Rewards]: the rewards of miners (accounts.rs, blocks.rs).
    - [Merkle], [Withdrawal]: Merkle trees (common/util/hash.rs) and the
      withdrawals of a block (src/clarity_vm/withdrawal.rs).
    - [BlockProcessing], [BlockNonces], [BlockAcceptance]: deposits, microblocks,
      the transactions, rewards and unlocks of a block, and the comparison with
      its header (blocks.rs, mod.rs, src/chainstate/burn/operations/mod.rs); what
      this does to the nonces, and what an accepted block is.

    A block is processed on a block connection: deposits from the main chain,
    then its transactions, then rewards and unlocks.  Each opens a transaction
    connection, which keeps a log of writes and hands it to the store on commit.
    A transaction is authenticated, checked against the nonces of its accounts,
    executed and charged.  A contract call calls a public function.  The interpreter
    evaluates its body over a global context, which nests the database, the
    asset map and the events for each call and commits or rolls them back
    together.  A contract's data is a value; it is admitted against a declared
    type, serialized, and written under a key of a rollback wrapper, whose
    outermost commit hands the writes to a backing store.  Balances are kept
    the same way, under keys made of printed principals.  The asset map is
    checked against the post-conditions.  Withdraw events of a block are turned
    into values, serialized and made the leaves of a Merkle tree, whose root and
    the root of the state must be those of the block's header.

    ** How the code is rendered

    A function of the source is a Rocq function with its name, an [impl] method
    being prefixed by its type where names clash.  Code that may fail returns
    [outcome E A]: [Ok], [Err] for a [Result]'s error, [Panic] for a panic
    ([unwrap], [expect], a failed assertion, an index out of range, integer
    overflow in unchecked arithmetic, as in builds with overflow checks).
    Machine integers are [Z] with their range written out; [as] casts wrap.
    Bytes are [Byte.byte]; a [String] is a [string] of bytes.  A method on
    [&mut self] returns the new state; code of the interpreter, which goes on
    after errors, returns it with errors too ([M] of [Machine]).

    Third-party code is an interface: [Digests] for the digest crates, with the
    digest lengths as its law; [Sqlite] for the SQLite connection, with the
    documented effect of its statements; [Reader] for [std::io::Read];
    [HashOrder] for the order in which hash maps are iterated; [SerdeJson] for
    JSON; [IntegerSquareRoot] and [LibSecp256k1] for the crates of that name, the
    latter with [Secp256k1Laws]; [Ed25519] for the points and scalars of VRF proofs;
    [Layout] for the sizes of types in memory.  The
    regex crate is replaced by the documented meaning of the operators used.
    [HeadersDB] stands for the chain's headers, [Host] for what the node
    passes to the interpreter, [Analyzer] for the passes of the static analysis,
    which read the database and charge the tracker, and [StateIndex] for the root
    of the state, with the law that computing it changes nothing that is stored.  Every interface has an instance, so that no
    theorem is vacuous: [mixing_digests], [Tables], byte slices, [listed_order],
    [bits_json], [Z_square_root], [toy_secp256k1], [toy_ed25519], [sample_layout],
    [NullHeadersDB], [calc_host], [no_analysis], [constant_index].
    Interfaces between parts are classes too: [ClarityBackingStore] with
    [StoreLaws] is implemented by [MemoryBackingStore_store], [KvStore] with
    [KvLaws] by [RollbackWrapper_kv], [CostTracker] with [TrackerLaws] and
    [TotalCost] by the limited tracker, [MerkleHashFunc] with [MerkleHashLaws] by
    [Sha512Trunc256Sum_merkle], and [Discipline] by [stack_discipline] and
    [isolation].

    ** What is proved

    - Values.  The constructors of types and values never panic on well-formed
      parts and keep the size and depth limits.  Admission is a preorder and
      [least_supertype] a least upper bound for it, where tuples have as many
      fields.  A value nested at most 16 deep is read back from its
      serialization at every type that admits it; the serialization is at most
      2 MiB, its predicted size exact, and it determines the value.
    - Native functions.  They keep values well-formed and never panic; the
      integer functions are exact at 128 bits; [map] applies its function to
      the rows of its sequences, if none is empty.
    - Wire format.  Vectors are read back when their items are, and never
      exceed the limits on items and memory.
    - Addresses.  Printing and parsing are inverse for c32 strings, addresses
      and principals, and only well-formed ones are accepted.
    - Transactions.  A well-formed transaction is read back from its bytes.  What
      an account signs in a session of [StacksTransactionSigner] verifies, with
      and without a sponsor; a verified signature belongs to one transaction of
      the account, fee and nonce included, unless a hash function collides.
    - State.  The rollback wrapper refines a stack of write journals for every
      sequence of operations; a rolled back block leaves no trace, an inner
      commit is transparent, and the outermost commit publishes what reads
      returned.  Contract metadata is read back as inserted.  Keys of different
      entries never collide.
    - Accounts and tokens.  The operations of balance snapshots in closed form;
      transfers fail only for lack of funds and conserve the supply.  The native
      asset functions do exactly what an abstract ledger specifies, and keep
      supplies equal to the sum of the holdings.
    - Contexts.  A nested transaction is all or nothing; the asset map and the
      events returned are those of the calls that were not taken back, and
      post-conditions accept exactly the movements they describe.
    - Execution.  Evaluation terminates.  Calls are isolated: what fails, what
      is read-only and what returns an error response leaves no trace in the
      context, and a contract-call transaction is atomic.  Charges succeed if
      and only if the exact total is within the limit.
    - Text.  The parser accepts exactly its grammar; every expression that can be
      written is read back; definitions are sorted topologically, or refused for
      a cycle.
    - Contracts.  A type is read as it is written; the names of a contract
      initialized from any text are unique; its deployment is atomic, two errors
      apart; read-only evaluation of a program changes nothing.
    - Blocks.  Well-formed blocks and microblocks are read back from their bytes;
      a block that is read has its coinbase first and once, different transactions,
      and a Merkle root that proves each; a signed microblock verifies.
    - Processing.  A transaction is processed only for the current nonces of its
      origin and payer and raises exactly these by one, or it is refused and
      leaves the store as it was, whatever its payload did.  A transfer that can
      be paid for is processed and settles as it should.  Deposits, transfers,
      rewards and unlocks leave nonces alone.  So a block raises each nonce by the
      number of its transactions of the account, and a nonce is used once in every
      history of a chain.  An accepted block has the roots and the fees it states,
      and its microblock key is not accepted again.
    - Rewards.  The shares of a matured block sum up to its coinbase, less
      rounding, and never to more.
    - Withdrawals.  Every leaf of a Merkle tree has a proof; what has a proof is
      a leaf or gives a collision; the keys of a block's withdrawals are
      pairwise different, and the root commits to each with its id and height.
    - Limits and defects of the code, each as a theorem: values of depth 17 to
      32 that are written but not read, panics and dropped fields in
      [least_supertype], tuples with repeated fields, unchecked merges of tuple
      types, the panic of [c32_address_decode], principals that share an
      account, aborted withdrawals that stay provable, contract calls that a
      tracker answers without charging, [map] over an empty sequence, a supporter
      of a miner that is listed twice and overpaid.

    ** Bounds and fuel

    The deserializer recurses with the depth limit of the source (16) as its
    fuel.  [MerkleTree_new] recurses with the length of the row as fuel and is
    proved to return a tree for every input.  [apply] recurses with fuel; 65 is
    enough, one more than the call stack allows, as [Termination] proves for
    every expression and every context.  The lexer has one round of fuel for each
    character, which is enough since every match takes one ([lex_enough_fuel]);
    the sorting of definitions has one more than the nodes of its graph
    ([visits_fuel]).  All other recursion is structural.

    ** What is not modelled

    SQL queries, files, sockets, threads, clocks and process set-up (the node
    binary, the peer network, RPC, the mempool and the chain-state tables), hence
    also the parts of [setup_block] and [append_block] that load a block's inputs
    and store its results; cryptographic primitives; the MARF index; the evaluation
    of cost contracts; the static analysis of contracts; the transition of epochs,
    which runs boot contracts; the miner; burnchain events and fee estimators. *)
From Stdlib Require Import ZArith Lia Strings.Byte Strings.String Strings.Ascii List Bool.
From stdpp Require Import base decidable countable list gmap strings.
Set Default Proof Using "Type".
Open Scope Z_scope.

(** * Results of Rust code

    A Rust function that returns [Result<A, E>] and may also panic (through
    [expect], [unwrap], [assert!] or [panic!]) is modelled by a function into
    [outcome E A].  [Option<A>]-returning code that may panic is modelled with
    [E := unit], [Err tt] standing for [None]. *)
Inductive outcome (E A : Type) : Type :=
| Ok (a : A)
| Err (e : E)
| Panic.
Arguments Ok {E A} a.
Arguments Err {E A} e.
Arguments Panic {E A}.

Definition out_bind {E A B : Type} (m : outcome E A) (k : A -> outcome E B) : outcome E B :=
  match m with
  | Ok a => k a
  | Err e => Err e
  | Panic => Panic
  end.

(** [m.map_err(f)] *)
Definition map_err {E F A : Type} (f : E -> F) (m : outcome E A) : outcome F A :=
  match m with
  | Ok a => Ok a
  | Err e => Err (f e)
  | Panic => Panic
  end.

(** [m.expect(..)] and [m.unwrap()]: the error becomes a panic. *)
Definition expect {E F A : Type} (m : outcome E A) : outcome F A :=
  match m with
  | Ok a => Ok a
  | _ => Panic
  end.

(** [o.ok_or(e)] *)
Definition ok_or {E A : Type} (e : E) (o : option A) : outcome E A :=
  match o with
  | Some a => Ok a
  | None => Err e
  end.

(** [o.expect(..)] on an [Option]. *)
Definition expect_some {E A : Type} (o : option A) : outcome E A :=
  match o with
  | Some a => Ok a
  | None => Panic
  end.

(** The computation does not panic, and a result it returns satisfies [P]. *)
Definition safely {E A : Type} (m : outcome E A) (P : A -> Prop) : Prop :=
  match m with
  | Ok a => P a
  | Err _ => True
  | Panic => False
  end.

Definition is_ok {E A : Type} (m : outcome E A) : bool :=
  match m with Ok _ => true | _ => false end.

Declare Scope rust_scope.
Delimit Scope rust_scope with rust.
(** [let? x := e in k] is Rust's [let x = e?; k]. *)
Notation "'let?' x ':=' e 'in' k" := (out_bind e (fun x => k))
  (at level 10, x name, e at level 100, k at level 200) : rust_scope.
Notation "'let?' ' p ':=' e 'in' k" := (out_bind e (fun x => match x with p => k end))
  (at level 10, p strict pattern, e at level 100, k at level 200) : rust_scope.
Open Scope rust_scope.

(** [for x in l { acc = f(acc, x)?; }] *)
Fixpoint try_fold {E A B : Type} (f : B -> A -> outcome E B) (acc : B) (l : list A) : outcome E B :=
  match l with
  | [] => Ok acc
  | x :: l => let? acc' := f acc x in try_fold f acc' l
  end.

(** [l.iter().map(f).collect::<Result<Vec<_>, _>>()] *)
Fixpoint try_map {E A B : Type} (f : A -> outcome E B) (l : list A) : outcome E (list B) :=
  match l with
  | [] => Ok []
  | x :: l => let? y := f x in let? ys := try_map f l in Ok (y :: ys)
  end.

(** * Machine integers *)
Definition u8_max : Z := 2 ^ 8 - 1.
Definition u16_max : Z := 2 ^ 16 - 1.
Definition u32_max : Z := 2 ^ 32 - 1.
Definition u64_max : Z := 2 ^ 64 - 1.
Definition u128_max : Z := 2 ^ 128 - 1.
Definition i128_min : Z := - 2 ^ 127.
Definition i128_max : Z := 2 ^ 127 - 1.

(** [x as uN] on a non-negative or negative integer: reduction modulo [2^N]. *)
Definition as_u8 (x : Z) : Z := x mod 2 ^ 8.
Definition as_u16 (x : Z) : Z := x mod 2 ^ 16.
Definition as_u32 (x : Z) : Z := x mod 2 ^ 32.
Definition as_u64 (x : Z) : Z := x mod 2 ^ 64.

(** The range of an integer type, and the [checked_*] operations at that range. *)
Record int_ty := { int_min : Z; int_max : Z }.
Definition u8_ty : int_ty := {| int_min := 0; int_max := u8_max |}.
Definition u32_ty : int_ty := {| int_min := 0; int_max := u32_max |}.
Definition u64_ty : int_ty := {| int_min := 0; int_max := u64_max |}.
Definition u128_ty : int_ty := {| int_min := 0; int_max := u128_max |}.
Definition i128_ty : int_ty := {| int_min := i128_min; int_max := i128_max |}.

Definition in_ty (t : int_ty) (x : Z) : bool := (int_min t <=? x) && (x <=? int_max t).
Definition checked (t : int_ty) (x : Z) : option Z := if in_ty t x then Some x else None.
Definition checked_add (t : int_ty) (x y : Z) : option Z := checked t (x + y).
Definition checked_sub (t : int_ty) (x y : Z) : option Z := checked t (x - y).
Definition checked_mul (t : int_ty) (x y : Z) : option Z := checked t (x * y).
Definition checked_neg (t : int_ty) (x : Z) : option Z := checked t (- x).
(** Rust division truncates towards zero. *)
Definition checked_div (t : int_ty) (x y : Z) : option Z :=
  if y =? 0 then None else checked t (Z.quot x y).
Definition checked_rem (t : int_ty) (x y : Z) : option Z :=
  if y =? 0 then None
  else if in_ty t (Z.quot x y) then Some (Z.rem x y) else None.

(** * Bytes *)
Definition byte_to_Z (b : byte) : Z := Z.of_N (Byte.to_N b).
(** [x as u8] *)
Definition byte_of_Z (z : Z) : byte :=
  match Byte.of_N (Z.to_N (as_u8 z)) with
  | Some b => b
  | None => x00
  end.

#[global] Instance byte_eq_dec : EqDecision byte := Byte.byte_eq_dec.

(** [x.to_be_bytes()] of an [n]-byte integer, and [from_be_bytes]. *)
Fixpoint to_be_bytes (n : nat) (z : Z) : list byte :=
  match n with
  | O => []
  | S n => byte_of_Z (Z.shiftr z (8 * Z.of_nat n)) :: to_be_bytes n z
  end.

Definition from_be_bytes (l : list byte) : Z :=
  fold_left (fun acc b => acc * 256 + byte_to_Z b) l 0.

(** [iN::from_be_bytes] of a two's complement [bits]-bit integer. *)
Definition to_signed (bits : Z) (z : Z) : Z :=
  if z <? 2 ^ (bits - 1) then z else z - 2 ^ bits.

(** * Automation *)
Create HintDb stacks.

(** Splits a hypothesis [out_bind m k = Ok b] into [m = Ok a] and [k a = Ok b]. *)
Lemma out_bind_Ok {E A B : Type} (m : outcome E A) (k : A -> outcome E B) (b : B) :
  out_bind m k = Ok b <-> exists a, m = Ok a /\ k a = Ok b.
Proof. destruct m; simpl; naive_solver. Qed.

#[global] Instance Ok_inj {E A : Type} : Inj (=) (=) (@Ok E A).
Proof. by intros x y [= ->]. Qed.

Lemma map_err_Ok {E F A : Type} (f : E -> F) (m : outcome E A) (a : A) :
  map_err f m = Ok a <-> m = Ok a.
Proof. destruct m; simpl; naive_solver. Qed.

Lemma expect_Ok {E F A : Type} (m : outcome E A) (a : A) :
  expect (F:=F) m = Ok a <-> m = Ok a.
Proof. destruct m; simpl; naive_solver. Qed.

Lemma ok_or_Ok {E A : Type} (e : E) (o : option A) (a : A) :
  ok_or e o = Ok a <-> o = Some a.
Proof. destruct o; simpl; naive_solver. Qed.

Lemma expect_some_Ok {E A : Type} (o : option A) (a : A) :
  expect_some (E:=E) o = Ok a <-> o = Some a.
Proof. destruct o; simpl; naive_solver. Qed.

Lemma is_ok_true {E A : Type} (m : outcome E A) : is_ok m = true <-> exists a, m = Ok a.
Proof. destruct m; simpl; naive_solver. Qed.

Lemma safely_intro {E A : Type} (m : outcome E A) (P : A -> Prop) :
  m <> Panic -> (forall a, m = Ok a -> P a) -> safely m P.
Proof. destruct m; simpl; auto. Qed.

(** A sequence of computations none of which panics does not panic. *)
Lemma out_bind_no_panic {E A B : Type} (m : outcome E A) (k : A -> outcome E B) :
  m <> Panic -> (forall a, m = Ok a -> k a <> Panic) -> out_bind m k <> Panic.
Proof. destruct m; simpl; naive_solver. Qed.

Lemma map_err_no_panic {E F A : Type} (f : E -> F) (m : outcome E A) :
  m <> Panic -> map_err f m <> Panic.
Proof. by destruct m. Qed.

Lemma ok_or_no_panic {E A : Type} (e : E) (o : option A) : ok_or e o <> Panic.
Proof. by destruct o. Qed.

#[export] Hint Resolve out_bind_no_panic map_err_no_panic ok_or_no_panic : stacks.

(** Inverts every hypothesis that says a computation returned [Ok]. *)
Ltac out_inv :=
  repeat
    match goal with
    | H : out_bind _ _ = Ok _ |- _ =>
        let a := fresh "a" in
        apply out_bind_Ok in H; destruct H as (a & ? & H);
        repeat match type of a with prod _ _ => destruct a as [a ?] end;
        cbv beta iota in H
    | H : map_err _ _ = Ok _ |- _ => apply (proj1 (map_err_Ok _ _ _)) in H
    | H : expect _ = Ok _ |- _ => apply (proj1 (expect_Ok _ _)) in H
    | H : ok_or _ _ = Ok _ |- _ => apply (proj1 (ok_or_Ok _ _ _)) in H
    | H : expect_some _ = Ok _ |- _ => apply (proj1 (expect_some_Ok _ _)) in H
    | H : (if ?b then _ else _) = Ok _ |- _ => destruct b eqn:?
    | H : Ok _ = Ok _ |- _ => injection H as H
    | H : Err _ = Ok _ |- _ => discriminate H
    | H : Panic = Ok _ |- _ => discriminate H
    | _ => progress simplify_eq
    end.

(** Boolean comparisons to propositions. *)
Ltac bool_to_prop :=
  repeat
    match goal with
    | H : (_ && _)%bool = true |- _ => apply andb_true_iff in H; destruct H
    | H : (_ && _)%bool = false |- _ => apply andb_false_iff in H
    | H : (_ || _)%bool = true |- _ => apply orb_true_iff in H
    | H : (_ || _)%bool = false |- _ => apply orb_false_iff in H; destruct H
    | H : negb _ = true |- _ => apply negb_true_iff in H
    | H : negb _ = false |- _ => apply negb_false_iff in H
    | H : (_ <=? _) = true |- _ => apply Z.leb_le in H
    | H : (_ <=? _) = false |- _ => apply Z.leb_gt in H
    | H : (_ <? _) = true |- _ => apply Z.ltb_lt in H
    | H : (_ <? _) = false |- _ => apply Z.ltb_ge in H
    | H : (_ =? _) = true |- _ => apply Z.eqb_eq in H
    | H : (_ =? _) = false |- _ => apply Z.eqb_neq in H
    | H : bool_decide _ = true |- _ => apply bool_decide_eq_true in H
    | H : bool_decide _ = false |- _ => apply bool_decide_eq_false in H
    end.

(** Unfolds the integer bounds so that [lia] sees literals. *)
Ltac unfold_bounds :=
  unfold u8_ty, u32_ty, u64_ty, u128_ty, i128_ty,
    u8_max, u16_max, u32_max, u64_max, u128_max, i128_min, i128_max in *;
  cbn [int_min int_max] in *.

Ltac int_lia := unfold_bounds; lia.

(** [lia] with quotients and remainders replaced by their defining equations. *)
Ltac div_lia := Z.to_euclidean_division_equations; lia.

(** * Integer lemmas *)
Lemma in_ty_spec (t : int_ty) (x : Z) : in_ty t x = true <-> int_min t <= x <= int_max t.
Proof. unfold in_ty. lia. Qed.

Lemma checked_Some (t : int_ty) (x y : Z) :
  checked t x = Some y <-> y = x /\ int_min t <= x <= int_max t.
Proof.
  unfold checked. destruct (in_ty t x) eqn:Hin.
  - apply in_ty_spec in Hin. naive_solver.
  - apply not_true_iff_false in Hin. rewrite in_ty_spec in Hin. naive_solver.
Qed.

Lemma checked_None (t : int_ty) (x : Z) :
  checked t x = None <-> ~ (int_min t <= x <= int_max t).
Proof.
  unfold checked. destruct (in_ty t x) eqn:Hin.
  - apply in_ty_spec in Hin. naive_solver.
  - apply not_true_iff_false in Hin. rewrite in_ty_spec in Hin. naive_solver.
Qed.

Lemma checked_ok (t : int_ty) (x : Z) :
  int_min t <= x <= int_max t -> checked t x = Some x.
Proof. intros. by apply checked_Some. Qed.

Lemma checked_add_Some (t : int_ty) (x y z : Z) :
  checked_add t x y = Some z <-> z = x + y /\ int_min t <= x + y <= int_max t.
Proof. apply checked_Some. Qed.

Lemma checked_sub_Some (t : int_ty) (x y z : Z) :
  checked_sub t x y = Some z <-> z = x - y /\ int_min t <= x - y <= int_max t.
Proof. apply checked_Some. Qed.

Lemma checked_mul_Some (t : int_ty) (x y z : Z) :
  checked_mul t x y = Some z <-> z = x * y /\ int_min t <= x * y <= int_max t.
Proof. apply checked_Some. Qed.

(** * Loops *)
Lemma try_fold_app {E A B : Type} (f : B -> A -> outcome E B) (acc : B) (l1 l2 : list A) :
  try_fold f acc (l1 ++ l2) = let? acc' := try_fold f acc l1 in try_fold f acc' l2.
Proof.
  revert acc. induction l1 as [|x l1 IH]; intros acc; simpl; [done|].
  destruct (f acc x); simpl; auto.
Qed.

(** An invariant of the loop body is an invariant of the loop. *)
Lemma try_fold_inv {E A B : Type} (f : B -> A -> outcome E B) (I : B -> Prop) (acc : B) (l : list A) (r : B) :
  (forall b x b', I b -> f b x = Ok b' -> I b') ->
  I acc -> try_fold f acc l = Ok r -> I r.
Proof.
  intros Hf. revert acc. induction l as [|x l IH]; simpl; intros acc HI H; out_inv; eauto.
Qed.

Lemma try_fold_no_panic {E A B : Type} (f : B -> A -> outcome E B) (l : list A) (acc : B) :
  Forall (fun x => forall acc, f acc x <> Panic) l -> try_fold f acc l <> Panic.
Proof.
  intros Hl. revert acc. induction Hl as [|x l Hx _ IH]; intros acc; [done|].
  simpl. apply out_bind_no_panic; auto.
Qed.

Lemma try_map_Ok {E A B : Type} (f : A -> outcome E B) (l : list A) (r : list B) :
  try_map f l = Ok r <-> Forall2 (fun x y => f x = Ok y) l r.
Proof.
  revert r. induction l as [|x l IH]; intros r; simpl.
  - split; intros H; [by simplify_eq | by inversion H].
  - split.
    + intros H. out_inv. constructor; [done|]. by apply IH.
    + intros H. inversion H as [|? y ? ys Hy Hys]; subst. rewrite Hy. simpl.
      by rewrite (proj2 (IH ys) Hys).
Qed.

Lemma try_map_all_Ok {E A B : Type} (f : A -> outcome E B) (g : A -> B) (l : list A) :
  (forall x, In x l -> f x = Ok (g x)) -> try_map f l = Ok (map g l).
Proof.
  intros H. apply try_map_Ok. induction l as [|x l IH]; simpl; constructor; auto with datatypes.
Qed.
