(* ===== verification/Bytes.v ===== *)
(** Bytes: the facts about [u8], big-endian integers and hexadecimal strings
    that the codecs share.  [to_hex], [hex_bytes] and the [Pair] iterator are
    those of stacks-common/src/util/{hash,pair}.rs. *)
From Stdlib Require Import ZArith Wf_nat Lia Strings.Byte Strings.String Strings.Ascii List Bool.
From stdpp Require Import base list strings.
From S2P Require Import Prelude.
Open Scope Z_scope.

(** * Hexadecimal strings *)
Inductive HexError :=
| BadLength (n : nat)
| BadCharacter (c : ascii).

(** [iter.pair()]: the elements two at a time, and [remainder()]. *)
Fixpoint Pair_next {A : Type} (l : list A) : list (A * A) * option A :=
  match l with
  | [] => ([], None)
  | [elem1] => ([], Some elem1)
  | elem1 :: elem2 :: l => let '(ps, last_elem) := Pair_next l in ((elem1, elem2) :: ps, last_elem)
  end.

(** [c.to_digit(16)] *)
Definition to_digit16 (c : ascii) : option Z :=
  let n := Z.of_N (N_of_ascii c) in
  if (48 <=? n) && (n <=? 57) then Some (n - 48)
  else if (65 <=? n) && (n <=? 70) then Some (n - 55)
  else if (97 <=? n) && (n <=? 102) then Some (n - 87)
  else None.

(** The lower-case hexadecimal digit written by [{:02x}]. *)
Definition hex_digit (d : Z) : ascii :=
  ascii_of_N (Z.to_N (if d <? 10 then 48 + d else 87 + d)).

(** The closure [hex_bytes] folds over the pairs of characters. *)
Definition hex_pair (p : ascii * ascii) : outcome HexError byte :=
  let '(f, s) := p in
  match to_digit16 f, to_digit16 s with
  | None, _ => Err (BadCharacter f)
  | _, None => Err (BadCharacter s)
  | Some f, Some s => Ok (byte_of_Z (f * 16 + s))
  end.

(** [hex_bytes] on an ASCII string (one byte per character). *)
Definition hex_bytes (s : string) : outcome HexError (list byte) :=
  let '(iter, remainder) := Pair_next (list_ascii_of_string s) in
  let? v := try_map hex_pair iter in
  match remainder with
  | Some _ => Err (BadLength (String.length s))
  | None => Ok v
  end.

Definition hex_of_byte (b : byte) : list ascii :=
  [hex_digit (byte_to_Z b / 16); hex_digit (byte_to_Z b mod 16)].

Definition to_hex (s : list byte) : string :=
  string_of_list_ascii (flat_map hex_of_byte s).

(** * Facts about bytes *)
Lemma byte_to_Z_range (b : byte) : 0 <= byte_to_Z b < 256.
Proof. unfold byte_to_Z. pose proof (Byte.to_N_bounded b). lia. Qed.

Lemma byte_of_to_Z (b : byte) : byte_of_Z (byte_to_Z b) = b.
Proof. by destruct b. Qed.

Lemma byte_to_of_Z (z : Z) : byte_to_Z (byte_of_Z z) = z mod 256.
Proof.
  unfold byte_to_Z, byte_of_Z, as_u8. change (2 ^ 8) with 256.
  pose proof (Z.mod_pos_bound z 256 ltac:(lia)).
  destruct (Byte.of_N _) as [b|] eqn:Hb.
  - apply Byte.to_of_N in Hb. rewrite Hb. lia.
  - apply Byte.of_N_None_iff in Hb. lia.
Qed.

Lemma byte_to_of_Z_small (z : Z) : 0 <= z < 256 -> byte_to_Z (byte_of_Z z) = z.
Proof. intros. rewrite byte_to_of_Z. by apply Z.mod_small. Qed.

Lemma byte_to_Z_inj (a b : byte) : byte_to_Z a = byte_to_Z b -> a = b.
Proof. intros H. rewrite <-(byte_of_to_Z a), <-(byte_of_to_Z b). by rewrite H. Qed.

Lemma byte_of_Z_inj (a b : Z) :
  0 <= a < 256 -> 0 <= b < 256 -> byte_of_Z a = byte_of_Z b -> a = b.
Proof. intros. rewrite <-(byte_to_of_Z_small a), <-(byte_to_of_Z_small b) by done. congruence. Qed.

(** * Big-endian integers *)
Lemma length_to_be_bytes (n : nat) (z : Z) : length (to_be_bytes n z) = n.
Proof. induction n; simpl; congruence. Qed.

Lemma from_be_bytes_app (l1 l2 : list byte) :
  from_be_bytes (l1 ++ l2) = from_be_bytes l1 * 256 ^ Z.of_nat (length l2) + from_be_bytes l2.
Proof.
  revert l1. induction l2 as [|b l2 IH] using rev_ind; intros l1.
  - rewrite app_nil_r. change (from_be_bytes []) with 0. simpl. lia.
  - rewrite app_assoc. unfold from_be_bytes in *. rewrite !fold_left_app. simpl.
    rewrite <-fold_left_app, IH, length_app. simpl.
    rewrite Nat2Z.inj_add, Z.pow_add_r by lia. lia.
Qed.

Lemma from_be_bytes_cons (b : byte) (l : list byte) :
  from_be_bytes (b :: l) = byte_to_Z b * 256 ^ Z.of_nat (length l) + from_be_bytes l.
Proof. apply (from_be_bytes_app [b]). Qed.

Lemma from_be_bytes_range (l : list byte) :
  0 <= from_be_bytes l < 256 ^ Z.of_nat (length l).
Proof.
  induction l as [|b l IH]; [by vm_compute|].
  rewrite from_be_bytes_cons. pose proof (byte_to_Z_range b).
  change (length (b :: l)) with (S (length l)). rewrite Nat2Z.inj_succ, Z.pow_succ_r by lia. nia.
Qed.

Lemma from_to_be_bytes (n : nat) (z : Z) :
  from_be_bytes (to_be_bytes n z) = z mod 256 ^ Z.of_nat n.
Proof.
  induction n as [|n IH]; [by rewrite Z.mod_1_r|]. cbn [to_be_bytes].
  rewrite from_be_bytes_cons, IH, length_to_be_bytes, byte_to_of_Z.
  rewrite Z.shiftr_div_pow2 by lia. rewrite Nat2Z.inj_succ, Z.pow_succ_r by lia.
  rewrite Z.pow_mul_r by lia. change (2 ^ 8) with 256.
  rewrite (Z.mul_comm 256), Z.rem_mul_r by lia. lia.
Qed.

Lemma from_to_be_bytes_small (n : nat) (z : Z) :
  0 <= z < 256 ^ Z.of_nat n -> from_be_bytes (to_be_bytes n z) = z.
Proof. intros. rewrite from_to_be_bytes. by apply Z.mod_small. Qed.

Lemma from_be_bytes_inj (l1 l2 : list byte) :
  length l1 = length l2 -> from_be_bytes l1 = from_be_bytes l2 -> l1 = l2.
Proof.
  revert l2. induction l1 as [|b1 l1 IH]; intros [|b2 l2] Hlen H; try done.
  simpl in Hlen. injection Hlen as Hlen. rewrite !from_be_bytes_cons, Hlen in H.
  pose proof (from_be_bytes_range l1). pose proof (from_be_bytes_range l2). rewrite Hlen in *.
  assert (byte_to_Z b1 = byte_to_Z b2) as Hb by nia.
  rewrite Hb in H. f_equal; [by apply byte_to_Z_inj|]. apply IH; [done|lia].
Qed.

Lemma to_from_be_bytes (l : list byte) : to_be_bytes (length l) (from_be_bytes l) = l.
Proof.
  apply from_be_bytes_inj; [apply length_to_be_bytes|].
  apply from_to_be_bytes_small, from_be_bytes_range.
Qed.

Lemma to_be_bytes_inj (n : nat) (a b : Z) :
  0 <= a < 256 ^ Z.of_nat n -> 0 <= b < 256 ^ Z.of_nat n ->
  to_be_bytes n a = to_be_bytes n b -> a = b.
Proof.
  intros Ha Hb H. rewrite <-(from_to_be_bytes_small n a), <-(from_to_be_bytes_small n b) by done.
  congruence.
Qed.

(** Two's complement: writing a signed integer and reading it back. *)
Lemma to_signed_mod (bits z : Z) :
  0 < bits -> - 2 ^ (bits - 1) <= z < 2 ^ (bits - 1) -> to_signed bits (z mod 2 ^ bits) = z.
Proof.
  intros Hb Hz. unfold to_signed.
  assert (2 ^ bits = 2 * 2 ^ (bits - 1)) as Hp.
  { rewrite <-Z.pow_succ_r by lia. f_equal. lia. }
  destruct (Z_lt_le_dec z 0).
  - replace (z mod 2 ^ bits) with (z + 2 ^ bits).
    + case_match; bool_to_prop; lia.
    + apply Z.mod_unique_pos with (q := -1); lia.
  - rewrite Z.mod_small by lia. case_match; bool_to_prop; lia.
Qed.

#[export] Hint Rewrite length_to_be_bytes from_to_be_bytes byte_of_to_Z : stacks.
#[export] Hint Resolve byte_to_Z_range from_be_bytes_range : stacks.

(** * Hexadecimal round trips *)
Lemma to_digit16_hex_digit (d : Z) : 0 <= d < 16 -> to_digit16 (hex_digit d) = Some d.
Proof.
  intros Hd.
  assert (Z.to_nat d < 16)%nat as Hn by lia.
  rewrite <-(Z2Nat.id d) by lia.
  generalize dependent (Z.to_nat d). clear. intros n Hn.
  do 16 (destruct n as [|n]; [reflexivity|]). lia.
Qed.

Lemma to_digit16_range (c : ascii) (d : Z) : to_digit16 c = Some d -> 0 <= d < 16.
Proof. unfold to_digit16. repeat case_match; intros; simplify_eq; bool_to_prop; lia. Qed.

(** The lower-case form of a hexadecimal character. *)
Definition ascii_to_lower (c : ascii) : ascii :=
  let n := N_of_ascii c in
  if (65 <=? n)%N && (n <=? 90)%N then ascii_of_N (n + 32) else c.

(** A property of characters that holds of all 256 of them, by evaluation. *)
Lemma ascii_forall (P : ascii -> bool) :
  forallb (fun n => P (ascii_of_nat n)) (seq 0 256) = true -> forall c, P c = true.
Proof.
  intros H c. rewrite <-(ascii_nat_embedding c).
  apply (proj1 (forallb_forall _ _) H). apply in_seq. pose proof (nat_ascii_bounded c). lia.
Qed.

Lemma hex_digit_to_digit16 (c : ascii) (d : Z) :
  to_digit16 c = Some d -> hex_digit d = ascii_to_lower c.
Proof.
  intros H.
  pose proof (ascii_forall (fun c => match to_digit16 c with
    | Some d => Ascii.eqb (hex_digit d) (ascii_to_lower c) | None => true end)
    ltac:(by vm_compute) c) as Hc.
  simpl in Hc. rewrite H in Hc. by apply Ascii.eqb_eq.
Qed.

Lemma Pair_next_hex (l : list byte) :
  Pair_next (flat_map hex_of_byte l) =
  (map (fun b => (hex_digit (byte_to_Z b / 16), hex_digit (byte_to_Z b mod 16))) l, None).
Proof. induction l as [|b l IH]; simpl; [done|]. by rewrite IH. Qed.

Lemma hex_pair_of_byte (b : byte) :
  hex_pair (hex_digit (byte_to_Z b / 16), hex_digit (byte_to_Z b mod 16)) = Ok b.
Proof.
  pose proof (byte_to_Z_range b). unfold hex_pair.
  rewrite (to_digit16_hex_digit (_ / 16)) by div_lia.
  rewrite (to_digit16_hex_digit (_ mod 16)) by div_lia.
  cbv beta iota. f_equal. transitivity (byte_of_Z (byte_to_Z b)); [f_equal; div_lia | apply byte_of_to_Z].
Qed.

Lemma length_to_hex (l : list byte) : String.length (to_hex l) = (2 * length l)%nat.
Proof.
  unfold to_hex. induction l as [|b l IH]; simpl in *; [done|]. rewrite IH. lia.
Qed.

Lemma hex_bytes_to_hex (l : list byte) : hex_bytes (to_hex l) = Ok l.
Proof.
  unfold hex_bytes, to_hex. rewrite list_ascii_of_string_of_list_ascii, Pair_next_hex.
  replace (try_map _ _) with (Ok (E:=HexError) l); [done|].
  induction l as [|b l IH]; [done|]. cbn [map try_map].
  rewrite hex_pair_of_byte. simpl. by rewrite <-IH.
Qed.

(** A string [hex_bytes] accepts is, up to letter case, the one [to_hex] prints. *)
Lemma to_hex_hex_bytes (s : string) (l : list byte) :
  hex_bytes s = Ok l ->
  to_hex l = string_of_list_ascii (map ascii_to_lower (list_ascii_of_string s)).
Proof.
  unfold hex_bytes, to_hex. remember (list_ascii_of_string s) as cs eqn:Hcs.
  generalize (String.length s) as n. clear Hcs s. intros n H. f_equal. revert l H.
  induction cs as [cs IH] using (induction_ltof1 _ (@length ascii)). unfold ltof in IH.
  intros l H. destruct cs as [|f [|s cs]]; simpl in H; try by (out_inv; simplify_eq).
  destruct (Pair_next cs) as [ps r] eqn:Hps. cbn in H.
  destruct (to_digit16 f) as [df|] eqn:Hf; [|done].
  destruct (to_digit16 s) as [ds|] eqn:Hs; [|done]. cbn in H.
  destruct (try_map hex_pair ps) as [v| |] eqn:Hv; try done. destruct r; [done|].
  cbn in H. injection H as <-.
  pose proof (to_digit16_range _ _ Hf). pose proof (to_digit16_range _ _ Hs).
  cbn [flat_map hex_of_byte app map]. rewrite byte_to_of_Z_small by lia.
  rewrite (IH cs ltac:(simpl; lia) v) by (by rewrite Hps; cbn; rewrite Hv).
  replace ((df * 16 + ds) / 16) with df by (apply Z.div_unique_pos with (r := ds); lia).
  replace ((df * 16 + ds) mod 16) with ds by (apply Z.mod_unique_pos with (q := df); lia).
  by rewrite (hex_digit_to_digit16 f df Hf), (hex_digit_to_digit16 s ds Hs).
Qed.
