(* ===== verification/Utf8.v ===== *)
(** Utf8: the UTF-8 operations of the Rust standard library the sources rely
    on: [str::from_utf8], [str::chars], [char::len_utf8] and [char::encode_utf8].
    A [char] is its scalar value. *)
From Stdlib Require Import ZArith Lia Strings.Byte List Bool Wf_nat.
From stdpp Require Import base list option.
From S2P Require Import Prelude Bytes.
Open Scope Z_scope.

(** Unicode scalar values: every code point but the surrogates. *)
Definition is_scalar (c : Z) : bool :=
  (0 <=? c) && (c <? 55296) || (57344 <=? c) && (c <? 1114112).

Definition in_range (lo hi : Z) (b : byte) : bool := (lo <=? byte_to_Z b) && (byte_to_Z b <=? hi).
Definition is_cont (b : byte) : bool := in_range 128 191 b.

(** [c.len_utf8()] *)
Definition len_utf8 (c : Z) : Z :=
  if c <? 128 then 1 else if c <? 2048 then 2 else if c <? 65536 then 3 else 4.

(** [c.encode_utf8(..)] *)
Definition encode_utf8 (c : Z) : list byte :=
  if c <? 128 then [byte_of_Z c]
  else if c <? 2048 then [byte_of_Z (192 + c / 64); byte_of_Z (128 + c mod 64)]
  else if c <? 65536 then
    [byte_of_Z (224 + c / 4096); byte_of_Z (128 + c / 64 mod 64); byte_of_Z (128 + c mod 64)]
  else
    [byte_of_Z (240 + c / 262144); byte_of_Z (128 + c / 4096 mod 64);
     byte_of_Z (128 + c / 64 mod 64); byte_of_Z (128 + c mod 64)].

(** The scalar value of a well-formed two, three or four byte sequence
    (Unicode table 3-7: no overlong form, no surrogate, at most U+10FFFF). *)
Definition decode2 (b0 b1 : byte) : option Z :=
  if in_range 194 223 b0 && is_cont b1
  then Some ((byte_to_Z b0 - 192) * 64 + (byte_to_Z b1 - 128)) else None.

Definition decode3 (b0 b1 b2 : byte) : option Z :=
  if (in_range 224 224 b0 && in_range 160 191 b1
      || in_range 225 236 b0 && is_cont b1
      || in_range 237 237 b0 && in_range 128 159 b1
      || in_range 238 239 b0 && is_cont b1) && is_cont b2
  then Some ((byte_to_Z b0 - 224) * 4096 + (byte_to_Z b1 - 128) * 64 + (byte_to_Z b2 - 128))
  else None.

Definition decode4 (b0 b1 b2 b3 : byte) : option Z :=
  if (in_range 240 240 b0 && in_range 144 191 b1
      || in_range 241 243 b0 && is_cont b1
      || in_range 244 244 b0 && in_range 128 143 b1) && is_cont b2 && is_cont b3
  then Some ((byte_to_Z b0 - 240) * 262144 + (byte_to_Z b1 - 128) * 4096
             + (byte_to_Z b2 - 128) * 64 + (byte_to_Z b3 - 128))
  else None.

(** [str::from_utf8(l)] followed by [chars()]: [None] when [l] is not UTF-8. *)
Fixpoint utf8_chars (l : list byte) : option (list Z) :=
  match l with
  | [] => Some []
  | b0 :: l0 =>
      if byte_to_Z b0 <? 128 then cons (byte_to_Z b0) <$> utf8_chars l0
      else
        match l0 with
        | [] => None
        | b1 :: l1 =>
            match decode2 b0 b1 with
            | Some c => cons c <$> utf8_chars l1
            | None =>
                match l1 with
                | [] => None
                | b2 :: l2 =>
                    match decode3 b0 b1 b2 with
                    | Some c => cons c <$> utf8_chars l2
                    | None =>
                        match l2 with
                        | [] => None
                        | b3 :: l3 =>
                            match decode4 b0 b1 b2 b3 with
                            | Some c => cons c <$> utf8_chars l3
                            | None => None
                            end
                        end
                    end
                end
            end
        end
  end.

(** [String::from_utf8(l).is_ok()] *)
Definition is_utf8 (l : list byte) : bool :=
  match utf8_chars l with Some _ => true | None => false end.

(** * Round trips *)
Lemma length_encode_utf8 (c : Z) : Z.of_nat (length (encode_utf8 c)) = len_utf8 c.
Proof. unfold encode_utf8, len_utf8. by repeat case_match. Qed.

Lemma encode_utf8_nonempty (c : Z) : encode_utf8 c <> [].
Proof. unfold encode_utf8. by repeat case_match. Qed.

Lemma in_range_true (lo hi : Z) (b : byte) :
  in_range lo hi b = true <-> lo <= byte_to_Z b <= hi.
Proof. unfold in_range. lia. Qed.

Lemma in_range_of_Z (lo hi z : Z) :
  0 <= z < 256 -> in_range lo hi (byte_of_Z z) = (lo <=? z) && (z <=? hi).
Proof. intros. unfold in_range. by rewrite byte_to_of_Z_small. Qed.

Lemma decode2_encode (c : Z) :
  128 <= c < 2048 -> decode2 (byte_of_Z (192 + c / 64)) (byte_of_Z (128 + c mod 64)) = Some c.
Proof.
  intros. unfold decode2, is_cont.
  assert (2 <= c / 64 < 32 /\ 0 <= c mod 64 < 64) by div_lia.
  rewrite !in_range_of_Z, !byte_to_of_Z_small by lia.
  case_match; [f_equal; div_lia | lia].
Qed.

Lemma decode2_high (b0 b1 : byte) : 224 <= byte_to_Z b0 -> decode2 b0 b1 = None.
Proof. intros. unfold decode2, in_range. case_match; [lia|done]. Qed.

Lemma decode3_high (b0 b1 b2 : byte) : 240 <= byte_to_Z b0 -> decode3 b0 b1 b2 = None.
Proof. intros. unfold decode3, in_range. case_match; [lia|done]. Qed.

Lemma decode3_encode (c : Z) :
  2048 <= c < 65536 -> ~ (55296 <= c < 57344) ->
  decode3 (byte_of_Z (224 + c / 4096)) (byte_of_Z (128 + c / 64 mod 64))
    (byte_of_Z (128 + c mod 64)) = Some c.
Proof.
  intros. unfold decode3, is_cont.
  assert (0 <= c / 4096 < 16 /\ 0 <= c mod 64 < 64 /\ 0 <= c / 64 mod 64 < 64) by div_lia.
  assert (c = (c / 4096) * 4096 + (c / 64 mod 64) * 64 + c mod 64) as Hc by div_lia.
  rewrite !in_range_of_Z, !byte_to_of_Z_small by lia.
  case_match; [f_equal; lia | lia].
Qed.

Lemma decode4_encode (c : Z) :
  65536 <= c < 1114112 ->
  decode4 (byte_of_Z (240 + c / 262144)) (byte_of_Z (128 + c / 4096 mod 64))
    (byte_of_Z (128 + c / 64 mod 64)) (byte_of_Z (128 + c mod 64)) = Some c.
Proof.
  intros. unfold decode4, is_cont.
  assert (0 <= c / 262144 < 5 /\ 0 <= c mod 64 < 64 /\ 0 <= c / 64 mod 64 < 64
          /\ 0 <= c / 4096 mod 64 < 64) by div_lia.
  assert (c = (c / 262144) * 262144 + (c / 4096 mod 64) * 4096 + (c / 64 mod 64) * 64 + c mod 64)
    as Hc by div_lia.
  rewrite !in_range_of_Z, !byte_to_of_Z_small by lia.
  case_match; [f_equal; lia | lia].
Qed.

(** Reading back one encoded scalar value. *)
Lemma utf8_chars_encode (c : Z) (l : list byte) :
  is_scalar c = true -> utf8_chars (encode_utf8 c ++ l) = cons c <$> utf8_chars l.
Proof.
  intros Hc.
  assert (0 <= c < 1114112 /\ ~ (55296 <= c < 57344)) as Hr by (unfold is_scalar in Hc; lia).
  unfold encode_utf8.
  destruct (Z.ltb_spec c 128) as [H1|H1].
  { cbn [app utf8_chars]. rewrite byte_to_of_Z_small by lia. by case_match; [|lia]. }
  destruct (Z.ltb_spec c 2048) as [H2|H2]; [|destruct (Z.ltb_spec c 65536) as [H3|H3]];
    cbn [app utf8_chars].
  - rewrite (proj2 (Z.ltb_ge _ 128)) by (rewrite byte_to_of_Z_small; div_lia).
    by rewrite decode2_encode by lia.
  - assert (0 <= c / 4096 < 16) by div_lia.
    rewrite (proj2 (Z.ltb_ge _ 128)) by (rewrite byte_to_of_Z_small; lia).
    rewrite decode2_high by (rewrite byte_to_of_Z_small; lia).
    by rewrite decode3_encode by lia.
  - assert (0 <= c / 262144 < 5) by div_lia.
    rewrite (proj2 (Z.ltb_ge _ 128)) by (rewrite byte_to_of_Z_small; lia).
    rewrite decode2_high by (rewrite byte_to_of_Z_small; lia).
    rewrite decode3_high by (rewrite byte_to_of_Z_small; lia).
    by rewrite decode4_encode by lia.
Qed.

Lemma utf8_chars_concat (cs : list Z) :
  Forall (fun c => is_scalar c = true) cs -> utf8_chars (concat (encode_utf8 <$> cs)) = Some cs.
Proof.
  induction 1 as [|c cs Hc _ IH]; [done|].
  cbn [fmap list_fmap concat]. by rewrite utf8_chars_encode, IH.
Qed.

Lemma is_utf8_ascii (l : list byte) :
  Forall (fun b => byte_to_Z b < 128) l -> is_utf8 l = true.
Proof.
  intros Hl. unfold is_utf8.
  assert (utf8_chars l = Some (byte_to_Z <$> l)) as ->; [|done].
  induction Hl as [|b l Hb _ IH]; [done|].
  cbn [utf8_chars fmap list_fmap]. rewrite IH. by case_match; [|lia].
Qed.

Lemma decode2_Some (b0 b1 : byte) (c : Z) :
  decode2 b0 b1 = Some c -> is_scalar c = true /\ encode_utf8 c = [b0; b1].
Proof.
  unfold decode2, is_cont, in_range. case_match; [|done]. intros [= <-].
  split; [unfold is_scalar; lia|].
  pose proof (byte_to_Z_range b1). unfold encode_utf8.
  destruct (Z.ltb_spec ((byte_to_Z b0 - 192) * 64 + (byte_to_Z b1 - 128)) 128); [lia|].
  destruct (Z.ltb_spec ((byte_to_Z b0 - 192) * 64 + (byte_to_Z b1 - 128)) 2048); [|lia].
  f_equal; [|f_equal]; apply byte_to_Z_inj; rewrite byte_to_of_Z_small; div_lia.
Qed.

Lemma decode3_Some (b0 b1 b2 : byte) (c : Z) :
  decode3 b0 b1 b2 = Some c -> is_scalar c = true /\ encode_utf8 c = [b0; b1; b2].
Proof.
  unfold decode3, is_cont, in_range. case_match; [|done]. intros [= <-].
  split; [unfold is_scalar; lia|].
  remember ((byte_to_Z b0 - 224) * 4096 + (byte_to_Z b1 - 128) * 64 + (byte_to_Z b2 - 128)) as c.
  assert (2048 <= c < 65536) by lia. unfold encode_utf8.
  destruct (Z.ltb_spec c 128); [lia|]. destruct (Z.ltb_spec c 2048); [lia|].
  destruct (Z.ltb_spec c 65536); [|lia].
  assert (c / 4096 = byte_to_Z b0 - 224 /\ c / 64 mod 64 = byte_to_Z b1 - 128
          /\ c mod 64 = byte_to_Z b2 - 128) as (-> & -> & ->) by div_lia.
  f_equal; [|f_equal; [|f_equal]]; apply byte_to_Z_inj; rewrite byte_to_of_Z_small; lia.
Qed.

Lemma decode4_Some (b0 b1 b2 b3 : byte) (c : Z) :
  decode4 b0 b1 b2 b3 = Some c -> is_scalar c = true /\ encode_utf8 c = [b0; b1; b2; b3].
Proof.
  unfold decode4, is_cont, in_range. case_match; [|done]. intros [= <-].
  split; [unfold is_scalar; lia|].
  remember ((byte_to_Z b0 - 240) * 262144 + (byte_to_Z b1 - 128) * 4096
            + (byte_to_Z b2 - 128) * 64 + (byte_to_Z b3 - 128)) as c.
  assert (65536 <= c < 1114112) by lia. unfold encode_utf8.
  destruct (Z.ltb_spec c 128); [lia|]. destruct (Z.ltb_spec c 2048); [lia|].
  destruct (Z.ltb_spec c 65536); [lia|].
  assert (c / 262144 = byte_to_Z b0 - 240 /\ c / 4096 mod 64 = byte_to_Z b1 - 128
          /\ c / 64 mod 64 = byte_to_Z b2 - 128
          /\ c mod 64 = byte_to_Z b3 - 128) as (-> & -> & -> & ->) by div_lia.
  f_equal; [|f_equal; [|f_equal; [|f_equal]]]; apply byte_to_Z_inj;
    rewrite byte_to_of_Z_small; lia.
Qed.

Lemma encode_utf8_ascii (b : byte) :
  byte_to_Z b < 128 -> is_scalar (byte_to_Z b) = true /\ encode_utf8 (byte_to_Z b) = [b].
Proof.
  pose proof (byte_to_Z_range b). intros. unfold is_scalar, encode_utf8.
  split; [lia|]. case_match; [|lia]. by rewrite byte_of_to_Z.
Qed.

(** The scalar values of a UTF-8 string re-encode to exactly its bytes. *)
Lemma encode_utf8_chars (l : list byte) (cs : list Z) :
  utf8_chars l = Some cs ->
  Forall (fun c => is_scalar c = true) cs /\ concat (encode_utf8 <$> cs) = l.
Proof.
  revert cs. induction l as [l IH] using (induction_ltof1 _ (@length byte)).
  unfold ltof in IH.
  assert (forall p l' c cs, l = p ++ l' -> p <> [] -> is_scalar c = true -> encode_utf8 c = p ->
            cons c <$> utf8_chars l' = Some cs ->
            Forall (fun c => is_scalar c = true) cs /\ concat (encode_utf8 <$> cs) = l) as Hstep.
  { intros p l' c cs -> Hp Hc He Hcs. destruct (utf8_chars l') as [cs'|] eqn:E; [|done].
    simplify_eq/=. destruct (IH l') with cs' as [H1 H2]; [|done|].
    - rewrite length_app. destruct (encode_utf8 c); [done|simpl; lia].
    - split; [by constructor|]. by rewrite H2. }
  destruct l as [|b0 l0]; cbn [utf8_chars]; intros cs Hcs; [by simplify_eq|].
  destruct (Z.ltb_spec (byte_to_Z b0) 128) as [Hb|Hb].
  { destruct (encode_utf8_ascii b0 Hb) as [H1 H2].
    by apply (Hstep [b0] l0 (byte_to_Z b0) cs). }
  destruct l0 as [|b1 l1]; [done|].
  destruct (decode2 b0 b1) as [c|] eqn:E2.
  { apply decode2_Some in E2 as [H1 H2]. by apply (Hstep [b0; b1] l1 c cs). }
  destruct l1 as [|b2 l2]; [done|].
  destruct (decode3 b0 b1 b2) as [c|] eqn:E3.
  { apply decode3_Some in E3 as [H1 H2]. by apply (Hstep [b0; b1; b2] l2 c cs). }
  destruct l2 as [|b3 l3]; [done|].
  destruct (decode4 b0 b1 b2 b3) as [c|] eqn:E4; [|done].
  apply decode4_Some in E4 as [H1 H2]. by apply (Hstep [b0; b1; b2; b3] l3 c cs).
Qed.
