(* ===== verification/Codec.v ===== *)
(** Codec: the consensus wire format of stacks-common/src/codec/{mod,macros}.rs
    (trait [StacksMessageCodec]) and the byte readers it runs on, including
    [BoundReader] of stacks-common/src/util/retry.rs.

    A reader over a byte slice is the list of the bytes left to read; a writer
    into a [Vec<u8>] is the list of bytes written.  A type that implements the
    trait is a [Codec] record, and [codec_ok] is the law its two directions obey. *)
From Stdlib Require Import ZArith Lia Strings.Byte Strings.String List Bool.
From stdpp Require Import base list strings.
From S2P Require Import Prelude Bytes.
Open Scope Z_scope.

(** * Readers *)
Inductive io_error := UnexpectedEof | OtherIo.

Inductive codec_error :=
| SerializeError (msg : string)
| ReadError (e : io_error)
| DeserializeError (msg : string)
| WriteError (e : io_error)
| UnderflowError (msg : string)
| OverflowError (msg : string)
| ArrayTooLong.

(** [fd.read(&mut buf)] on a slice: up to [n] bytes, and what is left. *)
Definition slice_read (n : nat) (fd : list byte) : list byte * list byte :=
  (firstn n fd, skipn n fd).

(** [fd.read_exact(&mut buf)] on a slice. *)
Definition read_exact (n : nat) (fd : list byte) : outcome io_error (list byte * list byte) :=
  if Nat.leb n (length fd) then Ok (firstn n fd, skipn n fd) else Err UnexpectedEof.

(** [BoundReader]: reads at most [br_max_len] bytes of [br_fd] before EOF. *)
Record BoundReader := {
  br_fd : list byte;
  br_max_len : Z;
  br_read_so_far : Z
}.

Definition BoundReader_from_reader (reader : list byte) (max_len : Z) : BoundReader :=
  {| br_fd := reader; br_max_len := max_len; br_read_so_far := 0 |}.

Definition BoundReader_read (n : nat) (r : BoundReader) : outcome io_error (list byte * BoundReader) :=
  let? intended_read := ok_or OtherIo (checked_add u64_ty (br_read_so_far r) (Z.of_nat n)) in
  let max_read :=
    if br_max_len r <? intended_read then br_max_len r - br_read_so_far r else Z.of_nat n in
  let '(data, fd) := slice_read (Z.to_nat max_read) (br_fd r) in
  Ok (data, {| br_fd := fd; br_max_len := br_max_len r;
               br_read_so_far := br_read_so_far r + Z.of_nat (length data) |}).

(** The default [Read::read_exact]: reads until the buffer is full, and fails
    with [UnexpectedEof] when a read returns no byte.  [fuel] bounds the number
    of reads; one more than the buffer's length is always enough. *)
Fixpoint BoundReader_read_exact_loop (fuel n : nat) (r : BoundReader) (acc : list byte)
  : outcome io_error (list byte * BoundReader) :=
  match n with
  | O => Ok (acc, r)
  | _ =>
      match fuel with
      | O => Panic
      | S fuel =>
          let? '(data, r') := BoundReader_read n r in
          match data with
          | [] => Err UnexpectedEof
          | _ => BoundReader_read_exact_loop fuel (n - length data) r' (acc ++ data)
          end
      end
  end.

Definition BoundReader_read_exact (n : nat) (r : BoundReader) : outcome io_error (list byte * BoundReader) :=
  BoundReader_read_exact_loop (S n) n r [].

(** * The codec trait *)
Record Codec (T : Type) := {
  consensus_serialize : T -> outcome codec_error (list byte);
  consensus_deserialize : list byte -> outcome codec_error (T * list byte);
  (** [mem::size_of::<T>()] *)
  mem_size_of : Z
}.
Arguments consensus_serialize {T} c.
Arguments consensus_deserialize {T} c.
Arguments mem_size_of {T} c.

(** [serialize_to_vec] unwraps the serialization error. *)
Definition serialize_to_vec {T : Type} (c : Codec T) (x : T) : outcome codec_error (list byte) :=
  expect (consensus_serialize c x).

Definition write_next {T : Type} (c : Codec T) (item : T) : outcome codec_error (list byte) :=
  consensus_serialize c item.

Definition read_next {T : Type} (c : Codec T) (fd : list byte) : outcome codec_error (T * list byte) :=
  let? '(item, fd) := consensus_deserialize c fd in Ok (item, fd).

(** [impl_stacks_message_codec_for_int!]: an unsigned integer of [n] bytes. *)
Definition uint_codec (n : nat) : Codec Z := {|
  consensus_serialize x := Ok (to_be_bytes n x);
  consensus_deserialize fd :=
    let? '(buf, fd) := map_err ReadError (read_exact n fd) in Ok (from_be_bytes buf, fd);
  mem_size_of := Z.of_nat n
|}.
Definition u8_codec : Codec Z := uint_codec 1.
Definition u16_codec : Codec Z := uint_codec 2.
Definition u32_codec : Codec Z := uint_codec 4.
Definition u64_codec : Codec Z := uint_codec 8.

(** ... and the signed [i64]. *)
Definition i64_codec : Codec Z := {|
  consensus_serialize x := Ok (to_be_bytes 8 x);
  consensus_deserialize fd :=
    let? '(buf, fd) := map_err ReadError (read_exact 8 fd) in Ok (to_signed 64 (from_be_bytes buf), fd);
  mem_size_of := 8
|}.

(** [impl_byte_array_message_codec!] and the implementation for [[u8; 32]]. *)
Definition byte_array_codec (len : nat) : Codec (list byte) := {|
  consensus_serialize x := Ok x;
  consensus_deserialize fd :=
    let? '(buf, fd) := map_err ReadError (read_exact len fd) in Ok (buf, fd);
  mem_size_of := Z.of_nat len
|}.

(** * Sizes of messages *)
Definition HASH160_ENCODED_SIZE : Z := 20.
Definition MESSAGE_SIGNATURE_ENCODED_SIZE : Z := 65.
Definition BURNCHAIN_HEADER_HASH_ENCODED_SIZE : Z := 32.
Definition PEER_ADDRESS_ENCODED_SIZE : Z := 16.
Definition NEIGHBOR_ADDRESS_ENCODED_SIZE : Z := PEER_ADDRESS_ENCODED_SIZE + 2 + HASH160_ENCODED_SIZE.
Definition RELAY_DATA_ENCODED_SIZE : Z := NEIGHBOR_ADDRESS_ENCODED_SIZE + 4.
Definition MAX_RELAYERS_LEN : Z := 16.
Definition PREAMBLE_ENCODED_SIZE : Z :=
  4 + 4 + 4 + 8 + BURNCHAIN_HEADER_HASH_ENCODED_SIZE + 8 + BURNCHAIN_HEADER_HASH_ENCODED_SIZE
  + 4 + MESSAGE_SIGNATURE_ENCODED_SIZE + 4.
Definition MAX_PAYLOAD_LEN : Z := 1 + 16 * 1024 * 1024.
Definition MAX_MESSAGE_LEN : Z :=
  MAX_PAYLOAD_LEN + (PREAMBLE_ENCODED_SIZE + MAX_RELAYERS_LEN * RELAY_DATA_ENCODED_SIZE).

(** * Vectors *)
(** [for _i in 0..len { ret.push(T::consensus_deserialize(fd)?) }] *)
Fixpoint read_items {T : Type} (c : Codec T) (len : nat) (fd : list byte)
  : outcome codec_error (list T * list byte) :=
  match len with
  | O => Ok ([], fd)
  | S len =>
      let? '(next_item, fd) := consensus_deserialize c fd in
      let? '(ret, fd) := read_items c len fd in
      Ok (next_item :: ret, fd)
  end.

Definition read_next_vec {T : Type} (c : Codec T) (num_items max_items : Z) (fd : list byte)
  : outcome codec_error (list T * list byte) :=
  let? '(len, fd) := consensus_deserialize u32_codec fd in
  if (if 0 <? max_items then max_items <? len else negb (len =? num_items)) then
    Err (DeserializeError (if 0 <? max_items then "Array has too many items"
                           else "Array has incorrect number of items"))
  else if MAX_MESSAGE_LEN <? mem_size_of c * len then
    Err (DeserializeError "Message occupies too many bytes")
  else read_items c (Z.to_nat len) fd.

Definition read_next_at_most {T : Type} (c : Codec T) (max_items : Z) (fd : list byte)
  : outcome codec_error (list T * list byte) :=
  read_next_vec c 0 max_items fd.

Definition read_next_exact {T : Type} (c : Codec T) (num_items : Z) (fd : list byte)
  : outcome codec_error (list T * list byte) :=
  read_next_vec c num_items 0 fd.

Fixpoint write_items {T : Type} (c : Codec T) (l : list T) : outcome codec_error (list byte) :=
  match l with
  | [] => Ok []
  | x :: l =>
      let? bs := write_next c x in
      let? rest := write_items c l in
      Ok (bs ++ rest)
  end.

(** [impl StacksMessageCodec for Vec<T>]; a [Vec] occupies three machine words. *)
Definition vec_codec {T : Type} (c : Codec T) : Codec (list T) := {|
  consensus_serialize l :=
    let? hd := write_next u32_codec (as_u32 (Z.of_nat (length l))) in
    let? tl := write_items c l in
    Ok (hd ++ tl);
  consensus_deserialize fd := read_next_at_most c u32_max fd;
  mem_size_of := 24
|}.

(** * Laws *)
(** Every value in [P] is written, and reading the bytes written returns it
    and leaves exactly the bytes that followed. *)
Definition codec_ok {T : Type} (P : T -> Prop) (c : Codec T) : Prop :=
  forall x rest, P x ->
    exists bs, consensus_serialize c x = Ok bs /\
               consensus_deserialize c (bs ++ rest) = Ok (x, rest).

Lemma read_exact_app (l rest : list byte) :
  read_exact (length l) (l ++ rest) = Ok (l, rest).
Proof.
  unfold read_exact. rewrite length_app, (proj2 (Nat.leb_le _ _)) by lia.
  by rewrite firstn_app, Nat.sub_diag, firstn_all, firstn_O, app_nil_r, skipn_app,
    Nat.sub_diag, skipn_all.
Qed.

Lemma read_exact_app' (n : nat) (l rest : list byte) :
  length l = n -> read_exact n (l ++ rest) = Ok (l, rest).
Proof. intros <-. apply read_exact_app. Qed.

Lemma read_exact_Ok (n : nat) (fd buf rest : list byte) :
  read_exact n fd = Ok (buf, rest) <-> fd = buf ++ rest /\ length buf = n.
Proof.
  split.
  - unfold read_exact. destruct (Nat.leb_spec n (length fd)); [|done].
    intros [= <- <-]. split; [by rewrite firstn_skipn|]. apply firstn_length_le. lia.
  - intros [-> <-]. apply read_exact_app.
Qed.

Lemma uint_codec_ok (n : nat) : codec_ok (fun x => 0 <= x < 256 ^ Z.of_nat n) (uint_codec n).
Proof.
  intros x rest Hx. eexists. split; [done|]. simpl.
  rewrite (read_exact_app' n) by apply length_to_be_bytes. simpl.
  by rewrite from_to_be_bytes_small.
Qed.

Lemma i64_codec_ok : codec_ok (fun x => - 2 ^ 63 <= x < 2 ^ 63) i64_codec.
Proof.
  intros x rest Hx. eexists. split; [done|]. cbn [consensus_deserialize i64_codec].
  rewrite (read_exact_app' 8) by apply length_to_be_bytes. cbn [map_err out_bind].
  rewrite from_to_be_bytes. change (256 ^ Z.of_nat 8) with (2 ^ 64).
  by rewrite to_signed_mod by lia.
Qed.

Lemma byte_array_codec_ok (n : nat) :
  codec_ok (fun x => length x = n) (byte_array_codec n).
Proof.
  intros x rest Hx. eexists. split; [done|]. simpl. by rewrite (read_exact_app' n).
Qed.

#[export] Hint Resolve uint_codec_ok i64_codec_ok byte_array_codec_ok : stacks.

Lemma items_ok {T : Type} (P : T -> Prop) (c : Codec T) (l : list T) (rest : list byte) :
  codec_ok P c -> Forall P l ->
  exists bs, write_items c l = Ok bs /\ read_items c (length l) (bs ++ rest) = Ok (l, rest).
Proof.
  intros Hc Hl. induction Hl as [|x l Hx Hl (bs & Hw & Hr)]; [by exists []|].
  destruct (Hc x (bs ++ rest) Hx) as (b & Hwx & Hrx).
  exists (b ++ bs). simpl. unfold write_next. rewrite Hwx, Hw. split; [done|].
  by rewrite <-app_assoc, Hrx; simpl; rewrite Hr.
Qed.

Lemma length_read_items {T : Type} (c : Codec T) (n : nat) (fd : list byte) (l : list T) (fd' : list byte) :
  read_items c n fd = Ok (l, fd') -> length l = n.
Proof.
  revert fd l. induction n as [|n IH]; simpl; intros fd l H; [by out_inv|].
  apply out_bind_Ok in H as ([x fd1] & _ & H).
  apply out_bind_Ok in H as ([l1 fd2] & H1 & H). out_inv. simpl. f_equal. eauto.
Qed.

(** A vector is read back from its own encoding, whatever follows it, when
    its items are (by the law of the item codec), it has at most [u32::MAX]
    items and they fit in a message. *)
Lemma vec_codec_roundtrip {T : Type} (P : T -> Prop) (c : Codec T) (l : list T) (rest : list byte) :
  codec_ok P c -> Forall P l -> Z.of_nat (length l) <= u32_max ->
  mem_size_of c * Z.of_nat (length l) <= MAX_MESSAGE_LEN ->
  exists bs, consensus_serialize (vec_codec c) l = Ok bs /\
             consensus_deserialize (vec_codec c) (bs ++ rest) = Ok (l, rest).
Proof.
  intros Hc Hl Hlen Hsize.
  destruct (items_ok P c l rest Hc Hl) as (bs & Hw & Hr).
  assert (as_u32 (Z.of_nat (length l)) = Z.of_nat (length l)) as Has.
  { unfold as_u32. apply Z.mod_small. int_lia. }
  eexists. cbn [consensus_serialize vec_codec]. rewrite Hw, Has. split; [done|].
  cbn [consensus_deserialize vec_codec]. unfold read_next_at_most, read_next_vec.
  rewrite <-app_assoc. cbn [consensus_deserialize u32_codec uint_codec].
  rewrite (read_exact_app' 4) by apply length_to_be_bytes.
  cbn [map_err out_bind]. rewrite from_to_be_bytes_small by (change (256 ^ Z.of_nat 4) with (2 ^ 32); int_lia).
  change (0 <? u32_max) with true. cbv beta iota.
  rewrite (proj2 (Z.ltb_ge _ _)) by done. rewrite (proj2 (Z.ltb_ge _ _)) by done.
  by rewrite Nat2Z.id.
Qed.

Lemma vec_codec_roundtrip_witness :
  exists bs, consensus_serialize (vec_codec u16_codec) [1; 258; 65535] = Ok bs /\
             consensus_deserialize (vec_codec u16_codec) (bs ++ [x07]) = Ok ([1; 258; 65535], [x07]).
Proof.
  apply (vec_codec_roundtrip (fun x => 0 <= x < 256 ^ Z.of_nat 2)).
  - apply (uint_codec_ok 2).
  - repeat constructor; vm_compute; congruence.
  - vm_compute. congruence.
  - vm_compute. congruence.
Defined.

(** What [read_next_vec] accepts: a vector read from the network never has
    more items than allowed, has exactly the expected number when one is
    expected, and never claims more memory than a message may take. *)
Lemma read_next_vec_bounds {T : Type} (c : Codec T) (num_items max_items : Z)
    (fd : list byte) (l : list T) (fd' : list byte) :
  read_next_vec c num_items max_items fd = Ok (l, fd') ->
  mem_size_of c * Z.of_nat (length l) <= MAX_MESSAGE_LEN /\
  (0 < max_items -> Z.of_nat (length l) <= max_items) /\
  (max_items <= 0 -> Z.of_nat (length l) = num_items).
Proof.
  unfold read_next_vec. intros H. apply out_bind_Ok in H as ([len fd1] & Hlen & H).
  cbn in Hlen. apply out_bind_Ok in Hlen as ([buf fd2] & Hbuf & Hlen). injection Hlen as <- <-.
  pose proof (from_be_bytes_range buf) as Hr. revert Hr H. generalize (from_be_bytes buf) as n.
  intros n Hr H.
  destruct (0 <? max_items) eqn:Hmax; repeat (case_match; [done|]);
    apply length_read_items in H; bool_to_prop; rewrite H; rewrite Z2Nat.id by lia; lia.
Qed.

Lemma read_next_vec_bounds_witness :
  mem_size_of u8_codec * Z.of_nat (length [7; 8]) <= MAX_MESSAGE_LEN /\
  (0 < 2 -> Z.of_nat (length [7; 8]) <= 2) /\ (2 <= 0 -> Z.of_nat (length [7; 8]) = 0).
Proof.
  apply (read_next_vec_bounds u8_codec 0 2 [x00; x00; x00; x02; x07; x08] [7; 8] []). vm_compute. reflexivity.
Defined.

(** The bytes a bound reader may still deliver. *)
Definition br_budget (r : BoundReader) : nat := Z.to_nat (br_max_len r - br_read_so_far r).

(** The state of a bound reader after [n] more bytes. *)
Definition br_advance (n : nat) (r : BoundReader) : BoundReader :=
  {| br_fd := skipn n (br_fd r); br_max_len := br_max_len r;
     br_read_so_far := br_read_so_far r + Z.of_nat n |}.

Lemma BoundReader_read_Ok (n : nat) (r : BoundReader) :
  0 <= br_read_so_far r <= br_max_len r -> br_max_len r + Z.of_nat n <= u64_max ->
  BoundReader_read n r =
  Ok (firstn (Nat.min n (br_budget r)) (br_fd r),
      br_advance (Nat.min n (Nat.min (br_budget r) (length (br_fd r)))) r).
Proof.
  intros Hr Hn. unfold BoundReader_read, br_budget.
  rewrite (proj2 (checked_add_Some _ _ _ _)) by (split; [done|int_lia]). cbn.
  set (m := if _ <? _ then _ else _).
  assert (Z.to_nat m = Nat.min n (Z.to_nat (br_max_len r - br_read_so_far r))) as ->.
  { subst m. case_match; bool_to_prop; lia. }
  unfold br_advance. do 3 f_equal; rewrite ?length_firstn; try lia.
  rewrite Nat.min_assoc. destruct (Nat.le_gt_cases
    (Nat.min n (Z.to_nat (br_max_len r - br_read_so_far r))) (length (br_fd r))).
  - f_equal. lia.
  - rewrite !skipn_all2 by lia. done.
Qed.

(** A bound reader is a reader of its input cut off at the bound. *)
Lemma BoundReader_read_exact_spec (n : nat) (r : BoundReader) :
  0 <= br_read_so_far r <= br_max_len r -> br_max_len r + Z.of_nat n <= u64_max ->
  BoundReader_read_exact n r =
  let? '(data, _) := read_exact n (firstn (br_budget r) (br_fd r)) in
  Ok (data, br_advance n r).
Proof.
  intros Hr Hn. unfold BoundReader_read_exact. destruct n as [|n].
  { simpl. unfold br_advance. destruct r; simpl. by rewrite Z.add_0_r. }
  cbn [BoundReader_read_exact_loop]. rewrite BoundReader_read_Ok by done. cbn [out_bind].
  set (k := Nat.min (S n) (Nat.min (br_budget r) (length (br_fd r)))).
  set (d := firstn _ _).
  assert (length d = k) as Hd by (subst d k; rewrite length_firstn; lia).
  assert (read_exact (S n) (firstn (br_budget r) (br_fd r)) =
          if Nat.eqb k (S n) then Ok (d, skipn (S n) (firstn (br_budget r) (br_fd r)))
          else Err UnexpectedEof) as ->.
  { unfold read_exact. rewrite length_firstn. subst d k.
    destruct (Nat.leb_spec (S n) (Nat.min (br_budget r) (length (br_fd r)))).
    - rewrite (proj2 (Nat.eqb_eq _ _)) by lia. by rewrite firstn_firstn.
    - by rewrite (proj2 (Nat.eqb_neq _ _)) by lia. }
  destruct (Nat.eqb_spec k (S n)) as [Hk|Hk]; cbn [out_bind].
  - destruct d; [simpl in Hd; lia|]. rewrite Hd, Hk, Nat.sub_diag. by destruct n.
  - destruct d as [|b d'] eqn:Ed; [done|]. rewrite Hd. cbn [app].
    assert (0 < k < S n)%nat as Hk' by (simpl in Hd; lia).
    destruct (S n - k)%nat as [|m] eqn:Em; [lia|].
    destruct n as [|n]; [lia|]. cbn [BoundReader_read_exact_loop].
    unfold br_budget in k. clear Ed Hd.
    rewrite BoundReader_read_Ok; unfold br_advance, br_budget;
      cbn [br_fd br_max_len br_read_so_far]; [|lia|lia].
    cbn [out_bind]. replace (firstn _ _) with (@nil byte); [done|]. symmetry.
    apply length_zero_iff_nil. rewrite length_firstn, length_skipn. lia.
Qed.
