(* ===== verification/Representations.v ===== *)
(** Representations: the names, principals and identifiers of Clarity
    (clarity/src/vm/representations.rs, the identifier types of
    clarity/src/vm/types/mod.rs and signatures.rs, [StacksAddress] of
    stacks-common/src/types/chainstate.rs), with their wire formats.

    A Rust [String] is a Rocq [string] of bytes.  [ClarityName] and
    [ContractName] wrap a [String] whose constructor checks a regular
    expression; they are modelled by the string together with the predicates
    [ClarityName_valid] and [ContractName_valid]. *)
From Stdlib Require Import ZArith Lia Strings.Byte Strings.String Strings.Ascii List Bool.
From stdpp Require Import base decidable countable list strings.
From S2P Require Import Prelude Bytes Utf8 Codec.
Open Scope Z_scope.

(** * Run-time errors of the interpreter (clarity/src/vm/errors.rs) *)
Module RuntimeErr.
Inductive RuntimeErrorType :=
| Arithmetic (msg : string)
| ArithmeticOverflow
| ArithmeticUnderflow
| SupplyOverflow (have max : Z)
| SupplyUnderflow (have min : Z)
| DivisionByZero
| ParseError (msg : string)
| ASTError (msg : string)
| MaxStackDepthReached
| MaxContextDepthReached
| ListDimensionTooHigh
| BadTypeConstruction
| ValueTooLarge
| BadBlockHeight (msg : string)
| TransferNonPositiveAmount
| NoSuchToken
| NotImplemented
| NoSenderInContext
| NonPositiveTokenSupply
| JSONParseError
| AttemptToFetchInTransientContext
| BadNameValue (label value : string)
| UnknownBlockHeaderHash (hash : list byte)
| BadBlockHash (hash : list byte)
| UnwrapFailure.
End RuntimeErr.
Notation RuntimeErrorType := RuntimeErr.RuntimeErrorType.

(** * Names *)
Definition MAX_STRING_LEN : Z := 128.
Definition CONTRACT_MIN_NAME_LENGTH : Z := 1.
Definition CONTRACT_MAX_NAME_LENGTH : Z := 40.

Definition str_len (s : string) : Z := Z.of_nat (String.length s).

Definition is_ascii_letter (c : ascii) : bool :=
  let n := Z.of_N (N_of_ascii c) in
  (97 <=? n) && (n <=? 122) || (65 <=? n) && (n <=? 90).
Definition is_ascii_digit (c : ascii) : bool :=
  let n := Z.of_N (N_of_ascii c) in (48 <=? n) && (n <=? 57).

(** The character class [[cs]] of a regular expression. *)
Fixpoint one_of (cs : string) (c : ascii) : bool :=
  match cs with
  | EmptyString => false
  | String c' cs => Ascii.eqb c c' || one_of cs c
  end.

Fixpoint all_chars (p : ascii -> bool) (s : string) : bool :=
  match s with
  | EmptyString => true
  | String c s => p c && all_chars p s
  end.

(** [^[a-zA-Z]([a-zA-Z0-9]|[extra])*$] *)
Definition letter_then (extra s : string) : bool :=
  match s with
  | EmptyString => false
  | String c s =>
      is_ascii_letter c
      && all_chars (fun c => is_ascii_letter c || is_ascii_digit c || one_of extra c) s
  end.

Definition CLARITY_NAME_REGEX (s : string) : bool :=
  letter_then "-_!?+<>=/*" s
  || (match s with String c EmptyString => one_of "-+=/*" c | _ => false end)
  || (match s with
      | String c EmptyString => one_of "<>" c
      | String c (String e EmptyString) => one_of "<>" c && Ascii.eqb e "="
      | _ => false
      end).

Definition CONTRACT_NAME_REGEX (s : string) : bool :=
  letter_then "-_" s || String.eqb s "__transient".

(** [guarded_string!]: the checked constructor of a name. *)
Definition guarded_try_from (label : string) (regex : string -> bool) (value : string)
  : outcome RuntimeErrorType string :=
  if MAX_STRING_LEN <? str_len value then Err (RuntimeErr.BadNameValue label value)
  else if regex value then Ok value
  else Err (RuntimeErr.BadNameValue label value).

Definition ClarityName_try_from : string -> outcome RuntimeErrorType string :=
  guarded_try_from "ClarityName" CLARITY_NAME_REGEX.
Definition ContractName_try_from : string -> outcome RuntimeErrorType string :=
  guarded_try_from "ContractName" CONTRACT_NAME_REGEX.

Definition ClarityName_valid (s : string) : bool :=
  (str_len s <=? MAX_STRING_LEN) && CLARITY_NAME_REGEX s.
Definition ContractName_valid (s : string) : bool :=
  (str_len s <=? MAX_STRING_LEN) && CONTRACT_NAME_REGEX s.

(** [String::from_utf8(bytes)] *)
Definition string_from_utf8 (bytes : list byte) : option string :=
  if is_utf8 bytes then Some (string_of_list_byte bytes) else None.

Definition as_bytes (s : string) : list byte := list_byte_of_string s.

Definition ClarityName_codec : Codec string := {|
  consensus_serialize self :=
    if MAX_STRING_LEN <? str_len self then
      Err (SerializeError "Failed to serialize clarity name: too long")
    else
      let? len := write_next u8_codec (as_u8 (str_len self)) in
      Ok (len ++ as_bytes self);
  consensus_deserialize fd :=
    let? '(len_byte, fd) := read_next u8_codec fd in
    if MAX_STRING_LEN <? len_byte then
      Err (DeserializeError "Failed to deserialize clarity name: too long")
    else
      let? '(bytes, fd) := map_err ReadError (read_exact (Z.to_nat len_byte) fd) in
      let? s := ok_or (DeserializeError "Failed to parse Clarity name: could not contruct from utf8")
                  (string_from_utf8 bytes) in
      let? name := map_err (fun _ => DeserializeError "Failed to parse Clarity name")
                     (ClarityName_try_from s) in
      Ok (name, fd);
  mem_size_of := 24
|}.

Definition ContractName_codec : Codec string := {|
  consensus_serialize self :=
    if (str_len self <? CONTRACT_MIN_NAME_LENGTH) || (CONTRACT_MAX_NAME_LENGTH <? str_len self) then
      Err (SerializeError "Failed to serialize contract name: too short or too long")
    else
      let? len := write_next u8_codec (as_u8 (str_len self)) in
      Ok (len ++ as_bytes self);
  consensus_deserialize fd :=
    let? '(len_byte, fd) := read_next u8_codec fd in
    if (len_byte <? CONTRACT_MIN_NAME_LENGTH) || (CONTRACT_MAX_NAME_LENGTH <? len_byte) then
      Err (DeserializeError "Failed to deserialize contract name: too short or too long")
    else
      let? '(bytes, fd) := map_err ReadError (read_exact (Z.to_nat len_byte) fd) in
      let? s := ok_or (DeserializeError "Failed to parse Contract name: could not construct from utf8")
                  (string_from_utf8 bytes) in
      let? name := map_err (fun _ => DeserializeError "Failed to parse Contract name")
                     (ContractName_try_from s) in
      Ok (name, fd);
  mem_size_of := 24
|}.

(** * Principals and identifiers *)
(** A version byte and the 20 bytes of a hash. *)
Record StandardPrincipalData := mkStandard {
  sp_version : byte;
  sp_bytes : list byte
}.

Definition StandardPrincipalData_transient : StandardPrincipalData :=
  mkStandard x01 (repeat x01 20).

Record QualifiedContractIdentifier := mkContractId {
  issuer : StandardPrincipalData;
  qc_name : string
}.

Definition QualifiedContractIdentifier_local (name : string)
  : outcome RuntimeErrorType QualifiedContractIdentifier :=
  let? name := ContractName_try_from name in
  Ok (mkContractId StandardPrincipalData_transient name).

Definition QualifiedContractIdentifier_transient : outcome RuntimeErrorType QualifiedContractIdentifier :=
  let? name := expect (ContractName_try_from "__transient") in
  Ok (mkContractId StandardPrincipalData_transient name).

Inductive PrincipalData :=
| Standard (p : StandardPrincipalData)
| Contract (c : QualifiedContractIdentifier).

Definition PrincipalData_version (p : PrincipalData) : byte :=
  match p with
  | Standard s => sp_version s
  | Contract c => sp_version (issuer c)
  end.

Record TraitIdentifier := mkTraitId {
  ti_name : string;
  ti_contract_identifier : QualifiedContractIdentifier
}.

Record AssetIdentifier := mkAssetId {
  ai_contract_identifier : QualifiedContractIdentifier;
  asset_name : string
}.

Definition AssetIdentifier_STX : AssetIdentifier :=
  mkAssetId (mkContractId (mkStandard x00 (repeat x00 20)) "STX") "STX".
Definition AssetIdentifier_STX_burned : AssetIdentifier :=
  mkAssetId (mkContractId (mkStandard x00 (repeat x00 20)) "BURNED") "BURNED".

Record StacksAddress := mkAddress {
  sa_version : byte;
  sa_bytes : list byte
}.

Definition StacksAddress_codec : Codec StacksAddress := {|
  consensus_serialize self :=
    let? version := write_next u8_codec (byte_to_Z (sa_version self)) in
    Ok (version ++ sa_bytes self);
  consensus_deserialize fd :=
    let? '(version, fd) := read_next u8_codec fd in
    let? '(hash160, fd) := read_next (byte_array_codec 20) fd in
    Ok (mkAddress (byte_of_Z version) hash160, fd);
  mem_size_of := 21
|}.

Definition StacksAddress_to_account_principal (self : StacksAddress) : PrincipalData :=
  Standard (mkStandard (sa_version self) (sa_bytes self)).
Definition StacksAddress_from_standard (o : StandardPrincipalData) : StacksAddress :=
  mkAddress (sp_version o) (sp_bytes o).

#[global] Instance StandardPrincipalData_eq_dec : EqDecision StandardPrincipalData.
Proof. solve_decision. Defined.
#[global] Instance QualifiedContractIdentifier_eq_dec : EqDecision QualifiedContractIdentifier.
Proof. solve_decision. Defined.
#[global] Instance PrincipalData_eq_dec : EqDecision PrincipalData.
Proof. solve_decision. Defined.
#[global] Instance TraitIdentifier_eq_dec : EqDecision TraitIdentifier.
Proof. solve_decision. Defined.
#[global] Instance AssetIdentifier_eq_dec : EqDecision AssetIdentifier.
Proof. solve_decision. Defined.

(** The maps of the interpreter are keyed by identifiers. *)
#[global] Instance byte_countable : Countable byte :=
  inj_countable Byte.to_N Byte.of_N Byte.of_to_N.
#[global] Program Instance StandardPrincipalData_countable : Countable StandardPrincipalData :=
  inj_countable' (fun p => (sp_version p, sp_bytes p)) (fun '(v, b) => mkStandard v b) _.
Next Obligation. by intros []. Qed.
#[global] Program Instance QualifiedContractIdentifier_countable : Countable QualifiedContractIdentifier :=
  inj_countable' (fun c => (issuer c, qc_name c)) (fun '(i, n) => mkContractId i n) _.
Next Obligation. by intros []. Qed.
#[global] Program Instance PrincipalData_countable : Countable PrincipalData :=
  inj_countable' (fun p => match p with Standard s => inl s | Contract c => inr c end)
    (fun p => match p with inl s => Standard s | inr c => Contract c end) _.
Next Obligation. by intros []. Qed.
#[global] Program Instance AssetIdentifier_countable : Countable AssetIdentifier :=
  inj_countable' (fun a => (ai_contract_identifier a, asset_name a)) (fun '(c, n) => mkAssetId c n) _.
Next Obligation. by intros []. Qed.

(** The widths the Rust types enforce. *)
Definition StandardPrincipalData_wf (p : StandardPrincipalData) : bool :=
  Nat.eqb (length (sp_bytes p)) 20.
Definition QualifiedContractIdentifier_wf (c : QualifiedContractIdentifier) : bool :=
  StandardPrincipalData_wf (issuer c) && ContractName_valid (qc_name c).
Definition PrincipalData_wf (p : PrincipalData) : bool :=
  match p with
  | Standard s => StandardPrincipalData_wf s
  | Contract c => QualifiedContractIdentifier_wf c
  end.

(** * Names and their bytes *)
Lemma as_bytes_cons (c : ascii) (s : string) :
  as_bytes (String c s) = byte_of_ascii c :: as_bytes s.
Proof. done. Qed.

Lemma length_as_bytes (s : string) : Z.of_nat (length (as_bytes s)) = str_len s.
Proof.
  unfold str_len. induction s as [|c s IH]; [done|]. rewrite as_bytes_cons. cbn [length String.length]. lia.
Qed.

Lemma string_of_as_bytes (s : string) : string_of_list_byte (as_bytes s) = s.
Proof. apply string_of_list_byte_of_string. Qed.

Lemma as_bytes_inj (s1 s2 : string) : as_bytes s1 = as_bytes s2 -> s1 = s2.
Proof. intros H. by rewrite <-(string_of_as_bytes s1), H, string_of_as_bytes. Qed.

Lemma as_bytes_app (s1 s2 : string) : as_bytes (s1 +:+ s2) = as_bytes s1 ++ as_bytes s2.
Proof.
  induction s1 as [|c s1 IH]; [done|].
  change (String c s1 +:+ s2) with (String c (s1 +:+ s2)). by rewrite !as_bytes_cons, IH.
Qed.

Definition is_ascii_char (c : ascii) : bool := Z.of_N (N_of_ascii c) <? 128.

Lemma all_chars_impl (p q : ascii -> bool) (s : string) :
  (forall c, p c = true -> q c = true) -> all_chars p s = true -> all_chars q s = true.
Proof.
  intros Hpq. induction s as [|c s IH]; simpl; [done|].
  rewrite !andb_true_iff. intros [Hc Hs]. auto.
Qed.

Lemma byte_to_Z_of_ascii (c : ascii) : byte_to_Z (byte_of_ascii c) = Z.of_N (N_of_ascii c).
Proof.
  rewrite <-(ascii_of_byte_of_ascii c) at 2. by destruct (byte_of_ascii c).
Qed.

Lemma all_ascii_bytes (s : string) :
  all_chars is_ascii_char s = true -> Forall (fun b => byte_to_Z b < 128) (as_bytes s).
Proof.
  induction s as [|c s IH]; [constructor|]. rewrite as_bytes_cons. simpl.
  rewrite andb_true_iff. intros [Hc Hs]. constructor; [|auto].
  rewrite byte_to_Z_of_ascii. unfold is_ascii_char in Hc. lia.
Qed.

Lemma string_from_utf8_ascii (s : string) :
  all_chars is_ascii_char s = true -> string_from_utf8 (as_bytes s) = Some s.
Proof.
  intros H. unfold string_from_utf8. rewrite is_utf8_ascii by by apply all_ascii_bytes.
  by rewrite string_of_as_bytes.
Qed.

Lemma is_ascii_impl (p : ascii -> bool) :
  forallb (fun n => implb (p (ascii_of_nat n)) (is_ascii_char (ascii_of_nat n))) (seq 0 256) = true ->
  forall c, p c = true -> is_ascii_char c = true.
Proof.
  intros H c Hc. pose proof (ascii_forall (fun c => implb (p c) (is_ascii_char c)) H c) as Hi.
  simpl in Hi. by rewrite Hc in Hi.
Qed.

Lemma letter_then_ascii (extra s : string) :
  (forall c, one_of extra c = true -> is_ascii_char c = true) ->
  letter_then extra s = true -> all_chars is_ascii_char s = true.
Proof.
  intros Hx. destruct s as [|c s]; simpl; [done|]. rewrite !andb_true_iff. intros [Hc Hs].
  assert (forall c, is_ascii_letter c = true -> is_ascii_char c = true) as Hl
    by (apply is_ascii_impl; by vm_compute).
  assert (forall c, is_ascii_digit c = true -> is_ascii_char c = true) as Hd
    by (apply is_ascii_impl; by vm_compute).
  split; [auto|]. revert Hs. apply all_chars_impl. intros c'. rewrite !orb_true_iff. naive_solver.
Qed.

Lemma ClarityName_ascii (s : string) :
  CLARITY_NAME_REGEX s = true -> all_chars is_ascii_char s = true.
Proof.
  assert (forall c, one_of "-+=/*" c = true -> is_ascii_char c = true) as H1
    by (apply is_ascii_impl; by vm_compute).
  assert (forall c, one_of "<>" c = true -> is_ascii_char c = true) as H2
    by (apply is_ascii_impl; by vm_compute).
  unfold CLARITY_NAME_REGEX. rewrite !orb_true_iff. intros [[H|H]|H].
  - apply letter_then_ascii in H; [done|]. apply is_ascii_impl. by vm_compute.
  - destruct s as [|c []]; try done. simpl. by rewrite H1.
  - destruct s as [|c [|e []]]; try done; simpl.
    + by rewrite H2.
    + apply andb_true_iff in H as [Hc He%Ascii.eqb_eq]. subst. by rewrite H2.
Qed.

Lemma ContractName_ascii (s : string) :
  CONTRACT_NAME_REGEX s = true -> all_chars is_ascii_char s = true.
Proof.
  unfold CONTRACT_NAME_REGEX. rewrite orb_true_iff. intros [H|H%String.eqb_eq]; [|by subst].
  apply letter_then_ascii in H; [done|]. apply is_ascii_impl. by vm_compute.
Qed.

Lemma guarded_try_from_Ok (label : string) (regex : string -> bool) (s r : string) :
  guarded_try_from label regex s = Ok r <->
  r = s /\ (str_len s <=? MAX_STRING_LEN) && regex s = true.
Proof.
  unfold guarded_try_from. rewrite andb_true_iff, Z.leb_le.
  destruct (Z.ltb_spec MAX_STRING_LEN (str_len s)); [naive_solver lia|].
  destruct (regex s); naive_solver.
Qed.

Lemma ClarityName_try_from_Ok (s r : string) :
  ClarityName_try_from s = Ok r <-> r = s /\ ClarityName_valid s = true.
Proof. apply guarded_try_from_Ok. Qed.

Lemma ContractName_try_from_Ok (s r : string) :
  ContractName_try_from s = Ok r <-> r = s /\ ContractName_valid s = true.
Proof. apply guarded_try_from_Ok. Qed.

(** The length byte in front of a name. *)
Lemma read_len_byte (s : string) (rest : list byte) :
  str_len s < 256 ->
  read_next u8_codec (to_be_bytes 1 (as_u8 (str_len s)) ++ as_bytes s ++ rest) =
  Ok (str_len s, as_bytes s ++ rest).
Proof.
  intros H. assert (0 <= str_len s) by (unfold str_len; lia).
  unfold read_next, u8_codec. cbn [consensus_deserialize uint_codec].
  rewrite (read_exact_app' 1) by apply length_to_be_bytes. cbn [map_err out_bind].
  unfold as_u8. rewrite Z.mod_small by lia.
  rewrite from_to_be_bytes_small by (change (256 ^ Z.of_nat 1) with 256; lia). done.
Qed.

Lemma read_name_bytes (s : string) (rest : list byte) :
  read_exact (Z.to_nat (str_len s)) (as_bytes s ++ rest) = Ok (as_bytes s, rest).
Proof. apply read_exact_app'. rewrite <-length_as_bytes. lia. Qed.

Lemma ClarityName_codec_ok : codec_ok (fun s => ClarityName_valid s = true) ClarityName_codec.
Proof.
  intros s rest Hv. pose proof Hv as Hv'. unfold ClarityName_valid, MAX_STRING_LEN in Hv.
  apply andb_true_iff in Hv as [Hl%Z.leb_le Hr].
  eexists. cbn [consensus_serialize consensus_deserialize ClarityName_codec].
  rewrite (proj2 (Z.ltb_ge _ _)) by (unfold MAX_STRING_LEN; lia). split; [done|].
  cbn [out_bind write_next consensus_serialize u8_codec uint_codec].
  rewrite <-app_assoc, read_len_byte by lia. cbn [out_bind].
  rewrite (proj2 (Z.ltb_ge _ _)) by (unfold MAX_STRING_LEN; lia).
  rewrite read_name_bytes. cbn [map_err out_bind].
  rewrite string_from_utf8_ascii by by apply ClarityName_ascii. cbn [ok_or out_bind].
  by rewrite (proj2 (ClarityName_try_from_Ok s s)).
Qed.

Definition ContractName_serializable (s : string) : bool :=
  (CONTRACT_MIN_NAME_LENGTH <=? str_len s) && (str_len s <=? CONTRACT_MAX_NAME_LENGTH)
  && CONTRACT_NAME_REGEX s.

Lemma ContractName_codec_ok :
  codec_ok (fun s => ContractName_serializable s = true) ContractName_codec.
Proof.
  intros s rest Hv. unfold ContractName_serializable in Hv.
  rewrite !andb_true_iff, !Z.leb_le in Hv. destruct Hv as [Hl Hr].
  assert (ContractName_valid s = true) as Hv.
  { unfold ContractName_valid, MAX_STRING_LEN. rewrite Hr.
    unfold CONTRACT_MAX_NAME_LENGTH in Hl. apply andb_true_iff. split; [lia|done]. }
  eexists. cbn [consensus_serialize consensus_deserialize ContractName_codec].
  assert ((str_len s <? CONTRACT_MIN_NAME_LENGTH) || (CONTRACT_MAX_NAME_LENGTH <? str_len s) = false)
    as Hg by lia.
  rewrite Hg. split; [done|].
  cbn [out_bind write_next consensus_serialize u8_codec uint_codec].
  rewrite <-app_assoc, read_len_byte by (unfold CONTRACT_MAX_NAME_LENGTH in Hl; lia).
  cbn [out_bind]. rewrite Hg, read_name_bytes. cbn [map_err out_bind].
  rewrite string_from_utf8_ascii by by apply ContractName_ascii. cbn [ok_or out_bind].
  by rewrite (proj2 (ContractName_try_from_Ok s s)).
Qed.

Lemma StacksAddress_codec_ok :
  codec_ok (fun a => length (sa_bytes a) = 20%nat) StacksAddress_codec.
Proof.
  intros a rest Ha. eexists.
  cbn [consensus_serialize StacksAddress_codec write_next u8_codec uint_codec out_bind].
  split; [done|]. cbn [consensus_deserialize StacksAddress_codec].
  unfold read_next. cbn [consensus_deserialize u8_codec uint_codec].
  rewrite <-app_assoc, (read_exact_app' 1) by apply length_to_be_bytes. cbn [map_err out_bind].
  pose proof (byte_to_Z_range (sa_version a)).
  rewrite from_to_be_bytes_small by (change (256 ^ Z.of_nat 1) with 256; lia).
  cbn [consensus_deserialize byte_array_codec]. rewrite (read_exact_app' 20) by done.
  cbn. rewrite byte_of_to_Z. by destruct a.
Qed.

#[export] Hint Resolve ClarityName_codec_ok ContractName_codec_ok StacksAddress_codec_ok : stacks.

(** What the name codecs deliver is a valid name. *)
Lemma ClarityName_deserialize_valid (fd : list byte) (s : string) (fd' : list byte) :
  consensus_deserialize ClarityName_codec fd = Ok (s, fd') -> ClarityName_valid s = true.
Proof.
  cbn [consensus_deserialize ClarityName_codec]. intros H.
  out_inv. rewrite ClarityName_try_from_Ok in *. naive_solver.
Qed.
