(* ===== verification/Regex.v ===== *)
(** Regex: the regular expressions of the lexer, with the semantics of the
    [regex] crate.  A search prefers the earlier alternative and the longer
    repetition, and backtracks into the others when what follows does not match
    (leftmost-first matching, anchored at the start of the input).

    The crate is third-party code; what is written here is the documented
    meaning of the operators the sources use: character classes, sequences,
    alternatives, greedy repetitions, and the capture group [value]. *)
From Stdlib Require Import ZArith Lia Strings.String Strings.Ascii List Bool Arith.
From stdpp Require Import base list strings option.
From S2P Require Import Prelude Representations.

Inductive regex :=
| RChar (p : ascii -> bool)
| RSeq (r1 r2 : regex)
| RAlt (r1 r2 : regex)
(** [r{min,max}]; no maximum for [None] *)
| RRep (min : nat) (max : option nat) (r : regex)
(** [(?P<value>r)] *)
| RValue (r : regex).

Declare Scope regex_scope.
Delimit Scope regex_scope with regex.
Infix "·" := RSeq (at level 45, right associativity) : regex_scope.
Infix "∣" := RAlt (at level 50, left associativity) : regex_scope.

Definition RLit (c : ascii) : regex := RChar (Ascii.eqb c).
Definition RClass (cs : string) : regex := RChar (one_of cs).
Definition RStar : regex -> regex := RRep 0 None.
Definition RPlus : regex -> regex := RRep 1 None.

(** What lies between a position and a later one. *)
Definition taken (s rest : string) : string := substring 0 (String.length s - String.length rest) s.

(** [rmatch r s c k]: the first way to match [r] at the start of [s] after which
    [k] succeeds on the rest; [c] is the text of the group so far.  A repetition
    without maximum never needs more rounds than there are characters, since what
    is repeated is never empty. *)
Section matcher.
Context {A : Type}.
Notation cont := (string -> option string -> option A).

Section rep.
Context (body : string -> option string -> cont -> option A).
Fixpoint rep (fuel min : nat) (s : string) (c : option string) (k : cont) : option A :=
  match fuel with
  | O => match min with O => k s c | _ => None end
  | S fuel =>
      match body s c (fun s' c' => rep fuel (pred min) s' c' k) with
      | Some a => Some a
      | None => match min with O => k s c | _ => None end
      end
  end.
End rep.

Fixpoint rmatch (r : regex) (s : string) (c : option string) (k : cont) {struct r} : option A :=
  match r with
  | RChar p => match s with String x s' => if p x then k s' c else None | EmptyString => None end
  | RSeq r1 r2 => rmatch r1 s c (fun s' c' => rmatch r2 s' c' k)
  | RAlt r1 r2 => match rmatch r1 s c k with Some a => Some a | None => rmatch r2 s c k end
  | RRep min max r =>
      rep (rmatch r) (match max with Some n => n | None => String.length s end) min s c k
  | RValue r => rmatch r s c (fun s' _ => k s' (Some (taken s s')))
  end.
End matcher.

(** [Regex::new("^" + r).captures(s)]: the rest of the input and the text of the
    group. *)
Definition captures (r : regex) (s : string) : option (string * option string) :=
  rmatch r s None (fun s' c => Some (s', c)).

(** * Lemmas *)
#[local] Arguments String.append : simpl nomatch.

(** Strings whose characters all satisfy [p]; a string that does not start with
    such a character. *)
Notation all p t := (all_chars p t = true).
Definition stops (p : ascii -> bool) (s : string) : Prop := forall c s', s = String c s' -> p c = false.

Lemma all_chars_app p s t : all_chars p (s ++ t) = all_chars p s && all_chars p t.
Proof. induction s as [|c s IH]; simpl; [done|]. by rewrite IH, andb_assoc. Qed.

Lemma stops_nil p : stops p EmptyString.
Proof. intros c s' H. done. Qed.
Lemma stops_cons p c s : p c = false -> stops p (String c s).
Proof. by intros Hc ? ? [= <- <-]. Qed.

Lemma str_app_nil_r s : (s ++ EmptyString)%string = s.
Proof. induction s as [|c s IH]; simpl; congruence. Qed.
Lemma text_app_assoc s t u : ((s ++ t) ++ u)%string = (s ++ (t ++ u))%string.
Proof. induction s as [|c s IH]; simpl; congruence. Qed.
Lemma str_length_app s t : String.length (s ++ t) = (String.length s + String.length t)%nat.
Proof. induction s as [|c s IH]; simpl; congruence. Qed.
Lemma substring_prefix s t : substring 0 (String.length s) (s ++ t) = s.
Proof. induction s as [|c s IH]; simpl; [by destruct t|congruence]. Qed.

Lemma taken_app s rest : taken (s ++ rest) rest = s.
Proof. unfold taken. rewrite str_length_app, Nat.add_sub. apply substring_prefix. Qed.

(** A regular expression for one character of a class. *)
Definition single (r : regex) (p : ascii -> bool) : Prop := forall A s c (k : string -> option string -> option A),
  rmatch r s c k = match s with String x s' => if p x then k s' c else None | EmptyString => None end.

Lemma single_char p : single (RChar p) p.
Proof. done. Qed.
Lemma single_alt r1 r2 p1 p2 : single r1 p1 -> single r2 p2 -> single (RAlt r1 r2) (fun x => p1 x || p2 x).
Proof.
  intros H1 H2 A s c k. simpl. rewrite H1, H2. destruct s as [|x s]; [done|].
  destruct (p1 x); simpl; [|done]. destruct (k s c); [done|]. by destruct (p2 x).
Qed.
#[export] Hint Resolve single_char single_alt : regex.

Section repetition.
Context {A : Type} (r : regex) (p : ascii -> bool) (Hr : single r p).
Implicit Types k : string -> option string -> option A.

(** A repetition takes all it can, if what follows matches there. *)
Lemma rep_longest t rest c k fuel min a :
  all p t -> stops p rest -> (String.length t <= fuel)%nat -> (min <= String.length t)%nat ->
  k rest c = Some a -> rep (rmatch r) fuel min (t ++ rest) c k = Some a.
Proof.
  intros Ht Hs Hf Hm Hk. revert fuel min Hf Hm. induction t as [|x t IH]; intros fuel min Hf Hm.
  - simpl in Hm. assert (min = 0%nat) as -> by lia. destruct fuel; simpl; [done|]. rewrite Hr.
    destruct rest as [|y rest]; [done|]. by rewrite (Hs y rest eq_refl).
  - simpl in Ht, Hf, Hm. apply andb_true_iff in Ht as [Hx Ht]. destruct fuel as [|fuel]; [lia|]. simpl.
    rewrite Hr, Hx. rewrite (IH Ht fuel (pred min)); [done|lia|lia].
Qed.

(** It fails if what follows fails at every place it could stop. *)
Lemma rep_fails t rest c k fuel min :
  all p t -> stops p rest -> (forall t1 t2, t = (t1 ++ t2)%string -> k (t2 ++ rest)%string c = None) ->
  rep (rmatch r) fuel min (t ++ rest) c k = None.
Proof.
  intros Ht Hs Hk. revert fuel min. induction t as [|x t IH]; intros fuel min.
  - assert (k rest c = None) as Hn by (by apply (Hk EmptyString EmptyString)).
    destruct fuel; simpl; [destruct min; done|]. rewrite Hr. destruct rest as [|y rest]; [destruct min; done|].
    rewrite (Hs y rest eq_refl). by destruct min.
  - simpl in Ht. apply andb_true_iff in Ht as [Hx Ht].
    assert (k (String x t ++ rest)%string c = None) as Hn by (by apply (Hk EmptyString)).
    destruct fuel as [|fuel]; [by destruct min|]. cbn [rep append]. rewrite Hr, Hx. cbn [append] in Hn.
    rewrite IH; [by rewrite Hn; destruct min|done|]. intros t1 t2 ->. by apply (Hk (String x t1)).
Qed.

(** It fails without enough characters. *)
Lemma rep_short t rest c k fuel min :
  all p t -> stops p rest -> (String.length t < min)%nat -> rep (rmatch r) fuel min (t ++ rest) c k = None.
Proof.
  intros Ht Hs. revert fuel min. induction t as [|x t IH]; intros fuel min Hm.
  - destruct min; [simpl in Hm; lia|]. destruct fuel; simpl; [done|]. rewrite Hr. destruct rest as [|y rest]; [done|].
    by rewrite (Hs y rest eq_refl).
  - simpl in Ht, Hm. apply andb_true_iff in Ht as [Hx Ht]. destruct min; [lia|]. destruct fuel as [|fuel]; simpl; [done|].
    rewrite Hr, Hx, IH; [done|done|lia].
Qed.
End repetition.

Lemma rmatch_rep {A : Type} min max r s c (k : string -> option string -> option A) :
  rmatch (RRep min max r) s c k = rep (rmatch r) (match max with Some n => n | None => String.length s end) min s c k.
Proof. done. Qed.

(** ** How a match can start *)
Fixpoint nullable (r : regex) : bool :=
  match r with
  | RChar _ => false
  | RSeq r1 r2 => nullable r1 && nullable r2
  | RAlt r1 r2 => nullable r1 || nullable r2
  | RRep min _ r => Nat.eqb min 0 || nullable r
  | RValue r => nullable r
  end.
Fixpoint first (r : regex) (c : ascii) : bool :=
  match r with
  | RChar p => p c
  | RSeq r1 r2 => first r1 c || nullable r1 && first r2 c
  | RAlt r1 r2 => first r1 c || first r2 c
  | RRep _ _ r => first r c
  | RValue r => first r c
  end.

Section first.
Context {A : Type} (c : ascii) (s : string).
Implicit Types k : string -> option string -> option A.

Lemma rep_first r k fuel min cap a :
  (forall k cap a, rmatch r (String c s) cap k = Some a -> nullable r = true /\ exists cap', k (String c s) cap' = Some a) ->
  rep (rmatch r) fuel min (String c s) cap k = Some a ->
  (min = 0%nat \/ nullable r = true) /\ exists cap', k (String c s) cap' = Some a.
Proof.
  intros Hr. revert min cap. induction fuel as [|fuel IH]; intros min cap H; simpl in H.
  - destruct min; [|done]. split; [by left|by exists cap].
  - destruct (rmatch r _ _ _) as [b|] eqn:Hb.
    + injection H as ->. apply Hr in Hb as [Hn (cap' & Hb)]. apply IH in Hb as [_ Hb]. split; [by right|done].
    + destruct min; [|done]. split; [by left|by exists cap].
Qed.

(** If no match starts with [c], only the empty match is possible. *)
Lemma rmatch_first r cap k a :
  first r c = false -> rmatch r (String c s) cap k = Some a ->
  nullable r = true /\ exists cap', k (String c s) cap' = Some a.
Proof.
  revert cap k a. induction r as [p|r1 IH1 r2 IH2|r1 IH1 r2 IH2|min max r IH|r IH]; intros cap k a Hf H; cbn [first nullable] in *.
  - simpl in H. by rewrite Hf in H.
  - apply orb_false_iff in Hf as [Hf1 Hf2]. apply IH1 in H as [Hn1 (cap' & H)]; [|done]. rewrite Hn1 in *. simpl in Hf2 |- *. eauto.
  - apply orb_false_iff in Hf as [Hf1 Hf2]. simpl in H. destruct (rmatch r1 _ _ _) as [b|] eqn:Hb.
    + injection H as ->. apply IH1 in Hb as [-> Hb]; [|done]. done.
    + apply IH2 in H as [-> H]; [|done]. by rewrite orb_true_r.
  - rewrite rmatch_rep in H. apply rep_first in H as [Hn H]; [|intros; by eapply IH]. split; [|done].
    destruct Hn as [->| ->]; [done|by rewrite orb_true_r].
  - apply IH in H as [Hn (cap' & H)]; [|done]. eauto.
Qed.

Lemma rmatch_none r cap k : nullable r = false -> first r c = false -> rmatch r (String c s) cap k = None.
Proof.
  intros Hn Hf. destruct (rmatch r _ _ _) as [a|] eqn:H; [|done]. apply rmatch_first in H as [Hn' _]; [congruence|done].
Qed.
End first.

Lemma rmatch_empty {A : Type} r cap (k : string -> option string -> option A) :
  nullable r = false -> rmatch r EmptyString cap k = None.
Proof.
  assert (forall (k : string -> option string -> option A) cap a,
    rmatch r EmptyString cap k = Some a -> nullable r = true /\ exists cap', k EmptyString cap' = Some a) as H.
  { clear. induction r as [p|r1 IH1 r2 IH2|r1 IH1 r2 IH2|min max r IH|r IH]; intros k cap a H; cbn [nullable] in *.
    - done.
    - apply IH1 in H as [-> (cap' & H)]. apply IH2 in H as [-> H]. done.
    - simpl in H. destruct (rmatch r1 _ _ _) as [b|] eqn:Hb; [injection H as ->; by apply IH1 in Hb as [-> Hb]|].
      apply IH2 in H as [-> H]. by rewrite orb_true_r.
    - rewrite rmatch_rep in H. revert H. generalize (match max with Some n => n | None => String.length "" end) as fuel. intros fuel.
      revert min cap. induction fuel as [|fuel IHf]; intros min cap H; simpl in H.
      + destruct min; [|done]. split; [done|by exists cap].
      + destruct (rmatch r _ _ _) as [b|] eqn:Hb.
        * injection H as ->. apply IH in Hb as [-> (cap' & Hb)]. apply IHf in Hb as [_ Hb]. by rewrite orb_true_r.
        * destruct min; [|done]. split; [done|by exists cap].
    - apply IH in H as [Hn (cap' & H)]. eauto. }
  intros Hn. destruct (rmatch r EmptyString cap k) as [a|] eqn:Ha; [|done]. apply H in Ha as [Hn' _]. congruence.
Qed.

Lemma rmatch_seq {A : Type} r1 r2 s c (k : string -> option string -> option A) :
  rmatch (RSeq r1 r2) s c k = rmatch r1 s c (fun s' c' => rmatch r2 s' c' k).
Proof. done. Qed.
Lemma rmatch_value {A : Type} r s c (k : string -> option string -> option A) :
  rmatch (RValue r) s c k = rmatch r s c (fun s' _ => k s' (Some (taken s s'))).
Proof. done. Qed.

(** ** How far a match goes *)
#[local] Open Scope nat_scope.
(** A match leaves no more than it was given, and less if it cannot be empty. *)
Definition leaves {A : Type} (r : regex) (s : string) (k : string -> option string -> option A) (a : A) : Prop :=
  exists s' c', k s' c' = Some a /\ String.length s' <= String.length s /\ (nullable r = false -> String.length s' < String.length s).

Lemma rep_leaves {A : Type} r fuel min s c (k : string -> option string -> option A) a :
  (forall s c (k : string -> option string -> option A) a, rmatch r s c k = Some a -> leaves r s k a) ->
  rep (rmatch r) fuel min s c k = Some a ->
  exists s' c', k s' c' = Some a /\ String.length s' <= String.length s /\
    (min <> 0 -> nullable r = false -> String.length s' < String.length s).
Proof.
  intros Hr. revert min s c. induction fuel as [|fuel IH]; intros min s c H; cbn [rep] in H.
  - destruct min; [|done]. by exists s, c.
  - destruct (rmatch r s c _) as [b|] eqn:Hb.
    + injection H as ->. apply Hr in Hb as (s1 & c1 & Hk & Hle & Hlt). apply IH in Hk as (s2 & c2 & Hk & Hle2 & _).
      exists s2, c2. split; [done|]. split; [lia|]. intros _ Hn. specialize (Hlt Hn). lia.
    + destruct min; [|done]. by exists s, c.
Qed.

Lemma rmatch_leaves {A : Type} r s c (k : string -> option string -> option A) a : rmatch r s c k = Some a -> leaves r s k a.
Proof.
  revert s c k a. induction r as [p|r1 IH1 r2 IH2|r1 IH1 r2 IH2|min max r IH|r IH]; intros s c k a H.
  - destruct s as [|x s]; [done|]. cbn [rmatch] in H. destruct (p x); [|done]. exists s, c. simpl. split; [done|lia].
  - cbn [rmatch] in H. apply IH1 in H as (s1 & c1 & H & Hle1 & Hlt1). apply IH2 in H as (s2 & c2 & H & Hle2 & Hlt2).
    exists s2, c2. split; [done|]. split; [lia|]. cbn [nullable]. intros [Hn|Hn]%andb_false_iff; [specialize (Hlt1 Hn)|specialize (Hlt2 Hn)]; lia.
  - cbn [rmatch] in H. assert (leaves r1 s k a \/ leaves r2 s k a) as [(s' & c' & Hk & Hle & Hlt)|(s' & c' & Hk & Hle & Hlt)].
    { destruct (rmatch r1 s c k) eqn:H1; [left; apply (IH1 s c); congruence|right; by apply (IH2 s c)]. }
    all: exists s', c'; split; [done|]; split; [done|]; cbn [nullable]; intros [Hn1 Hn2]%orb_false_iff; auto.
  - rewrite rmatch_rep in H. apply rep_leaves in H as (s' & c' & Hk & Hle & Hlt); [|exact IH].
    exists s', c'. split; [done|]. split; [done|]. cbn [nullable]. intros [Hm Hn]%orb_false_iff. apply Hlt; [by apply Nat.eqb_neq|done].
  - cbn [rmatch] in H. apply IH in H as (s' & c' & Hk & Hle & Hlt). by exists s', (Some (taken s s')).
Qed.

Lemma captures_shorter r s rest cap : nullable r = false -> captures r s = Some (rest, cap) -> String.length rest < String.length s.
Proof. intros Hn H. apply rmatch_leaves in H as (s' & c' & [= -> ->] & _ & Hlt). by apply Hlt. Qed.
