(* ===== verification/BTree.v ===== *)
(** BTree: Rust's [BTreeMap<String, A>] as an association list in key order.
    The nested data types of Clarity (tuple types inside types, values inside
    values) are defined over it, and its iteration order is the order in which
    the code serializes, sizes and prints the fields of a tuple. *)
From Stdlib Require Import Lia Strings.String Structures.OrdersEx List Bool Sorted RelationClasses.
From stdpp Require Import base list strings option.
From S2P Require Import Prelude.

Definition BTreeMap (A : Type) : Type := list (string * A).

(** The order of [String]: lexicographic on bytes. *)
Definition key_lt (x y : string) : Prop := String_as_OT.lt x y.

Section operations.
Context {A : Type}.
Implicit Types (m : BTreeMap A) (k : string) (v : A).

Fixpoint bt_get (k : string) (m : BTreeMap A) : option A :=
  match m with
  | [] => None
  | (k', v) :: m => if String.eqb k k' then Some v else bt_get k m
  end.

Definition bt_contains_key (k : string) (m : BTreeMap A) : bool :=
  match bt_get k m with Some _ => true | None => false end.

Fixpoint bt_insert (k : string) (v : A) (m : BTreeMap A) : BTreeMap A :=
  match m with
  | [] => [(k, v)]
  | (k', v') :: m' =>
      match String_as_OT.compare k k' with
      | Lt => (k, v) :: m
      | Eq => (k, v) :: m'
      | Gt => (k', v') :: bt_insert k v m'
      end
  end.

(** [self.append(&mut other)]: the entries of [other] win. *)
Definition bt_append (m other : BTreeMap A) : BTreeMap A :=
  fold_left (fun m '(k, v) => bt_insert k v m) other m.

(** The representation invariant: strictly increasing keys. *)
Definition bt_sorted (m : BTreeMap A) : Prop := StronglySorted key_lt (map fst m).

Fixpoint bt_sortedb (m : BTreeMap A) : bool :=
  match m with
  | (k, _) :: ((k', _) :: _) as m' =>
      match String_as_OT.compare k k' with Lt => bt_sortedb m' | _ => false end
  | _ => true
  end.
End operations.

#[global] Instance key_lt_trans : Transitive key_lt.
Proof. unfold key_lt. intros x y z. apply StrictOrder_Transitive. Qed.

Lemma key_lt_irrefl (k : string) : ~ key_lt k k.
Proof. unfold key_lt. apply (StrictOrder_Irreflexive k). Qed.

Lemma compare_refl (k : string) : String_as_OT.compare k k = Eq.
Proof. destruct (String_as_OT.compare_spec k k); [done| |]; by destruct (key_lt_irrefl k). Qed.

Section lemmas.
Context {A : Type}.
Implicit Types (m : BTreeMap A) (k : string) (v : A).

Lemma bt_sortedb_spec m : bt_sortedb m = true -> bt_sorted m.
Proof.
  intros H. apply Sorted_StronglySorted; [apply key_lt_trans|].
  induction m as [|[k v] m IH]; [constructor|]. destruct m as [|[k' v'] m].
  - repeat constructor.
  - simpl in H. destruct (String_as_OT.compare k k') eqn:E; try done.
    constructor; [by apply IH|]. by constructor.
Qed.

Lemma bt_sortedb_complete m : bt_sorted m -> bt_sortedb m = true.
Proof.
  unfold bt_sorted. induction m as [|[k v] m IH]; [done|]. intros Hs.
  apply StronglySorted_inv in Hs as [Hs Hf]. destruct m as [|[k' v'] m]; [done|].
  inversion Hf as [|? ? Hk _]; subst. unfold key_lt, String_as_OT.lt in Hk. simpl in *.
  rewrite Hk. by apply IH.
Qed.

Lemma bt_sortedb_iff m : bt_sortedb m = true <-> bt_sorted m.
Proof. split; [apply bt_sortedb_spec | apply bt_sortedb_complete]. Qed.

Lemma bt_sorted_cons k v m :
  bt_sorted ((k, v) :: m) <-> bt_sorted m /\ Forall (key_lt k) (map fst m).
Proof.
  split; [intros H; by inversion H | intros [H1 H2]; by constructor].
Qed.

Lemma bt_sorted_nil : bt_sorted (@nil (string * A)).
Proof. constructor. Qed.

Lemma bt_get_In k v m : bt_get k m = Some v -> In (k, v) m.
Proof.
  induction m as [|[k' v'] m IH]; simpl; [done|].
  destruct (String.eqb_spec k k'); [intros; simplify_eq; auto | auto].
Qed.

Lemma bt_get_None k m : bt_get k m = None <-> ~ In k (map fst m).
Proof.
  induction m as [|[k' v'] m IH]; simpl; [naive_solver|].
  destruct (String.eqb_spec k k'); naive_solver.
Qed.

Lemma bt_sorted_nodup m : bt_sorted m -> List.NoDup (map fst m).
Proof.
  unfold bt_sorted. induction 1 as [|k ks _ IH Hk]; constructor; [|done].
  intros Hin. rewrite List.Forall_forall in Hk. by apply (key_lt_irrefl k), Hk.
Qed.

Lemma In_bt_get k v m : bt_sorted m -> In (k, v) m -> bt_get k m = Some v.
Proof.
  intros Hs. induction m as [|[k' v'] m IH]; simpl; [done|].
  apply bt_sorted_cons in Hs as [Hs Hk]. intros [Heq|Hin].
  - simplify_eq. by rewrite String.eqb_refl.
  - destruct (String.eqb_spec k k') as [->|]; [|auto].
    rewrite List.Forall_forall in Hk. destruct (key_lt_irrefl k'). apply Hk.
    by apply (in_map fst _ (k', v)).
Qed.

Lemma bt_insert_keys k v m k' :
  In k' (map fst (bt_insert k v m)) <-> k' = k \/ In k' (map fst m).
Proof.
  induction m as [|[k0 v0] m IH]; simpl; [naive_solver|].
  destruct (String_as_OT.compare_spec k k0) as [Heq|Hlt|Hgt]; simpl.
  - apply String_as_OT.eq_equiv in Heq. naive_solver.
  - naive_solver.
  - rewrite IH. naive_solver.
Qed.

Lemma bt_insert_sorted k v m : bt_sorted m -> bt_sorted (bt_insert k v m).
Proof.
  induction m as [|[k0 v0] m IH]; simpl; intros Hs.
  { apply bt_sorted_cons. split; [apply bt_sorted_nil|constructor]. }
  pose proof Hs as Hs'. apply bt_sorted_cons in Hs' as [Hm Hk].
  destruct (String_as_OT.compare_spec k k0) as [Heq|Hlt|Hgt].
  - apply bt_sorted_cons. compute in Heq. by subst.
  - apply bt_sorted_cons. split; [done|]. simpl. constructor; [done|].
    eapply List.Forall_impl; [|exact Hk]. intros k1 Hk1. by transitivity k0.
  - apply bt_sorted_cons. split; [auto|]. apply List.Forall_forall. intros k1.
    rewrite bt_insert_keys. rewrite List.Forall_forall in Hk. intros [->|Hin]; [done|auto].
Qed.

Lemma bt_get_insert_eq k v m : bt_get k (bt_insert k v m) = Some v.
Proof.
  induction m as [|[k0 v0] m IH]; simpl; [by rewrite String.eqb_refl|].
  destruct (String_as_OT.compare_spec k k0) as [Heq|Hlt|Hgt]; simpl;
    rewrite ?String.eqb_refl; try done.
  destruct (String.eqb_spec k k0) as [->|]; [by destruct (key_lt_irrefl k0)|done].
Qed.

Lemma bt_get_insert_ne k k' v m : k <> k' -> bt_get k' (bt_insert k v m) = bt_get k' m.
Proof.
  intros Hne. induction m as [|[k0 v0] m IH]; simpl.
  { by destruct (String.eqb_spec k' k). }
  destruct (String_as_OT.compare_spec k k0) as [Heq|Hlt|Hgt]; simpl.
  - compute in Heq. subst. by destruct (String.eqb_spec k' k0).
  - by destruct (String.eqb_spec k' k).
  - by rewrite IH.
Qed.

(** A property of the entries is kept by insertion. *)
Lemma bt_insert_Forall (P : string * A -> Prop) k v m :
  P (k, v) -> Forall P m -> Forall P (bt_insert k v m).
Proof.
  intros Hk. induction 1 as [|[k0 v0] m Hx Hm IH]; simpl; [by repeat constructor|].
  destruct (String_as_OT.compare k k0); repeat constructor; auto.
Qed.

(** Inserting in ascending order appends. *)
Lemma bt_insert_last k v m :
  Forall (fun k' => key_lt k' k) (map fst m) -> bt_insert k v m = m ++ [(k, v)].
Proof.
  induction m as [|[k0 v0] m IH]; simpl; [done|]. intros Hf. inversion Hf as [|? ? Hk Hm]; subst.
  destruct (String_as_OT.compare_spec k k0) as [Heq|Hlt|Hgt].
  - compute in Heq. subst. by destruct (key_lt_irrefl k0).
  - destruct (key_lt_irrefl k). by transitivity k0.
  - by rewrite IH.
Qed.

Lemma bt_append_nil_l m : bt_sorted m -> bt_append [] m = m.
Proof.
  intros Hs. unfold bt_append.
  enough (forall acc, bt_sorted (acc ++ m) ->
    fold_left (fun m '(k, v) => bt_insert k v m) m acc = acc ++ m) as H by by apply H.
  clear Hs. induction m as [|[k v] m IH]; intros acc Hs; simpl; [by rewrite app_nil_r|].
  assert (Forall (fun k' => key_lt k' k) (map fst acc)) as Hacc.
  { unfold bt_sorted in Hs. rewrite map_app in Hs. clear IH.
    induction acc as [|[k0 v0] acc IH]; simpl in *; [constructor|].
    inversion Hs as [|? ? Hs' Hf]; subst. constructor; [|auto].
    rewrite List.Forall_forall in Hf. apply Hf. rewrite in_app_iff. simpl. auto. }
  rewrite bt_insert_last, IH by (try done; by rewrite <-app_assoc). by rewrite <-app_assoc.
Qed.

(** Two sorted maps with the same lookups are equal. *)
Lemma bt_ext m1 m2 :
  bt_sorted m1 -> bt_sorted m2 -> (forall k, bt_get k m1 = bt_get k m2) -> m1 = m2.
Proof.
  revert m2. induction m1 as [|[k1 v1] m1 IH]; intros m2 H1 H2 Hget.
  - destruct m2 as [|[k v] m2]; [done|]. specialize (Hget k). simpl in Hget.
    by rewrite String.eqb_refl in Hget.
  - destruct m2 as [|[k2 v2] m2].
    { specialize (Hget k1). simpl in Hget. by rewrite String.eqb_refl in Hget. }
    apply bt_sorted_cons in H1 as [Hs1 Hf1]. apply bt_sorted_cons in H2 as [Hs2 Hf2].
    assert (k1 = k2) as ->.
    { destruct (String_as_OT.compare_spec k1 k2) as [Heq|Hlt|Hgt]; [done| |]; exfalso.
      - pose proof (Hget k1) as Hg. simpl in Hg. rewrite String.eqb_refl in Hg.
        destruct (String.eqb_spec k1 k2) as [->|_]; [by apply (key_lt_irrefl k2)|].
        symmetry in Hg. apply bt_get_In, (in_map fst) in Hg. rewrite List.Forall_forall in Hf2.
        apply (key_lt_irrefl k1). transitivity k2; [done|]. by apply Hf2.
      - pose proof (Hget k2) as Hg. simpl in Hg. rewrite String.eqb_refl in Hg.
        destruct (String.eqb_spec k2 k1) as [->|_]; [by apply (key_lt_irrefl k1)|].
        apply bt_get_In, (in_map fst) in Hg. rewrite List.Forall_forall in Hf1.
        apply (key_lt_irrefl k2). transitivity k1; [done|]. by apply Hf1. }
    pose proof (Hget k2) as Hg. simpl in Hg. rewrite String.eqb_refl in Hg. simplify_eq.
    f_equal. apply IH; [done..|]. intros k. pose proof (Hget k) as Hk. simpl in Hk.
    destruct (String.eqb_spec k k2) as [Hkk|]; [|done]. rewrite Hkk. clear Hk Hkk.
    assert (forall m : BTreeMap A, Forall (key_lt k2) (map fst m) -> bt_get k2 m = None) as Hn.
    { intros m Hf. apply bt_get_None. intros Hin. rewrite List.Forall_forall in Hf.
      by apply (key_lt_irrefl k2), Hf. }
    by rewrite !Hn.
Qed.
End lemmas.

Lemma bt_insert_keys_eq {A B : Type} (k : string) (a : A) (b : B) (m : BTreeMap A) (m' : BTreeMap B) :
  map fst m = map fst m' -> map fst (bt_insert k a m) = map fst (bt_insert k b m').
Proof.
  revert m'. induction m as [|[k0 v0] m IH]; intros [|[k1 v1] m'] Hk; simpl in *; try done.
  injection Hk as -> Hk. destruct (String_as_OT.compare k k1); simpl; rewrite ?Hk; try done.
  f_equal. auto.
Qed.

(** Sorted key lists are determined by their elements. *)
Lemma sorted_incl_eq (l k : list string) :
  StronglySorted key_lt l -> StronglySorted key_lt k ->
  (forall x, In x l -> In x k) -> length l = length k -> l = k.
Proof.
  intros Hl Hk Hincl Hlen.
  assert (forall ks, StronglySorted key_lt ks -> List.NoDup ks) as Hnd.
  { intros ks. induction 1 as [|x ks _ IH Hx]; constructor; [|done].
    intros Hin. rewrite List.Forall_forall in Hx. by apply (key_lt_irrefl x), Hx. }
  assert (forall x, In x k -> In x l) as Hincl'.
  { apply NoDup_length_incl; [by apply Hnd|lia|done]. }
  clear Hnd Hlen. revert k Hk Hincl Hincl'.
  induction Hl as [|x l Hl IH Hx]; intros k Hk Hi1 Hi2.
  - destruct k as [|y k]; [done|]. by destruct (Hi2 y (or_introl eq_refl)).
  - destruct k as [|y k]; [by destruct (Hi1 x (or_introl eq_refl))|].
    apply StronglySorted_inv in Hk as [Hk Hy]. rewrite List.Forall_forall in Hx, Hy.
    assert (x = y) as ->.
    { destruct (Hi1 x (or_introl eq_refl)) as [|Hxk]; [done|].
      destruct (Hi2 y (or_introl eq_refl)) as [|Hyl]; [done|].
      destruct (key_lt_irrefl x). transitivity y; auto. }
    f_equal. apply IH; [done| |].
    + intros z Hz. destruct (Hi1 z (or_intror Hz)) as [<-|]; [|done].
      destruct (key_lt_irrefl y). auto.
    + intros z Hz. destruct (Hi2 z (or_intror Hz)) as [<-|]; [|done].
      destruct (key_lt_irrefl y). auto.
Qed.

(** A loop over a sorted map that inserts an image of each entry into a fresh
    map builds the map of the images. *)
Lemma try_fold_insert {E A B : Type} (body : BTreeMap B -> string * A -> outcome E (BTreeMap B))
    (f : string -> A -> outcome E B) (m : BTreeMap A) (r : BTreeMap B) :
  (forall acc k a, body acc (k, a) = let? b := f k a in Ok (bt_insert k b acc)) ->
  bt_sorted m -> try_fold body [] m = Ok r ->
  Forall2 (fun x y => fst x = fst y /\ f (fst x) (snd x) = Ok (snd y)) m r.
Proof.
  intros Hbody Hs Hr.
  enough (forall acc, (forall k, In k (map fst m) -> Forall (fun k' => key_lt k' k) (map fst acc)) ->
    try_fold body acc m = Ok r ->
    exists r', r = acc ++ r' /\ Forall2 (fun x y => fst x = fst y /\ f (fst x) (snd x) = Ok (snd y)) m r')
    as H by (destruct (H [] ltac:(constructor) Hr) as (r' & -> & Hr'); done).
  clear Hr. induction m as [|[k a] m IH]; intros acc Hacc H; simpl in H.
  - simplify_eq. exists []. split; [by rewrite app_nil_r|constructor].
  - apply bt_sorted_cons in Hs as [Hs Hk]. rewrite Hbody in H.
    apply out_bind_Ok in H as (acc' & Hacc' & H). apply out_bind_Ok in Hacc' as (b & Hb & Hacc').
    injection Hacc' as <-. rewrite bt_insert_last in H by (apply Hacc; simpl; auto).
    destruct (IH Hs (acc ++ [(k, b)])) as (r' & -> & Hr'); [|done|].
    + intros k' Hk'. rewrite map_app. apply List.Forall_app. split; [apply Hacc; simpl; auto|].
      repeat constructor. rewrite List.Forall_forall in Hk. by apply Hk.
    + exists ((k, b) :: r'). rewrite <-app_assoc. split; [done|]. by constructor.
Qed.

#[export] Hint Resolve bt_sorted_nil bt_insert_sorted : stacks.
