(* ===== verification/Types.v ===== *)
(** Types: the data of Clarity's type system: [TypeSignature] and [Value] of
    clarity/src/vm/types/{signatures,mod}.rs, and the error types of
    clarity/src/vm/errors.rs and clarity/src/vm/analysis/errors.rs.

    [TypeSignature] is nested through [Box], [BTreeMap] and the sequence
    subtypes, [Value] through [Vec] and [BTreeMap]; the induction principles
    [TypeSignature_ind'] and [Value_ind'] give the hypothesis for every nested
    occurrence. *)
From Stdlib Require Import ZArith Lia Strings.Byte Strings.String List Bool.
From stdpp Require Import base decidable list strings.
From S2P Require Import Prelude Bytes Codec Representations BTree.
Open Scope Z_scope.

(** * Type signatures *)
Inductive StringSubtype :=
| ASCII (len : Z)
| UTF8 (len : Z).

Record ListTypeDataOf (T : Type) := mkListType {
  max_len : Z;
  entry_type : T
}.
Arguments mkListType {T} _ _.
Arguments max_len {T} _.
Arguments entry_type {T} _.

Inductive SequenceSubtypeOf (T : Type) :=
| BufferType (len : Z)
| ListType (l : ListTypeDataOf T)
| StringType (s : StringSubtype).
Arguments BufferType {T} _.
Arguments ListType {T} _.
Arguments StringType {T} _.

Record TupleTypeSignatureOf (T : Type) := mkTupleType {
  type_map : BTreeMap T
}.
Arguments mkTupleType {T} _.
Arguments type_map {T} _.

Inductive TypeSignature :=
| NoType
| IntType
| UIntType
| BoolType
| SequenceType (s : SequenceSubtypeOf TypeSignature)
| PrincipalType
| TupleType (t : TupleTypeSignatureOf TypeSignature)
| OptionalType (t : TypeSignature)
| ResponseType (ok err : TypeSignature)
| TraitReferenceType (t : TraitIdentifier).

Notation ListTypeData := (ListTypeDataOf TypeSignature).
Notation SequenceSubtype := (SequenceSubtypeOf TypeSignature).
Notation TupleTypeSignature := (TupleTypeSignatureOf TypeSignature).

(** * Values *)
(** [ASCIIData] holds bytes, [UTF8Data] the UTF-8 encoding of each character. *)
Inductive CharType :=
| CharUTF8 (data : list (list byte))
| CharASCII (data : list byte).

(** [ListData] and [TupleData] carry the type they were constructed with. *)
Record ListDataOf (V : Type) := mkListData {
  ld_data : list V;
  ld_type_signature : ListTypeData
}.
Arguments mkListData {V} _ _.
Arguments ld_data {V} _.
Arguments ld_type_signature {V} _.

Record TupleDataOf (V : Type) := mkTupleData {
  td_type_signature : TupleTypeSignature;
  td_data_map : BTreeMap V
}.
Arguments mkTupleData {V} _ _.
Arguments td_type_signature {V} _.
Arguments td_data_map {V} _.

Inductive SequenceDataOf (V : Type) :=
| SeqBuffer (data : list byte)
| SeqList (l : ListDataOf V)
| SeqString (c : CharType).
Arguments SeqBuffer {V} _.
Arguments SeqList {V} _.
Arguments SeqString {V} _.

Inductive Value :=
| VInt (i : Z)
| VUInt (u : Z)
| VBool (b : bool)
| VSequence (s : SequenceDataOf Value)
| VPrincipal (p : PrincipalData)
| VTuple (t : TupleDataOf Value)
| VOptional (data : option Value)
| VResponse (committed : bool) (data : Value).

Notation ListData := (ListDataOf Value).
Notation SequenceData := (SequenceDataOf Value).
Notation TupleData := (TupleDataOf Value).

(** * Execution costs (clarity/src/vm/costs/mod.rs), reported by cost errors *)
Record ExecutionCost := mkCost {
  write_length : Z;
  write_count : Z;
  read_length : Z;
  read_count : Z;
  runtime : Z
}.

(** * Errors *)
Module CheckErr.
Inductive CheckErrors :=
| CostOverflow
| CostBalanceExceeded (a b : ExecutionCost)
| MemoryBalanceExceeded (a b : Z)
| CostComputationFailed (msg : string)
| ValueTooLarge
| ValueOutOfBounds
| TypeSignatureTooDeep
| ExpectedName
| BadMatchOptionSyntax (e : CheckErrors)
| BadMatchResponseSyntax (e : CheckErrors)
| BadMatchInput (t : TypeSignature)
| UnknownListConstructionFailure
| ListTypesMustMatch
| ConstructedListTooLarge
| TypeError (a b : TypeSignature)
| TypeLiteralError (a b : TypeSignature)
| TypeValueError (t : TypeSignature) (v : Value)
| NoSuperType (a b : TypeSignature)
| InvalidTypeDescription
| UnknownTypeName (name : string)
| UnionTypeError (ts : list TypeSignature) (t : TypeSignature)
| UnionTypeValueError (ts : list TypeSignature) (v : Value)
| ExpectedLiteral
| ExpectedOptionalType (t : TypeSignature)
| ExpectedResponseType (t : TypeSignature)
| ExpectedOptionalOrResponseType (t : TypeSignature)
| ExpectedOptionalValue (v : Value)
| ExpectedResponseValue (v : Value)
| ExpectedOptionalOrResponseValue (v : Value)
| CouldNotDetermineResponseOkType
| CouldNotDetermineResponseErrType
| UncheckedIntermediaryResponses
| CouldNotDetermineMatchTypes
| TypeAlreadyAnnotatedFailure
| TypeAnnotationExpectedFailure
| CheckerImplementationFailure
| BadTokenName
| DefineFTBadSignature
| DefineNFTBadSignature
| NoSuchNFT (name : string)
| NoSuchFT (name : string)
| BadTransferSTXArguments
| BadTransferFTArguments
| BadTransferNFTArguments
| BadMintFTArguments
| BadBurnFTArguments
| BadWithdrawFTArguments
| BadTupleFieldName
| ExpectedTuple (t : TypeSignature)
| NoSuchTupleField (name : string) (t : TupleTypeSignature)
| EmptyTuplesNotAllowed
| BadTupleConstruction
| TupleExpectsPairs
| NoSuchDataVariable (name : string)
| BadMapName
| NoSuchMap (name : string)
| DefineFunctionBadSignature
| BadFunctionName
| BadMapTypeDefinition
| PublicFunctionMustReturnResponse (t : TypeSignature)
| DefineVariableBadSignature
| ReturnTypesMustMatch (a b : TypeSignature)
| CircularReference (names : list string)
| NoSuchContract (name : string)
| NoSuchPublicFunction (contract function : string)
| PublicFunctionNotReadOnly (contract function : string)
| ContractAlreadyExists (name : string)
| ContractCallExpectName
| NoSuchBlockInfoProperty (name : string)
| GetBlockInfoExpectPropertyName
| NameAlreadyUsed (name : string)
| NonFunctionApplication
| ExpectedListApplication
| ExpectedSequence (t : TypeSignature)
| MaxLengthOverflow
| BadLetSyntax
| BadSyntaxBinding
| BadSyntaxExpectedListOfPairs
| MaxContextDepthReached
| UndefinedFunction (name : string)
| UndefinedVariable (name : string)
| RequiresAtLeastArguments (expected found : Z)
| IncorrectArgumentCount (expected found : Z)
| IfArmsMustMatch (a b : TypeSignature)
| MatchArmsMustMatch (a b : TypeSignature)
| DefaultTypesMustMatch (a b : TypeSignature)
| TooManyExpressions
| IllegalOrUnknownFunctionApplication (name : string)
| UnknownFunction (name : string)
| NoSuchTrait (contract name : string)
| TraitReferenceUnknown (name : string)
| TraitMethodUnknown (trait method : string)
| ExpectedTraitIdentifier
| ImportTraitBadSignature
| TraitReferenceNotAllowed
| BadTraitImplementation (trait method : string)
| DefineTraitBadSignature
| UnexpectedTraitOrFieldReference
| TraitBasedContractCallInReadOnly
| ContractOfExpectsTrait
| InvalidCharactersDetected
| InvalidSecp65k1Signature
| WriteAttemptedInReadOnly
| AtBlockClosureMustBeReadOnly.
End CheckErr.
Notation CheckErrors := CheckErr.CheckErrors.

Module InterpErr.
Inductive InterpreterError :=
| BadSender (v : Value)
| BadSymbolicRepresentation (msg : string)
| Interpreter (msg : string)
| UninitializedPersistedVariable
| FailedToConstructAssetTable
| FailedToConstructEventBatch
| SqliteError
| BadFileName
| FailedToCreateDataDirectory
| MarfFailure (msg : string)
| FailureConstructingTupleWithType
| FailureConstructingListWithType
| InsufficientBalance
| CostContractLoadFailure
| DBError (msg : string).
End InterpErr.
Notation InterpreterError := InterpErr.InterpreterError.

Inductive ShortReturnType :=
| ExpectedValue (v : Value)
| AssertionFailed (v : Value).

(** [vm::errors::Error]; the stack trace of a run-time error is left out. *)
Inductive VmError :=
| Unchecked (e : CheckErrors)
| InterpreterErr (e : InterpreterError)
| Runtime (e : RuntimeErrorType)
| ShortReturn (e : ShortReturnType).

(** * Induction principles *)
Section TypeSignature_ind.
Context (P : TypeSignature -> Prop).
Hypothesis HNoType : P NoType.
Hypothesis HInt : P IntType.
Hypothesis HUInt : P UIntType.
Hypothesis HBool : P BoolType.
Hypothesis HBuffer : forall n, P (SequenceType (BufferType n)).
Hypothesis HList : forall n t, P t -> P (SequenceType (ListType (mkListType n t))).
Hypothesis HString : forall s, P (SequenceType (StringType s)).
Hypothesis HPrincipal : P PrincipalType.
Hypothesis HTuple : forall m, Forall (fun e => P (snd e)) m -> P (TupleType (mkTupleType m)).
Hypothesis HOptional : forall t, P t -> P (OptionalType t).
Hypothesis HResponse : forall t s, P t -> P s -> P (ResponseType t s).
Hypothesis HTrait : forall t, P (TraitReferenceType t).

Lemma TypeSignature_ind' : forall t, P t.
Proof using All.
  fix IH 1. intros [| | | |[n|[n t]|s]| |[m]|t|t s|t];
    [apply HNoType | apply HInt | apply HUInt | apply HBool | apply HBuffer
    | apply HList, IH | apply HString | apply HPrincipal | apply HTuple
    | apply HOptional, IH | apply HResponse; apply IH | apply HTrait].
  induction m as [|[k t] m IHm]; constructor; [apply IH | apply IHm].
Qed.
End TypeSignature_ind.

Section Value_ind.
Context (P : Value -> Prop).
Hypothesis HInt : forall i, P (VInt i).
Hypothesis HUInt : forall u, P (VUInt u).
Hypothesis HBool : forall b, P (VBool b).
Hypothesis HBuffer : forall d, P (VSequence (SeqBuffer d)).
Hypothesis HList : forall l t, Forall P l -> P (VSequence (SeqList (mkListData l t))).
Hypothesis HString : forall c, P (VSequence (SeqString c)).
Hypothesis HPrincipal : forall p, P (VPrincipal p).
Hypothesis HTuple : forall t m, Forall (fun e => P (snd e)) m -> P (VTuple (mkTupleData t m)).
Hypothesis HNone : P (VOptional None).
Hypothesis HSome : forall v, P v -> P (VOptional (Some v)).
Hypothesis HResponse : forall c v, P v -> P (VResponse c v).

Lemma Value_ind' : forall v, P v.
Proof using All.
  fix IH 1. intros [i|u|b|[d|[l t]|c]|p|[t m]|[v|]|c v];
    [apply HInt | apply HUInt | apply HBool | apply HBuffer | apply HList | apply HString
    | apply HPrincipal | apply HTuple | apply HSome, IH | apply HNone | apply HResponse, IH].
  - induction l as [|v l IHl]; constructor; [apply IH | apply IHl].
  - induction m as [|[k v] m IHm]; constructor; [apply IH | apply IHm].
Qed.
End Value_ind.

(** * Decidable equality *)
#[global] Instance StringSubtype_eq_dec : EqDecision StringSubtype.
Proof. solve_decision. Defined.

#[global] Instance TypeSignature_eq_dec : EqDecision TypeSignature.
Proof.
  refine (fix go (x y : TypeSignature) : {x = y} + {x <> y} :=
    match x, y with
    | NoType, NoType | IntType, IntType | UIntType, UIntType | BoolType, BoolType
    | PrincipalType, PrincipalType => left eq_refl
    | SequenceType (BufferType n), SequenceType (BufferType n') => cast_if (decide (n = n'))
    | SequenceType (ListType (mkListType n t)), SequenceType (ListType (mkListType n' t')) =>
        cast_if_and (decide (n = n')) (go t t')
    | SequenceType (StringType s), SequenceType (StringType s') => cast_if (decide (s = s'))
    | TupleType (mkTupleType m), TupleType (mkTupleType m') =>
        cast_if ((fix go_map (m m' : BTreeMap TypeSignature) : {m = m'} + {m <> m'} :=
          match m, m' with
          | [], [] => left eq_refl
          | (k, t) :: m, (k', t') :: m' =>
              cast_if_and3 (decide (k = k')) (go t t') (go_map m m')
          | _, _ => right _
          end) m m')
    | OptionalType t, OptionalType t' => cast_if (go t t')
    | ResponseType t s, ResponseType t' s' => cast_if_and (go t t') (go s s')
    | TraitReferenceType t, TraitReferenceType t' => cast_if (decide (t = t'))
    | _, _ => right _
    end); clear go; abstract congruence.
Defined.
