(* ===== verification/Signatures.v ===== *)
(** Signatures: sizes, guarded constructors, admission and least supertypes
    of Clarity types (clarity/src/vm/types/signatures.rs).

    [size] and [depth] are computed in [u32] and [u8]; [inner_size] returns an
    [Option] and calls the panicking [size] on component types, so it is
    modelled in [outcome unit Z] with [Err tt] for [None]. *)
From Stdlib Require Import ZArith Lia Strings.Byte Strings.String List Bool.
From stdpp Require Import base decidable list strings option.
From S2P Require Import Prelude Bytes Codec Representations BTree Types.
Open Scope Z_scope.

Definition MAX_VALUE_SIZE : Z := 1024 * 1024.
Definition MAX_TYPE_DEPTH : Z := 32.
Definition WRAPPER_VALUE_SIZE : Z := 1.

(** Lengths of buffers and strings. *)
Definition BufferLength_try_from (data : Z) : outcome CheckErrors Z :=
  if MAX_VALUE_SIZE <? data then Err CheckErr.ValueTooLarge else Ok data.

Definition BufferLength_try_from_i128 (data : Z) : outcome CheckErrors Z :=
  if MAX_VALUE_SIZE <? data then Err CheckErr.ValueTooLarge
  else if data <? 0 then Err CheckErr.ValueOutOfBounds
  else Ok (as_u32 data).

Definition StringUTF8Length_try_from (t : int_ty) (data : Z) : outcome CheckErrors Z :=
  let? len := ok_or CheckErr.ValueTooLarge (checked_mul t data 4) in
  if MAX_VALUE_SIZE <? len then Err CheckErr.ValueTooLarge else Ok data.

Definition StringUTF8Length_try_from_i128 (data : Z) : outcome CheckErrors Z :=
  let? len := ok_or CheckErr.ValueTooLarge (checked_mul i128_ty data 4) in
  if MAX_VALUE_SIZE <? len then Err CheckErr.ValueTooLarge
  else if data <? 0 then Err CheckErr.ValueOutOfBounds
  else Ok (as_u32 data).

(** * Depth and sizes *)
Definition TupleTypeSignature_max_depth {T : Type} (depth : T -> Z) (sig : TupleTypeSignatureOf T) : Z :=
  fold_left (fun max '(_name, type_signature) => Z.max max (depth type_signature)) (type_map sig) 0.

Fixpoint TypeSignature_depth (t : TypeSignature) : Z :=
  match t with
  | TraitReferenceType _ | NoType | IntType | UIntType | BoolType | PrincipalType
  | SequenceType (BufferType _) | SequenceType (StringType _) => 1
  | TupleType tuple_sig => as_u8 (1 + TupleTypeSignature_max_depth TypeSignature_depth tuple_sig)
  | SequenceType (ListType list_type) => as_u8 (1 + TypeSignature_depth (entry_type list_type))
  | OptionalType t => as_u8 (1 + TypeSignature_depth t)
  | ResponseType t s => as_u8 (1 + Z.max (TypeSignature_depth t) (TypeSignature_depth s))
  end.

(** [x.checked_add(y)?] in a function that returns an [Option<u32>]. *)
Definition add32 (x y : Z) : outcome unit Z := ok_or tt (checked_add u32_ty x y).
Definition mul32 (x y : Z) : outcome unit Z := ok_or tt (checked_mul u32_ty x y).
(** [u32::try_from(n).ok()?] *)
Definition to_u32 (n : Z) : outcome unit Z := ok_or tt (checked u32_ty n).
(** The closing check of the size computations. *)
Definition at_most_max (n : Z) : outcome unit Z := if MAX_VALUE_SIZE <? n then Err tt else Ok n.

Definition ListTypeData_type_size {T : Type} (inner_type_size : T -> outcome unit Z)
    (l : ListTypeDataOf T) : outcome unit Z :=
  let? entry := inner_type_size (entry_type l) in
  let? total_size := add32 entry (4 + 1) in
  at_most_max total_size.

Definition TupleTypeSignature_type_size {T : Type} (inner_type_size : T -> outcome unit Z)
    (sig : TupleTypeSignatureOf T) : outcome unit Z :=
  let? len := to_u32 (Z.of_nat (length (type_map sig))) in
  let? type_map_size := mul32 len 2 in
  let? type_map_size :=
    try_fold (fun acc '(name, type_signature) =>
      let? s := inner_type_size type_signature in
      let? acc := add32 acc s in
      add32 acc (str_len name)) type_map_size (type_map sig) in
  at_most_max type_map_size.

(** The size of the type signature itself. *)
Fixpoint inner_type_size (t : TypeSignature) : outcome unit Z :=
  match t with
  | NoType | IntType | UIntType | BoolType | PrincipalType => Ok 1
  | TupleType tuple_sig => TupleTypeSignature_type_size inner_type_size tuple_sig
  | SequenceType (BufferType _) => Ok (1 + 4)
  | SequenceType (ListType list_type) => ListTypeData_type_size inner_type_size list_type
  | SequenceType (StringType _) => Ok (1 + 4)
  | OptionalType t => let? s := inner_type_size t in add32 s 1
  | ResponseType t s =>
      let? t_size := inner_type_size t in
      let? s_size := inner_type_size s in
      let? sum := add32 t_size s_size in
      add32 sum 1
  | TraitReferenceType _ => Ok 1
  end.

Definition type_size (t : TypeSignature) : outcome CheckErrors Z :=
  map_err (fun _ => CheckErr.ValueTooLarge) (inner_type_size t).

Definition ListTypeData_inner_size (size : TypeSignature -> outcome unit Z)
    (l : ListTypeData) : outcome unit Z :=
  let? entry := size (entry_type l) in
  let? product := mul32 entry (max_len l) in
  let? own := ListTypeData_type_size inner_type_size l in
  let? total_size := add32 product own in
  at_most_max total_size.

Definition TupleTypeSignature_inner_size (size : TypeSignature -> outcome unit Z)
    (sig : TupleTypeSignature) : outcome unit Z :=
  let? len := to_u32 (Z.of_nat (length (type_map sig))) in
  let? twice := mul32 len 2 in
  let? own := TupleTypeSignature_type_size inner_type_size sig in
  let? total_size := add32 twice own in
  let? total_size :=
    try_fold (fun acc '(name, type_signature) =>
      let? s := size type_signature in
      let? acc := add32 acc s in
      add32 acc (str_len name)) total_size (type_map sig) in
  at_most_max total_size.

(** The size of a value of the type: [inner_size] and the panicking [size]. *)
Fixpoint inner_size (t : TypeSignature) : outcome unit Z :=
  let size := fun t => expect (inner_size t) in
  match t with
  | NoType => Ok 1
  | IntType => Ok 16
  | UIntType => Ok 16
  | BoolType => Ok 1
  | PrincipalType => Ok 148
  | TupleType tuple_sig => TupleTypeSignature_inner_size size tuple_sig
  | SequenceType (BufferType len) | SequenceType (StringType (ASCII len)) => Ok (as_u32 (4 + len))
  | SequenceType (ListType list_type) => ListTypeData_inner_size size list_type
  | SequenceType (StringType (UTF8 len)) => Ok (as_u32 (4 + as_u32 (4 * len)))
  | OptionalType t => let? t_size := size t in add32 t_size WRAPPER_VALUE_SIZE
  | ResponseType t s =>
      let? t_size := size t in
      let? s_size := size s in
      add32 (Z.max t_size s_size) WRAPPER_VALUE_SIZE
  | TraitReferenceType _ => Ok 276
  end.

Definition TypeSignature_size {E : Type} (t : TypeSignature) : outcome E Z := expect (inner_size t).

(** * Constructors *)
Definition new_list (entry : TypeSignature) (len : Z) : outcome CheckErrors ListTypeData :=
  let would_be_depth := as_u8 (1 + TypeSignature_depth entry) in
  if MAX_TYPE_DEPTH <? would_be_depth then Err CheckErr.TypeSignatureTooDeep
  else
    let list_data := mkListType len entry in
    let? would_be_size :=
      map_err (fun _ => CheckErr.ValueTooLarge)
        (ListTypeData_inner_size TypeSignature_size list_data) in
    if MAX_VALUE_SIZE <? would_be_size then Err CheckErr.ValueTooLarge else Ok list_data.

Definition reduce_max_len (l : ListTypeData) (new_max_len : Z) : ListTypeData :=
  if new_max_len <=? max_len l then mkListType new_max_len (entry_type l) else l.

Definition new_option (inner_type : TypeSignature) : outcome CheckErrors TypeSignature :=
  let? inner := TypeSignature_size inner_type in
  let new_size := as_u32 (WRAPPER_VALUE_SIZE + inner) in
  let new_depth := as_u8 (1 + TypeSignature_depth inner_type) in
  if MAX_VALUE_SIZE <? new_size then Err CheckErr.ValueTooLarge
  else if MAX_TYPE_DEPTH <? new_depth then Err CheckErr.TypeSignatureTooDeep
  else Ok (OptionalType inner_type).

Definition new_response (ok_type err_type : TypeSignature) : outcome CheckErrors TypeSignature :=
  let? ok_size := TypeSignature_size ok_type in
  let? err_size := TypeSignature_size err_type in
  let new_size := as_u32 (WRAPPER_VALUE_SIZE + Z.max ok_size err_size) in
  let new_depth := as_u8 (1 + Z.max (TypeSignature_depth ok_type) (TypeSignature_depth err_type)) in
  if MAX_VALUE_SIZE <? new_size then Err CheckErr.ValueTooLarge
  else if MAX_TYPE_DEPTH <? new_depth then Err CheckErr.TypeSignatureTooDeep
  else Ok (ResponseType ok_type err_type).

Definition TupleTypeSignature_try_from_map (m : BTreeMap TypeSignature)
  : outcome CheckErrors TupleTypeSignature :=
  if Nat.eqb (length m) 0 then Err CheckErr.EmptyTuplesNotAllowed
  else if existsb (fun '(_, child_sig) => MAX_TYPE_DEPTH <? as_u8 (1 + TypeSignature_depth child_sig)) m
  then Err CheckErr.TypeSignatureTooDeep
  else
    let result := mkTupleType m in
    let? would_be_size :=
      map_err (fun _ => CheckErr.ValueTooLarge)
        (TupleTypeSignature_inner_size TypeSignature_size result) in
    if MAX_VALUE_SIZE <? would_be_size then Err CheckErr.ValueTooLarge else Ok result.

Definition TupleTypeSignature_try_from (type_data : list (string * TypeSignature))
  : outcome CheckErrors TupleTypeSignature :=
  if Nat.eqb (length type_data) 0 then Err CheckErr.EmptyTuplesNotAllowed
  else
    let? m :=
      try_fold (fun m '(name, type_info) =>
        if bt_contains_key name m then Err (CheckErr.NameAlreadyUsed name)
        else Ok (bt_insert name type_info m)) [] type_data in
    TupleTypeSignature_try_from_map m.

Definition TupleTypeSignature_shallow_merge (self update : TupleTypeSignature) : TupleTypeSignature :=
  mkTupleType (bt_append (type_map self) (type_map update)).

Definition TupleTypeSignature_field_type (self : TupleTypeSignature) (field : string)
  : option TypeSignature := bt_get field (type_map self).

Definition list_of (item_type : TypeSignature) (len : Z) : outcome CheckErrors TypeSignature :=
  let? l := new_list item_type len in Ok (SequenceType (ListType l)).

Definition empty_list : ListTypeData := mkListType 0 NoType.

(** [0_u32.try_into().unwrap()] and [1_u32.try_into().unwrap()] succeed. *)
Definition empty_buffer : TypeSignature := SequenceType (BufferType 0).
Definition min_buffer : TypeSignature := SequenceType (BufferType 1).
Definition min_string_ascii : TypeSignature := SequenceType (StringType (ASCII 1)).
Definition min_string_utf8 : TypeSignature := SequenceType (StringType (UTF8 1)).
Definition max_buffer : TypeSignature := SequenceType (BufferType MAX_VALUE_SIZE).
Definition BUFF_32 : TypeSignature := SequenceType (BufferType 32).

(** [SequenceSubtype::unit_type] *)
Definition SequenceSubtype_unit_type (s : SequenceSubtype) : TypeSignature :=
  match s with
  | ListType list_data => entry_type list_data
  | BufferType _ => min_buffer
  | StringType (ASCII _) => min_string_ascii
  | StringType (UTF8 _) => min_string_utf8
  end.

(** * Admission *)
Definition is_no_type (t : TypeSignature) : bool := bool_decide (t = NoType).

(** A loop that returns [false] at the first element that fails the test. *)
Fixpoint out_forallb {E A : Type} (f : A -> outcome E bool) (l : list A) : outcome E bool :=
  match l with
  | [] => Ok true
  | x :: l => let? b := f x in if b then out_forallb f l else Ok false
  end.

Definition TupleTypeSignature_admits {E : Type}
    (admits_type : TypeSignature -> TypeSignature -> outcome E bool)
    (self other : TupleTypeSignature) : outcome E bool :=
  if negb (Nat.eqb (length (type_map self)) (length (type_map other))) then Ok false
  else
    out_forallb (fun '(name, my_type_sig) =>
      match bt_get name (type_map other) with
      | Some other_type_sig => admits_type my_type_sig other_type_sig
      | None => Ok false
      end) (type_map self).

Fixpoint admits_type {E : Type} (self other : TypeSignature) : outcome E bool :=
  match self with
  | SequenceType (ListType my_list_type) =>
      match other with
      | SequenceType (ListType other_list_type) =>
          if max_len other_list_type =? 0 then Ok true
          else if max_len other_list_type <=? max_len my_list_type then
            admits_type (entry_type my_list_type) (entry_type other_list_type)
          else Ok false
      | _ => Ok false
      end
  | SequenceType (BufferType my_len) =>
      match other with
      | SequenceType (BufferType other_len) => Ok (other_len <=? my_len)
      | _ => Ok false
      end
  | SequenceType (StringType (ASCII len)) =>
      match other with
      | SequenceType (StringType (ASCII other_len)) => Ok (other_len <=? len)
      | _ => Ok false
      end
  | SequenceType (StringType (UTF8 len)) =>
      match other with
      | SequenceType (StringType (UTF8 other_len)) => Ok (other_len <=? len)
      | _ => Ok false
      end
  | OptionalType my_inner_type =>
      match other with
      | OptionalType other_inner_type =>
          if is_no_type other_inner_type then Ok true
          else admits_type my_inner_type other_inner_type
      | _ => Ok false
      end
  | ResponseType my_ok my_err =>
      match other with
      | ResponseType other_ok other_err =>
          if is_no_type other_ok then admits_type my_err other_err
          else if is_no_type other_err then admits_type my_ok other_ok
          else
            let? err_admits := admits_type my_err other_err in
            if err_admits then admits_type my_ok other_ok else Ok false
      | _ => Ok false
      end
  | TupleType tuple_sig =>
      match other with
      | TupleType other_tuple_sig => TupleTypeSignature_admits admits_type tuple_sig other_tuple_sig
      | _ => Ok false
      end
  | NoType => Panic
  | _ => Ok (bool_decide (other = self))
  end.

(** * Least supertypes *)
Definition factor_out_no_type_with
    (least_supertype : TypeSignature -> TypeSignature -> outcome CheckErrors TypeSignature)
    (a b : TypeSignature) : outcome CheckErrors TypeSignature :=
  if is_no_type a then Ok b
  else if is_no_type b then Ok a
  else least_supertype a b.

Fixpoint least_supertype (a b : TypeSignature) : outcome CheckErrors TypeSignature :=
  match a, b with
  | TupleType (mkTupleType types_a), TupleType (mkTupleType types_b) =>
      let? type_map_out :=
        try_fold (fun type_map_out '(name, entry_a) =>
          let? entry_b := ok_or (CheckErr.TypeError a b) (bt_get name types_b) in
          let? entry_out := least_supertype entry_a entry_b in
          Ok (bt_insert name entry_out type_map_out)) [] types_a in
      let? t := expect (TupleTypeSignature_try_from_map type_map_out) in
      Ok (TupleType t)
  | SequenceType (ListType (mkListType len_a entry_a)), SequenceType (ListType (mkListType len_b entry_b)) =>
      let? entry_type :=
        if len_a =? 0 then Ok entry_b
        else if len_b =? 0 then Ok entry_a
        else least_supertype entry_a entry_b in
      expect (list_of entry_type (Z.max len_a len_b))
  | ResponseType ok_a err_a, ResponseType ok_b err_b =>
      let? ok_type := factor_out_no_type_with least_supertype ok_a ok_b in
      let? err_type := factor_out_no_type_with least_supertype err_a err_b in
      new_response ok_type err_type
  | OptionalType some_a, OptionalType some_b =>
      let? some_type := factor_out_no_type_with least_supertype some_a some_b in
      new_option some_type
  | SequenceType (BufferType buff_a), SequenceType (BufferType buff_b) =>
      Ok (SequenceType (BufferType (if buff_b <? buff_a then buff_a else buff_b)))
  | SequenceType (StringType (ASCII string_a)), SequenceType (StringType (ASCII string_b)) =>
      Ok (SequenceType (StringType (ASCII (if string_b <? string_a then string_a else string_b))))
  | SequenceType (StringType (UTF8 string_a)), SequenceType (StringType (UTF8 string_b)) =>
      Ok (SequenceType (StringType (UTF8 (if string_b <? string_a then string_a else string_b))))
  | NoType, x => Ok x
  | x, NoType => Ok x
  | x, y => if bool_decide (x = y) then Ok x else Err (CheckErr.TypeError a b)
  end.

Definition factor_out_no_type : TypeSignature -> TypeSignature -> outcome CheckErrors TypeSignature :=
  factor_out_no_type_with least_supertype.

Definition parent_list_type (children : list TypeSignature) : outcome CheckErrors ListTypeData :=
  match children with
  | first :: rest =>
      let? current_entry_type := try_fold least_supertype first rest in
      let? len := ok_or CheckErr.ValueTooLarge (checked u32_ty (Z.of_nat (length children))) in
      new_list current_entry_type len
  | [] => Ok empty_list
  end.

(** * Function signatures *)
Record FunctionArg := mkFunctionArg {
  signature : TypeSignature;
  fa_name : string
}.
Record FunctionSignature := mkFunctionSignature {
  fs_args : list TypeSignature;
  fs_returns : TypeSignature
}.
Record FixedFunction := mkFixedFunction {
  ff_args : list FunctionArg;
  ff_returns : TypeSignature
}.

(** [cost_overflow_add] of clarity/src/vm/costs/mod.rs, with its error as a [CheckErrors]. *)
Definition check_cost_overflow_add (x y : Z) : outcome CheckErrors Z :=
  ok_or CheckErr.CostOverflow (checked_add u64_ty x y).

Definition FixedFunction_total_type_size (self : FixedFunction) : outcome CheckErrors Z :=
  let? returns := type_size (ff_returns self) in
  try_fold (fun function_type_size arg =>
    let? s := type_size (signature arg) in
    check_cost_overflow_add function_type_size s) returns (ff_args self).

Definition FunctionSignature_total_type_size (self : FunctionSignature) : outcome CheckErrors Z :=
  let? returns := type_size (fs_returns self) in
  try_fold (fun function_type_size arg =>
    let? s := type_size arg in
    check_cost_overflow_add function_type_size s) returns (fs_args self).

Definition check_args_trait_compliance {E : Type} (self : FunctionSignature) (args : list TypeSignature)
  : outcome E bool :=
  if negb (Nat.eqb (length args) (length (fs_args self))) then Ok false
  else
    out_forallb (fun '(expected_arg, arg) =>
      match expected_arg, arg with
      | TraitReferenceType expected, TraitReferenceType candidate =>
          Ok (bool_decide (candidate = expected))
      | _, _ => admits_type arg expected_arg
      end) (combine (fs_args self) args).

(** * Well-formed types *)
(** The types the guarded constructors build. *)
Fixpoint TypeSignature_wf (t : TypeSignature) : bool :=
  match t with
  | NoType | IntType | UIntType | BoolType | PrincipalType | TraitReferenceType _ => true
  | SequenceType (BufferType n) | SequenceType (StringType (ASCII n)) =>
      (0 <=? n) && (n <=? MAX_VALUE_SIZE)
  | SequenceType (StringType (UTF8 n)) => (0 <=? n) && (4 * n <=? MAX_VALUE_SIZE)
  | SequenceType (ListType (mkListType n t)) =>
      in_ty u32_ty n && TypeSignature_wf t && is_ok (new_list t n)
  | TupleType (mkTupleType m) =>
      bt_sortedb m && forallb (fun '(k, t) => ClarityName_valid k && TypeSignature_wf t) m
      && is_ok (TupleTypeSignature_try_from_map m)
  | OptionalType t => TypeSignature_wf t && is_ok (new_option t)
  | ResponseType t s => TypeSignature_wf t && TypeSignature_wf s && is_ok (new_response t s)
  end.

Ltac unfold_sizes := unfold MAX_VALUE_SIZE, MAX_TYPE_DEPTH, WRAPPER_VALUE_SIZE in *.

Lemma add32_Ok (x y z : Z) : add32 x y = Ok z <-> z = x + y /\ 0 <= x + y <= u32_max.
Proof. unfold add32. rewrite ok_or_Ok. apply checked_add_Some. Qed.

Lemma mul32_Ok (x y z : Z) : mul32 x y = Ok z <-> z = x * y /\ 0 <= x * y <= u32_max.
Proof. unfold mul32. rewrite ok_or_Ok. apply checked_mul_Some. Qed.

Lemma at_most_max_Ok (x z : Z) : at_most_max x = Ok z <-> z = x /\ x <= MAX_VALUE_SIZE.
Proof.
  unfold at_most_max. destruct (Z.ltb_spec MAX_VALUE_SIZE x); naive_solver lia.
Qed.

Lemma add32_no_panic (x y : Z) : add32 x y <> Panic.
Proof. unfold add32. by destruct (checked_add _ _ _). Qed.
Lemma mul32_no_panic (x y : Z) : mul32 x y <> Panic.
Proof. unfold mul32. by destruct (checked_mul _ _ _). Qed.
Lemma to_u32_no_panic (x : Z) : to_u32 x <> Panic.
Proof. unfold to_u32. by destruct (checked _ _). Qed.
Lemma at_most_max_no_panic (x : Z) : at_most_max x <> Panic.
Proof. unfold at_most_max. by case_match. Qed.

#[export] Hint Resolve add32_no_panic mul32_no_panic to_u32_no_panic at_most_max_no_panic : stacks.

Lemma inner_type_size_no_panic (t : TypeSignature) : inner_type_size t <> Panic.
Proof.
  induction t as [| | | |n|n t IH|s| |m IH|t IH|t s IHt IHs|t] using TypeSignature_ind';
    cbn [inner_type_size]; try done; auto 6 with stacks.
  - unfold ListTypeData_type_size. auto 6 with stacks.
  - unfold TupleTypeSignature_type_size. cbn [type_map].
    repeat (apply out_bind_no_panic; [auto with stacks|intros]); [|auto with stacks].
    apply try_fold_no_panic. eapply List.Forall_impl; [|exact IH].
    intros [k t] Ht acc. simpl in Ht. auto 6 with stacks.
Qed.

Lemma ListTypeData_type_size_no_panic (l : ListTypeData) :
  ListTypeData_type_size inner_type_size l <> Panic.
Proof. exact (inner_type_size_no_panic (SequenceType (ListType l))). Qed.
Lemma TupleTypeSignature_type_size_no_panic (s : TupleTypeSignature) :
  TupleTypeSignature_type_size inner_type_size s <> Panic.
Proof. exact (inner_type_size_no_panic (TupleType s)). Qed.

#[export] Hint Resolve inner_type_size_no_panic ListTypeData_type_size_no_panic
  TupleTypeSignature_type_size_no_panic : stacks.

(** Sizes are sums that passed the closing check. *)
Lemma ListTypeData_inner_size_range (size : TypeSignature -> outcome unit Z) (l : ListTypeData) (n : Z) :
  ListTypeData_inner_size size l = Ok n -> 0 <= n <= MAX_VALUE_SIZE.
Proof.
  unfold ListTypeData_inner_size. intros H. out_inv.
  repeat match goal with
  | H : add32 _ _ = Ok _ |- _ => apply add32_Ok in H
  | H : at_most_max _ = Ok _ |- _ => apply at_most_max_Ok in H
  end. naive_solver lia.
Qed.

Lemma TupleTypeSignature_inner_size_range (size : TypeSignature -> outcome unit Z)
    (s : TupleTypeSignature) (n : Z) :
  TupleTypeSignature_inner_size size s = Ok n -> 0 <= n <= MAX_VALUE_SIZE.
Proof.
  unfold TupleTypeSignature_inner_size. intros H. out_inv.
  rewrite add32_Ok, at_most_max_Ok in *. destruct H as [-> Hle]. split; [|done].
  match goal with H : try_fold _ _ _ = Ok _ |- _ => revert H end.
  apply (try_fold_inv _ (fun r => 0 <= r)); [|naive_solver lia].
  intros b [k t] b' Hb H. out_inv. rewrite add32_Ok in *. naive_solver lia.
Qed.

Lemma new_list_Ok (t : TypeSignature) (n : Z) (l : ListTypeData) :
  new_list t n = Ok l ->
  l = mkListType n t /\ as_u8 (1 + TypeSignature_depth t) <= MAX_TYPE_DEPTH /\
  exists s, ListTypeData_inner_size TypeSignature_size l = Ok s.
Proof. unfold new_list. intros H. out_inv. bool_to_prop. eauto. Qed.

Lemma new_option_Ok (t r : TypeSignature) :
  new_option t = Ok r ->
  r = OptionalType t /\ as_u8 (1 + TypeSignature_depth t) <= MAX_TYPE_DEPTH /\
  exists s, inner_size t = Ok s /\ as_u32 (WRAPPER_VALUE_SIZE + s) <= MAX_VALUE_SIZE.
Proof. unfold new_option, TypeSignature_size. intros H. out_inv. bool_to_prop. split_and!; eauto 10. Qed.

Lemma new_response_Ok (t s r : TypeSignature) :
  new_response t s = Ok r ->
  r = ResponseType t s /\
  as_u8 (1 + Z.max (TypeSignature_depth t) (TypeSignature_depth s)) <= MAX_TYPE_DEPTH /\
  exists n m, inner_size t = Ok n /\ inner_size s = Ok m /\
    as_u32 (WRAPPER_VALUE_SIZE + Z.max n m) <= MAX_VALUE_SIZE.
Proof. unfold new_response, TypeSignature_size. intros H. out_inv. bool_to_prop. split_and!; eauto 10. Qed.

Lemma try_from_map_Ok (m : BTreeMap TypeSignature) (r : TupleTypeSignature) :
  TupleTypeSignature_try_from_map m = Ok r ->
  r = mkTupleType m /\ m <> [] /\
  Forall (fun e => as_u8 (1 + TypeSignature_depth (snd e)) <= MAX_TYPE_DEPTH) m /\
  exists s, TupleTypeSignature_inner_size TypeSignature_size r = Ok s.
Proof.
  unfold TupleTypeSignature_try_from_map. intros H.
  destruct (Nat.eqb_spec (length m) 0) as [|Hm]; [done|].
  destruct (existsb _ m) eqn:He; [done|]. out_inv.
  split_and!; [done|by intros ->| |eauto].
  apply List.Forall_forall. intros [k t] Hin. simpl.
  destruct (Z.le_gt_cases (as_u8 (1 + TypeSignature_depth t)) MAX_TYPE_DEPTH); [done|].
  apply not_true_iff_false in He. destruct He. apply existsb_exists. exists (k, t).
  split; [done|]. by apply Z.ltb_lt.
Qed.

(** The depth a constructor accepted is the mathematical depth: no wrap-around. *)
Lemma depth_step (d : Z) :
  1 <= d <= MAX_TYPE_DEPTH -> as_u8 (1 + d) = 1 + d.
Proof. unfold as_u8. unfold_sizes. intros. apply Z.mod_small. lia. Qed.

Lemma max_depth_bound (m : BTreeMap TypeSignature) (lo hi : Z) :
  0 <= lo <= hi -> Forall (fun e => 0 <= TypeSignature_depth (snd e) <= hi) m ->
  lo <= fold_left (fun max '(_, t) => Z.max max (TypeSignature_depth t)) m lo <= hi.
Proof.
  intros Hlo Hm. revert lo Hlo. induction Hm as [|[k t] m Ht _ IH]; intros lo Hlo; simpl in *; [lia|].
  specialize (IH (Z.max lo (TypeSignature_depth t))). lia.
Qed.

Lemma wf_list (n : Z) (t : TypeSignature) :
  TypeSignature_wf (SequenceType (ListType (mkListType n t))) = true <->
  0 <= n <= u32_max /\ TypeSignature_wf t = true /\ exists l, new_list t n = Ok l.
Proof. cbn. rewrite !andb_true_iff, in_ty_spec, is_ok_true. tauto. Qed.

Lemma wf_tuple (m : BTreeMap TypeSignature) :
  TypeSignature_wf (TupleType (mkTupleType m)) = true <->
  bt_sortedb m = true /\
  Forall (fun e => ClarityName_valid (fst e) = true /\ TypeSignature_wf (snd e) = true) m /\
  exists s, TupleTypeSignature_try_from_map m = Ok s.
Proof.
  cbn. rewrite !andb_true_iff, is_ok_true, forallb_forall, List.Forall_forall.
  assert (forall e, (let '(k, t) := e in ClarityName_valid k && TypeSignature_wf t) = true <->
    ClarityName_valid (fst e) = true /\ TypeSignature_wf (snd e) = true) as He.
  { intros [k t]. apply andb_true_iff. }
  setoid_rewrite He. tauto.
Qed.

Lemma wf_option (t : TypeSignature) :
  TypeSignature_wf (OptionalType t) = true <->
  TypeSignature_wf t = true /\ exists r, new_option t = Ok r.
Proof. cbn. rewrite andb_true_iff, is_ok_true. tauto. Qed.

Lemma wf_response (t s : TypeSignature) :
  TypeSignature_wf (ResponseType t s) = true <->
  TypeSignature_wf t = true /\ TypeSignature_wf s = true /\ exists r, new_response t s = Ok r.
Proof. cbn. rewrite !andb_true_iff, is_ok_true. tauto. Qed.

Lemma wf_depth (t : TypeSignature) :
  TypeSignature_wf t = true -> 1 <= TypeSignature_depth t <= MAX_TYPE_DEPTH.
Proof.
  induction t as [| | | |n|n t IH|[n|n]| |m IH|t IH|t s IHt IHs|t] using TypeSignature_ind';
    try (cbn [TypeSignature_depth]; unfold_sizes; lia).
  - rewrite wf_list. intros (_ & Ht & l & (-> & Hd & _)%new_list_Ok). specialize (IH Ht).
    cbn [TypeSignature_depth entry_type]. rewrite depth_step in * by done. lia.
  - rewrite wf_tuple. intros (_ & Hm & s & (_ & _ & Hd & _)%try_from_map_Ok).
    cbn [TypeSignature_depth]. unfold TupleTypeSignature_max_depth. cbn [type_map].
    assert (Forall (fun e => 0 <= TypeSignature_depth (snd e) <= MAX_TYPE_DEPTH - 1) m) as Hm'.
    { rewrite List.Forall_forall in *. intros e Hin. specialize (Hd e Hin).
      specialize (IH e Hin (proj2 (Hm e Hin))). rewrite depth_step in Hd; lia. }
    apply (max_depth_bound m 0) in Hm'; [|unfold_sizes; lia].
    unfold as_u8. rewrite Z.mod_small; unfold_sizes; lia.
  - rewrite wf_option. intros (Ht & r & (_ & Hd & _)%new_option_Ok). specialize (IH Ht).
    cbn [TypeSignature_depth]. rewrite depth_step in * by done. lia.
  - rewrite wf_response. intros (Ht & Hs & r & (_ & Hd & _)%new_response_Ok).
    specialize (IHt Ht). specialize (IHs Hs).
    cbn [TypeSignature_depth]. rewrite depth_step in * by lia. lia.
Qed.

Lemma wf_size (t : TypeSignature) :
  TypeSignature_wf t = true ->
  exists n, inner_size t = Ok n /\ 0 <= n <= MAX_VALUE_SIZE + 4.
Proof.
  induction t as [| | | |n|n t IH|[n|n]| |m IH|t IH|t s IHt IHs|t] using TypeSignature_ind';
    try (cbn [TypeSignature_wf inner_size]; intros Hwf; eexists; split; [done|];
         unfold as_u32; unfold_sizes; div_lia).
  - rewrite wf_list. intros (_ & _ & l & (-> & _ & s & Hs)%new_list_Ok).
    exists s. split; [done|]. apply ListTypeData_inner_size_range in Hs. lia.
  - rewrite wf_tuple. intros (_ & _ & r & (-> & _ & _ & s & Hs)%try_from_map_Ok).
    exists s. split; [done|]. apply TupleTypeSignature_inner_size_range in Hs. lia.
  - rewrite wf_option. intros (Ht & r & (_ & _ & s & Hs & Hmax)%new_option_Ok).
    cbn [inner_size]. rewrite Hs. cbn [expect out_bind].
    destruct (IH Ht) as (s' & Hs' & Hr). rewrite Hs in Hs'. injection Hs' as <-. revert Hmax. unfold as_u32.
    rewrite Z.mod_small by (unfold_sizes; lia). intros.
    exists (s + WRAPPER_VALUE_SIZE). rewrite add32_Ok. unfold_bounds. unfold_sizes. lia.
  - rewrite wf_response.
    intros (Ht & Hs & r & (_ & _ & n & k & Hn & Hk & Hmax)%new_response_Ok).
    cbn [inner_size]. rewrite Hn, Hk. cbn [expect out_bind].
    destruct (IHt Ht) as (n' & Hn' & Hrn). destruct (IHs Hs) as (k' & Hk' & Hrk).
    rewrite Hn in Hn'. rewrite Hk in Hk'. injection Hn' as <-. injection Hk' as <-.
    revert Hmax. unfold as_u32. rewrite Z.mod_small by (unfold_sizes; lia). intros.
    exists (Z.max n k + WRAPPER_VALUE_SIZE). rewrite add32_Ok. unfold_bounds. unfold_sizes. lia.
Qed.

Lemma wf_size_no_panic {E : Type} (t : TypeSignature) :
  TypeSignature_wf t = true -> TypeSignature_size (E:=E) t <> Panic.
Proof. intros (n & Hn & _)%wf_size. unfold TypeSignature_size. by rewrite Hn. Qed.

#[export] Hint Resolve wf_size_no_panic : stacks.

Lemma new_list_no_panic (t : TypeSignature) (n : Z) :
  TypeSignature_wf t = true -> new_list t n <> Panic.
Proof.
  intros Ht. unfold new_list, ListTypeData_inner_size. case_match; [done|].
  apply out_bind_no_panic; [|intros; by case_match]. cbn [entry_type max_len]. auto 10 with stacks.
Qed.

Lemma try_from_map_no_panic (m : BTreeMap TypeSignature) :
  Forall (fun e => TypeSignature_wf (snd e) = true) m -> TupleTypeSignature_try_from_map m <> Panic.
Proof.
  intros Hm. unfold TupleTypeSignature_try_from_map, TupleTypeSignature_inner_size.
  do 2 (case_match; [done|]). apply out_bind_no_panic; [|intros; by case_match].
  apply map_err_no_panic.
  repeat (apply out_bind_no_panic; [auto with stacks|intros]); [|auto with stacks].
  apply try_fold_no_panic. eapply List.Forall_impl; [|exact Hm].
  intros [k t] Ht acc. simpl in Ht. auto 10 with stacks.
Qed.

Lemma new_option_no_panic (t : TypeSignature) :
  TypeSignature_wf t = true -> new_option t <> Panic.
Proof.
  intros Ht. unfold new_option. apply out_bind_no_panic; [auto with stacks|]. intros.
  by repeat case_match.
Qed.

Lemma new_response_no_panic (t s : TypeSignature) :
  TypeSignature_wf t = true -> TypeSignature_wf s = true -> new_response t s <> Panic.
Proof.
  intros Ht Hs. unfold new_response.
  repeat (apply out_bind_no_panic; [auto with stacks|intros]). by repeat case_match.
Qed.

Lemma new_list_wf (t : TypeSignature) (n : Z) (l : ListTypeData) :
  TypeSignature_wf t = true -> 0 <= n <= u32_max -> new_list t n = Ok l ->
  TypeSignature_wf (SequenceType (ListType l)) = true.
Proof.
  intros Ht Hn Hl. pose proof (new_list_Ok _ _ _ Hl) as (-> & _). apply wf_list. eauto.
Qed.

Lemma new_option_wf (t r : TypeSignature) :
  TypeSignature_wf t = true -> new_option t = Ok r -> TypeSignature_wf r = true.
Proof. intros Ht Hr. pose proof (new_option_Ok _ _ Hr) as (-> & _). apply wf_option. eauto. Qed.

Lemma new_response_wf (t s r : TypeSignature) :
  TypeSignature_wf t = true -> TypeSignature_wf s = true -> new_response t s = Ok r ->
  TypeSignature_wf r = true.
Proof.
  intros Ht Hs Hr. pose proof (new_response_Ok _ _ _ Hr) as (-> & _). apply wf_response. eauto.
Qed.

Lemma try_from_fields_sorted (data : list (string * TypeSignature)) (m m' : BTreeMap TypeSignature)
    (P : string * TypeSignature -> Prop) :
  bt_sorted m -> Forall P m -> Forall P data ->
  try_fold (fun m '(name, type_info) =>
    if bt_contains_key name m then Err (CheckErr.NameAlreadyUsed name)
    else Ok (bt_insert name type_info m)) m data = Ok m' ->
  bt_sorted m' /\ Forall P m'.
Proof.
  intros Hm HP Hdata. revert m Hm HP. induction Hdata as [|[k t] data Hk _ IH]; intros m Hm HP H.
  - simpl in H. by simplify_eq.
  - simpl in H. destruct (bt_contains_key k m); [done|]. simpl in H.
    eapply IH; [..|exact H]; [by apply bt_insert_sorted | by apply bt_insert_Forall].
Qed.

(** The comment on [TypeSignature] (signatures.rs, "INVARIANTS enforced by the
    Type Signatures"): a constructor fails rather than build an invalid type. *)
Definition field_ok (e : string * TypeSignature) : Prop :=
  ClarityName_valid (fst e) = true /\ TypeSignature_wf (snd e) = true.

Lemma try_from_map_wf (m : BTreeMap TypeSignature) (s : TupleTypeSignature) :
  bt_sorted m -> Forall field_ok m -> TupleTypeSignature_try_from_map m = Ok s ->
  TypeSignature_wf (TupleType s) = true.
Proof.
  intros Hm Hf Hs. pose proof (try_from_map_Ok _ _ Hs) as (-> & _). apply wf_tuple.
  rewrite bt_sortedb_iff. eauto.
Qed.

Lemma try_from_wf (data : list (string * TypeSignature)) :
  Forall field_ok data ->
  safely (TupleTypeSignature_try_from data) (fun s => TypeSignature_wf (TupleType s) = true).
Proof.
  intros Hdata. unfold TupleTypeSignature_try_from. case_match; [done|].
  apply safely_intro.
  - apply out_bind_no_panic.
    + apply try_fold_no_panic. apply List.Forall_forall. intros [k t] _ acc. by case_match.
    + intros m Hm. destruct (try_from_fields_sorted data [] m field_ok) as [_ Hf]; auto with stacks.
      apply try_from_map_no_panic. eapply List.Forall_impl; [|exact Hf]. by intros e [].
  - intros s Hs. apply out_bind_Ok in Hs as (m & Hm & Hs).
    destruct (try_from_fields_sorted data [] m field_ok) as [Hsort Hf]; auto with stacks.
    by eapply try_from_map_wf.
Qed.

(** The guarded constructors keep types well-formed: called on well-formed
    parts they never panic, and what they return is well-formed; and on a
    well-formed type [size] does not panic and [depth] does not wrap: the depth
    is between 1 and 32, the size at most [MAX_VALUE_SIZE + 4] (a buffer of the
    maximal length is 4 over the limit). *)
Lemma type_constructors_wf :
  (forall t n, TypeSignature_wf t = true -> 0 <= n <= u32_max ->
     safely (new_list t n) (fun l => TypeSignature_wf (SequenceType (ListType l)) = true)) /\
  (forall t, TypeSignature_wf t = true ->
     safely (new_option t) (fun r => TypeSignature_wf r = true)) /\
  (forall t s, TypeSignature_wf t = true -> TypeSignature_wf s = true ->
     safely (new_response t s) (fun r => TypeSignature_wf r = true)) /\
  (forall data, Forall field_ok data ->
     safely (TupleTypeSignature_try_from data) (fun s => TypeSignature_wf (TupleType s) = true)) /\
  (forall t, TypeSignature_wf t = true ->
     1 <= TypeSignature_depth t <= MAX_TYPE_DEPTH /\
     exists n, TypeSignature_size (E:=CheckErrors) t = Ok n /\ 0 <= n <= MAX_VALUE_SIZE + 4).
Proof.
  split_and!; intros.
  - apply safely_intro; [by apply new_list_no_panic | intros; by eapply new_list_wf].
  - apply safely_intro; [by apply new_option_no_panic | intros; by eapply new_option_wf].
  - apply safely_intro; [by apply new_response_no_panic | intros; by apply (new_response_wf t s)].
  - by apply try_from_wf.
  - split; [by apply wf_depth|]. destruct (wf_size t) as (n & Hn & Hr); [done|].
    exists n. unfold TypeSignature_size. by rewrite Hn.
Qed.
