(* ===== verification/Admission.v ===== *)
(** Admission: what [admits_type] and [least_supertype] of
    clarity/src/vm/types/signatures.rs guarantee: admission is a preorder on
    the types of values, the least supertype admits its arguments and is
    admitted by every other common supertype. *)
From Stdlib Require Import ZArith Lia Strings.Byte Strings.String List Bool.
From stdpp Require Import base decidable list strings option.
From S2P Require Import Prelude Bytes Codec Representations BTree Types Signatures.
Open Scope Z_scope.

(** Types of values: [NoType] stands only for the absent side of an optional
    or of a response, and for the entries of an empty list. *)
Fixpoint value_type (t : TypeSignature) : bool :=
  match t with
  | NoType => false
  | SequenceType (ListType (mkListType n t)) => (n =? 0) || (0 <? n) && value_type t
  | TupleType (mkTupleType m) => bt_sortedb m && forallb (fun '(_, t) => value_type t) m
  | OptionalType t => is_no_type t || value_type t
  | ResponseType t s =>
      if is_no_type t then value_type s
      else if is_no_type s then value_type t
      else value_type t && value_type s
  | _ => true
  end.

(** Corresponding tuples in [a] and [b] have equally many fields. *)
Fixpoint same_fields (a b : TypeSignature) : bool :=
  match a, b with
  | TupleType (mkTupleType types_a), TupleType (mkTupleType types_b) =>
      Nat.eqb (length types_a) (length types_b)
      && forallb (fun '(name, entry_a) =>
           match bt_get name types_b with
           | Some entry_b => same_fields entry_a entry_b
           | None => false
           end) types_a
  | SequenceType (ListType (mkListType len_a entry_a)), SequenceType (ListType (mkListType len_b entry_b)) =>
      (len_a =? 0) || (len_b =? 0) || same_fields entry_a entry_b
  | OptionalType t, OptionalType s => is_no_type t || is_no_type s || same_fields t s
  | ResponseType t s, ResponseType t' s' =>
      (is_no_type t || is_no_type t' || same_fields t t')
      && (is_no_type s || is_no_type s' || same_fields s s')
  | _, _ => true
  end.

Lemma is_no_type_true (t : TypeSignature) : is_no_type t = true <-> t = NoType.
Proof. apply bool_decide_eq_true. Qed.

Lemma is_no_type_false (t : TypeSignature) : is_no_type t = false <-> t <> NoType.
Proof. apply bool_decide_eq_false. Qed.

Lemma value_type_not_no_type (t : TypeSignature) : value_type t = true -> is_no_type t = false.
Proof. intros H. apply is_no_type_false. by intros ->. Qed.

Lemma out_forallb_true {E A : Type} (f : A -> outcome E bool) (l : list A) :
  out_forallb f l = Ok true <-> Forall (fun x => f x = Ok true) l.
Proof.
  induction l as [|x l IH]; simpl; [by split; [constructor|]|].
  rewrite List.Forall_cons_iff, <-IH. destruct (f x) as [[]| |]; simpl; naive_solver.
Qed.

(** The components of the type of a value. *)
Lemma value_type_list (n : Z) (t : TypeSignature) :
  value_type (SequenceType (ListType (mkListType n t))) = true <-> n = 0 \/ 0 < n /\ value_type t = true.
Proof. cbn. rewrite orb_true_iff, andb_true_iff, Z.eqb_eq, Z.ltb_lt. done. Qed.

Lemma value_type_tuple (m : BTreeMap TypeSignature) :
  value_type (TupleType (mkTupleType m)) = true <->
  bt_sorted m /\ Forall (fun e => value_type (snd e) = true) m.
Proof.
  cbn. rewrite andb_true_iff, bt_sortedb_iff, forallb_forall, List.Forall_forall.
  assert (forall e : string * TypeSignature,
    (let '(_, t) := e in value_type t) = value_type (snd e)) as He by by intros [].
  setoid_rewrite He. done.
Qed.

Lemma value_type_option (t : TypeSignature) :
  value_type (OptionalType t) = true <-> t = NoType \/ value_type t = true.
Proof. cbn. by rewrite orb_true_iff, is_no_type_true. Qed.

Lemma value_type_response (t s : TypeSignature) :
  value_type (ResponseType t s) = true <->
  t = NoType /\ value_type s = true \/ s = NoType /\ value_type t = true \/
  value_type t = true /\ value_type s = true.
Proof.
  cbn. destruct (is_no_type t) eqn:Ht.
  - apply is_no_type_true in Ht as ->. naive_solver.
  - apply is_no_type_false in Ht. destruct (is_no_type s) eqn:Hs.
    + apply is_no_type_true in Hs as ->. naive_solver.
    + apply is_no_type_false in Hs. rewrite andb_true_iff. naive_solver.
Qed.

Lemma value_type_present (t s : TypeSignature) :
  value_type (ResponseType t s) = true -> t <> NoType \/ s <> NoType.
Proof.
  intros Hv. destruct (decide (t = NoType)) as [->|]; [|auto]. right. by intros ->.
Qed.

Lemma value_type_response_intro (t s : TypeSignature) :
  (t <> NoType -> value_type t = true) -> (s <> NoType -> value_type s = true) ->
  t <> NoType \/ s <> NoType -> value_type (ResponseType t s) = true.
Proof.
  rewrite value_type_response. destruct (decide (t = NoType)), (decide (s = NoType)); tauto.
Qed.

Section admission.
Context {E : Type}.

(** [admits a b]: the test returns [true]. *)
Definition admits_true (a b : TypeSignature) : Prop := admits_type (E:=E) a b = Ok true.

Lemma tuple_admits_true (m1 m2 : BTreeMap TypeSignature) :
  admits_true (TupleType (mkTupleType m1)) (TupleType (mkTupleType m2)) <->
  length m1 = length m2 /\
  Forall (fun e => exists t, bt_get (fst e) m2 = Some t /\ admits_true (snd e) t) m1.
Proof.
  unfold admits_true. cbn [admits_type]. unfold TupleTypeSignature_admits. cbn [type_map].
  destruct (Nat.eqb_spec (length m1) (length m2)) as [Hlen|Hlen]; cbn [negb]; [|naive_solver].
  rewrite out_forallb_true.
  assert (forall l : list (string * TypeSignature),
    Forall (fun x => (let '(name, my_type_sig) := x in
      match bt_get name m2 with
      | Some other => admits_type (E:=E) my_type_sig other
      | None => Ok false end) = Ok true) l <->
    Forall (fun e => exists t, bt_get (fst e) m2 = Some t /\ admits_type (E:=E) (snd e) t = Ok true) l) as Hl.
  { intros l. apply Forall_proper; [|done]. intros [k t]. simpl.
    destruct (bt_get k m2); naive_solver. }
  rewrite Hl. naive_solver.
Qed.

Lemma option_admits_true (t s : TypeSignature) :
  admits_true (OptionalType t) (OptionalType s) <-> s = NoType \/ s <> NoType /\ admits_true t s.
Proof.
  unfold admits_true. cbn [admits_type]. destruct (is_no_type s) eqn:Hs.
  - apply is_no_type_true in Hs. naive_solver.
  - apply is_no_type_false in Hs. naive_solver.
Qed.

Lemma response_admits_true (t s t' s' : TypeSignature) :
  admits_true (ResponseType t s) (ResponseType t' s') <->
  t' = NoType /\ admits_true s s' \/
  t' <> NoType /\ s' = NoType /\ admits_true t t' \/
  t' <> NoType /\ s' <> NoType /\ admits_true t t' /\ admits_true s s'.
Proof.
  unfold admits_true. cbn [admits_type].
  destruct (is_no_type t') eqn:Ht; [apply is_no_type_true in Ht; naive_solver|].
  apply is_no_type_false in Ht. destruct (is_no_type s') eqn:Hs.
  - apply is_no_type_true in Hs. naive_solver.
  - apply is_no_type_false in Hs.
    destruct (admits_type (E:=E) s s') as [[]| |]; simpl; naive_solver.
Qed.

(** Enough for a response: each present side admits, and some side is present. *)
Lemma response_admits_intro (t s t' s' : TypeSignature) :
  (t' <> NoType -> admits_true t t') -> (s' <> NoType -> admits_true s s') ->
  (t' <> NoType \/ s' <> NoType) -> admits_true (ResponseType t s) (ResponseType t' s').
Proof.
  intros Ht Hs Hne. apply response_admits_true.
  destruct (decide (t' = NoType)); [left; tauto|]. destruct (decide (s' = NoType)); tauto.
Qed.

Lemma response_admits_elim (t s t' s' : TypeSignature) :
  admits_true (ResponseType t s) (ResponseType t' s') ->
  (t' <> NoType -> admits_true t t') /\ (s' <> NoType -> admits_true s s').
Proof. rewrite response_admits_true. tauto. Qed.

Lemma list_admits_true (n n' : Z) (t t' : TypeSignature) :
  admits_true (SequenceType (ListType (mkListType n t))) (SequenceType (ListType (mkListType n' t'))) <->
  n' = 0 \/ n' <> 0 /\ n' <= n /\ admits_true t t'.
Proof.
  unfold admits_true. cbn [admits_type max_len entry_type].
  destruct (Z.eqb_spec n' 0); [naive_solver|].
  destruct (Z.leb_spec n' n); naive_solver lia.
Qed.

Lemma not_admits_NoType (t : TypeSignature) : ~ admits_true t NoType.
Proof. unfold admits_true. by destruct t as [| | | |[|[]|[]]| |[]| | |]. Qed.

(** Admission is reflexive on the types of values... *)
Lemma admits_type_refl (t : TypeSignature) : value_type t = true -> admits_true t t.
Proof.
  induction t as [| | | |n|n t IH|[n|n]| |m IH|t IH|t s IHt IHs|t] using TypeSignature_ind';
    try done;
    try (unfold admits_true; cbn [admits_type]; intros _; f_equal;
         first [by apply bool_decide_eq_true | apply Z.leb_refl]).
  - rewrite value_type_list, list_admits_true. naive_solver lia.
  - rewrite value_type_tuple, tuple_admits_true. intros [Hs Hm]. split; [done|].
    rewrite List.Forall_forall in *. intros [k t] Hin. exists t.
    split; [by apply In_bt_get | by apply (IH (k, t)), (Hm (k, t))].
  - rewrite value_type_option, option_admits_true. intros [->|Hv]; [auto|].
    right. split; [by intros -> | auto].
  - rewrite value_type_response, response_admits_true.
    intros [[-> Hv]|[[-> Hv]|[Ht Hs]]]; [auto| |].
    + right; left. split_and!; [by intros -> | done | auto].
    + right; right. split_and!; [by intros -> | by intros -> | auto | auto].
Qed.

Ltac trans_length :=
  match goal with
  | Hab : admits_true _ ?b, Hbc : admits_true ?b ?c |- _ =>
      destruct b as [| | | |[?|[? ?]|[?|?]]| |[?]| | |]; try done;
      destruct c as [| | | |[?|[? ?]|[?|?]]| |[?]| | |]; try done;
      unfold admits_true in Hab, Hbc |- *; cbn [admits_type] in Hab, Hbc |- *;
      injection Hab as Hab; injection Hbc as Hbc; f_equal; lia
  end.

(** ... and transitive. *)
Lemma admits_trans (a b c : TypeSignature) :
  value_type c = true -> admits_true a b -> admits_true b c -> admits_true a c.
Proof.
  revert b c.
  induction a as [| | | |n|n t IH|[n|n]| |m IH|t IH|t s IHt IHs|t] using TypeSignature_ind';
    intros b c Hc Hab Hbc; try done; try trans_length;
    try (unfold admits_true in Hab; cbn [admits_type] in Hab; injection Hab as Hab;
         apply bool_decide_eq_true in Hab; by subst).
  - destruct b as [| | | |[|[n1 t1]|]| | | | |]; try done.
    destruct c as [| | | |[|[n2 t2]|]| | | | |]; try done.
    rewrite value_type_list in Hc. rewrite list_admits_true in *. naive_solver lia.
  - destruct b as [| | | | | |[m1]| | |]; try done. destruct c as [| | | | | |[m2]| | |]; try done.
    rewrite value_type_tuple in Hc. rewrite tuple_admits_true in *.
    destruct Hab as [Hl1 H1], Hbc as [Hl2 H2], Hc as [_ Hc]. split; [congruence|].
    rewrite List.Forall_forall in *. intros [k t] Hin.
    destruct (H1 _ Hin) as (t1 & Hg1%bt_get_In & Ha1).
    destruct (H2 _ Hg1) as (t2 & Hg2 & Ha2). exists t2. split; [done|].
    eapply (IH (k, t)); [done | | done | done]. by apply (Hc (k, t2)), bt_get_In.
  - destruct b as [| | | | | | |b| |]; try done. destruct c as [| | | | | | |c| |]; try done.
    rewrite value_type_option in Hc. rewrite option_admits_true in *.
    destruct Hbc as [|[Hc' Hbc]]; [auto|]. right.
    destruct Hab as [->|[_ Hab]]; [done|]. naive_solver.
  - destruct b as [| | | | | | | |bt bs|]; try done. destruct c as [| | | | | | | |ct cs|]; try done.
    rewrite value_type_response in Hc. rewrite response_admits_true in *.
    pose proof (not_admits_NoType ct). pose proof (not_admits_NoType cs).
    destruct Hbc as [[-> Hbc]|[(Hct & -> & Hbc)|(Hct & Hcs & Hbt & Hbs)]];
      destruct Hab as [[-> Hab]|[(? & -> & Hab)|(? & ? & ? & ?)]]; try done; naive_solver.
Qed.
End admission.

(** * Least supertypes *)
Lemma list_of_Ok (t r : TypeSignature) (n : Z) :
  list_of t n = Ok r -> r = SequenceType (ListType (mkListType n t)).
Proof.
  unfold list_of. intros H. out_inv.
  match goal with H : new_list _ _ = Ok _ |- _ => by apply new_list_Ok in H as [-> _] end.
Qed.

(** The tuple built by [least_supertype], field by field. *)
Lemma least_supertype_tuple (ma mb : BTreeMap TypeSignature) (t : TypeSignature) :
  bt_sorted ma ->
  least_supertype (TupleType (mkTupleType ma)) (TupleType (mkTupleType mb)) = Ok t ->
  exists m s, t = TupleType (mkTupleType m) /\ TupleTypeSignature_try_from_map m = Ok s /\
    Forall2 (fun x y => fst x = fst y /\ exists tb, bt_get (fst x) mb = Some tb /\
                        least_supertype (snd x) tb = Ok (snd y)) ma m.
Proof.
  intros Hs H. cbn [least_supertype] in H. out_inv.
  match goal with H : TupleTypeSignature_try_from_map _ = Ok _ |- _ =>
    pose proof (try_from_map_Ok _ _ H) as (-> & _) end.
  do 2 eexists. split_and!; [done..|].
  eapply Forall2_impl; [|eapply (try_fold_insert _ (fun k ta =>
      let? tb := ok_or (CheckErr.TypeError (TupleType (mkTupleType ma)) (TupleType (mkTupleType mb)))
                   (bt_get k mb) in least_supertype ta tb)); [|done|eassumption]].
  - intros x y [Hk Hxy]. out_inv. eauto.
  - intros acc k ta. simpl. by destruct (bt_get k mb).
Qed.

Lemma factor_out_cases (ls : TypeSignature -> TypeSignature -> outcome CheckErrors TypeSignature)
    (a b t : TypeSignature) :
  factor_out_no_type_with ls a b = Ok t ->
  a = NoType /\ t = b \/ b = NoType /\ t = a \/ a <> NoType /\ b <> NoType /\ ls a b = Ok t.
Proof.
  unfold factor_out_no_type_with. destruct (is_no_type a) eqn:Ha.
  - apply is_no_type_true in Ha. naive_solver.
  - apply is_no_type_false in Ha. destruct (is_no_type b) eqn:Hb.
    + apply is_no_type_true in Hb. naive_solver.
    + apply is_no_type_false in Hb. naive_solver.
Qed.

Lemma Forall2_In_r {A B : Type} (R : A -> B -> Prop) (l : list A) (l' : list B) (y : B) :
  Forall2 R l l' -> In y l' -> exists x, In x l /\ R x y.
Proof. induction 1 as [|x' y' l l' Hxy _ IH]; simpl; naive_solver. Qed.

Lemma Forall2_In_l {A B : Type} (R : A -> B -> Prop) (l : list A) (l' : list B) (x : A) :
  Forall2 R l l' -> In x l -> exists y, In y l' /\ R x y.
Proof. induction 1 as [|x' y' l l' Hxy _ IH]; simpl; naive_solver. Qed.

Lemma Forall2_keys {A B : Type} (R : string * A -> string * B -> Prop) (m : BTreeMap A) (m' : BTreeMap B) :
  Forall2 R m m' -> (forall x y, R x y -> fst x = fst y) -> map fst m' = map fst m.
Proof.
  intros H HR. induction H as [|x y m m' Hxy _ IH]; [done|]. simpl. rewrite IH. by rewrite (HR x y).
Qed.

Section least_supertype.
Context {E : Type}.
Notation admits := (admits_true (E:=E)).

(** The supertype of two types of values is the type of a value, it admits the
    first, and the second when tuples have the same fields. *)
Definition is_upper_bound (a b t : TypeSignature) : Prop :=
  value_type t = true /\ admits t a /\ (same_fields a b = true -> admits t b).

Lemma upper_bound_factor (a b t : TypeSignature) :
  (value_type a = true -> value_type b = true -> least_supertype a b = Ok t -> is_upper_bound a b t) ->
  a = NoType \/ value_type a = true -> b = NoType \/ value_type b = true ->
  factor_out_no_type_with least_supertype a b = Ok t ->
  (t = NoType <-> a = NoType /\ b = NoType) /\
  (t <> NoType -> value_type t = true) /\
  (a <> NoType -> admits t a) /\
  (b <> NoType -> is_no_type a || is_no_type b || same_fields a b = true -> admits t b).
Proof.
  intros IH Ha Hb Ht. unfold is_upper_bound in IH.
  pose proof (admits_type_refl (E:=E)) as Hrefl.
  destruct (factor_out_cases _ _ _ _ Ht) as [[-> ->]|[[-> ->]|(Hna & Hnb & Hls)]].
  - naive_solver.
  - destruct Ha as [->|Ha]; [naive_solver|].
    assert (a <> NoType) by (by intros ->). naive_solver.
  - destruct Ha as [|Ha], Hb as [|Hb]; try done. destruct (IH Ha Hb Hls) as (Hv & H1 & H2).
    assert (t <> NoType) by (by intros ->).
    rewrite (proj2 (is_no_type_false a)), (proj2 (is_no_type_false b)) by done. naive_solver.
Qed.

Lemma upper_bound_refl (a : TypeSignature) : value_type a = true -> is_upper_bound a a a.
Proof. intros Ha. pose proof (admits_type_refl (E:=E) a Ha). by split_and!. Qed.

(** Case analysis on the second type, where the two types differ or are equal. *)
Ltac supertype_cases b Ht :=
  destruct b as [| | | |[nb|[nb b']|[nb|nb]]| |[mb]|b'|b1 b2|tb];
  try done; try discriminate Ht; cbn [least_supertype] in Ht; try discriminate Ht;
  try (case_bool_decide; [|discriminate Ht]; simplify_eq).

Lemma upper_bound_length (a b t : TypeSignature) :
  (exists n m, (a = SequenceType (BufferType n) /\ b = SequenceType (BufferType m)) \/
               (a = SequenceType (StringType (ASCII n)) /\ b = SequenceType (StringType (ASCII m))) \/
               (a = SequenceType (StringType (UTF8 n)) /\ b = SequenceType (StringType (UTF8 m)))) ->
  least_supertype a b = Ok t -> is_upper_bound a b t.
Proof.
  intros (n & m & [[-> ->]|[[-> ->]|[-> ->]]]) [= <-];
    (split_and!; [done| |intros _]; unfold admits_true; cbn [admits_type];
      f_equal; case_match; bool_to_prop; lia).
Qed.

Lemma upper_bound_tuple (ma mb : BTreeMap TypeSignature) (t : TypeSignature) :
  Forall (fun e => forall b t, value_type (snd e) = true -> value_type b = true ->
    least_supertype (snd e) b = Ok t -> is_upper_bound (snd e) b t) ma ->
  value_type (TupleType (mkTupleType ma)) = true -> value_type (TupleType (mkTupleType mb)) = true ->
  least_supertype (TupleType (mkTupleType ma)) (TupleType (mkTupleType mb)) = Ok t ->
  is_upper_bound (TupleType (mkTupleType ma)) (TupleType (mkTupleType mb)) t.
Proof.
  rewrite !value_type_tuple. intros IH [Hsa Hva] [Hsb Hvb] Ht.
  apply least_supertype_tuple in Ht as (m & s & -> & _ & Hm); [|done].
  assert (map fst m = map fst ma) as Hkeys by (eapply Forall2_keys; naive_solver).
  assert (bt_sorted m) as Hsm by (unfold bt_sorted; by rewrite Hkeys).
  assert (Forall2 (fun x y => fst x = fst y /\ exists tb, bt_get (fst x) mb = Some tb /\
            is_upper_bound (snd x) tb (snd y)) ma m) as Hub.
  { clear Hkeys Hsm Hsa. induction Hm as [|x y ma m (Hk & tb & Hg & Hls) _ IHm]; constructor.
    - split; [done|]. exists tb. split; [done|]. rewrite List.Forall_cons_iff in IH, Hva.
      apply IH; [naive_solver | | done]. rewrite List.Forall_forall in Hvb.
      by apply (Hvb (fst x, tb)), bt_get_In.
    - rewrite List.Forall_cons_iff in IH, Hva. naive_solver. }
  clear IH Hm Hva Hvb. unfold is_upper_bound. rewrite value_type_tuple, !tuple_admits_true.
  split_and!; [done | | | |].
  - apply List.Forall_forall. intros y Hy.
    destruct (Forall2_In_r _ _ _ _ Hub Hy) as (x & _ & _ & tb & _ & Hv & _). done.
  - by rewrite <-(length_map fst m), Hkeys, length_map.
  - apply List.Forall_forall. intros y Hy.
    destruct (Forall2_In_r _ _ _ _ Hub Hy) as ([k ta] & Hx & Hk & tb & _ & _ & Ha & _).
    exists ta. split; [|done]. rewrite <-Hk. by apply In_bt_get.
  - intros Hsame. cbn [same_fields] in Hsame. apply andb_true_iff in Hsame as [Hlen Hsame].
    split. { apply Nat.eqb_eq in Hlen. by rewrite <-Hlen, <-(length_map fst m), Hkeys, length_map. }
    apply List.Forall_forall. intros y Hy.
    destruct (Forall2_In_r _ _ _ _ Hub Hy) as ([k ta] & Hx & Hk & tb & Hg & _ & _ & Hb).
    simpl in *. exists tb. rewrite <-Hk. split; [done|]. apply Hb.
    rewrite forallb_forall in Hsame. specialize (Hsame _ Hx). simpl in Hsame. by rewrite Hg in Hsame.
Qed.

Lemma least_supertype_upper (a b t : TypeSignature) :
  value_type a = true -> value_type b = true -> least_supertype a b = Ok t -> is_upper_bound a b t.
Proof.
  revert b t.
  induction a as [| | | |n|n a IH|[n|n]| |ma IH|a IH|a1 a2 IH1 IH2|a] using TypeSignature_ind';
    intros b t Ha Hb Ht; try done; supertype_cases b Ht; try by apply upper_bound_refl.
  - eapply upper_bound_length; [eauto 10|done].
  - rewrite value_type_list in Ha, Hb. apply out_bind_Ok in Ht as (r & Hr & Ht).
    apply expect_Ok, list_of_Ok in Ht as ->.
    unfold is_upper_bound. rewrite value_type_list, !list_admits_true.
    cbn [same_fields]. rewrite !orb_true_iff, !Z.eqb_eq.
    destruct (Z.eqb_spec n 0); [|destruct (Z.eqb_spec nb 0)].
    + injection Hr as <-. pose proof (admits_type_refl (E:=E) b'). naive_solver lia.
    + injection Hr as <-. pose proof (admits_type_refl (E:=E) a). naive_solver lia.
    + destruct Ha as [|[Hn Ha]], Hb as [|[Hnb Hb]]; try done.
      destruct (IH _ _ Ha Hb Hr) as (Hv & H1 & H2). naive_solver lia.
  - eapply upper_bound_length; [eauto 10|done].
  - eapply upper_bound_length; [eauto 10|done].
  - by apply upper_bound_tuple.
  - rewrite value_type_option in Ha, Hb. apply out_bind_Ok in Ht as (r & Hr & Ht).
    apply new_option_Ok in Ht as (-> & _).
    apply upper_bound_factor in Hr as (HN & Hv & H1 & H2); [|by apply IH|done|done].
    unfold is_upper_bound. rewrite value_type_option, !option_admits_true. cbn [same_fields].
    destruct (decide (a = NoType)), (decide (b' = NoType)), (decide (r = NoType)); naive_solver.
  - apply out_bind_Ok in Ht as (r1 & Hr1 & Ht). apply out_bind_Ok in Ht as (r2 & Hr2 & Ht).
    apply new_response_Ok in Ht as (-> & _).
    pose proof (proj1 (value_type_response _ _) Ha) as Ha'.
    pose proof (proj1 (value_type_response _ _) Hb) as Hb'.
    apply upper_bound_factor in Hr1 as (HN1 & Hv1 & H11 & H12); [|by apply IH1|naive_solver..].
    apply upper_bound_factor in Hr2 as (HN2 & Hv2 & H21 & H22); [|by apply IH2|naive_solver..].
    pose proof (value_type_present _ _ Ha) as Hpa. pose proof (value_type_present _ _ Hb).
    unfold is_upper_bound. split_and!.
    + apply value_type_response_intro; [done..|]. clear -HN1 HN2 Hpa. tauto.
    + by apply response_admits_intro.
    + cbn [same_fields]. rewrite andb_true_iff. intros [Hs1 Hs2]. apply response_admits_intro; auto.
Qed.

Lemma least_supertype_present (a b t : TypeSignature) :
  least_supertype a b = Ok t -> t = NoType -> a = NoType /\ b = NoType.
Proof.
  intros Ht ->. destruct a as [| | | |[na|[na a']|[na|na]]| |[ma]|a'|a1 a2|ta];
    destruct b as [| | | |[nb|[nb b']|[nb|nb]]| |[mb]|b'|b1 b2|tb]; cbn [least_supertype] in Ht;
    repeat (case_bool_decide; try done); try done; out_inv; try done;
    match goal with
    | H : list_of _ _ = Ok _ |- _ => by apply list_of_Ok in H
    | H : new_option _ = Ok _ |- _ => by apply new_option_Ok in H as [? _]
    | H : new_response _ _ = Ok _ |- _ => by apply new_response_Ok in H as [? _]
    end.
Qed.

Lemma factor_out_present (a b t : TypeSignature) :
  factor_out_no_type_with least_supertype a b = Ok t -> t = NoType -> a = NoType /\ b = NoType.
Proof.
  intros Ht Hn. destruct (factor_out_cases _ _ _ _ Ht) as [[-> ->]|[[-> ->]|(_ & _ & Hls)]]; [done..|].
  by eapply least_supertype_present.
Qed.

(** A type admits only types of its own shape. *)
Ltac admits_shape H :=
  try done; try (unfold admits_true in H; cbn [admits_type] in H; injection H as H;
                 by apply bool_decide_eq_true in H).

Lemma least_factor (c a b t : TypeSignature) :
  (admits c a -> admits c b -> least_supertype a b = Ok t -> admits c t) ->
  (a <> NoType -> admits c a) -> (b <> NoType -> admits c b) ->
  factor_out_no_type_with least_supertype a b = Ok t -> t <> NoType -> admits c t.
Proof.
  intros IH Ha Hb Ht Hne.
  destruct (factor_out_cases _ _ _ _ Ht) as [[-> ->]|[[-> ->]|(Hna & Hnb & Hls)]]; auto.
Qed.

Lemma least_tuple (mc ma mb : BTreeMap TypeSignature) (t : TypeSignature) :
  bt_sorted ma ->
  Forall (fun e => forall c b t, value_type (snd e) = true -> admits c (snd e) -> admits c b ->
    least_supertype (snd e) b = Ok t -> admits c t) ma ->
  Forall (fun e => value_type (snd e) = true) ma ->
  admits (TupleType (mkTupleType mc)) (TupleType (mkTupleType ma)) ->
  admits (TupleType (mkTupleType mc)) (TupleType (mkTupleType mb)) ->
  least_supertype (TupleType (mkTupleType ma)) (TupleType (mkTupleType mb)) = Ok t ->
  admits (TupleType (mkTupleType mc)) t.
Proof.
  intros Hs IH Hva Hca Hcb Ht.
  apply least_supertype_tuple in Ht as (m & s & -> & _ & Hm); [|done].
  assert (map fst m = map fst ma) as Hkeys by (eapply Forall2_keys; naive_solver).
  rewrite tuple_admits_true in *. destruct Hca as [Hla Hca], Hcb as [_ Hcb].
  split. { by rewrite <-(length_map fst m), Hkeys, length_map. }
  rewrite List.Forall_forall in *. intros [k tc] Hin. simpl.
  destruct (Hca _ Hin) as (ta & Hga & Haa), (Hcb _ Hin) as (tb & Hgb & Hab). simpl in *.
  apply bt_get_In in Hga.
  destruct (Forall2_In_l _ _ _ _ Hm Hga) as ([k' t'] & Hin' & Hk & tb' & Hgb' & Hls). simpl in *.
  subst k'. simplify_eq. exists t'. split; [|by eapply (IH (k, ta)); eauto; apply (Hva (k, ta))].
  apply In_bt_get; [|done]. unfold bt_sorted. by rewrite Hkeys.
Qed.

Lemma least_supertype_below (c a b t : TypeSignature) :
  value_type a = true -> admits c a -> admits c b -> least_supertype a b = Ok t -> admits c t.
Proof.
  revert c b t.
  induction a as [| | | |n|n a IH|[n|n]| |ma IH|a IH|a1 a2 IH1 IH2|a] using TypeSignature_ind';
    intros c b t Hv Hca Hcb Ht; try done; try (by destruct (not_admits_NoType c Hcb));
    supertype_cases b Ht; try (by destruct (not_admits_NoType c Hcb)); try done.
  - injection Ht as <-. by case_match.
  - apply out_bind_Ok in Ht as (r & Hr & Ht). apply expect_Ok, list_of_Ok in Ht as ->.
    destruct c as [| | | |[|[nc c]|]| | | | |]; try done.
    rewrite list_admits_true in *. rewrite value_type_list in Hv.
    destruct (decide (Z.max n nb = 0)); [auto|]. right. split_and!; [done|naive_solver lia|].
    destruct (Z.eqb_spec n 0); [|destruct (Z.eqb_spec nb 0)]; [| |naive_solver lia];
      injection Hr as <-; [destruct Hcb | destruct Hca]; naive_solver lia.
  - injection Ht as <-. by case_match.
  - injection Ht as <-. by case_match.
  - destruct c as [| | | |[|[]|[]]| |[mc]| | |]; admits_shape Hca. rewrite value_type_tuple in Hv.
    eapply (least_tuple mc ma mb); naive_solver.
  - apply out_bind_Ok in Ht as (r & Hr & Ht). apply new_option_Ok in Ht as (-> & _).
    destruct c as [| | | |[|[]|[]]| | |c| |]; admits_shape Hca. rewrite option_admits_true in *.
    rewrite value_type_option in Hv. destruct (decide (r = NoType)); [auto|]. right. split; [done|].
    eapply least_factor; [..|exact Hr|done]; naive_solver.
  - apply out_bind_Ok in Ht as (r1 & Hr1 & Ht). apply out_bind_Ok in Ht as (r2 & Hr2 & Ht).
    apply new_response_Ok in Ht as (-> & _). destruct c as [| | | |[|[]|[]]| | | |c1 c2|]; admits_shape Hca.
    pose proof (value_type_present _ _ Hv) as Hp. apply value_type_response in Hv.
    apply response_admits_elim in Hca as [Hca1 Hca2], Hcb as [Hcb1 Hcb2].
    pose proof (not_admits_NoType (E:=E) c1). pose proof (not_admits_NoType (E:=E) c2).
    apply response_admits_intro.
    + eapply least_factor; [|exact Hca1|exact Hcb1|exact Hr1].
      intros Ha Hb Hls. apply (IH1 _ b1); try done. destruct Hv as [[-> _]|[[_ ?]|[? _]]]; done.
    + eapply least_factor; [|exact Hca2|exact Hcb2|exact Hr2].
      intros Ha Hb Hls. apply (IH2 _ b2); try done. destruct Hv as [[_ ?]|[[-> _]|[_ ?]]]; done.
    + pose proof (factor_out_present _ _ _ Hr1). pose proof (factor_out_present _ _ _ Hr2). tauto.
Qed.
End least_supertype.

(** * Theorems *)
(** Admission is a preorder on the types of values: every type of a value
    admits itself, and what a type admits, it also admits when the middle type
    does, through lists, optionals, responses and tuples. *)
Lemma admits_type_preorder :
  (forall t, value_type t = true -> admits_type (E:=CheckErrors) t t = Ok true) /\
  (forall a b c, value_type c = true ->
     admits_type (E:=CheckErrors) a b = Ok true -> admits_type (E:=CheckErrors) b c = Ok true ->
     admits_type (E:=CheckErrors) a c = Ok true).
Proof.
  split; [exact (admits_type_refl (E:=CheckErrors)) | exact (admits_trans (E:=CheckErrors))].
Qed.

(** [least_supertype] is what its documentation says when corresponding
    tuples have the same number of fields: the result admits both arguments,
    and any type that admits both arguments admits the result. *)
Lemma least_supertype_is_least (a b t : TypeSignature) :
  value_type a = true -> value_type b = true -> same_fields a b = true ->
  least_supertype a b = Ok t ->
  admits_type (E:=CheckErrors) t a = Ok true /\ admits_type (E:=CheckErrors) t b = Ok true /\
  (forall c, admits_type (E:=CheckErrors) c a = Ok true -> admits_type (E:=CheckErrors) c b = Ok true ->
     admits_type (E:=CheckErrors) c t = Ok true).
Proof.
  intros Ha Hb Hs Ht.
  destruct (least_supertype_upper (E:=CheckErrors) a b t Ha Hb Ht) as (_ & H1 & H2).
  split_and!; [exact H1 | exact (H2 Hs) |].
  intros c Hca Hcb. exact (least_supertype_below (E:=CheckErrors) c a b t Ha Hca Hcb Ht).
Qed.

Lemma least_supertype_is_least_witness :
  exists t, admits_type (E:=CheckErrors) t (OptionalType NoType) = Ok true /\
            admits_type (E:=CheckErrors) t (OptionalType (SequenceType (BufferType 7))) = Ok true.
Proof.
  exists (OptionalType (SequenceType (BufferType 7))).
  pose proof (least_supertype_is_least (OptionalType NoType) (OptionalType (SequenceType (BufferType 7)))
    (OptionalType (SequenceType (BufferType 7)))
    ltac:(vm_compute; reflexivity) ltac:(vm_compute; reflexivity) ltac:(vm_compute; reflexivity)
    ltac:(vm_compute; reflexivity)) as (H1 & H2 & _).
  split; [exact H1 | exact H2].
Defined.

(** The tuples [{a: int}] and [{a: int, b: int}]. *)
Definition tuple_a : TypeSignature := TupleType (mkTupleType [("a", IntType)]).
Definition tuple_ab : TypeSignature := TupleType (mkTupleType [("a", IntType); ("b", IntType)]).

(** Fields of [B] that [A] lacks are dropped: the documentation of
    [least_supertype] says that the result admits both arguments, but the
    supertype of [{a: int}] and [{a: int, b: int}] is [{a: int}], which does not
    admit the second; in the other order the call fails. *)
Lemma least_supertype_drops_fields :
  least_supertype tuple_a tuple_ab = Ok tuple_a /\
  admits_type (E:=CheckErrors) tuple_a tuple_ab = Ok false /\
  least_supertype tuple_ab tuple_a = Err (CheckErr.TypeError tuple_ab tuple_a).
Proof. split_and!; vm_compute; reflexivity. Qed.

Definition wide_tuple (m n : Z) : TypeSignature :=
  TupleType (mkTupleType [("a", SequenceType (BufferType m)); ("b", SequenceType (BufferType n))]).

(** Two well-formed tuple types whose supertype is too large make
    [least_supertype] (and with it [parent_list_type], the type of a list
    literal) panic, where its documentation promises the constructor's error. *)
Lemma least_supertype_panics :
  TypeSignature_wf (wide_tuple 600000 1) = true /\ TypeSignature_wf (wide_tuple 1 600000) = true /\
  parent_list_type [wide_tuple 600000 1; wide_tuple 1 600000] = Panic.
Proof. split_and!; vm_compute; reflexivity. Qed.

(** [TupleTypeSignature::shallow_merge] is a constructor without the size
    check: merging two well-formed tuple types gives one whose [size] panics,
    against the invariant stated on [TypeSignature]. *)
Lemma shallow_merge_unchecked :
  let a := mkTupleType [("a", SequenceType (BufferType 600000))] in
  let b := mkTupleType [("b", SequenceType (BufferType 600000))] in
  TypeSignature_wf (TupleType a) = true /\ TypeSignature_wf (TupleType b) = true /\
  TypeSignature_size (E:=CheckErrors) (TupleType (TupleTypeSignature_shallow_merge a b)) = Panic.
Proof. split_and!; vm_compute; reflexivity. Qed.
