(* ===== verification/Values.v ===== *)
(** Values: the types of Clarity values and the checked constructors of
    clarity/src/vm/types/mod.rs ([Value], [SequenceData], [TupleData]).

    Equality of values ([PartialEq]) ignores the type annotations that lists
    and tuples carry; it is [Value_eqb]. *)
From Stdlib Require Import ZArith Lia Strings.Byte Strings.String List Bool Setoid.
From stdpp Require Import base decidable list strings option.
From S2P Require Import Prelude Bytes Utf8 Codec Representations BTree Types Signatures Admission.
Open Scope Z_scope.

Definition zlen {A : Type} (l : list A) : Z := Z.of_nat (length l).

(** [usize] is 64 bits. *)
Definition usize_ty : int_ty := u64_ty.

(** * The type of a value *)
Definition OptionalData_type_signature {E : Type} (inner : TypeSignature) : outcome E TypeSignature :=
  expect (new_option inner).

Definition ResponseData_type_signature {E : Type} (committed : bool) (inner : TypeSignature)
  : outcome E TypeSignature :=
  expect (if committed then new_response inner NoType else new_response NoType inner).

Fixpoint type_of {E : Type} (x : Value) : outcome E TypeSignature :=
  match x with
  | VPrincipal _ => Ok PrincipalType
  | VInt _ => Ok IntType
  | VUInt _ => Ok UIntType
  | VBool _ => Ok BoolType
  | VTuple v => Ok (TupleType (td_type_signature v))
  | VSequence (SeqList list_data) => Ok (SequenceType (ListType (ld_type_signature list_data)))
  | VSequence (SeqBuffer data) =>
      let? buff_length := expect (BufferLength_try_from (zlen data)) in
      Ok (SequenceType (BufferType buff_length))
  | VSequence (SeqString (CharASCII data)) =>
      let? buff_length := expect (BufferLength_try_from (zlen data)) in
      Ok (SequenceType (StringType (ASCII buff_length)))
  | VSequence (SeqString (CharUTF8 data)) =>
      let? str_len := expect (StringUTF8Length_try_from usize_ty (zlen data)) in
      Ok (SequenceType (StringType (UTF8 str_len)))
  | VOptional (Some v) => let? t := type_of v in OptionalData_type_signature t
  | VOptional None => OptionalData_type_signature NoType
  | VResponse committed v => let? t := type_of v in ResponseData_type_signature committed t
  end.

Definition Value_size {E : Type} (v : Value) : outcome E Z :=
  let? t := type_of v in TypeSignature_size t.
Definition Value_depth {E : Type} (v : Value) : outcome E Z :=
  let? t := type_of v in Ok (TypeSignature_depth t).

(** [TypeSignature::admits] *)
Definition admits {E : Type} (self : TypeSignature) (x : Value) : outcome E bool :=
  let? x_type := type_of x in admits_type self x_type.

Definition construct_parent_list_type (args : list Value) : outcome CheckErrors ListTypeData :=
  let? children_types := try_map type_of args in
  parent_list_type children_types.

(** * Constructors *)
Definition unchecked {A : Type} (m : outcome CheckErrors A) : outcome VmError A := map_err Unchecked m.

(** The guard shared by [Value::some], [Value::okay] and [Value::error]. *)
Definition wrap_value (data : Value) (wrapped : Value) : outcome VmError Value :=
  let? size := Value_size data in
  if MAX_VALUE_SIZE <? as_u32 (size + WRAPPER_VALUE_SIZE) then Err (Unchecked CheckErr.ValueTooLarge)
  else
    let? depth := Value_depth data in
    if MAX_TYPE_DEPTH <? as_u8 (depth + 1) then Err (Unchecked CheckErr.TypeSignatureTooDeep)
    else Ok wrapped.

Definition Value_some (data : Value) : outcome VmError Value := wrap_value data (VOptional (Some data)).
Definition Value_okay (data : Value) : outcome VmError Value := wrap_value data (VResponse true data).
Definition Value_error (data : Value) : outcome VmError Value := wrap_value data (VResponse false data).
Definition Value_none : Value := VOptional None.
Definition Value_okay_true : Value := VResponse true (VBool true).
Definition Value_err_uint (ecode : Z) : Value := VResponse false (VUInt ecode).
Definition Value_err_none : Value := VResponse false Value_none.

Definition list_with_type (list_data : list Value) (expected_type : ListTypeData) : outcome VmError Value :=
  if max_len expected_type <? zlen list_data then
    Err (InterpreterErr InterpErr.FailureConstructingListWithType)
  else
    let? ok := out_forallb (admits (entry_type expected_type)) list_data in
    if ok then Ok (VSequence (SeqList (mkListData list_data expected_type)))
    else Err (InterpreterErr InterpErr.FailureConstructingListWithType).

Definition list_from (list_data : list Value) : outcome VmError Value :=
  let? type_sig := unchecked (construct_parent_list_type list_data) in
  Ok (VSequence (SeqList (mkListData list_data type_sig))).

Definition buff_from (buff_data : list byte) : outcome VmError Value :=
  let? _len := unchecked (BufferLength_try_from (zlen buff_data)) in
  Ok (VSequence (SeqBuffer buff_data)).

Definition buff_from_byte (b : byte) : Value := VSequence (SeqBuffer [b]).

(** [u8::is_ascii_alphanumeric], [is_ascii_punctuation], [is_ascii_whitespace]
    (space, tab, line feed, form feed, carriage return). *)
Definition is_ascii_alphanumeric (b : byte) : bool :=
  in_range 48 57 b || in_range 65 90 b || in_range 97 122 b.
Definition is_ascii_punctuation (b : byte) : bool :=
  in_range 33 47 b || in_range 58 64 b || in_range 91 96 b || in_range 123 126 b.
Definition is_ascii_whitespace (b : byte) : bool :=
  in_range 32 32 b || in_range 9 10 b || in_range 12 13 b.
Definition ascii_string_byte (b : byte) : bool :=
  is_ascii_alphanumeric b || is_ascii_punctuation b || is_ascii_whitespace b.

Definition string_ascii_from_bytes (bytes : list byte) : outcome VmError Value :=
  let? _len := unchecked (BufferLength_try_from (zlen bytes)) in
  if forallb ascii_string_byte bytes then Ok (VSequence (SeqString (CharASCII bytes)))
  else Err (Unchecked CheckErr.InvalidCharactersDetected).

Definition string_utf8_from_bytes (bytes : list byte) : outcome VmError Value :=
  let? chars := ok_or (Unchecked CheckErr.InvalidCharactersDetected) (utf8_chars bytes) in
  let data := map encode_utf8 chars in
  let? _len := unchecked (StringUTF8Length_try_from usize_ty (zlen data)) in
  Ok (VSequence (SeqString (CharUTF8 data))).

(** * Tuples *)
Definition TupleData_from_data (data : list (string * Value)) : outcome VmError TupleData :=
  let? '(tys, vals) :=
    try_fold (fun '(type_map, data_map) '(name, value) =>
      let? type_info := type_of value in
      if bt_contains_key name type_map then Err (Unchecked (CheckErr.NameAlreadyUsed name))
      else Ok (bt_insert name type_info type_map, bt_insert name value data_map)) ([], []) data in
  let? sig := unchecked (TupleTypeSignature_try_from_map tys) in
  Ok (mkTupleData sig vals).

Definition TupleData_from_data_typed (data : list (string * Value)) (expected : TupleTypeSignature)
  : outcome VmError TupleData :=
  let? vals :=
    try_fold (fun data_map '(name, value) =>
      let? expected_type :=
        ok_or (InterpreterErr InterpErr.FailureConstructingTupleWithType)
          (TupleTypeSignature_field_type expected name) in
      let? ok := admits expected_type value in
      if ok then Ok (bt_insert name value data_map)
      else Err (InterpreterErr InterpErr.FailureConstructingTupleWithType)) [] data in
  Ok (mkTupleData expected vals).

Definition TupleData_get (self : TupleData) (name : string) : outcome VmError Value :=
  ok_or (Unchecked (CheckErr.NoSuchTupleField name (td_type_signature self)))
    (bt_get name (td_data_map self)).
(** [get_owned] reads like [get]. *)
Definition TupleData_get_owned := TupleData_get.

Definition TupleData_shallow_merge (base updates : TupleData) : outcome VmError TupleData :=
  let data_map := fold_left (fun m '(name, value) => bt_insert name value m)
                    (td_data_map updates) (td_data_map base) in
  Ok (mkTupleData (TupleTypeSignature_shallow_merge (td_type_signature base) (td_type_signature updates))
        data_map).

(** * Sequences *)
Definition SequenceData_len (s : SequenceData) : Z :=
  match s with
  | SeqBuffer data => zlen data
  | SeqList data => zlen (ld_data data)
  | SeqString (CharASCII data) => zlen data
  | SeqString (CharUTF8 data) => zlen data
  end.

(** [Err tt] stands for [None]. *)
Definition SequenceData_element_at (s : SequenceData) (index : nat) : outcome unit Value :=
  if SequenceData_len s <=? Z.of_nat index then Err tt
  else
    match s with
    | SeqBuffer data => let? b := expect_some (nth_error data index) in Ok (buff_from_byte b)
    | SeqList data => expect_some (nth_error (ld_data data) index)
    | SeqString (CharASCII data) =>
        let? b := expect_some (nth_error data index) in expect (string_ascii_from_bytes [b])
    | SeqString (CharUTF8 data) =>
        let? c := expect_some (nth_error data index) in
        Ok (VSequence (SeqString (CharUTF8 [c])))
    end.

(** [PartialEq for Value] *)
Fixpoint Value_eqb (v w : Value) : bool :=
  match v, w with
  | VInt i, VInt j => i =? j
  | VUInt i, VUInt j => i =? j
  | VBool b, VBool c => Bool.eqb b c
  | VSequence (SeqBuffer d), VSequence (SeqBuffer e) => bool_decide (d = e)
  | VSequence (SeqString (CharASCII d)), VSequence (SeqString (CharASCII e)) => bool_decide (d = e)
  | VSequence (SeqString (CharUTF8 d)), VSequence (SeqString (CharUTF8 e)) => bool_decide (d = e)
  | VSequence (SeqList (mkListData l _)), VSequence (SeqList (mkListData k _)) =>
      (fix go (l k : list Value) : bool :=
        match l, k with
        | [], [] => true
        | v :: l, w :: k => Value_eqb v w && go l k
        | _, _ => false
        end) l k
  | VPrincipal p, VPrincipal q => bool_decide (p = q)
  | VTuple (mkTupleData _ m), VTuple (mkTupleData _ n) =>
      (fix go (m n : BTreeMap Value) : bool :=
        match m, n with
        | [], [] => true
        | (k, v) :: m, (k', w) :: n => String.eqb k k' && Value_eqb v w && go m n
        | _, _ => false
        end) m n
  | VOptional None, VOptional None => true
  | VOptional (Some v), VOptional (Some w) => Value_eqb v w
  | VResponse b v, VResponse c w => Bool.eqb b c && Value_eqb v w
  | _, _ => false
  end.

(** [iter().enumerate()] search shared by the branches of [contains]. *)
Fixpoint find_index {A : Type} (p : A -> bool) (l : list A) : option Z :=
  match l with
  | [] => None
  | x :: l => if p x then Some 0 else Z.succ <$> find_index p l
  end.

(** A needle of one element is searched, a longer or empty one is not found. *)
Definition contains_one {A : Type} `{EqDecision A} (data to_find : list A) : option Z :=
  match to_find with
  | [x] => find_index (fun y => bool_decide (y = x)) data
  | _ => None
  end.

Definition SequenceData_contains (s : SequenceData) (to_find : Value) : outcome VmError (option Z) :=
  match s with
  | SeqBuffer data =>
      match to_find with
      | VSequence (SeqBuffer v) => Ok (contains_one data v)
      | _ => Err (Unchecked (CheckErr.TypeValueError min_buffer to_find))
      end
  | SeqList data => Ok (find_index (fun entry => Value_eqb entry to_find) (ld_data data))
  | SeqString (CharASCII data) =>
      match to_find with
      | VSequence (SeqString (CharASCII v)) => Ok (contains_one data v)
      | _ => Err (Unchecked (CheckErr.TypeValueError min_string_ascii to_find))
      end
  | SeqString (CharUTF8 data) =>
      match to_find with
      | VSequence (SeqString (CharUTF8 v)) => Ok (contains_one data v)
      | _ => Err (Unchecked (CheckErr.TypeValueError min_string_utf8 to_find))
      end
  end.

Definition ListData_append (self other : ListData) : outcome VmError ListData :=
  let? entry := unchecked (factor_out_no_type (entry_type (ld_type_signature self))
                             (entry_type (ld_type_signature other))) in
  let len := as_u32 (max_len (ld_type_signature self) + max_len (ld_type_signature other)) in
  let? ty := unchecked (new_list entry len) in
  Ok (mkListData (ld_data self ++ ld_data other) ty).

Definition SequenceData_append (self other : SequenceData) : outcome VmError SequenceData :=
  match self, other with
  | SeqList a, SeqList b => let? l := ListData_append a b in Ok (SeqList l)
  | SeqBuffer a, SeqBuffer b => Ok (SeqBuffer (a ++ b))
  | SeqString (CharASCII a), SeqString (CharASCII b) => Ok (SeqString (CharASCII (a ++ b)))
  | SeqString (CharUTF8 a), SeqString (CharUTF8 b) => Ok (SeqString (CharUTF8 (a ++ b)))
  | _, _ => Err (Runtime RuntimeErr.BadTypeConstruction)
  end.

(** [filter]: the loop keeps an index and removes rejected elements in place.
    The closure may change interpreter state, which it threads as [St]. *)
Section filter.
Context {E St A : Type} (to_value : A -> outcome E Value) (f : St -> Value -> outcome E (bool * St)).

Fixpoint drain_filter (fuel i : nat) (data : list A) (st : St) : outcome E (list A * St) :=
  if Nat.eqb i (length data) then Ok (data, st)
  else
    match fuel with
    | O => Panic
    | S fuel =>
        let? x := expect_some (nth_error data i) in
        let? v := to_value x in
        let? '(res, st) := f st v in
        if res then drain_filter fuel (S i) data st
        else drain_filter fuel i (firstn i data ++ skipn (S i) data) st
    end.

(** One pass over the elements. *)
Fixpoint filter_pass (data : list A) (st : St) : outcome E (list A * St) :=
  match data with
  | [] => Ok ([], st)
  | x :: data =>
      let? v := to_value x in
      let? '(res, st) := f st v in
      let? '(rest, st) := filter_pass data st in
      Ok (if res then x :: rest else rest, st)
  end.

Lemma drain_filter_spec (kept data : list A) (st : St) :
  drain_filter (length data) (length kept) (kept ++ data) st =
  let? '(rest, st) := filter_pass data st in Ok (kept ++ rest, st).
Proof.
  revert kept st. induction data as [|x data IH]; intros kept st.
  - simpl. by rewrite app_nil_r, Nat.eqb_refl.
  - cbn [length drain_filter filter_pass].
    rewrite (proj2 (Nat.eqb_neq _ _)) by (rewrite length_app; simpl; lia).
    rewrite nth_error_app2, Nat.sub_diag by lia. cbn [nth_error expect_some out_bind].
    destruct (to_value x) as [v| |]; cbn [out_bind]; try done.
    destruct (f st v) as [[[] st']| |]; cbn [out_bind]; try done.
    + specialize (IH (kept ++ [x]) st'). rewrite length_app in IH. simpl in IH.
      rewrite Nat.add_1_r, <-app_assoc in IH. simpl in IH. rewrite IH.
      destruct (filter_pass data st') as [[rest st'']| |]; cbn [out_bind]; try done.
      by rewrite <-app_assoc.
    + rewrite firstn_app, Nat.sub_diag, firstn_all. cbn [firstn]. rewrite app_nil_r.
      replace (skipn (S (length kept)) (kept ++ x :: data)) with data.
      * rewrite IH. by destruct (filter_pass data st') as [[rest st'']| |].
      * rewrite skipn_app, skipn_all2 by lia.
        replace (S (length kept) - length kept)%nat with 1%nat by lia. done.
Qed.
End filter.

(** [to_value] of the four kinds of sequences. *)
Definition buff_item {E : Type} (b : byte) : outcome E Value := Ok (buff_from_byte b).
Definition ascii_item {E : Type} (b : byte) : outcome E Value := expect (string_ascii_from_bytes [b]).
Definition utf8_item {E : Type} (c : list byte) : outcome E Value := expect (string_utf8_from_bytes c).

Definition SequenceData_filter {E St : Type} (f : St -> Value -> outcome E (bool * St))
    (s : SequenceData) (st : St) : outcome E (SequenceData * St) :=
  match s with
  | SeqBuffer data =>
      let? '(data, st) := drain_filter buff_item f (length data) 0 data st in
      Ok (SeqBuffer data, st)
  | SeqList l =>
      let? '(data, st) := drain_filter (fun v => Ok v) f (length (ld_data l)) 0 (ld_data l) st in
      Ok (SeqList (mkListData data (ld_type_signature l)), st)
  | SeqString (CharASCII data) =>
      let? '(data, st) := drain_filter ascii_item f (length data) 0 data st in
      Ok (SeqString (CharASCII data), st)
  | SeqString (CharUTF8 data) =>
      let? '(data, st) := drain_filter utf8_item f (length data) 0 data st in
      Ok (SeqString (CharUTF8 data), st)
  end.

(** [atom_values]: the elements, each as a value. *)
Definition SequenceData_atom_values {E : Type} (s : SequenceData) : outcome E (list Value) :=
  match s with
  | SeqBuffer data => try_map buff_item data
  | SeqList l => Ok (ld_data l)
  | SeqString (CharASCII data) => try_map ascii_item data
  | SeqString (CharUTF8 data) => try_map utf8_item data
  end.

(** * Well-formed values *)
(** [t.admits(v)] returns [true]. *)
Definition admits_b (t : TypeSignature) (v : Value) : bool :=
  match admits (E:=VmError) t v with Ok b => b | _ => false end.

(** One character of a UTF-8 string. *)
Definition is_utf8_char (c : list byte) : bool :=
  match utf8_chars c with Some [_] => true | _ => false end.

Fixpoint Value_wf (v : Value) : bool :=
  match v with
  | VInt i => in_ty i128_ty i
  | VUInt u => in_ty u128_ty u
  | VBool _ => true
  | VSequence (SeqBuffer d) => zlen d <=? MAX_VALUE_SIZE
  | VSequence (SeqString (CharASCII d)) => (zlen d <=? MAX_VALUE_SIZE) && forallb ascii_string_byte d
  | VSequence (SeqString (CharUTF8 d)) => (4 * zlen d <=? MAX_VALUE_SIZE) && forallb is_utf8_char d
  | VSequence (SeqList (mkListData l ty)) =>
      TypeSignature_wf (SequenceType (ListType ty)) && value_type (SequenceType (ListType ty))
      && (zlen l <=? max_len ty)
      && forallb (fun v => Value_wf v && admits_b (entry_type ty) v) l
  | VPrincipal p => PrincipalData_wf p
  | VTuple (mkTupleData ty m) =>
      TypeSignature_wf (TupleType ty) && value_type (TupleType ty)
      && bool_decide (map fst m = map fst (type_map ty))
      && forallb (fun '(k, v) => Value_wf v &&
           match bt_get k (type_map ty) with Some t => admits_b t v | None => false end) m
  | VOptional None => true
  | VOptional (Some v) => Value_wf v && is_ok (Value_some v)
  | VResponse committed v => Value_wf v && is_ok (wrap_value v (VResponse committed v))
  end.

Lemma admits_b_true (t : TypeSignature) (v : Value) :
  admits_b t v = true <-> admits (E:=VmError) t v = Ok true.
Proof. unfold admits_b. destruct (admits t v) as [[]| |]; naive_solver. Qed.

Lemma Value_wf_list (l : list Value) (ty : ListTypeData) :
  Value_wf (VSequence (SeqList (mkListData l ty))) = true <->
  TypeSignature_wf (SequenceType (ListType ty)) = true /\ value_type (SequenceType (ListType ty)) = true /\
  zlen l <= max_len ty /\
  Forall (fun v => Value_wf v = true /\ admits (E:=VmError) (entry_type ty) v = Ok true) l.
Proof.
  cbn [Value_wf]. rewrite !andb_true_iff, Z.leb_le, forallb_forall, List.Forall_forall.
  setoid_rewrite andb_true_iff. setoid_rewrite admits_b_true. tauto.
Qed.

Lemma Value_wf_tuple (ty : TupleTypeSignature) (m : BTreeMap Value) :
  Value_wf (VTuple (mkTupleData ty m)) = true <->
  TypeSignature_wf (TupleType ty) = true /\ value_type (TupleType ty) = true /\
  map fst m = map fst (type_map ty) /\
  Forall (fun e => Value_wf (snd e) = true /\
    exists t, bt_get (fst e) (type_map ty) = Some t /\ admits (E:=VmError) t (snd e) = Ok true) m.
Proof.
  cbn [Value_wf]. rewrite !andb_true_iff, bool_decide_eq_true, forallb_forall, List.Forall_forall.
  assert (forall e : string * Value,
    (let '(k, v) := e in Value_wf v &&
      match bt_get k (type_map ty) with Some t => admits_b t v | None => false end) = true <->
    Value_wf (snd e) = true /\
    exists t, bt_get (fst e) (type_map ty) = Some t /\ admits (E:=VmError) t (snd e) = Ok true) as He.
  { intros [k v]. simpl. rewrite andb_true_iff. destruct (bt_get k (type_map ty)) as [t|].
    - rewrite admits_b_true. naive_solver.
    - naive_solver. }
  setoid_rewrite He. tauto.
Qed.

(** The guard of [some], [okay] and [error] is the guard of the type of the result. *)
Lemma wrap_value_Ok (v w r : Value) (t : TypeSignature) :
  (forall E, type_of (E:=E) v = Ok t) -> TypeSignature_wf t = true -> wrap_value v w = Ok r ->
  r = w /\ TypeSignature_depth t + 1 <= MAX_TYPE_DEPTH /\
  exists n, inner_size t = Ok n /\ 0 <= n /\ n + WRAPPER_VALUE_SIZE <= MAX_VALUE_SIZE.
Proof.
  intros Ht Hwf. unfold wrap_value, Value_size, Value_depth, TypeSignature_size. rewrite !Ht. cbn [out_bind].
  destruct (wf_size t Hwf) as (n & Hn & Hr). rewrite Hn. cbn [expect out_bind].
  pose proof (wf_depth t Hwf). unfold as_u32, as_u8.
  rewrite !Z.mod_small by (unfold_sizes; lia). intros H'. out_inv. bool_to_prop.
  split_and!; [done|lia|]. exists n. split_and!; [done|lia|lia].
Qed.

Lemma new_option_ok (t : TypeSignature) (n : Z) :
  TypeSignature_wf t = true -> inner_size t = Ok n -> n + WRAPPER_VALUE_SIZE <= MAX_VALUE_SIZE ->
  TypeSignature_depth t + 1 <= MAX_TYPE_DEPTH -> new_option t = Ok (OptionalType t).
Proof.
  intros Hwf Hn Hs Hd. pose proof (wf_depth t Hwf).
  destruct (wf_size t Hwf) as (n' & Hn' & Hr). rewrite Hn in Hn'. injection Hn' as <-.
  unfold new_option, TypeSignature_size. rewrite Hn. cbn [expect out_bind].
  unfold as_u32, as_u8. rewrite !Z.mod_small by (unfold_sizes; lia).
  rewrite (proj2 (Z.ltb_ge _ _)) by lia. rewrite (proj2 (Z.ltb_ge _ _)) by lia. done.
Qed.

Lemma new_response_ok (t s : TypeSignature) (n m : Z) :
  TypeSignature_wf t = true -> TypeSignature_wf s = true ->
  inner_size t = Ok n -> inner_size s = Ok m ->
  Z.max n m + WRAPPER_VALUE_SIZE <= MAX_VALUE_SIZE ->
  Z.max (TypeSignature_depth t) (TypeSignature_depth s) + 1 <= MAX_TYPE_DEPTH ->
  new_response t s = Ok (ResponseType t s).
Proof.
  intros Ht Hs Hn Hm Hsize Hd. pose proof (wf_depth t Ht). pose proof (wf_depth s Hs).
  destruct (wf_size t Ht) as (n' & Hn' & Hr). rewrite Hn in Hn'. injection Hn' as <-.
  destruct (wf_size s Hs) as (m' & Hm' & Hr'). rewrite Hm in Hm'. injection Hm' as <-.
  unfold new_response, TypeSignature_size. rewrite Hn, Hm. cbn [expect out_bind].
  unfold as_u32, as_u8. rewrite !Z.mod_small by (unfold_sizes; lia).
  rewrite (proj2 (Z.ltb_ge _ _)) by lia. rewrite (proj2 (Z.ltb_ge _ _)) by lia. done.
Qed.

Lemma response_type_ok (c : bool) (t : TypeSignature) (n : Z) :
  TypeSignature_wf t = true -> value_type t = true -> inner_size t = Ok n -> 0 <= n ->
  n + WRAPPER_VALUE_SIZE <= MAX_VALUE_SIZE -> TypeSignature_depth t + 1 <= MAX_TYPE_DEPTH ->
  exists r, (forall E, ResponseData_type_signature (E:=E) c t = Ok r) /\
    TypeSignature_wf r = true /\ value_type r = true.
Proof.
  intros Hwf Hv Hn Hn0 Hmax Hd. pose proof (wf_depth t Hwf). unfold ResponseData_type_signature.
  destruct c.
  - assert (new_response t NoType = Ok (ResponseType t NoType)) as Ho.
    { apply (new_response_ok t NoType n 1); try done; cbn; unfold_sizes; lia. }
    rewrite Ho. eexists. split_and!; [done| |apply value_type_response; auto].
    apply wf_response. eauto.
  - assert (new_response NoType t = Ok (ResponseType NoType t)) as Ho.
    { apply (new_response_ok NoType t 1 n); try done; cbn; unfold_sizes; lia. }
    rewrite Ho. eexists. split_and!; [done| |apply value_type_response; auto].
    apply wf_response. eauto.
Qed.

(** The type a well-formed value reports, and that the type is well-formed. *)
Lemma type_of_wf (v : Value) :
  Value_wf v = true ->
  exists t, (forall E, type_of (E:=E) v = Ok t) /\ TypeSignature_wf t = true /\ value_type t = true.
Proof.
  induction v as [i|u|b|d|l ty IH|[d|d]|p|ty m IH| |v IH|c v IH] using Value_ind'; intros Hwf;
    try (eexists; split_and!; [by intros|done|done]).
  - cbn in Hwf. apply Z.leb_le in Hwf. exists (SequenceType (BufferType (zlen d))).
    cbn [type_of]. unfold BufferLength_try_from. rewrite (proj2 (Z.ltb_ge _ _)) by done.
    split_and!; [done| |done]. unfold zlen in *. cbn. lia.
  - apply Value_wf_list in Hwf as (H1 & H2 & _). eexists. split_and!; [by intros|done|done].
  - cbn in Hwf. apply andb_true_iff in Hwf as [Hwf%Z.leb_le _].
    exists (SequenceType (StringType (UTF8 (zlen d)))).
    cbn [type_of]. unfold StringUTF8Length_try_from. unfold zlen in *.
    rewrite (proj2 (checked_mul_Some _ _ _ (Z.of_nat (length d) * 4)))
      by (unfold usize_ty; unfold_bounds; unfold_sizes; lia).
    cbn [ok_or out_bind]. rewrite (proj2 (Z.ltb_ge _ _)) by lia.
    split_and!; [done| |done]. cbn. lia.
  - cbn in Hwf. apply andb_true_iff in Hwf as [Hwf%Z.leb_le _].
    exists (SequenceType (StringType (ASCII (zlen d)))).
    cbn [type_of]. unfold BufferLength_try_from. rewrite (proj2 (Z.ltb_ge _ _)) by done.
    split_and!; [done| |done]. unfold zlen in *. cbn. lia.
  - apply Value_wf_tuple in Hwf as (H1 & H2 & _). eexists. split_and!; [by intros|done|done].
  - cbn [Value_wf] in Hwf. apply andb_true_iff in Hwf as [Hv [r Hr]%is_ok_true].
    destruct (IH Hv) as (t & Ht & Hwf & Hvt).
    destruct (wrap_value_Ok v _ r t Ht Hwf Hr) as (_ & Hd & n & Hn & Hn0 & Hmax).
    pose proof (new_option_ok t n Hwf Hn Hmax Hd) as Ho.
    exists (OptionalType t). split_and!.
    + intros E. cbn [type_of]. rewrite Ht. cbn [out_bind]. unfold OptionalData_type_signature. by rewrite Ho.
    + apply wf_option. eauto.
    + apply value_type_option. auto.
  - cbn [Value_wf] in Hwf. apply andb_true_iff in Hwf as [Hv [r Hr]%is_ok_true].
    destruct (IH Hv) as (t & Ht & Hwf & Hvt).
    destruct (wrap_value_Ok v _ r t Ht Hwf Hr) as (_ & Hd & n & Hn & Hn0 & Hmax).
    destruct (response_type_ok c t n) as (r' & Hr' & Hwf' & Hvt'); [done..|].
    exists r'. split_and!; [|done|done]. intros E. cbn [type_of]. by rewrite Ht.
Qed.

(** * The constructors keep values well-formed *)
(** Types a contract can write down: [NoType] does not occur. *)
Fixpoint declared_type (t : TypeSignature) : bool :=
  match t with
  | NoType => false
  | SequenceType (ListType (mkListType _ t)) => declared_type t
  | TupleType (mkTupleType m) => forallb (fun '(_, t) => declared_type t) m
  | OptionalType t => declared_type t
  | ResponseType t s => declared_type t && declared_type s
  | _ => true
  end.

Lemma declared_tuple (m : BTreeMap TypeSignature) :
  declared_type (TupleType (mkTupleType m)) = true <-> Forall (fun e => declared_type (snd e) = true) m.
Proof.
  cbn. rewrite forallb_forall, List.Forall_forall.
  assert (forall e : string * TypeSignature, (let '(_, t) := e in declared_type t) = declared_type (snd e))
    as He by by intros [].
  by setoid_rewrite He.
Qed.

Lemma declared_value_type (t : TypeSignature) :
  TypeSignature_wf t = true -> declared_type t = true -> value_type t = true.
Proof.
  induction t as [| | | |n|n t IH|[n|n]| |m IH|t IH|t s IHt IHs|t] using TypeSignature_ind'; try done.
  - rewrite wf_list, value_type_list. cbn [declared_type]. intros (Hn & Ht & _) Hd.
    destruct (decide (n = 0)); [auto|]. right. split; [lia|auto].
  - rewrite wf_tuple, value_type_tuple, declared_tuple, bt_sortedb_iff. intros (Hs & Hf & _) Hd.
    split; [done|]. rewrite List.Forall_forall in *. intros e He. apply IH; [done|by apply Hf|auto].
  - rewrite wf_option, value_type_option. cbn [declared_type]. intros [Ht _] Hd. auto.
  - rewrite wf_response, value_type_response. cbn [declared_type]. rewrite andb_true_iff.
    intros (Ht & Hs & _) [Hd1 Hd2]. auto.
Qed.

Lemma out_forallb_no_panic {E A : Type} (f : A -> outcome E bool) (l : list A) :
  Forall (fun x => f x <> Panic) l -> out_forallb f l <> Panic.
Proof.
  induction 1 as [|x l Hx _ IH]; [done|]. simpl. destruct (f x) as [[]| |]; simpl; auto.
Qed.

Lemma out_forallb_total {E A : Type} (f : A -> outcome E bool) (l : list A) :
  Forall (fun x => exists b, f x = Ok b) l -> exists b, out_forallb f l = Ok b.
Proof.
  induction 1 as [|x l [b Hx] _ IH]; [by exists true|]. simpl. rewrite Hx. destruct b; simpl; eauto.
Qed.

(** A declared type compares with every type. *)
Lemma declared_admits_total {E : Type} (t s : TypeSignature) :
  declared_type t = true -> exists b, admits_type (E:=E) t s = Ok b.
Proof.
  revert s.
  induction t as [| | | |n|n t IH|[n|n]| |m IH|t IH|t u IHt IHu|t] using TypeSignature_ind'; try done;
    intros s Hd; try (by eexists);
    destruct s as [| | | |[k|[k s']|[k|k]]| |[m']|s'|s1 s2|s']; try (by eexists);
    cbn [admits_type].
  - cbn [max_len entry_type]. repeat case_match; try (by eexists). by apply IH.
  - unfold TupleTypeSignature_admits. cbn [type_map]. case_match; [by eexists|].
    apply out_forallb_total. rewrite declared_tuple in Hd. rewrite List.Forall_forall in *.
    intros [key t] Hin. specialize (IH _ Hin). specialize (Hd _ Hin). case_match; [by apply IH|by eexists].
  - case_match; [by eexists|]. by apply IH.
  - cbn [declared_type] in Hd. apply andb_true_iff in Hd as [Hd1 Hd2].
    repeat case_match; [by apply IHu|by apply IHt|].
    destruct (IHu s2 Hd2) as [[] Hu]; rewrite Hu; simpl; [by apply IHt|by eexists].
Qed.

Lemma declared_admits_no_panic {E : Type} (t s : TypeSignature) :
  declared_type t = true -> admits_type (E:=E) t s <> Panic.
Proof. intros Hd. destruct (declared_admits_total (E:=E) t s Hd) as [b ->]. done. Qed.

Lemma wrap_value_safe (v w : Value) :
  Value_wf v = true -> wrap_value v w <> Panic.
Proof.
  intros (t & Ht & Hwf & _)%type_of_wf. unfold wrap_value, Value_size, Value_depth.
  rewrite !Ht. cbn [out_bind]. apply out_bind_no_panic; [by apply wf_size_no_panic|].
  intros. by repeat case_match.
Qed.

Lemma wrap_value_result (v w r : Value) :
  Value_wf v = true -> wrap_value v w = Ok r -> r = w.
Proof. intros (t & Ht & Hwf & _)%type_of_wf Hr. by destruct (wrap_value_Ok v w r t Ht Hwf Hr). Qed.

Lemma list_with_type_wf (l : list Value) (ty : ListTypeData) :
  Forall (fun v => Value_wf v = true) l ->
  TypeSignature_wf (SequenceType (ListType ty)) = true -> declared_type (SequenceType (ListType ty)) = true ->
  safely (list_with_type l ty) (fun v => Value_wf v = true).
Proof.
  intros Hl Hwf Hd. unfold list_with_type. case_match eqn:Hlen; [done|]. apply safely_intro.
  - apply out_bind_no_panic; [|intros [] _; done]. apply out_forallb_no_panic.
    eapply List.Forall_impl; [|exact Hl]. intros v (t & Ht & _)%type_of_wf. unfold admits. rewrite Ht.
    cbn [out_bind]. apply declared_admits_no_panic. by destruct ty.
  - intros v Hv. out_inv. apply Value_wf_list. split_and!; [done| |lia|].
    + by apply declared_value_type.
    + match goal with H : out_forallb _ _ = _ |- _ => apply out_forallb_true in H end.
      rewrite List.Forall_forall in *. auto.
Qed.

(** The loop of [TupleData::from_data]: fields in both maps, with their types. *)
Definition from_data_inv (st : BTreeMap TypeSignature * BTreeMap Value) : Prop :=
  let '(tys, vals) := st in
  bt_sorted tys /\ map fst vals = map fst tys /\
  Forall (fun e => field_ok e /\ value_type (snd e) = true) tys /\
  Forall (fun e => Value_wf (snd e) = true /\
    exists t, bt_get (fst e) tys = Some t /\ forall E, type_of (E:=E) (snd e) = Ok t) vals.

Lemma from_data_step (tys : BTreeMap TypeSignature) (vals : BTreeMap Value) (k : string) (v : Value)
    (t : TypeSignature) :
  from_data_inv (tys, vals) -> ClarityName_valid k = true -> Value_wf v = true ->
  type_of (E:=VmError) v = Ok t -> bt_contains_key k tys = false ->
  from_data_inv (bt_insert k t tys, bt_insert k v vals).
Proof.
  intros (Hs & Hk & Hty & Hv) Hname Hwf Ht Hnew.
  destruct (type_of_wf v Hwf) as (t' & Ht' & Hwt & Hvt). rewrite Ht' in Ht. injection Ht as ->.
  unfold bt_contains_key in Hnew. split_and!.
  - by apply bt_insert_sorted.
  - by apply bt_insert_keys_eq.
  - by apply bt_insert_Forall.
  - apply bt_insert_Forall.
    + split; [done|]. exists t. simpl. by rewrite bt_get_insert_eq.
    + eapply List.Forall_impl; [|exact Hv]. intros [k' v'] (Hwf' & t' & Hg & Ht''). simpl in *.
      split; [done|]. exists t'. split; [|done]. rewrite bt_get_insert_ne; [done|].
      intros <-. by rewrite Hg in Hnew.
Qed.

Lemma from_data_wf (data : list (string * Value)) :
  Forall (fun e => ClarityName_valid (fst e) = true /\ Value_wf (snd e) = true) data ->
  safely (TupleData_from_data data) (fun t => Value_wf (VTuple t) = true).
Proof.
  intros Hdata. unfold TupleData_from_data.
  match goal with |- context [try_fold ?f ([], []) data] => set (body := f) end.
  assert (forall st, from_data_inv st -> safely (try_fold body st data) from_data_inv) as Hloop.
  { induction Hdata as [|[k v] data [Hk Hv] _ IH]; intros [tys vals] Hst; [done|].
    simpl in Hk, Hv. destruct (type_of_wf v Hv) as (t & Ht & _). cbn [try_fold]. subst body. cbn beta iota.
    rewrite Ht. cbn [out_bind]. destruct (bt_contains_key k tys) eqn:Hnew; [done|].
    apply IH. by eapply from_data_step. }
  assert (from_data_inv ([], [])) as Hinit by (split_and!; [apply bt_sorted_nil|done|constructor..]).
  specialize (Hloop _ Hinit). destruct (try_fold body _ data) as [[tys vals]| |]; [|done..].
  cbn [out_bind]. destruct Hloop as (Hs & Hk & Hty & Hv).
  assert (Forall field_ok tys) as Hf by (eapply List.Forall_impl; [|exact Hty]; by intros e []).
  apply safely_intro.
  - apply out_bind_no_panic; [|done]. apply map_err_no_panic, try_from_map_no_panic.
    eapply List.Forall_impl; [|exact Hf]. by intros e [].
  - intros t Ht. unfold unchecked in Ht. out_inv.
    match goal with H : TupleTypeSignature_try_from_map _ = _ |- _ => rename H into Hsig end.
    pose proof (try_from_map_wf _ _ Hs Hf Hsig) as Hwf.
    apply try_from_map_Ok in Hsig as (-> & _). apply Value_wf_tuple. cbn [type_map].
    assert (Forall (fun e => value_type (snd e) = true) tys) as Hvt
      by (eapply List.Forall_impl; [|exact Hty]; by intros e []).
    split_and!; [done|by apply value_type_tuple|done|].
    eapply List.Forall_impl; [|exact Hv]. intros e (Hwfe & te & Hg & Hte). split; [done|].
    exists te. split; [done|]. unfold admits. rewrite Hte. cbn [out_bind].
    apply (admits_type_refl (E:=VmError)). rewrite List.Forall_forall in Hvt.
    by apply (Hvt (fst e, te)), bt_get_In.
Qed.

Lemma is_utf8_char_encode (c : Z) : is_scalar c = true -> is_utf8_char (encode_utf8 c) = true.
Proof.
  intros Hc. unfold is_utf8_char. rewrite <-(app_nil_r (encode_utf8 c)).
  by rewrite utf8_chars_encode.
Qed.

Lemma string_utf8_wf (bytes : list byte) :
  safely (string_utf8_from_bytes bytes) (fun v => Value_wf v = true).
Proof.
  unfold string_utf8_from_bytes. destruct (utf8_chars bytes) as [cs|] eqn:Hcs; [|done].
  cbn [ok_or out_bind]. apply encode_utf8_chars in Hcs as [Hsc _].
  unfold StringUTF8Length_try_from, unchecked. apply safely_intro.
  - destruct (checked_mul _ _ _); [|done]. cbn. by case_match.
  - intros v Hv. out_inv. rewrite checked_mul_Some in *. bool_to_prop. cbn [Value_wf].
    rewrite andb_true_iff. split; [naive_solver lia|].
    rewrite forallb_forall. intros c Hin. apply in_map_iff in Hin as (z & <- & Hz).
    apply is_utf8_char_encode. rewrite List.Forall_forall in Hsc. by apply Hsc.
Qed.

Lemma wrap_value_wf (v w : Value) :
  Value_wf v = true -> (is_ok (wrap_value v w) = true -> Value_wf w = true) ->
  safely (wrap_value v w) (fun r => Value_wf r = true).
Proof.
  intros Hv Hw. apply safely_intro; [by apply wrap_value_safe|]. intros r Hr.
  rewrite (wrap_value_result v w r Hv Hr). apply Hw. by rewrite Hr.
Qed.

Lemma wrapped_wf (v : Value) :
  Value_wf v = true ->
  safely (Value_some v) (fun r => Value_wf r = true) /\
  safely (Value_okay v) (fun r => Value_wf r = true) /\
  safely (Value_error v) (fun r => Value_wf r = true).
Proof.
  intros Hv. unfold Value_some, Value_okay, Value_error.
  split_and!; apply wrap_value_wf; try done; intros Hok; cbn [Value_wf]; by rewrite Hv.
Qed.

Lemma buff_from_wf (bytes : list byte) : safely (buff_from bytes) (fun r => Value_wf r = true).
Proof. unfold buff_from, unchecked, BufferLength_try_from. case_match; [done|]. cbn. bool_to_prop. by apply Z.leb_le. Qed.

Lemma string_ascii_wf (bytes : list byte) : safely (string_ascii_from_bytes bytes) (fun r => Value_wf r = true).
Proof.
  unfold string_ascii_from_bytes, unchecked, BufferLength_try_from. case_match; [done|].
  cbn. case_match; [|done]. bool_to_prop. simpl. apply andb_true_iff. split; [by apply Z.leb_le|done].
Qed.

(** The checked constructors of values, called on well-formed parts, never
    panic and return well-formed values or an error: optionals and responses,
    buffers and strings (any bytes), lists of a declared type, and tuples. *)
Lemma value_constructors_wf :
  (forall v, Value_wf v = true ->
     safely (Value_some v) (fun r => Value_wf r = true) /\
     safely (Value_okay v) (fun r => Value_wf r = true) /\
     safely (Value_error v) (fun r => Value_wf r = true)) /\
  (forall bytes,
     safely (buff_from bytes) (fun r => Value_wf r = true) /\
     safely (string_ascii_from_bytes bytes) (fun r => Value_wf r = true) /\
     safely (string_utf8_from_bytes bytes) (fun r => Value_wf r = true)) /\
  (forall l ty, Forall (fun v => Value_wf v = true) l ->
     TypeSignature_wf (SequenceType (ListType ty)) = true ->
     declared_type (SequenceType (ListType ty)) = true ->
     safely (list_with_type l ty) (fun r => Value_wf r = true)) /\
  (forall data, Forall (fun e => ClarityName_valid (fst e) = true /\ Value_wf (snd e) = true) data ->
     safely (TupleData_from_data data) (fun t => Value_wf (VTuple t) = true)).
Proof. split_and!; auto using wrapped_wf, buff_from_wf, string_ascii_wf, string_utf8_wf, list_with_type_wf, from_data_wf. Qed.
