(* ===== verification/Serialization.v ===== *)
(** Serialization: the consensus serialization of Clarity values
    (clarity/src/vm/types/serialization.rs).

    The deserializer is generic in the reader.  A reader is an instance of the
    class [Reader]; its laws say that it delivers the bytes of some list in
    order.  Byte slices and [BoundReader] are instances, and what is proved
    against the interface holds of both.  Recursion is bounded by the depth
    limit of the source: [levels] is [16 - depth]. *)
From Stdlib Require Import ZArith Lia Strings.Byte Strings.String List Bool.
From stdpp Require Import base decidable list strings option.
From S2P Require Import Prelude Bytes Utf8 Codec Representations BTree Types Signatures Admission Values.
Open Scope Z_scope.

Definition BOUND_VALUE_SERIALIZATION_BYTES : Z := MAX_VALUE_SIZE * 2.
Definition BOUND_VALUE_SERIALIZATION_HEX : Z := BOUND_VALUE_SERIALIZATION_BYTES * 2.

Inductive SerializationError :=
| IOError (e : io_error)
| BadTypeError (e : CheckErrors)
| DeserializationError (msg : string)
| DeserializeExpected (t : TypeSignature).

(** * Readers *)
Class Reader (R : Type) := rd_read_exact : nat -> R -> outcome io_error (list byte * R).

(** [rd_holds r l]: reading from [r] delivers the bytes [l] and then ends. *)
Class ReaderLaws (R : Type) `{Reader R} := {
  rd_holds : R -> list byte -> Prop;
  rd_holds_app : forall n r l rest,
    rd_holds r (l ++ rest) -> length l = n -> Z.of_nat n <= u32_max ->
    exists r', rd_read_exact n r = Ok (l, r') /\ rd_holds r' rest;
  rd_holds_eof : forall n r l,
    rd_holds r l -> (length l < n)%nat -> Z.of_nat n <= u32_max ->
    rd_read_exact n r = Err UnexpectedEof
}.

#[global] Instance slice_reader : Reader (list byte) := read_exact.
#[global] Instance bound_reader : Reader BoundReader := BoundReader_read_exact.

(** * Prefixes *)
Inductive TypePrefix :=
| TP_Int | TP_UInt | TP_Buffer | TP_BoolTrue | TP_BoolFalse | TP_PrincipalStandard
| TP_PrincipalContract | TP_ResponseOk | TP_ResponseErr | TP_OptionalNone | TP_OptionalSome
| TP_List | TP_Tuple | TP_StringASCII | TP_StringUTF8.

Definition TypePrefix_to_u8 (p : TypePrefix) : Z :=
  match p with
  | TP_Int => 0 | TP_UInt => 1 | TP_Buffer => 2 | TP_BoolTrue => 3 | TP_BoolFalse => 4
  | TP_PrincipalStandard => 5 | TP_PrincipalContract => 6 | TP_ResponseOk => 7 | TP_ResponseErr => 8
  | TP_OptionalNone => 9 | TP_OptionalSome => 10 | TP_List => 11 | TP_Tuple => 12
  | TP_StringASCII => 13 | TP_StringUTF8 => 14
  end.

Definition TypePrefix_ALL : list TypePrefix :=
  [TP_Int; TP_UInt; TP_Buffer; TP_BoolTrue; TP_BoolFalse; TP_PrincipalStandard; TP_PrincipalContract;
   TP_ResponseOk; TP_ResponseErr; TP_OptionalNone; TP_OptionalSome; TP_List; TP_Tuple;
   TP_StringASCII; TP_StringUTF8].

Definition TypePrefix_from_u8 (v : Z) : option TypePrefix :=
  find (fun p => v =? TypePrefix_to_u8 p) TypePrefix_ALL.

Definition TypePrefix_from_principal (p : PrincipalData) : TypePrefix :=
  match p with
  | Standard _ => TP_PrincipalStandard
  | Contract _ => TP_PrincipalContract
  end.

Definition TypePrefix_from_value (v : Value) : TypePrefix :=
  match v with
  | VInt _ => TP_Int
  | VUInt _ => TP_UInt
  | VBool value => if value then TP_BoolTrue else TP_BoolFalse
  | VPrincipal p => TypePrefix_from_principal p
  | VResponse committed _ => if committed then TP_ResponseOk else TP_ResponseErr
  | VOptional None => TP_OptionalNone
  | VOptional (Some _) => TP_OptionalSome
  | VTuple _ => TP_Tuple
  | VSequence (SeqBuffer _) => TP_Buffer
  | VSequence (SeqList _) => TP_List
  | VSequence (SeqString (CharASCII _)) => TP_StringASCII
  | VSequence (SeqString (CharUTF8 _)) => TP_StringUTF8
  end.

Definition prefix_byte (p : TypePrefix) : list byte := [byte_of_Z (TypePrefix_to_u8 p)].

(** * Writing *)
Definition StandardPrincipalData_serialize_write (p : StandardPrincipalData) : list byte :=
  sp_version p :: sp_bytes p.

(** [serialize_guarded_string!]: [self.len()] is [u8::try_from(..).unwrap()]. *)
Definition name_serialize_write (name : string) : outcome io_error (list byte) :=
  let? len := expect_some (checked u8_ty (str_len name)) in
  Ok (to_be_bytes 1 len ++ as_bytes name).

Definition PrincipalData_inner_consensus_serialize (p : PrincipalData) : outcome io_error (list byte) :=
  match p with
  | Standard s => Ok (prefix_byte (TypePrefix_from_principal p) ++ StandardPrincipalData_serialize_write s)
  | Contract c =>
      let? name := name_serialize_write (qc_name c) in
      Ok (prefix_byte (TypePrefix_from_principal p)
          ++ StandardPrincipalData_serialize_write (issuer c) ++ name)
  end.

(** Writes of a sequence of items, one after the other. *)
Definition write_all {E A : Type} (f : A -> outcome E (list byte)) (l : list A) : outcome E (list byte) :=
  let? parts := try_map f l in Ok (concat parts).

Definition u32_be_bytes (n : Z) : list byte := to_be_bytes 4 n.

Fixpoint serialize_write (self : Value) : outcome io_error (list byte) :=
  let? body :=
    match self with
    | VInt value => Ok (to_be_bytes 16 value)
    | VUInt value => Ok (to_be_bytes 16 value)
    | VPrincipal (Standard data) => Ok (StandardPrincipalData_serialize_write data)
    | VPrincipal (Contract c) =>
        let? name := name_serialize_write (qc_name c) in
        Ok (StandardPrincipalData_serialize_write (issuer c) ++ name)
    | VResponse _ data => serialize_write data
    | VBool _ => Ok []
    | VOptional None => Ok []
    | VOptional (Some value) => serialize_write value
    | VSequence (SeqList data) =>
        let? len := expect_some (checked u32_ty (zlen (ld_data data))) in
        let? items := write_all serialize_write (ld_data data) in
        Ok (u32_be_bytes len ++ items)
    | VSequence (SeqBuffer value) =>
        let? len := expect (BufferLength_try_from (zlen value)) in
        Ok (u32_be_bytes len ++ value)
    | VSequence (SeqString (CharUTF8 value)) =>
        let total_len := fold_left (fun len c => as_u32 (len + as_u32 (zlen c))) value 0 in
        Ok (u32_be_bytes total_len ++ concat value)
    | VSequence (SeqString (CharASCII value)) =>
        let? len := expect (BufferLength_try_from (zlen value)) in
        Ok (u32_be_bytes len ++ value)
    | VTuple data =>
        let? len := expect_some (checked u32_ty (zlen (td_data_map data))) in
        let? fields :=
          write_all (fun '(key, value) =>
            let? k := name_serialize_write key in
            let? v := serialize_write value in
            Ok (k ++ v)) (td_data_map data) in
        Ok (u32_be_bytes len ++ fields)
    end in
  Ok (prefix_byte (TypePrefix_from_value self) ++ body).

(** [serialized_size] runs [serialize_write] on a counter of bytes. *)
Definition serialized_size {E : Type} (self : Value) : outcome E Z :=
  let? bytes := expect (serialize_write self) in
  expect_some (checked u32_ty (zlen bytes)).

(** * Reading *)
Section deserialize.
Context {R : Type} `{Reader R}.

Definition rd {E : Type} (io : io_error -> E) (n : nat) (r : R) : outcome E (list byte * R) :=
  map_err io (rd_read_exact n r).

Definition StandardPrincipalData_deserialize_read (r : R)
  : outcome SerializationError (StandardPrincipalData * R) :=
  let? '(version, r) := rd IOError 1 r in
  let? '(data, r) := rd IOError 20 r in
  let? v := expect_some (nth_error version 0) in
  Ok (mkStandard v data, r).

Definition name_deserialize_read (try_from : string -> outcome RuntimeErrorType string) (r : R)
  : outcome SerializationError (string * R) :=
  let? '(len, r) := rd IOError 1 r in
  let len := from_be_bytes len in
  if MAX_STRING_LEN <? len then Err (DeserializationError "String too long")
  else
    let? '(data, r) := rd IOError (Z.to_nat len) r in
    let? x := ok_or (DeserializationError "Non-UTF8 string data") (string_from_utf8 data) in
    let? name := map_err (fun _ => DeserializationError "Illegal Clarity string") (try_from x) in
    Ok (name, r).

Definition PrincipalData_inner_consensus_deserialize (r : R)
  : outcome SerializationError (PrincipalData * R) :=
  let? '(header, r) := rd IOError 1 r in
  let? prefix := ok_or (DeserializationError "Bad principal prefix")
                   (TypePrefix_from_u8 (from_be_bytes header)) in
  match prefix with
  | TP_PrincipalStandard =>
      let? '(p, r) := StandardPrincipalData_deserialize_read r in Ok (Standard p, r)
  | TP_PrincipalContract =>
      let? '(issuer, r) := StandardPrincipalData_deserialize_read r in
      let? '(name, r) := name_deserialize_read ContractName_try_from r in
      Ok (Contract (mkContractId issuer name), r)
  | _ => Err (DeserializationError "Bad principal prefix")
  end.

(** [check_match!(expected_type, pattern)] *)
Definition check_match (expected : option TypeSignature) (pattern : TypeSignature -> bool)
  : outcome SerializationError unit :=
  match expected with
  | None => Ok tt
  | Some x => if pattern x then Ok tt else Err (DeserializeExpected x)
  end.

(** [for _i in 0..n { items.push(f(r)?) }] *)
Fixpoint read_times {A : Type} (f : R -> outcome SerializationError (A * R)) (n : nat) (r : R)
  : outcome SerializationError (list A * R) :=
  match n with
  | O => Ok ([], r)
  | S n =>
      let? '(x, r) := f r in
      let? '(l, r) := read_times f n r in
      Ok (x :: l, r)
  end.

Definition bad {A : Type} (msg : string) (m : outcome VmError A) : outcome SerializationError A :=
  map_err (fun _ => DeserializationError msg) m.

(** The length prefix of buffers and strings. *)
Definition read_buffer_len (r : R) : outcome SerializationError (Z * R) :=
  let? '(buffer_len, r) := rd IOError 4 r in
  let? len := map_err BadTypeError (BufferLength_try_from (from_be_bytes buffer_len)) in
  Ok (len, r).

Fixpoint inner_deserialize_read (levels : nat) (expected_type : option TypeSignature) (r : R)
  : outcome SerializationError (Value * R) :=
  match levels with
  | O => Err (BadTypeError CheckErr.TypeSignatureTooDeep)
  | S levels =>
      let? '(header, r) := rd IOError 1 r in
      let? prefix := ok_or (DeserializationError "Bad type prefix")
                       (TypePrefix_from_u8 (from_be_bytes header)) in
      match prefix with
      | TP_Int =>
          let? _ := check_match expected_type (fun x => bool_decide (x = IntType)) in
          let? '(buffer, r) := rd IOError 16 r in
          Ok (VInt (to_signed 128 (from_be_bytes buffer)), r)
      | TP_UInt =>
          let? _ := check_match expected_type (fun x => bool_decide (x = UIntType)) in
          let? '(buffer, r) := rd IOError 16 r in
          Ok (VUInt (from_be_bytes buffer), r)
      | TP_Buffer =>
          let? '(buffer_len, r) := read_buffer_len r in
          let? _ := check_match expected_type (fun x =>
            match x with SequenceType (BufferType expected_len) => buffer_len <=? expected_len | _ => false end) in
          let? '(data, r) := rd IOError (Z.to_nat buffer_len) r in
          let? v := bad "Bad buffer" (buff_from data) in
          Ok (v, r)
      | TP_BoolTrue =>
          let? _ := check_match expected_type (fun x => bool_decide (x = BoolType)) in
          Ok (VBool true, r)
      | TP_BoolFalse =>
          let? _ := check_match expected_type (fun x => bool_decide (x = BoolType)) in
          Ok (VBool false, r)
      | TP_PrincipalStandard =>
          let? _ := check_match expected_type (fun x => bool_decide (x = PrincipalType)) in
          let? '(p, r) := StandardPrincipalData_deserialize_read r in
          Ok (VPrincipal (Standard p), r)
      | TP_PrincipalContract =>
          let? _ := check_match expected_type (fun x => bool_decide (x = PrincipalType)) in
          let? '(issuer, r) := StandardPrincipalData_deserialize_read r in
          let? '(name, r) := name_deserialize_read ContractName_try_from r in
          Ok (VPrincipal (Contract (mkContractId issuer name)), r)
      | TP_ResponseOk | TP_ResponseErr =>
          let committed := match prefix with TP_ResponseOk => true | _ => false end in
          let? expect_contained_type :=
            match expected_type with
            | None => Ok None
            | Some (ResponseType ok err) => Ok (Some (if committed then ok else err))
            | Some x => Err (DeserializeExpected x)
            end in
          let? '(data, r) := inner_deserialize_read levels expect_contained_type r in
          let? value := bad "Value too large" (if committed then Value_okay data else Value_error data) in
          Ok (value, r)
      | TP_OptionalNone =>
          let? _ := check_match expected_type
                      (fun x => match x with OptionalType _ => true | _ => false end) in
          Ok (Value_none, r)
      | TP_OptionalSome =>
          let? expect_contained_type :=
            match expected_type with
            | None => Ok None
            | Some (OptionalType some_type) => Ok (Some some_type)
            | Some x => Err (DeserializeExpected x)
            end in
          let? '(data, r) := inner_deserialize_read levels expect_contained_type r in
          let? value := bad "Value too large" (Value_some data) in
          Ok (value, r)
      | TP_List =>
          let? '(len, r) := rd IOError 4 r in
          let len := from_be_bytes len in
          if MAX_VALUE_SIZE <? len then Err (DeserializationError "Illegal list type")
          else
            let? list_type :=
              match expected_type with
              | None => Ok None
              | Some (SequenceType (ListType list_type)) =>
                  if max_len list_type <? len
                  then Err (DeserializeExpected (SequenceType (ListType list_type)))
                  else Ok (Some list_type)
              | Some x => Err (DeserializeExpected x)
              end in
            let? '(items, r) :=
              read_times (inner_deserialize_read levels (entry_type <$> list_type)) (Z.to_nat len) r in
            let? v :=
              bad "Illegal list type"
                match list_type with
                | Some list_type => list_with_type items list_type
                | None => list_from items
                end in
            Ok (v, r)
      | TP_Tuple =>
          let? '(len, r) := rd IOError 4 r in
          let len := from_be_bytes len in
          if MAX_VALUE_SIZE <? len then Err (DeserializationError "Illegal tuple type")
          else
            let? tuple_type :=
              match expected_type with
              | None => Ok None
              | Some (TupleType tuple_type) =>
                  if negb (len =? zlen (type_map tuple_type))
                  then Err (DeserializeExpected (TupleType tuple_type))
                  else Ok (Some tuple_type)
              | Some x => Err (DeserializeExpected x)
              end in
            let read_field := fun r =>
              let? '(key, r) := name_deserialize_read ClarityName_try_from r in
              let? expected_field_type :=
                match tuple_type with
                | None => Ok None
                | Some some_tuple =>
                    let? t := ok_or (DeserializeExpected (TupleType some_tuple))
                                (TupleTypeSignature_field_type some_tuple key) in
                    Ok (Some t)
                end in
              let? '(value, r) := inner_deserialize_read levels expected_field_type r in
              Ok ((key, value), r) in
            let? '(items, r) := read_times read_field (Z.to_nat len) r in
            let? t :=
              bad "Illegal tuple type"
                match tuple_type with
                | Some tuple_type => TupleData_from_data_typed items tuple_type
                | None => TupleData_from_data items
                end in
            Ok (VTuple t, r)
      | TP_StringASCII =>
          let? '(buffer_len, r) := read_buffer_len r in
          let? _ := check_match expected_type (fun x =>
            match x with
            | SequenceType (StringType (ASCII expected_len)) => buffer_len <=? expected_len
            | _ => false
            end) in
          let? '(data, r) := rd IOError (Z.to_nat buffer_len) r in
          let? v := bad "Bad string" (string_ascii_from_bytes data) in
          Ok (v, r)
      | TP_StringUTF8 =>
          let? '(total_len, r) := read_buffer_len r in
          let? '(data, r) := rd IOError (Z.to_nat total_len) r in
          let value := bad "Illegal string_utf8 type" (string_utf8_from_bytes data) in
          let? _ := check_match expected_type (fun x =>
            match x, value with
            | SequenceType (StringType (UTF8 expected_len)), Ok (VSequence (SeqString (CharUTF8 utf8))) =>
                as_u32 (zlen utf8) <=? expected_len
            | _, _ => false
            end) in
          let? v := value in
          Ok (v, r)
      end
  end.
End deserialize.

Definition deserialize_read (fd : list byte) (expected_type : option TypeSignature)
  : outcome SerializationError (Value * BoundReader) :=
  let bound_reader := BoundReader_from_reader fd BOUND_VALUE_SERIALIZATION_BYTES in
  inner_deserialize_read 16 expected_type bound_reader.

Definition try_deserialize_bytes (bytes : list byte) (expected : TypeSignature)
  : outcome SerializationError Value :=
  let? '(v, _) := deserialize_read bytes (Some expected) in Ok v.

Definition try_deserialize_bytes_untyped (bytes : list byte) : outcome SerializationError Value :=
  let? '(v, _) := deserialize_read bytes None in Ok v.

Definition try_deserialize_hex (hex : string) (expected : TypeSignature)
  : outcome SerializationError Value :=
  let? data := map_err (fun _ => DeserializationError "Bad hex string") (hex_bytes hex) in
  try_deserialize_bytes data expected.

Definition try_deserialize_hex_untyped (hex : string) : outcome SerializationError Value :=
  let hex := if String.prefix "0x" hex then substring 2 (String.length hex - 2) hex else hex in
  let? data := map_err (fun _ => DeserializationError "Bad hex string") (hex_bytes hex) in
  try_deserialize_bytes_untyped data.

(** [ClaritySerializable for Value]: the hexadecimal form stored by the database. *)
Definition Value_serialize {E : Type} (self : Value) : outcome E string :=
  let? bytes := expect (serialize_write self) in Ok (to_hex bytes).

Definition Value_deserialize {E : Type} (hex : string) (expected : TypeSignature) : outcome E Value :=
  expect (try_deserialize_hex hex expected).

(** [StacksMessageCodec for PrincipalData]; the size in memory of the type is
    the compiler's choice. *)
Definition PrincipalData_codec (size_of_PrincipalData : Z) : Codec PrincipalData := {|
  consensus_serialize p := map_err WriteError (PrincipalData_inner_consensus_serialize p);
  consensus_deserialize fd :=
    map_err (fun _ => DeserializeError "principal") (PrincipalData_inner_consensus_deserialize fd);
  mem_size_of := size_of_PrincipalData
|}.

(** * The readers obey the laws *)
#[global] Program Instance slice_reader_laws : ReaderLaws (list byte) := {|
  rd_holds r l := r = l
|}.
Next Obligation.
  intros n r l rest -> <- _. exists rest. split; [|done]. apply read_exact_app.
Qed.
Next Obligation.
  intros n r l -> Hn _. unfold rd_read_exact, slice_reader, read_exact.
  by rewrite (proj2 (Nat.leb_gt _ _)).
Qed.

(** A bound reader holds its input cut off at the bytes it may still deliver. *)
Definition bound_reader_holds (r : BoundReader) (l : list byte) : Prop :=
  0 <= br_read_so_far r <= br_max_len r /\ br_max_len r + u32_max <= u64_max /\
  l = firstn (br_budget r) (br_fd r).

#[global] Program Instance bound_reader_laws : ReaderLaws BoundReader := {|
  rd_holds := bound_reader_holds
|}.
Next Obligation.
  intros n r l rest (Hr & Hmax & Hl) Hn Hle.
  unfold rd_read_exact, bound_reader. exists (br_advance n r).
  rewrite BoundReader_read_exact_spec by lia.
  rewrite <-Hl, (read_exact_app' n) by done. cbn [out_bind]. split; [done|].
  assert (n <= br_budget r)%nat as Hb.
  { apply (f_equal length) in Hl. rewrite length_app, length_firstn in Hl. lia. }
  unfold bound_reader_holds, br_advance, br_budget in *.
  cbn [br_fd br_max_len br_read_so_far]. split_and!; [lia|lia|lia|].
  replace (Z.to_nat (br_max_len r - (br_read_so_far r + Z.of_nat n)))
    with (Z.to_nat (br_max_len r - br_read_so_far r) - n)%nat by lia.
  rewrite <-skipn_firstn_comm, <-Hl, skipn_app, <-Hn, Nat.sub_diag, skipn_all. done.
Qed.
Next Obligation.
  intros n r l (Hr & Hmax & ->) Hn Hle. unfold rd_read_exact, bound_reader.
  rewrite BoundReader_read_exact_spec by lia. unfold read_exact.
  by rewrite (proj2 (Nat.leb_gt _ _)).
Qed.
