(* ===== verification/RoundTrip.v ===== *)
(** RoundTrip: a Clarity value read back from its serialization at a type that
    admits it (clarity/src/vm/types/serialization.rs), the bound on the size of
    a serialization, and equality of values as equality of serializations. *)
From Stdlib Require Import ZArith Lia Strings.Byte Strings.String List Bool.
From stdpp Require Import base decidable list strings option.
From S2P Require Import Prelude Bytes Utf8 Codec Representations BTree Types Signatures Admission Values.
From S2P Require Import Serialization.
Open Scope Z_scope.

(** * Sizes are positive *)
Lemma inner_type_size_nonneg (t : TypeSignature) (n : Z) : inner_type_size t = Ok n -> 0 <= n.
Proof.
  destruct t as [| | | |[k|l|s]| |[m]|t|t s|t]; cbn [inner_type_size]; intros H; try (injection H as <-; lia).
  - unfold ListTypeData_type_size in H. out_inv. rewrite add32_Ok, at_most_max_Ok in *. lia.
  - unfold TupleTypeSignature_type_size in H. out_inv. rewrite at_most_max_Ok in H. destruct H as [-> _].
    match goal with H : try_fold _ _ _ = Ok _ |- _ => revert H end.
    apply (try_fold_inv _ (fun r => 0 <= r)).
    + intros b [k t] b' Hb H. out_inv. rewrite add32_Ok in *. lia.
    + rewrite mul32_Ok in *. lia.
  - out_inv. rewrite add32_Ok in *. lia.
  - out_inv. rewrite add32_Ok in *. lia.
Qed.

Lemma list_size_Ok (t : TypeSignature) (n s : Z) :
  ListTypeData_inner_size TypeSignature_size (mkListType n t) = Ok s ->
  exists e, inner_size t = Ok e /\ e * n + 5 <= s <= MAX_VALUE_SIZE.
Proof.
  unfold ListTypeData_inner_size, ListTypeData_type_size, TypeSignature_size. cbn [entry_type max_len].
  intros H. out_inv. rewrite add32_Ok, mul32_Ok, at_most_max_Ok in *.
  match goal with H : inner_type_size _ = Ok _ |- _ => apply inner_type_size_nonneg in H end.
  eexists. split; [done|]. lia.
Qed.

(** The sum of the field sizes is part of the size of a tuple. *)
Lemma fields_size_Ok (m : BTreeMap TypeSignature) (acc s : Z) :
  try_fold (fun acc '(name, type_signature) =>
      let? s := TypeSignature_size type_signature in
      let? acc := add32 acc s in
      add32 acc (str_len name)) acc m = Ok s ->
  exists sizes, Forall2 (fun e n => inner_size (snd e) = Ok n) m sizes /\
    s = acc + fold_right Z.add 0 sizes + fold_right Z.add 0 (map (fun e => str_len (fst e)) m).
Proof.
  revert acc. induction m as [|[k t] m IH]; intros acc H; simpl in H.
  - injection H as <-. exists []. split; [constructor|]. simpl. lia.
  - apply out_bind_Ok in H as (acc' & Hacc & H). unfold TypeSignature_size in Hacc. out_inv.
    rewrite add32_Ok in *. destruct (IH _ H) as (sizes & Hf & ->).
    eexists (_ :: sizes). split; [by constructor|]. simpl. lia.
Qed.

Lemma str_len_nonneg (s : string) : 0 <= str_len s.
Proof. unfold str_len. lia. Qed.

Lemma sum_nonneg {A : Type} (f : A -> Z) (l : list A) :
  (forall x, 0 <= f x) -> 0 <= fold_right Z.add 0 (map f l).
Proof. intros Hf. induction l as [|x l IH]; simpl; [lia|]. specialize (Hf x). lia. Qed.

Lemma tuple_type_size_ge (m : BTreeMap TypeSignature) (s : Z) :
  TupleTypeSignature_type_size inner_type_size (mkTupleType m) = Ok s -> 2 * zlen m <= s.
Proof.
  unfold TupleTypeSignature_type_size, to_u32. cbn [type_map]. intros H. out_inv.
  rewrite mul32_Ok, checked_Some, at_most_max_Ok in *. destruct H as [-> _].
  match goal with H : try_fold _ _ _ = Ok _ |- _ => revert H end.
  apply (try_fold_inv _ (fun r => 2 * zlen m <= r)); [|unfold zlen; lia].
  intros b [k t] b' Hb H. out_inv. rewrite add32_Ok in *. pose proof (str_len_nonneg k).
  match goal with H : inner_type_size _ = Ok _ |- _ => apply inner_type_size_nonneg in H end. lia.
Qed.

Lemma tuple_size_Ok (m : BTreeMap TypeSignature) (s : Z) :
  TupleTypeSignature_inner_size TypeSignature_size (mkTupleType m) = Ok s ->
  exists sizes, Forall2 (fun e n => inner_size (snd e) = Ok n) m sizes /\
    4 * zlen m + fold_right Z.add 0 sizes + fold_right Z.add 0 (map (fun e => str_len (fst e)) m)
      <= s <= MAX_VALUE_SIZE.
Proof.
  unfold TupleTypeSignature_inner_size, to_u32. cbn [type_map]. intros H. out_inv.
  rewrite add32_Ok, mul32_Ok, checked_Some, at_most_max_Ok in *.
  match goal with H : TupleTypeSignature_type_size _ _ = Ok _ |- _ => apply tuple_type_size_ge in H end.
  match goal with H : try_fold _ _ _ = Ok _ |- _ => apply fields_size_Ok in H as (sizes & Hf & Hs) end.
  exists sizes. split; [done|]. unfold zlen in *. lia.
Qed.

Lemma wf_size_pos (t : TypeSignature) (n : Z) :
  TypeSignature_wf t = true -> inner_size t = Ok n -> 1 <= n.
Proof.
  revert n.
  induction t as [| | | |n|n t IH|[n|n]| |m IH|t IH|t s IHt IHs|t] using TypeSignature_ind'; intros r;
    try (cbn [inner_size TypeSignature_wf]; intros Hwf [= <-]; unfold as_u32; unfold_sizes; div_lia).
  - rewrite wf_list. intros (Hn & Ht & _) Hr. apply list_size_Ok in Hr as (e & He & Hr).
    specialize (IH _ Ht He). nia.
  - rewrite wf_tuple. intros (_ & Hf & sig & Hsig) Hr.
    apply try_from_map_Ok in Hsig as (_ & Hne & _). apply tuple_size_Ok in Hr as (sizes & Hs & Hr).
    pose proof (sum_nonneg (fun e : string * TypeSignature => str_len (fst e)) m
      (fun e => str_len_nonneg (fst e))).
    assert (0 <= fold_right Z.add 0 sizes).
    { clear Hr Hne H. induction Hs as [|e k m sizes He Hs IHs]; [done|].
      rewrite List.Forall_cons_iff in *. simpl. destruct IH as [IHe IH], Hf as [[_ Hfe] Hf].
      specialize (IHe _ Hfe He). specialize (IHs IH Hf). lia. }
    destruct m; [done|]. unfold zlen in Hr. cbn [length] in Hr. lia.
  - rewrite wf_option. intros (Ht & _) Hr. cbn [inner_size] in Hr. out_inv.
    rewrite add32_Ok in *. specialize (IH _ Ht ltac:(eassumption)). unfold_sizes. lia.
  - rewrite wf_response. intros (Ht & Hs & _) Hr. cbn [inner_size] in Hr. out_inv.
    rewrite add32_Ok in *. specialize (IHt _ Ht ltac:(eassumption)). unfold_sizes. lia.
Qed.

Lemma sizes_nonneg (m : BTreeMap TypeSignature) (sizes : list Z) :
  Forall (fun e => ClarityName_valid (fst e) = true /\ TypeSignature_wf (snd e) = true) m ->
  Forall2 (fun e n => inner_size (snd e) = Ok n) m sizes -> 0 <= fold_right Z.add 0 sizes.
Proof.
  intros Hf Hs. induction Hs as [|e n m sizes He _ IH]; [done|].
  rewrite List.Forall_cons_iff in Hf. destruct Hf as [[_ Hwf] Hf].
  pose proof (wf_size_pos _ _ Hwf He). specialize (IH Hf). simpl. lia.
Qed.

(** * Types of deserialized values *)
(** The type of a value that was deserialized at type [t]: lists and tuples
    carry exactly the expected type, buffers and strings their own length. *)
Fixpoint fits (t t' : TypeSignature) : Prop :=
  match t with
  | NoType => False
  | SequenceType (BufferType n) => exists m, t' = SequenceType (BufferType m) /\ 0 <= m <= n
  | SequenceType (StringType (ASCII n)) =>
      exists m, t' = SequenceType (StringType (ASCII m)) /\ 0 <= m <= n
  | SequenceType (StringType (UTF8 n)) =>
      exists m, t' = SequenceType (StringType (UTF8 m)) /\ 0 <= m <= n
  | OptionalType t => t' = OptionalType NoType \/ exists s, t' = OptionalType s /\ fits t s
  | ResponseType t s =>
      (exists a, t' = ResponseType a NoType /\ fits t a) \/ (exists b, t' = ResponseType NoType b /\ fits s b)
  | _ => t' = t
  end.

(** What such a type has in common with [t]. *)
Record fits_facts (t t' : TypeSignature) : Prop := {
  ff_wf : TypeSignature_wf t' = true;
  ff_value : value_type t' = true;
  ff_admits : forall E, admits_type (E:=E) t t' = Ok true;
  ff_depth : TypeSignature_depth t' <= TypeSignature_depth t;
  ff_size : exists n n', inner_size t = Ok n /\ inner_size t' = Ok n' /\ n' <= n
}.

Lemma fits_refl_facts (t : TypeSignature) :
  TypeSignature_wf t = true -> declared_type t = true -> fits_facts t t.
Proof.
  intros Hwf Hd. pose proof (declared_value_type _ Hwf Hd) as Hv. destruct (wf_size t Hwf) as (n & Hn & _).
  constructor; [done|done| |lia|exists n, n; split_and!; [done|done|lia]].
  intros E. by apply (admits_type_refl (E:=E)).
Qed.

(** The components of an accepted optional or response leave room for the wrapper. *)
Lemma wf_option_room (t : TypeSignature) :
  TypeSignature_wf (OptionalType t) = true ->
  TypeSignature_depth (OptionalType t) = TypeSignature_depth t + 1 /\ TypeSignature_depth t + 1 <= MAX_TYPE_DEPTH /\
  exists n, inner_size t = Ok n /\ 1 <= n /\ n + WRAPPER_VALUE_SIZE <= MAX_VALUE_SIZE /\
            inner_size (OptionalType t) = Ok (n + WRAPPER_VALUE_SIZE).
Proof.
  intros Hwf. apply wf_option in Hwf as [Ht (r & (_ & Hd & n & Hn & Hs)%new_option_Ok)].
  pose proof (wf_depth t Ht). cbn [TypeSignature_depth inner_size]. rewrite Hn. cbn [expect out_bind].
  rewrite depth_step in * by done. split_and!; [lia|lia|]. exists n.
  destruct (wf_size t Ht) as (n' & Hn' & Hr). rewrite Hn in Hn'. injection Hn' as <-.
  unfold as_u32 in Hs. rewrite Z.mod_small in Hs by (unfold_sizes; lia).
  split_and!; [done|by eapply wf_size_pos|lia|]. apply add32_Ok. unfold_bounds. unfold_sizes. lia.
Qed.

Lemma wf_response_room (t s : TypeSignature) :
  TypeSignature_wf (ResponseType t s) = true ->
  TypeSignature_depth (ResponseType t s) = Z.max (TypeSignature_depth t) (TypeSignature_depth s) + 1 /\
  Z.max (TypeSignature_depth t) (TypeSignature_depth s) + 1 <= MAX_TYPE_DEPTH /\
  exists n m, inner_size t = Ok n /\ inner_size s = Ok m /\ 1 <= n /\ 1 <= m /\
            Z.max n m + WRAPPER_VALUE_SIZE <= MAX_VALUE_SIZE /\
            inner_size (ResponseType t s) = Ok (Z.max n m + WRAPPER_VALUE_SIZE).
Proof.
  intros Hwf. apply wf_response in Hwf as (Ht & Hs & r & (_ & Hd & n & m & Hn & Hm & Hsz)%new_response_Ok).
  pose proof (wf_depth t Ht). pose proof (wf_depth s Hs).
  cbn [TypeSignature_depth inner_size]. rewrite Hn, Hm. cbn [expect out_bind].
  rewrite depth_step in * by lia. split_and!; [lia|lia|]. exists n, m.
  destruct (wf_size t Ht) as (n' & Hn' & Hr). rewrite Hn in Hn'. injection Hn' as <-.
  destruct (wf_size s Hs) as (m' & Hm' & Hr'). rewrite Hm in Hm'. injection Hm' as <-.
  unfold as_u32 in Hsz. rewrite Z.mod_small in Hsz by (unfold_sizes; lia).
  split_and!; [done|done|by apply (wf_size_pos t)|by apply (wf_size_pos s)|lia|].
  apply add32_Ok. unfold_bounds. unfold_sizes. lia.
Qed.

Lemma value_type_ne (t : TypeSignature) : value_type t = true -> t <> NoType.
Proof. by intros H ->. Qed.

Lemma fits_option_facts (t s : TypeSignature) :
  TypeSignature_wf (OptionalType t) = true -> fits_facts t s -> fits_facts (OptionalType t) (OptionalType s).
Proof.
  intros Hwf [Hws Hvs Has Hds (n0 & n' & Hn0 & Hn' & Hle)].
  destruct (wf_option_room t Hwf) as (Hd & Hd' & n & Hn & Hpos & Hmax & Hsz).
  rewrite Hn in Hn0. injection Hn0 as <-.
  assert (new_option s = Ok (OptionalType s)) as Hos.
  { apply (new_option_ok s n'); [done|done|lia|lia]. }
  assert (TypeSignature_wf (OptionalType s) = true) as Hwos by (apply wf_option; eauto).
  destruct (wf_option_room s Hwos) as (Hds' & _ & k & Hk & _ & _ & Hsz').
  rewrite Hn' in Hk. injection Hk as <-.
  constructor; [done| | |lia|].
  - apply value_type_option. auto.
  - intros E. apply (option_admits_true (E:=E)). right. split; [by apply value_type_ne|apply Has].
  - do 2 eexists. split_and!; [done|done|lia].
Qed.

Lemma fits_none_facts (t : TypeSignature) :
  TypeSignature_wf (OptionalType t) = true -> fits_facts (OptionalType t) (OptionalType NoType).
Proof.
  intros Hwf. destruct (wf_option_room t Hwf) as (Hd & Hd' & n & Hn & Hpos & Hmax & Hsz).
  assert (TypeSignature_wf t = true) as Ht by (by apply wf_option in Hwf as [? _]).
  pose proof (wf_depth t Ht).
  constructor; [done|done|done|cbn [TypeSignature_depth] in *|].
  - change (as_u8 (1 + 1)) with 2. lia.
  - exists (n + WRAPPER_VALUE_SIZE), 2. split_and!; [done|done|unfold_sizes; lia].
Qed.

Lemma fits_response_facts (c : bool) (t s a : TypeSignature) :
  TypeSignature_wf (ResponseType t s) = true -> fits_facts (if c then t else s) a ->
  fits_facts (ResponseType t s) (if c then ResponseType a NoType else ResponseType NoType a).
Proof.
  intros Hwf [Hwa Hva Haa Hda (n0 & n' & Hn0 & Hn' & Hle)].
  destruct (wf_response_room t s Hwf) as (Hd & Hd' & n & m & Hn & Hm & Hpn & Hpm & Hmax & Hsz).
  pose proof (wf_depth a Hwa). pose proof (wf_size_pos a n' Hwa Hn').
  assert (n0 = if c then n else m) as Hn0' by (destruct c; congruence).
  assert (TypeSignature_depth a <= Z.max (TypeSignature_depth t) (TypeSignature_depth s)) as Hdm
    by (destruct c; lia).
  assert (n' <= Z.max n m) as Hnm by (destruct c; lia). clear Hn0 Hn0' Hle Hda.
  pose proof (value_type_ne a Hva) as Hne.
  assert (forall r, r = (if c then ResponseType a NoType else ResponseType NoType a) ->
    TypeSignature_wf r = true) as Hwr.
  { intros r ->. destruct c; apply wf_response; split_and!; try done; eexists.
    - apply (new_response_ok a NoType n' 1); try done; cbn; lia.
    - apply (new_response_ok NoType a 1 n'); try done; cbn; lia. }
  specialize (Hwr _ eq_refl). constructor; [done| | | |].
  - destruct c; apply value_type_response; auto.
  - intros E. destruct c; apply (response_admits_intro (E:=E)).
    + intros _. apply Haa.
    + by intros [].
    + by left.
    + by intros [].
    + intros _. apply Haa.
    + by right.
  - rewrite Hd. destruct c; destruct (wf_response_room _ _ Hwr) as (-> & _);
      change (TypeSignature_depth NoType) with 1; lia.
  - destruct c; destruct (wf_response_room _ _ Hwr) as (_ & _ & x & y & Hx & Hy & _ & _ & _ & Hxy);
      change (inner_size NoType) with (@Ok unit Z 1) in *; rewrite Hn' in *; simplify_eq;
      do 2 eexists; (split_and!; [exact Hsz|exact Hxy|]); lia.
Qed.

Lemma fits_ok (t t' : TypeSignature) :
  TypeSignature_wf t = true -> declared_type t = true -> fits t t' -> fits_facts t t'.
Proof.
  revert t'.
  induction t as [| | | |n|n t IH|[n|n]| |m IH|t IH|t s IHt IHs|t] using TypeSignature_ind';
    intros t' Hwf Hd Hf; cbn [fits] in Hf;
    try (subst t'; by apply fits_refl_facts); try done.
  1-3: destruct Hf as (k & -> & Hk); cbn [TypeSignature_wf] in Hwf;
    (constructor; [cbn [TypeSignature_wf]; lia|done| |done|]);
    [intros E; cbn [admits_type]; f_equal; lia|];
    do 2 eexists; (split_and!; [done|done|]); unfold as_u32; unfold_sizes; div_lia.
  - destruct Hf as [->|(s & -> & Hs)]; [by apply fits_none_facts|].
    apply fits_option_facts; [done|]. apply IH; [by apply wf_option in Hwf as [? _]|done|done].
  - cbn [declared_type] in Hd. apply andb_true_iff in Hd as [Hdt Hds].
    pose proof (proj1 (wf_response t s) Hwf) as (Ht & Hs & _).
    destruct Hf as [(a & -> & Ha)|(b & -> & Hb)].
    + apply (fits_response_facts true t s a); auto.
    + apply (fits_response_facts false t s b); auto.
Qed.

(** * Writing a well-formed value *)
Lemma write_all_Ok {E A : Type} (f : A -> outcome E (list byte)) (l : list A) (bs : list byte) :
  write_all f l = Ok bs <-> exists parts, Forall2 (fun x p => f x = Ok p) l parts /\ bs = concat parts.
Proof.
  unfold write_all. rewrite out_bind_Ok. setoid_rewrite try_map_Ok. naive_solver.
Qed.

Lemma name_serialize_Ok (s : string) :
  ClarityName_valid s = true \/ ContractName_valid s = true ->
  name_serialize_write s = Ok (to_be_bytes 1 (str_len s) ++ as_bytes s).
Proof.
  intros Hv. unfold name_serialize_write. pose proof (str_len_nonneg s).
  assert (str_len s <= MAX_STRING_LEN) as Hl.
  { unfold ClarityName_valid, ContractName_valid in Hv. rewrite !andb_true_iff, !Z.leb_le in Hv. tauto. }
  rewrite checked_ok by (unfold MAX_STRING_LEN in Hl; int_lia). done.
Qed.

Lemma zlen_app {A : Type} (l k : list A) : zlen (l ++ k) = zlen l + zlen k.
Proof. unfold zlen. rewrite length_app. lia. Qed.

Lemma zlen_concat {A : Type} (ls : list (list A)) : zlen (concat ls) = fold_right Z.add 0 (map zlen ls).
Proof. induction ls as [|l ls IH]; [done|]. simpl. by rewrite zlen_app, IH. Qed.

Lemma zlen_be_bytes (n : nat) (z : Z) : zlen (to_be_bytes n z) = Z.of_nat n.
Proof. unfold zlen. by rewrite length_to_be_bytes. Qed.

Lemma zlen_as_bytes (s : string) : zlen (as_bytes s) = str_len s.
Proof. apply length_as_bytes. Qed.

Lemma zlen_cons {A : Type} (x : A) (l : list A) : zlen (x :: l) = 1 + zlen l.
Proof. unfold zlen. cbn [length]. lia. Qed.

Lemma zlen_nonneg {A : Type} (l : list A) : 0 <= zlen l.
Proof. unfold zlen. lia. Qed.

(** Lengths of concatenations of written pieces. *)
Ltac zlen_norm := rewrite ?zlen_app, ?zlen_cons, ?zlen_be_bytes, ?zlen_as_bytes, ?zlen_concat in *.

(** A type that admits an atomic type is that type. *)
Lemma admits_atom_inv {E : Type} (t a : TypeSignature) :
  admits_type (E:=E) t a = Ok true ->
  match a with IntType | UIntType | BoolType | PrincipalType => t = a | _ => True end.
Proof.
  intros H. destruct a; try done; destruct t as [| | | |[|[]|[]]| |[]| | |]; try done;
    cbn [admits_type] in H; injection H as H; by apply bool_decide_eq_true in H.
Qed.

Lemma utf8_char_len (c : list byte) : is_utf8_char c = true -> 0 <= zlen c <= 4.
Proof.
  unfold is_utf8_char. destruct (utf8_chars c) as [[|z []]|] eqn:Hc; try done. intros _.
  apply encode_utf8_chars in Hc as [_ Hc]. simpl in Hc. rewrite app_nil_r in Hc. subst c.
  unfold zlen. rewrite length_encode_utf8. unfold len_utf8. repeat case_match; lia.
Qed.

Lemma utf8_total_len (d : list (list byte)) (acc : Z) :
  forallb is_utf8_char d = true -> 0 <= acc -> acc + 4 * zlen d <= u32_max ->
  fold_left (fun len c => as_u32 (len + as_u32 (zlen c))) d acc = acc + zlen (concat d) /\
  zlen (concat d) <= 4 * zlen d.
Proof.
  revert acc. induction d as [|c d IH]; intros acc Hd Hacc Hmax; cbn [fold_left concat forallb] in *.
  { unfold zlen. simpl. lia. }
  apply andb_true_iff in Hd as [Hc%utf8_char_len Hd].
  rewrite zlen_cons in *. pose proof (zlen_nonneg d).
  assert (as_u32 (acc + as_u32 (zlen c)) = acc + zlen c) as ->.
  { unfold as_u32. rewrite (Z.mod_small (zlen c)) by int_lia. rewrite Z.mod_small by int_lia. done. }
  specialize (IH (acc + zlen c) Hd). rewrite zlen_app. lia.
Qed.

(** * Shapes of admitting types *)
Section shapes.
Context {E : Type}.
Notation adm := (admits_type (E:=E)).

Ltac shape t H :=
  destruct t as [| | | |[?|[? ?]|[?|?]]| |[?]| | |]; try done;
  try (cbn [admits_type] in H; injection H as H; by apply bool_decide_eq_true in H).

Lemma admits_buffer_inv (t : TypeSignature) (k : Z) :
  adm t (SequenceType (BufferType k)) = Ok true -> exists n, t = SequenceType (BufferType n) /\ k <= n.
Proof. intros H. shape t H. cbn [admits_type] in H. injection H as H%Z.leb_le. eauto. Qed.

Lemma admits_ascii_inv (t : TypeSignature) (k : Z) :
  adm t (SequenceType (StringType (ASCII k))) = Ok true ->
  exists n, t = SequenceType (StringType (ASCII n)) /\ k <= n.
Proof. intros H. shape t H. cbn [admits_type] in H. injection H as H%Z.leb_le. eauto. Qed.

Lemma admits_utf8_inv (t : TypeSignature) (k : Z) :
  adm t (SequenceType (StringType (UTF8 k))) = Ok true ->
  exists n, t = SequenceType (StringType (UTF8 n)) /\ k <= n.
Proof. intros H. shape t H. cbn [admits_type] in H. injection H as H%Z.leb_le. eauto. Qed.

Lemma admits_list_inv (t e0 : TypeSignature) (n0 : Z) :
  adm t (SequenceType (ListType (mkListType n0 e0))) = Ok true ->
  exists n e, t = SequenceType (ListType (mkListType n e)) /\
    (n0 = 0 \/ n0 <> 0 /\ n0 <= n /\ adm e e0 = Ok true).
Proof. intros H. shape t H. do 2 eexists. split; [done|]. by apply (list_admits_true (E:=E)). Qed.

Lemma admits_tuple_inv (t : TypeSignature) (m0 : BTreeMap TypeSignature) :
  adm t (TupleType (mkTupleType m0)) = Ok true ->
  exists m, t = TupleType (mkTupleType m) /\ length m = length m0 /\
    Forall (fun e => exists s, bt_get (fst e) m0 = Some s /\ adm (snd e) s = Ok true) m.
Proof. intros H. shape t H. eexists. split; [done|]. by apply (tuple_admits_true (E:=E)). Qed.

Lemma admits_option_inv (t s : TypeSignature) :
  adm t (OptionalType s) = Ok true ->
  exists t', t = OptionalType t' /\ (s = NoType \/ s <> NoType /\ adm t' s = Ok true).
Proof. intros H. shape t H. eexists. split; [done|]. by apply (option_admits_true (E:=E)). Qed.

Lemma admits_response_inv (t s1 s2 : TypeSignature) :
  adm t (ResponseType s1 s2) = Ok true ->
  exists t1 t2, t = ResponseType t1 t2 /\
    (s1 <> NoType -> adm t1 s1 = Ok true) /\ (s2 <> NoType -> adm t2 s2 = Ok true).
Proof. intros H. shape t H. do 2 eexists. split; [done|]. by apply (response_admits_elim (E:=E)). Qed.

Lemma admits_response_side (c : bool) (t s : TypeSignature) :
  s <> NoType -> adm t (if c then ResponseType s NoType else ResponseType NoType s) = Ok true ->
  exists t1 t2, t = ResponseType t1 t2 /\ adm (if c then t1 else t2) s = Ok true.
Proof.
  intros Hs H. destruct c; apply admits_response_inv in H as (t1 & t2 & -> & H1 & H2); eauto.
Qed.
End shapes.

(** A tuple type that admits another has the same keys. *)
Lemma admits_tuple_keys {E : Type} (m m0 : BTreeMap TypeSignature) :
  bt_sorted m -> bt_sorted m0 -> length m = length m0 ->
  Forall (fun e => exists s, bt_get (fst e) m0 = Some s /\ admits_type (E:=E) (snd e) s = Ok true) m ->
  map fst m = map fst m0.
Proof.
  intros Hs Hs0 Hlen Hf. apply (sorted_incl_eq (map fst m) (map fst m0)); [done|done| |by rewrite !length_map].
  intros k Hk. apply in_map_iff in Hk as (e & <- & He).
  rewrite List.Forall_forall in Hf. destruct (Hf e He) as (s & Hg & _).
  apply bt_get_In in Hg. by apply (in_map fst) in Hg.
Qed.

(** * Size of a serialization *)
(** The bytes of [v] are at most twice the size of any type that admits it. *)
Definition serializes_within (v : Value) (t : TypeSignature) : Prop :=
  exists bs n, serialize_write v = Ok bs /\ inner_size t = Ok n /\ zlen bs <= 2 * Z.min n MAX_VALUE_SIZE.

Lemma prefix_body (v : Value) (body : list byte) :
  zlen (prefix_byte (TypePrefix_from_value v) ++ body) = 1 + zlen body.
Proof. done || (unfold prefix_byte; by rewrite zlen_app). Qed.

Lemma items_within (l : list Value) (e : TypeSignature) (n : Z) :
  inner_size e = Ok n -> Forall (fun v => serializes_within v e) l ->
  exists bs, write_all serialize_write l = Ok bs /\ zlen bs <= 2 * n * zlen l.
Proof.
  intros Hn Hl.
  induction Hl as [|v l (b & n' & Hb & Hn' & Hlen) _ (bs & Hbs & Hbound)].
  { exists []. split; [done|]. unfold zlen. simpl. lia. }
  rewrite Hn in Hn'. injection Hn' as <-. apply write_all_Ok in Hbs as (parts & Hp & ->).
  exists (concat (b :: parts)). split.
  - apply write_all_Ok. eexists. split; [by constructor|done].
  - cbn [concat]. zlen_norm. lia.
Qed.

Definition write_field (e : string * Value) : outcome io_error (list byte) :=
  let '(key, value) := e in
  let? k := name_serialize_write key in
  let? v := serialize_write value in
  Ok (k ++ v).

Lemma fields_within (m : BTreeMap Value) (tm : BTreeMap TypeSignature) (sizes : list Z) :
  Forall2 (fun e t => fst e = fst t /\ ClarityName_valid (fst t) = true /\ serializes_within (snd e) (snd t)) m tm ->
  Forall2 (fun e n => inner_size (snd e) = Ok n) tm sizes ->
  exists bs, write_all write_field m = Ok bs /\
    zlen bs <= zlen tm + fold_right Z.add 0 (map (fun e => str_len (fst e)) tm) + 2 * fold_right Z.add 0 sizes.
Proof.
  intros Hm. revert sizes.
  induction Hm as [|[k v] [k' t] m tm (Hk & Hname & b & n & Hb & Hn & Hlen) _ IH]; intros sizes Hs.
  { exists []. split; [done|]. inversion Hs. done. }
  inversion Hs as [|? n' ? sizes' Hn' Hs']; subst. simpl in *. subst k'.
  rewrite Hn in Hn'. injection Hn' as <-.
  destruct (IH _ Hs') as (bs & Hbs & Hbound). apply write_all_Ok in Hbs as (parts & Hp & ->).
  exists (concat ((to_be_bytes 1 (str_len k) ++ as_bytes k ++ b) :: parts)). split.
  - apply write_all_Ok. eexists. split; [|done]. constructor; [|done]. cbn [write_field].
    rewrite name_serialize_Ok by auto. cbn [out_bind]. rewrite Hb. cbn [out_bind]. by rewrite <-app_assoc.
  - cbn [concat]. zlen_norm. lia.
Qed.

Lemma Forall2_of_keys {A B : Type} (P : string * A -> string * B -> Prop) (m : BTreeMap A) (n : BTreeMap B) :
  map fst m = map fst n -> bt_sorted n ->
  (forall k a b, In (k, a) m -> bt_get k n = Some b -> P (k, a) (k, b)) -> Forall2 P m n.
Proof.
  revert n. induction m as [|[k a] m IH]; intros [|[k' b] n] Hk Hs HP; try done.
  injection Hk as -> Hk. pose proof Hs as Hs0. apply bt_sorted_cons in Hs as [Hs Hlt]. constructor.
  - apply HP; [by left|]. simpl. by rewrite String.eqb_refl.
  - apply IH; [done|done|]. intros k a' b' Hin Hg. apply HP; [by right|]. simpl.
    destruct (String.eqb_spec k k') as [->|]; [|done].
    rewrite List.Forall_forall in Hlt. destruct (key_lt_irrefl k'). apply Hlt.
    rewrite <-Hk. by apply (in_map fst) in Hin.
Qed.

(** What a well-formed tuple value knows of each of its fields, at a type that admits it. *)
Lemma tuple_fields (ty : TupleTypeSignature) (vals : BTreeMap Value) (t : TypeSignature) :
  Value_wf (VTuple (mkTupleData ty vals)) = true -> TypeSignature_wf t = true ->
  admits_type (E:=VmError) t (TupleType ty) = Ok true ->
  exists m, t = TupleType (mkTupleType m) /\ bt_sorted m /\ map fst vals = map fst m /\
    Forall (fun e => ClarityName_valid (fst e) = true /\ TypeSignature_wf (snd e) = true) m /\
    Forall2 (fun e s => fst e = fst s /\ Value_wf (snd e) = true /\
      exists tv, (forall E, type_of (E:=E) (snd e) = Ok tv) /\
                 admits_type (E:=VmError) (snd s) tv = Ok true) vals m.
Proof.
  intros Hv Ht Hadm. destruct ty as [tys]. apply Value_wf_tuple in Hv as (Hwty & Hvty & Hkeys & Hvals).
  cbn [type_map] in *. destruct (admits_tuple_inv t tys Hadm) as (m & -> & Hlen & Hm).
  apply wf_tuple in Ht as (Hsm%bt_sortedb_iff & Hf & _). apply wf_tuple in Hwty as (Hsty%bt_sortedb_iff & _).
  assert (map fst m = map fst tys) as Hkm by (by eapply admits_tuple_keys).
  assert (map fst vals = map fst m) as Hk by congruence.
  exists m. split_and!; [done|done|done|done|].
  apply Forall2_of_keys; [done|done|]. intros k v s Hin Hg. simpl.
  rewrite List.Forall_forall in Hvals, Hm. destruct (Hvals _ Hin) as (Hwv & s0 & Hg0 & Ha0). simpl in *.
  destruct (type_of_wf v Hwv) as (tv & Htv & _ & Hvt). split_and!; [done|done|].
  exists tv. split; [done|]. unfold admits in Ha0. rewrite Htv in Ha0. cbn [out_bind] in Ha0.
  destruct (Hm (k, s) (bt_get_In _ _ _ Hg)) as (s1 & Hg1 & Ha1). simpl in *.
  rewrite Hg0 in Hg1. injection Hg1 as <-. by apply (admits_trans (E:=VmError) s s0 tv).
Qed.

(** The serializer runs field by field. *)
Lemma serialize_tuple (ty : TupleTypeSignature) (vals : BTreeMap Value) (fields : list byte) :
  zlen vals <= u32_max -> write_all write_field vals = Ok fields ->
  serialize_write (VTuple (mkTupleData ty vals)) = Ok (prefix_byte TP_Tuple ++ u32_be_bytes (zlen vals) ++ fields).
Proof.
  intros Hlen Hf. cbn [serialize_write td_data_map TypePrefix_from_value].
  pose proof (zlen_nonneg vals). rewrite checked_ok by int_lia. cbn [expect_some out_bind].
  change (write_all _ vals) with (write_all write_field vals) at 1.
  by rewrite Hf.
Qed.

Lemma serialize_list (ty : ListTypeData) (l : list Value) (items : list byte) :
  zlen l <= u32_max -> write_all serialize_write l = Ok items ->
  serialize_write (VSequence (SeqList (mkListData l ty))) =
  Ok (prefix_byte TP_List ++ u32_be_bytes (zlen l) ++ items).
Proof.
  intros Hlen Hf. cbn [serialize_write ld_data TypePrefix_from_value].
  pose proof (zlen_nonneg l). rewrite checked_ok by int_lia. cbn [expect_some out_bind]. by rewrite Hf.
Qed.

Lemma option_type_of (v : Value) (t : TypeSignature) :
  Value_wf (VOptional (Some v)) = true -> (forall E, type_of (E:=E) (VOptional (Some v)) = Ok t) ->
  exists s, t = OptionalType s /\ s <> NoType /\ Value_wf v = true /\ (forall E, type_of (E:=E) v = Ok s).
Proof.
  intros Hwf Ht. cbn [Value_wf] in Hwf. apply andb_true_iff in Hwf as [Hv _].
  destruct (type_of_wf v Hv) as (s & Hs & Hws & Hvs). specialize (Ht VmError). cbn [type_of] in Ht.
  rewrite Hs in Ht. cbn [out_bind] in Ht. unfold OptionalData_type_signature in Ht. out_inv.
  match goal with H : new_option _ = Ok _ |- _ => apply new_option_Ok in H as [-> _] end.
  exists s. split_and!; [done|by apply value_type_ne|done|done].
Qed.

Lemma response_type_of (c : bool) (v : Value) (t : TypeSignature) :
  Value_wf (VResponse c v) = true -> (forall E, type_of (E:=E) (VResponse c v) = Ok t) ->
  exists s, t = (if c then ResponseType s NoType else ResponseType NoType s) /\ s <> NoType /\
    Value_wf v = true /\ (forall E, type_of (E:=E) v = Ok s).
Proof.
  intros Hwf Ht. cbn [Value_wf] in Hwf. apply andb_true_iff in Hwf as [Hv _].
  destruct (type_of_wf v Hv) as (s & Hs & Hws & Hvs). specialize (Ht VmError). cbn [type_of] in Ht.
  rewrite Hs in Ht. cbn [out_bind] in Ht. unfold ResponseData_type_signature in Ht.
  exists s. split_and!; [|by apply value_type_ne|done|done].
  destruct c; out_inv;
    match goal with H : new_response _ _ = Ok _ |- _ => by apply new_response_Ok in H as [-> _] end.
Qed.

(** The cases of [serialize_within]. *)
Lemma within_buffer (d : list byte) (t tv : TypeSignature) (v : Value) :
  v = VSequence (SeqBuffer d) \/ v = VSequence (SeqString (CharASCII d)) ->
  zlen d <= MAX_VALUE_SIZE -> TypeSignature_wf t = true -> type_of (E:=VmError) v = Ok tv ->
  admits_type (E:=VmError) t tv = Ok true -> serializes_within v t.
Proof.
  intros Hcase Hd Ht Htv Hadm. pose proof (zlen_nonneg d).
  assert (forall E, expect (F:=E) (BufferLength_try_from (zlen d)) = Ok (zlen d)) as Hlen.
  { intros E. unfold BufferLength_try_from. by rewrite (proj2 (Z.ltb_ge _ _)). }
  unfold serializes_within.
  destruct Hcase as [-> | ->]; cbn [type_of serialize_write] in *; rewrite Hlen in *; injection Htv as <-;
    [apply admits_buffer_inv in Hadm as (k & -> & Hk) | apply admits_ascii_inv in Hadm as (k & -> & Hk)];
    cbn [TypeSignature_wf] in Ht;
    (do 2 eexists; split_and!; [done|done|]; rewrite prefix_body; unfold u32_be_bytes; zlen_norm;
     unfold as_u32; unfold_sizes; div_lia).
Qed.

Lemma utf8_type_of {E : Type} (d : list (list byte)) :
  4 * zlen d <= MAX_VALUE_SIZE ->
  type_of (E:=E) (VSequence (SeqString (CharUTF8 d))) = Ok (SequenceType (StringType (UTF8 (zlen d)))).
Proof.
  intros Hd. pose proof (zlen_nonneg d). cbn [type_of]. unfold StringUTF8Length_try_from.
  rewrite (proj2 (checked_mul_Some _ _ _ (zlen d * 4))) by (unfold usize_ty; unfold_bounds; unfold_sizes; lia).
  cbn [ok_or out_bind]. by rewrite (proj2 (Z.ltb_ge _ _)) by lia.
Qed.

Lemma within_utf8 (d : list (list byte)) (t : TypeSignature) :
  4 * zlen d <= MAX_VALUE_SIZE -> forallb is_utf8_char d = true -> TypeSignature_wf t = true ->
  admits_type (E:=VmError) t (SequenceType (StringType (UTF8 (zlen d)))) = Ok true ->
  serializes_within (VSequence (SeqString (CharUTF8 d))) t.
Proof.
  intros Hd Hchars Ht Hadm. pose proof (zlen_nonneg d).
  apply admits_utf8_inv in Hadm as (k & -> & Hk). cbn [TypeSignature_wf] in Ht.
  destruct (utf8_total_len d 0 Hchars) as [_ Hlen]; [lia|unfold_bounds; unfold_sizes; lia|].
  do 2 eexists. split_and!; [done..|]. rewrite prefix_body. unfold u32_be_bytes.
  rewrite zlen_app, zlen_be_bytes. unfold as_u32. unfold_sizes. div_lia.
Qed.

Lemma within_principal (p : PrincipalData) :
  PrincipalData_wf p = true -> serializes_within (VPrincipal p) PrincipalType.
Proof.
  destruct p as [s|[s name]]; cbn [PrincipalData_wf]; unfold QualifiedContractIdentifier_wf,
    StandardPrincipalData_wf; cbn [issuer qc_name].
  - intros Hs%Nat.eqb_eq. do 2 eexists. split_and!; [done|done|]. rewrite prefix_body.
    unfold StandardPrincipalData_serialize_write. zlen_norm. unfold zlen. rewrite Hs. unfold_sizes. lia.
  - intros [Hs%Nat.eqb_eq Hname]%andb_true_iff. unfold serializes_within. cbn [serialize_write qc_name issuer].
    rewrite name_serialize_Ok by auto. cbn [out_bind].
    do 2 eexists. split_and!; [done|done|]. rewrite prefix_body.
    unfold StandardPrincipalData_serialize_write. zlen_norm. unfold zlen. rewrite Hs.
    unfold ContractName_valid, MAX_STRING_LEN in Hname. unfold_sizes. lia.
Qed.

Lemma within_list (l : list Value) (n0 : Z) (e0 t : TypeSignature) :
  Value_wf (VSequence (SeqList (mkListData l (mkListType n0 e0)))) = true -> TypeSignature_wf t = true ->
  (forall x e tx, In x l -> Value_wf x = true -> TypeSignature_wf e = true ->
     (forall E, type_of (E:=E) x = Ok tx) -> admits_type (E:=VmError) e tx = Ok true -> serializes_within x e) ->
  admits_type (E:=VmError) t (SequenceType (ListType (mkListType n0 e0))) = Ok true ->
  serializes_within (VSequence (SeqList (mkListData l (mkListType n0 e0)))) t.
Proof.
  intros Hv Ht IH Hadm. apply Value_wf_list in Hv as (_ & _ & Hlen & Hl). cbn [max_len entry_type] in *.
  destruct (admits_list_inv t e0 n0 Hadm) as (k & e & -> & Hcase).
  pose proof (proj1 (wf_list k e) Ht) as (Hk & He & lt & Hlt). apply new_list_Ok in Hlt as (-> & _ & s & Hs).
  destruct (list_size_Ok e k s Hs) as (ne & Hne & Hbound). pose proof (wf_size_pos e ne He Hne).
  pose proof (zlen_nonneg l). assert (zlen l <= k) as Hlk by lia.
  assert (Forall (fun v => serializes_within v e) l) as Hin.
  { rewrite List.Forall_forall in *. intros x Hx. destruct (Hl x Hx) as [Hwx Hax].
    destruct (type_of_wf x Hwx) as (tx & Htx & _ & Hvx). unfold admits in Hax. rewrite Htx in Hax.
    eapply (IH x e tx Hx); try done.
    destruct Hcase as [->|(_ & _ & Hee)]; [|by apply (admits_trans (E:=VmError) e e0 tx)].
    destruct l; [done|]. unfold zlen in Hlen. simpl in Hlen. lia. }
  destruct (items_within l e ne Hne Hin) as (items & Hitems & Hil).
  exists (prefix_byte TP_List ++ u32_be_bytes (zlen l) ++ items), s. split_and!; [|done|].
  - apply serialize_list; [lia|done].
  - rewrite (prefix_body (VSequence (SeqList (mkListData l (mkListType n0 e0))))).
    unfold u32_be_bytes. zlen_norm. nia.
Qed.

Lemma within_tuple (ty : TupleTypeSignature) (m : BTreeMap Value) (t : TypeSignature) :
  Value_wf (VTuple (mkTupleData ty m)) = true -> TypeSignature_wf t = true ->
  (forall k x e tx, In (k, x) m -> Value_wf x = true -> TypeSignature_wf e = true ->
     (forall E, type_of (E:=E) x = Ok tx) -> admits_type (E:=VmError) e tx = Ok true -> serializes_within x e) ->
  admits_type (E:=VmError) t (TupleType ty) = Ok true ->
  serializes_within (VTuple (mkTupleData ty m)) t.
Proof.
  intros Hv Ht IH Hadm. destruct (tuple_fields ty m t Hv Ht Hadm) as (tm & -> & Hs & Hk & Hf & Hfields).
  apply wf_tuple in Ht as (_ & _ & sig & (-> & Hne & _ & s & Hsz)%try_from_map_Ok).
  destruct (tuple_size_Ok tm s Hsz) as (sizes & Hsizes & Hbound).
  assert (Forall2 (fun e t => fst e = fst t /\ ClarityName_valid (fst t) = true /\
    serializes_within (snd e) (snd t)) m tm) as Hw.
  { assert (forall e, In e m -> forall e' tx, Value_wf (snd e) = true -> TypeSignature_wf e' = true ->
      (forall E, type_of (E:=E) (snd e) = Ok tx) -> admits_type (E:=VmError) e' tx = Ok true ->
      serializes_within (snd e) e') as IH' by (intros [k x]; simpl; eauto).
    clear - Hfields Hf IH'.
    induction Hfields as [|e f m tm (Hk & Hwe & tx & Htx & Ha) _ IHf]; constructor.
    - rewrite List.Forall_cons_iff in Hf. destruct Hf as [[Hn Hwf] _].
      split_and!; [done|done|]. by apply (IH' e (or_introl eq_refl) _ tx).
    - rewrite List.Forall_cons_iff in Hf. apply IHf; [apply Hf|]. intros e' Hin. apply IH'. by right. }
  destruct (fields_within m tm sizes Hw Hsizes) as (fields & Hwf & Hfl).
  assert (zlen m = zlen tm) as Hmt by (unfold zlen; rewrite <-(length_map fst m), Hk, length_map; done).
  assert (1 <= zlen tm) by (destruct tm; [done|]; rewrite zlen_cons; pose proof (zlen_nonneg tm); lia).
  pose proof (sum_nonneg (fun e : string * TypeSignature => str_len (fst e)) tm (fun e => str_len_nonneg (fst e))).
  pose proof (sizes_nonneg tm sizes Hf Hsizes).
  exists (prefix_byte TP_Tuple ++ u32_be_bytes (zlen m) ++ fields), s. split_and!; [|done|].
  - apply serialize_tuple; [unfold_bounds; unfold_sizes; lia|done].
  - rewrite (prefix_body (VTuple (mkTupleData ty m))). unfold u32_be_bytes. zlen_norm. lia.
Qed.

Lemma serialize_within (v : Value) (t tv : TypeSignature) :
  Value_wf v = true -> TypeSignature_wf t = true -> (forall E, type_of (E:=E) v = Ok tv) ->
  admits_type (E:=VmError) t tv = Ok true -> serializes_within v t.
Proof.
  revert t tv.
  induction v as [i|u|b|d|l ty IH|[d|d]|p|ty m IH| |v IH|c v IH] using Value_ind';
    intros t tv Hv Ht Htv Hadm; pose proof (Htv VmError) as Htv0;
    destruct (wf_size t Ht) as (n & Hn & _); pose proof (wf_size_pos t n Ht Hn) as Hpos.
  1-3: injection Htv0 as <-; apply admits_atom_inv in Hadm as ->; injection Hn as <-; do 2 eexists; split_and!; [done|done|];
    try destruct b; rewrite prefix_body; zlen_norm; unfold zlen; cbn [length]; unfold_sizes; lia.
  - cbn [Value_wf] in Hv. apply (within_buffer d t tv); auto. lia.
  - injection Htv0 as <-. destruct ty as [n0 e0]. apply within_list; [done|done| |done].
    intros x e tx Hin. rewrite List.Forall_forall in IH. by apply IH.
  - cbn [Value_wf] in Hv. apply andb_true_iff in Hv as [Hv%Z.leb_le Hchars].
    rewrite utf8_type_of in Htv0 by done. injection Htv0 as <-. by apply within_utf8.
  - cbn [Value_wf] in Hv. apply andb_true_iff in Hv as [Hv%Z.leb_le _]. apply (within_buffer d t tv); auto.
  - injection Htv0 as <-. apply admits_atom_inv in Hadm as ->. by apply within_principal.
  - injection Htv0 as <-. apply within_tuple; [done|done| |done].
    intros k x e tx Hin. rewrite List.Forall_forall in IH. apply (IH (k, x) Hin).
  - injection Htv0 as <-. exists (prefix_byte TP_OptionalNone), n. split_and!; [done..|].
    change (zlen _) with 1. unfold_sizes. lia.
  - destruct (option_type_of v tv Hv Htv) as (s & -> & Hne & Hwv & Hs).
    destruct (admits_option_inv t s Hadm) as (t' & -> & [->|[_ Ha]]); [done|].
    destruct (wf_option_room t' Ht) as (_ & _ & k & Hk & _ & Hmax & Hsz).
    destruct (IH t' s) as (bs & k' & Hbs & Hk' & Hle); [done|by apply wf_option in Ht as [? _]|done|done|].
    rewrite Hk in Hk'. injection Hk' as <-. unfold serializes_within. cbn [serialize_write]. rewrite Hbs.
    do 2 eexists. split_and!; [done|done|]. rewrite prefix_body. unfold_sizes. lia.
  - destruct (response_type_of c v tv Hv Htv) as (s & -> & Hne & Hwv & Hs).
    destruct (admits_response_side c t s Hne Hadm) as (t1 & t2 & -> & Ha).
    destruct (wf_response_room t1 t2 Ht) as (_ & _ & n1 & n2 & Hn1 & Hn2 & _ & _ & Hmax & Hsz).
    apply wf_response in Ht as (Ht1 & Ht2 & _).
    destruct (IH (if c then t1 else t2) s) as (bs & k' & Hbs & Hk' & Hle); [done|by destruct c|done|done|].
    unfold serializes_within. cbn [serialize_write]. rewrite Hbs.
    do 2 eexists. split_and!; [done|done|]. rewrite prefix_body. unfold_sizes.
    rewrite Hn in Hsz. injection Hsz as ->.
    destruct c; [rewrite Hn1 in Hk'|rewrite Hn2 in Hk']; injection Hk' as <-; lia.
Qed.

(** The bound the deserializer puts on its input is enough for every value. *)
Lemma serialize_bound (v : Value) :
  Value_wf v = true ->
  exists bs, serialize_write v = Ok bs /\ zlen bs <= BOUND_VALUE_SERIALIZATION_BYTES.
Proof.
  intros Hv. destruct (type_of_wf v Hv) as (t & Ht & Hwt & Hvt).
  destruct (serialize_within v t t Hv Hwt Ht) as (bs & n & Hbs & Hn & Hle);
    [by apply (admits_type_refl (E:=VmError))|].
  exists bs. split; [done|]. unfold BOUND_VALUE_SERIALIZATION_BYTES. lia.
Qed.
