(* ===== verification/Deserialization.v ===== *)
(** Deserialization: [Value::deserialize_read] inverts [Value::serialize_write]
    at every type that admits the value (clarity/src/vm/types/serialization.rs),
    for values nested at most 16 deep; deeper values are written but not read. *)
From Stdlib Require Import ZArith Lia Strings.Byte Strings.String List Bool.
From stdpp Require Import base decidable list strings option.
From S2P Require Import Prelude Bytes Utf8 Codec Representations BTree Types Signatures Admission Values.
From S2P Require Import Serialization RoundTrip.
Open Scope Z_scope.

(** How deep constructors are nested in a value. *)
Fixpoint value_nesting (v : Value) : nat :=
  match v with
  | VSequence (SeqList (mkListData l _)) => S (fold_right (fun v n => Nat.max (value_nesting v) n) O l)
  | VTuple (mkTupleData _ m) => S (fold_right (fun '(_, v) n => Nat.max (value_nesting v) n) O m)
  | VOptional (Some v) => S (value_nesting v)
  | VResponse _ v => S (value_nesting v)
  | _ => 1%nat
  end.

Lemma Forall2_impl_In {A B : Type} (P Q : A -> B -> Prop) (l : list A) (k : list B) :
  (forall x y, In x l -> In y k -> P x y -> Q x y) -> Forall2 P l k -> Forall2 Q l k.
Proof.
  intros HPQ H. induction H as [|x y l k Hxy _ IH]; constructor.
  - apply HPQ; simpl; auto.
  - apply IH. intros x' y' Hx Hy. apply HPQ; simpl; auto.
Qed.

Section parsing.
Context {R : Type} `{HL : ReaderLaws R}.

(** [f] consumes exactly the bytes [bs] and returns [x]. *)
Definition parses {A : Type} (f : R -> outcome SerializationError (A * R)) (bs : list byte) (x : A) : Prop :=
  forall r rest, rd_holds r (bs ++ rest) -> exists r', f r = Ok (x, r') /\ rd_holds r' rest.

Lemma parses_bind {A B : Type} (f : R -> outcome SerializationError (A * R))
    (k : A -> R -> outcome SerializationError (B * R)) (bs1 bs2 : list byte) (a : A) (b : B) :
  parses f bs1 a -> parses (k a) bs2 b ->
  parses (fun r => let? '(a, r) := f r in k a r) (bs1 ++ bs2) b.
Proof.
  intros Hf Hk r rest Hr. rewrite <-app_assoc in Hr.
  destruct (Hf r _ Hr) as (r1 & Hf1 & Hr1). destruct (Hk r1 _ Hr1) as (r2 & Hk2 & Hr2).
  exists r2. rewrite Hf1. split; done.
Qed.

Lemma parses_ret {A : Type} (x : A) : parses (fun r => Ok (x, r)) [] x.
Proof. intros r rest Hr. by exists r. Qed.

(** A step that does not read. *)
Lemma parses_pure {A B : Type} (m : outcome SerializationError A) (a : A)
    (k : A -> R -> outcome SerializationError (B * R)) (bs : list byte) (b : B) :
  m = Ok a -> parses (k a) bs b -> parses (fun r => let? a := m in k a r) bs b.
Proof. intros ->. done. Qed.

Lemma parses_rd (bs : list byte) (n : nat) :
  length bs = n -> Z.of_nat n <= u32_max -> parses (rd IOError n) bs bs.
Proof.
  intros Hn Hmax r rest Hr. destruct (rd_holds_app n r bs rest Hr Hn Hmax) as (r' & Hrd & Hr').
  exists r'. unfold rd. by rewrite Hrd.
Qed.

Lemma parses_times {A : Type} (f : R -> outcome SerializationError (A * R)) (parts : list (list byte)) (l : list A) :
  Forall2 (fun p x => parses f p x) parts l -> parses (read_times f (length l)) (concat parts) l.
Proof.
  induction 1 as [|p x parts l Hp _ IH]; [apply parses_ret|]. cbn [concat length read_times].
  eapply (parses_bind f (fun x r => let? '(l, r) := read_times f (length l) r in Ok (x :: l, r))); [done|].
  rewrite <-(app_nil_r (concat parts)).
  eapply (parses_bind (read_times f (length l)) (fun l r => Ok (x :: l, r))); [done|apply parses_ret].
Qed.

(** The prefix byte selects the branch. *)
Lemma parse_prefix {A : Type} (p : TypePrefix) (k : TypePrefix -> R -> outcome SerializationError (A * R))
    (msg : SerializationError) (bs : list byte) (x : A) :
  parses (k p) bs x ->
  parses (fun r => let? '(header, r) := rd IOError 1 r in
                   let? prefix := ok_or msg (TypePrefix_from_u8 (from_be_bytes header)) in k prefix r)
         (prefix_byte p ++ bs) x.
Proof.
  intros Hk.
  eapply (parses_bind _ (fun header r =>
    let? prefix := ok_or msg (TypePrefix_from_u8 (from_be_bytes header)) in k prefix r)).
  - by apply parses_rd.
  - eapply parses_pure; [|exact Hk]. by destruct p.
Qed.

Lemma parse_standard (s : StandardPrincipalData) :
  StandardPrincipalData_wf s = true ->
  parses StandardPrincipalData_deserialize_read (StandardPrincipalData_serialize_write s) s.
Proof.
  intros Hs%Nat.eqb_eq. unfold StandardPrincipalData_serialize_write.
  change (sp_version s :: sp_bytes s) with ([sp_version s] ++ sp_bytes s).
  eapply (parses_bind _ (fun version r => let? '(data, r) := rd IOError 20 r in
    let? v := expect_some (nth_error version 0) in Ok (mkStandard v data, r))); [by apply parses_rd|].
  rewrite <-(app_nil_r (sp_bytes s)).
  eapply (parses_bind _ (fun data r => Ok (mkStandard (sp_version s) data, r))); [by apply parses_rd|].
  destruct s. apply parses_ret.
Qed.

Lemma parse_name (try_from : string -> outcome RuntimeErrorType string) (s : string) :
  try_from s = Ok s -> str_len s <= MAX_STRING_LEN -> string_from_utf8 (as_bytes s) = Some s ->
  parses (name_deserialize_read try_from) (to_be_bytes 1 (str_len s) ++ as_bytes s) s.
Proof.
  intros Htry Hlen Hutf. pose proof (str_len_nonneg s). unfold MAX_STRING_LEN in *.
  eapply (parses_bind _ (fun len r =>
    let len := from_be_bytes len in
    if MAX_STRING_LEN <? len then Err (DeserializationError "String too long")
    else
      let? '(data, r) := rd IOError (Z.to_nat len) r in
      let? x := ok_or (DeserializationError "Non-UTF8 string data") (string_from_utf8 data) in
      let? name := map_err (fun _ => DeserializationError "Illegal Clarity string") (try_from x) in
      Ok (name, r))); [by apply parses_rd|].
  cbv zeta. rewrite from_to_be_bytes_small by (change (256 ^ Z.of_nat 1) with 256; lia).
  rewrite (proj2 (Z.ltb_ge _ _)) by (unfold MAX_STRING_LEN; lia).
  rewrite <-(app_nil_r (as_bytes s)).
  eapply (parses_bind _ (fun data r =>
      let? x := ok_or (DeserializationError "Non-UTF8 string data") (string_from_utf8 data) in
      let? name := map_err (fun _ => DeserializationError "Illegal Clarity string") (try_from x) in
      Ok (name, r))).
  - pose proof (length_as_bytes s). apply parses_rd; [lia|int_lia].
  - rewrite Hutf. cbn [ok_or out_bind]. rewrite Htry. apply parses_ret.
Qed.

Lemma parse_contract_name (s : string) :
  ContractName_valid s = true ->
  parses (name_deserialize_read ContractName_try_from) (to_be_bytes 1 (str_len s) ++ as_bytes s) s.
Proof.
  intros Hv. pose proof (proj2 (ContractName_try_from_Ok s s) (conj eq_refl Hv)) as Htry.
  unfold ContractName_valid in Hv. apply andb_true_iff in Hv as [Hl%Z.leb_le Hr].
  apply parse_name; [done|done|]. by apply string_from_utf8_ascii, ContractName_ascii.
Qed.

Lemma parse_clarity_name (s : string) :
  ClarityName_valid s = true ->
  parses (name_deserialize_read ClarityName_try_from) (to_be_bytes 1 (str_len s) ++ as_bytes s) s.
Proof.
  intros Hv. pose proof (proj2 (ClarityName_try_from_Ok s s) (conj eq_refl Hv)) as Htry.
  unfold ClarityName_valid in Hv. apply andb_true_iff in Hv as [Hl%Z.leb_le Hr].
  apply parse_name; [done|done|]. by apply string_from_utf8_ascii, ClarityName_ascii.
Qed.

(** * Values read back *)
Definition reads_back (v : Value) (t : TypeSignature) (levels : nat) : Prop :=
  exists bs v' t', serialize_write v = Ok bs /\
    parses (inner_deserialize_read levels (Some t)) bs v' /\
    Value_eqb v v' = true /\ (forall E, type_of (E:=E) v' = Ok t') /\ fits t t'.

Lemma check_match_ok (t : TypeSignature) (p : TypeSignature -> bool) :
  p t = true -> check_match (Some t) p = Ok tt.
Proof. intros Hp. simpl. by rewrite Hp. Qed.

(** Reading a fixed number of bytes that were written. *)
Lemma parse_read {B : Type} (bs bs2 : list byte) (n : nat)
    (k : list byte -> R -> outcome SerializationError (B * R)) (x : B) :
  length bs = n -> Z.of_nat n <= u32_max -> parses (k bs) bs2 x ->
  parses (fun r => let? '(data, r) := rd IOError n r in k data r) (bs ++ bs2) x.
Proof. intros Hn Hmax Hk. eapply parses_bind; [by apply parses_rd|done]. Qed.

Lemma parse_read_last {B : Type} (bs : list byte) (n : nat)
    (k : list byte -> R -> outcome SerializationError (B * R)) (x : B) :
  length bs = n -> Z.of_nat n <= u32_max -> parses (k bs) [] x ->
  parses (fun r => let? '(data, r) := rd IOError n r in k data r) bs x.
Proof. intros Hn Hmax Hk. rewrite <-(app_nil_r bs). by apply parse_read. Qed.

Lemma rb_int (i : Z) (levels : nat) : in_ty i128_ty i = true -> reads_back (VInt i) IntType (S levels).
Proof.
  intros Hi%in_ty_spec. eexists. exists (VInt i), IntType. split_and!; [done| |apply Z.eqb_refl|done|done].
  cbn [inner_deserialize_read]. apply (parse_prefix TP_Int). cbv beta iota.
  eapply parses_pure; [done|].
  apply parse_read_last; [apply length_to_be_bytes|done|].
  rewrite from_to_be_bytes. change (256 ^ Z.of_nat 16) with (2 ^ 128).
  rewrite to_signed_mod by int_lia. apply parses_ret.
Qed.

Lemma rb_uint (u : Z) (levels : nat) : in_ty u128_ty u = true -> reads_back (VUInt u) UIntType (S levels).
Proof.
  intros Hu%in_ty_spec. eexists. exists (VUInt u), UIntType. split_and!; [done| |apply Z.eqb_refl|done|done].
  cbn [inner_deserialize_read]. apply (parse_prefix TP_UInt). cbv beta iota.
  eapply parses_pure; [done|].
  apply parse_read_last; [apply length_to_be_bytes|done|].
  rewrite from_to_be_bytes_small by (change (256 ^ Z.of_nat 16) with (2 ^ 128); int_lia). apply parses_ret.
Qed.

Lemma rb_bool (b : bool) (levels : nat) : reads_back (VBool b) BoolType (S levels).
Proof.
  eexists. exists (VBool b), BoolType. split_and!; [done| |apply Bool.eqb_reflx|done|done].
  cbn [inner_deserialize_read].
  destruct b; [apply (parse_prefix TP_BoolTrue) | apply (parse_prefix TP_BoolFalse)];
    cbv beta iota; (eapply parses_pure; [done|]); apply parses_ret.
Qed.

Lemma rb_none (t : TypeSignature) (levels : nat) : reads_back (VOptional None) (OptionalType t) (S levels).
Proof.
  eexists. exists (VOptional None), (OptionalType NoType). split_and!; [done| |done|done|by left].
  cbn [inner_deserialize_read]. apply (parse_prefix TP_OptionalNone). cbv beta iota.
  eapply parses_pure; [done|]. apply parses_ret.
Qed.

Lemma rb_principal (p : PrincipalData) (levels : nat) :
  PrincipalData_wf p = true -> reads_back (VPrincipal p) PrincipalType (S levels).
Proof.
  intros Hp. unfold reads_back.
  destruct p as [s|[s name]]; cbn [PrincipalData_wf] in Hp; cbn [serialize_write qc_name issuer].
  - eexists. exists (VPrincipal (Standard s)), PrincipalType.
    split_and!; [done| |by apply bool_decide_eq_true|done|done].
    cbn [inner_deserialize_read]. apply (parse_prefix TP_PrincipalStandard). cbv beta iota.
    eapply parses_pure; [done|]. rewrite <-(app_nil_r (StandardPrincipalData_serialize_write s)).
    eapply parses_bind; [by apply parse_standard|apply parses_ret].
  - unfold QualifiedContractIdentifier_wf in Hp. cbn [issuer qc_name] in Hp.
    apply andb_true_iff in Hp as [Hs Hn]. rewrite name_serialize_Ok by auto. cbn [out_bind].
    eexists. exists (VPrincipal (Contract (mkContractId s name))), PrincipalType.
    split_and!; [done| |by apply bool_decide_eq_true|done|done].
    cbn [inner_deserialize_read]. apply (parse_prefix TP_PrincipalContract). cbv beta iota.
    eapply parses_pure; [done|]. eapply parses_bind; [by apply parse_standard|]. cbv beta.
    rewrite <-(app_nil_r (_ ++ as_bytes name)).
    eapply parses_bind; [by apply parse_contract_name|apply parses_ret].
Qed.

(** Without an expected type, for the values that record an owner. *)
Lemma untyped_principal (p : PrincipalData) (levels : nat) :
  PrincipalData_wf p = true ->
  exists bs, serialize_write (VPrincipal p) = Ok bs /\
    parses (inner_deserialize_read (S levels) None) bs (VPrincipal p).
Proof.
  intros Hp. destruct p as [s|[s name]]; cbn [PrincipalData_wf] in Hp; cbn [serialize_write qc_name issuer].
  - eexists. split; [done|]. cbn [inner_deserialize_read]. apply (parse_prefix TP_PrincipalStandard). cbv beta iota.
    eapply parses_pure; [done|]. rewrite <-(app_nil_r (StandardPrincipalData_serialize_write s)).
    eapply parses_bind; [by apply parse_standard|apply parses_ret].
  - unfold QualifiedContractIdentifier_wf in Hp. cbn [issuer qc_name] in Hp.
    apply andb_true_iff in Hp as [Hs Hn]. rewrite name_serialize_Ok by auto. cbn [out_bind].
    eexists. split; [done|].
    cbn [inner_deserialize_read]. apply (parse_prefix TP_PrincipalContract). cbv beta iota.
    eapply parses_pure; [done|]. eapply parses_bind; [by apply parse_standard|]. cbv beta.
    rewrite <-(app_nil_r (_ ++ as_bytes name)).
    eapply parses_bind; [by apply parse_contract_name|apply parses_ret].
Qed.

Lemma untyped_owner (o : option PrincipalData) (levels : nat) :
  (forall p, o = Some p -> PrincipalData_wf p = true) ->
  exists bs, serialize_write (VOptional (option_map VPrincipal o)) = Ok bs /\
    parses (inner_deserialize_read (S (S levels)) None) bs (VOptional (option_map VPrincipal o)).
Proof.
  intros Ho. destruct o as [p|]; cbn [option_map].
  - destruct (untyped_principal p levels (Ho p eq_refl)) as (bs & Hbs & Hp).
    assert (Value_some (VPrincipal p) = Ok (VOptional (Some (VPrincipal p)))) as Hs by done.
    revert Hbs Hp Hs. generalize (VPrincipal p). intros v Hbs Hp Hs. cbn [serialize_write]. rewrite Hbs. cbn [out_bind].
    eexists. split; [done|].
    remember (S levels) as l. cbn [inner_deserialize_read]. apply (parse_prefix TP_OptionalSome). cbv beta iota.
    eapply parses_pure; [done|]. rewrite <-(app_nil_r bs). eapply parses_bind; [exact Hp|]. cbv beta.
    eapply parses_pure; [|apply parses_ret]. by rewrite Hs.
  - eexists. split; [done|]. cbn [inner_deserialize_read]. apply (parse_prefix TP_OptionalNone). cbv beta iota.
    eapply parses_pure; [done|]. apply parses_ret.
Qed.

(** The length prefix of a buffer or string. *)
Lemma parse_buffer_len {B : Type} (n : Z) (bs : list byte)
    (k : Z -> R -> outcome SerializationError (B * R)) (x : B) :
  0 <= n <= MAX_VALUE_SIZE -> parses (k n) bs x ->
  parses (fun r => let? '(len, r) := read_buffer_len r in k len r) (u32_be_bytes n ++ bs) x.
Proof.
  intros Hn Hk. eapply parses_bind; [|exact Hk]. unfold read_buffer_len.
  apply parse_read_last; [apply length_to_be_bytes|done|].
  unfold u32_be_bytes. rewrite from_to_be_bytes_small
    by (change (256 ^ Z.of_nat 4) with (2 ^ 32); unfold_sizes; lia).
  unfold BufferLength_try_from. rewrite (proj2 (Z.ltb_ge _ _)) by lia. apply parses_ret.
Qed.

Lemma buffer_try_from_ok {E : Type} (d : list byte) :
  zlen d <= MAX_VALUE_SIZE -> expect (F:=E) (BufferLength_try_from (zlen d)) = Ok (zlen d).
Proof. intros Hd. unfold BufferLength_try_from. by rewrite (proj2 (Z.ltb_ge _ _)). Qed.

Lemma rb_buffer (d : list byte) (n : Z) (levels : nat) :
  zlen d <= MAX_VALUE_SIZE -> zlen d <= n ->
  reads_back (VSequence (SeqBuffer d)) (SequenceType (BufferType n)) (S levels).
Proof.
  intros Hd Hn. pose proof (zlen_nonneg d). unfold reads_back. cbn [serialize_write].
  rewrite buffer_try_from_ok by done. cbn [out_bind].
  eexists. exists (VSequence (SeqBuffer d)), (SequenceType (BufferType (zlen d))).
  split_and!; [done| |by apply bool_decide_eq_true| |by exists (zlen d)].
  - cbn [inner_deserialize_read]. apply (parse_prefix TP_Buffer). cbv beta iota.
    apply parse_buffer_len; [lia|]. eapply parses_pure; [apply check_match_ok; lia|].
    apply parse_read_last; [unfold zlen; lia|unfold_bounds; unfold_sizes; lia|].
    eapply parses_pure; [|apply parses_ret]. unfold buff_from, bad, unchecked, BufferLength_try_from.
    by rewrite (proj2 (Z.ltb_ge _ _)).
  - intros E. cbn [type_of]. by rewrite buffer_try_from_ok.
Qed.

Lemma rb_ascii (d : list byte) (n : Z) (levels : nat) :
  zlen d <= MAX_VALUE_SIZE -> forallb ascii_string_byte d = true -> zlen d <= n ->
  reads_back (VSequence (SeqString (CharASCII d))) (SequenceType (StringType (ASCII n))) (S levels).
Proof.
  intros Hd Hchars Hn. pose proof (zlen_nonneg d). unfold reads_back. cbn [serialize_write].
  rewrite buffer_try_from_ok by done. cbn [out_bind].
  eexists. exists (VSequence (SeqString (CharASCII d))), (SequenceType (StringType (ASCII (zlen d)))).
  split_and!; [done| |by apply bool_decide_eq_true| |by exists (zlen d)].
  - cbn [inner_deserialize_read]. apply (parse_prefix TP_StringASCII). cbv beta iota.
    apply parse_buffer_len; [lia|]. eapply parses_pure; [apply check_match_ok; lia|].
    apply parse_read_last; [unfold zlen; lia|unfold_bounds; unfold_sizes; lia|].
    eapply parses_pure; [|apply parses_ret].
    unfold string_ascii_from_bytes, bad, unchecked, BufferLength_try_from.
    rewrite (proj2 (Z.ltb_ge _ _)) by done. cbn [map_err out_bind]. by rewrite Hchars.
  - intros E. cbn [type_of]. by rewrite buffer_try_from_ok.
Qed.

Lemma utf8_chars_of (d : list (list byte)) :
  forallb is_utf8_char d = true ->
  exists cs, utf8_chars (concat d) = Some cs /\ map encode_utf8 cs = d.
Proof.
  intros Hd. assert (exists cs, Forall (fun c => is_scalar c = true) cs /\ map encode_utf8 cs = d) as (cs & Hsc & <-).
  { induction d as [|c d IH]; [exists []; split; [constructor|done]|].
    cbn [forallb] in Hd. apply andb_true_iff in Hd as [Hc Hd]. destruct (IH Hd) as (cs & Hcs & <-).
    unfold is_utf8_char in Hc. destruct (utf8_chars c) as [[|z []]|] eqn:Hz; try done.
    apply encode_utf8_chars in Hz as [Hz1 Hz2]. simpl in Hz2. rewrite app_nil_r in Hz2. subst c.
    exists (z :: cs). split; [|done]. constructor; [by inversion Hz1|done]. }
  exists cs. split; [by apply utf8_chars_concat|done].
Qed.

Lemma string_utf8_concat (d : list (list byte)) :
  4 * zlen d <= MAX_VALUE_SIZE -> forallb is_utf8_char d = true ->
  string_utf8_from_bytes (concat d) = Ok (VSequence (SeqString (CharUTF8 d))).
Proof.
  intros Hd Hchars. pose proof (zlen_nonneg d). destruct (utf8_chars_of d Hchars) as (cs & Hcs & Hmap).
  unfold string_utf8_from_bytes. rewrite Hcs. cbn [ok_or out_bind]. rewrite Hmap.
  unfold StringUTF8Length_try_from, unchecked.
  rewrite (proj2 (checked_mul_Some _ _ _ (zlen d * 4))) by (unfold usize_ty; unfold_bounds; unfold_sizes; lia).
  cbn [ok_or out_bind]. by rewrite (proj2 (Z.ltb_ge _ _)) by lia.
Qed.

Lemma rb_utf8 (d : list (list byte)) (n : Z) (levels : nat) :
  4 * zlen d <= MAX_VALUE_SIZE -> forallb is_utf8_char d = true -> zlen d <= n ->
  reads_back (VSequence (SeqString (CharUTF8 d))) (SequenceType (StringType (UTF8 n))) (S levels).
Proof.
  intros Hd Hchars Hn. pose proof (zlen_nonneg d). pose proof (zlen_nonneg (concat d)).
  destruct (utf8_total_len d 0 Hchars) as [Htot Hlen]; [lia|unfold_bounds; unfold_sizes; lia|].
  unfold reads_back. cbn [serialize_write]. rewrite Htot. cbn [out_bind].
  eexists. exists (VSequence (SeqString (CharUTF8 d))), (SequenceType (StringType (UTF8 (zlen d)))).
  split_and!; [done| |by apply bool_decide_eq_true| |by exists (zlen d)].
  - cbn [inner_deserialize_read]. apply (parse_prefix TP_StringUTF8). cbv beta iota.
    apply parse_buffer_len; [lia|].
    apply parse_read_last; [unfold zlen; lia|unfold_bounds; unfold_sizes; lia|].
    rewrite string_utf8_concat by done. cbn [bad map_err out_bind].
    eapply parses_pure; [|apply parses_ret]. apply check_match_ok.
    unfold as_u32. rewrite Z.mod_small by (unfold_sizes; lia). lia.
  - intros E. by apply utf8_type_of.
Qed.

Lemma wrap_value_intro (v w : Value) (t : TypeSignature) (n : Z) :
  (forall E, type_of (E:=E) v = Ok t) -> TypeSignature_wf t = true -> inner_size t = Ok n ->
  n + WRAPPER_VALUE_SIZE <= MAX_VALUE_SIZE -> TypeSignature_depth t + 1 <= MAX_TYPE_DEPTH ->
  wrap_value v w = Ok w.
Proof.
  intros Ht Hwf Hn Hs Hd. pose proof (wf_depth t Hwf). pose proof (wf_size_pos t n Hwf Hn).
  unfold wrap_value, Value_size, Value_depth, TypeSignature_size. rewrite !Ht. cbn [out_bind].
  rewrite Hn. cbn [expect out_bind]. unfold as_u32, as_u8. rewrite !Z.mod_small by (unfold_sizes; lia).
  rewrite (proj2 (Z.ltb_ge _ _)) by lia. by rewrite (proj2 (Z.ltb_ge _ _)) by lia.
Qed.

Lemma rb_some (v : Value) (t : TypeSignature) (levels : nat) :
  TypeSignature_wf (OptionalType t) = true -> declared_type t = true -> reads_back v t levels ->
  reads_back (VOptional (Some v)) (OptionalType t) (S levels).
Proof.
  intros Hwf Hd (bs & v' & t' & Hbs & Hp & Heq & Ht' & Hfit).
  pose proof (proj1 (wf_option t) Hwf) as [Ht _].
  destruct (fits_ok t t' Ht Hd Hfit) as [Hwt' Hvt' _ Hdt (n0 & n' & Hn0 & Hn' & Hle)].
  destruct (wf_option_room t Hwf) as (_ & Hdmax & n & Hn & _ & Hmax & _).
  rewrite Hn in Hn0. injection Hn0 as <-.
  unfold reads_back. cbn [serialize_write]. rewrite Hbs. cbn [out_bind].
  eexists. exists (VOptional (Some v')), (OptionalType t').
  split_and!; [done| |done| |right; by exists t'].
  - cbn [inner_deserialize_read]. apply (parse_prefix TP_OptionalSome). cbv beta iota.
    eapply parses_pure; [done|]. rewrite <-(app_nil_r bs). eapply parses_bind; [exact Hp|]. cbv beta.
    eapply parses_pure; [|apply parses_ret]. unfold Value_some.
    by rewrite (wrap_value_intro v' _ t' n') by (done || lia).
  - intros E. cbn [type_of]. rewrite Ht'. cbn [out_bind]. unfold OptionalData_type_signature.
    by rewrite (new_option_ok t' n') by (done || lia).
Qed.

Lemma rb_response (c : bool) (v : Value) (t s : TypeSignature) (levels : nat) :
  TypeSignature_wf (ResponseType t s) = true -> declared_type (ResponseType t s) = true ->
  reads_back v (if c then t else s) levels ->
  reads_back (VResponse c v) (ResponseType t s) (S levels).
Proof.
  intros Hwf Hd (bs & v' & t' & Hbs & Hp & Heq & Ht' & Hfit).
  pose proof (proj1 (wf_response t s) Hwf) as (Ht & Hs & _).
  cbn [declared_type] in Hd. apply andb_true_iff in Hd as [Hdt Hds].
  assert (fits_facts (if c then t else s) t') as Hff by (apply fits_ok; by destruct c).
  destruct (fits_response_facts c t s t' Hwf Hff) as [Hwr _ _ _ _].
  destruct Hff as [Hwt' Hvt' _ Hdt' (n0 & n' & Hn0 & Hn' & Hle)].
  destruct (wf_response_room t s Hwf) as (_ & Hdmax & n & m & Hn & Hm & _ & _ & Hmax & _).
  assert (n0 = if c then n else m) as Hnm by (destruct c; congruence).
  assert (n0 <= Z.max n m) by (destruct c; lia).
  assert (TypeSignature_depth t' + 1 <= MAX_TYPE_DEPTH) by (destruct c; lia).
  unfold reads_back. cbn [serialize_write]. rewrite Hbs. cbn [out_bind].
  eexists. exists (VResponse c v'), (if c then ResponseType t' NoType else ResponseType NoType t').
  split_and!; [done| |cbn [Value_eqb]; by rewrite eqb_reflx, Heq| |].
  - cbn [inner_deserialize_read].
    destruct c; [apply (parse_prefix TP_ResponseOk)|apply (parse_prefix TP_ResponseErr)]; cbv beta iota zeta;
      (eapply parses_pure; [done|]); rewrite <-(app_nil_r bs); (eapply parses_bind; [exact Hp|]); cbv beta iota;
      (eapply parses_pure; [|apply parses_ret]); unfold Value_okay, Value_error;
      by rewrite (wrap_value_intro v' _ t' n') by (done || lia).
  - intros E. cbn [type_of]. rewrite Ht'. cbn [out_bind]. unfold ResponseData_type_signature.
    destruct c; apply wf_response in Hwr as (_ & _ & r & Hr); rewrite Hr;
      apply new_response_Ok in Hr as [-> _]; done.
  - destruct c; [left|right]; by exists t'.
Qed.

Lemma Value_eqb_list (l l' : list Value) (ty ty' : ListTypeData) :
  Forall2 (fun v w => Value_eqb v w = true) l l' ->
  Value_eqb (VSequence (SeqList (mkListData l ty))) (VSequence (SeqList (mkListData l' ty'))) = true.
Proof. cbn [Value_eqb]. induction 1 as [|v w l l' Hv _ IH]; [done|]. by rewrite Hv. Qed.

Lemma Value_eqb_tuple (m m' : BTreeMap Value) (ty ty' : TupleTypeSignature) :
  Forall2 (fun e f => fst e = fst f /\ Value_eqb (snd e) (snd f) = true) m m' ->
  Value_eqb (VTuple (mkTupleData ty m)) (VTuple (mkTupleData ty' m')) = true.
Proof.
  cbn [Value_eqb]. induction 1 as [|[k v] [k' w] m m' [Hk Hv] _ IH]; [done|]. simpl in *. subst k'.
  by rewrite String.eqb_refl, Hv.
Qed.

(** The items of a list, each read back. *)
Lemma items_read_back (l : list Value) (e : TypeSignature) (levels : nat) :
  Forall (fun v => reads_back v e levels) l ->
  exists parts l',
    Forall2 (fun v p => serialize_write v = Ok p) l parts /\
    Forall2 (fun p v' => parses (inner_deserialize_read levels (Some e)) p v') parts l' /\
    Forall2 (fun v v' => Value_eqb v v' = true) l l' /\
    Forall (fun v' => exists t', (forall E, type_of (E:=E) v' = Ok t') /\ fits e t') l'.
Proof.
  induction 1 as [|v l (bs & v' & t' & Hbs & Hp & Heq & Ht' & Hfit) _ (parts & l' & H1 & H2 & H3 & H4)].
  { exists [], []. split_and!; constructor. }
  exists (bs :: parts), (v' :: l'). split_and!; constructor; eauto.
Qed.

Lemma parse_u32 {B : Type} (n : Z) (bs : list byte)
    (k : list byte -> R -> outcome SerializationError (B * R)) (x : B) :
  0 <= n <= u32_max -> (from_be_bytes (u32_be_bytes n) = n -> parses (k (u32_be_bytes n)) bs x) ->
  parses (fun r => let? '(len, r) := rd IOError 4 r in k len r) (u32_be_bytes n ++ bs) x.
Proof.
  intros Hn Hk. apply parse_read; [apply length_to_be_bytes|done|]. apply Hk.
  apply from_to_be_bytes_small. change (256 ^ Z.of_nat 4) with (2 ^ 32). int_lia.
Qed.

Lemma rb_list (l : list Value) (ty : ListTypeData) (n : Z) (e : TypeSignature) (levels : nat) :
  TypeSignature_wf (SequenceType (ListType (mkListType n e))) = true -> declared_type e = true ->
  zlen l <= n -> Forall (fun v => reads_back v e levels) l ->
  reads_back (VSequence (SeqList (mkListData l ty))) (SequenceType (ListType (mkListType n e))) (S levels).
Proof.
  intros Hwf Hd Hlen Hl. destruct (items_read_back l e levels Hl) as (parts & l' & H1 & H2 & H3 & H4).
  pose proof (proj1 (wf_list n e) Hwf) as (Hn & He & lt & (-> & _ & s & Hs)%new_list_Ok).
  destruct (list_size_Ok e n s Hs) as (ne & Hne & Hbound). pose proof (wf_size_pos e ne He Hne).
  assert (n <= MAX_VALUE_SIZE) as Hmax by nia. pose proof (zlen_nonneg l).
  assert (length l' = length l) as Hl' by (apply Forall2_length in H3; lia).
  assert (zlen l = zlen l') as Hzl by (unfold zlen; by rewrite Hl').
  eexists. exists (VSequence (SeqList (mkListData l' (mkListType n e)))),
    (SequenceType (ListType (mkListType n e))).
  split_and!; [| |by apply Value_eqb_list|done|done].
  { apply serialize_list; [lia|]. apply write_all_Ok. eauto. }
  cbn [inner_deserialize_read]. apply (parse_prefix TP_List). cbv beta iota.
  apply parse_u32; [lia|]. intros Hfrom. cbv zeta. rewrite Hfrom.
  rewrite (proj2 (Z.ltb_ge _ _)) by lia.
  eapply parses_pure; [cbn [max_len]; by rewrite (proj2 (Z.ltb_ge _ _)) by lia|].
  rewrite <-(app_nil_r (concat parts)). replace (Z.to_nat (zlen l)) with (length l') by (unfold zlen; lia).
  eapply parses_bind; [by apply parses_times|]. cbv beta.
  eapply parses_pure; [|apply parses_ret]. unfold list_with_type, bad. cbn [max_len entry_type].
  rewrite (proj2 (Z.ltb_ge _ _)) by lia.
  rewrite (proj2 (out_forallb_true (admits e) l')); [done|].
  eapply List.Forall_impl; [|exact H4]. intros v' (t' & Ht' & Hfit). unfold admits. rewrite Ht'.
  apply (fits_ok e t' He Hd Hfit).
Qed.

(** The closure that reads a field of a tuple of type [tm]. *)
Definition read_field (tm : TupleTypeSignature) (levels : nat) (r : R)
  : outcome SerializationError ((string * Value) * R) :=
  let? '(key, r) := name_deserialize_read ClarityName_try_from r in
  let? expected_field_type :=
    let? t := ok_or (DeserializeExpected (TupleType tm)) (TupleTypeSignature_field_type tm key) in
    Ok (Some t) in
  let? '(value, r) := inner_deserialize_read levels expected_field_type r in
  Ok ((key, value), r).

Lemma field_read_back (tm : BTreeMap TypeSignature) (k : string) (v : Value) (s : TypeSignature) (levels : nat) :
  ClarityName_valid k = true -> bt_get k tm = Some s -> reads_back v s levels ->
  exists p v' t', write_field (k, v) = Ok p /\ parses (read_field (mkTupleType tm) levels) p (k, v') /\
    Value_eqb v v' = true /\ (forall E, type_of (E:=E) v' = Ok t') /\ fits s t'.
Proof.
  intros Hk Hg (bs & v' & t' & Hbs & Hp & Heq & Ht' & Hfit). unfold write_field.
  rewrite name_serialize_Ok by auto. cbn [out_bind]. rewrite Hbs. cbn [out_bind].
  eexists. exists v', t'. split_and!; [done| |done|done|done].
  eapply parses_bind; [by apply parse_clarity_name|]. cbv beta.
  eapply parses_pure; [unfold TupleTypeSignature_field_type; cbn [type_map]; by rewrite Hg|].
  rewrite <-(app_nil_r bs). eapply parses_bind; [exact Hp|apply parses_ret].
Qed.

Lemma fields_read_back (tm : BTreeMap TypeSignature) (levels : nat) (vals : BTreeMap Value) (ts : BTreeMap TypeSignature) :
  Forall (fun e => ClarityName_valid (fst e) = true /\ bt_get (fst e) tm = Some (snd e)) ts ->
  Forall2 (fun e s => fst e = fst s /\ reads_back (snd e) (snd s) levels) vals ts ->
  exists parts vals',
    Forall2 (fun e p => write_field e = Ok p) vals parts /\
    Forall2 (fun p e => parses (read_field (mkTupleType tm) levels) p e) parts vals' /\
    Forall2 (fun e f => fst e = fst f /\ Value_eqb (snd e) (snd f) = true) vals vals' /\
    Forall (fun e => exists s t', bt_get (fst e) tm = Some s /\ (forall E, type_of (E:=E) (snd e) = Ok t') /\
                                  fits s t') vals'.
Proof.
  intros Hts Hvals. induction Hvals as [|[k v] [k' s] vals ts [Hk Hv] _ IH].
  { exists [], []. split_and!; constructor. }
  apply List.Forall_cons_iff in Hts as [[Hname Hg] Hts]. simpl in *. subst k'.
  destruct (IH Hts) as (parts & vals' & H1 & H2 & H3 & H4).
  destruct (field_read_back tm k v s levels Hname Hg Hv) as (p & v' & t' & Hp1 & Hp2 & Heq & Ht' & Hfit).
  exists (p :: parts), ((k, v') :: vals'). split_and!; constructor; eauto 6.
Qed.

Lemma from_data_typed_ok (tm : BTreeMap TypeSignature) (vals : BTreeMap Value) :
  bt_sorted vals ->
  Forall (fun e => exists s, bt_get (fst e) tm = Some s /\ admits (E:=VmError) s (snd e) = Ok true) vals ->
  TupleData_from_data_typed vals (mkTupleType tm) = Ok (mkTupleData (mkTupleType tm) vals).
Proof.
  intros Hs Hv. unfold TupleData_from_data_typed.
  match goal with |- context [try_fold ?f [] vals] => set (body := f) end.
  assert (forall acc, try_fold body acc vals = Ok (bt_append acc vals)) as Hloop.
  { clear Hs. induction Hv as [|[k v] vals (s & Hg & Ha) _ IH]; intros acc; [done|].
    cbn [try_fold]. simpl in Hg, Ha.
    assert (body acc (k, v) = Ok (bt_insert k v acc)) as ->.
    { subst body. cbv beta iota. unfold TupleTypeSignature_field_type. cbn [type_map]. rewrite Hg.
      cbn [ok_or out_bind]. by rewrite Ha. }
    cbn [out_bind]. apply IH. }
  by rewrite Hloop, bt_append_nil_l.
Qed.

Lemma rb_tuple (vals : BTreeMap Value) (ty : TupleTypeSignature) (tm : BTreeMap TypeSignature) (levels : nat) :
  TypeSignature_wf (TupleType (mkTupleType tm)) = true -> declared_type (TupleType (mkTupleType tm)) = true ->
  Forall2 (fun e s => fst e = fst s /\ reads_back (snd e) (snd s) levels) vals tm ->
  reads_back (VTuple (mkTupleData ty vals)) (TupleType (mkTupleType tm)) (S levels).
Proof.
  intros Hwf Hd Hvals.
  pose proof (proj1 (wf_tuple tm) Hwf) as (Hs%bt_sortedb_iff & Hf & sig & (-> & Hne & _ & s & Hsz)%try_from_map_Ok).
  destruct (tuple_size_Ok tm s Hsz) as (sizes & Hsizes & Hbound).
  pose proof (proj1 (declared_tuple tm) Hd) as Hdf.
  assert (map fst vals = map fst tm) as Hkeys
    by (symmetry; eapply Forall2_keys; [exact Hvals|naive_solver]).
  assert (zlen vals = zlen tm) as Hlen
    by (unfold zlen; rewrite <-(length_map fst vals), Hkeys, length_map; done).
  destruct (fields_read_back tm levels vals tm) as (parts & vals' & H1 & H2 & H3 & H4); [|done|].
  { rewrite List.Forall_forall in *. intros [k t] Hin. split; [apply (Hf _ Hin)|]. by apply In_bt_get. }
  assert (map fst vals' = map fst vals) as Hkeys' by (eapply Forall2_keys; [exact H3|naive_solver]).
  assert (length vals' = length vals) as Hl' by (apply Forall2_length in H3; lia).
  pose proof (sizes_nonneg tm sizes Hf Hsizes). pose proof (zlen_nonneg tm).
  pose proof (sum_nonneg (fun e : string * TypeSignature => str_len (fst e)) tm (fun e => str_len_nonneg (fst e))).
  assert (zlen tm <= MAX_VALUE_SIZE) as Hmax by lia.
  eexists. exists (VTuple (mkTupleData (mkTupleType tm) vals')), (TupleType (mkTupleType tm)).
  split_and!; [| |by apply Value_eqb_tuple|done|done].
  { apply serialize_tuple; [rewrite Hlen; unfold_bounds; unfold_sizes; lia|]. apply write_all_Ok. eauto. }
  cbn [inner_deserialize_read]. apply (parse_prefix TP_Tuple). cbv beta iota.
  apply parse_u32; [rewrite Hlen; unfold_bounds; unfold_sizes; lia|]. intros Hfrom. cbv zeta. rewrite Hfrom.
  rewrite (proj2 (Z.ltb_ge _ _)) by lia.
  eapply parses_pure; [cbn [type_map]; by rewrite Hlen, Z.eqb_refl|].
  rewrite <-(app_nil_r (concat parts)). replace (Z.to_nat (zlen vals)) with (length vals') by (unfold zlen; lia).
  eapply parses_bind; [exact (parses_times _ _ _ H2)|]. cbv beta.
  eapply parses_pure; [|apply parses_ret]. unfold bad. rewrite from_data_typed_ok; [done| |].
  - unfold bt_sorted. by rewrite Hkeys', Hkeys.
  - rewrite List.Forall_forall in *. intros e Hin. destruct (H4 e Hin) as (se & t' & Hg & Ht' & Hfit).
    exists se. split; [done|]. unfold admits. rewrite Ht'. cbn [out_bind].
    pose proof (bt_get_In _ _ _ Hg) as Hin'.
    apply (fits_ok se t' (proj2 (Hf _ Hin')) (Hdf _ Hin') Hfit).
Qed.

(** * The main lemma *)
Lemma nesting_item (l : list Value) (v : Value) :
  In v l -> (value_nesting v <= fold_right (fun v n => Nat.max (value_nesting v) n) O l)%nat.
Proof. induction l as [|w l IH]; [done|]. intros [->|Hin]; simpl; [lia|]. specialize (IH Hin). lia. Qed.

Lemma nesting_field (m : BTreeMap Value) (k : string) (v : Value) :
  In (k, v) m -> (value_nesting v <= fold_right (fun '(_, v) n => Nat.max (value_nesting v) n) O m)%nat.
Proof.
  induction m as [|[k' w] m IH]; [done|]. intros [Heq|Hin]; simpl; [simplify_eq; lia|].
  specialize (IH Hin). lia.
Qed.

Lemma value_reads_back (v : Value) (t tv : TypeSignature) (levels : nat) :
  Value_wf v = true -> TypeSignature_wf t = true -> declared_type t = true ->
  (forall E, type_of (E:=E) v = Ok tv) -> admits_type (E:=VmError) t tv = Ok true ->
  (value_nesting v <= levels)%nat -> reads_back v t levels.
Proof.
  revert t tv levels.
  induction v as [i|u|b|d|l [n0 e0] IH|[d|d]|p|ty m IH| |v IH|c v IH] using Value_ind';
    intros t tv levels Hv Ht Hd Htv Hadm Hn; pose proof (Htv VmError) as Htv0;
    (destruct levels as [|levels]; [cbn [value_nesting] in Hn; lia|]); cbn [value_nesting] in Hn.
  - injection Htv0 as <-. apply admits_atom_inv in Hadm as ->. by apply rb_int.
  - injection Htv0 as <-. apply admits_atom_inv in Hadm as ->. by apply rb_uint.
  - injection Htv0 as <-. apply admits_atom_inv in Hadm as ->. apply rb_bool.
  - cbn [Value_wf] in Hv. apply Z.leb_le in Hv. cbn [type_of] in Htv0. rewrite buffer_try_from_ok in Htv0 by done.
    injection Htv0 as <-. apply admits_buffer_inv in Hadm as (k & -> & Hk). by apply rb_buffer.
  - injection Htv0 as <-. apply Value_wf_list in Hv as (_ & _ & Hlen & Hl). cbn [max_len entry_type] in *.
    destruct (admits_list_inv t e0 n0 Hadm) as (k & e & -> & Hcase).
    pose proof (proj1 (wf_list k e) Ht) as (Hk & He & _). pose proof (zlen_nonneg l).
    apply rb_list; [done|done|lia|]. rewrite List.Forall_forall in *. intros x Hx.
    destruct (Hl x Hx) as [Hwx Hax]. destruct (type_of_wf x Hwx) as (tx & Htx & _ & Hvx).
    unfold admits in Hax. rewrite Htx in Hax. pose proof (nesting_item l x Hx).
    eapply (IH x Hx e tx); try done; [|lia].
    destruct Hcase as [->|(_ & _ & Hee)]; [|by apply (admits_trans (E:=VmError) e e0 tx)].
    destruct l; [done|]. unfold zlen in Hlen. simpl in Hlen. lia.
  - cbn [Value_wf] in Hv. apply andb_true_iff in Hv as [Hv%Z.leb_le Hchars].
    rewrite utf8_type_of in Htv0 by done. injection Htv0 as <-.
    apply admits_utf8_inv in Hadm as (k & -> & Hk). by apply rb_utf8.
  - cbn [Value_wf] in Hv. apply andb_true_iff in Hv as [Hv%Z.leb_le Hchars]. cbn [type_of] in Htv0.
    rewrite buffer_try_from_ok in Htv0 by done. injection Htv0 as <-.
    apply admits_ascii_inv in Hadm as (k & -> & Hk). by apply rb_ascii.
  - injection Htv0 as <-. apply admits_atom_inv in Hadm as ->. by apply rb_principal.
  - injection Htv0 as <-. destruct (tuple_fields ty m t Hv Ht Hadm) as (tm & -> & Hs & Hk & Hf & Hfields).
    apply rb_tuple; [done|done|]. pose proof (proj1 (declared_tuple tm) Hd) as Hdf.
    eapply Forall2_impl_In; [|exact Hfields]. intros [k v] [k' s] Hin Hin' (Hkk & Hwv & tx & Htx & Ha).
    split; [done|]. rewrite List.Forall_forall in IH, Hf, Hdf. pose proof (nesting_field m k v Hin).
    eapply (IH (k, v) Hin s tx); [done|apply (Hf _ Hin')|apply (Hdf _ Hin')|done|done|simpl; lia].
  - injection Htv0 as <-. apply admits_option_inv in Hadm as (t' & -> & _). apply rb_none.
  - destruct (option_type_of v tv Hv Htv) as (s & -> & Hne & Hwv & Hs).
    destruct (admits_option_inv t s Hadm) as (t' & -> & [->|[_ Ha]]); [done|].
    apply rb_some; [done|done|]. apply wf_option in Ht as [Ht _]. eapply (IH t' s); try done. lia.
  - destruct (response_type_of c v tv Hv Htv) as (s & -> & Hne & Hwv & Hs).
    destruct (admits_response_side c t s Hne Hadm) as (t1 & t2 & -> & Ha).
    apply rb_response; [done|done|]. apply wf_response in Ht as (Ht1 & Ht2 & _).
    cbn [declared_type] in Hd. apply andb_true_iff in Hd as [Hd1 Hd2].
    eapply (IH _ s); try done; [by destruct c|by destruct c|lia].
Qed.
End parsing.

(** * Theorems *)
Lemma bound_reader_init (fd bs rest : list byte) :
  fd = bs ++ rest -> zlen bs <= BOUND_VALUE_SERIALIZATION_BYTES ->
  exists rest', rd_holds (BoundReader_from_reader fd BOUND_VALUE_SERIALIZATION_BYTES) (bs ++ rest').
Proof.
  intros -> Hlen. eexists. unfold rd_holds, bound_reader_laws, bound_reader_holds, br_budget.
  cbn [br_read_so_far br_max_len br_fd BoundReader_from_reader].
  split_and!; [done|done|done|]. rewrite firstn_app. f_equal. symmetry. apply firstn_all2.
  unfold zlen in Hlen. lia.
Qed.

Lemma reads_back_bytes (v : Value) (t : TypeSignature) (rest : list byte) :
  Value_wf v = true -> TypeSignature_wf t = true -> declared_type t = true ->
  admits (E:=VmError) t v = Ok true -> (value_nesting v <= 16)%nat ->
  exists bs v', serialize_write v = Ok bs /\
    try_deserialize_bytes (bs ++ rest) t = Ok v' /\
    Value_eqb v v' = true /\ admits (E:=VmError) t v' = Ok true.
Proof.
  intros Hv Ht Hd Hadm Hn. destruct (type_of_wf v Hv) as (tv & Htv & _). unfold admits in Hadm.
  rewrite Htv in Hadm. cbn [out_bind] in Hadm.
  destruct (value_reads_back (R:=BoundReader) v t tv 16 Hv Ht Hd Htv Hadm Hn)
    as (bs & v' & t' & Hbs & Hp & Heq & Ht' & Hfit).
  destruct (serialize_bound v Hv) as (bs' & Hbs' & Hlen). rewrite Hbs in Hbs'. injection Hbs' as <-.
  destruct (bound_reader_init (bs ++ rest) bs rest eq_refl Hlen) as (rest' & Hr).
  destruct (Hp _ _ Hr) as (r' & Hread & _).
  exists bs, v'. split_and!; [done| |done|].
  - unfold try_deserialize_bytes, deserialize_read. by rewrite Hread.
  - unfold admits. rewrite Ht'. apply (fits_ok t t' Ht Hd Hfit).
Qed.

(** C1: a well-formed value is read back from its serialization, whatever
    follows it in the input, at every declared type that admits it, provided
    the value is nested at most 16 deep: the deserializer returns (without
    panicking or reading too much) an equal value whose type is again admitted. *)
Theorem value_roundtrip (v : Value) (t : TypeSignature) (rest : list byte) :
  Value_wf v = true -> TypeSignature_wf t = true -> declared_type t = true ->
  admits (E:=VmError) t v = Ok true -> (value_nesting v <= 16)%nat ->
  exists bs v', serialize_write v = Ok bs /\
    try_deserialize_bytes (bs ++ rest) t = Ok v' /\
    Value_eqb v v' = true /\ admits (E:=VmError) t v' = Ok true.
Proof. apply reads_back_bytes. Qed.

(** The same, in the hexadecimal form the database stores. *)
Lemma reads_back_hex {E F : Type} (v : Value) (t : TypeSignature) :
  Value_wf v = true -> TypeSignature_wf t = true -> declared_type t = true ->
  admits (E:=VmError) t v = Ok true -> (value_nesting v <= 16)%nat ->
  exists s v', Value_serialize (E:=E) v = Ok s /\ Value_deserialize (E:=F) s t = Ok v' /\
    Value_eqb v v' = true /\ admits (E:=VmError) t v' = Ok true.
Proof.
  intros Hv Ht Hd Ha Hn. destruct (reads_back_bytes v t [] Hv Ht Hd Ha Hn) as (bs & v' & Hbs & Hr & Heq & Hadm).
  rewrite app_nil_r in Hr. exists (to_hex bs), v'. unfold Value_serialize, Value_deserialize, try_deserialize_hex.
  rewrite Hbs, hex_bytes_to_hex. cbn [expect out_bind map_err]. by rewrite Hr.
Qed.

(** A list of two optional buffers, read at a wider type. *)
Definition sample_type : TypeSignature :=
  SequenceType (ListType (mkListType 5 (OptionalType (SequenceType (BufferType 4))))).
Definition sample_value : Value :=
  VSequence (SeqList (mkListData
    [VOptional None; VOptional (Some (VSequence (SeqBuffer [x01; x02])))]
    (mkListType 2 (OptionalType (SequenceType (BufferType 2)))))).

Lemma value_roundtrip_witness :
  exists bs v', serialize_write sample_value = Ok bs /\
    try_deserialize_bytes (bs ++ [xff]) sample_type = Ok v' /\
    Value_eqb sample_value v' = true /\ admits (E:=VmError) sample_type v' = Ok true.
Proof.
  apply (value_roundtrip sample_value sample_type [xff]); [vm_compute; reflexivity..|].
  apply Nat.leb_le. reflexivity.
Defined.

(** The limit of 2 MiB the deserializer puts on its input
    ([BOUND_VALUE_SERIALIZATION_BYTES]) is never too small: every well-formed
    value serializes, without panicking, within it, and [serialized_size]
    returns the exact number of bytes. *)
Lemma serialized_size_bound (v : Value) :
  Value_wf v = true ->
  exists bs, serialize_write v = Ok bs /\ serialized_size (E:=VmError) v = Ok (zlen bs) /\
    zlen bs <= BOUND_VALUE_SERIALIZATION_BYTES.
Proof.
  intros Hv. destruct (serialize_bound v Hv) as (bs & Hbs & Hlen). exists bs. split_and!; [done| |done].
  unfold serialized_size. rewrite Hbs. cbn [expect out_bind]. pose proof (zlen_nonneg bs).
  rewrite checked_ok; [done|]. unfold BOUND_VALUE_SERIALIZATION_BYTES in Hlen. unfold_bounds. unfold_sizes. lia.
Qed.

Lemma serialized_size_bound_witness :
  exists bs, serialize_write sample_value = Ok bs /\ serialized_size (E:=VmError) sample_value = Ok (zlen bs) /\
    zlen bs <= BOUND_VALUE_SERIALIZATION_BYTES.
Proof. apply (serialized_size_bound sample_value). vm_compute. reflexivity. Defined.

(** [(some (some ... (some u0)))] with [n] wrappers, and its type. *)
Fixpoint nested_some (n : nat) : Value :=
  match n with O => VUInt 0 | S n => VOptional (Some (nested_some n)) end.
Fixpoint nested_option (n : nat) : TypeSignature :=
  match n with O => UIntType | S n => OptionalType (nested_option n) end.

(** Values may be nested up to [MAX_TYPE_DEPTH = 32] deep, but the
    deserializer rejects everything nested deeper than 16: a well-formed value
    of depth 17 is accepted by its type and serialized, and fails to be read
    back at that type, so [Value::deserialize] panics on it. *)
Lemma deep_value_not_read_back :
  let v := nested_some 16 in let t := nested_option 16 in
  Value_wf v = true /\ TypeSignature_wf t = true /\ TypeSignature_depth t <= MAX_TYPE_DEPTH /\
  admits (E:=VmError) t v = Ok true /\
  exists bs hex, serialize_write v = Ok bs /\ Value_serialize (E:=VmError) v = Ok hex /\
    try_deserialize_bytes bs t = Err (BadTypeError CheckErr.TypeSignatureTooDeep) /\
    Value_deserialize (E:=VmError) hex t = Panic.
Proof.
  split_and!; [vm_compute; reflexivity..| | |].
  - vm_compute. discriminate.
  - vm_compute. reflexivity.
  - set (bs := repeat x0a 16 ++ x01 :: repeat x00 16). exists bs, (to_hex bs).
    split_and!; vm_compute; reflexivity.
Qed.

(** The tuple type [{a: int, b: int}], and the bytes of a tuple that names the
    field [a] twice. *)
Definition type_ab : TypeSignature := TupleType (mkTupleType [("a", IntType); ("b", IntType)]).
Definition duplicate_bytes : list byte :=
  prefix_byte TP_Tuple ++ u32_be_bytes 2
  ++ (to_be_bytes 1 1 ++ as_bytes "a" ++ prefix_byte TP_Int ++ to_be_bytes 16 1)
  ++ (to_be_bytes 1 1 ++ as_bytes "a" ++ prefix_byte TP_Int ++ to_be_bytes 16 2).

(** [TupleData::from_data_typed] does not check for repeated names (as
    [from_data] does): the bytes of a tuple that gives [a] twice are accepted at
    type [{a: int, b: int}] and give a tuple value of that type without field [b]. *)
Lemma duplicate_field_accepted :
  exists v, try_deserialize_bytes duplicate_bytes type_ab = Ok v /\
    v = VTuple (mkTupleData (mkTupleType [("a", IntType); ("b", IntType)]) [("a", VInt 2)]) /\
    admits (E:=VmError) type_ab v = Ok true /\ Value_wf v = false /\
    try_deserialize_bytes_untyped duplicate_bytes = Err (DeserializationError "Illegal tuple type").
Proof.
  exists (VTuple (mkTupleData (mkTupleType [("a", IntType); ("b", IntType)]) [("a", VInt 2)])).
  split_and!; vm_compute; reflexivity.
Qed.

(** The documentation of [SerializationError] says that an end of input is
    rethrown as a [DeserializationError]; a truncated value gives an [IOError]. *)
Lemma truncated_input_is_io_error (t : TypeSignature) (n : Z) :
  try_deserialize_bytes [] t = Err (IOError UnexpectedEof) /\
  try_deserialize_bytes_untyped (prefix_byte TP_UInt ++ to_be_bytes 15 n) = Err (IOError UnexpectedEof).
Proof. split; reflexivity. Qed.
