(* ===== verification/Injectivity.v ===== *)
(** Injectivity: the consensus serialization of a Clarity value determines it.
    Keys of data maps, assets and withdrawals are serialized values, so two
    different values must never share their bytes. *)
From Stdlib Require Import ZArith Lia Strings.Byte Strings.String List Bool.
From stdpp Require Import base decidable list strings option.
From S2P Require Import Prelude Bytes Utf8 Codec Representations BTree Types Signatures Admission Values.
From S2P Require Import Serialization RoundTrip.
Open Scope Z_scope.

(** * Pieces that know their own length *)
Lemma app_same_length {A : Type} (a b x y : list A) :
  a ++ x = b ++ y -> length a = length b -> a = b /\ x = y.
Proof. intros H Hl. by apply app_inj_1. Qed.

Lemma be_bytes_app (n : nat) (a b : Z) (x y : list byte) :
  to_be_bytes n a ++ x = to_be_bytes n b ++ y -> to_be_bytes n a = to_be_bytes n b /\ x = y.
Proof. intros H. apply app_same_length in H; [done|]. by rewrite !length_to_be_bytes. Qed.

Lemma unsigned_app (n : nat) (a b : Z) (x y : list byte) :
  0 <= a < 256 ^ Z.of_nat n -> 0 <= b < 256 ^ Z.of_nat n ->
  to_be_bytes n a ++ x = to_be_bytes n b ++ y -> a = b /\ x = y.
Proof. intros Ha Hb H. apply be_bytes_app in H as [H ->]. split; [|done]. by apply to_be_bytes_inj in H. Qed.

Lemma i128_app (a b : Z) (x y : list byte) :
  in_ty i128_ty a = true -> in_ty i128_ty b = true ->
  to_be_bytes 16 a ++ x = to_be_bytes 16 b ++ y -> a = b /\ x = y.
Proof.
  intros Ha Hb H. apply be_bytes_app in H as [H ->]. split; [|done].
  apply (f_equal from_be_bytes) in H. rewrite !from_to_be_bytes in H.
  change (256 ^ Z.of_nat 16) with (2 ^ 128) in H. apply in_ty_spec in Ha, Hb. simpl in Ha, Hb.
  rewrite <-(to_signed_mod 128 a), <-(to_signed_mod 128 b), H by (unfold i128_min, i128_max in *; simpl in *; lia). done.
Qed.

(** A length, then that many bytes. *)
Lemma sized_app (n : nat) (a b x y : list byte) :
  zlen a < 256 ^ Z.of_nat n -> zlen b < 256 ^ Z.of_nat n ->
  (to_be_bytes n (zlen a) ++ a) ++ x = (to_be_bytes n (zlen b) ++ b) ++ y -> a = b /\ x = y.
Proof.
  intros Ha Hb H. rewrite <-!app_assoc in H. pose proof (zlen_nonneg a). pose proof (zlen_nonneg b).
  apply unsigned_app in H as [Hl H]; [|lia..]. apply app_same_length in H; [done|]. unfold zlen in Hl. lia.
Qed.

Lemma name_app (s t : string) (bs ct x y : list byte) :
  name_serialize_write s = Ok bs -> name_serialize_write t = Ok ct -> bs ++ x = ct ++ y -> s = t /\ x = y.
Proof.
  unfold name_serialize_write. intros Hs Ht H.
  apply out_bind_Ok in Hs as (n & Hn & Hs). apply out_bind_Ok in Ht as (k & Hk & Ht).
  injection Hs as <-. injection Ht as <-.
  apply expect_some_Ok, checked_Some in Hn as [-> Hn], Hk as [-> Hk]. simpl in Hn, Hk. unfold u8_max in *.
  rewrite <-!zlen_as_bytes in *.
  apply (sized_app 1 (as_bytes s) (as_bytes t) x y) in H as [H ->]; [|simpl; lia..]. split; [|done]. by apply as_bytes_inj.
Qed.

Lemma standard_app (p q : StandardPrincipalData) (x y : list byte) :
  StandardPrincipalData_wf p = true -> StandardPrincipalData_wf q = true ->
  StandardPrincipalData_serialize_write p ++ x = StandardPrincipalData_serialize_write q ++ y -> p = q /\ x = y.
Proof.
  unfold StandardPrincipalData_wf, StandardPrincipalData_serialize_write. intros Hp%Nat.eqb_eq Hq%Nat.eqb_eq.
  destruct p as [v bs], q as [v' bs']. simpl in *. intros [= -> H]. apply app_same_length in H as [-> ->]; [done|lia].
Qed.

Lemma utf8_chars_unique (d e : list (list byte)) :
  forallb is_utf8_char d = true -> forallb is_utf8_char e = true -> concat d = concat e -> d = e.
Proof.
  assert (forall d, forallb is_utf8_char d = true -> exists cs, d = map encode_utf8 cs /\ utf8_chars (concat d) = Some cs) as Hd.
  { intros d0. induction d0 as [|c d0 IH]; simpl; [by exists []|]. rewrite andb_true_iff. intros [Hc Hd].
    destruct (IH Hd) as (cs & -> & Hcs). unfold is_utf8_char in Hc. destruct (utf8_chars c) as [[|z []]|] eqn:E; try done.
    apply encode_utf8_chars in E as [Hz E]. simpl in E. rewrite app_nil_r in E. subst c. apply Forall_cons_1 in Hz as [Hz _].
    exists (z :: cs). split; [done|]. rewrite utf8_chars_encode by done. by rewrite Hcs. }
  intros H1 H2 H. destruct (Hd d H1) as (cs & -> & Hcs). destruct (Hd e H2) as (cs' & -> & Hcs').
  rewrite H in Hcs. congruence.
Qed.

(** * Values *)
(** Written one after the other, the bytes of [v] end where those of an equal
    value end. *)
Definition separates (v : Value) : Prop :=
  forall w bs ct x y, Value_wf v = true -> Value_wf w = true ->
    serialize_write v = Ok bs -> serialize_write w = Ok ct -> bs ++ x = ct ++ y ->
    Value_eqb v w = true /\ x = y.

Lemma prefix_inj (p q : TypePrefix) (x y : list byte) :
  prefix_byte p ++ x = prefix_byte q ++ y -> p = q /\ x = y.
Proof. unfold prefix_byte. intros [= H ->]. split; [|done]. by destruct p, q. Qed.

(** The first byte of a serialization is the prefix of the value. *)
Lemma serialize_prefix (v : Value) (bs : list byte) :
  serialize_write v = Ok bs -> exists body, bs = prefix_byte (TypePrefix_from_value v) ++ body.
Proof.
  destruct v; cbn [serialize_write]; intros H; apply out_bind_Ok in H as (body & _ & H); simplify_eq; by exists body.
Qed.

Lemma same_prefix (v w : Value) (bs ct x y : list byte) :
  serialize_write v = Ok bs -> serialize_write w = Ok ct -> bs ++ x = ct ++ y ->
  TypePrefix_from_value v = TypePrefix_from_value w.
Proof.
  intros Hv Hw H. destruct (serialize_prefix v bs Hv) as [b ->]. destruct (serialize_prefix w ct Hw) as [c ->].
  rewrite <-!app_assoc in H. by apply prefix_inj in H as [? _].
Qed.

(** Lists of values, item by item. *)
Definition values_eqb : list Value -> list Value -> bool :=
  fix go (l k : list Value) : bool :=
    match l, k with
    | [], [] => true
    | v :: l, w :: k => Value_eqb v w && go l k
    | _, _ => false
    end.

Definition fields_eqb : BTreeMap Value -> BTreeMap Value -> bool :=
  fix go (m n : BTreeMap Value) : bool :=
    match m, n with
    | [], [] => true
    | (k, v) :: m, (k', w) :: n => String.eqb k k' && Value_eqb v w && go m n
    | _, _ => false
    end.

Lemma items_app (l k : list Value) (ps qs : list (list byte)) (x y : list byte) :
  Forall separates l -> length l = length k ->
  Forall (fun v => Value_wf v = true) l -> Forall (fun v => Value_wf v = true) k ->
  Forall2 (fun v p => serialize_write v = Ok p) l ps -> Forall2 (fun v p => serialize_write v = Ok p) k qs ->
  concat ps ++ x = concat qs ++ y -> values_eqb l k = true /\ x = y.
Proof.
  intros Hsep. revert k ps qs. induction Hsep as [|v l Hv _ IH]; intros [|w k] ps qs Hlen Wl Wk Hp Hq H; try done.
  - inversion Hp; inversion Hq; subst. done.
  - inversion Hp as [|? p ? ps' Ep Hps]; inversion Hq as [|? q ? qs' Eq Hqs]; subst. simpl in H, Hlen.
    apply Forall_cons_1 in Wl as [Wv Wl], Wk as [Ww Wk]. rewrite <-!app_assoc in H.
    destruct (Hv w p q _ _ Wv Ww Ep Eq H) as [He H']. cbn [values_eqb]. rewrite He.
    by apply (IH k ps' qs'); [lia|..].
Qed.

Lemma fields_app (m n : BTreeMap Value) (ps qs : list (list byte)) (x y : list byte) :
  Forall (fun e => separates (snd e)) m -> length m = length n ->
  Forall (fun e => Value_wf (snd e) = true) m -> Forall (fun e => Value_wf (snd e) = true) n ->
  Forall2 (fun e p => write_field e = Ok p) m ps -> Forall2 (fun e p => write_field e = Ok p) n qs ->
  concat ps ++ x = concat qs ++ y -> fields_eqb m n = true /\ x = y.
Proof.
  intros Hsep. revert n ps qs. induction Hsep as [|[k v] m Hv _ IH]; intros [|[k' w] n] ps qs Hlen Wm Wn Hp Hq H; try done.
  - inversion Hp; inversion Hq; subst. done.
  - inversion Hp as [|? p ? ps' Ep Hps]; inversion Hq as [|? q ? qs' Eq Hqs]; subst. simpl in H, Hlen.
    apply Forall_cons_1 in Wm as [Wv Wm], Wn as [Ww Wn]. unfold write_field in Ep, Eq.
    apply out_bind_Ok in Ep as (kb & Ekb & Ep). apply out_bind_Ok in Ep as (vb & Evb & Ep).
    apply out_bind_Ok in Eq as (kb' & Ekb' & Eq). apply out_bind_Ok in Eq as (wb & Ewb & Eq). simplify_eq.
    rewrite <-!app_assoc in H. destruct (name_app k k' kb kb' _ _ Ekb Ekb' H) as [-> H'].
    destruct (Hv w vb wb _ _ Wv Ww Evb Ewb H') as [He H'']. cbn [snd] in He. cbn [fields_eqb]. rewrite He, String.eqb_refl.
    by apply (IH n ps' qs'); [lia|..].
Qed.

Lemma wf_list_items (l : list Value) (ty : ListTypeData) :
  Value_wf (VSequence (SeqList (mkListData l ty))) = true -> Forall (fun v => Value_wf v = true) l.
Proof. intros (_ & _ & _ & H)%Value_wf_list. revert H. apply Forall_impl. by intros v [? _]. Qed.

Lemma wf_tuple_fields (m : BTreeMap Value) (ty : TupleTypeSignature) :
  Value_wf (VTuple (mkTupleData ty m)) = true -> Forall (fun e => Value_wf (snd e) = true) m.
Proof. intros (_ & _ & _ & H)%Value_wf_tuple. revert H. apply Forall_impl. by intros e [? _]. Qed.

(** Takes apart the serializations of two values of the same shape. *)
Ltac both_bodies Hv Hw H Bv Bw :=
  cbn [serialize_write TypePrefix_from_value TypePrefix_from_principal] in Hv, Hw;
  let b := fresh "b" in let c := fresh "c" in
  apply out_bind_Ok in Hv as (b & Bv & Hv); apply out_bind_Ok in Hw as (c & Bw & Hw);
  apply (inj Ok) in Hv, Hw; subst; rewrite <-!app_assoc in H; apply prefix_inj in H as [_ H].

Lemma separates_principal (p : PrincipalData) : separates (VPrincipal p).
Proof.
  intros w bs ct x y Wv Ww Hv Hw H. pose proof (same_prefix _ _ _ _ _ _ Hv Hw H) as Hp.
  destruct w as [| |[]|[| |[]]|q| |[]|[]]; try (by destruct p); destruct p as [p|p], q as [q|q]; try done;
    both_bodies Hv Hw H Bv Bw; cbn [Value_wf PrincipalData_wf] in Wv, Ww; cbn [Value_eqb].
  - apply (inj Ok) in Bv, Bw. subst. apply standard_app in H as [-> ->]; [|done..]. by rewrite bool_decide_eq_true_2.
  - unfold QualifiedContractIdentifier_wf in Wv, Ww. apply andb_true_iff in Wv as [Wv _], Ww as [Ww _].
    apply out_bind_Ok in Bv as (nb & Nb & Bv). apply out_bind_Ok in Bw as (kb & Kb & Bw).
    apply (inj Ok) in Bv, Bw. subst. rewrite <-!app_assoc in H. apply standard_app in H as [Hi H]; [|done..].
    destruct p as [i n], q as [j k]. cbn [issuer qc_name] in *. subst j.
    destruct (name_app n k nb kb x y Nb Kb H) as [-> ->]. by rewrite bool_decide_eq_true_2.
Qed.

(** A [u32] length, then the bytes. *)
Lemma buffer_app (d e : list byte) (b c x y : list byte) :
  (let? len := expect (BufferLength_try_from (zlen d)) in Ok (E:=io_error) (u32_be_bytes len ++ d)) = Ok b ->
  (let? len := expect (BufferLength_try_from (zlen e)) in Ok (E:=io_error) (u32_be_bytes len ++ e)) = Ok c ->
  b ++ x = c ++ y -> d = e /\ x = y.
Proof.
  assert (forall d b, (let? len := expect (BufferLength_try_from (zlen d)) in Ok (E:=io_error) (u32_be_bytes len ++ d)) = Ok b ->
    b = to_be_bytes 4 (zlen d) ++ d /\ zlen d < 256 ^ Z.of_nat 4) as Hb.
  { intros d0 b0. unfold BufferLength_try_from. case_match; [done|]. cbn [expect out_bind]. intros [= <-].
    split; [done|]. bool_to_prop. unfold_sizes. simpl. lia. }
  intros [-> Hd]%Hb [-> He]%Hb. by apply sized_app.
Qed.

Lemma separates_string (s : CharType) : separates (VSequence (SeqString s)).
Proof.
  intros w bs ct x y Wv Ww Hv Hw H. pose proof (same_prefix _ _ _ _ _ _ Hv Hw H) as Hp.
  destruct w as [| |[]|[| |t]|[]| |[]|[]]; try (by destruct s); destruct s as [d|d], t as [e|e]; try done;
    both_bodies Hv Hw H Bv Bw; cbn [Value_wf] in Wv, Ww; cbn [Value_eqb].
  - apply andb_true_iff in Wv as [Lv Wv], Ww as [Lw Ww]. apply Z.leb_le in Lv, Lw. apply (inj Ok) in Bv, Bw. subst.
    destruct (utf8_total_len d 0 Wv ltac:(lia)) as [Hd Kd]; [unfold_sizes; int_lia|].
    destruct (utf8_total_len e 0 Ww ltac:(lia)) as [He Ke]; [unfold_sizes; int_lia|]. rewrite Hd, He in H.
    unfold u32_be_bytes in H. change (0 + zlen (concat d)) with (zlen (concat d)) in H.
    change (0 + zlen (concat e)) with (zlen (concat e)) in H.
    apply sized_app in H as [H ->]; [|unfold_sizes; simpl; lia..].
    apply utf8_chars_unique in H as ->; [|done..]. by rewrite bool_decide_eq_true_2.
  - destruct (buffer_app d e b c x y Bv Bw H) as [-> ->]. by rewrite bool_decide_eq_true_2.
Qed.

Lemma separates_list (l : list Value) (ty : ListTypeData) :
  Forall separates l -> separates (VSequence (SeqList (mkListData l ty))).
Proof.
  intros IH w bs ct x y Wv Ww Hv Hw H. pose proof (same_prefix _ _ _ _ _ _ Hv Hw H) as Hp.
  destruct w as [| |[]|[|[k ty']|[]]|[]| |[]|[]]; try done. both_bodies Hv Hw H Bv Bw.
  apply wf_list_items in Wv, Ww. cbn [ld_data] in Bv, Bw.
  apply out_bind_Ok in Bv as (n & Hn & Bv), Bw as (n' & Hn' & Bw). apply expect_some_Ok, checked_Some in Hn as [-> Hn], Hn' as [-> Hn'].
  apply out_bind_Ok in Bv as (ps & Hps & Bv), Bw as (qs & Hqs & Bw). apply (inj Ok) in Bv, Bw. subst.
  apply write_all_Ok in Hps as (parts & Hparts & ->), Hqs as (parts' & Hparts' & ->).
  rewrite <-!app_assoc in H. apply unsigned_app in H as [Hlen H]; [|simpl in *; unfold u32_max in *; lia..].
  change (Value_eqb _ _) with (values_eqb l k). eapply items_app; eauto. unfold zlen in Hlen. lia.
Qed.

Lemma separates_tuple (ty : TupleTypeSignature) (m : BTreeMap Value) :
  Forall (fun e => separates (snd e)) m -> separates (VTuple (mkTupleData ty m)).
Proof.
  intros IH w bs ct x y Wv Ww Hv Hw H. pose proof (same_prefix _ _ _ _ _ _ Hv Hw H) as Hp.
  destruct w as [| |[]|[| |[]]|[]|[ty' n]|[]|[]]; try done. both_bodies Hv Hw H Bv Bw.
  apply wf_tuple_fields in Wv, Ww. cbn [td_data_map] in Bv, Bw.
  apply out_bind_Ok in Bv as (z & Hz & Bv), Bw as (z' & Hz' & Bw). apply expect_some_Ok, checked_Some in Hz as [-> Hz], Hz' as [-> Hz'].
  apply out_bind_Ok in Bv as (ps & Hps & Bv), Bw as (qs & Hqs & Bw). apply (inj Ok) in Bv, Bw. subst.
  change (write_all write_field m = Ok ps) in Hps. change (write_all write_field n = Ok qs) in Hqs.
  apply write_all_Ok in Hps as (parts & Hparts & ->), Hqs as (parts' & Hparts' & ->).
  rewrite <-!app_assoc in H. apply unsigned_app in H as [Hlen H]; [|simpl in *; unfold u32_max in *; lia..].
  change (Value_eqb _ _) with (fields_eqb m n). eapply fields_app; eauto. unfold zlen in Hlen. lia.
Qed.

Lemma serialize_separates (v : Value) : separates v.
Proof.
  induction v as [i|u|b|d|l ty IH|s|p|ty m IH| |v IH|c v IH] using Value_ind'.
  5: by apply separates_list. 5: by apply separates_string. 5: by apply separates_principal. 5: by apply separates_tuple.
  all: intros w bs ct x y Wv Ww Hv Hw H; pose proof (same_prefix _ _ _ _ _ _ Hv Hw H) as Hp;
    destruct w as [j|u'|b'|[e| |[]]|[]| |[w|]|c' w]; try done; try (by destruct b); try (by destruct b');
    try (by destruct c); try (by destruct c'); try (by destruct b, c'); try (by destruct c, b');
    both_bodies Hv Hw H Bv Bw; cbn [Value_wf Value_eqb] in *.
  - apply (inj Ok) in Bv, Bw. subst. apply i128_app in H as [-> ->]; [|done..]. by rewrite Z.eqb_refl.
  - apply (inj Ok) in Bv, Bw. subst. apply in_ty_spec in Wv, Ww.
    apply unsigned_app in H as [-> ->]; [by rewrite Z.eqb_refl|simpl in *; unfold u128_max in *; lia..].
  - apply (inj Ok) in Bv, Bw. subst. by destruct b, b'.
  - destruct (buffer_app d e b c x y Bv Bw H) as [-> ->]. by rewrite bool_decide_eq_true_2.
  - apply (inj Ok) in Bv, Bw. by subst.
  - apply andb_true_iff in Wv as [Wv _], Ww as [Ww _]. by apply (IH w b c).
  - apply andb_true_iff in Wv as [Wv _], Ww as [Ww _]. destruct (IH w b c0 x y Wv Ww Bv Bw H) as [-> ->]. by destruct c, c'.
Qed.

(** Equal values have equal serializations. *)
Lemma eqb_serialize (v w : Value) : Value_eqb v w = true -> serialize_write v = serialize_write w.
Proof.
  revert w. induction v as [i|u|b|d|l ty IH|s|p|ty m IH| |v IH|c v IH] using Value_ind'; intros w H;
    destruct w as [j|u'|b'|[e|[k ty']|[e|e]]|q|[ty' n]|[w|]|c' w]; try done; try (by destruct s); cbn [Value_eqb] in H.
  - by apply Z.eqb_eq in H as ->.
  - by apply Z.eqb_eq in H as ->.
  - by apply eqb_prop in H as ->.
  - by apply bool_decide_eq_true_1 in H as ->.
  - change (values_eqb l k = true) in H. assert (zlen l = zlen k /\ write_all serialize_write l = write_all serialize_write k) as [Hl Hw].
    { revert k H. induction IH as [|v l Hv _ IHl]; intros [|w k] H; try done. cbn [values_eqb] in H.
      apply andb_true_iff in H as [He H]. destruct (IHl k H) as [Hl Hw]. rewrite !zlen_cons, Hl. split; [done|].
      unfold write_all in *. cbn [try_map]. rewrite (Hv w He). destruct (serialize_write w); [|done..]. cbn [out_bind].
      destruct (try_map serialize_write l), (try_map serialize_write k); simpl in Hw |- *; simplify_eq; try done. by rewrite Hw. }
    cbn [serialize_write ld_data TypePrefix_from_value]. by rewrite Hl, Hw.
  - destruct s as [d|d]; [by apply bool_decide_eq_true_1 in H as ->|done].
  - destruct s as [d|d]; [done|by apply bool_decide_eq_true_1 in H as ->].
  - by apply bool_decide_eq_true_1 in H as ->.
  - change (fields_eqb m n = true) in H. assert (zlen m = zlen n /\ write_all write_field m = write_all write_field n) as [Hl Hw].
    { revert n H. induction IH as [|[k v] m Hv _ IHm]; intros [|[k' w] n] H; try done. cbn [fields_eqb] in H.
      apply andb_true_iff in H as [He H]. apply andb_true_iff in He as [->%String.eqb_eq He].
      destruct (IHm n H) as [Hl Hw]. rewrite !zlen_cons, Hl. split; [done|].
      unfold write_all in *. cbn [try_map write_field]. cbn [snd] in Hv. rewrite (Hv w He).
      destruct (name_serialize_write k'), (serialize_write w); [|done..]. cbn [out_bind].
      destruct (try_map write_field m), (try_map write_field n); simpl in Hw |- *; simplify_eq; try done. by rewrite Hw. }
    cbn [serialize_write td_data_map TypePrefix_from_value]. rewrite Hl.
    change (write_all _ m) with (write_all write_field m). change (write_all _ n) with (write_all write_field n). by rewrite Hw.
  - cbn [serialize_write TypePrefix_from_value]. by rewrite (IH w H).
  - apply andb_true_iff in H as [->%eqb_prop H]. cbn [serialize_write TypePrefix_from_value]. by rewrite (IH w H).
Qed.

(** C29: the serialization of a value determines it: two well-formed values have
    the same bytes if and only if they are equal in the sense of [PartialEq]
    (which ignores the type signatures kept in lists and tuples).  Even followed
    by other bytes, the serialization of one is never a prefix of the
    serialization of a different one. *)
Theorem serialize_injective (v w : Value) (bs ct x y : list byte) :
  Value_wf v = true -> Value_wf w = true -> serialize_write v = Ok bs -> serialize_write w = Ok ct ->
  (bs ++ x = ct ++ y <-> Value_eqb v w = true /\ x = y).
Proof.
  intros Wv Ww Hv Hw. split; [by apply (serialize_separates v w)|]. intros [He ->].
  f_equal. enough (serialize_write v = serialize_write w) by congruence. by apply eqb_serialize.
Qed.

Lemma serialize_injective_witness :
  to_be_bytes 17 (2 ^ 128 + 7) ++ [x00] = to_be_bytes 17 (2 ^ 128 + 8) ++ [x00] <-> false = true /\ [x00] = [x00].
Proof.
  apply (serialize_injective (VUInt 7) (VUInt 8) _ _ [x00] [x00]); vm_compute; reflexivity.
Defined.
