(* ===== verification/ValueCodec.v ===== *)
(** ValueCodec: [StacksMessageCodec] for Clarity values and principals
    (clarity/src/vm/types/serialization.rs), read without an expected type, and
    readers limited with [BoundReader] inside other readers.

    Without a type the reader infers one: a list or tuple read back carries the
    types of what it contains.  [untyped_form] computes that value, and the
    reader returns it for the serialization of every well-formed value. *)
From Stdlib Require Import ZArith Lia Strings.Byte Strings.String List Bool.
From stdpp Require Import base list strings.
From S2P Require Import Prelude Bytes Utf8 Codec Representations BTree Types Signatures Admission Values.
From S2P Require Import Serialization RoundTrip Deserialization Injectivity.
Open Scope Z_scope.

(** * Bounded readers *)
(** What a [BoundReader] over [fd] can deliver. *)
Definition bounded (max_len : Z) (fd : list byte) : list byte :=
  if zlen fd <=? max_len then fd else firstn (Z.to_nat max_len) fd.

(** [{ let mut bound_read = BoundReader::from_reader(fd, max_len); read(&mut bound_read) }]:
    [read] runs on the input cut off at the bound, and [fd] goes on after the
    bytes it took. *)
Definition read_bounded {E T : Type} (max_len : Z) (read : list byte -> outcome E (T * list byte)) (fd : list byte)
  : outcome E (T * list byte) :=
  let bound := bounded max_len fd in
  let? '(x, unread) := read bound in
  Ok (x, skipn (length bound - length unread) fd).

Lemma bounded_prefix (max_len : Z) (bs rest : list byte) :
  zlen bs <= max_len -> exists rest', bounded max_len (bs ++ rest) = bs ++ rest' /\ rest' = firstn (length rest') rest.
Proof.
  intros Hl. unfold bounded. case_match; [exists rest; split; [done|]; by rewrite firstn_all|].
  rewrite firstn_app. rewrite firstn_all2 by (unfold zlen in Hl; lia). eexists. split; [done|].
  set (k := (Z.to_nat max_len - length bs)%nat). rewrite length_firstn.
  destruct (Nat.le_gt_cases k (length rest)); [by rewrite Nat.min_l|].
  rewrite Nat.min_r by lia. by rewrite firstn_all, firstn_all2 by lia.
Qed.

(** A value within the bound is read as without it. *)
Lemma read_bounded_ok {E T : Type} (max_len : Z) (read : list byte -> outcome E (T * list byte)) (bs rest : list byte) (x : T) :
  (forall rest, read (bs ++ rest) = Ok (x, rest)) -> zlen bs <= max_len ->
  read_bounded max_len read (bs ++ rest) = Ok (x, rest).
Proof.
  intros Hread Hl. unfold read_bounded. destruct (bounded_prefix max_len bs rest Hl) as (rest' & -> & _).
  rewrite Hread. cbn [out_bind]. do 2 f_equal. rewrite length_app.
  replace (length bs + length rest' - length rest')%nat with (length bs) by lia.
  by rewrite skipn_app, skipn_all, Nat.sub_diag.
Qed.

(** * Values without an expected type *)
Fixpoint untyped_form (v : Value) : outcome VmError Value :=
  match v with
  | VSequence (SeqList (mkListData l _)) => let? l' := try_map untyped_form l in list_from l'
  | VTuple (mkTupleData _ m) =>
      let? m' := try_map (fun '(key, value) => let? value' := untyped_form value in Ok (key, value')) m in
      let? t := TupleData_from_data m' in
      Ok (VTuple t)
  | VOptional (Some data) => let? data' := untyped_form data in Value_some data'
  | VResponse committed data =>
      let? data' := untyped_form data in
      if committed then Value_okay data' else Value_error data'
  | _ => Ok v
  end.

Definition Value_consensus_deserialize (fd : list byte) : outcome codec_error (Value * list byte) :=
  map_err (fun e => match e with
                    | IOError e => ReadError e
                    | _ => DeserializeError "Failed to decode clarity value"
                    end)
    (read_bounded BOUND_VALUE_SERIALIZATION_BYTES (inner_deserialize_read (R:=list byte) 16 None) fd).

(** [size_of_Value] is [mem::size_of::<Value>()], which the compiler decides. *)
Definition Value_codec (size_of_Value : Z) : Codec Value := {|
  consensus_serialize self := map_err WriteError (serialize_write self);
  consensus_deserialize := Value_consensus_deserialize;
  mem_size_of := size_of_Value
|}.

(** * The untyped reader *)
Section untyped.
Context {R : Type} `{HL : ReaderLaws R}.

Definition reads_untyped (v v' : Value) (levels : nat) : Prop :=
  exists bs, serialize_write v = Ok bs /\ parses (inner_deserialize_read levels None) bs v'.

Lemma ru_list (l l' : list Value) (ty : ListTypeData) (v' : Value) (levels : nat) :
  zlen l <= MAX_VALUE_SIZE -> Forall2 (fun v w => reads_untyped v w levels) l l' -> list_from l' = Ok v' ->
  reads_untyped (VSequence (SeqList (mkListData l ty))) v' (S levels).
Proof using HL.
  intros Hlen Hl Hv'. pose proof (zlen_nonneg l) as Hz.
  assert (exists parts, Forall2 (fun v p => serialize_write v = Ok p) l parts /\
            Forall2 (fun p w => parses (inner_deserialize_read levels None) p w) parts l') as (parts & H1 & H2).
  { clear Hlen Hv' Hz. induction Hl as [|v w l l' (bs & Hbs & Hp) _ (parts & H1 & H2)].
    - exists []. split; constructor.
    - exists (bs :: parts). split; constructor; auto. }
  assert (length l' = length l) as Hl' by (apply Forall2_length in Hl; lia).
  eexists. split; [apply serialize_list; [unfold_bounds; unfold_sizes; lia|apply write_all_Ok; eauto]|].
  cbn [inner_deserialize_read]. apply (parse_prefix TP_List). cbv beta iota.
  apply parse_u32; [unfold_bounds; unfold_sizes; lia|]. intros Hfrom. cbv zeta. rewrite Hfrom.
  rewrite (proj2 (Z.ltb_ge _ _)) by lia. eapply parses_pure; [done|].
  rewrite <-(app_nil_r (concat parts)). replace (Z.to_nat (zlen l)) with (length l') by (unfold zlen; lia).
  eapply parses_bind; [by apply parses_times|]. cbv beta.
  eapply parses_pure; [|apply parses_ret]. unfold bad. by rewrite Hv'.
Qed.

(** The closure that reads a field of a tuple when no type is expected. *)
Definition read_untyped_field (levels : nat) (r : R) : outcome SerializationError ((string * Value) * R) :=
  let? '(key, r) := name_deserialize_read ClarityName_try_from r in
  let? expected_field_type := Ok None in
  let? '(value, r) := inner_deserialize_read levels expected_field_type r in
  Ok ((key, value), r).

Lemma ru_field (k : string) (v v' : Value) (levels : nat) :
  ClarityName_valid k = true -> reads_untyped v v' levels ->
  exists p, write_field (k, v) = Ok p /\ parses (read_untyped_field levels) p (k, v').
Proof using HL.
  intros Hk (bs & Hbs & Hp). unfold write_field. rewrite name_serialize_Ok by auto. cbn [out_bind]. rewrite Hbs.
  cbn [out_bind]. eexists. split; [done|]. eapply parses_bind; [by apply parse_clarity_name|]. cbv beta.
  eapply parses_pure; [done|]. rewrite <-(app_nil_r bs). eapply parses_bind; [exact Hp|apply parses_ret].
Qed.

Lemma ru_tuple (m m' : BTreeMap Value) (ty : TupleTypeSignature) (t : TupleData) (levels : nat) :
  zlen m <= MAX_VALUE_SIZE -> Forall (fun e => ClarityName_valid (fst e) = true) m ->
  Forall2 (fun e f => fst e = fst f /\ reads_untyped (snd e) (snd f) levels) m m' ->
  TupleData_from_data m' = Ok t ->
  reads_untyped (VTuple (mkTupleData ty m)) (VTuple t) (S levels).
Proof using HL.
  intros Hlen Hk Hm Ht. pose proof (zlen_nonneg m) as Hz.
  assert (exists parts, Forall2 (fun e p => write_field e = Ok p) m parts /\
            Forall2 (fun p e => parses (read_untyped_field levels) p e) parts m') as (parts & H1 & H2).
  { clear Hlen Ht Hz. induction Hm as [|[k v] [k' w] m m' [Hkk Hv] _ IH]; [exists []; split; constructor|].
    apply List.Forall_cons_iff in Hk as [Hk Hks]. simpl in *. subst k'.
    destruct (IH Hks) as (parts & H1 & H2). destruct (ru_field k v w levels Hk Hv) as (p & Hp1 & Hp2).
    exists (p :: parts). split; constructor; auto. }
  assert (length m' = length m) as Hl' by (apply Forall2_length in Hm; lia).
  eexists. split; [apply serialize_tuple; [unfold_bounds; unfold_sizes; lia|apply write_all_Ok; eauto]|].
  cbn [inner_deserialize_read]. apply (parse_prefix TP_Tuple). cbv beta iota.
  apply parse_u32; [unfold_bounds; unfold_sizes; lia|]. intros Hfrom. cbv zeta. rewrite Hfrom.
  rewrite (proj2 (Z.ltb_ge _ _)) by lia. eapply parses_pure; [done|].
  rewrite <-(app_nil_r (concat parts)). replace (Z.to_nat (zlen m)) with (length m') by (unfold zlen; lia).
  eapply parses_bind; [exact (parses_times _ _ _ H2)|]. cbv beta.
  eapply parses_pure; [|apply parses_ret]. unfold bad. by rewrite Ht.
Qed.

Lemma ru_wrap (v v' w : Value) (levels : nat) (p : TypePrefix) (wrap : Value -> Value) :
  reads_untyped v v' levels ->
  (p = TP_OptionalSome /\ wrap = (fun v => VOptional (Some v)) /\ Value_some v' = Ok w) \/
  (p = TP_ResponseOk /\ wrap = VResponse true /\ Value_okay v' = Ok w) \/
  (p = TP_ResponseErr /\ wrap = VResponse false /\ Value_error v' = Ok w) ->
  reads_untyped (wrap v) w (S levels).
Proof using HL.
  intros (bs & Hbs & Hp) Hcase. exists (prefix_byte p ++ bs).
  destruct Hcase as [(-> & -> & Hw)|[(-> & -> & Hw)|(-> & -> & Hw)]]; cbn [serialize_write]; rewrite Hbs;
    (split; [done|]); cbn [inner_deserialize_read].
  - apply (parse_prefix TP_OptionalSome). cbv beta iota. eapply parses_pure; [done|]. rewrite <-(app_nil_r bs).
    eapply parses_bind; [exact Hp|]. cbv beta. eapply parses_pure; [|apply parses_ret]. by rewrite Hw.
  - apply (parse_prefix TP_ResponseOk). cbv beta iota zeta. eapply parses_pure; [done|]. rewrite <-(app_nil_r bs).
    eapply parses_bind; [exact Hp|]. cbv beta iota. eapply parses_pure; [|apply parses_ret]. by rewrite Hw.
  - apply (parse_prefix TP_ResponseErr). cbv beta iota zeta. eapply parses_pure; [done|]. rewrite <-(app_nil_r bs).
    eapply parses_bind; [exact Hp|]. cbv beta iota. eapply parses_pure; [|apply parses_ret]. by rewrite Hw.
Qed.

(** Values that are read in one piece. *)
Definition atomic (v : Value) : bool :=
  match v with
  | VInt _ | VUInt _ | VBool _ | VPrincipal _ | VOptional None => true
  | VSequence (SeqBuffer _) | VSequence (SeqString _) => true
  | _ => false
  end.

Lemma ru_atom (v : Value) (levels : nat) : atomic v = true -> Value_wf v = true -> reads_untyped v v (S levels).
Proof using HL.
  destruct v as [i|u|b|[d|l|[d|d]]|p|t|[o|]|c v]; try done; intros _ Hv; cbn [Value_wf] in Hv.
  - apply in_ty_spec in Hv. eexists. split; [done|]. cbn [inner_deserialize_read].
    apply (parse_prefix TP_Int). cbv beta iota. eapply parses_pure; [done|].
    apply parse_read_last; [apply length_to_be_bytes|done|]. rewrite from_to_be_bytes.
    change (256 ^ Z.of_nat 16) with (2 ^ 128). rewrite to_signed_mod by int_lia. apply parses_ret.
  - apply in_ty_spec in Hv. eexists. split; [done|]. cbn [inner_deserialize_read].
    apply (parse_prefix TP_UInt). cbv beta iota. eapply parses_pure; [done|].
    apply parse_read_last; [apply length_to_be_bytes|done|].
    rewrite from_to_be_bytes_small by (change (256 ^ Z.of_nat 16) with (2 ^ 128); int_lia). apply parses_ret.
  - eexists. split; [done|]. cbn [inner_deserialize_read].
    destruct b; [apply (parse_prefix TP_BoolTrue)|apply (parse_prefix TP_BoolFalse)]; cbv beta iota;
      (eapply parses_pure; [done|]); apply parses_ret.
  - apply Z.leb_le in Hv. pose proof (zlen_nonneg d). unfold reads_untyped. cbn [serialize_write].
    rewrite buffer_try_from_ok by done. cbn [out_bind]. eexists. split; [done|].
    cbn [inner_deserialize_read]. apply (parse_prefix TP_Buffer). cbv beta iota.
    apply parse_buffer_len; [lia|]. eapply parses_pure; [done|].
    apply parse_read_last; [unfold zlen; lia|unfold_bounds; unfold_sizes; lia|].
    eapply parses_pure; [|apply parses_ret]. unfold buff_from, bad, unchecked, BufferLength_try_from.
    by rewrite (proj2 (Z.ltb_ge _ _)).
  - apply andb_true_iff in Hv as [Hd%Z.leb_le Hchars]. pose proof (zlen_nonneg d). pose proof (zlen_nonneg (concat d)).
    destruct (utf8_total_len d 0 Hchars) as [Htot Hlen]; [lia|unfold_bounds; unfold_sizes; lia|].
    unfold reads_untyped. cbn [serialize_write]. rewrite Htot. cbn [out_bind]. eexists. split; [done|].
    cbn [inner_deserialize_read]. apply (parse_prefix TP_StringUTF8). cbv beta iota.
    apply parse_buffer_len; [lia|]. apply parse_read_last; [unfold zlen; lia|unfold_bounds; unfold_sizes; lia|].
    rewrite string_utf8_concat by done. cbn [bad map_err out_bind check_match]. apply parses_ret.
  - apply andb_true_iff in Hv as [Hd%Z.leb_le Hchars]. pose proof (zlen_nonneg d). unfold reads_untyped.
    cbn [serialize_write]. rewrite buffer_try_from_ok by done. cbn [out_bind]. eexists. split; [done|].
    cbn [inner_deserialize_read]. apply (parse_prefix TP_StringASCII). cbv beta iota.
    apply parse_buffer_len; [lia|]. eapply parses_pure; [done|].
    apply parse_read_last; [unfold zlen; lia|unfold_bounds; unfold_sizes; lia|].
    eapply parses_pure; [|apply parses_ret]. unfold string_ascii_from_bytes, bad, unchecked, BufferLength_try_from.
    rewrite (proj2 (Z.ltb_ge _ _)) by done. cbn [map_err out_bind]. by rewrite Hchars.
  - by apply untyped_principal.
  - eexists. split; [done|]. cbn [inner_deserialize_read]. apply (parse_prefix TP_OptionalNone). cbv beta iota.
    eapply parses_pure; [done|]. apply parses_ret.
Qed.
End untyped.

Section untyped_values.
Context {R : Type} `{HL : ReaderLaws R}.

Lemma value_reads_untyped (v v' : Value) (levels : nat) :
  Value_wf v = true -> untyped_form v = Ok v' -> (value_nesting v <= levels)%nat -> reads_untyped v v' levels.
Proof using HL.
  revert v' levels.
  induction v as [i|u|b|d|l ty IH|s|p|ty m IH| |v IH|c v IH] using Value_ind'; intros v' levels Hv Hu Hn;
    (destruct levels as [|levels]; [cbn [value_nesting] in Hn; lia|]); cbn [value_nesting untyped_form] in Hn, Hu;
    try (injection Hu as <-; by apply ru_atom).
  - destruct ty as [n e]. apply out_bind_Ok in Hu as (l' & Hl'%try_map_Ok & Hfrom).
    pose proof (wf_list_items l _ Hv) as Hitems. apply Value_wf_list in Hv as (Hwf & _ & Hlen & _).
    pose proof (proj1 (wf_list n e) Hwf) as (Hn0 & He & lt & (-> & _ & s & Hs)%new_list_Ok).
    destruct (list_size_Ok e n s Hs) as (ne & Hne & Hbound). pose proof (wf_size_pos e ne He Hne). cbn [max_len] in Hlen.
    eapply ru_list; [nia| |exact Hfrom]. rewrite List.Forall_forall in IH, Hitems.
    eapply Forall2_impl_In; [|exact Hl']. intros x y Hin _ Hxy. pose proof (nesting_item l x Hin).
    apply (IH x Hin); [by apply Hitems|done|lia].
  - apply out_bind_Ok in Hu as (m' & Hm'%try_map_Ok & Hu). apply out_bind_Ok in Hu as (t & Ht & Hu). out_inv.
    pose proof (wf_tuple_fields m _ Hv) as Hfields.
    destruct ty as [tm]. apply Value_wf_tuple in Hv as (Hwf & _ & Hkeys & _). cbn [type_map] in Hkeys.
    pose proof (proj1 (wf_tuple tm) Hwf) as (_ & Hf & sig & (-> & _ & _ & s & Hsz)%try_from_map_Ok).
    destruct (tuple_size_Ok tm s Hsz) as (sizes & Hsizes & Hbound). pose proof (sizes_nonneg tm sizes Hf Hsizes).
    pose proof (sum_nonneg (fun e : string * TypeSignature => str_len (fst e)) tm (fun e => str_len_nonneg (fst e))).
    assert (zlen m = zlen tm) as Hlen by (unfold zlen; rewrite <-(length_map fst m), Hkeys, length_map; done).
    pose proof (zlen_nonneg tm). rewrite List.Forall_forall in IH, Hfields.
    eapply ru_tuple; [lia| | |exact Ht].
    + rewrite List.Forall_forall. intros e Hin. rewrite List.Forall_forall in Hf.
      assert (In (fst e) (map fst tm)) as ((k & t') & Hk & Hin')%in_map_iff by (rewrite <-Hkeys; by apply in_map).
      rewrite <-Hk. apply (Hf _ Hin').
    + eapply Forall2_impl_In; [|exact Hm']. intros [k x] [k' y] Hin _ Hxy. apply out_bind_Ok in Hxy as (w & Hw & Hxy).
      injection Hxy as <- <-. split; [done|]. pose proof (nesting_field m k x Hin).
      apply (IH (k, x) Hin); [by apply (Hfields (k, x))|done|simpl; lia].
  - apply out_bind_Ok in Hu as (w & Hw & Hu). cbn [Value_wf] in Hv. apply andb_true_iff in Hv as [Hv _].
    apply (ru_wrap v w v' levels TP_OptionalSome (fun v => VOptional (Some v))); [apply IH; [done|done|lia]|]. by left.
  - apply out_bind_Ok in Hu as (w & Hw & Hu). cbn [Value_wf] in Hv. apply andb_true_iff in Hv as [Hv _].
    destruct c; [apply (ru_wrap v w v' levels TP_ResponseOk (VResponse true))
                |apply (ru_wrap v w v' levels TP_ResponseErr (VResponse false))];
      (apply IH; [done|done|lia]) || (right; tauto).
Qed.
End untyped_values.

(** A value the codec carries without change: it is well-formed, its types are
    those it would be given when read back, and it is nested at most 16 deep. *)
Definition value_on_wire (v : Value) : Prop :=
  Value_wf v = true /\ untyped_form v = Ok v /\ (value_nesting v <= 16)%nat.

Lemma Value_codec_reads (size_of_Value : Z) (v v' : Value) (rest : list byte) :
  Value_wf v = true -> untyped_form v = Ok v' -> (value_nesting v <= 16)%nat ->
  exists bs, consensus_serialize (Value_codec size_of_Value) v = Ok bs /\
    consensus_deserialize (Value_codec size_of_Value) (bs ++ rest) = Ok (v', rest).
Proof.
  intros Hv Hu Hn. destruct (value_reads_untyped (R:=list byte) v v' 16 Hv Hu Hn) as (bs & Hbs & Hp).
  destruct (serialize_bound v Hv) as (bs' & Hbs' & Hlen). rewrite Hbs in Hbs'. injection Hbs' as <-.
  exists bs. cbn [consensus_serialize consensus_deserialize Value_codec]. rewrite Hbs. split; [done|].
  unfold Value_consensus_deserialize. rewrite (read_bounded_ok _ _ bs rest v'); [done| |done].
  intros rest'. destruct (Hp (bs ++ rest') rest' eq_refl) as (r' & Hr & Hr'). by rewrite Hr, Hr'.
Qed.

Lemma Value_codec_ok (size_of_Value : Z) : codec_ok value_on_wire (Value_codec size_of_Value).
Proof. intros v rest (Hv & Hu & Hn). by apply Value_codec_reads. Qed.

Lemma parse_principal {R : Type} `{HL : ReaderLaws R} (p : PrincipalData) :
  PrincipalData_wf p = true ->
  exists bs, PrincipalData_inner_consensus_serialize p = Ok bs /\ parses PrincipalData_inner_consensus_deserialize bs p.
Proof.
  intros Hp. destruct p as [s|[s name]]; cbn [PrincipalData_inner_consensus_serialize issuer qc_name].
  - eexists. split; [done|]. apply (parse_prefix TP_PrincipalStandard). cbv beta iota.
    rewrite <-(app_nil_r (StandardPrincipalData_serialize_write s)).
    eapply parses_bind; [by apply parse_standard|apply parses_ret].
  - cbn [PrincipalData_wf] in Hp. unfold QualifiedContractIdentifier_wf in Hp. cbn [issuer qc_name] in Hp.
    apply andb_true_iff in Hp as [Hs Hn]. rewrite name_serialize_Ok by auto. cbn [out_bind]. eexists. split; [done|].
    apply (parse_prefix TP_PrincipalContract). cbv beta iota.
    eapply parses_bind; [by apply parse_standard|]. cbv beta. rewrite <-(app_nil_r (_ ++ as_bytes name)).
    eapply parses_bind; [by apply parse_contract_name|apply parses_ret].
Qed.

Lemma PrincipalData_codec_ok (size_of_PrincipalData : Z) :
  codec_ok (fun p => PrincipalData_wf p = true) (PrincipalData_codec size_of_PrincipalData).
Proof.
  intros p rest Hp. destruct (parse_principal (R:=list byte) p Hp) as (bs & Hbs & Hr).
  exists bs. cbn [consensus_serialize consensus_deserialize PrincipalData_codec]. rewrite Hbs. split; [done|].
  destruct (Hr (bs ++ rest) rest eq_refl) as (r' & -> & Hr'). by rewrite Hr'.
Qed.

#[export] Hint Resolve Value_codec_ok PrincipalData_codec_ok : stacks.

(** * Lists without a common type *)
Lemma from_data_ab (va vb : Value) (ta tb : TypeSignature) :
  type_of (E:=VmError) va = Ok ta -> type_of (E:=VmError) vb = Ok tb ->
  is_ok (TupleTypeSignature_try_from_map [("a", ta); ("b", tb)]) = true ->
  TupleData_from_data [("a", va); ("b", vb)] =
  Ok (mkTupleData (mkTupleType [("a", ta); ("b", tb)]) [("a", va); ("b", vb)]).
Proof.
  intros Ha Hb Hok. unfold TupleData_from_data. cbn [try_fold]. rewrite Ha. simpl. rewrite Hb. simpl. unfold unchecked.
  destruct (TupleTypeSignature_try_from_map _) as [sig| |] eqn:Hsig; try done. by apply try_from_map_Ok in Hsig as [-> _].
Qed.

(** The tuples of [wide_tuple], as values: each is well-formed, but the type of
    a list of them is too large. *)
Definition zero_buffer (n : Z) : Value := VSequence (SeqBuffer (repeat x00 (Z.to_nat n))).
Definition wide_value (m n : Z) : Value :=
  VTuple (mkTupleData (mkTupleType [("a", SequenceType (BufferType m)); ("b", SequenceType (BufferType n))])
            [("a", zero_buffer m); ("b", zero_buffer n)]).

Lemma zero_buffer_type {E : Type} (n : Z) :
  0 <= n <= MAX_VALUE_SIZE ->
  type_of (E:=E) (zero_buffer n) = Ok (SequenceType (BufferType n)) /\ Value_wf (zero_buffer n) = true.
Proof.
  intros Hn. assert (zlen (repeat x00 (Z.to_nat n)) = n) as Hz by (unfold zlen; rewrite repeat_length; lia).
  unfold zero_buffer. cbn [type_of Value_wf]. rewrite buffer_try_from_ok; rewrite Hz; [|lia]. split; [done|lia].
Qed.

Lemma wide_value_read (m n : Z) :
  0 <= m <= MAX_VALUE_SIZE -> 0 <= n <= MAX_VALUE_SIZE ->
  is_ok (TupleTypeSignature_try_from_map [("a", SequenceType (BufferType m)); ("b", SequenceType (BufferType n))]) = true ->
  (forall E, type_of (E:=E) (wide_value m n) = Ok (wide_tuple m n)) /\
  reads_untyped (R:=list byte) (wide_value m n) (wide_value m n) 15.
Proof.
  intros Hm Hn Hok. split; [done|]. unfold wide_value at 1.
  destruct (zero_buffer_type (E:=VmError) m Hm) as [Htm Hwm]. destruct (zero_buffer_type (E:=VmError) n Hn) as [Htn Hwn].
  eapply (ru_tuple [("a", zero_buffer m); ("b", zero_buffer n)] [("a", zero_buffer m); ("b", zero_buffer n)]).
  - vm_compute. congruence.
  - constructor; [done|]. constructor; [done|constructor].
  - constructor; [split; [done|by apply ru_atom]|]. constructor; [split; [done|by apply ru_atom]|constructor].
  - by apply from_data_ab.
Qed.

(** A list whose items are read but have no common type. *)
Lemma list_reader_panics (levels : nat) (parts : list (list byte)) (l : list Value) (rest : list byte) :
  zlen l <= MAX_VALUE_SIZE ->
  Forall2 (fun p w => parses (R:=list byte) (inner_deserialize_read levels None) p w) parts l -> list_from l = Panic ->
  inner_deserialize_read (R:=list byte) (S levels) None
    ((prefix_byte TP_List ++ u32_be_bytes (zlen l) ++ concat parts) ++ rest) = Panic.
Proof.
  intros Hl Hparts Hpanic. pose proof (zlen_nonneg l).
  assert (forall (a b : list byte) n, length a = n -> Z.of_nat n <= u32_max ->
            rd (R:=list byte) IOError n (a ++ b) = Ok (a, b)) as Hrd.
  { intros a b n Ha Hn. destruct (parses_rd (R:=list byte) (HL:=slice_reader_laws) a n Ha Hn (a ++ b) b eq_refl) as (r & -> & Hr). by rewrite Hr. }
  cbn [inner_deserialize_read]. rewrite <-!app_assoc.
  rewrite Hrd by done. cbn [out_bind]. change (TypePrefix_from_u8 _) with (Some TP_List).
  cbn [ok_or out_bind]. rewrite Hrd by (done || apply length_to_be_bytes). cbn [out_bind].
  unfold u32_be_bytes. rewrite from_to_be_bytes_small by (change (256 ^ Z.of_nat 4) with (2 ^ 32); unfold_sizes; lia).
  rewrite (proj2 (Z.ltb_ge _ _)) by done.
  replace (Z.to_nat (zlen l)) with (length l) by (unfold zlen; lia).
  destruct (parses_times _ parts l Hparts (concat parts ++ rest) rest eq_refl) as (r & Hr & _).
  change (entry_type <$> None) with (@None TypeSignature). rewrite Hr. cbn [out_bind]. by rewrite Hpanic.
Qed.

Lemma wide_value_length (m n : Z) (bs : list byte) :
  0 <= m <= MAX_VALUE_SIZE -> 0 <= n <= MAX_VALUE_SIZE ->
  serialize_write (wide_value m n) = Ok bs -> zlen bs = m + n + 19.
Proof.
  intros Hm Hn Hbs.
  assert (forall k, 0 <= k <= MAX_VALUE_SIZE ->
            exists b, serialize_write (zero_buffer k) = Ok b /\ zlen b = k + 5) as Hbuf.
  { intros k Hk. assert (zlen (repeat x00 (Z.to_nat k)) = k) as Hz by (unfold zlen; rewrite repeat_length; lia).
    unfold zero_buffer. cbn [serialize_write]. rewrite buffer_try_from_ok by (rewrite Hz; lia). cbn [out_bind].
    eexists. split; [done|]. rewrite !zlen_app, Hz. unfold u32_be_bytes. rewrite zlen_be_bytes. change (zlen (prefix_byte _)) with 1. lia. }
  destruct (Hbuf m Hm) as (b1 & H1 & L1). destruct (Hbuf n Hn) as (b2 & H2 & L2).
  unfold wide_value in Hbs. rewrite (serialize_tuple _ _ ((to_be_bytes 1 1 ++ as_bytes "a" ++ b1) ++ (to_be_bytes 1 1 ++ as_bytes "b" ++ b2))) in Hbs.
  - apply (inj Ok) in Hbs as <-. rewrite !zlen_app, L1, L2. unfold u32_be_bytes. rewrite !zlen_be_bytes.
    change (zlen (prefix_byte _)) with 1. change (zlen (as_bytes _)) with 1. lia.
  - vm_compute. congruence.
  - unfold write_all, write_field. cbn [try_map]. rewrite H1. cbn [out_bind]. rewrite H2.
    rewrite !name_serialize_Ok by auto. cbn [out_bind concat]. by rewrite app_nil_r, <-!app_assoc.
Qed.

Lemma wide_list_panics (m n : Z) (k : Z) :
  0 <= m <= MAX_VALUE_SIZE -> 0 <= n <= MAX_VALUE_SIZE ->
  is_ok (TupleTypeSignature_try_from_map [("a", SequenceType (BufferType m)); ("b", SequenceType (BufferType n))]) = true ->
  is_ok (TupleTypeSignature_try_from_map [("a", SequenceType (BufferType n)); ("b", SequenceType (BufferType m))]) = true ->
  parent_list_type [wide_tuple m n; wide_tuple n m] = Panic ->
  2 * (m + n + 19) + 5 <= k -> k <= BOUND_VALUE_SERIALIZATION_BYTES ->
  exists bs, zlen bs <= k /\ forall rest, Value_consensus_deserialize (bs ++ rest) = Panic.
Proof.
  intros Hm Hn H1 H2 Hpanic Hk Hbound.
  destruct (wide_value_read m n Hm Hn H1) as [T1 (b1 & S1 & P1)].
  destruct (wide_value_read n m Hn Hm H2) as [T2 (b2 & S2 & P2)].
  apply wide_value_length in S1; [|done|done]. apply wide_value_length in S2; [|done|done].
  revert T1 P1 T2 P2. generalize (wide_value m n) (wide_value n m). intros v w T1 P1 T2 P2.
  assert (zlen (prefix_byte TP_List ++ u32_be_bytes (zlen [v; w]) ++ concat [b1; b2]) <= k) as Hlen.
  { unfold concat, u32_be_bytes. rewrite !zlen_app, zlen_be_bytes. change (zlen (prefix_byte _)) with 1.
    change (zlen (@nil byte)) with 0. lia. }
  eexists. split; [exact Hlen|]. intros rest. unfold Value_consensus_deserialize, read_bounded.
  destruct (bounded_prefix BOUND_VALUE_SERIALIZATION_BYTES _ rest (Z.le_trans _ _ _ Hlen Hbound)) as (rest' & -> & _).
  rewrite list_reader_panics; [done|vm_compute; congruence| |].
  - constructor; [done|]. constructor; [done|constructor].
  - unfold list_from, construct_parent_list_type. cbn [try_map]. rewrite T1. cbn [out_bind]. rewrite T2. cbn [out_bind].
    by rewrite Hpanic.
Qed.

(** The reader of values panics on some input of less than 1.3 MB. *)
Lemma value_reader_panics :
  exists bs, zlen bs <= 1300000 /\ forall rest, Value_consensus_deserialize (bs ++ rest) = Panic.
Proof. apply (wide_list_panics 600000 1); vm_compute; try split; congruence. Qed.
