(* ===== verification/Events.v ===== *)
(** Events: what a transaction reports ([StacksTransactionEvent] of
    clarity/src/vm/events.rs).  Events without data of their own in the
    withdrawals carry their fields as arguments. *)
From Stdlib Require Import ZArith Strings.String List.
From stdpp Require Import base.
From S2P Require Import Prelude Bytes Codec Representations BTree Types.
Open Scope Z_scope.

Record SmartContractEventData := mkContractEvent {
  ce_key : QualifiedContractIdentifier * string;
  ce_value : Value
}.

Record STXWithdrawEventData := mkStxWithdraw {
  sw_sender : PrincipalData;
  sw_amount : Z;
  sw_withdrawal_id : option Z
}.

Record NFTWithdrawEventData := mkNftWithdraw {
  nw_asset_identifier : AssetIdentifier;
  nw_sender : PrincipalData;
  nw_id : Z;
  nw_withdrawal_id : option Z
}.

Record FTWithdrawEventData := mkFtWithdraw {
  fw_asset_identifier : AssetIdentifier;
  fw_sender : PrincipalData;
  fw_amount : Z;
  fw_withdrawal_id : option Z
}.

Inductive STXEventType :=
| STXTransferEvent (sender recipient : PrincipalData) (amount : Z)
| STXMintEvent (recipient : PrincipalData) (amount : Z)
| STXBurnEvent (sender : PrincipalData) (amount : Z)
| STXLockEvent (locked_amount unlock_height : Z) (locked_address : PrincipalData)
| STXWithdrawEvent (data : STXWithdrawEventData).

Inductive NFTEventType :=
| NFTTransferEvent (asset_identifier : AssetIdentifier) (sender recipient : PrincipalData) (value : Value)
| NFTMintEvent (asset_identifier : AssetIdentifier) (recipient : PrincipalData) (value : Value)
| NFTBurnEvent (asset_identifier : AssetIdentifier) (sender : PrincipalData) (value : Value)
| NFTWithdrawEvent (data : NFTWithdrawEventData).

Inductive FTEventType :=
| FTTransferEvent (asset_identifier : AssetIdentifier) (sender recipient : PrincipalData) (amount : Z)
| FTMintEvent (asset_identifier : AssetIdentifier) (recipient : PrincipalData) (amount : Z)
| FTBurnEvent (asset_identifier : AssetIdentifier) (sender : PrincipalData) (amount : Z)
| FTWithdrawEvent (data : FTWithdrawEventData).

Inductive StacksTransactionEvent :=
| SmartContractEvent (data : SmartContractEventData)
| STXEvent (e : STXEventType)
| NFTEvent (e : NFTEventType)
| FTEvent (e : FTEventType).
