(* ===== verification/AssetMap.v ===== *)
(** AssetMap: the record of the assets moved by a transaction, per principal
    ([AssetMap] of clarity/src/vm/contexts.rs).

    A [HashMap] is a finite map; the order in which it is iterated is not
    specified, so the loops take it from the class [HashOrder] and the theorems
    hold for every order.  The specification is a list of movements: recording
    them one by one, or recording some of them in a nested map that is then
    committed, is the same. *)
From Stdlib Require Import ZArith Lia Strings.Byte Strings.String List Bool.
From stdpp Require Import base decidable list strings option gmap.
From S2P Require Import Prelude Bytes Codec Representations BTree Types Signatures Admission Values.
Open Scope Z_scope.

(** [HashMap::drain], [HashMap::iter]: the entries, in some order. *)
Class HashOrder := {
  drain : forall {K : Type} `{Countable K} {V : Type}, gmap K V -> list (K * V);
  drain_perm : forall {K : Type} `{Countable K} {V : Type} (m : gmap K V), drain m ≡ₚ map_to_list m
}.

#[export] Instance listed_order : HashOrder := {|
  drain := fun K _ _ V m => map_to_list m;
  drain_perm := fun K _ _ V m => Permutation_refl _
|}.

Inductive AssetMapEntry :=
| EntrySTX (amount : Z)
| EntryBurn (amount : Z)
| EntryToken (amount : Z)
| EntryAsset (values : list Value).

Record AssetMap := mkAssetMap {
  stx_map : gmap PrincipalData Z;
  burn_map : gmap PrincipalData Z;
  token_map : gmap PrincipalData (gmap AssetIdentifier Z);
  asset_map : gmap PrincipalData (gmap AssetIdentifier (list Value))
}.

Definition AssetMap_new : AssetMap := mkAssetMap ∅ ∅ ∅ ∅.

(** [*m.get(a).and_then(|m| m.get(b))], and the update of such an entry, with
    the inner map created if it is missing. *)
Definition lookup2 {V : Type} (m : gmap PrincipalData (gmap AssetIdentifier V)) (p : PrincipalData) (a : AssetIdentifier)
  : option V := m !! p ≫= fun principal_map => principal_map !! a.
Definition insert2 {V : Type} (p : PrincipalData) (a : AssetIdentifier) (v : V)
    (m : gmap PrincipalData (gmap AssetIdentifier V)) : gmap PrincipalData (gmap AssetIdentifier V) :=
  let principal_map := default ∅ (m !! p) in
  <[p := <[a := v]> principal_map]> m.

Definition get_next_stx_amount (self : AssetMap) (principal : PrincipalData) (amount : Z) : outcome VmError Z :=
  let current_amount := default 0 (stx_map self !! principal) in
  ok_or (Runtime RuntimeErr.ArithmeticOverflow) (checked_add u128_ty current_amount amount).

Definition get_next_stx_burn_amount (self : AssetMap) (principal : PrincipalData) (amount : Z) : outcome VmError Z :=
  let current_amount := default 0 (burn_map self !! principal) in
  ok_or (Runtime RuntimeErr.ArithmeticOverflow) (checked_add u128_ty current_amount amount).

Definition get_next_amount (self : AssetMap) (principal : PrincipalData) (asset : AssetIdentifier) (amount : Z)
  : outcome VmError Z :=
  let current_amount :=
    match token_map self !! principal with
    | Some principal_map => default 0 (principal_map !! asset)
    | None => 0
    end in
  ok_or (Runtime RuntimeErr.ArithmeticOverflow) (checked_add u128_ty current_amount amount).

Definition add_stx_transfer (self : AssetMap) (principal : PrincipalData) (amount : Z) : outcome VmError AssetMap :=
  let? next_amount := get_next_stx_amount self principal amount in
  Ok (mkAssetMap (<[principal := next_amount]> (stx_map self)) (burn_map self) (token_map self) (asset_map self)).

Definition add_stx_burn (self : AssetMap) (principal : PrincipalData) (amount : Z) : outcome VmError AssetMap :=
  let? next_amount := get_next_stx_burn_amount self principal amount in
  Ok (mkAssetMap (stx_map self) (<[principal := next_amount]> (burn_map self)) (token_map self) (asset_map self)).

Definition add_asset_transfer (self : AssetMap) (principal : PrincipalData) (asset : AssetIdentifier)
    (transfered : Value) : AssetMap :=
  let values := default [] (lookup2 (asset_map self) principal asset) in
  mkAssetMap (stx_map self) (burn_map self) (token_map self)
    (insert2 principal asset (values ++ [transfered]) (asset_map self)).

Definition add_token_transfer (self : AssetMap) (principal : PrincipalData) (asset : AssetIdentifier) (amount : Z)
  : outcome VmError AssetMap :=
  let? next_amount := get_next_amount self principal asset amount in
  Ok (mkAssetMap (stx_map self) (burn_map self) (insert2 principal asset next_amount (token_map self)) (asset_map self)).

Definition get_stx (self : AssetMap) (principal : PrincipalData) : option Z := stx_map self !! principal.
Definition get_stx_burned (self : AssetMap) (principal : PrincipalData) : option Z := burn_map self !! principal.

Definition get_fungible_tokens (self : AssetMap) (principal : PrincipalData) (asset_identifier : AssetIdentifier)
  : option Z := lookup2 (token_map self) principal asset_identifier.

Definition get_nonfungible_tokens (self : AssetMap) (principal : PrincipalData) (asset_identifier : AssetIdentifier)
  : option (list Value) := lookup2 (asset_map self) principal asset_identifier.

Section loops.
Context {O : HashOrder}.

(** The entries of a map of maps in the order of two nested loops. *)
Definition drain2 {V : Type} (m : gmap PrincipalData (gmap AssetIdentifier V))
  : list ((PrincipalData * AssetIdentifier) * V) :=
  flat_map (fun '(principal, principal_map) =>
    map (fun '(asset, v) => ((principal, asset), v)) (drain principal_map)) (drain m).

Definition get_stx_burned_total {E : Type} (self : AssetMap) : outcome E Z :=
  try_fold (fun total '(principal, _) =>
    expect_some (checked_add u128_ty total (default 0 (burn_map self !! principal)))) 0 (drain (burn_map self)).

Definition commit_other (self other : AssetMap) : outcome VmError AssetMap :=
  let? to_add := try_map (fun '((principal, asset), amount) =>
    let? next_amount := get_next_amount self principal asset amount in
    Ok ((principal, asset), next_amount)) (drain2 (token_map other)) in
  let? stx_to_add := try_map (fun '(principal, stx_amount) =>
    let? next_amount := get_next_stx_amount self principal stx_amount in
    Ok (principal, next_amount)) (drain (stx_map other)) in
  let? stx_burn_to_add := try_map (fun '(principal, stx_burn_amount) =>
    let? next_amount := get_next_stx_burn_amount self principal stx_burn_amount in
    Ok (principal, next_amount)) (drain (burn_map other)) in
  let assets := fold_left (fun m '((principal, asset), transfers) =>
    insert2 principal asset (default [] (lookup2 m principal asset) ++ transfers) m)
    (drain2 (asset_map other)) (asset_map self) in
  let stxs := fold_left (fun m '(principal, stx_amount) => <[principal := stx_amount]> m)
    stx_to_add (stx_map self) in
  let burns := fold_left (fun m '(principal, stx_burn_amount) => <[principal := stx_burn_amount]> m)
    stx_burn_to_add (burn_map self) in
  let tokens := fold_left (fun m '((principal, asset), amount) => insert2 principal asset amount m)
    to_add (token_map self) in
  Ok (mkAssetMap stxs burns tokens assets).

Definition to_table (self : AssetMap) : gmap PrincipalData (gmap AssetIdentifier AssetMapEntry) :=
  let table := fold_left (fun m '(principal, principal_map) =>
    <[principal := fold_left (fun output_map '(asset, amount) => <[asset := EntryToken amount]> output_map)
        (drain principal_map) ∅]> m) (drain (token_map self)) ∅ in
  let table := fold_left (fun m '(principal, stx_amount) =>
    insert2 principal AssetIdentifier_STX (EntrySTX stx_amount) m) (drain (stx_map self)) table in
  let table := fold_left (fun m '(principal, stx_burned_amount) =>
    insert2 principal AssetIdentifier_STX_burned (EntryBurn stx_burned_amount) m) (drain (burn_map self)) table in
  fold_left (fun m '(principal, principal_map) =>
    let output_map := default ∅ (m !! principal) in
    <[principal := fold_left (fun output_map '(asset, transfers) => <[asset := EntryAsset transfers]> output_map)
        (drain principal_map) output_map]> m) (drain (asset_map self)) table.
End loops.

(** * Loops over the entries of a map *)
Section entries.
Context {O : HashOrder}.

Lemma drain_elem {K : Type} `{Countable K} {V : Type} (m : gmap K V) (k : K) (v : V) :
  (k, v) ∈ drain m <-> m !! k = Some v.
Proof. rewrite drain_perm. apply elem_of_map_to_list. Qed.

Lemma drain_nodup {K : Type} `{Countable K} {V : Type} (m : gmap K V) : NoDup (drain m).*1.
Proof. rewrite drain_perm. apply NoDup_fst_map_to_list. Qed.

Lemma drain2_elem {V : Type} (m : gmap PrincipalData (gmap AssetIdentifier V)) (k : PrincipalData * AssetIdentifier) (v : V) :
  (k, v) ∈ drain2 m <-> lookup2 m k.1 k.2 = Some v.
Proof.
  destruct k as [p a]. unfold drain2, lookup2. rewrite list_elem_of_In, in_flat_map. simpl. split.
  - intros ([p' pm] & Hp & Hin). apply in_map_iff in Hin as ([a' v'] & ? & Ha). simplify_eq.
    apply list_elem_of_In, drain_elem in Hp, Ha. by rewrite Hp.
  - intros (pm & Hp & Ha)%bind_Some. exists (p, pm). split; [by apply list_elem_of_In, drain_elem|].
    apply in_map_iff. exists (a, v). split; [done|]. by apply list_elem_of_In, drain_elem.
Qed.

Lemma drain2_nodup {V : Type} (m : gmap PrincipalData (gmap AssetIdentifier V)) : NoDup (drain2 m).*1.
Proof.
  unfold drain2. generalize (drain_nodup m). generalize (drain m) as l. induction l as [|[p pm] l IH]; simpl; intros Hnd.
  { constructor. }
  apply NoDup_cons in Hnd as [Hp Hnd]. rewrite fmap_app. apply NoDup_app. split; [|split; [|by apply IH]].
  - replace _ with (pair p <$> (drain pm).*1); [by apply (NoDup_fmap_2 (pair p)), drain_nodup|].
    induction (drain pm) as [|[a v] l' IH']; csimpl; [done|]. by f_equal.
  - intros [p' a] Hin Hin'. apply Hp. apply list_elem_of_fmap in Hin as ([k v] & ? & Hin). simplify_eq/=.
    apply list_elem_of_In, in_map_iff in Hin as ([a' v'] & ? & _). simplify_eq.
    apply list_elem_of_fmap in Hin' as ([k w] & ? & Hin'). simplify_eq/=.
    apply list_elem_of_In, in_flat_map in Hin' as ([p'' pm'] & Hl & Hin').
    apply in_map_iff in Hin' as ([a'' w'] & ? & _). simplify_eq. apply list_elem_of_fmap.
    exists (p', pm'). split; [done|]. by apply list_elem_of_In.
Qed.

(** A loop whose body changes only the entry of its key, seen through [view]. *)
Section fold_view.
Context {M K V W : Type} `{EqDecision K} (view : M -> K -> option W) (s : M -> K * V -> M)
  (F : K -> V -> option W -> option W).
Context (Hs : forall m k v k', view (s m (k, v)) k' = if decide (k' = k) then F k v (view m k) else view m k').

Lemma fold_view_other (l : list (K * V)) (m : M) (k : K) :
  k ∉ l.*1 -> view (fold_left s l m) k = view m k.
Proof using Hs.
  revert m. induction l as [|[k' v] l IH]; intros m Hk; [done|]. csimpl in *. apply not_elem_of_cons in Hk as [Hk Hl].
  rewrite IH, Hs by done. by rewrite decide_False.
Qed.

Lemma fold_view_at (l : list (K * V)) (m : M) (k : K) (v : V) :
  NoDup l.*1 -> (k, v) ∈ l -> view (fold_left s l m) k = F k v (view m k).
Proof using Hs.
  revert m. induction l as [|[k' v'] l IH]; intros m Hnd Hin; csimpl in *; [by apply elem_of_nil in Hin|].
  apply NoDup_cons in Hnd as [Hk Hnd]. apply elem_of_cons in Hin as [Heq|Hin].
  - simplify_eq. rewrite fold_view_other, Hs by done. by rewrite decide_True.
  - rewrite IH, Hs by done. rewrite decide_False; [done|]. intros ->. apply Hk. by apply list_elem_of_fmap_2' with (k', v).
Qed.
End fold_view.
End entries.

(** * Adding up maps *)
(** Maps and maps of maps with the entries of two combined by an operation with
    a unit: sums of amounts, concatenations of lists of assets. *)
Section merge.
Context {V : Type} (op : V -> V -> V) (e : V).
Context (op_assoc : forall x y z, op x (op y z) = op (op x y) z) (op_unit : forall x, op e x = x).

Definition merge1 {K : Type} `{Countable K} (m n : gmap K V) : gmap K V := union_with (fun x y => Some (op x y)) m n.
Definition merge2 (m n : gmap PrincipalData (gmap AssetIdentifier V)) : gmap PrincipalData (gmap AssetIdentifier V) :=
  union_with (fun x y => Some (merge1 x y)) m n.

Lemma lookup_merge1 {K : Type} `{Countable K} (m n : gmap K V) (k : K) :
  merge1 m n !! k = match n !! k with Some y => Some (match m !! k with Some x => op x y | None => y end) | None => m !! k end.
Proof. unfold merge1. rewrite lookup_union_with. by destruct (m !! k), (n !! k). Qed.

Lemma merge1_insert {K : Type} `{Countable K} (m n : gmap K V) (k : K) (v : V) :
  merge1 m (<[k := op (default e (n !! k)) v]> n) = <[k := op (default e (merge1 m n !! k)) v]> (merge1 m n).
Proof using op_assoc op_unit.
  apply map_eq. intros k'. rewrite lookup_merge1. destruct (decide (k = k')) as [<-|Hk].
  - rewrite !lookup_insert_eq, lookup_merge1. destruct (m !! k) as [x|], (n !! k) as [y|]; simpl; rewrite ?op_unit, ?op_assoc; done.
  - rewrite !lookup_insert_ne by done. by rewrite lookup_merge1.
Qed.

Lemma merge1_empty_l {K : Type} `{Countable K} (m : gmap K V) : merge1 ∅ m = m.
Proof. apply map_eq. intros k. rewrite lookup_merge1, lookup_empty. by destruct (m !! k). Qed.

Lemma merge1_empty_r {K : Type} `{Countable K} (m : gmap K V) : merge1 m ∅ = m.
Proof. apply map_eq. intros k. by rewrite lookup_merge1, lookup_empty. Qed.

Lemma lookup2_insert2 (m : gmap PrincipalData (gmap AssetIdentifier V)) (p p' : PrincipalData) (a a' : AssetIdentifier) (v : V) :
  lookup2 (insert2 p a v m) p' a' = if decide ((p', a') = (p, a)) then Some v else lookup2 m p' a'.
Proof using.
  unfold lookup2, insert2. destruct (decide (p = p')) as [<-|Hp].
  - rewrite lookup_insert_eq. csimpl. destruct (decide (a = a')) as [<-|Ha].
    + by rewrite lookup_insert_eq, decide_True.
    + rewrite lookup_insert_ne, decide_False by congruence. by destruct (m !! p).
  - rewrite lookup_insert_ne by done. by rewrite decide_False by congruence.
Qed.

Lemma lookup2_merge2 (m n : gmap PrincipalData (gmap AssetIdentifier V)) (p : PrincipalData) (a : AssetIdentifier) :
  lookup2 (merge2 m n) p a =
  match lookup2 n p a with Some y => Some (match lookup2 m p a with Some x => op x y | None => y end) | None => lookup2 m p a end.
Proof using.
  unfold lookup2, merge2. rewrite lookup_union_with.
  destruct (m !! p) as [x|], (n !! p) as [y|]; csimpl; rewrite ?lookup_merge1; try done. by destruct (y !! a).
Qed.

Lemma merge2_insert (m n : gmap PrincipalData (gmap AssetIdentifier V)) (p : PrincipalData) (a : AssetIdentifier) (v : V) :
  merge2 m (insert2 p a (op (default e (lookup2 n p a)) v) n) =
  insert2 p a (op (default e (lookup2 (merge2 m n) p a)) v) (merge2 m n).
Proof using op_assoc op_unit.
  apply map_eq. intros p'. unfold insert2, merge2, lookup2. rewrite !lookup_union_with. destruct (decide (p = p')) as [<-|Hp].
  2:{ rewrite !lookup_insert_ne by done. by rewrite lookup_union_with. }
  rewrite !lookup_insert_eq. destruct (m !! p) as [x|], (n !! p) as [y|]; csimpl; try done.
  - by rewrite <-merge1_insert.
  - f_equal. pose proof (merge1_insert x ∅ a v) as H. by rewrite lookup_empty, merge1_empty_r in H.
Qed.

(** No principal has an empty inner map. *)
Definition nested_wf (m : gmap PrincipalData (gmap AssetIdentifier V)) : Prop := forall p, m !! p <> Some ∅.

Lemma insert2_wf (m : gmap PrincipalData (gmap AssetIdentifier V)) (p : PrincipalData) (a : AssetIdentifier) (v : V) :
  nested_wf m -> nested_wf (insert2 p a v m).
Proof using.
  intros Hm p'. unfold insert2. destruct (decide (p = p')) as [<-|Hp].
  - rewrite lookup_insert_eq. intros H%(inj Some). by apply insert_non_empty in H.
  - by rewrite lookup_insert_ne.
Qed.

Lemma merge2_wf (m n : gmap PrincipalData (gmap AssetIdentifier V)) : nested_wf m -> nested_wf n -> nested_wf (merge2 m n).
Proof using.
  intros Hm Hn p. specialize (Hm p). specialize (Hn p). unfold merge2. rewrite lookup_union_with.
  destruct (m !! p) as [x|], (n !! p) as [y|]; simpl; try done. intros [= H].
  apply Hm. f_equal. apply map_eq. intros a.
  pose proof (f_equal (lookup a) H) as Ha. rewrite lookup_merge1, lookup_empty in Ha.
  rewrite lookup_empty. by destruct (y !! a).
Qed.

Lemma nested_eq (m n : gmap PrincipalData (gmap AssetIdentifier V)) :
  nested_wf m -> nested_wf n -> (forall p a, lookup2 m p a = lookup2 n p a) -> m = n.
Proof using.
  intros Hm Hn Heq. apply map_eq. intros p. specialize (Hm p). specialize (Hn p). specialize (Heq p). unfold lookup2 in Heq.
  destruct (m !! p) as [x|], (n !! p) as [y|]; csimpl in Heq.
  - f_equal. by apply map_eq.
  - exfalso. apply Hm. f_equal. apply map_eq. intros a. by rewrite Heq, lookup_empty.
  - exfalso. apply Hn. f_equal. apply map_eq. intros a. by rewrite <-Heq, lookup_empty.
  - done.
Qed.
End merge.

(** * Movements of assets *)
Inductive movement :=
| MoveSTX (principal : PrincipalData) (amount : Z)
| BurnSTX (principal : PrincipalData) (amount : Z)
| MoveToken (principal : PrincipalData) (asset : AssetIdentifier) (amount : Z)
| MoveAsset (principal : PrincipalData) (asset : AssetIdentifier) (value : Value).

Definition movement_wf (x : movement) : Prop :=
  match x with MoveSTX _ n | BurnSTX _ n | MoveToken _ _ n => 0 <= n | MoveAsset _ _ _ => True end.

(** Recording movements with the operations of the code. *)
Definition record_movement (m : AssetMap) (x : movement) : outcome VmError AssetMap :=
  match x with
  | MoveSTX p n => add_stx_transfer m p n
  | BurnSTX p n => add_stx_burn m p n
  | MoveToken p a n => add_token_transfer m p a n
  | MoveAsset p a v => Ok (add_asset_transfer m p a v)
  end.
Definition record_all (m : AssetMap) (l : list movement) : outcome VmError AssetMap := try_fold record_movement m l.

(** What was moved, added up without bounds. *)
Definition stx_sent (l : list movement) (p : PrincipalData) : Z :=
  foldr (fun x acc => match x with MoveSTX q n => if decide (q = p) then n + acc else acc | _ => acc end) 0 l.
Definition stx_burnt (l : list movement) (p : PrincipalData) : Z :=
  foldr (fun x acc => match x with BurnSTX q n => if decide (q = p) then n + acc else acc | _ => acc end) 0 l.
Definition tokens_sent (l : list movement) (p : PrincipalData) (a : AssetIdentifier) : Z :=
  foldr (fun x acc => match x with MoveToken q b n => if decide ((q, b) = (p, a)) then n + acc else acc | _ => acc end) 0 l.
Definition assets_sent (l : list movement) (p : PrincipalData) (a : AssetIdentifier) : list Value :=
  foldr (fun x acc => match x with MoveAsset q b v => if decide ((q, b) = (p, a)) then v :: acc else acc | _ => acc end) [] l.

(** One movement added to a map, without bounds. *)
Definition count (m : AssetMap) (x : movement) : AssetMap :=
  match x with
  | MoveSTX p n => mkAssetMap (<[p := default 0 (stx_map m !! p) + n]> (stx_map m)) (burn_map m) (token_map m) (asset_map m)
  | BurnSTX p n => mkAssetMap (stx_map m) (<[p := default 0 (burn_map m !! p) + n]> (burn_map m)) (token_map m) (asset_map m)
  | MoveToken p a n =>
      mkAssetMap (stx_map m) (burn_map m) (insert2 p a (default 0 (lookup2 (token_map m) p a) + n) (token_map m)) (asset_map m)
  | MoveAsset p a v => add_asset_transfer m p a v
  end.
Definition tally (m : AssetMap) (l : list movement) : AssetMap := fold_left count l m.

Definition merge (m n : AssetMap) : AssetMap :=
  mkAssetMap (merge1 Z.add (stx_map m) (stx_map n)) (merge1 Z.add (burn_map m) (burn_map n))
    (merge2 Z.add (token_map m) (token_map n)) (merge2 app (asset_map m) (asset_map n)).

(** All amounts of a map, and whether they fit in a [u128]. *)
Definition all_amounts (P : Z -> Prop) (m : AssetMap) : Prop :=
  (forall p n, stx_map m !! p = Some n -> P n) /\ (forall p n, burn_map m !! p = Some n -> P n) /\
  (forall p a n, lookup2 (token_map m) p a = Some n -> P n).

Definition AssetMap_wf (m : AssetMap) : Prop :=
  all_amounts (fun n => 0 <= n) m /\ nested_wf (token_map m) /\ nested_wf (asset_map m).

Definition fits (m : AssetMap) : bool :=
  bool_decide (map_Forall (fun _ n => n <= u128_max) (stx_map m) /\ map_Forall (fun _ n => n <= u128_max) (burn_map m) /\
    map_Forall (fun _ pm => map_Forall (fun _ n => n <= u128_max) pm) (token_map m)).

Lemma fits_spec (m : AssetMap) : fits m = true <-> all_amounts (fun n => n <= u128_max) m.
Proof.
  unfold fits, all_amounts, lookup2. rewrite bool_decide_eq_true. unfold map_Forall.
  split; intros (H1 & H2 & H3); (split; [done|split; [done|]]).
  - intros p a n (pm & Hp & Ha)%bind_Some. by eapply H3.
  - intros p pm Hp a n Ha. apply (H3 p a). by rewrite Hp.
Qed.

Lemma fits_false (m : AssetMap) : fits m = false <-> ~ all_amounts (fun n => n <= u128_max) m.
Proof. rewrite <-fits_spec. by destruct (fits m). Qed.

Lemma merge_count (m n : AssetMap) (x : movement) : merge m (count n x) = count (merge m n) x.
Proof.
  destruct x as [p k|p k|p a k|p a v]; unfold merge, count, add_asset_transfer; simpl; f_equal.
  - apply merge1_insert; intros; lia.
  - apply merge1_insert; intros; lia.
  - apply merge2_insert; intros; lia.
  - apply merge2_insert; [apply app_assoc|done].
Qed.

(** Counting on top of a map is counting from nothing and merging. *)
Lemma merge_tally (m : AssetMap) (l : list movement) : merge m (tally AssetMap_new l) = tally m l.
Proof.
  unfold tally. induction l as [|x l IH] using rev_ind.
  - destruct m. unfold merge. simpl. rewrite !merge1_empty_r. unfold merge2. f_equal; apply map_eq; intros p;
      rewrite lookup_union_with, lookup_empty; by destruct (_ !! p).
  - rewrite !fold_left_app. cbn [fold_left]. by rewrite merge_count, IH.
Qed.

Lemma tally_app (m : AssetMap) (l1 l2 : list movement) : tally m (l1 ++ l2) = tally (tally m l1) l2.
Proof. apply fold_left_app. Qed.

Lemma count_wf (m : AssetMap) (x : movement) : AssetMap_wf m -> movement_wf x -> AssetMap_wf (count m x).
Proof.
  intros ((Hs & Hb & Ht) & Hwt & Hwa) Hx.
  assert (forall o : option Z, (forall n, o = Some n -> 0 <= n) -> 0 <= default 0 o) as Hd.
  { intros [n|] Ho; simpl; [by apply Ho|lia]. }
  destruct x as [p k|p k|p a k|p a v]; simpl in *; (split; [split; [|split]|split]); simpl; eauto using insert2_wf.
  - intros q n. destruct (decide (p = q)) as [<-|]; [|rewrite lookup_insert_ne by done; eauto].
    rewrite lookup_insert_eq. intros [= <-]. specialize (Hd (stx_map m !! p) (Hs p)). lia.
  - intros q n. destruct (decide (p = q)) as [<-|]; [|rewrite lookup_insert_ne by done; eauto].
    rewrite lookup_insert_eq. intros [= <-]. specialize (Hd (burn_map m !! p) (Hb p)). lia.
  - intros q b n. rewrite lookup2_insert2. destruct (decide _) as [Heq|]; [|eauto]. intros [= <-].
    specialize (Hd (lookup2 (token_map m) p a) (Ht p a)). lia.
Qed.

Lemma tally_wf (l : list movement) (m : AssetMap) : AssetMap_wf m -> Forall movement_wf l -> AssetMap_wf (tally m l).
Proof.
  revert m. induction l as [|x l IH]; intros m Hm Hl; [done|]. apply Forall_cons in Hl as [Hx Hl].
  apply IH; [|done]. by apply count_wf.
Qed.

Lemma new_wf : AssetMap_wf AssetMap_new.
Proof.
  unfold AssetMap_wf, all_amounts, nested_wf, lookup2. simpl.
  repeat split; intros *; rewrite ?lookup_empty; done.
Qed.

Section recording.
Context {O : HashOrder}.
Definition overflow : VmError := Runtime RuntimeErr.ArithmeticOverflow.

Lemma checked_sum (c n : Z) :
  0 <= c -> 0 <= n ->
  ok_or overflow (checked_add u128_ty c n) = if c + n <=? u128_max then Ok (c + n) else Err overflow.
Proof.
  intros Hc Hn. unfold checked_add. destruct (Z.leb_spec (c + n) u128_max).
  - by rewrite checked_ok by (simpl; lia).
  - by rewrite (proj2 (checked_None _ _)) by (simpl; lia).
Qed.

Lemma default_nonneg (o : option Z) : (forall n, o = Some n -> 0 <= n) -> 0 <= default 0 o.
Proof. destruct o as [n|]; simpl; [by eauto|lia]. Qed.

(** [fits] after one more movement depends on the entry it changes only. *)
Lemma fits_count_stx (m : AssetMap) (p : PrincipalData) (n : Z) :
  fits m = true -> fits (count m (MoveSTX p n)) = (default 0 (stx_map m !! p) + n <=? u128_max).
Proof.
  rewrite fits_spec. intros (Hs & Hb & Ht). apply eq_true_iff_eq. rewrite fits_spec, Z.leb_le. split.
  - intros (H & _). apply (H p). simpl. apply lookup_insert_eq.
  - intros Hle. split; [|by split]. simpl. intros q k. destruct (decide (p = q)) as [<-|].
    + rewrite lookup_insert_eq. by intros [= <-].
    + rewrite lookup_insert_ne by done. apply Hs.
Qed.

Lemma fits_count_burn (m : AssetMap) (p : PrincipalData) (n : Z) :
  fits m = true -> fits (count m (BurnSTX p n)) = (default 0 (burn_map m !! p) + n <=? u128_max).
Proof.
  rewrite fits_spec. intros (Hs & Hb & Ht). apply eq_true_iff_eq. rewrite fits_spec, Z.leb_le. split.
  - intros (_ & H & _). apply (H p). simpl. apply lookup_insert_eq.
  - intros Hle. split; [done|]. split; [|done]. simpl. intros q k. destruct (decide (p = q)) as [<-|].
    + rewrite lookup_insert_eq. by intros [= <-].
    + rewrite lookup_insert_ne by done. apply Hb.
Qed.

Lemma fits_count_token (m : AssetMap) (p : PrincipalData) (a : AssetIdentifier) (n : Z) :
  fits m = true -> fits (count m (MoveToken p a n)) = (default 0 (lookup2 (token_map m) p a) + n <=? u128_max).
Proof.
  rewrite fits_spec. intros (Hs & Hb & Ht). apply eq_true_iff_eq. rewrite fits_spec, Z.leb_le. split.
  - intros (_ & _ & H). apply (H p a). simpl. by rewrite lookup2_insert2, decide_True.
  - intros Hle. split; [done|]. split; [done|]. simpl. intros q b k. rewrite lookup2_insert2.
    destruct (decide _); [by intros [= <-]|apply Ht].
Qed.

Lemma get_next_amount_lookup2 (m : AssetMap) (p : PrincipalData) (a : AssetIdentifier) (n : Z) :
  get_next_amount m p a n = ok_or overflow (checked_add u128_ty (default 0 (lookup2 (token_map m) p a)) n).
Proof. unfold get_next_amount, lookup2. by destruct (token_map m !! p). Qed.

Lemma record_movement_count (m : AssetMap) (x : movement) :
  AssetMap_wf m -> fits m = true -> movement_wf x ->
  record_movement m x = if fits (count m x) then Ok (count m x) else Err overflow.
Proof.
  intros ((Hs & Hb & Ht) & _) Hfit Hx. destruct x as [p n|p n|p a n|p a v]; cbn [record_movement movement_wf] in *.
  - unfold add_stx_transfer, get_next_stx_amount. rewrite fits_count_stx, checked_sum by eauto using default_nonneg.
    by destruct (_ <=? _).
  - unfold add_stx_burn, get_next_stx_burn_amount. rewrite fits_count_burn, checked_sum by eauto using default_nonneg.
    by destruct (_ <=? _).
  - unfold add_token_transfer. rewrite get_next_amount_lookup2, fits_count_token, checked_sum by eauto using default_nonneg.
    by destruct (_ <=? _).
  - by replace (fits (count m (MoveAsset p a v))) with true.
Qed.

(** Amounts only grow. *)
Lemma fits_count_mono (m : AssetMap) (x : movement) :
  AssetMap_wf m -> movement_wf x -> fits (count m x) = true -> fits m = true.
Proof.
  rewrite !fits_spec. intros _ Hx (Hs & Hb & Ht).
  destruct x as [p k|p k|p a k|p a v]; simpl in *; (split; [|split]); eauto.
  - intros q n Hq. destruct (decide (p = q)) as [<-|]; [|apply (Hs q); by rewrite lookup_insert_ne].
    specialize (Hs p _ (lookup_insert_eq _ _ _)). rewrite Hq in Hs. simpl in Hs. lia.
  - intros q n Hq. destruct (decide (p = q)) as [<-|]; [|apply (Hb q); by rewrite lookup_insert_ne].
    specialize (Hb p _ (lookup_insert_eq _ _ _)). rewrite Hq in Hb. simpl in Hb. lia.
  - intros q b n Hq. specialize (Ht q b). rewrite lookup2_insert2 in Ht. destruct (decide _); [|by apply Ht].
    simplify_eq. specialize (Ht _ eq_refl). rewrite Hq in Ht. simpl in Ht. lia.
Qed.

Lemma fits_tally_mono (l : list movement) (m : AssetMap) :
  AssetMap_wf m -> Forall movement_wf l -> fits (tally m l) = true -> fits m = true.
Proof.
  revert m. induction l as [|x l IH]; intros m Hm Hl Hf; [done|]. apply Forall_cons in Hl as [Hx Hl].
  apply (fits_count_mono m x); [done..|]. apply IH; [by apply count_wf|done|done].
Qed.

(** Recording succeeds exactly when the totals fit. *)
Lemma record_all_tally (l : list movement) (m : AssetMap) :
  AssetMap_wf m -> fits m = true -> Forall movement_wf l ->
  record_all m l = if fits (tally m l) then Ok (tally m l) else Err overflow.
Proof.
  revert m. induction l as [|x l IH]; intros m Hm Hf Hl; [by simpl; rewrite Hf|].
  apply Forall_cons in Hl as [Hx Hl]. unfold record_all. cbn [try_fold]. rewrite record_movement_count by done.
  change (tally m (x :: l)) with (tally (count m x) l). destruct (fits (count m x)) eqn:Hc; cbn [out_bind].
  - apply IH; [by apply count_wf|done|done].
  - destruct (fits (tally (count m x) l)) eqn:Ht; [|done]. apply fits_tally_mono in Ht; [congruence|by apply count_wf|done].
Qed.
End recording.

(** * Committing a nested map *)
Section committing.
Context {O : HashOrder}.

Lemma fold_left_map {A B M : Type} (f : M -> B -> M) (g : A -> B) (l : list A) (m : M) :
  fold_left f (map g l) m = fold_left (fun m x => f m (g x)) l m.
Proof. revert m. induction l as [|x l IH]; intros m; [done|apply IH]. Qed.

(** A loop over all entries of a map that changes, for each, the entry with its key. *)
Lemma fold_drain {M K V W : Type} `{Countable K} (view : M -> K -> option W) (s : M -> K * V -> M)
    (F : K -> V -> option W -> option W) (n : gmap K V) (m : M) (k : K) :
  (forall m k v k', view (s m (k, v)) k' = if decide (k' = k) then F k v (view m k) else view m k') ->
  view (fold_left s (drain n) m) k = match n !! k with Some v => F k v (view m k) | None => view m k end.
Proof.
  intros Hs. destruct (n !! k) as [v|] eqn:Hk.
  - apply (fold_view_at view s F Hs); [apply drain_nodup|by apply drain_elem].
  - apply (fold_view_other view s F Hs). intros ([k' v] & -> & Hin)%list_elem_of_fmap.
    apply drain_elem in Hin. simpl in Hk. congruence.
Qed.

Lemma fold_drain2 {M V W : Type} (view : M -> PrincipalData * AssetIdentifier -> option W)
    (s : M -> (PrincipalData * AssetIdentifier) * V -> M) (F : PrincipalData * AssetIdentifier -> V -> option W -> option W)
    (n : gmap PrincipalData (gmap AssetIdentifier V)) (m : M) (k : PrincipalData * AssetIdentifier) :
  (forall m k v k', view (s m (k, v)) k' = if decide (k' = k) then F k v (view m k) else view m k') ->
  view (fold_left s (drain2 n) m) k = match lookup2 n k.1 k.2 with Some v => F k v (view m k) | None => view m k end.
Proof.
  intros Hs. destruct (lookup2 n k.1 k.2) as [v|] eqn:Hk.
  - apply (fold_view_at view s F Hs); [apply drain2_nodup|by apply drain2_elem].
  - apply (fold_view_other view s F Hs). intros ([k' v] & -> & Hin)%list_elem_of_fmap.
    apply drain2_elem in Hin. simpl in Hk. congruence.
Qed.

Lemma try_map_sums {K : Type} (cur : K -> Z) (l : list (K * Z)) :
  (forall k, 0 <= cur k) -> (forall k v, (k, v) ∈ l -> 0 <= v) ->
  try_map (fun '(k, v) => let? n := ok_or overflow (checked_add u128_ty (cur k) v) in Ok (k, n)) l =
  if forallb (fun '(k, v) => cur k + v <=? u128_max) l then Ok (map (fun '(k, v) => (k, cur k + v)) l) else Err overflow.
Proof.
  intros Hcur. induction l as [|[k v] l IH]; intros Hl; [done|]. cbn [try_map forallb map].
  rewrite checked_sum; [|done|by apply (Hl k), list_elem_of_here]. destruct (cur k + v <=? u128_max); [|done].
  cbn [out_bind andb]. rewrite IH by (intros k' v' Hin; by apply (Hl k'), list_elem_of_further).
  by destruct (forallb _ l).
Qed.

(** The loop that inserts the sums, for a map. *)
Lemma insert_sums (m n : gmap PrincipalData Z) :
  fold_left (fun m '(principal, amount) => <[principal := amount]> m)
    (map (fun '(k, v) => (k, default 0 (m !! k) + v)) (drain n)) m = merge1 Z.add m n.
Proof.
  apply map_eq. intros k. rewrite fold_left_map, lookup_merge1.
  rewrite (fold_drain (fun m k => m !! k) _ (fun k v _ => Some (default 0 (m !! k) + v))).
  - destruct (n !! k) as [v|]; [|done]. by destruct (m !! k).
  - intros m' k' v k''. simpl. destruct (decide (k'' = k')) as [->|]; [apply lookup_insert_eq|by apply lookup_insert_ne].
Qed.

(** The loops over maps of maps keep them without empty inner maps. *)
Lemma fold_insert2_wf {A V : Type} (key : A -> PrincipalData * AssetIdentifier)
    (value : gmap PrincipalData (gmap AssetIdentifier V) -> A -> V) (l : list A) m :
  nested_wf m -> nested_wf (fold_left (fun m x => insert2 (key x).1 (key x).2 (value m x) m) l m).
Proof. revert m. induction l as [|x l IH]; intros m Hm; [done|]. apply IH, insert2_wf, Hm. Qed.

Lemma insert2_sums (m n : gmap PrincipalData (gmap AssetIdentifier Z)) :
  nested_wf m -> nested_wf n ->
  fold_left (fun m x => insert2 x.1.1 x.1.2 x.2 m)
    (map (fun x => (x.1, default 0 (lookup2 m x.1.1 x.1.2) + x.2)) (drain2 n)) m = merge2 Z.add m n.
Proof.
  intros Hm Hn. apply nested_eq; [|by apply merge2_wf|].
  { apply (fold_insert2_wf (fun x => x.1) (fun _ x => x.2)). done. }
  intros p a. rewrite fold_left_map, lookup2_merge2.
  rewrite (fold_drain2 (fun m k => lookup2 m k.1 k.2) _ (fun k v _ => Some (default 0 (lookup2 m k.1 k.2) + v)) _ _ (p, a)).
  - simpl. destruct (lookup2 n p a) as [v|]; [|done]. by destruct (lookup2 m p a).
  - intros m' [p' a'] v [p'' a'']. apply lookup2_insert2.
Qed.

Lemma insert2_appends (m n : gmap PrincipalData (gmap AssetIdentifier (list Value))) :
  nested_wf m -> nested_wf n ->
  fold_left (fun m x => insert2 x.1.1 x.1.2 (default [] (lookup2 m x.1.1 x.1.2) ++ x.2) m) (drain2 n) m = merge2 app m n.
Proof.
  intros Hm Hn. apply nested_eq; [|by apply merge2_wf|].
  { apply (fold_insert2_wf (fun x => x.1) (fun m x => default [] (lookup2 m x.1.1 x.1.2) ++ x.2)). done. }
  intros p a. rewrite lookup2_merge2.
  rewrite (fold_drain2 (fun m k => lookup2 m k.1 k.2) _ (fun k v o => Some (default [] o ++ v)) _ _ (p, a)).
  - simpl. destruct (lookup2 n p a) as [v|]; [|done]. by destruct (lookup2 m p a).
  - intros m' [p' a'] v [p'' a'']. cbn [fst snd]. rewrite lookup2_insert2. by destruct (decide _).
Qed.

Lemma fold_left_ext {A M : Type} (f g : M -> A -> M) (l : list A) (m : M) :
  (forall m x, f m x = g m x) -> fold_left f l m = fold_left g l m.
Proof. intros H. revert m. induction l as [|x l IH]; intros m; simpl; [done|]. by rewrite H. Qed.

Lemma try_map_ext {E A B : Type} (f g : A -> outcome E B) (l : list A) :
  (forall x, f x = g x) -> try_map f l = try_map g l.
Proof. intros H. induction l as [|x l IH]; simpl; [done|]. by rewrite H, IH. Qed.

(** Whether the sums of the entries of [n] fit, given that those of [m] do. *)
Lemma fits_merge (m n : AssetMap) :
  fits m = true -> AssetMap_wf m ->
  fits (merge m n) =
    forallb (fun '(k, v) => default 0 (lookup2 (token_map m) k.1 k.2) + v <=? u128_max) (drain2 (token_map n)) &&
    forallb (fun '(k, v) => default 0 (stx_map m !! k) + v <=? u128_max) (drain (stx_map n)) &&
    forallb (fun '(k, v) => default 0 (burn_map m !! k) + v <=? u128_max) (drain (burn_map n)).
Proof.
  rewrite fits_spec. intros (Hs & Hb & Ht) _. apply eq_true_iff_eq. rewrite fits_spec, !andb_true_iff, !forallb_forall. split.
  - intros (Ms & Mb & Mt). repeat split; intros [k v] Hin; apply list_elem_of_In in Hin; apply Z.leb_le.
    + apply drain2_elem in Hin. apply (Mt k.1 k.2). simpl. rewrite lookup2_merge2, Hin. by destruct (lookup2 (token_map m) _ _).
    + apply drain_elem in Hin. apply (Ms k). simpl. rewrite lookup_merge1, Hin. by destruct (stx_map m !! k).
    + apply drain_elem in Hin. apply (Mb k). simpl. rewrite lookup_merge1, Hin. by destruct (burn_map m !! k).
  - intros [[Nt Ns] Nb]. split; [|split].
    + intros p x. simpl. rewrite lookup_merge1. destruct (stx_map n !! p) as [v|] eqn:Hn; [|apply Hs]. intros [= <-].
      specialize (Ns (p, v)). rewrite <-list_elem_of_In, drain_elem in Ns. apply Ns, Z.leb_le in Hn. by destruct (stx_map m !! p).
    + intros p x. simpl. rewrite lookup_merge1. destruct (burn_map n !! p) as [v|] eqn:Hn; [|apply Hb]. intros [= <-].
      specialize (Nb (p, v)). rewrite <-list_elem_of_In, drain_elem in Nb. apply Nb, Z.leb_le in Hn. by destruct (burn_map m !! p).
    + intros p a x. simpl. rewrite lookup2_merge2. destruct (lookup2 (token_map n) p a) as [v|] eqn:Hn; [|apply Ht]. intros [= <-].
      specialize (Nt ((p, a), v)). rewrite <-list_elem_of_In, drain2_elem in Nt. apply Nt, Z.leb_le in Hn.
      simpl in Hn. by destruct (lookup2 (token_map m) p a).
Qed.

Lemma commit_other_merge (m n : AssetMap) :
  AssetMap_wf m -> AssetMap_wf n -> fits m = true ->
  commit_other m n = if fits (merge m n) then Ok (merge m n) else Err overflow.
Proof.
  intros Hm Hn Hf. pose proof (fits_merge m n Hf Hm) as ->. destruct Hm as ((Hs & Hb & Ht) & Hwt & Hwa).
  destruct Hn as ((Ns & Nb & Nt) & Nwt & Nwa). unfold commit_other.
  rewrite (try_map_ext _ (fun '(k, v) => let? n := ok_or overflow
    (checked_add u128_ty (default 0 (lookup2 (token_map m) k.1 k.2)) v) in Ok (k, n))).
  2:{ intros [[p a] v]. by rewrite get_next_amount_lookup2. }
  rewrite (try_map_sums (fun k => default 0 (lookup2 (token_map m) k.1 k.2))); [|intros; apply default_nonneg; eauto|].
  2:{ intros k v Hin%drain2_elem. eauto. }
  destruct (forallb _ (drain2 (token_map n))); [|done]. cbn [out_bind andb]. unfold get_next_stx_amount, get_next_stx_burn_amount.
  rewrite (try_map_sums (fun k => default 0 (stx_map m !! k))); [|intros; apply default_nonneg; eauto|].
  2:{ intros k v Hin%drain_elem. eauto. }
  destruct (forallb _ (drain (stx_map n))); [|done]. cbn [out_bind andb].
  rewrite (try_map_sums (fun k => default 0 (burn_map m !! k))); [|intros; apply default_nonneg; eauto|].
  2:{ intros k v Hin%drain_elem. eauto. }
  destruct (forallb _ (drain (burn_map n))); [|done]. cbn [out_bind]. unfold merge. rewrite !insert_sums. do 2 f_equal.
  - rewrite <-insert2_sums by done. rewrite !fold_left_map. apply fold_left_ext. by intros m' [[p a] v].
  - rewrite <-insert2_appends by done. apply fold_left_ext. by intros m' [[p a] v].
Qed.
End committing.

(** * Totals *)
Lemma tally_totals (l : list movement) (m : AssetMap) (p : PrincipalData) (a : AssetIdentifier) :
  default 0 (get_stx (tally m l) p) = default 0 (get_stx m p) + stx_sent l p /\
  default 0 (get_stx_burned (tally m l) p) = default 0 (get_stx_burned m p) + stx_burnt l p /\
  default 0 (get_fungible_tokens (tally m l) p a) = default 0 (get_fungible_tokens m p a) + tokens_sent l p a /\
  default [] (get_nonfungible_tokens (tally m l) p a) = default [] (get_nonfungible_tokens m p a) ++ assets_sent l p a.
Proof.
  revert m. induction l as [|x l IH]; intros m; [rewrite app_nil_r; repeat split; simpl; lia || done|].
  change (tally m (x :: l)) with (tally (count m x) l). destruct (IH (count m x)) as (-> & -> & -> & ->). clear IH.
  unfold get_stx, get_stx_burned, get_fungible_tokens, get_nonfungible_tokens, stx_sent, stx_burnt, tokens_sent, assets_sent.
  destruct x as [q n|q n|q b n|q b v]; cbn [count add_asset_transfer stx_map burn_map token_map asset_map foldr]; rewrite ?lookup2_insert2; repeat split; try done.
  - destruct (decide (q = p)) as [<-|]; [rewrite lookup_insert_eq; simpl; lia|by rewrite lookup_insert_ne].
  - destruct (decide (q = p)) as [<-|]; [rewrite lookup_insert_eq; simpl; lia|by rewrite lookup_insert_ne].
  - destruct (decide ((q, b) = (p, a))) as [Heq|]; [|by rewrite decide_False by congruence].
    simplify_eq. rewrite decide_True by done. simpl. lia.
  - destruct (decide ((q, b) = (p, a))) as [Heq|]; [|by rewrite decide_False by congruence].
    simplify_eq. rewrite decide_True by done. simpl. by rewrite <-app_assoc.
Qed.

(** An entry exists exactly when something was moved. *)
Lemma tally_present (l : list movement) (m : AssetMap) (p : PrincipalData) (a : AssetIdentifier) :
  (is_Some (get_stx (tally m l) p) <-> is_Some (get_stx m p) \/ exists n, MoveSTX p n ∈ l) /\
  (is_Some (get_stx_burned (tally m l) p) <-> is_Some (get_stx_burned m p) \/ exists n, BurnSTX p n ∈ l) /\
  (is_Some (get_fungible_tokens (tally m l) p a) <-> is_Some (get_fungible_tokens m p a) \/ exists n, MoveToken p a n ∈ l) /\
  (is_Some (get_nonfungible_tokens (tally m l) p a) <->
     is_Some (get_nonfungible_tokens m p a) \/ exists v, MoveAsset p a v ∈ l).
Proof.
  assert (forall (P Q R : Prop) {A : Type} (f : A -> movement) (x : movement) (l : list movement),
    (P <-> Q \/ exists n, f n ∈ l) -> (Q <-> R \/ exists n, f n = x) -> (P <-> R \/ exists n, f n ∈ x :: l)) as Hcons.
  { intros P Q R A f x l' -> ->. setoid_rewrite elem_of_cons. naive_solver. }
  revert m. induction l as [|x l IH]; intros m.
  { simpl. setoid_rewrite elem_of_nil. naive_solver. }
  change (tally m (x :: l)) with (tally (count m x) l). destruct (IH (count m x)) as (H1 & H2 & H3 & H4).
  split; [|split; [|split]]; (eapply Hcons; [eassumption|]); clear H1 H2 H3 H4 IH Hcons;
    unfold get_stx, get_stx_burned, get_fungible_tokens, get_nonfungible_tokens;
    destruct x as [q n|q n|q b n|q b v]; cbn [count add_asset_transfer stx_map burn_map token_map asset_map];
    rewrite ?lookup2_insert2, ?lookup_insert_is_Some'; try naive_solver;
    destruct (decide ((p, a) = (q, b))); naive_solver.
Qed.

Lemma is_Some_default {A : Type} (o : option A) (d : A) : is_Some o -> o = Some (default d o).
Proof. by intros [x ->]. Qed.

(** * The table of all entries *)
Section table.
Context {O : HashOrder}.

Lemma fold_drain_insert {V W : Type} (f : V -> W) (n : gmap AssetIdentifier V) (m : gmap AssetIdentifier W) (a : AssetIdentifier) :
  fold_left (fun m '(k, v) => <[k := f v]> m) (drain n) m !! a = match n !! a with Some v => Some (f v) | None => m !! a end.
Proof.
  apply (fold_drain (fun m k => m !! k) _ (fun _ v _ => Some (f v))). intros m' k v k'.
  destruct (decide (k' = k)) as [->|]; [apply lookup_insert_eq|by apply lookup_insert_ne].
Qed.

(** A loop over the principals that inserts the entry [f v] for asset [b]. *)
Lemma fold_drain_insert2 {V W : Type} (f : V -> W) (b : AssetIdentifier) (n : gmap PrincipalData V)
    (m : gmap PrincipalData (gmap AssetIdentifier W)) (p : PrincipalData) (a : AssetIdentifier) :
  lookup2 (fold_left (fun m '(p, v) => insert2 p b (f v) m) (drain n) m) p a =
  match n !! p with Some v => if decide (a = b) then Some (f v) else lookup2 m p a | None => lookup2 m p a end.
Proof.
  rewrite (fold_drain (fun m p => lookup2 m p a) _ (fun _ v o => if decide (a = b) then Some (f v) else o)); [done|].
  intros m' q v q'. rewrite lookup2_insert2. destruct (decide (q' = q)) as [->|].
  - destruct (decide (a = b)) as [->|]; [by rewrite decide_True|by rewrite decide_False by congruence].
  - by rewrite decide_False by congruence.
Qed.

Lemma to_table_lookup (m : AssetMap) (p : PrincipalData) (a : AssetIdentifier) :
  lookup2 (to_table m) p a =
  match get_nonfungible_tokens m p a with
  | Some vs => Some (EntryAsset vs)
  | None =>
      match (if decide (a = AssetIdentifier_STX_burned) then get_stx_burned m p else None) with
      | Some n => Some (EntryBurn n)
      | None =>
          match (if decide (a = AssetIdentifier_STX) then get_stx m p else None) with
          | Some n => Some (EntrySTX n)
          | None => EntryToken <$> get_fungible_tokens m p a
          end
      end
  end.
Proof.
  unfold to_table, get_nonfungible_tokens, get_stx, get_stx_burned, get_fungible_tokens. cbv zeta.
  rewrite (fold_drain (fun t p => lookup2 t p a) _ (fun _ pm o => match pm !! a with Some vs => Some (EntryAsset vs) | None => o end)).
  2:{ intros t q pm q'. unfold lookup2. destruct (decide (q' = q)) as [->|]; [|by rewrite lookup_insert_ne].
      rewrite lookup_insert_eq. csimpl. rewrite fold_drain_insert. destruct (pm !! a); [done|]. by destruct (t !! q). }
  rewrite !fold_drain_insert2.
  rewrite (fold_drain (fun t p => lookup2 t p a) _ (fun _ pm _ => EntryToken <$> pm !! a)).
  2:{ intros t q pm q'. unfold lookup2. destruct (decide (q' = q)) as [->|]; [|by rewrite lookup_insert_ne].
      rewrite lookup_insert_eq. csimpl. rewrite fold_drain_insert, lookup_empty. by destruct (pm !! a). }
  unfold lookup2. rewrite lookup_empty. destruct (asset_map m !! p) as [pm|]; csimpl; [destruct (pm !! a); [done|]|];
    destruct (burn_map m !! p), (stx_map m !! p), (token_map m !! p), (decide (a = AssetIdentifier_STX_burned)),
      (decide (a = AssetIdentifier_STX)); csimpl; done.
Qed.
End table.

(** C30: committing a nested asset map is recording its movements.  For any two
    sequences of non-negative movements that could be recorded in fresh maps,
    [commit_other] of the second map into the first has exactly the outcome,
    overflow included, of recording the second sequence on top of the first; and
    a recorded map holds, for each principal and asset, the sum of the amounts
    moved and the list of the assets moved in order. *)
Theorem commit_other_replays {O : HashOrder} (l1 l2 : list movement) (m1 m2 : AssetMap) :
  Forall movement_wf l1 -> Forall movement_wf l2 ->
  record_all AssetMap_new l1 = Ok m1 -> record_all AssetMap_new l2 = Ok m2 ->
  commit_other m1 m2 = record_all AssetMap_new (l1 ++ l2) /\
  forall m, commit_other m1 m2 = Ok m -> forall p a,
    default 0 (get_stx m p) = stx_sent (l1 ++ l2) p /\
    default 0 (get_stx_burned m p) = stx_burnt (l1 ++ l2) p /\
    default 0 (get_fungible_tokens m p a) = tokens_sent (l1 ++ l2) p a /\
    default [] (get_nonfungible_tokens m p a) = assets_sent (l1 ++ l2) p a.
Proof.
  intros W1 W2 H1 H2. pose proof (tally_wf l1 _ new_wf W1) as Hwf1. pose proof (tally_wf l2 _ new_wf W2) as Hwf2.
  rewrite record_all_tally in H1, H2 by eauto using new_wf. destruct (fits (tally AssetMap_new l1)) eqn:F1; [|done].
  destruct (fits (tally AssetMap_new l2)) eqn:F2; [|done]. apply (inj Ok) in H1, H2. subst m1 m2.
  rewrite commit_other_merge, merge_tally, <-tally_app, record_all_tally by eauto using new_wf, Forall_app_2.
  split; [done|]. intros m. destruct (fits (tally AssetMap_new (l1 ++ l2))); [|done].
  intros <-%(inj Ok) p a. apply (tally_totals (l1 ++ l2) AssetMap_new p a).
Qed.

Definition alice : PrincipalData := Standard (mkStandard x16 (repeat x01 20)).
Definition coin : AssetIdentifier := mkAssetId (mkContractId (mkStandard x16 (repeat x01 20)) "tokens") "coin".

Lemma commit_other_replays_witness :
  let l1 := [MoveSTX alice 5; MoveToken alice coin 7] in
  let l2 := [MoveToken alice coin 3; MoveAsset alice coin (VUInt 1)] in
  exists m1 m2 m, record_all AssetMap_new l1 = Ok m1 /\ record_all AssetMap_new l2 = Ok m2 /\
    commit_other m1 m2 = Ok m /\ default 0 (get_fungible_tokens m alice coin) = 10.
Proof.
  intros l1 l2.
  assert (is_ok (record_all AssetMap_new l1) = true) as [m1 H1]%is_ok_true by (vm_compute; reflexivity).
  assert (is_ok (record_all AssetMap_new l2) = true) as [m2 H2]%is_ok_true by (vm_compute; reflexivity).
  assert (is_ok (record_all AssetMap_new (l1 ++ l2)) = true) as [m Hm]%is_ok_true by (vm_compute; reflexivity).
  destruct (commit_other_replays l1 l2 m1 m2) as [Hc Ht]; [repeat constructor; simpl; lia..|exact H1|exact H2|].
  rewrite Hm in Hc. exists m1, m2, m. repeat (split; [assumption|]).
  destruct (Ht m Hc alice coin) as (_ & _ & -> & _). vm_compute. reflexivity.
Defined.
