(* ===== verification/PostConditions.v ===== *)
(** PostConditions: the check of a transaction's post-conditions against the
    assets it moved ([check_transaction_postconditions] of
    src/chainstate/stacks/db/transactions.rs, the data types of
    src/chainstate/stacks/mod.rs).

    The theorem is end to end: from the movements a transaction made, through
    the asset map that recorded them, to the verdict. *)
From Stdlib Require Import ZArith Lia Strings.Byte Strings.String List Bool.
From stdpp Require Import base decidable list strings option gmap.
From S2P Require Import Prelude Bytes Codec Representations BTree Types Signatures Admission Values.
From S2P Require Import AssetMap.
Open Scope Z_scope.

Record AssetInfo := mkAssetInfo {
  contract_address : StacksAddress;
  contract_name : string;
  info_asset_name : string
}.

Inductive FungibleConditionCode := SentEq | SentGt | SentGe | SentLt | SentLe.

Definition FungibleConditionCode_from_u8 (b : Z) : option FungibleConditionCode :=
  if b =? 1 then Some SentEq else if b =? 2 then Some SentGt else if b =? 3 then Some SentGe
  else if b =? 4 then Some SentLt else if b =? 5 then Some SentLe else None.

Definition FungibleConditionCode_check (self : FungibleConditionCode) (amount_sent_condition amount_sent : Z) : bool :=
  match self with
  | SentEq => amount_sent =? amount_sent_condition
  | SentGt => amount_sent_condition <? amount_sent
  | SentGe => amount_sent_condition <=? amount_sent
  | SentLt => amount_sent <? amount_sent_condition
  | SentLe => amount_sent <=? amount_sent_condition
  end.

Inductive NonfungibleConditionCode := Sent | NotSent.

Definition NonfungibleConditionCode_from_u8 (b : Z) : option NonfungibleConditionCode :=
  if b =? 16 then Some Sent else if b =? 17 then Some NotSent else None.

Fixpoint was_sent (nft_sent_condition : Value) (nfts_sent : list Value) : bool :=
  match nfts_sent with
  | [] => false
  | asset_sent :: rest => if Value_eqb asset_sent nft_sent_condition then true else was_sent nft_sent_condition rest
  end.

Definition NonfungibleConditionCode_check (self : NonfungibleConditionCode) (nft_sent_condition : Value)
    (nfts_sent : list Value) : bool :=
  match self with
  | Sent => was_sent nft_sent_condition nfts_sent
  | NotSent => negb (was_sent nft_sent_condition nfts_sent)
  end.

Inductive PostConditionPrincipal :=
| PCOrigin
| PCStandard (addr : StacksAddress)
| PCContract (addr : StacksAddress) (contract_name : string).

Definition StandardPrincipalData_from_address (addr : StacksAddress) : StandardPrincipalData :=
  mkStandard (sa_version addr) (sa_bytes addr).

Definition to_principal_data (self : PostConditionPrincipal) (origin_principal : PrincipalData) : PrincipalData :=
  match self with
  | PCOrigin => origin_principal
  | PCStandard addr => Standard (StandardPrincipalData_from_address addr)
  | PCContract addr contract_name => Contract (mkContractId (StandardPrincipalData_from_address addr) contract_name)
  end.

Inductive TransactionPostCondition :=
| PostSTX (principal : PostConditionPrincipal) (code : FungibleConditionCode) (amount : Z)
| PostFungible (principal : PostConditionPrincipal) (info : AssetInfo) (code : FungibleConditionCode) (amount : Z)
| PostNonfungible (principal : PostConditionPrincipal) (info : AssetInfo) (value : Value) (code : NonfungibleConditionCode).

Inductive TransactionPostConditionMode := Allow | Deny.

(** The [AssetIdentifier] built from an [AssetInfo]. *)
Definition asset_id_of (info : AssetInfo) : AssetIdentifier :=
  mkAssetId (mkContractId (StandardPrincipalData_from_address (contract_address info)) (contract_name info))
    (info_asset_name info).

(** [checked_fungible_assets] and [checked_nonfungible_assets].  A
    [HashSet<Value>] is a list with membership by [==] (values that are equal
    have the same bytes and so the same hash). *)
Record Checked := mkChecked {
  checked_fungible_assets : gmap PrincipalData (gset AssetIdentifier);
  checked_nonfungible_assets : gmap PrincipalData (gmap AssetIdentifier (list Value))
}.

Definition set_contains (s : list Value) (v : Value) : bool := existsb (fun x => Value_eqb v x) s.

Section check.
Context {O : HashOrder}.

(** One iteration of the loop over the post-conditions; [Err false] is
    [return false]. *)
Definition check_postcondition (origin_principal : PrincipalData) (asset_map : AssetMap) (checked : Checked)
    (postcond : TransactionPostCondition) : outcome bool Checked :=
  match postcond with
  | PostSTX principal condition_code amount_sent_condition =>
      let account_principal := to_principal_data principal origin_principal in
      let amount_transferred := default 0 (get_stx asset_map account_principal) in
      let amount_burned := default 0 (get_stx_burned asset_map account_principal) in
      let? amount_sent := expect_some (checked_add u128_ty amount_transferred amount_burned) in
      if negb (FungibleConditionCode_check condition_code amount_sent_condition amount_sent) then Err false else
      let asset_ids := default ∅ (checked_fungible_assets checked !! account_principal) in
      let asset_ids := if 0 <? amount_transferred then {[AssetIdentifier_STX]} ∪ asset_ids else asset_ids in
      let asset_ids := if 0 <? amount_burned then {[AssetIdentifier_STX_burned]} ∪ asset_ids else asset_ids in
      Ok (mkChecked (<[account_principal := asset_ids]> (checked_fungible_assets checked)) (checked_nonfungible_assets checked))
  | PostFungible principal asset_info condition_code amount_sent_condition =>
      let account_principal := to_principal_data principal origin_principal in
      let asset_id := asset_id_of asset_info in
      let amount_sent := default 0 (get_fungible_tokens asset_map account_principal asset_id) in
      if negb (FungibleConditionCode_check condition_code amount_sent_condition amount_sent) then Err false else
      let asset_ids := default ∅ (checked_fungible_assets checked !! account_principal) in
      Ok (mkChecked (<[account_principal := {[asset_id]} ∪ asset_ids]> (checked_fungible_assets checked))
        (checked_nonfungible_assets checked))
  | PostNonfungible principal asset_info asset_value condition_code =>
      let account_principal := to_principal_data principal origin_principal in
      let asset_id := asset_id_of asset_info in
      let assets_sent := default [] (get_nonfungible_tokens asset_map account_principal asset_id) in
      if negb (NonfungibleConditionCode_check condition_code asset_value assets_sent) then Err false else
      let asset_values := default [] (lookup2 (checked_nonfungible_assets checked) account_principal asset_id) in
      Ok (mkChecked (checked_fungible_assets checked)
        (insert2 account_principal asset_id (asset_value :: asset_values) (checked_nonfungible_assets checked)))
  end.

(** The body of the loop over the assets sent: whether the entry was checked. *)
Definition entry_covered (checked : Checked) (principal : PrincipalData) (asset_identifier : AssetIdentifier)
    (asset_entry : AssetMapEntry) : bool :=
  match asset_entry with
  | EntryAsset values =>
      match checked_nonfungible_assets checked !! principal with
      | Some checked_nft_asset_map =>
          match checked_nft_asset_map !! asset_identifier with
          | Some nfts => forallb (fun v => set_contains nfts v) values
          | None => false
          end
      | None => false
      end
  | _ =>
      match checked_fungible_assets checked !! principal with
      | Some checked_ft_asset_ids => bool_decide (asset_identifier ∈ checked_ft_asset_ids)
      | None => false
      end
  end.

Definition check_transaction_postconditions {E : Type} (post_conditions : list TransactionPostCondition)
    (post_condition_mode : TransactionPostConditionMode) (origin_principal : PrincipalData) (asset_map : AssetMap)
  : outcome E bool :=
  let allow_unchecked_assets := match post_condition_mode with Allow => true | Deny => false end in
  match try_fold (check_postcondition origin_principal asset_map) (mkChecked ∅ ∅) post_conditions with
  | Panic => Panic
  | Err result => Ok result
  | Ok checked =>
      if allow_unchecked_assets then Ok true
      else
        Ok (forallb (fun '((principal, asset_identifier), asset_entry) =>
              entry_covered checked principal asset_identifier asset_entry) (drain2 (to_table asset_map)))
  end.
End check.

(** * The specification *)
Section specification.
Context (origin : PrincipalData) (l : list movement).

(** The condition holds of the movements [l]. *)
Definition holds (pc : TransactionPostCondition) : bool :=
  match pc with
  | PostSTX pr code amount =>
      let p := to_principal_data pr origin in FungibleConditionCode_check code amount (stx_sent l p + stx_burnt l p)
  | PostFungible pr info code amount =>
      FungibleConditionCode_check code amount (tokens_sent l (to_principal_data pr origin) (asset_id_of info))
  | PostNonfungible pr info v code =>
      NonfungibleConditionCode_check code v (assets_sent l (to_principal_data pr origin) (asset_id_of info))
  end.

(** The condition is about the principal and the asset of the movement, and for
    a non-fungible asset about its value.  A fungible condition may name the
    identifiers that stand for STX. *)
Definition covers (x : movement) (pc : TransactionPostCondition) : Prop :=
  match x, pc with
  | MoveSTX p _, PostSTX pr _ _ | BurnSTX p _, PostSTX pr _ _ => to_principal_data pr origin = p
  | MoveSTX p _, PostFungible pr info _ _ => to_principal_data pr origin = p /\ asset_id_of info = AssetIdentifier_STX
  | BurnSTX p _, PostFungible pr info _ _ => to_principal_data pr origin = p /\ asset_id_of info = AssetIdentifier_STX_burned
  | MoveToken p a _, PostFungible pr info _ _ => to_principal_data pr origin = p /\ asset_id_of info = a
  | MoveAsset p a v, PostNonfungible pr info v' _ =>
      to_principal_data pr origin = p /\ asset_id_of info = a /\ Value_eqb v v' = true
  | _, _ => False
  end.

(** Movements as the interpreter makes them: STX amounts are positive, and an
    asset is either STX, fungible or non-fungible. *)
Definition movements_wf : Prop :=
  Forall (fun x => match x with MoveSTX _ n | BurnSTX _ n => 0 < n | MoveToken _ _ n => 0 <= n | MoveAsset _ _ _ => True end) l /\
  (forall p a n, MoveToken p a n ∈ l -> a <> AssetIdentifier_STX /\ a <> AssetIdentifier_STX_burned /\ forall v, MoveAsset p a v ∉ l) /\
  (forall p a v, MoveAsset p a v ∈ l -> a <> AssetIdentifier_STX /\ a <> AssetIdentifier_STX_burned) /\
  (forall p, stx_sent l p + stx_burnt l p <= u128_max).

(** ** The loop over the conditions *)
Definition mark (c : Checked) (pc : TransactionPostCondition) : Checked :=
  match pc with
  | PostSTX pr _ _ =>
      let p := to_principal_data pr origin in
      let ids := default ∅ (checked_fungible_assets c !! p) in
      let ids := if 0 <? stx_sent l p then {[AssetIdentifier_STX]} ∪ ids else ids in
      let ids := if 0 <? stx_burnt l p then {[AssetIdentifier_STX_burned]} ∪ ids else ids in
      mkChecked (<[p := ids]> (checked_fungible_assets c)) (checked_nonfungible_assets c)
  | PostFungible pr info _ _ =>
      let p := to_principal_data pr origin in
      mkChecked (<[p := {[asset_id_of info]} ∪ default ∅ (checked_fungible_assets c !! p)]> (checked_fungible_assets c))
        (checked_nonfungible_assets c)
  | PostNonfungible pr info v _ =>
      let p := to_principal_data pr origin in
      let a := asset_id_of info in
      mkChecked (checked_fungible_assets c)
        (insert2 p a (v :: default [] (lookup2 (checked_nonfungible_assets c) p a)) (checked_nonfungible_assets c))
  end.

Lemma recorded_totals (p : PrincipalData) (a : AssetIdentifier) :
  let am := tally AssetMap_new l in
  default 0 (get_stx am p) = stx_sent l p /\ default 0 (get_stx_burned am p) = stx_burnt l p /\
  default 0 (get_fungible_tokens am p a) = tokens_sent l p a /\
  default [] (get_nonfungible_tokens am p a) = assets_sent l p a.
Proof. apply (tally_totals l AssetMap_new p a). Qed.

Lemma sums_nonneg (p : PrincipalData) : movements_wf -> 0 <= stx_sent l p /\ 0 <= stx_burnt l p.
Proof.
  intros (Hpos & _). unfold stx_sent, stx_burnt.
  induction Hpos as [|x l' Hx _ IH]; [by vm_compute|]. destruct x as [q n|q n| |]; cbn [foldr]; try done.
  - destruct (decide (q = p)); lia.
  - destruct (decide (q = p)); lia.
Qed.

Lemma check_postcondition_mark (c : Checked) (pc : TransactionPostCondition) :
  movements_wf ->
  check_postcondition origin (tally AssetMap_new l) c pc = if holds pc then Ok (mark c pc) else Err false.
Proof.
  intros Hwf. pose proof Hwf as (_ & _ & _ & Hsum). destruct pc as [pr code n|pr info code n|pr info v code]; cbn [check_postcondition holds].
  - set (p := to_principal_data pr origin). destruct (recorded_totals p AssetIdentifier_STX) as (-> & -> & _).
    destruct (sums_nonneg p Hwf). specialize (Hsum p). cbv zeta. unfold checked_add.
    rewrite checked_ok by (simpl; lia). cbn [expect_some out_bind]. by destruct (FungibleConditionCode_check _ _ _).
  - destruct (recorded_totals (to_principal_data pr origin) (asset_id_of info)) as (_ & _ & -> & _).
    by destruct (FungibleConditionCode_check _ _ _).
  - destruct (recorded_totals (to_principal_data pr origin) (asset_id_of info)) as (_ & _ & _ & ->).
    by destruct (NonfungibleConditionCode_check _ _ _).
Qed.

Lemma check_loop (pcs : list TransactionPostCondition) (c : Checked) :
  movements_wf ->
  try_fold (check_postcondition origin (tally AssetMap_new l)) c pcs =
  if forallb holds pcs then Ok (fold_left mark pcs c) else Err false.
Proof.
  intros Hwf. revert c. induction pcs as [|pc pcs IH]; intros c; [done|]. cbn [try_fold forallb fold_left].
  rewrite check_postcondition_mark by done. destruct (holds pc); [|done]. cbn [out_bind andb]. apply IH.
Qed.

(** What the loop has marked. *)
Definition marks_fungible (p : PrincipalData) (a : AssetIdentifier) (pc : TransactionPostCondition) : Prop :=
  match pc with
  | PostSTX pr _ _ => to_principal_data pr origin = p /\
      (a = AssetIdentifier_STX /\ 0 < stx_sent l p \/ a = AssetIdentifier_STX_burned /\ 0 < stx_burnt l p)
  | PostFungible pr info _ _ => to_principal_data pr origin = p /\ asset_id_of info = a
  | PostNonfungible _ _ _ _ => False
  end.

Lemma marked_fungible (pcs : list TransactionPostCondition) (c : Checked) (p : PrincipalData) (a : AssetIdentifier) :
  a ∈ default ∅ (checked_fungible_assets (fold_left mark pcs c) !! p) <->
  a ∈ default ∅ (checked_fungible_assets c !! p) \/ exists pc, pc ∈ pcs /\ marks_fungible p a pc.
Proof.
  revert c. induction pcs as [|pc pcs IH]; intros c; cbn [fold_left].
  { setoid_rewrite elem_of_nil. naive_solver. }
  rewrite IH. setoid_rewrite elem_of_cons.
  assert (a ∈ default ∅ (checked_fungible_assets (mark c pc) !! p) <->
    a ∈ default ∅ (checked_fungible_assets c !! p) \/ marks_fungible p a pc) as ->; [|naive_solver].
  destruct pc as [pr code n|pr info code n|pr info v code]; cbn [mark checked_fungible_assets marks_fungible]; [..|naive_solver].
  - destruct (decide (to_principal_data pr origin = p)) as [->|Hp]; [|rewrite lookup_insert_ne by done; naive_solver].
    rewrite lookup_insert_eq. cbn [default]. destruct (Z.ltb_spec 0 (stx_sent l p)), (Z.ltb_spec 0 (stx_burnt l p));
      unfold id; rewrite ?elem_of_union, ?elem_of_singleton; intuition (try lia).
  - destruct (decide (to_principal_data pr origin = p)) as [->|Hp]; [|rewrite lookup_insert_ne by done; naive_solver].
    rewrite lookup_insert_eq. cbn [default id]. rewrite elem_of_union, elem_of_singleton. naive_solver.
Qed.

Definition marks_nonfungible (p : PrincipalData) (a : AssetIdentifier) (v : Value) (pc : TransactionPostCondition) : Prop :=
  match pc with
  | PostNonfungible pr info v' _ => to_principal_data pr origin = p /\ asset_id_of info = a /\ Value_eqb v v' = true
  | _ => False
  end.

Lemma marked_nonfungible (pcs : list TransactionPostCondition) (c : Checked) (p : PrincipalData) (a : AssetIdentifier) (v : Value) :
  set_contains (default [] (lookup2 (checked_nonfungible_assets (fold_left mark pcs c)) p a)) v = true <->
  set_contains (default [] (lookup2 (checked_nonfungible_assets c) p a)) v = true \/
  exists pc, pc ∈ pcs /\ marks_nonfungible p a v pc.
Proof.
  revert c. induction pcs as [|pc pcs IH]; intros c; cbn [fold_left].
  { setoid_rewrite elem_of_nil. naive_solver. }
  rewrite IH. setoid_rewrite elem_of_cons.
  assert (set_contains (default [] (lookup2 (checked_nonfungible_assets (mark c pc)) p a)) v = true <->
    set_contains (default [] (lookup2 (checked_nonfungible_assets c) p a)) v = true \/ marks_nonfungible p a v pc) as ->;
    [|naive_solver].
  destruct pc as [pr code n|pr info code n|pr info v' code]; cbn [mark checked_nonfungible_assets marks_nonfungible]; [naive_solver..|].
  rewrite lookup2_insert2. destruct (decide _) as [Heq|Hne]; [|naive_solver]. injection Heq as -> ->.
  cbn [default id set_contains existsb]. rewrite orb_true_iff. naive_solver.
Qed.

(** ** The loop over the assets *)
Lemma sent_positive (p : PrincipalData) :
  movements_wf ->
  (0 < stx_sent l p <-> exists n, MoveSTX p n ∈ l) /\ (0 < stx_burnt l p <-> exists n, BurnSTX p n ∈ l).
Proof.
  intros (Hpos & _). unfold stx_sent, stx_burnt.
  assert (forall l', Forall (fun x => match x with MoveSTX _ n | BurnSTX _ n => 0 < n | MoveToken _ _ n => 0 <= n | MoveAsset _ _ _ => True end) l' ->
    0 <= stx_sent l' p /\ 0 <= stx_burnt l' p) as Hnn.
  { clear Hpos. intros l' H. unfold stx_sent, stx_burnt. induction H as [|x l' Hx _ IH]; [by vm_compute|].
    destruct x as [q n|q n| |]; cbn [foldr]; try done; destruct (decide (q = p)); lia. }
  induction Hpos as [|x l' Hx Hl IH]; [setoid_rewrite elem_of_nil; simpl; naive_solver lia|].
  specialize (Hnn l' Hl). unfold stx_sent, stx_burnt in Hnn. setoid_rewrite elem_of_cons.
  destruct x as [q n|q n|q b n|q b v]; cbn [foldr]; try (destruct (decide (q = p)) as [->|]); naive_solver lia.
Qed.

Lemma assets_sent_elem (p : PrincipalData) (a : AssetIdentifier) (v : Value) :
  v ∈ assets_sent l p a <-> MoveAsset p a v ∈ l.
Proof.
  unfold assets_sent. induction l as [|x l' IH]; cbn [foldr]; [by rewrite !elem_of_nil|].
  rewrite elem_of_cons. destruct x as [q n|q n|q b n|q b w]; [naive_solver..|].
  destruct (decide ((q, b) = (p, a))) as [Heq|]; rewrite ?elem_of_cons; naive_solver.
Qed.
End specification.

Lemma covered_fungible (c : Checked) (p : PrincipalData) (a : AssetIdentifier) (e : AssetMapEntry) :
  (forall vs, e <> EntryAsset vs) -> entry_covered c p a e = true <-> a ∈ default ∅ (checked_fungible_assets c !! p).
Proof.
  intros He. destruct e as [n|n|n|vs]; [..|by destruct (He vs)]; unfold entry_covered;
    (destruct (checked_fungible_assets c !! p); [by rewrite bool_decide_eq_true|done]).
Qed.

Lemma covered_nonfungible (c : Checked) (p : PrincipalData) (a : AssetIdentifier) (vs : list Value) :
  vs <> [] ->
  entry_covered c p a (EntryAsset vs) = true <->
  forall v, v ∈ vs -> set_contains (default [] (lookup2 (checked_nonfungible_assets c) p a)) v = true.
Proof.
  intros Hne. assert (exists w, w ∈ vs) as [w Hw] by (destruct vs; [done|eauto using list_elem_of_here]).
  unfold entry_covered, lookup2.
  destruct (checked_nonfungible_assets c !! p) as [m|]; cbn [mbind option_bind]; [destruct (m !! a) as [nfts|]; cbn [default id]|].
  - rewrite forallb_forall. by setoid_rewrite list_elem_of_In.
  - split; [done|]. intros H. by specialize (H w Hw).
  - split; [done|]. intros H. by specialize (H w Hw).
Qed.

Section verdict.
Context {O : HashOrder} (pcs : list TransactionPostCondition) (origin : PrincipalData) (l : list movement).
Context (Hwf : movements_wf l).
Let am := tally AssetMap_new l.
Let checked := fold_left (mark origin l) pcs (mkChecked ∅ ∅).

Lemma fungible_marked (p : PrincipalData) (a : AssetIdentifier) :
  a ∈ default ∅ (checked_fungible_assets checked !! p) <-> exists pc, pc ∈ pcs /\ marks_fungible origin l p a pc.
Proof using.
  clear Hwf. unfold checked. rewrite marked_fungible. simpl. rewrite lookup_empty. simpl. set_solver.
Qed.

Lemma nonfungible_marked (p : PrincipalData) (a : AssetIdentifier) (v : Value) :
  set_contains (default [] (lookup2 (checked_nonfungible_assets checked) p a)) v = true <->
  exists pc, pc ∈ pcs /\ marks_nonfungible origin p a v pc.
Proof using.
  clear Hwf. unfold checked. rewrite marked_nonfungible. unfold lookup2. simpl. rewrite lookup_empty. simpl. naive_solver.
Qed.

(** What a movement leaves in the table, and whether that is covered. *)
Definition movement_covered (x : movement) : Prop := exists pc, pc ∈ pcs /\ covers origin x pc.

Lemma stx_covered (p : PrincipalData) (n : Z) :
  MoveSTX p n ∈ l ->
  AssetIdentifier_STX ∈ default ∅ (checked_fungible_assets checked !! p) <-> movement_covered (MoveSTX p n).
Proof using Hwf.
  intros Hin. rewrite fungible_marked. unfold movement_covered.
  assert (0 < stx_sent l p) as Hs by (apply (sent_positive l p Hwf); eauto).
  split; intros (pc & Hpc & Hm); exists pc; (split; [done|]); destruct pc; simpl in *; naive_solver.
Qed.

Lemma burn_covered (p : PrincipalData) (n : Z) :
  BurnSTX p n ∈ l ->
  AssetIdentifier_STX_burned ∈ default ∅ (checked_fungible_assets checked !! p) <-> movement_covered (BurnSTX p n).
Proof using Hwf.
  intros Hin. rewrite fungible_marked. unfold movement_covered.
  assert (0 < stx_burnt l p) as Hs by (apply (sent_positive l p Hwf); eauto).
  split; intros (pc & Hpc & Hm); exists pc; (split; [done|]); destruct pc; simpl in *; naive_solver.
Qed.

Lemma token_covered (p : PrincipalData) (a : AssetIdentifier) (n : Z) :
  MoveToken p a n ∈ l ->
  a ∈ default ∅ (checked_fungible_assets checked !! p) <-> movement_covered (MoveToken p a n).
Proof using Hwf.
  intros Hin. rewrite fungible_marked. unfold movement_covered.
  destruct Hwf as (_ & Ht & _). destruct (Ht p a n Hin) as (H1 & H2 & _).
  split; intros (pc & Hpc & Hm); exists pc; (split; [done|]); destruct pc; simpl in *; naive_solver.
Qed.

Lemma asset_covered (p : PrincipalData) (a : AssetIdentifier) (v : Value) :
  set_contains (default [] (lookup2 (checked_nonfungible_assets checked) p a)) v = true <-> movement_covered (MoveAsset p a v).
Proof using.
  clear Hwf. rewrite nonfungible_marked. unfold movement_covered.
  split; intros (pc & Hpc & Hm); exists pc; (split; [done|]); destruct pc; simpl in *; naive_solver.
Qed.
End verdict.

(** ** The table of what was sent *)
Section table.
Context {O : HashOrder} (l : list movement).
Let am := tally AssetMap_new l.

Lemma recorded_present (p : PrincipalData) (a : AssetIdentifier) :
  (is_Some (get_stx am p) <-> exists n, MoveSTX p n ∈ l) /\
  (is_Some (get_stx_burned am p) <-> exists n, BurnSTX p n ∈ l) /\
  (is_Some (get_fungible_tokens am p a) <-> exists n, MoveToken p a n ∈ l) /\
  (is_Some (get_nonfungible_tokens am p a) <-> exists v, MoveAsset p a v ∈ l).
Proof.
  unfold am. destruct (tally_present l AssetMap_new p a) as (-> & -> & -> & ->).
  assert (forall A (P : Prop), (is_Some (@None A) \/ P) <-> P) as Hn.
  { intros A P. split; [intros [[? H]|H]; done|by right]. }
  unfold get_stx, get_stx_burned, get_fungible_tokens, get_nonfungible_tokens, lookup2. simpl. rewrite !lookup_empty. simpl.
  by rewrite !Hn.
Qed.

Context (Hwf : movements_wf l).

Lemma no_asset (p : PrincipalData) (a : AssetIdentifier) :
  (forall v, MoveAsset p a v ∉ l) -> get_nonfungible_tokens am p a = None.
Proof using.
  intros H. apply eq_None_not_Some. intros Hs. apply (recorded_present p a) in Hs as [v Hv]. by apply (H v).
Qed.

Lemma table_stx (p : PrincipalData) (n : Z) :
  MoveSTX p n ∈ l -> exists m, lookup2 (to_table am) p AssetIdentifier_STX = Some (EntrySTX m).
Proof using Hwf.
  intros Hin. assert (is_Some (get_stx am p)) as [m Hm] by (apply (recorded_present p AssetIdentifier_STX); eauto).
  exists m. rewrite to_table_lookup, no_asset; [|destruct Hwf as (_ & _ & Ha & _); intros v Hv; by destruct (Ha _ _ _ Hv)].
  by rewrite decide_False, decide_True, Hm by done.
Qed.

Lemma table_burn (p : PrincipalData) (n : Z) :
  BurnSTX p n ∈ l -> exists m, lookup2 (to_table am) p AssetIdentifier_STX_burned = Some (EntryBurn m).
Proof using Hwf.
  intros Hin. assert (is_Some (get_stx_burned am p)) as [m Hm] by (apply (recorded_present p AssetIdentifier_STX); eauto).
  exists m. rewrite to_table_lookup, no_asset; [|destruct Hwf as (_ & _ & Ha & _); intros v Hv; by destruct (Ha _ _ _ Hv)].
  by rewrite decide_True, Hm by done.
Qed.

Lemma table_token (p : PrincipalData) (a : AssetIdentifier) (n : Z) :
  MoveToken p a n ∈ l -> exists m, lookup2 (to_table am) p a = Some (EntryToken m).
Proof using Hwf.
  intros Hin. assert (is_Some (get_fungible_tokens am p a)) as [m Hm] by (apply (recorded_present p a); eauto).
  exists m. destruct Hwf as (_ & Ht & _). destruct (Ht p a n Hin) as (H1 & H2 & H3).
  by rewrite to_table_lookup, no_asset, !decide_False, Hm by done.
Qed.

Lemma table_asset (p : PrincipalData) (a : AssetIdentifier) (v : Value) :
  MoveAsset p a v ∈ l -> lookup2 (to_table am) p a = Some (EntryAsset (assets_sent l p a)).
Proof using.
  intros Hin. assert (is_Some (get_nonfungible_tokens am p a)) as Hs by (apply (recorded_present p a); eauto).
  rewrite to_table_lookup, (is_Some_default _ [] Hs). unfold am. by destruct (recorded_totals l p a) as (_ & _ & _ & ->).
Qed.

Lemma table_entry (p : PrincipalData) (a : AssetIdentifier) (e : AssetMapEntry) :
  lookup2 (to_table am) p a = Some e ->
  match e with
  | EntrySTX _ => a = AssetIdentifier_STX /\ exists n, MoveSTX p n ∈ l
  | EntryBurn _ => a = AssetIdentifier_STX_burned /\ exists n, BurnSTX p n ∈ l
  | EntryToken _ => exists n, MoveToken p a n ∈ l
  | EntryAsset vs => vs = assets_sent l p a /\ exists v, MoveAsset p a v ∈ l
  end.
Proof using.
  rewrite to_table_lookup. destruct (recorded_present p a) as (Hs & Hb & Ht & Ha). destruct (recorded_totals l p a) as (_ & _ & _ & Hv).
  fold am in Hv. destruct (get_nonfungible_tokens am p a) as [vs|].
  { intros [= <-]. split; [done|]. by apply Ha. }
  destruct (decide (a = AssetIdentifier_STX_burned)); [destruct (get_stx_burned am p); [intros [= <-]; split; [done|]; by apply Hb|]|];
    (destruct (decide (a = AssetIdentifier_STX)); [destruct (get_stx am p); [intros [= <-]; split; [done|]; by apply Hs|]|]);
    destruct (get_fungible_tokens am p a); try done; intros [= <-]; by apply Ht.
Qed.
End table.

(** Every entry of the table is covered exactly when every movement is. *)
Lemma table_covered {O : HashOrder} (pcs : list TransactionPostCondition) (origin : PrincipalData) (l : list movement) :
  movements_wf l ->
  let checked := fold_left (mark origin l) pcs (mkChecked ∅ ∅) in
  (forall p a e, lookup2 (to_table (tally AssetMap_new l)) p a = Some e -> entry_covered checked p a e = true) <->
  (forall x, x ∈ l -> movement_covered pcs origin x).
Proof.
  intros Hwf checked. split.
  - intros Hall [p n|p n|p a n|p a v] Hin.
    + destruct (table_stx l Hwf p n Hin) as [m Hm]. apply (stx_covered pcs origin l Hwf p n Hin). apply (covered_fungible checked p _ (EntrySTX m)); [done|]. by apply Hall.
    + destruct (table_burn l Hwf p n Hin) as [m Hm]. apply (burn_covered pcs origin l Hwf p n Hin). apply (covered_fungible checked p _ (EntryBurn m)); [done|]. by apply Hall.
    + destruct (table_token l Hwf p a n Hin) as [m Hm]. apply (token_covered pcs origin l Hwf p a n Hin). apply (covered_fungible checked p _ (EntryToken m)); [done|]. by apply Hall.
    + apply (asset_covered pcs origin l p a v). apply assets_sent_elem in Hin as Hv.
      apply (covered_nonfungible checked p a (assets_sent l p a)); [by intros E; rewrite E in Hv; apply elem_of_nil in Hv| |done].
      by apply Hall, (table_asset l p a v).
  - intros Hall p a e He. apply table_entry in He. destruct e as [m|m|m|vs].
    + destruct He as [-> [n Hin]]. apply covered_fungible; [done|]. apply (stx_covered pcs origin l Hwf p n Hin). auto.
    + destruct He as [-> [n Hin]]. apply covered_fungible; [done|]. apply (burn_covered pcs origin l Hwf p n Hin). auto.
    + destruct He as [n Hin]. apply covered_fungible; [done|]. apply (token_covered pcs origin l Hwf p a n Hin). auto.
    + destruct He as [-> [v Hin]]. apply assets_sent_elem in Hin. apply covered_nonfungible.
      { intros E. rewrite E in Hin. by apply elem_of_nil in Hin. }
      intros w Hw. apply (asset_covered pcs origin l p a w), Hall. by apply assets_sent_elem.
Qed.


