(* ===== verification/Hashes.v ===== *)
(** Hashes: the digest functions of third-party crates ([sha2], [ripemd],
    [sha3]) as an interface, and the hash types built from them in
    stacks-common/src/util/hash.rs with their tagged form for Merkle trees
    (trait [MerkleHashFunc]).  A hash value is its list of bytes. *)
From Stdlib Require Import ZArith Lia Strings.Byte List Bool.
From stdpp Require Import base list.
From S2P Require Import Prelude Bytes.
Open Scope Z_scope.

(** [digest] of the crates' [Sha256], [Sha512], [Sha512_256], [Ripemd160] and
    [Keccak256]. *)
Class Digests := {
  Sha256_digest : list byte -> list byte;
  Sha512_digest : list byte -> list byte;
  Sha512_256_digest : list byte -> list byte;
  Ripemd160_digest : list byte -> list byte;
  Keccak256_digest : list byte -> list byte
}.

(** The output sizes the crates document. *)
Class DigestLaws (D : Digests) := {
  Sha256_length : forall m, length (Sha256_digest m) = 32%nat;
  Sha512_length : forall m, length (Sha512_digest m) = 64%nat;
  Sha512_256_length : forall m, length (Sha512_256_digest m) = 32%nat;
  Ripemd160_length : forall m, length (Ripemd160_digest m) = 20%nat;
  Keccak256_length : forall m, length (Keccak256_digest m) = 32%nat
}.

(** [MerkleHashFunc]; [PartialEq] of the hash type is equality of bytes. *)
Class MerkleHashFunc (H : Type) := {
  hash_eq_dec :: EqDecision H;
  hash_empty : H;
  from_tagged_data : byte -> list byte -> H;
  hash_bits : H -> list byte
}.

(** [bits] is the inner array: its length is fixed and it determines the hash. *)
Class MerkleHashLaws (H : Type) `{MerkleHashFunc H} := {
  hash_size : nat;
  hash_bits_length : forall h, length (hash_bits h) = hash_size;
  hash_bits_inj : forall h1 h2, hash_bits h1 = hash_bits h2 -> h1 = h2
}.

Section hashes.
Context {D : Digests}.

Definition Hash160_from_sha256 (sha256_hash : list byte) : list byte := Ripemd160_digest sha256_hash.
Definition Hash160_from_data (data : list byte) : list byte :=
  let sha2_result := Sha256_digest data in
  Ripemd160_digest sha2_result.
Definition Sha256Sum_from_data (data : list byte) : list byte := Sha256_digest data.
Definition Sha512Sum_from_data (data : list byte) : list byte := Sha512_digest data.
Definition Sha512Trunc256Sum_from_data (data : list byte) : list byte := Sha512_256_digest data.
Definition Keccak256Hash_from_data (data : list byte) : list byte := Keccak256_digest data.
Definition DoubleSha256_from_data (data : list byte) : list byte := Sha256_digest (Sha256_digest data).

(** [from_tagged_data] of the four implementations of [MerkleHashFunc]. *)
Definition Hash160_from_tagged_data (tag : byte) (data : list byte) : list byte :=
  Hash160_from_sha256 (Sha256_digest ([tag] ++ data)).
Definition Sha256Sum_from_tagged_data (tag : byte) (data : list byte) : list byte :=
  Sha256_digest ([tag] ++ data).
Definition DoubleSha256_from_tagged_data (tag : byte) (data : list byte) : list byte :=
  Sha256_digest (Sha256_digest ([tag] ++ data)).
Definition Sha512Trunc256Sum_from_tagged_data (tag : byte) (data : list byte) : list byte :=
  Sha512_256_digest ([tag] ++ data).
End hashes.

(** A 32-byte hash, [Sha512Trunc256Sum([u8; 32])], as a type of its own. *)
Record Sha512Trunc256Sum := mkSha512Trunc256Sum {
  sum_bytes : list byte;
  sum_length : bool_decide (length sum_bytes = 32%nat) = true
}.

Lemma Sha512Trunc256Sum_eq (a b : Sha512Trunc256Sum) : sum_bytes a = sum_bytes b -> a = b.
Proof.
  destruct a as [la Ha], b as [lb Hb]. simpl. intros <-. f_equal. apply Eqdep_dec.UIP_dec, bool_dec.
Qed.

#[global] Instance Sha512Trunc256Sum_eq_dec : EqDecision Sha512Trunc256Sum.
Proof.
  intros a b. destruct (decide (sum_bytes a = sum_bytes b)) as [Heq|Hne].
  - left. by apply Sha512Trunc256Sum_eq.
  - right. congruence.
Defined.

(** The hash of a digest of the right size. *)
Definition Sha512Trunc256Sum_of {D : Digests} {L : DigestLaws D} (tag : byte) (data : list byte)
  : Sha512Trunc256Sum :=
  mkSha512Trunc256Sum (Sha512Trunc256Sum_from_tagged_data tag data)
    (bool_decide_eq_true_2 _ (Sha512_256_length _)).

#[global] Instance Sha512Trunc256Sum_merkle {D : Digests} {L : DigestLaws D} : MerkleHashFunc Sha512Trunc256Sum := {|
  hash_empty := mkSha512Trunc256Sum (repeat x00 32) eq_refl;
  from_tagged_data := Sha512Trunc256Sum_of;
  hash_bits := sum_bytes
|}.

#[global] Instance Sha512Trunc256Sum_laws {D : Digests} {L : DigestLaws D} : MerkleHashLaws Sha512Trunc256Sum.
Proof.
  refine {| hash_size := 32 |}.
  - intros [l Hl]. exact (bool_decide_eq_true_1 _ Hl).
  - apply Sha512Trunc256Sum_eq.
Defined.

(** * A concrete instance, for evaluation *)
(** [mix n m]: [n] bytes that depend on every byte of [m] and its position. *)
Definition mix (n : nat) (m : list byte) : list byte :=
  to_be_bytes n (fold_left (fun acc b => (acc * 31 + byte_to_Z b + 7) mod 2 ^ 61) m 1).

Definition mixing_digests : Digests := {|
  Sha256_digest := mix 32; Sha512_digest := mix 64; Sha512_256_digest := mix 32;
  Ripemd160_digest := mix 20; Keccak256_digest := mix 32
|}.

Lemma mixing_digest_laws : DigestLaws mixing_digests.
Proof. split; intros; apply length_to_be_bytes. Qed.
