(* ===== verification/Merkle.v ===== *)
(** Merkle: the tagged Merkle tree of stacks-common/src/util/hash.rs, its
    inclusion proofs and their verification, for any [MerkleHashFunc].
    Soundness is stated without assuming anything of the hash: from a proof of
    something that is not in the tree one can compute a collision. *)
From Stdlib Require Import ZArith Lia Strings.Byte List Bool.
From stdpp Require Import base decidable list.
From S2P Require Import Prelude Bytes Hashes.
Open Scope nat_scope.

Inductive MerklePathOrder := PathLeft | PathRight.

Definition MERKLE_PATH_LEAF_TAG : byte := x00.
Definition MERKLE_PATH_NODE_TAG : byte := x01.

(** [nodes[0]] is the row of leaves, the last row holds the root. *)
Record MerkleTree (H : Type) := mkTree { nodes : list (list H) }.
Arguments mkTree {H} _.
Arguments nodes {H} _.

Record MerklePathPoint (H : Type) := mkPoint { order : MerklePathOrder; point_hash : H }.
Arguments mkPoint {H} _ _.
Arguments order {H} _.
Arguments point_hash {H} _.

Section merkle.
Context {H : Type} `{MerkleHashFunc H}.

Definition get_leaf_hash (leaf_data : list byte) : H := from_tagged_data MERKLE_PATH_LEAF_TAG leaf_data.

Definition get_node_hash (left_hash right_hash : H) : H :=
  let buf := hash_bits left_hash ++ hash_bits right_hash in
  from_tagged_data MERKLE_PATH_NODE_TAG buf.

(** [if row.len() % 2 != 0 { row.push(row[row.len() - 1].clone()) }] *)
Definition force_even (row : list H) : list H :=
  if Nat.eqb (length row mod 2) 0 then row
  else match last row with Some dup => row ++ [dup] | None => row end.

(** The hashes of the pairs [2 * j], [2 * j + 1] of a row. *)
Fixpoint next_row (row : list H) : list H :=
  match row with
  | left_hash :: right_hash :: row => get_node_hash left_hash right_hash :: next_row row
  | _ => []
  end.

(** The loop of [new]: the rows from [row] to the root; [None] when [fuel]
    runs out.  A row of [n >= 2] hashes needs less than [n] iterations. *)
Fixpoint build_rows (fuel : nat) (row : list H) : option (list (list H)) :=
  match fuel with
  | O => None
  | S fuel =>
      let row_hashes := next_row row in
      if Nat.eqb (length row_hashes) 1 then Some [row; row_hashes]
      else match build_rows fuel (force_even row_hashes) with
           | Some rows => Some (row :: rows)
           | None => None
           end
  end.

Definition MerkleTree_empty : MerkleTree H := mkTree [].

Definition MerkleTree_new (data : list (list byte)) : option (MerkleTree H) :=
  match data with
  | [] => Some (mkTree [])
  | _ =>
      let leaf_hashes := map get_leaf_hash data in
      let leaf_hashes := force_even leaf_hashes in
      match build_rows (length leaf_hashes) leaf_hashes with
      | Some rows => Some (mkTree rows)
      | None => None
      end
  end.

(** The index of the first hash equal to [hash]. *)
Fixpoint index_of (hash : H) (row : list H) : option nat :=
  match row with
  | [] => None
  | h :: row =>
      if decide (h = hash) then Some 0
      else match index_of hash row with Some i => Some (S i) | None => None end
  end.

Definition find_hash_index {E : Type} (self : MerkleTree H) (hash : H) (row_index : nat) : outcome E (option nat) :=
  match nodes self !! row_index with
  | None => Panic
  | Some row => Ok (index_of hash row)
  end.

Definition find_siblings {E : Type} (self : MerkleTree H) (row_index hash_index : nat) : outcome E (H * H) :=
  match nodes self with [] => Panic | _ =>
  if Nat.eqb row_index (length (nodes self) - 1) then Panic else
  let? row := expect_some (nodes self !! row_index) in
  if Nat.leb (length row) hash_index then Panic else
  if Nat.eqb (hash_index mod 2) 0 then
    if Nat.leb (length row) (hash_index + 1) then Panic else
    let? left_hash := expect_some (row !! hash_index) in
    let? right_hash := expect_some (row !! (hash_index + 1)) in
    Ok (left_hash, right_hash)
  else
    let? left_hash := expect_some (row !! (hash_index - 1)) in
    let? right_hash := expect_some (row !! hash_index) in
    Ok (left_hash, right_hash)
  end.

Definition root (self : MerkleTree H) : H :=
  match last (nodes self) with
  | Some (h :: _) => h
  | _ => hash_empty
  end.

(** The loop of [path] over the row indices; [None] is the early return of [?]. *)
Fixpoint path_rows {E : Type} (self : MerkleTree H) (rows : list nat) (hash_index : nat) (next_hash : H)
    (path : list (MerklePathPoint H)) : outcome E (option (list (MerklePathPoint H))) :=
  match rows with
  | [] => Ok (Some path)
  | i :: rows =>
      let? '(left_hash, right_hash) := find_siblings self i hash_index in
      let path :=
        if decide (next_hash = left_hash) then path ++ [mkPoint PathLeft right_hash]
        else path ++ [mkPoint PathRight left_hash] in
      let next_hash := get_node_hash left_hash right_hash in
      let? hash_index := find_hash_index self next_hash (i + 1) in
      match hash_index with
      | None => Ok None
      | Some hash_index => path_rows self rows hash_index next_hash path
      end
  end.

Definition MerkleTree_path {E : Type} (self : MerkleTree H) (data : list byte)
  : outcome E (option (list (MerklePathPoint H))) :=
  if Nat.eqb (length (nodes self)) 0 then Ok None else
  let leaf_hash := get_leaf_hash data in
  let? hash_index := find_hash_index self leaf_hash 0 in
  match hash_index with
  | None => Ok None
  | Some hash_index => path_rows self (seq 0 (length (nodes self) - 1)) hash_index leaf_hash []
  end.

(** One iteration of the loop of [path_verify]. *)
Definition climb (hash_acc : H) (p : MerklePathPoint H) : H :=
  match order p with
  | PathLeft => get_node_hash hash_acc (point_hash p)
  | PathRight => get_node_hash (point_hash p) hash_acc
  end.

Definition path_verify (data : list byte) (path : list (MerklePathPoint H)) (root : H) : bool :=
  if Nat.ltb (length path) 1 then false
  else
    let hash_acc := fold_left climb path (get_leaf_hash data) in
    bool_decide (hash_acc = root).
End merkle.

(** * The shape of a tree *)
Section tree_lemmas.
Context {H : Type} `{MerkleHashFunc H}.

Lemma even_mod (n : nat) : (n mod 2 =? 0) = Nat.even n.
Proof.
  rewrite (Nat.div_mod_eq n 2) at 2. rewrite Nat.even_add, Nat.even_mul. cbn [Nat.even orb].
  pose proof (Nat.mod_upper_bound n 2 ltac:(lia)). destruct (n mod 2) as [|[|]]; [done|done|lia].
Qed.

Lemma force_even_length (row : list H) :
  length (force_even row) = if Nat.even (length row) then length row else S (length row).
Proof.
  unfold force_even. rewrite even_mod. destruct (Nat.even (length row)) eqn:Hev; [done|].
  destruct row as [|h row]; [done|]. destruct (last (h :: row)) eqn:E; [|by apply last_None in E].
  rewrite length_app. simpl. lia.
Qed.

Lemma force_even_even (row : list H) : Nat.even (length (force_even row)) = true.
Proof. rewrite force_even_length. destruct (Nat.even (length row)) eqn:E; [done|]. by rewrite Nat.even_succ, <-Nat.negb_even, E. Qed.

Lemma force_even_elem (row : list H) (h : H) : h ∈ force_even row <-> h ∈ row.
Proof.
  unfold force_even. destruct (Nat.eqb _ 0); [done|]. destruct (last row) as [d|] eqn:E; [|done].
  rewrite elem_of_app, list_elem_of_singleton. split; [|by left]. intros [?| ->]; [done|].
  by apply last_Some_elem_of in E.
Qed.

(** Induction on rows two at a time. *)
Lemma pair_ind (P : list H -> Prop) :
  P [] -> (forall x, P [x]) -> (forall x y l, P l -> P (x :: y :: l)) -> forall l, P l.
Proof.
  intros P0 P1 P2 l. assert (P l /\ forall x, P (x :: l)) as [? _]; [|done].
  induction l as [|y l [IH1 IH2]]; split; auto.
Qed.

Lemma next_row_length (row : list H) : length (next_row row) = length row / 2.
Proof.
  induction row as [|x|x y l IH] using pair_ind; [done..|]. cbn [next_row length]. rewrite IH.
  replace (S (S (length l))) with (length l + 1 * 2) by lia. rewrite Nat.div_add by lia. lia.
Qed.

Lemma next_row_lookup (row : list H) (i : nat) (l r : H) :
  row !! (2 * i) = Some l -> row !! (2 * i + 1) = Some r -> next_row row !! i = Some (get_node_hash l r).
Proof.
  revert i. induction row as [|x|x y row IH] using pair_ind; intros i Hl Hr; [done|..].
  - rewrite Nat.add_comm in Hr. done.
  - destruct i as [|i]; simpl in *; [congruence|]. replace (i + S (i + 0)) with (S (2 * i)) in Hl by lia.
    replace (i + S (i + 0) + 1) with (S (2 * i + 1)) in Hr by lia. simpl in *. by apply IH.
Qed.

Lemma next_row_elem (row : list H) (h : H) :
  h ∈ next_row row -> exists l r, l ∈ row /\ r ∈ row /\ h = get_node_hash l r.
Proof.
  induction row as [|x|x y row IH] using pair_ind; simpl; [by intros ?%not_elem_of_nil..|].
  intros [->|Hin]%elem_of_cons.
  - exists x, y. split; [by left|]. split; [by right; left|done].
  - destruct (IH Hin) as (l & r & Hl & Hr & ->). exists l, r. split; [by do 2 right|]. split; [by do 2 right|done].
Qed.

(** [rows] starts with an even row, each row pairs up the one below, and the
    last is a single hash. *)
Inductive rows_ok : list H -> list (list H) -> Prop :=
| rows_root row h : Nat.even (length row) = true -> next_row row = [h] -> rows_ok row [row; [h]]
| rows_step row rows :
    Nat.even (length row) = true -> 2 <= length (next_row row) ->
    rows_ok (force_even (next_row row)) rows -> rows_ok row (row :: rows).

Lemma build_rows_ok (fuel : nat) (row : list H) :
  Nat.even (length row) = true -> 2 <= length row <= fuel ->
  exists rows, build_rows fuel row = Some rows /\ rows_ok row rows.
Proof.
  revert row. induction fuel as [|fuel IH]; intros row Hev Hlen; [lia|]. cbn [build_rows].
  pose proof (next_row_length row) as Hn. pose proof (Nat.div_mod_eq (length row) 2) as Hdm.
  pose proof (even_mod (length row)) as Hm. rewrite Hev in Hm. apply Nat.eqb_eq in Hm.
  destruct (Nat.eqb_spec (length (next_row row)) 1) as [H1|H1].
  - destruct (next_row row) as [|h [|]] eqn:E; try done. eexists. split; [done|]. by apply rows_root.
  - destruct (IH (force_even (next_row row))) as (rows & -> & Hok).
    + apply force_even_even.
    + rewrite force_even_length. destruct (Nat.even (length (next_row row))) eqn:E; [lia|].
      assert (length row <> 2) by (intros E2; rewrite E2 in Hn; simpl in Hn; lia). lia.
    + eexists. split; [done|]. apply rows_step; [done|lia|done].
Qed.

Lemma MerkleTree_new_ok (data : list (list byte)) :
  data <> [] -> exists rows, MerkleTree_new data = Some (mkTree rows) /\
    rows_ok (force_even (map get_leaf_hash data)) rows.
Proof.
  intros Hne. unfold MerkleTree_new. destruct data as [|d data]; [done|]. cbv zeta.
  destruct (build_rows_ok (length (force_even (map get_leaf_hash (d :: data)))) (force_even (map get_leaf_hash (d :: data))))
    as (rows & -> & Hok); [apply force_even_even| |by exists rows].
  rewrite force_even_length, length_map. cbn [length]. split; [|done]. destruct (Nat.even _) eqn:E; [|lia].
  destruct (length data); [done|lia].
Qed.

(** * Inclusion proofs *)
Lemma index_of_elem (h : H) (row : list H) :
  h ∈ row -> exists i, index_of h row = Some i /\ row !! i = Some h.
Proof.
  induction row as [|x row IH]; [by intros ?%not_elem_of_nil|]. intros Hin. simpl.
  destruct (decide (x = h)) as [->|Hne]; [by exists 0|]. apply elem_of_cons in Hin as [->|Hin]; [done|].
  destruct (IH Hin) as (i & -> & Hi). by exists (S i).
Qed.

(** The pair of a hash in an even row, and where its parent is. *)
Lemma siblings_ok {E : Type} (tree : MerkleTree H) (i idx : nat) (row : list H) (h : H) :
  nodes tree !! i = Some row -> i < length (nodes tree) - 1 -> Nat.even (length row) = true -> row !! idx = Some h ->
  exists l r, find_siblings (E:=E) tree i idx = Ok (l, r) /\ get_node_hash l r ∈ next_row row /\ (h = l \/ h = r).
Proof.
  intros Hrow Hi Hev Hidx. unfold find_siblings. pose proof (lookup_lt_Some _ _ _ Hidx) as Hlt.
  destruct (nodes tree) as [|r0 rs] eqn:En; [done|]. rewrite <-En in *.
  destruct (Nat.eqb_spec i (length (nodes tree) - 1)); [lia|]. rewrite Hrow. cbn [expect_some out_bind].
  destruct (Nat.leb_spec (length row) idx); [lia|]. pose proof (Nat.div_mod_eq idx 2) as Hdm.
  pose proof (Nat.mod_upper_bound idx 2 ltac:(lia)) as Hub. pose proof (even_mod (length row)) as Hm. rewrite Hev in Hm.
  apply Nat.eqb_eq in Hm. pose proof (Nat.div_mod_eq (length row) 2) as Hdl.
  destruct (Nat.eqb_spec (idx mod 2) 0) as [Hz|Hz].
  - destruct (Nat.leb_spec (length row) (idx + 1)); [lia|].
    destruct (lookup_lt_is_Some_2 row (idx + 1)) as [r Hr]; [lia|]. rewrite Hidx, Hr. cbn [expect_some out_bind].
    exists h, r. split; [done|]. split; [|by left]. apply (list_elem_of_lookup_2 _ (idx / 2)).
    apply next_row_lookup; [by replace (2 * (idx / 2)) with idx by lia|by replace (2 * (idx / 2) + 1) with (idx + 1) by lia].
  - destruct (lookup_lt_is_Some_2 row (idx - 1)) as [l Hl]; [lia|]. rewrite Hidx, Hl. cbn [expect_some out_bind].
    exists l, h. split; [done|]. split; [|by right]. apply (list_elem_of_lookup_2 _ (idx / 2)).
    apply next_row_lookup; [by replace (2 * (idx / 2)) with (idx - 1) by lia|by replace (2 * (idx / 2) + 1) with idx by lia].
Qed.

(** The point [path] adds leads from the hash to its parent. *)
Lemma climb_point (h l r : H) :
  h = l \/ h = r ->
  climb h (if decide (h = l) then mkPoint PathLeft r else mkPoint PathRight l) = get_node_hash l r.
Proof. intros Hh. destruct (decide (h = l)) as [->|Hne]; [done|]. by destruct Hh as [?| ->]. Qed.

Lemma rows_length (row : list H) (rows : list (list H)) : rows_ok row rows -> 2 <= length rows.
Proof. induction 1; simpl in *; lia. Qed.

Lemma rows_head (row : list H) (rows : list (list H)) : rows_ok row rows -> rows !! 0 = Some row.
Proof. by induction 1. Qed.

Lemma path_rows_ok {E : Type} (row : list H) (rows pre : list (list H)) (idx : nat) (h : H) (p : list (MerklePathPoint H)) :
  rows_ok row rows -> row !! idx = Some h ->
  exists q, q <> [] /\ fold_left climb q h = root (mkTree rows) /\
    path_rows (E:=E) (mkTree (pre ++ rows)) (seq (length pre) (length rows - 1)) idx h p = Ok (Some (p ++ q)).
Proof.
  intros Hok. revert pre idx h p. induction Hok as [row g Hev Hnext|row rows Hev Hlen Hok IH]; intros pre idx h p Hidx.
  - destruct (siblings_ok (E:=E) (mkTree (pre ++ [row; [g]])) (length pre) idx row h) as (l & r & Hs & Hin & Hlr);
      [simpl; by rewrite lookup_app_r, Nat.sub_diag by lia|simpl; rewrite length_app; simpl; lia|done|done|].
    rewrite Hnext, list_elem_of_singleton in Hin. exists [if decide (h = l) then mkPoint PathLeft r else mkPoint PathRight l].
    split; [done|]. split; [simpl; rewrite climb_point by done; by rewrite Hin|].
    cbn [length Nat.sub seq path_rows]. rewrite Hs. cbn [out_bind]. unfold find_hash_index. cbn [nodes].
    rewrite lookup_app_r by lia. replace (length pre + 1 - length pre) with 1 by lia. cbn [lookup list_lookup out_bind].
    rewrite Hin. simpl. rewrite decide_True by done. by destruct (decide (h = l)).
  - pose proof (rows_length _ _ Hok) as Hl. pose proof (rows_head _ _ Hok) as Hh.
    destruct (siblings_ok (E:=E) (mkTree (pre ++ row :: rows)) (length pre) idx row h) as (l & r & Hs & Hin & Hlr);
      [simpl; by rewrite lookup_app_r, Nat.sub_diag by lia|simpl; rewrite length_app; simpl; lia|done|done|].
    apply force_even_elem in Hin. destruct (index_of_elem _ _ Hin) as (idx' & Hidx' & Hat).
    destruct (IH (pre ++ [row]) idx' _ (p ++ [if decide (h = l) then mkPoint PathLeft r else mkPoint PathRight l]) Hat)
      as (q & Hq & Hfold & Hpath).
    exists ((if decide (h = l) then mkPoint PathLeft r else mkPoint PathRight l) :: q). split; [done|]. split.
    { cbn [fold_left]. rewrite climb_point, Hfold by done. unfold root. simpl. by destruct rows as [|? [|]]. }
    cbn [length Nat.sub]. replace (length rows - 0) with (S (length rows - 1)) by lia. cbn [seq path_rows]. rewrite Hs. cbn [out_bind].
    unfold find_hash_index. cbn [nodes]. rewrite lookup_app_r by lia.
    replace (length pre + 1 - length pre) with 1 by lia. change ((row :: rows) !! 1) with (rows !! 0). rewrite Hh. cbn [out_bind]. rewrite Hidx'.
    rewrite <-app_assoc, length_app, <-app_assoc in Hpath. cbn [length app] in Hpath. rewrite Nat.add_1_r in Hpath.
    rewrite <-Hpath. by destruct (decide (h = l)).
Qed.
End tree_lemmas.

(** * Soundness *)
(** What is hashed when a tree is built and when a proof is checked. *)
Section inputs.
Context {H : Type} `{MerkleHashFunc H}.

Definition leaf_input (data : list byte) : byte * list byte := (MERKLE_PATH_LEAF_TAG, data).
Definition node_input (l r : H) : byte * list byte := (MERKLE_PATH_NODE_TAG, hash_bits l ++ hash_bits r).
Definition hash_input (i : byte * list byte) : H := from_tagged_data (fst i) (snd i).

Fixpoint row_inputs (row : list H) : list (byte * list byte) :=
  match row with
  | l :: r :: row => node_input l r :: row_inputs row
  | _ => []
  end.

Definition tree_inputs (data : list (list byte)) (tree : MerkleTree H) : list (byte * list byte) :=
  map leaf_input data ++ flat_map row_inputs (nodes tree).

Definition climb_input (acc : H) (p : MerklePathPoint H) : byte * list byte :=
  match order p with
  | PathLeft => node_input acc (point_hash p)
  | PathRight => node_input (point_hash p) acc
  end.

Fixpoint climb_inputs (acc : H) (path : list (MerklePathPoint H)) : list (byte * list byte) :=
  match path with
  | [] => []
  | p :: path => climb_input acc p :: climb_inputs (climb acc p) path
  end.

Definition path_inputs (data : list byte) (path : list (MerklePathPoint H)) : list (byte * list byte) :=
  leaf_input data :: climb_inputs (get_leaf_hash data) path.

(** Two different inputs, one of each list, with the same hash. *)
Definition collision_between (l1 l2 : list (byte * list byte)) : Prop :=
  exists a b, a ∈ l1 /\ b ∈ l2 /\ a <> b /\ hash_input a = hash_input b.

Lemma collision_mono (l l1 l2 : list (byte * list byte)) :
  (forall x, x ∈ l1 -> x ∈ l2) -> collision_between l l1 -> collision_between l l2.
Proof. intros Hsub (a & b & Ha & Hb & Hab). exists a, b. auto. Qed.

Lemma climb_inputs_snoc (acc : H) (path : list (MerklePathPoint H)) (p : MerklePathPoint H) :
  climb_inputs acc (path ++ [p]) = climb_inputs acc path ++ [climb_input (fold_left climb path acc) p].
Proof. revert acc. induction path as [|q path IH]; intros acc; simpl; [done|]. by rewrite IH. Qed.

Lemma climb_hash (acc : H) (p : MerklePathPoint H) : climb acc p = hash_input (climb_input acc p).
Proof. unfold climb, climb_input. by destruct (order p). Qed.

Lemma next_row_input (row : list H) (h : H) :
  h ∈ next_row row -> exists l r, l ∈ row /\ r ∈ row /\ node_input l r ∈ row_inputs row /\ h = hash_input (node_input l r).
Proof.
  induction row as [|x|x y row IH] using pair_ind; simpl; [by intros ?%not_elem_of_nil..|].
  intros [->|Hin]%elem_of_cons.
  - exists x, y. split; [by left|]. split; [by right; left|]. split; [by left|done].
  - destruct (IH Hin) as (l & r & Hl & Hr & Hi & ->). exists l, r.
    split; [by do 2 right|]. split; [by do 2 right|]. split; [by right|done].
Qed.

Context {L : MerkleHashLaws H}.

Lemma node_input_inj (a b c d : H) : node_input a b = node_input c d -> a = c /\ b = d.
Proof using L.
  unfold node_input. intros [= E]. apply app_inj_1 in E as [E1 E2]; [|by rewrite !hash_bits_length].
  split; by apply hash_bits_inj.
Qed.

(** A verified climb to a hash of this row started from a leaf of the tree, or
    meets a collision with the inputs [T] of the tree. *)
Definition row_sound (data : list (list byte)) (T : list (byte * list byte)) (row : list H) : Prop :=
  forall d path, fold_left climb path (get_leaf_hash d) ∈ row -> In d data \/ collision_between T (path_inputs d path).

Lemma leaf_row_sound (data : list (list byte)) (T : list (byte * list byte)) :
  (forall x, In x data -> leaf_input x ∈ T) -> row_sound data T (force_even (map get_leaf_hash data)).
Proof.
  intros HT d path Hin. apply force_even_elem, list_elem_of_In, in_map_iff in Hin as (x & Hx & Hin).
  destruct path as [|p path _] using rev_ind.
  - destruct (decide (leaf_input x = leaf_input d)) as [[= ->]|Hne]; [by left|].
    right. exists (leaf_input x), (leaf_input d). split; [by apply HT|]. split; [by left|]. done.
  - right. rewrite fold_left_app in Hx. cbn [fold_left] in Hx. rewrite climb_hash in Hx.
    exists (leaf_input x), (climb_input (fold_left climb path (get_leaf_hash d)) p).
    split; [by apply HT|]. split; [unfold path_inputs; rewrite climb_inputs_snoc; right; apply elem_of_app; right; by left|].
    split; [|done]. unfold leaf_input, climb_input, node_input. by destruct (order p).
Qed.

Lemma next_row_sound (data : list (list byte)) (T : list (byte * list byte)) (row : list H) :
  (forall x, x ∈ row_inputs row -> x ∈ T) -> row_sound data T row -> row_sound data T (next_row row).
Proof using L.
  intros HT IH d path Hin. destruct (next_row_input _ _ Hin) as (l & r & Hl & Hr & Hi & Hx). clear Hin.
  destruct path as [|p path _] using rev_ind.
  - right. exists (node_input l r), (leaf_input d). split; [by apply HT|]. split; [by left|]. split; [done|]. by symmetry.
  - rewrite fold_left_app in Hx. cbn [fold_left] in Hx. rewrite climb_hash in Hx.
    set (acc := fold_left climb path (get_leaf_hash d)) in *.
    assert (forall x, x ∈ path_inputs d path -> x ∈ path_inputs d (path ++ [p])) as Hsub.
    { intros x. unfold path_inputs. rewrite climb_inputs_snoc, !elem_of_cons, elem_of_app. tauto. }
    destruct (decide (node_input l r = climb_input acc p)) as [Heq|Hne].
    + assert (acc ∈ row) as Hacc.
      { unfold climb_input in Heq. destruct (order p); apply node_input_inj in Heq as [-> ->]; done. }
      destruct (IH d path Hacc) as [?|Hc]; [by left|right]. by eapply collision_mono.
    + right. exists (node_input l r), (climb_input acc p). split; [by apply HT|].
      split; [unfold path_inputs; rewrite climb_inputs_snoc; right; apply elem_of_app; right; by left|]. done.
Qed.

Lemma rows_sound (data : list (list byte)) (T : list (byte * list byte)) (row : list H) (rows : list (list H)) :
  rows_ok row rows -> (forall r x, In r rows -> x ∈ row_inputs r -> x ∈ T) -> row_sound data T row ->
  row_sound data T [root (mkTree rows)].
Proof using L.
  induction 1 as [row g Hev Hnext|row rows Hev Hlen Hok IH]; intros HT Hrow.
  - change (row_sound data T [g]). rewrite <-Hnext. apply next_row_sound; [|done]. intros x. apply HT. by left.
  - assert (root (mkTree (row :: rows)) = root (mkTree rows)) as ->.
    { unfold root. simpl. pose proof (rows_length _ _ Hok). destruct rows; [simpl in *; lia|done]. }
    apply IH; [intros r x Hr; apply HT; by right|]. intros d path Hin. apply (proj1 (force_even_elem _ _)) in Hin.
    refine (next_row_sound data T row _ Hrow d path Hin). intros x. apply HT. by left.
Qed.
End inputs.

Lemma leaf_has_proof {H : Type} `{MerkleHashFunc H} (data : list (list byte)) (d : list byte) :
  In d data ->
  exists tree path, MerkleTree_new data = Some tree /\
    MerkleTree_path (E:=Empty_set) tree d = Ok (Some path) /\ path_verify d path (root tree) = true.
Proof.
  intros Hin. destruct (MerkleTree_new_ok data) as (rows & Hnew & Hok); [by intros ->|].
  assert (get_leaf_hash d ∈ force_even (map get_leaf_hash data)) as Hleaf
    by by apply force_even_elem, list_elem_of_In, in_map.
  destruct (index_of_elem _ _ Hleaf) as (idx & Hidx & Hat).
  destruct (path_rows_ok (E:=Empty_set) _ rows [] idx _ [] Hok Hat) as (q & Hq & Hfold & Hpath).
  exists (mkTree rows), q. split; [done|]. split.
  - unfold MerkleTree_path, find_hash_index. cbn [nodes]. pose proof (rows_length _ _ Hok).
    destruct (Nat.eqb_spec (length rows) 0); [lia|]. rewrite (rows_head _ _ Hok). cbn [out_bind]. by rewrite Hidx.
  - unfold path_verify. destruct q as [|p q]; [done|]. cbn [length Nat.ltb Nat.leb]. by apply bool_decide_eq_true_2.
Qed.

(** Every leaf has a proof that verifies: [new] terminates, and for every
    datum of a non-empty list [path] finds a path (it does not panic) that
    [path_verify] accepts against the root.  Nothing is assumed of the hash. *)
Lemma merkle_complete {H : Type} `{MerkleHashFunc H} (data : list (list byte)) (d : list byte) :
  In d data ->
  exists tree path, MerkleTree_new data = Some tree /\
    MerkleTree_path (E:=Empty_set) tree d = Ok (Some path) /\ path_verify d path (root tree) = true.
Proof. apply leaf_has_proof. Qed.

Lemma merkle_complete_witness :
  exists tree path, MerkleTree_new (H0:=@Sha512Trunc256Sum_merkle mixing_digests mixing_digest_laws)
      [[x01]; [x02]; [x03]] = Some tree /\
    path_verify (H0:=@Sha512Trunc256Sum_merkle mixing_digests mixing_digest_laws) [x03] path
      (root (H0:=@Sha512Trunc256Sum_merkle mixing_digests mixing_digest_laws) tree) = true.
Proof.
  destruct (@merkle_complete _ (@Sha512Trunc256Sum_merkle mixing_digests mixing_digest_laws) [[x01]; [x02]; [x03]] [x03])
    as (tree & path & Hnew & _ & Hv); [by right; right; left|].
  by exists tree, path.
Defined.

Lemma proof_has_leaf {H : Type} `{MerkleHashLaws H} (data : list (list byte)) (d : list byte)
    (path : list (MerklePathPoint H)) (tree : MerkleTree H) :
  data <> [] -> MerkleTree_new data = Some tree -> path_verify d path (root tree) = true ->
  In d data \/ collision_between (tree_inputs data tree) (path_inputs d path).
Proof.
  intros Hne Hnew Hv. destruct (MerkleTree_new_ok data Hne) as (rows & Hnew' & Hok).
  assert (tree = mkTree rows) as -> by congruence. unfold path_verify in Hv. destruct (Nat.ltb _ 1); [done|].
  apply bool_decide_eq_true_1 in Hv.
  apply (rows_sound data (tree_inputs data (mkTree rows)) _ rows Hok); [|apply leaf_row_sound|by rewrite Hv; left].
  - intros r x Hr Hx. unfold tree_inputs. apply elem_of_app. right. apply list_elem_of_In, in_flat_map.
    exists r. split; [done|]. by apply list_elem_of_In.
  - intros x Hx. unfold tree_inputs. apply elem_of_app. left. by apply list_elem_of_In, in_map.
Qed.

(** C26: only leaves have proofs, up to collisions: if [path_verify] accepts a
    datum against the root of a tree, then the datum is one of the leaves, or
    among the inputs hashed to build the tree and those hashed to check the
    path there are two different ones with equal hashes.  Paths of any length
    are covered, also those that stop at or go below a node (the tags of leaves
    and nodes differ). *)
Theorem merkle_sound {H : Type} `{MerkleHashLaws H} (data : list (list byte)) (d : list byte)
    (path : list (MerklePathPoint H)) (tree : MerkleTree H) :
  data <> [] -> MerkleTree_new data = Some tree -> path_verify d path (root tree) = true ->
  In d data \/ collision_between (tree_inputs data tree) (path_inputs d path).
Proof. apply proof_has_leaf. Qed.

Lemma merkle_sound_witness :
  exists (tree : MerkleTree Sha512Trunc256Sum) (path : list (MerklePathPoint Sha512Trunc256Sum)),
    In [x02] [[x01]; [x02]] \/
    @collision_between _ (@Sha512Trunc256Sum_merkle mixing_digests mixing_digest_laws)
      (@tree_inputs _ (@Sha512Trunc256Sum_merkle mixing_digests mixing_digest_laws) [[x01]; [x02]] tree)
      (@path_inputs _ (@Sha512Trunc256Sum_merkle mixing_digests mixing_digest_laws) [x02] path).
Proof.
  eexists _, [mkPoint PathRight (@get_leaf_hash _ (@Sha512Trunc256Sum_merkle mixing_digests mixing_digest_laws) [x01])].
  apply (@merkle_sound _ (@Sha512Trunc256Sum_merkle mixing_digests mixing_digest_laws)
    (@Sha512Trunc256Sum_laws mixing_digests mixing_digest_laws)).
  - discriminate.
  - reflexivity.
  - apply bool_decide_eq_true_2. reflexivity.
Defined.

(** Duplicated leaves do not change the root: for data of odd length, adding
    the last datum once more builds the very same tree, so the root does not
    determine the list of leaves. *)
Lemma merkle_duplicate_leaf {H : Type} `{MerkleHashFunc H} (data : list (list byte)) (d : list byte) :
  Nat.even (length data) = true ->
  MerkleTree_new (H:=H) (data ++ [d; d]) = MerkleTree_new (data ++ [d]).
Proof.
  intros Hev. assert (force_even (map get_leaf_hash (data ++ [d; d])) =
    force_even (H:=H) (map get_leaf_hash (data ++ [d]))) as Heq.
  { unfold force_even. rewrite !length_map, !length_app, !even_mod, !Nat.even_add, Hev. cbn [length Nat.even Bool.eqb].
    rewrite !map_app. cbn [map]. rewrite last_snoc, <-app_assoc. done. }
  unfold MerkleTree_new. cbv zeta. rewrite Heq. by destruct data.
Qed.

Lemma merkle_duplicate_leaf_witness :
  @MerkleTree_new _ (@Sha512Trunc256Sum_merkle mixing_digests mixing_digest_laws) [[x01]; [x02]; [x03]; [x03]] =
  @MerkleTree_new _ (@Sha512Trunc256Sum_merkle mixing_digests mixing_digest_laws) [[x01]; [x02]; [x03]].
Proof.
  apply (@merkle_duplicate_leaf _ (@Sha512Trunc256Sum_merkle mixing_digests mixing_digest_laws) [[x01]; [x02]] [x03]).
  reflexivity.
Defined.
