(* ===== verification/Keys.v ===== *)
(** Keys: the public keys, private keys and signatures of
    stacks-common/src/util/secp256k1.rs on top of the secp256k1 library, the
    scripts of deps_common/bitcoin/blockdata/script.rs that multi-signature
    addresses hash, and the addresses of keys
    (stacks-common/src/{address,types}/mod.rs).

    The library is an interface, [LibSecp256k1], with the behaviour it documents
    in [Secp256k1Laws]; [toy_secp256k1] is an instance of both. *)
From Stdlib Require Import ZArith Lia Strings.Byte Strings.String List Bool.
From stdpp Require Import base decidable list strings.
From S2P Require Import Prelude Bytes Codec Representations Hashes.
Open Scope Z_scope.

(** * The secp256k1 crate *)
Class LibSecp256k1 := {
  LibPublicKey : Type;
  LibSecretKey : Type;
  LibMessage : Type;
  LibRecoveryId : Type;
  LibRecoverableSignature : Type;
  LibSignature : Type;
  LibPublicKey_eq_dec :: EqDecision LibPublicKey;
  LibSignature_eq_dec :: EqDecision LibSignature;
  LibPublicKey_from_slice : list byte -> option LibPublicKey;
  LibPublicKey_serialize : LibPublicKey -> list byte;
  LibPublicKey_serialize_uncompressed : LibPublicKey -> list byte;
  LibPublicKey_from_secret_key : LibSecretKey -> LibPublicKey;
  LibSecretKey_from_slice : list byte -> option LibSecretKey;
  LibSecretKey_bytes : LibSecretKey -> list byte;
  LibMessage_from_slice : list byte -> option LibMessage;
  LibRecoveryId_from_i32 : Z -> option LibRecoveryId;
  LibRecoveryId_to_i32 : LibRecoveryId -> Z;
  LibRecoverableSignature_from_compact : list byte -> LibRecoveryId -> option LibRecoverableSignature;
  LibRecoverableSignature_serialize_compact : LibRecoverableSignature -> LibRecoveryId * list byte;
  LibRecoverableSignature_to_standard : LibRecoverableSignature -> LibSignature;
  LibSignature_from_compact : list byte -> option LibSignature;
  LibSignature_normalize_s : LibSignature -> LibSignature;
  sign_ecdsa_recoverable : LibMessage -> LibSecretKey -> LibRecoverableSignature;
  recover_ecdsa : LibMessage -> LibRecoverableSignature -> option LibPublicKey;
  verify_ecdsa : LibMessage -> LibSignature -> LibPublicKey -> bool
}.

(** The order of the group; a message stands for its residue. *)
Definition CURVE_ORDER : Z := 0xFFFFFFFFFFFFFFFFFFFFFFFFFFFFFFFEBAAEDCE6AF48A03BBFD25E8CD0364141.
Definition message_scalar (data : list byte) : Z := from_be_bytes data mod CURVE_ORDER.

(** Sizes and round trips of the encodings; a message is 32 bytes; a signature
    made with a secret key is recovered to its public key and is not all zeros; a
    signature and a key determine the message they go with, modulo the order. *)
Class Secp256k1Laws (K : LibSecp256k1) := {
  serialize_length : forall k, length (LibPublicKey_serialize k) = 33%nat;
  serialize_uncompressed_length : forall k, length (LibPublicKey_serialize_uncompressed k) = 65%nat;
  from_slice_serialize : forall k, LibPublicKey_from_slice (LibPublicKey_serialize k) = Some k;
  from_slice_serialize_uncompressed : forall k,
    LibPublicKey_from_slice (LibPublicKey_serialize_uncompressed k) = Some k;
  secret_key_length : forall k, length (LibSecretKey_bytes k) = 32%nat;
  secret_key_from_slice : forall k, LibSecretKey_from_slice (LibSecretKey_bytes k) = Some k;
  message_from_slice : forall data, length data = 32%nat -> is_Some (LibMessage_from_slice data);
  recovery_id_range : forall r, 0 <= LibRecoveryId_to_i32 r <= 3;
  recovery_id_i32 : forall r, LibRecoveryId_from_i32 (LibRecoveryId_to_i32 r) = Some r;
  compact_length : forall s, length (snd (LibRecoverableSignature_serialize_compact s)) = 64%nat;
  compact_roundtrip : forall s,
    LibRecoverableSignature_from_compact (snd (LibRecoverableSignature_serialize_compact s))
      (fst (LibRecoverableSignature_serialize_compact s)) = Some s;
  sign_nonzero : forall m k,
    snd (LibRecoverableSignature_serialize_compact (sign_ecdsa_recoverable m k)) <> repeat x00 64;
  recover_sign : forall m k,
    recover_ecdsa m (sign_ecdsa_recoverable m k) = Some (LibPublicKey_from_secret_key k);
  recover_binds : forall d1 d2 m1 m2 s k,
    LibMessage_from_slice d1 = Some m1 -> LibMessage_from_slice d2 = Some m2 ->
    recover_ecdsa m1 s = Some k -> recover_ecdsa m2 s = Some k -> message_scalar d1 = message_scalar d2
}.

(** * Keys and signatures *)
Section keys.
Context {K : LibSecp256k1}.

Record Secp256k1PublicKey := mkPublicKey {
  pub_key : LibPublicKey;
  compressed : bool
}.

Record Secp256k1PrivateKey := mkPrivateKey {
  priv_key : LibSecretKey;
  compress_public : bool
}.

#[global] Instance Secp256k1PublicKey_eq_dec : EqDecision Secp256k1PublicKey.
Proof. solve_decision. Defined.

(** [MessageSignature([u8; 65])]: the recovery id and the compact signature. *)
Definition MessageSignature_empty : list byte := repeat x00 65.

Definition from_secp256k1_recoverable (sig : LibRecoverableSignature) : list byte :=
  let '(recid, bytes) := LibRecoverableSignature_serialize_compact sig in
  byte_of_Z (LibRecoveryId_to_i32 recid) :: firstn 64 bytes.

Definition to_secp256k1_recoverable (self : list byte) : option LibRecoverableSignature :=
  match self with
  | recid_byte :: sig_bytes =>
      match LibRecoveryId_from_i32 (byte_to_Z recid_byte) with
      | Some recid => LibRecoverableSignature_from_compact (firstn 64 sig_bytes) recid
      | None => None
      end
  | [] => None
  end.

Definition PUBLIC_KEY_SIZE : nat := 33.

Definition PublicKey_from_slice (data : list byte) : outcome string Secp256k1PublicKey :=
  match LibPublicKey_from_slice data with
  | Some pubkey_res => Ok (mkPublicKey pubkey_res (Nat.eqb (length data) PUBLIC_KEY_SIZE))
  | None => Err "Invalid public key: failed to load"
  end.

Definition PublicKey_from_hex (hex_string : string) : outcome string Secp256k1PublicKey :=
  let? data := map_err (fun _ => "Failed to decode hex public key") (hex_bytes hex_string) in
  map_err (fun _ => "Invalid public key hex string") (PublicKey_from_slice data).

Definition PublicKey_from_private (privk : Secp256k1PrivateKey) : Secp256k1PublicKey :=
  mkPublicKey (LibPublicKey_from_secret_key (priv_key privk)) (compress_public privk).

Definition PublicKey_to_bytes (self : Secp256k1PublicKey) : list byte :=
  if compressed self then LibPublicKey_serialize (pub_key self)
  else LibPublicKey_serialize_uncompressed (pub_key self).

Definition PublicKey_to_hex (self : Secp256k1PublicKey) : string :=
  if compressed self then to_hex (LibPublicKey_serialize (pub_key self))
  else to_hex (LibPublicKey_serialize_uncompressed (pub_key self)).

Definition to_bytes_compressed (self : Secp256k1PublicKey) : list byte := LibPublicKey_serialize (pub_key self).

Definition set_compressed (self : Secp256k1PublicKey) (value : bool) : Secp256k1PublicKey :=
  mkPublicKey (pub_key self) value.

Definition recover_to_pubkey (msg sig : list byte) : outcome string Secp256k1PublicKey :=
  let? msg := ok_or "Invalid message: failed to decode data hash: must be a 32-byte hash"
                (LibMessage_from_slice msg) in
  let? secp256k1_sig := ok_or "Invalid signature: failed to decode recoverable signature"
                          (to_secp256k1_recoverable sig) in
  let? recovered_pubkey := ok_or "Invalid signature: failed to recover public key"
                             (recover_ecdsa msg secp256k1_sig) in
  Ok (mkPublicKey recovered_pubkey true).

Definition PublicKey_verify (self : Secp256k1PublicKey) (data_hash sig : list byte) : outcome string bool :=
  let? msg := ok_or "Invalid message: failed to decode data hash: must be a 32-byte hash"
                (LibMessage_from_slice data_hash) in
  let? secp256k1_sig := ok_or "Invalid signature: failed to decode recoverable signature"
                          (to_secp256k1_recoverable sig) in
  let? recovered_pubkey := ok_or "Invalid signature: failed to recover public key"
                             (recover_ecdsa msg secp256k1_sig) in
  if negb (bool_decide (recovered_pubkey = pub_key self)) then Ok false
  else
    let secp256k1_sig_standard := LibRecoverableSignature_to_standard secp256k1_sig in
    let secp256k1_sig_low_s := LibSignature_normalize_s secp256k1_sig_standard in
    if negb (bool_decide (secp256k1_sig_low_s = secp256k1_sig_standard)) then Err "Invalid signature: high-S"
    else Ok true.

Definition PrivateKey_from_slice (data : list byte) : outcome string Secp256k1PrivateKey :=
  if Nat.ltb (length data) 32 then Err "Invalid private key: shorter than 32 bytes"
  else if Nat.ltb 33 (length data) then Err "Invalid private key: greater than 33 bytes"
  else
    let? compress_public :=
      if Nat.eqb (length data) 33 then
        if negb (bool_decide (data !! 32%nat = Some x01)) then
          Err "Invalid private key: invalid compressed byte marker"
        else Ok true
      else Ok false in
    match LibSecretKey_from_slice (firstn 32 data) with
    | Some privkey_res => Ok (mkPrivateKey privkey_res compress_public)
    | None => Err "Invalid private key: failed to load"
    end.

Definition PrivateKey_from_hex (hex_string : string) : outcome string Secp256k1PrivateKey :=
  let? data := map_err (fun _ => "Failed to decode hex private key") (hex_bytes hex_string) in
  map_err (fun _ => "Invalid private key hex string") (PrivateKey_from_slice data).

Definition PrivateKey_to_bytes (self : Secp256k1PrivateKey) : list byte :=
  LibSecretKey_bytes (priv_key self) ++ (if compress_public self then [x01] else []).

Definition PrivateKey_to_hex (self : Secp256k1PrivateKey) : string :=
  to_hex (LibSecretKey_bytes (priv_key self) ++ (if compress_public self then [x01] else [])).

Definition PrivateKey_sign (self : Secp256k1PrivateKey) (data_hash : list byte) : outcome string (list byte) :=
  let? msg := ok_or "Invalid message: failed to decode data hash: must be a 32-byte hash"
                (LibMessage_from_slice data_hash) in
  let sig := sign_ecdsa_recoverable msg (priv_key self) in
  Ok (from_secp256k1_recoverable sig).

(** [secp256k1_recover] indexes the 65th byte and slices the first 64. *)
Definition secp256k1_recover {E : Type} (message_arr serialized_signature_arr : list byte)
  : outcome E (option (list byte)) :=
  match LibMessage_from_slice message_arr with
  | None => Ok None
  | Some message =>
      let? rec_byte := expect_some (serialized_signature_arr !! 64%nat) in
      match LibRecoveryId_from_i32 (byte_to_Z rec_byte) with
      | None => Ok None
      | Some rec_id =>
          match LibRecoverableSignature_from_compact (firstn 64 serialized_signature_arr) rec_id with
          | None => Ok None
          | Some recovered_sig => Ok (LibPublicKey_serialize <$> recover_ecdsa message recovered_sig)
          end
      end
  end.

Definition secp256k1_verify {E : Type} (message_arr serialized_signature_arr pubkey_arr : list byte)
  : outcome E bool :=
  match LibMessage_from_slice message_arr with
  | None => Ok false
  | Some message =>
      if Nat.ltb (length serialized_signature_arr) 64 then Panic else
      match LibSignature_from_compact (firstn 64 serialized_signature_arr) with
      | None => Ok false
      | Some expanded_sig =>
          match LibPublicKey_from_slice pubkey_arr with
          | None => Ok false
          | Some pubkey => Ok (verify_ecdsa message expanded_sig pubkey)
          end
      end
  end.

(** [StacksPublicKeyBuffer([u8; 33])] *)
Definition StacksPublicKeyBuffer_from_public_key (pubkey : Secp256k1PublicKey) : list byte := to_bytes_compressed pubkey.

Definition StacksPublicKeyBuffer_to_public_key (self : list byte) : outcome string Secp256k1PublicKey :=
  map_err (fun _ => "Failed to decode Stacks public key") (PublicKey_from_slice self).
End keys.

(** * Scripts *)
Definition OP_FALSE : Z := 0x00.
Definition OP_PUSHDATA1 : Z := 0x4c.
Definition OP_PUSHDATA2 : Z := 0x4d.
Definition OP_PUSHDATA4 : Z := 0x4e.
Definition OP_TRUE : Z := 0x51.
Definition OP_CHECKMULTISIG : Z := 0xae.

(** [while abs > 0xFF { .. }] and what follows it; eight rounds bring any [u64]
    to its last byte. *)
Fixpoint scriptint_bytes (fuel : nat) (neg : bool) (abs : Z) : list byte :=
  match fuel with
  | S fuel =>
      if 0xFF <? abs then byte_of_Z (Z.land abs 0xFF) :: scriptint_bytes fuel neg (Z.shiftr abs 8)
      else if negb (Z.land abs 0x80 =? 0) then [byte_of_Z abs; if neg then x80 else x00]
      else [byte_of_Z (Z.lor abs (if neg then 0x80 else 0))]
  | O => []
  end.

Definition build_scriptint (n : Z) : list byte :=
  if n =? 0 then [] else
  let neg := n <? 0 in
  let abs := if neg then - n else n in
  scriptint_bytes 8 neg abs.

Definition push_slice {E : Type} (self data : list byte) : outcome E (list byte) :=
  let n := Z.of_nat (length data) in
  let? op :=
    if n <? OP_PUSHDATA1 then Ok [byte_of_Z n]
    else if n <? 0x100 then Ok [byte_of_Z OP_PUSHDATA1; byte_of_Z n]
    else if n <? 0x10000 then Ok [byte_of_Z OP_PUSHDATA2; byte_of_Z (n mod 0x100); byte_of_Z (n / 0x100)]
    else if n <? 0x100000000 then
      Ok [byte_of_Z OP_PUSHDATA4; byte_of_Z (n mod 0x100); byte_of_Z (n / 0x100 mod 0x100);
          byte_of_Z (n / 0x10000 mod 0x100); byte_of_Z (n / 0x1000000)]
    else Panic in
  Ok (self ++ op ++ data).

Definition push_scriptint {E : Type} (self : list byte) (data : Z) : outcome E (list byte) :=
  push_slice self (build_scriptint data).

Definition push_int {E : Type} (self : list byte) (data : Z) : outcome E (list byte) :=
  if (data =? -1) || ((1 <=? data) && (data <=? 16)) then Ok (self ++ [byte_of_Z (data - 1 + OP_TRUE)])
  else if data =? 0 then Ok (self ++ [byte_of_Z OP_FALSE])
  else push_scriptint self data.

Definition push_opcode (self : list byte) (data : Z) : list byte := self ++ [byte_of_Z data].

(** * Addresses of keys *)
Definition C32_ADDRESS_VERSION_MAINNET_SINGLESIG : byte := x16.
Definition C32_ADDRESS_VERSION_MAINNET_MULTISIG : byte := x14.
Definition C32_ADDRESS_VERSION_TESTNET_SINGLESIG : byte := x1a.
Definition C32_ADDRESS_VERSION_TESTNET_MULTISIG : byte := x15.

Inductive AddressHashMode := SerializeP2PKH | SerializeP2SH | SerializeP2WPKH | SerializeP2WSH.

Definition AddressHashMode_to_u8 (m : AddressHashMode) : Z :=
  match m with SerializeP2PKH => 0 | SerializeP2SH => 1 | SerializeP2WPKH => 2 | SerializeP2WSH => 3 end.

Definition AddressHashMode_try_from (value : Z) : option AddressHashMode :=
  if value =? 0 then Some SerializeP2PKH else if value =? 1 then Some SerializeP2SH
  else if value =? 2 then Some SerializeP2WPKH else if value =? 3 then Some SerializeP2WSH else None.

Definition to_version_mainnet (self : AddressHashMode) : byte :=
  match self with
  | SerializeP2PKH => C32_ADDRESS_VERSION_MAINNET_SINGLESIG
  | _ => C32_ADDRESS_VERSION_MAINNET_MULTISIG
  end.

Definition to_version_testnet (self : AddressHashMode) : byte :=
  match self with
  | SerializeP2PKH => C32_ADDRESS_VERSION_TESTNET_SINGLESIG
  | _ => C32_ADDRESS_VERSION_TESTNET_MULTISIG
  end.

Definition AddressHashMode_from_version (version : byte) : AddressHashMode :=
  if bool_decide (version = C32_ADDRESS_VERSION_TESTNET_SINGLESIG)
     || bool_decide (version = C32_ADDRESS_VERSION_MAINNET_SINGLESIG)
  then SerializeP2PKH else SerializeP2SH.

Definition StacksAddress_is_mainnet (self : StacksAddress) : bool :=
  bool_decide (sa_version self = C32_ADDRESS_VERSION_MAINNET_MULTISIG)
  || bool_decide (sa_version self = C32_ADDRESS_VERSION_MAINNET_SINGLESIG).

Definition StacksAddress_burn_address (mainnet : bool) : StacksAddress :=
  mkAddress (if mainnet then C32_ADDRESS_VERSION_MAINNET_SINGLESIG else C32_ADDRESS_VERSION_TESTNET_SINGLESIG)
    (repeat x00 20).

Definition StacksAddress_is_burn (self : StacksAddress) : bool := bool_decide (sa_bytes self = repeat x00 20).

Section addresses.
Context {K : LibSecp256k1} {D : Digests} {E : Type}.

Definition to_bits_p2pkh (pubk : Secp256k1PublicKey) : list byte := Hash160_from_data (PublicKey_to_bytes pubk).

(** The redeem script: the number of signatures, the keys, their number and
    [OP_CHECKMULTISIG]. *)
Definition multisig_script (num_sigs : Z) (pubkeys : list Secp256k1PublicKey) : outcome E (list byte) :=
  let? bldr := push_int [] num_sigs in
  let? bldr := try_fold (fun bldr pubk => push_slice bldr (PublicKey_to_bytes pubk)) bldr pubkeys in
  let? bldr := push_int bldr (Z.of_nat (length pubkeys)) in
  Ok (push_opcode bldr OP_CHECKMULTISIG).

Definition to_bits_p2sh (num_sigs : Z) (pubkeys : list Secp256k1PublicKey) : outcome E (list byte) :=
  let? script := multisig_script num_sigs pubkeys in
  Ok (Hash160_from_data script).

(** [Builder::new().push_int(0).push_slice(data)] *)
Definition segwit_program (data : list byte) : outcome E (list byte) :=
  let? bldr := push_int [] 0 in push_slice bldr data.

Definition to_bits_p2sh_p2wpkh (pubk : Secp256k1PublicKey) : outcome E (list byte) :=
  let key_hash := Hash160_from_data (PublicKey_to_bytes pubk) in
  let? script := segwit_program key_hash in
  Ok (Hash160_from_data script).

Definition to_bits_p2sh_p2wsh (num_sigs : Z) (pubkeys : list Secp256k1PublicKey) : outcome E (list byte) :=
  let? script := multisig_script num_sigs pubkeys in
  let d := Sha256_digest script in
  let? ws := segwit_program d in
  Ok (Hash160_from_data ws).

Definition public_keys_to_address_hash (hash_flag : AddressHashMode) (num_sigs : Z)
    (pubkeys : list Secp256k1PublicKey) : outcome E (list byte) :=
  match hash_flag with
  | SerializeP2PKH => let? pubk := expect_some (pubkeys !! 0%nat) in Ok (to_bits_p2pkh pubk)
  | SerializeP2SH => to_bits_p2sh num_sigs pubkeys
  | SerializeP2WPKH => let? pubk := expect_some (pubkeys !! 0%nat) in to_bits_p2sh_p2wpkh pubk
  | SerializeP2WSH => to_bits_p2sh_p2wsh num_sigs pubkeys
  end.

Definition StacksAddress_from_public_keys (version : byte) (hash_mode : AddressHashMode) (num_sigs : Z)
    (pubkeys : list Secp256k1PublicKey) : outcome E (option StacksAddress) :=
  let n := Z.of_nat (length pubkeys) in
  if n <? num_sigs then Ok None
  else if match hash_mode with
          | SerializeP2PKH | SerializeP2WPKH => negb (num_sigs =? 1) || negb (n =? 1)
          | _ => false
          end then Ok None
  else if match hash_mode with
          | SerializeP2WPKH | SerializeP2WSH => negb (forallb compressed pubkeys)
          | _ => false
          end then Ok None
  else
    let? hash_bits := public_keys_to_address_hash hash_mode num_sigs pubkeys in
    Ok (Some (mkAddress version hash_bits)).
End addresses.

(** * Signatures are recovered *)
Section signing.
Context {K : LibSecp256k1} {L : Secp256k1Laws K}.

Lemma from_recoverable_length (s : LibRecoverableSignature) : length (from_secp256k1_recoverable s) = 65%nat.
Proof using L.
  pose proof (compact_length s) as Hl. unfold from_secp256k1_recoverable.
  destruct (LibRecoverableSignature_serialize_compact s) as [r b]. simpl in *. rewrite length_firstn. lia.
Qed.

Lemma to_from_recoverable (s : LibRecoverableSignature) :
  to_secp256k1_recoverable (from_secp256k1_recoverable s) = Some s.
Proof using L.
  pose proof (compact_length s) as Hl. pose proof (compact_roundtrip s) as Hr.
  unfold from_secp256k1_recoverable, to_secp256k1_recoverable.
  destruct (LibRecoverableSignature_serialize_compact s) as [r b]. simpl in *.
  pose proof (recovery_id_range r). rewrite byte_to_of_Z_small by lia. rewrite recovery_id_i32.
  by rewrite firstn_firstn, Nat.min_id, firstn_all2 by lia.
Qed.

(** A 32-byte hash is signed with any private key; the signature has 65 bytes,
    is not the empty one, and the public key is recovered from it. *)
Lemma sign_recover (privk : Secp256k1PrivateKey) (h : list byte) :
  length h = 32%nat ->
  exists sig, PrivateKey_sign privk h = Ok sig /\ length sig = 65%nat /\ sig <> MessageSignature_empty /\
    recover_to_pubkey h sig = Ok (mkPublicKey (LibPublicKey_from_secret_key (priv_key privk)) true).
Proof using L.
  intros Hh. destruct (message_from_slice h Hh) as [m Hm]. unfold PrivateKey_sign, recover_to_pubkey. rewrite Hm.
  simpl. set (s := sign_ecdsa_recoverable m (priv_key privk)). eexists. split; [done|].
  split; [apply from_recoverable_length|]. split.
  - pose proof (sign_nonzero m (priv_key privk)) as Hz. pose proof (compact_length s) as Hl. fold s in Hz.
    unfold from_secp256k1_recoverable. destruct (LibRecoverableSignature_serialize_compact s) as [r b]. simpl in *.
    rewrite firstn_all2 by lia. unfold MessageSignature_empty. intros [= _ Hb]. by apply Hz.
  - rewrite to_from_recoverable. simpl. subst s. by rewrite recover_sign.
Qed.

(** A key recovered from one signature for two hashes has them congruent. *)
Lemma recover_same (h1 h2 sig : list byte) (k : Secp256k1PublicKey) :
  recover_to_pubkey h1 sig = Ok k -> recover_to_pubkey h2 sig = Ok k -> message_scalar h1 = message_scalar h2.
Proof using L.
  unfold recover_to_pubkey. intros H1 H2.
  destruct (LibMessage_from_slice h1) as [m1|] eqn:E1; [|done].
  destruct (LibMessage_from_slice h2) as [m2|] eqn:E2; [|done]. simpl in *.
  destruct (to_secp256k1_recoverable sig) as [s|]; [|done]. simpl in *.
  destruct (recover_ecdsa m1 s) as [k1|] eqn:R1; [|done]. destruct (recover_ecdsa m2 s) as [k2|] eqn:R2; [|done].
  simpl in *. simplify_eq. by eapply recover_binds.
Qed.

Lemma PublicKey_to_bytes_length (k : Secp256k1PublicKey) :
  length (PublicKey_to_bytes k) = if compressed k then 33%nat else 65%nat.
Proof using L. unfold PublicKey_to_bytes. case_match; [apply serialize_length|apply serialize_uncompressed_length]. Qed.

(** A public key is read back from its bytes, with its compression. *)
Lemma PublicKey_roundtrip (k : Secp256k1PublicKey) : PublicKey_from_slice (PublicKey_to_bytes k) = Ok k.
Proof using L.
  pose proof (PublicKey_to_bytes_length k) as Hl. unfold PublicKey_from_slice.
  assert (LibPublicKey_from_slice (PublicKey_to_bytes k) = Some (pub_key k)) as ->.
  { unfold PublicKey_to_bytes. case_match; [apply from_slice_serialize|apply from_slice_serialize_uncompressed]. }
  rewrite Hl. by destruct k as [k []].
Qed.

Lemma PublicKey_to_bytes_inj (k1 k2 : Secp256k1PublicKey) : PublicKey_to_bytes k1 = PublicKey_to_bytes k2 -> k1 = k2.
Proof using L.
  intros H. pose proof (PublicKey_roundtrip k1) as H1. rewrite H, PublicKey_roundtrip in H1. by simplify_eq.
Qed.

(** ... and so is a private key, in bytes and in hexadecimal. *)
Lemma PrivateKey_roundtrip (k : Secp256k1PrivateKey) :
  PrivateKey_from_slice (PrivateKey_to_bytes k) = Ok k /\ PrivateKey_from_hex (PrivateKey_to_hex k) = Ok k.
Proof using L.
  assert (PrivateKey_from_slice (PrivateKey_to_bytes k) = Ok k) as H.
  { pose proof (secret_key_length (priv_key k)) as Hl. unfold PrivateKey_from_slice, PrivateKey_to_bytes.
    rewrite length_app, Hl. rewrite firstn_app, firstn_all2 by lia. rewrite Hl, Nat.sub_diag. simpl firstn.
    rewrite app_nil_r, secret_key_from_slice. destruct k as [k []]; simpl; [|done].
    simpl in Hl. rewrite lookup_app_r by lia. by rewrite Hl. }
  split; [done|]. unfold PrivateKey_from_hex, PrivateKey_to_hex. rewrite hex_bytes_to_hex. simpl.
  fold (PrivateKey_to_bytes k). by rewrite H.
Qed.
End signing.

(** * Scripts determine what they are built from *)
Definition le_value (l : list byte) : Z := fold_right (fun b n => byte_to_Z b + 256 * n) 0 l.

Lemma scriptint_value (fuel : nat) (n : Z) :
  0 <= n < 256 ^ Z.of_nat fuel -> (0 < fuel)%nat ->
  le_value (scriptint_bytes fuel false n) = n /\ (1 <= length (scriptint_bytes fuel false n) <= S fuel)%nat.
Proof.
  revert n. induction fuel as [|fuel IH]; intros n Hn Hf; [lia|]. cbn [scriptint_bytes].
  rewrite Nat2Z.inj_succ, Z.pow_succ_r in Hn by lia. destruct (Z.ltb_spec 0xFF n) as [Hbig|Hsmall].
  - destruct fuel as [|fuel]; [simpl in Hn; lia|].
    change 0xFF with (Z.ones 8). rewrite Z.land_ones, Z.shiftr_div_pow2 by lia. change (2 ^ 8) with 256.
    assert (0 <= n / 256 < 256 ^ Z.of_nat (S fuel)) as Hd by (split; [apply Z.div_pos|apply Z.div_lt_upper_bound]; lia).
    destruct (IH (n / 256) Hd ltac:(lia)) as [Hv Hl]. cbn [le_value fold_right length]. fold (le_value).
    pose proof (Z.mod_pos_bound n 256). rewrite byte_to_of_Z_small by lia.
    change (fold_right _ 0 ?l) with (le_value l). rewrite Hv. pose proof (Z.div_mod n 256). lia.
  - case_match.
    + cbn [le_value fold_right length]. rewrite byte_to_of_Z_small by lia. cbn. lia.
    + rewrite Z.lor_0_r. cbn [le_value fold_right length]. rewrite byte_to_of_Z_small by lia. lia.
Qed.

(** The bytes [push_int] appends. *)
Definition int_op (n : Z) : list byte :=
  if n =? 0 then [x00]
  else if n <=? 16 then [byte_of_Z (n - 1 + OP_TRUE)]
  else byte_of_Z (Z.of_nat (length (build_scriptint n))) :: build_scriptint n.

Lemma push_slice_short {E : Type} (self data : list byte) :
  (length data < 76)%nat -> push_slice (E:=E) self data = Ok (self ++ byte_of_Z (Z.of_nat (length data)) :: data).
Proof. intros H. unfold push_slice, OP_PUSHDATA1. rewrite (proj2 (Z.ltb_lt _ _)) by lia. done. Qed.

Lemma build_scriptint_value (n : Z) :
  0 < n < 2 ^ 64 -> le_value (build_scriptint n) = n /\ (1 <= length (build_scriptint n) <= 9)%nat.
Proof.
  intros Hn. unfold build_scriptint. rewrite (proj2 (Z.eqb_neq _ _)), (proj2 (Z.ltb_ge _ _)) by lia.
  apply scriptint_value; [|lia]. change (256 ^ Z.of_nat 8) with (2 ^ 64). lia.
Qed.

Lemma push_int_op {E : Type} (self : list byte) (n : Z) :
  0 <= n < 2 ^ 64 -> push_int (E:=E) self n = Ok (self ++ int_op n).
Proof.
  intros Hn. unfold push_int, int_op. destruct (Z.eqb_spec n 0) as [->|H0]; [done|].
  destruct (Z.leb_spec n 16).
  - assert ((n =? -1) || ((1 <=? n) && true) = true) as -> by lia. done.
  - assert ((n =? -1) || ((1 <=? n) && false) = false) as -> by lia.
    unfold push_scriptint. pose proof (build_scriptint_value n). rewrite push_slice_short by lia. done.
Qed.

(** The first byte of an integer's push is not the length of a key. *)
Lemma int_op_head (n : Z) :
  0 <= n < 2 ^ 64 -> exists b l, int_op n = b :: l /\ (byte_to_Z b <= 9 \/ 81 <= byte_to_Z b <= 96).
Proof.
  intros Hn. unfold int_op. destruct (Z.eqb_spec n 0); [eexists _, _; split; [done|]; left; vm_compute; congruence|].
  destruct (Z.leb_spec n 16); eexists _, _; (split; [done|]).
  - right. unfold OP_TRUE. rewrite byte_to_of_Z_small; lia.
  - left. pose proof (build_scriptint_value n). rewrite byte_to_of_Z_small; lia.
Qed.

Lemma int_op_app (a b : Z) (x y : list byte) :
  0 <= a < 2 ^ 64 -> 0 <= b < 2 ^ 64 -> int_op a ++ x = int_op b ++ y -> a = b /\ x = y.
Proof.
  intros Ha Hb. unfold int_op.
  pose proof (fun H => build_scriptint_value a H) as Va. pose proof (fun H => build_scriptint_value b H) as Vb.
  assert (forall n m, 0 <= n < 256 -> 0 <= m < 256 -> byte_of_Z n = byte_of_Z m -> n = m) as Hinj.
  { intros n m Hn Hm H%(f_equal byte_to_Z). by rewrite !byte_to_of_Z_small in H. }
  change x00 with (byte_of_Z 0). unfold OP_TRUE.
  repeat match goal with |- context [?n =? 0] => destruct (Z.eqb_spec n 0) end;
  repeat match goal with |- context [?n <=? 16] => destruct (Z.leb_spec n 16) end;
    cbn [app]; intros He; pose proof (f_equal (List.hd x00) He) as H1; pose proof (f_equal (@List.tl byte) He) as H2;
    cbn [List.hd List.tl] in H1, H2; clear He; try (apply Hinj in H1; [|lia|lia]); try (split; [lia|done]); try lia.
  apply app_inj_1 in H2 as [Hs ->]; [|lia]. split; [|done].
  destruct (Va ltac:(lia)) as [<- _]. destruct (Vb ltac:(lia)) as [<- _]. by rewrite Hs.
Qed.

Section scripts.
Context {K : LibSecp256k1} {L : Secp256k1Laws K}.

Definition key_op (k : Secp256k1PublicKey) : list byte :=
  byte_of_Z (Z.of_nat (length (PublicKey_to_bytes k))) :: PublicKey_to_bytes k.

Definition script_bytes (num_sigs : Z) (keys : list Secp256k1PublicKey) : list byte :=
  int_op num_sigs ++ (concat (map key_op keys) ++ (int_op (Z.of_nat (length keys)) ++ [byte_of_Z OP_CHECKMULTISIG])).

Lemma multisig_script_bytes {E : Type} (num_sigs : Z) (keys : list Secp256k1PublicKey) :
  0 <= num_sigs < 2 ^ 64 -> Z.of_nat (length keys) < 2 ^ 64 ->
  multisig_script (E:=E) num_sigs keys = Ok (script_bytes num_sigs keys).
Proof using L.
  intros Hn Hk. unfold multisig_script. rewrite push_int_op by done. cbn [out_bind app].
  assert (forall acc, try_fold (fun bldr pubk => push_slice (E:=E) bldr (PublicKey_to_bytes pubk)) acc keys
                      = Ok (acc ++ concat (map key_op keys))) as ->.
  { clear Hk. induction keys as [|k keys IH]; intros acc; [by rewrite app_nil_r|]. cbn [try_fold map concat].
    pose proof (PublicKey_to_bytes_length k). rewrite push_slice_short by (case_match; lia). cbn [out_bind].
    rewrite IH, <-app_assoc. done. }
  cbn [out_bind]. rewrite push_int_op by lia. cbn [out_bind]. unfold push_opcode, script_bytes.
  by rewrite <-!app_assoc.
Qed.

Lemma key_op_app (k1 k2 : Secp256k1PublicKey) (x y : list byte) :
  key_op k1 ++ x = key_op k2 ++ y -> k1 = k2 /\ x = y.
Proof using L.
  unfold key_op. cbn [app]. intros He. pose proof (f_equal (List.hd x00) He) as H1.
  pose proof (f_equal (@List.tl byte) He) as H2. cbn [List.hd List.tl] in H1, H2.
  pose proof (PublicKey_to_bytes_length k1). pose proof (PublicKey_to_bytes_length k2).
  apply (f_equal byte_to_Z) in H1. rewrite !byte_to_of_Z_small in H1 by (repeat case_match; lia).
  apply app_inj_1 in H2 as [Hb ->]; [|lia]. by apply PublicKey_to_bytes_inj in Hb.
Qed.

Lemma key_op_int_op (k : Secp256k1PublicKey) (n : Z) (x y : list byte) :
  0 <= n < 2 ^ 64 -> key_op k ++ x <> int_op n ++ y.
Proof using L.
  intros Hn He. destruct (int_op_head n Hn) as (b & l & Hop & Hb). rewrite Hop in He. unfold key_op in He.
  cbn [app] in He. apply (f_equal (List.hd x00)) in He. cbn [List.hd] in He. subst b.
  pose proof (PublicKey_to_bytes_length k) as Hl. rewrite byte_to_of_Z_small in Hb by (case_match; lia).
  case_match; lia.
Qed.

Lemma key_ops_app (ks1 ks2 : list Secp256k1PublicKey) (n1 n2 : Z) (x y : list byte) :
  0 <= n1 < 2 ^ 64 -> 0 <= n2 < 2 ^ 64 ->
  concat (map key_op ks1) ++ int_op n1 ++ x = concat (map key_op ks2) ++ int_op n2 ++ y -> ks1 = ks2.
Proof using L.
  intros Hn1 Hn2. revert ks2. induction ks1 as [|k1 ks1 IH]; intros [|k2 ks2] He; [done| | |];
    cbn [map concat] in He; rewrite <-?app_assoc in He; cbn [app] in He.
  - symmetry in He. by apply key_op_int_op in He.
  - by apply key_op_int_op in He.
  - apply key_op_app in He as [-> He]. f_equal. by apply IH.
Qed.

(** The redeem script determines the number of signatures and the keys. *)
Lemma script_bytes_inj (n1 n2 : Z) (ks1 ks2 : list Secp256k1PublicKey) :
  0 <= n1 < 2 ^ 64 -> 0 <= n2 < 2 ^ 64 ->
  Z.of_nat (length ks1) < 2 ^ 64 -> Z.of_nat (length ks2) < 2 ^ 64 ->
  script_bytes n1 ks1 = script_bytes n2 ks2 -> n1 = n2 /\ ks1 = ks2.
Proof using L.
  intros Hn1 Hn2 Hk1 Hk2 He. unfold script_bytes in He. apply int_op_app in He as [-> He]; [|done|done].
  split; [done|]. eapply key_ops_app; [| |exact He]; lia.
Qed.

(** * What an address hashes *)
Context {D : Digests}.

Definition segwit_bytes (data : list byte) : list byte := x00 :: byte_of_Z (Z.of_nat (length data)) :: data.

Lemma segwit_program_bytes {E : Type} (data : list byte) :
  (length data < 76)%nat -> segwit_program (E:=E) data = Ok (segwit_bytes data).
Proof. intros H. unfold segwit_program. cbn [push_int]. simpl. by rewrite push_slice_short. Qed.

(** The inputs of [Hash160] and of SHA-256 on the way from keys to an address. *)
Definition hash160_inputs (mode : AddressHashMode) (num_sigs : Z) (keys : list Secp256k1PublicKey) : list (list byte) :=
  match mode with
  | SerializeP2PKH => map PublicKey_to_bytes keys
  | SerializeP2SH => [script_bytes num_sigs keys]
  | SerializeP2WPKH =>
      map PublicKey_to_bytes keys ++ map (fun k => segwit_bytes (Hash160_from_data (PublicKey_to_bytes k))) keys
  | SerializeP2WSH => [segwit_bytes (Sha256_digest (script_bytes num_sigs keys))]
  end.
Definition sha256_inputs (mode : AddressHashMode) (num_sigs : Z) (keys : list Secp256k1PublicKey) : list (list byte) :=
  match mode with SerializeP2WSH => [script_bytes num_sigs keys] | _ => [] end.
End scripts.

(** Two different inputs, one of each list, with the same digest. *)
Definition digests_collide (f : list byte -> list byte) (l1 l2 : list (list byte)) : Prop :=
  exists a b, a ∈ l1 /\ b ∈ l2 /\ a <> b /\ f a = f b.

Lemma same_digest (f : list byte -> list byte) (a b : list byte) (l1 l2 : list (list byte)) :
  f a = f b -> a ∈ l1 -> b ∈ l2 -> a = b \/ digests_collide f l1 l2.
Proof. intros Hf Ha Hb. destruct (decide (a = b)); [by left|right]. by exists a, b. Qed.

Section address_keys.
Context {K : LibSecp256k1} {L : Secp256k1Laws K} {D : Digests} {DL : DigestLaws D} {E : Type}.

(** [from_public_keys] does not panic, and gives an address exactly for enough
    keys, one key in the single-signature modes, and compressed keys in the
    segregated-witness modes. *)
Definition keys_supported (mode : AddressHashMode) (num_sigs : Z) (keys : list Secp256k1PublicKey) : bool :=
  (num_sigs <=? Z.of_nat (length keys)) &&
  match mode with
  | SerializeP2PKH => (num_sigs =? 1) && (Z.of_nat (length keys) =? 1)
  | SerializeP2SH => true
  | SerializeP2WPKH => (num_sigs =? 1) && (Z.of_nat (length keys) =? 1) && forallb compressed keys
  | SerializeP2WSH => forallb compressed keys
  end.

(** The last input of [Hash160]. *)
Definition address_input (mode : AddressHashMode) (num_sigs : Z) (keys : list Secp256k1PublicKey) : list byte :=
  List.last (hash160_inputs mode num_sigs keys) [].

Lemma from_public_keys_spec (version : byte) (mode : AddressHashMode) (num_sigs : Z) (keys : list Secp256k1PublicKey) :
  0 <= num_sigs < 2 ^ 64 -> Z.of_nat (length keys) < 2 ^ 64 ->
  StacksAddress_from_public_keys (E:=E) version mode num_sigs keys =
  Ok (if keys_supported mode num_sigs keys
      then Some (mkAddress version (Hash160_from_data (address_input mode num_sigs keys))) else None).
Proof using L DL.
  intros Hn Hk. unfold StacksAddress_from_public_keys, keys_supported.
  assert ((num_sigs <=? Z.of_nat (length keys)) = negb (Z.of_nat (length keys) <? num_sigs)) as -> by lia.
  destruct (Z.of_nat (length keys) <? num_sigs); [done|]. cbn [negb andb].
  destruct mode.
  - rewrite <-negb_andb. destruct ((num_sigs =? 1) && (Z.of_nat (length keys) =? 1)) eqn:H1; [|done].
    destruct keys as [|k [|]]; cbn [length] in H1; bool_to_prop; try lia. done.
  - cbn [public_keys_to_address_hash]. unfold to_bits_p2sh. by rewrite multisig_script_bytes.
  - rewrite <-negb_andb. destruct ((num_sigs =? 1) && (Z.of_nat (length keys) =? 1)) eqn:H1; [|done]. cbn [negb andb].
    destruct (forallb compressed keys); [|done].
    destruct keys as [|k [|]]; cbn [length] in H1; bool_to_prop; try lia. cbn [public_keys_to_address_hash lookup list_lookup].
    cbn [expect_some out_bind]. unfold to_bits_p2sh_p2wpkh. rewrite segwit_program_bytes; [done|].
    unfold Hash160_from_data. rewrite Ripemd160_length. lia.
  - destruct (forallb compressed keys); [|done]. cbn [negb public_keys_to_address_hash].
    unfold to_bits_p2sh_p2wsh. rewrite multisig_script_bytes by done. cbn [out_bind].
    rewrite segwit_program_bytes; [done|]. rewrite Sha256_length. lia.
Qed.

(** An address determines the number of signatures and the keys it was made
    from, unless two of the inputs hashed on the way collide. *)
Lemma address_keys (mode : AddressHashMode) (n1 n2 : Z) (ks1 ks2 : list Secp256k1PublicKey) :
  0 <= n1 < 2 ^ 64 -> 0 <= n2 < 2 ^ 64 -> Z.of_nat (length ks1) < 2 ^ 64 -> Z.of_nat (length ks2) < 2 ^ 64 ->
  keys_supported mode n1 ks1 = true -> keys_supported mode n2 ks2 = true ->
  Hash160_from_data (address_input mode n1 ks1) = Hash160_from_data (address_input mode n2 ks2) ->
  (n1 = n2 /\ ks1 = ks2)
  \/ digests_collide Hash160_from_data (hash160_inputs mode n1 ks1) (hash160_inputs mode n2 ks2)
  \/ digests_collide Sha256_digest (sha256_inputs mode n1 ks1) (sha256_inputs mode n2 ks2).
Proof using L DL.
  intros Hn1 Hn2 Hk1 Hk2 S1 S2 H. unfold keys_supported in S1, S2.
  assert (forall k1 k2, PublicKey_to_bytes k1 = PublicKey_to_bytes k2 -> n1 = 1 -> n2 = 1 ->
            n1 = n2 /\ [k1] = [k2]) as Hone by (intros k1 k2 ->%PublicKey_to_bytes_inj -> ->; done).
  destruct mode; unfold address_input in H.
  - destruct ks1 as [|k1 [|]], ks2 as [|k2 [|]]; cbn [length] in S1, S2; bool_to_prop; try lia.
    destruct (same_digest _ _ _ (hash160_inputs SerializeP2PKH n1 [k1]) (hash160_inputs SerializeP2PKH n2 [k2]) H)
      as [He|Hc]; [apply list_elem_of_here|apply list_elem_of_here| |by right; left].
    left. apply Hone; [done|lia|lia].
  - destruct (same_digest _ _ _ (hash160_inputs SerializeP2SH n1 ks1) (hash160_inputs SerializeP2SH n2 ks2) H)
      as [He|Hc]; [apply list_elem_of_here|apply list_elem_of_here| |by right; left].
    left. by apply script_bytes_inj.
  - destruct ks1 as [|k1 [|]], ks2 as [|k2 [|]]; cbn [length] in S1, S2; bool_to_prop; try lia.
    destruct (same_digest _ _ _ (hash160_inputs SerializeP2WPKH n1 [k1]) (hash160_inputs SerializeP2WPKH n2 [k2]) H)
      as [He|Hc]; [apply list_elem_of_further, list_elem_of_here|apply list_elem_of_further, list_elem_of_here
                  | |by right; left].
    apply (f_equal (skipn 2)) in He. cbn [skipn hash160_inputs map app List.last segwit_bytes] in He. rewrite !drop_0 in He.
    destruct (same_digest _ _ _ (hash160_inputs SerializeP2WPKH n1 [k1]) (hash160_inputs SerializeP2WPKH n2 [k2]) He)
      as [He'|Hc]; [apply list_elem_of_here|apply list_elem_of_here| |by right; left].
    left. apply Hone; [done|lia|lia].
  - destruct (same_digest _ _ _ (hash160_inputs SerializeP2WSH n1 ks1) (hash160_inputs SerializeP2WSH n2 ks2) H)
      as [He|Hc]; [apply list_elem_of_here|apply list_elem_of_here| |by right; left].
    apply (f_equal (skipn 2)) in He. cbn [skipn hash160_inputs List.last segwit_bytes] in He. rewrite !drop_0 in He.
    destruct (same_digest _ _ _ (sha256_inputs SerializeP2WSH n1 ks1) (sha256_inputs SerializeP2WSH n2 ks2) He)
      as [He'|Hc]; [apply list_elem_of_here|apply list_elem_of_here| |by right; right].
    left. by apply script_bytes_inj.
Qed.
End address_keys.

(** * An instance of the interface *)
(** A scheme without secrecy: a public key is its secret key, 32 bytes that are
    not all zero, and a signature is the key and the message signed.  It obeys the
    laws, and evaluates. *)
Record toy_key := mkToyKey {
  toy_bytes : list byte;
  toy_ok : bool_decide (length toy_bytes = 32%nat /\ toy_bytes <> repeat x00 32) = true
}.

#[global] Instance toy_key_eq_dec : EqDecision toy_key.
Proof.
  intros [a Ha] [b Hb]. destruct (decide (a = b)) as [->|Hn].
  - left. f_equal. apply Eqdep_dec.UIP_dec, bool_dec.
  - right. by intros [= ?].
Defined.

Definition toy_key_of (l : list byte) : option toy_key :=
  match bool_dec (bool_decide (length l = 32%nat /\ l <> repeat x00 32)) true with
  | left H => Some (mkToyKey l H)
  | right _ => None
  end.

Definition array32 (l : list byte) : option Sha512Trunc256Sum :=
  match bool_dec (bool_decide (length l = 32%nat)) true with
  | left H => Some (mkSha512Trunc256Sum l H)
  | right _ => None
  end.

Lemma toy_key_of_bytes (k : toy_key) : toy_key_of (toy_bytes k) = Some k.
Proof.
  destruct k as [l H]. unfold toy_key_of. simpl. destruct (bool_dec _ true) as [H'|]; [|done].
  f_equal. f_equal. apply Eqdep_dec.UIP_dec, bool_dec.
Qed.

Lemma array32_bytes (m : Sha512Trunc256Sum) : array32 (sum_bytes m) = Some m.
Proof.
  destruct m as [l H]. unfold array32. simpl. destruct (bool_dec _ true) as [H'|]; [|done].
  f_equal. by apply Sha512Trunc256Sum_eq.
Qed.

Lemma array32_Some (l : list byte) (m : Sha512Trunc256Sum) : array32 l = Some m -> sum_bytes m = l.
Proof. unfold array32. destruct (bool_dec _ true); [|done]. by intros [= <-]. Qed.

Definition toy_public_key (l : list byte) : option toy_key :=
  match l with
  | b :: l => if Nat.eqb (length l) 32 then (if bool_decide (b = x02) then toy_key_of l else None)
              else if Nat.eqb (length l) 64 then (if bool_decide (b = x04) then toy_key_of (firstn 32 l) else None)
              else None
  | [] => None
  end.

Definition toy_secp256k1 : LibSecp256k1 := {|
  LibPublicKey := toy_key;
  LibSecretKey := toy_key;
  LibMessage := Sha512Trunc256Sum;
  LibRecoveryId := unit;
  LibRecoverableSignature := toy_key * Sha512Trunc256Sum;
  LibSignature := toy_key * Sha512Trunc256Sum;
  LibPublicKey_from_slice := toy_public_key;
  LibPublicKey_serialize k := x02 :: toy_bytes k;
  LibPublicKey_serialize_uncompressed k := x04 :: toy_bytes k ++ toy_bytes k;
  LibPublicKey_from_secret_key k := k;
  LibSecretKey_from_slice := toy_key_of;
  LibSecretKey_bytes := toy_bytes;
  LibMessage_from_slice := array32;
  LibRecoveryId_from_i32 z := if z =? 0 then Some tt else None;
  LibRecoveryId_to_i32 _ := 0;
  LibRecoverableSignature_from_compact l _ :=
    match toy_key_of (firstn 32 l), array32 (skipn 32 l) with Some k, Some m => Some (k, m) | _, _ => None end;
  LibRecoverableSignature_serialize_compact s := (tt, toy_bytes (fst s) ++ sum_bytes (snd s));
  LibRecoverableSignature_to_standard s := s;
  LibSignature_from_compact l :=
    match toy_key_of (firstn 32 l), array32 (skipn 32 l) with Some k, Some m => Some (k, m) | _, _ => None end;
  LibSignature_normalize_s s := s;
  sign_ecdsa_recoverable m k := (k, m);
  recover_ecdsa m s :=
    if message_scalar (sum_bytes m) =? message_scalar (sum_bytes (snd s)) then Some (fst s) else None;
  verify_ecdsa m s k :=
    (message_scalar (sum_bytes m) =? message_scalar (sum_bytes (snd s))) && bool_decide (fst s = k)
|}.

Lemma toy_bytes_length (k : toy_key) : length (toy_bytes k) = 32%nat.
Proof. destruct k as [l H]. by destruct (bool_decide_eq_true_1 _ H). Qed.
Lemma sum_bytes_length (m : Sha512Trunc256Sum) : length (sum_bytes m) = 32%nat.
Proof. destruct m as [l H]. exact (bool_decide_eq_true_1 _ H). Qed.

Lemma toy_laws : Secp256k1Laws toy_secp256k1.
Proof.
  split; cbn.
  - intros k. by rewrite toy_bytes_length.
  - intros k. by rewrite length_app, toy_bytes_length.
  - intros k. rewrite toy_bytes_length. apply toy_key_of_bytes.
  - intros k. pose proof (toy_bytes_length k) as Hl. rewrite length_app, Hl. simpl.
    rewrite firstn_app, firstn_all2, Hl, Nat.sub_diag by lia. simpl. rewrite app_nil_r. apply toy_key_of_bytes.
  - apply toy_bytes_length.
  - apply toy_key_of_bytes.
  - intros d Hd. unfold array32. destruct (bool_dec _ true) as [|Hn]; [by eexists|].
    destruct Hn. by apply bool_decide_eq_true_2.
  - lia.
  - by intros [].
  - intros [k m]. simpl. by rewrite length_app, toy_bytes_length, sum_bytes_length.
  - intros [k m]. simpl. pose proof (toy_bytes_length k) as Hl.
    rewrite firstn_app, skipn_app, firstn_all2, skipn_all2, Hl, Nat.sub_diag by lia. simpl.
    by rewrite app_nil_r, toy_key_of_bytes, drop_0, array32_bytes.
  - intros m k Heq. apply (f_equal (firstn 32)) in Heq. pose proof (toy_bytes_length k) as Hl.
    rewrite firstn_app, firstn_all2, Hl, Nat.sub_diag in Heq by lia. simpl in Heq. rewrite app_nil_r in Heq.
    destruct k as [l H]. by destruct (bool_decide_eq_true_1 _ H).
  - intros m k. by rewrite Z.eqb_refl.
  - intros d1 d2 m1 m2 [k s] k' H1%array32_Some H2%array32_Some. simpl.
    repeat case_match; try done. bool_to_prop. subst. congruence.
Qed.

(** Two private keys, one for compressed and one for uncompressed public keys. *)
Definition toy_key_a : Secp256k1PrivateKey (K:=toy_secp256k1) :=
  mkPrivateKey (K:=toy_secp256k1) (mkToyKey (repeat x07 32) eq_refl) true.
Definition toy_key_b : Secp256k1PrivateKey (K:=toy_secp256k1) :=
  mkPrivateKey (K:=toy_secp256k1) (mkToyKey (repeat x09 32) eq_refl) false.
