(* ===== verification/Natives.v ===== *)
(** Natives: the native functions of Clarity on values (arithmetic.rs,
    boolean.rs, options.rs, sequences.rs, tuples.rs, crypto.rs and mod.rs of
    clarity/src/vm/functions), that is those the interpreter applies to
    arguments it has evaluated.

    The functions on integers are written once for both types, as the source's
    macro does; the integer square root is that of the crate [integer_sqrt] and
    an interface. *)
From Stdlib Require Import ZArith Lia Strings.Byte Strings.String List Bool.
From stdpp Require Import base decidable list strings option.
From S2P Require Import Prelude Bytes Codec Representations BTree Types Signatures Admission Values.
From S2P Require Import Hashes.
Open Scope Z_scope.

(** * Integers *)
Class IntegerSquareRoot := { integer_sqrt_checked : Z -> option Z }.
(** The crate documents: the largest integer whose square does not exceed the
    argument, or [None] if the argument is negative. *)
Class SquareRootLaws (Q : IntegerSquareRoot) := {
  integer_sqrt_floor : forall n, 0 <= n -> exists r, integer_sqrt_checked n = Some r /\ 0 <= r /\ r * r <= n < (r + 1) * (r + 1);
  integer_sqrt_negative : forall n, n < 0 -> integer_sqrt_checked n = None
}.

(** [U128Ops] and [I128Ops]: the type of the integers and [make_value]. *)
Record IntOps := mkOps { ops_ty : int_ty; make_value : Z -> Value }.
Definition U128Ops : IntOps := mkOps u128_ty VUInt.
Definition I128Ops : IntOps := mkOps i128_ty VInt.

(** [checked_pow] by repeated squaring; the exponent is not zero. *)
Fixpoint checked_pow_loop (t : int_ty) (base acc : Z) (exp : positive) : option Z :=
  match exp with
  | xH => checked_mul t acc base
  | xO e => checked_mul t base base ≫= fun base => checked_pow_loop t base acc e
  | xI e =>
      checked_mul t acc base ≫= fun acc => checked_mul t base base ≫= fun base => checked_pow_loop t base acc e
  end.
Definition checked_pow (t : int_ty) (base : Z) (exp : Z) : option Z :=
  match exp with Zpos e => checked_pow_loop t base 1 e | _ => Some 1 end.

(** [try_fold] with [Option]. *)
Definition option_fold {A B : Type} (f : A -> B -> option A) : A -> list B -> option A :=
  fix go acc l := match l with [] => Some acc | x :: l => f acc x ≫= fun acc => go acc l end.

(** [leading_zeros] of a 128-bit integer that is not negative. *)
Definition leading_zeros_128 (n : Z) : Z := if n =? 0 then 128 else 127 - Z.log2 n.

Module Ops.
Section ops.
Context {Q : IntegerSquareRoot} (o : IntOps).
Notation ty := (ops_ty o).

Definition xor (x y : Z) : outcome VmError Value := Ok (make_value o (Z.lxor x y)).
Definition leq (x y : Z) : outcome VmError Value := Ok (VBool (x <=? y)).
Definition geq (x y : Z) : outcome VmError Value := Ok (VBool (y <=? x)).
Definition greater (x y : Z) : outcome VmError Value := Ok (VBool (y <? x)).
Definition less (x y : Z) : outcome VmError Value := Ok (VBool (x <? y)).

Definition add (args : list Z) : outcome VmError Value :=
  let? result := ok_or (Runtime RuntimeErr.ArithmeticOverflow) (option_fold (checked_add ty) 0 args) in
  Ok (make_value o result).

Definition sub (args : list Z) : outcome VmError Value :=
  match args with
  | [] => Err (Unchecked (CheckErr.IncorrectArgumentCount 1 0))
  | [first] =>
      let? result := ok_or (Runtime RuntimeErr.ArithmeticUnderflow) (checked_neg ty first) in
      Ok (make_value o result)
  | first :: rest =>
      let? result := ok_or (Runtime RuntimeErr.ArithmeticUnderflow) (option_fold (checked_sub ty) first rest) in
      Ok (make_value o result)
  end.

Definition mul (args : list Z) : outcome VmError Value :=
  let? result := ok_or (Runtime RuntimeErr.ArithmeticOverflow) (option_fold (checked_mul ty) 1 args) in
  Ok (make_value o result).

Definition div (args : list Z) : outcome VmError Value :=
  match args with
  | [] => Err (Unchecked (CheckErr.IncorrectArgumentCount 1 0))
  | first :: rest =>
      let? result := ok_or (Runtime RuntimeErr.DivisionByZero) (option_fold (checked_div ty) first rest) in
      Ok (make_value o result)
  end.

Definition modulo (numerator denominator : Z) : outcome VmError Value :=
  let? result := ok_or (Runtime RuntimeErr.DivisionByZero) (checked_rem ty numerator denominator) in
  Ok (make_value o result).

Definition pow (base power : Z) : outcome VmError Value :=
  if (base =? 0) && (power =? 0) then Ok (make_value o 1) else
  if base =? 1 then Ok (make_value o 1) else
  if base =? 0 then Ok (make_value o 0) else
  if power =? 1 then Ok (make_value o base) else
  if (power <? 0) || (u32_max <? power)
  then Err (Runtime (RuntimeErr.Arithmetic "Power argument to (pow ...) must be a u32 integer")) else
  let? result := ok_or (Runtime RuntimeErr.ArithmeticOverflow) (checked_pow ty base power) in
  Ok (make_value o result).

Definition sqrti (n : Z) : outcome VmError Value :=
  match integer_sqrt_checked n with
  | Some result => Ok (make_value o result)
  | None => Err (Runtime (RuntimeErr.Arithmetic "sqrti must be passed a positive integer"))
  end.

Definition log2 (n : Z) : outcome VmError Value :=
  if n <? 1 then Err (Runtime (RuntimeErr.Arithmetic "log2 must be passed a positive integer")) else
  Ok (make_value o (128 - 1 - leading_zeros_128 n)).
End ops.
End Ops.

(** [type_force_binary_arithmetic!] and its variants. *)
Definition type_force_binary_arithmetic (function : IntOps -> Z -> Z -> outcome VmError Value) (x y : Value)
  : outcome VmError Value :=
  match x, y with
  | VInt x, VInt y => function I128Ops x y
  | VUInt x, VUInt y => function U128Ops x y
  | x, _ => Err (Unchecked (CheckErr.UnionTypeValueError [IntType; UIntType] x))
  end.
Definition type_force_unary_arithmetic (function : IntOps -> Z -> outcome VmError Value) (x : Value)
  : outcome VmError Value :=
  match x with
  | VInt x => function I128Ops x
  | VUInt x => function U128Ops x
  | x => Err (Unchecked (CheckErr.UnionTypeValueError [IntType; UIntType] x))
  end.
Definition type_force_variadic_arithmetic (function : IntOps -> list Z -> outcome VmError Value) (args : list Value)
  : outcome VmError Value :=
  match args with
  | [] => Err (Unchecked (CheckErr.IncorrectArgumentCount 1 0))
  | VInt _ :: _ =>
      let? checked_args := try_map (fun x =>
        match x with VInt value => Ok value | _ => Err (Unchecked (CheckErr.TypeValueError IntType x)) end) args in
      function I128Ops checked_args
  | VUInt _ :: _ =>
      let? checked_args := try_map (fun x =>
        match x with VUInt value => Ok value | _ => Err (Unchecked (CheckErr.TypeValueError UIntType x)) end) args in
      function U128Ops checked_args
  | first :: _ => Err (Unchecked (CheckErr.UnionTypeValueError [IntType; UIntType] first))
  end.

Definition native_xor := type_force_binary_arithmetic Ops.xor.
Definition native_geq := type_force_binary_arithmetic (fun _ => Ops.geq).
Definition native_leq := type_force_binary_arithmetic (fun _ => Ops.leq).
Definition native_ge := type_force_binary_arithmetic (fun _ => Ops.greater).
Definition native_le := type_force_binary_arithmetic (fun _ => Ops.less).
Definition native_add := type_force_variadic_arithmetic Ops.add.
Definition native_sub := type_force_variadic_arithmetic Ops.sub.
Definition native_mul := type_force_variadic_arithmetic Ops.mul.
Definition native_div := type_force_variadic_arithmetic Ops.div.
Definition native_pow := type_force_binary_arithmetic Ops.pow.
Definition native_sqrti {Q : IntegerSquareRoot} := type_force_unary_arithmetic Ops.sqrti.
Definition native_log2 := type_force_unary_arithmetic Ops.log2.
Definition native_mod := type_force_binary_arithmetic Ops.modulo.

Definition native_to_uint (input : Value) : outcome VmError Value :=
  match input with
  | VInt int_val =>
      let? uint_val := ok_or (Runtime RuntimeErr.ArithmeticUnderflow) (checked u128_ty int_val) in
      Ok (VUInt uint_val)
  | _ => Err (Unchecked (CheckErr.TypeValueError IntType input))
  end.

Definition native_to_int (input : Value) : outcome VmError Value :=
  match input with
  | VUInt uint_val =>
      let? int_val := ok_or (Runtime RuntimeErr.ArithmeticOverflow) (checked i128_ty uint_val) in
      Ok (VInt int_val)
  | _ => Err (Unchecked (CheckErr.TypeValueError UIntType input))
  end.

(** * Booleans, equality, begin *)
Definition type_force_bool (value : Value) : outcome VmError bool :=
  match value with
  | VBool boolean => Ok boolean
  | _ => Err (Unchecked (CheckErr.TypeValueError BoolType value))
  end.

Definition native_not (input : Value) : outcome VmError Value :=
  let? value := type_force_bool input in
  Ok (VBool (negb value)).

(** The loop of [native_eq]. *)
Fixpoint eq_loop (first : Value) (arg_type : TypeSignature) (args : list Value) : outcome VmError Value :=
  match args with
  | [] => Ok (VBool true)
  | x :: args =>
      let? t := type_of x in
      let? arg_type := unchecked (least_supertype t arg_type) in
      if negb (Value_eqb x first) then Ok (VBool false) else eq_loop first arg_type args
  end.
Definition native_eq (args : list Value) : outcome VmError Value :=
  match args with
  | [] | [_] => Ok (VBool true)
  | first :: _ =>
      let? arg_type := type_of first in
      eq_loop first arg_type args
  end.

Definition native_begin (args : list Value) : outcome VmError Value :=
  match rev args with
  | v :: _ => Ok v
  | [] => Err (Unchecked (CheckErr.RequiresAtLeastArguments 1 0))
  end.

(** * Options and responses *)
Definition inner_unwrap (to_unwrap : Value) : outcome VmError (option Value) :=
  match to_unwrap with
  | VOptional data => Ok data
  | VResponse committed data => Ok (if committed then Some data else None)
  | _ => Err (Unchecked (CheckErr.ExpectedOptionalOrResponseValue to_unwrap))
  end.

Definition inner_unwrap_err (to_unwrap : Value) : outcome VmError (option Value) :=
  match to_unwrap with
  | VResponse committed data => Ok (if negb committed then Some data else None)
  | _ => Err (Unchecked (CheckErr.ExpectedResponseValue to_unwrap))
  end.

Definition native_unwrap (input : Value) : outcome VmError Value :=
  let? opt_value := inner_unwrap input in ok_or (Runtime RuntimeErr.UnwrapFailure) opt_value.
Definition native_unwrap_or_ret (input thrown : Value) : outcome VmError Value :=
  let? opt_value := inner_unwrap input in ok_or (ShortReturn (ExpectedValue thrown)) opt_value.
Definition native_unwrap_err (input : Value) : outcome VmError Value :=
  let? opt_value := inner_unwrap_err input in ok_or (Runtime RuntimeErr.UnwrapFailure) opt_value.
Definition native_unwrap_err_or_ret (input thrown : Value) : outcome VmError Value :=
  let? opt_value := inner_unwrap_err input in ok_or (ShortReturn (ExpectedValue thrown)) opt_value.

Definition native_try_ret (input : Value) : outcome VmError Value :=
  match input with
  | VOptional (Some data) => Ok data
  | VOptional None => Err (ShortReturn (ExpectedValue Value_none))
  | VResponse true data => Ok data
  | VResponse false data =>
      let? short_return_val := expect (Value_error data) in
      Err (ShortReturn (ExpectedValue short_return_val))
  | _ => Err (Unchecked (CheckErr.ExpectedOptionalOrResponseValue input))
  end.

Definition native_some (input : Value) : outcome VmError Value := Value_some input.
Definition native_okay (input : Value) : outcome VmError Value := Value_okay input.
Definition native_error (input : Value) : outcome VmError Value := Value_error input.

Definition is_some (input : Value) : outcome VmError bool :=
  match input with
  | VOptional data => Ok (if data then true else false)
  | _ => Err (Unchecked (CheckErr.ExpectedOptionalValue input))
  end.
Definition is_okay (input : Value) : outcome VmError bool :=
  match input with
  | VResponse committed _ => Ok committed
  | _ => Err (Unchecked (CheckErr.ExpectedResponseValue input))
  end.
Definition native_is_some (input : Value) : outcome VmError Value := let? b := is_some input in Ok (VBool b).
Definition native_is_none (input : Value) : outcome VmError Value := let? b := is_some input in Ok (VBool (negb b)).
Definition native_is_okay (input : Value) : outcome VmError Value := let? b := is_okay input in Ok (VBool b).
Definition native_is_err (input : Value) : outcome VmError Value := let? b := is_okay input in Ok (VBool (negb b)).

Definition native_default_to (default input : Value) : outcome VmError Value :=
  match input with
  | VOptional (Some data) => Ok data
  | VOptional None => Ok default
  | _ => Err (Unchecked (CheckErr.ExpectedOptionalValue input))
  end.

(** * Sequences and tuples *)
(** [Err(ExpectedSequence(type_of(v)))], and the same for tuples. *)
Definition expected_sequence {A : Type} (v : Value) : outcome VmError A :=
  let? t := type_of v in Err (Unchecked (CheckErr.ExpectedSequence t)).
Definition expected_tuple {A : Type} (v : Value) : outcome VmError A :=
  let? t := type_of v in Err (Unchecked (CheckErr.ExpectedTuple t)).

Definition native_len (sequence : Value) : outcome VmError Value :=
  match sequence with
  | VSequence sequence_data => Ok (VUInt (SequenceData_len sequence_data))
  | _ => expected_sequence sequence
  end.

Definition native_index_of (sequence to_find : Value) : outcome VmError Value :=
  match sequence with
  | VSequence sequence_data =>
      let? found := SequenceData_contains sequence_data to_find in
      match found with
      | Some index => Value_some (VUInt index)
      | None => Ok Value_none
      end
  | _ => expected_sequence sequence
  end.

Definition native_element_at (sequence index : Value) : outcome VmError Value :=
  match sequence with
  | VSequence sequence_data =>
      match index with
      | VUInt index_u128 =>
          (* an index that is not a [usize], or is out of range *)
          if (u64_max <? index_u128) || (SequenceData_len sequence_data <=? index_u128) then Ok Value_none else
          match SequenceData_element_at sequence_data (Z.to_nat index_u128) with
          | Ok result => Value_some result
          | Err _ => Ok Value_none
          | Panic => Panic
          end
      | _ => Err (Unchecked (CheckErr.TypeValueError UIntType index))
      end
  | _ => expected_sequence sequence
  end.

Definition tuple_merge (base update : Value) : outcome VmError Value :=
  let? initial_values := match base with VTuple t => Ok t | _ => expected_tuple base end in
  let? new_values := match update with VTuple t => Ok t | _ => expected_tuple update end in
  let? combined := TupleData_shallow_merge initial_values new_values in
  Ok (VTuple combined).

(** * Hashes *)
Definition to_le_bytes (n : nat) (x : Z) : list byte := rev (to_be_bytes n x).

Section hashes.
Context {D : Digests}.

Definition native_hash_func (from_data : list byte -> list byte) (input : Value) : outcome VmError Value :=
  let? bytes :=
    match input with
    | VInt value | VUInt value => Ok (to_le_bytes 16 value)
    | VSequence (SeqBuffer value) => Ok value
    | _ => Err (Unchecked (CheckErr.UnionTypeValueError [IntType; UIntType; max_buffer] input))
    end in
  buff_from (from_data bytes).
Definition native_hash160 := native_hash_func Hash160_from_data.
Definition native_sha256 := native_hash_func Sha256Sum_from_data.
Definition native_sha512 := native_hash_func Sha512Sum_from_data.
Definition native_sha512trunc256 := native_hash_func Sha512Trunc256Sum_from_data.
Definition native_keccak256 := native_hash_func Keccak256Hash_from_data.
End hashes.

(** * Application *)
Inductive NativeHandle :=
| SingleArg (function : Value -> outcome VmError Value)
| DoubleArg (function : Value -> Value -> outcome VmError Value)
| MoreArg (function : list Value -> outcome VmError Value).

(** [NativeHandle::apply] *)
Definition NativeHandle_apply (self : NativeHandle) (args : list Value) : outcome VmError Value :=
  match self with
  | SingleArg function =>
      match args with
      | [a] => function a
      | _ => Err (Unchecked (CheckErr.IncorrectArgumentCount 1 (zlen args)))
      end
  | DoubleArg function =>
      match args with
      | [first; second] => function first second
      | _ => Err (Unchecked (CheckErr.IncorrectArgumentCount 2 (zlen args)))
      end
  | MoreArg function => function args
  end.

(** * Powers *)
(** A type of signed or unsigned integers. *)
Definition int_ok (t : int_ty) : Prop := 1 <= int_max t /\ (int_min t = 0 \/ int_min t = - int_max t - 1).

Lemma ops_int_ok (o : IntOps) : o = U128Ops \/ o = I128Ops -> int_ok (ops_ty o).
Proof. intros [-> | ->]; unfold int_ok; simpl; unfold u128_max, i128_max, i128_min; lia. Qed.

Lemma checked_cases (t : int_ty) (x : Z) :
  (int_min t <= x <= int_max t /\ checked t x = Some x) \/ (~ int_min t <= x <= int_max t /\ checked t x = None).
Proof. unfold checked. destruct (in_ty t x) eqn:E; [left|right]; rewrite <-in_ty_spec, E; auto. Qed.

(** Scaling a number that is out of range leaves it out of range. *)
Lemma out_of_range_scale (t : int_ty) (x k : Z) :
  int_ok t -> ~ int_min t <= x <= int_max t -> (int_min t = 0 -> 0 <= x /\ 0 <= k) -> k = 1 \/ 2 <= Z.abs k ->
  checked t (x * k) = None.
Proof.
  intros [Hmax Hmin] Hx Hpos Hk. apply checked_None. intros Hin. destruct Hk as [-> |Hk]; [rewrite Z.mul_1_r in Hin; done|].
  assert (Z.abs (x * k) = Z.abs x * Z.abs k) as Habs by apply Z.abs_mul.
  assert (int_max t < Z.abs x) by lia. nia.
Qed.

Lemma abs_pow_ge (b : Z) (e : positive) : 2 <= Z.abs b -> 2 <= Z.abs (b ^ Zpos e).
Proof.
  intros Hb. rewrite Z.abs_pow. pose proof (Z.pow_le_mono_l 2 (Z.abs b) (Zpos e)).
  pose proof (Z.pow_le_mono_r 2 1 (Zpos e)). lia.
Qed.

Lemma checked_pow_loop_spec (t : int_ty) (exp : positive) (base acc : Z) :
  int_ok t -> 2 <= Z.abs base -> (acc = 1 \/ 2 <= Z.abs acc) -> (int_min t = 0 -> 0 <= base /\ 0 <= acc) ->
  checked_pow_loop t base acc exp = checked t (acc * base ^ Zpos exp).
Proof.
  intros Ht. revert base acc. induction exp as [e IH|e IH|]; intros base acc Hb Ha Hpos; cbn [checked_pow_loop]; unfold checked_mul.
  - assert (base ^ Zpos e~1 = base * (base * base) ^ Zpos e) as ->.
    { rewrite Pos2Z.inj_xI, Z.pow_add_r, Z.pow_mul_r, Z.pow_2_r, Z.pow_1_r by lia. lia. }
    pose proof (abs_pow_ge (base * base) e ltac:(rewrite Z.abs_mul; nia)) as Hpe.
    assert (0 <= (base * base) ^ Zpos e) by (apply Z.pow_nonneg; nia).
    destruct (checked_cases t (acc * base)) as [[_ ->]|[Hout ->]]; csimpl.
    2:{ symmetry. rewrite Z.mul_assoc. apply out_of_range_scale; auto; nia. }
    destruct (checked_cases t (base * base)) as [[_ ->]|[Hout ->]]; csimpl.
    + rewrite Z.mul_assoc. apply IH; [rewrite Z.abs_mul; nia|right; rewrite Z.abs_mul; nia|nia].
    + symmetry. replace (acc * (base * (base * base) ^ Zpos e)) with
        (base * base * (acc * base * (base * base) ^ (Zpos e - 1))).
      2:{ replace (Zpos e) with (Z.succ (Zpos e - 1)) at 2 by lia. rewrite Z.pow_succ_r by lia. lia. }
      assert (0 < (base * base) ^ (Zpos e - 1)) by (apply Z.pow_pos_nonneg; nia).
      apply out_of_range_scale; auto; [nia|]. right. rewrite !Z.abs_mul. nia.
  - assert (base ^ Zpos e~0 = (base * base) ^ Zpos e) as ->.
    { rewrite Pos2Z.inj_xO, Z.pow_mul_r, Z.pow_2_r by lia. done. }
    destruct (checked_cases t (base * base)) as [[_ ->]|[Hout ->]]; csimpl.
    + apply IH; [rewrite Z.abs_mul; nia|done|nia].
    + symmetry. replace (acc * (base * base) ^ Zpos e) with (base * base * (acc * (base * base) ^ (Zpos e - 1))).
      2:{ replace (Zpos e) with (Z.succ (Zpos e - 1)) at 2 by lia. rewrite Z.pow_succ_r by lia. lia. }
      assert (0 < (base * base) ^ (Zpos e - 1)) by (apply Z.pow_pos_nonneg; nia).
      apply out_of_range_scale; auto; [nia|].
      destruct Ha as [-> |Ha]; [|right; rewrite Z.abs_mul; nia]. rewrite Z.mul_1_l.
      destruct (decide (Zpos e = 1)) as [-> |]; [by left|]. right.
      pose proof (abs_pow_ge (base * base) (Z.to_pos (Zpos e - 1)) ltac:(rewrite Z.abs_mul; nia)) as Hp.
      rewrite Z2Pos.id in Hp by lia. done.
  - by rewrite Z.pow_1_r.
Qed.

(** Powers of a unit do not leave the range. *)
Lemma checked_pow_unit (t : int_ty) (exp : positive) (base acc : Z) :
  int_min t <= -1 -> 1 <= int_max t -> Z.abs base = 1 -> Z.abs acc = 1 ->
  checked_pow_loop t base acc exp = Some (acc * base ^ Zpos exp).
Proof.
  intros Hmin Hmax. revert base acc. induction exp as [e IH|e IH|]; intros base acc Hb Ha; cbn [checked_pow_loop];
    unfold checked_mul; rewrite ?checked_ok by nia; csimpl.
  - rewrite IH by (rewrite ?Z.abs_mul; nia). f_equal.
    rewrite Pos2Z.inj_xI, Z.pow_add_r, Z.pow_mul_r, Z.pow_2_r, Z.pow_1_r by lia. lia.
  - rewrite IH by (rewrite ?Z.abs_mul; nia). by rewrite Pos2Z.inj_xO, Z.pow_mul_r, Z.pow_2_r by lia.
  - by rewrite Z.pow_1_r.
Qed.

Lemma checked_pow_spec (t : int_ty) (base exp : Z) :
  int_ok t -> int_min t <= base <= int_max t -> base <> 0 -> base <> 1 -> 0 <= exp ->
  checked_pow t base exp = checked t (base ^ exp).
Proof.
  intros Ht Hin H0 H1 Hexp. destruct exp as [|e|]; cbn [checked_pow].
  - destruct Ht. simpl. rewrite checked_ok by lia. done.
  - destruct (decide (base = -1)) as [-> |].
    + destruct Ht. rewrite checked_pow_unit by lia. rewrite Z.mul_1_l. symmetry. apply checked_ok.
      assert (Z.abs ((-1) ^ Zpos e) = 1) by (rewrite Z.abs_pow; apply Z.pow_1_l; lia). lia.
    + rewrite checked_pow_loop_spec, Z.mul_1_l; auto; lia.
  - lia.
Qed.

(** * Theorems *)
(** What a division reports when it does not return a quotient: also the one
    quotient that overflows, of the least integer by -1. *)
Definition quotient_result (o : IntOps) (x y r : Z) : outcome VmError Value :=
  if (y =? 0) || negb (in_ty (ops_ty o) (Z.quot x y)) then Err (Runtime RuntimeErr.DivisionByZero)
  else Ok (make_value o r).

Lemma pow_exact (o : IntOps) (x y : Z) :
  int_ok (ops_ty o) -> int_min (ops_ty o) <= x <= int_max (ops_ty o) -> 0 <= y <= u32_max ->
  Ops.pow o x y =
    if in_ty (ops_ty o) (x ^ y) then Ok (make_value o (x ^ y)) else Err (Runtime RuntimeErr.ArithmeticOverflow).
Proof.
  intros Ht Hx Hy. unfold Ops.pow. assert (in_ty (ops_ty o) 0 = true /\ in_ty (ops_ty o) 1 = true) as [I0 I1].
  { destruct Ht. rewrite !in_ty_spec. lia. }
  destruct (Z.eqb_spec x 0) as [-> |H0]; cbn [andb].
  { destruct (Z.eqb_spec y 0) as [-> |]; [change (0 ^ 0) with 1; by rewrite I1|]. rewrite Z.pow_0_l by lia. by rewrite I0. }
  destruct (Z.eqb_spec x 1) as [-> |H1]; [rewrite Z.pow_1_l by lia; by rewrite I1|].
  destruct (Z.eqb_spec y 1) as [-> |]; [rewrite Z.pow_1_r; by rewrite (proj2 (in_ty_spec _ _) Hx)|].
  rewrite (proj2 (Z.ltb_ge y 0)), (proj2 (Z.ltb_ge u32_max y)) by lia. cbn [orb].
  rewrite checked_pow_spec by (done || lia). unfold checked. by destruct (in_ty (ops_ty o) (x ^ y)).
Qed.

Lemma quotient_ok (o : IntOps) (x y : Z) :
  Ops.div o [x; y] = quotient_result o x y (Z.quot x y) /\ Ops.modulo o x y = quotient_result o x y (Z.rem x y).
Proof.
  unfold Ops.div, Ops.modulo, quotient_result, checked_rem. cbn [option_fold]. unfold checked_div, checked.
  destruct (y =? 0); [done|]. cbn [orb]. by destruct (in_ty (ops_ty o) (Z.quot x y)).
Qed.

Lemma conversions_exact (x : Z) :
  i128_min <= x <= u128_max ->
  native_to_uint (VInt x) = (if x <? 0 then Err (Runtime RuntimeErr.ArithmeticUnderflow) else Ok (VUInt x)) /\
  native_to_int (VUInt x) = (if i128_max <? x then Err (Runtime RuntimeErr.ArithmeticOverflow) else Ok (VInt x)).
Proof.
  intros Hx. unfold native_to_uint, native_to_int.
  split; [destruct (Z.ltb_spec x 0)|destruct (Z.ltb_spec i128_max x)];
    (rewrite checked_ok by int_lia; done) || (rewrite (proj2 (checked_None _ _)) by int_lia; done).
Qed.


(** The square root of the Standard Library. *)
Definition Z_square_root : IntegerSquareRoot := {| integer_sqrt_checked n := if n <? 0 then None else Some (Z.sqrt n) |}.
Lemma Z_square_root_laws : SquareRootLaws Z_square_root.
Proof.
  split; intros n Hn; simpl.
  - rewrite (proj2 (Z.ltb_ge _ _)) by done. exists (Z.sqrt n). pose proof (Z.sqrt_spec n Hn). pose proof (Z.sqrt_nonneg n).
    unfold Z.succ in *. auto.
  - by rewrite (proj2 (Z.ltb_lt _ _)).
Qed.


(** * Well-formed results *)
(** A value, a value thrown by a short return, or another error. *)
Definition result_wf (r : outcome VmError Value) : Prop :=
  match r with
  | Ok v | Err (ShortReturn (ExpectedValue v)) => Value_wf v = true
  | Err _ => True
  | Panic => False
  end.

Lemma safely_result (m : outcome VmError Value) :
  (forall v, m <> Err (ShortReturn (ExpectedValue v))) -> safely m (fun r => Value_wf r = true) -> result_wf m.
Proof. destruct m as [v|[| | |[v|v]]|]; simpl; try done. intros H'. by destruct (H' v). Qed.

Lemma wrapped_result (v w : Value) :
  Value_wf v = true -> (is_ok (wrap_value v w) = true -> Value_wf w = true) -> result_wf (wrap_value v w).
Proof.
  intros Hv Hw. apply safely_result; [|by apply wrap_value_wf]. intros x. unfold wrap_value, Value_size, Value_depth.
  destruct (type_of_wf v Hv) as (t & Ht & _). rewrite !Ht. unfold TypeSignature_size. cbn [out_bind].
  destruct (inner_size t); cbn [out_bind expect]; repeat case_match; done.
Qed.

Lemma some_result (v : Value) : Value_wf v = true -> result_wf (Value_some v).
Proof. intros Hv. apply wrapped_result; [done|]. cbn [Value_wf]. unfold Value_some. by rewrite Hv. Qed.

Lemma okay_result (v : Value) : Value_wf v = true -> result_wf (Value_okay v) /\ result_wf (Value_error v).
Proof. intros Hv. split; (apply wrapped_result; [done|]); cbn [Value_wf]; by rewrite Hv. Qed.

Lemma buff_result (bytes : list byte) : result_wf (buff_from bytes).
Proof.
  apply safely_result; [|apply buff_from_wf]. intros v. unfold buff_from, unchecked.
  destruct (BufferLength_try_from _); done.
Qed.

Lemma expected_result (v : Value) :
  Value_wf v = true -> result_wf (expected_sequence v) /\ result_wf (expected_tuple v).
Proof.
  intros Hv. destruct (type_of_wf v Hv) as (t & Ht & _). unfold expected_sequence, expected_tuple. by rewrite !Ht.
Qed.

(** ** Integers *)
Lemma lxor_range (n x y : Z) : 0 <= n -> - 2 ^ n <= x < 2 ^ n -> - 2 ^ n <= y < 2 ^ n -> - 2 ^ n <= Z.lxor x y < 2 ^ n.
Proof.
  intros Hn. assert (forall z, - 2 ^ n <= z < 2 ^ n <-> -1 <= Z.shiftr z n <= 0) as Hs.
  { intros z. rewrite Z.shiftr_div_pow2 by done. pose proof (Z.pow_pos_nonneg 2 n ltac:(lia) Hn).
    pose proof (Z.div_mod z (2 ^ n) ltac:(lia)). pose proof (Z.mod_pos_bound z (2 ^ n) ltac:(lia)). nia. }
  intros Hx Hy. apply Hs in Hx, Hy. apply Hs. rewrite Z.shiftr_lxor.
  assert (Z.shiftr x n = 0 \/ Z.shiftr x n = -1) as [-> | ->] by lia;
    assert (Z.shiftr y n = 0 \/ Z.shiftr y n = -1) as [-> | ->] by lia; split; by vm_compute.
Qed.

Lemma lxor_in_ty (o : IntOps) (x y : Z) :
  o = U128Ops \/ o = I128Ops -> in_ty (ops_ty o) x = true -> in_ty (ops_ty o) y = true ->
  in_ty (ops_ty o) (Z.lxor x y) = true.
Proof.
  intros Ho. rewrite !in_ty_spec. intros Hx Hy.
  pose proof (lxor_range 128 x y) as H1. pose proof (lxor_range 127 x y) as H2. pose proof (Z.lxor_nonneg x y) as H3.
  destruct Ho as [-> | ->]; simpl in *; int_lia.
Qed.

Lemma make_value_wf (o : IntOps) (x : Z) :
  o = U128Ops \/ o = I128Ops -> Value_wf (make_value o x) = in_ty (ops_ty o) x.
Proof. by intros [-> | ->]. Qed.

Lemma checked_result (o : IntOps) (e : RuntimeErrorType) (r : option Z) :
  o = U128Ops \/ o = I128Ops -> (forall x, r = Some x -> in_ty (ops_ty o) x = true) ->
  result_wf (let? result := ok_or (Runtime e) r in Ok (make_value o result)).
Proof. intros Ho Hr. destruct r as [x|]; [|done]. simpl. rewrite make_value_wf by done. auto. Qed.

Lemma checked_in_ty (t : int_ty) (x y : Z) : checked t x = Some y -> in_ty t y = true.
Proof. unfold checked. destruct (in_ty t x) eqn:E; [|done]. by intros [= <-]. Qed.

Lemma option_fold_in_ty (t : int_ty) (f : Z -> Z -> option Z) (l : list Z) (x y : Z) :
  (forall a b c, f a b = Some c -> in_ty t c = true) -> in_ty t x = true -> option_fold f x l = Some y -> in_ty t y = true.
Proof.
  intros Hf. revert x. induction l as [|b l IH]; intros x Hx; simpl; [by intros [= <-]|].
  destruct (f x b) as [c|] eqn:E; csimpl; [|done]. apply IH. by eapply Hf.
Qed.

Lemma binary_result (f : IntOps -> Z -> Z -> outcome VmError Value) (x y : Value) :
  (forall o a b, o = U128Ops \/ o = I128Ops -> in_ty (ops_ty o) a = true -> in_ty (ops_ty o) b = true ->
    result_wf (f o a b)) ->
  Value_wf x = true -> Value_wf y = true -> result_wf (type_force_binary_arithmetic f x y).
Proof. intros Hf Hx Hy. destruct x, y; simpl; try done; apply Hf; auto. Qed.

Lemma unary_result (f : IntOps -> Z -> outcome VmError Value) (x : Value) :
  (forall o a, o = U128Ops \/ o = I128Ops -> in_ty (ops_ty o) a = true -> result_wf (f o a)) ->
  Value_wf x = true -> result_wf (type_force_unary_arithmetic f x).
Proof. intros Hf Hx. destruct x; simpl; try done; apply Hf; auto. Qed.

Lemma try_map_forall {E A B : Type} (f : A -> outcome E B) (P : A -> Prop) (Q : B -> Prop) (l : list A) (k : list B) :
  (forall a b, P a -> f a = Ok b -> Q b) -> Forall P l -> try_map f l = Ok k -> Forall Q k.
Proof.
  intros Hf Hl. revert k. induction Hl as [|a l Ha Hl IH]; intros k Hk; simpl in Hk; out_inv; constructor; eauto.
Qed.

Lemma variadic_result (f : IntOps -> list Z -> outcome VmError Value) (args : list Value) :
  (forall o l, o = U128Ops \/ o = I128Ops -> Forall (fun a => in_ty (ops_ty o) a = true) l -> result_wf (f o l)) ->
  Forall (fun v => Value_wf v = true) args -> result_wf (type_force_variadic_arithmetic f args).
Proof.
  intros Hf Hargs. unfold type_force_variadic_arithmetic.
  assert (forall o (g : Value -> outcome VmError Z), o = U128Ops \/ o = I128Ops ->
    (forall v, safely (g v) (fun a => v = make_value o a)) -> (forall v e, g v = Err e -> exists c, e = Unchecked c) ->
    result_wf (let? l := try_map g args in f o l)) as Hboth.
  { intros o g Ho Hg He. destruct (try_map g args) as [l|e|] eqn:E; cbn [out_bind].
    - apply Hf; [done|]. eapply try_map_forall; [|exact Hargs|exact E]. intros v a Hv Ha. specialize (Hg v).
      rewrite Ha in Hg. simpl in Hg. subst v. by rewrite make_value_wf in Hv.
    - assert (exists c, e = Unchecked c) as [c ->]; [|done]. clear -E He. revert e E.
      induction args as [|v args IH]; intros e E; simpl in E; [done|]. destruct (g v) as [a|e'|] eqn:Ea; [|by simplify_eq/=; eauto|done].
      cbn [out_bind] in E. destruct (try_map g args); simplify_eq/=; eauto.
    - clear -E Hg. induction args as [|v args IH]; simpl in E; [done|]. specialize (Hg v).
      destruct (g v) as [a|e'|]; [|done..]. cbn [out_bind] in E. destruct (try_map g args); try done. auto. }
  destruct args as [|[] args]; try done; (apply (Hboth I128Ops) || apply (Hboth U128Ops)); auto;
    intros []; simpl; try done; intros e [= <-]; eauto.
Qed.

(** The functions on integers. *)
Lemma integer_results {Q : IntegerSquareRoot} {QL : SquareRootLaws Q} (o : IntOps) (a b : Z) (l : list Z) :
  o = U128Ops \/ o = I128Ops -> in_ty (ops_ty o) a = true -> in_ty (ops_ty o) b = true ->
  Forall (fun x => in_ty (ops_ty o) x = true) l ->
  (result_wf (Ops.xor o a b) /\ result_wf (Ops.modulo o a b) /\ result_wf (Ops.pow o a b)) /\
  (result_wf (Ops.sqrti o a) /\ result_wf (Ops.log2 o a)) /\
  (result_wf (Ops.add o l) /\ result_wf (Ops.sub o l) /\ result_wf (Ops.mul o l) /\ result_wf (Ops.div o l)).
Proof.
  intros Ho Ha Hb Hl. assert (in_ty (ops_ty o) 0 = true /\ in_ty (ops_ty o) 1 = true) as [I0 I1] by (by destruct Ho as [-> | ->]).
  assert (forall x y z, checked_add (ops_ty o) x y = Some z -> in_ty (ops_ty o) z = true) as Hadd by (intros ???; apply checked_in_ty).
  assert (forall x y z, checked_sub (ops_ty o) x y = Some z -> in_ty (ops_ty o) z = true) as Hsub by (intros ???; apply checked_in_ty).
  assert (forall x y z, checked_mul (ops_ty o) x y = Some z -> in_ty (ops_ty o) z = true) as Hmul by (intros ???; apply checked_in_ty).
  assert (forall x y z, checked_div (ops_ty o) x y = Some z -> in_ty (ops_ty o) z = true) as Hdiv
    by (intros ???; unfold checked_div; case_match; [done|apply checked_in_ty]).
  split_and!.
  - simpl. rewrite make_value_wf by done. by apply lxor_in_ty.
  - apply checked_result; [done|]. intros x. unfold checked_rem. destruct (Z.eqb_spec b 0); [done|].
    destruct (in_ty (ops_ty o) (Z.quot a b)); [|done]. intros [= <-].
    apply in_ty_spec in Ha, Hb. apply in_ty_spec. pose proof (Z.rem_bound_abs a b ltac:(done)).
    pose proof (Z.rem_sign_nz a b ltac:(done)). destruct Ho as [-> | ->]; simpl in *; unfold_bounds; nia.
  - unfold Ops.pow. repeat case_match; simpl; rewrite ?make_value_wf by done; try done.
    apply checked_result; [done|]. bool_to_prop. intros x Hx. apply in_ty_spec in Ha.
    rewrite checked_pow_spec in Hx; [by eapply checked_in_ty|by apply ops_int_ok|lia..].
  - unfold Ops.sqrti. destruct (integer_sqrt_checked a) as [r|] eqn:E; [|done]. simpl. rewrite make_value_wf by done.
    apply in_ty_spec in Ha. destruct (Z.ltb_spec a 0); [by rewrite integer_sqrt_negative in E|].
    destruct (integer_sqrt_floor a) as (r' & Hr' & ?); [done|]. simplify_eq.
    apply in_ty_spec. destruct Ho as [-> | ->]; simpl in *; unfold_bounds; nia.
  - unfold Ops.log2, leading_zeros_128. destruct (Z.ltb_spec a 1); [done|]. rewrite (proj2 (Z.eqb_neq _ _)) by lia. simpl.
    rewrite make_value_wf by done. apply in_ty_spec in Ha. apply in_ty_spec. pose proof (Z.log2_nonneg a).
    assert (Z.log2 a < 128) by (apply Z.log2_lt_pow2; [lia|]; destruct Ho as [-> | ->]; simpl in *; int_lia).
    destruct Ho as [-> | ->]; simpl in *; int_lia.
  - apply checked_result; [done|]. intros x. by apply option_fold_in_ty.
  - unfold Ops.sub. destruct Hl as [|x l Hx Hl]; [done|]. destruct l; (apply checked_result; [done|]); intros y.
    + apply checked_in_ty.
    + by apply option_fold_in_ty.
  - apply checked_result; [done|]. intros x. by apply option_fold_in_ty.
  - unfold Ops.div. destruct Hl as [|x l Hx Hl]; [done|]. apply checked_result; [done|]. intros y. by apply option_fold_in_ty.
Qed.

(** ** Sequences *)
Lemma sequence_len_range (s : SequenceData) :
  Value_wf (VSequence s) = true -> 0 <= SequenceData_len s <= u32_max.
Proof.
  assert (MAX_VALUE_SIZE <= u32_max) by (unfold_sizes; int_lia). unfold SequenceData_len, zlen.
  destruct s as [d|[l ty]|[d|d]]; cbn [Value_wf]; rewrite ?andb_true_iff, ?Z.leb_le; unfold zlen; [lia| |lia..].
  destruct ty as [n t]. intros (((Hwf & _) & Hlen) & _). apply wf_list in Hwf as (Hn & _). simpl in *. lia.
Qed.

Lemma find_index_range {A : Type} (p : A -> bool) (l : list A) (i : Z) : find_index p l = Some i -> 0 <= i < zlen l.
Proof.
  unfold zlen. revert i. induction l as [|x l IH]; intros i; simpl; [done|]. destruct (p x); [intros [= <-]; lia|].
  destruct (find_index p l) as [j|]; simpl; [|done]. intros [= <-]. specialize (IH j eq_refl). lia.
Qed.

Lemma contains_one_range {A : Type} `{EqDecision A} (l k : list A) (i : Z) : contains_one l k = Some i -> 0 <= i < zlen l.
Proof. unfold contains_one. destruct k as [|x [|]]; [done|apply find_index_range|done]. Qed.

Lemma contains_result (s : SequenceData) (v : Value) :
  (exists r, SequenceData_contains s v = Ok r /\ forall i, r = Some i -> 0 <= i < SequenceData_len s) \/
  (exists e, SequenceData_contains s v = Err (Unchecked e)).
Proof.
  destruct s as [d|l|[d|d]]; cbn [SequenceData_contains SequenceData_len]; [|left; eauto using find_index_range|..];
    destruct v as [| | |[| |[]]| | | |]; eauto using contains_one_range.
Qed.

Lemma element_at_wf (s : SequenceData) (i : nat) :
  Value_wf (VSequence s) = true -> Z.of_nat i < SequenceData_len s ->
  exists v, SequenceData_element_at s i = Ok v /\ Value_wf v = true.
Proof.
  intros Hs Hi. unfold SequenceData_element_at. rewrite (proj2 (Z.leb_gt _ _)) by done.
  unfold SequenceData_len, zlen in Hi.
  assert (forall A (l : list A), Z.of_nat i < Z.of_nat (length l) -> exists x, nth_error l i = Some x /\ In x l) as Hnth.
  { intros A l Hl. destruct (nth_error l i) as [x|] eqn:E; [|apply nth_error_None in E; lia]. eauto using nth_error_In. }
  destruct s as [d|[l ty]|[d|d]]; (destruct (Hnth _ _ Hi) as (x & -> & Hin) || simpl in Hi);
    cbn [expect_some out_bind Value_wf] in *; rewrite ?andb_true_iff, ?forallb_forall in Hs.
  - eexists. split; [done|]. cbn. by vm_compute.
  - exists x. split; [done|]. destruct Hs as [_ Hs].
    specialize (Hs x Hin). by apply andb_true_iff in Hs as [? _].
  - destruct Hs as [_ Hs]. eexists. split; [done|]. cbn. by rewrite (Hs x Hin).
  - destruct Hs as [_ Hs]. unfold string_ascii_from_bytes, unchecked, BufferLength_try_from. simpl.
    rewrite (Hs x Hin). cbn. eexists. split; [done|]. cbn. rewrite (Hs x Hin). done.
Qed.

Lemma sequence_results (v w : Value) :
  Value_wf v = true -> Value_wf w = true ->
  result_wf (native_len v) /\ result_wf (native_index_of v w) /\ result_wf (native_element_at v w).
Proof.
  intros Hv Hw. pose proof (expected_result v Hv) as [He _]. assert (u32_max <= u128_max) by int_lia.
  unfold native_len, native_index_of, native_element_at. destruct v as [| | |s| | | |]; try done.
  pose proof (sequence_len_range s Hv) as Hlen. split_and!.
  - simpl. apply in_ty_spec. simpl. lia.
  - destruct (contains_result s w) as [(r & -> & Hr)|[e ->]]; [|done]. cbn [out_bind]. destruct r as [i|]; [|done].
    apply some_result. cbn [Value_wf]. apply in_ty_spec. specialize (Hr i eq_refl). simpl. lia.
  - destruct w; try done. destruct (_ || _) eqn:E; [done|]. apply orb_false_iff in E as [_ E]. apply Z.leb_gt in E.
    apply in_ty_spec in Hw. simpl in Hw.
    destruct (element_at_wf s (Z.to_nat u)) as (x & -> & Hx); [done|rewrite Z2Nat.id by lia; done|]. by apply some_result.
Qed.

(** The native functions on evaluated arguments, without [native_eq], which may
    panic with [least_supertype], and [tuple_merge], which may build a tuple that
    is too large. *)
Definition value_natives {Q : IntegerSquareRoot} {D : Digests} : list NativeHandle :=
  [MoreArg native_add; MoreArg native_sub; MoreArg native_mul; MoreArg native_div; DoubleArg native_geq;
   DoubleArg native_leq; DoubleArg native_le; DoubleArg native_ge; SingleArg native_to_uint; SingleArg native_to_int;
   DoubleArg native_mod; DoubleArg native_pow; SingleArg native_sqrti; SingleArg native_log2; DoubleArg native_xor;
   SingleArg native_not; SingleArg native_len; DoubleArg native_element_at; DoubleArg native_index_of;
   MoreArg native_begin; SingleArg native_hash160; SingleArg native_sha256; SingleArg native_sha512;
   SingleArg native_sha512trunc256; SingleArg native_keccak256; SingleArg native_some; SingleArg native_okay;
   SingleArg native_error; DoubleArg native_default_to; DoubleArg native_unwrap_or_ret;
   DoubleArg native_unwrap_err_or_ret; SingleArg native_is_okay; SingleArg native_is_none; SingleArg native_is_err;
   SingleArg native_is_some; SingleArg native_unwrap; SingleArg native_unwrap_err; SingleArg native_try_ret].

Lemma option_results (v w : Value) :
  Value_wf v = true -> Value_wf w = true ->
  (result_wf (native_unwrap v) /\ result_wf (native_unwrap_err v) /\ result_wf (native_try_ret v)) /\
  (result_wf (native_unwrap_or_ret v w) /\ result_wf (native_unwrap_err_or_ret v w) /\ result_wf (native_default_to v w)) /\
  (result_wf (native_is_some v) /\ result_wf (native_is_none v) /\ result_wf (native_is_okay v) /\ result_wf (native_is_err v)).
Proof.
  intros Hv Hw. assert (forall b x, Value_wf (VResponse b x) = true -> Value_wf x = true /\ is_ok (wrap_value x (VResponse b x)) = true) as Hr.
  { intros b x H'. cbn [Value_wf] in H'. by apply andb_true_iff in H'. }
  assert (forall x, Value_wf (VOptional (Some x)) = true -> Value_wf x = true) as Ho.
  { intros x H'. cbn [Value_wf] in H'. by apply andb_true_iff in H' as [? _]. }
  split_and!; try (by destruct v); try (destruct v as [| | | | | |[x|]|[] x]; simpl; try done; by eauto || (by apply Hr in Hv as [? _])).
  - destruct v as [| | | | | |[x|]|[] x]; simpl; try done; [by apply Ho|by apply Hr in Hv as [? _]|].
    apply Hr in Hv as [Hx Hok]. unfold Value_error. apply is_ok_true in Hok as [y Hy]. rewrite Hy. cbn [expect out_bind result_wf].
    pose proof (okay_result x Hx) as [_ He]. unfold Value_error in He. by rewrite Hy in He.
  - destruct w as [| | | | | |[x|]|]; simpl; try done. by apply Ho.
Qed.

Lemma other_results (v : Value) (args : list Value) :
  Value_wf v = true -> Forall (fun v => Value_wf v = true) args ->
  result_wf (native_to_uint v) /\ result_wf (native_to_int v) /\ result_wf (native_begin args).
Proof.
  intros Hv Hargs. split_and!.
  - destruct v as [i| | | | | | |]; try done. simpl. destruct (checked u128_ty i) eqn:E; [|done]. by apply checked_in_ty in E.
  - destruct v as [|u| | | | | |]; try done. simpl. destruct (checked i128_ty u) eqn:E; [|done]. by apply checked_in_ty in E.
  - unfold native_begin. apply Forall_rev in Hargs. destruct Hargs; done.
Qed.


