(* ===== verification/C32.v ===== *)
(** C32: Crockford base-32 encoding and the checksummed addresses built on it
    (stacks-common/src/address/c32.rs, error type of address/mod.rs). *)
From Stdlib Require Import ZArith Lia Strings.Byte Strings.String Strings.Ascii List Bool.
From stdpp Require Import base list strings pretty.
From S2P Require Import Prelude Bytes Utf8 Codec Representations Hashes.
Open Scope Z_scope.

Module AddressErr.
Inductive Error :=
| InvalidCrockford32
| InvalidVersion (v : Z)
| EmptyData
| BadByte (b : Z)
| BadChecksum (exp actual : Z)
| InvalidLength (n : Z)
| TooShort (n : Z)
| Other (s : string).
End AddressErr.
Notation AddressError := AddressErr.Error.

(** [{:x}] of an unsigned integer of at most [fuel] hexadecimal digits. *)
Fixpoint lower_hex (fuel : nat) (n : Z) : string :=
  match fuel with
  | O => EmptyString
  | S fuel =>
      let rest := if n / 16 =? 0 then EmptyString else lower_hex fuel (n / 16) in
      (rest ++ String (hex_digit (n mod 16)) EmptyString)%string
  end.

(** [Display] of the error; the integers have at most 64 bits. *)
Definition AddressError_to_string (e : AddressError) : string :=
  match e with
  | AddressErr.InvalidCrockford32 => "Invalid crockford 32 string"
  | AddressErr.InvalidVersion v => "Invalid version " ++ pretty v
  | AddressErr.EmptyData => "Empty data"
  | AddressErr.BadByte b => "invalid base58 character 0x" ++ lower_hex 16 b
  | AddressErr.BadChecksum exp actual =>
      "base58ck checksum 0x" ++ lower_hex 16 actual ++ " does not match expected 0x" ++ lower_hex 16 exp
  | AddressErr.InvalidLength ell => "length " ++ pretty ell ++ " invalid for this base58 type"
  | AddressErr.TooShort _ => "base58ck data not even long enough for a checksum"
  | AddressErr.Other s => s
  end%string.

Definition C32_CHARACTERS : list ascii := list_ascii_of_string "0123456789ABCDEFGHJKMNPQRSTVWXYZ".

Definition C32_CHARACTERS_MAP : list (option Z) := [
   None; None; None; None; None; None; None; None;
   None; None; None; None; None; None; None; None;
   None; None; None; None; None; None; None; None;
   None; None; None; None; None; None; None; None;
   None; None; None; None; None; None; None; None;
   None; None; None; None; None; None; None; None;
   Some 0; Some 1; Some 2; Some 3; Some 4; Some 5; Some 6; Some 7;
   Some 8; Some 9; None; None; None; None; None; None;
   None; Some 10; Some 11; Some 12; Some 13; Some 14; Some 15; Some 16;
   Some 17; Some 1; Some 18; Some 19; Some 1; Some 20; Some 21; Some 0;
   Some 22; Some 23; Some 24; Some 25; Some 26; None; Some 27; Some 28;
   Some 29; Some 30; Some 31; None; None; None; None; None;
   None; Some 10; Some 11; Some 12; Some 13; Some 14; Some 15; Some 16;
   Some 17; Some 1; Some 18; Some 19; Some 1; Some 20; Some 21; Some 0;
   Some 22; Some 23; Some 24; Some 25; Some 26; None; Some 27; Some 28;
   Some 29; Some 30; Some 31; None; None; None; None; None].

(** [C32_CHARACTERS_MAP.get(x)], flattened. *)
Definition c32_digit (c : ascii) : option Z :=
  match nth_error C32_CHARACTERS_MAP (nat_of_ascii c) with Some (Some d) => Some d | _ => None end.

(** The longest prefix in [p], and what follows it. *)
Fixpoint take_while {A : Type} (p : A -> bool) (l : list A) : list A :=
  match l with x :: l => if p x then x :: take_while p l else [] | [] => [] end.
Fixpoint skip_while {A : Type} (p : A -> bool) (l : list A) : list A :=
  match l with x :: l' => if p x then skip_while p l' else l | [] => [] end.

(** [while let Some(v) = result.pop() { if v != zero { result.push(v); break; } }] *)
Definition pop_while {A : Type} (zero : A -> bool) (result : list A) : list A :=
  rev (skip_while zero (rev result)).

(** [result.push(C32_CHARACTERS[c32_value as usize])] *)
Definition push_c32 {E : Type} (result : list ascii) (c32_value : Z) : outcome E (list ascii) :=
  let? c := expect_some (nth_error C32_CHARACTERS (Z.to_nat c32_value)) in
  Ok (result ++ [c]).

Definition zero_char : ascii := "0"%char.

(** One iteration of the loop of [c32_encode], on [u8] values. *)
Definition c32_encode_step {E : Type} (st : list ascii * Z * Z) (current_value : Z)
  : outcome E (list ascii * Z * Z) :=
  let '(result, carry, carry_bits) := st in
  let low_bits_to_take := 5 - carry_bits in
  let low_bits := Z.land current_value (Z.shiftl 1 low_bits_to_take - 1) in
  let c32_value := as_u8 (as_u8 (Z.shiftl low_bits carry_bits) + carry) in
  let? result := push_c32 result c32_value in
  let carry_bits := (8 + carry_bits) - 5 in
  let carry := Z.shiftr current_value (8 - carry_bits) in
  if 5 <=? carry_bits then
    let c32_value := Z.land carry (Z.shiftl 1 5 - 1) in
    let? result := push_c32 result c32_value in
    Ok (result, Z.shiftr carry 5, carry_bits - 5)
  else Ok (result, carry, carry_bits).

Definition c32_encode {E : Type} (input_bytes : list byte) : outcome E string :=
  let? '(result, carry, carry_bits) :=
    try_fold c32_encode_step ([], 0, 0) (rev (map byte_to_Z input_bytes)) in
  let? result := if 0 <? carry_bits then push_c32 result carry else Ok result in
  let result := pop_while (Ascii.eqb zero_char) result in
  let leading := take_while (fun b => byte_to_Z b =? 0) input_bytes in
  let result := result ++ map (fun _ => zero_char) leading in
  Ok (string_of_list_ascii (rev result)).

(** One iteration of the loop of [c32_decode_ascii]; [carry] is a [u16]. *)
Definition c32_decode_step (st : list Z * Z * Z) (current_5bit : Z) : list Z * Z * Z :=
  let '(result, carry, carry_bits) := st in
  let carry := as_u16 (carry + as_u16 (Z.shiftl current_5bit carry_bits)) in
  let carry_bits := carry_bits + 5 in
  if 8 <=? carry_bits then
    (result ++ [as_u8 (Z.land carry (Z.shiftl 1 8 - 1))], Z.shiftr carry 8, carry_bits - 8)
  else (result, carry, carry_bits).

Definition c32_decode_ascii (input_str : string) : outcome AddressError (list byte) :=
  let chars := list_ascii_of_string input_str in
  let iter_c32_digits := omap c32_digit (rev chars) in
  if negb (Nat.eqb (String.length input_str) (length iter_c32_digits)) then
    Err AddressErr.InvalidCrockford32
  else
    let '(result, carry, carry_bits) := fold_left c32_decode_step iter_c32_digits ([], 0, 0) in
    let result := if 0 <? carry_bits then result ++ [as_u8 carry] else result in
    let result := pop_while (Z.eqb 0) result in
    let leading := take_while (Z.eqb 0) (rev iter_c32_digits) in
    let result := result ++ leading in
    Ok (map byte_of_Z (rev result)).

Definition is_ascii_str (s : string) : bool := all_chars is_ascii_char s.

Definition c32_decode (input_str : string) : outcome AddressError (list byte) :=
  if negb (is_ascii_str input_str) then Err AddressErr.InvalidCrockford32
  else c32_decode_ascii input_str.

(** [u32] of four bytes, least significant first. *)
Definition checksum_u32 {E : Type} (sum : list byte) : outcome E Z :=
  match sum with
  | b0 :: b1 :: b2 :: b3 :: _ =>
      Ok (Z.lor (Z.lor (Z.lor (byte_to_Z b0) (Z.shiftl (byte_to_Z b1) 8))
        (Z.shiftl (byte_to_Z b2) 16)) (Z.shiftl (byte_to_Z b3) 24))
  | _ => Panic
  end.

(** [&s[1..]]: panics when byte 1 is inside a character. *)
Definition slice_from_1 {E : Type} (s : string) : outcome E string :=
  match s with
  | EmptyString => Panic
  | String _ EmptyString => Ok EmptyString
  | String _ (String c _ as rest) =>
      let n := Z.of_N (N_of_ascii c) in
      if (128 <=? n) && (n <? 192) then Panic else Ok rest
  end.

Section addresses.
Context {D : Digests}.

Definition double_sha256_checksum (data : list byte) : list byte :=
  firstn 4 (Sha256_digest (Sha256_digest data)).

Definition c32_check_encode (version : Z) (data : list byte) : outcome AddressError string :=
  if 32 <=? version then Err (AddressErr.InvalidVersion version) else
  let check_data := [byte_of_Z version] ++ data in
  let checksum := double_sha256_checksum check_data in
  let encoding_data := data ++ checksum in
  let? c32_string := c32_encode encoding_data in
  let? version_char := expect_some (nth_error C32_CHARACTERS (Z.to_nat version)) in
  Ok (String version_char c32_string).

Definition c32_check_decode (check_data_unsanitized : string) : outcome AddressError (Z * list byte) :=
  if negb (is_ascii_str check_data_unsanitized) then Err AddressErr.InvalidCrockford32 else
  match check_data_unsanitized with
  | String version (String _ _ as data) =>
      let? data_sum_bytes := c32_decode_ascii data in
      if Nat.ltb (length data_sum_bytes) 5 then Err AddressErr.InvalidCrockford32 else
      let data_bytes := firstn (length data_sum_bytes - 4) data_sum_bytes in
      let expected_sum := skipn (length data_sum_bytes - 4) data_sum_bytes in
      let? version_bytes := c32_decode_ascii (String version EmptyString) in
      let check_data := version_bytes ++ data_bytes in
      let computed_sum := double_sha256_checksum check_data in
      if bool_decide (computed_sum = expected_sum) then
        let? version := expect_some (nth_error check_data 0) in
        Ok (byte_to_Z version, data_bytes)
      else
        let? computed_sum_u32 := checksum_u32 computed_sum in
        let? expected_sum_u32 := checksum_u32 expected_sum in
        Err (AddressErr.BadChecksum computed_sum_u32 expected_sum_u32)
  | _ => Err AddressErr.InvalidCrockford32
  end.

Definition c32_address_decode (c32_address_str : string) : outcome AddressError (Z * list byte) :=
  if Nat.leb (String.length c32_address_str) 5 then Err AddressErr.InvalidCrockford32
  else
    let? rest := slice_from_1 c32_address_str in
    c32_check_decode rest.

Definition c32_address (version : Z) (data : list byte) : outcome AddressError string :=
  let? c32_string := c32_check_encode version data in
  Ok (String "S"%char c32_string).
End addresses.

(** * Positional notation *)
(** The number written by the digits [l] in base [b], most significant first. *)
Definition positional (b : Z) (l : list Z) : Z := fold_left (fun acc d => acc * b + d) l 0.
Definition digits (b : Z) (l : list Z) : Prop := Forall (fun d => 0 <= d < b) l.
Definition leading_zeros (l : list Z) : nat := length (take_while (Z.eqb 0) l).

Section positional.
Context (b : Z) (Hb : 1 < b).

Lemma positional_app (l1 l2 : list Z) :
  positional b (l1 ++ l2) = positional b l1 * b ^ Z.of_nat (length l2) + positional b l2.
Proof.
  revert l1. induction l2 as [|d l2 IH] using rev_ind; intros l1.
  - rewrite app_nil_r. change (positional b []) with 0. simpl. lia.
  - rewrite app_assoc. unfold positional in *. rewrite !fold_left_app. simpl.
    rewrite <-fold_left_app, IH, length_app. simpl. rewrite Nat2Z.inj_add, Z.pow_add_r by lia. lia.
Qed.

Lemma positional_cons (d : Z) (l : list Z) :
  positional b (d :: l) = d * b ^ Z.of_nat (length l) + positional b l.
Proof. apply (positional_app [d]). Qed.

Lemma positional_range (l : list Z) : digits b l -> 0 <= positional b l < b ^ Z.of_nat (length l).
Proof using Hb.
  induction 1 as [|d l Hd Hl IH]; [by vm_compute|]. rewrite positional_cons.
  change (length (d :: l)) with (S (length l)). rewrite Nat2Z.inj_succ, Z.pow_succ_r by lia. nia.
Qed.

Lemma positional_inj_length (l1 l2 : list Z) :
  digits b l1 -> digits b l2 -> length l1 = length l2 -> positional b l1 = positional b l2 -> l1 = l2.
Proof using Hb.
  intros H1. revert l2. induction H1 as [|d1 l1 Hd1 H1 IH]; intros [|d2 l2] H2 Hlen Heq; try done.
  apply Forall_cons in H2 as [Hd2 H2]. injection Hlen as Hlen.
  rewrite !positional_cons, Hlen in Heq. pose proof (positional_range l1 H1) as R1.
  pose proof (positional_range l2 H2) as R2. rewrite Hlen in R1.
  assert (d1 = d2) as <- by nia. f_equal. apply IH; [done..|lia].
Qed.

Lemma take_skip_while {A : Type} (p : A -> bool) (l : list A) : take_while p l ++ skip_while p l = l.
Proof. induction l as [|x l IH]; simpl; [done|]. destruct (p x); simpl; congruence. Qed.

Lemma take_while_zeros (l : list Z) : take_while (Z.eqb 0) l = repeat 0 (leading_zeros l).
Proof.
  unfold leading_zeros. induction l as [|x l IH]; cbn [take_while]; [done|].
  destruct (Z.eqb_spec 0 x) as [<-|]; [|done]. cbn [length repeat]. by rewrite <-IH.
Qed.

Lemma positional_zeros (k : nat) (l : list Z) : positional b (repeat 0 k ++ l) = positional b l.
Proof. induction k as [|k IH]; simpl; [done|]. rewrite positional_cons, IH. lia. Qed.

Lemma split_zeros (l : list Z) : l = repeat 0 (leading_zeros l) ++ skip_while (Z.eqb 0) l.
Proof. by rewrite <-take_while_zeros, take_skip_while. Qed.

Lemma positional_skip (l : list Z) : positional b (skip_while (Z.eqb 0) l) = positional b l.
Proof. rewrite (split_zeros l) at 2. by rewrite positional_zeros. Qed.

Lemma leading_zeros_app_skip (k : nat) (l : list Z) :
  leading_zeros (repeat 0 k ++ skip_while (Z.eqb 0) l) = k.
Proof.
  unfold leading_zeros. induction k as [|k IH].
  - induction l as [|x l IH]; [done|]. cbn [skip_while]. destruct (Z.eqb 0 x) eqn:E; [done|].
    cbn [repeat app take_while]. by rewrite E.
  - cbn [repeat app take_while]. rewrite Z.eqb_refl. cbn [length]. by f_equal.
Qed.

Lemma digits_skip (l : list Z) : digits b l -> digits b (skip_while (Z.eqb 0) l).
Proof. intros H. rewrite (split_zeros l) in H. by apply Forall_app in H as [_ H]. Qed.

(** Without leading zeros, the length is the least that fits the number. *)
Lemma skip_length (l : list Z) :
  digits b l -> skip_while (Z.eqb 0) l <> [] ->
  b ^ (Z.of_nat (length (skip_while (Z.eqb 0) l)) - 1) <= positional b l.
Proof using Hb.
  intros Hl. rewrite <-positional_skip. pose proof (digits_skip l Hl) as Hs. revert Hs.
  induction l as [|x l IH]; cbn [skip_while]; [done|]. destruct (Z.eqb_spec 0 x) as [Hx|Hx].
  { apply IH. by apply Forall_cons in Hl as [_ Hl]. }
  intros Hs _. apply Forall_cons in Hs as [Hx' Hs]. rewrite positional_cons.
  pose proof (positional_range l Hs) as R. simpl length. replace (Z.of_nat (S _) - 1) with (Z.of_nat (length l)) by lia.
  nia.
Qed.

(** Digits are determined by their number and their leading zeros. *)
Lemma digits_unique (l1 l2 : list Z) :
  digits b l1 -> digits b l2 -> leading_zeros l1 = leading_zeros l2 ->
  positional b l1 = positional b l2 -> l1 = l2.
Proof using Hb.
  intros H1 H2 Hz Hv. rewrite (split_zeros l1), (split_zeros l2), Hz. f_equal.
  pose proof (skip_length l1 H1) as S1. pose proof (skip_length l2 H2) as S2.
  pose proof (positional_range _ (digits_skip _ H1)) as R1.
  pose proof (positional_range _ (digits_skip _ H2)) as R2.
  rewrite <-(positional_skip l1), <-(positional_skip l2) in Hv.
  rewrite <-(positional_skip l1), Hv in S1. rewrite <-(positional_skip l2) in S2. rewrite Hv in R1.
  apply positional_inj_length; auto using digits_skip.
  destruct (skip_while (Z.eqb 0) l1) as [|x1 m1], (skip_while (Z.eqb 0) l2) as [|x2 m2]; [done|..].
  - exfalso. specialize (S2 ltac:(done)). simpl length in *. simpl in R1.
    assert (0 < b ^ (Z.of_nat (S (length m2)) - 1)) by (apply Z.pow_pos_nonneg; lia). lia.
  - exfalso. specialize (S1 ltac:(done)). simpl length in *. simpl in R2.
    assert (0 < b ^ (Z.of_nat (S (length m1)) - 1)) by (apply Z.pow_pos_nonneg; lia). lia.
  - specialize (S1 ltac:(done)). specialize (S2 ltac:(done)).
    assert (b ^ (Z.of_nat (length (x1 :: m1)) - 1) < b ^ Z.of_nat (length (x2 :: m2))) as L1 by lia.
    assert (b ^ (Z.of_nat (length (x2 :: m2)) - 1) < b ^ Z.of_nat (length (x1 :: m1))) as L2 by lia.
    apply Z.pow_lt_mono_r_iff in L1; [|lia..]. apply Z.pow_lt_mono_r_iff in L2; lia.
Qed.
End positional.

(** * The alphabet *)
Definition c32_char (d : Z) : ascii := nth (Z.to_nat d) C32_CHARACTERS zero_char.

Lemma nth_error_C32 (d : Z) : 0 <= d < 32 -> nth_error C32_CHARACTERS (Z.to_nat d) = Some (c32_char d).
Proof. intros. apply nth_error_nth'. change (length C32_CHARACTERS) with 32%nat. lia. Qed.

(** A property of the 32 digits holds when it holds of each. *)
Lemma c32_digits_forall (P : Z -> bool) :
  forallb (fun n => P (Z.of_nat n)) (seq 0 32) = true -> forall d, 0 <= d < 32 -> P d = true.
Proof.
  intros H d Hd. rewrite forallb_forall in H. specialize (H (Z.to_nat d)). rewrite Z2Nat.id in H by lia.
  apply H, in_seq. lia.
Qed.

Lemma c32_digit_char (d : Z) : 0 <= d < 32 -> c32_digit (c32_char d) = Some d.
Proof.
  intros Hd. apply (bool_decide_eq_true_1 (c32_digit (c32_char d) = Some d)).
  revert d Hd. apply c32_digits_forall. by vm_compute.
Qed.

Lemma c32_char_zero (d : Z) : 0 <= d < 32 -> Ascii.eqb zero_char (c32_char d) = (0 =? d).
Proof.
  intros Hd. apply (bool_decide_eq_true_1 (Ascii.eqb zero_char (c32_char d) = (0 =? d))).
  revert d Hd. apply c32_digits_forall. by vm_compute.
Qed.

Lemma c32_char_ascii (d : Z) : 0 <= d < 32 -> is_ascii_char (c32_char d) = true.
Proof. revert d. apply c32_digits_forall. by vm_compute. Qed.

Lemma c32_digit_range (c : ascii) (d : Z) : c32_digit c = Some d -> 0 <= d < 32.
Proof.
  intros H. assert ((match c32_digit c with Some d => (0 <=? d) && (d <? 32) | None => true end) = true) as Hr.
  { revert c H. intros c _. revert c. apply ascii_forall. by vm_compute. }
  rewrite H in Hr. bool_to_prop. lia.
Qed.

Lemma push_c32_char {E : Type} (ds : list Z) (v : Z) :
  0 <= v < 32 -> push_c32 (E:=E) (map c32_char ds) v = Ok (map c32_char (ds ++ [v])).
Proof. intros Hv. unfold push_c32. rewrite nth_error_C32 by done. simpl. by rewrite map_app. Qed.

Lemma skip_while_chars (ds : list Z) :
  digits 32 ds -> skip_while (Ascii.eqb zero_char) (map c32_char ds) = map c32_char (skip_while (Z.eqb 0) ds).
Proof.
  induction 1 as [|d l Hd Hl IH]; [done|]. cbn [map skip_while]. rewrite c32_char_zero by done.
  destruct (0 =? d); [exact IH|done].
Qed.

Lemma pop_while_chars (ds : list Z) :
  digits 32 ds -> pop_while (Ascii.eqb zero_char) (map c32_char ds) = map c32_char (pop_while (Z.eqb 0) ds).
Proof.
  intros Hds. unfold pop_while. rewrite <-map_rev, skip_while_chars by by apply Forall_rev.
  by rewrite map_rev.
Qed.

(** * The loops compute the change of base *)
Lemma land_low (x n : Z) : 0 <= n -> Z.land x (Z.shiftl 1 n - 1) = x mod 2 ^ n.
Proof. intros. rewrite Z.shiftl_1_l, Z.sub_1_r, <-Z.ones_equiv. by apply Z.land_ones. Qed.

Lemma c32_encode_step_spec {E : Type} (ds : list Z) (carry bits v : Z) :
  digits 32 ds -> 0 <= bits < 5 -> 0 <= carry < 2 ^ bits -> 0 <= v < 256 ->
  exists ds' carry' bits',
    c32_encode_step (E:=E) (map c32_char ds, carry, bits) v = Ok (map c32_char ds', carry', bits') /\
    digits 32 ds' /\ 0 <= bits' < 5 /\ 0 <= carry' < 2 ^ bits' /\
    32 ^ Z.of_nat (length ds') * 2 ^ bits' = 32 ^ Z.of_nat (length ds) * 2 ^ bits * 256 /\
    positional 32 (rev ds') + carry' * 32 ^ Z.of_nat (length ds') =
    positional 32 (rev ds) + (carry + v * 2 ^ bits) * 32 ^ Z.of_nat (length ds).
Proof.
  intros Hds Hbits Hcarry Hv. unfold c32_encode_step.
  rewrite !land_low, Z.shiftl_mul_pow2, !Z.shiftr_div_pow2 by lia.
  replace (8 - (8 + bits - 5)) with (5 - bits) by lia.
  set (lo := v mod 2 ^ (5 - bits)). set (hi := v / 2 ^ (5 - bits)).
  assert (2 ^ bits * 2 ^ (5 - bits) = 32) as H32.
  { rewrite <-Z.pow_add_r by lia. replace (bits + (5 - bits)) with 5 by lia. done. }
  assert (0 < 2 ^ bits) by (apply Z.pow_pos_nonneg; lia).
  assert (0 < 2 ^ (5 - bits)) by (apply Z.pow_pos_nonneg; lia).
  assert (v = 2 ^ (5 - bits) * hi + lo) as Hsplit by (apply Z.div_mod; lia).
  assert (0 <= lo < 2 ^ (5 - bits)) by (apply Z.mod_pos_bound; lia).
  assert (0 <= lo * 2 ^ bits + carry < 32) as Hc by nia.
  assert (as_u8 (as_u8 (lo * 2 ^ bits) + carry) = lo * 2 ^ bits + carry) as ->.
  { unfold as_u8. rewrite (Z.mod_small (lo * _)) by nia. apply Z.mod_small. lia. }
  rewrite push_c32_char by done. cbn [out_bind].
  set (c := lo * 2 ^ bits + carry) in *.
  assert (c + 32 * hi = carry + v * 2 ^ bits) as Hval by nia.
  assert (digits 32 (ds ++ [c])) as Hds1 by (apply Forall_app; auto).
  assert (0 <= hi < 2 ^ (3 + bits)) as Hhi.
  { assert (2 ^ (3 + bits) * 2 ^ (5 - bits) = 256) by
      (rewrite <-Z.pow_add_r by lia; replace (3 + bits + (5 - bits)) with 8 by lia; done). nia. }
  assert (2 ^ (3 + bits) = 8 * 2 ^ bits) as H8 by (rewrite Z.pow_add_r by lia; done).
  assert (32 ^ Z.of_nat (length (ds ++ [c])) = 32 ^ Z.of_nat (length ds) * 32) as Hlen1.
  { rewrite length_app. simpl. rewrite Nat2Z.inj_add, Z.pow_add_r by lia. done. }
  assert (positional 32 (rev (ds ++ [c])) = positional 32 (rev ds) + c * 32 ^ Z.of_nat (length ds)) as Hpos1.
  { rewrite rev_app_distr. simpl. rewrite positional_cons, length_rev. lia. }
  destruct (Z.leb_spec 5 (8 + bits - 5)) as [Hge|Hlt].
  - set (c2 := hi mod 2 ^ 5). assert (0 <= c2 < 32) as Hc2 by (apply Z.mod_pos_bound; lia).
    rewrite push_c32_char by done. cbn [out_bind]. exists ((ds ++ [c]) ++ [c2]), (hi / 2 ^ 5), (8 + bits - 5 - 5).
    assert (32 * 2 ^ (bits - 2) = 2 ^ (3 + bits)) as Hp.
    { change 32 with (2 ^ 5). rewrite <-Z.pow_add_r by lia. f_equal. lia. }
    replace (8 + bits - 5 - 5) with (bits - 2) by lia.
    assert (hi = 32 * (hi / 2 ^ 5) + c2) as Hsplit2 by (apply Z.div_mod; lia).
    split; [done|]. split; [apply Forall_app; auto|]. split; [lia|]. split; [nia|].
    rewrite length_app, rev_app_distr. simpl length. simpl app. rewrite Nat2Z.inj_add, Z.pow_add_r by lia.
    rewrite positional_cons, length_rev, Hpos1, Hlen1. change (32 ^ Z.of_nat 1) with 32. split; nia.
  - exists (ds ++ [c]), hi, (8 + bits - 5). replace (8 + bits - 5) with (3 + bits) by lia.
    split; [done|]. split; [done|]. split; [lia|]. split; [done|]. rewrite Hpos1, Hlen1. split; nia.
Qed.

Lemma positional_snoc_rev (b : Z) (ds : list Z) (d : Z) :
  1 < b -> positional b (rev (ds ++ [d])) = positional b (rev ds) + d * b ^ Z.of_nat (length ds).
Proof. intros. rewrite rev_app_distr. simpl. rewrite positional_cons, length_rev by done. lia. Qed.

Lemma pow_length_snoc (b : Z) (ds : list Z) (d : Z) :
  b ^ Z.of_nat (length (ds ++ [d])) = b ^ Z.of_nat (length ds) * b.
Proof. rewrite length_app. simpl. rewrite Nat2Z.inj_add, Z.pow_add_r by lia. lia. Qed.

(** After the bytes [l], least significant first, the pending digits and the
    carry hold their number. *)
Lemma c32_encode_loop {E : Type} (l : list Z) :
  digits 256 l ->
  exists ds carry bits,
    try_fold (E:=E) c32_encode_step ([], 0, 0) l = Ok (map c32_char ds, carry, bits) /\
    digits 32 ds /\ 0 <= bits < 5 /\ 0 <= carry < 2 ^ bits /\
    32 ^ Z.of_nat (length ds) * 2 ^ bits = 256 ^ Z.of_nat (length l) /\
    positional 32 (rev ds) + carry * 32 ^ Z.of_nat (length ds) = positional 256 (rev l).
Proof.
  induction l as [|v l IH] using rev_ind; intros Hl.
  { exists [], 0, 0. repeat split; auto; try lia. by apply Forall_nil. }
  apply Forall_app in Hl as [Hl Hv]. apply Forall_cons in Hv as [Hv _].
  destruct (IH Hl) as (ds & carry & bits & Hf & Hds & Hbits & Hcarry & Hw & Hp).
  destruct (c32_encode_step_spec (E:=E) ds carry bits v Hds Hbits Hcarry Hv)
    as (ds' & carry' & bits' & Hs & Hds' & Hbits' & Hcarry' & Hw' & Hp').
  exists ds', carry', bits'. rewrite try_fold_app, Hf. cbn [out_bind try_fold]. rewrite Hs. cbn [out_bind].
  rewrite positional_snoc_rev, pow_length_snoc by lia. repeat split; auto; lia.
Qed.

Lemma c32_decode_step_spec (ds : list Z) (carry bits v : Z) :
  digits 256 ds -> 0 <= bits < 8 -> 0 <= carry < 2 ^ bits -> 0 <= v < 32 ->
  exists ds' carry' bits',
    c32_decode_step (ds, carry, bits) v = (ds', carry', bits') /\
    digits 256 ds' /\ 0 <= bits' < 8 /\ 0 <= carry' < 2 ^ bits' /\
    256 ^ Z.of_nat (length ds') * 2 ^ bits' = 256 ^ Z.of_nat (length ds) * 2 ^ bits * 32 /\
    positional 256 (rev ds') + carry' * 256 ^ Z.of_nat (length ds') =
    positional 256 (rev ds) + (carry + v * 2 ^ bits) * 256 ^ Z.of_nat (length ds).
Proof.
  intros Hds Hbits Hcarry Hv. unfold c32_decode_step.
  rewrite !land_low, Z.shiftl_mul_pow2, !Z.shiftr_div_pow2 by lia.
  assert (0 < 2 ^ bits <= 2 ^ 7) by (split; [apply Z.pow_pos_nonneg; lia|apply Z.pow_le_mono_r; lia]).
  assert (as_u16 (carry + as_u16 (v * 2 ^ bits)) = carry + v * 2 ^ bits) as ->.
  { unfold as_u16. rewrite (Z.mod_small (v * _)) by nia. apply Z.mod_small. nia. }
  set (w := carry + v * 2 ^ bits) in *.
  assert (2 ^ (bits + 5) = 2 ^ bits * 32) as H5 by (rewrite Z.pow_add_r by lia; done).
  assert (0 <= w < 2 ^ (bits + 5)) as Hw by nia.
  destruct (Z.leb_spec 8 (bits + 5)) as [Hge|Hlt].
  - set (c := as_u8 (w mod 2 ^ 8)).
    assert (c = w mod 256) as Hc by (subst c; unfold as_u8; apply Z.mod_mod; lia).
    assert (0 <= c < 256) by (rewrite Hc; apply Z.mod_pos_bound; lia).
    assert (w = 256 * (w / 2 ^ 8) + c) as Hsplit by (rewrite Hc; apply Z.div_mod; lia).
    exists (ds ++ [c]), (w / 2 ^ 8), (bits + 5 - 8).
    assert (256 * 2 ^ (bits + 5 - 8) = 2 ^ (bits + 5)) as Hp.
    { change 256 with (2 ^ 8). rewrite <-Z.pow_add_r by lia. f_equal. lia. }
    rewrite positional_snoc_rev, pow_length_snoc by lia.
    split; [done|]. split; [apply Forall_app; auto|]. split; [lia|]. split; [nia|]. split; nia.
  - exists ds, w, (bits + 5). repeat split; auto; lia.
Qed.

Lemma c32_decode_loop (l : list Z) :
  digits 32 l ->
  exists ds carry bits,
    fold_left c32_decode_step l ([], 0, 0) = (ds, carry, bits) /\
    digits 256 ds /\ 0 <= bits < 8 /\ 0 <= carry < 2 ^ bits /\
    256 ^ Z.of_nat (length ds) * 2 ^ bits = 32 ^ Z.of_nat (length l) /\
    positional 256 (rev ds) + carry * 256 ^ Z.of_nat (length ds) = positional 32 (rev l).
Proof.
  induction l as [|v l IH] using rev_ind; intros Hl.
  { exists [], 0, 0. repeat split; auto; try lia. by apply Forall_nil. }
  apply Forall_app in Hl as [Hl Hv]. apply Forall_cons in Hv as [Hv _].
  destruct (IH Hl) as (ds & carry & bits & Hf & Hds & Hbits & Hcarry & Hw & Hp).
  destruct (c32_decode_step_spec ds carry bits v Hds Hbits Hcarry Hv)
    as (ds' & carry' & bits' & Hs & Hds' & Hbits' & Hcarry' & Hw' & Hp').
  exists ds', carry', bits'. rewrite fold_left_app, Hf. cbn [fold_left].
  rewrite positional_snoc_rev, pow_length_snoc by lia. repeat split; auto; lia.
Qed.

(** Leading zeros stripped and restored: what both routines do last. *)
Lemma restore_zeros (b : Z) (ds : list Z) (k : nat) :
  1 < b -> digits b ds ->
  let r := rev (pop_while (Z.eqb 0) ds ++ repeat 0 k) in
  digits b r /\ leading_zeros r = k /\ positional b r = positional b (rev ds).
Proof.
  intros Hb Hds r. subst r. unfold pop_while. rewrite rev_app_distr, rev_repeat, rev_involutive.
  split; [|split].
  - apply Forall_app. split; [apply Forall_forall; intros x ->%list_elem_of_In%repeat_spec; lia|].
    by apply digits_skip, Forall_rev.
  - apply leading_zeros_app_skip.
  - rewrite positional_zeros, positional_skip by done. done.
Qed.

Lemma digits_bytes (L : list byte) : digits 256 (map byte_to_Z L).
Proof. apply Forall_map, Forall_true. apply byte_to_Z_range. Qed.

Lemma leading_zero_bytes (L : list byte) :
  length (take_while (fun b => byte_to_Z b =? 0) L) = leading_zeros (map byte_to_Z L).
Proof.
  unfold leading_zeros. induction L as [|x L IH]; [done|]. cbn [map take_while].
  rewrite (Z.eqb_sym 0). destruct (byte_to_Z x =? 0); simpl; [by f_equal|done].
Qed.

(** [c32_encode] writes the number of its input in base 32, with as many
    leading zeros as the input. *)
Lemma c32_encode_spec {E : Type} (L : list byte) :
  exists ds, c32_encode (E:=E) L = Ok (string_of_list_ascii (map c32_char ds)) /\ digits 32 ds /\
    leading_zeros ds = leading_zeros (map byte_to_Z L) /\
    positional 32 ds = positional 256 (map byte_to_Z L).
Proof.
  unfold c32_encode. set (k := leading_zeros (map byte_to_Z L)).
  destruct (c32_encode_loop (E:=E) (rev (map byte_to_Z L))) as (ds & carry & bits & -> & Hds & Hbits & Hc & _ & Hp).
  { apply Forall_rev, digits_bytes. }
  rewrite rev_involutive in Hp. cbn [out_bind].
  assert (exists ds', (if 0 <? bits then push_c32 (map c32_char ds) carry else Ok (map c32_char ds))
      = Ok (E:=E) (map c32_char ds') /\ digits 32 ds' /\
      positional 32 (rev ds') = positional 256 (map byte_to_Z L)) as (ds' & -> & Hds' & Hp').
  { destruct (Z.ltb_spec 0 bits) as [Hlt|Hge].
    - assert (2 ^ bits <= 2 ^ 4) by (apply Z.pow_le_mono_r; lia).
      exists (ds ++ [carry]). rewrite push_c32_char by lia. rewrite positional_snoc_rev by lia.
      split; [done|]. split; [|done]. apply Forall_app. split; [done|]. apply Forall_singleton. lia.
    - exists ds. replace bits with 0 in Hc by lia. rewrite Z.pow_0_r in Hc. split; [done|]. split; [done|]. nia. }
  cbn [out_bind]. rewrite pop_while_chars by done.
  destruct (restore_zeros 32 ds' k ltac:(lia) Hds') as (Hr & Hk & Hv).
  exists (rev (pop_while (Z.eqb 0) ds' ++ repeat 0 k)). split; [|by rewrite Hv].
  do 2 f_equal. rewrite map_rev, map_app. do 2 f_equal. rewrite map_repeat.
  subst k. rewrite <-leading_zero_bytes. generalize (take_while (fun b => byte_to_Z b =? 0) L).
  intros z. induction z; simpl; [done|]. by f_equal.
Qed.

(** The digits of a string, if all its characters are in the alphabet. *)
Definition c32_digits (s : string) : option (list Z) := mapM c32_digit (list_ascii_of_string s).

Lemma omap_all {A B : Type} (f : A -> option B) (l : list A) :
  match mapM f l with
  | Some r => omap f l = r
  | None => (length (omap f l) < length l)%nat
  end.
Proof.
  assert (forall l', length (omap f l') <= length l')%nat as Hle.
  { intros l'. induction l' as [|z l' IH]; csimpl; [lia|]. destruct (f z); csimpl; lia. }
  induction l as [|x l IH]; [done|]. csimpl. destruct (f x) as [y|]; csimpl.
  - destruct (mapM f l); simpl; [by subst|lia].
  - specialize (Hle l). lia.
Qed.

Lemma omap_rev {A B : Type} (f : A -> option B) (l : list A) : omap f (rev l) = rev (omap f l).
Proof.
  induction l as [|x l IH]; [done|]. simpl. rewrite omap_app, IH. simpl. destruct (f x); simpl; [done|].
  by rewrite app_nil_r.
Qed.

Lemma c32_digits_range (s : string) (ds : list Z) : c32_digits s = Some ds -> digits 32 ds.
Proof.
  unfold c32_digits. intros H%mapM_Some_1. induction H; constructor; eauto using c32_digit_range.
Qed.

Lemma length_list_ascii (s : string) : length (list_ascii_of_string s) = String.length s.
Proof. induction s; simpl; congruence. Qed.

(** [c32_decode_ascii] is the change of base in the other direction; it rejects
    exactly the strings with a character outside the alphabet. *)
Lemma c32_decode_ascii_spec (s : string) :
  match c32_digits s with
  | None => c32_decode_ascii s = Err AddressErr.InvalidCrockford32
  | Some ds => exists L, c32_decode_ascii s = Ok L /\
      leading_zeros (map byte_to_Z L) = leading_zeros ds /\
      positional 256 (map byte_to_Z L) = positional 32 ds
  end.
Proof.
  unfold c32_decode_ascii. pose proof (omap_all c32_digit (list_ascii_of_string s)) as Hall.
  pose proof (c32_digits_range s) as Hrange. unfold c32_digits in *. rewrite omap_rev, length_rev.
  rewrite length_list_ascii in Hall. destruct (mapM c32_digit (list_ascii_of_string s)) as [ds|] eqn:Hm.
  2:{ destruct (Nat.eqb_spec (String.length s) (length (omap c32_digit (list_ascii_of_string s)))); [lia|done]. }
  rewrite Hall. apply mapM_Some_1, Forall2_length in Hm. rewrite length_list_ascii in Hm. rewrite Hm, Nat.eqb_refl. cbn [negb].
  specialize (Hrange ds eq_refl).
  destruct (c32_decode_loop (rev ds)) as (bs & carry & bits & -> & Hbs & Hbits & Hc & _ & Hp); [by apply Forall_rev|].
  rewrite rev_involutive in Hp |- *. cbv zeta.
  set (bs' := if 0 <? bits then bs ++ [as_u8 carry] else bs).
  assert (digits 256 bs' /\ positional 256 (rev bs') = positional 32 ds) as [Hbs' Hp'].
  { subst bs'. destruct (Z.ltb_spec 0 bits) as [Hlt|Hge].
    - assert (2 ^ bits <= 2 ^ 7) by (apply Z.pow_le_mono_r; lia).
      unfold as_u8. rewrite Z.mod_small by lia. rewrite positional_snoc_rev by lia.
      split; [|done]. apply Forall_app. split; [done|]. apply Forall_singleton. lia.
    - replace bits with 0 in Hc by lia. rewrite Z.pow_0_r in Hc. split; [done|]. nia. }
  rewrite take_while_zeros.
  destruct (restore_zeros 256 bs' (leading_zeros ds) ltac:(lia) Hbs') as (Hr & Hk & Hv).
  eexists. split; [done|]. rewrite map_map.
  rewrite (map_ext_in _ (fun d => d)), map_id; [by rewrite Hv|].
  intros d Hd. apply byte_to_of_Z_small. unfold digits in Hr; rewrite Forall_forall in Hr. by apply Hr, list_elem_of_In.
Qed.

Lemma c32_digit_ascii (c : ascii) (d : Z) : c32_digit c = Some d -> is_ascii_char c = true.
Proof.
  intros H. assert ((if c32_digit c then is_ascii_char c else true) = true) as Hr.
  { clear H. revert c. apply ascii_forall. by vm_compute. }
  by rewrite H in Hr.
Qed.

Lemma c32_digits_ascii (s : string) (ds : list Z) : c32_digits s = Some ds -> is_ascii_str s = true.
Proof.
  unfold c32_digits, is_ascii_str. revert ds. induction s as [|c s IH]; intros ds H; [done|]. simpl in *.
  apply bind_Some in H as (d & Hd & H). apply bind_Some in H as (ds' & Hds & _).
  by rewrite (c32_digit_ascii c d Hd), (IH ds' Hds).
Qed.

Lemma c32_digits_chars (ds : list Z) :
  digits 32 ds -> c32_digits (string_of_list_ascii (map c32_char ds)) = Some ds.
Proof.
  intros H. unfold c32_digits. rewrite list_ascii_of_string_of_list_ascii. apply mapM_Some_2.
  induction H; simpl; constructor; auto using c32_digit_char.
Qed.

(** A string with each character replaced by the one [c32_encode] writes for it. *)
Definition c32_normalize (s : string) : string :=
  string_of_list_ascii (map (fun c => default c (c32_char <$> c32_digit c)) (list_ascii_of_string s)).

Lemma c32_normalize_digits (s : string) (ds : list Z) :
  c32_digits s = Some ds -> c32_normalize s = string_of_list_ascii (map c32_char ds).
Proof.
  unfold c32_digits, c32_normalize. intros H%mapM_Some_1. f_equal.
  induction H as [|c d cs ds Hc _ IH]; [done|]. simpl. by rewrite Hc, IH.
Qed.

Lemma map_byte_to_Z_inj (l1 l2 : list byte) : map byte_to_Z l1 = map byte_to_Z l2 -> l1 = l2.
Proof.
  revert l2. induction l1 as [|x l1 IH]; intros [|y l2] H; try done. simpl in H.
  injection H as Hxy H. f_equal; [by apply byte_to_Z_inj|by apply IH].
Qed.

Lemma c32_decode_encode {E : Type} (L : list byte) :
  exists s ds, c32_encode (E:=E) L = Ok s /\ c32_digits s = Some ds /\ c32_decode_ascii s = Ok L.
Proof.
  destruct (c32_encode_spec (E:=E) L) as (ds & -> & Hds & Hz & Hv). eexists _, ds. split; [done|].
  pose proof (c32_digits_chars ds Hds) as Hd. split; [done|].
  pose proof (c32_decode_ascii_spec (string_of_list_ascii (map c32_char ds))) as Hs. rewrite Hd in Hs.
  destruct Hs as (L' & -> & Hz' & Hv'). f_equal. apply map_byte_to_Z_inj.
  apply (digits_unique 256 ltac:(lia)); auto using digits_bytes; congruence.
Qed.

Lemma c32_encode_decode {E : Type} (s : string) (L : list byte) :
  c32_decode_ascii s = Ok L -> c32_encode (E:=E) L = Ok (c32_normalize s).
Proof.
  intros HL. pose proof (c32_decode_ascii_spec s) as Hs. destruct (c32_digits s) as [ds|] eqn:Hd; [|congruence].
  destruct Hs as (L' & HL' & Hz & Hv). replace L' with L in * by congruence.
  destruct (c32_encode_spec (E:=E) L) as (ds' & -> & Hds' & Hz' & Hv').
  rewrite (c32_normalize_digits s ds Hd). do 3 f_equal.
  apply (digits_unique 32 ltac:(lia)); eauto using c32_digits_range; congruence.
Qed.

(** C32 encoding loses nothing: every byte string encodes, without an
    out-of-range table access, to a string that decodes to it; and a string
    that decodes is, up to letter case and the look-alikes O, I and L, the
    encoding of the bytes it decodes to. *)
Lemma c32_roundtrip :
  (forall input_bytes : list byte, exists s,
     c32_encode (E:=AddressError) input_bytes = Ok s /\ c32_decode s = Ok input_bytes) /\
  (forall (s : string) (bytes : list byte),
     c32_decode s = Ok bytes -> c32_encode (E:=AddressError) bytes = Ok (c32_normalize s)).
Proof.
  split.
  - intros L. destruct (c32_decode_encode (E:=AddressError) L) as (s & ds & He & Hd & Hdec).
    exists s. split; [done|]. unfold c32_decode. by rewrite (c32_digits_ascii s ds Hd).
  - intros s L. unfold c32_decode. destruct (is_ascii_str s); [|done]. apply c32_encode_decode.
Qed.

(** * Checksummed addresses *)
Lemma c32_length_le (L : list byte) (ds : list Z) :
  digits 32 ds -> leading_zeros ds = leading_zeros (map byte_to_Z L) ->
  positional 32 ds = positional 256 (map byte_to_Z L) -> (length L <= length ds)%nat.
Proof.
  intros Hds Hz Hv. rewrite <-(length_map byte_to_Z L). set (l := map byte_to_Z L) in *.
  assert (digits 256 l) as Hl by apply digits_bytes.
  rewrite (split_zeros l), (split_zeros ds), Hz, !length_app. apply Nat.add_le_mono_l.
  destruct (decide (skip_while (Z.eqb 0) l = [])) as [->|Hne]; [simpl; lia|].
  pose proof (skip_length 256 ltac:(lia) l Hl Hne) as Hlow.
  pose proof (positional_range 32 ltac:(lia) _ (digits_skip 32 ds Hds)) as Hup.
  rewrite positional_skip, Hv in Hup by lia. set (m := length (skip_while (Z.eqb 0) l)) in *.
  assert (1 <= m)%nat by (subst m; destruct (skip_while (Z.eqb 0) l); simpl; [done|lia]).
  set (n := length (skip_while (Z.eqb 0) ds)) in *.
  assert (2 ^ (8 * (Z.of_nat m - 1)) < 2 ^ (5 * Z.of_nat n)) as Hlt.
  { rewrite !Z.pow_mul_r by lia. change (2 ^ 8) with 256. change (2 ^ 5) with 32. lia. }
  apply Z.pow_lt_mono_r_iff in Hlt; lia.
Qed.

Lemma c32_encode_length {E : Type} (L : list byte) (s : string) :
  c32_encode (E:=E) L = Ok s -> (length L <= String.length s)%nat.
Proof.
  destruct (c32_encode_spec (E:=E) L) as (ds & -> & Hds & Hz & Hv). intros [= <-].
  rewrite <-length_list_ascii, list_ascii_of_string_of_list_ascii, length_map.
  by apply c32_length_le.
Qed.

(** A single character decodes to its digit. *)
Lemma c32_decode_char (c : ascii) (d : Z) :
  c32_digit c = Some d -> c32_decode_ascii (String c EmptyString) = Ok [byte_of_Z d].
Proof.
  intros Hc. pose proof (c32_digit_range c d Hc) as Hd.
  pose proof (c32_decode_ascii_spec (String c EmptyString)) as Hs.
  assert (c32_digits (String c EmptyString) = Some [d]) as Hds by (unfold c32_digits; simpl; by rewrite Hc).
  rewrite Hds in Hs. destruct Hs as (L & -> & Hz & Hv). f_equal. apply map_byte_to_Z_inj.
  apply (digits_unique 256 ltac:(lia)); auto using digits_bytes; cbn [map]; rewrite byte_to_of_Z_small by lia.
  - by rewrite Hz.
  - rewrite Hv. done.
Qed.

Section address_lemmas.
Context {D : Digests} {L : DigestLaws D}.

Lemma length_checksum (data : list byte) : length (double_sha256_checksum data) = 4%nat.
Proof using L. unfold double_sha256_checksum. rewrite length_firstn, Sha256_length. done. Qed.

Lemma checksum_u32_ok {E : Type} (sum : list byte) :
  length sum = 4%nat -> checksum_u32 (E:=E) sum <> Panic.
Proof. destruct sum as [|? [|? [|? [|? ?]]]]; simpl; intros; done. Qed.

Lemma c32_check_encode_spec (version : Z) (data : list byte) :
  0 <= version < 32 ->
  exists s, c32_check_encode version data = Ok (String (c32_char version) s) /\
    c32_encode (E:=AddressError) (data ++ double_sha256_checksum ([byte_of_Z version] ++ data)) = Ok s /\
    is_ascii_str s = true /\ (length data + 4 <= String.length s)%nat /\
    c32_decode_ascii s = Ok (data ++ double_sha256_checksum ([byte_of_Z version] ++ data)).
Proof using L.
  intros Hv. unfold c32_check_encode. destruct (Z.leb_spec 32 version); [lia|].
  destruct (c32_decode_encode (E:=AddressError) (data ++ double_sha256_checksum ([byte_of_Z version] ++ data)))
    as (s & ds & He & Hd & Hdec).
  exists s. rewrite He, nth_error_C32 by done. split; [done|]. split; [done|].
  split; [by eapply c32_digits_ascii|]. split; [|done].
  apply c32_encode_length in He. rewrite length_app, length_checksum in He. done.
Qed.

Lemma c32_check_roundtrip (version : Z) (data : list byte) :
  0 <= version < 32 -> data <> [] ->
  exists s, c32_check_encode version data = Ok (String (c32_char version) s) /\
    (5 <= String.length s)%nat /\ c32_check_decode (String (c32_char version) s) = Ok (version, data).
Proof using L.
  intros Hv Hne. destruct (c32_check_encode_spec version data Hv) as (s & Henc & _ & Hascii & Hlen & Hdec).
  assert (1 <= length data)%nat by (destruct data; simpl; [done|lia]).
  exists s. split; [done|]. split; [lia|]. unfold c32_check_decode.
  assert (is_ascii_str (String (c32_char version) s) = true) as ->.
  { unfold is_ascii_str. cbn [all_chars]. by rewrite c32_char_ascii. }
  cbn [negb]. destruct s as [|c s]; [simpl in Hlen; lia|]. rewrite Hdec. cbn [out_bind].
  rewrite length_app, length_checksum. replace (length data + 4 - 4)%nat with (length data) by lia.
  destruct (Nat.ltb_spec (length data + 4) 5); [lia|]. rewrite take_app_length, drop_app_length.
  rewrite (c32_decode_char _ version) by by apply c32_digit_char. cbn [out_bind].
  rewrite bool_decide_eq_true_2 by done. cbn [out_bind expect_some nth_error app].
  by rewrite byte_to_of_Z_small by lia.
Qed.

(** What [c32_check_decode] accepts is an encoding, up to [c32_normalize]. *)
Lemma c32_check_decode_sound (s : string) (version : Z) (data : list byte) :
  c32_check_decode s = Ok (version, data) ->
  0 <= version < 32 /\ data <> [] /\ c32_check_encode version data = Ok (c32_normalize s).
Proof using L.
  unfold c32_check_decode. destruct (is_ascii_str s) eqn:Hascii; [|done]. cbn [negb].
  destruct s as [|v [|c s]]; [done..|]. intros H. apply out_bind_Ok in H as (sum_bytes & Hdec & H).
  destruct (Nat.ltb_spec (length sum_bytes) 5); [done|]. apply out_bind_Ok in H as (vb & Hvb & H).
  pose proof (c32_decode_ascii_spec (String v EmptyString)) as Hv. unfold c32_digits in Hv. simpl in Hv.
  destruct (c32_digit v) as [d|] eqn:Hd; [|simpl in Hv; congruence].
  pose proof (c32_digit_range v d Hd) as Hr. rewrite (c32_decode_char v d Hd) in *. simplify_eq. clear Hv.
  case_bool_decide as Hsum; [|out_inv; done]. cbn [expect_some nth_error app out_bind] in *. simplify_eq.
  rewrite byte_to_of_Z_small by lia. split; [done|]. split.
  { intros Hnil. apply (f_equal length) in Hnil. rewrite length_firstn in Hnil. simpl in Hnil. lia. }
  unfold c32_check_encode. destruct (Z.leb_spec 32 d); [lia|]. cbn [app] in *. rewrite Hsum, firstn_skipn.
  erewrite c32_encode_decode by done. rewrite nth_error_C32 by done. cbn [out_bind expect_some].
  unfold c32_normalize at 2. cbn [list_ascii_of_string map string_of_list_ascii]. by rewrite Hd.
Qed.

Lemma c32_decode_ascii_no_panic (s : string) : c32_decode_ascii s <> Panic.
Proof. pose proof (c32_decode_ascii_spec s) as H. destruct (c32_digits s); [destruct H as (? & -> & _)|rewrite H]; done. Qed.

Lemma c32_check_decode_no_panic (s : string) : c32_check_decode s <> Panic.
Proof using L.
  unfold c32_check_decode. destruct (negb (is_ascii_str s)); [done|]. destruct s as [|v [|c s]]; [done..|].
  apply out_bind_no_panic; [apply c32_decode_ascii_no_panic|]. intros sum _.
  destruct (Nat.ltb_spec (length sum) 5) as [|Hlen]; [done|].
  apply out_bind_no_panic; [apply c32_decode_ascii_no_panic|]. intros vb Hvb.
  case_bool_decide as Hsum.
  - destruct vb as [|b vb]; [|done]. destruct sum as [|x [|y sum]]; [simpl in Hlen; lia..|].
    destruct (length (x :: y :: sum) - 4)%nat eqn:E; [simpl in Hlen, E; lia|done].
  - apply out_bind_no_panic; [by apply checksum_u32_ok, length_checksum|]. intros u _.
    apply out_bind_no_panic; [|done]. apply checksum_u32_ok. rewrite length_skipn. lia.
Qed.

Lemma slice_from_1_char (c : ascii) (s : string) (v : Z) :
  0 <= v < 32 -> slice_from_1 (E:=AddressError) (String c (String (c32_char v) s)) = Ok (String (c32_char v) s).
Proof.
  intros Hv. pose proof (c32_char_ascii v Hv) as Ha. unfold is_ascii_char in Ha. unfold slice_from_1.
  bool_to_prop. destruct (Z.leb_spec 128 (Z.of_N (N_of_ascii (c32_char v)))); [lia|done].
Qed.

Lemma c32_address_ok (version : Z) (data : list byte) :
  0 <= version < 32 -> data <> [] ->
  exists ds, c32_address version data = Ok (String "S"%char (string_of_list_ascii (map c32_char ds))) /\
    digits 32 ds /\
    c32_address_decode (String "S"%char (string_of_list_ascii (map c32_char ds))) = Ok (version, data).
Proof using L.
  intros Hv Hne. unfold c32_address.
  destruct (c32_check_roundtrip version data Hv Hne) as (s & Hs & Hlen & Hdec). rewrite Hs.
  destruct (c32_check_encode_spec version data Hv) as (s' & Hs' & Henc & _).
  assert (s' = s) as -> by congruence.
  destruct (c32_encode_spec (E:=AddressError) (data ++ double_sha256_checksum ([byte_of_Z version] ++ data)))
    as (ds & Hds & Hr & _). assert (s = string_of_list_ascii (map c32_char ds)) as -> by congruence.
  exists (version :: ds). split; [done|]. split; [by constructor|].
  unfold c32_address_decode. cbn [map string_of_list_ascii String.length].
  set (s := string_of_list_ascii (map c32_char ds)) in *.
  destruct (Nat.leb_spec (S (S (String.length s))) 5); [lia|]. by rewrite slice_from_1_char.
Qed.

Lemma c32_address_no_panic (version : Z) (data : list byte) :
  0 <= version -> c32_address version data <> Panic.
Proof using L.
  intros Hv. unfold c32_address. apply out_bind_no_panic; [|done].
  destruct (Z.leb_spec 32 version) as [Hge|Hlt].
  - unfold c32_check_encode. destruct (Z.leb_spec 32 version); [done|lia].
  - destruct (c32_check_encode_spec version data ltac:(lia)) as (s & -> & _). done.
Qed.
End address_lemmas.

(** Addresses survive printing and parsing: for every version below 32 and
    every non-empty payload, [c32_address] succeeds and [c32_address_decode]
    recovers the version and the payload; a version of 32 or more is refused. *)
Lemma c32_address_roundtrip {D : Digests} {L : DigestLaws D} (version : Z) (data : list byte) :
  0 <= version <= u8_max -> data <> [] ->
  if version <? 32 then
    exists s, c32_address version data = Ok s /\ c32_address_decode s = Ok (version, data)
  else c32_address version data = Err (AddressErr.InvalidVersion version).
Proof.
  intros Hv Hne. destruct (Z.ltb_spec version 32) as [Hlt|Hge].
  - destruct (c32_address_ok version data ltac:(lia) Hne) as (ds & Henc & _ & Hdec). eauto.
  - unfold c32_address, c32_check_encode. destruct (Z.leb_spec 32 version); [done|lia].
Qed.

Lemma c32_address_roundtrip_witness :
  exists s, c32_address (D:=mixing_digests) 22 (repeat x00 20) = Ok s /\
    c32_address_decode (D:=mixing_digests) s = Ok (22, repeat x00 20).
Proof.
  apply (@c32_address_roundtrip mixing_digests mixing_digest_laws 22 (repeat x00 20)).
  - vm_compute. split; discriminate.
  - discriminate.
Defined.

(** An address that decodes was checked: its version is below 32, its
    payload is non-empty, and, leaving aside its first character (which is not
    looked at), letter case and look-alikes, it is the very string
    [c32_address] prints for what it decodes to. *)
Lemma c32_address_decode_sound {D : Digests} {L : DigestLaws D} (c : ascii) (s : string) (version : Z) (data : list byte) :
  c32_address_decode (String c s) = Ok (version, data) ->
  0 <= version < 32 /\ data <> [] /\ c32_address version data = Ok (String "S"%char (c32_normalize s)).
Proof.
  unfold c32_address_decode. destruct (Nat.leb _ 5); [done|]. intros H.
  apply out_bind_Ok in H as (rest & Hrest & H).
  assert (rest = s) as ->.
  { destruct s as [|c' s]; simpl in Hrest; [congruence|]. destruct (_ && _); congruence. }
  apply c32_check_decode_sound in H as (Hv & Hne & Henc). unfold c32_address. by rewrite Henc.
Qed.

Lemma c32_address_decode_sound_witness :
  exists s, c32_address (D:=mixing_digests) 26 [x01; x02] = Ok (String "S"%char (c32_normalize s)).
Proof.
  eexists. apply (@c32_address_decode_sound mixing_digests mixing_digest_laws "x"%char
    (match c32_check_encode (D:=mixing_digests) 26 [x01; x02] with Ok s => s | _ => EmptyString end)).
  vm_compute. reflexivity.
Defined.

(** [c32_address_decode] rejects malformed input with an error, except that
    it panics on a string of more than five bytes whose second byte continues
    a multi-byte character: the string is sliced before it is checked to be
    ASCII. *)
Lemma c32_address_decode_panics {D : Digests} {L : DigestLaws D} (c0 c1 : ascii) (s : string) :
  c32_address_decode (String c0 (String c1 s)) = Panic <->
  (4 <= String.length s)%nat /\ 128 <= Z.of_N (N_of_ascii c1) < 192.
Proof.
  unfold c32_address_decode. cbn [String.length].
  destruct (Nat.leb_spec (S (S (String.length s))) 5) as [Hle|Hgt]; [split; [done|lia]|].
  unfold slice_from_1. destruct (Z.leb_spec 128 (Z.of_N (N_of_ascii c1))) as [H1|H1];
    destruct (Z.ltb_spec (Z.of_N (N_of_ascii c1)) 192) as [H2|H2]; cbn [andb out_bind].
  - split; [intros _; lia|done].
  - split; [|lia]. intros H. by apply c32_check_decode_no_panic in H.
  - split; [|lia]. intros H. by apply c32_check_decode_no_panic in H.
  - lia.
Qed.

Lemma c32_address_decode_panics_witness :
  c32_address_decode (D:=mixing_digests) (String "195"%char (String "169"%char "aaaa")) = Panic.
Proof.
  apply (@c32_address_decode_panics mixing_digests mixing_digest_laws).
  split; [simpl; lia|]. vm_compute. split; [discriminate|reflexivity].
Defined.
