(* ===== verification/C32Old.v ===== *)
(** C32Old: the previous c32 implementation
    (stacks-common/src/address/c32_old.rs), which the sources keep to test that
    the table-driven one of [C32] is compatible with it, and the proof that it
    is.  The loops of [c32_encode] and [c32_decode] are the same text in both
    files; they differ in how characters are normalized and looked up, and in
    where leading zeros are counted. *)
From Stdlib Require Import ZArith Lia Strings.Byte Strings.String Strings.Ascii List Bool.
From stdpp Require Import base list strings.
From S2P Require Import Prelude Bytes Utf8 Codec Representations Hashes C32.
Open Scope Z_scope.

Module Old.
Definition c32_encode {E : Type} (input_bytes : list byte) : outcome E string :=
  let? '(result, carry, carry_bits) :=
    try_fold c32_encode_step ([], 0, 0) (rev (map byte_to_Z input_bytes)) in
  let? result := if 0 <? carry_bits then push_c32 result carry else Ok result in
  let result := pop_while (Ascii.eqb zero_char) result in
  let leading := take_while (fun b => byte_to_Z b =? 0) input_bytes in
  let result := result ++ map (fun _ => zero_char) leading in
  Ok (string_of_list_ascii (rev result)).

Definition map_string (f : ascii -> ascii) (s : string) : string :=
  string_of_list_ascii (map f (list_ascii_of_string s)).

(** [str::to_uppercase] on an ASCII character. *)
Definition to_uppercase (c : ascii) : ascii :=
  let n := nat_of_ascii c in
  if (97 <=? n)%nat && (n <=? 122)%nat then ascii_of_nat (n - 32) else c.

(** [str::replace] of one character by another. *)
Definition replace (from to c : ascii) : ascii := if Ascii.eqb c from then to else c.

(** Called on ASCII strings only. *)
Definition c32_normalize (input_str : string) : string :=
  map_string (replace "I" "1") (map_string (replace "L" "1") (map_string (replace "O" "0")
    (map_string to_uppercase input_str))).

(** [C32_CHARACTERS.find(x)] *)
Definition find (x : ascii) : option Z :=
  Z.of_nat ∘ fst <$> list_find (fun c => c = x) C32_CHARACTERS.

Definition c32_decode (input_str : string) : outcome AddressError (list byte) :=
  if negb (is_ascii_str input_str) then Err AddressErr.InvalidCrockford32 else
  let iter_c32_digits_opts := map find (rev (list_ascii_of_string (c32_normalize input_str))) in
  let iter_c32_digits := omap id iter_c32_digits_opts in
  if negb (Nat.eqb (length iter_c32_digits) (length iter_c32_digits_opts)) then
    Err AddressErr.InvalidCrockford32
  else
    let '(result, carry, carry_bits) := fold_left c32_decode_step iter_c32_digits ([], 0, 0) in
    let result := if 0 <? carry_bits then result ++ [as_u8 carry] else result in
    let result := pop_while (Z.eqb 0) result in
    let leading := take_while (Ascii.eqb zero_char) (list_ascii_of_string input_str) in
    let result := result ++ map (fun _ => 0) leading in
    Ok (map byte_of_Z (rev result)).

Section addresses.
Context {D : Digests}.

Definition double_sha256_checksum (data : list byte) : list byte :=
  let tmp := Sha256_digest data in
  let tmp_2 := Sha256_digest tmp in
  firstn 4 tmp_2.

Definition c32_check_encode (version : Z) (data : list byte) : outcome AddressError string :=
  if 32 <=? version then Err (AddressErr.InvalidVersion version) else
  let check_data := [byte_of_Z version] ++ data in
  let checksum := double_sha256_checksum check_data in
  let encoding_data := data ++ checksum in
  let? c32_string := c32_encode encoding_data in
  let? version_char := expect_some (nth_error C32_CHARACTERS (Z.to_nat version)) in
  Ok (String version_char c32_string).

Definition c32_check_decode (check_data_unsanitized : string) : outcome AddressError (Z * list byte) :=
  if negb (is_ascii_str check_data_unsanitized) then Err AddressErr.InvalidCrockford32 else
  if Nat.ltb (String.length check_data_unsanitized) 2 then Err AddressErr.InvalidCrockford32 else
  match c32_normalize check_data_unsanitized with
  | EmptyString => Panic
  | String version data =>
      let? data_sum_bytes := c32_decode data in
      if Nat.ltb (length data_sum_bytes) 5 then Err AddressErr.InvalidCrockford32 else
      let data_bytes := firstn (length data_sum_bytes - 4) data_sum_bytes in
      let expected_sum := skipn (length data_sum_bytes - 4) data_sum_bytes in
      let? version_bytes := c32_decode (String version EmptyString) in
      let check_data := version_bytes ++ data_bytes in
      let computed_sum := double_sha256_checksum check_data in
      if bool_decide (computed_sum = expected_sum) then
        let? version := expect_some (nth_error check_data 0) in
        Ok (byte_to_Z version, data_bytes)
      else
        let? computed_sum_u32 := checksum_u32 computed_sum in
        let? expected_sum_u32 := checksum_u32 expected_sum in
        Err (AddressErr.BadChecksum computed_sum_u32 expected_sum_u32)
  end.

Definition c32_address_decode (c32_address_str : string) : outcome AddressError (Z * list byte) :=
  if Nat.leb (String.length c32_address_str) 5 then Err AddressErr.InvalidCrockford32
  else
    let? rest := slice_from_1 c32_address_str in
    c32_check_decode rest.

Definition c32_address (version : Z) (data : list byte) : outcome AddressError string :=
  let? c32_string := c32_check_encode version data in
  Ok (String "S"%char c32_string).
End addresses.
End Old.

(** * Characters *)
Definition normalize_char (c : ascii) : ascii :=
  Old.replace "I" "1" (Old.replace "L" "1" (Old.replace "O" "0" (Old.to_uppercase c))).

Lemma c32_normalize_cons (c : ascii) (s : string) :
  Old.c32_normalize (String c s) = String (normalize_char c) (Old.c32_normalize s).
Proof. done. Qed.

(** After normalization the search in the alphabet is the look-up in the
    table, '0' is the only digit zero, and normalizing again changes nothing. *)
Lemma normalize_char_spec (c : ascii) :
  is_ascii_char c = true ->
  Old.find (normalize_char c) = c32_digit c /\ normalize_char (normalize_char c) = normalize_char c /\
  is_ascii_char (normalize_char c) = true /\
  (forall d, c32_digit c = Some d -> Ascii.eqb zero_char (normalize_char c) = (0 =? d)).
Proof.
  intros Hc. pose (ok c := bool_decide (Old.find (normalize_char c) = c32_digit c /\
    normalize_char (normalize_char c) = normalize_char c /\ is_ascii_char (normalize_char c) = true /\
    Ascii.eqb zero_char (normalize_char c) = default false (Z.eqb 0 <$> c32_digit c))).
  assert ((if is_ascii_char c then ok c else true) = true) as H.
  { clear Hc. revert c. apply ascii_forall. by vm_compute. }
  rewrite Hc in H. apply bool_decide_eq_true_1 in H as (? & ? & ? & Hd). repeat split; [done..|].
  intros d Hdd. by rewrite Hdd in Hd.
Qed.

Lemma normalize_ascii (s : string) : is_ascii_str s = true -> is_ascii_str (Old.c32_normalize s) = true.
Proof.
  unfold is_ascii_str. induction s as [|c s IH]; [done|]. rewrite c32_normalize_cons. cbn [all_chars].
  intros [Hc Hs]%andb_true_iff. rewrite IH by done. by destruct (normalize_char_spec c Hc) as (_ & _ & -> & _).
Qed.

Lemma normalize_chars (s : string) :
  is_ascii_str s = true ->
  map Old.find (list_ascii_of_string (Old.c32_normalize (Old.c32_normalize s))) = map c32_digit (list_ascii_of_string s).
Proof.
  unfold is_ascii_str. induction s as [|c s IH]; [done|]. rewrite !c32_normalize_cons. cbn [all_chars list_ascii_of_string map].
  intros [Hc Hs]%andb_true_iff. rewrite IH by done. destruct (normalize_char_spec c Hc) as (Hf & -> & _). by rewrite Hf.
Qed.

Lemma normalize_zeros (s : string) (ds : list Z) :
  is_ascii_str s = true -> c32_digits s = Some ds ->
  map (fun _ => 0) (take_while (Ascii.eqb zero_char) (list_ascii_of_string (Old.c32_normalize s))) =
  take_while (Z.eqb 0) ds.
Proof.
  unfold is_ascii_str, c32_digits. revert ds. induction s as [|c s IH]; intros ds; cbn [all_chars list_ascii_of_string].
  { by intros _ [= <-]. }
  intros [Hc Hs]%andb_true_iff H. simpl in H. apply bind_Some in H as (d & Hd & H).
  apply bind_Some in H as (ds' & Hds & H). injection H as <-.
  rewrite c32_normalize_cons. cbn [list_ascii_of_string take_while].
  destruct (normalize_char_spec c Hc) as (_ & _ & _ & Hz).
  rewrite (Hz d Hd). destruct (Z.eqb_spec 0 d) as [<-|]; [|done].
  cbn [map]. f_equal. by apply IH.
Qed.

(** * The two decoders *)
Lemma omap_id_map {A B : Type} (f : A -> option B) (l : list A) : omap id (map f l) = omap f l.
Proof. induction l as [|x l IH]; [done|]. csimpl. by rewrite IH. Qed.

(** On normalized input the old decoder is the new one on the original. *)
Lemma old_c32_decode (s : string) :
  is_ascii_str s = true -> Old.c32_decode (Old.c32_normalize s) = c32_decode_ascii s.
Proof.
  intros Ha. unfold Old.c32_decode, c32_decode_ascii. rewrite normalize_ascii by done. cbn [negb].
  rewrite !map_rev, normalize_chars by done. rewrite <-!map_rev, omap_id_map, length_map, length_rev, length_list_ascii.
  rewrite (Nat.eqb_sym (String.length s)). destruct (Nat.eqb_spec (length (omap c32_digit (rev (list_ascii_of_string s)))) (String.length s))
    as [Hlen|]; [|done]. cbn [negb].
  pose proof (omap_all c32_digit (list_ascii_of_string s)) as Hall. rewrite omap_rev in *. rewrite length_rev in Hlen.
  rewrite length_list_ascii in Hall. fold (c32_digits s) in Hall. destruct (c32_digits s) as [ds|] eqn:Hds; [|lia].
  by rewrite (normalize_zeros s ds), Hall, rev_involutive by done.
Qed.

Section compatible.
Context {D : Digests}.

Lemma old_c32_check_decode (s : string) : Old.c32_check_decode s = c32_check_decode s.
Proof.
  unfold Old.c32_check_decode, c32_check_decode. destruct (is_ascii_str s) eqn:Ha; [|done]. cbn [negb].
  destruct s as [|v [|c s]]; [done..|]. rewrite c32_normalize_cons. cbn [String.length Nat.ltb Nat.leb].
  assert (is_ascii_str (String v EmptyString) = true /\ is_ascii_str (String c s) = true) as [Hv Hs].
  { unfold is_ascii_str in *. cbn [all_chars] in *. apply andb_true_iff in Ha as [-> Ha]. by rewrite Ha. }
  change (String (normalize_char v) "") with (Old.c32_normalize (String v EmptyString)).
  by rewrite !old_c32_decode by done.
Qed.
End compatible.

(** The new c32 implementation is compatible with the old one.  Both print
    the same address or error for every version and payload, and both decode
    every string to the same version and payload or the same error, also where
    they panic. *)
Lemma c32_compatible {D : Digests} (version : Z) (data : list byte) (s : string) :
  c32_address version data = Old.c32_address version data /\
  c32_address_decode s = Old.c32_address_decode s.
Proof.
  split; [done|]. unfold c32_address_decode, Old.c32_address_decode. destruct (Nat.leb _ 5); [done|].
  destruct (slice_from_1 s); [|done..]. symmetry. apply old_c32_check_decode.
Qed.

(** The private decoders differ: the old one does not count a leading O as a
    zero.  Addresses are normalized first, so they are not affected. *)
Example c32_decode_differs :
  Old.c32_decode "O1" = Ok [x01] /\ c32_decode "O1" = Ok [x00; x01].
Proof. by vm_compute. Qed.
