(* ===== verification/Principals.v ===== *)
(** Principals: the textual form of principals, contract and trait identifiers
    (clarity/src/vm/types/mod.rs), on top of c32 addresses. *)
From Stdlib Require Import ZArith Lia Strings.Byte Strings.String Strings.Ascii List Bool.
From stdpp Require Import base list strings.
From S2P Require Import Prelude Bytes Utf8 Codec Representations Types Hashes C32.
Open Scope Z_scope.

Definition dot : ascii := "."%char.

(** [s.split_once(c)]: the text before and after the first [c]. *)
Fixpoint split_once (c : ascii) (s : string) : option (string * string) :=
  match s with
  | EmptyString => None
  | String x s =>
      if Ascii.eqb x c then Some (EmptyString, s)
      else match split_once c s with
           | Some (before, after) => Some (String x before, after)
           | None => None
           end
  end.

(** [s.splitn(n, c)] *)
Fixpoint splitn (n : nat) (c : ascii) (s : string) : list string :=
  match n with
  | O => []
  | S O => [s]
  | S n => match split_once c s with
           | Some (before, after) => before :: splitn n c after
           | None => [s]
           end
  end.

Definition str_contains (c : ascii) (s : string) : bool := negb (all_chars (fun x => negb (Ascii.eqb x c)) s).

Definition no_dot_message : string :=
  "Invalid principal literal: expected a `.` in a qualified contract name".

Section principals.
Context {D : Digests}.

Definition parse_standard_principal (literal : string) : outcome VmError StandardPrincipalData :=
  let? '(version, data) := map_err
    (fun x => Runtime (RuntimeErr.ParseError ("Invalid principal literal: " ++ AddressError_to_string x)))
    (c32_address_decode literal) in
  if negb (Nat.eqb (length data) 20) then
    Err (Runtime (RuntimeErr.ParseError "Invalid principal literal: Expected 20 data bytes."))
  else Ok (mkStandard (byte_of_Z version) data).

Definition QualifiedContractIdentifier_parse (literal : string) : outcome VmError QualifiedContractIdentifier :=
  match splitn 2 dot literal with
  | [split0; split1] =>
      let? sender := parse_standard_principal split0 in
      let? name := map_err Runtime (ContractName_try_from split1) in
      Ok (mkContractId sender name)
  | _ => Err (Runtime (RuntimeErr.ParseError no_dot_message))
  end.

Definition PrincipalData_parse (literal : string) : outcome VmError PrincipalData :=
  let literal :=
    match literal with
    | String c rest => if Ascii.eqb c "'"%char then rest else literal
    | EmptyString => literal
    end in
  if str_contains dot literal then
    let? contract_id := QualifiedContractIdentifier_parse literal in
    Ok (Contract contract_id)
  else
    let? p := parse_standard_principal literal in
    Ok (Standard p).

Definition TraitIdentifier_parse (literal : string)
  : outcome VmError (option StandardPrincipalData * string * string) :=
  match splitn 3 dot literal with
  | [split0; split1; split2] =>
      let? issuer :=
        match split0 with
        | EmptyString => Ok None
        | _ => let? p := parse_standard_principal split0 in Ok (Some p)
        end in
      let? contract_name := map_err Runtime (ContractName_try_from split1) in
      let? name := map_err Runtime (ClarityName_try_from split2) in
      Ok (issuer, contract_name, name)
  | _ => Err (Runtime (RuntimeErr.ParseError no_dot_message))
  end.

Definition TraitIdentifier_parse_fully_qualified (literal : string) : outcome VmError TraitIdentifier :=
  let? '(issuer, contract_name, name) := TraitIdentifier_parse literal in
  let? issuer := ok_or (Runtime RuntimeErr.BadTypeConstruction) issuer in
  Ok (mkTraitId name (mkContractId issuer contract_name)).

Definition TraitIdentifier_parse_sugared_syntax (literal : string) : outcome VmError (string * string) :=
  let? '(_, contract_name, name) := TraitIdentifier_parse literal in
  Ok (contract_name, name).

(** [c32_address] does not panic ([c32_address_no_panic]). *)
Definition StandardPrincipalData_to_address (self : StandardPrincipalData) : string :=
  match c32_address (byte_to_Z (sp_version self)) (sp_bytes self) with
  | Ok s => s
  | _ => "INVALID_C32_ADD"
  end.

Definition QualifiedContractIdentifier_to_string (self : QualifiedContractIdentifier) : string :=
  StandardPrincipalData_to_address (issuer self) ++ "." ++ qc_name self.

Definition PrincipalData_to_string (self : PrincipalData) : string :=
  match self with
  | Standard sender => StandardPrincipalData_to_address sender
  | Contract contract_identifier =>
      StandardPrincipalData_to_address (issuer contract_identifier) ++ "." ++ qc_name contract_identifier
  end.

Definition TraitIdentifier_to_string (self : TraitIdentifier) : string :=
  QualifiedContractIdentifier_to_string (ti_contract_identifier self) ++ "." ++ ti_name self.

Definition AssetIdentifier_to_string (self : AssetIdentifier) : string :=
  QualifiedContractIdentifier_to_string (ai_contract_identifier self) ++ "::" ++ asset_name self.
End principals.

(** * Splitting at dots *)
Lemma str_app_cons (c : ascii) (a b : string) : (String c a ++ b = String c (a ++ b))%string.
Proof. done. Qed.

Definition no_dot (s : string) : bool := all_chars (fun x => negb (Ascii.eqb x dot)) s.

Lemma str_app_assoc (a b c : string) : ((a ++ b) ++ c = a ++ (b ++ c))%string.
Proof. induction a as [|x a IH]; [done|]. by rewrite !str_app_cons, IH. Qed.

Lemma split_once_app (a b : string) : no_dot a = true -> split_once dot (a ++ "." ++ b) = Some (a, b).
Proof.
  unfold no_dot. induction a as [|c a IH]; intros H; [done|]. simpl in H. apply andb_true_iff in H as [Hc Ha].
  apply negb_true_iff in Hc.
  rewrite str_app_cons. cbn [split_once].
  by rewrite Hc, IH.
Qed.

Lemma split_once_inv (c : ascii) (s a b : string) :
  split_once c s = Some (a, b) -> s = (a ++ String c b)%string.
Proof.
  revert a. induction s as [|x s IH]; intros a H; simpl in H; [done|].
  destruct (Ascii.eqb_spec x c) as [->|].
  - by simplify_eq.
  - destruct (split_once c s) as [[a' b']|]; simplify_eq. by rewrite (IH a').
Qed.

Lemma splitn_2 (a b : string) : no_dot a = true -> splitn 2 dot (a ++ "." ++ b) = [a; b].
Proof. intros Ha. unfold splitn. by rewrite split_once_app. Qed.

Lemma splitn_3 (a b c : string) :
  no_dot a = true -> no_dot b = true -> splitn 3 dot ((a ++ "." ++ b) ++ "." ++ c) = [a; b; c].
Proof.
  intros Ha Hb. unfold splitn. rewrite !str_app_assoc. by rewrite !split_once_app.
Qed.

Lemma str_contains_dot (a b : string) : str_contains dot (a ++ "." ++ b) = true.
Proof.
  unfold str_contains. apply negb_true_iff. induction a as [|c a IH]; [done|].
  rewrite str_app_cons. cbn [all_chars].
  by rewrite IH, andb_false_r.
Qed.

Lemma ContractName_no_dot (s : string) : CONTRACT_NAME_REGEX s = true -> no_dot s = true.
Proof.
  unfold CONTRACT_NAME_REGEX. rewrite orb_true_iff. intros [H|H%String.eqb_eq]; [|by subst].
  assert (forall c, is_ascii_letter c || is_ascii_digit c || one_of "-_" c = true -> negb (Ascii.eqb c dot) = true) as Hc.
  { intros c Hc. pose proof (ascii_forall (fun c => implb (is_ascii_letter c || is_ascii_digit c || one_of "-_" c)
      (negb (Ascii.eqb c dot))) ltac:(by vm_compute) c) as Hi. cbv beta in Hi. by rewrite Hc in Hi. }
  destruct s as [|c s]; [done|]. simpl in H. apply andb_true_iff in H as [Hl Hs].
  unfold no_dot. cbn [all_chars]. rewrite Hc by by rewrite Hl. by apply (all_chars_impl _ _ s Hc).
Qed.

Lemma c32_char_no_dot (d : Z) : 0 <= d < 32 -> negb (Ascii.eqb (c32_char d) dot) = true.
Proof. revert d. apply c32_digits_forall. by vm_compute. Qed.

Lemma chars_no_dot (ds : list Z) : digits 32 ds -> no_dot (string_of_list_ascii (map c32_char ds)) = true.
Proof.
  induction 1 as [|d ds Hd _ IH]; [done|]. unfold no_dot in *. cbn [map string_of_list_ascii all_chars].
  by rewrite c32_char_no_dot, IH.
Qed.

(** * Round trips *)
Section principal_lemmas.
Context {D : Digests} {L : DigestLaws D}.

Lemma standard_principal_roundtrip (p : StandardPrincipalData) :
  StandardPrincipalData_wf p = true -> byte_to_Z (sp_version p) < 32 ->
  exists s, StandardPrincipalData_to_address p = String "S"%char s /\
    no_dot (StandardPrincipalData_to_address p) = true /\
    parse_standard_principal (StandardPrincipalData_to_address p) = Ok p.
Proof using L.
  unfold StandardPrincipalData_wf. intros Hlen%Nat.eqb_eq Hv. pose proof (byte_to_Z_range (sp_version p)).
  destruct (c32_address_ok (byte_to_Z (sp_version p)) (sp_bytes p)) as (ds & Henc & Hds & Hdec); [lia|by intros E; rewrite E in Hlen|].
  unfold StandardPrincipalData_to_address. rewrite Henc. eexists. split; [done|]. split.
  - unfold no_dot. cbn [all_chars]. by apply chars_no_dot.
  - unfold parse_standard_principal. rewrite Hdec. cbn [map_err out_bind]. rewrite Hlen. cbn [Nat.eqb negb].
    rewrite byte_of_to_Z. by destruct p.
Qed.

Lemma contract_id_roundtrip (c : QualifiedContractIdentifier) :
  QualifiedContractIdentifier_wf c = true -> byte_to_Z (sp_version (issuer c)) < 32 ->
  QualifiedContractIdentifier_parse (QualifiedContractIdentifier_to_string c) = Ok c.
Proof using L.
  unfold QualifiedContractIdentifier_wf. rewrite andb_true_iff. intros [Hi Hn] Hv.
  destruct (standard_principal_roundtrip (issuer c) Hi Hv) as (s & _ & Hdot & Hparse).
  unfold QualifiedContractIdentifier_parse, QualifiedContractIdentifier_to_string.
  rewrite splitn_2, Hparse by done. cbn [out_bind].
  rewrite (proj2 (ContractName_try_from_Ok (qc_name c) (qc_name c))) by done. by destruct c.
Qed.

(** Parsing yields principals of the right shape, with a printable version. *)
Lemma parse_standard_wf (s : string) (p : StandardPrincipalData) :
  parse_standard_principal s = Ok p -> StandardPrincipalData_wf p = true /\ byte_to_Z (sp_version p) < 32.
Proof using L.
  unfold parse_standard_principal. intros H. apply out_bind_Ok in H as ([v data] & Hd & H).
  apply map_err_Ok in Hd. destruct (Nat.eqb_spec (length data) 20) as [Hl|]; [|done]. simpl in H. simplify_eq.
  destruct s as [|c s]; [done|].
  assert (0 <= v < 32).
  { unfold c32_address_decode in Hd. destruct (Nat.leb _ 5); [done|]. apply out_bind_Ok in Hd as (r & _ & Hd).
    by apply c32_check_decode_sound in Hd as [? _]. }
  unfold StandardPrincipalData_wf. simpl. rewrite Hl, byte_to_of_Z_small by lia. split; [done|lia].
Qed.

Lemma parse_contract_wf (s : string) (c : QualifiedContractIdentifier) :
  QualifiedContractIdentifier_parse s = Ok c ->
  QualifiedContractIdentifier_wf c = true /\ byte_to_Z (sp_version (issuer c)) < 32.
Proof using L.
  unfold QualifiedContractIdentifier_parse. destruct (splitn 2 dot s) as [|a [|b []]]; try done. intros H.
  apply out_bind_Ok in H as (p & Hp & H). apply out_bind_Ok in H as (n & Hn & H). simplify_eq.
  apply map_err_Ok, ContractName_try_from_Ok in Hn as [-> Hn]. apply parse_standard_wf in Hp as [Hp Hv].
  unfold QualifiedContractIdentifier_wf. simpl. by rewrite Hp, Hn.
Qed.

Lemma principal_roundtrip (p : PrincipalData) (quoted : bool) :
  PrincipalData_wf p = true -> byte_to_Z (PrincipalData_version p) < 32 ->
  PrincipalData_parse (if quoted then String "'"%char (PrincipalData_to_string p) else PrincipalData_to_string p) = Ok p.
Proof using L.
  intros Hwf Hv.
  assert (exists s, PrincipalData_to_string p = String "S"%char s) as [s Hs].
  { destruct p as [p|c]; simpl in *.
    - destruct (standard_principal_roundtrip p Hwf Hv) as (s & Hs & _). eauto.
    - apply andb_true_iff in Hwf as [Hi _]. destruct (standard_principal_roundtrip (issuer c) Hi Hv) as (s & -> & _).
      eexists. by rewrite str_app_cons. }
  unfold PrincipalData_parse. set (lit := match (if quoted then _ else _) with EmptyString => _ | _ => _ end).
  assert (lit = PrincipalData_to_string p) as ->.
  { subst lit. destruct quoted; [done|]. by rewrite Hs. }
  destruct p as [p|c]; simpl in *.
  - destruct (standard_principal_roundtrip p Hwf Hv) as (_ & _ & Hdot & Hparse).
    unfold str_contains. unfold no_dot in Hdot. rewrite Hdot. cbn [negb]. by rewrite Hparse.
  - rewrite str_contains_dot.
    by rewrite (contract_id_roundtrip c Hwf Hv : QualifiedContractIdentifier_parse (_ ++ "." ++ _) = _).
Qed.

Lemma PrincipalData_parse_wf (s : string) (p : PrincipalData) :
  PrincipalData_parse s = Ok p -> PrincipalData_wf p = true /\ byte_to_Z (PrincipalData_version p) < 32.
Proof using L.
  unfold PrincipalData_parse. set (lit := match s with EmptyString => _ | _ => _ end).
  destruct (str_contains dot lit); intros H; apply out_bind_Ok in H as (x & Hx & H); simplify_eq; simpl.
  - by apply parse_contract_wf in Hx.
  - by apply parse_standard_wf in Hx.
Qed.
End principal_lemmas.

(** Principals survive printing and parsing: a well-formed principal with a
    printable version (below 32), standard or contract, with or without the
    optional leading quote, parses back to itself; and whatever [parse] accepts
    is such a principal. *)
Lemma principal_parse_print {D : Digests} {L : DigestLaws D} (p : PrincipalData) (quoted : bool) :
  (PrincipalData_wf p = true /\ byte_to_Z (PrincipalData_version p) < 32) <->
  PrincipalData_parse (if quoted then String "'"%char (PrincipalData_to_string p) else PrincipalData_to_string p) = Ok p.
Proof. split; [intros [? ?]; by apply principal_roundtrip|apply PrincipalData_parse_wf]. Qed.

Lemma principal_parse_print_witness :
  PrincipalData_parse (D:=mixing_digests)
    (PrincipalData_to_string (D:=mixing_digests) (Contract (mkContractId (mkStandard x16 (repeat x07 20)) "pox"))) =
  Ok (Contract (mkContractId (mkStandard x16 (repeat x07 20)) "pox")).
Proof.
  apply (@principal_parse_print mixing_digests mixing_digest_laws _ false). split; vm_compute; reflexivity.
Defined.

(** Trait identifiers survive printing and parsing in their fully qualified
    form. *)
Lemma trait_identifier_roundtrip {D : Digests} {L : DigestLaws D} (t : TraitIdentifier) :
  QualifiedContractIdentifier_wf (ti_contract_identifier t) = true -> ClarityName_valid (ti_name t) = true ->
  byte_to_Z (sp_version (issuer (ti_contract_identifier t))) < 32 ->
  TraitIdentifier_parse_fully_qualified (TraitIdentifier_to_string t) = Ok t.
Proof.
  destruct t as [name [iss cname]]. simpl. unfold QualifiedContractIdentifier_wf. rewrite andb_true_iff.
  intros [Hi Hc] Hn Hv. simpl in *.
  destruct (standard_principal_roundtrip iss Hi Hv) as (s & Hs & Hdot & Hparse).
  unfold TraitIdentifier_parse_fully_qualified, TraitIdentifier_parse, TraitIdentifier_to_string,
    QualifiedContractIdentifier_to_string. cbn [ti_contract_identifier ti_name issuer qc_name].
  rewrite splitn_3, Hs by (try done; apply andb_true_iff in Hc as [_ Hc]; by apply ContractName_no_dot).
  rewrite <-Hs, Hparse. cbn [out_bind].
  rewrite (proj2 (ContractName_try_from_Ok cname cname)) by done. cbn [map_err out_bind].
  by rewrite (proj2 (ClarityName_try_from_Ok name name)).
Qed.

Lemma trait_identifier_roundtrip_witness :
  let t := mkTraitId "token" (mkContractId (mkStandard x16 (repeat x07 20)) "defs") in
  TraitIdentifier_parse_fully_qualified (D:=mixing_digests) (TraitIdentifier_to_string (D:=mixing_digests) t) = Ok t.
Proof. apply (@trait_identifier_roundtrip mixing_digests mixing_digest_laws); vm_compute; reflexivity. Defined.

(** Printing confuses principals whose version is not printable: all
    standard principals of version 32 or more have the same text, so keys and
    events that carry it identify different accounts. *)
Lemma unprintable_principals_collide {D : Digests} (p q : StandardPrincipalData) :
  32 <= byte_to_Z (sp_version p) -> 32 <= byte_to_Z (sp_version q) ->
  PrincipalData_to_string (Standard p) = PrincipalData_to_string (Standard q).
Proof.
  intros Hp Hq. simpl. unfold StandardPrincipalData_to_address, c32_address, c32_check_encode.
  by rewrite (proj2 (Z.leb_le _ _) Hp), (proj2 (Z.leb_le _ _) Hq).
Qed.

Lemma unprintable_principals_collide_witness :
  PrincipalData_to_string (D:=mixing_digests) (Standard (mkStandard x20 (repeat x01 20))) =
  PrincipalData_to_string (D:=mixing_digests) (Standard (mkStandard x21 (repeat x02 20))).
Proof. apply (@unprintable_principals_collide mixing_digests); vm_compute; discriminate. Defined.
