(* ===== verification/Lexer.v ===== *)
(** Lexer: the lexer of Clarity source text ([lex] of
    clarity/src/vm/ast/parser/mod.rs) with the errors of the parser
    (clarity/src/vm/ast/errors.rs) and the literals it constructs. *)
From Stdlib Require Import ZArith Lia Strings.Byte Strings.String Strings.Ascii List Bool Arith.
From stdpp Require Import base list strings option pretty.
From S2P Require Import Prelude Bytes Utf8 Representations BTree Types Signatures Admission Values Hashes C32 Principals Regex.
Open Scope Z_scope.

(** A [ParseError] adds spans and a diagnostic to one of these. *)
Module ParseErr.
Inductive ParseErrors :=
| CostOverflow
| CostBalanceExceeded (total limit : ExecutionCost)
| MemoryBalanceExceeded (memory limit : Z)
| TooManyExpressions
| ExpressionStackDepthTooDeep
| FailedCapturingInput
| SeparatorExpected (found : string)
| SeparatorExpectedAfterColon (found : string)
| ProgramTooLarge
| IllegalVariableName (name : string)
| IllegalContractName (name : string)
| UnknownQuotedValue (value : string)
| FailedParsingIntValue (value : string)
| FailedParsingBuffer (value : string)
| FailedParsingHexValue (value err : string)
| FailedParsingPrincipal (value : string)
| FailedParsingField (value : string)
| FailedParsingRemainder (remainder : string)
| ClosingParenthesisUnexpected
| ClosingParenthesisExpected
| ClosingTupleLiteralUnexpected
| ClosingTupleLiteralExpected
| CircularReference (functions_names : list string)
| TupleColonExpected (index : Z)
| TupleCommaExpected (index : Z)
| TupleItemExpected (index : Z)
| NameAlreadyUsed (name : string)
| TraitReferenceNotAllowed
| ImportTraitBadSignature
| DefineTraitBadSignature
| ImplTraitBadSignature
| TraitReferenceUnknown (name : string)
| CommaSeparatorUnexpected
| ColonSeparatorUnexpected
| InvalidCharactersDetected
| InvalidEscaping
| CostComputationFailed (s : string).
End ParseErr.
Notation ParseErrors := ParseErr.ParseErrors.

(** * Tokens *)
Module Lex.
Inductive LexItem :=
| LeftParen
| RightParen
| LeftCurly
| RightCurly
| LiteralValue (length : Z) (value : Value)
| SugaredContractIdentifier (length : Z) (name : string)
| SugaredFieldIdentifier (length : Z) (contract name : string)
| FieldIdentifier (length : Z) (t : TraitIdentifier)
| TraitReference (length : Z) (name : string)
| VariableItem (name : string)
| CommaSeparator
| ColonSeparator
| Whitespace.
End Lex.
Notation LexItem := Lex.LexItem.

Module Token.
Inductive TokenType :=
| Whitespace
| Comma
| Colon
| LParens
| RParens
| LCurly
| RCurly
| StringASCIILiteral
| StringUTF8Literal
| HexStringLiteral
| UIntLiteral
| IntLiteral
| VariableToken
| TraitReferenceLiteral
| PrincipalLiteral
| SugaredContractIdentifierLiteral
| FullyQualifiedContractIdentifierLiteral
| SugaredFieldIdentifierLiteral
| FullyQualifiedFieldIdentifierLiteral.
End Token.
Notation TokenType := Token.TokenType.

Record LexMatcher := mkMatcher { matcher : regex; handler : TokenType }.

Inductive LexContext := ExpectNothing | ExpectClosing | ExpectClosingColon.

(** * The regular expressions *)
Definition quote : ascii := ascii_of_N 34.
Definition backslash : ascii := ascii_of_N 92.
Definition newline : ascii := ascii_of_N 10.
Definition tab : ascii := ascii_of_N 9.
(** [[ -~]] *)
Definition is_printable (c : ascii) : bool := let n := Z.of_N (N_of_ascii c) in (32 <=? n) && (n <=? 126).
Definition is_word (c : ascii) : bool := is_ascii_letter c || is_ascii_digit c || Ascii.eqb c "_"%char.
Definition is_alnum (c : ascii) : bool := is_ascii_letter c || is_ascii_digit c.
Definition is_xdigit (c : ascii) : bool := bool_decide (is_Some (to_digit16 c)).

Open Scope regex_scope.
Definition STANDARD_PRINCIPAL_REGEX : regex :=
  RRep 28 (Some 41%nat) (RClass "0123456789ABCDEFGHJKMNPQRSTVWXYZ").
Definition contract_name_regex : regex :=
  RChar is_ascii_letter · RRep 0 (Some 39%nat) (RChar is_alnum ∣ RClass "-_").
Definition CONTRACT_PRINCIPAL_REGEX : regex := STANDARD_PRINCIPAL_REGEX · RLit "."%char · contract_name_regex.
Definition clarity_name_regex : regex := RRep 1 (Some 128%nat) (RChar is_word ∣ RClass "-!?+<>=/*").
Definition field_name_regex : regex := RRep 1 (Some 128%nat) (RChar is_alnum ∣ RLit "-"%char).
(** [(\\")|([[ -~]&&[^"]])], any number of times *)
Definition string_regex : regex :=
  RStar (RLit backslash · RLit quote ∣ RChar (fun c => is_printable c && negb (Ascii.eqb c quote))).

Definition lex_matchers : list LexMatcher := [
  mkMatcher (RLit "u"%char · RLit quote · RValue string_regex · RLit quote) Token.StringUTF8Literal;
  mkMatcher (RLit quote · RValue string_regex · RLit quote) Token.StringASCIILiteral;
  mkMatcher (RLit ";"%char · RLit ";"%char · RStar (RChar is_printable)) Token.Whitespace;
  mkMatcher (RPlus (RLit newline)) Token.Whitespace;
  mkMatcher (RPlus (RChar (fun c => Ascii.eqb c " "%char || Ascii.eqb c tab))) Token.Whitespace;
  mkMatcher (RLit ","%char) Token.Comma;
  mkMatcher (RLit ":"%char) Token.Colon;
  mkMatcher (RLit "("%char) Token.LParens;
  mkMatcher (RLit ")"%char) Token.RParens;
  mkMatcher (RLit "{"%char) Token.LCurly;
  mkMatcher (RLit "}"%char) Token.RCurly;
  mkMatcher (RLit "<"%char · RValue (RPlus (RChar is_word ∣ RLit "-"%char)) · RLit ">"%char) Token.TraitReferenceLiteral;
  mkMatcher (RLit "0"%char · RLit "x"%char · RValue (RStar (RChar is_xdigit))) Token.HexStringLiteral;
  mkMatcher (RLit "u"%char · RValue (RPlus (RChar is_ascii_digit))) Token.UIntLiteral;
  mkMatcher (RValue (RRep 0 (Some 1%nat) (RLit "-"%char) · RPlus (RChar is_ascii_digit))) Token.IntLiteral;
  mkMatcher (RLit "'"%char · RValue (CONTRACT_PRINCIPAL_REGEX · RLit "."%char · field_name_regex))
    Token.FullyQualifiedFieldIdentifierLiteral;
  mkMatcher (RValue (RLit "."%char · contract_name_regex · RLit "."%char · field_name_regex)) Token.SugaredFieldIdentifierLiteral;
  mkMatcher (RLit "'"%char · RValue CONTRACT_PRINCIPAL_REGEX) Token.FullyQualifiedContractIdentifierLiteral;
  mkMatcher (RValue (RLit "."%char · contract_name_regex)) Token.SugaredContractIdentifierLiteral;
  mkMatcher (RLit "'"%char · RValue STANDARD_PRINCIPAL_REGEX) Token.PrincipalLiteral;
  mkMatcher (RValue clarity_name_regex) Token.VariableToken
].

(** [^\\u\{(?P<value>[[:xdigit:]]+)\}] *)
Definition wrapped_codepoints_matcher : regex :=
  RLit backslash · RLit "u"%char · RLit "{"%char · RValue (RPlus (RChar is_xdigit)) · RLit "}"%char.
Close Scope regex_scope.

(** * Literals *)
(** [from_str_radix(s, radix)]: an optional sign ([-] for signed types only),
    then at least one digit, in range. *)
Fixpoint digits_value (digit : ascii -> option Z) (radix acc : Z) (s : string) : option Z :=
  match s with
  | EmptyString => Some acc
  | String c s => d ← digit c; digits_value digit radix (acc * radix + d) s
  end.
Definition digit10 (c : ascii) : option Z :=
  if is_ascii_digit c then Some (Z.of_N (N_of_ascii c) - 48) else None.
Definition from_str_radix (digit : ascii -> option Z) (radix : Z) (t : int_ty) (s : string) : option Z :=
  n ← match s with
      | EmptyString => None
      | String c r =>
          if Ascii.eqb c "+"%char then match r with EmptyString => None | _ => digits_value digit radix 0 r end
          else if Ascii.eqb c "-"%char && (int_min t <? 0) then
            match r with EmptyString => None | _ => Z.opp <$> digits_value digit radix 0 r end
          else digits_value digit radix 0 s
      end;
  if (int_min t <=? n) && (n <=? int_max t) then Some n else None.

Fixpoint unescape_ascii_chars (allow_unicode_escape : bool) (escaped_str : string) : outcome ParseErrors string :=
  match escaped_str with
  | EmptyString => Ok EmptyString
  | String char rest =>
      if Ascii.eqb char backslash then
        match rest with
        | EmptyString => Err ParseErr.InvalidEscaping
        | String next rest =>
            let? pushed :=
              if Ascii.eqb next backslash then Ok (String backslash EmptyString)
              else if Ascii.eqb next quote then Ok (String quote EmptyString)
              else if Ascii.eqb next "n" then Ok (String newline EmptyString)
              else if Ascii.eqb next "t" then Ok (String tab EmptyString)
              else if Ascii.eqb next "r" then Ok (String (ascii_of_N 13) EmptyString)
              else if Ascii.eqb next "0" then Ok (String (ascii_of_N 0) EmptyString)
              else if Ascii.eqb next "u" && allow_unicode_escape then Ok (String backslash (String "u" EmptyString))
              else Err ParseErr.InvalidEscaping in
            let? unescaped := unescape_ascii_chars allow_unicode_escape rest in
            Ok (pushed ++ unescaped)%string
        end
      else let? unescaped := unescape_ascii_chars allow_unicode_escape rest in Ok (String char unescaped)
  end.

(** [Value::string_utf8_from_string_utf8_literal]: a code point that is out of
    range, or is a surrogate, panics.  Each round takes at least one character. *)
Fixpoint utf8_literal_chars (fuel : nat) (data : list (list byte)) (window : string) : outcome VmError (list (list byte)) :=
  match window with
  | EmptyString => Ok data
  | String c rest =>
      match fuel with
      | O => Panic
      | S fuel =>
          let? '(char, window) :=
            match captures wrapped_codepoints_matcher window with
            | Some (rest, Some scalar_value) =>
                let? u := expect_some (from_str_radix to_digit16 16 u32_ty scalar_value) in
                if is_scalar u then Ok (encode_utf8 u, rest) else Panic
            | _ => Ok ([byte_of_ascii c], rest)
            end in
          let data := data ++ [char] in
          let? _ := unchecked (StringUTF8Length_try_from usize_ty (zlen data)) in
          utf8_literal_chars fuel data window
      end
  end.
Definition string_utf8_from_string_utf8_literal (tokenized_str : string) : outcome VmError Value :=
  let? data := utf8_literal_chars (String.length tokenized_str) [] tokenized_str in
  Ok (VSequence (SeqString (CharUTF8 data))).

(** [Display] for [HexError] *)
Definition HexError_to_string (e : HexError) : string :=
  match e with
  | BadLength n => "bad length " ++ pretty (Z.of_nat n) ++ " for sha256d hex string"
  | BadCharacter c => "bad character " ++ String c " in sha256d hex string"
  end%string.

(** * The lexer *)
Definition get_value_or_err (captured : option string) : outcome ParseErrors string :=
  ok_or ParseErr.FailedCapturingInput captured.

(** The positions of the line breaks, in order; [pop] on the reversed vector
    takes the first. *)
Fixpoint lines_from (ix : Z) (input : string) : list Z :=
  match input with
  | EmptyString => []
  | String c input => if Ascii.eqb c newline then ix :: lines_from (ix + 1) input else lines_from (ix + 1) input
  end.
Definition get_lines_at (input : string) : list Z := lines_from 0 input.

Section lexer.
Context {D : Digests}.

(** Is the token one that may follow an atom? *)
Definition closes (h : TokenType) : bool :=
  match h with Token.RParens | Token.RCurly | Token.Whitespace | Token.Comma | Token.Colon => true | _ => false end.
Definition check_context (context : LexContext) (h : TokenType) (found : string) : outcome ParseErrors unit :=
  match context with
  | ExpectNothing => Ok tt
  | ExpectClosing => if closes h then Ok tt else Err (ParseErr.SeparatorExpected found)
  | ExpectClosingColon => if closes h then Ok tt else Err (ParseErr.SeparatorExpectedAfterColon found)
  end.
Definition next_context (h : TokenType) : LexContext :=
  match h with
  | Token.LParens | Token.Whitespace | Token.Comma | Token.LCurly => ExpectNothing
  | Token.Colon => ExpectClosingColon
  | _ => ExpectClosing
  end.

Definition make_token (h : TokenType) (captured : option string) : outcome ParseErrors LexItem :=
  match h with
  | Token.LParens => Ok Lex.LeftParen
  | Token.RParens => Ok Lex.RightParen
  | Token.Whitespace => Ok Lex.Whitespace
  | Token.Comma => Ok Lex.CommaSeparator
  | Token.Colon => Ok Lex.ColonSeparator
  | Token.LCurly => Ok Lex.LeftCurly
  | Token.RCurly => Ok Lex.RightCurly
  | Token.VariableToken =>
      let? value := get_value_or_err captured in
      if str_contains "#"%char value then Err (ParseErr.IllegalVariableName value) else Ok (Lex.VariableItem value)
  | Token.UIntLiteral =>
      let? str_value := get_value_or_err captured in
      let? n := ok_or (ParseErr.FailedParsingIntValue str_value) (from_str_radix digit10 10 u128_ty str_value) in
      Ok (Lex.LiteralValue (str_len str_value) (VUInt n))
  | Token.IntLiteral =>
      let? str_value := get_value_or_err captured in
      let? n := ok_or (ParseErr.FailedParsingIntValue str_value) (from_str_radix digit10 10 i128_ty str_value) in
      Ok (Lex.LiteralValue (str_len str_value) (VInt n))
  | Token.FullyQualifiedContractIdentifierLiteral =>
      let? str_value := get_value_or_err captured in
      let? parsed := map_err (fun _ => ParseErr.FailedParsingPrincipal str_value) (QualifiedContractIdentifier_parse str_value) in
      Ok (Lex.LiteralValue (str_len str_value) (VPrincipal (Contract parsed)))
  | Token.SugaredContractIdentifierLiteral =>
      let? str_value := get_value_or_err captured in
      let? parsed := map_err (fun _ => ParseErr.FailedParsingPrincipal str_value)
        (ContractName_try_from (substring 1 (String.length str_value - 1) str_value)) in
      Ok (Lex.SugaredContractIdentifier (str_len str_value) parsed)
  | Token.FullyQualifiedFieldIdentifierLiteral =>
      let? str_value := get_value_or_err captured in
      let? parsed := map_err (fun _ => ParseErr.FailedParsingField str_value) (TraitIdentifier_parse_fully_qualified str_value) in
      Ok (Lex.FieldIdentifier (str_len str_value) parsed)
  | Token.SugaredFieldIdentifierLiteral =>
      let? str_value := get_value_or_err captured in
      let? '(contract_name, field_name) :=
        map_err (fun _ => ParseErr.FailedParsingField str_value) (TraitIdentifier_parse_sugared_syntax str_value) in
      Ok (Lex.SugaredFieldIdentifier (str_len str_value) contract_name field_name)
  | Token.PrincipalLiteral =>
      let? str_value := get_value_or_err captured in
      let? parsed := map_err (fun _ => ParseErr.FailedParsingPrincipal str_value) (parse_standard_principal str_value) in
      Ok (Lex.LiteralValue (str_len str_value) (VPrincipal (Standard parsed)))
  | Token.TraitReferenceLiteral =>
      let? str_value := get_value_or_err captured in
      let? data := map_err (fun _ => ParseErr.IllegalVariableName str_value) (ClarityName_try_from str_value) in
      Ok (Lex.TraitReference (str_len str_value) data)
  | Token.HexStringLiteral =>
      let? str_value := get_value_or_err captured in
      let? byte_vec := map_err (fun x => ParseErr.FailedParsingHexValue str_value (HexError_to_string x)) (hex_bytes str_value) in
      let? value := map_err (fun _ => ParseErr.FailedParsingBuffer str_value) (buff_from byte_vec) in
      Ok (Lex.LiteralValue (str_len str_value) value)
  | Token.StringASCIILiteral =>
      let? str_value := get_value_or_err captured in
      let? unescaped_str := unescape_ascii_chars false str_value in
      let? value := map_err (fun _ => ParseErr.InvalidCharactersDetected) (string_ascii_from_bytes (as_bytes unescaped_str)) in
      Ok (Lex.LiteralValue (str_len str_value) value)
  | Token.StringUTF8Literal =>
      let? str_value := get_value_or_err captured in
      let? unescaped_str := unescape_ascii_chars true str_value in
      let? value := map_err (fun _ => ParseErr.InvalidCharactersDetected) (string_utf8_from_string_utf8_literal unescaped_str) in
      Ok (Lex.LiteralValue (str_len str_value) value)
  end.

(** The first matcher that matches, with the rest of the input. *)
Fixpoint find_match (matchers : list LexMatcher) (current_slice : string) : option (TokenType * string * option string) :=
  match matchers with
  | [] => None
  | m :: matchers =>
      match captures (matcher m) current_slice with
      | Some (rest, captured) => Some (handler m, rest, captured)
      | None => find_match matchers current_slice
      end
  end.

(** The position of the lexer: the line breaks ahead, the line, the column, and
    the number of characters munched. *)
Record Cursor := mkCursor { line_breaks : list Z; current_line : Z; column_pos : Z; munch_index : Z }.

(** A line break was passed: a new line begins. *)
Definition next_line (self : Cursor) : outcome ParseErrors Cursor :=
  match line_breaks self with
  | next_line_ix :: rest =>
      if next_line_ix <? munch_index self then
        let? line := ok_or ParseErr.ProgramTooLarge (checked_add u32_ty (current_line self) 1) in
        Ok (mkCursor rest line 1 (munch_index self))
      else Ok self
  | [] => Ok self
  end.
(** [munch_index += len; column_pos += len as u32] *)
Definition advance (self : Cursor) (len : Z) : outcome ParseErrors Cursor :=
  let? column := expect_some (checked_add u32_ty (column_pos self) (as_u32 len)) in
  Ok (mkCursor (line_breaks self) (current_line self) column (munch_index self + len)).

(** The loop of [lex].  Every match takes at least one character, so that the
    length of the input is fuel enough. *)
Fixpoint lex_loop (fuel : nat) (context : LexContext) (self : Cursor) (input : string)
  : outcome ParseErrors (list (LexItem * Z * Z)) :=
  match input with
  | EmptyString => Ok []
  | _ =>
      match fuel with
      | O => Panic
      | S fuel =>
          let? self := next_line self in
          match find_match lex_matchers input with
          | None => Err (ParseErr.FailedParsingRemainder input)
          | Some (h, rest, captured) =>
              let whole_match := taken input rest in
              let? _ := check_context context h whole_match in
              let? token := make_token h captured in
              let? self' := advance self (str_len whole_match) in
              let? result := lex_loop fuel (next_context h) self' rest in
              Ok ((token, current_line self, column_pos self) :: result)
          end
      end
  end.

Definition lex (input : string) : outcome ParseErrors (list (LexItem * Z * Z)) :=
  lex_loop (String.length input) ExpectNothing (mkCursor (get_lines_at input) 1 1 0) input.
End lexer.

(** * Termination *)
(** No matcher matches the empty text, so that every match takes a character. *)
Lemma find_match_shorter input h rest captured :
  find_match lex_matchers input = Some (h, rest, captured) -> (String.length rest < String.length input)%nat.
Proof.
  assert (Forall (fun m => nullable (matcher m) = false) lex_matchers) as Hall.
  { apply List.Forall_forall. intros m Hm. apply negb_true_iff. revert m Hm. by apply forallb_forall; vm_compute. }
  induction Hall as [|m ms Hm _ IH]; [done|]. cbn [find_match]. destruct (captures (matcher m) input) as [[r c]|] eqn:Hc; [|exact IH].
  intros [= <- <- <-]. by eapply captures_shorter.
Qed.

(** The lexer ends: more rounds than there are characters make no difference. *)
Lemma lex_enough_fuel {D : Digests} fuel fuel' context self input :
  (String.length input <= fuel)%nat -> (String.length input <= fuel')%nat ->
  lex_loop fuel context self input = lex_loop fuel' context self input.
Proof.
  revert fuel' context self input. induction fuel as [|fuel IH]; intros fuel' context self input H1 H2.
  { destruct input; [by destruct fuel'|simpl in H1; lia]. }
  destruct fuel' as [|fuel']; [destruct input; [done|simpl in H2; lia]|].
  destruct input as [|c t]; [done|]. cbn [lex_loop]. destruct (next_line self) as [self1| |]; cbn [out_bind]; [|done..].
  destruct (find_match lex_matchers (String c t)) as [[[h rest] captured]|] eqn:Hm; [|done]. apply find_match_shorter in Hm.
  destruct (check_context _ _ _); cbn [out_bind]; [|done..]. destruct (make_token _ _); cbn [out_bind]; [|done..].
  destruct (advance _ _); cbn [out_bind]; [|done..]. by rewrite (IH fuel') by (simpl in *; lia).
Qed.
