(* ===== verification/PrintLex.v ===== *)
(** PrintLex: what the lexer makes of a token that is written out and followed by
    white space. *)
From Stdlib Require Import ZArith Lia Strings.Byte Strings.String Strings.Ascii List Bool Arith.
From stdpp Require Import base list strings option pretty.
From S2P Require Import Prelude Bytes Utf8 Codec Representations BTree Types Signatures Admission Values Hashes C32 Principals Regex Lexer.
Open Scope Z_scope.
#[local] Arguments String.append : simpl nomatch.

(** The end of the text, or a space. *)
Definition ends (rest : string) : Prop := rest = EmptyString \/ exists r, rest = String " " r.

Lemma ends_stop p rest : p " "%char = false -> ends rest -> stops p rest.
Proof. intros Hp [->|[r ->]]; [apply stops_nil|by apply stops_cons]. Qed.

Lemma find_match_skip m ms s : captures (matcher m) s = None -> find_match (m :: ms) s = find_match ms s.
Proof. intros H. simpl. by rewrite H. Qed.
Lemma find_match_here m ms s rest cap :
  captures (matcher m) s = Some (rest, cap) -> find_match (m :: ms) s = Some (handler m, rest, cap).
Proof. intros H. simpl. by rewrite H. Qed.

Lemma find_match_skips ms1 ms2 s :
  Forall (fun m => captures (matcher m) s = None) ms1 -> find_match (ms1 ++ ms2) s = find_match ms2 s.
Proof. induction 1 as [|m ms1 Hm _ IH]; [done|]. rewrite <-IH. by apply find_match_skip. Qed.

(** The matchers that do not match a text that starts with [c]. *)
Definition not_started (c : ascii) (m : LexMatcher) : bool := negb (nullable (matcher m)) && negb (first (matcher m) c).
Lemma captures_not_started c s m : not_started c m = true -> captures (matcher m) (String c s) = None.
Proof.
  unfold not_started. intros H. apply andb_true_iff in H as [H1 H2]. apply negb_true_iff in H1, H2. by apply rmatch_none.
Qed.
Lemma find_match_started ms1 ms2 c s :
  forallb (not_started c) ms1 = true -> find_match (ms1 ++ ms2) (String c s) = find_match ms2 (String c s).
Proof.
  intros H. apply find_match_skips, List.Forall_forall. intros m Hm. apply captures_not_started.
  revert m Hm. by apply forallb_forall.
Qed.
(** The text starts none of the first [n] matchers. *)
Lemma lex_skip (n : nat) c s :
  forallb (not_started c) (firstn n lex_matchers) = true ->
  find_match lex_matchers (String c s) = find_match (skipn n lex_matchers) (String c s).
Proof. intros H. rewrite <-(firstn_skipn n lex_matchers) at 1. by apply find_match_started. Qed.

(** A boolean fact about all characters with a property. *)
Lemma ascii_check (p q : ascii -> bool) :
  forallb (fun n => implb (p (ascii_of_nat n)) (q (ascii_of_nat n))) (seq 0 256) = true -> forall c, p c = true -> q c = true.
Proof. intros H c Hp. pose proof (ascii_forall (fun c => implb (p c) (q c)) H c) as Hc. simpl in Hc. by rewrite Hp in Hc. Qed.

(** Prove a boolean fact about the character that [H] is about, by evaluation. *)
Ltac by_chars H :=
  match type of H with
  | ?p ?c = true => revert H; clear; revert c; apply (ascii_check p); by vm_compute
  end.

(** * Names *)
Definition name_char (c : ascii) : bool := is_word c || one_of "-!?+<>=/*" c.
Definition variable_matcher : LexMatcher := mkMatcher (RValue clarity_name_regex) Token.VariableToken.

Lemma single_class cs : single (RClass cs) (one_of cs).
Proof. apply single_char. Qed.
Lemma single_lit c : single (RLit c) (Ascii.eqb c).
Proof. apply single_char. Qed.
#[export] Hint Resolve single_class single_lit : regex.

(** A group that repeats a class takes all it can. *)
Lemma captures_value min max r p t rest :
  single r p -> all p t -> stops p rest -> (min <= String.length t)%nat ->
  (String.length t <= match max with Some n => n | None => String.length t end)%nat ->
  captures (RValue (RRep min max r)) (t ++ rest) = Some (rest, Some t).
Proof.
  intros Hr Ht Hs Hmin Hmax. unfold captures. cbn [rmatch].
  apply (rep_longest _ p); [done|done|done|destruct max; rewrite ?str_length_app; lia|done|]. by rewrite taken_app.
Qed.

Lemma variable_captures name rest :
  all name_char name -> (1 <= String.length name <= 128)%nat -> stops name_char rest ->
  captures (matcher variable_matcher) (name ++ rest) = Some (rest, Some name).
Proof.
  intros Hn [Hl1 Hl2] Hs.
  exact (captures_value 1 (Some 128%nat) _ name_char name rest
    (single_alt _ _ _ _ (single_char _) (single_class _)) Hn Hs Hl1 Hl2).
Qed.

Lemma lex_skip_class (n : nat) (p : ascii -> bool) c s :
  forallb (fun i => implb (p (ascii_of_nat i)) (forallb (not_started (ascii_of_nat i)) (firstn n lex_matchers))) (seq 0 256) = true ->
  p c = true -> find_match lex_matchers (String c s) = find_match (skipn n lex_matchers) (String c s).
Proof. intros H Hp. apply lex_skip. by apply (ascii_check p (fun c => forallb (not_started c) (firstn n lex_matchers))). Qed.

(** A text on which [r] cannot start. *)
Lemma captures_stop r s : nullable r = false -> stops (first r) s -> captures r s = None.
Proof. intros Hn Hs. destruct s as [|c s]; [by apply rmatch_empty|]. apply rmatch_none; [done|by apply (Hs c s)]. Qed.
Lemma captures_lit c r s : captures (RSeq (RLit c) r) (String c s) = captures r s.
Proof. unfold captures. simpl. by rewrite Ascii.eqb_refl. Qed.
Lemma captures_lit_stop c r s : nullable r = false -> stops (first r) s -> captures (RSeq (RLit c) r) (String c s) = None.
Proof. rewrite captures_lit. apply captures_stop. Qed.
Lemma stops_check (p q : ascii -> bool) s :
  stops p s -> forallb (fun n => implb (q (ascii_of_nat n)) (p (ascii_of_nat n))) (seq 0 256) = true -> stops q s.
Proof.
  intros Hs H c s' Heq. specialize (Hs c s' Heq). destruct (q c) eqn:Hq; [|done].
  pose proof (ascii_check q p H c Hq). congruence.
Qed.

(** A letter other than [u] starts a variable. *)
Lemma letter_lexes c s : is_ascii_letter c = true -> c <> "u"%char ->
  find_match lex_matchers (String c s) = find_match [variable_matcher] (String c s).
Proof.
  intros Hc Hu. apply (lex_skip_class 20 (fun c => is_ascii_letter c && negb (Ascii.eqb c "u"%char))); [by vm_compute|].
  rewrite Hc. simpl. apply negb_true_iff. by apply Ascii.eqb_neq.
Qed.
(** So does [u], unless a digit or a quote follows. *)
Lemma u_lexes s : stops (fun c => is_ascii_digit c || Ascii.eqb quote c) s ->
  find_match lex_matchers (String "u" s) = find_match [variable_matcher] (String "u" s).
Proof.
  intros Hs. unfold lex_matchers.
  rewrite find_match_skip by (apply captures_lit_stop; [done|]; by apply (stops_check _ _ _ Hs)).
  rewrite (find_match_started (firstn 12 (skipn 1 lex_matchers)) (skipn 13 lex_matchers)) by done. simpl skipn.
  rewrite find_match_skip by (apply captures_lit_stop; [done|]; by apply (stops_check _ _ _ Hs)).
  by rewrite (find_match_started (firstn 6 (skipn 14 lex_matchers)) [variable_matcher]) by done.
Qed.

(** A name that is read as one: not an unsigned integer. *)
Definition not_uint (name : string) : bool :=
  match name with String c (String d _) => negb (Ascii.eqb c "u" && is_ascii_digit d) | _ => true end.

Lemma name_chars name : CLARITY_NAME_REGEX name = true -> all name_char name.
Proof.
  unfold CLARITY_NAME_REGEX. intros H. apply orb_true_iff in H as [H|H]; [apply orb_true_iff in H as [H|H]|].
  - unfold letter_then in H. destruct name as [|c t]; [done|]. apply andb_true_iff in H as [Hc Ht]. simpl.
    apply andb_true_iff. split; [unfold name_char, is_word; by rewrite Hc|]. clear Hc. induction t as [|d t IH]; [done|].
    simpl in Ht |- *. apply andb_true_iff in Ht as [Hd Ht]. rewrite IH by done. rewrite andb_true_r. revert d Hd.
    apply ascii_check. by vm_compute.
  - destruct name as [|c [|]]; try done. simpl. rewrite andb_true_r. revert c H. apply (ascii_check (one_of "-+=/*")). by vm_compute.
  - destruct name as [|c [|d [|]]]; try done; simpl.
    + rewrite andb_true_r. revert c H. apply (ascii_check (one_of "<>")). by vm_compute.
    + apply andb_true_iff in H as [Hc Hd]. apply Ascii.eqb_eq in Hd as ->. change (name_char "=") with true. rewrite andb_true_r.
      revert c Hc. apply (ascii_check (one_of "<>")). by vm_compute.
Qed.

Lemma one_of_cases cs c : one_of cs c = true -> In c (list_ascii_of_string cs).
Proof. induction cs as [|d cs IH]; simpl; [done|]. intros H. apply orb_true_iff in H as [->%Ascii.eqb_eq|H]; auto. Qed.

(** Names that only the last matcher matches. *)
Lemma symbol_lexes name rest :
  all name_char name -> (1 <= String.length name <= 128)%nat -> stops name_char rest ->
  Forall (fun m => captures (matcher m) (name ++ rest) = None) (firstn 20 lex_matchers) ->
  find_match lex_matchers (name ++ rest) = Some (Token.VariableToken, rest, Some name).
Proof.
  intros Hn Hl Hs H. rewrite <-(firstn_skipn 20 lex_matchers). rewrite find_match_skips by done.
  apply find_match_here. by apply variable_captures.
Qed.

Lemma variable_lexes name rest :
  ClarityName_valid name = true -> not_uint name = true -> ends rest ->
  find_match lex_matchers (name ++ rest) = Some (Token.VariableToken, rest, Some name).
Proof.
  intros Hv Hu Hends. unfold ClarityName_valid, MAX_STRING_LEN, str_len in Hv. apply andb_true_iff in Hv as [Hlen Hv]. bool_to_prop.
  pose proof (name_chars name Hv) as Hall. pose proof (ends_stop name_char rest eq_refl Hends) as Hstop.
  unfold CLARITY_NAME_REGEX in Hv. apply orb_true_iff in Hv as [Hv|Hv]; [apply orb_true_iff in Hv as [Hv|Hv]|].
  - destruct name as [|c t]; [done|]. simpl in Hv. apply andb_true_iff in Hv as [Hc _].
    assert (find_match lex_matchers ((String c t) ++ rest) = find_match [variable_matcher] ((String c t) ++ rest)) as ->.
    { cbn [append]. destruct (decide (c = "u"%char)) as [->|Hne]; [apply u_lexes|by apply letter_lexes].
      destruct t as [|d t]; cbn [append]; [by apply ends_stop|]. apply stops_cons. simpl in Hu, Hall.
      apply andb_true_iff in Hall as [Hd _]. apply negb_true_iff in Hu. rewrite Hu. apply orb_false_iff. split; [done|].
      apply negb_true_iff. by_chars Hd. }
    apply find_match_here. apply variable_captures; [done|simpl in *; lia|done].
  - destruct name as [|c [|]]; try done. apply one_of_cases in Hv. simpl in Hv.
    apply symbol_lexes; [done|simpl; lia|done|]. destruct Hends as [->|[r ->]]; destruct_or! Hv; subst; try done; by repeat constructor.
  - destruct name as [|c [|d [|]]]; try done; (apply symbol_lexes; [done|simpl; lia|done|]).
    + apply one_of_cases in Hv. destruct Hends as [->|[r ->]]; simpl in Hv; destruct_or! Hv; subst; try done; by repeat constructor.
    + apply andb_true_iff in Hv as [Hc Hd]. apply Ascii.eqb_eq in Hd as ->. apply one_of_cases in Hc.
      destruct Hends as [->|[r ->]]; simpl in Hc; destruct_or! Hc; subst; try done; by repeat constructor.
Qed.

(** * Separators *)
Lemma captures_rep min max r p t rest :
  single r p -> all p t -> stops p rest -> (min <= String.length t)%nat ->
  (String.length t <= match max with Some n => n | None => String.length t end)%nat ->
  captures (RRep min max r) (t ++ rest) = Some (rest, None).
Proof.
  intros Hr Ht Hs Hmin Hmax. unfold captures. rewrite rmatch_rep.
  apply (rep_longest _ p); [done|done|done|destruct max; rewrite ?str_length_app; lia|done|done].
Qed.

Definition is_blank (c : ascii) : bool := Ascii.eqb c " "%char || Ascii.eqb c tab.
Lemma space_lexes rest : stops is_blank rest ->
  find_match lex_matchers (String " " rest) = Some (Token.Whitespace, rest, None).
Proof.
  intros Hs. rewrite (lex_skip 4) by done. cbn [skipn lex_matchers].
  apply (find_match_here (mkMatcher (RPlus (RChar is_blank)) Token.Whitespace)).
  by apply (captures_rep 1 None _ is_blank (String " " EmptyString) rest (single_char _)).
Qed.

Lemma punctuation_lexes n c h rest :
  forallb (not_started c) (firstn n lex_matchers) = true -> skipn n lex_matchers = mkMatcher (RLit c) h :: skipn (S n) lex_matchers ->
  find_match lex_matchers (String c rest) = Some (h, rest, None).
Proof.
  intros H Hn. rewrite (lex_skip n) by done. rewrite Hn. apply (find_match_here (mkMatcher (RLit c) h)).
  unfold captures. simpl. by rewrite Ascii.eqb_refl.
Qed.

(** * Numbers *)
Lemma uint_lexes t rest : all is_ascii_digit t -> (1 <= String.length t)%nat -> ends rest ->
  find_match lex_matchers (String "u" (t ++ rest)) = Some (Token.UIntLiteral, rest, Some t).
Proof.
  intros Ht Hl Hends. unfold lex_matchers.
  rewrite find_match_skip.
  2: { apply captures_lit_stop; [done|]. destruct t as [|d t]; [simpl in Hl; lia|]. cbn [append]. apply stops_cons.
       simpl in Ht. apply andb_true_iff in Ht as [Hd _]. apply negb_true_iff. by_chars Hd. }
  rewrite (find_match_started (firstn 12 (skipn 1 lex_matchers)) (skipn 13 lex_matchers)) by done. simpl skipn.
  apply (find_match_here (mkMatcher (RSeq (RLit "u"%char) (RValue (RPlus (RChar is_ascii_digit)))) Token.UIntLiteral)).
  cbn [matcher]. rewrite captures_lit.
  apply (captures_value 1 None _ is_ascii_digit); [apply single_char|done|by apply ends_stop|done|done].
Qed.

(** An integer: digits, after a sign or not. *)
Definition int_matcher : LexMatcher :=
  mkMatcher (RValue (RSeq (RRep 0 (Some 1%nat) (RLit "-"%char)) (RPlus (RChar is_ascii_digit)))) Token.IntLiteral.

Lemma int_captures (sign t rest : string) : sign = EmptyString \/ sign = "-"%string ->
  all is_ascii_digit t -> (1 <= String.length t)%nat -> ends rest ->
  captures (matcher int_matcher) (sign ++ (t ++ rest)) = Some (rest, Some (sign ++ t)%string).
Proof.
  intros Hsign Ht Hl Hends. unfold captures. cbn [matcher int_matcher rmatch].
  apply (rep_longest _ (Ascii.eqb "-"%char) (single_lit _) sign); [by destruct Hsign as [->| ->]| |by destruct Hsign as [->| ->]; simpl; lia|lia|].
  - destruct t as [|d t]; [simpl in Hl; lia|]. cbn [append]. apply stops_cons. simpl in Ht. apply andb_true_iff in Ht as [Hd _].
    apply negb_true_iff. by_chars Hd.
  - unfold RPlus. rewrite rmatch_rep.
    apply (rep_longest _ is_ascii_digit (single_char _)); [done|by apply ends_stop|rewrite str_length_app; lia|done|].
    by rewrite <-text_app_assoc, taken_app.
Qed.

Lemma int_lexes (sign t rest : string) : sign = EmptyString \/ sign = "-"%string ->
  all is_ascii_digit t -> (1 <= String.length t)%nat -> ends rest ->
  find_match lex_matchers (sign ++ (t ++ rest)) = Some (Token.IntLiteral, rest, Some (sign ++ t)%string).
Proof.
  intros Hsign Ht Hl Hends. rewrite <-(firstn_skipn 14 lex_matchers). rewrite find_match_skips.
  { change (skipn 14 lex_matchers) with (int_matcher :: skipn 15 lex_matchers).
    rewrite (find_match_here int_matcher _ _ rest (Some (sign ++ t)%string)) by (by apply int_captures). done. }
  destruct t as [|d t]; [simpl in Hl; lia|]. simpl in Ht. apply andb_true_iff in Ht as [Hd Ht].
  destruct Hsign as [->| ->]; cbn [append].
  - rewrite <-(firstn_skipn 12 (firstn 14 lex_matchers)). apply Forall_app. split.
    + apply List.Forall_forall. intros m Hm. apply captures_not_started. revert m Hm. apply forallb_forall.
      by_chars Hd.
    + simpl. constructor; [|constructor; [|constructor]].
      * destruct (decide (d = "0"%char)) as [->|Hne].
        -- apply captures_lit_stop; [done|]. destruct t as [|e t]; cbn [append]; [by apply ends_stop|]. apply stops_cons.
           simpl in Ht. apply andb_true_iff in Ht as [He _]. apply negb_true_iff. by_chars He.
        -- apply captures_not_started. assert (negb (Ascii.eqb d "0"%char) = true) as H by by apply negb_true_iff, Ascii.eqb_neq.
           revert H. clear. revert d. apply (ascii_check (fun c => negb (Ascii.eqb c "0"%char))). by vm_compute.
      * apply captures_not_started. by_chars Hd.
  - apply List.Forall_forall. intros m Hm. apply captures_not_started. revert m Hm. apply forallb_forall. by vm_compute.
Qed.

(** * Buffers *)
Lemma hex_lexes t rest : all is_xdigit t -> ends rest ->
  find_match lex_matchers (String "0" (String "x" (t ++ rest))) = Some (Token.HexStringLiteral, rest, Some t).
Proof.
  intros Ht Hends. rewrite (lex_skip 12) by done. cbn [skipn lex_matchers].
  apply (find_match_here (mkMatcher (RSeq (RLit "0"%char) (RSeq (RLit "x"%char) (RValue (RStar (RChar is_xdigit))))) Token.HexStringLiteral)).
  cbn [matcher]. rewrite !captures_lit.
  apply (captures_value 0 None _ is_xdigit); [apply single_char|done|by apply ends_stop|lia|done].
Qed.

(** * Trait references *)
Lemma captures_value_lit min max r p t b rest :
  single r p -> all p t -> p b = false -> (min <= String.length t)%nat ->
  (String.length t <= match max with Some n => n | None => String.length t end)%nat ->
  captures (RSeq (RValue (RRep min max r)) (RLit b)) (t ++ String b rest) = Some (rest, Some t).
Proof.
  intros Hr Ht Hb Hmin Hmax. unfold captures. cbn [rmatch].
  apply (rep_longest _ p); [done|done|by apply stops_cons|destruct max; rewrite ?str_length_app; lia|done|].
  rewrite taken_app. simpl. by rewrite Ascii.eqb_refl.
Qed.

Definition trait_char (c : ascii) : bool := is_word c || Ascii.eqb "-" c.
Lemma trait_lexes t rest : all trait_char t -> (1 <= String.length t)%nat ->
  find_match lex_matchers (String "<" (t ++ String ">" rest)) = Some (Token.TraitReferenceLiteral, rest, Some t).
Proof.
  intros Ht Hl. rewrite (lex_skip 11) by done. cbn [skipn lex_matchers].
  apply (find_match_here (mkMatcher (RSeq (RLit "<"%char) (RSeq (RValue (RPlus (RAlt (RChar is_word) (RLit "-"%char)))) (RLit ">"%char)))
    Token.TraitReferenceLiteral)).
  cbn [matcher]. rewrite captures_lit.
  by apply (captures_value_lit 1 None _ trait_char t ">"%char rest (single_alt _ _ _ _ (single_char _) (single_lit _))).
Qed.

(** * Principals and fields *)
Definition c32_char : ascii -> bool := one_of "0123456789ABCDEFGHJKMNPQRSTVWXYZ".
Definition contract_char (c : ascii) : bool := is_alnum c || one_of "-_" c.
Definition field_char (c : ascii) : bool := is_alnum c || Ascii.eqb "-" c.
Definition address_text (t : string) : bool :=
  all_chars c32_char t && (28 <=? String.length t)%nat && (String.length t <=? 41)%nat.
Definition contract_text (t : string) : bool :=
  match t with
  | String c t => is_ascii_letter c && all_chars contract_char t && (String.length t <=? 39)%nat
  | EmptyString => false
  end.
Definition field_text (t : string) : bool :=
  all_chars field_char t && (1 <=? String.length t)%nat && (String.length t <=? 128)%nat.

Section names.
Context {A : Type}.
Implicit Types k : string -> option string -> option A.

Lemma rmatch_dot_stop r s c k : stops (Ascii.eqb ".") s -> rmatch (RSeq (RLit "."%char) r) s c k = None.
Proof. intros Hs. destruct s as [|x s]; [done|]. unfold RLit. cbn [rmatch]. by rewrite (Hs x s eq_refl). Qed.
Lemma rmatch_dot r s c k : rmatch (RSeq (RLit "."%char) r) (String "." s) c k = rmatch r s c k.
Proof. done. Qed.

(** The suffix of a text without dots, and what follows it, does not start with a dot. *)
Lemma suffix_no_dot p (t1 t2 rest : string) :
  all p (t1 ++ t2) -> forallb (fun n => implb (p (ascii_of_nat n)) (negb (Ascii.eqb "." (ascii_of_nat n)))) (seq 0 256) = true ->
  stops (Ascii.eqb ".") rest -> stops (Ascii.eqb ".") (t2 ++ rest).
Proof.
  intros Ht Hp Hs. rewrite all_chars_app in Ht. apply andb_true_iff in Ht as [_ Ht]. destruct t2 as [|c t2]; [done|].
  simpl. apply stops_cons. simpl in Ht. apply andb_true_iff in Ht as [Hc _].
  apply negb_true_iff. by apply (ascii_check p (fun c => negb (Ascii.eqb "." c))).
Qed.

Lemma address_match t rest c k a : address_text t = true -> stops c32_char rest -> k rest c = Some a ->
  rmatch STANDARD_PRINCIPAL_REGEX (t ++ rest) c k = Some a.
Proof.
  intros Ht Hs Hk. unfold address_text in Ht. rewrite !andb_true_iff, !Nat.leb_le in Ht. destruct Ht as [[Ht Hl1] Hl2].
  by apply (rep_longest _ c32_char (single_class _)).
Qed.
(** An address is followed by something else than a dot. *)
Lemma address_only t rest c r k : address_text t = true -> stops c32_char rest -> stops (Ascii.eqb ".") rest ->
  rmatch (RSeq STANDARD_PRINCIPAL_REGEX (RSeq (RLit "."%char) r)) (t ++ rest) c k = None.
Proof.
  intros Ht Hs Hdot. unfold address_text in Ht. rewrite !andb_true_iff in Ht. destruct Ht as [[Ht _] _].
  apply (rep_fails _ c32_char (single_class _)); [done|done|]. intros t1 t2 ->. apply rmatch_dot_stop.
  by apply (suffix_no_dot c32_char t1).
Qed.
(** An address, then a dot after which [r] fails. *)
Lemma address_then_fails t rest c r k : address_text t = true -> rmatch r rest c k = None ->
  rmatch (RSeq STANDARD_PRINCIPAL_REGEX (RSeq (RLit "."%char) r)) (t ++ String "." rest) c k = None.
Proof.
  intros Ht Hr. unfold address_text in Ht. rewrite !andb_true_iff in Ht. destruct Ht as [[Ht _] _].
  apply (rep_fails _ c32_char (single_class _)); [done|by apply stops_cons|]. intros t1 t2 ->. destruct t2 as [|x t2]; [done|].
  apply rmatch_dot_stop. cbn [append]. apply stops_cons. rewrite all_chars_app in Ht. simpl in Ht.
  rewrite !andb_true_iff in Ht. destruct Ht as (_ & Hx & _). apply negb_true_iff. by_chars Hx.
Qed.

Lemma contract_match t rest c k a : contract_text t = true -> stops contract_char rest -> k rest c = Some a ->
  rmatch contract_name_regex (t ++ rest) c k = Some a.
Proof.
  intros Ht Hs Hk. unfold contract_text in Ht. destruct t as [|x t]; [done|]. rewrite !andb_true_iff, Nat.leb_le in Ht.
  destruct Ht as [[Hx Ht] Hl]. unfold contract_name_regex. cbn [rmatch append]. rewrite Hx.
  apply (rep_longest _ contract_char (single_alt _ _ _ _ (single_char _) (single_class _))); [done|done|lia|lia|done].
Qed.
Lemma contract_only t rest c r k : contract_text t = true -> stops contract_char rest -> stops (Ascii.eqb ".") rest ->
  rmatch contract_name_regex (t ++ rest) c (fun s' c' => rmatch (RSeq (RLit "."%char) r) s' c' k) = None.
Proof.
  intros Ht Hs Hdot. unfold contract_text in Ht. destruct t as [|x t]; [done|]. rewrite !andb_true_iff in Ht.
  destruct Ht as [[Hx Ht] _]. unfold contract_name_regex. cbn [rmatch append]. rewrite Hx.
  apply (rep_fails _ contract_char (single_alt _ _ _ _ (single_char _) (single_class _))); [done|done|]. intros t1 t2 ->.
  apply rmatch_dot_stop. by apply (suffix_no_dot contract_char t1).
Qed.
Lemma field_match t rest c k a : field_text t = true -> stops field_char rest -> k rest c = Some a ->
  rmatch field_name_regex (t ++ rest) c k = Some a.
Proof.
  intros Ht Hs Hk. unfold field_text in Ht. rewrite !andb_true_iff, !Nat.leb_le in Ht. destruct Ht as [[Ht Hl1] Hl2].
  by apply (rep_longest _ field_char (single_alt _ _ _ _ (single_char _) (single_lit _))).
Qed.
End names.

Lemma taken_cons c s rest : taken (String c (s ++ rest)) rest = String c s.
Proof. exact (taken_app (String c s) rest). Qed.
Lemma dot_ends_contract s : stops contract_char (String "." s).
Proof. by apply stops_cons. Qed.

Lemma principal_lexes t rest : address_text t = true -> ends rest ->
  find_match lex_matchers (String "'" (t ++ rest)) = Some (Token.PrincipalLiteral, rest, Some t).
Proof.
  intros Ht Hends. rewrite (lex_skip 15) by done. cbn [skipn lex_matchers].
  assert (stops c32_char rest /\ stops (Ascii.eqb ".") rest) as [Hs Hd] by (split; by apply ends_stop).
  rewrite find_match_skip by (cbn [matcher]; rewrite captures_lit; by apply address_only).
  rewrite find_match_skip by (by apply captures_not_started).
  rewrite find_match_skip by (cbn [matcher]; rewrite captures_lit; by apply address_only).
  rewrite find_match_skip by (by apply captures_not_started).
  apply (find_match_here (mkMatcher (RSeq (RLit "'"%char) (RValue STANDARD_PRINCIPAL_REGEX)) Token.PrincipalLiteral)).
  cbn [matcher]. rewrite captures_lit. unfold captures. cbn [rmatch]. apply address_match; [done|done|]. by rewrite taken_app.
Qed.

Lemma contract_lexes t name rest : address_text t = true -> contract_text name = true -> ends rest ->
  find_match lex_matchers (String "'" ((t ++ String "." name) ++ rest)) =
  Some (Token.FullyQualifiedContractIdentifierLiteral, rest, Some (t ++ String "." name)%string).
Proof.
  intros Ht Hn Hends. rewrite (lex_skip 15) by done. cbn [skipn lex_matchers].
  assert (stops contract_char rest /\ stops (Ascii.eqb ".") rest) as [Hs Hd] by (split; by apply ends_stop).
  rewrite find_match_skip.
  2: { cbn [matcher]. rewrite captures_lit, text_app_assoc. cbn [append].
       apply (address_then_fails t (name ++ rest) None contract_name_regex); [done|]. by apply contract_only. }
  rewrite find_match_skip by (by apply captures_not_started).
  apply (find_match_here (mkMatcher (RSeq (RLit "'"%char) (RValue CONTRACT_PRINCIPAL_REGEX)) Token.FullyQualifiedContractIdentifierLiteral)).
  cbn [matcher]. rewrite captures_lit. unfold captures, CONTRACT_PRINCIPAL_REGEX. rewrite rmatch_value, rmatch_seq.
  rewrite text_app_assoc at 1. cbn [append]. apply address_match; [done|by apply stops_cons|]. cbv beta. rewrite rmatch_dot.
  apply contract_match; [done|done|]. cbv beta. by rewrite taken_app.
Qed.

Lemma field_lexes t name field rest : address_text t = true -> contract_text name = true -> field_text field = true -> ends rest ->
  find_match lex_matchers (String "'" ((t ++ String "." (name ++ String "." field)) ++ rest)) =
  Some (Token.FullyQualifiedFieldIdentifierLiteral, rest, Some (t ++ String "." (name ++ String "." field))%string).
Proof.
  intros Ht Hn Hf Hends. rewrite (lex_skip 15) by done. cbn [skipn lex_matchers].
  apply (find_match_here (mkMatcher (RSeq (RLit "'"%char) (RValue (RSeq CONTRACT_PRINCIPAL_REGEX (RSeq (RLit "."%char) field_name_regex))))
    Token.FullyQualifiedFieldIdentifierLiteral)).
  cbn [matcher]. rewrite captures_lit. unfold captures, CONTRACT_PRINCIPAL_REGEX. rewrite rmatch_value, !rmatch_seq.
  rewrite text_app_assoc at 1. cbn [append]. rewrite text_app_assoc at 1. cbn [append].
  apply address_match; [done|by apply stops_cons|]. cbv beta. rewrite rmatch_dot.
  apply contract_match; [done|apply dot_ends_contract|]. cbv beta. rewrite rmatch_dot.
  apply field_match; [done|by apply ends_stop|]. cbv beta. by rewrite taken_app.
Qed.

Lemma sugared_contract_lexes name rest : contract_text name = true -> ends rest ->
  find_match lex_matchers (String "." (name ++ rest)) =
  Some (Token.SugaredContractIdentifierLiteral, rest, Some (String "." name)).
Proof.
  intros Hn Hends. rewrite (lex_skip 16) by done. cbn [skipn lex_matchers].
  assert (stops contract_char rest /\ stops (Ascii.eqb ".") rest) as [Hs Hd] by (split; by apply ends_stop).
  rewrite find_match_skip.
  2: { cbn [matcher]. unfold captures. rewrite rmatch_value, rmatch_dot, rmatch_seq. by apply contract_only. }
  rewrite find_match_skip by (by apply captures_not_started).
  apply (find_match_here (mkMatcher (RValue (RSeq (RLit "."%char) contract_name_regex)) Token.SugaredContractIdentifierLiteral)).
  cbn [matcher]. unfold captures. rewrite rmatch_value, rmatch_dot. apply contract_match; [done|done|]. cbv beta.
  by rewrite taken_cons.
Qed.

Lemma sugared_field_lexes name field rest : contract_text name = true -> field_text field = true -> ends rest ->
  find_match lex_matchers (String "." ((name ++ String "." field) ++ rest)) =
  Some (Token.SugaredFieldIdentifierLiteral, rest, Some (String "." (name ++ String "." field))).
Proof.
  intros Hn Hf Hends. rewrite (lex_skip 16) by done. cbn [skipn lex_matchers].
  apply (find_match_here (mkMatcher (RValue (RSeq (RLit "."%char) (RSeq contract_name_regex (RSeq (RLit "."%char) field_name_regex))))
    Token.SugaredFieldIdentifierLiteral)).
  cbn [matcher]. unfold captures. rewrite rmatch_value, rmatch_dot, rmatch_seq.
  rewrite text_app_assoc at 1. cbn [append]. apply contract_match; [done|apply dot_ends_contract|]. cbv beta. rewrite rmatch_dot.
  apply field_match; [done|by apply ends_stop|]. cbv beta. by rewrite taken_cons.
Qed.

(** * Strings *)
Notation string_round :=
  (RAlt (RSeq (RLit backslash) (RLit quote)) (RChar (fun c => is_printable c && negb (Ascii.eqb c quote)))).

(** The inside of a string literal: a quote only after a backslash, a backslash
    never last. *)
Inductive string_body : string -> Prop :=
| body_nil : string_body EmptyString
| body_quote b : string_body b -> string_body (String backslash (String quote b))
| body_char c b :
    is_printable c = true -> c <> quote -> (c = backslash -> exists d b', b = String d b' /\ d <> quote) ->
    string_body b -> string_body (String c b).

Lemma string_rep {A : Type} b rest c (k : string -> option string -> option A) fuel a :
  string_body b -> (String.length b <= fuel)%nat -> k (String quote rest) c = Some a ->
  rep (rmatch string_round) fuel 0 (b ++ String quote rest) c k = Some a.
Proof.
  intros Hb Hf Hk. revert fuel Hf. induction Hb as [|b Hb IH|x b Hx Hq Hd Hb IH]; intros fuel Hf.
  - destruct fuel; [done|]. cbn [append rep]. by rewrite rmatch_none.
  - simpl in Hf. destruct fuel as [|fuel]; [lia|]. cbn [append rep]. cbn [rmatch RLit].
    change (Ascii.eqb backslash backslash) with true. change (Ascii.eqb quote quote) with true. cbv iota beta.
    by rewrite IH by lia.
  - simpl in Hf. destruct fuel as [|fuel]; [lia|]. cbn [append rep].
    assert (rmatch (RSeq (RLit backslash) (RLit quote)) (String x (b ++ String quote rest)) c
              (fun s' c' => rep (rmatch string_round) fuel 0 s' c' k) = None) as H1.
    { rewrite rmatch_seq. unfold RLit. cbn [rmatch]. destruct (Ascii.eqb backslash x) eqn:E; [|done]. apply Ascii.eqb_eq in E as <-.
      destruct (Hd eq_refl) as (d & b' & -> & Hne). cbn [append]. destruct (Ascii.eqb quote d) eqn:E; [|done].
      apply Ascii.eqb_eq in E. congruence. }
    cbn [pred]. change (rmatch string_round ?s ?c ?k) with
      (match rmatch (RSeq (RLit backslash) (RLit quote)) s c k with Some a => Some a | None =>
         rmatch (RChar (fun c => is_printable c && negb (Ascii.eqb c quote))) s c k end).
    rewrite H1. cbn [rmatch]. rewrite Hx. apply Ascii.eqb_neq in Hq. rewrite Hq. simpl. by rewrite IH by lia.
Qed.

Lemma string_captures b rest : string_body b ->
  captures (RSeq (RValue string_regex) (RLit quote)) (b ++ String quote rest) = Some (rest, Some b).
Proof.
  intros Hb. unfold captures, string_regex, RStar. rewrite rmatch_seq, rmatch_value, rmatch_rep.
  apply string_rep; [done|rewrite str_length_app; lia|]. cbv beta. by rewrite taken_app.
Qed.

Lemma ascii_string_lexes b rest : string_body b ->
  find_match lex_matchers (String quote (b ++ String quote rest)) = Some (Token.StringASCIILiteral, rest, Some b).
Proof.
  intros Hb. rewrite (lex_skip 1) by done. cbn [skipn lex_matchers].
  apply (find_match_here (mkMatcher (RSeq (RLit quote) (RSeq (RValue string_regex) (RLit quote))) Token.StringASCIILiteral)).
  cbn [matcher]. rewrite captures_lit. by apply string_captures.
Qed.
Lemma utf8_string_lexes b rest : string_body b ->
  find_match lex_matchers (String "u" (String quote (b ++ String quote rest))) = Some (Token.StringUTF8Literal, rest, Some b).
Proof.
  intros Hb. apply (find_match_here (mkMatcher (RSeq (RLit "u"%char) (RSeq (RLit quote) (RSeq (RValue string_regex) (RLit quote)))) Token.StringUTF8Literal)).
  cbn [matcher]. rewrite !captures_lit. by apply string_captures.
Qed.

(** ** ASCII strings *)
Definition escape_char (c : ascii) : string :=
  if Ascii.eqb c backslash then String backslash (String backslash EmptyString)
  else if Ascii.eqb c quote then String backslash (String quote EmptyString)
  else if Ascii.eqb c newline then String backslash "n"
  else if Ascii.eqb c tab then String backslash "t"
  else if Ascii.eqb c (ascii_of_N 13) then String backslash "r"
  else String c EmptyString.
Fixpoint escape (s : string) : string :=
  match s with EmptyString => EmptyString | String c s => (escape_char c ++ escape s)%string end.
(** The characters that can be written. *)
Definition escapable (c : ascii) : bool :=
  is_printable c || Ascii.eqb c newline || Ascii.eqb c tab || Ascii.eqb c (ascii_of_N 13).
Fixpoint last_backslash (s : string) : bool :=
  match s with
  | EmptyString => false
  | String c EmptyString => Ascii.eqb c backslash
  | String _ s => last_backslash s
  end.

Lemma unescape_escape u s : all escapable s -> unescape_ascii_chars u (escape s) = Ok s.
Proof.
  induction s as [|c s IH]; [done|]. intros H. simpl in H. apply andb_true_iff in H as [Hc Hs]. cbn [escape]. unfold escape_char.
  destruct (Ascii.eqb_spec c backslash) as [->|H1]; [cbn; by rewrite IH|].
  destruct (Ascii.eqb_spec c quote) as [->|H2]; [cbn; by rewrite IH|].
  destruct (Ascii.eqb_spec c newline) as [->|H3]; [cbn; by rewrite IH|].
  destruct (Ascii.eqb_spec c tab) as [->|H4]; [cbn; by rewrite IH|].
  destruct (Ascii.eqb_spec c (ascii_of_N 13)) as [->|H5]; [cbn; by rewrite IH|].
  cbn [append unescape_ascii_chars]. apply Ascii.eqb_neq in H1. by rewrite H1, IH.
Qed.

(** An escaped text does not start with a quote. *)
Lemma escape_head c s : exists d b, escape (String c s) = String d b /\ d <> quote.
Proof.
  cbn [escape]. unfold escape_char. destruct (Ascii.eqb c backslash); [by do 2 eexists|].
  destruct (Ascii.eqb_spec c quote) as [->|H2]; [by do 2 eexists|].
  repeat (case_match; [by do 2 eexists|]). by do 2 eexists.
Qed.

Lemma escape_body s : all escapable s -> last_backslash s = false -> string_body (escape s).
Proof.
  induction s as [|c s IH]; [constructor|]. intros H Hlast. simpl in H. apply andb_true_iff in H as [Hc Hs].
  assert (string_body (escape s)) as Hb. { destruct s; [constructor|]. by apply IH. }
  cbn [escape]. unfold escape_char.
  destruct (Ascii.eqb_spec c backslash) as [->|H1].
  { cbn [append]. apply body_char; [done|done|by do 2 eexists|]. apply body_char; [done|done| |done]. intros _.
    destruct s as [|d s]; [done|]. apply escape_head. }
  destruct (Ascii.eqb_spec c quote) as [->|H2]; [by constructor|].
  destruct (Ascii.eqb_spec c newline) as [->|H3].
  { cbn [append]. apply body_char; [done|done|by do 2 eexists|]. by apply body_char. }
  destruct (Ascii.eqb_spec c tab) as [->|H4].
  { cbn [append]. apply body_char; [done|done|by do 2 eexists|]. by apply body_char. }
  destruct (Ascii.eqb_spec c (ascii_of_N 13)) as [->|H5].
  { cbn [append]. apply body_char; [done|done|by do 2 eexists|]. by apply body_char. }
  cbn [append]. apply body_char; [|done|done|done]. unfold escapable in Hc.
  apply Ascii.eqb_neq in H3, H4, H5. rewrite H3, H4, H5, !orb_false_r in Hc. done.
Qed.

(** ** UTF-8 strings *)
(** The digits of a number. *)
Lemma digits_value_app digit radix acc s t :
  digits_value digit radix acc (s ++ t) = (n ← digits_value digit radix acc s; digits_value digit radix n t).
Proof.
  revert acc. induction s as [|c s IH]; intros acc; [done|]. cbn [append digits_value].
  destruct (digit c); simpl; [apply IH|done].
Qed.

Lemma hex_digit_xdigit d : 0 <= d < 16 -> is_xdigit (hex_digit d) = true.
Proof. intros Hd. unfold is_xdigit. rewrite to_digit16_hex_digit by done. apply bool_decide_eq_true. by eexists. Qed.

Lemma lower_hex_value fuel n : 0 <= n < 16 ^ Z.of_nat fuel -> (fuel <> 0)%nat ->
  digits_value to_digit16 16 0 (lower_hex fuel n) = Some n.
Proof.
  revert n. induction fuel as [|fuel IH]; intros n Hn Hf; [done|]. cbn [lower_hex]. rewrite digits_value_app.
  rewrite Nat2Z.inj_succ, Z.pow_succ_r in Hn by lia.
  assert (0 <= n mod 16 < 16) as Hm by (apply Z.mod_pos_bound; lia).
  assert (digits_value to_digit16 16 0 (if n / 16 =? 0 then EmptyString else lower_hex fuel (n / 16)) = Some (n / 16)) as ->.
  { destruct (Z.eqb_spec (n / 16) 0) as [->|H0]; [done|]. destruct fuel as [|fuel]; [|apply IH; [|lia]].
    - simpl in Hn. destruct H0. apply Z.div_small. lia.
    - split; [apply Z.div_pos; lia|apply Z.div_lt_upper_bound; lia]. }
  simpl. rewrite to_digit16_hex_digit by done. simpl. f_equal. pose proof (Z.div_mod n 16). lia.
Qed.

Lemma lower_hex_xdigits fuel n : 0 <= n -> all is_xdigit (lower_hex fuel n).
Proof.
  revert n. induction fuel as [|fuel IH]; intros n Hn; [done|]. cbn [lower_hex]. rewrite all_chars_app. simpl.
  rewrite hex_digit_xdigit by (apply Z.mod_pos_bound; lia). case_match; [done|]. rewrite IH by (apply Z.div_pos; lia). done.
Qed.
Lemma lower_hex_length fuel n : (fuel <> 0)%nat -> (1 <= String.length (lower_hex fuel n))%nat.
Proof. destruct fuel; [done|]. intros _. cbn [lower_hex]. rewrite str_length_app. simpl. lia. Qed.

(** A character as its code point. *)
Definition escape_scalar (c : Z) : string :=
  String backslash (String "u" (String "{" (lower_hex 8 c ++ String "}" EmptyString))).
Fixpoint escape_scalars (cs : list Z) : string :=
  match cs with [] => EmptyString | c :: cs => (escape_scalar c ++ escape_scalars cs)%string end.

Lemma is_scalar_range c : is_scalar c = true -> 0 <= c < 1114112.
Proof. unfold is_scalar. intros H. apply orb_true_iff in H as [H|H]; bool_to_prop; lia. Qed.

(** Characters that stand for themselves. *)
Definition plain_char (c : ascii) : bool := is_printable c && negb (Ascii.eqb c quote) && negb (Ascii.eqb c backslash).
Lemma plain_body t b : all plain_char t -> string_body b -> string_body (t ++ b).
Proof.
  induction t as [|c t IH]; intros Ht Hb; [done|]. simpl in Ht. unfold plain_char at 1 in Ht. rewrite !andb_true_iff, !negb_true_iff in Ht.
  destruct Ht as (((Hp & Hq) & Hs) & Ht). apply Ascii.eqb_neq in Hq, Hs. cbn [append]. apply body_char; [done|done|done|auto].
Qed.
Lemma plain_unescape u t b : all plain_char t -> unescape_ascii_chars u (t ++ b) = let? r := unescape_ascii_chars u b in Ok (t ++ r)%string.
Proof.
  induction t as [|c t IH]; intros Ht; [cbn [append]; by destruct (unescape_ascii_chars u b)|]. simpl in Ht. unfold plain_char at 1 in Ht.
  rewrite !andb_true_iff, !negb_true_iff in Ht. destruct Ht as (((Hp & Hq) & Hs) & Ht). cbn [append unescape_ascii_chars].
  rewrite Hs, IH by done. by destruct (unescape_ascii_chars u b).
Qed.

Lemma scalar_text_plain c : 0 <= c -> all plain_char (String "{" (lower_hex 8 c ++ String "}" EmptyString)).
Proof.
  intros Hc. cbn [all_chars]. change (plain_char "{") with true. cbn [andb]. rewrite all_chars_app. change (all_chars plain_char "}") with true.
  rewrite andb_true_r. pose proof (lower_hex_xdigits 8 c Hc) as H. revert H. generalize (lower_hex 8 c) as t. clear.
  induction t as [|x t IH]; intros H; [done|]. simpl in H |- *. apply andb_true_iff in H as [Hx H]. rewrite IH by done. rewrite andb_true_r.
  by_chars Hx.
Qed.

Lemma escape_scalars_body cs : Forall (fun c => is_scalar c = true) cs -> string_body (escape_scalars cs).
Proof.
  induction 1 as [|c cs Hc _ IH]; [constructor|]. apply is_scalar_range in Hc. cbn [escape_scalars]. unfold escape_scalar. cbn [append].
  apply body_char; [done|done|by do 2 eexists|]. apply body_char; [done|done|done|].
  refine (plain_body _ _ (scalar_text_plain c _) IH). lia.
Qed.

Lemma unescape_scalars cs : Forall (fun c => is_scalar c = true) cs ->
  unescape_ascii_chars true (escape_scalars cs) = Ok (escape_scalars cs).
Proof.
  induction 1 as [|c cs Hc _ IH]; [done|]. apply is_scalar_range in Hc. cbn [escape_scalars]. unfold escape_scalar.
  change ((String backslash (String "u" ?t) ++ ?b)%string) with (String backslash (String "u" (t ++ b))).
  cbn -[append lower_hex]. rewrite plain_unescape by (apply scalar_text_plain; lia). rewrite IH. done.
Qed.

Lemma scalar_captures c rest : 0 <= c ->
  captures wrapped_codepoints_matcher (escape_scalar c ++ rest) = Some (rest, Some (lower_hex 8 c)).
Proof.
  intros Hc. unfold wrapped_codepoints_matcher, escape_scalar. cbn [append]. rewrite !captures_lit, text_app_assoc. cbn [append].
  apply (captures_value_lit 1 None _ is_xdigit); [apply single_char|by apply lower_hex_xdigits|done|by apply lower_hex_length|done].
Qed.

Lemma scalar_radix c : is_scalar c = true -> from_str_radix to_digit16 16 u32_ty (lower_hex 8 c) = Some c.
Proof.
  intros Hc%is_scalar_range. unfold from_str_radix.
  pose proof (lower_hex_value 8 c ltac:(lia) ltac:(lia)) as Hv. pose proof (lower_hex_xdigits 8 c ltac:(lia)) as Hx.
  destruct (lower_hex 8 c) as [|d t] eqn:E; [pose proof (lower_hex_length 8 c ltac:(lia)) as H; rewrite E in H; simpl in H; lia|].
  simpl in Hx. apply andb_true_iff in Hx as [Hd _].
  assert (Ascii.eqb d "+" = false /\ Ascii.eqb d "-" = false) as [-> ->].
  { split; apply negb_true_iff; by_chars Hd. }
  cbv iota beta. cbn [andb]. rewrite Hv. simpl. rewrite (proj2 (andb_true_iff _ _)); [done|]. split; apply Z.leb_le; int_lia.
Qed.

Lemma utf8_literal_scalars fuel cs data : Forall (fun c => is_scalar c = true) cs ->
  (String.length (escape_scalars cs) <= fuel)%nat -> 4 * (zlen data + zlen cs) <= MAX_VALUE_SIZE ->
  utf8_literal_chars fuel data (escape_scalars cs) = Ok (data ++ map encode_utf8 cs).
Proof.
  intros Hcs. revert fuel data. induction Hcs as [|c cs Hc Hcs IH]; intros fuel data Hf Hl; [destruct fuel; by rewrite app_nil_r|].
  destruct fuel as [|fuel]; [cbn in Hf; lia|]. cbn [escape_scalars] in *.
  assert (exists x t, (escape_scalar c ++ escape_scalars cs)%string = String x t) as (x & t & E) by by do 2 eexists.
  rewrite E. cbn [utf8_literal_chars]. rewrite <-E. rewrite scalar_captures by (apply is_scalar_range in Hc; lia).
  rewrite scalar_radix by done. cbn [expect_some out_bind]. rewrite Hc. cbn [out_bind].
  assert (zlen (data ++ [encode_utf8 c]) = zlen data + 1) as Hz by (unfold zlen; rewrite length_app; simpl; lia).
  assert (zlen (c :: cs) = zlen cs + 1) as Hz' by (unfold zlen; simpl; lia).
  assert (0 <= zlen data /\ 0 <= zlen cs) as [Hz1 Hz2] by (unfold zlen; lia).
  unfold StringUTF8Length_try_from at 1, unchecked.
  rewrite (proj2 (checked_mul_Some _ _ _ ((zlen data + 1) * 4))) by (rewrite Hz; unfold usize_ty; unfold_bounds; unfold_sizes; lia).
  cbn [ok_or out_bind]. rewrite (proj2 (Z.ltb_ge _ _)) by lia. cbn [out_bind].
  rewrite IH; [by rewrite <-app_assoc| |lia]. rewrite str_length_app in Hf. unfold escape_scalar in Hf. simpl in Hf. lia.
Qed.

Lemma utf8_literal_value cs : Forall (fun c => is_scalar c = true) cs -> 4 * zlen cs <= MAX_VALUE_SIZE ->
  string_utf8_from_string_utf8_literal (escape_scalars cs) = Ok (VSequence (SeqString (CharUTF8 (map encode_utf8 cs)))).
Proof. intros. unfold string_utf8_from_string_utf8_literal. by rewrite utf8_literal_scalars by (done || (unfold zlen in *; simpl in *; lia)). Qed.
