(* ===== verification/Parser.v ===== *)
(** Parser: from the tokens of a program to its expressions ([parse_lexed] and
    [parse] of clarity/src/vm/ast/parser/mod.rs, [PreSymbolicExpression] of
    clarity/src/vm/representations.rs).

    The parser is proved to accept exactly the token sequences of a grammar
    ([spells]), and to return the expressions they spell. *)
From Stdlib Require Import ZArith Lia Strings.String Strings.Ascii List Bool Arith.
From stdpp Require Import base list strings option.
From S2P Require Import Prelude Bytes Representations Types Values Hashes Regex Lexer.
Open Scope Z_scope.

Record Span := mkSpan { start_line : Z; start_column : Z; end_line : Z; end_column : Z }.
Definition Span_zero : Span := mkSpan 0 0 0 0.

Module Pre.
(** [PreSymbolicExpressionType], for expressions [E] *)
Inductive PreSymbolicExpressionType (E : Type) :=
| AtomValue (value : Value)
| Atom (name : string)
| List (exprs : list E)
| Tuple (exprs : list E)
| SugaredContractIdentifier (name : string)
| SugaredFieldIdentifier (contract name : string)
| FieldIdentifier (t : TraitIdentifier)
| TraitReference (name : string).
Arguments AtomValue {E}.
Arguments Atom {E}.
Arguments List {E}.
Arguments Tuple {E}.
Arguments SugaredContractIdentifier {E}.
Arguments SugaredFieldIdentifier {E}.
Arguments FieldIdentifier {E}.
Arguments TraitReference {E}.

Inductive PreSymbolicExpression :=
| mkPre (pre_expr : PreSymbolicExpressionType PreSymbolicExpression) (id : Z) (span : Span).

Definition pre_expr (e : PreSymbolicExpression) := let 'mkPre t _ _ := e in t.
Definition id (e : PreSymbolicExpression) := let 'mkPre _ i _ := e in i.
Definition span (e : PreSymbolicExpression) := let 'mkPre _ _ s := e in s.

Definition match_atom (e : PreSymbolicExpression) : option string :=
  match pre_expr e with Atom value => Some value | _ => None end.
Definition match_list (e : PreSymbolicExpression) : option (list PreSymbolicExpression) :=
  match pre_expr e with List l => Some l | _ => None end.
End Pre.
Notation PreSymbolicExpression := Pre.PreSymbolicExpression.
Notation PreSymbolicExpressionType := Pre.PreSymbolicExpressionType.

(** A fresh expression with the given span. *)
Definition spanned (t : PreSymbolicExpressionType PreSymbolicExpression) (sl sc el ec : Z) : PreSymbolicExpression :=
  Pre.mkPre t 0 (mkSpan sl sc el ec).

(** * The parser *)
Inductive ParseContext := CollectList | CollectTuple.
Inductive ParseStackItem := Expression (e : PreSymbolicExpression) | Colon | Comma.
(** [(Vec<ParseStackItem>, u32, u32, ParseContext)] *)
Record Frame := mkFrame { items : list ParseStackItem; open_line : Z; open_column : Z; collects : ParseContext }.
(** The stack, innermost frame first, and the output. *)
Definition ParseState : Type := list Frame * list PreSymbolicExpression.

Definition push_item (f : Frame) (i : ParseStackItem) : Frame :=
  mkFrame (items f ++ [i]) (open_line f) (open_column f) (collects f).
Definition handle_expression (st : ParseState) (expr : PreSymbolicExpression) : ParseState :=
  match st with
  | ([], outputs) => ([], outputs ++ [expr])
  | (f :: stack, outputs) => (push_item f (Expression expr) :: stack, outputs)
  end.
(** A separator outside of all lists is an error. *)
Definition handle_separator (st : ParseState) (i : ParseStackItem) (err : ParseErrors) : outcome ParseErrors ParseState :=
  match st with
  | ([], _) => Err err
  | (f :: stack, outputs) => Ok (push_item f i :: stack, outputs)
  end.

(** The items of a list: expressions only. *)
Definition list_item (i : ParseStackItem) : outcome ParseErrors PreSymbolicExpression :=
  match i with
  | Expression e => Ok e
  | Colon => Err ParseErr.ColonSeparatorUnexpected
  | Comma => Err ParseErr.CommaSeparatorUnexpected
  end.
(** The items of a tuple are (expr, colon, expr, comma), repeated. *)
Fixpoint tuple_items (index : Z) (l : list ParseStackItem) : outcome ParseErrors (list PreSymbolicExpression) :=
  match l with
  | [] => Ok []
  | item :: l =>
      if (index mod 4 =? 0) || (index mod 4 =? 2) then
        match item with
        | Expression e => let? rest := tuple_items (index + 1) l in Ok (e :: rest)
        | _ => Err (ParseErr.TupleItemExpected index)
        end
      else if index mod 4 =? 1 then
        match item with
        | Colon => tuple_items (index + 1) l
        | _ => Err (ParseErr.TupleColonExpected index)
        end
      else
        match item with
        | Comma => tuple_items (index + 1) l
        | _ => Err (ParseErr.TupleCommaExpected index)
        end
  end.

(** [column_pos + (length as u32) - 1]; nothing is subtracted for an empty text
    where [avoid_underflow]. *)
Definition last_column (avoid_underflow : bool) (column_pos length : Z) : outcome ParseErrors Z :=
  let? e := expect_some (checked_add u32_ty column_pos (as_u32 length)) in
  if avoid_underflow && (length <=? 0) then Ok e else expect_some (checked_sub u32_ty e 1).

(** An expression of one token. *)
Definition handle_atom (st : ParseState) (line_pos column_pos : Z) (avoid_underflow : bool) (length : Z)
    (t : PreSymbolicExpressionType PreSymbolicExpression) : outcome ParseErrors ParseState :=
  let? end_column := last_column avoid_underflow column_pos length in
  Ok (handle_expression st (spanned t line_pos column_pos line_pos end_column)).

(** The body of the loop of [parse_lexed]. *)
Definition parse_item (st : ParseState) (i : LexItem * Z * Z) : outcome ParseErrors ParseState :=
  let '(item, line_pos, column_pos) := i in
  let '(parse_stack, output_list) := st in
  match item with
  | Lex.LeftParen => Ok (mkFrame [] line_pos column_pos CollectList :: parse_stack, output_list)
  | Lex.RightParen =>
      match parse_stack with
      | f :: parse_stack =>
          match collects f with
          | CollectList =>
              let? checked_list := try_map list_item (items f) in
              Ok (handle_expression (parse_stack, output_list)
                    (spanned (Pre.List checked_list) (open_line f) (open_column f) line_pos column_pos))
          | CollectTuple => Err ParseErr.ClosingTupleLiteralExpected
          end
      | [] => Err ParseErr.ClosingParenthesisUnexpected
      end
  | Lex.LeftCurly => Ok (mkFrame [] line_pos column_pos CollectTuple :: parse_stack, output_list)
  | Lex.RightCurly =>
      match parse_stack with
      | f :: parse_stack =>
          match collects f with
          | CollectTuple =>
              let? checked_list := tuple_items 0 (items f) in
              Ok (handle_expression (parse_stack, output_list)
                    (spanned (Pre.Tuple checked_list) (open_line f) (open_column f) line_pos column_pos))
          | CollectList => Err ParseErr.ClosingParenthesisExpected
          end
      | [] => Err ParseErr.ClosingTupleLiteralUnexpected
      end
  | Lex.VariableItem value =>
      let? end_column := last_column false column_pos (str_len value) in
      let? value := map_err (fun _ => ParseErr.IllegalVariableName value) (ClarityName_try_from value) in
      Ok (handle_expression st (spanned (Pre.Atom value) line_pos column_pos line_pos end_column))
  | Lex.LiteralValue length value => handle_atom st line_pos column_pos true length (Pre.AtomValue value)
  | Lex.SugaredContractIdentifier length value =>
      handle_atom st line_pos column_pos true length (Pre.SugaredContractIdentifier value)
  | Lex.SugaredFieldIdentifier length contract_name name =>
      handle_atom st line_pos column_pos true length (Pre.SugaredFieldIdentifier contract_name name)
  | Lex.FieldIdentifier length trait_identifier =>
      handle_atom st line_pos column_pos true length (Pre.FieldIdentifier trait_identifier)
  | Lex.TraitReference _ value => handle_atom st line_pos column_pos false (str_len value) (Pre.TraitReference value)
  | Lex.ColonSeparator => handle_separator st Colon ParseErr.ColonSeparatorUnexpected
  | Lex.CommaSeparator => handle_separator st Comma ParseErr.CommaSeparatorUnexpected
  | Lex.Whitespace => Ok st
  end.

Definition parse_lexed (input : list (LexItem * Z * Z)) : outcome ParseErrors (list PreSymbolicExpression) :=
  let? '(parse_stack, output_list) := try_fold parse_item ([], []) input in
  match parse_stack with
  | [] => Ok output_list
  | _ => Err ParseErr.ClosingParenthesisExpected
  end.

Definition parse {D : Digests} (input : string) : outcome ParseErrors (list PreSymbolicExpression) :=
  let? lexed := lex input in
  parse_lexed lexed.

(** * The grammar *)
(** [spells toks e]: the tokens [toks] spell the expression [e], whatever its id
    and its span.  In a tuple, keys and values alternate with colons and commas;
    the tokens may stop after any of them. *)
Inductive spells : list LexItem -> PreSymbolicExpression -> Prop :=
| spells_variable name i s :
    ClarityName_valid name = true -> spells [Lex.VariableItem name] (Pre.mkPre (Pre.Atom name) i s)
| spells_value n v i s : spells [Lex.LiteralValue n v] (Pre.mkPre (Pre.AtomValue v) i s)
| spells_contract n name i s :
    spells [Lex.SugaredContractIdentifier n name] (Pre.mkPre (Pre.SugaredContractIdentifier name) i s)
| spells_sugared_field n c name i s :
    spells [Lex.SugaredFieldIdentifier n c name] (Pre.mkPre (Pre.SugaredFieldIdentifier c name) i s)
| spells_field n t i s : spells [Lex.FieldIdentifier n t] (Pre.mkPre (Pre.FieldIdentifier t) i s)
| spells_trait n name i s : spells [Lex.TraitReference n name] (Pre.mkPre (Pre.TraitReference name) i s)
| spells_list toks es i s :
    spells_all toks es -> spells (Lex.LeftParen :: toks ++ [Lex.RightParen]) (Pre.mkPre (Pre.List es) i s)
| spells_tuple toks es i s :
    spells_pairs true toks es -> spells (Lex.LeftCurly :: toks ++ [Lex.RightCurly]) (Pre.mkPre (Pre.Tuple es) i s)
with spells_all : list LexItem -> list PreSymbolicExpression -> Prop :=
| spells_none : spells_all [] []
| spells_more toks e toks' es : spells toks e -> spells_all toks' es -> spells_all (toks ++ toks') (e :: es)
with spells_pairs : bool -> list LexItem -> list PreSymbolicExpression -> Prop :=
| pairs_none b : spells_pairs b [] []
| pairs_last b toks e : spells toks e -> spells_pairs b toks [e]
| pairs_more (b : bool) toks e toks' es :
    spells toks e -> spells_pairs (negb b) toks' es ->
    spells_pairs b (toks ++ (if b then Lex.ColonSeparator else Lex.CommaSeparator) :: toks') (e :: es).

Scheme spells_mind := Induction for spells Sort Prop
  with spells_all_mind := Induction for spells_all Sort Prop
  with spells_pairs_mind := Induction for spells_pairs Sort Prop.
Combined Scheme spells_mutind from spells_mind, spells_all_mind, spells_pairs_mind.

(** An expression without its ids and spans. *)
Fixpoint strip (e : PreSymbolicExpression) : PreSymbolicExpression :=
  let 'Pre.mkPre t _ _ := e in
  Pre.mkPre
    match t with
    | Pre.List l => Pre.List (map strip l)
    | Pre.Tuple l => Pre.Tuple (map strip l)
    | t => t
    end 0 Span_zero.

Definition significant (i : LexItem) : bool := match i with Lex.Whitespace => false | _ => true end.
Definition token (i : LexItem * Z * Z) : LexItem := fst (fst i).
(** The tokens that are not white space. *)
Definition tokens (input : list (LexItem * Z * Z)) : list LexItem := List.filter significant (map token input).

(** The length the parser adds to the column of a token. *)
Definition token_width (i : LexItem) : Z :=
  match i with
  | Lex.VariableItem name => str_len name
  | Lex.TraitReference _ name => str_len name
  | Lex.LiteralValue n _ | Lex.SugaredContractIdentifier n _ | Lex.SugaredFieldIdentifier n _ _
  | Lex.FieldIdentifier n _ => n
  | _ => 0
  end.
(** The columns of the tokens are positions of [u32]. *)
Definition placed (i : LexItem * Z * Z) : Prop :=
  let '(item, _, column) := i in 1 <= column /\ 0 <= token_width item /\ column + token_width item <= u32_max.

(** ** The parser accepts the grammar only *)
(** What the items of a frame were spelled by. *)
Definition spells_item (toks : list LexItem) (i : ParseStackItem) : Prop :=
  match i with
  | Expression e => spells toks e
  | Colon => toks = [Lex.ColonSeparator]
  | Comma => toks = [Lex.CommaSeparator]
  end.
Definition spells_items (toks : list LexItem) (l : list ParseStackItem) : Prop :=
  exists tss, toks = concat tss /\ Forall2 spells_item tss l.

Definition opens (c : ParseContext) : LexItem := match c with CollectList => Lex.LeftParen | CollectTuple => Lex.LeftCurly end.

(** The tokens read in a state of the parser. *)
Inductive read_so_far : ParseState -> list LexItem -> Prop :=
| read_output toks out : spells_all toks out -> read_so_far ([], out) toks
| read_frame f stack out toks toks' :
    read_so_far (stack, out) toks -> spells_items toks' (items f) ->
    read_so_far (f :: stack, out) (toks ++ opens (collects f) :: toks').

Lemma spells_all_app toks es toks' es' :
  spells_all toks es -> spells_all toks' es' -> spells_all (toks ++ toks') (es ++ es').
Proof.
  induction 1 as [|toks e toks'' es He _ IH]; intros H'; [done|].
  rewrite <-app_assoc. simpl. constructor; auto.
Qed.

Lemma spells_one toks e : spells toks e -> spells_all toks [e].
Proof. intros H. rewrite <-(app_nil_r toks). by repeat constructor. Qed.

Lemma spells_items_snoc toks l toks' i :
  spells_items toks l -> spells_item toks' i -> spells_items (toks ++ toks') (l ++ [i]).
Proof.
  intros (tss & -> & Hl) Hi. exists (tss ++ [toks']). split; [by rewrite concat_app; simpl; rewrite app_nil_r|].
  apply Forall2_app; [done|by constructor].
Qed.

Lemma items_list toks l es : spells_items toks l -> try_map list_item l = Ok es -> spells_all toks es.
Proof.
  intros (tss & -> & Hl). revert es. induction Hl as [|ts i tss l Hi _ IH]; intros es Hes; simpl in Hes |- *.
  - out_inv. constructor.
  - apply out_bind_Ok in Hes as (e & He & Hes). apply out_bind_Ok in Hes as (es' & Hes' & ?).
    destruct i; simpl in He; out_inv. constructor; auto.
Qed.

(** What is left of a tuple at an index: a key or a value comes next, or the
    separator after one. *)
Lemma items_pairs tss l index es :
  Forall2 spells_item tss l -> tuple_items index l = Ok es ->
  (forall b : bool, index mod 4 = (if b then 0 else 2) -> spells_pairs b (concat tss) es) /\
  (forall b : bool, index mod 4 = (if b then 1 else 3) ->
     forall toks e, spells toks e -> spells_pairs b (toks ++ concat tss) (e :: es)).
Proof.
  intros Hl. revert index es. induction Hl as [|ts i tss l Hi _ IH]; intros index es Hes; simpl in Hes |- *.
  { out_inv. split; intros; rewrite ?app_nil_r; constructor; done. }
  assert ((index + 1) mod 4 = (index mod 4 + 1) mod 4) as Hmod by (rewrite Z.add_mod_idemp_l; done).
  split; intros b Hb; destruct b; rewrite Hb in *; simpl in Hes; destruct i; try discriminate Hes; try (out_inv; fail).
  - out_inv. destruct (IH _ _ H) as [_ IH2]. by apply (IH2 true).
  - out_inv. destruct (IH _ _ H) as [_ IH2]. by apply (IH2 false).
  - destruct (IH _ _ Hes) as [IH1 _]. intros toks e He. simpl in Hi. subst ts. apply pairs_more; [done|]. by apply (IH1 false).
  - destruct (IH _ _ Hes) as [IH1 _]. intros toks e He. simpl in Hi. subst ts. apply (pairs_more false); [done|]. by apply (IH1 true).
Qed.

Lemma items_tuple toks l es : spells_items toks l -> tuple_items 0 l = Ok es -> spells_pairs true toks es.
Proof. intros (tss & -> & Hl) Hes. by apply (items_pairs tss l 0 es Hl Hes). Qed.

Lemma read_handle st toks toks' e :
  read_so_far st toks -> spells toks' e -> read_so_far (handle_expression st e) (toks ++ toks').
Proof.
  intros H He. destruct H as [toks out H|f stack out toks toks'' H Hf]; simpl.
  - constructor. apply spells_all_app; [done|by apply spells_one].
  - rewrite <-app_assoc. simpl. apply (read_frame (push_item f (Expression e))); [done|]. by apply spells_items_snoc.
Qed.

Lemma parse_item_reads st i st' toks :
  parse_item st i = Ok st' -> read_so_far st toks ->
  read_so_far st' (toks ++ (if significant (token i) then [token i] else [])).
Proof.
  destruct i as [[item line] column], st as [stack out]. intros H Hr. unfold token. cbn [fst].
  destruct item; cbn [significant parse_item] in *; unfold handle_atom in *; out_inv; subst;
    try (refine (read_handle (stack, out) _ _ _ Hr _); by constructor).
  - apply (read_frame (mkFrame [] line column CollectList)); [done|]. by exists [].
  - destruct stack as [|f stack]; [done|]. destruct (collects f) eqn:Hc; [|done]. out_inv. subst.
    inversion Hr as [|? ? ? toks1 toks2 Hr1 Hf]; subst. rewrite Hc. rewrite <-app_assoc. refine (read_handle (stack, out) _ _ _ Hr1 _).
    simpl. constructor. by eapply items_list.
  - apply (read_frame (mkFrame [] line column CollectTuple)); [done|]. by exists [].
  - destruct stack as [|f stack]; [done|]. destruct (collects f) eqn:Hc; [done|]. out_inv. subst.
    inversion Hr as [|? ? ? toks1 toks2 Hr1 Hf]; subst. rewrite Hc. rewrite <-app_assoc. refine (read_handle (stack, out) _ _ _ Hr1 _).
    simpl. constructor. by eapply items_tuple.
  - apply ClarityName_try_from_Ok in H1 as [-> Hv]. refine (read_handle (stack, out) _ _ _ Hr _). by constructor.
  - destruct stack as [|f stack]; [done|]. simpl in H. out_inv. subst.
    inversion Hr as [|? ? ? toks1 toks2 Hr1 Hf]; subst. rewrite <-app_assoc. simpl.
    apply (read_frame (push_item f Comma)); [done|]. by apply spells_items_snoc.
  - destruct stack as [|f stack]; [done|]. simpl in H. out_inv. subst.
    inversion Hr as [|? ? ? toks1 toks2 Hr1 Hf]; subst. rewrite <-app_assoc. simpl.
    apply (read_frame (push_item f Colon)); [done|]. by apply spells_items_snoc.
  - by rewrite app_nil_r.
Qed.

Lemma parse_items_read input st st' toks :
  try_fold parse_item st input = Ok st' -> read_so_far st toks -> read_so_far st' (toks ++ tokens input).
Proof.
  revert st toks. induction input as [|i input IH]; intros st toks H Hr; simpl in H.
  - out_inv. subst. by rewrite app_nil_r.
  - apply out_bind_Ok in H as (st1 & H1 & H). pose proof (parse_item_reads _ _ _ _ H1 Hr) as Hr1.
    pose proof (IH _ _ H Hr1) as Hr2. unfold tokens in *. simpl.
    rewrite <-app_assoc in Hr2. destruct (significant (token i)); done.
Qed.

Lemma parse_lexed_sound input es : parse_lexed input = Ok es -> spells_all (tokens input) es.
Proof.
  unfold parse_lexed. intros H. apply out_bind_Ok in H as ([stack out] & H & H').
  destruct stack; [|done]. injection H' as <-.
  pose proof (parse_items_read _ _ _ [] H (read_output _ _ spells_none)) as Hr. by inversion Hr.
Qed.

(** ** The parser accepts the grammar *)
Lemma last_column_ok (avoid : bool) (column len : Z) :
  1 <= column -> 0 <= len -> column + len <= u32_max -> exists n, last_column avoid column len = Ok n.
Proof.
  intros Hc Hl Hsum. unfold last_column.
  assert (as_u32 len = len) as -> by (unfold as_u32; apply Z.mod_small; int_lia).
  rewrite (proj2 (checked_add_Some _ _ _ (column + len))) by (split; [done|int_lia]). simpl.
  case_match; [by eexists|]. exists (column + len - 1).
  by rewrite (proj2 (checked_sub_Some _ _ _ (column + len - 1))) by (split; [done|int_lia]).
Qed.

(** White space does not matter. *)
Lemma parse_items_significant st input :
  try_fold parse_item st input = try_fold parse_item st (List.filter (fun i => significant (token i)) input).
Proof.
  revert st. induction input as [|[[item line] column] input IH]; intros st; [done|].
  cbn [try_fold List.filter]. destruct (significant _) eqn:Hs; cbn [try_fold].
  - destruct (parse_item _ _); cbn [out_bind]; [apply IH|done|done].
  - destruct item; try done. destruct st. apply IH.
Qed.

Lemma tokens_filtered input : map token (List.filter (fun i => significant (token i)) input) = tokens input.
Proof. unfold tokens. induction input as [|i input IH]; [done|]. simpl. destruct (significant _); simpl; by rewrite IH. Qed.

Lemma try_fold_one {E A B : Type} (f : B -> A -> outcome E B) (b : B) (x : A) : try_fold f b [x] = f b x.
Proof. simpl. by destruct (f b x). Qed.

(** The state after the expressions [es]. *)
Definition handle_all (st : ParseState) (es : list PreSymbolicExpression) : ParseState := fold_left handle_expression es st.
Definition push_items (st : ParseState) (l : list ParseStackItem) : ParseState :=
  match st with
  | (f :: stack, out) => (mkFrame (items f ++ l) (open_line f) (open_column f) (collects f) :: stack, out)
  | _ => st
  end.

Lemma handle_all_frame f stack out es :
  handle_all (f :: stack, out) es = push_items (f :: stack, out) (map Expression es).
Proof.
  revert f. induction es as [|e es IH]; intros [l a b c]; unfold handle_all in *; simpl; [by rewrite app_nil_r|].
  rewrite IH. simpl. by rewrite <-app_assoc.
Qed.
Lemma handle_all_output out es : handle_all ([], out) es = ([], out ++ es).
Proof.
  revert out. induction es as [|e es IH]; intros out; unfold handle_all in *; simpl; [by rewrite app_nil_r|].
  by rewrite IH, <-app_assoc.
Qed.

Lemma list_items_expressions es : try_map list_item (map Expression es) = Ok es.
Proof. induction es as [|e es IH]; [done|]. simpl. by rewrite IH. Qed.

(** What reading the tokens of the grammar does. *)
Definition reads_expr (toks : list LexItem) (e : PreSymbolicExpression) : Prop :=
  forall input st, map token input = toks -> Forall placed input ->
  exists e', strip e' = strip e /\ try_fold parse_item st input = Ok (handle_expression st e').
Definition reads_all (toks : list LexItem) (es : list PreSymbolicExpression) : Prop :=
  forall input st, map token input = toks -> Forall placed input ->
  exists es', map strip es' = map strip es /\ try_fold parse_item st input = Ok (handle_all st es').
Definition reads_pairs (b : bool) (toks : list LexItem) (es : list PreSymbolicExpression) : Prop :=
  forall input f stack out, map token input = toks -> Forall placed input ->
  exists l es', map strip es' = map strip es /\
    (forall index, index mod 4 = (if b then 0 else 2) -> tuple_items index l = Ok es') /\
    try_fold parse_item (f :: stack, out) input = Ok (push_items (f :: stack, out) l).

Lemma reads_atom item e :
  (forall line column st, placed (item, line, column) -> exists e', strip e' = strip e /\
     parse_item st (item, line, column) = Ok (handle_expression st e')) -> reads_expr [item] e.
Proof.
  intros H input st Hin Hp. destruct input as [|[[i line] column] [|]]; try done. unfold token in Hin. simpl in Hin. injection Hin as ->.
  rewrite try_fold_one. apply H. by inversion Hp.
Qed.

Lemma handle_atom_ok st line column (avoid : bool) (len : Z) t :
  1 <= column -> 0 <= len -> column + len <= u32_max -> strip (Pre.mkPre t 0 Span_zero) = Pre.mkPre t 0 Span_zero ->
  exists e', strip e' = Pre.mkPre t 0 Span_zero /\
    handle_atom st line column avoid len t = Ok (handle_expression st e').
Proof.
  intros Hc Hl Hsum Ht. destruct (last_column_ok avoid column len Hc Hl Hsum) as [n Hn].
  unfold handle_atom. rewrite Hn. cbn [out_bind]. eexists. split; [|reflexivity]. exact Ht.
Qed.

Lemma app_singleton_inv (input : list (LexItem * Z * Z)) open toks close :
  map token input = open :: toks ++ [close] -> Forall placed input ->
  exists l1 c1 inner l2 c2, input = (open, l1, c1) :: inner ++ [(close, l2, c2)] /\ map token inner = toks /\ Forall placed inner.
Proof.
  destruct input as [|[[o l1] c1] input]; [done|]. cbn [map]. intros [= <- Hin] Hp.
  apply map_eq_app in Hin as (inner & last & -> & Hinner & Hlast).
  destruct last as [|[[c l2] c2] [|]]; [discriminate Hlast| |discriminate Hlast]. unfold token in Hlast. cbn in Hlast. injection Hlast as <-.
  inversion Hp as [|? ? ? Hp']; subst. apply Forall_app in Hp' as [Hp' _]. by eexists l1, c1, inner, l2, c2.
Qed.

Lemma spells_read :
  (forall toks e, spells toks e -> reads_expr toks e) /\
  (forall toks es, spells_all toks es -> reads_all toks es) /\
  (forall b toks es, spells_pairs b toks es -> reads_pairs b toks es).
Proof.
  apply spells_mutind; try (intros; apply reads_atom; intros line column [stack out] (Hc & Hw & Hs);
    cbn [token_width] in *; cbn [parse_item]; by apply handle_atom_ok).
  - intros name i s Hv. apply reads_atom. intros line column [stack out] (Hc & Hw & Hs). cbn [token_width] in *. cbn [parse_item].
    destruct (last_column_ok false column (str_len name) Hc Hw Hs) as [n ->].
    rewrite (proj2 (ClarityName_try_from_Ok name name)) by done. cbn [out_bind map_err]. eexists. split; [|reflexivity]. done.
  - intros toks es i s _ IH input [stack out] Hin Hp.
    destruct (app_singleton_inv _ _ _ _ Hin Hp) as (l1 & c1 & inner & l2 & c2 & -> & Hi & Hp').
    destruct (IH inner (mkFrame [] l1 c1 CollectList :: stack, out) Hi Hp') as (es' & Hes & Hrun).
    exists (spanned (Pre.List es') l1 c1 l2 c2). split; [simpl; by rewrite Hes|].
    cbn [try_fold parse_item out_bind]. rewrite try_fold_app, Hrun. cbn [out_bind]. rewrite try_fold_one, handle_all_frame.
    cbn [push_items items app parse_item collects open_line open_column]. by rewrite list_items_expressions.
  - intros toks es i s _ IH input [stack out] Hin Hp.
    destruct (app_singleton_inv _ _ _ _ Hin Hp) as (l1 & c1 & inner & l2 & c2 & -> & Hi & Hp').
    destruct (IH inner (mkFrame [] l1 c1 CollectTuple) stack out Hi Hp') as (l & es' & Hes & Hl & Hrun).
    exists (spanned (Pre.Tuple es') l1 c1 l2 c2). split; [simpl; by rewrite Hes|].
    cbn [try_fold parse_item out_bind]. rewrite try_fold_app, Hrun. cbn [out_bind]. rewrite try_fold_one.
    cbn [push_items items app parse_item collects open_line open_column]. by rewrite Hl.
  - intros input st Hin Hp. destruct input; [|done]. by exists [].
  - intros toks e toks' es _ IHe _ IHes input st Hin Hp. apply map_eq_app in Hin as (i1 & i2 & -> & H1 & H2).
    apply Forall_app in Hp as [Hp1 Hp2]. destruct (IHe i1 st H1 Hp1) as (e' & He & Hrun).
    destruct (IHes i2 (handle_expression st e') H2 Hp2) as (es' & Hes & Hrun').
    exists (e' :: es'). split; [simpl; by rewrite He, Hes|]. rewrite try_fold_app, Hrun. done.
  - intros b input f stack out Hin Hp. destruct input; [|done]. exists [], []. split; [done|]. split; [done|].
    destruct f. simpl. by rewrite app_nil_r.
  - intros b toks e _ IHe input f stack out Hin Hp. destruct (IHe input (f :: stack, out) Hin Hp) as (e' & He & Hrun).
    exists [Expression e'], [e']. split; [simpl; by rewrite He|]. split; [|done].
    intros index Hindex. simpl. by destruct b; rewrite Hindex.
  - intros b toks e toks' es _ IHe _ IHes input f stack out Hin Hp. apply map_eq_app in Hin as (i1 & i2 & -> & H1 & H2).
    destruct i2 as [|[[sep l] c] i2]; [done|]. cbn [map] in H2. injection H2 as Hsep H2.
    apply Forall_app in Hp as [Hp1 Hp2]. inversion Hp2 as [|? ? _ Hp3]; subst.
    destruct (IHe i1 (f :: stack, out) eq_refl Hp1) as (e' & He & Hrun).
    set (sep_item := if b then Colon else Comma).
    destruct (IHes i2 (push_item (push_item f (Expression e')) sep_item) stack out eq_refl Hp3) as (l' & es' & Hes & Hl & Hrun').
    exists (Expression e' :: sep_item :: l'), (e' :: es'). split; [simpl; by rewrite He, Hes|]. split.
    + intros index Hindex.
      assert ((index + 1) mod 4 = (index mod 4 + 1) mod 4) as H1 by (rewrite Z.add_mod_idemp_l; done).
      assert ((index + 1 + 1) mod 4 = ((index + 1) mod 4 + 1) mod 4) as H2' by (rewrite Z.add_mod_idemp_l; done).
      simpl. subst sep_item. destruct b; rewrite Hindex in *; simpl in *; rewrite H1 in *; simpl in *; rewrite Hl by done; done.
    + rewrite try_fold_app, Hrun. cbn [out_bind try_fold].
      assert (parse_item (handle_expression (f :: stack, out) e') (sep, l, c) =
              Ok (push_item (push_item f (Expression e')) sep_item :: stack, out)) as ->.
      { subst sep_item. unfold token in Hsep. simpl in Hsep. subst sep. by destruct b. }
      cbn [out_bind]. rewrite Hrun'. unfold push_items, push_item. cbn [items open_line open_column collects].
      do 4 f_equal. by rewrite <-!app_assoc.
Qed.

Lemma parse_lexed_complete (input : list (LexItem * Z * Z)) (es : list PreSymbolicExpression) :
  Forall placed input -> spells_all (tokens input) es ->
  exists es', parse_lexed input = Ok es' /\ map strip es' = map strip es.
Proof.
  intros Hp Hes. destruct spells_read as (_ & Hall & _).
  destruct (Hall _ _ Hes (List.filter (fun i => significant (token i)) input) ([], [])) as (es' & Hs & Hrun).
  - apply tokens_filtered.
  - apply List.Forall_forall. intros i Hi. apply filter_In in Hi as [Hi _]. revert i Hi. by apply List.Forall_forall.
  - exists es'. split; [|done]. unfold parse_lexed. rewrite parse_items_significant, Hrun, handle_all_output. done.
Qed.

(** C31: the parser recognizes exactly its grammar.  Whatever tokens it accepts
    spell the expressions it returns; whatever tokens spell a list of
    expressions, with any white space between them, are accepted, and the
    expressions returned are those spelled, up to ids and spans. *)
Theorem parser_exact (input : list (LexItem * Z * Z)) :
  Forall placed input ->
  (forall es, parse_lexed input = Ok es -> spells_all (tokens input) es) /\
  (forall es, spells_all (tokens input) es -> exists es', parse_lexed input = Ok es' /\ map strip es' = map strip es).
Proof. intros Hp. split; [apply parse_lexed_sound|]. intros es Hes. by apply parse_lexed_complete. Qed.

Lemma parser_exact_witness :
  let input := [(Lex.LeftParen, 1, 1); (Lex.VariableItem "ok", 1, 2); (Lex.Whitespace, 1, 4);
                (Lex.LiteralValue 1 (VInt 1), 1, 5); (Lex.RightParen, 1, 6)] in
  exists es, parse_lexed input = Ok es /\ spells_all (tokens input) es.
Proof.
  intros input. pose proof (proj1 (parser_exact input ltac:(repeat constructor; vm_compute; discriminate))) as H.
  destruct (parse_lexed input) as [es| |] eqn:E; [|by vm_compute in E|by vm_compute in E]. exists es. split; [done|]. by apply H.
Defined.
