(* ===== verification/PrintParse.v ===== *)
(** PrintParse: expressions that are written out are read back.  [print] writes
    an expression as source text; the lexer and the parser return it. *)
From Stdlib Require Import ZArith Lia Strings.Byte Strings.String Strings.Ascii List Bool Arith.
From stdpp Require Import base list strings option pretty.
From S2P Require Import Prelude Bytes Utf8 Codec Representations BTree Types Signatures Admission Values RoundTrip Deserialization Hashes C32 Principals Regex Lexer PrintLex Parser.
Open Scope Z_scope.
#[local] Arguments String.append : simpl nomatch.

(** * Decimal numbers *)
Lemma pretty_digit n : (n < 10)%N ->
  is_ascii_digit (pretty_N_char n) = true /\ Z.of_N (N_of_ascii (pretty_N_char n)) - 48 = Z.of_N n.
Proof.
  intros Hn. assert (In n (map N.of_nat (seq 0 10))) as H.
  { apply in_map_iff. exists (N.to_nat n). split; [lia|]. apply in_seq. lia. }
  simpl in H. destruct_or! H; by subst.
Qed.

Lemma pretty_N_digits n s : exists t, pretty_N_go n s = (t ++ s)%string /\ all is_ascii_digit t /\
  digits_value digit10 10 0 t = Some (Z.of_N n) /\ ((0 < n)%N -> (1 <= String.length t)%nat).
Proof.
  revert s. induction n as [n IH] using (well_founded_induction N.lt_wf_0). intros s.
  destruct (decide (0 < n)%N) as [Hn|Hn].
  2: { assert (n = 0%N) as -> by lia. exists EmptyString. split_and!; [done..|lia]. }
  rewrite pretty_N_go_step by done.
  destruct (IH (n / 10)%N (N.div_lt n 10 Hn eq_refl) (String (pretty_N_char (n mod 10)) s)) as (t & -> & Ht & Hv & _).
  destruct (pretty_digit (n mod 10)) as [Hd Hdv]; [by apply N.mod_lt|].
  exists (t ++ String (pretty_N_char (n mod 10)) EmptyString)%string. split_and!.
  - by rewrite text_app_assoc.
  - rewrite all_chars_app, Ht. simpl. by rewrite Hd.
  - rewrite digits_value_app, Hv. simpl. unfold digit10. rewrite Hd. simpl. rewrite Hdv. f_equal.
    rewrite N2Z.inj_div, N2Z.inj_mod. pose proof (Z.div_mod (Z.of_N n) 10). lia.
  - intros _. rewrite str_length_app. simpl. lia.
Qed.

Lemma pretty_N_value (n : N) : all is_ascii_digit (pretty n) /\ (1 <= String.length (pretty n))%nat /\
  digits_value digit10 10 0 (pretty n) = Some (Z.of_N n).
Proof.
  unfold pretty, pretty_N. destruct (decide (n = 0%N)) as [->|Hn]; [done|].
  destruct (pretty_N_digits n EmptyString) as (t & -> & Ht & Hv & Hl). rewrite str_app_nil_r. split_and!; [done|apply Hl; lia|done].
Qed.

(** The number of a text of digits, after a sign or not. *)
Lemma radix_digits t n ty : all is_ascii_digit t -> (1 <= String.length t)%nat -> digits_value digit10 10 0 t = Some n ->
  int_min ty <= n <= int_max ty -> from_str_radix digit10 10 ty t = Some n.
Proof.
  intros Ht Hl Hv Hn. destruct t as [|c t]; [simpl in Hl; lia|]. unfold from_str_radix. simpl in Ht. apply andb_true_iff in Ht as [Hc _].
  assert (Ascii.eqb c "+" = false /\ Ascii.eqb c "-" = false) as [-> ->] by (split; apply negb_true_iff; by_chars Hc).
  cbv iota beta. cbn [andb]. rewrite Hv. simpl. rewrite (proj2 (andb_true_iff _ _)); [done|]. split; apply Z.leb_le; lia.
Qed.
Lemma radix_negative t n ty : all is_ascii_digit t -> (1 <= String.length t)%nat -> digits_value digit10 10 0 t = Some n ->
  int_min ty <= - n <= int_max ty -> int_min ty < 0 -> from_str_radix digit10 10 ty (String "-" t) = Some (- n).
Proof.
  intros Ht Hl Hv Hn Hmin. destruct t as [|c t]; [simpl in Hl; lia|]. unfold from_str_radix. change (Ascii.eqb "-" "+") with false. change (Ascii.eqb "-" "-") with true.
  rewrite (proj2 (Z.ltb_lt _ _)) by done. cbv iota beta. cbn [andb]. rewrite Hv. simpl.
  rewrite (proj2 (andb_true_iff _ _)); [done|]. split; apply Z.leb_le; lia.
Qed.

(** The sign and the digits of an integer. *)
Lemma pretty_Z_text (n : Z) : exists sign t, pretty n = (sign ++ t)%string /\ (sign = EmptyString \/ sign = "-"%string) /\
  all is_ascii_digit t /\ (1 <= String.length t)%nat /\
  (int_min i128_ty <= n <= int_max i128_ty -> from_str_radix digit10 10 i128_ty (sign ++ t) = Some n).
Proof.
  destruct n as [|p|p].
  - exists EmptyString, "0"%string. split_and!; [done|by left|done|done|done].
  - destruct (pretty_N_value (Npos p)) as (H1 & H2 & H3). exists EmptyString, (pretty (Npos p)).
    split_and!; [done|by left|done|done|]. intros H. by apply radix_digits.
  - destruct (pretty_N_value (Npos p)) as (H1 & H2 & H3). exists "-"%string, (pretty (Npos p)).
    split_and!; [done|by right|done|done|]. intros H. change (("-" ++ ?t)%string) with (String "-" t).
    apply (radix_negative _ (Zpos p)); [done|done|done|done|by vm_compute].
Qed.

(** * Tokens *)
Section tokens.
Context {D : Digests} {L : DigestLaws D}.

Definition one_line (text : string) : bool := all_chars (fun c => negb (Ascii.eqb c newline)) text.
(** [text], followed by a space or by nothing, is read as [item]. *)
Record writes (text : string) (item : LexItem) : Prop := mkWrites {
  write_match : forall rest, ends rest -> exists h captured,
    find_match lex_matchers (text ++ rest) = Some (h, rest, captured) /\ make_token h captured = Ok item;
  write_start : exists c t, text = String c t /\ is_blank c = false;
  write_line : one_line text = true;
  write_width : 0 <= token_width item <= str_len text
}.

Lemma one_line_of (p : ascii -> bool) t : all p t -> p newline = false -> one_line t = true.
Proof.
  intros Ht Hp. unfold one_line. induction t as [|c t IH]; [done|]. simpl in Ht |- *. apply andb_true_iff in Ht as [Hc Ht].
  rewrite IH by done. rewrite andb_true_r. apply negb_true_iff, Ascii.eqb_neq. intros ->. by rewrite Hp in Hc.
Qed.
Lemma one_line_app a b : one_line (a ++ b) = one_line a && one_line b.
Proof. apply all_chars_app. Qed.
Lemma str_len_cons c t : str_len (String c t) = str_len t + 1.
Proof. unfold str_len. simpl. lia. Qed.
Lemma str_len_app a b : str_len (a ++ b) = str_len a + str_len b.
Proof. unfold str_len. rewrite str_length_app. lia. Qed.

Lemma writes_punctuation n c h item :
  forallb (not_started c) (firstn n lex_matchers) = true -> skipn n lex_matchers = mkMatcher (RLit c) h :: skipn (S n) lex_matchers ->
  make_token h None = Ok item -> is_blank c = false -> c <> newline -> token_width item = 0 ->
  writes (String c EmptyString) item.
Proof.
  intros H1 H2 H3 H4 H5 H6. split.
  - intros rest _. exists h, None. split; [by apply (punctuation_lexes n)|done].
  - by exists c, EmptyString.
  - unfold one_line. simpl. apply Ascii.eqb_neq in H5. by rewrite H5.
  - rewrite H6, str_len_cons. pose proof (str_len_nonneg EmptyString). lia.
Qed.

Lemma writes_variable name : ClarityName_valid name = true -> not_uint name = true -> writes name (Lex.VariableItem name).
Proof.
  intros Hv Hu. pose proof Hv as Hv'. unfold ClarityName_valid in Hv'. apply andb_true_iff in Hv' as [_ Hr].
  pose proof (name_chars name Hr) as Hn. split.
  - intros rest Hrest. exists Token.VariableToken, (Some name). split; [by apply variable_lexes|]. simpl.
    assert (str_contains "#" name = false) as ->; [|done]. unfold str_contains. apply negb_false_iff. clear -Hn.
    induction name as [|c t IH]; [done|]. simpl in Hn |- *. apply andb_true_iff in Hn as [Hc Hn]. rewrite IH by done. rewrite andb_true_r. by_chars Hc.
  - destruct name as [|c t]; [done|]. exists c, t. split; [done|]. simpl in Hn. apply andb_true_iff in Hn as [Hc _].
    apply negb_true_iff. by_chars Hc.
  - by apply (one_line_of name_char).
  - cbn. pose proof (str_len_nonneg name). lia.
Qed.

Lemma writes_trait name : ClarityName_valid name = true -> all trait_char name ->
  writes (String "<" (name ++ ">")) (Lex.TraitReference (str_len name) name).
Proof.
  intros Hv Ht. assert (1 <= String.length name)%nat as Hl by (destruct name; [done|simpl; lia]). split.
  - intros rest _. exists Token.TraitReferenceLiteral, (Some name). split.
    + cbn [append]. rewrite text_app_assoc. cbn [append]. by apply trait_lexes.
    + cbn. by rewrite (proj2 (ClarityName_try_from_Ok name name)).
  - by do 2 eexists.
  - unfold one_line. simpl. fold (one_line (name ++ ">")). rewrite one_line_app, (one_line_of trait_char) by done. done.
  - cbn [token_width]. rewrite str_len_cons, str_len_app. pose proof (str_len_nonneg name). pose proof (str_len_nonneg ">"). lia.
Qed.

(** ** Literals *)
Lemma writes_uint n : 0 <= n <= u128_max -> exists len, writes (String "u" (pretty (Z.to_N n))) (Lex.LiteralValue len (VUInt n)).
Proof.
  intros Hn. destruct (pretty_N_value (Z.to_N n)) as (H1 & H2 & H3). rewrite Z2N.id in H3 by lia.
  exists (str_len (pretty (Z.to_N n))). split.
  - intros rest Hrest. exists Token.UIntLiteral, (Some (pretty (Z.to_N n))). split; [by apply uint_lexes|]. cbn -[from_str_radix].
    by rewrite (radix_digits _ n) by (done || int_lia).
  - by do 2 eexists.
  - exact (one_line_of is_ascii_digit _ H1 eq_refl).
  - cbn [token_width]. rewrite str_len_cons. pose proof (str_len_nonneg (pretty (Z.to_N n))). lia.
Qed.

Lemma writes_int n : int_min i128_ty <= n <= int_max i128_ty -> exists len, writes (pretty n) (Lex.LiteralValue len (VInt n)).
Proof.
  intros Hn. destruct (pretty_Z_text n) as (sign & t & -> & Hs & Ht & Hl & Hv). exists (str_len (sign ++ t)). split.
  - intros rest Hrest. exists Token.IntLiteral, (Some (sign ++ t)%string). rewrite text_app_assoc. split; [by apply int_lexes|].
    cbn -[from_str_radix]. by rewrite Hv.
  - destruct Hs as [->| ->]; [|by do 2 eexists]. destruct t as [|c t]; [simpl in Hl; lia|]. exists c, t. split; [done|].
    simpl in Ht. apply andb_true_iff in Ht as [Hc _]. apply negb_true_iff. by_chars Hc.
  - rewrite one_line_app, (one_line_of is_ascii_digit t) by done. by destruct Hs as [->| ->].
  - cbn [token_width]. pose proof (str_len_nonneg (sign ++ t)). lia.
Qed.

Lemma to_hex_xdigits l : all is_xdigit (to_hex l).
Proof.
  unfold to_hex. induction l as [|b l IH]; [done|]. pose proof (byte_to_Z_range b).
  simpl. rewrite !hex_digit_xdigit by first [apply Z.mod_pos_bound; lia | split; [apply Z.div_pos; lia|apply Z.div_lt_upper_bound; lia]]. done.
Qed.

Lemma writes_buffer d : zlen d <= MAX_VALUE_SIZE -> exists len,
  writes (String "0" (String "x" (to_hex d))) (Lex.LiteralValue len (VSequence (SeqBuffer d))).
Proof.
  intros Hd. exists (str_len (to_hex d)). split.
  - intros rest Hrest. exists Token.HexStringLiteral, (Some (to_hex d)). split; [by apply hex_lexes, Hrest; apply to_hex_xdigits|].
    cbn -[hex_bytes buff_from]. rewrite hex_bytes_to_hex. cbn [map_err out_bind]. unfold buff_from, unchecked, BufferLength_try_from.
    by rewrite (proj2 (Z.ltb_ge _ _)).
  - by do 2 eexists.
  - exact (one_line_of is_xdigit _ (to_hex_xdigits d) eq_refl).
  - cbn [token_width]. rewrite !str_len_cons. pose proof (str_len_nonneg (to_hex d)). lia.
Qed.

Lemma string_body_line b : string_body b -> one_line b = true.
Proof.
  induction 1 as [|b _ IH|c b Hc _ _ _ IH]; [done|exact IH|]. unfold one_line in *. simpl. rewrite IH, andb_true_r.
  apply negb_true_iff, Ascii.eqb_neq. by intros ->.
Qed.
Lemma writes_string_line b : string_body b -> one_line (String quote (b ++ String quote EmptyString)) = true.
Proof. intros Hb. change (one_line (b ++ String quote EmptyString) = true). rewrite one_line_app, string_body_line; done. Qed.
Lemma writes_string_width b : 0 <= str_len b <= str_len (String quote (b ++ String quote EmptyString)).
Proof.
  rewrite str_len_cons, str_len_app. pose proof (str_len_nonneg b). pose proof (str_len_nonneg (String quote EmptyString)). lia.
Qed.

(** The characters of an ASCII string that can be written. *)
Definition ascii_writable (d : list byte) : bool :=
  (zlen d <=? MAX_VALUE_SIZE) && forallb ascii_string_byte d
  && all_chars escapable (string_of_list_byte d) && negb (last_backslash (string_of_list_byte d)).
Lemma writes_ascii d : ascii_writable d = true -> exists len,
  writes (String quote (escape (string_of_list_byte d) ++ String quote EmptyString)) (Lex.LiteralValue len (VSequence (SeqString (CharASCII d)))).
Proof.
  unfold ascii_writable. rewrite !andb_true_iff, negb_true_iff. intros (((Hd & Hs) & Ha) & Hl). bool_to_prop.
  pose proof (escape_body _ Ha Hl) as Hb. exists (str_len (escape (string_of_list_byte d))). split.
  - intros rest Hrest. exists Token.StringASCIILiteral, (Some (escape (string_of_list_byte d))). split.
    + cbn [append]. rewrite text_app_assoc. cbn [append]. by apply ascii_string_lexes.
    + cbn -[string_ascii_from_bytes]. rewrite unescape_escape by done. cbn [out_bind]. unfold as_bytes.
      rewrite list_byte_of_string_of_list_byte. unfold string_ascii_from_bytes, unchecked, BufferLength_try_from. rewrite (proj2 (Z.ltb_ge _ _)) by done. by cbn; rewrite Hs.
  - by do 2 eexists.
  - by apply writes_string_line.
  - apply writes_string_width.
Qed.

Definition scalars (d : list (list byte)) : list Z := default [] (utf8_chars (concat d)).
Lemma writes_utf8 d : 4 * zlen d <= MAX_VALUE_SIZE -> forallb is_utf8_char d = true -> exists len,
  writes (String "u" (String quote (escape_scalars (scalars d) ++ String quote EmptyString)))
    (Lex.LiteralValue len (VSequence (SeqString (CharUTF8 d)))).
Proof.
  intros Hd Hc. destruct (utf8_chars_of d Hc) as (cs & Hcs & Hmap). unfold scalars. rewrite Hcs. change (default [] (Some cs)) with cs.
  pose proof (encode_utf8_chars _ _ Hcs) as [Hsc _].
  pose proof (escape_scalars_body cs Hsc) as Hb. exists (str_len (escape_scalars cs)). split.
  - intros rest Hrest. exists Token.StringUTF8Literal, (Some (escape_scalars cs)). split.
    + cbn [append]. rewrite text_app_assoc. cbn [append]. by apply utf8_string_lexes.
    + cbn -[string_utf8_from_string_utf8_literal]. rewrite unescape_scalars by done. cbn [out_bind].
      rewrite utf8_literal_value; [by rewrite Hmap|done|]. rewrite <-Hmap in Hd. unfold zlen in *. by rewrite length_map in Hd.
  - by do 2 eexists.
  - by apply writes_string_line.
  - pose proof (writes_string_width (escape_scalars cs)) as [H1 H2]. split; [done|]. etrans; [exact H2|]. rewrite (str_len_cons "u"). lia.
Qed.

(** ** Principals and fields *)
(** The address can be written: its version is printable, and its text has the
    length the lexer expects. *)
Definition address_writable (p : StandardPrincipalData) : bool :=
  StandardPrincipalData_wf p && (byte_to_Z (sp_version p) <? 32) && address_text (StandardPrincipalData_to_address p).
Definition contract_writable (c : QualifiedContractIdentifier) : bool :=
  address_writable (issuer c) && ContractName_valid (qc_name c) && contract_text (qc_name c).
Definition principal_writable (p : PrincipalData) : bool :=
  match p with Standard p => address_writable p | Contract c => contract_writable c end.
Definition field_writable (name : string) : bool := ClarityName_valid name && field_text name.

(** The text of a name or an address, and its lines. *)
Lemma address_line t : address_text t = true -> one_line t = true.
Proof. unfold address_text. rewrite !andb_true_iff. intros [[H _] _]. by apply (one_line_of c32_char). Qed.
Lemma contract_line t : contract_text t = true -> one_line t = true.
Proof.
  destruct t as [|c t]; [done|]. unfold contract_text. rewrite !andb_true_iff. intros [[Hc H] _].
  change (one_line (String c t)) with (negb (Ascii.eqb c newline) && one_line t). rewrite (one_line_of contract_char) by done.
  rewrite andb_true_r. by_chars Hc.
Qed.
Lemma field_line t : field_text t = true -> one_line t = true.
Proof. unfold field_text. rewrite !andb_true_iff. intros [[H _] _]. by apply (one_line_of field_char). Qed.
Lemma dotted_line a b : one_line a = true -> one_line b = true -> one_line (a ++ String "." b) = true.
Proof. intros Ha Hb. rewrite one_line_app, Ha. exact Hb. Qed.
Lemma quoted_width c (t : string) : 0 <= str_len t <= str_len (String c t).
Proof. rewrite str_len_cons. pose proof (str_len_nonneg t). lia. Qed.

Lemma writes_principal p : principal_writable p = true -> exists len,
  writes (String "'" (PrincipalData_to_string p)) (Lex.LiteralValue len (VPrincipal p)).
Proof using L.
  intros Hw. exists (str_len (PrincipalData_to_string p)). destruct p as [p|c]; cbn [principal_writable] in Hw.
  - unfold address_writable in Hw. rewrite !andb_true_iff in Hw. destruct Hw as [[Hp Hv] Ht]. bool_to_prop.
    destruct (standard_principal_roundtrip p Hp Hv) as (s & _ & _ & Hparse). cbn [PrincipalData_to_string] in *. split.
    + intros rest Hrest. exists Token.PrincipalLiteral, (Some (StandardPrincipalData_to_address p)). split; [by apply principal_lexes|].
      cbn. by rewrite Hparse.
    + by do 2 eexists.
    + exact (address_line _ Ht).
    + apply quoted_width.
  - unfold contract_writable, address_writable in Hw. rewrite !andb_true_iff in Hw. destruct Hw as [[[[Hp Hv] Ht] Hc] Hn]. bool_to_prop.
    assert (QualifiedContractIdentifier_wf c = true) as Hwf by (unfold QualifiedContractIdentifier_wf; by rewrite Hp, Hc).
    change (PrincipalData_to_string (Contract c)) with (QualifiedContractIdentifier_to_string c).
    pose proof (contract_id_roundtrip c Hwf Hv) as Hparse.
    change (QualifiedContractIdentifier_to_string c) with (StandardPrincipalData_to_address (issuer c) ++ String "." (qc_name c))%string in *. split.
    + intros rest Hrest. eexists Token.FullyQualifiedContractIdentifierLiteral, (Some _). split; [by apply contract_lexes|].
      cbn. by rewrite Hparse.
    + by do 2 eexists.
    + apply (dotted_line (StandardPrincipalData_to_address (issuer c))); [by apply address_line|by apply contract_line].
    + apply quoted_width.
Qed.

Lemma writes_field t : contract_writable (ti_contract_identifier t) = true -> field_writable (ti_name t) = true -> exists len,
  writes (String "'" (TraitIdentifier_to_string t)) (Lex.FieldIdentifier len t).
Proof using L.
  destruct t as [name [p cname]]. cbn [ti_contract_identifier ti_name]. unfold contract_writable, address_writable, field_writable.
  rewrite !andb_true_iff. cbn [issuer qc_name]. intros [[[[Hp Hv] Ht] Hc] Hn] [Hf1 Hf2]. bool_to_prop.
  set (t := mkTraitId name (mkContractId p cname)).
  assert (TraitIdentifier_parse_fully_qualified (TraitIdentifier_to_string t) = Ok t) as Hparse.
  { apply trait_identifier_roundtrip; [|done|done]. unfold QualifiedContractIdentifier_wf. simpl. by rewrite Hp, Hc. }
  assert (TraitIdentifier_to_string t = (StandardPrincipalData_to_address p ++ String "." (cname ++ String "." name))%string) as E.
  { unfold TraitIdentifier_to_string, QualifiedContractIdentifier_to_string. rewrite !text_app_assoc. done. }
  exists (str_len (TraitIdentifier_to_string t)). rewrite E in *. split.
  - intros rest Hrest. eexists Token.FullyQualifiedFieldIdentifierLiteral, (Some _). split; [by apply field_lexes|].
    cbn. by rewrite Hparse.
  - by do 2 eexists.
  - apply (dotted_line (StandardPrincipalData_to_address p)); [by apply address_line|].
    apply dotted_line; [by apply contract_line|by apply field_line].
  - apply quoted_width.
Qed.

Lemma substring_tail c (t : string) : substring 1 (String.length (String c t) - 1) (String c t) = t.
Proof. cbn [String.length]. rewrite Nat.sub_succ, Nat.sub_0_r. cbn [substring]. induction t as [|d t IH]; [done|]. simpl. by rewrite IH. Qed.

Lemma writes_sugared_contract name : ContractName_valid name = true -> contract_text name = true -> exists len,
  writes (String "." name) (Lex.SugaredContractIdentifier len name).
Proof.
  intros Hc Hn. exists (str_len (String "." name)). split.
  - intros rest Hrest. exists Token.SugaredContractIdentifierLiteral, (Some (String "." name)). split; [by apply sugared_contract_lexes|].
    cbn [make_token get_value_or_err ok_or out_bind]. rewrite substring_tail. by rewrite (proj2 (ContractName_try_from_Ok name name)).
  - by do 2 eexists.
  - exact (contract_line _ Hn).
  - cbn [token_width]. pose proof (str_len_nonneg (String "." name)). lia.
Qed.

Lemma writes_sugared_field cname name : ContractName_valid cname = true -> contract_text cname = true -> field_writable name = true -> exists len,
  writes (String "." (cname ++ String "." name)) (Lex.SugaredFieldIdentifier len cname name).
Proof.
  unfold field_writable. rewrite andb_true_iff. intros Hc Hn [Hf1 Hf2]. exists (str_len (String "." (cname ++ String "." name))). split.
  - intros rest Hrest. eexists Token.SugaredFieldIdentifierLiteral, (Some _). split; [by apply sugared_field_lexes|].
    cbn [make_token get_value_or_err ok_or out_bind]. unfold TraitIdentifier_parse_sugared_syntax, TraitIdentifier_parse.
    assert (splitn 3 dot (String "." (cname ++ String "." name)) = [EmptyString; cname; name]) as ->.
    { apply (splitn_3 EmptyString cname name); [done|]. unfold ContractName_valid in Hc. apply andb_true_iff in Hc as [_ Hc].
      by apply ContractName_no_dot. }
    cbn [out_bind]. rewrite (proj2 (ContractName_try_from_Ok cname cname)) by done. cbn [map_err out_bind].
    by rewrite (proj2 (ClarityName_try_from_Ok name name)).
  - by do 2 eexists.
  - apply (dotted_line cname); [by apply contract_line|by apply field_line].
  - cbn [token_width]. pose proof (str_len_nonneg (String "." (cname ++ String "." name))). lia.
Qed.
End tokens.

(** * Lexing words *)
(** Every word is followed by a space. *)
Fixpoint spaced (ws : list string) : string :=
  match ws with [] => EmptyString | w :: ws => (w ++ String " " (spaced ws))%string end.

Lemma lines_from_one_line n t : one_line t = true -> lines_from n t = [].
Proof.
  revert n. induction t as [|c t IH]; intros n; [done|]. unfold one_line. simpl. intros H. apply andb_true_iff in H as [Hc Ht].
  apply negb_true_iff in Hc. rewrite Hc. by apply IH.
Qed.

Section programs.
Context {D : Digests} {L : DigestLaws D}.

Lemma spaced_start ws toks : Forall2 writes ws toks -> stops is_blank (spaced ws).
Proof. intros H. destruct H as [|w i ws toks Hw _]; [apply stops_nil|]. destruct (write_start _ _ Hw) as (c & t & -> & Hc). by apply stops_cons. Qed.

Lemma spaced_line ws toks : Forall2 writes ws toks -> one_line (spaced ws) = true.
Proof.
  induction 1 as [|w i ws toks Hw _ IH]; [done|]. cbn [spaced]. rewrite one_line_app, (write_line _ _ Hw). exact IH.
Qed.

Lemma advance_ok line column munch n : 0 <= n -> 0 <= column -> column + n <= u32_max ->
  advance (mkCursor [] line column munch) n = Ok (mkCursor [] line (column + n) (munch + n)).
Proof.
  intros Hn Hc Hs. unfold advance. cbn [column_pos line_breaks current_line munch_index].
  assert (as_u32 n = n) as -> by (unfold as_u32; apply Z.mod_small; int_lia).
  by rewrite (proj2 (checked_add_Some _ _ _ (column + n))) by (split; [done|int_lia]).
Qed.

(** One round of the loop, where a matcher matches. *)
Lemma lex_round fuel context line column munch c t rest h captured item :
  find_match lex_matchers (String c t) = Some (h, rest, captured) -> make_token h captured = Ok item ->
  check_context context h (taken (String c t) rest) = Ok tt ->
  1 <= column -> column + str_len (taken (String c t) rest) <= u32_max ->
  lex_loop (S fuel) context (mkCursor [] line column munch) (String c t) =
  let? result := lex_loop fuel (next_context h)
    (mkCursor [] line (column + str_len (taken (String c t) rest)) (munch + str_len (taken (String c t) rest))) rest in
  Ok ((item, line, column) :: result).
Proof.
  intros Hm Ht Hc H1 H2. cbn [lex_loop]. change (next_line (mkCursor [] line column munch)) with (Ok (E:=ParseErrors) (mkCursor [] line column munch)).
  cbn [out_bind]. rewrite Hm, Hc. cbn [out_bind]. rewrite Ht. cbn [out_bind].
  rewrite advance_ok by (first [apply str_len_nonneg|lia]). done.
Qed.

Lemma check_closes context found : check_context context Token.Whitespace found = Ok tt.
Proof. by destruct context. Qed.

Lemma lex_words ws toks line : Forall2 writes ws toks -> forall fuel column munch,
  (String.length (spaced ws) <= fuel)%nat -> 1 <= column -> column + str_len (spaced ws) <= u32_max ->
  exists lexed, lex_loop fuel ExpectNothing (mkCursor [] line column munch) (spaced ws) = Ok lexed /\
    tokens lexed = List.filter significant toks /\ Forall placed lexed.
Proof.
  induction 1 as [|w i ws toks Hw Hws IH]; intros fuel column munch Hf Hc Hs.
  { exists []. split; [by destruct fuel|]. split; [done|constructor]. }
  cbn [spaced] in *. rewrite str_length_app in Hf. rewrite str_len_app, str_len_cons in Hs. cbn [String.length] in Hf.
  pose proof (str_len_nonneg w). pose proof (str_len_nonneg (spaced ws)).
  destruct (write_match _ _ Hw (String " " (spaced ws))) as (h & captured & Hm & Ht); [right; by eexists|].
  destruct (write_start _ _ Hw) as (c & t & -> & Hb). cbn [append] in *.
  destruct fuel as [|[|fuel]]; [cbn in Hf; lia..|].
  pose proof (taken_app (String c t) (String " " (spaced ws))) as Htk. cbn [append] in Htk.
  rewrite (lex_round _ _ _ _ _ _ _ _ _ _ _ Hm Ht) by (rewrite ?Htk; first [done|lia]). rewrite Htk.
  pose proof (taken_app (String " " EmptyString) (spaced ws)) as Htk'. cbn [append] in Htk'.
  assert (str_len (String " " EmptyString) = 1) as Hone by done.
  rewrite (lex_round fuel (next_context h) _ _ _ _ _ _ _ _ Lex.Whitespace (space_lexes _ (spaced_start _ _ Hws)))
    by (rewrite ?Htk', ?Hone; first [done|apply check_closes|lia]).
  rewrite Htk', Hone. cbn [next_context].
  destruct (IH fuel (column + str_len (String c t) + 1) (munch + str_len (String c t) + 1)) as (lexed & -> & Htoks & Hplaced);
    [cbn in Hf; lia|lia|lia|].
  cbn [out_bind]. eexists. split; [reflexivity|]. split.
  - unfold tokens in *. cbn [map List.filter]. change (significant (token (Lex.Whitespace, _, _))) with false.
    unfold token at 1 2. cbn [fst]. by rewrite Htoks.
  - pose proof (write_width _ _ Hw). repeat constructor; cbn [placed token_width]; try lia. done.
Qed.

Lemma lex_spaced ws toks : Forall2 writes ws toks -> str_len (spaced ws) < u32_max ->
  exists lexed, lex (spaced ws) = Ok lexed /\ tokens lexed = List.filter significant toks /\ Forall placed lexed.
Proof.
  intros Hw Hl. unfold lex, get_lines_at. rewrite (lines_from_one_line _ _ (spaced_line _ _ Hw)).
  apply (lex_words ws toks); [done|done|lia|lia].
Qed.

(** * Printing expressions *)
Definition literal (v : Value) : string :=
  match v with
  | VInt n => pretty n
  | VUInt n => String "u" (pretty (Z.to_N n))
  | VSequence (SeqBuffer d) => String "0" (String "x" (to_hex d))
  | VSequence (SeqString (CharASCII d)) => String quote (escape (string_of_list_byte d) ++ String quote EmptyString)
  | VSequence (SeqString (CharUTF8 d)) => String "u" (String quote (escape_scalars (scalars d) ++ String quote EmptyString))
  | VPrincipal p => String "'" (PrincipalData_to_string p)
  | _ => EmptyString
  end.
(** The values that have a literal. *)
Definition literal_writable (v : Value) : bool :=
  match v with
  | VInt _ | VUInt _ | VSequence (SeqBuffer _) | VSequence (SeqString (CharUTF8 _)) => Value_wf v
  | VSequence (SeqString (CharASCII d)) => ascii_writable d
  | VPrincipal p => principal_writable p
  | _ => false
  end.

(** The words of an expression. *)
Section alternate.
Context (words : PreSymbolicExpression -> list string).
Fixpoint alternate (b : bool) (es : list PreSymbolicExpression) : list string :=
  match es with
  | [] => []
  | e :: es =>
      words e ++ match es with [] => [] | _ => (if b then ":" else ",")%string :: alternate (negb b) es end
  end.
End alternate.
Fixpoint words (e : PreSymbolicExpression) : list string :=
  match Pre.pre_expr e with
  | Pre.AtomValue v => [literal v]
  | Pre.Atom name => [name]
  | Pre.List es => "("%string :: concat (map words es) ++ [")"%string]
  | Pre.Tuple es => "{"%string :: alternate words true es ++ ["}"%string]
  | Pre.SugaredContractIdentifier name => [String "." name]
  | Pre.SugaredFieldIdentifier contract name => [String "." (contract ++ String "." name)]
  | Pre.FieldIdentifier t => [String "'" (TraitIdentifier_to_string t)]
  | Pre.TraitReference name => [String "<" (name ++ ">")]
  end.
Fixpoint writable (e : PreSymbolicExpression) : bool :=
  match Pre.pre_expr e with
  | Pre.AtomValue v => literal_writable v
  | Pre.Atom name => ClarityName_valid name && not_uint name
  | Pre.List es | Pre.Tuple es => forallb writable es
  | Pre.SugaredContractIdentifier name => ContractName_valid name && contract_text name
  | Pre.SugaredFieldIdentifier contract name => ContractName_valid contract && contract_text contract && field_writable name
  | Pre.FieldIdentifier t => contract_writable (ti_contract_identifier t) && field_writable (ti_name t)
  | Pre.TraitReference name => ClarityName_valid name && all_chars trait_char name
  end.
Definition print (es : list PreSymbolicExpression) : string := spaced (concat (map words es)).

Definition written (ws : list string) (e : PreSymbolicExpression) : Prop := exists toks, Forall2 writes ws toks /\ spells toks e.

Lemma written_one w i e : writes w i -> spells [i] e -> written [w] e.
Proof. intros. exists [i]. split; [constructor; [done|constructor]|done]. Qed.

Lemma literal_written v i s : literal_writable v = true -> written [literal v] (Pre.mkPre (Pre.AtomValue v) i s).
Proof using L.
  intros Hv. assert (exists len, writes (literal v) (Lex.LiteralValue len v)) as [len H].
  2: { eapply written_one; [exact H|constructor]. }
  destruct v as [n|n| |[d|ld|[d|d]]|p| | |]; try done; cbn [literal_writable Value_wf in_ty] in Hv; cbn [literal].
  - unfold in_ty in Hv. bool_to_prop. by apply writes_int.
  - unfold in_ty in Hv. bool_to_prop. apply writes_uint. int_lia.
  - bool_to_prop. by apply writes_buffer.
  - apply andb_true_iff in Hv as [Hd Hc]. bool_to_prop. by apply writes_utf8.
  - by apply writes_ascii.
  - by apply writes_principal.
Qed.

Lemma list_written es : Forall (fun e => written (words e) e) es ->
  exists toks, Forall2 writes (concat (map words es)) toks /\ spells_all toks es.
Proof.
  induction 1 as [|e es (t1 & H1 & Hs1) _ (t2 & H2 & Hs2)]; [exists []; split; constructor|].
  exists (t1 ++ t2). cbn [map concat]. split; [by apply Forall2_app|by constructor].
Qed.

Lemma tuple_written es b : Forall (fun e => written (words e) e) es ->
  exists toks, Forall2 writes (alternate words b es) toks /\ spells_pairs b toks es.
Proof.
  intros H. revert b. induction H as [|e es (t1 & H1 & Hs1) Hes IH]; intros b; [exists []; split; constructor|].
  cbn [alternate]. destruct es as [|e' es]; [exists t1; rewrite app_nil_r; split; [done|by constructor]|].
  destruct (IH (negb b)) as (t2 & H2 & Hs2).
  exists (t1 ++ (if b then Lex.ColonSeparator else Lex.CommaSeparator) :: t2). split; [|by constructor].
  apply Forall2_app; [done|]. constructor; [|done]. destruct b.
  - by apply (writes_punctuation 6 ":" Token.Colon).
  - by apply (writes_punctuation 5 "," Token.Comma).
Qed.

Lemma bracketed open close o c ws toks : writes open o -> writes close c -> Forall2 writes ws toks ->
  Forall2 writes (open :: ws ++ [close]) (o :: toks ++ [c]).
Proof. intros Ho Hc Hw. constructor; [done|]. apply Forall2_app; [done|]. constructor; [done|constructor]. Qed.

Lemma expression_written : forall e, writable e = true -> written (words e) e.
Proof using L.
  fix IH 1. intros [t i s] Hw.
  assert (forall es, forallb writable es = true -> Forall (fun e => written (words e) e) es) as IHs.
  { fix IHs 1. intros [|e es] H; [constructor|]. cbn [forallb] in H. apply andb_true_iff in H as [He Hes].
    constructor; [by apply IH|by apply IHs]. }
  destruct t as [v|name|es|es|name|contract name|t|name]; cbn [writable Pre.pre_expr words] in *.
  - by apply literal_written.
  - apply andb_true_iff in Hw as [Hv Hu]. eapply written_one; [by apply writes_variable|by constructor].
  - destruct (list_written es (IHs es Hw)) as (toks & Ht & Hs). eexists. split; [|by apply spells_list].
    apply bracketed; [|  |done].
    + by apply (writes_punctuation 7 "(" Token.LParens).
    + by apply (writes_punctuation 8 ")" Token.RParens).
  - destruct (tuple_written es true (IHs es Hw)) as (toks & Ht & Hs). eexists. split; [|by apply spells_tuple].
    apply bracketed; [|  |done].
    + by apply (writes_punctuation 9 "{" Token.LCurly).
    + by apply (writes_punctuation 10 "}" Token.RCurly).
  - apply andb_true_iff in Hw as [Hv Hu]. destruct (writes_sugared_contract name Hv Hu) as [len H].
    eapply written_one; [exact H|constructor].
  - rewrite !andb_true_iff in Hw. destruct Hw as [[Hv Hu] Hf]. destruct (writes_sugared_field contract name Hv Hu Hf) as [len H].
    eapply written_one; [exact H|constructor].
  - apply andb_true_iff in Hw as [Hv Hu]. destruct (writes_field t Hv Hu) as [len H]. eapply written_one; [exact H|constructor].
  - apply andb_true_iff in Hw as [Hv Hu]. eapply written_one; [by apply writes_trait|constructor].
Qed.

(** The tokens of the grammar are not white space. *)
Lemma spells_significant :
  (forall toks e, spells toks e -> List.filter significant toks = toks) /\
  (forall toks es, spells_all toks es -> List.filter significant toks = toks) /\
  (forall b toks es, spells_pairs b toks es -> List.filter significant toks = toks).
Proof.
  apply spells_mutind; try done.
  - intros toks es _ _ _ IH. cbn [List.filter significant]. by rewrite List.filter_app, IH.
  - intros toks es _ _ _ IH. cbn [List.filter significant]. by rewrite List.filter_app, IH.
  - intros toks e toks' es _ IH1 _ IH2. by rewrite List.filter_app, IH1, IH2.
  - intros b toks e toks' es _ IH1 _ IH2. rewrite List.filter_app. cbn [List.filter].
    destruct b; cbn [significant]; by rewrite IH1, IH2.
Qed.
End programs.

(** C18: every expression that can be written is read back.  A program of
    writable expressions, printed with a space after each token, parses, and the
    expressions are the ones printed, up to ids and spans. *)
Theorem programs_parse_print {D : Digests} {L : DigestLaws D} (es : list PreSymbolicExpression) :
  forallb writable es = true -> str_len (print es) < u32_max ->
  exists es', parse (print es) = Ok es' /\ map strip es' = map strip es.
Proof.
  intros Hw Hl. destruct (list_written es) as (toks & Htoks & Hspells).
  { apply List.Forall_forall. intros e He. apply expression_written. revert e He. by apply forallb_forall. }
  destruct (lex_spaced _ _ Htoks Hl) as (lexed & Hlex & Hlexed & Hplaced).
  rewrite (proj1 (proj2 spells_significant) _ _ Hspells) in Hlexed. rewrite <-Hlexed in Hspells.
  destruct (parse_lexed_complete lexed es Hplaced Hspells) as (es' & Hes & Hstrip).
  exists es'. split; [|done]. unfold parse, print. by rewrite Hlex.
Qed.

Lemma programs_parse_print_witness :
  let atom name := Pre.mkPre (Pre.Atom name) 0 Span_zero in
  let value v := Pre.mkPre (Pre.AtomValue v) 0 Span_zero in
  let es := [Pre.mkPre (Pre.List [atom "define-constant"; atom "token";
    Pre.mkPre (Pre.Tuple [atom "id"; value (VUInt 12); atom "name"; value (VSequence (SeqString (CharUTF8 [[x61]; [xc3; xa9]])))]) 0 Span_zero]) 0 Span_zero;
    value (VSequence (SeqString (CharASCII [x61; x22; x0a]))); value (VInt (-7)); value (VSequence (SeqBuffer [x0f]))] in
  exists es', parse (D:=mixing_digests) (print (D:=mixing_digests) es) = Ok es' /\ map strip es' = map strip es.
Proof. apply (@programs_parse_print mixing_digests mixing_digest_laws); vm_compute; reflexivity. Defined.
