(* ===== verification/Transaction.v ===== *)
(** Transaction: the transactions of src/chainstate/stacks/mod.rs and their wire
    format (src/chainstate/stacks/{transaction,auth,block}.rs and
    src/util_lib/strings.rs): authorizations, post-conditions and payloads, with
    the readers' checks in the order the code makes them. *)
From Stdlib Require Import ZArith Lia Strings.Byte Strings.String List Bool.
From stdpp Require Import base decidable list strings pretty.
From S2P Require Import Prelude Bytes Utf8 Codec Representations BTree Types Signatures Admission Values.
From S2P Require Import Serialization Hashes Keys ValueCodec AssetMap PostConditions Lexer.
Open Scope Z_scope.

Definition u16_ty : int_ty := {| int_min := 0; int_max := u16_max |}.

Definition MAX_BLOCK_LEN : Z := 2 * 1024 * 1024.
Definition MAX_TRANSACTION_LEN : Z := MAX_BLOCK_LEN.

(** [mem::size_of::<T>()], which the compiler decides. *)
Inductive wire_type :=
| TyValue | TyPrincipalData | TyMicroblockHeader | TyContractCall | TySmartContract | TyPayload | TyAssetInfo
| TyPostConditionPrincipal | TyPostCondition | TyAuthField | TySinglesig | TyMultisig | TySpendingCondition | TyAuth
| TyTransaction | TyBlockHeader | TyBlock | TyMicroblock | TyWorkScore | TyVRFProof.
Class Layout := { size_of : wire_type -> Z }.

(** * Data *)
Inductive TransactionAnchorMode := OnChainOnly | OffChainOnly | AnchorAny.
Definition TransactionAnchorMode_to_u8 (m : TransactionAnchorMode) : Z :=
  match m with OnChainOnly => 1 | OffChainOnly => 2 | AnchorAny => 3 end.

Inductive TransactionAuthFlags := AuthStandard | AuthSponsored.
Definition TransactionAuthFlags_to_u8 (f : TransactionAuthFlags) : Z :=
  match f with AuthStandard => 4 | AuthSponsored => 5 end.

Inductive TransactionPublicKeyEncoding := Compressed | Uncompressed.
Definition TransactionPublicKeyEncoding_to_u8 (e : TransactionPublicKeyEncoding) : Z :=
  match e with Compressed => 0 | Uncompressed => 1 end.
Definition TransactionPublicKeyEncoding_from_u8 (n : Z) : option TransactionPublicKeyEncoding :=
  if n =? 0 then Some Compressed else if n =? 1 then Some Uncompressed else None.

Inductive SinglesigHashMode := P2PKH | P2WPKH.
Definition SinglesigHashMode_to_u8 (m : SinglesigHashMode) : Z := match m with P2PKH => 0 | P2WPKH => 2 end.
Definition SinglesigHashMode_from_u8 (n : Z) : option SinglesigHashMode :=
  if n =? 0 then Some P2PKH else if n =? 2 then Some P2WPKH else None.
Definition SinglesigHashMode_to_address_hash_mode (m : SinglesigHashMode) : AddressHashMode :=
  match m with P2PKH => SerializeP2PKH | P2WPKH => SerializeP2WPKH end.

Inductive MultisigHashMode := P2SH | P2WSH.
Definition MultisigHashMode_to_u8 (m : MultisigHashMode) : Z := match m with P2SH => 1 | P2WSH => 3 end.
Definition MultisigHashMode_from_u8 (n : Z) : option MultisigHashMode :=
  if n =? 1 then Some P2SH else if n =? 3 then Some P2WSH else None.
Definition MultisigHashMode_to_address_hash_mode (m : MultisigHashMode) : AddressHashMode :=
  match m with P2SH => SerializeP2SH | P2WSH => SerializeP2WSH end.

#[global] Instance TransactionAnchorMode_eq_dec : EqDecision TransactionAnchorMode.
Proof. solve_decision. Defined.
#[global] Instance TransactionPublicKeyEncoding_eq_dec : EqDecision TransactionPublicKeyEncoding.
Proof. solve_decision. Defined.
#[global] Instance SinglesigHashMode_eq_dec : EqDecision SinglesigHashMode.
Proof. solve_decision. Defined.
#[global] Instance MultisigHashMode_eq_dec : EqDecision MultisigHashMode.
Proof. solve_decision. Defined.

Inductive TransactionAuthField {K : LibSecp256k1} :=
| AuthPublicKey (pubk : Secp256k1PublicKey)
| AuthSignature (key_encoding : TransactionPublicKeyEncoding) (sig : list byte).

Definition is_signature {K : LibSecp256k1} (self : TransactionAuthField) : bool :=
  match self with AuthSignature _ _ => true | _ => false end.

Record MultisigSpendingCondition {K : LibSecp256k1} := mkMultisig {
  ms_hash_mode : MultisigHashMode;
  ms_signer : list byte;
  ms_nonce : Z;
  ms_tx_fee : Z;
  ms_fields : list TransactionAuthField;
  ms_signatures_required : Z
}.

Arguments mkMultisig {K}.

Record SinglesigSpendingCondition := mkSinglesig {
  ss_hash_mode : SinglesigHashMode;
  ss_signer : list byte;
  ss_nonce : Z;
  ss_tx_fee : Z;
  ss_key_encoding : TransactionPublicKeyEncoding;
  ss_signature : list byte
}.

Inductive TransactionSpendingCondition {K : LibSecp256k1} :=
| Singlesig (data : SinglesigSpendingCondition)
| Multisig (data : MultisigSpendingCondition).

Inductive TransactionAuth {K : LibSecp256k1} :=
| StandardAuth (origin : TransactionSpendingCondition)
| SponsoredAuth (origin sponsor : TransactionSpendingCondition).

Record TransactionContractCall := mkContractCall {
  cc_address : StacksAddress;
  cc_contract_name : string;
  cc_function_name : string;
  cc_function_args : list Value
}.

Record TransactionSmartContract := mkSmartContract {
  sc_name : string;
  sc_code_body : list byte
}.

(** [miner_signatures] is the vector inside [MessageSignatureList]. *)
Record StacksMicroblockHeader := mkMicroblockHeader {
  mh_version : Z;
  mh_sequence : Z;
  mh_prev_block : list byte;
  mh_tx_merkle_root : list byte;
  mh_miner_signatures : list (list byte)
}.

#[global] Instance StacksMicroblockHeader_eq_dec : EqDecision StacksMicroblockHeader.
Proof. solve_decision. Defined.

Inductive TransactionPayload :=
| TokenTransfer (recipient : PrincipalData) (amount : Z) (memo : list byte)
| PayloadContractCall (cc : TransactionContractCall)
| PayloadSmartContract (sc : TransactionSmartContract)
| PoisonMicroblock (h1 h2 : StacksMicroblockHeader)
| Coinbase (payload : list byte).

Definition TransactionPayload_name (self : TransactionPayload) : string :=
  match self with
  | TokenTransfer _ _ _ => "TokenTransfer"
  | PayloadContractCall _ => "ContractCall"
  | PayloadSmartContract _ => "SmartContract"
  | PoisonMicroblock _ _ => "PoisonMicroblock"
  | Coinbase _ => "Coinbase"
  end.

Inductive TransactionVersion := Mainnet | Testnet.
Definition TransactionVersion_to_u8 (v : TransactionVersion) : Z := match v with Mainnet => 0 | Testnet => 128 end.

Definition TransactionPostConditionMode_to_u8 (m : TransactionPostConditionMode) : Z :=
  match m with Allow => 1 | Deny => 2 end.

Record StacksTransaction {K : LibSecp256k1} := mkTransaction {
  tx_version : TransactionVersion;
  tx_chain_id : Z;
  tx_auth : TransactionAuth;
  tx_anchor_mode : TransactionAnchorMode;
  tx_post_condition_mode : TransactionPostConditionMode;
  tx_post_conditions : list TransactionPostCondition;
  tx_payload : TransactionPayload
}.

Arguments mkTransaction {K}.

Definition FungibleConditionCode_to_u8 (c : FungibleConditionCode) : Z :=
  match c with SentEq => 1 | SentGt => 2 | SentGe => 3 | SentLt => 4 | SentLe => 5 end.
Definition NonfungibleConditionCode_to_u8 (c : NonfungibleConditionCode) : Z :=
  match c with Sent => 16 | NotSent => 17 end.

(** [self.to_clarity_contract_id()] *)
Definition to_clarity_contract_id (self : TransactionContractCall) : QualifiedContractIdentifier :=
  mkContractId (StandardPrincipalData_from_address (cc_address self)) (cc_contract_name self).

(** * Strings *)
(** Printable ASCII, with tab and newline. *)
Definition printable_byte (c : byte) : bool :=
  negb ((byte_to_Z c <? 0x20) && negb (bool_decide (c = x09)) && negb (bool_decide (c = x0a)))
  && negb (0x7e <? byte_to_Z c).

Definition StacksString_is_valid_string (s : list byte) : bool :=
  forallb (fun c => byte_to_Z c <? 128) s && forallb printable_byte s.

Definition StacksString_from_str (s : string) : option (list byte) :=
  if StacksString_is_valid_string (as_bytes s) then Some (as_bytes s) else None.

Definition StacksString_codec : Codec (list byte) := {|
  consensus_serialize self := write_next (vec_codec u8_codec) (map byte_to_Z self);
  consensus_deserialize fd :=
    let? '(bytes, fd) := read_bounded MAX_MESSAGE_LEN (read_next (vec_codec u8_codec)) fd in
    let bytes := map byte_of_Z bytes in
    let? s := ok_or (DeserializeError "Invalid Stacks string: could not build from utf8") (string_from_utf8 bytes) in
    if negb (StacksString_is_valid_string (as_bytes s)) then
      Err (DeserializeError "Invalid Stacks string: non-printable or non-ASCII string")
    else Ok (bytes, fd);
  mem_size_of := 24
|}.

(** The string parses to a single Clarity variable. *)
Definition is_clarity_variable {D : Digests} (self : list byte) : outcome codec_error bool :=
  let? s := expect_some (string_from_utf8 self) in
  match lex s with
  | Ok [(Lex.VariableItem _, _, _)] => Ok true
  | Ok _ | Err _ => Ok false
  | Panic => Panic
  end.

Section codecs.
Context {K : LibSecp256k1} {D : Digests} {Y : Layout}.

(** * Microblock headers *)
Definition MessageSignature_codec : Codec (list byte) := byte_array_codec 65.

Definition MessageSignatureList_codec : Codec (list (list byte)) := {|
  consensus_serialize self := write_next (vec_codec MessageSignature_codec) self;
  consensus_deserialize fd :=
    let? '(signatures, fd) := read_next (vec_codec MessageSignature_codec) fd in
    let? _ := try_fold (fun _ signature =>
                let? _ := ok_or (DeserializeError "Failed to parse signature") (to_secp256k1_recoverable signature) in
                Ok tt) tt signatures in
    Ok (signatures, fd);
  mem_size_of := 24
|}.

Definition microblock_header_serialize (self : StacksMicroblockHeader) (empty_sig : bool)
  : outcome codec_error (list byte) :=
  let? version := write_next u8_codec (mh_version self) in
  let? sequence := write_next u16_codec (mh_sequence self) in
  let? prev_block := write_next (byte_array_codec 32) (mh_prev_block self) in
  let? root := write_next (byte_array_codec 32) (mh_tx_merkle_root self) in
  let? sigs := if empty_sig then write_next MessageSignatureList_codec []
               else write_next (vec_codec MessageSignature_codec) (mh_miner_signatures self) in
  Ok (version ++ sequence ++ prev_block ++ root ++ sigs).

Definition StacksMicroblockHeader_codec : Codec StacksMicroblockHeader := {|
  consensus_serialize self := microblock_header_serialize self false;
  consensus_deserialize fd :=
    let? '(version, fd) := read_next u8_codec fd in
    let? '(sequence, fd) := read_next u16_codec fd in
    let? '(prev_block, fd) := read_next (byte_array_codec 32) fd in
    let? '(tx_merkle_root, fd) := read_next (byte_array_codec 32) fd in
    let? '(miner_signatures, fd) := read_next MessageSignatureList_codec fd in
    Ok (mkMicroblockHeader version sequence prev_block tx_merkle_root miner_signatures, fd);
  mem_size_of := size_of TyMicroblockHeader
|}.

(** * Payloads *)
Definition TransactionContractCall_codec : Codec TransactionContractCall := {|
  consensus_serialize self :=
    let? address := write_next StacksAddress_codec (cc_address self) in
    let? contract_name := write_next ContractName_codec (cc_contract_name self) in
    let? function_name := write_next ClarityName_codec (cc_function_name self) in
    let? function_args := write_next (vec_codec (Value_codec (size_of TyValue))) (cc_function_args self) in
    Ok (address ++ contract_name ++ function_name ++ function_args);
  consensus_deserialize fd :=
    let? '(address, fd) := read_next StacksAddress_codec fd in
    let? '(contract_name, fd) := read_next ContractName_codec fd in
    let? '(function_name, fd) := read_next ClarityName_codec fd in
    let? '(function_args, fd) :=
      read_bounded MAX_TRANSACTION_LEN (read_next (vec_codec (Value_codec (size_of TyValue)))) fd in
    let? name := expect_some (StacksString_from_str function_name) in
    let? is_variable := is_clarity_variable name in
    if negb is_variable then
      Err (DeserializeError "Failed to parse transaction: invalid function name -- not a Clarity variable")
    else Ok (mkContractCall address contract_name function_name function_args, fd);
  mem_size_of := size_of TyContractCall
|}.

Definition TransactionSmartContract_codec : Codec TransactionSmartContract := {|
  consensus_serialize self :=
    let? name := write_next ContractName_codec (sc_name self) in
    let? code_body := write_next StacksString_codec (sc_code_body self) in
    Ok (name ++ code_body);
  consensus_deserialize fd :=
    let? '(name, fd) := read_next ContractName_codec fd in
    let? '(code_body, fd) := read_next StacksString_codec fd in
    Ok (mkSmartContract name code_body, fd);
  mem_size_of := size_of TySmartContract
|}.

Definition TransactionPayload_serialize (self : TransactionPayload) : outcome codec_error (list byte) :=
  match self with
  | TokenTransfer address amount memo =>
      let? id := write_next u8_codec 0 in
      let? address := write_next (PrincipalData_codec (size_of TyPrincipalData)) address in
      let? amount := write_next u64_codec amount in
      let? memo := write_next (byte_array_codec 34) memo in
      Ok (id ++ address ++ amount ++ memo)
  | PayloadContractCall cc =>
      let? id := write_next u8_codec 2 in
      let? cc := consensus_serialize TransactionContractCall_codec cc in
      Ok (id ++ cc)
  | PayloadSmartContract sc =>
      let? id := write_next u8_codec 1 in
      let? sc := consensus_serialize TransactionSmartContract_codec sc in
      Ok (id ++ sc)
  | PoisonMicroblock h1 h2 =>
      let? id := write_next u8_codec 3 in
      let? h1 := consensus_serialize StacksMicroblockHeader_codec h1 in
      let? h2 := consensus_serialize StacksMicroblockHeader_codec h2 in
      Ok (id ++ h1 ++ h2)
  | Coinbase buf =>
      let? id := write_next u8_codec 4 in
      let? buf := write_next (byte_array_codec 32) buf in
      Ok (id ++ buf)
  end.

Definition TransactionPayload_deserialize (fd : list byte) : outcome codec_error (TransactionPayload * list byte) :=
  let? '(type_id, fd) := read_next u8_codec fd in
  if type_id =? 0 then
    let? '(principal, fd) := read_next (PrincipalData_codec (size_of TyPrincipalData)) fd in
    let? '(amount, fd) := read_next u64_codec fd in
    let? '(memo, fd) := read_next (byte_array_codec 34) fd in
    Ok (TokenTransfer principal amount memo, fd)
  else if type_id =? 2 then
    let? '(payload, fd) := read_next TransactionContractCall_codec fd in
    Ok (PayloadContractCall payload, fd)
  else if type_id =? 1 then
    let? '(payload, fd) := read_next TransactionSmartContract_codec fd in
    Ok (PayloadSmartContract payload, fd)
  else if type_id =? 3 then
    let? '(h1, fd) := read_next StacksMicroblockHeader_codec fd in
    let? '(h2, fd) := read_next StacksMicroblockHeader_codec fd in
    if bool_decide (h1 = h2) then
      Err (DeserializeError "Failed to parse transaction -- microblock headers match")
    else if negb (mh_sequence h1 =? mh_sequence h2) && negb (bool_decide (mh_prev_block h1 = mh_prev_block h2)) then
      Err (DeserializeError "Failed to parse transaction -- microblock headers do not identify a fork")
    else Ok (PoisonMicroblock h1 h2, fd)
  else if type_id =? 4 then
    let? '(payload, fd) := read_next (byte_array_codec 32) fd in
    Ok (Coinbase payload, fd)
  else Err (DeserializeError ("Failed to parse transaction -- unknown payload ID " +:+ pretty type_id)).

Definition TransactionPayload_codec : Codec TransactionPayload := {|
  consensus_serialize := TransactionPayload_serialize;
  consensus_deserialize := TransactionPayload_deserialize;
  mem_size_of := size_of TyPayload
|}.

Definition new_contract_call (contract_address : StacksAddress) (contract_name function_name : string) (args : list Value)
  : option TransactionPayload :=
  match ContractName_try_from contract_name with
  | Ok contract_name_str =>
      match ClarityName_try_from function_name with
      | Ok function_name_str =>
          Some (PayloadContractCall (mkContractCall contract_address contract_name_str function_name_str args))
      | _ => None
      end
  | _ => None
  end.

Definition new_smart_contract (name contract : string) : option TransactionPayload :=
  match ContractName_try_from name, StacksString_from_str contract with
  | Ok s_name, Some s_body => Some (PayloadSmartContract (mkSmartContract s_name s_body))
  | _, _ => None
  end.

(** * Post-conditions *)
Definition AssetInfo_codec : Codec AssetInfo := {|
  consensus_serialize self :=
    let? contract_address := write_next StacksAddress_codec (contract_address self) in
    let? contract_name := write_next ContractName_codec (contract_name self) in
    let? asset_name := write_next ClarityName_codec (info_asset_name self) in
    Ok (contract_address ++ contract_name ++ asset_name);
  consensus_deserialize fd :=
    let? '(contract_address, fd) := read_next StacksAddress_codec fd in
    let? '(contract_name, fd) := read_next ContractName_codec fd in
    let? '(asset_name, fd) := read_next ClarityName_codec fd in
    Ok (mkAssetInfo contract_address contract_name asset_name, fd);
  mem_size_of := size_of TyAssetInfo
|}.

Definition PostConditionPrincipal_codec : Codec PostConditionPrincipal := {|
  consensus_serialize self :=
    match self with
    | PCOrigin => write_next u8_codec 1
    | PCStandard address =>
        let? id := write_next u8_codec 2 in
        let? address := write_next StacksAddress_codec address in
        Ok (id ++ address)
    | PCContract address contract_name =>
        let? id := write_next u8_codec 3 in
        let? address := write_next StacksAddress_codec address in
        let? contract_name := write_next ContractName_codec contract_name in
        Ok (id ++ address ++ contract_name)
    end;
  consensus_deserialize fd :=
    let? '(principal_id, fd) := read_next u8_codec fd in
    if principal_id =? 1 then Ok (PCOrigin, fd)
    else if principal_id =? 2 then
      let? '(addr, fd) := read_next StacksAddress_codec fd in Ok (PCStandard addr, fd)
    else if principal_id =? 3 then
      let? '(addr, fd) := read_next StacksAddress_codec fd in
      let? '(contract_name, fd) := read_next ContractName_codec fd in
      Ok (PCContract addr contract_name, fd)
    else Err (DeserializeError ("Failed to parse transaction: unknown post condition principal ID " +:+ pretty principal_id));
  mem_size_of := size_of TyPostConditionPrincipal
|}.

Definition TransactionPostCondition_serialize (self : TransactionPostCondition) : outcome codec_error (list byte) :=
  match self with
  | PostSTX principal fungible_condition amount =>
      let? id := write_next u8_codec 0 in
      let? principal := write_next PostConditionPrincipal_codec principal in
      let? code := write_next u8_codec (FungibleConditionCode_to_u8 fungible_condition) in
      let? amount := write_next u64_codec amount in
      Ok (id ++ principal ++ code ++ amount)
  | PostFungible principal asset_info fungible_condition amount =>
      let? id := write_next u8_codec 1 in
      let? principal := write_next PostConditionPrincipal_codec principal in
      let? asset_info := write_next AssetInfo_codec asset_info in
      let? code := write_next u8_codec (FungibleConditionCode_to_u8 fungible_condition) in
      let? amount := write_next u64_codec amount in
      Ok (id ++ principal ++ asset_info ++ code ++ amount)
  | PostNonfungible principal asset_info asset_value nonfungible_condition =>
      let? id := write_next u8_codec 2 in
      let? principal := write_next PostConditionPrincipal_codec principal in
      let? asset_info := write_next AssetInfo_codec asset_info in
      let? asset_value := write_next (Value_codec (size_of TyValue)) asset_value in
      let? code := write_next u8_codec (NonfungibleConditionCode_to_u8 nonfungible_condition) in
      Ok (id ++ principal ++ asset_info ++ asset_value ++ code)
  end.

Definition TransactionPostCondition_deserialize (fd : list byte)
  : outcome codec_error (TransactionPostCondition * list byte) :=
  let? '(asset_info_id, fd) := read_next u8_codec fd in
  if asset_info_id =? 0 then
    let? '(principal, fd) := read_next PostConditionPrincipal_codec fd in
    let? '(condition_u8, fd) := read_next u8_codec fd in
    let? '(amount, fd) := read_next u64_codec fd in
    let? condition_code :=
      ok_or (DeserializeError ("Failed to parse transaction: Failed to parse STX fungible condition code " +:+ pretty condition_u8))
        (FungibleConditionCode_from_u8 condition_u8) in
    Ok (PostSTX principal condition_code amount, fd)
  else if asset_info_id =? 1 then
    let? '(principal, fd) := read_next PostConditionPrincipal_codec fd in
    let? '(asset, fd) := read_next AssetInfo_codec fd in
    let? '(condition_u8, fd) := read_next u8_codec fd in
    let? '(amount, fd) := read_next u64_codec fd in
    let? condition_code :=
      ok_or (DeserializeError ("Failed to parse transaction: Failed to parse FungibleAsset condition code " +:+ pretty condition_u8))
        (FungibleConditionCode_from_u8 condition_u8) in
    Ok (PostFungible principal asset condition_code amount, fd)
  else if asset_info_id =? 2 then
    let? '(principal, fd) := read_next PostConditionPrincipal_codec fd in
    let? '(asset, fd) := read_next AssetInfo_codec fd in
    let? '(asset_value, fd) := read_next (Value_codec (size_of TyValue)) fd in
    let? '(condition_u8, fd) := read_next u8_codec fd in
    let? condition_code :=
      ok_or (DeserializeError ("Failed to parse transaction: Failed to parse NonfungibleAsset condition code " +:+ pretty condition_u8))
        (NonfungibleConditionCode_from_u8 condition_u8) in
    Ok (PostNonfungible principal asset asset_value condition_code, fd)
  else Err (DeserializeError ("Failed to aprse transaction: unknown asset info ID " +:+ pretty asset_info_id)).

Definition TransactionPostCondition_codec : Codec TransactionPostCondition := {|
  consensus_serialize := TransactionPostCondition_serialize;
  consensus_deserialize := TransactionPostCondition_deserialize;
  mem_size_of := size_of TyPostCondition
|}.

(** * Authorizations *)
Definition TransactionAuthField_codec : Codec TransactionAuthField := {|
  consensus_serialize self :=
    match self with
    | AuthPublicKey pubk =>
        let pubkey_buf := StacksPublicKeyBuffer_from_public_key pubk in
        let? id := write_next u8_codec (if compressed pubk then 0 else 1) in
        let? buf := write_next (byte_array_codec 33) pubkey_buf in
        Ok (id ++ buf)
    | AuthSignature key_encoding sig =>
        let? id := write_next u8_codec (if bool_decide (key_encoding = Compressed) then 2 else 3) in
        let? sig := write_next MessageSignature_codec sig in
        Ok (id ++ sig)
    end;
  consensus_deserialize fd :=
    let? '(field_id, fd) := read_next u8_codec fd in
    if field_id =? 0 then
      let? '(pubkey_buf, fd) := read_next (byte_array_codec 33) fd in
      let? pubkey := map_err DeserializeError (StacksPublicKeyBuffer_to_public_key pubkey_buf) in
      Ok (AuthPublicKey (set_compressed pubkey true), fd)
    else if field_id =? 1 then
      let? '(pubkey_buf, fd) := read_next (byte_array_codec 33) fd in
      let? pubkey := map_err DeserializeError (StacksPublicKeyBuffer_to_public_key pubkey_buf) in
      Ok (AuthPublicKey (set_compressed pubkey false), fd)
    else if field_id =? 2 then
      let? '(sig, fd) := read_next MessageSignature_codec fd in Ok (AuthSignature Compressed sig, fd)
    else if field_id =? 3 then
      let? '(sig, fd) := read_next MessageSignature_codec fd in Ok (AuthSignature Uncompressed sig, fd)
    else Err (DeserializeError ("Failed to parse auth field: unkonwn auth field ID " +:+ pretty field_id));
  mem_size_of := size_of TyAuthField
|}.

(** The loop over the fields: the signatures given, and whether a key is uncompressed. *)
Definition count_field (acc : Z * bool) (f : TransactionAuthField) : outcome codec_error (Z * bool) :=
  let '(num_sigs_given, have_uncompressed) := acc in
  match f with
  | AuthSignature key_encoding _ =>
      let? num_sigs_given :=
        ok_or (DeserializeError "Failed to parse multisig spending condition: too many signatures")
          (checked_add u16_ty num_sigs_given 1) in
      Ok (num_sigs_given, have_uncompressed || bool_decide (key_encoding = Uncompressed))
  | AuthPublicKey pubk => Ok (num_sigs_given, have_uncompressed || negb (compressed pubk))
  end.

Definition MultisigSpendingCondition_codec : Codec MultisigSpendingCondition := {|
  consensus_serialize self :=
    let? hash_mode := write_next u8_codec (MultisigHashMode_to_u8 (ms_hash_mode self)) in
    let? signer := write_next (byte_array_codec 20) (ms_signer self) in
    let? nonce := write_next u64_codec (ms_nonce self) in
    let? tx_fee := write_next u64_codec (ms_tx_fee self) in
    let? fields := write_next (vec_codec TransactionAuthField_codec) (ms_fields self) in
    let? required := write_next u16_codec (ms_signatures_required self) in
    Ok (hash_mode ++ signer ++ nonce ++ tx_fee ++ fields ++ required);
  consensus_deserialize fd :=
    let? '(hash_mode_u8, fd) := read_next u8_codec fd in
    let? hash_mode := ok_or (DeserializeError ("Failed to parse multisig spending condition: unknown hash mode " +:+ pretty hash_mode_u8))
                        (MultisigHashMode_from_u8 hash_mode_u8) in
    let? '(signer, fd) := read_next (byte_array_codec 20) fd in
    let? '(nonce, fd) := read_next u64_codec fd in
    let? '(tx_fee, fd) := read_next u64_codec fd in
    let? '(fields, fd) := read_bounded MAX_MESSAGE_LEN (read_next (vec_codec TransactionAuthField_codec)) fd in
    let? '(signatures_required, fd) := read_next u16_codec fd in
    let? '(num_sigs_given, have_uncompressed) := try_fold count_field (0, false) fields in
    if negb (num_sigs_given =? signatures_required) then
      Err (DeserializeError ("Failed to parse multisig spending condition: got " +:+ pretty num_sigs_given
             +:+ " sigs, expected " +:+ pretty signatures_required))
    else if have_uncompressed && bool_decide (hash_mode = P2WSH) then
      Err (DeserializeError "Failed to parse multisig spending condition: expected compressed keys only")
    else Ok (mkMultisig hash_mode signer nonce tx_fee fields signatures_required, fd);
  mem_size_of := size_of TyMultisig
|}.

Definition SinglesigSpendingCondition_codec : Codec SinglesigSpendingCondition := {|
  consensus_serialize self :=
    let? hash_mode := write_next u8_codec (SinglesigHashMode_to_u8 (ss_hash_mode self)) in
    let? signer := write_next (byte_array_codec 20) (ss_signer self) in
    let? nonce := write_next u64_codec (ss_nonce self) in
    let? tx_fee := write_next u64_codec (ss_tx_fee self) in
    let? key_encoding := write_next u8_codec (TransactionPublicKeyEncoding_to_u8 (ss_key_encoding self)) in
    let? signature := write_next MessageSignature_codec (ss_signature self) in
    Ok (hash_mode ++ signer ++ nonce ++ tx_fee ++ key_encoding ++ signature);
  consensus_deserialize fd :=
    let? '(hash_mode_u8, fd) := read_next u8_codec fd in
    let? hash_mode := ok_or (DeserializeError ("Failed to parse singlesig spending condition: unknown hash mode " +:+ pretty hash_mode_u8))
                        (SinglesigHashMode_from_u8 hash_mode_u8) in
    let? '(signer, fd) := read_next (byte_array_codec 20) fd in
    let? '(nonce, fd) := read_next u64_codec fd in
    let? '(tx_fee, fd) := read_next u64_codec fd in
    let? '(key_encoding_u8, fd) := read_next u8_codec fd in
    let? key_encoding := ok_or (DeserializeError ("Failed to parse singlesig spending condition: unknown key encoding " +:+ pretty key_encoding_u8))
                           (TransactionPublicKeyEncoding_from_u8 key_encoding_u8) in
    let? '(signature, fd) := read_next MessageSignature_codec fd in
    if bool_decide (hash_mode = P2WPKH) && negb (bool_decide (key_encoding = Compressed)) then
      Err (DeserializeError
        "Failed to parse singlesig spending condition: incomaptible hash mode and key encoding")
    else Ok (mkSinglesig hash_mode signer nonce tx_fee key_encoding signature, fd);
  mem_size_of := size_of TySinglesig
|}.

(** The reader peeks at the hash mode, and reads it again. *)
Definition TransactionSpendingCondition_codec : Codec TransactionSpendingCondition := {|
  consensus_serialize self :=
    match self with
    | Singlesig data => consensus_serialize SinglesigSpendingCondition_codec data
    | Multisig data => consensus_serialize MultisigSpendingCondition_codec data
    end;
  consensus_deserialize fd :=
    let? '(hash_mode_u8, fd) := read_next u8_codec fd in
    let rrd := to_be_bytes 1 hash_mode_u8 ++ fd in
    match SinglesigHashMode_from_u8 hash_mode_u8, MultisigHashMode_from_u8 hash_mode_u8 with
    | Some _, _ =>
        let? '(cond, fd) := consensus_deserialize SinglesigSpendingCondition_codec rrd in Ok (Singlesig cond, fd)
    | None, Some _ =>
        let? '(cond, fd) := consensus_deserialize MultisigSpendingCondition_codec rrd in Ok (Multisig cond, fd)
    | None, None => Err (DeserializeError ("Failed to parse spending condition: invalid hash mode " +:+ pretty hash_mode_u8))
    end;
  mem_size_of := size_of TySpendingCondition
|}.

Definition TransactionAuth_codec : Codec TransactionAuth := {|
  consensus_serialize self :=
    match self with
    | StandardAuth origin_condition =>
        let? id := write_next u8_codec (TransactionAuthFlags_to_u8 AuthStandard) in
        let? origin := write_next TransactionSpendingCondition_codec origin_condition in
        Ok (id ++ origin)
    | SponsoredAuth origin_condition sponsor_condition =>
        let? id := write_next u8_codec (TransactionAuthFlags_to_u8 AuthSponsored) in
        let? origin := write_next TransactionSpendingCondition_codec origin_condition in
        let? sponsor := write_next TransactionSpendingCondition_codec sponsor_condition in
        Ok (id ++ origin ++ sponsor)
    end;
  consensus_deserialize fd :=
    let? '(type_id, fd) := read_next u8_codec fd in
    if type_id =? TransactionAuthFlags_to_u8 AuthStandard then
      let? '(origin_auth, fd) := read_next TransactionSpendingCondition_codec fd in
      Ok (StandardAuth origin_auth, fd)
    else if type_id =? TransactionAuthFlags_to_u8 AuthSponsored then
      let? '(origin_auth, fd) := read_next TransactionSpendingCondition_codec fd in
      let? '(sponsor_auth, fd) := read_next TransactionSpendingCondition_codec fd in
      Ok (SponsoredAuth origin_auth sponsor_auth, fd)
    else Err (DeserializeError ("Failed to parse transaction authorization: unrecognized auth flags " +:+ pretty type_id));
  mem_size_of := size_of TyAuth
|}.

(** * Transactions *)
Definition anchored_payload (payload : TransactionPayload) : bool :=
  match payload with PoisonMicroblock _ _ | Coinbase _ => true | _ => false end.

(** The body of [consensus_deserialize_with_len], on the bound reader. *)
Definition read_transaction (fd : list byte) : outcome codec_error (StacksTransaction * list byte) :=
  let? '(version_u8, fd) := read_next u8_codec fd in
  let? '(chain_id, fd) := read_next u32_codec fd in
  let? '(auth, fd) := read_next TransactionAuth_codec fd in
  let? '(anchor_mode_u8, fd) := read_next u8_codec fd in
  let? '(post_condition_mode_u8, fd) := read_next u8_codec fd in
  let? '(post_conditions, fd) := read_next (vec_codec TransactionPostCondition_codec) fd in
  let? '(payload, fd) := read_next TransactionPayload_codec fd in
  let version := if Z.land version_u8 0x80 =? 0 then Mainnet else Testnet in
  let? anchor_mode :=
    if anchor_mode_u8 =? 2 then Ok OffChainOnly
    else if anchor_mode_u8 =? 1 then Ok OnChainOnly
    else if anchor_mode_u8 =? 3 then Ok AnchorAny
    else Err (DeserializeError ("Failed to parse transaction: invalid anchor mode " +:+ pretty anchor_mode_u8)) in
  if anchored_payload payload && negb (bool_decide (anchor_mode = OnChainOnly)) then
    Err (DeserializeError ("Failed to parse transaction: invalid anchor mode for "
                           +:+ TransactionPayload_name payload))
  else
    let? post_condition_mode :=
      if post_condition_mode_u8 =? 1 then Ok Allow
      else if post_condition_mode_u8 =? 2 then Ok Deny
      else Err (DeserializeError ("Failed to parse transaction: invalid post-condition mode " +:+ pretty post_condition_mode_u8)) in
    Ok (mkTransaction version chain_id auth anchor_mode post_condition_mode post_conditions payload, fd).

(** [num_read] of the bound reader is the number of bytes taken. *)
Definition consensus_deserialize_with_len (fd : list byte)
  : outcome codec_error ((StacksTransaction * Z) * list byte) :=
  let? '(tx, rest) := read_bounded MAX_TRANSACTION_LEN read_transaction fd in
  Ok ((tx, zlen fd - zlen rest), rest).

Definition StacksTransaction_serialize (self : StacksTransaction) : outcome codec_error (list byte) :=
  let? version := write_next u8_codec (TransactionVersion_to_u8 (tx_version self)) in
  let? chain_id := write_next u32_codec (tx_chain_id self) in
  let? auth := write_next TransactionAuth_codec (tx_auth self) in
  let? anchor_mode := write_next u8_codec (TransactionAnchorMode_to_u8 (tx_anchor_mode self)) in
  let? post_condition_mode := write_next u8_codec (TransactionPostConditionMode_to_u8 (tx_post_condition_mode self)) in
  let? post_conditions := write_next (vec_codec TransactionPostCondition_codec) (tx_post_conditions self) in
  let? payload := write_next TransactionPayload_codec (tx_payload self) in
  Ok (version ++ chain_id ++ auth ++ anchor_mode ++ post_condition_mode ++ post_conditions ++ payload).

Definition StacksTransaction_codec : Codec StacksTransaction := {|
  consensus_serialize := StacksTransaction_serialize;
  consensus_deserialize fd := let? '((result, _), fd) := consensus_deserialize_with_len fd in Ok (result, fd);
  mem_size_of := size_of TyTransaction
|}.

(** [self.tx_len()] *)
Definition tx_len {E : Type} (self : StacksTransaction) : outcome E Z :=
  let? tx_bytes := expect (StacksTransaction_serialize self) in
  Ok (zlen tx_bytes).
End codecs.
