(* ===== verification/TransactionRoundTrip.v ===== *)
(** TransactionRoundTrip: the codecs of [Transaction] obey the law [codec_ok] on
    well-formed data, up to whole transactions, and the bytes that the reader of
    transactions panics on. *)
From Stdlib Require Import ZArith Lia Strings.Byte Strings.String Strings.Ascii List Bool.
From stdpp Require Import base decidable list strings.
From S2P Require Import Prelude Bytes Utf8 Codec Representations BTree Types Signatures Admission Values.
From S2P Require Import Serialization RoundTrip Hashes Keys ValueCodec AssetMap PostConditions Lexer Transaction.
Open Scope Z_scope.

(** * Reading what was written *)
Lemma codec_bytes {T : Type} (P : T -> Prop) (c : Codec T) (x : T) :
  codec_ok P c -> P x ->
  exists bs, consensus_serialize c x = Ok bs /\ forall rest, consensus_deserialize c (bs ++ rest) = Ok (x, rest).
Proof.
  intros Hc Hx. destruct (Hc x [] Hx) as (bs & Hbs & _). exists bs. split; [done|]. intros rest.
  destruct (Hc x rest Hx) as (bs' & Hbs' & Hr). rewrite Hbs in Hbs'. by injection Hbs' as ->.
Qed.

Lemma codec_ok_of_bytes {T : Type} (P : T -> Prop) (c : Codec T) :
  (forall x, P x -> exists bs, consensus_serialize c x = Ok bs /\
     forall rest, consensus_deserialize c (bs ++ rest) = Ok (x, rest)) -> codec_ok P c.
Proof. intros H x rest Hx. destruct (H x Hx) as (bs & Hbs & Hr). eauto. Qed.

(** The encoding of [x] has at most [max_len] bytes. *)
Definition encoded_within {T : Type} (max_len : Z) (c : Codec T) (x : T) : Prop :=
  forall bs, consensus_serialize c x = Ok bs -> zlen bs <= max_len.

(** A vector that the reader accepts by its size. *)
Definition vec_fits {T : Type} (c : Codec T) (l : list T) : Prop :=
  Z.of_nat (length l) <= u32_max /\ mem_size_of c * Z.of_nat (length l) <= MAX_MESSAGE_LEN.

Lemma vec_codec_ok {T : Type} (P : T -> Prop) (c : Codec T) :
  codec_ok P c -> codec_ok (fun l => Forall P l /\ vec_fits c l) (vec_codec c).
Proof. intros Hc l rest (Hl & H1 & H2). by apply (vec_codec_roundtrip P). Qed.

(** Puts the encodings of the fields into the context, one after the other. *)
Ltac field_bytes H x :=
  let bs := fresh "bs" in let Hw := fresh "Hw" in let Hr := fresh "Hr" in
  destruct (codec_bytes _ _ x H ltac:(done || lia || eauto)) as (bs & Hw & Hr).

Ltac read_more :=
  unfold read_next;
  repeat match goal with
         | Hr : forall rest, consensus_deserialize ?c (?b ++ rest) = Ok _ |- context [consensus_deserialize ?c (?b ++ _)] =>
             rewrite Hr; cbn [out_bind]
         end.

(** Writes the fields, then reads them back in order. *)
Ltac read_fields :=
  unfold write_next, read_next;
  repeat match goal with Hw : consensus_serialize ?c ?x = Ok _ |- context [consensus_serialize ?c ?x] => rewrite Hw end;
  cbn [out_bind]; eexists; split; [reflexivity|]; intros rest; rewrite <-?app_assoc; read_more.

Lemma u8_ok : codec_ok (fun x => 0 <= x < 256) u8_codec.
Proof. apply (uint_codec_ok 1). Qed.
Lemma u16_ok : codec_ok (fun x => 0 <= x <= u16_max) u16_codec.
Proof. intros x rest Hx. apply (uint_codec_ok 2). change (256 ^ Z.of_nat 2) with (2 ^ 16). int_lia. Qed.
Lemma u32_ok : codec_ok (fun x => 0 <= x <= u32_max) u32_codec.
Proof. intros x rest Hx. apply (uint_codec_ok 4). change (256 ^ Z.of_nat 4) with (2 ^ 32). int_lia. Qed.
Lemma u64_ok : codec_ok (fun x => 0 <= x <= u64_max) u64_codec.
Proof. intros x rest Hx. apply (uint_codec_ok 8). change (256 ^ Z.of_nat 8) with (2 ^ 64). int_lia. Qed.

(** * Strings and names *)
Definition code_body_ok (body : list byte) : Prop :=
  StacksString_is_valid_string body = true /\ zlen body + 4 <= MAX_MESSAGE_LEN.

Lemma write_u8_length (l : list Z) (bs : list byte) : write_items u8_codec l = Ok bs -> zlen bs = zlen l.
Proof.
  revert bs. induction l as [|x l IH]; intros bs H; [by injection H as <-|]. cbn [write_items] in H.
  apply out_bind_Ok in H as (b & Hb & H). apply out_bind_Ok in H as (bs' & Hbs' & H). apply (inj Ok) in Hb, H. subst.
  rewrite zlen_app, zlen_be_bytes, zlen_cons, (IH _ Hbs'). lia.
Qed.

Lemma StacksString_codec_ok : codec_ok code_body_ok StacksString_codec.
Proof.
  apply codec_ok_of_bytes. intros body [Hv Hl]. pose proof (zlen_nonneg body).
  assert (zlen (map byte_to_Z body) = zlen body) as Hm by (unfold zlen; by rewrite length_map).
  assert (MAX_MESSAGE_LEN < 2 ^ 32) by done.
  destruct (codec_bytes _ _ (map byte_to_Z body) (vec_codec_ok _ _ u8_ok)) as (bs & Hw & Hr).
  { split.
    - apply List.Forall_forall. intros z (b & <- & _)%in_map_iff. apply byte_to_Z_range.
    - split; fold (zlen (map byte_to_Z body)); rewrite Hm; [unfold_bounds; lia|].
      change (mem_size_of u8_codec) with 1. lia. }
  exists bs. cbn [consensus_serialize consensus_deserialize StacksString_codec]. split; [done|]. intros rest.
  rewrite (read_bounded_ok _ _ bs rest (map byte_to_Z body)).
  - cbn [out_bind]. rewrite map_map, (map_ext _ (fun b => b)) by apply byte_of_to_Z. rewrite map_id.
    unfold StacksString_is_valid_string in Hv. apply andb_true_iff in Hv as [Ha Hp].
    unfold string_from_utf8. rewrite is_utf8_ascii.
    + cbn [ok_or out_bind]. unfold StacksString_is_valid_string, as_bytes. rewrite list_byte_of_string_of_list_byte.
      by rewrite Ha, Hp.
    + apply List.Forall_forall. intros b Hb. by apply Z.ltb_lt, (proj1 (forallb_forall _ _) Ha).
  - intros rest'. unfold read_next. by rewrite Hr.
  - cbn [consensus_serialize vec_codec] in Hw. unfold write_next in Hw.
    apply out_bind_Ok in Hw as (hd & Hhd & Hw). apply out_bind_Ok in Hw as (items & Hitems & Hw).
    apply (inj Ok) in Hhd, Hw. subst. rewrite zlen_app, zlen_be_bytes, (write_u8_length _ _ Hitems), Hm. lia.
Qed.

(** [StacksString::from(ClarityName)]: "unwrap is safe since StacksString is less strict". *)
Definition name_char (c : ascii) : bool := is_ascii_letter c || is_ascii_digit c || one_of "-_!?+<>=/*" c.

Lemma clarity_name_chars (s : string) : CLARITY_NAME_REGEX s = true -> all_chars name_char s = true.
Proof.
  assert (forall p : ascii -> bool,
    forallb (fun n => implb (p (ascii_of_nat n)) (name_char (ascii_of_nat n))) (seq 0 256) = true ->
    forall c, p c = true -> name_char c = true) as Himpl.
  { intros p H c Hc. pose proof (ascii_forall (fun c => implb (p c) (name_char c)) H c) as Hi. simpl in Hi.
    by rewrite Hc in Hi. }
  assert (forall c, one_of "-+=/*" c = true -> name_char c = true) as H1 by (apply Himpl; by vm_compute).
  assert (forall c, one_of "<>" c = true -> name_char c = true) as H2 by (apply Himpl; by vm_compute).
  assert (forall c, is_ascii_letter c = true -> name_char c = true) as H3 by (apply Himpl; by vm_compute).
  unfold CLARITY_NAME_REGEX. rewrite !orb_true_iff. intros [[H|H]|H].
  - destruct s as [|c s]; [done|]. cbn [letter_then all_chars] in *. apply andb_true_iff in H as [Hc Hs].
    rewrite H3 by done. exact Hs.
  - destruct s as [|c []]; try done. simpl. by rewrite H1.
  - destruct s as [|c [|e []]]; try done; simpl; [by rewrite H2|].
    apply andb_true_iff in H as [Hc He%Ascii.eqb_eq]. subst. by rewrite H2.
Qed.

Lemma clarity_name_string (s : string) : ClarityName_valid s = true -> StacksString_from_str s = Some (as_bytes s).
Proof.
  intros [_ H%clarity_name_chars]%andb_true_iff. unfold StacksString_from_str, StacksString_is_valid_string.
  assert (forall c, name_char c = true ->
            (byte_to_Z (byte_of_ascii c) <? 128) && printable_byte (byte_of_ascii c) = true) as Hc.
  { intros c Hc. pose proof (ascii_forall (fun c => implb (name_char c)
      ((byte_to_Z (byte_of_ascii c) <? 128) && printable_byte (byte_of_ascii c))) ltac:(by vm_compute) c) as Hi.
    simpl in Hi. by rewrite Hc in Hi. }
  assert (forallb (fun c => byte_to_Z c <? 128) (as_bytes s) = true /\ forallb printable_byte (as_bytes s) = true)
    as [-> ->]; [|done].
  induction s as [|c s IH]; [done|]. rewrite as_bytes_cons. simpl in *. apply andb_true_iff in H as [H1 H2].
  apply Hc, andb_true_iff in H1 as [-> ->]. by apply IH.
Qed.

Section codecs.
Context {K : LibSecp256k1} {L : Secp256k1Laws K} {D : Digests} {Y : Layout}.

(** * Microblock headers *)
Definition signature_parses (sig : list byte) : Prop := length sig = 65%nat /\ is_Some (to_secp256k1_recoverable sig).

Definition microblock_header_ok (h : StacksMicroblockHeader) : Prop :=
  0 <= mh_version h < 256 /\ 0 <= mh_sequence h <= u16_max /\ length (mh_prev_block h) = 32%nat /\
  length (mh_tx_merkle_root h) = 32%nat /\
  Forall signature_parses (mh_miner_signatures h) /\ vec_fits MessageSignature_codec (mh_miner_signatures h).

Lemma signatures_ok :
  codec_ok (fun l => Forall signature_parses l /\ vec_fits MessageSignature_codec l) MessageSignatureList_codec.
Proof.
  apply codec_ok_of_bytes. intros l [Hl Hfit].
  destruct (codec_bytes _ _ l (vec_codec_ok _ _ (byte_array_codec_ok 65))) as (bs & Hw & Hr).
  { split; [|done]. eapply Forall_impl; [exact Hl|]. by intros s [Hs _]. }
  exists bs. cbn [consensus_serialize consensus_deserialize MessageSignatureList_codec]. split; [done|]. intros rest.
  unfold read_next. change (vec_codec MessageSignature_codec) with (vec_codec (byte_array_codec 65)). rewrite Hr.
  cbn [out_bind]. set (body := fun _ _ => _).
  assert (try_fold body tt l = Ok tt) as ->; [|done].
  clear Hfit Hw Hr. induction Hl as [|s l [_ [r Hs]] _ IH]; [done|]. cbn [try_fold]. unfold body at 1. rewrite Hs. exact IH.
Qed.

Lemma microblock_header_codec_ok : codec_ok microblock_header_ok StacksMicroblockHeader_codec.
Proof.
  apply codec_ok_of_bytes. intros h (Hv & Hs & Hp & Hm & Hl & Hfit).
  field_bytes u8_ok (mh_version h). field_bytes u16_ok (mh_sequence h).
  field_bytes (byte_array_codec_ok 32) (mh_prev_block h). field_bytes (byte_array_codec_ok 32) (mh_tx_merkle_root h).
  field_bytes signatures_ok (mh_miner_signatures h).
  change (consensus_serialize MessageSignatureList_codec) with (consensus_serialize (vec_codec MessageSignature_codec)) in *.
  cbn [consensus_serialize consensus_deserialize StacksMicroblockHeader_codec]. unfold microblock_header_serialize.
  read_fields. by destruct h.
Qed.

(** * Payloads *)
Definition contract_call_ok (cc : TransactionContractCall) : Prop :=
  length (sa_bytes (cc_address cc)) = 20%nat /\ ContractName_serializable (cc_contract_name cc) = true /\
  ClarityName_valid (cc_function_name cc) = true /\ is_clarity_variable (as_bytes (cc_function_name cc)) = Ok true /\
  Forall value_on_wire (cc_function_args cc) /\ vec_fits (Value_codec (size_of TyValue)) (cc_function_args cc) /\
  encoded_within MAX_TRANSACTION_LEN (vec_codec (Value_codec (size_of TyValue))) (cc_function_args cc).

Lemma contract_call_codec_ok : codec_ok contract_call_ok TransactionContractCall_codec.
Proof.
  apply codec_ok_of_bytes. intros cc (Ha & Hc & Hf & Hvar & Hargs & Hfit & Hlen).
  field_bytes StacksAddress_codec_ok (cc_address cc). field_bytes ContractName_codec_ok (cc_contract_name cc).
  field_bytes ClarityName_codec_ok (cc_function_name cc).
  destruct (codec_bytes _ _ (cc_function_args cc) (vec_codec_ok _ _ (Value_codec_ok (size_of TyValue))) (conj Hargs Hfit))
    as (args & Hwa & Hra).
  cbn [consensus_serialize consensus_deserialize TransactionContractCall_codec]. read_fields.
  rewrite (read_bounded_ok _ _ args rest (cc_function_args cc)).
  - cbn [out_bind]. rewrite clarity_name_string by done. cbn [expect_some out_bind]. rewrite Hvar. by destruct cc.
  - intros rest'. by rewrite Hra.
  - by apply Hlen.
Qed.

Definition smart_contract_ok (sc : TransactionSmartContract) : Prop :=
  ContractName_serializable (sc_name sc) = true /\ code_body_ok (sc_code_body sc).

Lemma smart_contract_codec_ok : codec_ok smart_contract_ok TransactionSmartContract_codec.
Proof.
  apply codec_ok_of_bytes. intros sc [Hn Hb]. field_bytes ContractName_codec_ok (sc_name sc).
  field_bytes StacksString_codec_ok (sc_code_body sc).
  cbn [consensus_serialize consensus_deserialize TransactionSmartContract_codec]. read_fields. by destruct sc.
Qed.

Definition payload_ok (p : TransactionPayload) : Prop :=
  match p with
  | TokenTransfer recipient amount memo =>
      PrincipalData_wf recipient = true /\ 0 <= amount <= u64_max /\ length memo = 34%nat
  | PayloadContractCall cc => contract_call_ok cc
  | PayloadSmartContract sc => smart_contract_ok sc
  | PoisonMicroblock h1 h2 =>
      microblock_header_ok h1 /\ microblock_header_ok h2 /\ h1 <> h2 /\
      (mh_sequence h1 = mh_sequence h2 \/ mh_prev_block h1 = mh_prev_block h2)
  | Coinbase payload => length payload = 32%nat
  end.

Lemma payload_codec_ok : codec_ok payload_ok TransactionPayload_codec.
Proof.
  apply codec_ok_of_bytes. intros p Hp.
  cbn [consensus_serialize consensus_deserialize TransactionPayload_codec]. unfold TransactionPayload_deserialize.
  destruct p as [r a m|cc|sc|h1 h2|b]; cbn [payload_ok] in Hp; cbn [TransactionPayload_serialize].
  - destruct Hp as (Hr0 & Ha & Hm). field_bytes u8_ok 0.
    field_bytes (PrincipalData_codec_ok (size_of TyPrincipalData)) r. field_bytes u64_ok a.
    field_bytes (byte_array_codec_ok 34) m. read_fields. done.
  - field_bytes u8_ok 2. field_bytes contract_call_codec_ok cc. read_fields. done.
  - field_bytes u8_ok 1. field_bytes smart_contract_codec_ok sc. read_fields. done.
  - destruct Hp as (H1 & H2 & Hne & Hfork). field_bytes u8_ok 3. field_bytes microblock_header_codec_ok h1.
    field_bytes microblock_header_codec_ok h2. read_fields. cbn [Z.eqb Pos.eqb].
    rewrite bool_decide_eq_false_2 by done.
    assert (negb (mh_sequence h1 =? mh_sequence h2) && negb (bool_decide (mh_prev_block h1 = mh_prev_block h2)) = false) as ->; [|done].
    destruct Hfork as [->| ->]; [by rewrite Z.eqb_refl|]. rewrite bool_decide_eq_true_2 by done. apply andb_false_r.
  - field_bytes u8_ok 4. field_bytes (byte_array_codec_ok 32) b. read_fields. done.
Qed.

(** * Post-conditions *)
Definition asset_info_ok (a : AssetInfo) : Prop :=
  length (sa_bytes (contract_address a)) = 20%nat /\ ContractName_serializable (contract_name a) = true /\
  ClarityName_valid (info_asset_name a) = true.

Lemma asset_info_codec_ok : codec_ok asset_info_ok AssetInfo_codec.
Proof.
  apply codec_ok_of_bytes. intros a (Ha & Hc & Hn). field_bytes StacksAddress_codec_ok (contract_address a).
  field_bytes ContractName_codec_ok (contract_name a). field_bytes ClarityName_codec_ok (info_asset_name a).
  cbn [consensus_serialize consensus_deserialize AssetInfo_codec]. read_fields. by destruct a.
Qed.

Definition pc_principal_ok (p : PostConditionPrincipal) : Prop :=
  match p with
  | PCOrigin => True
  | PCStandard a => length (sa_bytes a) = 20%nat
  | PCContract a n => length (sa_bytes a) = 20%nat /\ ContractName_serializable n = true
  end.

Lemma pc_principal_codec_ok : codec_ok pc_principal_ok PostConditionPrincipal_codec.
Proof.
  apply codec_ok_of_bytes. intros p Hp. cbn [consensus_serialize consensus_deserialize PostConditionPrincipal_codec].
  destruct p as [|a|a n]; cbn [pc_principal_ok] in Hp.
  - field_bytes u8_ok 1. exists bs. split; [done|]. intros rest. unfold read_next. by rewrite Hr.
  - field_bytes u8_ok 2. field_bytes StacksAddress_codec_ok a. read_fields. done.
  - destruct Hp as [Ha Hn]. field_bytes u8_ok 3. field_bytes StacksAddress_codec_ok a.
    field_bytes ContractName_codec_ok n. read_fields. done.
Qed.

Definition post_condition_ok (c : TransactionPostCondition) : Prop :=
  match c with
  | PostSTX p _ amount => pc_principal_ok p /\ 0 <= amount <= u64_max
  | PostFungible p info _ amount => pc_principal_ok p /\ asset_info_ok info /\ 0 <= amount <= u64_max
  | PostNonfungible p info v _ => pc_principal_ok p /\ asset_info_ok info /\ value_on_wire v
  end.

Lemma post_condition_codec_ok : codec_ok post_condition_ok TransactionPostCondition_codec.
Proof.
  apply codec_ok_of_bytes. intros c Hc. cbn [consensus_serialize consensus_deserialize TransactionPostCondition_codec].
  unfold TransactionPostCondition_deserialize.
  destruct c as [p code a|p i code a|p i v code]; cbn [post_condition_ok] in Hc; cbn [TransactionPostCondition_serialize].
  - destruct Hc as [Hp Ha]. field_bytes u8_ok 0. field_bytes pc_principal_codec_ok p.
    assert (0 <= FungibleConditionCode_to_u8 code < 256) by (destruct code; done).
    field_bytes u8_ok (FungibleConditionCode_to_u8 code). field_bytes u64_ok a. read_fields. by destruct code.
  - destruct Hc as (Hp & Hi & Ha). field_bytes u8_ok 1. field_bytes pc_principal_codec_ok p.
    field_bytes asset_info_codec_ok i.
    assert (0 <= FungibleConditionCode_to_u8 code < 256) by (destruct code; done).
    field_bytes u8_ok (FungibleConditionCode_to_u8 code). field_bytes u64_ok a. read_fields. by destruct code.
  - destruct Hc as (Hp & Hi & Hv). field_bytes u8_ok 2. field_bytes pc_principal_codec_ok p.
    field_bytes asset_info_codec_ok i. field_bytes (Value_codec_ok (size_of TyValue)) v.
    assert (0 <= NonfungibleConditionCode_to_u8 code < 256) by (destruct code; done).
    field_bytes u8_ok (NonfungibleConditionCode_to_u8 code). read_fields. by destruct code.
Qed.

(** * Authorizations *)
Definition auth_field_ok (f : TransactionAuthField) : Prop :=
  match f with AuthPublicKey _ => True | AuthSignature _ sig => length sig = 65%nat end.

Lemma auth_field_codec_ok : codec_ok auth_field_ok TransactionAuthField_codec.
Proof using L.
  apply codec_ok_of_bytes. intros f Hf. cbn [consensus_serialize consensus_deserialize TransactionAuthField_codec].
  destruct f as [[k comp]|enc sig]; cbn [auth_field_ok] in Hf.
  - assert (length (LibPublicKey_serialize k) = 33%nat) as Hl by apply serialize_length.
    change (StacksPublicKeyBuffer_from_public_key (mkPublicKey k comp)) with (LibPublicKey_serialize k).
    cbn [compressed].
    assert (StacksPublicKeyBuffer_to_public_key (LibPublicKey_serialize k) = Ok (mkPublicKey k true)) as Hk.
    { unfold StacksPublicKeyBuffer_to_public_key, PublicKey_from_slice. by rewrite from_slice_serialize, Hl. }
    destruct comp; [field_bytes u8_ok 0|field_bytes u8_ok 1];
      field_bytes (byte_array_codec_ok 33) (LibPublicKey_serialize k); read_fields; cbn [Z.eqb Pos.eqb];
      by rewrite Hk.
  - destruct enc; [change (if bool_decide (Compressed = Compressed) then 2 else 3) with 2; field_bytes u8_ok 2
                  |change (if bool_decide (Uncompressed = Compressed) then 2 else 3) with 3; field_bytes u8_ok 3];
      field_bytes (byte_array_codec_ok 65) sig;
      change MessageSignature_codec with (byte_array_codec 65); read_fields; done.
Qed.

Definition singlesig_ok (c : SinglesigSpendingCondition) : Prop :=
  length (ss_signer c) = 20%nat /\ 0 <= ss_nonce c <= u64_max /\ 0 <= ss_tx_fee c <= u64_max /\
  length (ss_signature c) = 65%nat /\ (ss_hash_mode c = P2WPKH -> ss_key_encoding c = Compressed).

Lemma singlesig_codec_ok : codec_ok singlesig_ok SinglesigSpendingCondition_codec.
Proof.
  apply codec_ok_of_bytes. intros c (Hs & Hn & Hf & Hsig & Hm).
  assert (0 <= SinglesigHashMode_to_u8 (ss_hash_mode c) < 256) by (destruct (ss_hash_mode c); done).
  assert (0 <= TransactionPublicKeyEncoding_to_u8 (ss_key_encoding c) < 256) by (destruct (ss_key_encoding c); done).
  field_bytes u8_ok (SinglesigHashMode_to_u8 (ss_hash_mode c)). field_bytes (byte_array_codec_ok 20) (ss_signer c).
  field_bytes u64_ok (ss_nonce c). field_bytes u64_ok (ss_tx_fee c).
  field_bytes u8_ok (TransactionPublicKeyEncoding_to_u8 (ss_key_encoding c)).
  field_bytes (byte_array_codec_ok 65) (ss_signature c).
  cbn [consensus_serialize consensus_deserialize SinglesigSpendingCondition_codec].
  change MessageSignature_codec with (byte_array_codec 65). read_fields.
  assert (SinglesigHashMode_from_u8 (SinglesigHashMode_to_u8 (ss_hash_mode c)) = Some (ss_hash_mode c)) as ->
    by (destruct (ss_hash_mode c); done). cbn [ok_or out_bind]. read_more.
  assert (TransactionPublicKeyEncoding_from_u8 (TransactionPublicKeyEncoding_to_u8 (ss_key_encoding c))
          = Some (ss_key_encoding c)) as -> by (destruct (ss_key_encoding c); done). cbn [ok_or out_bind]. read_more.
  destruct c as [m s n fee e sig]. simpl in *. destruct m; [done|]. by rewrite Hm.
Qed.

(** The number of signatures among the fields, and whether a key is uncompressed. *)
Definition count_signatures (fields : list TransactionAuthField) : Z := zlen (List.filter is_signature fields).
Definition field_uncompressed (f : TransactionAuthField) : bool :=
  match f with AuthPublicKey k => negb (compressed k) | AuthSignature e _ => bool_decide (e = Uncompressed) end.

Lemma count_fields (fields : list TransactionAuthField) (n : Z) (u : bool) :
  0 <= n -> n + count_signatures fields <= u16_max ->
  try_fold count_field (n, u) fields = Ok (n + count_signatures fields, u || existsb field_uncompressed fields).
Proof.
  unfold count_signatures. revert n u. induction fields as [|f fields IH]; intros n u Hn Hc.
  { simpl. unfold zlen. simpl. by rewrite Z.add_0_r, orb_false_r. }
  pose proof (zlen_nonneg (List.filter is_signature fields)).
  destruct f as [k|e sig]; cbn [try_fold count_field List.filter is_signature existsb field_uncompressed] in *.
  - cbn [out_bind]. rewrite IH by done. by rewrite orb_assoc.
  - rewrite zlen_cons in Hc. rewrite (proj2 (checked_add_Some u16_ty n 1 (n + 1))) by (cbn [int_min int_max u16_ty]; lia).
    cbn [ok_or out_bind]. rewrite IH by lia. rewrite zlen_cons, orb_assoc. assert (forall x y z, x + y + z = x + (y + z)) as -> by lia. done.
Qed.

Definition multisig_ok (c : MultisigSpendingCondition) : Prop :=
  length (ms_signer c) = 20%nat /\ 0 <= ms_nonce c <= u64_max /\ 0 <= ms_tx_fee c <= u64_max /\
  Forall auth_field_ok (ms_fields c) /\ vec_fits TransactionAuthField_codec (ms_fields c) /\
  encoded_within MAX_MESSAGE_LEN (vec_codec TransactionAuthField_codec) (ms_fields c) /\
  0 <= ms_signatures_required c <= u16_max /\ count_signatures (ms_fields c) = ms_signatures_required c /\
  (ms_hash_mode c = P2WSH -> existsb field_uncompressed (ms_fields c) = false).

Lemma multisig_codec_ok : codec_ok multisig_ok MultisigSpendingCondition_codec.
Proof using L.
  apply codec_ok_of_bytes. intros c (Hs & Hn & Hf & Hfields & Hfit & Hlen & Hreq & Hcount & Hm).
  assert (0 <= MultisigHashMode_to_u8 (ms_hash_mode c) < 256) by (destruct (ms_hash_mode c); done).
  field_bytes u8_ok (MultisigHashMode_to_u8 (ms_hash_mode c)). field_bytes (byte_array_codec_ok 20) (ms_signer c).
  field_bytes u64_ok (ms_nonce c). field_bytes u64_ok (ms_tx_fee c).
  destruct (codec_bytes _ _ (ms_fields c) (vec_codec_ok _ _ auth_field_codec_ok) (conj Hfields Hfit)) as (fs & Hwf & Hrf).
  field_bytes u16_ok (ms_signatures_required c).
  cbn [consensus_serialize consensus_deserialize MultisigSpendingCondition_codec]. read_fields.
  assert (MultisigHashMode_from_u8 (MultisigHashMode_to_u8 (ms_hash_mode c)) = Some (ms_hash_mode c)) as ->
    by (destruct (ms_hash_mode c); done). cbn [ok_or out_bind]. read_more.
  rewrite (read_bounded_ok _ _ fs _ (ms_fields c)); [|intros rest'; by rewrite Hrf|by apply Hlen].
  cbn [out_bind]. read_more. rewrite count_fields by (rewrite ?Hcount; lia). cbn [out_bind orb].
  rewrite Z.add_0_l, Hcount, Z.eqb_refl. cbn [negb].
  destruct c as [m s n fee fields r]. simpl in *. destruct m; [by rewrite andb_false_r|]. by rewrite Hm.
Qed.

Definition spending_condition_ok (c : TransactionSpendingCondition) : Prop :=
  match c with Singlesig d => singlesig_ok d | Multisig d => multisig_ok d end.

(** The peeked byte is put back. *)
Lemma peek_hash_mode (b : Z) (bs rest : list byte) :
  0 <= b < 256 -> read_next u8_codec ((to_be_bytes 1 b ++ bs) ++ rest) = Ok (b, bs ++ rest).
Proof.
  intros Hb. destruct (codec_bytes _ _ b u8_ok Hb) as (bs' & Hw & Hr). apply (inj Ok) in Hw. subst bs'.
  unfold read_next. by rewrite <-app_assoc, Hr.
Qed.

Lemma spending_condition_codec_ok : codec_ok spending_condition_ok TransactionSpendingCondition_codec.
Proof using L.
  apply codec_ok_of_bytes. intros [d|d] Hd; cbn [spending_condition_ok] in Hd;
    cbn [consensus_serialize consensus_deserialize TransactionSpendingCondition_codec].
  - destruct (codec_bytes _ _ d singlesig_codec_ok Hd) as (bs & Hw & Hr). exists bs. split; [done|]. intros rest.
    assert (exists bs', bs = to_be_bytes 1 (SinglesigHashMode_to_u8 (ss_hash_mode d)) ++ bs') as (bs' & ->).
    { cbn [consensus_serialize SinglesigSpendingCondition_codec] in Hw. out_inv. unfold write_next in *.
      match goal with H : consensus_serialize u8_codec (SinglesigHashMode_to_u8 _) = Ok _ |- _ =>
        apply (inj Ok) in H; subst end. eexists. reflexivity. }
    rewrite peek_hash_mode by (destruct (ss_hash_mode d); done). cbn [out_bind]. rewrite app_assoc, Hr.
    by destruct (ss_hash_mode d).
  - destruct (codec_bytes _ _ d multisig_codec_ok Hd) as (bs & Hw & Hr). exists bs. split; [done|]. intros rest.
    assert (exists bs', bs = to_be_bytes 1 (MultisigHashMode_to_u8 (ms_hash_mode d)) ++ bs') as (bs' & ->).
    { cbn [consensus_serialize MultisigSpendingCondition_codec] in Hw. out_inv. unfold write_next in *.
      match goal with H : consensus_serialize u8_codec (MultisigHashMode_to_u8 _) = Ok _ |- _ =>
        apply (inj Ok) in H; subst end. eexists. reflexivity. }
    rewrite peek_hash_mode by (destruct (ms_hash_mode d); done). cbn [out_bind]. rewrite app_assoc, Hr.
    by destruct (ms_hash_mode d).
Qed.

Definition auth_ok (a : TransactionAuth) : Prop :=
  match a with
  | StandardAuth o => spending_condition_ok o
  | SponsoredAuth o s => spending_condition_ok o /\ spending_condition_ok s
  end.

Lemma auth_codec_ok : codec_ok auth_ok TransactionAuth_codec.
Proof using L.
  apply codec_ok_of_bytes. intros [o|o s] Ha; cbn [auth_ok] in Ha;
    cbn [consensus_serialize consensus_deserialize TransactionAuth_codec TransactionAuthFlags_to_u8].
  - field_bytes u8_ok 4. field_bytes spending_condition_codec_ok o. read_fields. done.
  - destruct Ha as [Ho Hs]. field_bytes u8_ok 5. field_bytes spending_condition_codec_ok o.
    field_bytes spending_condition_codec_ok s. read_fields. done.
Qed.

(** * Transactions *)
(** What the reader of transactions accepts and carries without change. *)
Definition transaction_ok (tx : StacksTransaction) : Prop :=
  0 <= tx_chain_id tx <= u32_max /\ auth_ok (tx_auth tx) /\
  Forall post_condition_ok (tx_post_conditions tx) /\
  vec_fits TransactionPostCondition_codec (tx_post_conditions tx) /\ payload_ok (tx_payload tx) /\
  (anchored_payload (tx_payload tx) = true -> tx_anchor_mode tx = OnChainOnly) /\
  encoded_within MAX_TRANSACTION_LEN StacksTransaction_codec tx.

Lemma read_transaction_ok (tx : StacksTransaction) :
  transaction_ok tx ->
  exists bs, StacksTransaction_serialize tx = Ok bs /\ forall rest, read_transaction (bs ++ rest) = Ok (tx, rest).
Proof using L.
  intros (Hc & Ha & Hp & Hfit & Hpl & Han & _).
  assert (0 <= TransactionVersion_to_u8 (tx_version tx) < 256) by (destruct (tx_version tx); done).
  assert (0 <= TransactionAnchorMode_to_u8 (tx_anchor_mode tx) < 256) by (destruct (tx_anchor_mode tx); done).
  assert (0 <= TransactionPostConditionMode_to_u8 (tx_post_condition_mode tx) < 256)
    by (destruct (tx_post_condition_mode tx); done).
  field_bytes u8_ok (TransactionVersion_to_u8 (tx_version tx)). field_bytes u32_ok (tx_chain_id tx).
  field_bytes auth_codec_ok (tx_auth tx). field_bytes u8_ok (TransactionAnchorMode_to_u8 (tx_anchor_mode tx)).
  field_bytes u8_ok (TransactionPostConditionMode_to_u8 (tx_post_condition_mode tx)).
  destruct (codec_bytes _ _ (tx_post_conditions tx) (vec_codec_ok _ _ post_condition_codec_ok) (conj Hp Hfit))
    as (pcs & Hwp & Hrp).
  field_bytes payload_codec_ok (tx_payload tx).
  unfold StacksTransaction_serialize, read_transaction. read_fields.
  destruct tx as [v c a m pm ps p]. cbn [tx_version tx_anchor_mode tx_post_condition_mode tx_payload] in *.
  assert ((if Z.land (TransactionVersion_to_u8 v) 128 =? 0 then Mainnet else Testnet) = v) as -> by by destruct v.
  assert (anchored_payload p && negb (bool_decide (m = OnChainOnly)) = false) as Hanch.
  { destruct (anchored_payload p); [|done]. by rewrite Han. }
  destruct m; cbn [TransactionAnchorMode_to_u8 Z.eqb Pos.eqb out_bind]; rewrite Hanch; by destruct pm.
Qed.

Lemma transaction_codec_ok : codec_ok transaction_ok StacksTransaction_codec.
Proof using L.
  apply codec_ok_of_bytes. intros tx Htx. destruct (read_transaction_ok tx Htx) as (bs & Hw & Hr).
  exists bs. split; [done|]. intros rest. cbn [consensus_deserialize StacksTransaction_codec].
  unfold consensus_deserialize_with_len. rewrite (read_bounded_ok _ _ bs rest tx); [done|done|].
  destruct Htx as (_ & _ & _ & _ & _ & _ & Hlen). by apply Hlen.
Qed.
End codecs.

(** C13: the wire format of transactions carries every well-formed transaction:
    it is written, and reading the bytes back, whatever follows them, returns the
    same transaction (authorization, post-conditions and payload, with every
    argument of a contract call) and leaves exactly what followed, as well as the
    number of bytes it took. *)
Theorem transaction_roundtrip {K : LibSecp256k1} {L : Secp256k1Laws K} {D : Digests} {Y : Layout}
    (tx : StacksTransaction) (rest : list byte) :
  transaction_ok tx ->
  exists bs, consensus_serialize StacksTransaction_codec tx = Ok bs /\
    consensus_deserialize StacksTransaction_codec (bs ++ rest) = Ok (tx, rest) /\
    consensus_deserialize_with_len (bs ++ rest) = Ok ((tx, zlen bs), rest).
Proof.
  intros Htx. destruct (codec_bytes _ _ tx transaction_codec_ok Htx) as (bs & Hw & Hr). exists bs.
  split_and!; [done|done|]. pose proof (Hr rest) as H. cbn [consensus_deserialize StacksTransaction_codec] in H.
  unfold consensus_deserialize_with_len in *. destruct (read_bounded _ _ _) as [[tx' rest']| |]; try done.
  cbn [out_bind] in *. injection H as -> ->. rewrite zlen_app. do 3 f_equal. lia.
Qed.

(** A contract call from a 1-of-2 account, with a list and a tuple as arguments
    and a post-condition on a token. *)
Definition sample_layout : Layout := {| size_of _ := 128 |}.
Definition sample_address : StacksAddress := mkAddress x16 (repeat x11 20).
Definition sample_args : list Value :=
  [VSequence (SeqList (mkListData [VUInt 3; VUInt 4] (mkListType 2 UIntType)));
   VTuple (mkTupleData (mkTupleType [("amount", IntType)]) [("amount", VInt (-5))])].
Definition sample_tx : StacksTransaction (K:=toy_secp256k1) :=
  mkTransaction Testnet 0x80000000
    (StandardAuth (Multisig (mkMultisig P2SH (repeat x22 20) 7 180 [AuthSignature Compressed (repeat x33 65)] 1)))
    AnchorAny Deny
    [PostFungible PCOrigin (mkAssetInfo sample_address "token" "gold") SentLe 1000]
    (PayloadContractCall (mkContractCall sample_address "token" "transfer-many" sample_args)).

Lemma sample_tx_ok : transaction_ok (K:=toy_secp256k1) (D:=mixing_digests) (Y:=sample_layout) sample_tx.
Proof.
  assert (forall (T : Type) (m : Z) (c : Codec T) (x : T),
            match consensus_serialize c x with Ok bs => zlen bs <=? m | _ => false end = true -> encoded_within m c x)
    as Hwithin.
  { intros T m c x H bs Hbs. rewrite Hbs in H. lia. }
  assert (multisig_ok (K:=toy_secp256k1) (Y:=sample_layout)
            (mkMultisig P2SH (repeat x22 20) 7 180 [AuthSignature Compressed (repeat x33 65)] 1)) as Hauth.
  { repeat split; try done; [constructor; [done|constructor]|]. apply Hwithin. vm_compute. reflexivity. }
  assert (Forall value_on_wire sample_args) as Hargs.
  { constructor; [|constructor; [|constructor]]; (split; [vm_compute; reflexivity|]); (split; [vm_compute; reflexivity|]);
      cbn; lia. }
  assert (contract_call_ok (D:=mixing_digests) (Y:=sample_layout)
            (mkContractCall sample_address "token" "transfer-many" sample_args)) as Hcall.
  { split; [done|]. split; [done|]. split; [done|]. split; [vm_compute; reflexivity|]. split; [exact Hargs|].
    split; [by split|]. apply Hwithin. vm_compute. reflexivity. }
  split; [done|]. split; [exact Hauth|]. split; [constructor; [by repeat split|constructor]|]. split; [by split|].
  split; [exact Hcall|]. split; [done|]. apply Hwithin. vm_compute. reflexivity.
Qed.

Lemma transaction_roundtrip_witness :
  exists bs, consensus_serialize (StacksTransaction_codec (D:=mixing_digests) (Y:=sample_layout)) sample_tx = Ok bs /\
    consensus_deserialize (StacksTransaction_codec (D:=mixing_digests) (Y:=sample_layout)) (bs ++ [x07]) = Ok (sample_tx, [x07]) /\
    consensus_deserialize_with_len (D:=mixing_digests) (Y:=sample_layout) (bs ++ [x07]) = Ok ((sample_tx, zlen bs), [x07]).
Proof. apply (transaction_roundtrip (L:=toy_laws)), sample_tx_ok. Defined.
