(* ===== verification/Authorization.v ===== *)
(** Authorization: signing and verifying transactions
    (src/chainstate/stacks/{auth,transaction}.rs): spending conditions, the
    rolling hash that signers sign in turn, and [StacksTransactionSigner]. *)
From Stdlib Require Import ZArith Lia Strings.Byte Strings.String List Bool.
From stdpp Require Import base decidable list strings.
From S2P Require Import Prelude Bytes Codec Representations Types Values Events AssetMap Hashes Keys PostConditions.
From S2P Require Import Lexer Transaction.
Open Scope Z_scope.

(** * Errors *)
Inductive net_error := SigningError (msg : string) | VerifyingError (msg : string).

(** [clarity::vm::clarity::Error], the outcome of a transaction in the virtual machine. *)
Inductive ClarityError :=
| Analysis (e : CheckErrors)
| Parse (e : ParseErrors)
| Interpreter (e : VmError)
| BadTransaction (msg : string)
| CostError (cost budget : ExecutionCost)
| AbortedByCallback (value : option Value) (assets : AssetMap) (events : list StacksTransactionEvent).

(** [chainstate::stacks::Error], without the errors of files and databases. *)
Inductive chainstate_error :=
| InvalidFee
| InvalidStacksBlock (msg : string)
| InvalidStacksMicroblock (msg : string) (hash : list byte)
| InvalidStacksTransaction (msg : string) (quiet : bool)
| StacksTransactionSkipped (msg : string)
| PostConditionFailed (msg : string)
| NoSuchBlockError
| InvalidChainstateDB
| BlockTooBigError
| TransactionTooBigError
| BlockCostExceeded
| NoTransactionsToMine
| MicroblockStreamTooLongError
| IncompatibleSpendingConditionError
| CostOverflowError (before after budget : ExecutionCost)
| ClarityErr (e : ClarityError)
| NetError (e : net_error)
| CodecErr (e : codec_error)
| MemPoolError (msg : string)
| PoxAlreadyLocked
| PoxInsufficientBalance
| PoxNoRewardCycle.

Section authorization.
Context {K : LibSecp256k1} {D : Digests} {Y : Layout}.

Definition Txid_from_stacks_tx (txdata : list byte) : list byte := Sha512Trunc256Sum_from_data txdata.
Definition Txid_from_sighash_bytes (txdata : list byte) : list byte := Txid_from_stacks_tx txdata.

(** * Spending conditions *)
Definition push_signature (self : MultisigSpendingCondition) (key_encoding : TransactionPublicKeyEncoding)
    (signature : list byte) : MultisigSpendingCondition :=
  mkMultisig (ms_hash_mode self) (ms_signer self) (ms_nonce self) (ms_tx_fee self)
    (ms_fields self ++ [AuthSignature key_encoding signature]) (ms_signatures_required self).

Definition push_public_key (self : MultisigSpendingCondition) (public_key : Secp256k1PublicKey)
  : MultisigSpendingCondition :=
  mkMultisig (ms_hash_mode self) (ms_signer self) (ms_nonce self) (ms_tx_fee self)
    (ms_fields self ++ [AuthPublicKey public_key]) (ms_signatures_required self).

Definition multisig_pop_auth_field (self : MultisigSpendingCondition)
  : option TransactionAuthField * MultisigSpendingCondition :=
  (last (ms_fields self),
   mkMultisig (ms_hash_mode self) (ms_signer self) (ms_nonce self) (ms_tx_fee self)
     (removelast (ms_fields self)) (ms_signatures_required self)).

Definition set_signature (self : SinglesigSpendingCondition) (signature : list byte) : SinglesigSpendingCondition :=
  mkSinglesig (ss_hash_mode self) (ss_signer self) (ss_nonce self) (ss_tx_fee self) (ss_key_encoding self) signature.

Definition pop_signature (self : SinglesigSpendingCondition) : option TransactionAuthField * SinglesigSpendingCondition :=
  if bool_decide (ss_signature self = MessageSignature_empty) then (None, self)
  else (Some (AuthSignature (ss_key_encoding self) (ss_signature self)), set_signature self MessageSignature_empty).

Definition singlesig_address_mainnet (self : SinglesigSpendingCondition) : StacksAddress :=
  mkAddress (match ss_hash_mode self with
             | P2PKH => C32_ADDRESS_VERSION_MAINNET_SINGLESIG
             | P2WPKH => C32_ADDRESS_VERSION_MAINNET_MULTISIG
             end) (ss_signer self).
Definition singlesig_address_testnet (self : SinglesigSpendingCondition) : StacksAddress :=
  mkAddress (match ss_hash_mode self with
             | P2PKH => C32_ADDRESS_VERSION_TESTNET_SINGLESIG
             | P2WPKH => C32_ADDRESS_VERSION_TESTNET_MULTISIG
             end) (ss_signer self).

Definition address_mainnet (self : TransactionSpendingCondition) : StacksAddress :=
  match self with
  | Singlesig data => singlesig_address_mainnet data
  | Multisig data => mkAddress C32_ADDRESS_VERSION_MAINNET_MULTISIG (ms_signer data)
  end.
Definition address_testnet (self : TransactionSpendingCondition) : StacksAddress :=
  match self with
  | Singlesig data => singlesig_address_testnet data
  | Multisig data => mkAddress C32_ADDRESS_VERSION_TESTNET_MULTISIG (ms_signer data)
  end.

(** [Option]-returning constructors; [from_public_keys] could panic. *)
Definition new_singlesig_p2pkh {E : Type} (pubkey : Secp256k1PublicKey) : outcome E (option TransactionSpendingCondition) :=
  let key_encoding := if compressed pubkey then Compressed else Uncompressed in
  let? signer_addr := StacksAddress_from_public_keys x00 SerializeP2PKH 1 [pubkey] in
  Ok ((fun a => Singlesig (mkSinglesig P2PKH (sa_bytes a) 0 0 key_encoding MessageSignature_empty)) <$> signer_addr).

Definition new_singlesig_p2wpkh {E : Type} (pubkey : Secp256k1PublicKey) : outcome E (option TransactionSpendingCondition) :=
  let? signer_addr := StacksAddress_from_public_keys x00 SerializeP2WPKH 1 [pubkey] in
  Ok ((fun a => Singlesig (mkSinglesig P2WPKH (sa_bytes a) 0 0 Compressed MessageSignature_empty)) <$> signer_addr).

Definition new_multisig_p2sh {E : Type} (num_sigs : Z) (pubkeys : list Secp256k1PublicKey)
  : outcome E (option TransactionSpendingCondition) :=
  let? signer_addr := StacksAddress_from_public_keys x00 SerializeP2SH num_sigs pubkeys in
  Ok ((fun a => Multisig (mkMultisig P2SH (sa_bytes a) 0 0 [] num_sigs)) <$> signer_addr).

Definition new_multisig_p2wsh {E : Type} (num_sigs : Z) (pubkeys : list Secp256k1PublicKey)
  : outcome E (option TransactionSpendingCondition) :=
  let? signer_addr := StacksAddress_from_public_keys x00 SerializeP2WSH num_sigs pubkeys in
  Ok ((fun a => Multisig (mkMultisig P2WSH (sa_bytes a) 0 0 [] num_sigs)) <$> signer_addr).

(** The sponsor an origin commits to. *)
Definition new_initial_sighash : TransactionSpendingCondition :=
  Singlesig (mkSinglesig P2PKH (repeat x00 20) 0 0 Compressed MessageSignature_empty).

Definition num_signatures {E : Type} (self : TransactionSpendingCondition) : outcome E Z :=
  match self with
  | Singlesig data => Ok (if negb (bool_decide (ss_signature data = MessageSignature_empty)) then 1 else 0)
  | Multisig data =>
      try_fold (fun num_sigs field =>
        if is_signature field then expect_some (checked_add u16_ty num_sigs 1) else Ok num_sigs) 0 (ms_fields data)
  end.

Definition signatures_required (self : TransactionSpendingCondition) : Z :=
  match self with Singlesig _ => 1 | Multisig data => ms_signatures_required data end.

Definition condition_nonce (self : TransactionSpendingCondition) : Z :=
  match self with Singlesig data => ss_nonce data | Multisig data => ms_nonce data end.
Definition condition_tx_fee (self : TransactionSpendingCondition) : Z :=
  match self with Singlesig data => ss_tx_fee data | Multisig data => ms_tx_fee data end.

Definition set_nonce (self : TransactionSpendingCondition) (n : Z) : TransactionSpendingCondition :=
  match self with
  | Singlesig d =>
      Singlesig (mkSinglesig (ss_hash_mode d) (ss_signer d) n (ss_tx_fee d) (ss_key_encoding d) (ss_signature d))
  | Multisig d =>
      Multisig (mkMultisig (ms_hash_mode d) (ms_signer d) n (ms_tx_fee d) (ms_fields d) (ms_signatures_required d))
  end.
Definition set_tx_fee (self : TransactionSpendingCondition) (tx_fee : Z) : TransactionSpendingCondition :=
  match self with
  | Singlesig d =>
      Singlesig (mkSinglesig (ss_hash_mode d) (ss_signer d) (ss_nonce d) tx_fee (ss_key_encoding d) (ss_signature d))
  | Multisig d =>
      Multisig (mkMultisig (ms_hash_mode d) (ms_signer d) (ms_nonce d) tx_fee (ms_fields d) (ms_signatures_required d))
  end.

(** Clears the fee, the nonce, the signatures and the public keys. *)
Definition clear_condition (self : TransactionSpendingCondition) : TransactionSpendingCondition :=
  match self with
  | Singlesig d =>
      Singlesig (mkSinglesig (ss_hash_mode d) (ss_signer d) 0 0 (ss_key_encoding d) MessageSignature_empty)
  | Multisig d => Multisig (mkMultisig (ms_hash_mode d) (ms_signer d) 0 0 [] (ms_signatures_required d))
  end.

(** * The rolling hash *)
Definition presign_bytes (cur_sighash : list byte) (cond_code : TransactionAuthFlags) (tx_fee nonce : Z) : list byte :=
  cur_sighash ++ [byte_of_Z (TransactionAuthFlags_to_u8 cond_code)] ++ to_be_bytes 8 tx_fee ++ to_be_bytes 8 nonce.

Definition make_sighash_presign {E : Type} (cur_sighash : list byte) (cond_code : TransactionAuthFlags)
    (tx_fee nonce : Z) : outcome E (list byte) :=
  let new_tx_hash_bits := presign_bytes cur_sighash cond_code tx_fee nonce in
  if Nat.eqb (length new_tx_hash_bits) (32 + 1 + 8 + 8) then Ok (Txid_from_sighash_bytes new_tx_hash_bits) else Panic.

Definition encoding_of (pubkey : Secp256k1PublicKey) : TransactionPublicKeyEncoding :=
  if compressed pubkey then Compressed else Uncompressed.

Definition postsign_bytes (cur_sighash : list byte) (pubkey : Secp256k1PublicKey) (sig : list byte) : list byte :=
  cur_sighash ++ [byte_of_Z (TransactionPublicKeyEncoding_to_u8 (encoding_of pubkey))] ++ sig.

Definition make_sighash_postsign {E : Type} (cur_sighash : list byte) (pubkey : Secp256k1PublicKey) (sig : list byte)
  : outcome E (list byte) :=
  let new_tx_hash_bits := postsign_bytes cur_sighash pubkey sig in
  if Z.of_nat (length new_tx_hash_bits) =? 32 + 1 + MESSAGE_SIGNATURE_ENCODED_SIZE
  then Ok (Txid_from_sighash_bytes new_tx_hash_bits) else Panic.

Definition next_signature (cur_sighash : list byte) (cond_code : TransactionAuthFlags) (tx_fee nonce : Z)
    (privk : Secp256k1PrivateKey) : outcome net_error (list byte * list byte) :=
  let? sighash_presign := make_sighash_presign cur_sighash cond_code tx_fee nonce in
  let? sig := map_err SigningError (PrivateKey_sign privk sighash_presign) in
  let pubk := PublicKey_from_private privk in
  let? next_sighash := make_sighash_postsign sighash_presign pubk sig in
  Ok (sig, next_sighash).

Definition next_verification (cur_sighash : list byte) (cond_code : TransactionAuthFlags) (tx_fee nonce : Z)
    (key_encoding : TransactionPublicKeyEncoding) (sig : list byte)
  : outcome net_error (Secp256k1PublicKey * list byte) :=
  let? sighash_presign := make_sighash_presign cur_sighash cond_code tx_fee nonce in
  let? pubk := map_err VerifyingError (recover_to_pubkey sighash_presign sig) in
  let pubk := set_compressed pubk (match key_encoding with Compressed => true | Uncompressed => false end) in
  let? next_sighash := make_sighash_postsign sighash_presign pubk sig in
  Ok (pubk, next_sighash).

(** * Verifying *)
(** One field in the loop of [MultisigSpendingCondition::verify]: the keys so
    far, the hash, the number of signatures, and whether a key is uncompressed. *)
Definition verify_field (self : MultisigSpendingCondition) (cond_code : TransactionAuthFlags)
    (acc : list Secp256k1PublicKey * list byte * Z * bool) (field : TransactionAuthField)
  : outcome net_error (list Secp256k1PublicKey * list byte * Z * bool) :=
  let '(pubkeys, cur_sighash, num_sigs, have_uncompressed) := acc in
  match field with
  | AuthPublicKey pubkey =>
      Ok (pubkeys ++ [pubkey], cur_sighash, num_sigs, have_uncompressed || negb (compressed pubkey))
  | AuthSignature pubkey_encoding sigbuf =>
      let have_uncompressed := have_uncompressed || bool_decide (pubkey_encoding = Uncompressed) in
      let? '(pubkey, next_sighash) :=
        next_verification cur_sighash cond_code (ms_tx_fee self) (ms_nonce self) pubkey_encoding sigbuf in
      let? num_sigs := ok_or (VerifyingError "Too many signatures") (checked_add u16_ty num_sigs 1) in
      Ok (pubkeys ++ [pubkey], next_sighash, num_sigs, have_uncompressed)
  end.

Definition signer_mismatch (addr_bytes signer : list byte) : net_error :=
  VerifyingError ("Signer hash does not equal hash of public key(s): " +:+ to_hex addr_bytes +:+ " != " +:+ to_hex signer).

Definition multisig_verify (self : MultisigSpendingCondition) (initial_sighash : list byte)
    (cond_code : TransactionAuthFlags) : outcome net_error (list byte) :=
  let? '(pubkeys, cur_sighash, num_sigs, have_uncompressed) :=
    try_fold (verify_field self cond_code) ([], initial_sighash, 0, false) (ms_fields self) in
  if negb (num_sigs =? ms_signatures_required self) then Err (VerifyingError "Incorrect number of signatures")
  else if have_uncompressed && bool_decide (ms_hash_mode self = P2WSH) then
    Err (VerifyingError "Uncompressed keys are not allowed in this hash mode")
  else
    let? a := StacksAddress_from_public_keys x00 (MultisigHashMode_to_address_hash_mode (ms_hash_mode self))
                (ms_signatures_required self) pubkeys in
    match a with
    | None => Err (VerifyingError "Failed to generate address from public keys")
    | Some a =>
        if negb (bool_decide (sa_bytes a = ms_signer self)) then Err (signer_mismatch (sa_bytes a) (ms_signer self))
        else Ok cur_sighash
    end.

Definition singlesig_verify (self : SinglesigSpendingCondition) (initial_sighash : list byte)
    (cond_code : TransactionAuthFlags) : outcome net_error (list byte) :=
  let? '(pubkey, next_sighash) :=
    next_verification initial_sighash cond_code (ss_tx_fee self) (ss_nonce self) (ss_key_encoding self)
      (ss_signature self) in
  let? a := StacksAddress_from_public_keys x00 (SinglesigHashMode_to_address_hash_mode (ss_hash_mode self)) 1 [pubkey] in
  match a with
  | None => Err (VerifyingError "Failed to generate address from public key")
  | Some a =>
      if negb (bool_decide (sa_bytes a = ss_signer self)) then Err (signer_mismatch (sa_bytes a) (ss_signer self))
      else Ok next_sighash
  end.

Definition condition_verify (self : TransactionSpendingCondition) (initial_sighash : list byte)
    (cond_code : TransactionAuthFlags) : outcome net_error (list byte) :=
  match self with
  | Singlesig data => singlesig_verify data initial_sighash cond_code
  | Multisig data => multisig_verify data initial_sighash cond_code
  end.

(** * Authorizations *)
Definition standard_auth {E : Type} (m : outcome E (option TransactionSpendingCondition)) : outcome E (option TransactionAuth) :=
  let? c := m in Ok (StandardAuth <$> c).
Definition from_p2pkh {E : Type} (privk : Secp256k1PrivateKey) : outcome E (option TransactionAuth) :=
  standard_auth (new_singlesig_p2pkh (PublicKey_from_private privk)).
Definition from_p2sh {E : Type} (privks : list Secp256k1PrivateKey) (num_sigs : Z) : outcome E (option TransactionAuth) :=
  standard_auth (new_multisig_p2sh num_sigs (map PublicKey_from_private privks)).
Definition from_p2wpkh {E : Type} (privk : Secp256k1PrivateKey) : outcome E (option TransactionAuth) :=
  standard_auth (new_singlesig_p2wpkh (PublicKey_from_private privk)).
Definition from_p2wsh {E : Type} (privks : list Secp256k1PrivateKey) (num_sigs : Z) : outcome E (option TransactionAuth) :=
  standard_auth (new_multisig_p2wsh num_sigs (map PublicKey_from_private privks)).

Definition into_sponsored (self sponsor_auth : TransactionAuth) : option TransactionAuth :=
  match self, sponsor_auth with
  | StandardAuth sc, StandardAuth sp => Some (SponsoredAuth sc sp)
  | _, _ => None
  end.

Definition set_sponsor (self : TransactionAuth) (sponsor_spending_cond : TransactionSpendingCondition)
  : outcome chainstate_error TransactionAuth :=
  match self with
  | SponsoredAuth o _ => Ok (SponsoredAuth o sponsor_spending_cond)
  | _ => Err IncompatibleSpendingConditionError
  end.

Definition is_sponsored (self : TransactionAuth) : bool := match self with SponsoredAuth _ _ => true | _ => false end.

Definition into_initial_sighash_auth (self : TransactionAuth) : TransactionAuth :=
  match self with
  | StandardAuth origin => StandardAuth (clear_condition origin)
  | SponsoredAuth origin _ => SponsoredAuth (clear_condition origin) new_initial_sighash
  end.

Definition auth_origin (self : TransactionAuth) : TransactionSpendingCondition :=
  match self with StandardAuth s => s | SponsoredAuth s _ => s end.
Definition auth_sponsor (self : TransactionAuth) : option TransactionSpendingCondition :=
  match self with StandardAuth _ => None | SponsoredAuth _ s => Some s end.

Definition set_origin (self : TransactionAuth) (c : TransactionSpendingCondition) : TransactionAuth :=
  match self with StandardAuth _ => StandardAuth c | SponsoredAuth _ s => SponsoredAuth c s end.
Definition set_origin_nonce (self : TransactionAuth) (n : Z) : TransactionAuth :=
  set_origin self (set_nonce (auth_origin self) n).
Definition set_sponsor_nonce (self : TransactionAuth) (n : Z) : outcome chainstate_error TransactionAuth :=
  match self with
  | StandardAuth _ => Err IncompatibleSpendingConditionError
  | SponsoredAuth o s => Ok (SponsoredAuth o (set_nonce s n))
  end.
Definition auth_set_tx_fee (self : TransactionAuth) (tx_fee : Z) : TransactionAuth :=
  match self with
  | StandardAuth s => StandardAuth (set_tx_fee s tx_fee)
  | SponsoredAuth o s => SponsoredAuth o (set_tx_fee s tx_fee)
  end.
Definition auth_get_tx_fee (self : TransactionAuth) : Z :=
  match self with StandardAuth s => condition_tx_fee s | SponsoredAuth _ s => condition_tx_fee s end.

Definition auth_verify_origin (self : TransactionAuth) (initial_sighash : list byte) : outcome net_error (list byte) :=
  condition_verify (auth_origin self) initial_sighash AuthStandard.

Definition auth_verify (self : TransactionAuth) (initial_sighash : list byte) : outcome net_error unit :=
  let? origin_sighash := auth_verify_origin self initial_sighash in
  match self with
  | StandardAuth _ => Ok tt
  | SponsoredAuth _ sponsor_condition =>
      let? _ := condition_verify sponsor_condition origin_sighash AuthSponsored in Ok tt
  end.

(** * Transactions *)
Definition set_auth (self : StacksTransaction) (auth : TransactionAuth) : StacksTransaction :=
  mkTransaction (tx_version self) (tx_chain_id self) auth (tx_anchor_mode self) (tx_post_condition_mode self)
    (tx_post_conditions self) (tx_payload self).

Definition StacksTransaction_new (version : TransactionVersion) (auth : TransactionAuth) (payload : TransactionPayload)
  : StacksTransaction :=
  let anchor_mode := match payload with
                     | Coinbase _ => OnChainOnly
                     | PoisonMicroblock _ _ => OnChainOnly
                     | _ => AnchorAny
                     end in
  mkTransaction version 0 auth anchor_mode Deny [] payload.

Definition txid {E : Type} (self : StacksTransaction) : outcome E (list byte) :=
  let? bytes := expect (StacksTransaction_serialize self) in
  Ok (Txid_from_stacks_tx bytes).

Definition sign_begin {E : Type} (self : StacksTransaction) : outcome E (list byte) :=
  txid (set_auth self (into_initial_sighash_auth (tx_auth self))).
Definition verify_begin {E : Type} (self : StacksTransaction) : outcome E (list byte) :=
  txid (set_auth self (into_initial_sighash_auth (tx_auth self))).

Definition sign_and_append (condition : TransactionSpendingCondition) (cur_sighash : list byte)
    (auth_flag : TransactionAuthFlags) (privk : Secp256k1PrivateKey)
  : outcome net_error (TransactionSpendingCondition * list byte) :=
  let? '(next_sig, next_sighash) :=
    next_signature cur_sighash auth_flag (condition_tx_fee condition) (condition_nonce condition) privk in
  match condition with
  | Multisig cond =>
      Ok (Multisig (push_signature cond (if compress_public privk then Compressed else Uncompressed) next_sig), next_sighash)
  | Singlesig cond => Ok (Singlesig (set_signature cond next_sig), next_sighash)
  end.

Definition pop_auth_field (condition : TransactionSpendingCondition)
  : option TransactionAuthField * TransactionSpendingCondition :=
  match condition with
  | Multisig cond => let '(f, cond) := multisig_pop_auth_field cond in (f, Multisig cond)
  | Singlesig cond => let '(f, cond) := pop_signature cond in (f, Singlesig cond)
  end.

Definition append_pubkey (condition : TransactionSpendingCondition) (pubkey : Secp256k1PublicKey)
  : outcome net_error TransactionSpendingCondition :=
  match condition with
  | Multisig cond => Ok (Multisig (push_public_key cond pubkey))
  | _ => Err (SigningError "Not a multisig condition")
  end.

Definition sign_next_origin (self : StacksTransaction) (cur_sighash : list byte) (privk : Secp256k1PrivateKey)
  : outcome net_error (StacksTransaction * list byte) :=
  let? '(origin, next_sighash) := sign_and_append (auth_origin (tx_auth self)) cur_sighash AuthStandard privk in
  Ok (set_auth self (set_origin (tx_auth self) origin), next_sighash).

Definition append_next_origin (self : StacksTransaction) (pubk : Secp256k1PublicKey) : outcome net_error StacksTransaction :=
  let? origin := append_pubkey (auth_origin (tx_auth self)) pubk in
  Ok (set_auth self (set_origin (tx_auth self) origin)).

Definition sign_next_sponsor (self : StacksTransaction) (cur_sighash : list byte) (privk : Secp256k1PrivateKey)
  : outcome net_error (StacksTransaction * list byte) :=
  match tx_auth self with
  | StandardAuth _ => Err (SigningError "Cannot sign standard authorization with a sponsoring private key")
  | SponsoredAuth o sponsor_condition =>
      let? '(sponsor, next_sighash) := sign_and_append sponsor_condition cur_sighash AuthSponsored privk in
      Ok (set_auth self (SponsoredAuth o sponsor), next_sighash)
  end.

Definition append_next_sponsor (self : StacksTransaction) (pubk : Secp256k1PublicKey) : outcome net_error StacksTransaction :=
  match tx_auth self with
  | StandardAuth _ =>
      Err (SigningError "Cannot appned a public key to the sponsor of a standard auth condition")
  | SponsoredAuth o sponsor_condition =>
      let? sponsor := append_pubkey sponsor_condition pubk in
      Ok (set_auth self (SponsoredAuth o sponsor))
  end.

Definition transaction_verify (self : StacksTransaction) : outcome net_error unit :=
  let? initial_sighash := verify_begin self in auth_verify (tx_auth self) initial_sighash.
Definition transaction_verify_origin (self : StacksTransaction) : outcome net_error (list byte) :=
  let? initial_sighash := verify_begin self in auth_verify_origin (tx_auth self) initial_sighash.

Definition address_of (version : TransactionVersion) (c : TransactionSpendingCondition) : StacksAddress :=
  match version with Mainnet => address_mainnet c | Testnet => address_testnet c end.
Definition origin_address (self : StacksTransaction) : StacksAddress :=
  address_of (tx_version self) (auth_origin (tx_auth self)).
Definition sponsor_address (self : StacksTransaction) : option StacksAddress :=
  address_of (tx_version self) <$> auth_sponsor (tx_auth self).

Definition get_payer (self : StacksTransaction) : TransactionSpendingCondition :=
  match auth_sponsor (tx_auth self) with Some tsc => tsc | None => auth_origin (tx_auth self) end.

(** * The signer *)
Record StacksTransactionSigner := mkSigner {
  signer_tx : StacksTransaction;
  sighash : list byte;
  origin_done : bool;
  check_oversign : bool;
  check_overlap : bool
}.

Definition signer_new {E : Type} (tx : StacksTransaction) : outcome E StacksTransactionSigner :=
  let? sighash := sign_begin tx in
  Ok (mkSigner tx sighash false true true).

Definition signer_new_sponsor (tx : StacksTransaction) (spending_condition : TransactionSpendingCondition)
  : outcome chainstate_error StacksTransactionSigner :=
  if negb (is_sponsored (tx_auth tx)) then Err IncompatibleSpendingConditionError
  else
    let? auth := set_sponsor (tx_auth tx) spending_condition in
    let new_tx := set_auth tx auth in
    let? origin_sighash := map_err NetError (transaction_verify_origin new_tx) in
    Ok (mkSigner new_tx origin_sighash true true true).

Definition signer_resume (self : StacksTransactionSigner) (tx : StacksTransaction) : StacksTransactionSigner :=
  mkSigner tx (sighash self) (origin_done self) (check_oversign self) (check_overlap self).

Definition disable_checks (self : StacksTransactionSigner) : StacksTransactionSigner :=
  mkSigner (signer_tx self) (sighash self) (origin_done self) false false.

(** [self.check_oversign && c.num_signatures() >= c.signatures_required()] *)
Definition oversigned {E : Type} (self : StacksTransactionSigner) (c : TransactionSpendingCondition) : outcome E bool :=
  if check_oversign self then let? n := num_signatures c in Ok (signatures_required c <=? n) else Ok false.

Definition sign_origin (self : StacksTransactionSigner) (privk : Secp256k1PrivateKey)
  : outcome net_error StacksTransactionSigner :=
  if check_overlap self && origin_done self then Err (SigningError "Cannot sign origin after sponsor key")
  else
    let? over := oversigned self (auth_origin (tx_auth (signer_tx self))) in
    if (over : bool) then Err (SigningError "Origin would have too many signatures")
    else
      let? '(tx, next_sighash) := sign_next_origin (signer_tx self) (sighash self) privk in
      Ok (mkSigner tx next_sighash (origin_done self) (check_oversign self) (check_overlap self)).

Definition append_origin (self : StacksTransactionSigner) (pubk : Secp256k1PublicKey)
  : outcome net_error StacksTransactionSigner :=
  if check_overlap self && origin_done self then
    Err (SigningError "Cannot append public key to origin after sponsor key")
  else
    let? tx := append_next_origin (signer_tx self) pubk in
    Ok (mkSigner tx (sighash self) (origin_done self) (check_oversign self) (check_overlap self)).

Definition sign_sponsor (self : StacksTransactionSigner) (privk : Secp256k1PrivateKey)
  : outcome net_error StacksTransactionSigner :=
  let? over :=
    match tx_auth (signer_tx self) with
    | SponsoredAuth _ sponsor_condition => oversigned self sponsor_condition
    | _ => Ok false
    end in
  if (over : bool) then Err (SigningError "Sponsor would have too many signatures")
  else
    let? '(tx, next_sighash) := sign_next_sponsor (signer_tx self) (sighash self) privk in
    Ok (mkSigner tx next_sighash true (check_oversign self) (check_overlap self)).

Definition append_sponsor (self : StacksTransactionSigner) (pubk : Secp256k1PublicKey)
  : outcome net_error StacksTransactionSigner :=
  let? tx := append_next_sponsor (signer_tx self) pubk in
  Ok (mkSigner tx (sighash self) (origin_done self) (check_oversign self) (check_overlap self)).

Definition pop_origin_auth_field (self : StacksTransactionSigner)
  : option TransactionAuthField * StacksTransactionSigner :=
  let '(f, origin) := pop_auth_field (auth_origin (tx_auth (signer_tx self))) in
  (f, signer_resume self (set_auth (signer_tx self) (set_origin (tx_auth (signer_tx self)) origin))).

Definition pop_sponsor_auth_field (self : StacksTransactionSigner)
  : option TransactionAuthField * StacksTransactionSigner :=
  match tx_auth (signer_tx self) with
  | SponsoredAuth o sponsor_condition =>
      let '(f, sponsor) := pop_auth_field sponsor_condition in
      (f, signer_resume self (set_auth (signer_tx self) (SponsoredAuth o sponsor)))
  | _ => (None, self)
  end.

Definition enough_signatures {E : Type} (c : TransactionSpendingCondition) : outcome E bool :=
  let? n := num_signatures c in Ok (signatures_required c <=? n).

Definition signer_complete {E : Type} (self : StacksTransactionSigner) : outcome E bool :=
  match tx_auth (signer_tx self) with
  | StandardAuth origin_condition => enough_signatures origin_condition
  | SponsoredAuth origin_condition sponsored_condition =>
      let? o := enough_signatures origin_condition in
      if negb o then Ok false
      else
        let? s := enough_signatures sponsored_condition in
        Ok (s && (origin_done self || negb (check_overlap self)))
  end.

Definition get_tx {E : Type} (self : StacksTransactionSigner) : outcome E (option StacksTransaction) :=
  let? complete := signer_complete self in
  Ok (if (complete : bool) then Some (signer_tx self) else None).
End authorization.
