(* ===== verification/Signing.v ===== *)
(** Signing: what the authorization of transactions guarantees.

    Completeness: a transaction signed through [StacksTransactionSigner] by the
    holders of an account's keys verifies, whether it is standard or sponsored.
    Binding: a signature that verifies in two transactions of an account was
    made for the same transaction, unless a hash function was broken. *)
From Stdlib Require Import ZArith Lia Strings.Byte Strings.String List Bool.
From stdpp Require Import base decidable list strings sets.
From S2P Require Import Prelude Bytes Codec Representations Types Values RoundTrip Hashes Keys ValueCodec.
From S2P Require Import PostConditions Transaction TransactionRoundTrip Authorization.
Open Scope Z_scope.

(** * Sessions *)
(** What one of the participants does: sign with a private key, or only add a
    public key that takes part in the address. *)
Inductive sign_step {K : LibSecp256k1} :=
| SignWith (privk : Secp256k1PrivateKey)
| AppendKey (pubk : Secp256k1PublicKey).

Section sessions.
Context {K : LibSecp256k1} {D : Digests} {Y : Layout}.

Definition step_key (s : sign_step) : Secp256k1PublicKey :=
  match s with SignWith k => PublicKey_from_private k | AppendKey p => p end.
Definition step_signs (s : sign_step) : bool := match s with SignWith _ => true | AppendKey _ => false end.
Definition signers (steps : list sign_step) : Z := zlen (List.filter step_signs steps).

Definition origin_session (s : StacksTransactionSigner) (steps : list sign_step)
  : outcome net_error StacksTransactionSigner :=
  try_fold (fun s step => match step with SignWith k => sign_origin s k | AppendKey p => append_origin s p end) s steps.
Definition sponsor_session (s : StacksTransactionSigner) (steps : list sign_step)
  : outcome net_error StacksTransactionSigner :=
  try_fold (fun s step => match step with SignWith k => sign_sponsor s k | AppendKey p => append_sponsor s p end) s steps.

(** [c] is the unsigned condition of an account whose keys are those of the
    steps, in their order, and which needs as many signatures as there are
    signers; with any nonce and fee. *)
Definition opens (c : TransactionSpendingCondition) (steps : list sign_step) : Prop :=
  exists c0 nonce tx_fee, c = set_tx_fee (set_nonce c0 nonce) tx_fee /\
    0 <= nonce <= u64_max /\ 0 <= tx_fee <= u64_max /\ signers steps <= u16_max /\ zlen steps <= u32_max /\
    (new_multisig_p2sh (E:=net_error) (signers steps) (map step_key steps) = Ok (Some c0) \/
     new_multisig_p2wsh (E:=net_error) (signers steps) (map step_key steps) = Ok (Some c0) \/
     exists k, steps = [SignWith k] /\
       (new_singlesig_p2pkh (E:=net_error) (PublicKey_from_private k) = Ok (Some c0) \/
        new_singlesig_p2wpkh (E:=net_error) (PublicKey_from_private k) = Ok (Some c0))).

(** The same at the level of a condition: a step with the check of
    [sign_origin] and [sign_sponsor], whose message is [msg]. *)
Definition condition_step (flag : TransactionAuthFlags) (msg : string)
    (acc : TransactionSpendingCondition * list byte) (step : sign_step)
  : outcome net_error (TransactionSpendingCondition * list byte) :=
  let '(c, h) := acc in
  match step with
  | SignWith k =>
      let? n := num_signatures c in
      if signatures_required c <=? n then Err (SigningError msg) else sign_and_append c h flag k
  | AppendKey p => let? c := append_pubkey c p in Ok (c, h)
  end.

Lemma set_auth_twice (tx : StacksTransaction) (a b : TransactionAuth) : set_auth (set_auth tx a) b = set_auth tx b.
Proof. done. Qed.

Lemma origin_session_steps (steps : list sign_step) (tx : StacksTransaction) (h : list byte)
    (c' : TransactionSpendingCondition) (h' : list byte) :
  try_fold (condition_step AuthStandard "Origin would have too many signatures") (auth_origin (tx_auth tx), h) steps
    = Ok (c', h') ->
  origin_session (mkSigner tx h false true true) steps =
  Ok (mkSigner (set_auth tx (set_origin (tx_auth tx) c')) h' false true true).
Proof.
  revert tx h. induction steps as [|step steps IH]; intros tx h H.
  { injection H as <- <-. by destruct tx as [v c [o|o s] a m ps p]. }
  cbn [try_fold] in H. apply out_bind_Ok in H as ([c1 h1] & H1 & H).
  unfold origin_session. cbn [try_fold].
  assert (match step with
          | SignWith k => sign_origin (mkSigner tx h false true true) k
          | AppendKey p => append_origin (mkSigner tx h false true true) p
          end = Ok (mkSigner (set_auth tx (set_origin (tx_auth tx) c1)) h1 false true true)) as ->.
  { destruct step as [k|p]; cbn [condition_step] in H1; apply out_bind_Ok in H1 as (n & Hn & H1).
    - unfold sign_origin, oversigned. cbn [check_overlap check_oversign origin_done andb signer_tx sighash]. rewrite Hn.
      cbn [out_bind]. destruct (_ <=? _); [done|]. unfold sign_next_origin. by rewrite H1.
    - injection H1 as <- <-. unfold append_origin, append_next_origin.
      cbn [check_overlap check_oversign origin_done andb signer_tx sighash]. by rewrite Hn. }
  cbn [out_bind]. fold (origin_session (mkSigner (set_auth tx (set_origin (tx_auth tx) c1)) h1 false true true) steps).
  rewrite IH; [by destruct tx as [v ch [o|o sp] a m ps p]|]. by destruct tx as [v ch [o|o sp] a m ps p].
Qed.

Lemma sponsor_session_steps (steps : list sign_step) (tx : StacksTransaction) (o c : TransactionSpendingCondition)
    (h : list byte) (done : bool) (c' : TransactionSpendingCondition) (h' : list byte) :
  tx_auth tx = SponsoredAuth o c -> done = true ->
  try_fold (condition_step AuthSponsored "Sponsor would have too many signatures") (c, h) steps = Ok (c', h') ->
  sponsor_session (mkSigner tx h done true true) steps =
  Ok (mkSigner (set_auth tx (SponsoredAuth o c')) h' true true true).
Proof.
  intros Ha ->. revert tx c h Ha. induction steps as [|step steps IH]; intros tx c h Ha H.
  { injection H as <- <-. unfold set_auth. rewrite <-Ha. by destruct tx. }
  cbn [try_fold] in H. apply out_bind_Ok in H as ([c1 h1] & H1 & H).
  unfold sponsor_session. cbn [try_fold].
  assert (match step with
          | SignWith k => sign_sponsor (mkSigner tx h true true true) k
          | AppendKey p => append_sponsor (mkSigner tx h true true true) p
          end = Ok (mkSigner (set_auth tx (SponsoredAuth o c1)) h1 true true true)) as ->.
  { destruct step as [k|p]; cbn [condition_step] in H1; apply out_bind_Ok in H1 as (n & Hn & H1).
    - unfold sign_sponsor, oversigned. cbn [check_overlap check_oversign origin_done signer_tx sighash].
      rewrite Ha, Hn. cbn [out_bind]. destruct (_ <=? _); [done|]. unfold sign_next_sponsor. by rewrite Ha, H1.
    - injection H1 as <- <-. unfold append_sponsor, append_next_sponsor.
      cbn [check_overlap check_oversign origin_done signer_tx sighash]. by rewrite Ha, Hn. }
  cbn [out_bind]. by apply (IH (set_auth tx (SponsoredAuth o c1)) c1 h1).
Qed.
End sessions.

(** * A signed condition verifies *)
Section completeness.
Context {K : LibSecp256k1} {L : Secp256k1Laws K} {D : Digests} {DL : DigestLaws D} {Y : Layout}.

Lemma Txid_length (b : list byte) : length (Txid_from_sighash_bytes b) = 32%nat.
Proof using DL. apply Sha512_256_length. Qed.

(** The verifier recovers the signer's key and arrives at the same hash. *)
Lemma sign_verify_step (h : list byte) (flag : TransactionAuthFlags) (fee nonce : Z) (k : Secp256k1PrivateKey) :
  length h = 32%nat ->
  exists sig h', next_signature h flag fee nonce k = Ok (sig, h') /\ sig <> MessageSignature_empty /\
    length h' = 32%nat /\
    next_verification h flag fee nonce (if compress_public k then Compressed else Uncompressed) sig
      = Ok (PublicKey_from_private k, h').
Proof using L DL.
  intros Hh. unfold next_signature, next_verification, make_sighash_presign.
  assert (length (presign_bytes h flag fee nonce) = 49%nat) as Hl.
  { unfold presign_bytes. by rewrite !length_app, !length_to_be_bytes, Hh. }
  rewrite Hl. cbn [Nat.eqb Nat.add out_bind].
  destruct (sign_recover k (Txid_from_sighash_bytes (presign_bytes h flag fee nonce)) (Txid_length _))
    as (sig & Hs & Hlen & Hne & Hr).
  rewrite Hs. cbn [map_err out_bind]. unfold make_sighash_postsign.
  assert (Z.of_nat (length (postsign_bytes (Txid_from_sighash_bytes (presign_bytes h flag fee nonce))
            (PublicKey_from_private k) sig)) =? 32 + 1 + MESSAGE_SIGNATURE_ENCODED_SIZE = true) as Hp.
  { unfold postsign_bytes. by rewrite !length_app, Txid_length, Hlen. }
  rewrite Hp. cbn [out_bind]. eexists sig, _. split; [done|]. split; [done|]. split; [apply Txid_length|].
  rewrite Hr. cbn [map_err out_bind].
  assert (set_compressed (mkPublicKey (LibPublicKey_from_secret_key (priv_key k)) true)
            (match (if compress_public k then Compressed else Uncompressed) with Compressed => true | Uncompressed => false end)
          = PublicKey_from_private k) as ->.
  { unfold set_compressed, PublicKey_from_private. by destruct (compress_public k). }
  by rewrite Hp.
Qed.

Lemma signers_nonneg (steps : list sign_step) : 0 <= signers steps.
Proof. apply zlen_nonneg. Qed.
Lemma signers_app (l1 l2 : list sign_step) : signers (l1 ++ l2) = signers l1 + signers l2.
Proof. unfold signers. by rewrite List.filter_app, zlen_app. Qed.

(** The fields put in by the steps: what the loop of [verify] makes of them. *)
Definition verified_fields (m : MultisigHashMode) (signer : list byte) (nonce fee required : Z)
    (flag : TransactionAuthFlags) (h0 : list byte) (fields : list TransactionAuthField) (steps : list sign_step)
    (h : list byte) : Prop :=
  try_fold (verify_field (mkMultisig m signer nonce fee fields required) flag) ([], h0, 0, false) fields =
    Ok (map step_key steps, h, signers steps, existsb (fun s => negb (compressed (step_key s))) steps) /\
  num_signatures (E:=net_error) (Multisig (mkMultisig m signer nonce fee fields required)) = Ok (signers steps) /\
  length h = 32%nat.

Lemma verify_field_fields m signer nonce fee required flag (fs gs : list TransactionAuthField) :
  verify_field (mkMultisig m signer nonce fee fs required) flag =
  verify_field (mkMultisig m signer nonce fee gs required) flag.
Proof. done. Qed.

Lemma multisig_step m signer nonce fee required flag msg h0 fields done_steps h step :
  verified_fields m signer nonce fee required flag h0 fields done_steps h ->
  signers (done_steps ++ [step]) <= required -> required <= u16_max ->
  exists fields' h',
    condition_step flag msg (Multisig (mkMultisig m signer nonce fee fields required), h) step =
      Ok (Multisig (mkMultisig m signer nonce fee fields' required), h') /\
    verified_fields m signer nonce fee required flag h0 fields' (done_steps ++ [step]) h'.
Proof using L DL.
  intros (Hv & Hn & Hh) Hle Hreq. pose proof (signers_nonneg done_steps). rewrite signers_app in Hle.
  destruct step as [k|p]; cbn [condition_step].
  - change (signers [SignWith k]) with 1 in Hle. rewrite Hn. cbn [out_bind signatures_required ms_signatures_required].
    rewrite (proj2 (Z.leb_gt _ _)) by lia. unfold sign_and_append. cbn [condition_tx_fee condition_nonce ms_tx_fee ms_nonce].
    destruct (sign_verify_step h flag fee nonce k Hh) as (sig & h' & Hs & Hne & Hh' & Hnv). rewrite Hs. cbn [out_bind].
    eexists _, h'. split; [done|]. set (f := AuthSignature _ sig).
    assert (checked_add u16_ty (signers done_steps) 1 = Some (signers done_steps + 1)) as Hadd
      by (apply checked_add_Some; cbn [int_min int_max u16_ty]; lia).
    split_and!; [| |done].
    + cbn [ms_fields]. rewrite (verify_field_fields _ _ _ _ _ _ (fields ++ [f]) fields), try_fold_app, Hv.
      cbn [out_bind try_fold verify_field]. subst f. cbn [verify_field ms_tx_fee ms_nonce]. rewrite Hnv.
      cbn [out_bind]. rewrite Hadd. cbn [ok_or out_bind]. rewrite map_app, signers_app, existsb_app. simpl.
      change (signers [SignWith k]) with 1. rewrite orb_false_r. by destruct (compress_public k).
    + cbn [num_signatures ms_fields] in *. rewrite try_fold_app, Hn. cbn [out_bind try_fold is_signature f].
      rewrite Hadd. cbn [expect_some out_bind]. rewrite signers_app. done.
  - change (signers [AppendKey p]) with 0 in Hle. cbn [append_pubkey out_bind].
    eexists _, h. split; [done|]. split_and!; [| |done].
    + cbn [ms_fields]. rewrite (verify_field_fields _ _ _ _ _ _ (fields ++ [AuthPublicKey p]) fields), try_fold_app, Hv.
      cbn [out_bind try_fold verify_field]. rewrite map_app, signers_app, existsb_app. simpl.
      change (signers [AppendKey p]) with 0. by rewrite Z.add_0_r, orb_false_r.
    + cbn [num_signatures ms_fields] in *. rewrite try_fold_app, Hn. cbn [out_bind try_fold is_signature].
      rewrite signers_app. change (signers [AppendKey p]) with 0. by rewrite Z.add_0_r.
Qed.

Lemma multisig_session m signer nonce fee required flag msg h0 fields done_steps h steps :
  verified_fields m signer nonce fee required flag h0 fields done_steps h ->
  signers (done_steps ++ steps) <= required -> required <= u16_max ->
  exists fields' h',
    try_fold (condition_step flag msg) (Multisig (mkMultisig m signer nonce fee fields required), h) steps =
      Ok (Multisig (mkMultisig m signer nonce fee fields' required), h') /\
    verified_fields m signer nonce fee required flag h0 fields' (done_steps ++ steps) h'.
Proof using L DL.
  revert fields done_steps h. induction steps as [|step steps IH]; intros fields done_steps h Hv Hle Hreq.
  { exists fields, h. rewrite app_nil_r. done. }
  destruct (multisig_step m signer nonce fee required flag msg h0 fields done_steps h step Hv) as (f1 & h1 & H1 & Hv1);
    [|done|].
  { pose proof (signers_nonneg steps). rewrite !signers_app in *. change (step :: steps) with ([step] ++ steps) in Hle.
    rewrite signers_app in Hle. lia. }
  destruct (IH f1 (done_steps ++ [step]) h1 Hv1) as (f2 & h2 & H2 & Hv2); [by rewrite <-app_assoc|done|].
  exists f2, h2. cbn [try_fold]. rewrite H1. cbn [out_bind]. rewrite <-app_assoc in Hv2. done.
Qed.

(** A condition after its session: it verifies from the hash the session began
    with to the hash it ended with, and clears to what it was. *)
Definition signed_from (c c' : TransactionSpendingCondition) (flag : TransactionAuthFlags) (h h' : list byte) : Prop :=
  condition_verify c' h flag = Ok h' /\ clear_condition c' = clear_condition c /\
  (forall E, enough_signatures (E:=E) c' = Ok true) /\ length h' = 32%nat.

Lemma num_signatures_any {E F : Type} (c : TransactionSpendingCondition) (n : Z) :
  num_signatures (E:=E) c = Ok n -> num_signatures (E:=F) c = Ok n.
Proof.
  destruct c as [d|d]; [by intros [= <-]|]. cbn [num_signatures]. generalize 0.
  induction (ms_fields d) as [|f fs IH]; intros z H; [by injection H as <-|]. cbn [try_fold] in *.
  destruct (is_signature f); [|by apply IH]. destruct (checked_add u16_ty z 1); [by apply IH|done].
Qed.

Lemma multisig_complete m signer nonce fee flag msg h steps :
  keys_supported (MultisigHashMode_to_address_hash_mode m) (signers steps) (map step_key steps) = true ->
  signer = Hash160_from_data
             (address_input (MultisigHashMode_to_address_hash_mode m) (signers steps) (map step_key steps)) ->
  signers steps <= u16_max -> zlen steps <= u32_max -> length h = 32%nat ->
  exists c' h',
    try_fold (condition_step flag msg) (Multisig (mkMultisig m signer nonce fee [] (signers steps)), h) steps = Ok (c', h') /\
    signed_from (Multisig (mkMultisig m signer nonce fee [] (signers steps))) c' flag h h'.
Proof using L DL.
  intros Hk Hs Hn Hl Hh. pose proof (signers_nonneg steps).
  destruct (multisig_session m signer nonce fee (signers steps) flag msg h [] [] h steps)
    as (fs & h' & Hrun & Hv & Hns & Hh'); [by split_and!|done|done|].
  eexists _, h'. split; [exact Hrun|]. cbn [app] in Hv, Hns. split_and!; [|done| |done].
  - cbn [condition_verify]. unfold multisig_verify. cbn [ms_fields ms_signatures_required ms_hash_mode ms_signer].
    rewrite Hv. cbn [out_bind]. rewrite Z.eqb_refl. cbn [negb].
    assert (existsb (fun s => negb (compressed (step_key s))) steps && bool_decide (m = P2WSH) = false) as ->.
    { destruct m; [by rewrite andb_false_r|]. rewrite andb_true_r. apply not_true_iff_false.
      intros (st & Hin & Hc)%existsb_exists. apply andb_true_iff in Hk as [_ Hk].
      pose proof (proj1 (forallb_forall _ _) Hk (step_key st) (in_map _ _ _ Hin)) as Hcomp. by rewrite Hcomp in Hc. }
    rewrite from_public_keys_spec; [|unfold_bounds; lia|rewrite length_map; unfold zlen in Hl; unfold_bounds; lia].
    cbn [out_bind]. rewrite Hk, Hs. cbn [sa_bytes]. by rewrite bool_decide_eq_true_2.
  - intros E. unfold enough_signatures. rewrite (num_signatures_any (F:=E) _ _ Hns). cbn [out_bind].
    cbn [signatures_required ms_signatures_required]. by rewrite Z.leb_refl.
Qed.

Lemma singlesig_complete m signer nonce fee enc flag msg h k :
  keys_supported (SinglesigHashMode_to_address_hash_mode m) 1 [PublicKey_from_private k] = true ->
  signer = Hash160_from_data
             (address_input (SinglesigHashMode_to_address_hash_mode m) 1 [PublicKey_from_private k]) ->
  enc = encoding_of (PublicKey_from_private k) -> length h = 32%nat ->
  exists c' h',
    try_fold (condition_step flag msg) (Singlesig (mkSinglesig m signer nonce fee enc MessageSignature_empty), h) [SignWith k]
      = Ok (c', h') /\
    signed_from (Singlesig (mkSinglesig m signer nonce fee enc MessageSignature_empty)) c' flag h h'.
Proof using L DL.
  intros Hk Hs -> Hh. cbn [try_fold condition_step]. cbn [num_signatures ss_signature].
  rewrite bool_decide_eq_true_2 by done. cbn [negb out_bind signatures_required Z.leb Z.compare].
  unfold sign_and_append. cbn [condition_tx_fee condition_nonce ss_tx_fee ss_nonce].
  destruct (sign_verify_step h flag fee nonce k Hh) as (sig & h' & Hsig & Hne & Hh' & Hv). rewrite Hsig. cbn [out_bind].
  eexists _, h'. split; [done|]. split_and!; [|done| |done].
  - cbn [condition_verify set_signature]. unfold singlesig_verify.
    cbn [ss_tx_fee ss_nonce ss_key_encoding ss_signature ss_hash_mode ss_signer set_signature].
    unfold encoding_of. cbn [compressed PublicKey_from_private]. rewrite Hv. cbn [out_bind].
    rewrite from_public_keys_spec by (simpl; lia). cbn [out_bind]. rewrite Hk, Hs. cbn [sa_bytes].
    by rewrite bool_decide_eq_true_2.
  - intros E. unfold enough_signatures. cbn [num_signatures ss_signature set_signature].
    by rewrite bool_decide_eq_false_2.
Qed.

Lemma condition_complete c steps flag msg h :
  opens c steps -> length h = 32%nat ->
  exists c' h', try_fold (condition_step flag msg) (c, h) steps = Ok (c', h') /\ signed_from c c' flag h h'.
Proof using L DL.
  intros (c0 & nonce & fee & -> & Hn & Hf & Hs & Hl & Hnew) Hh. pose proof (signers_nonneg steps) as Hnn.
  assert (0 <= signers steps < 2 ^ 64) as H1 by (unfold_bounds; lia).
  assert (Z.of_nat (length (map step_key steps)) < 2 ^ 64) as H2.
  { rewrite length_map. unfold zlen in Hl. unfold_bounds. lia. }
  destruct Hnew as [Hnew|[Hnew|(k & -> & [Hnew|Hnew])]].
  - unfold new_multisig_p2sh in Hnew. rewrite from_public_keys_spec in Hnew by done. cbn [out_bind] in Hnew.
    destruct (keys_supported _ _ _) eqn:Hk; [|done]. injection Hnew as <-. by apply (multisig_complete P2SH).
  - unfold new_multisig_p2wsh in Hnew. rewrite from_public_keys_spec in Hnew by done. cbn [out_bind] in Hnew.
    destruct (keys_supported _ _ _) eqn:Hk; [|done]. injection Hnew as <-. by apply (multisig_complete P2WSH).
  - unfold new_singlesig_p2pkh in Hnew. rewrite from_public_keys_spec in Hnew by (simpl; lia). cbn [out_bind] in Hnew.
    destruct (keys_supported _ _ _) eqn:Hk; [|done]. injection Hnew as <-. by apply (singlesig_complete P2PKH).
  - unfold new_singlesig_p2wpkh in Hnew. rewrite from_public_keys_spec in Hnew by (simpl; lia). cbn [out_bind] in Hnew.
    destruct (keys_supported _ _ _) eqn:Hk; [|done]. injection Hnew as <-. apply (singlesig_complete P2WPKH); [done|done| |done].
    apply andb_true_iff in Hk as [_ Hk]. apply andb_true_iff in Hk as [_ Hk]. cbn [forallb] in Hk.
    apply andb_true_iff in Hk as [Hk _]. unfold encoding_of. by rewrite Hk.
Qed.
End completeness.

(** A 1-of-2 account and a single-signature account of [toy_secp256k1]. *)
Definition toy_steps : list (sign_step (K:=toy_secp256k1)) :=
  [SignWith toy_key_a; AppendKey (PublicKey_from_private toy_key_b)].
Definition made_condition (m : outcome net_error (option TransactionSpendingCondition)) : TransactionSpendingCondition (K:=toy_secp256k1) :=
  match m with Ok (Some c) => c | _ => new_initial_sighash end.
Definition toy_account : TransactionSpendingCondition (K:=toy_secp256k1) :=
  made_condition (new_multisig_p2sh (D:=mixing_digests) 1 (map step_key toy_steps)).
Definition toy_sponsor : TransactionSpendingCondition (K:=toy_secp256k1) :=
  made_condition (new_singlesig_p2pkh (D:=mixing_digests) (PublicKey_from_private toy_key_b)).
Definition toy_transfer (auth : TransactionAuth) : StacksTransaction (K:=toy_secp256k1) :=
  StacksTransaction_new Testnet auth (TokenTransfer (Standard (mkStandard x1a (repeat x44 20))) 1000 (repeat x00 34)).

Lemma made_condition_eq (m : outcome net_error (option (TransactionSpendingCondition (K:=toy_secp256k1)))) :
  match m with Ok (Some _) => true | _ => false end = true -> m = Ok (Some (made_condition m)).
Proof. by destruct m as [[c|]| |]. Qed.

Lemma toy_account_opens : opens (D:=mixing_digests) (set_tx_fee (set_nonce toy_account 3) 180) toy_steps.
Proof.
  exists toy_account, 3, 180. split; [done|]. split; [done|]. split; [done|]. split; [vm_compute; congruence|].
  split; [vm_compute; congruence|]. left. apply made_condition_eq. vm_compute. reflexivity.
Qed.
Lemma toy_sponsor_opens : opens (D:=mixing_digests) (set_tx_fee (set_nonce toy_sponsor 0) 200) [SignWith toy_key_b].
Proof.
  exists toy_sponsor, 0, 200. split; [done|]. split; [done|]. split; [done|]. split; [vm_compute; congruence|].
  split; [vm_compute; congruence|]. right. right. exists toy_key_b. split; [done|]. left.
  apply made_condition_eq. vm_compute. reflexivity.
Qed.



(** C27: a sponsored transaction signed by its origin and then by a sponsor
    verifies: the origin signs without knowing the sponsor (whatever condition
    stands in its place), the sponsor takes the transaction over with its own
    condition through [new_sponsor], which accepts the origin's signatures, and
    signs after it; no step is refused, and [verify] accepts the result. *)
Theorem signed_sponsored_verifies {K : LibSecp256k1} {L : Secp256k1Laws K} {D : Digests} {DL : DigestLaws D} {Y : Layout}
    (tx : StacksTransaction) (o placeholder sp : TransactionSpendingCondition) (osteps ssteps : list sign_step)
    (s0 : StacksTransactionSigner) :
  tx_auth tx = SponsoredAuth o placeholder -> opens o osteps -> opens sp ssteps ->
  signer_new (E:=net_error) tx = Ok s0 ->
  exists s1 s2 s3 o' sp', origin_session s0 osteps = Ok s1 /\
    signer_new_sponsor (signer_tx s1) sp = Ok s2 /\ sponsor_session s2 ssteps = Ok s3 /\
    get_tx (E:=net_error) s3 = Ok (Some (set_auth tx (SponsoredAuth o' sp'))) /\
    clear_condition o' = clear_condition o /\ clear_condition sp' = clear_condition sp /\
    transaction_verify (set_auth tx (SponsoredAuth o' sp')) = Ok tt.
Proof.
  intros Ha Hopen Hsp Hnew. unfold signer_new in Hnew. apply out_bind_Ok in Hnew as (h & Hh & Hnew). injection Hnew as <-.
  assert (length h = 32%nat) as Hlen.
  { unfold sign_begin, txid in Hh. apply out_bind_Ok in Hh as (b & _ & Hh). injection Hh as <-. apply Sha512_256_length. }
  destruct (condition_complete o osteps AuthStandard "Origin would have too many signatures" h Hopen Hlen)
    as (o' & h' & Hrun & Hver & Hclear & Hen & Hlen').
  destruct (condition_complete sp ssteps AuthSponsored "Sponsor would have too many signatures" h' Hsp Hlen')
    as (sp' & h'' & Hrun' & Hver' & Hclear' & Hen' & _).
  assert (forall x, verify_begin (E:=net_error) (set_auth tx (SponsoredAuth o' x)) = Ok h) as Hbegin.
  { intros x. unfold verify_begin. change (tx_auth (set_auth tx (SponsoredAuth o' x))) with (SponsoredAuth o' x).
    cbn [into_initial_sighash_auth]. rewrite Hclear, set_auth_twice. unfold sign_begin in Hh. rewrite Ha in Hh. done. }
  eexists _, (mkSigner (set_auth tx (SponsoredAuth o' sp)) h' true true true), _, o', sp'.
  split; [apply origin_session_steps; rewrite Ha; exact Hrun|]. rewrite Ha. cbn [set_origin signer_tx].
  split_and!; [| | | |done|].
  - unfold signer_new_sponsor. change (tx_auth (set_auth tx _)) with (SponsoredAuth o' placeholder).
    cbn [is_sponsored negb set_sponsor out_bind]. rewrite set_auth_twice. unfold transaction_verify_origin.
    rewrite Hbegin. cbn [out_bind]. unfold auth_verify_origin.
    change (auth_origin (tx_auth (set_auth tx (SponsoredAuth o' sp)))) with o'. by rewrite Hver.
  - by apply (sponsor_session_steps ssteps _ o' sp h' true sp' h'').
  - rewrite set_auth_twice. unfold get_tx, signer_complete. cbn [signer_tx].
    change (tx_auth (set_auth tx (SponsoredAuth o' sp'))) with (SponsoredAuth o' sp'). cbv iota.
    rewrite Hen. cbn [out_bind negb]. by rewrite Hen'.
  - done.
  - unfold transaction_verify. rewrite Hbegin. cbn [out_bind].
    change (tx_auth (set_auth tx (SponsoredAuth o' sp'))) with (SponsoredAuth o' sp').
    unfold auth_verify, auth_verify_origin. cbn [auth_origin]. rewrite Hver. cbn [out_bind]. by rewrite Hver'.
Qed.

Lemma signed_sponsored_verifies_witness :
  let o := set_tx_fee (set_nonce toy_account 3) 180 in
  let sp := set_tx_fee (set_nonce toy_sponsor 0) 200 in
  let tx := toy_transfer (SponsoredAuth o new_initial_sighash) in
  exists s0 s1 s2 s3 o' sp', signer_new (D:=mixing_digests) (Y:=sample_layout) (E:=net_error) tx = Ok s0 /\
    origin_session (D:=mixing_digests) s0 toy_steps = Ok s1 /\
    signer_new_sponsor (D:=mixing_digests) (Y:=sample_layout) (signer_tx s1) sp = Ok s2 /\
    sponsor_session (D:=mixing_digests) s2 [SignWith toy_key_b] = Ok s3 /\
    get_tx (E:=net_error) s3 = Ok (Some (set_auth tx (SponsoredAuth o' sp'))) /\
    clear_condition o' = clear_condition o /\ clear_condition sp' = clear_condition sp /\
    transaction_verify (D:=mixing_digests) (Y:=sample_layout) (set_auth tx (SponsoredAuth o' sp')) = Ok tt.
Proof.
  intros o sp tx.
  assert (is_ok (signer_new (D:=mixing_digests) (Y:=sample_layout) (E:=net_error) tx) = true)
    as Hok by (vm_compute; reflexivity).
  apply is_ok_true in Hok as [s0 Hs0]. exists s0.
  destruct (signed_sponsored_verifies (L:=toy_laws) (DL:=mixing_digest_laws) (Y:=sample_layout)
    tx o new_initial_sighash sp toy_steps [SignWith toy_key_b] s0 eq_refl toy_account_opens toy_sponsor_opens Hs0)
    as (s1 & s2 & s3 & o' & sp' & H).
  exists s1, s2, s3, o', sp'. split; [exact Hs0|exact H].
Defined.

(** * A signature belongs to one transaction *)
Lemma codec_prefix {T : Type} (P : T -> Prop) (c : Codec T) (x y : T) (bx by' rx ry : list byte) :
  codec_ok P c -> P x -> P y -> consensus_serialize c x = Ok bx -> consensus_serialize c y = Ok by' ->
  bx ++ rx = by' ++ ry -> x = y /\ rx = ry.
Proof.
  intros Hc Hx Hy Ex Ey He. destruct (codec_bytes P c x Hc Hx) as (b1 & E1 & R1).
  destruct (codec_bytes P c y Hc Hy) as (b2 & E2 & R2). rewrite Ex in E1. rewrite Ey in E2.
  injection E1 as <-. injection E2 as <-. pose proof (R1 rx) as H1. rewrite He, R2 in H1. by injection H1.
Qed.

Section binding.
Context {K : LibSecp256k1} {L : Secp256k1Laws K} {D : Digests} {DL : DigestLaws D} {Y : Layout}.

Definition initial_tx (tx : StacksTransaction) : StacksTransaction :=
  set_auth tx (into_initial_sighash_auth (tx_auth tx)).

(** What is hashed on the way to the first hash that the origin signs, and that hash. *)
Definition sighash_inputs (tx : StacksTransaction) : list (list byte) :=
  match StacksTransaction_serialize (initial_tx tx) with
  | Ok bytes =>
      let o := auth_origin (tx_auth tx) in
      [bytes; presign_bytes (Txid_from_stacks_tx bytes) AuthStandard (condition_tx_fee o) (condition_nonce o)]
  | _ => []
  end.
Definition first_sighash (tx : StacksTransaction) : list byte :=
  match sighash_inputs tx with [_; p] => Txid_from_sighash_bytes p | _ => [] end.

(** The account of a condition, and the keys that [verify] finds for it. *)
Definition condition_mode (c : TransactionSpendingCondition) : AddressHashMode :=
  match c with
  | Singlesig d => SinglesigHashMode_to_address_hash_mode (ss_hash_mode d)
  | Multisig d => MultisigHashMode_to_address_hash_mode (ms_hash_mode d)
  end.
Definition condition_signer (c : TransactionSpendingCondition) : list byte :=
  match c with Singlesig d => ss_signer d | Multisig d => ms_signer d end.
Definition condition_keys (c : TransactionSpendingCondition) (h : list byte) (flag : TransactionAuthFlags)
  : list Secp256k1PublicKey :=
  match c with
  | Singlesig d =>
      match next_verification h flag (ss_tx_fee d) (ss_nonce d) (ss_key_encoding d) (ss_signature d) with
      | Ok (k, _) => [k]
      | _ => []
      end
  | Multisig d =>
      match try_fold (verify_field d flag) ([], h, 0, false) (ms_fields d) with
      | Ok (ks, _, _, _) => ks
      | _ => []
      end
  end.
Definition origin_keys (tx : StacksTransaction) : list Secp256k1PublicKey :=
  match verify_begin (E:=net_error) tx with
  | Ok h => condition_keys (auth_origin (tx_auth tx)) h AuthStandard
  | _ => []
  end.

(** The conditions begin with the same public keys and the same signature. *)
Definition same_first_signature (c1 c2 : TransactionSpendingCondition) : Prop :=
  match c1, c2 with
  | Singlesig d1, Singlesig d2 => ss_signature d1 = ss_signature d2
  | Multisig d1, Multisig d2 =>
      exists keys e sig r1 r2, ms_fields d1 = map AuthPublicKey keys ++ AuthSignature e sig :: r1 /\
        ms_fields d2 = map AuthPublicKey keys ++ AuthSignature e sig :: r2
  | _, _ => False
  end.

(** Two different inputs with one digest, among those that the two transactions
    hash; or two different hashes that are the same number for the curve. *)
Definition hash_broken (tx1 tx2 : StacksTransaction) : Prop :=
  let o1 := auth_origin (tx_auth tx1) in let o2 := auth_origin (tx_auth tx2) in
  digests_collide Sha512_256_digest (sighash_inputs tx1) (sighash_inputs tx2) \/
  digests_collide Hash160_from_data (hash160_inputs (condition_mode o1) (signatures_required o1) (origin_keys tx1))
                                    (hash160_inputs (condition_mode o2) (signatures_required o2) (origin_keys tx2)) \/
  digests_collide Sha256_digest (sha256_inputs (condition_mode o1) (signatures_required o1) (origin_keys tx1))
                                (sha256_inputs (condition_mode o2) (signatures_required o2) (origin_keys tx2)) \/
  (first_sighash tx1 <> first_sighash tx2 /\ message_scalar (first_sighash tx1) = message_scalar (first_sighash tx2)).

(** ** The keys that verify *)
Lemma verify_field_keys d flag acc fields ks h n u :
  try_fold (verify_field d flag) acc fields = Ok (ks, h, n, u) ->
  exists ks', ks = (fst (fst (fst acc))) ++ ks' /\ length ks' = length fields.
Proof.
  revert acc. induction fields as [|f fields IH]; intros [[[ks0 h0] n0] u0] H.
  { injection H as <- <- <- <-. exists []. by rewrite app_nil_r. }
  cbn [try_fold] in H. apply out_bind_Ok in H as ([[[ks1 h1] n1] u1] & H1 & H).
  destruct (IH _ H) as (ks' & Hks & Hl). cbn [fst] in *.
  assert (exists k, ks1 = ks0 ++ [k]) as (k & ->).
  { destruct f as [k|e sig]; cbn [verify_field] in H1; [injection H1 as <- _ _ _; eauto|].
    apply out_bind_Ok in H1 as ([k h'] & _ & H1). apply out_bind_Ok in H1 as (n' & _ & H1). injection H1 as <- _ _ _. eauto. }
  exists (k :: ks'). rewrite Hks, <-app_assoc. split; [done|]. simpl. by rewrite Hl.
Qed.

Lemma verify_public_keys d flag keys ks0 h n u :
  exists u', try_fold (verify_field d flag) (ks0, h, n, u) (map AuthPublicKey keys) = Ok (ks0 ++ keys, h, n, u').
Proof.
  revert ks0 u. induction keys as [|k keys IH]; intros ks0 u; [exists u; by rewrite app_nil_r|].
  cbn [map try_fold verify_field out_bind]. destruct (IH (ks0 ++ [k]) (u || negb (compressed k))) as (u' & ->).
  exists u'. by rewrite <-app_assoc.
Qed.

(** The first signature is checked against the hash that came in, and its key
    follows the public keys before it. *)
Lemma verify_first_signature d flag keys e sig rest h ks h' n u :
  try_fold (verify_field d flag) ([], h, 0, false) (map AuthPublicKey keys ++ AuthSignature e sig :: rest) = Ok (ks, h', n, u) ->
  exists k h1, next_verification h flag (ms_tx_fee d) (ms_nonce d) e sig = Ok (k, h1) /\ ks !! length keys = Some k.
Proof.
  intros H. rewrite try_fold_app in H. destruct (verify_public_keys d flag keys [] h 0 false) as (u' & Hu).
  rewrite Hu in H. cbn [out_bind try_fold verify_field app] in H.
  apply out_bind_Ok in H as (acc & H1 & H). apply out_bind_Ok in H1 as ([k h1] & Hk & H1).
  apply out_bind_Ok in H1 as (n1 & _ & H1). injection H1 as <-. exists k, h1. split; [done|].
  destruct (verify_field_keys _ _ _ _ _ _ _ _ H) as (ks' & -> & _). cbn [fst].
  rewrite lookup_app_l by (rewrite length_app; simpl; lia). rewrite lookup_app_r by lia. by rewrite Nat.sub_diag.
Qed.

Lemma condition_verify_keys c h flag h' :
  spending_condition_ok c -> condition_verify c h flag = Ok h' ->
  let ks := condition_keys c h flag in
  keys_supported (condition_mode c) (signatures_required c) ks = true /\ zlen ks <= u32_max /\
  condition_signer c = Hash160_from_data (address_input (condition_mode c) (signatures_required c) ks).
Proof using L DL.
  intros Hok Hv. destruct c as [d|d]; cbn [condition_verify condition_keys condition_mode signatures_required condition_signer] in *.
  - unfold singlesig_verify in Hv. apply out_bind_Ok in Hv as ([k h1] & Hk & Hv). rewrite Hk. cbv zeta.
    rewrite from_public_keys_spec in Hv by (simpl; lia). cbn [out_bind] in Hv.
    destruct (keys_supported _ 1 [k]) eqn:Hs; [|done]. cbn [sa_bytes] in Hv.
    destruct (bool_decide _) eqn:Hb; [|done]. apply bool_decide_eq_true_1 in Hb. split_and!; [done|done|done].
  - destruct Hok as (_ & _ & _ & _ & [Hfit _] & _ & Hreq & _).
    unfold multisig_verify in Hv. apply out_bind_Ok in Hv as ([[[ks h1] n] u] & Hk & Hv). rewrite Hk. cbv zeta.
    destruct (verify_field_keys _ _ _ _ _ _ _ _ Hk) as (ks' & Hks & Hlen). cbn [fst app] in Hks. subst ks'.
    destruct (negb _); [done|]. destruct (u && _); [done|].
    rewrite from_public_keys_spec in Hv by (unfold_bounds; lia). cbn [out_bind] in Hv.
    destruct (keys_supported _ _ ks) eqn:Hs; [|done]. cbn [sa_bytes] in Hv.
    destruct (bool_decide _) eqn:Hb; [|done]. apply bool_decide_eq_true_1 in Hb. unfold zlen. split_and!; [done|lia|done].
Qed.

(** The first key found is recovered from the first signature. *)
Lemma condition_first_key c1 c2 h1 h2 flag f1 f2 :
  clear_condition c1 = clear_condition c2 -> same_first_signature c1 c2 ->
  condition_verify c1 h1 flag = Ok f1 -> condition_verify c2 h2 flag = Ok f2 ->
  condition_keys c1 h1 flag = condition_keys c2 h2 flag ->
  exists e sig k n1 n2, next_verification h1 flag (condition_tx_fee c1) (condition_nonce c1) e sig = Ok (k, n1) /\
    next_verification h2 flag (condition_tx_fee c2) (condition_nonce c2) e sig = Ok (k, n2).
Proof.
  intros Hclear Hsig Hv1 Hv2 Hk. destruct c1 as [d1|d1], c2 as [d2|d2]; try done;
    cbn [condition_verify condition_keys condition_tx_fee condition_nonce same_first_signature] in *.
  - injection Hclear as Hm Hs He. unfold singlesig_verify in Hv1, Hv2.
    apply out_bind_Ok in Hv1 as ([k1 n1] & E1 & _). apply out_bind_Ok in Hv2 as ([k2 n2] & E2 & _).
    rewrite E1, E2 in Hk. injection Hk as <-. exists (ss_key_encoding d1), (ss_signature d1), k1, n1, n2.
    split; [done|]. by rewrite He, Hsig.
  - destruct Hsig as (keys & e & sig & r1 & r2 & F1 & F2). unfold multisig_verify in Hv1, Hv2. rewrite F1 in Hv1, Hk. rewrite F2 in Hv2, Hk.
    apply out_bind_Ok in Hv1 as ([[[ks1 g1] m1] u1] & E1 & _). apply out_bind_Ok in Hv2 as ([[[ks2 g2] m2] u2] & E2 & _).
    rewrite E1, E2 in Hk. subst ks2.
    destruct (verify_first_signature _ _ _ _ _ _ _ _ _ _ _ E1) as (k1 & n1 & N1 & K1).
    destruct (verify_first_signature _ _ _ _ _ _ _ _ _ _ _ E2) as (k2 & n2 & N2 & K2).
    rewrite K1 in K2. injection K2 as <-. by exists e, sig, k1, n1, n2.
Qed.

(** ** The hashes that are signed *)
Lemma next_verification_recovers h flag fee nonce e sig k n :
  length h = 32%nat -> next_verification h flag fee nonce e sig = Ok (k, n) ->
  recover_to_pubkey (Txid_from_sighash_bytes (presign_bytes h flag fee nonce)) sig = Ok (mkPublicKey (pub_key k) true).
Proof.
  intros Hh H. unfold next_verification, make_sighash_presign in H.
  assert (length (presign_bytes h flag fee nonce) = 49%nat) as Hl.
  { unfold presign_bytes. by rewrite !length_app, !length_to_be_bytes, Hh. }
  rewrite Hl in H. cbn [Nat.eqb Nat.add out_bind] in H. apply out_bind_Ok in H as (p & Hp & H).
  apply out_bind_Ok in H as (q & _ & H). injection H as <- _.
  destruct (recover_to_pubkey _ sig) as [k'| |] eqn:Hr; try done. cbn [map_err] in Hp. injection Hp as <-.
  unfold recover_to_pubkey in Hr. do 3 (apply out_bind_Ok in Hr as (? & _ & Hr)). by injection Hr as <-.
Qed.

Lemma presign_inj h1 h2 flag fee1 fee2 nonce1 nonce2 :
  length h1 = 32%nat -> length h2 = 32%nat ->
  0 <= fee1 <= u64_max -> 0 <= fee2 <= u64_max -> 0 <= nonce1 <= u64_max -> 0 <= nonce2 <= u64_max ->
  presign_bytes h1 flag fee1 nonce1 = presign_bytes h2 flag fee2 nonce2 -> h1 = h2 /\ fee1 = fee2 /\ nonce1 = nonce2.
Proof.
  intros H1 H2 F1 F2 N1 N2 He. unfold presign_bytes in He.
  apply app_inj_1 in He as [-> He]; [|congruence]. apply app_inj_1 in He as [_ He]; [|done].
  apply app_inj_1 in He as [Hf Hn]; [|by rewrite !length_to_be_bytes].
  apply (to_be_bytes_inj 8) in Hf; [|change (256 ^ Z.of_nat 8) with (2 ^ 64); int_lia..].
  apply (to_be_bytes_inj 8) in Hn; [|change (256 ^ Z.of_nat 8) with (2 ^ 64); int_lia..]. done.
Qed.

(** The authorizations written for the initial hash of two transactions of one
    account are told apart by their first byte, or are the same. *)
Lemma initial_auth_prefix a1 a2 b1 b2 r1 r2 :
  clear_condition (auth_origin a1) = clear_condition (auth_origin a2) ->
  consensus_serialize TransactionAuth_codec (into_initial_sighash_auth a1) = Ok b1 ->
  consensus_serialize TransactionAuth_codec (into_initial_sighash_auth a2) = Ok b2 ->
  b1 ++ r1 = b2 ++ r2 -> into_initial_sighash_auth a1 = into_initial_sighash_auth a2 /\ r1 = r2.
Proof.
  intros Hc E1 E2 He.
  destruct (decide (is_sponsored a1 = is_sponsored a2)) as [Hs|Hs].
  - assert (into_initial_sighash_auth a1 = into_initial_sighash_auth a2) as Hi.
    { destruct a1, a2; try done; cbn [auth_origin into_initial_sighash_auth] in *; by rewrite Hc. }
    rewrite Hi, E2 in E1. injection E1 as ->. split; [done|]. by apply app_inv_head in He.
  - exfalso. destruct a1 as [o1|o1 s1], a2 as [o2|o2 s2]; try done;
      cbn [into_initial_sighash_auth consensus_serialize TransactionAuth_codec TransactionAuthFlags_to_u8] in E1, E2;
      repeat (apply out_bind_Ok in E1 as (? & ? & E1)); repeat (apply out_bind_Ok in E2 as (? & ? & E2));
      apply (inj Ok) in E1, E2; subst;
      repeat match goal with H : write_next u8_codec _ = Ok _ |- _ => apply (inj Ok) in H; subst end;
      rewrite <-!app_assoc in He; apply (f_equal (List.hd x00)) in He; vm_compute in He; discriminate.
Qed.

Lemma initial_tx_inj tx1 tx2 b :
  transaction_ok tx1 -> transaction_ok tx2 ->
  clear_condition (auth_origin (tx_auth tx1)) = clear_condition (auth_origin (tx_auth tx2)) ->
  StacksTransaction_serialize (initial_tx tx1) = Ok b -> StacksTransaction_serialize (initial_tx tx2) = Ok b ->
  initial_tx tx1 = initial_tx tx2.
Proof using L.
  intros (Hc1 & _ & Hp1 & Hf1 & Hl1 & _) (Hc2 & _ & Hp2 & Hf2 & Hl2 & _) Hclear E1 E2.
  destruct tx1 as [v1 c1 a1 m1 pm1 ps1 p1], tx2 as [v2 c2 a2 m2 pm2 ps2 p2].
  unfold initial_tx, set_auth, StacksTransaction_serialize, write_next in *.
  cbn [tx_version tx_chain_id tx_auth tx_anchor_mode tx_post_condition_mode tx_post_conditions tx_payload] in *.
  repeat (apply out_bind_Ok in E1 as (? & ? & E1)). repeat (apply out_bind_Ok in E2 as (? & ? & E2)).
  rewrite <-E2 in E1. apply (inj Ok) in E1. clear E2.
  eapply (codec_prefix _ u8_codec) in E1 as [Hv E1]; [|apply u8_ok|..|eassumption|eassumption];
    [|by destruct v1|by destruct v2].
  eapply (codec_prefix _ u32_codec) in E1 as [Hc E1]; [|apply u32_ok|..|eassumption|eassumption]; [|done|done].
  eapply initial_auth_prefix in E1 as [Ha E1]; [|done|eassumption|eassumption].
  eapply (codec_prefix _ u8_codec) in E1 as [Hm E1]; [|apply u8_ok|..|eassumption|eassumption];
    [|by destruct m1|by destruct m2].
  eapply (codec_prefix _ u8_codec) in E1 as [Hpm E1]; [|apply u8_ok|..|eassumption|eassumption];
    [|by destruct pm1|by destruct pm2].
  eapply (codec_prefix _ (vec_codec TransactionPostCondition_codec)) in E1 as [-> E1];
    [|apply vec_codec_ok, post_condition_codec_ok|by split|by split|eassumption|eassumption].
  match type of E1 with ?x = ?y => assert (x ++ [] = y ++ []) as E1' by by rewrite E1 end.
  eapply (codec_prefix _ TransactionPayload_codec) in E1' as [-> _];
    [|apply payload_codec_ok|done|done|eassumption|eassumption].
  rewrite Ha, Hc. f_equal; [by destruct v1, v2|by destruct m1, m2|by destruct pm1, pm2].
Qed.
Lemma origin_verified tx f :
  transaction_verify_origin tx = Ok f ->
  let o := auth_origin (tx_auth tx) in
  exists b, StacksTransaction_serialize (initial_tx tx) = Ok b /\
    condition_verify o (Txid_from_stacks_tx b) AuthStandard = Ok f /\
    origin_keys tx = condition_keys o (Txid_from_stacks_tx b) AuthStandard /\
    sighash_inputs tx = [b; presign_bytes (Txid_from_stacks_tx b) AuthStandard (condition_tx_fee o) (condition_nonce o)].
Proof.
  unfold transaction_verify_origin, origin_keys, sighash_inputs, verify_begin, txid. fold (initial_tx tx). intros H.
  destruct (StacksTransaction_serialize (initial_tx tx)) as [b| |]; try done. exists b. done.
Qed.

Lemma condition_ranges c : spending_condition_ok c ->
  0 <= condition_tx_fee c <= u64_max /\ 0 <= condition_nonce c <= u64_max /\ 0 <= signatures_required c <= u16_max.
Proof. destruct c as [d|d]; cbn; [intros (_ & ? & ? & _)|intros (_ & ? & ? & _ & _ & _ & ? & _)]; done. Qed.

Lemma origin_ok tx : transaction_ok tx -> spending_condition_ok (auth_origin (tx_auth tx)).
Proof. intros (_ & Ha & _). destruct (tx_auth tx); [done|]. by destruct Ha. Qed.

(** When the keys found are the same, the transactions are. *)
Lemma same_keys_same_transaction tx1 tx2 f1 f2 :
  transaction_ok tx1 -> transaction_ok tx2 ->
  clear_condition (auth_origin (tx_auth tx1)) = clear_condition (auth_origin (tx_auth tx2)) ->
  same_first_signature (auth_origin (tx_auth tx1)) (auth_origin (tx_auth tx2)) ->
  transaction_verify_origin tx1 = Ok f1 -> transaction_verify_origin tx2 = Ok f2 -> origin_keys tx1 = origin_keys tx2 ->
  (initial_tx tx1 = initial_tx tx2 /\
   condition_tx_fee (auth_origin (tx_auth tx1)) = condition_tx_fee (auth_origin (tx_auth tx2)) /\
   condition_nonce (auth_origin (tx_auth tx1)) = condition_nonce (auth_origin (tx_auth tx2))) \/
  digests_collide Sha512_256_digest (sighash_inputs tx1) (sighash_inputs tx2) \/
  (first_sighash tx1 <> first_sighash tx2 /\ message_scalar (first_sighash tx1) = message_scalar (first_sighash tx2)).
Proof using L DL.
  intros Hok1 Hok2 Hclear Hsig V1 V2 Hkeys.
  destruct (origin_verified tx1 f1 V1) as (b1 & B1 & C1 & K1 & I1).
  destruct (origin_verified tx2 f2 V2) as (b2 & B2 & C2 & K2 & I2). rewrite K1, K2 in Hkeys.
  destruct (condition_first_key _ _ _ _ _ _ _ Hclear Hsig C1 C2 Hkeys) as (e & sig & k & n1 & n2 & N1 & N2).
  assert (forall b, length (Txid_from_stacks_tx b) = 32%nat) as Hlen by (intros b; apply Sha512_256_length).
  apply next_verification_recovers in N1; [|done]. apply next_verification_recovers in N2; [|done].
  pose proof (recover_same _ _ _ _ N1 N2) as Hscalar.
  destruct (condition_ranges _ (origin_ok tx1 Hok1)) as (F1 & M1 & _).
  destruct (condition_ranges _ (origin_ok tx2 Hok2)) as (F2 & M2 & _).
  unfold first_sighash. rewrite I1, I2.
  set (p1 := presign_bytes _ _ _ _) in *. set (p2 := presign_bytes (Txid_from_stacks_tx b2) _ _ _) in *.
  destruct (decide (Txid_from_sighash_bytes p1 = Txid_from_sighash_bytes p2)) as [Heq|Hne]; [|right; right; done].
  destruct (same_digest Sha512_256_digest p1 p2 [b1; p1] [b2; p2] Heq) as [Hp|Hcol]; [set_solver|set_solver| |by right; left].
  apply presign_inj in Hp as (Hh & Hfee & Hnonce); [|done..].
  destruct (same_digest Sha512_256_digest b1 b2 [b1; p1] [b2; p2] Hh) as [->|Hcol]; [set_solver|set_solver| |by right; left].
  left. split; [|done]. by apply (initial_tx_inj tx1 tx2 b2).
Qed.
End binding.

(** C8: a signature authorizes one transaction: when the origins of two
    transactions that the wire format carries are the same account and begin with
    the same public keys and the same first signature, and both verify, then the
    transactions are the same up to what the origin does not sign (the network
    version, chain, payload, post-conditions, modes, fee and nonce all agree),
    unless one of the hash functions collides on their own inputs. *)
Theorem signature_binds_transaction {K : LibSecp256k1} {L : Secp256k1Laws K} {D : Digests} {DL : DigestLaws D} {Y : Layout}
    (tx1 tx2 : StacksTransaction) (f1 f2 : list byte) :
  transaction_ok tx1 -> transaction_ok tx2 ->
  clear_condition (auth_origin (tx_auth tx1)) = clear_condition (auth_origin (tx_auth tx2)) ->
  same_first_signature (auth_origin (tx_auth tx1)) (auth_origin (tx_auth tx2)) ->
  transaction_verify_origin tx1 = Ok f1 -> transaction_verify_origin tx2 = Ok f2 ->
  (initial_tx tx1 = initial_tx tx2 /\
   condition_tx_fee (auth_origin (tx_auth tx1)) = condition_tx_fee (auth_origin (tx_auth tx2)) /\
   condition_nonce (auth_origin (tx_auth tx1)) = condition_nonce (auth_origin (tx_auth tx2))) \/
  hash_broken tx1 tx2.
Proof.
  intros Hok1 Hok2 Hclear Hsig V1 V2.
  destruct (origin_verified tx1 f1 V1) as (b1 & B1 & C1 & K1 & I1).
  destruct (origin_verified tx2 f2 V2) as (b2 & B2 & C2 & K2 & I2).
  destruct (condition_verify_keys _ _ _ _ (origin_ok tx1 Hok1) C1) as (S1 & Z1 & A1). rewrite <-K1 in S1, Z1, A1.
  destruct (condition_verify_keys _ _ _ _ (origin_ok tx2 Hok2) C2) as (S2 & Z2 & A2). rewrite <-K2 in S2, Z2, A2.
  pose proof (condition_ranges _ (origin_ok tx1 Hok1)) as (_ & _ & R1).
  pose proof (condition_ranges _ (origin_ok tx2 Hok2)) as (_ & _ & R2).
  assert (condition_mode (auth_origin (tx_auth tx1)) = condition_mode (auth_origin (tx_auth tx2)) /\
          condition_signer (auth_origin (tx_auth tx1)) = condition_signer (auth_origin (tx_auth tx2))) as [Hm Hs].
  { destruct (auth_origin (tx_auth tx1)) as [d1|d1], (auth_origin (tx_auth tx2)) as [d2|d2]; try done;
      [injection Hclear as E1 E2 _|injection Hclear as E1 E2 _]; cbn; by rewrite E1, E2. }
  unfold hash_broken. rewrite Hm in *. rewrite A1, A2 in Hs.
  apply address_keys in Hs as [[_ Hk]|[Hc|Hc]]; try done; try (unfold zlen in *; unfold_bounds; lia).
  - destruct (same_keys_same_transaction tx1 tx2 f1 f2 Hok1 Hok2 Hclear Hsig V1 V2 Hk) as [H|[H|H]]; [by left|right..];
      [by left|by right; right; right].
  - right. right. by left.
  - right. right. right. by left.
Qed.

(** One transfer, signed by its origin, under two sponsors. *)
Definition signed_origin : TransactionSpendingCondition (K:=toy_secp256k1) :=
  match (let? s := signer_new (D:=mixing_digests) (Y:=sample_layout) (toy_transfer (SponsoredAuth toy_sponsor new_initial_sighash)) in
         origin_session (D:=mixing_digests) s [SignWith toy_key_b]) with
  | Ok s => auth_origin (tx_auth (signer_tx s))
  | _ => toy_account
  end.
Definition sponsored_at (nonce : Z) : StacksTransaction (K:=toy_secp256k1) :=
  toy_transfer (SponsoredAuth signed_origin (set_nonce toy_sponsor nonce)).

Definition singlesig_checks (c : TransactionSpendingCondition (K:=toy_secp256k1)) : bool :=
  match c with
  | Singlesig d =>
      (length (ss_signer d) =? 20)%nat && (0 <=? ss_nonce d) && (ss_nonce d <=? u64_max) && (0 <=? ss_tx_fee d) &&
      (ss_tx_fee d <=? u64_max) && (length (ss_signature d) =? 65)%nat &&
      match ss_hash_mode d with P2PKH => true | P2WPKH => false end
  | Multisig _ => false
  end.

Lemma singlesig_checked (c : TransactionSpendingCondition (K:=toy_secp256k1)) :
  singlesig_checks c = true -> spending_condition_ok (Y:=sample_layout) c /\ same_first_signature c c.
Proof.
  destruct c as [d|d]; [|done]. intros H. cbn [singlesig_checks] in H. split; [|done]. cbn [spending_condition_ok].
  unfold singlesig_ok. destruct (ss_hash_mode d); [|by rewrite andb_false_r in H].
  rewrite !andb_true_iff, !Nat.eqb_eq in H. bool_to_prop. split_and!; (lia || done).
Qed.

Lemma sponsored_at_ok (nonce : Z) :
  0 <= nonce <= u64_max -> singlesig_checks (set_nonce toy_sponsor nonce) = true ->
  match consensus_serialize (StacksTransaction_codec (D:=mixing_digests) (Y:=sample_layout)) (sponsored_at nonce) with
  | Ok bs => zlen bs <=? MAX_TRANSACTION_LEN
  | _ => false
  end = true ->
  transaction_ok (D:=mixing_digests) (Y:=sample_layout) (sponsored_at nonce).
Proof.
  intros Hn Hs Hlen. assert (singlesig_checks signed_origin = true) as Ho by (vm_compute; reflexivity).
  apply singlesig_checked in Ho as [Ho _]. apply singlesig_checked in Hs as [Hs _].
  split; [done|]. split; [by split|]. split; [constructor|]. split; [by split|]. split; [by repeat split|].
  split; [done|]. intros bs Hbs. rewrite Hbs in Hlen. lia.
Qed.

Lemma signature_binds_transaction_witness :
  sponsored_at 1 <> sponsored_at 2 /\
  ((initial_tx (sponsored_at 1) = initial_tx (sponsored_at 2) /\
    condition_tx_fee (auth_origin (tx_auth (sponsored_at 1))) = condition_tx_fee (auth_origin (tx_auth (sponsored_at 2))) /\
    condition_nonce (auth_origin (tx_auth (sponsored_at 1))) = condition_nonce (auth_origin (tx_auth (sponsored_at 2)))) \/
   hash_broken (D:=mixing_digests) (Y:=sample_layout) (sponsored_at 1) (sponsored_at 2)).
Proof.
  assert (Hsig : singlesig_checks signed_origin = true) by (vm_compute; reflexivity).
  apply singlesig_checked in Hsig as [_ Hsig].
  assert (H1 : is_ok (transaction_verify_origin (D:=mixing_digests) (Y:=sample_layout) (sponsored_at 1)) = true)
    by (vm_compute; reflexivity).
  assert (H2 : is_ok (transaction_verify_origin (D:=mixing_digests) (Y:=sample_layout) (sponsored_at 2)) = true)
    by (vm_compute; reflexivity).
  apply is_ok_true in H1 as [f1 H1]. apply is_ok_true in H2 as [f2 H2]. split.
  - intros He. assert (option_map condition_nonce (auth_sponsor (tx_auth (sponsored_at 1))) =
      option_map condition_nonce (auth_sponsor (tx_auth (sponsored_at 2)))) as Hn by (by rewrite He).
    vm_compute in Hn. discriminate Hn.
  - apply (signature_binds_transaction (L:=toy_laws) (DL:=mixing_digest_laws) (sponsored_at 1) (sponsored_at 2) f1 f2).
    + apply sponsored_at_ok; [by unfold_bounds; lia|vm_compute; reflexivity|vm_compute; reflexivity].
    + apply sponsored_at_ok; [by unfold_bounds; lia|vm_compute; reflexivity|vm_compute; reflexivity].
    + reflexivity.
    + exact Hsig.
    + exact H1.
    + exact H2.
Defined.
