(* ===== verification/BackingStore.v ===== *)
(** BackingStore: the committed key-value store under the virtual machine:
    trait [ClarityBackingStore] with its default methods, [ContractCommitment],
    [MemoryBackingStore] and [NullBackingStore]
    (clarity/src/vm/database/clarity_store.rs), and the SQL statements of
    [SqliteConnection] (clarity/src/vm/database/sqlite.rs).

    SQLite is third-party code: a connection is any type with the statements of
    class [Sqlite], and [SqliteLaws] states what SQLite documents of them.
    [Tables] is an instance, two finite maps. *)
From Stdlib Require Import ZArith Lia Strings.Byte Strings.String List Bool.
From stdpp Require Import base decidable list strings option gmap pretty.
From S2P Require Import Prelude Bytes Codec Representations Types Hashes C32 Principals.
Open Scope Z_scope.

(** * Statements *)
(** The statements [SqliteConnection] executes; [None] is an error of SQLite.
    Block hashes are stored as their text; the model keeps their bytes. *)
Class Sqlite (C : Type) := {
  replace_into_data_table : string -> string -> C -> option C;
  select_from_data_table : string -> C -> option (option string);
  insert_into_metadata_table : list byte -> string -> string -> C -> option C;
  select_from_metadata_table : list byte -> string -> C -> option (option string);
  update_metadata_blockhash : list byte -> list byte -> C -> option C;
  delete_from_metadata_table : list byte -> C -> option C
}.

(** [data_table] has primary key [key]; [metadata_table] has the constraint
    UNIQUE (key, blockhash), which an INSERT that breaks it reports as an error. *)
Class SqliteLaws (C : Type) `{Sqlite C} := {
  data_table : C -> gmap string string;
  metadata_table : C -> gmap (string * list byte) string;
  replace_data_ok : forall k v c, exists c', replace_into_data_table k v c = Some c' /\
    data_table c' = <[k := v]> (data_table c) /\ metadata_table c' = metadata_table c;
  select_data_ok : forall k c, select_from_data_table k c = Some (data_table c !! k);
  insert_metadata_ok : forall b k v c,
    match metadata_table c !! (k, b) with
    | Some _ => insert_into_metadata_table b k v c = None
    | None => exists c', insert_into_metadata_table b k v c = Some c' /\
        metadata_table c' = <[(k, b) := v]> (metadata_table c) /\ data_table c' = data_table c
    end;
  select_metadata_ok : forall b k c, select_from_metadata_table b k c = Some (metadata_table c !! (k, b))
}.

Section sqlite_connection.
Context {C : Type} `{Sqlite C}.

Definition sqlite_put (conn : C) (key value : string) : outcome VmError C :=
  expect_some (replace_into_data_table key value conn).
Definition sqlite_get (conn : C) (key : string) : outcome VmError (option string) :=
  expect_some (select_from_data_table key conn).
Definition sqlite_has_entry (conn : C) (key : string) : outcome VmError bool :=
  let? r := sqlite_get conn key in
  Ok (if r then true else false).

Definition metadata_row_key (contract_hash key : string) : string :=
  "clr-meta::" ++ contract_hash ++ "::" ++ key.

Definition SqliteConnection_insert_metadata (conn : C) (bhh : list byte) (contract_hash key value : string)
  : outcome VmError C :=
  let key := metadata_row_key contract_hash key in
  expect_some (insert_into_metadata_table bhh key value conn).
Definition SqliteConnection_commit_metadata_to (conn : C) (from to : list byte) : outcome VmError C :=
  expect_some (update_metadata_blockhash to from conn).
Definition SqliteConnection_drop_metadata (conn : C) (from : list byte) : outcome VmError C :=
  expect_some (delete_from_metadata_table from conn).
Definition SqliteConnection_get_metadata (conn : C) (bhh : list byte) (contract_hash key : string)
  : outcome VmError (option string) :=
  let key := metadata_row_key contract_hash key in
  expect_some (select_from_metadata_table bhh key conn).
End sqlite_connection.

(** * Contract commitments *)
Record ContractCommitment := mkCommitment {
  cc_hash : list byte;
  cc_block_height : Z
}.

Definition ContractCommitment_serialize (self : ContractCommitment) : string :=
  to_hex (cc_hash self) ++ to_hex (to_be_bytes 4 (cc_block_height self)).

(** [from_hex] of a hash of [len] bytes. *)
Definition hash_from_hex (len : nat) (hex_str : string) : outcome HexError (list byte) :=
  let? bytes := hex_bytes hex_str in
  if negb (Nat.eqb (length bytes) len) then Err (BadLength (String.length hex_str)) else Ok bytes.

(** A slice that splits a character panics in Rust; here the bytes of such an
    input are not hexadecimal digits, which panics too. *)
Definition ContractCommitment_deserialize {E : Type} (input : string) : outcome E ContractCommitment :=
  if negb (Nat.eqb (String.length input) 72) then Panic else
  let? hash := expect (hash_from_hex 32 (String.substring 0 64 input)) in
  let? height_bytes := expect (hex_bytes (String.substring 64 8 input)) in
  let? block_height := if Nat.eqb (length height_bytes) 4 then Ok (from_be_bytes height_bytes) else Panic in
  Ok (mkCommitment hash block_height).

(** * The trait *)
(** The required methods; [side_store] and [set_side_store] are the shared
    connection returned by [get_side_store], which statements update in place.
    A method may panic. *)
Class ClarityBackingStore (C S : Type) := {
  put_all : list (string * string) -> S -> outcome VmError S;
  store_get : S -> string -> outcome VmError (option string);
  store_get_with_proof : S -> string -> outcome VmError (option (string * list byte));
  store_set_block_hash : list byte -> S -> outcome VmError (list byte * S);
  get_block_at_height : S -> Z -> outcome VmError (option (list byte));
  get_current_block_height : S -> outcome VmError Z;
  get_open_chain_tip_height : S -> outcome VmError Z;
  get_open_chain_tip : S -> outcome VmError (list byte);
  side_store : S -> outcome VmError C;
  set_side_store : C -> S -> S
}.

Section backing_store.
Context {D : Digests} {C S : Type} `{Sqlite C} `{!ClarityBackingStore C S}.

Definition make_contract_hash_key (contract : QualifiedContractIdentifier) : string :=
  "clarity-contract::" ++ QualifiedContractIdentifier_to_string contract.

(** Default methods of the trait. *)
Definition store_has_entry (self : S) (key : string) : outcome VmError bool :=
  let? r := store_get self key in
  Ok (if r then true else false).

Definition make_contract_commitment (self : S) (contract_hash : list byte) : outcome VmError string :=
  let? block_height := get_open_chain_tip_height self in
  let cc := mkCommitment contract_hash block_height in
  Ok (ContractCommitment_serialize cc).

Definition get_contract_hash (self : S) (contract : QualifiedContractIdentifier)
  : outcome VmError (list byte * list byte) :=
  let key := make_contract_hash_key contract in
  let? contract_commitment := store_get self key in
  let? contract_commitment :=
    match contract_commitment with
    | Some x => ContractCommitment_deserialize x
    | None => Err (Unchecked (CheckErr.NoSuchContract (QualifiedContractIdentifier_to_string contract)))
    end in
  let? bhh := get_block_at_height self (cc_block_height contract_commitment) in
  let? bhh := expect_some bhh in
  Ok (bhh, cc_hash contract_commitment).

Definition store_insert_metadata (contract : QualifiedContractIdentifier) (key value : string) (self : S)
  : outcome VmError S :=
  let? bhh := get_open_chain_tip self in
  let? conn := side_store self in
  let? conn := SqliteConnection_insert_metadata conn bhh
    (QualifiedContractIdentifier_to_string contract) key value in
  Ok (set_side_store conn self).

Definition store_get_metadata (self : S) (contract : QualifiedContractIdentifier) (key : string)
  : outcome VmError (option string) :=
  let? '(bhh, _) := get_contract_hash self contract in
  let? conn := side_store self in
  SqliteConnection_get_metadata conn bhh (QualifiedContractIdentifier_to_string contract) key.

Definition store_get_metadata_manual (self : S) (at_height : Z) (contract : QualifiedContractIdentifier)
    (key : string) : outcome VmError (option string) :=
  let? bhh := get_block_at_height self at_height in
  let? bhh := ok_or (Runtime (RuntimeErr.BadBlockHeight (pretty at_height))) bhh in
  let? conn := side_store self in
  SqliteConnection_get_metadata conn bhh (QualifiedContractIdentifier_to_string contract) key.

Definition put_all_metadata (items : list ((QualifiedContractIdentifier * string) * string)) (self : S)
  : outcome VmError S :=
  try_fold (fun self '((contract, key), value) => store_insert_metadata contract key value self) self items.
End backing_store.

(** * Two implementations *)
(** [StacksBlockId([255; 32])] *)
Definition memory_tip : list byte := repeat xff 32.

(** [MemoryBackingStore { side_store }] *)
Record MemoryBackingStore (C : Type) := mkMemory { mem_side_store : C }.
Arguments mkMemory {C} _.
Arguments mem_side_store {C} _.

#[export] Instance MemoryBackingStore_store {C : Type} `{Sqlite C} : ClarityBackingStore C (MemoryBackingStore C) := {|
  put_all items self :=
    let? conn := try_fold (fun conn '(key, value) => sqlite_put conn key value) (mem_side_store self) items in
    Ok (mkMemory conn);
  store_get self key := sqlite_get (mem_side_store self) key;
  store_get_with_proof self key :=
    let? r := sqlite_get (mem_side_store self) key in
    Ok (match r with Some x => Some (x, []) | None => None end);
  store_set_block_hash bhh _ := Err (Runtime (RuntimeErr.UnknownBlockHeaderHash bhh));
  get_block_at_height _ height := Ok (if height =? 0 then Some memory_tip else None);
  get_current_block_height _ := Ok 0;
  get_open_chain_tip_height _ := Ok 0;
  get_open_chain_tip _ := Ok memory_tip;
  side_store self := Ok (mem_side_store self);
  set_side_store conn _ := mkMemory conn
|}.

Inductive NullBackingStore := mkNull.

#[export] Instance NullBackingStore_store {C : Type} : ClarityBackingStore C NullBackingStore := {|
  put_all _ _ := Panic;
  store_get _ _ := Panic;
  store_get_with_proof _ _ := Panic;
  store_set_block_hash _ _ := Panic;
  get_block_at_height _ _ := Panic;
  get_current_block_height _ := Panic;
  get_open_chain_tip_height _ := Panic;
  get_open_chain_tip _ := Panic;
  side_store _ := Panic;
  set_side_store _ self := self
|}.

(** * Finite tables as a connection *)
Record Tables := mkTables {
  t_data : gmap string string;
  t_metadata : gmap (string * list byte) string
}.

#[export] Instance Tables_sqlite : Sqlite Tables := {|
  replace_into_data_table k v c := Some (mkTables (<[k := v]> (t_data c)) (t_metadata c));
  select_from_data_table k c := Some (t_data c !! k);
  insert_into_metadata_table b k v c :=
    match t_metadata c !! (k, b) with
    | Some _ => None
    | None => Some (mkTables (t_data c) (<[(k, b) := v]> (t_metadata c)))
    end;
  select_from_metadata_table b k c := Some (t_metadata c !! (k, b));
  update_metadata_blockhash to from c :=
    Some (mkTables (t_data c)
      (list_to_map (map (fun '((k, b), v) => ((k, if decide (b = from) then to else b), v))
        (map_to_list (t_metadata c)))));
  delete_from_metadata_table from c :=
    Some (mkTables (t_data c) (filter (fun p => p.1.2 <> from) (t_metadata c)))
|}.

#[export] Instance Tables_laws : SqliteLaws Tables.
Proof.
  refine {| data_table := t_data; metadata_table := t_metadata |}; try done.
  - intros. by eexists.
  - intros. simpl. case_match; [done|by eexists].
Defined.

(** * What a store promises to the layers above *)
(** The values a list of writes gives to [k], least recent first, and the one
    that remains. *)
Definition values {K : Type} `{EqDecision K} (k : K) (items : list (K * string)) : list string :=
  flat_map (fun e => if decide (fst e = k) then [snd e] else []) items.
Definition last_write {K : Type} `{EqDecision K} (k : K) (items : list (K * string)) : option string :=
  last (values k items).

(** Reads return the contents; [put_all] applies its writes in order; metadata
    is kept apart from the contents. *)
Class StoreLaws (C S : Type) `{Sqlite C} `{!ClarityBackingStore C S} := {
  contents : S -> string -> option string;
  store_get_ok : forall s k, store_get s k = Ok (contents s k);
  put_all_ok : forall items s, exists s', put_all items s = Ok s' /\
    forall k, contents s' k = match last_write k items with Some v => Some v | None => contents s k end;
  insert_metadata_contents : forall (D : Digests) c key v s s',
    store_insert_metadata c key v s = Ok s' -> contents s' = contents s
}.

Lemma last_write_cons (k k' v : string) (items : list (string * string)) :
  last_write k ((k', v) :: items) =
  match last_write k items with Some w => Some w | None => if decide (k' = k) then Some v else None end.
Proof.
  unfold last_write, values. cbn [flat_map fst snd]. rewrite last_app. by destruct (last (flat_map _ items)), (decide (k' = k)).
Qed.

Lemma sqlite_put_list {C : Type} `{SqliteLaws C} (items : list (string * string)) (conn : C) :
  exists conn', try_fold (fun conn '(key, value) => sqlite_put conn key value) conn items = Ok conn' /\
    metadata_table conn' = metadata_table conn /\
    forall k, data_table conn' !! k = match last_write k items with Some v => Some v | None => data_table conn !! k end.
Proof.
  revert conn. induction items as [|[k v] items IH]; intros conn; [by exists conn|].
  cbn [try_fold]. unfold sqlite_put at 1. destruct (replace_data_ok k v conn) as (c1 & -> & Hd & Hm). cbn [expect_some out_bind].
  destruct (IH c1) as (c2 & -> & Hm2 & Hd2). exists c2. split; [done|]. split; [congruence|]. intros k'.
  rewrite Hd2, last_write_cons, Hd. destruct (last_write k' items); [done|].
  destruct (decide (k = k')) as [->|]; [by rewrite lookup_insert_eq|by rewrite lookup_insert_ne].
Qed.

(** The in-memory store keeps the promises, on any connection that follows
    SQLite's documentation. *)
#[export] Instance MemoryBackingStore_laws {C : Type} `{SqliteLaws C} : StoreLaws C (MemoryBackingStore C).
Proof.
  refine {| contents := fun s k => data_table (mem_side_store s) !! k |}.
  - intros s k. simpl. unfold sqlite_get. by rewrite select_data_ok.
  - intros items [conn]. destruct (sqlite_put_list items conn) as (conn' & Hput & _ & Hd).
    exists (mkMemory conn'). simpl. by rewrite Hput.
  - intros D c key v [conn] s'. unfold store_insert_metadata, SqliteConnection_insert_metadata. simpl.
    pose proof (insert_metadata_ok memory_tip (metadata_row_key (QualifiedContractIdentifier_to_string c) key) v conn) as Hi.
    case_match; [by rewrite Hi|]. destruct Hi as (c' & -> & _ & Hd). simpl. intros [= <-]. simpl. by rewrite Hd.
Defined.

(** * Commitments and metadata *)
Lemma substring_app_l (a b : string) : String.substring 0 (String.length a) (a ++ b) = a.
Proof. induction a as [|c a IH]; [by destruct b|]. rewrite str_app_cons. simpl. by rewrite IH. Qed.

Lemma substring_app_r (a b : string) (n : nat) :
  String.substring (String.length a) n (a ++ b) = String.substring 0 n b.
Proof. induction a as [|c a IH]; [done|]. rewrite str_app_cons. simpl. exact IH. Qed.

Lemma substring_all (s : string) : String.substring 0 (String.length s) s = s.
Proof. induction s as [|c s IH]; [done|]. simpl. by rewrite IH. Qed.

Lemma length_str_app (a b : string) : String.length (a ++ b) = (String.length a + String.length b)%nat.
Proof. induction a as [|c a IH]; [done|]. rewrite str_app_cons. simpl. by rewrite IH. Qed.

Lemma commitment_roundtrip {E : Type} (cc : ContractCommitment) :
  length (cc_hash cc) = 32%nat -> 0 <= cc_block_height cc <= u32_max ->
  ContractCommitment_deserialize (E:=E) (ContractCommitment_serialize cc) = Ok cc.
Proof.
  destruct cc as [hash height]. cbn [cc_hash cc_block_height]. intros Hl Hh.
  unfold ContractCommitment_deserialize, ContractCommitment_serialize. cbn [cc_hash cc_block_height].
  assert (String.length (to_hex hash) = 64%nat) as Hlen by (rewrite length_to_hex; lia).
  rewrite length_str_app, Hlen, length_to_hex, length_to_be_bytes. cbn [Nat.eqb negb Nat.mul Nat.add].
  rewrite <-Hlen at 1. rewrite substring_app_l. unfold hash_from_hex. rewrite hex_bytes_to_hex. cbn [out_bind].
  rewrite Hl. cbn [Nat.eqb negb expect out_bind]. rewrite <-Hlen at 1. rewrite substring_app_r.
  replace 8%nat with (String.length (to_hex (to_be_bytes 4 height))) by (rewrite length_to_hex, length_to_be_bytes; done).
  rewrite substring_all, hex_bytes_to_hex. cbn [expect out_bind]. rewrite length_to_be_bytes. cbn [Nat.eqb out_bind].
  rewrite from_to_be_bytes_small by (unfold u32_max in Hh; change (256 ^ Z.of_nat 4) with (2 ^ 32); lia). done.
Qed.

(** Publishing a contract in the in-memory store makes its metadata
    readable: once the commitment to the contract's hash is stored under its
    key and a metadata entry is inserted, [get_metadata] returns that entry;
    a second insertion of the same entry panics (the table is UNIQUE), and a
    contract without commitment has no metadata ([NoSuchContract]). *)
Lemma memory_store_metadata {D : Digests} {C : Type} `{SqliteLaws C}
    (s : MemoryBackingStore C) (contract : QualifiedContractIdentifier) (hash : list byte) (key value : string) :
  length hash = 32%nat ->
  metadata_table (mem_side_store s) !!
    (metadata_row_key (QualifiedContractIdentifier_to_string contract) key, memory_tip) = None ->
  (contents s (make_contract_hash_key contract) = None ->
   store_get_metadata s contract key =
   Err (Unchecked (CheckErr.NoSuchContract (QualifiedContractIdentifier_to_string contract)))) /\
  exists commitment s1 s2,
    make_contract_commitment s hash = Ok commitment /\
    put_all [(make_contract_hash_key contract, commitment)] s = Ok s1 /\
    store_insert_metadata contract key value s1 = Ok s2 /\
    get_contract_hash s2 contract = Ok (memory_tip, hash) /\
    store_get_metadata s2 contract key = Ok (Some value) /\
    store_insert_metadata contract key value s2 = Panic.
Proof.
  intros Hlen Hfresh. destruct s as [conn]. simpl in Hfresh. split.
  { intros Hnone. unfold store_get_metadata, get_contract_hash. rewrite store_get_ok, Hnone. done. }
  destruct (sqlite_put_list [(make_contract_hash_key contract, ContractCommitment_serialize (mkCommitment hash 0))] conn)
    as (c1 & Hput & Hm & Hd).
  pose proof (insert_metadata_ok memory_tip (metadata_row_key (QualifiedContractIdentifier_to_string contract) key)
    value c1) as Hi. rewrite Hm, Hfresh in Hi. destruct Hi as (c2 & Hins & Hm2 & Hd2).
  exists (ContractCommitment_serialize (mkCommitment hash 0)), (mkMemory c1), (mkMemory c2).
  assert (get_contract_hash (mkMemory c2) contract = Ok (memory_tip, hash)) as Hget.
  { unfold get_contract_hash. rewrite store_get_ok. cbn [out_bind contents MemoryBackingStore_laws mem_side_store].
    rewrite Hd2, Hd. unfold last_write, values. cbn [flat_map fst snd]. rewrite decide_True by done. cbn [app last].
    rewrite commitment_roundtrip; [done|done|]. vm_compute. split; discriminate. }
  split; [done|]. split; [simpl; simpl in Hput; by rewrite Hput|]. split.
  { unfold store_insert_metadata, SqliteConnection_insert_metadata. simpl. by rewrite Hins. }
  split; [done|]. split.
  - unfold store_get_metadata. rewrite Hget. simpl. unfold SqliteConnection_get_metadata.
    by rewrite select_metadata_ok, Hm2, lookup_insert_eq.
  - unfold store_insert_metadata, SqliteConnection_insert_metadata. simpl.
    pose proof (insert_metadata_ok memory_tip (metadata_row_key (QualifiedContractIdentifier_to_string contract) key)
      value c2) as Hi. rewrite Hm2, lookup_insert_eq in Hi. by rewrite Hi.
Qed.

Lemma memory_store_metadata_witness :
  exists s : MemoryBackingStore Tables,
    store_get_metadata (D:=mixing_digests) s (mkContractId (mkStandard x16 (repeat x07 20)) "pox") "ast" = Ok (Some "()").
Proof.
  destruct (@memory_store_metadata mixing_digests Tables _ _ (mkMemory (mkTables ∅ ∅))
    (mkContractId (mkStandard x16 (repeat x07 20)) "pox") (repeat x00 32) "ast" "()" eq_refl (lookup_empty _))
    as (_ & _ & _ & s2 & _ & _ & _ & _ & Hget & _).
  exists s2. exact Hget.
Defined.
