(* ===== verification/RollbackWrapper.v ===== *)
(** RollbackWrapper: the nested-transaction layer of Clarity's key-value store
    (clarity/src/vm/database/key_value_wrapper.rs) over a backing store.

    The wrapper keeps, per key, the history of pending values in
    [lookup_map], and per open context the list of keys it edited.  It is
    modelled in its default configuration, where an edit carries no value
    ([RollbackValueCheck = ()]).  The top of a stack is the head of its list.
    The specification is a stack of journals of writes; [wrapper_inv] relates
    the two, and every operation is proved to refine its journal counterpart. *)
From Stdlib Require Import ZArith Lia Strings.Byte Strings.String List Bool.
From stdpp Require Import base decidable list strings option gmap.
From S2P Require Import Prelude Bytes Codec Representations BTree Types Signatures Admission Values.
From S2P Require Import Serialization Hashes C32 Principals BackingStore.
Open Scope Z_scope.

(** * Edit histories, for any type of keys *)
Section edit_log.
Context {K : Type} `{Countable K}.
Implicit Types (m : gmap K (list string)) (log : list (K * string)).

Definition rollback_lookup_map (key : K) (lookup_map : gmap K (list string))
  : outcome VmError (string * gmap K (list string)) :=
  let? key_edit_history := expect_some (lookup_map !! key) in
  let? popped_value := expect_some (last key_edit_history) in
  let key_edit_history := removelast key_edit_history in
  let remove_edit_deque := Nat.eqb (length key_edit_history) 0 in
  Ok (popped_value,
      if remove_edit_deque then delete key lookup_map
      else <[key := key_edit_history]> lookup_map).

Definition inner_put (lookup_map : gmap K (list string)) (edits : list K) (key : K) (value : string)
  : outcome VmError (gmap K (list string) * list K) :=
  let lookup_map :=
    match lookup_map !! key with
    | Some _ => lookup_map
    | None => <[key := []]> lookup_map
    end in
  let? key_edit_deque := expect_some (lookup_map !! key) in
  Ok (<[key := key_edit_deque ++ [value]]> lookup_map, edits ++ [key]).

(** The loop of [rollback] over one kind of edits. *)
Definition rollback_edits (edits : list K) (lookup_map : gmap K (list string))
  : outcome VmError (gmap K (list string)) :=
  try_fold (fun m key => let? '(_, m) := rollback_lookup_map key m in Ok m) lookup_map (rev edits).

Definition rollback_check_pre_bottom_commit (edits : list K) (lookup_map : gmap K (list string))
  : outcome VmError (list (K * string) * gmap K (list string)) :=
  let lookup_map := rev (A:=string) <$> lookup_map in
  let? '(output, lookup_map) :=
    try_fold (fun '(output, m) key =>
      let? '(value, m) := rollback_lookup_map key m in
      Ok (output ++ [(key, value)], m)) ([], lookup_map) edits in
  if Nat.eqb (size lookup_map) 0 then Ok (output, lookup_map) else Panic.

(** The pending values of [k]: its history is removed when it is empty. *)
Definition history (k : K) (log : list (K * string)) : option (list string) :=
  match values k log with [] => None | vs => Some vs end.

(** [m] holds exactly the histories of the writes in [log]. *)
Definition tracks m log : Prop := forall k, m !! k = history k log.

Lemma values_app (k : K) log log' : values k (log ++ log') = values k log ++ values k log'.
Proof. apply flat_map_app. Qed.

Lemma values_snoc (k k' : K) (v : string) log :
  values k (log ++ [(k', v)]) = values k log ++ (if decide (k' = k) then [v] else []).
Proof. rewrite values_app. unfold values at 2. simpl. by rewrite app_nil_r. Qed.

Lemma tracks_unique m m' log : tracks m log -> tracks m' log -> m = m'.
Proof. intros Hm Hm'. apply map_eq. intros k. by rewrite Hm, Hm'. Qed.

Lemma tracks_nil m : tracks m [] <-> m = ∅.
Proof.
  split; [intros Hm; apply map_eq; intros k; by rewrite Hm, lookup_empty | intros -> k; by rewrite lookup_empty].
Qed.

Lemma removelast_snoc {A : Type} (l : list A) (x : A) : removelast (l ++ [x]) = l.
Proof. rewrite removelast_app by done. simpl. by rewrite app_nil_r. Qed.

Lemma history_snoc_eq (k : K) (v : string) log :
  history k (log ++ [(k, v)]) = Some (values k log ++ [v]).
Proof. unfold history. rewrite values_snoc, decide_True by done. by destruct (values k log). Qed.

Lemma history_snoc_ne (k k' : K) (v : string) log :
  k' <> k -> history k (log ++ [(k', v)]) = history k log.
Proof. intros Hne. unfold history. by rewrite values_snoc, decide_False, app_nil_r. Qed.

(** The last pending value is the last value written. *)
Lemma tracks_last m log (k : K) : tracks m log -> m !! k ≫= last = last (values k log).
Proof. intros Hm. rewrite Hm. unfold history. by destruct (values k log). Qed.

Lemma inner_put_tracks m log (edits : list K) (k : K) (v : string) :
  tracks m log ->
  exists m', inner_put m edits k v = Ok (m', edits ++ [k]) /\ tracks m' (log ++ [(k, v)]).
Proof.
  intros Hm. unfold inner_put. set (m1 := match m !! k with Some _ => m | None => _ end).
  assert (m1 !! k = Some (values k log)) as Hk.
  { subst m1. specialize (Hm k). unfold history in Hm. destruct (m !! k) as [h|] eqn:E.
    - rewrite E. by destruct (values k log).
    - rewrite lookup_insert_eq. by destruct (values k log). }
  rewrite Hk. cbn [expect_some out_bind]. eexists. split; [done|]. intros k'.
  destruct (decide (k = k')) as [<-|Hne].
  - by rewrite lookup_insert_eq, history_snoc_eq.
  - rewrite lookup_insert_ne, history_snoc_ne by done. rewrite <-(Hm k'). subst m1.
    destruct (m !! k); [done|]. by rewrite lookup_insert_ne.
Qed.

Lemma rollback_lookup_map_tracks m log (k : K) (v : string) :
  tracks m (log ++ [(k, v)]) ->
  exists m', rollback_lookup_map k m = Ok (v, m') /\ tracks m' log.
Proof.
  intros Hm. unfold rollback_lookup_map. rewrite Hm, history_snoc_eq. cbn [expect_some out_bind].
  rewrite last_snoc. cbn [expect_some out_bind]. rewrite removelast_snoc. eexists. split; [done|].
  intros k'. destruct (decide (k = k')) as [<-|Hne].
  - unfold history. destruct (values k log) as [|w ws]; simpl.
    + by rewrite lookup_delete_eq.
    + by rewrite lookup_insert_eq.
  - rewrite <-(history_snoc_ne k' k v log) by done. rewrite <-(Hm k').
    case_match; [by rewrite lookup_delete_ne | by rewrite lookup_insert_ne].
Qed.

(** Rolling back the keys of [log] leaves the histories of what came before. *)
Lemma rollback_edits_tracks m base log :
  tracks m (base ++ log) ->
  exists m', rollback_edits (map fst log) m = Ok m' /\ tracks m' base.
Proof.
  revert m. induction log as [|[k v] log IH] using rev_ind; intros m Hm.
  - rewrite app_nil_r in Hm. by exists m.
  - rewrite app_assoc in Hm. destruct (rollback_lookup_map_tracks _ _ _ _ Hm) as (m1 & Hpop & Hm1).
    destruct (IH m1 Hm1) as (m' & Hr & Hm'). exists m'. split; [|done].
    unfold rollback_edits. rewrite map_app, rev_app_distr. cbn [map fst rev app try_fold].
    rewrite Hpop. cbn [out_bind]. exact Hr.
Qed.

(** With the histories reversed, the writes come out in the order they were made. *)
Lemma pop_reversed m log (k : K) (v : string) :
  (forall k', m !! k' = rev (A:=string) <$> history k' ((k, v) :: log)) ->
  exists m', rollback_lookup_map k m = Ok (v, m') /\
    forall k', m' !! k' = rev (A:=string) <$> history k' log.
Proof.
  intros Hm. unfold rollback_lookup_map.
  assert (m !! k = Some (rev (values k log) ++ [v])) as Hk.
  { rewrite Hm. unfold history. cbn [values flat_map fst snd]. by rewrite decide_True. }
  rewrite Hk. cbn [expect_some out_bind]. rewrite last_snoc. cbn [expect_some out_bind].
  rewrite removelast_snoc. eexists. split; [done|]. intros k'. destruct (decide (k = k')) as [<-|Hne].
  - unfold history. rewrite length_rev. destruct (values k log) as [|w ws]; simpl.
    + by rewrite lookup_delete_eq.
    + by rewrite lookup_insert_eq.
  - specialize (Hm k'). unfold history in Hm |- *. cbn [values flat_map fst snd] in Hm.
    rewrite decide_False in Hm by done.
    destruct (Nat.eqb _ 0); rewrite ?lookup_delete_ne, ?lookup_insert_ne by done; exact Hm.
Qed.

Lemma pre_bottom_commit_tracks m log :
  tracks m log -> rollback_check_pre_bottom_commit (map fst log) m = Ok (log, ∅).
Proof.
  intros Hm. unfold rollback_check_pre_bottom_commit.
  match goal with |- context [try_fold ?f] => set (body := f) end.
  assert (forall l out m', (forall k, m' !! k = rev (A:=string) <$> history k l) ->
    exists m'', try_fold body (out, m') (map fst l) = Ok (out ++ l, m'') /\ m'' = ∅) as Hloop.
  { induction l as [|[k v] l IH]; intros out m' Hm'.
    - exists m'. simpl. rewrite app_nil_r. split; [done|]. apply map_eq. intros k. by rewrite Hm', lookup_empty.
    - destruct (pop_reversed _ _ _ _ Hm') as (m1 & Hpop & Hm1).
      destruct (IH (out ++ [(k, v)]) m1 Hm1) as (m'' & Hr & Hemp). exists m''. split; [|done].
      cbn [map fst try_fold]. assert (body (out, m') k = Ok (out ++ [(k, v)], m1)) as ->.
      { subst body. cbv beta iota. by rewrite Hpop. }
      cbn [out_bind]. rewrite Hr. by rewrite <-app_assoc. }
  destruct (Hloop log [] (rev (A:=string) <$> m)) as (m'' & Hr & ->).
  { intros k. by rewrite lookup_fmap, Hm. }
  rewrite Hr. cbn [out_bind app]. by rewrite map_size_empty.
Qed.
End edit_log.

(** * The wrapper *)
(** A context of the stack; an edit is its key. *)
Record RollbackContext := mkContext {
  edits : list string;
  metadata_edits : list (QualifiedContractIdentifier * string)
}.

Record RollbackWrapper (S : Type) := mkWrapper {
  store : S;
  lookup_map : gmap string (list string);
  metadata_lookup_map : gmap (QualifiedContractIdentifier * string) (list string);
  stack : list RollbackContext;
  query_pending_data : bool
}.
Arguments mkWrapper {S} _ _ _ _ _.
Arguments store {S} _.
Arguments lookup_map {S} _.
Arguments metadata_lookup_map {S} _.
Arguments stack {S} _.
Arguments query_pending_data {S} _.

Record RollbackWrapperPersistedLog := mkLog {
  log_lookup_map : gmap string (list string);
  log_metadata_lookup_map : gmap (QualifiedContractIdentifier * string) (list string);
  log_stack : list RollbackContext
}.

Record ValueResult := mkValueResult {
  vr_value : Value;
  serialized_byte_len : Z
}.

Section wrapper.
Context {D : Digests} {C S : Type} `{Sqlite C} `{!ClarityBackingStore C S}.
Implicit Types (self w : RollbackWrapper S).

Definition RollbackWrapper_new (store : S) : RollbackWrapper S := mkWrapper store ∅ ∅ [] true.

Definition from_persisted_log (store : S) (log : RollbackWrapperPersistedLog) : RollbackWrapper S :=
  mkWrapper store (log_lookup_map log) (log_metadata_lookup_map log) (log_stack log) true.

(** [From<RollbackWrapper> for RollbackWrapperPersistedLog] *)
Definition persisted_log self : RollbackWrapperPersistedLog :=
  mkLog (lookup_map self) (metadata_lookup_map self) (stack self).

Definition PersistedLog_new : RollbackWrapperPersistedLog := mkLog ∅ ∅ [].
Definition PersistedLog_nest (self : RollbackWrapperPersistedLog) : RollbackWrapperPersistedLog :=
  mkLog (log_lookup_map self) (log_metadata_lookup_map self) (mkContext [] [] :: log_stack self).

Definition nest self : RollbackWrapper S :=
  mkWrapper (store self) (lookup_map self) (metadata_lookup_map self)
    (mkContext [] [] :: stack self) (query_pending_data self).

Definition depth self : nat := length (stack self).

Definition rollback self : outcome VmError (RollbackWrapper S) :=
  match stack self with
  | [] => Panic
  | last_item :: rest =>
      let? lookup_map := rollback_edits (edits last_item) (lookup_map self) in
      let? metadata_lookup_map := rollback_edits (metadata_edits last_item) (metadata_lookup_map self) in
      Ok (mkWrapper (store self) lookup_map metadata_lookup_map rest (query_pending_data self))
  end.

Definition commit self : outcome VmError (RollbackWrapper S) :=
  match stack self with
  | [] => Panic
  | [last_item] =>
      let? '(all_edits, lookup_map) :=
        rollback_check_pre_bottom_commit (edits last_item) (lookup_map self) in
      let? store := if Nat.ltb 0 (length all_edits) then put_all all_edits (store self) else Ok (store self) in
      let? '(metadata_edits, metadata_lookup_map) :=
        rollback_check_pre_bottom_commit (metadata_edits last_item) (metadata_lookup_map self) in
      let? store := if Nat.ltb 0 (length metadata_edits) then put_all_metadata metadata_edits store else Ok store in
      Ok (mkWrapper store lookup_map metadata_lookup_map [] (query_pending_data self))
  | last_item :: next_up :: rest =>
      let next_up := mkContext (edits next_up ++ edits last_item)
        (metadata_edits next_up ++ metadata_edits last_item) in
      Ok (mkWrapper (store self) (lookup_map self) (metadata_lookup_map self) (next_up :: rest)
        (query_pending_data self))
  end.

Definition put self (key value : string) : outcome VmError (RollbackWrapper S) :=
  match stack self with
  | [] => Panic
  | current :: rest =>
      let? '(lookup_map, edits) := inner_put (lookup_map self) (edits current) key value in
      Ok (mkWrapper (store self) lookup_map (metadata_lookup_map self)
        (mkContext edits (metadata_edits current) :: rest) (query_pending_data self))
  end.

Definition insert_metadata self (contract : QualifiedContractIdentifier) (key value : string)
  : outcome VmError (RollbackWrapper S) :=
  match stack self with
  | [] => Panic
  | current :: rest =>
      let metadata_key := (contract, key) in
      let? '(metadata_lookup_map, metadata_edits) :=
        inner_put (metadata_lookup_map self) (metadata_edits current) metadata_key value in
      Ok (mkWrapper (store self) (lookup_map self) metadata_lookup_map
        (mkContext (edits current) metadata_edits :: rest) (query_pending_data self))
  end.

Definition prepare_for_contract_metadata self (contract : QualifiedContractIdentifier) (content_hash : list byte)
  : outcome VmError (RollbackWrapper S) :=
  let key := make_contract_hash_key contract in
  let? value := make_contract_commitment (store self) content_hash in
  put self key value.

Definition set_block_hash self (bhh : list byte) (query_pending_data : bool)
  : outcome VmError (list byte * RollbackWrapper S) :=
  let? '(x, store) := store_set_block_hash bhh (store self) in
  Ok (x, mkWrapper store (lookup_map self) (metadata_lookup_map self) (stack self) query_pending_data).

(** Reads, with the deserializer [T::deserialize] as an argument. *)
Definition get_with_proof {T : Type} (deserialize : string -> outcome VmError T) self (key : string)
  : outcome VmError (option (T * list byte)) :=
  let? r := store_get_with_proof (store self) key in
  match r with
  | Some (value, proof) => let? value := deserialize value in Ok (Some (value, proof))
  | None => Ok None
  end.

Definition get {T : Type} (deserialize : string -> outcome VmError T) self (key : string)
  : outcome VmError (option T) :=
  match stack self with
  | [] => Panic
  | _ =>
      let lookup_result :=
        if query_pending_data self then lookup_map self !! key ≫= last else None in
      match lookup_result with
      | Some x => let? x := deserialize x in Ok (Some x)
      | None =>
          let? r := store_get (store self) key in
          match r with
          | Some x => let? x := deserialize x in Ok (Some x)
          | None => Ok None
          end
      end
  end.

(** The closure of [get_value]. *)
Definition value_result (expected : TypeSignature) (x : string) : outcome VmError ValueResult :=
  let? value := Value_deserialize x expected in
  Ok (mkValueResult value (Z.of_nat (String.length x) / 2)).

Definition get_value self (key : string) (expected : TypeSignature) : outcome VmError (option ValueResult) :=
  match stack self with
  | [] => Panic
  | _ =>
      let lookup_result :=
        if query_pending_data self then lookup_map self !! key ≫= last else None in
      match lookup_result with
      | Some x => let? x := value_result expected x in Ok (Some x)
      | None =>
          let? r := store_get (store self) key in
          match r with
          | Some x => let? x := value_result expected x in Ok (Some x)
          | None => Ok None
          end
      end
  end.

Definition get_metadata self (contract : QualifiedContractIdentifier) (key : string)
  : outcome VmError (option string) :=
  match stack self with
  | [] => Panic
  | _ =>
      let metadata_key := (contract, key) in
      let lookup_result :=
        if query_pending_data self then metadata_lookup_map self !! metadata_key ≫= last else None in
      match lookup_result with
      | Some x => Ok (Some x)
      | None => store_get_metadata (store self) contract key
      end
  end.

Definition get_metadata_manual self (at_height : Z) (contract : QualifiedContractIdentifier) (key : string)
  : outcome VmError (option string) :=
  match stack self with
  | [] => Panic
  | _ =>
      let metadata_key := (contract, key) in
      let lookup_result :=
        if query_pending_data self then metadata_lookup_map self !! metadata_key ≫= last else None in
      match lookup_result with
      | Some x => Ok (Some x)
      | None => store_get_metadata_manual (store self) at_height contract key
      end
  end.

Definition has_entry self (key : string) : outcome VmError bool :=
  match stack self with
  | [] => Panic
  | _ =>
      if query_pending_data self && bool_decide (is_Some (lookup_map self !! key)) then Ok true
      else store_has_entry (store self) key
  end.

Definition has_metadata_entry self (contract : QualifiedContractIdentifier) (key : string) : outcome VmError bool :=
  match get_metadata self contract key with
  | Ok (Some _) => Ok true
  | Panic => Panic
  | _ => Ok false
  end.
End wrapper.
