(* ===== verification/RollbackRefinement.v ===== *)
(** RollbackRefinement: the rollback wrapper implements nested transactions.

    The specification, [Journal], is the committed store and a stack of
    frames, each the list of writes made in it: a commit appends a frame to the
    one below (or hands it to the store), a rollback drops it, a read returns
    the last pending write or else asks the store.  The wrapper refines it for
    every sequence of operations. *)
From Stdlib Require Import ZArith Lia Strings.Byte Strings.String List Bool.
From stdpp Require Import base decidable list strings option gmap.
From S2P Require Import Prelude Bytes Codec Representations BTree Types Signatures Admission Values.
From S2P Require Import Serialization Hashes C32 Principals BackingStore RollbackWrapper.
Open Scope Z_scope.

(** * The specification *)
Record Frame := mkFrame {
  writes : list (string * string);
  metadata_writes : list ((QualifiedContractIdentifier * string) * string)
}.

Record Journal (S : Type) := mkJournal {
  j_store : S;
  j_frames : list Frame;
  j_pending : bool
}.
Arguments mkJournal {S} _ _ _.
Arguments j_store {S} _.
Arguments j_frames {S} _.
Arguments j_pending {S} _.

(** The operations that change a wrapper. *)
Inductive wrapper_op :=
| Nest
| Put (key value : string)
| InsertMetadata (contract : QualifiedContractIdentifier) (key value : string)
| Prepare (contract : QualifiedContractIdentifier) (content_hash : list byte)
| SetBlockHash (bhh : list byte) (query_pending_data : bool)
| Commit
| Rollback.

Section spec.
Context {D : Digests} {C S : Type} `{Sqlite C} `{!ClarityBackingStore C S}.

Definition run_op (w : RollbackWrapper S) (o : wrapper_op) : outcome VmError (RollbackWrapper S) :=
  match o with
  | Nest => Ok (nest w)
  | Put key value => put w key value
  | InsertMetadata contract key value => insert_metadata w contract key value
  | Prepare contract content_hash => prepare_for_contract_metadata w contract content_hash
  | SetBlockHash bhh q => let? '(_, w) := set_block_hash w bhh q in Ok w
  | Commit => commit w
  | Rollback => rollback w
  end.

Definition run_ops (w : RollbackWrapper S) (ops : list wrapper_op) : outcome VmError (RollbackWrapper S) :=
  try_fold run_op w ops.

(** All pending writes, oldest first. *)
Definition pending_writes (frames : list Frame) : list (string * string) := concat (map writes (rev frames)).
Definition pending_metadata (frames : list Frame) : list ((QualifiedContractIdentifier * string) * string) :=
  concat (map metadata_writes (rev frames)).

Definition spec_write (j : Journal S) (ws : list (string * string))
    (ms : list ((QualifiedContractIdentifier * string) * string)) : outcome VmError (Journal S) :=
  match j_frames j with
  | [] => Panic
  | f :: rest =>
      Ok (mkJournal (j_store j) (mkFrame (writes f ++ ws) (metadata_writes f ++ ms) :: rest) (j_pending j))
  end.

Definition spec_op (j : Journal S) (o : wrapper_op) : outcome VmError (Journal S) :=
  match o with
  | Nest => Ok (mkJournal (j_store j) (mkFrame [] [] :: j_frames j) (j_pending j))
  | Put key value => spec_write j [(key, value)] []
  | InsertMetadata contract key value => spec_write j [] [((contract, key), value)]
  | Prepare contract content_hash =>
      let? commitment := make_contract_commitment (j_store j) content_hash in
      spec_write j [(make_contract_hash_key contract, commitment)] []
  | SetBlockHash bhh q =>
      let? '(_, s) := store_set_block_hash bhh (j_store j) in
      Ok (mkJournal s (j_frames j) q)
  | Commit =>
      match j_frames j with
      | [] => Panic
      | [f] =>
          let? s := match writes f with [] => Ok (j_store j) | ws => put_all ws (j_store j) end in
          let? s := match metadata_writes f with [] => Ok s | ms => put_all_metadata ms s end in
          Ok (mkJournal s [] (j_pending j))
      | f :: g :: rest =>
          Ok (mkJournal (j_store j)
            (mkFrame (writes g ++ writes f) (metadata_writes g ++ metadata_writes f) :: rest) (j_pending j))
      end
  | Rollback =>
      match j_frames j with
      | [] => Panic
      | _ :: rest => Ok (mkJournal (j_store j) rest (j_pending j))
      end
  end.

Definition spec_ops (j : Journal S) (ops : list wrapper_op) : outcome VmError (Journal S) :=
  try_fold spec_op j ops.

(** The raw value a read of the journal sees. *)
Definition spec_lookup (j : Journal S) (key : string) : outcome VmError (option string) :=
  match j_frames j with
  | [] => Panic
  | _ =>
      match (if j_pending j then last_write key (pending_writes (j_frames j)) else None) with
      | Some x => Ok (Some x)
      | None => store_get (j_store j) key
      end
  end.

Definition spec_lookup_metadata (j : Journal S) (contract : QualifiedContractIdentifier) (key : string)
  : outcome VmError (option string) :=
  match j_frames j with
  | [] => Panic
  | _ =>
      match (if j_pending j then last_write (contract, key) (pending_metadata (j_frames j)) else None) with
      | Some x => Ok (Some x)
      | None => store_get_metadata (j_store j) contract key
      end
  end.

(** * The refinement relation *)
Definition frame_context (f : Frame) : RollbackContext :=
  mkContext (map fst (writes f)) (map fst (metadata_writes f)).

Record wrapper_inv (w : RollbackWrapper S) (j : Journal S) : Prop := {
  inv_store : store w = j_store j;
  inv_stack : stack w = map frame_context (j_frames j);
  inv_pending : query_pending_data w = j_pending j;
  inv_lookup : tracks (lookup_map w) (pending_writes (j_frames j));
  inv_metadata : tracks (metadata_lookup_map w) (pending_metadata (j_frames j))
}.

(** Same error, same panic, related results. *)
Definition out_rel {E A B : Type} (R : A -> B -> Prop) (m : outcome E A) (n : outcome E B) : Prop :=
  match m, n with
  | Ok a, Ok b => R a b
  | Err e, Err e' => e = e'
  | Panic, Panic => True
  | _, _ => False
  end.

Lemma pending_writes_cons (f : Frame) (frames : list Frame) :
  pending_writes (f :: frames) = pending_writes frames ++ writes f.
Proof. unfold pending_writes. simpl. rewrite map_app, concat_app. simpl. by rewrite app_nil_r. Qed.

Lemma pending_metadata_cons (f : Frame) (frames : list Frame) :
  pending_metadata (f :: frames) = pending_metadata frames ++ metadata_writes f.
Proof. unfold pending_metadata. simpl. rewrite map_app, concat_app. simpl. by rewrite app_nil_r. Qed.

Lemma new_inv (s : S) : wrapper_inv (RollbackWrapper_new s) (mkJournal s [] true).
Proof. split; try done; by apply tracks_nil. Qed.

(** The wrapper is determined by its journal. *)
Lemma wrapper_inv_unique (w w' : RollbackWrapper S) (j : Journal S) :
  wrapper_inv w j -> wrapper_inv w' j -> w = w'.
Proof.
  intros [H1 H2 H3 H4 H5] [K1 K2 K3 K4 K5]. destruct w, w'. simpl in *.
  rewrite (tracks_unique _ _ _ H4 K4), (tracks_unique _ _ _ H5 K5). congruence.
Qed.

Lemma put_refines (w : RollbackWrapper S) (j : Journal S) (k v : string) :
  wrapper_inv w j -> out_rel wrapper_inv (put w k v) (spec_write j [(k, v)] []).
Proof.
  intros [Hs Hst Hp Hl Hm]. unfold put, spec_write. rewrite Hst. destruct (j_frames j) as [|f rest]; [done|]. simpl.
  destruct (inner_put_tracks _ _ (map fst (writes f)) k v Hl) as (m' & -> & Hm'). simpl. split; simpl; try done.
  - f_equal. unfold frame_context. simpl. rewrite !map_app. simpl. by rewrite app_nil_r.
  - rewrite pending_writes_cons in *; rewrite <-app_assoc in Hm'. done.
  - rewrite pending_metadata_cons in *; simpl; rewrite app_nil_r. done.
Qed.

Lemma insert_metadata_refines (w : RollbackWrapper S) (j : Journal S) (c : QualifiedContractIdentifier) (k v : string) :
  wrapper_inv w j -> out_rel wrapper_inv (insert_metadata w c k v) (spec_write j [] [((c, k), v)]).
Proof.
  intros [Hs Hst Hp Hl Hm]. unfold insert_metadata, spec_write. rewrite Hst.
  destruct (j_frames j) as [|f rest]; [done|]. simpl.
  destruct (inner_put_tracks _ _ (map fst (metadata_writes f)) (c, k) v Hm) as (m' & -> & Hm'). simpl. split; simpl; try done.
  - f_equal. unfold frame_context. simpl. rewrite !map_app. simpl. by rewrite app_nil_r.
  - rewrite pending_writes_cons in *; simpl; rewrite app_nil_r. done.
  - rewrite pending_metadata_cons in *; rewrite <-app_assoc in Hm'. done.
Qed.

Lemma rollback_refines (w : RollbackWrapper S) (j : Journal S) :
  wrapper_inv w j -> out_rel wrapper_inv (rollback w) (spec_op j Rollback).
Proof.
  intros [Hs Hst Hp Hl Hm]. unfold rollback, spec_op. rewrite Hst. destruct (j_frames j) as [|f rest]; [done|].
  simpl. rewrite pending_writes_cons in Hl. rewrite pending_metadata_cons in Hm.
  destruct (rollback_edits_tracks _ _ _ Hl) as (m1 & -> & H1).
  destruct (rollback_edits_tracks _ _ _ Hm) as (m2 & -> & H2). by split.
Qed.

Lemma commit_refines (w : RollbackWrapper S) (j : Journal S) :
  wrapper_inv w j -> out_rel wrapper_inv (commit w) (spec_op j Commit).
Proof.
  intros [Hs Hst Hp Hl Hm]. unfold commit, spec_op. rewrite Hst. destruct (j_frames j) as [|f [|g rest]]; [done|..]; simpl.
  - rewrite pending_writes_cons in Hl. rewrite pending_metadata_cons in Hm. simpl in Hl, Hm.
    rewrite (pre_bottom_commit_tracks _ _ Hl), (pre_bottom_commit_tracks _ _ Hm), Hs. cbn [out_bind].
    assert ((if Nat.ltb 0 (length (writes f)) then put_all (writes f) (j_store j) else Ok (j_store j)) =
      match writes f with [] => Ok (j_store j) | ws => put_all ws (j_store j) end) as -> by (by destruct (writes f)).
    set (m := match writes f with [] => _ | _ => _ end). destruct m as [s|e|]; [|done..]. cbn [out_bind].
    assert ((if Nat.ltb 0 (length (metadata_writes f)) then put_all_metadata (metadata_writes f) s else Ok s) =
      match metadata_writes f with [] => Ok s | ms => put_all_metadata ms s end) as ->
      by (by destruct (metadata_writes f)).
    set (m := match metadata_writes f with [] => _ | _ => _ end). destruct m as [s'|e|]; [|done..].
    split; try done; by apply tracks_nil.
  - split; simpl; try done.
    + unfold frame_context. simpl. by rewrite !map_app.
    + rewrite !pending_writes_cons in *; simpl; rewrite app_assoc. done.
    + rewrite !pending_metadata_cons in *; simpl; rewrite app_assoc. done.
Qed.

Lemma run_op_refines (w : RollbackWrapper S) (j : Journal S) (o : wrapper_op) :
  wrapper_inv w j -> out_rel wrapper_inv (run_op w o) (spec_op j o).
Proof.
  intros Hinv. destruct o; simpl; [|by apply put_refines|by apply insert_metadata_refines|..].
  - destruct Hinv as [Hs Hst Hp Hl Hm]. split; simpl; try done; [by rewrite Hst|..].
    + by rewrite pending_writes_cons, app_nil_r.
    + by rewrite pending_metadata_cons, app_nil_r.
  - unfold prepare_for_contract_metadata. rewrite (inv_store _ _ Hinv).
    destruct (make_contract_commitment _ _); [|done..]. by apply put_refines.
  - unfold set_block_hash. rewrite (inv_store _ _ Hinv). destruct (store_set_block_hash _ _) as [[x s]|e|]; [|done..].
    destruct Hinv as [Hs Hst Hp Hl Hm]. by split.
  - by apply commit_refines.
  - by apply rollback_refines.
Qed.

Lemma run_ops_refines (ops : list wrapper_op) (w : RollbackWrapper S) (j : Journal S) :
  wrapper_inv w j -> out_rel wrapper_inv (run_ops w ops) (spec_ops j ops).
Proof.
  unfold run_ops, spec_ops. revert w j. induction ops as [|o ops IH]; intros w j Hinv; [done|]. cbn [try_fold].
  pose proof (run_op_refines w j o Hinv) as Ho. unfold out_rel in Ho.
  destruct (run_op w o), (spec_op j o); try done; simpl; by apply IH.
Qed.
End spec.

Section reads.
Context {D : Digests} {C S : Type} `{Sqlite C} `{!ClarityBackingStore C S}.
Implicit Types (w : RollbackWrapper S) (j : Journal S).

(** What [get] and [get_value] look up. *)
Definition decode_found {T : Type} (deserialize : string -> outcome VmError T) (r : option string)
  : outcome VmError (option T) :=
  match r with
  | Some x => let? x := deserialize x in Ok (Some x)
  | None => Ok None
  end.

Lemma get_refines {T : Type} (deserialize : string -> outcome VmError T) w j (k : string) :
  wrapper_inv w j -> get deserialize w k = (let? r := spec_lookup j k in decode_found deserialize r).
Proof.
  intros [Hs Hst Hp Hl Hm]. unfold get, spec_lookup. rewrite Hst, Hp, Hs, (tracks_last _ _ _ Hl).
  destruct (j_frames j) as [|f rest]; [done|]. cbn [map]. unfold last_write.
  destruct (if j_pending j then _ else None) as [x|]; done.
Qed.

Lemma get_value_refines w j (k : string) (expected : TypeSignature) :
  wrapper_inv w j -> get_value w k expected = (let? r := spec_lookup j k in decode_found (value_result expected) r).
Proof. exact (get_refines (value_result expected) w j k). Qed.

Lemma get_metadata_refines w j (c : QualifiedContractIdentifier) (k : string) :
  wrapper_inv w j -> get_metadata w c k = spec_lookup_metadata j c k.
Proof.
  intros [Hs Hst Hp Hl Hm]. unfold get_metadata, spec_lookup_metadata. rewrite Hst, Hp, Hs, (tracks_last _ _ _ Hm).
  by destruct (j_frames j).
Qed.

Lemma has_entry_refines w j (k : string) :
  wrapper_inv w j ->
  has_entry w k = (let? r := spec_lookup j k in Ok (if r then true else false)).
Proof.
  intros [Hs Hst Hp Hl Hm]. unfold has_entry, spec_lookup. rewrite Hst, Hp, Hs.
  destruct (j_frames j) as [|f rest]; [done|]. cbn [map]. rewrite (Hl k). unfold history, last_write.
  destruct (j_pending j); [|done]. cbn [andb]. set (vs := values k _).
  destruct vs as [|v vs]; [done|]. rewrite bool_decide_eq_true_2 by done.
  destruct (last (v :: vs)) eqn:E; [done|]. by apply last_None in E.
Qed.
End reads.

(** C4: the rollback wrapper refines nested transactions.  From a fresh
    wrapper, any sequence of operations (nest, writes, contract preparation,
    change of block, commits and rollbacks, in any order) succeeds, errs or
    panics exactly as on a stack of write journals, and if it succeeds every
    read of the wrapper returns what the journal holds: the last pending write
    in any open frame, unless reads of pending data are off, else the value in
    the store. *)
Theorem wrapper_refines_journal {D : Digests} {C S : Type} `{Sqlite C} `{!ClarityBackingStore C S}
    (s : S) (ops : list wrapper_op) :
  match run_ops (RollbackWrapper_new s) ops, spec_ops (mkJournal s [] true) ops with
  | Ok w, Ok j =>
      wrapper_inv w j /\
      (forall k, get Ok w k = spec_lookup j k) /\
      (forall k expected,
         get_value w k expected = (let? r := spec_lookup j k in decode_found (value_result expected) r)) /\
      (forall k, has_entry w k = (let? r := spec_lookup j k in Ok (if r then true else false))) /\
      (forall c k, get_metadata w c k = spec_lookup_metadata j c k)
  | Err e, Err e' => e = e'
  | Panic, Panic => True
  | _, _ => False
  end.
Proof.
  pose proof (run_ops_refines ops _ _ (new_inv s)) as Hrel. unfold out_rel in Hrel.
  destruct (run_ops _ ops) as [w|e|], (spec_ops _ ops) as [j|e'|]; try done.
  split; [done|]. split; [|auto using get_value_refines, has_entry_refines, get_metadata_refines].
  intros k. rewrite (get_refines Ok w j k Hrel). destruct (spec_lookup j k) as [[x|]|e|]; done.
Qed.

(** * Balanced blocks *)
(** Sequences that close every frame they open and touch nothing below. *)
Inductive balanced : list wrapper_op -> Prop :=
| balanced_nil : balanced []
| balanced_put k v ops : balanced ops -> balanced (Put k v :: ops)
| balanced_metadata c k v ops : balanced ops -> balanced (InsertMetadata c k v :: ops)
| balanced_block body last ops :
    balanced body -> last = Commit \/ last = Rollback -> balanced ops ->
    balanced (Nest :: body ++ last :: ops).

Section blocks.
Context {D : Digests} {C S : Type} `{Sqlite C} `{!ClarityBackingStore C S}.
Implicit Types (w : RollbackWrapper S) (j : Journal S).

Lemma spec_ops_app j (ops1 ops2 : list wrapper_op) :
  spec_ops j (ops1 ++ ops2) = (let? j := spec_ops j ops1 in spec_ops j ops2).
Proof. apply try_fold_app. Qed.

(** A balanced block only appends to the top frame, and what it appends does
    not depend on the store or the frames below. *)
Lemma balanced_effect (ops : list wrapper_op) :
  balanced ops ->
  exists ws ms, forall (s : S) (f : Frame) (rest : list Frame) (p : bool),
    spec_ops (mkJournal s (f :: rest) p) ops =
    Ok (mkJournal s (mkFrame (writes f ++ ws) (metadata_writes f ++ ms) :: rest) p).
Proof.
  induction 1 as [|k v ops _ (ws & ms & IH)|c k v ops _ (ws & ms & IH)
    |body last ops _ (ws1 & ms1 & IH1) Hlast _ (ws2 & ms2 & IH2)].
  - exists [], []. intros s [] rest p. simpl. by rewrite !app_nil_r.
  - exists ((k, v) :: ws), ms. intros s f rest p. unfold spec_ops in *. simpl. rewrite IH. simpl.
    by rewrite <-!app_assoc.
  - exists ws, (((c, k), v) :: ms). intros s f rest p. unfold spec_ops in *. simpl. rewrite IH. simpl.
    by rewrite <-!app_assoc.
  - destruct Hlast as [->| ->].
    + exists (ws1 ++ ws2), (ms1 ++ ms2). intros s f rest p.
      change (spec_ops (mkJournal s (mkFrame [] [] :: f :: rest) p) (body ++ Commit :: ops) =
        Ok (mkJournal s (mkFrame (writes f ++ ws1 ++ ws2) (metadata_writes f ++ ms1 ++ ms2) :: rest) p)).
      rewrite spec_ops_app, IH1. cbn [out_bind]. unfold spec_ops in *. cbn [try_fold spec_op j_frames out_bind j_store j_pending].
      rewrite IH2. simpl. by rewrite <-!app_assoc.
    + exists ws2, ms2. intros s f rest p.
      change (spec_ops (mkJournal s (mkFrame [] [] :: f :: rest) p) (body ++ Rollback :: ops) =
        Ok (mkJournal s (mkFrame (writes f ++ ws2) (metadata_writes f ++ ms2) :: rest) p)).
      rewrite spec_ops_app, IH1. cbn [out_bind]. unfold spec_ops in *. cbn [try_fold spec_op j_frames out_bind j_store j_pending].
      by rewrite IH2.
Qed.

(** Equal journals, equal wrappers. *)
Lemma run_ops_eq w j (ops ops' : list wrapper_op) j' :
  wrapper_inv w j -> spec_ops j ops = Ok j' -> spec_ops j ops' = Ok j' ->
  exists w', run_ops w ops = Ok w' /\ run_ops w ops' = Ok w'.
Proof.
  intros Hinv H1 H2. pose proof (run_ops_refines ops w j Hinv) as R1. pose proof (run_ops_refines ops' w j Hinv) as R2.
  rewrite H1 in R1. rewrite H2 in R2. unfold out_rel in *.
  destruct (run_ops w ops) as [w1|e|]; [|done..]. destruct (run_ops w ops') as [w2|e|]; [|done..].
  exists w1. by rewrite (wrapper_inv_unique w1 w2 j').
Qed.
End blocks.

(** A wrapper the operations can reach. *)
Definition reachable {D : Digests} {C S : Type} `{Sqlite C} `{!ClarityBackingStore C S} (w : RollbackWrapper S) : Prop :=
  exists s ops, run_ops (RollbackWrapper_new s) ops = Ok w.

Lemma reachable_inv {D : Digests} {C S : Type} `{Sqlite C} `{!ClarityBackingStore C S} (w : RollbackWrapper S) :
  reachable w -> exists j, wrapper_inv w j.
Proof.
  intros (s & ops & Hrun). pose proof (run_ops_refines ops _ _ (new_inv s)) as Hrel. rewrite Hrun in Hrel.
  unfold out_rel in Hrel. destruct (spec_ops _ ops) as [j|e|]; [by exists j|done..].
Qed.

(** A rolled back block leaves no trace: from any reachable wrapper, opening
    a context, running any balanced sequence of writes and nested blocks and
    rolling back returns the very same wrapper, in every field. *)
Lemma rollback_restores {D : Digests} {C S : Type} `{Sqlite C} `{!ClarityBackingStore C S}
    (w : RollbackWrapper S) (body : list wrapper_op) :
  reachable w -> balanced body -> run_ops w (Nest :: body ++ [Rollback]) = Ok w.
Proof.
  intros Hr Hb. destruct (reachable_inv w Hr) as [j Hinv].
  destruct (balanced_effect (S:=S) body Hb) as (ws & ms & Heff).
  destruct (run_ops_eq w j (Nest :: body ++ [Rollback]) [] j Hinv) as (w' & -> & Hw'); [|done|by simplify_eq/=].
  change (spec_ops (mkJournal (j_store j) (mkFrame [] [] :: j_frames j) (j_pending j)) (body ++ [Rollback]) = Ok j).
  rewrite spec_ops_app, Heff. by destruct j.
Qed.

(** A committed block inside another is as if it had not been opened: from
    any reachable wrapper with an open context, nest, a balanced body and commit
    give exactly the wrapper that the body alone gives. *)
Lemma inner_commit_transparent {D : Digests} {C S : Type} `{Sqlite C} `{!ClarityBackingStore C S}
    (w : RollbackWrapper S) (body : list wrapper_op) :
  reachable w -> (0 < depth w)%nat -> balanced body ->
  exists w', run_ops w (Nest :: body ++ [Commit]) = Ok w' /\ run_ops w body = Ok w'.
Proof.
  intros Hr Hd Hb. destruct (reachable_inv w Hr) as [[s frames p] Hinv].
  destruct (balanced_effect (S:=S) body Hb) as (ws & ms & Heff).
  destruct frames as [|f rest]; [unfold depth in Hd; rewrite (inv_stack _ _ Hinv) in Hd; simpl in Hd; lia|].
  eapply (run_ops_eq w _ _ _ _ Hinv); [|apply Heff].
  change (spec_ops (mkJournal s (mkFrame [] [] :: f :: rest) p) (body ++ [Commit]) =
    Ok (mkJournal s (mkFrame (writes f ++ ws) (metadata_writes f ++ ms) :: rest) p)).
  by rewrite spec_ops_app, Heff.
Qed.

Lemma put_all_metadata_contents {D : Digests} {C S : Type} `{Sqlite C} `{!ClarityBackingStore C S} `{!StoreLaws C S}
    (ms : list ((QualifiedContractIdentifier * string) * string)) (s s' : S) :
  put_all_metadata ms s = Ok s' -> contents s' = contents s.
Proof.
  unfold put_all_metadata. apply (try_fold_inv _ (fun x => contents x = contents s)); [|done].
  intros x [[c k] v] y Hx Hy. rewrite <-Hx. by eapply insert_metadata_contents.
Qed.

(** Committing the outermost context moves the pending writes to the store.
    If the store follows its contract, the commit of a reachable wrapper with
    one open context and no pending metadata succeeds (the histories are
    drained: the assertion in it never fails), and whenever a commit succeeds
    the pending state is empty and the store now holds, for every key, what
    [get] returned before. *)
Lemma bottom_commit_publishes {D : Digests} {C S : Type} `{Sqlite C} `{!ClarityBackingStore C S} `{!StoreLaws C S}
    (w : RollbackWrapper S) :
  reachable w -> depth w = 1%nat -> query_pending_data w = true ->
  (Forall (fun c => metadata_edits c = []) (stack w) -> exists w', commit w = Ok w') /\
  (forall w', commit w = Ok w' ->
     lookup_map w' = ∅ /\ metadata_lookup_map w' = ∅ /\ stack w' = [] /\
     forall k, get Ok w k = Ok (contents (store w') k)).
Proof.
  intros Hr Hd Hq. destruct (reachable_inv w Hr) as [[s frames p] Hinv].
  pose proof (commit_refines w _ Hinv) as Hc. pose proof (inv_stack _ _ Hinv) as Hst.
  unfold depth in Hd. rewrite Hst in Hd. simpl in Hst, Hd. rewrite length_map in Hd.
  destruct frames as [|f [|]]; [done| |done]. simpl in Hst. cbn [spec_op j_frames j_store j_pending] in Hc.
  assert (exists s1, match writes f with [] => Ok s | ws => put_all ws s end = Ok s1 /\
    forall k, contents s1 k = match last_write k (writes f) with Some v => Some v | None => contents s k end)
    as (s1 & Hs1 & Hcont).
  { destruct (writes f) as [|e ws]; [by exists s|apply put_all_ok]. }
  rewrite Hs1 in Hc. cbn [out_bind] in Hc. split.
  - rewrite Hst. intros Hm. apply Forall_cons in Hm as [Hm _]. simpl in Hm. apply map_eq_nil in Hm. rewrite Hm in Hc.
    unfold out_rel in Hc. simpl in Hc. destruct (commit w) as [w'|e|]; [by exists w'|done..].
  - intros w' Hw'. rewrite Hw' in Hc. unfold out_rel in Hc.
    destruct (match metadata_writes f with [] => Ok s1 | ms => put_all_metadata ms s1 end) as [s2|e|] eqn:Hs2; [|done..].
    simpl in Hc. destruct Hc as [Es Est _ El Em]. simpl in *. split; [by apply tracks_nil|]. split; [by apply tracks_nil|].
    split; [done|]. intros k. rewrite (get_refines Ok w _ k Hinv). pose proof (inv_pending _ _ Hinv) as Hp. rewrite Hq in Hp.
    simpl in Hp. subst p. unfold spec_lookup. cbn [j_frames j_pending j_store]. rewrite pending_writes_cons. simpl.
    assert (contents s2 = contents s1) as Hc12.
    { destruct (metadata_writes f); [congruence|]. by eapply put_all_metadata_contents. }
    rewrite Es, Hc12, Hcont, store_get_ok. by destruct (last_write k (writes f)), (contents s k).
Qed.

(** * Instances *)
Definition example_wrapper : RollbackWrapper (MemoryBackingStore Tables) :=
  RollbackWrapper_new (mkMemory (mkTables ∅ ∅)).

Lemma rollback_restores_witness :
  run_ops (D:=mixing_digests) example_wrapper [Nest; Put "a" "1"; Nest; Put "a" "2"; Commit; Rollback] = Ok example_wrapper.
Proof.
  apply (@rollback_restores mixing_digests _ _ _ _ example_wrapper [Put "a" "1"; Nest; Put "a" "2"; Commit]).
  - exists (mkMemory (mkTables ∅ ∅)), []. reflexivity.
  - apply balanced_put, (balanced_block [Put "a" "2"] Commit []); [repeat constructor|by left|constructor].
Defined.

Lemma inner_commit_transparent_witness :
  exists w', run_ops (D:=mixing_digests) (nest example_wrapper) [Nest; Put "a" "1"; Commit] = Ok w' /\
    run_ops (D:=mixing_digests) (nest example_wrapper) [Put "a" "1"] = Ok w'.
Proof.
  apply (@inner_commit_transparent mixing_digests _ _ _ _ (nest example_wrapper) [Put "a" "1"]).
  - exists (mkMemory (mkTables ∅ ∅)), [Nest]. reflexivity.
  - unfold depth. simpl. lia.
  - repeat constructor.
Defined.

Lemma bottom_commit_publishes_witness :
  exists w', commit (D:=mixing_digests) (nest example_wrapper) = Ok w'.
Proof.
  apply (@bottom_commit_publishes mixing_digests _ _ _ _ _ (nest example_wrapper)).
  - exists (mkMemory (mkTables ∅ ∅)), [Nest]. reflexivity.
  - reflexivity.
  - reflexivity.
  - repeat constructor.
Defined.
