(* ===== verification/GlobalContext.v ===== *)
(** GlobalContext: the stack of execution contexts of a transaction
    ([GlobalContext] and the transactional operations of [Environment] and
    [OwnedEnvironment] in clarity/src/vm/contexts.rs).

    A context has four stacks that move together: asset maps, event batches,
    read-only flags and the frames of the database.  Operations that mutate the
    context and may fail return the context with the error.  What evaluation does to
    a context is a tree of activities; the theorem is that whatever the tree,
    a failed transaction leaves no trace and a successful one leaves exactly
    the effects that no enclosing call took back. *)
From Stdlib Require Import ZArith Lia Strings.Byte Strings.String List Bool.
From stdpp Require Import base decidable list strings option gmap.
From S2P Require Import Prelude Bytes Codec Representations BTree Types Signatures Admission Values.
From S2P Require Import Serialization AssetMap Hashes C32 Principals BackingStore RollbackWrapper RollbackRefinement.
From S2P Require Import Events.
Open Scope Z_scope.

Record EventBatch := mkEventBatch { batch_events : list StacksTransactionEvent }.
Definition EventBatch_new : EventBatch := mkEventBatch [].

(** The top of a stack is the head of its list.  The cost tracker [T] is not
    touched by the operations below; [coverage_reporting] is left out. *)
Record GlobalContext (S T : Type) := mkGlobal {
  asset_maps : list AssetMap;
  event_batches : list EventBatch;
  database : RollbackWrapper S;
  read_only : list bool;
  cost_track : T;
  mainnet : bool;
  epoch_id : Z
}.
Arguments mkGlobal {S T} _ _ _ _ _ _ _.
Arguments asset_maps {S T} _.
Arguments event_batches {S T} _.
Arguments database {S T} _.
Arguments read_only {S T} _.
Arguments cost_track {S T} _.
Arguments mainnet {S T} _.
Arguments epoch_id {S T} _.

Section operations.
Context {O : HashOrder} {D : Digests} {C S T : Type} `{Sqlite C} `{!ClarityBackingStore C S}.
Notation G := (GlobalContext S T).
(** An operation that may fail half-way: the error comes with the context. *)
Notation fallible A := (outcome (G * VmError) A).

Definition GlobalContext_new (mainnet : bool) (database : RollbackWrapper S) (cost_track : T) (epoch_id : Z) : G :=
  mkGlobal [] [] database [] cost_track mainnet epoch_id.

Definition is_top_level (self : G) : bool := Nat.eqb (length (asset_maps self)) 0.

Definition set_stacks (self : G) (maps : list AssetMap) (batches : list EventBatch) (db : RollbackWrapper S) (ro : list bool) : G :=
  mkGlobal maps batches db ro (cost_track self) (mainnet self) (epoch_id self).

(** [get_asset_map] followed by an update of the map. *)
Definition with_asset_map (self : G) (f : AssetMap -> outcome VmError AssetMap) : fallible G :=
  match asset_maps self with
  | [] => Panic
  | m :: rest =>
      let? m := map_err (pair self) (f m) in
      Ok (set_stacks self (m :: rest) (event_batches self) (database self) (read_only self))
  end.

Definition log_asset_transfer (self : G) (sender : PrincipalData) (contract_identifier : QualifiedContractIdentifier)
    (asset_name : string) (transfered : Value) : fallible G :=
  let asset_identifier := mkAssetId contract_identifier asset_name in
  with_asset_map self (fun m => Ok (add_asset_transfer m sender asset_identifier transfered)).

Definition log_token_transfer (self : G) (sender : PrincipalData) (contract_identifier : QualifiedContractIdentifier)
    (asset_name : string) (transfered : Z) : fallible G :=
  let asset_identifier := mkAssetId contract_identifier asset_name in
  with_asset_map self (fun m => add_token_transfer m sender asset_identifier transfered).

Definition log_stx_transfer (self : G) (sender : PrincipalData) (transfered : Z) : fallible G :=
  with_asset_map self (fun m => add_stx_transfer m sender transfered).

Definition log_stx_burn (self : G) (sender : PrincipalData) (transfered : Z) : fallible G :=
  with_asset_map self (fun m => add_stx_burn m sender transfered).

(** [if let Some(batch) = event_batches.last_mut() { batch.events.push(..) }],
    the body of every [register_*_event]. *)
Definition register_event (self : G) (event : StacksTransactionEvent) : G :=
  match event_batches self with
  | [] => self
  | batch :: rest =>
      set_stacks self (asset_maps self) (mkEventBatch (batch_events batch ++ [event]) :: rest) (database self) (read_only self)
  end.

(** [contract] is the [contract_identifier] of the environment's contract. *)
Definition register_print_event (self : G) (contract : QualifiedContractIdentifier) (value : Value) : G :=
  register_event self (SmartContractEvent (mkContractEvent (contract, "print") value)).
Definition register_stx_transfer_event (self : G) (sender recipient : PrincipalData) (amount : Z) : G :=
  register_event self (STXEvent (STXTransferEvent sender recipient amount)).
Definition register_stx_burn_event (self : G) (sender : PrincipalData) (amount : Z) : G :=
  register_event self (STXEvent (STXBurnEvent sender amount)).
Definition register_stx_withdraw_event (self : G) (sender : PrincipalData) (amount : Z) : G :=
  register_event self (STXEvent (STXWithdrawEvent (mkStxWithdraw sender amount None))).
Definition register_nft_transfer_event (self : G) (sender recipient : PrincipalData) (value : Value)
    (asset_identifier : AssetIdentifier) : G :=
  register_event self (NFTEvent (NFTTransferEvent asset_identifier sender recipient value)).
Definition register_nft_mint_event (self : G) (recipient : PrincipalData) (value : Value)
    (asset_identifier : AssetIdentifier) : G :=
  register_event self (NFTEvent (NFTMintEvent asset_identifier recipient value)).
Definition register_nft_burn_event (self : G) (sender : PrincipalData) (value : Value)
    (asset_identifier : AssetIdentifier) : G :=
  register_event self (NFTEvent (NFTBurnEvent asset_identifier sender value)).
Definition register_nft_withdraw_event (self : G) (sender : PrincipalData) (id : Z)
    (asset_identifier : AssetIdentifier) : G :=
  register_event self (NFTEvent (NFTWithdrawEvent (mkNftWithdraw asset_identifier sender id None))).
Definition register_ft_transfer_event (self : G) (sender recipient : PrincipalData) (amount : Z)
    (asset_identifier : AssetIdentifier) : G :=
  register_event self (FTEvent (FTTransferEvent asset_identifier sender recipient amount)).
Definition register_ft_mint_event (self : G) (recipient : PrincipalData) (amount : Z)
    (asset_identifier : AssetIdentifier) : G :=
  register_event self (FTEvent (FTMintEvent asset_identifier recipient amount)).
Definition register_ft_burn_event (self : G) (sender : PrincipalData) (amount : Z)
    (asset_identifier : AssetIdentifier) : G :=
  register_event self (FTEvent (FTBurnEvent asset_identifier sender amount)).
Definition register_ft_withdraw_event (self : G) (sender : PrincipalData) (amount : Z)
    (asset_identifier : AssetIdentifier) : G :=
  register_event self (FTEvent (FTWithdrawEvent (mkFtWithdraw asset_identifier sender amount None))).

Definition is_read_only (self : G) : bool := default false (head (read_only self)).

Definition begin_with (self : G) (ro : bool) : G :=
  set_stacks self (AssetMap_new :: asset_maps self) (EventBatch_new :: event_batches self)
    (nest (database self)) (ro :: read_only self).

Definition begin (self : G) : G := begin_with self (is_read_only self).
Definition begin_read_only (self : G) : G := begin_with self true.

(** The database operations of the context return [()]. *)
Definition db_commit (w : RollbackWrapper S) : fallible (RollbackWrapper S) := expect (commit w).
Definition db_roll_back (w : RollbackWrapper S) : fallible (RollbackWrapper S) := expect (rollback w).

Definition context_commit (self : G) : fallible (G * (option AssetMap * option EventBatch)) :=
  let ro := tail (read_only self) in
  let? '(asset_map, maps) := expect_some (match asset_maps self with m :: ms => Some (m, ms) | [] => None end) in
  let? '(event_batch, batches) := expect_some (match event_batches self with b :: bs => Some (b, bs) | [] => None end) in
  let merged := match maps with m :: rest => Some (commit_other m asset_map, rest) | [] => None end in
  match merged with
  | Some (Err e, rest) =>
      let? db := db_roll_back (database self) in
      Err (set_stacks self maps batches db ro, e)
  | Some (Panic, _) => Panic
  | _ =>
      let '(maps, out_map) :=
        match merged with Some (Ok m, rest) => (m :: rest, None) | _ => (maps, Some asset_map) end in
      let '(batches, out_batch) :=
        match batches with
        | b :: rest => (mkEventBatch (batch_events b ++ batch_events event_batch) :: rest, None)
        | [] => ([], Some event_batch)
        end in
      let? db := db_commit (database self) in
      Ok (set_stacks self maps batches db ro, (out_map, out_batch))
  end.

Definition roll_back (self : G) : fallible G :=
  let? maps := expect_some (match asset_maps self with _ :: ms => Some ms | [] => None end) in
  let? ro := expect_some (match read_only self with _ :: rs => Some rs | [] => None end) in
  let? batches := expect_some (match event_batches self with _ :: bs => Some bs | [] => None end) in
  let? db := db_roll_back (database self) in
  Ok (set_stacks self maps batches db ro).

(** [f] is a closure on the context. *)
Definition execute {A : Type} (self : G) (f : G -> fallible (G * A)) : fallible (G * A) :=
  let self := begin self in
  match f self with
  | Ok (self, result) =>
      let? '(self, _) := context_commit self in
      Ok (self, result)
  | Err (self, e) =>
      let? self := roll_back self in
      Err (self, e)
  | Panic => Panic
  end.

(** [result] comes with the context it was computed in. *)
Definition handle_tx_result (result : fallible (G * Value)) : fallible (G * Value) :=
  match result with
  | Ok (self, result) =>
      match result with
      | VResponse committed data =>
          if committed then
            let? '(self, _) := context_commit self in Ok (self, VResponse committed data)
          else
            let? self := roll_back self in Ok (self, VResponse committed data)
      | _ =>
          let? ty := type_of result in
          Err (self, Unchecked (CheckErr.PublicFunctionMustReturnResponse ty))
      end
  | Err (self, e) =>
      let? self := roll_back self in Err (self, e)
  | Panic => Panic
  end.

(** [Environment::execute_function_as_transaction]: [apply] is
    [function.execute_apply(args, ..)]. *)
Definition execute_function_as_transaction (self : G) (make_read_only : bool) (apply : G -> fallible (G * Value))
  : fallible (G * Value) :=
  let self := if make_read_only then begin_read_only self else begin self in
  let result := apply self in
  if make_read_only then
    match result with
    | Ok (self, v) => let? self := roll_back self in Ok (self, v)
    | Err (self, e) => let? self := roll_back self in Err (self, e)
    | Panic => Panic
    end
  else handle_tx_result result.

(** [Environment::run_as_transaction]; [initialize_contract_from_ast] and
    [stx_transfer] have the same shape. *)
Definition run_as_transaction {A : Type} (self : G) (f : G -> fallible (G * A)) : fallible (G * A) :=
  match f (begin self) with
  | Ok (self, ret) => let? '(self, _) := context_commit self in Ok (self, ret)
  | Err (self, e) => let? self := roll_back self in Err (self, e)
  | Panic => Panic
  end.

(** [OwnedEnvironment::execute_in_env] *)
Definition execute_in_env {A : Type} (self : G) (f : G -> fallible (G * A))
  : fallible (G * (A * AssetMap * list StacksTransactionEvent)) :=
  if negb (is_top_level self) then Panic else
  match f (begin self) with
  | Ok (self, return_value) =>
      let? '(self, (asset_map, event_batch)) := context_commit self in
      let? asset_map := ok_or (self, InterpreterErr InterpErr.FailedToConstructAssetTable) asset_map in
      let? event_batch := ok_or (self, InterpreterErr InterpErr.FailedToConstructEventBatch) event_batch in
      Ok (self, (return_value, asset_map, batch_events event_batch))
  | Err (self, e) => let? self := roll_back self in Err (self, e)
  | Panic => Panic
  end.
End operations.
