(* ===== verification/ContextAtomicity.v ===== *)
(** ContextAtomicity: what a transaction leaves behind in a [GlobalContext].

    The specification of a context is a stack of frames, each the movements,
    events and database writes made in it; [represents] relates the two. *)
From Stdlib Require Import ZArith Lia Strings.Byte Strings.String List Bool.
From stdpp Require Import base decidable list strings option gmap.
From S2P Require Import Prelude Bytes Codec Representations BTree Types Signatures Admission Values.
From S2P Require Import Serialization AssetMap Hashes C32 Principals BackingStore RollbackWrapper RollbackRefinement.
From S2P Require Import Events GlobalContext.
Open Scope Z_scope.

(** * Activities *)
(** The elementary ways in which evaluation changes the innermost context. *)
Inductive effect :=
| Moved (x : movement)
| Emitted (event : StacksTransactionEvent)
| Wrote (key value : string)
| WroteMetadata (contract : QualifiedContractIdentifier) (key value : string).

(** What evaluation does: effects, failures, and nested transactions.
    [Call] is the call of a public or read-only function that returns
    [result]. *)
Inductive activity :=
| Effect (e : effect)
| Fail (e : VmError)
| Transaction (body : list activity)
| Call (make_read_only : bool) (body : list activity) (result : Value).

(** The effects of an activity that no call inside it took back. *)
Fixpoint kept (a : activity) : list effect :=
  match a with
  | Effect e => [e]
  | Fail _ => []
  | Transaction body => flat_map kept body
  | Call make_read_only body result =>
      match result with
      | VResponse true _ => if make_read_only then [] else flat_map kept body
      | _ => []
      end
  end.

(** Amounts are unsigned, and public functions return responses (the static
    analysis of contracts checks that). *)
Fixpoint activity_wf (a : activity) : Prop :=
  match a with
  | Effect (Moved x) => movement_wf x
  | Effect _ | Fail _ => True
  | Transaction body => foldr (fun b acc => activity_wf b /\ acc) True body
  | Call make_read_only body result =>
      (make_read_only = false -> exists committed data, result = VResponse committed data) /\
      foldr (fun b acc => activity_wf b /\ acc) True body
  end.

Section activity_ind.
Context (P : activity -> Prop).
Context (HE : forall e, P (Effect e)) (HF : forall e, P (Fail e)).
Context (HT : forall body, Forall P body -> P (Transaction body)).
Context (HC : forall ro body result, Forall P body -> P (Call ro body result)).

Fixpoint activity_ind' (a : activity) : P a :=
  let all := fix all (l : list activity) : Forall P l :=
    match l with [] => Forall_nil_2 _ | a :: l => Forall_cons_2 _ _ _ (activity_ind' a) (all l) end in
  match a with
  | Effect e => HE e
  | Fail e => HF e
  | Transaction body => HT body (all body)
  | Call ro body result => HC ro body result (all body)
  end.
End activity_ind.

Section perform.
Context {O : HashOrder} {D : Digests} {C S T : Type} `{Sqlite C} `{!ClarityBackingStore C S}.
Notation G := (GlobalContext S T).
Notation fallible A := (outcome (G * VmError) A).

Definition set_database (g : G) (db : RollbackWrapper S) : G :=
  set_stacks g (asset_maps g) (event_batches g) db (read_only g).

Definition apply_effect (g : G) (e : effect) : fallible G :=
  match e with
  | Moved (MoveSTX p n) => log_stx_transfer g p n
  | Moved (BurnSTX p n) => log_stx_burn g p n
  | Moved (MoveToken p a n) => log_token_transfer g p (ai_contract_identifier a) (asset_name a) n
  | Moved (MoveAsset p a v) => log_asset_transfer g p (ai_contract_identifier a) (asset_name a) v
  | Emitted event => Ok (register_event g event)
  | Wrote key value => let? db := expect (put (database g) key value) in Ok (set_database g db)
  | WroteMetadata c key value => let? db := expect (insert_metadata (database g) c key value) in Ok (set_database g db)
  end.
Definition apply_effects (g : G) (es : list effect) : fallible G := try_fold apply_effect g es.

Fixpoint perform (a : activity) (g : G) : fallible G :=
  let all := fix all (l : list activity) (g : G) : fallible G :=
    match l with [] => Ok g | a :: l => let? g := perform a g in all l g end in
  match a with
  | Effect e => apply_effect g e
  | Fail e => Err (g, e)
  | Transaction body =>
      let? '(g, _) := run_as_transaction g (fun g => let? g := all body g in Ok (g, tt)) in Ok g
  | Call make_read_only body result =>
      let? '(g, _) := execute_function_as_transaction g make_read_only (fun g => let? g := all body g in Ok (g, result)) in
      Ok g
  end.

Fixpoint perform_all (l : list activity) (g : G) : fallible G :=
  match l with [] => Ok g | a :: l => let? g := perform a g in perform_all l g end.

Lemma perform_transaction (body : list activity) (g : G) :
  perform (Transaction body) g =
  let? '(g, _) := run_as_transaction g (fun g => let? g := perform_all body g in Ok (g, tt)) in Ok g.
Proof. done. Qed.

Lemma perform_call (ro : bool) (body : list activity) (result : Value) (g : G) :
  perform (Call ro body result) g =
  let? '(g, _) := execute_function_as_transaction g ro (fun g => let? g := perform_all body g in Ok (g, result)) in Ok g.
Proof. done. Qed.

(** * Frames *)
Record TxFrame := mkTxFrame {
  f_moves : list movement;
  f_events : list StacksTransactionEvent;
  f_read_only : bool;
  f_db : Frame
}.

Definition move_of (e : effect) : list movement := match e with Moved x => [x] | _ => [] end.
Definition event_of (e : effect) : list StacksTransactionEvent := match e with Emitted x => [x] | _ => [] end.
Definition write_of (e : effect) : list (string * string) := match e with Wrote k v => [(k, v)] | _ => [] end.
Definition metadata_of (e : effect) : list ((QualifiedContractIdentifier * string) * string) :=
  match e with WroteMetadata c k v => [((c, k), v)] | _ => [] end.

(** A frame with more effects. *)
Definition extend (f : TxFrame) (es : list effect) : TxFrame :=
  mkTxFrame (f_moves f ++ flat_map move_of es) (f_events f ++ flat_map event_of es) (f_read_only f)
    (mkFrame (writes (f_db f) ++ flat_map write_of es) (metadata_writes (f_db f) ++ flat_map metadata_of es)).

Definition frame_wf (f : TxFrame) : Prop :=
  Forall movement_wf (f_moves f) /\ fits (tally AssetMap_new (f_moves f)) = true.

Record represents (g : G) (fs : list TxFrame) (s : S) (p : bool) : Prop := {
  rep_maps : asset_maps g = map (fun f => tally AssetMap_new (f_moves f)) fs;
  rep_events : event_batches g = map (fun f => mkEventBatch (f_events f)) fs;
  rep_read_only : read_only g = map f_read_only fs;
  rep_database : wrapper_inv (database g) (mkJournal s (map f_db fs) p);
  rep_wf : Forall frame_wf fs
}.

(** The fields that no operation here changes. *)
Definition same_fixed (g g' : G) : Prop :=
  cost_track g = cost_track g' /\ mainnet g = mainnet g' /\ epoch_id g = epoch_id g'.

Lemma represents_unique (g g' : G) (fs : list TxFrame) (s : S) (p : bool) :
  represents g fs s p -> represents g' fs s p -> same_fixed g g' -> g = g'.
Proof.
  intros [A1 B1 C1 D1 _] [A2 B2 C2 D2 _] (E1 & E2 & E3). destruct g, g'. simpl in *.
  rewrite (wrapper_inv_unique _ _ _ D1 D2). congruence.
Qed.

Lemma extend_nil (f : TxFrame) : extend f [] = f.
Proof. destruct f as [m e r [w md]]. unfold extend. simpl. by rewrite !app_nil_r. Qed.

Lemma extend_app (f : TxFrame) (es es' : list effect) : extend (extend f es) es' = extend f (es ++ es').
Proof. unfold extend. simpl. by rewrite !flat_map_app, !app_assoc. Qed.

(** * The operations on represented contexts *)
Definition effect_wf (e : effect) : Prop := match e with Moved x => movement_wf x | _ => True end.

Lemma same_fixed_refl (g : G) : same_fixed g g.
Proof. done. Qed.
Lemma same_fixed_trans (g1 g2 g3 : G) : same_fixed g1 g2 -> same_fixed g2 g3 -> same_fixed g1 g3.
Proof. unfold same_fixed. intuition congruence. Qed.
Lemma same_fixed_sym (g1 g2 : G) : same_fixed g1 g2 -> same_fixed g2 g1.
Proof. unfold same_fixed. intuition congruence. Qed.

Lemma frame_eta (x : Frame) : mkFrame (writes x) (metadata_writes x) = x.
Proof. by destruct x. Qed.

Lemma tally_snoc (m : AssetMap) (l : list movement) (x : movement) : tally m (l ++ [x]) = count (tally m l) x.
Proof. by rewrite tally_app. Qed.

Lemma extend_wf (f : TxFrame) (fs : list TxFrame) (e : effect) :
  move_of e = [] -> Forall frame_wf (f :: fs) -> Forall frame_wf (extend f [e] :: fs).
Proof.
  intros He [Hf Hfs]%Forall_cons. constructor; [|done]. unfold frame_wf, extend in *. simpl. by rewrite He, !app_nil_r.
Qed.

Lemma moved_refines (g : G) (f : TxFrame) (fs : list TxFrame) (s : S) (p : bool) (x : movement) :
  represents g (f :: fs) s p -> movement_wf x ->
  with_asset_map g (fun m => record_movement m x) = apply_effect g (Moved x) /\
  if fits (tally AssetMap_new (f_moves f ++ [x]))
  then exists g', apply_effect g (Moved x) = Ok g' /\ represents g' (extend f [Moved x] :: fs) s p /\ same_fixed g g'
  else apply_effect g (Moved x) = Err (g, overflow).
Proof.
  intros [Hm He Hr Hd Hw] Hx.
  assert (with_asset_map g (fun m => record_movement m x) = apply_effect g (Moved x)) as Hop
    by (destruct x as [| |? [] ?|? [] ?]; done).
  split; [done|]. rewrite <-Hop. unfold with_asset_map. rewrite Hm. apply Forall_cons in Hw as [[Wf Ff] Wfs]. cbn [map].
  rewrite record_movement_count by eauto using tally_wf, new_wf. rewrite <-tally_snoc.
  destruct (fits (tally AssetMap_new (f_moves f ++ [x]))) eqn:Hfit; [|done].
  eexists. split; [done|]. split; [|done]. split; simpl; [done| |done| |].
  - by rewrite He, app_nil_r.
  - by rewrite !app_nil_r, frame_eta.
  - constructor; [|done]. split; simpl; [|done]. by apply Forall_app_2, Forall_singleton.
Qed.

Lemma effect_refines (g : G) (f : TxFrame) (fs : list TxFrame) (s : S) (p : bool) (e : effect) :
  represents g (f :: fs) s p -> effect_wf e ->
  if fits (tally AssetMap_new (f_moves (extend f [e])))
  then exists g', apply_effect g e = Ok g' /\ represents g' (extend f [e] :: fs) s p /\ same_fixed g g'
  else apply_effect g e = Err (g, overflow).
Proof.
  intros Hrep He. destruct e as [x|event|key value|c key value].
  - by apply (moved_refines g f fs s p x).
  - destruct Hrep as [Hm Hb Hr Hd Hw]. cbn [extend f_moves flat_map move_of]. rewrite app_nil_r. pose proof Hw as [[_ ->] _]%Forall_cons.
    eexists. split; [done|]. unfold register_event. rewrite Hb. cbn [map]. split; [|done].
    split; [| | | |by apply extend_wf]; simpl; by rewrite ?app_nil_r, ?frame_eta.
  - destruct Hrep as [Hm Hb Hr Hd Hw]. cbn [extend f_moves flat_map move_of]. rewrite app_nil_r. pose proof Hw as [[_ ->] _]%Forall_cons.
    pose proof (put_refines _ _ key value Hd) as Hp. cbn [apply_effect]. unfold out_rel, spec_write in Hp. cbn [j_frames map] in Hp.
    destruct (put (database g) key value) as [db|e|]; [|done..]. eexists. split; [done|]. split; [|done].
    rewrite ?app_nil_r in Hp. split; [| | | |by apply extend_wf]; simpl; by rewrite ?app_nil_r.
  - destruct Hrep as [Hm Hb Hr Hd Hw]. cbn [extend f_moves flat_map move_of]. rewrite app_nil_r. pose proof Hw as [[_ ->] _]%Forall_cons.
    pose proof (insert_metadata_refines _ _ c key value Hd) as Hp. cbn [apply_effect]. unfold out_rel, spec_write in Hp. cbn [j_frames map] in Hp.
    destruct (insert_metadata (database g) c key value) as [db|e|]; [|done..]. eexists. split; [done|]. split; [|done].
    rewrite ?app_nil_r in Hp. split; [| | | |by apply extend_wf]; simpl; by rewrite ?app_nil_r.
Qed.

Lemma begin_refines (g : G) (fs : list TxFrame) (s : S) (p ro : bool) :
  represents g fs s p -> represents (begin_with g ro) (mkTxFrame [] [] ro (mkFrame [] []) :: fs) s p.
Proof.
  intros [Hm He Hr Hd Hw]. split; simpl; rewrite ?Hm, ?He, ?Hr; try done.
  - apply (run_op_refines _ _ Nest Hd).
  - constructor; [|done]. split; [constructor|]. by vm_compute.
Qed.

Lemma roll_back_refines (g : G) (f : TxFrame) (fs : list TxFrame) (s : S) (p : bool) :
  represents g (f :: fs) s p -> exists g', roll_back g = Ok g' /\ represents g' fs s p /\ same_fixed g g'.
Proof.
  intros [Hm He Hr Hd Hw]. unfold roll_back, db_roll_back. rewrite Hm, He, Hr. cbn [map expect_some out_bind].
  pose proof (rollback_refines _ _ Hd) as Hp. unfold out_rel in Hp. simpl in Hp.
  destruct (rollback (database g)) as [db|e|]; [|done..]. eexists. split; [done|]. split; [|done].
  split; simpl; try done. by apply Forall_cons in Hw as [_ Hw].
Qed.

(** An inner commit merges the frame into the one below, or drops it if an
    amount overflows. *)
Lemma commit_refines_inner (g : G) (f f' : TxFrame) (fs : list TxFrame) (s : S) (p : bool) :
  represents g (f :: f' :: fs) s p ->
  let merged := mkTxFrame (f_moves f' ++ f_moves f) (f_events f' ++ f_events f) (f_read_only f')
    (mkFrame (writes (f_db f') ++ writes (f_db f)) (metadata_writes (f_db f') ++ metadata_writes (f_db f))) in
  if fits (tally AssetMap_new (f_moves merged))
  then exists g', context_commit g = Ok (g', (None, None)) /\ represents g' (merged :: fs) s p /\ same_fixed g g'
  else exists g', context_commit g = Err (g', overflow) /\ represents g' (f' :: fs) s p /\ same_fixed g g'.
Proof.
  intros [Hm He Hr Hd Hw] merged. pose proof Hw as [[Wf Ff] [[Wf' Ff'] Wfs]%Forall_cons]%Forall_cons.
  unfold context_commit. rewrite Hm, He, Hr. cbn [map expect_some out_bind tail].
  rewrite commit_other_merge, merge_tally, <-tally_app by eauto using tally_wf, new_wf. subst merged. cbn [f_moves].
  destruct (fits (tally AssetMap_new (f_moves f' ++ f_moves f))) eqn:Hfit; cbn [out_bind].
  - pose proof (commit_refines _ _ Hd) as Hp. unfold out_rel in Hp. simpl in Hp. unfold db_commit.
    destruct (commit (database g)) as [db|e|]; [|done..]. eexists. split; [done|]. split; [|done].
    split; simpl; try done. constructor; [|done]. split; simpl; [by apply Forall_app_2|done].
  - pose proof (rollback_refines _ _ Hd) as Hp. unfold out_rel in Hp. simpl in Hp. unfold db_roll_back.
    destruct (rollback (database g)) as [db|e|]; [|done..]. eexists. split; [done|]. split; [|done].
    split; simpl; try done. by constructor.
Qed.

(** * Activities on represented contexts *)
Definition empty_frame (ro : bool) : TxFrame := mkTxFrame [] [] ro (mkFrame [] []).

(** The outcome of an activity in a context with top frame [f]: on success the
    effects [es] were added to it, on failure some effects were. *)
Definition adds (f : TxFrame) (fs : list TxFrame) (s : S) (p : bool) (g : G) (es : list effect) (r : fallible G) : Prop :=
  match r with
  | Ok g' => represents g' (extend f es :: fs) s p /\ same_fixed g g'
  | Err (g', _) => exists es', represents g' (extend f es' :: fs) s p /\ same_fixed g g'
  | Panic => False
  end.

(** A transaction that failed, or was committed, or was rolled back. *)
Lemma close_failed (g g1 : G) (f f1 : TxFrame) (fs : list TxFrame) (s : S) (p : bool) (e : VmError) :
  represents g1 (f1 :: f :: fs) s p -> same_fixed g g1 ->
  exists g2, roll_back g1 = Ok g2 /\ represents g2 (f :: fs) s p /\ same_fixed g g2.
Proof.
  intros Hrep Hs. destruct (roll_back_refines _ _ _ _ _ Hrep) as (g2 & -> & Hrep2 & Hs2).
  exists g2. eauto using same_fixed_trans.
Qed.

Lemma close_committed (g g1 : G) (f : TxFrame) (fs : list TxFrame) (s : S) (p ro : bool) (es : list effect) :
  represents g1 (extend (empty_frame ro) es :: f :: fs) s p -> same_fixed g g1 ->
  (exists g2, context_commit g1 = Ok (g2, (None, None)) /\ represents g2 (extend f es :: fs) s p /\ same_fixed g g2) \/
  (exists g2, context_commit g1 = Err (g2, overflow) /\ represents g2 (f :: fs) s p /\ same_fixed g g2).
Proof.
  intros Hrep Hs. pose proof (commit_refines_inner _ _ _ _ _ _ Hrep) as Hc. cbv zeta in Hc.
  destruct (fits _); destruct Hc as (g2 & Hc & Hrep2 & Hs2); [left|right]; exists g2; eauto using same_fixed_trans.
Qed.

Lemma begin_fixed (g : G) (ro : bool) : same_fixed g (begin_with g ro).
Proof. done. Qed.

Lemma transaction_refines (g : G) (f : TxFrame) (fs : list TxFrame) (s : S) (p : bool) (es : list effect) (run : G -> fallible G) :
  represents g (f :: fs) s p ->
  (forall ro, adds (empty_frame ro) (f :: fs) s p (begin_with g ro) es (run (begin_with g ro))) ->
  match run_as_transaction g (fun g => let? g := run g in Ok (g, tt)) with
  | Ok (g', _) => represents g' (extend f es :: fs) s p /\ same_fixed g g'
  | Err (g', _) => represents g' (f :: fs) s p /\ same_fixed g g'
  | Panic => False
  end.
Proof.
  intros Hrep Hrun. unfold run_as_transaction, begin. specialize (Hrun (is_read_only g)). unfold adds in Hrun.
  destruct (run (begin_with g (is_read_only g))) as [g1|[g1 e]|]; cbn [out_bind]; [| |done].
  - destruct Hrun as [Hrep1 Hs1]. destruct (close_committed g g1 f fs s p (is_read_only g) es Hrep1 Hs1)
      as [(g2 & -> & Hrep2 & Hs2)|(g2 & -> & Hrep2 & Hs2)]; done.
  - destruct Hrun as (es' & Hrep1 & Hs1). destruct (close_failed g g1 _ _ _ _ _ e Hrep1 Hs1) as (g2 & -> & Hrep2 & Hs2). done.
Qed.

Lemma call_refines (g : G) (f : TxFrame) (fs : list TxFrame) (s : S) (p make_ro : bool) (es : list effect) (result : Value)
    (run : G -> fallible G) :
  (make_ro = false -> exists committed data, result = VResponse committed data) ->
  represents g (f :: fs) s p ->
  (forall ro, adds (empty_frame ro) (f :: fs) s p (begin_with g ro) es (run (begin_with g ro))) ->
  match execute_function_as_transaction g make_ro (fun g => let? g := run g in Ok (g, result)) with
  | Ok (g', _) =>
      represents g' (extend f (match result with VResponse true _ => if make_ro then [] else es | _ => [] end) :: fs) s p /\
      same_fixed g g'
  | Err (g', _) => represents g' (f :: fs) s p /\ same_fixed g g'
  | Panic => False
  end.
Proof.
  intros Hres Hrep Hrun. unfold execute_function_as_transaction, begin_read_only, begin.
  assert (forall g1 f1 (g0 : G), represents g1 (f1 :: f :: fs) s p -> same_fixed g g1 ->
    exists g2, roll_back g1 = Ok g2 /\ represents g2 (extend f [] :: fs) s p /\ same_fixed g g2) as Hback.
  { intros g1 f1 g0 Hrep1 Hs1. rewrite extend_nil. by apply (close_failed g g1 f f1 fs s p overflow). }
  destruct make_ro.
  - specialize (Hrun true). unfold adds in Hrun. destruct (run (begin_with g true)) as [g1|[g1 e]|]; cbn [out_bind]; [| |done].
    + destruct Hrun as [Hrep1 Hs1]. destruct (Hback _ _ g Hrep1 Hs1) as (g2 & -> & Hrep2 & Hs2). cbn [out_bind].
      by destruct result as [| | | | | | |[] ?].
    + destruct Hrun as (es' & Hrep1 & Hs1). destruct (Hback _ _ g Hrep1 Hs1) as (g2 & -> & Hrep2 & Hs2). by rewrite extend_nil in Hrep2.
  - destruct (Hres eq_refl) as (committed & data & ->). specialize (Hrun (is_read_only g)). unfold adds in Hrun. cbn [handle_tx_result].
    destruct (run (begin_with g (is_read_only g))) as [g1|[g1 e]|]; cbn [out_bind handle_tx_result]; [| |done].
    + destruct Hrun as [Hrep1 Hs1]. destruct committed.
      * destruct (close_committed g g1 f fs s p (is_read_only g) es Hrep1 Hs1) as [(g2 & -> & Hrep2 & Hs2)|(g2 & -> & Hrep2 & Hs2)]; done.
      * destruct (Hback _ _ g Hrep1 Hs1) as (g2 & -> & Hrep2 & Hs2). done.
    + destruct Hrun as (es' & Hrep1 & Hs1). destruct (Hback _ _ g Hrep1 Hs1) as (g2 & -> & Hrep2 & Hs2). by rewrite extend_nil in Hrep2.
Qed.

Definition refines_activity (a : activity) : Prop :=
  activity_wf a -> forall g f fs s p, represents g (f :: fs) s p -> adds f fs s p g (kept a) (perform a g).

Lemma perform_all_refines (body : list activity) :
  Forall refines_activity body -> foldr (fun b acc => activity_wf b /\ acc) True body ->
  forall g f fs s p, represents g (f :: fs) s p -> adds f fs s p g (flat_map kept body) (perform_all body g).
Proof.
  induction 1 as [|a body Ha Hbody IH]; intros Hwf g f fs s p Hrep.
  { simpl. rewrite extend_nil. done. }
  destruct Hwf as [Wa Wbody]. specialize (Ha Wa g f fs s p Hrep). cbn [perform_all flat_map]. unfold adds in *.
  destruct (perform a g) as [g1|[g1 e]|]; cbn [out_bind]; [|done|done]. destruct Ha as [Hrep1 Hs1].
  specialize (IH Wbody g1 _ _ _ _ Hrep1). destruct (perform_all body g1) as [g2|[g2 e]|]; [| |done].
  - destruct IH as [Hrep2 Hs2]. rewrite extend_app in Hrep2. eauto using same_fixed_trans.
  - destruct IH as (es' & Hrep2 & Hs2). rewrite extend_app in Hrep2. eauto using same_fixed_trans.
Qed.

Lemma perform_refines (a : activity) : refines_activity a.
Proof.
  induction a as [e|e|body IH|ro body result IH] using activity_ind'; intros Hwf g f fs s p Hrep.
  - assert (effect_wf e) as He by by destruct e. pose proof (effect_refines g f fs s p e Hrep He) as Hf.
    cbn [perform kept]. destruct (fits _); [destruct Hf as (g' & -> & ? & ?); done|]. rewrite Hf. exists []. by rewrite extend_nil.
  - exists []. by rewrite extend_nil.
  - rewrite perform_transaction. cbn [kept].
    pose proof (transaction_refines g f fs s p (flat_map kept body) (perform_all body) Hrep) as Ht.
    destruct (run_as_transaction _ _) as [[g' u]|[g' e]|]; cbn [out_bind adds].
    + apply Ht. intros ro. apply perform_all_refines; [done..|]. by apply begin_refines.
    + exists []. rewrite extend_nil. apply Ht. intros ro. apply perform_all_refines; [done..|]. by apply begin_refines.
    + apply Ht. intros ro. apply perform_all_refines; [done..|]. by apply begin_refines.
  - destruct Hwf as [Hres Hwf]. rewrite perform_call. cbn [kept].
    pose proof (call_refines g f fs s p ro (flat_map kept body) result (perform_all body) Hres Hrep) as Ht.
    destruct (execute_function_as_transaction _ _ _) as [[g' u]|[g' e]|]; cbn [out_bind adds].
    + apply Ht. intros ro'. apply perform_all_refines; [done..|]. by apply begin_refines.
    + exists []. rewrite extend_nil. apply Ht. intros ro'. apply perform_all_refines; [done..|]. by apply begin_refines.
    + apply Ht. intros ro'. apply perform_all_refines; [done..|]. by apply begin_refines.
Qed.

Lemma kept_wf (a : activity) : activity_wf a -> Forall effect_wf (kept a).
Proof.
  assert (forall body, Forall (fun a => activity_wf a -> Forall effect_wf (kept a)) body ->
    foldr (fun b acc => activity_wf b /\ acc) True body -> Forall effect_wf (flat_map kept body)) as Hall.
  { induction 1 as [|b body Hb _ IH]; intros Hwf; simpl; [constructor|]. destruct Hwf. apply Forall_app_2; auto. }
  induction a as [e|e|body IH|ro body result IH] using activity_ind'; simpl; intros Hwf.
  - apply Forall_singleton. by destruct e.
  - constructor.
  - by apply Hall.
  - destruct Hwf as [_ Hwf]. destruct result as [| | | | | | |[] ?]; try constructor. destruct ro; [constructor|by apply Hall].
Qed.

Lemma all_kept_wf (body : list activity) : Forall activity_wf body -> Forall effect_wf (flat_map kept body).
Proof. induction 1; simpl; [constructor|]. apply Forall_app_2; auto using kept_wf. Qed.

Lemma all_activities_wf (body : list activity) : Forall activity_wf body -> foldr (fun b acc => activity_wf b /\ acc) True body.
Proof. by induction 1. Qed.

Lemma moves_wf (es : list effect) : Forall effect_wf es -> Forall movement_wf (flat_map move_of es).
Proof.
  induction 1 as [|e es He _ IH]; simpl; [constructor|]. apply Forall_app_2; [|done].
  destruct e; simpl; [by apply Forall_singleton|constructor..].
Qed.

(** Effects that fit can be applied one by one. *)
Lemma apply_effects_refines (es : list effect) (g : G) (f : TxFrame) (fs : list TxFrame) (s : S) (p : bool) :
  represents g (f :: fs) s p -> Forall effect_wf es -> fits (tally AssetMap_new (f_moves (extend f es))) = true ->
  exists g', apply_effects g es = Ok g' /\ represents g' (extend f es :: fs) s p /\ same_fixed g g'.
Proof.
  revert g f. induction es as [|e es IH]; intros g f Hrep Hwf Hfit.
  { exists g. by rewrite extend_nil. }
  apply Forall_cons in Hwf as [He Hes]. change (e :: es) with ([e] ++ es) in Hfit |- *. rewrite <-extend_app in Hfit |- *.
  pose proof (effect_refines g f fs s p e Hrep He) as Hf.
  assert (fits (tally AssetMap_new (f_moves (extend f [e]))) = true) as Hfe.
  { cbn [extend f_moves] in Hfit |- *. rewrite tally_app in Hfit. apply fits_tally_mono in Hfit; [done| |by apply moves_wf].
    apply tally_wf; [apply new_wf|]. pose proof (rep_wf _ _ _ _ Hrep) as [[Wf _] _]%Forall_cons.
    apply Forall_app_2; [done|]. apply moves_wf. by apply Forall_singleton. }
  rewrite Hfe in Hf. destruct Hf as (g1 & Hg1 & Hrep1 & Hs1). destruct (IH g1 _ Hrep1 Hes Hfit) as (g2 & Hg2 & Hrep2 & Hs2).
  exists g2. unfold apply_effects in *. cbn [app try_fold]. rewrite Hg1. cbn [out_bind]. eauto using same_fixed_trans.
Qed.

(** * Reachable contexts *)
Inductive reachable_context : G -> Prop :=
| reach_new m s t e : reachable_context (GlobalContext_new m (RollbackWrapper_new s) t e)
| reach_begin g : reachable_context g -> reachable_context (begin g)
| reach_begin_read_only g : reachable_context g -> reachable_context (begin_read_only g)
| reach_perform g a g' :
    reachable_context g -> is_top_level g = false -> activity_wf a -> perform a g = Ok g' -> reachable_context g'
| reach_commit g g' r : reachable_context g -> context_commit g = Ok (g', r) -> reachable_context g'
| reach_commit_failed g g' e : reachable_context g -> context_commit g = Err (g', e) -> reachable_context g'
| reach_roll_back g g' : reachable_context g -> roll_back g = Ok g' -> reachable_context g'.

Lemma commit_refines_bottom (g : G) (f : TxFrame) (s : S) (p : bool) :
  represents g [f] s p ->
  match commit (database g) with
  | Ok db => context_commit g = Ok (set_stacks g [] [] db [], (Some (tally AssetMap_new (f_moves f)), Some (mkEventBatch (f_events f)))) /\
      exists s', represents (set_stacks g [] [] db []) [] s' p
  | _ => context_commit g = Panic
  end.
Proof.
  intros [Hm He Hr Hd Hw]. pose proof (commit_refines _ _ Hd) as Hp. unfold context_commit, db_commit. rewrite Hm, He, Hr.
  cbn [map expect_some out_bind tail]. destruct (commit (database g)) as [db|e|]; [|done..]. split; [done|].
  unfold out_rel in Hp. cbn [map spec_op j_frames j_store j_pending] in Hp. 
  destruct (match writes (f_db f) with [] => Ok s | _ => _ end) as [s1|e|]; [|done..]. cbn [out_bind] in Hp.
  destruct (match metadata_writes (f_db f) with [] => Ok s1 | _ => _ end) as [s2|e|]; [|done..].
  by exists s2.
Qed.

Lemma reachable_represents (g : G) : reachable_context g -> exists fs s p, represents g fs s p.
Proof.
  induction 1 as [m s t e|g _ (fs & s & p & Hrep)|g _ (fs & s & p & Hrep)|g a g' _ (fs & s & p & Hrep) Htop Hwf Hp
    |g g' r _ (fs & s & p & Hrep) Hc|g g' e _ (fs & s & p & Hrep) Hc|g g' _ (fs & s & p & Hrep) Hc].
  - exists [], s, true. by split.
  - eauto using begin_refines.
  - eauto using begin_refines.
  - destruct fs as [|f fs]; [unfold is_top_level in Htop; by rewrite (rep_maps _ _ _ _ Hrep) in Htop|].
    pose proof (perform_refines a Hwf g f fs s p Hrep) as Ha. rewrite Hp in Ha. destruct Ha as [Ha _]. eauto.
  - destruct fs as [|f [|f' fs]].
    + unfold context_commit in Hc. by rewrite (rep_maps _ _ _ _ Hrep) in Hc.
    + pose proof (commit_refines_bottom g f s p Hrep) as Hb. destruct (commit (database g)); [|congruence..].
      destruct Hb as (Hb & s' & Hrep'). rewrite Hb in Hc. injection Hc as <- _. eauto.
    + pose proof (commit_refines_inner g f f' fs s p Hrep) as Hi. cbv zeta in Hi. rewrite Hc in Hi.
      destruct (fits _); [|by destruct Hi as (g2 & ? & _)]. destruct Hi as (g2 & [= <- _] & Hrep' & _). eauto.
  - destruct fs as [|f [|f' fs]].
    + unfold context_commit in Hc. by rewrite (rep_maps _ _ _ _ Hrep) in Hc.
    + pose proof (commit_refines_bottom g f s p Hrep) as Hb. destruct (commit (database g)); [|congruence..].
      destruct Hb as (Hb & s' & Hrep'). rewrite Hb in Hc. done.
    + pose proof (commit_refines_inner g f f' fs s p Hrep) as Hi. cbv zeta in Hi. rewrite Hc in Hi.
      destruct (fits _); [by destruct Hi as (g2 & ? & _)|]. destruct Hi as (g2 & [= <- _] & Hrep' & _). eauto.
  - destruct fs as [|f fs]; [unfold roll_back in Hc; by rewrite (rep_maps _ _ _ _ Hrep) in Hc|].
    destruct (roll_back_refines g f fs s p Hrep) as (g2 & Hb & Hrep' & _). rewrite Hb in Hc. injection Hc as <-. eauto.
Qed.

Lemma perform_all_wf (body : list activity) (g : G) (f : TxFrame) (fs : list TxFrame) (s : S) (p : bool) :
  Forall activity_wf body -> represents g (f :: fs) s p -> adds f fs s p g (flat_map kept body) (perform_all body g).
Proof.
  intros Hwf Hrep. apply perform_all_refines; [|by apply all_activities_wf|done].
  apply Forall_forall. intros a _. apply perform_refines.
Qed.

(** The database operations of some effects. *)
Definition write_ops (es : list effect) : list wrapper_op :=
  flat_map (fun e => match e with Wrote k v => [Put k v] | WroteMetadata c k v => [InsertMetadata c k v] | _ => [] end) es.

Lemma write_ops_spec (es : list effect) (s : S) (f : Frame) (rest : list Frame) (p : bool) :
  spec_ops (mkJournal s (f :: rest) p) (write_ops es) =
  Ok (mkJournal s (mkFrame (writes f ++ flat_map write_of es) (metadata_writes f ++ flat_map metadata_of es) :: rest) p).
Proof.
  revert f. induction es as [|e es IH]; intros f; simpl; [by rewrite !app_nil_r, frame_eta|].
  destruct e; cbn [write_of metadata_of app]; [apply IH..| |]; unfold spec_ops in *;
    cbn [try_fold spec_op spec_write j_frames j_store j_pending out_bind]; rewrite IH; simpl; by rewrite ?app_nil_r, <-?app_assoc.
Qed.

(** The database of a context in which only some effects happened since it was
    begun. *)
Lemma database_of_effects (g g1 : G) (fs : list TxFrame) (s : S) (p ro : bool) (es : list effect) :
  represents g fs s p -> represents g1 (extend (empty_frame ro) es :: fs) s p ->
  run_ops (database g) (Nest :: write_ops es) = Ok (database g1).
Proof.
  intros Hg Hg1. pose proof (run_ops_refines (Nest :: write_ops es) _ _ (rep_database _ _ _ _ Hg)) as Hr.
  change (spec_ops (mkJournal s (map f_db fs) p) (Nest :: write_ops es))
    with (spec_ops (mkJournal s (mkFrame [] [] :: map f_db fs) p) (write_ops es)) in Hr.
  rewrite write_ops_spec in Hr. unfold out_rel in Hr. destruct (run_ops _ _) as [w|e|]; [|done..]. f_equal.
  by eapply wrapper_inv_unique, (rep_database _ _ _ _ Hg1).
Qed.
End perform.

(** Nested transactions are atomic.  In any context reachable by the
    operations and not at top level, whatever a transaction does, effects,
    failures, nested transactions and calls of public and read-only functions
    that succeed, return an error response or fail, it does not panic; if it
    fails the context is exactly what it was before, and if it succeeds the
    context is exactly what applying directly the effects that no call took
    back gives: asset maps, events, database and flags alike. *)
Lemma transaction_atomic {O : HashOrder} {D : Digests} {C S T : Type} `{Sqlite C} `{!ClarityBackingStore C S}
    (g : GlobalContext S T) (body : list activity) :
  reachable_context g -> is_top_level g = false -> Forall activity_wf body ->
  match perform (Transaction body) g with
  | Ok g' => apply_effects g (flat_map kept body) = Ok g'
  | Err (g', _) => g' = g
  | Panic => False
  end.
Proof.
  intros Hr Htop Hwf. destruct (reachable_represents g Hr) as (fs & s & p & Hrep).
  destruct fs as [|f fs]; [unfold is_top_level in Htop; by rewrite (rep_maps _ _ _ _ Hrep) in Htop|].
  rewrite perform_transaction. pose proof (transaction_refines g f fs s p (flat_map kept body) (perform_all body) Hrep) as Ht.
  destruct (run_as_transaction _ _) as [[g' u]|[g' e]|]; cbn [out_bind].
  - destruct Ht as [Hrep' Hs]; [intros ro; apply perform_all_wf; [done|by apply begin_refines]|].
    destruct (apply_effects_refines (flat_map kept body) g f fs s p) as (g2 & -> & Hrep2 & Hs2);
      [done|by apply all_kept_wf|by pose proof (rep_wf _ _ _ _ Hrep') as [[_ ?] _]%Forall_cons|].
    f_equal. eapply represents_unique; [done..|]. eauto using same_fixed_trans, same_fixed_sym.
  - destruct Ht as [Hrep' Hs]; [intros ro; apply perform_all_wf; [done|by apply begin_refines]|].
    eapply represents_unique; [done..|by apply same_fixed_sym].
  - apply Ht. intros ro. apply perform_all_wf; [done|by apply begin_refines].
Qed.


(** * Instances *)
Definition example_context : GlobalContext (MemoryBackingStore Tables) unit :=
  GlobalContext_new false example_wrapper tt 1.
(** A write is kept; a transfer and a write in a call that returns an error
    response are not. *)
Definition example_body : list activity :=
  [Effect (Wrote "a" "1");
   Call false [Effect (Moved (MoveSTX alice 5)); Effect (Wrote "a" "2")] (VResponse false (VUInt 1));
   Effect (Moved (MoveSTX alice 7))].

Lemma example_body_wf : Forall activity_wf example_body.
Proof. repeat constructor; simpl; try lia. intros _. by eexists _, _. Qed.

Lemma transaction_atomic_witness :
  exists g', perform (D:=mixing_digests) (Transaction example_body) (begin example_context) = Ok g' /\
    apply_effects (begin example_context) [Wrote "a" "1"; Moved (MoveSTX alice 7)] = Ok g'.
Proof.
  assert (is_ok (perform (D:=mixing_digests) (Transaction example_body) (begin example_context)) = true) as [g' Hg']%is_ok_true
    by (vm_compute; reflexivity).
  exists g'. split; [exact Hg'|].
  pose proof (@transaction_atomic listed_order mixing_digests _ _ unit _ _ (begin example_context) example_body) as Ht.
  rewrite Hg' in Ht. apply Ht; [apply reach_begin, reach_new|reflexivity|exact example_body_wf].
Defined.

