(* ===== verification/ClarityDb.v ===== *)
(** ClarityDb: the layer of [ClarityDatabase] (clarity/src/vm/database/clarity_db.rs)
    that maps accounts, variables and tokens to keys of the key-value store.

    What the database needs of the store below it is the interface [KvStore]
    with its laws [KvLaws]; [RollbackWrapper_kv] shows that a rollback wrapper
    with an open context provides it. *)
From Stdlib Require Import ZArith Lia Strings.Byte Strings.String Strings.Ascii List Bool.
From stdpp Require Import base decidable list strings option gmap pretty.
From S2P Require Import Prelude Bytes Codec Representations BTree Types Signatures Admission Values.
From S2P Require Import Serialization Hashes C32 Principals BackingStore RollbackWrapper RollbackRefinement.
Open Scope Z_scope.

(** * The interface of the store *)
Class KvStore (S : Type) := {
  kv_get : S -> string -> outcome VmError (option string);
  kv_put : S -> string -> string -> outcome VmError S
}.

(** In a ready store, reads return its view and writes update it. *)
Class KvLaws (S : Type) `{KvStore S} := {
  kv_ready : S -> Prop;
  kv_view : S -> string -> option string;
  kv_get_ok : forall s k, kv_ready s -> kv_get s k = Ok (kv_view s k);
  kv_put_ok : forall s k v, kv_ready s -> exists s', kv_put s k v = Ok s' /\ kv_ready s' /\
    forall k', kv_view s' k' = if decide (k' = k) then Some v else kv_view s k'
}.

#[export] Instance RollbackWrapper_kv {C S : Type} `{Sqlite C} `{!ClarityBackingStore C S} : KvStore (RollbackWrapper S) := {|
  kv_get := get Ok;
  kv_put := put
|}.

Section wrapper_kv.
Context {D : Digests} {C S : Type} `{Sqlite C} `{!ClarityBackingStore C S} `{!StoreLaws C S}.

(** Open, reading pending data, and consistent with some journal. *)
Definition wrapper_ready (w : RollbackWrapper S) : Prop :=
  stack w <> [] /\ query_pending_data w = true /\ exists j, wrapper_inv w j.

Definition wrapper_view (w : RollbackWrapper S) (k : string) : option string :=
  match lookup_map w !! k ≫= last with Some v => Some v | None => contents (store w) k end.

Lemma wrapper_get_ok (w : RollbackWrapper S) (k : string) :
  wrapper_ready w -> get Ok w k = Ok (wrapper_view w k).
Proof.
  intros (Hne & Hq & _). unfold get, wrapper_view. destruct (stack w); [done|]. rewrite Hq.
  destruct (lookup_map w !! k ≫= last); [done|]. rewrite store_get_ok. by destruct (contents (store w) k).
Qed.

Lemma wrapper_put_ok (w : RollbackWrapper S) (k v : string) :
  wrapper_ready w -> exists w', put w k v = Ok w' /\ wrapper_ready w' /\
    forall k', wrapper_view w' k' = if decide (k' = k) then Some v else wrapper_view w k'.
Proof.
  intros (Hne & Hq & [s frames p] & Hinv). pose proof (put_refines w _ k v Hinv) as Hput.
  destruct frames as [|f rest]; [by rewrite (inv_stack _ _ Hinv) in Hne|]. unfold out_rel in Hput. simpl in Hput.
  destruct (put w k v) as [w'|e|] eqn:E; [|done..]. exists w'. split; [done|]. split.
  { split; [by rewrite (inv_stack _ _ Hput)|]. split; [|by eexists].
    rewrite (inv_pending _ _ Hput). rewrite (inv_pending _ _ Hinv) in Hq. done. }
  intros k'. unfold wrapper_view.
  rewrite (tracks_last _ _ k' (inv_lookup _ _ Hput)), (tracks_last _ _ k' (inv_lookup _ _ Hinv)).
  rewrite (inv_store _ _ Hput), (inv_store _ _ Hinv). cbn [j_frames j_store]. rewrite !pending_writes_cons. cbn [writes].
  rewrite app_assoc, values_snoc. destruct (decide (k = k')) as [->|Hk].
  - by rewrite decide_True, last_snoc by done.
  - by rewrite decide_False, app_nil_r by congruence.
Qed.

#[export] Instance RollbackWrapper_kv_laws : KvLaws (RollbackWrapper S) := {|
  kv_ready := wrapper_ready;
  kv_view := wrapper_view;
  kv_get_ok := wrapper_get_ok;
  kv_put_ok := wrapper_put_ok
|}.
End wrapper_kv.

(** * Keys *)
Inductive StoreType :=
| ST_DataMap | ST_Variable | ST_FungibleToken | ST_CirculatingSupply | ST_NonFungibleToken
| ST_DataMapMeta | ST_VariableMeta | ST_FungibleTokenMeta | ST_NonFungibleTokenMeta | ST_Contract
| ST_SimmedBlock | ST_SimmedBlockHeight | ST_Nonce | ST_STXBalance | ST_PoxSTXLockup | ST_PoxUnlockHeight.

(** [data as u8] *)
Definition StoreType_u8 (data : StoreType) : Z :=
  match data with
  | ST_DataMap => 0 | ST_Variable => 1 | ST_FungibleToken => 2 | ST_CirculatingSupply => 3
  | ST_NonFungibleToken => 4 | ST_DataMapMeta => 5 | ST_VariableMeta => 6 | ST_FungibleTokenMeta => 7
  | ST_NonFungibleTokenMeta => 8 | ST_Contract => 9 | ST_SimmedBlock => 16 | ST_SimmedBlockHeight => 17
  | ST_Nonce => 18 | ST_STXBalance => 19 | ST_PoxSTXLockup => 20 | ST_PoxUnlockHeight => 21
  end.

Section keys.
Context {D : Digests}.

Definition make_key_for_trip (contract_identifier : QualifiedContractIdentifier) (data : StoreType)
    (var_name : string) : string :=
  "vm::" ++ QualifiedContractIdentifier_to_string contract_identifier ++ "::" ++ pretty (StoreType_u8 data)
  ++ "::" ++ var_name.

Definition make_metadata_key (data : StoreType) (var_name : string) : string :=
  "vm-metadata::" ++ pretty (StoreType_u8 data) ++ "::" ++ var_name.

Definition clarity_state_epoch_key : string := "vm-epoch::epoch-version".

Definition make_key_for_quad (contract_identifier : QualifiedContractIdentifier) (data : StoreType)
    (var_name key_value : string) : string :=
  "vm::" ++ QualifiedContractIdentifier_to_string contract_identifier ++ "::" ++ pretty (StoreType_u8 data)
  ++ "::" ++ var_name ++ "::" ++ key_value.

Definition make_key_for_account (principal : PrincipalData) (data : StoreType) : string :=
  "vm-account::" ++ PrincipalData_to_string principal ++ "::" ++ pretty (StoreType_u8 data).
Definition make_key_for_account_balance (principal : PrincipalData) : string :=
  make_key_for_account principal ST_STXBalance.
Definition make_key_for_account_nonce (principal : PrincipalData) : string :=
  make_key_for_account principal ST_Nonce.
Definition make_key_for_account_stx_locked (principal : PrincipalData) : string :=
  make_key_for_account principal ST_PoxSTXLockup.
Definition make_key_for_account_unlock_height (principal : PrincipalData) : string :=
  make_key_for_account principal ST_PoxUnlockHeight.
End keys.

(** * Typed access *)
Section access.
Context {S : Type} `{KvStore S}.

(** [put] of a value with its [ClaritySerializable::serialize]. *)
Definition db_put {T : Type} (serialize : T -> string) (self : S) (key : string) (value : T) : outcome VmError S :=
  kv_put self key (serialize value).

(** [byte_len_of_serialization]: two hexadecimal digits per byte. *)
Definition byte_len_of_serialization (serialized : string) : Z := Z.of_nat (String.length serialized) / 2.

Definition put_with_size {T : Type} (serialize : T -> string) (self : S) (key : string) (value : T)
  : outcome VmError (Z * S) :=
  let serialized := serialize value in
  let? self := kv_put self key serialized in
  Ok (byte_len_of_serialization serialized, self).

Definition db_get {T : Type} (deserialize : string -> outcome VmError T) (self : S) (key : string)
  : outcome VmError (option T) :=
  let? r := kv_get self key in
  decode_found deserialize r.
End access.

(** * Account keys *)
Lemma str_app_inj_l (a b c : string) : (a ++ b = a ++ c -> b = c)%string.
Proof. induction a as [|x a IH]; [done|]. rewrite !str_app_cons. intros [= H]. auto. Qed.

Lemma str_app_inj_r (a b c : string) : (a ++ c = b ++ c -> a = b)%string.
Proof.
  intros H. assert (String.length a = String.length b) as Hlen.
  { apply (f_equal String.length) in H. rewrite !length_str_app in H. lia. }
  revert b H Hlen. induction a as [|x a IH]; intros [|y b] H Hlen; try done.
  rewrite !str_app_cons in H. injection H as -> H. f_equal. apply IH; [done|]. simpl in Hlen. lia.
Qed.

Section account_keys.
Context {D : Digests} {L : DigestLaws D}.

(** A principal whose text identifies it. *)
Definition printable (p : PrincipalData) : Prop :=
  PrincipalData_wf p = true /\ byte_to_Z (PrincipalData_version p) < 32.

Lemma PrincipalData_to_string_inj (p q : PrincipalData) :
  printable p -> printable q -> PrincipalData_to_string p = PrincipalData_to_string q -> p = q.
Proof using L.
  intros [Hp Vp] [Hq Vq] Heq. pose proof (principal_roundtrip p false Hp Vp) as Rp.
  pose proof (principal_roundtrip q false Hq Vq) as Rq. simpl in *. congruence.
Qed.

Lemma account_key_inj (p q : PrincipalData) (data : StoreType) :
  printable p -> printable q -> make_key_for_account p data = make_key_for_account q data -> p = q.
Proof using L.
  intros Hp Hq Heq. unfold make_key_for_account in Heq. apply str_app_inj_l, str_app_inj_r in Heq.
  by apply PrincipalData_to_string_inj.
Qed.
End account_keys.
