(* ===== verification/ClarityState.v ===== *)
(** ClarityState: what contracts keep in [ClarityDatabase]
    (clarity/src/vm/database/clarity_db.rs): contract metadata, data variables,
    data maps, fungible and non-fungible tokens, account nonces, the liquid
    supply, and the reports of poisoned microblocks.

    Counters, principals and descriptors are stored as JSON.  The JSON library
    is third-party code: class [SerdeJson] has its two functions at each type,
    and [SerdeJsonLaws] states that they are inverse to each other. *)
From Stdlib Require Import ZArith Lia Strings.Byte Strings.String Strings.Ascii List Bool.
From stdpp Require Import base decidable list strings option gmap pretty.
From S2P Require Import Prelude Bytes Codec Representations BTree Types Signatures Admission Values.
From S2P Require Import Serialization Hashes C32 Principals BackingStore RollbackWrapper RollbackRefinement ClarityDb.
Open Scope Z_scope.

(** * Descriptors *)
Record FungibleTokenMetadata := mkFtMeta { ft_total_supply : option Z }.
Record NonFungibleTokenMetadata := mkNftMeta { nft_key_type : TypeSignature }.
Record DataMapMetadata := mkMapMeta { map_key_type : TypeSignature; map_value_type : TypeSignature }.
Record DataVariableMetadata := mkVarMeta { var_value_type : TypeSignature }.

(** * JSON *)
(** A JSON codec of [T], as [clarity_serializable!] uses it. *)
Record json_codec (T : Type) := mkJson {
  json_to_string : T -> string;
  json_from_str : string -> option T
}.
Arguments mkJson {T} _ _.
Arguments json_to_string {T} _ _.
Arguments json_from_str {T} _ _.

Class SerdeJson := {
  json_u128 : json_codec Z;
  json_u64 : json_codec Z;
  json_principal : json_codec PrincipalData;
  json_ft : json_codec FungibleTokenMetadata;
  json_nft : json_codec NonFungibleTokenMetadata;
  json_map : json_codec DataMapMetadata;
  json_var : json_codec DataVariableMetadata
}.

Definition json_inverse {T : Type} (c : json_codec T) (P : T -> Prop) : Prop :=
  forall x, P x -> json_from_str c (json_to_string c x) = Some x.

(** What is written is read back (of the types whose values the theorems read). *)
Class SerdeJsonLaws (J : SerdeJson) := {
  json_u128_ok : json_inverse json_u128 (fun n => 0 <= n <= u128_max);
  json_u64_ok : json_inverse json_u64 (fun n => 0 <= n <= u64_max);
  json_principal_ok : json_inverse json_principal (fun _ => True);
  json_ft_ok : json_inverse json_ft (fun _ => True)
}.

(** [ClarityDeserializable::deserialize] of [clarity_serializable!]. *)
Definition json_deserialize {E T : Type} (c : json_codec T) (json : string) : outcome E T :=
  expect_some (json_from_str c json).

(** [ClarityDeserializable for Value] *)
Definition Value_deserialize_untyped {E : Type} (hex : string) : outcome E Value :=
  expect (try_deserialize_hex_untyped hex).

(** * Accessors of values that panic on other values *)
Definition expect_u128 {E : Type} (v : Value) : outcome E Z :=
  match v with VUInt n => Ok n | _ => Panic end.
Definition expect_principal {E : Type} (v : Value) : outcome E PrincipalData :=
  match v with VPrincipal p => Ok p | _ => Panic end.
Definition expect_optional {E : Type} (v : Value) : outcome E (option Value) :=
  match v with VOptional o => Ok o | _ => Panic end.
Definition expect_tuple {E : Type} (v : Value) : outcome E TupleData :=
  match v with VTuple d => Ok d | _ => Panic end.

(** [ClaritySerializable for u32] and back. *)
Definition u32_serialize (n : Z) : string := to_hex (to_be_bytes 4 n).
Definition u32_deserialize {E : Type} (input : string) : outcome E Z :=
  let? bytes := expect (hex_bytes input) in
  if negb (Nat.eqb (length bytes) 4) then Panic else Ok (from_be_bytes bytes).

(** [str::parse::<u32>]: an optional plus sign and decimal digits, without overflow. *)
Definition parse_digits (s : string) : option Z :=
  fold_left (fun acc c =>
    match acc with
    | None => None
    | Some n =>
        let d := byte_to_Z (byte_of_ascii c) - 48 in
        if (0 <=? d) && (d <=? 9) then checked u32_ty (n * 10 + d) else None
    end) (list_ascii_of_string s) (Some 0).
Definition parse_u32 (s : string) : option Z :=
  match s with
  | EmptyString => None
  | String c rest =>
      if Ascii.eqb c "+"%char then
        match rest with EmptyString => None | _ => parse_digits rest end
      else parse_digits s
  end.

Inductive StacksEpochId := Epoch10 | Epoch20 | Epoch2_05.
Definition StacksEpochId_to_u32 (e : StacksEpochId) : Z :=
  match e with Epoch10 => 0x01000 | Epoch20 => 0x02000 | Epoch2_05 => 0x02005 end.
Definition StacksEpochId_try_from (n : Z) : option StacksEpochId :=
  if n =? 0x01000 then Some Epoch10
  else if n =? 0x02000 then Some Epoch20
  else if n =? 0x02005 then Some Epoch2_05
  else None.

(** * Headers *)
(** Trait [HeadersDB]: what the chain state knows of a block, by its index hash. *)
Class HeadersDB := {
  get_stacks_block_header_hash_for_block : list byte -> option (list byte);
  get_burn_header_hash_for_block : list byte -> option (list byte);
  get_vrf_seed_for_block : list byte -> option (list byte);
  get_burn_block_time_for_block : list byte -> option Z;
  get_burn_block_height_for_block : list byte -> option Z;
  header_miner_address : list byte -> option StandardPrincipalData
}.

Definition FIRST_BURNCHAIN_CONSENSUS_HASH : list byte := repeat x00 20.
Definition FIRST_STACKS_BLOCK_HASH : list byte := repeat x00 32.
Definition StacksBlockId_new {D : Digests} (sortition_consensus_hash block_hash : list byte) : list byte :=
  Sha512Trunc256Sum_from_data (block_hash ++ sortition_consensus_hash).

(** [HeadersDB for NullHeadersDB]: the first block only. *)
Definition BITCOIN_REGTEST_FIRST_BLOCK_HASH : string :=
  "0000000000000000000000000000000000000000000000000000000000000000".
Definition NullHeadersDB {D : Digests} : HeadersDB :=
  let first {A : Type} (x : option A) (id_bhh : list byte) : option A :=
    if bool_decide (id_bhh = StacksBlockId_new FIRST_BURNCHAIN_CONSENSUS_HASH FIRST_STACKS_BLOCK_HASH) then x else None in
  {|
    get_stacks_block_header_hash_for_block := first (Some FIRST_STACKS_BLOCK_HASH);
    get_burn_header_hash_for_block :=
      first (match hash_from_hex 32 BITCOIN_REGTEST_FIRST_BLOCK_HASH with Ok h => Some h | _ => None end);
    get_vrf_seed_for_block _ := None;
    get_burn_block_time_for_block := first (Some 0);
    get_burn_block_height_for_block := first (Some 0);
    header_miner_address _ := None
  |}.

Section blocks.
Context {D : Digests} {N : HeadersDB} {C S : Type} `{Sqlite C} `{!ClarityBackingStore C S}.
Implicit Types (self : RollbackWrapper S).

Definition get_index_block_header_hash self (block_height : Z) : outcome VmError (list byte) :=
  let? r := get_block_at_height (store self) block_height in
  expect_some r.

(** [ClarityDatabase::get_current_block_height] *)
Definition db_current_block_height self : outcome VmError Z := get_current_block_height (store self).

Definition get_current_burnchain_block_height self : outcome VmError Z :=
  let? cur_stacks_height := db_current_block_height self in
  let? last_mined_bhh :=
    if cur_stacks_height =? 0 then
      Ok (StacksBlockId_new FIRST_BURNCHAIN_CONSENSUS_HASH FIRST_STACKS_BLOCK_HASH)
    else
      let? h := expect_some (checked_sub u32_ty cur_stacks_height 1) in
      get_index_block_header_hash self h in
  expect_some (get_burn_block_height_for_block last_mined_bhh).

(** The answers of the header database for the block at a height. *)
Definition header_at {A : Type} (f : list byte -> option A) self (block_height : Z) : outcome VmError A :=
  let? id_bhh := get_index_block_header_hash self block_height in
  expect_some (f id_bhh).
Definition get_block_header_hash self (block_height : Z) := header_at get_stacks_block_header_hash_for_block self block_height.
Definition get_block_time self (block_height : Z) := header_at get_burn_block_time_for_block self block_height.
Definition get_burnchain_block_header_hash self (block_height : Z) := header_at get_burn_header_hash_for_block self block_height.
Definition get_block_vrf_seed self (block_height : Z) := header_at get_vrf_seed_for_block self block_height.
Definition get_miner_address self (block_height : Z) := header_at header_miner_address self block_height.
End blocks.

Section state.
Context {D : Digests} {J : SerdeJson} {C S : Type} `{Sqlite C} `{!ClarityBackingStore C S}.
Notation W := (RollbackWrapper S).
Implicit Types (self : W) (contract_identifier : QualifiedContractIdentifier).

(** [put] and [put_with_size] of a value; serializing to memory may panic. *)
Definition put_value self (key : string) (value : Value) : outcome VmError W :=
  let? serialized := Value_serialize value in
  kv_put self key serialized.
Definition put_value_with_size self (key : string) (value : Value) : outcome VmError (Z * W) :=
  let? serialized := Value_serialize value in
  let? self := kv_put self key serialized in
  Ok (byte_len_of_serialization serialized, self).

(** * Metadata *)
Definition db_insert_metadata self contract_identifier (key data : string) : outcome VmError W :=
  let? exists_ := has_metadata_entry self contract_identifier key in
  if exists_ then Panic else insert_metadata self contract_identifier key data.

Definition set_metadata self contract_identifier (key data : string) : outcome VmError W :=
  insert_metadata self contract_identifier key data.

Definition fetch_metadata {T : Type} (c : json_codec T) self contract_identifier (key : string)
  : outcome VmError (option T) :=
  let? x_opt := get_metadata self contract_identifier key in
  match x_opt with
  | Some x => let? x := json_deserialize c x in Ok (Some x)
  | None => Ok None
  end.

Definition fetch_metadata_manual {T : Type} (c : json_codec T) self (at_height : Z) contract_identifier (key : string)
  : outcome VmError (option T) :=
  let? x_opt := get_metadata_manual self at_height contract_identifier key in
  match x_opt with
  | Some x => let? x := json_deserialize c x in Ok (Some x)
  | None => Ok None
  end.

(** [STORE_CONTRACT_SRC_INTERFACE] is [true]; a [String] serializes to itself. *)
Definition insert_contract_hash self contract_identifier (contract_content : string) : outcome VmError W :=
  let hash := Sha512Trunc256Sum_from_data (as_bytes contract_content) in
  let? self := prepare_for_contract_metadata self contract_identifier hash in
  let key := make_metadata_key ST_Contract "contract-size" in
  let? self := db_insert_metadata self contract_identifier key
    (json_to_string json_u64 (Z.of_nat (String.length contract_content))) in
  let key := make_metadata_key ST_Contract "contract-src" in
  db_insert_metadata self contract_identifier key contract_content.

Definition get_contract_src self contract_identifier : outcome VmError (option string) :=
  let key := make_metadata_key ST_Contract "contract-src" in
  match get_metadata self contract_identifier key with
  | Ok x => Ok x
  | Err _ => Ok None
  | Panic => Panic
  end.

Definition get_contract_size self contract_identifier : outcome VmError Z :=
  let key := make_metadata_key ST_Contract "contract-size" in
  let? contract_size := fetch_metadata json_u64 self contract_identifier key in
  let? contract_size := expect_some contract_size in
  let key := make_metadata_key ST_Contract "contract-data-size" in
  let? data_size := fetch_metadata json_u64 self contract_identifier key in
  let? data_size := expect_some data_size in
  expect_some (checked_add u64_ty data_size contract_size).

Definition set_contract_data_size self contract_identifier (data_size : Z) : outcome VmError W :=
  let key := make_metadata_key ST_Contract "contract-size" in
  let? contract_size := fetch_metadata json_u64 self contract_identifier key in
  let? contract_size := expect_some contract_size in
  let? _ := ok_or (Unchecked CheckErr.CostOverflow) (checked_add u64_ty contract_size data_size) in
  let key := make_metadata_key ST_Contract "contract-data-size" in
  db_insert_metadata self contract_identifier key (json_to_string json_u64 data_size).

(** A contract is stored as JSON; its codec is an argument. *)
Definition insert_contract {T : Type} (c : json_codec T) self contract_identifier (contract : T) : outcome VmError W :=
  let key := make_metadata_key ST_Contract "contract" in
  db_insert_metadata self contract_identifier key (json_to_string c contract).
Definition has_contract self contract_identifier : outcome VmError bool :=
  let key := make_metadata_key ST_Contract "contract" in
  has_metadata_entry self contract_identifier key.
Definition get_contract {T : Type} (c : json_codec T) self contract_identifier : outcome VmError T :=
  let key := make_metadata_key ST_Contract "contract" in
  let? data := fetch_metadata c self contract_identifier key in
  expect_some data.

(** [AnalysisDatabase::storage_key] *)
Definition analysis_storage_key : string := "analysis".
Definition load_contract_analysis {T : Type} (c : json_codec T) self contract_identifier : outcome VmError (option T) :=
  match get_metadata self contract_identifier analysis_storage_key with
  | Ok (Some x) => let? x := json_deserialize c x in Ok (Some x)
  | Ok None | Err _ => Ok None
  | Panic => Panic
  end.

(** * Epoch and liquid supply *)
Definition get_clarity_epoch_version self : outcome VmError StacksEpochId :=
  let? x := db_get u32_deserialize self clarity_state_epoch_key in
  match x with
  | Some x => expect_some (StacksEpochId_try_from x)
  | None => Ok Epoch20
  end.
Definition set_clarity_epoch_version self (epoch : StacksEpochId) : outcome VmError W :=
  db_put u32_serialize self clarity_state_epoch_key (StacksEpochId_to_u32 epoch).

Definition ustx_liquid_supply_key : string := "_stx-data::ustx_liquid_supply".
Definition get_total_liquid_ustx self : outcome VmError Z :=
  let? r := get_value self ustx_liquid_supply_key UIntType in
  match r with
  | Some v => expect_u128 (vr_value v)
  | None => Ok 0
  end.
Definition set_ustx_liquid_supply self (set_to : Z) : outcome VmError W :=
  put_value self ustx_liquid_supply_key (VUInt set_to).
Definition increment_ustx_liquid_supply self (incr_by : Z) : outcome VmError W :=
  let? current := get_total_liquid_ustx self in
  let? next := ok_or (Runtime RuntimeErr.ArithmeticOverflow) (checked_add u128_ty current incr_by) in
  set_ustx_liquid_supply self next.
Definition decrement_ustx_liquid_supply self (decr_by : Z) : outcome VmError W :=
  let? current := get_total_liquid_ustx self in
  let? next := ok_or (Runtime RuntimeErr.ArithmeticUnderflow) (checked_sub u128_ty current decr_by) in
  set_ustx_liquid_supply self next.

(** * Poisoned microblocks *)
Definition make_microblock_pubkey_height_key (pubkey_hash : list byte) : string :=
  "microblock-pubkey-hash::" ++ to_hex pubkey_hash.
Definition make_microblock_poison_key (height : Z) : string := "microblock-poison::" ++ pretty height.

Definition insert_microblock_pubkey_hash_height self (pubkey_hash : list byte) (height : Z) : outcome VmError W :=
  let key := make_microblock_pubkey_height_key pubkey_hash in
  kv_put self key (pretty height).
Definition get_microblock_pubkey_hash_height self (pubkey_hash : list byte) : outcome VmError (option Z) :=
  let key := make_microblock_pubkey_height_key pubkey_hash in
  db_get (fun height_str => expect_some (parse_u32 height_str)) self key.

Definition insert_microblock_poison self (height : Z) (reporter : StandardPrincipalData) (seq : Z) : outcome VmError W :=
  let key := make_microblock_poison_key height in
  let? data := expect (TupleData_from_data
    [("reporter", VPrincipal (Standard reporter)); ("sequence", VUInt seq)]) in
  let value := VTuple data in
  let? value_bytes := expect (serialize_write value) in
  kv_put self key (to_hex value_bytes).
Definition get_microblock_poison_report self (height : Z) : outcome VmError (option (StandardPrincipalData * Z)) :=
  let key := make_microblock_poison_key height in
  db_get (fun reporter_hex_str =>
    let? reporter_value := expect (try_deserialize_hex_untyped reporter_hex_str) in
    let? tuple_data := expect_tuple reporter_value in
    let? reporter_value := expect (TupleData_get tuple_data "reporter") in
    let? seq_value := expect (TupleData_get tuple_data "sequence") in
    let? reporter_principal := expect_principal reporter_value in
    let? seq_u128 := expect_u128 seq_value in
    if u16_max <? seq_u128 then Panic else
    match reporter_principal with
    | Standard principal_data => Ok (principal_data, seq_u128)
    | Contract _ => Panic
    end) self key.

(** * Variables *)
(** [map_no_contract_as_none] *)
Definition map_no_contract_as_none {T : Type} (res : outcome VmError (option T)) : outcome VmError (option T) :=
  match res with
  | Err (Unchecked (CheckErr.NoSuchContract _)) => Ok None
  | x => x
  end.

Definition create_variable self contract_identifier (variable_name : string) (value_type : TypeSignature)
  : outcome VmError (DataVariableMetadata * W) :=
  let variable_data := mkVarMeta value_type in
  let key := make_metadata_key ST_VariableMeta variable_name in
  let? self := db_insert_metadata self contract_identifier key (json_to_string json_var variable_data) in
  Ok (variable_data, self).

Definition load_variable self contract_identifier (variable_name : string) : outcome VmError DataVariableMetadata :=
  let key := make_metadata_key ST_VariableMeta variable_name in
  let? r := map_no_contract_as_none (fetch_metadata json_var self contract_identifier key) in
  ok_or (Unchecked (CheckErr.NoSuchDataVariable variable_name)) r.

Definition set_variable self contract_identifier (variable_name : string) (value : Value)
    (variable_descriptor : DataVariableMetadata) : outcome VmError (ValueResult * W) :=
  let? ok := admits (var_value_type variable_descriptor) value in
  if negb ok then Err (Unchecked (CheckErr.TypeValueError (var_value_type variable_descriptor) value)) else
  let key := make_key_for_trip contract_identifier ST_Variable variable_name in
  let? '(size, self) := put_value_with_size self key value in
  Ok (mkValueResult (VBool true) size, self).

Definition lookup_variable self contract_identifier (variable_name : string)
    (variable_descriptor : DataVariableMetadata) : outcome VmError Value :=
  let key := make_key_for_trip contract_identifier ST_Variable variable_name in
  let? result := get_value self key (var_value_type variable_descriptor) in
  match result with
  | None => Ok Value_none
  | Some data => Ok (vr_value data)
  end.

(** [NONE_SERIALIZATION_LEN]: one byte. *)
Definition NONE_SERIALIZATION_LEN : Z := 1.

Definition lookup_variable_with_size self contract_identifier (variable_name : string)
    (variable_descriptor : DataVariableMetadata) : outcome VmError ValueResult :=
  let key := make_key_for_trip contract_identifier ST_Variable variable_name in
  let? result := get_value self key (var_value_type variable_descriptor) in
  match result with
  | None => Ok (mkValueResult Value_none NONE_SERIALIZATION_LEN)
  | Some data => Ok data
  end.

Definition lookup_variable_unknown_descriptor self contract_identifier (variable_name : string)
  : outcome VmError Value :=
  let? descriptor := load_variable self contract_identifier variable_name in
  lookup_variable self contract_identifier variable_name descriptor.

(** * Data maps *)
Definition create_map self contract_identifier (map_name : string) (key_type value_type : TypeSignature)
  : outcome VmError (DataMapMetadata * W) :=
  let data := mkMapMeta key_type value_type in
  let key := make_metadata_key ST_DataMapMeta map_name in
  let? self := db_insert_metadata self contract_identifier key (json_to_string json_map data) in
  Ok (data, self).

Definition load_map self contract_identifier (map_name : string) : outcome VmError DataMapMetadata :=
  let key := make_metadata_key ST_DataMapMeta map_name in
  let? r := map_no_contract_as_none (fetch_metadata json_map self contract_identifier key) in
  ok_or (Unchecked (CheckErr.NoSuchMap map_name)) r.

Definition make_key_for_data_map_entry_serialized contract_identifier (map_name key_value_serialized : string) : string :=
  make_key_for_quad contract_identifier ST_DataMap map_name key_value_serialized.

Definition make_key_for_data_map_entry contract_identifier (map_name : string) (key_value : Value)
  : outcome VmError string :=
  let? serialized := Value_serialize key_value in
  Ok (make_key_for_data_map_entry_serialized contract_identifier map_name serialized).

(** [if !t.admits(&v) { return Err(TypeValueError(t, v)) }] *)
Definition check_admits (t : TypeSignature) (v : Value) : outcome VmError unit :=
  let? ok := admits t v in
  if negb ok then Err (Unchecked (CheckErr.TypeValueError t v)) else Ok tt.

Definition fetch_entry self contract_identifier (map_name : string) (key_value : Value)
    (map_descriptor : DataMapMetadata) : outcome VmError Value :=
  let? _ := check_admits (map_key_type map_descriptor) key_value in
  let? key := make_key_for_data_map_entry contract_identifier map_name key_value in
  let? stored_type := unchecked (new_option (map_value_type map_descriptor)) in
  let? result := get_value self key stored_type in
  match result with
  | None => Ok Value_none
  | Some data => Ok (vr_value data)
  end.

Definition fetch_entry_unknown_descriptor self contract_identifier (map_name : string) (key_value : Value)
  : outcome VmError Value :=
  let? descriptor := load_map self contract_identifier map_name in
  fetch_entry self contract_identifier map_name key_value descriptor.

Definition fetch_entry_with_size self contract_identifier (map_name : string) (key_value : Value)
    (map_descriptor : DataMapMetadata) : outcome VmError ValueResult :=
  let? _ := check_admits (map_key_type map_descriptor) key_value in
  let? key_serialized := Value_serialize key_value in
  let key := make_key_for_data_map_entry_serialized contract_identifier map_name key_serialized in
  let? stored_type := unchecked (new_option (map_value_type map_descriptor)) in
  let? result := get_value self key stored_type in
  match result with
  | None => Ok (mkValueResult Value_none (byte_len_of_serialization key_serialized))
  | Some r =>
      let? size := expect_some (checked_add u64_ty (serialized_byte_len r) (byte_len_of_serialization key_serialized)) in
      Ok (mkValueResult (vr_value r) size)
  end.

Definition data_map_entry_exists self (key : string) (expected_value : TypeSignature) : outcome VmError bool :=
  let? r := get_value self key expected_value in
  match r with
  | None => Ok false
  | Some value => Ok (negb (Value_eqb (vr_value value) Value_none))
  end.

Definition inner_set_entry self contract_identifier (map_name : string) (key_value value : Value)
    (return_if_exists : bool) (map_descriptor : DataMapMetadata) : outcome VmError (ValueResult * W) :=
  let? _ := check_admits (map_key_type map_descriptor) key_value in
  let? _ := check_admits (map_value_type map_descriptor) value in
  let? key_serialized := Value_serialize key_value in
  let key_serialized_byte_len := byte_len_of_serialization key_serialized in
  let key := make_key_for_quad contract_identifier ST_DataMap map_name key_serialized in
  let? stored_type := unchecked (new_option (map_value_type map_descriptor)) in
  let? found := if return_if_exists then data_map_entry_exists self key stored_type else Ok false in
  if found then Ok (mkValueResult (VBool false) key_serialized_byte_len, self) else
  let? placed_value := Value_some value in
  let? '(placed_size, self) := put_value_with_size self key placed_value in
  let? size := expect_some (checked_add u64_ty key_serialized_byte_len placed_size) in
  Ok (mkValueResult (VBool true) size, self).

Definition set_entry self contract_identifier (map_name : string) (key value : Value)
    (map_descriptor : DataMapMetadata) : outcome VmError (ValueResult * W) :=
  inner_set_entry self contract_identifier map_name key value false map_descriptor.
Definition insert_entry self contract_identifier (map_name : string) (key value : Value)
    (map_descriptor : DataMapMetadata) : outcome VmError (ValueResult * W) :=
  inner_set_entry self contract_identifier map_name key value true map_descriptor.

Definition set_entry_unknown_descriptor self contract_identifier (map_name : string) (key value : Value)
  : outcome VmError (Value * W) :=
  let? descriptor := load_map self contract_identifier map_name in
  let? '(data, self) := set_entry self contract_identifier map_name key value descriptor in
  Ok (vr_value data, self).
Definition insert_entry_unknown_descriptor self contract_identifier (map_name : string) (key value : Value)
  : outcome VmError (Value * W) :=
  let? descriptor := load_map self contract_identifier map_name in
  let? '(data, self) := insert_entry self contract_identifier map_name key value descriptor in
  Ok (vr_value data, self).

Definition delete_entry self contract_identifier (map_name : string) (key_value : Value)
    (map_descriptor : DataMapMetadata) : outcome VmError (ValueResult * W) :=
  let? _ := check_admits (map_key_type map_descriptor) key_value in
  let? key_serialized := Value_serialize key_value in
  let key_serialized_byte_len := byte_len_of_serialization key_serialized in
  let key := make_key_for_quad contract_identifier ST_DataMap map_name key_serialized in
  let? stored_type := unchecked (new_option (map_value_type map_descriptor)) in
  let? found := data_map_entry_exists self key stored_type in
  if negb found then Ok (mkValueResult (VBool false) key_serialized_byte_len, self) else
  let? self := put_value self key Value_none in
  let? size := expect_some (checked_add u64_ty key_serialized_byte_len NONE_SERIALIZATION_LEN) in
  Ok (mkValueResult (VBool true) size, self).

(** * Fungible tokens *)
Definition create_fungible_token self contract_identifier (token_name : string) (total_supply : option Z)
  : outcome VmError (FungibleTokenMetadata * W) :=
  let data := mkFtMeta total_supply in
  let key := make_metadata_key ST_FungibleTokenMeta token_name in
  let? self := db_insert_metadata self contract_identifier key (json_to_string json_ft data) in
  let supply_key := make_key_for_trip contract_identifier ST_CirculatingSupply token_name in
  let? self := db_put (json_to_string json_u128) self supply_key 0 in
  Ok (data, self).

Definition load_ft self contract_identifier (token_name : string) : outcome VmError FungibleTokenMetadata :=
  let key := make_metadata_key ST_FungibleTokenMeta token_name in
  let? r := map_no_contract_as_none (fetch_metadata json_ft self contract_identifier key) in
  ok_or (Unchecked (CheckErr.NoSuchFT token_name)) r.

Definition checked_increase_token_supply self contract_identifier (token_name : string) (amount : Z)
    (descriptor : FungibleTokenMetadata) : outcome VmError W :=
  let key := make_key_for_trip contract_identifier ST_CirculatingSupply token_name in
  let? current_supply := db_get (json_deserialize json_u128) self key in
  let? current_supply := expect_some current_supply in
  let? new_supply := ok_or (Runtime RuntimeErr.ArithmeticOverflow) (checked_add u128_ty current_supply amount) in
  let? _ :=
    match ft_total_supply descriptor with
    | Some total_supply =>
        if total_supply <? new_supply then Err (Runtime (RuntimeErr.SupplyOverflow new_supply total_supply)) else Ok tt
    | None => Ok tt
    end in
  db_put (json_to_string json_u128) self key new_supply.

Definition checked_decrease_token_supply self contract_identifier (token_name : string) (amount : Z)
  : outcome VmError W :=
  let key := make_key_for_trip contract_identifier ST_CirculatingSupply token_name in
  let? current_supply := db_get (json_deserialize json_u128) self key in
  let? current_supply := expect_some current_supply in
  if current_supply <? amount then Err (Runtime (RuntimeErr.SupplyUnderflow current_supply amount)) else
  let new_supply := current_supply - amount in
  db_put (json_to_string json_u128) self key new_supply.

Definition ft_key contract_identifier (token_name : string) (principal : PrincipalData) : string :=
  make_key_for_quad contract_identifier ST_FungibleToken token_name (json_to_string json_principal principal).

Definition get_ft_balance self contract_identifier (token_name : string) (principal : PrincipalData)
    (descriptor : option FungibleTokenMetadata) : outcome VmError Z :=
  let? _ :=
    match descriptor with
    | None => let? _ := load_ft self contract_identifier token_name in Ok tt
    | Some _ => Ok tt
    end in
  let key := ft_key contract_identifier token_name principal in
  let? result := db_get (json_deserialize json_u128) self key in
  match result with
  | None => Ok 0
  | Some balance => Ok balance
  end.

Definition set_ft_balance self contract_identifier (token_name : string) (principal : PrincipalData) (balance : Z)
  : outcome VmError W :=
  let key := ft_key contract_identifier token_name principal in
  db_put (json_to_string json_u128) self key balance.

Definition get_ft_supply self contract_identifier (token_name : string) : outcome VmError Z :=
  let key := make_key_for_trip contract_identifier ST_CirculatingSupply token_name in
  let? supply := db_get (json_deserialize json_u128) self key in
  expect_some supply.

(** * Non-fungible tokens *)
Definition create_non_fungible_token self contract_identifier (token_name : string) (key_type : TypeSignature)
  : outcome VmError (NonFungibleTokenMetadata * W) :=
  let data := mkNftMeta key_type in
  let key := make_metadata_key ST_NonFungibleTokenMeta token_name in
  let? self := db_insert_metadata self contract_identifier key (json_to_string json_nft data) in
  Ok (data, self).

Definition load_nft self contract_identifier (token_name : string) : outcome VmError NonFungibleTokenMetadata :=
  let key := make_metadata_key ST_NonFungibleTokenMeta token_name in
  let? r := map_no_contract_as_none (fetch_metadata json_nft self contract_identifier key) in
  ok_or (Unchecked (CheckErr.NoSuchNFT token_name)) r.

Definition get_nft_key_type self contract_identifier (asset_name : string) : outcome VmError TypeSignature :=
  let? descriptor := load_nft self contract_identifier asset_name in
  Ok (nft_key_type descriptor).

Definition nft_key contract_identifier (asset_name : string) (asset : Value) : outcome VmError string :=
  let? serialized := Value_serialize asset in
  Ok (make_key_for_quad contract_identifier ST_NonFungibleToken asset_name serialized).

Definition get_nft_owner self contract_identifier (asset_name : string) (asset : Value) (key_type : TypeSignature)
  : outcome VmError PrincipalData :=
  let? _ := check_admits key_type asset in
  let? key := nft_key contract_identifier asset_name asset in
  let? value := db_get Value_deserialize_untyped self key in
  match value with
  | None => Err (Runtime RuntimeErr.NoSuchToken)
  | Some owner =>
      let? owner := expect_optional owner in
      match owner with
      | Some value => expect_principal value
      | None => Err (Runtime RuntimeErr.NoSuchToken)
      end
  end.

Definition set_nft_owner self contract_identifier (asset_name : string) (asset : Value) (principal : PrincipalData)
    (key_type : TypeSignature) : outcome VmError W :=
  let? _ := check_admits key_type asset in
  let? key := nft_key contract_identifier asset_name asset in
  let? value := Value_some (VPrincipal principal) in
  put_value self key value.

Definition burn_nft self contract_identifier (asset_name : string) (asset : Value) (key_type : TypeSignature)
  : outcome VmError W :=
  let? _ := check_admits key_type asset in
  let? key := nft_key contract_identifier asset_name asset in
  put_value self key Value_none.

(** * Nonces *)
Definition get_account_nonce self (principal : PrincipalData) : outcome VmError Z :=
  let key := make_key_for_account_nonce principal in
  let? result := db_get (json_deserialize json_u64) self key in
  match result with
  | None => Ok 0
  | Some nonce => Ok nonce
  end.
Definition set_account_nonce self (principal : PrincipalData) (nonce : Z) : outcome VmError W :=
  let key := make_key_for_account_nonce principal in
  db_put (json_to_string json_u64) self key nonce.
End state.
