(* ===== verification/Costs.v ===== *)
(** Costs: the execution-cost tracker of the virtual machine
    (clarity/src/vm/costs/mod.rs and cost_functions.rs).

    Trait [CostTracker] is a class; [LimitedCostTracker] and [()] implement it.
    A tracker method that mutates the tracker and fails returns the tracker with the
    error, because [?] leaves what was mutated before.  The price of an operation
    is computed by evaluating a Clarity function of a cost contract: the evaluator
    and the contract contexts it runs in are arguments. *)
From Stdlib Require Import ZArith Lia Strings.Byte Strings.String List Bool.
From stdpp Require Import base decidable list strings option gmap pretty.
From S2P Require Import Prelude Bytes Codec Representations BTree Types Signatures Admission Values.
From S2P Require Import Serialization Hashes C32 Principals ClarityState.
Open Scope Z_scope.

(** * The cost functions *)
Module CostFunction.
Inductive ClarityCostFunction :=
| AnalysisTypeAnnotate | AnalysisTypeCheck | AnalysisTypeLookup | AnalysisVisit | AnalysisIterableFunc
| AnalysisOptionCons | AnalysisOptionCheck | AnalysisBindName | AnalysisListItemsCheck
| AnalysisCheckTupleGet | AnalysisCheckTupleMerge | AnalysisCheckTupleCons | AnalysisTupleItemsCheck
| AnalysisCheckLet | AnalysisLookupFunction | AnalysisLookupFunctionTypes | AnalysisLookupVariableConst
| AnalysisLookupVariableDepth | AstParse | AstCycleDetection | AnalysisStorage | AnalysisUseTraitEntry
| AnalysisGetFunctionEntry | AnalysisFetchContractEntry | LookupVariableDepth | LookupVariableSize
| LookupFunction | BindName | InnerTypeCheckCost | UserFunctionApplication | Let | If | Asserts | Map
| Filter | Len | ElementAt | IndexOf | Fold | ListCons | TypeParseStep | TupleGet | TupleMerge | TupleCons
| Add | Sub | Mul | Div | Geq | Leq | Le | Ge | IntCast | Mod | Pow | Sqrti | Log2 | Xor | Not | Eq | Begin
| Hash160 | Sha256 | Sha512 | Sha512t256 | Keccak256 | Secp256k1recover | Secp256k1verify | Print | SomeCons
| OkCons | ErrCons | DefaultTo | UnwrapRet | UnwrapErrOrRet | IsOkay | IsNone | IsErr | IsSome | Unwrap
| UnwrapErr | TryRet | Match | Or | And | Append | Concat | AsMaxLen | ContractCall | ContractOf
| PrincipalOf | AtBlock | LoadContract | CreateMap | CreateVar | CreateNft | CreateFt | FetchEntry | SetEntry
| FetchVar | SetVar | ContractStorage | BlockInfo | StxBalance | StxTransfer | StxWithdraw | FtMint
| FtTransfer | FtBalance | FtSupply | FtBurn | FtWithdraw | NftMint | NftTransfer | NftOwner | NftBurn
| NftWithdraw | PoisonMicroblock.

Definition get_name (f : ClarityCostFunction) : string :=
  match f with
  | AnalysisTypeAnnotate => "cost_analysis_type_annotate"
  | AnalysisTypeCheck => "cost_analysis_type_check"
  | AnalysisTypeLookup => "cost_analysis_type_lookup"
  | AnalysisVisit => "cost_analysis_visit"
  | AnalysisIterableFunc => "cost_analysis_iterable_func"
  | AnalysisOptionCons => "cost_analysis_option_cons"
  | AnalysisOptionCheck => "cost_analysis_option_check"
  | AnalysisBindName => "cost_analysis_bind_name"
  | AnalysisListItemsCheck => "cost_analysis_list_items_check"
  | AnalysisCheckTupleGet => "cost_analysis_check_tuple_get"
  | AnalysisCheckTupleMerge => "cost_analysis_check_tuple_merge"
  | AnalysisCheckTupleCons => "cost_analysis_check_tuple_cons"
  | AnalysisTupleItemsCheck => "cost_analysis_tuple_items_check"
  | AnalysisCheckLet => "cost_analysis_check_let"
  | AnalysisLookupFunction => "cost_analysis_lookup_function"
  | AnalysisLookupFunctionTypes => "cost_analysis_lookup_function_types"
  | AnalysisLookupVariableConst => "cost_analysis_lookup_variable_const"
  | AnalysisLookupVariableDepth => "cost_analysis_lookup_variable_depth"
  | AstParse => "cost_ast_parse"
  | AstCycleDetection => "cost_ast_cycle_detection"
  | AnalysisStorage => "cost_analysis_storage"
  | AnalysisUseTraitEntry => "cost_analysis_use_trait_entry"
  | AnalysisGetFunctionEntry => "cost_analysis_get_function_entry"
  | AnalysisFetchContractEntry => "cost_analysis_fetch_contract_entry"
  | LookupVariableDepth => "cost_lookup_variable_depth"
  | LookupVariableSize => "cost_lookup_variable_size"
  | LookupFunction => "cost_lookup_function"
  | BindName => "cost_bind_name"
  | InnerTypeCheckCost => "cost_inner_type_check_cost"
  | UserFunctionApplication => "cost_user_function_application"
  | Let => "cost_let"
  | If => "cost_if"
  | Asserts => "cost_asserts"
  | Map => "cost_map"
  | Filter => "cost_filter"
  | Len => "cost_len"
  | ElementAt => "cost_element_at"
  | IndexOf => "cost_index_of"
  | Fold => "cost_fold"
  | ListCons => "cost_list_cons"
  | TypeParseStep => "cost_type_parse_step"
  | TupleGet => "cost_tuple_get"
  | TupleMerge => "cost_tuple_merge"
  | TupleCons => "cost_tuple_cons"
  | Add => "cost_add"
  | Sub => "cost_sub"
  | Mul => "cost_mul"
  | Div => "cost_div"
  | Geq => "cost_geq"
  | Leq => "cost_leq"
  | Le => "cost_le"
  | Ge => "cost_ge"
  | IntCast => "cost_int_cast"
  | Mod => "cost_mod"
  | Pow => "cost_pow"
  | Sqrti => "cost_sqrti"
  | Log2 => "cost_log2"
  | Xor => "cost_xor"
  | Not => "cost_not"
  | Eq => "cost_eq"
  | Begin => "cost_begin"
  | Hash160 => "cost_hash160"
  | Sha256 => "cost_sha256"
  | Sha512 => "cost_sha512"
  | Sha512t256 => "cost_sha512t256"
  | Keccak256 => "cost_keccak256"
  | Secp256k1recover => "cost_secp256k1recover"
  | Secp256k1verify => "cost_secp256k1verify"
  | Print => "cost_print"
  | SomeCons => "cost_some_cons"
  | OkCons => "cost_ok_cons"
  | ErrCons => "cost_err_cons"
  | DefaultTo => "cost_default_to"
  | UnwrapRet => "cost_unwrap_ret"
  | UnwrapErrOrRet => "cost_unwrap_err_or_ret"
  | IsOkay => "cost_is_okay"
  | IsNone => "cost_is_none"
  | IsErr => "cost_is_err"
  | IsSome => "cost_is_some"
  | Unwrap => "cost_unwrap"
  | UnwrapErr => "cost_unwrap_err"
  | TryRet => "cost_try_ret"
  | Match => "cost_match"
  | Or => "cost_or"
  | And => "cost_and"
  | Append => "cost_append"
  | Concat => "cost_concat"
  | AsMaxLen => "cost_as_max_len"
  | ContractCall => "cost_contract_call"
  | ContractOf => "cost_contract_of"
  | PrincipalOf => "cost_principal_of"
  | AtBlock => "cost_at_block"
  | LoadContract => "cost_load_contract"
  | CreateMap => "cost_create_map"
  | CreateVar => "cost_create_var"
  | CreateNft => "cost_create_nft"
  | CreateFt => "cost_create_ft"
  | FetchEntry => "cost_fetch_entry"
  | SetEntry => "cost_set_entry"
  | FetchVar => "cost_fetch_var"
  | SetVar => "cost_set_var"
  | ContractStorage => "cost_contract_storage"
  | BlockInfo => "cost_block_info"
  | StxBalance => "cost_stx_balance"
  | StxTransfer => "cost_stx_transfer"
  | StxWithdraw => "cost_stx_transfer"
  | FtMint => "cost_ft_mint"
  | FtTransfer => "cost_ft_transfer"
  | FtBalance => "cost_ft_balance"
  | FtSupply => "cost_ft_get_supply"
  | FtBurn => "cost_ft_burn"
  | FtWithdraw => "cost_ft_burn"
  | NftMint => "cost_nft_mint"
  | NftTransfer => "cost_nft_transfer"
  | NftOwner => "cost_nft_owner"
  | NftBurn => "cost_nft_burn"
  | NftWithdraw => "cost_nft_burn"
  | PoisonMicroblock => "poison_microblock"
  end.

Definition ALL : list ClarityCostFunction :=
  [AnalysisTypeAnnotate; AnalysisTypeCheck; AnalysisTypeLookup; AnalysisVisit; AnalysisIterableFunc;
   AnalysisOptionCons; AnalysisOptionCheck; AnalysisBindName; AnalysisListItemsCheck; AnalysisCheckTupleGet;
   AnalysisCheckTupleMerge; AnalysisCheckTupleCons; AnalysisTupleItemsCheck; AnalysisCheckLet;
   AnalysisLookupFunction; AnalysisLookupFunctionTypes; AnalysisLookupVariableConst;
   AnalysisLookupVariableDepth; AstParse; AstCycleDetection; AnalysisStorage; AnalysisUseTraitEntry;
   AnalysisGetFunctionEntry; AnalysisFetchContractEntry; LookupVariableDepth; LookupVariableSize;
   LookupFunction; BindName; InnerTypeCheckCost; UserFunctionApplication; Let; If; Asserts; Map; Filter; Len;
   ElementAt; IndexOf; Fold; ListCons; TypeParseStep; TupleGet; TupleMerge; TupleCons; Add; Sub; Mul; Div;
   Geq; Leq; Le; Ge; IntCast; Mod; Pow; Sqrti; Log2; Xor; Not; Eq; Begin; Hash160; Sha256; Sha512; Sha512t256;
   Keccak256; Secp256k1recover; Secp256k1verify; Print; SomeCons; OkCons; ErrCons; DefaultTo; UnwrapRet;
   UnwrapErrOrRet; IsOkay; IsNone; IsErr; IsSome; Unwrap; UnwrapErr; TryRet; Match; Or; And; Append; Concat;
   AsMaxLen; ContractCall; ContractOf; PrincipalOf; AtBlock; LoadContract; CreateMap; CreateVar; CreateNft;
   CreateFt; FetchEntry; SetEntry; FetchVar; SetVar; ContractStorage; BlockInfo; StxBalance; StxTransfer;
   StxWithdraw; FtMint; FtTransfer; FtBalance; FtSupply; FtBurn; FtWithdraw; NftMint; NftTransfer; NftOwner;
   NftBurn; NftWithdraw; PoisonMicroblock].

(** The first variant with the name, as a [match] on the name returns it. *)
Definition lookup_by_name (name : string) : option ClarityCostFunction :=
  List.find (fun f => String.eqb (get_name f) name) ALL.

(** The position of a variant in [ALL]. *)
Definition index (f : ClarityCostFunction) : nat :=
  match f with
  | AnalysisTypeAnnotate => 0 | AnalysisTypeCheck => 1 | AnalysisTypeLookup => 2 | AnalysisVisit => 3
  | AnalysisIterableFunc => 4 | AnalysisOptionCons => 5 | AnalysisOptionCheck => 6 | AnalysisBindName => 7
  | AnalysisListItemsCheck => 8 | AnalysisCheckTupleGet => 9 | AnalysisCheckTupleMerge => 10
  | AnalysisCheckTupleCons => 11 | AnalysisTupleItemsCheck => 12 | AnalysisCheckLet => 13
  | AnalysisLookupFunction => 14 | AnalysisLookupFunctionTypes => 15 | AnalysisLookupVariableConst => 16
  | AnalysisLookupVariableDepth => 17 | AstParse => 18 | AstCycleDetection => 19 | AnalysisStorage => 20
  | AnalysisUseTraitEntry => 21 | AnalysisGetFunctionEntry => 22 | AnalysisFetchContractEntry => 23
  | LookupVariableDepth => 24 | LookupVariableSize => 25 | LookupFunction => 26 | BindName => 27
  | InnerTypeCheckCost => 28 | UserFunctionApplication => 29 | Let => 30 | If => 31 | Asserts => 32 | Map => 33
  | Filter => 34 | Len => 35 | ElementAt => 36 | IndexOf => 37 | Fold => 38 | ListCons => 39
  | TypeParseStep => 40 | TupleGet => 41 | TupleMerge => 42 | TupleCons => 43 | Add => 44 | Sub => 45
  | Mul => 46 | Div => 47 | Geq => 48 | Leq => 49 | Le => 50 | Ge => 51 | IntCast => 52 | Mod => 53 | Pow => 54
  | Sqrti => 55 | Log2 => 56 | Xor => 57 | Not => 58 | Eq => 59 | Begin => 60 | Hash160 => 61 | Sha256 => 62
  | Sha512 => 63 | Sha512t256 => 64 | Keccak256 => 65 | Secp256k1recover => 66 | Secp256k1verify => 67
  | Print => 68 | SomeCons => 69 | OkCons => 70 | ErrCons => 71 | DefaultTo => 72 | UnwrapRet => 73
  | UnwrapErrOrRet => 74 | IsOkay => 75 | IsNone => 76 | IsErr => 77 | IsSome => 78 | Unwrap => 79
  | UnwrapErr => 80 | TryRet => 81 | Match => 82 | Or => 83 | And => 84 | Append => 85 | Concat => 86
  | AsMaxLen => 87 | ContractCall => 88 | ContractOf => 89 | PrincipalOf => 90 | AtBlock => 91
  | LoadContract => 92 | CreateMap => 93 | CreateVar => 94 | CreateNft => 95 | CreateFt => 96
  | FetchEntry => 97 | SetEntry => 98 | FetchVar => 99 | SetVar => 100 | ContractStorage => 101
  | BlockInfo => 102 | StxBalance => 103 | StxTransfer => 104 | StxWithdraw => 105 | FtMint => 106
  | FtTransfer => 107 | FtBalance => 108 | FtSupply => 109 | FtBurn => 110 | FtWithdraw => 111 | NftMint => 112
  | NftTransfer => 113 | NftOwner => 114 | NftBurn => 115 | NftWithdraw => 116 | PoisonMicroblock => 117
  end%nat.

Lemma ALL_index (f : ClarityCostFunction) : ALL !! index f = Some f.
Proof. by destruct f. Qed.

#[global] Instance index_inj : Inj (=) (=) index.
Proof. intros f g H. pose proof (ALL_index f) as Hf. rewrite H, ALL_index in Hf. by injection Hf. Qed.

#[global] Instance ClarityCostFunction_eq_dec : EqDecision ClarityCostFunction.
Proof. intros f g. destruct (decide (index f = index g)) as [H|H]; [left; by apply index_inj|right; congruence]. Defined.

#[global] Instance ClarityCostFunction_countable : Countable ClarityCostFunction :=
  inj_countable index (fun n => ALL !! n) ALL_index.
End CostFunction.
Notation ClarityCostFunction := CostFunction.ClarityCostFunction.

(** * Costs *)
Module CostErr.
Inductive CostErrors :=
| CostComputationFailed (msg : string)
| CostOverflow
| CostBalanceExceeded (total limit : ExecutionCost)
| MemoryBalanceExceeded (memory limit : Z)
| CostContractLoadFailure.
End CostErr.
Notation CostErrors := CostErr.CostErrors.

(** [From<CostErrors> for CheckErrors] and [From<CostErrors> for Error]. *)
Definition CheckErrors_from_cost (err : CostErrors) : CheckErrors :=
  match err with
  | CostErr.CostOverflow => CheckErr.CostOverflow
  | CostErr.CostBalanceExceeded a b => CheckErr.CostBalanceExceeded a b
  | CostErr.MemoryBalanceExceeded a b => CheckErr.MemoryBalanceExceeded a b
  | CostErr.CostComputationFailed s => CheckErr.CostComputationFailed s
  | CostErr.CostContractLoadFailure => CheckErr.CostComputationFailed "Failed to load cost contract"
  end.
Definition Error_from_cost (err : CostErrors) : VmError := Unchecked (CheckErrors_from_cost err).

Definition CLARITY_MEMORY_LIMIT : Z := 100 * 1000 * 1000.
Definition COSTS_1_NAME : string := "costs".
Definition COSTS_2_NAME : string := "costs-2".

Definition cost_overflow_mul (self other : Z) : outcome CostErrors Z :=
  ok_or CostErr.CostOverflow (checked_mul u64_ty self other).
Definition cost_overflow_add (self other : Z) : outcome CostErrors Z :=
  ok_or CostErr.CostOverflow (checked_add u64_ty self other).
Definition cost_overflow_sub (self other : Z) : outcome CostErrors Z :=
  ok_or CostErr.CostOverflow (checked_sub u64_ty self other).

Definition ExecutionCost_zero : ExecutionCost := mkCost 0 0 0 0 0.
Definition ExecutionCost_max_value : ExecutionCost := mkCost u64_max u64_max u64_max u64_max u64_max.
Definition ExecutionCost_runtime (r : Z) : ExecutionCost := mkCost 0 0 0 0 r.

Definition set_runtime (c : ExecutionCost) (n : Z) : ExecutionCost :=
  mkCost (write_length c) (write_count c) (read_length c) (read_count c) n.
Definition set_read_count (c : ExecutionCost) (n : Z) : ExecutionCost :=
  mkCost (write_length c) (write_count c) (read_length c) n (runtime c).
Definition set_read_length (c : ExecutionCost) (n : Z) : ExecutionCost :=
  mkCost (write_length c) (write_count c) n (read_count c) (runtime c).
Definition set_write_length (c : ExecutionCost) (n : Z) : ExecutionCost :=
  mkCost n (write_count c) (read_length c) (read_count c) (runtime c).
Definition set_write_count (c : ExecutionCost) (n : Z) : ExecutionCost :=
  mkCost (write_length c) n (read_length c) (read_count c) (runtime c).

(** [self.f = op(self.f, other.f)?] for the five dimensions in the order of
    the source; the dimensions before a failing one stay changed. *)
Definition cost_zip (op : Z -> Z -> outcome CostErrors Z) (self other : ExecutionCost)
  : outcome (ExecutionCost * CostErrors) ExecutionCost :=
  let? n := map_err (pair self) (op (runtime self) (runtime other)) in
  let self := set_runtime self n in
  let? n := map_err (pair self) (op (read_count self) (read_count other)) in
  let self := set_read_count self n in
  let? n := map_err (pair self) (op (read_length self) (read_length other)) in
  let self := set_read_length self n in
  let? n := map_err (pair self) (op (write_length self) (write_length other)) in
  let self := set_write_length self n in
  let? n := map_err (pair self) (op (write_count self) (write_count other)) in
  Ok (set_write_count self n).

Definition ExecutionCost_add_runtime (self : ExecutionCost) (r : Z) : outcome (ExecutionCost * CostErrors) ExecutionCost :=
  let? n := map_err (pair self) (cost_overflow_add (runtime self) r) in
  Ok (set_runtime self n).
Definition ExecutionCost_add (self other : ExecutionCost) := cost_zip cost_overflow_add self other.
Definition ExecutionCost_sub (self other : ExecutionCost) := cost_zip cost_overflow_sub self other.
Definition ExecutionCost_multiply (self : ExecutionCost) (times : Z) :=
  cost_zip cost_overflow_mul self (mkCost times times times times times).

Definition exceeds (self other : ExecutionCost) : bool :=
  (runtime other <? runtime self) || (write_length other <? write_length self)
  || (write_count other <? write_count self) || (read_count other <? read_count self)
  || (read_length other <? read_length self).

Definition max_cost (first second : ExecutionCost) : ExecutionCost :=
  mkCost (Z.max (write_length first) (write_length second)) (Z.max (write_count first) (write_count second))
    (Z.max (read_length first) (read_length second)) (Z.max (read_count first) (read_count second))
    (Z.max (runtime first) (runtime second)).

Definition proportion_largest_dimension (self numerator : ExecutionCost) : Z :=
  let share f := f numerator / Z.max 1 (f self / 100) in
  fold_left Z.max [share write_length; share write_count; share read_length; share read_count] (share runtime).

(** [u64::leading_zeros] and [u64::trailing_zeros] *)
Definition leading_zeros (n : Z) : Z := if n =? 0 then 64 else 63 - Z.log2 n.
Fixpoint trailing_zeros_from (fuel : nat) (n : Z) : Z :=
  match fuel with
  | O => 0
  | S fuel => if Z.odd n then 0 else 1 + trailing_zeros_from fuel (Z.shiftr n 1)
  end.
Definition trailing_zeros (n : Z) : Z := trailing_zeros_from 64 n.

Definition int_log2 (input : Z) : option Z :=
  match checked_sub u32_ty 63 (leading_zeros input) with
  | None => None
  | Some floor_log => Some (if trailing_zeros input =? floor_log then floor_log else floor_log + 1)
  end.

(** * Trackers *)
Class CostTracker (T : Type) := {
  compute_cost : T -> ClarityCostFunction -> list Z -> outcome (T * CostErrors) (T * ExecutionCost);
  add_cost : T -> ExecutionCost -> outcome (T * CostErrors) T;
  add_memory : T -> Z -> outcome (T * CostErrors) T;
  drop_memory : T -> Z -> outcome (T * CostErrors) T;
  reset_memory : T -> T;
  short_circuit_contract_call :
    T -> QualifiedContractIdentifier -> string -> list Z -> outcome (T * CostErrors) (T * bool)
}.

(** [input] converts to [u64] or overflows the cost. *)
Definition runtime_cost {T : Type} `{CostTracker T} (cost_function : ClarityCostFunction) (tracker : T) (input : Z)
  : outcome (T * CostErrors) T :=
  let? size := ok_or (tracker, CostErr.CostOverflow) (checked u64_ty input) in
  let? '(tracker, cost) := compute_cost tracker cost_function [size] in
  add_cost tracker cost.

Definition analysis_typecheck_cost {T : Type} `{CostTracker T} (track : T) (t1 t2 : TypeSignature)
  : outcome (T * CostErrors) T :=
  let? t1_size := map_err (fun _ => (track, CostErr.CostOverflow)) (type_size t1) in
  let? t2_size := map_err (fun _ => (track, CostErr.CostOverflow)) (type_size t2) in
  let? '(track, cost) := compute_cost track CostFunction.AnalysisTypeCheck [Z.max t1_size t2_size] in
  add_cost track cost.

(** [finally_drop_memory!]: the memory is dropped whether [exec] fails or not. *)
Definition finally_drop_memory {T A : Type} `{CostTracker T} (env : T) (used_mem : Z)
    (exec : T -> outcome (T * CostErrors) (T * A)) : outcome (T * CostErrors) (T * A) :=
  match exec env with
  | Ok (env, a) => let? env := drop_memory env used_mem in Ok (env, a)
  | Err (env, e) => let? env := drop_memory env used_mem in Err (env, e)
  | Panic => Panic
  end.

(** [CostTracker for ()] *)
#[export] Instance unit_tracker : CostTracker unit := {|
  compute_cost t _ _ := Ok (t, ExecutionCost_zero);
  add_cost t _ := Ok t;
  add_memory t _ := Ok t;
  drop_memory t _ := Ok t;
  reset_memory t := t;
  short_circuit_contract_call t _ _ _ := Ok (t, false)
|}.

Record ClarityCostFunctionReference := mkCostRef {
  cr_contract_id : QualifiedContractIdentifier;
  cr_function_name : string
}.

(** [K] is the type of the contract contexts. *)
Record TrackerData (K : Type) := mkTracker {
  cost_function_references : gmap ClarityCostFunction ClarityCostFunctionReference;
  cost_contracts : gmap QualifiedContractIdentifier K;
  contract_call_circuits : gmap (QualifiedContractIdentifier * string) ClarityCostFunctionReference;
  total_cost : ExecutionCost;
  limit : ExecutionCost;
  memory : Z;
  memory_limit : Z;
  tracker_epoch : StacksEpochId;
  tracker_mainnet : bool
}.
Arguments mkTracker {K} _ _ _ _ _ _ _ _ _.
Arguments cost_function_references {K} _.
Arguments cost_contracts {K} _.
Arguments contract_call_circuits {K} _.
Arguments total_cost {K} _.
Arguments limit {K} _.
Arguments memory {K} _.
Arguments memory_limit {K} _.
Arguments tracker_epoch {K} _.
Arguments tracker_mainnet {K} _.

Inductive LimitedCostTracker (K : Type) :=
| Limited (data : TrackerData K)
| Free.
Arguments Limited {K} _.
Arguments Free {K}.

Definition set_total_cost {K : Type} (s : TrackerData K) (c : ExecutionCost) : TrackerData K :=
  mkTracker (cost_function_references s) (cost_contracts s) (contract_call_circuits s) c (limit s) (memory s)
    (memory_limit s) (tracker_epoch s) (tracker_mainnet s).
Definition set_memory {K : Type} (s : TrackerData K) (m : Z) : TrackerData K :=
  mkTracker (cost_function_references s) (cost_contracts s) (contract_call_circuits s) (total_cost s) (limit s) m
    (memory_limit s) (tracker_epoch s) (tracker_mainnet s).
Definition set_cost_contracts {K : Type} (s : TrackerData K) (m : gmap QualifiedContractIdentifier K) : TrackerData K :=
  mkTracker (cost_function_references s) m (contract_call_circuits s) (total_cost s) (limit s) (memory s)
    (memory_limit s) (tracker_epoch s) (tracker_mainnet s).

Definition new_free {K : Type} : LimitedCostTracker K := Free.

Definition default_cost_contract_for_epoch {E : Type} (epoch_id : StacksEpochId) : outcome E string :=
  match epoch_id with
  | Epoch10 => Panic
  | Epoch20 => Ok COSTS_1_NAME
  | Epoch2_05 => Ok COSTS_2_NAME
  end.

Definition get_total {K : Type} (self : LimitedCostTracker K) : ExecutionCost :=
  match self with Limited data => total_cost data | Free => ExecutionCost_zero end.
Definition set_total {E K : Type} (self : LimitedCostTracker K) (total : ExecutionCost) : outcome E (LimitedCostTracker K) :=
  match self with Limited data => Ok (Limited (set_total_cost data total)) | Free => Panic end.
Definition get_limit {K : Type} (self : LimitedCostTracker K) : ExecutionCost :=
  match self with Limited data => limit data | Free => ExecutionCost_max_value end.

(** [LimitedCostTracker::eq]: the references and contracts are not compared. *)
Definition LimitedCostTracker_eqb {K : Type} (self other : LimitedCostTracker K) : bool :=
  let cost_eqb a b := (write_length a =? write_length b) && (write_count a =? write_count b)
    && (read_length a =? read_length b) && (read_count a =? read_count b) && (runtime a =? runtime b) in
  match self, other with
  | Free, Free => true
  | Limited s, Limited o =>
      cost_eqb (total_cost s) (total_cost o) && cost_eqb (limit o) (limit s)
      && (memory s =? memory o) && (memory_limit s =? memory_limit o)
  | _, _ => false
  end.

Section limited.
Context {D : Digests} {K : Type}.
(** [eval_all] of a call in a cost contract, with a free tracker and a store
    that has nothing; it may change the context. *)
Variable eval_all : K -> string -> list Value -> bool -> StacksEpochId -> outcome VmError (option Value) * K.
(** The text of an error in a message. *)
Variable display : VmError -> string.

Definition parse_cost (cost_function_name : string) (eval_result : outcome VmError (option Value))
  : outcome CostErrors ExecutionCost :=
  match eval_result with
  | Ok (Some (VTuple data)) =>
      let get k := bt_get k (td_data_map data) in
      match get "write_length", get "write_count", get "runtime", get "read_length", get "read_count" with
      | Some (VUInt write_length), Some (VUInt write_count), Some (VUInt runtime), Some (VUInt read_length),
        Some (VUInt read_count) =>
          Ok (mkCost (as_u64 write_length) (as_u64 write_count) (as_u64 read_length) (as_u64 read_count) (as_u64 runtime))
      | _, _, _, _, _ => Err (CostErr.CostComputationFailed "Execution Cost tuple does not contain only UInts")
      end
  | Ok (Some _) =>
      Err (CostErr.CostComputationFailed "Clarity cost function returned something other than a Cost tuple")
  | Ok None => Err (CostErr.CostComputationFailed "Clarity cost function returned nothing")
  | Err e =>
      Err (CostErr.CostComputationFailed
        ("Error evaluating result of cost function " ++ cost_function_name ++ ": " ++ display e))
  | Panic => Panic
  end.

Definition ClarityCostFunctionReference_to_string (r : ClarityCostFunctionReference) : string :=
  QualifiedContractIdentifier_to_string (cr_contract_id r) ++ "." ++ cr_function_name r.

Definition tracker_compute_cost (cost_tracker : TrackerData K) (cost_function_reference : ClarityCostFunctionReference)
    (input_sizes : list Z) (eval_in_epoch : StacksEpochId)
  : outcome (TrackerData K * CostErrors) (TrackerData K * ExecutionCost) :=
  let? cost_contract := ok_or
    (cost_tracker, CostErr.CostComputationFailed
      ("CostFunction not found: " ++ ClarityCostFunctionReference_to_string cost_function_reference))
    (cost_contracts cost_tracker !! cr_contract_id cost_function_reference) in
  let '(eval_result, cost_contract) :=
    eval_all cost_contract (cr_function_name cost_function_reference) (map VUInt input_sizes)
      (tracker_mainnet cost_tracker) eval_in_epoch in
  let cost_tracker := set_cost_contracts cost_tracker
    (<[cr_contract_id cost_function_reference := cost_contract]> (cost_contracts cost_tracker)) in
  let? cost := map_err (pair cost_tracker)
    (parse_cost (ClarityCostFunctionReference_to_string cost_function_reference) eval_result) in
  Ok (cost_tracker, cost).

Definition tracker_add_cost (s : TrackerData K) (cost : ExecutionCost) : outcome (TrackerData K * CostErrors) (TrackerData K) :=
  match ExecutionCost_add (total_cost s) cost with
  | Ok total =>
      let s := set_total_cost s total in
      if exceeds total (limit s) then Err (s, CostErr.CostBalanceExceeded total (limit s)) else Ok s
  | Err (total, e) => Err (set_total_cost s total, e)
  | Panic => Panic
  end.

Definition tracker_add_memory (s : TrackerData K) (mem : Z) : outcome (TrackerData K * CostErrors) (TrackerData K) :=
  let? m := map_err (pair s) (cost_overflow_add (memory s) mem) in
  let s := set_memory s m in
  if memory_limit s <? memory s then Err (s, CostErr.MemoryBalanceExceeded (memory s) (memory_limit s)) else Ok s.

Definition tracker_drop_memory (s : TrackerData K) (mem : Z) : outcome (TrackerData K * CostErrors) (TrackerData K) :=
  let? m := expect_some (checked_sub u64_ty (memory s) mem) in
  Ok (set_memory s m).

(** The methods of a tracker on the data of a limited one. *)
Definition on_limited {A B : Type} (m : outcome (TrackerData K * CostErrors) A) (f : A -> B)
  : outcome (LimitedCostTracker K * CostErrors) B :=
  match m with
  | Ok a => Ok (f a)
  | Err (s, e) => Err (Limited s, e)
  | Panic => Panic
  end.

#[export] Instance limited_tracker : CostTracker (LimitedCostTracker K) := {|
  compute_cost self cost_function input :=
    match self with
    | Free => Ok (Free, ExecutionCost_zero)
    | Limited data =>
        let? cost_function_ref := ok_or
          (Limited data, CostErr.CostComputationFailed
            ("CostFunction not defined: " ++ CostFunction.get_name cost_function))
          (cost_function_references data !! cost_function) in
        on_limited (tracker_compute_cost data cost_function_ref input (tracker_epoch data))
          (fun '(data, c) => (Limited data, c))
    end;
  add_cost self cost :=
    match self with Free => Ok Free | Limited data => on_limited (tracker_add_cost data cost) Limited end;
  add_memory self mem :=
    match self with Free => Ok Free | Limited data => on_limited (tracker_add_memory data mem) Limited end;
  drop_memory self mem :=
    match self with Free => Ok Free | Limited data => on_limited (tracker_drop_memory data mem) Limited end;
  reset_memory self :=
    match self with Free => Free | Limited data => Limited (set_memory data 0) end;
  short_circuit_contract_call self contract function input :=
    match self with
    | Free => Ok (Free, false)
    | Limited data =>
        match contract_call_circuits data !! (contract, function) with
        | Some cost_function =>
            on_limited (tracker_compute_cost data cost_function input (tracker_epoch data))
              (fun '(data, _) => (Limited data, true))
        | None => Ok (Limited data, false)
        end
    end
|}.
End limited.

(** A tracker that does not panic: its price list can be evaluated. *)
Class TrackerLaws (T : Type) `{CostTracker T} := {
  compute_cost_safe : forall (t : T) f input, compute_cost t f input <> Panic;
  add_cost_safe : forall (t : T) c, add_cost t c <> Panic;
  add_memory_safe : forall (t : T) m, add_memory t m <> Panic
}.

#[export] Instance unit_tracker_laws : TrackerLaws unit.
Proof. by split. Qed.

Lemma runtime_cost_safe {T : Type} `{TrackerLaws T} (f : ClarityCostFunction) (t : T) (input : Z) :
  runtime_cost f t input <> Panic.
Proof.
  unfold runtime_cost. destruct (checked u64_ty input); [|done]. cbn [ok_or out_bind].
  pose proof (compute_cost_safe t f [z]). destruct (compute_cost t f [z]) as [[t' c]|[t' e]|]; [|done..].
  apply add_cost_safe.
Qed.

(** The limited tracker is safe when the evaluation of cost functions is. *)
Lemma limited_tracker_laws {D : Digests} {K : Type}
    (eval_all : K -> string -> list Value -> bool -> StacksEpochId -> outcome VmError (option Value) * K)
    (display : VmError -> string) :
  (forall k f args m e, fst (eval_all k f args m e) <> Panic) ->
  TrackerLaws (H := limited_tracker eval_all display) (LimitedCostTracker K).
Proof.
  intros Heval. split.
  - intros [data|] f input; [|done]. cbn [compute_cost limited_tracker].
    destruct (cost_function_references data !! f) as [r|]; [|done]. cbn [ok_or out_bind].
    unfold tracker_compute_cost. destruct (cost_contracts data !! cr_contract_id r) as [k|]; [|done]. cbn [ok_or out_bind].
    pose proof (Heval k (cr_function_name r) (map VUInt input) (tracker_mainnet data) (tracker_epoch data)) as Hk.
    destruct (eval_all _ _ _ _ _) as [res k']. simpl in Hk. unfold parse_cost.
    destruct res as [[v|]|e|]; try done. destruct v; try done. by repeat case_match.
  - intros [data|] c; [|done]. simpl. unfold tracker_add_cost, ExecutionCost_add, cost_zip, cost_overflow_add.
    repeat (match goal with |- context [checked_add ?t ?x ?y] => destruct (checked_add t x y) end; [|done]; cbn [ok_or map_err out_bind]).
    by destruct (exceeds _ _).
  - intros [data|] m; [|done]. simpl. unfold tracker_add_memory, cost_overflow_add.
    destruct (checked_add _ _ _); [|done]. cbn [ok_or map_err out_bind]. by destruct (_ <? _).
Qed.

(** * Charging *)
(** The exact sum of two costs, with no bound. *)
Definition cost_plus (a b : ExecutionCost) : ExecutionCost :=
  mkCost (write_length a + write_length b) (write_count a + write_count b) (read_length a + read_length b)
    (read_count a + read_count b) (runtime a + runtime b).
Definition cost_sum (cs : list ExecutionCost) : ExecutionCost := foldr cost_plus ExecutionCost_zero cs.

(** Every dimension is an unsigned integer of at most [m]. *)
Definition cost_within (c m : ExecutionCost) : Prop :=
  0 <= write_length c <= write_length m /\ 0 <= write_count c <= write_count m /\
  0 <= read_length c <= read_length m /\ 0 <= read_count c <= read_count m /\ 0 <= runtime c <= runtime m.
Definition cost_wf (c : ExecutionCost) : Prop := cost_within c ExecutionCost_max_value.

Lemma exceeds_false (a b : ExecutionCost) :
  0 <= write_length a /\ 0 <= write_count a /\ 0 <= read_length a /\ 0 <= read_count a /\ 0 <= runtime a ->
  exceeds a b = false <-> cost_within a b.
Proof. unfold exceeds, cost_within. intros H. rewrite !orb_false_iff, !Z.ltb_ge. lia. Qed.

Lemma cost_overflow_add_cases (a b : Z) :
  0 <= a -> 0 <= b -> cost_overflow_add a b = if a + b <=? u64_max then Ok (a + b) else Err CostErr.CostOverflow.
Proof.
  intros Ha Hb. unfold cost_overflow_add, checked_add, checked, in_ty. unfold_bounds.
  destruct (Z.leb_spec 0 (a + b)); [|lia]. simpl. by destruct (a + b <=? _).
Qed.

(** The addition is exact when it fits, and an overflow when it does not. *)
Lemma ExecutionCost_add_cases (a b : ExecutionCost) :
  cost_wf a -> cost_wf b ->
  (cost_wf (cost_plus a b) /\ ExecutionCost_add a b = Ok (cost_plus a b)) \/
  (~ cost_wf (cost_plus a b) /\ exists c, ExecutionCost_add a b = Err (c, CostErr.CostOverflow)).
Proof.
  unfold cost_wf, cost_within. intros Ha Hb. unfold ExecutionCost_add, cost_zip, cost_plus.
  destruct a as [a1 a2 a3 a4 a5], b as [b1 b2 b3 b4 b5]. simpl in *.
  rewrite !cost_overflow_add_cases by lia.
  repeat match goal with |- context [?x <=? u64_max] =>
    let E := fresh "E" in destruct (Z.leb_spec x u64_max) as [E|E]; simpl;
      [|right; split; [lia|by eexists]] end.
  left. split; [lia|done].
Qed.

Section charging.
Context {K : Type}.
Implicit Types (s : TrackerData K).

Lemma tracker_add_cost_cases s (c : ExecutionCost) :
  cost_wf (limit s) -> cost_within (total_cost s) (limit s) -> cost_wf c ->
  (cost_within (cost_plus (total_cost s) c) (limit s) /\
    tracker_add_cost s c = Ok (set_total_cost s (cost_plus (total_cost s) c))) \/
  (~ cost_within (cost_plus (total_cost s) c) (limit s) /\ exists s' e, tracker_add_cost s c = Err (s', e) /\
    (e = CostErr.CostOverflow \/ e = CostErr.CostBalanceExceeded (cost_plus (total_cost s) c) (limit s))).
Proof.
  intros Hl Ht Hc. unfold tracker_add_cost.
  destruct (ExecutionCost_add_cases (total_cost s) c) as [[Hwf ->]|[Hwf [c' ->]]]; [|done| |].
  - unfold cost_wf, cost_within in *. simpl in *. lia.
  - cbn [limit set_total_cost].
    destruct (exceeds (cost_plus (total_cost s) c) (limit s)) eqn:E.
    + right. split; [|eauto]. rewrite <-exceeds_false, E; [done|]. unfold cost_wf, cost_within in *. lia.
    + left. split; [|done]. apply exceeds_false in E; [done|]. unfold cost_wf, cost_within in *. lia.
  - right. split; [|eauto]. unfold cost_wf, cost_within in *. simpl in *. lia.
Qed.

(** A sequence of charges, stopped by the first that fails. *)
Definition charge_all (s : TrackerData K) (cs : list ExecutionCost) : outcome (TrackerData K * CostErrors) (TrackerData K) :=
  try_fold tracker_add_cost s cs.

(** C33: the tracker meters exactly.  Charging any list of costs to a tracker whose
    total is within its limit succeeds if and only if the exact total, computed
    without bounds, stays within the limit in all five dimensions, and then the
    tracker holds that exact total; otherwise the sequence stops with
    [CostBalanceExceeded] on a total that exceeds the limit, or with
    [CostOverflow], and never panics.  So neither the order of the charges nor
    64-bit overflow lets a transaction spend more than its limit. *)
Theorem charge_all_exact (s : TrackerData K) (cs : list ExecutionCost) :
  cost_wf (limit s) -> cost_within (total_cost s) (limit s) -> Forall cost_wf cs ->
  let exact := cost_plus (total_cost s) (cost_sum cs) in
  (cost_within exact (limit s) /\ charge_all s cs = Ok (set_total_cost s exact)) \/
  (~ cost_within exact (limit s) /\ exists s' e, charge_all s cs = Err (s', e) /\
    (e = CostErr.CostOverflow \/
     exists t, e = CostErr.CostBalanceExceeded t (limit s) /\ exceeds t (limit s) = true)).
Proof.
  intros Hl Ht Hcs exact. subst exact. unfold charge_all. revert s Hl Ht.
  induction Hcs as [|c cs Hc Hcs IH]; intros s Hl Ht.
  - left. assert (cost_plus (total_cost s) (cost_sum []) = total_cost s) as ->.
    { unfold cost_plus. simpl. rewrite !Z.add_0_r. by destruct (total_cost s). }
    split; [done|]. by destruct s.
  - assert (0 <= write_length (cost_sum cs) /\ 0 <= write_count (cost_sum cs) /\ 0 <= read_length (cost_sum cs) /\
      0 <= read_count (cost_sum cs) /\ 0 <= runtime (cost_sum cs)) as Hpos.
    { clear IH. induction Hcs as [|x cs Hx Hcs IH]; simpl; [lia|]. unfold cost_wf, cost_within in Hx. lia. }
    assert (cost_plus (total_cost s) (cost_sum (c :: cs)) = cost_plus (cost_plus (total_cost s) c) (cost_sum cs)) as ->.
    { unfold cost_plus. simpl. f_equal; lia. }
    cbn [try_fold]. destruct (tracker_add_cost_cases s c Hl Ht Hc) as [[Hin ->]|(Hout & s' & e & -> & He)]; cbn [out_bind].
    + destruct (IH (set_total_cost s (cost_plus (total_cost s) c)) Hl Hin) as [[Hr ->]|[Hr Herr]]; [by left|by right].
    + right. split.
      { unfold cost_wf, cost_within, cost_plus in *. simpl in *. lia. }
      eexists _, _. split; [done|]. destruct He as [He|He]; [by left|]. right. eexists. split; [done|].
      destruct (exceeds (cost_plus (total_cost s) c) (limit s)) eqn:E; [done|]. exfalso. apply Hout.
      apply exceeds_false in E; [done|]. unfold cost_wf, cost_within, cost_plus in *. simpl in *. lia.
Qed.
End charging.

Definition example_tracker : TrackerData unit :=
  mkTracker ∅ ∅ ∅ ExecutionCost_zero (mkCost 10 10 10 10 100) 0 CLARITY_MEMORY_LIMIT Epoch2_05 false.

Lemma charge_all_exact_witness :
  charge_all example_tracker [ExecutionCost_runtime 40; mkCost 3 1 0 0 50] =
    Ok (set_total_cost example_tracker (mkCost 3 1 0 0 90)) /\
  exists s' e, charge_all example_tracker [ExecutionCost_runtime 40; ExecutionCost_runtime 61] = Err (s', e).
Proof.
  assert (cost_wf (limit example_tracker)) as Hl by (unfold cost_wf, cost_within, u64_max; simpl; unfold u64_max; lia).
  assert (cost_within (total_cost example_tracker) (limit example_tracker)) as Ht by (unfold cost_within; simpl; lia).
  split.
  - destruct (charge_all_exact example_tracker [ExecutionCost_runtime 40; mkCost 3 1 0 0 50] Hl Ht) as [[_ H]|[H _]].
    + repeat constructor; simpl; unfold u64_max; lia.
    + exact H.
    + exfalso. apply H. unfold cost_within. simpl. lia.
  - destruct (charge_all_exact example_tracker [ExecutionCost_runtime 40; ExecutionCost_runtime 61] Hl Ht)
      as [[H _]|(_ & s' & e & H & _)].
    + repeat constructor; simpl; unfold u64_max; lia.
    + exfalso. unfold cost_within in H. simpl in H. lia.
    + by exists s', e.
Defined.

(** * Short circuits *)
(** A short-circuited contract call is not charged.  The trait says that the
    method charges the cost of the call to the tracker; the limited tracker
    computes that cost and drops it, so the total stays what it was. *)
Lemma short_circuit_uncharged {D : Digests} {K : Type}
    (eval_all : K -> string -> list Value -> bool -> StacksEpochId -> outcome VmError (option Value) * K)
    (display : VmError -> string) (data data' : TrackerData K) (contract : QualifiedContractIdentifier)
    (function : string) (input : list Z) (r : ClarityCostFunctionReference) (cost : ExecutionCost) :
  contract_call_circuits data !! (contract, function) = Some r ->
  tracker_compute_cost eval_all display data r input (tracker_epoch data) = Ok (data', cost) ->
  short_circuit_contract_call (CostTracker := limited_tracker eval_all display) (Limited data) contract function input =
    Ok (Limited data', true) /\ get_total (Limited data') = get_total (Limited data).
Proof.
  intros Hr Hc. simpl. rewrite Hr, Hc. split; [done|]. unfold tracker_compute_cost in Hc.
  destruct (cost_contracts data !! cr_contract_id r); [|done]. cbn [ok_or out_bind] in Hc.
  destruct (eval_all _ _ _ _ _) as [res k']. apply out_bind_Ok in Hc as (c & _ & Hc). by simplify_eq.
Qed.

(** A cost function that asks 1000 units of run time. *)
Definition thousand (k : unit) (f : string) (args : list Value) (mainnet : bool) (epoch : StacksEpochId)
  : outcome VmError (option Value) * unit :=
  (match TupleData_from_data [("runtime", VUInt 1000); ("write_length", VUInt 0); ("write_count", VUInt 0);
      ("read_count", VUInt 0); ("read_length", VUInt 0)] with
   | Ok d => Ok (Some (VTuple d))
   | _ => Ok None
   end, k).

Definition circuit_contract : QualifiedContractIdentifier := mkContractId (mkStandard x16 (repeat x01 20)) "target".
Definition circuit_tracker : TrackerData unit :=
  mkTracker ∅ {[circuit_contract := tt]} {[(circuit_contract, "f") := mkCostRef circuit_contract "g"]}
    ExecutionCost_zero (mkCost 10 10 10 10 100) 0 CLARITY_MEMORY_LIMIT Epoch2_05 false.

Lemma short_circuit_uncharged_witness :
  exists data', tracker_compute_cost (D:=mixing_digests) thousand (fun _ => "") circuit_tracker
      (mkCostRef circuit_contract "g") [1] Epoch2_05 = Ok (data', ExecutionCost_runtime 1000) /\
    get_total (Limited data') = ExecutionCost_zero.
Proof.
  assert (tracker_compute_cost (D:=mixing_digests) thousand (fun _ => "") circuit_tracker
    (mkCostRef circuit_contract "g") [1] Epoch2_05 = Ok (circuit_tracker, ExecutionCost_runtime 1000)) as Hc
    by reflexivity.
  exists circuit_tracker. split; [exact Hc|].
  exact (proj2 (short_circuit_uncharged (D:=mixing_digests) thousand (fun _ => "") circuit_tracker circuit_tracker
    circuit_contract "f" [1] (mkCostRef circuit_contract "g") (ExecutionCost_runtime 1000) ltac:(reflexivity) Hc)).
Defined.

(** * Logarithms *)
Lemma trailing_zeros_pow2 (fuel : nat) (n : Z) :
  0 < n < 2 ^ Z.of_nat fuel -> trailing_zeros_from fuel n = Z.log2 n <-> n = 2 ^ Z.log2 n.
Proof.
  revert n. induction fuel as [|fuel IH]; intros n Hn; [change (2 ^ Z.of_nat 0) with 1 in Hn; lia|].
  cbn [trailing_zeros_from]. destruct (Z.odd n) eqn:Ho.
  - split; intros H.
    + assert (n < 2 ^ Z.succ (Z.log2 n)) as Hlt by (apply Z.log2_spec; lia). rewrite <-H in Hlt |- *.
      change (2 ^ Z.succ 0) with 2 in Hlt. change (2 ^ 0) with 1. lia.
    + destruct (Z.eq_dec (Z.log2 n) 0) as [|Hz]; [done|]. pose proof (Z.log2_nonneg n).
      rewrite H, Z.odd_pow in Ho by lia. done.
  - assert (exists m, n = 2 * m) as [m ->] by (exists (Z.div2 n); pose proof (Z.div2_odd n) as Hd; rewrite Ho in Hd; simpl in Hd; lia).
    rewrite Z.shiftr_div_pow2, Z.mul_comm, Z.div_mul, Z.mul_comm by lia.
    rewrite Nat2Z.inj_succ, Z.pow_succ_r in Hn by lia. rewrite Z.log2_double by lia. pose proof (Z.log2_nonneg m).
    rewrite Z.pow_succ_r by lia. specialize (IH m ltac:(lia)). lia.
Qed.

(** [int_log2] is the logarithm rounded up; zero has none. *)
Lemma int_log2_spec (n : Z) :
  0 <= n <= u64_max -> int_log2 n = if n =? 0 then None else Some (Z.log2_up n).
Proof.
  intros Hn. unfold int_log2, leading_zeros. destruct (Z.eqb_spec n 0) as [->|Hne]; [done|].
  assert (0 <= Z.log2 n < 64) as Hl.
  { split; [apply Z.log2_nonneg|]. apply Z.log2_lt_pow2; [lia|]. unfold u64_max in Hn. lia. }
  replace (checked_sub u32_ty 63 (63 - Z.log2 n)) with (Some (Z.log2 n)).
  2:{ symmetry. apply checked_sub_Some. split; [lia|]. unfold_bounds. lia. }
  assert (trailing_zeros n = Z.log2 n <-> Z.log2 n = Z.log2_up n) as Hiff.
  { unfold trailing_zeros. rewrite trailing_zeros_pow2 by (unfold u64_max in Hn; lia).
    rewrite Z.log2_log2_up_exact by lia. split; [by eexists|]. intros [b ->].
    assert (0 <= b) by (destruct (Z.neg_nonneg_cases b) as [Hb|]; [rewrite (Z.pow_neg_r 2 b Hb) in Hne|]; lia).
    by rewrite Z.log2_pow2. }
  f_equal. destruct (Z.eqb_spec (trailing_zeros n) (Z.log2 n)) as [H|H]; [tauto|].
  pose proof (Z.le_log2_log2_up n). pose proof (Z.le_log2_up_succ_log2 n). lia.
Qed.
