(* ===== verification/Receipts.v ===== *)
(** Receipts: what is recorded of a processed transaction
    (src/chainstate/stacks/events.rs, and the constructors of
    src/chainstate/stacks/db/transactions.rs).

    [A] is the type of contract analyses. *)
From Stdlib Require Import ZArith Lia Strings.Byte Strings.String List Bool.
From stdpp Require Import base decidable list strings option.
From S2P Require Import Prelude Bytes Codec Representations Types Values Hashes Events Keys Costs Transaction Authorization.
Open Scope Z_scope.

Section receipts.
Context {K : LibSecp256k1} {A : Type}.

Inductive TransactionOrigin :=
| OriginStacks (tx : StacksTransaction)
| OriginBurn (txid : list byte).

Record StacksTransactionReceipt := mkReceipt {
  transaction : TransactionOrigin;
  events : list StacksTransactionEvent;
  post_condition_aborted : bool;
  result : Value;
  stx_burned : Z;
  contract_analysis : option A;
  execution_cost : ExecutionCost;
  microblock_header : option StacksMicroblockHeader;
  tx_index : Z
}.

Definition TransactionOrigin_txid {D : Digests} {Y : Layout} {E : Type} (self : TransactionOrigin) : outcome E (list byte) :=
  match self with OriginStacks tx => txid tx | OriginBurn txid => Ok txid end.

(** The events are numbered in place. *)
Definition set_events (self : StacksTransactionReceipt) (evs : list StacksTransactionEvent) : StacksTransactionReceipt :=
  mkReceipt (transaction self) evs (post_condition_aborted self) (result self) (stx_burned self) (contract_analysis self)
    (execution_cost self) (microblock_header self) (tx_index self).

Definition from_stx_transfer (tx : StacksTransaction) (events : list StacksTransactionEvent) (result : Value)
    (cost : ExecutionCost) : StacksTransactionReceipt :=
  mkReceipt (OriginStacks tx) events false result 0 None cost None 0.

Definition from_contract_call (tx : StacksTransaction) (events : list StacksTransactionEvent) (result : Value)
    (burned : Z) (cost : ExecutionCost) : StacksTransactionReceipt :=
  mkReceipt (OriginStacks tx) events false result burned None cost None 0.

Definition from_condition_aborted_contract_call (tx : StacksTransaction) (events : list StacksTransactionEvent)
    (result : Value) (burned : Z) (cost : ExecutionCost) : StacksTransactionReceipt :=
  mkReceipt (OriginStacks tx) events true result burned None cost None 0.

Definition from_smart_contract (tx : StacksTransaction) (events : list StacksTransactionEvent) (burned : Z)
    (analysis : A) (cost : ExecutionCost) : StacksTransactionReceipt :=
  mkReceipt (OriginStacks tx) events false Value_okay_true burned (Some analysis) cost None 0.

Definition from_condition_aborted_smart_contract (tx : StacksTransaction) (events : list StacksTransactionEvent)
    (burned : Z) (analysis : A) (cost : ExecutionCost) : StacksTransactionReceipt :=
  mkReceipt (OriginStacks tx) events true Value_okay_true burned (Some analysis) cost None 0.

Definition from_coinbase (tx : StacksTransaction) : StacksTransactionReceipt :=
  mkReceipt (OriginStacks tx) [] false Value_okay_true 0 None ExecutionCost_zero None 0.

Definition from_analysis_failure (tx : StacksTransaction) (analysis_cost : ExecutionCost) : StacksTransactionReceipt :=
  mkReceipt (OriginStacks tx) [] false Value_err_none 0 None analysis_cost None 0.

Definition is_coinbase_tx (self : StacksTransactionReceipt) : bool :=
  match transaction self with
  | OriginStacks tx => match tx_payload tx with Coinbase _ => true | _ => false end
  | _ => false
  end.
End receipts.
Arguments StacksTransactionReceipt {K} A.
Arguments mkReceipt {K A} _ _ _ _ _ _ _ _ _.
