(* ===== verification/Blocks.v ===== *)
(** Blocks: blocks and microblocks, their headers, wire format, static checks and
    signatures (src/chainstate/stacks/block.rs, with stacks-common/src/util/vrf.rs
    and types/chainstate.rs for the parts of a header).

    The point arithmetic of the curve is an interface, [Ed25519]. *)
From Stdlib Require Import ZArith Lia Strings.Byte Strings.String List Bool.
From stdpp Require Import base decidable list strings pretty.
From S2P Require Import Prelude Bytes Utf8 Codec Representations BTree Types Signatures Admission Values.
From S2P Require Import Serialization Hashes Merkle Keys ValueCodec AssetMap PostConditions Lexer Transaction TransactionRoundTrip.
From S2P Require Import Authorization ClarityState.
Open Scope Z_scope.

(** * Verifiable random functions *)
Class Ed25519 := {
  EdwardsPoint : Type;
  Ed25519Scalar : Type;
  compress : EdwardsPoint -> list byte;
  decompress : list byte -> option EdwardsPoint;
  is_small_order : EdwardsPoint -> bool;
  scalar_reduce : Ed25519Scalar -> Ed25519Scalar;
  scalar_to_bytes : Ed25519Scalar -> list byte;
  from_canonical_bytes : list byte -> option Ed25519Scalar
}.
Class Ed25519Laws (V : Ed25519) := {
  compress_length : forall p, length (compress p) = 32%nat;
  decompress_compress : forall p, decompress (compress p) = Some p;
  scalar_length : forall s, length (scalar_to_bytes s) = 32%nat;
  canonical_bytes : forall s, scalar_reduce s = s -> from_canonical_bytes (scalar_to_bytes s) = Some s
}.

Section vrf.
Context {V : Ed25519}.

Record VRFProof := mkProof {
  Gamma : EdwardsPoint;
  proof_c : Ed25519Scalar;
  proof_s : Ed25519Scalar
}.

Definition VRF_PROOF_ENCODED_SIZE : Z := 80.

(** The upper 16 bytes of [c] must be zeros. *)
Definition check_c (c : Ed25519Scalar) : bool :=
  forallb (fun b => bool_decide (b = x00)) (firstn 16 (skipn 16 (scalar_to_bytes (scalar_reduce c)))).

Inductive vrf_error := InvalidPublicKey | InvalidDataError.
Definition VRFProof_new (gamma : EdwardsPoint) (c s : Ed25519Scalar) : outcome vrf_error VRFProof :=
  if negb (check_c c) then Err InvalidDataError else Ok (mkProof gamma c s).

Definition VRFProof_from_slice (bytes : list byte) : option VRFProof :=
  if Nat.eqb (length bytes) 80 then
    match decompress (firstn 32 bytes) with
    | None => None
    | Some gamma =>
        if is_small_order gamma then None else
        let c_buf := firstn 16 (skipn 32 bytes) ++ repeat x00 16 in
        let s_buf := firstn 32 (skipn 48 bytes) in
        match from_canonical_bytes c_buf with
        | None => None
        | Some c =>
            match from_canonical_bytes s_buf with
            | None => None
            | Some s => Some (mkProof gamma c s)
            end
        end
    end
  else None.

Definition VRFProof_to_bytes {E : Type} (self : VRFProof) : outcome E (list byte) :=
  if negb (check_c (proof_c self)) then Panic else
  let c_bytes := scalar_to_bytes (scalar_reduce (proof_c self)) in
  Ok (compress (Gamma self) ++ firstn 16 c_bytes ++ scalar_to_bytes (proof_s self)).

Definition VRFProof_empty {E : Type} : outcome E VRFProof := expect_some (VRFProof_from_slice (repeat x01 80)).

Definition VRFProof_codec (size : Z) : Codec VRFProof := {|
  consensus_serialize self := VRFProof_to_bytes self;
  consensus_deserialize fd :=
    let? '(bytes, fd) := map_err ReadError (read_exact 80 fd) in
    let? res := ok_or (DeserializeError "Failed to parse VRF proof") (VRFProof_from_slice bytes) in
    Ok (res, fd);
  mem_size_of := size
|}.
End vrf.

(** * Headers *)
Record StacksWorkScore := mkWorkScore {
  work_burn : Z;
  work : Z
}.
Definition StacksWorkScore_initial : StacksWorkScore := mkWorkScore 0 1.
Definition StacksWorkScore_genesis : StacksWorkScore := mkWorkScore 0 0.

Definition EMPTY_MICROBLOCK_PARENT_HASH : list byte := repeat x00 32.
Definition BOOT_BLOCK_HASH : list byte := repeat xff 32.
Definition STACKS_BLOCK_VERSION : Z := 0.

Section blocks.
Context {V : Ed25519} {K : LibSecp256k1} {D : Digests} {DL : DigestLaws D} {Y : Layout}.

Definition StacksWorkScore_codec : Codec StacksWorkScore := {|
  consensus_serialize self :=
    let? burn := write_next u64_codec (work_burn self) in
    let? w := write_next u64_codec (work self) in
    Ok (burn ++ w);
  consensus_deserialize fd :=
    let? '(burn, fd) := read_next u64_codec fd in
    let? '(w, fd) := read_next u64_codec fd in
    Ok (mkWorkScore burn w, fd);
  mem_size_of := size_of TyWorkScore
|}.

Record StacksBlockHeader := mkBlockHeader {
  bh_version : Z;
  total_work : StacksWorkScore;
  proof : VRFProof;
  parent_block : list byte;
  parent_microblock : list byte;
  parent_microblock_sequence : Z;
  bh_tx_merkle_root : list byte;
  state_index_root : list byte;
  withdrawal_merkle_root : list byte;
  microblock_pubkey_hash : list byte;
  bh_miner_signatures : list (list byte)
}.

Definition block_header_serialize (self : StacksBlockHeader) (empty_sig : bool) : outcome codec_error (list byte) :=
  let? version := write_next u8_codec (bh_version self) in
  let? total_work := write_next StacksWorkScore_codec (total_work self) in
  let? proof := write_next (VRFProof_codec (size_of TyVRFProof)) (proof self) in
  let? parent_block := write_next (byte_array_codec 32) (parent_block self) in
  let? parent_microblock := write_next (byte_array_codec 32) (parent_microblock self) in
  let? parent_microblock_sequence := write_next u16_codec (parent_microblock_sequence self) in
  let? tx_merkle_root := write_next (byte_array_codec 32) (bh_tx_merkle_root self) in
  let? state_index_root := write_next (byte_array_codec 32) (state_index_root self) in
  let? withdrawal_merkle_root := write_next (byte_array_codec 32) (withdrawal_merkle_root self) in
  let? microblock_pubkey_hash := write_next (byte_array_codec 20) (microblock_pubkey_hash self) in
  let? sigs := write_next MessageSignatureList_codec (if empty_sig then [] else bh_miner_signatures self) in
  Ok (version ++ total_work ++ proof ++ parent_block ++ parent_microblock ++ parent_microblock_sequence
      ++ tx_merkle_root ++ state_index_root ++ withdrawal_merkle_root ++ microblock_pubkey_hash ++ sigs).

Definition StacksBlockHeader_codec : Codec StacksBlockHeader := {|
  consensus_serialize self := block_header_serialize self false;
  consensus_deserialize fd :=
    let? '(version, fd) := read_next u8_codec fd in
    let? '(total_work, fd) := read_next StacksWorkScore_codec fd in
    let? '(proof, fd) := read_next (VRFProof_codec (size_of TyVRFProof)) fd in
    let? '(parent_block, fd) := read_next (byte_array_codec 32) fd in
    let? '(parent_microblock, fd) := read_next (byte_array_codec 32) fd in
    let? '(parent_microblock_sequence, fd) := read_next u16_codec fd in
    let? '(tx_merkle_root, fd) := read_next (byte_array_codec 32) fd in
    let? '(state_index_root, fd) := read_next (byte_array_codec 32) fd in
    let? '(withdrawal_merkle_root, fd) := read_next (byte_array_codec 32) fd in
    let? '(pubkey_hash_buf, fd) := read_next (byte_array_codec 20) fd in
    let? '(miner_signatures, fd) := read_next MessageSignatureList_codec fd in
    Ok (mkBlockHeader version total_work proof parent_block parent_microblock parent_microblock_sequence
          tx_merkle_root state_index_root withdrawal_merkle_root pubkey_hash_buf miner_signatures, fd);
  mem_size_of := size_of TyBlockHeader
|}.

Definition BlockHeaderHash_from_serialized_header (buf : list byte) : list byte := Sha512Trunc256Sum_from_data buf.

Definition add_block_signature (self : StacksBlockHeader) (sig : list byte) : StacksBlockHeader :=
  mkBlockHeader (bh_version self) (total_work self) (proof self) (parent_block self) (parent_microblock self)
    (parent_microblock_sequence self) (bh_tx_merkle_root self) (state_index_root self) (withdrawal_merkle_root self)
    (microblock_pubkey_hash self) (bh_miner_signatures self ++ [sig]).
Definition block_header_sign (self : StacksBlockHeader) (privk : Secp256k1PrivateKey) : outcome net_error StacksBlockHeader :=
  let? bytes := expect (block_header_serialize self true) in
  let? sig := map_err SigningError (PrivateKey_sign privk (Sha512Trunc256Sum_from_data bytes)) in
  Ok (add_block_signature self sig).

Definition pubkey_hash (pubk : Secp256k1PublicKey) : list byte := Hash160_from_data (to_bytes_compressed pubk).

Definition genesis_block_header {E : Type} : outcome E StacksBlockHeader :=
  let? proof := VRFProof_empty in
  Ok (mkBlockHeader STACKS_BLOCK_VERSION StacksWorkScore_genesis proof BOOT_BLOCK_HASH EMPTY_MICROBLOCK_PARENT_HASH 0
        (repeat x00 32) (repeat x00 32) (repeat x00 32) (repeat x00 20) []).

Definition header_is_first_mined (self : StacksBlockHeader) : bool := bool_decide (parent_block self = FIRST_STACKS_BLOCK_HASH).

Definition header_block_hash {E : Type} (self : StacksBlockHeader) : outcome E (list byte) :=
  if work (total_work self) =? 0 then Ok FIRST_STACKS_BLOCK_HASH else
  let? buf := expect (consensus_serialize StacksBlockHeader_codec self) in
  Ok (BlockHeaderHash_from_serialized_header buf).

Definition make_index_block_hash (consensus_hash block_hash : list byte) : list byte := StacksBlockId_new consensus_hash block_hash.
Definition header_index_block_hash {E : Type} (self : StacksBlockHeader) (consensus_hash : list byte) : outcome E (list byte) :=
  let? block_hash := header_block_hash self in
  Ok (make_index_block_hash consensus_hash block_hash).

Definition header_has_microblock_parent (self : StacksBlockHeader) : bool :=
  negb (bool_decide (parent_microblock self = EMPTY_MICROBLOCK_PARENT_HASH)) || negb (parent_microblock_sequence self =? 0).

(** ** Microblock headers *)
Definition microblock_header_hash {E : Type} (self : StacksMicroblockHeader) : outcome E (list byte) :=
  let? bytes := expect (consensus_serialize StacksMicroblockHeader_codec self) in
  Ok (BlockHeaderHash_from_serialized_header bytes).

Definition header_from_parent {E : Type} (parent_header : StacksBlockHeader)
    (parent_microblock_header : option StacksMicroblockHeader) (total_work : StacksWorkScore) (proof : VRFProof)
    (tx_merkle_root state_index_root withdrawal_merkle_root microblock_pubkey_hash : list byte)
    (miner_signatures : list (list byte)) : outcome E StacksBlockHeader :=
  let? '(parent_microblock, parent_microblock_sequence) :=
    match parent_microblock_header with
    | Some header => let? h := microblock_header_hash header in Ok (h, mh_sequence header)
    | None => Ok (EMPTY_MICROBLOCK_PARENT_HASH, 0)
    end in
  let? parent_block := header_block_hash parent_header in
  Ok (mkBlockHeader STACKS_BLOCK_VERSION total_work proof parent_block parent_microblock parent_microblock_sequence
        tx_merkle_root state_index_root withdrawal_merkle_root microblock_pubkey_hash miner_signatures).
Definition header_from_parent_empty {E : Type} (parent_header : StacksBlockHeader)
    (parent_microblock_header : option StacksMicroblockHeader) (work_delta : StacksWorkScore) (proof : VRFProof)
    (microblock_pubkey_hash : list byte) (miner_signatures : list (list byte)) : outcome E StacksBlockHeader :=
  header_from_parent parent_header parent_microblock_header work_delta proof (repeat x00 32) (repeat x00 32) (repeat x00 32)
    microblock_pubkey_hash miner_signatures.

Definition set_microblock_signatures (self : StacksMicroblockHeader) (sigs : list (list byte)) : StacksMicroblockHeader :=
  mkMicroblockHeader (mh_version self) (mh_sequence self) (mh_prev_block self) (mh_tx_merkle_root self) sigs.
Definition microblock_header_sign (self : StacksMicroblockHeader) (privk : Secp256k1PrivateKey)
  : outcome net_error StacksMicroblockHeader :=
  let self := set_microblock_signatures self [] in
  let? bytes := expect (microblock_header_serialize self true) in
  let? sig := map_err SigningError (PrivateKey_sign privk (Sha512_256_digest bytes)) in
  Ok (set_microblock_signatures self (mh_miner_signatures self ++ [sig])).

Definition check_recover_pubkey (self : StacksMicroblockHeader) : outcome net_error (list (list byte)) :=
  let? bytes := expect (microblock_header_serialize self true) in
  try_map (fun signature =>
    let? pubk := map_err (fun _ => VerifyingError "Failed to verify signature: failed to recover public key")
      (recover_to_pubkey (Sha512_256_digest bytes) signature) in
    Ok (pubkey_hash (set_compressed pubk true))) (mh_miner_signatures self).

(** [{:?}] of a vector of hashes *)
Definition debug_hashes (hashes : list (list byte)) : string :=
  "[" ++ String.concat ", " (map to_hex hashes) ++ "]".
Definition microblock_header_verify (self : StacksMicroblockHeader) (pubk_hash : list byte) : outcome net_error unit :=
  let? pubkh_vec := check_recover_pubkey self in
  if existsb (fun pubkh => bool_decide (pubkh = pubk_hash)) pubkh_vec then Ok tt
  else Err (VerifyingError ("Failed to verify miner_signatures: public key did not recover to expected hash "
                            ++ debug_hashes pubkh_vec)).

Definition header_first_unsigned (parent_block_hash tx_merkle_root : list byte) : StacksMicroblockHeader :=
  mkMicroblockHeader 0 0 parent_block_hash tx_merkle_root [].
Definition first_empty_unsigned (parent_block_hash : list byte) : StacksMicroblockHeader :=
  header_first_unsigned parent_block_hash (repeat x00 32).
Definition header_from_parent_unsigned {E : Type} (parent_header : StacksMicroblockHeader) (tx_merkle_root : list byte)
  : outcome E (option StacksMicroblockHeader) :=
  match checked_add u16_ty (mh_sequence parent_header) 1 with
  | None => Ok None
  | Some next_sequence =>
      let? prev_block := microblock_header_hash parent_header in
      Ok (Some (mkMicroblockHeader 0 next_sequence prev_block tx_merkle_root []))
  end.

(** * Static checks of transactions *)
(** The txids seen so far are the keys of the map. *)
Fixpoint unique_from {E : Type} (txids : list (list byte)) (txs : list StacksTransaction) : outcome E bool :=
  match txs with
  | [] => Ok true
  | tx :: txs =>
      let? id := txid tx in
      if bool_decide (id ∈ txids) then Ok false else unique_from (id :: txids) txs
  end.
Definition validate_transactions_unique {E : Type} (txs : list StacksTransaction) : outcome E bool := unique_from [] txs.

Definition tx_is_mainnet (self : StacksTransaction) : bool := match tx_version self with Mainnet => true | _ => false end.
Definition validate_transactions_network (txs : list StacksTransaction) (mainnet : bool) : bool :=
  forallb (fun tx => negb (mainnet && negb (tx_is_mainnet tx)) && negb (negb mainnet && tx_is_mainnet tx)) txs.
Definition validate_transactions_chain_id (txs : list StacksTransaction) (chain_id : Z) : bool :=
  forallb (fun tx => tx_chain_id tx =? chain_id) txs.
Definition validate_anchor_mode (txs : list StacksTransaction) (anchored : bool) : bool :=
  forallb (fun tx => match anchored, tx_anchor_mode tx with
                     | true, OffChainOnly => false
                     | false, OnChainOnly => false
                     | _, _ => true
                     end) txs.

Definition is_coinbase (tx : StacksTransaction) : bool := match tx_payload tx with Coinbase _ => true | _ => false end.
(** The loop over the transactions from index [i] on; [None] is an early return. *)
Fixpoint scan_coinbase (check_present found_coinbase : bool) (coinbase_index i : nat) (txs : list StacksTransaction)
  : option (bool * nat) :=
  match txs with
  | [] => Some (found_coinbase, coinbase_index)
  | tx :: txs =>
      if is_coinbase tx then
        if negb check_present then None
        else if found_coinbase then None
        else if negb (bool_decide (tx_anchor_mode tx = OnChainOnly)) then None
        else scan_coinbase check_present true i (S i) txs
      else scan_coinbase check_present found_coinbase coinbase_index (S i) txs
  end.
Definition validate_coinbase (txs : list StacksTransaction) (check_present : bool) : bool :=
  match scan_coinbase check_present false 0 0 txs with
  | None => false
  | Some (found_coinbase, coinbase_index) =>
      if negb (Nat.eqb coinbase_index 0) then false else
      match check_present, found_coinbase with
      | true, true => true
      | false, false => true
      | _, _ => false
      end
  end.

Definition tx_merkle_root_of {E : Type} (txs : list StacksTransaction) : outcome E (list byte) :=
  let? txid_vecs := try_map txid txs in
  let? merkle_tree := expect_some (MerkleTree_new (H:=Sha512Trunc256Sum) txid_vecs) in
  Ok (sum_bytes (root merkle_tree)).

(** * Blocks *)
Record StacksBlock := mkBlock {
  block_header : StacksBlockHeader;
  block_txs : list StacksTransaction
}.
Record StacksMicroblock := mkMicroblock {
  mb_header : StacksMicroblockHeader;
  mb_txs : list StacksTransaction
}.

(** The loop that counts coinbases. *)
Definition multiple_coinbases (txs : list StacksTransaction) : bool := Nat.ltb 1 (length (List.filter is_coinbase txs)).

Definition StacksBlock_codec : Codec StacksBlock := {|
  consensus_serialize self :=
    let? header := write_next StacksBlockHeader_codec (block_header self) in
    let? txs := write_next (vec_codec StacksTransaction_codec) (block_txs self) in
    Ok (header ++ txs);
  consensus_deserialize fd :=
    let? '(header, fd) := read_next StacksBlockHeader_codec fd in
    let? '(txs, fd) := read_bounded MAX_MESSAGE_LEN (read_next (vec_codec StacksTransaction_codec)) fd in
    match txs with [] => Err (DeserializeError "Invalid block: zero transactions") | _ =>
    if negb (validate_anchor_mode txs true) then Err (DeserializeError "Invalid block: Found offchain-only transaction") else
    let? unique := validate_transactions_unique txs in
    if negb unique then Err (DeserializeError "Invalid block: found duplicate transaction") else
    let? tx_merkle_root := tx_merkle_root_of txs in
    if negb (bool_decide (tx_merkle_root = bh_tx_merkle_root header)) then
      Err (DeserializeError "Invalid block: tx Merkle root mismatch") else
    if multiple_coinbases txs then Err (DeserializeError "Invalid block: multiple coinbases found") else
    if negb (validate_coinbase txs true) then
      Err (DeserializeError "Invalid block: no coinbase found at first transaction slot") else
    Ok (mkBlock header txs, fd)
    end;
  mem_size_of := size_of TyBlock
|}.

Definition genesis_block {E : Type} : outcome E StacksBlock :=
  let? header := genesis_block_header in
  Ok (mkBlock header []).
Definition block_is_first_mined (self : StacksBlock) : bool := header_is_first_mined (block_header self).
Definition block_hash {E : Type} (self : StacksBlock) : outcome E (list byte) := header_block_hash (block_header self).
Definition block_index_block_hash {E : Type} (self : StacksBlock) (consensus_hash : list byte) : outcome E (list byte) :=
  header_index_block_hash (block_header self) consensus_hash.
Definition get_coinbase_tx (self : StacksBlock) : option StacksTransaction :=
  match block_txs self with
  | [] => None
  | tx :: _ => if is_coinbase tx then Some tx else None
  end.
Definition block_has_microblock_parent (self : StacksBlock) : bool := header_has_microblock_parent (block_header self).

(** The sequence of early returns. *)
Definition validate_transactions_static {E : Type} (txs : list StacksTransaction) (mainnet : bool) (chain_id : Z)
    (anchored : bool) : outcome E bool :=
  let? unique := validate_transactions_unique txs in
  Ok (unique && validate_transactions_network txs mainnet && validate_transactions_chain_id txs chain_id
      && validate_anchor_mode txs anchored && validate_coinbase txs anchored).
Definition block_validate_static {E : Type} (self : StacksBlock) (mainnet : bool) (chain_id : Z) : outcome E bool :=
  validate_transactions_static (block_txs self) mainnet chain_id true.
Definition microblock_validate_static {E : Type} (self : StacksMicroblock) (mainnet : bool) (chain_id : Z) : outcome E bool :=
  validate_transactions_static (mb_txs self) mainnet chain_id false.

(** * Microblocks *)
Definition StacksMicroblock_codec : Codec StacksMicroblock := {|
  consensus_serialize self :=
    let? header := write_next StacksMicroblockHeader_codec (mb_header self) in
    let? txs := write_next (vec_codec StacksTransaction_codec) (mb_txs self) in
    Ok (header ++ txs);
  consensus_deserialize fd :=
    let? '(header, fd) := read_next StacksMicroblockHeader_codec fd in
    let? '(txs, fd) := read_bounded MAX_MESSAGE_LEN (read_next (vec_codec StacksTransaction_codec)) fd in
    match txs with [] => Err (DeserializeError "Invalid microblock: zero transactions") | _ =>
    let? unique := validate_transactions_unique txs in
    if negb unique then Err (DeserializeError "Invalid microblock: duplicate transaction") else
    if negb (validate_anchor_mode txs false) then
      Err (DeserializeError "Invalid microblock: found on-chain-only transaction") else
    let? tx_merkle_root := tx_merkle_root_of txs in
    if negb (bool_decide (tx_merkle_root = mh_tx_merkle_root header)) then
      Err (DeserializeError "Invalid microblock: tx Merkle root mismatch") else
    if negb (validate_coinbase txs false) then
      Err (DeserializeError "Invalid microblock: found coinbase transaction") else
    Ok (mkMicroblock header txs, fd)
    end;
  mem_size_of := size_of TyMicroblock
|}.

Definition microblock_first_unsigned {E : Type} (parent_block_hash : list byte) (txs : list StacksTransaction)
  : outcome E StacksMicroblock :=
  let? tx_merkle_root := tx_merkle_root_of txs in
  Ok (mkMicroblock (header_first_unsigned parent_block_hash tx_merkle_root) txs).
Definition microblock_from_parent_unsigned {E : Type} (parent_header : StacksMicroblockHeader) (txs : list StacksTransaction)
  : outcome E (option StacksMicroblock) :=
  let? tx_merkle_root := tx_merkle_root_of txs in
  let? header := header_from_parent_unsigned parent_header tx_merkle_root in
  match header with
  | Some h => Ok (Some (mkMicroblock h txs))
  | None => Ok None
  end.
Definition microblock_sign (self : StacksMicroblock) (privk : Secp256k1PrivateKey) : outcome net_error StacksMicroblock :=
  let? header := microblock_header_sign (mb_header self) privk in
  Ok (mkMicroblock header (mb_txs self)).
Definition microblock_verify (self : StacksMicroblock) (pubk_hash : list byte) : outcome net_error unit :=
  microblock_header_verify (mb_header self) pubk_hash.
Definition microblock_hash {E : Type} (self : StacksMicroblock) : outcome E (list byte) := microblock_header_hash (mb_header self).
End blocks.
