(* ===== verification/BlockRoundTrip.v ===== *)
(** BlockRoundTrip: what the readers of blocks and microblocks accept, that
    well-formed ones are read back, and that signed microblocks verify. *)
From Stdlib Require Import ZArith Lia Strings.Byte Strings.String List Bool.
From stdpp Require Import base decidable sets list strings.
From S2P Require Import Prelude Bytes Utf8 Codec Representations BTree Types Signatures Admission Values.
From S2P Require Import Serialization Hashes Merkle Keys ValueCodec AssetMap PostConditions Lexer Transaction TransactionRoundTrip.
From S2P Require Import Authorization ClarityState Blocks.
Open Scope Z_scope.

Section checks.
Context {V : Ed25519} {K : LibSecp256k1} {D : Digests} {DL : DigestLaws D} {Y : Layout}.
Implicit Types (tx : StacksTransaction) (txs : list StacksTransaction).

(** * The static checks *)
Lemma unique_iff {E : Type} txs (seen : list (list byte)) :
  unique_from (E:=E) seen txs = Ok true <->
  exists ids, try_map (txid (E:=E)) txs = Ok ids /\ NoDup ids /\ Forall (fun id => id ∉ seen) ids.
Proof.
  revert seen. induction txs as [|tx txs IH]; intros seen; cbn [unique_from try_map].
  { split; [|done]. intros _. exists []. split; [done|]. split; constructor. }
  destruct (txid tx) as [id|e|]; cbn [out_bind]; [|by split; [|intros (ids & ? & _)]..].
  case_bool_decide as Hin.
  { split; [done|]. intros (ids & Hids & _ & Hall). out_inv. simplify_eq. by apply Forall_cons in Hall as [? _]. }
  rewrite IH. split.
  - intros (ids & -> & Hnd & Hall). exists (id :: ids). cbn [out_bind]. split; [done|]. split.
    + constructor; [|done]. intros Hi. rewrite List.Forall_forall in Hall. apply list_elem_of_In in Hi. specialize (Hall _ Hi). set_solver.
    + constructor; [done|]. eapply Forall_impl; [exact Hall|]. set_solver.
  - intros (ids & Hids & Hnd & Hall). out_inv. simplify_eq. apply NoDup_cons in Hnd as [Hni Hnd]. apply Forall_cons in Hall as [_ Hall].
    exists a. split; [done|]. split; [done|]. rewrite List.Forall_forall in *. intros x Hx. specialize (Hall x Hx).
    apply list_elem_of_In in Hx. set_solver.
Qed.

(** What the sorting of transactions into kinds of blocks means. *)
Definition anchor_allowed (anchored : bool) tx : Prop :=
  tx_anchor_mode tx <> if anchored then OffChainOnly else OnChainOnly.
Lemma anchor_iff txs anchored : validate_anchor_mode txs anchored = true <-> Forall (anchor_allowed anchored) txs.
Proof.
  unfold validate_anchor_mode, anchor_allowed. rewrite forallb_forall, List.Forall_forall.
  split; intros Hx x Hin; specialize (Hx x Hin); by destruct anchored, (tx_anchor_mode x).
Qed.

Definition no_coinbase txs : Prop := Forall (fun tx => is_coinbase tx = false) txs.
Definition coinbase_first txs : Prop :=
  match txs with
  | [] => False
  | tx :: txs => is_coinbase tx = true /\ tx_anchor_mode tx = OnChainOnly /\ no_coinbase txs
  end.
Lemma scan_none txs p f ci i : no_coinbase txs -> scan_coinbase p f ci i txs = Some (f, ci).
Proof. intros Hn. revert i. induction Hn as [|tx txs Htx _ IH]; intros i; [done|]. cbn [scan_coinbase]. by rewrite Htx. Qed.
Lemma scan_only txs ci i r : scan_coinbase true true ci i txs = Some r -> no_coinbase txs.
Proof.
  revert i. induction txs as [|tx txs IH]; intros i Hs; [constructor|]. cbn [scan_coinbase] in Hs.
  destruct (is_coinbase tx) eqn:Ec; [done|]. constructor; [done|]. by eapply IH.
Qed.
Lemma scan_later txs i ci : (0 < i)%nat -> scan_coinbase true false 0 i txs = Some (true, ci) -> (0 < ci)%nat.
Proof.
  revert i. induction txs as [|tx txs IH]; intros i Hi Hs; [done|]. cbn [scan_coinbase negb] in Hs.
  destruct (is_coinbase tx); [|eapply IH; [|exact Hs]; lia]. destruct (negb _); [done|].
  pose proof (scan_only _ _ _ _ Hs) as Hn. rewrite (scan_none _ _ _ _ _ Hn) in Hs. by simplify_eq.
Qed.
Lemma coinbase_iff txs : validate_coinbase txs true = true <-> coinbase_first txs.
Proof.
  unfold validate_coinbase, coinbase_first. destruct txs as [|tx txs]; [done|]. cbn [scan_coinbase negb].
  destruct (is_coinbase tx).
  - split.
    + intros Hv. destruct (bool_decide (tx_anchor_mode tx = OnChainOnly)) eqn:Ea; cbn [negb] in Hv; [|done].
      apply bool_decide_eq_true in Ea. destruct (scan_coinbase _ _ _ _ _) as [r|] eqn:Es; [|done]. eauto using scan_only.
    + intros (_ & Ha & Hn). rewrite bool_decide_true by done. cbn [negb]. by rewrite scan_none.
  - split; [|by intros [? _]]. intros Hv. destruct (scan_coinbase _ _ _ _ _) as [[[|] ci]|] eqn:Es; [| |done].
    + apply scan_later in Es; [|lia]. by destruct ci; [lia|].
    + by destruct (negb _).
Qed.
Lemma no_coinbase_iff txs : validate_coinbase txs false = true <-> no_coinbase txs.
Proof.
  unfold validate_coinbase. split; [|intros Hn; by rewrite scan_none].
  intros Hv. destruct (scan_coinbase _ _ _ _ _) as [r|] eqn:Es; [clear Hv|done]. revert Es. generalize 0%nat at 2.
  induction txs as [|tx txs IH]; intros i Hs; [constructor|]. cbn [scan_coinbase negb] in Hs.
  destruct (is_coinbase tx) eqn:Ec; [done|]. constructor; [done|]. by eapply IH.
Qed.
Lemma coinbase_single txs : coinbase_first txs -> multiple_coinbases txs = false.
Proof.
  destruct txs as [|tx txs]; [done|]. intros (Hc & _ & Hn). unfold multiple_coinbases. cbn [List.filter]. rewrite Hc.
  assert (List.filter is_coinbase txs = []) as ->; [|done]. induction Hn as [|x l Hx _ IH]; [done|]. cbn. by rewrite Hx.
Qed.

(** * Valid blocks *)
(** The transactions of a block or of a microblock, with the root its header claims. *)
Definition transactions_valid (anchored : bool) (claimed : list byte) txs : Prop :=
  txs <> [] /\ Forall (anchor_allowed anchored) txs /\
  (exists ids tree, try_map (txid (E:=codec_error)) txs = Ok ids /\ NoDup ids /\
     MerkleTree_new (H:=Sha512Trunc256Sum) ids = Some tree /\ claimed = sum_bytes (root tree)) /\
  if anchored then coinbase_first txs else no_coinbase txs.

Lemma root_of_ids txs ids tree :
  try_map (txid (E:=codec_error)) txs = Ok ids -> MerkleTree_new (H:=Sha512Trunc256Sum) ids = Some tree ->
  tx_merkle_root_of (E:=codec_error) txs = Ok (sum_bytes (root tree)).
Proof. intros Hids Ht. unfold tx_merkle_root_of. by rewrite Hids; cbn [out_bind]; rewrite Ht. Qed.

Lemma valid_iff anchored claimed txs :
  transactions_valid anchored claimed txs <->
  txs <> [] /\ validate_anchor_mode txs anchored = true /\ validate_transactions_unique (E:=codec_error) txs = Ok true /\
  tx_merkle_root_of (E:=codec_error) txs = Ok claimed /\ validate_coinbase txs anchored = true.
Proof.
  unfold transactions_valid, validate_transactions_unique. rewrite anchor_iff, unique_iff.
  assert ((if anchored then coinbase_first txs else no_coinbase txs) <-> validate_coinbase txs anchored = true) as ->
    by (destruct anchored; [by rewrite coinbase_iff|by rewrite no_coinbase_iff]).
  split.
  - intros (H1 & H2 & (ids & tree & Hids & Hnd & Ht & ->) & H4). do 2 (split; [done|]). split; [|split; [by eapply root_of_ids|done]].
    exists ids. split; [done|]. split; [done|]. apply List.Forall_forall. intros x _. apply not_elem_of_nil.
  - intros (H1 & H2 & (ids & Hids & Hnd & _) & H3 & H4). do 2 (split; [done|]). split; [|done].
    unfold tx_merkle_root_of in H3. rewrite Hids in H3. cbn [out_bind] in H3.
    destruct (MerkleTree_new ids) as [tree|] eqn:Et; [|done]. cbn in H3. simplify_eq. by exists ids, tree.
Qed.

Lemma block_read_valid (bs rest : list byte) (b : StacksBlock) :
  consensus_deserialize StacksBlock_codec bs = Ok (b, rest) ->
  transactions_valid true (bh_tx_merkle_root (block_header b)) (block_txs b).
Proof.
  intros Hr. cbn [consensus_deserialize StacksBlock_codec] in Hr. apply out_bind_Ok in Hr as ([h fd1] & _ & Hr).
  apply out_bind_Ok in Hr as ([txs fd2] & _ & Hr). cbv beta iota in Hr. apply valid_iff. destruct txs as [|tx txs]; [done|].
  destruct (validate_anchor_mode _ _) eqn:Ea; cbn [negb] in Hr; [|done]. apply out_bind_Ok in Hr as ([|] & Hu & Hr); [|done].
  apply out_bind_Ok in Hr as (r & Hroot & Hr). cbn [negb] in Hr. case_bool_decide as Heq; cbn [negb] in Hr; [|done].
  destruct (multiple_coinbases _); [done|]. destruct (validate_coinbase _ _) eqn:Ec; cbn [negb] in Hr; [|done].
  simplify_eq. by split_and!.
Qed.
Lemma microblock_read_valid (bs rest : list byte) (b : StacksMicroblock) :
  consensus_deserialize StacksMicroblock_codec bs = Ok (b, rest) ->
  transactions_valid false (mh_tx_merkle_root (mb_header b)) (mb_txs b).
Proof.
  intros Hr. cbn [consensus_deserialize StacksMicroblock_codec] in Hr. apply out_bind_Ok in Hr as ([h fd1] & _ & Hr).
  apply out_bind_Ok in Hr as ([txs fd2] & _ & Hr). cbv beta iota in Hr. apply valid_iff. destruct txs as [|tx txs]; [done|].
  apply out_bind_Ok in Hr as ([|] & Hu & Hr); [|done]. cbn [negb] in Hr. destruct (validate_anchor_mode _ _) eqn:Ea; cbn [negb] in Hr; [|done].
  apply out_bind_Ok in Hr as (r & Hroot & Hr). case_bool_decide as Heq; cbn [negb] in Hr; [|done].
  destruct (validate_coinbase _ _) eqn:Ec; cbn [negb] in Hr; [|done]. simplify_eq. by split_and!.
Qed.
End checks.

(** * Round trips *)
Section roundtrip.
Context {V : Ed25519} {VL : Ed25519Laws V} {K : LibSecp256k1} {L : Secp256k1Laws K} {D : Digests} {DL : DigestLaws D} {Y : Layout}.

(** A proof as the constructor and the reader make them. *)
Definition proof_ok (p : VRFProof) : Prop :=
  is_small_order (Gamma p) = false /\ check_c (proof_c p) = true /\ scalar_reduce (proof_c p) = proof_c p /\
  scalar_reduce (proof_s p) = proof_s p.

Lemma check_c_bytes (c : Ed25519Scalar) :
  scalar_reduce c = c -> check_c c = true -> scalar_to_bytes c = firstn 16 (scalar_to_bytes c) ++ repeat x00 16.
Proof using VL.
  intros Hc. unfold check_c. rewrite Hc, forallb_forall. intros Hz. rewrite <-(firstn_skipn 16 (scalar_to_bytes c)) at 1. f_equal.
  assert (length (skipn 16 (scalar_to_bytes c)) = 16%nat) as Hl by (rewrite length_skipn, scalar_length; lia).
  rewrite firstn_all2 in Hz by lia. etrans; [apply (Forall_eq_repeat (x:=x00))|by rewrite Hl]. apply List.Forall_forall. intros x Hx.
  specialize (Hz x Hx). symmetry. by apply bool_decide_eq_true in Hz.
Qed.
Lemma vrf_proof_codec_ok (size : Z) : codec_ok proof_ok (VRFProof_codec size).
Proof using VL.
  apply codec_ok_of_bytes. intros [g c s] (Hg & Hc & Hrc & Hrs). cbn [Gamma proof_c proof_s] in *.
  cbn [consensus_serialize consensus_deserialize VRFProof_codec]. unfold VRFProof_to_bytes. cbn [Gamma proof_c proof_s].
  rewrite Hc, Hrc. cbn [negb]. eexists. split; [done|]. intros rest.
  pose proof (compress_length g) as L1. pose proof (scalar_length c) as L2. pose proof (scalar_length s) as L3.
  set (bs := compress g ++ firstn 16 (scalar_to_bytes c) ++ scalar_to_bytes s).
  assert (length bs = 80%nat) as Hlen by (subst bs; rewrite !length_app, length_firstn; lia).
  rewrite (read_exact_app' 80) by done. cbn [map_err out_bind]. unfold VRFProof_from_slice. rewrite Hlen. cbn [Nat.eqb].
  assert (firstn 32 bs = compress g) as -> by (subst bs; rewrite firstn_app, firstn_all2, L1 by lia; cbn; by rewrite app_nil_r).
  assert (skipn 32 bs = firstn 16 (scalar_to_bytes c) ++ scalar_to_bytes s) as H32
    by (subst bs; rewrite skipn_app, skipn_all2, L1 by lia; done).
  assert (length (firstn 16 (scalar_to_bytes c)) = 16%nat) as L16 by (rewrite length_firstn; lia).
  assert (skipn 48 bs = scalar_to_bytes s) as H48.
  { change 48%nat with (16 + 32)%nat. rewrite <-skipn_skipn, H32, skipn_app, skipn_all2, L16 by lia. done. }
  rewrite H32, H48, decompress_compress, Hg, firstn_app, L16, firstn_all2 by lia. cbn [firstn Nat.sub]. rewrite app_nil_r.
  rewrite <-(check_c_bytes c Hrc Hc), (canonical_bytes c Hrc), (firstn_all2 (scalar_to_bytes s)), (canonical_bytes s Hrs) by lia. done.
Qed.

Lemma work_score_codec_ok :
  codec_ok (fun w => 0 <= work_burn w <= u64_max /\ 0 <= work w <= u64_max) StacksWorkScore_codec.
Proof.
  apply codec_ok_of_bytes. intros w [Hb Hw]. field_bytes u64_ok (work_burn w). field_bytes u64_ok (work w).
  cbn [consensus_serialize consensus_deserialize StacksWorkScore_codec]. read_fields. by destruct w.
Qed.

Definition block_header_ok (h : StacksBlockHeader) : Prop :=
  0 <= bh_version h < 256 /\ 0 <= work_burn (total_work h) <= u64_max /\ 0 <= work (total_work h) <= u64_max /\
  proof_ok (proof h) /\ length (parent_block h) = 32%nat /\ length (parent_microblock h) = 32%nat /\
  0 <= parent_microblock_sequence h <= u16_max /\ length (bh_tx_merkle_root h) = 32%nat /\
  length (state_index_root h) = 32%nat /\ length (withdrawal_merkle_root h) = 32%nat /\
  length (microblock_pubkey_hash h) = 20%nat /\ Forall signature_parses (bh_miner_signatures h) /\
  vec_fits MessageSignature_codec (bh_miner_signatures h).
Lemma block_header_codec_ok : codec_ok block_header_ok StacksBlockHeader_codec.
Proof using VL.
  apply codec_ok_of_bytes. intros h (H1 & H2 & H3 & H4 & H5 & H6 & H7 & H8 & H9 & H10 & H11 & H12 & H13).
  field_bytes u8_ok (bh_version h). field_bytes work_score_codec_ok (total_work h).
  field_bytes (vrf_proof_codec_ok (size_of TyVRFProof)) (proof h). field_bytes (byte_array_codec_ok 32) (parent_block h).
  field_bytes (byte_array_codec_ok 32) (parent_microblock h). field_bytes u16_ok (parent_microblock_sequence h).
  field_bytes (byte_array_codec_ok 32) (bh_tx_merkle_root h). field_bytes (byte_array_codec_ok 32) (state_index_root h).
  field_bytes (byte_array_codec_ok 32) (withdrawal_merkle_root h). field_bytes (byte_array_codec_ok 20) (microblock_pubkey_hash h).
  field_bytes signatures_ok (bh_miner_signatures h).
  cbn [consensus_serialize consensus_deserialize StacksBlockHeader_codec]. unfold block_header_serialize. read_fields. by destruct h.
Qed.

(** Transactions that fit into a block on the wire. *)
Definition transactions_fit (txs : list StacksTransaction) : Prop :=
  Forall transaction_ok txs /\ vec_fits StacksTransaction_codec txs /\
  encoded_within MAX_MESSAGE_LEN (vec_codec StacksTransaction_codec) txs.
Definition block_ok (b : StacksBlock) : Prop :=
  block_header_ok (block_header b) /\ transactions_fit (block_txs b) /\
  transactions_valid true (bh_tx_merkle_root (block_header b)) (block_txs b).
Definition microblock_ok (b : StacksMicroblock) : Prop :=
  microblock_header_ok (mb_header b) /\ transactions_fit (mb_txs b) /\
  transactions_valid false (mh_tx_merkle_root (mb_header b)) (mb_txs b).

Lemma transactions_bytes (txs : list StacksTransaction) :
  transactions_fit txs ->
  exists bs, consensus_serialize (vec_codec StacksTransaction_codec) txs = Ok bs /\
    forall rest, read_bounded MAX_MESSAGE_LEN (read_next (vec_codec StacksTransaction_codec)) (bs ++ rest) = Ok (txs, rest).
Proof using L.
  intros (Ht & Hfit & Hlen). destruct (codec_bytes _ _ txs (vec_codec_ok _ _ transaction_codec_ok) (conj Ht Hfit)) as (bs & Hw & Hr).
  exists bs. split; [done|]. intros rest. apply read_bounded_ok; [intros r; unfold read_next; by rewrite Hr|by apply Hlen].
Qed.

Lemma block_codec_ok : codec_ok block_ok StacksBlock_codec.
Proof using VL L.
  apply codec_ok_of_bytes. intros [h txs] (Hh & Ht & Hv). cbn [block_header block_txs] in *.
  destruct (codec_bytes _ _ h block_header_codec_ok Hh) as (hb & Hwh & Hrh). destruct (transactions_bytes txs Ht) as (tb & Hwt & Hrt).
  cbn [consensus_serialize consensus_deserialize StacksBlock_codec block_header block_txs]. unfold write_next. rewrite Hwh, Hwt.
  cbn [out_bind]. eexists. split; [done|]. intros rest. unfold read_next at 1. rewrite <-app_assoc, Hrh. cbn [out_bind]. rewrite Hrt.
  cbn [out_bind]. pose proof Hv as (Hne & _ & _ & Hc). apply valid_iff in Hv as (_ & -> & -> & Hroot & ->). destruct txs as [|tx txs]; [done|].
  cbn [negb out_bind]. rewrite Hroot. cbn [out_bind]. rewrite bool_decide_true, (coinbase_single _ Hc) by done. done.
Qed.
Lemma microblock_codec_ok : codec_ok microblock_ok StacksMicroblock_codec.
Proof using L.
  apply codec_ok_of_bytes. intros [h txs] (Hh & Ht & Hv). cbn [mb_header mb_txs] in *.
  destruct (codec_bytes _ _ h microblock_header_codec_ok Hh) as (hb & Hwh & Hrh). destruct (transactions_bytes txs Ht) as (tb & Hwt & Hrt).
  cbn [consensus_serialize consensus_deserialize StacksMicroblock_codec mb_header mb_txs]. unfold write_next. rewrite Hwh, Hwt.
  cbn [out_bind]. eexists. split; [done|]. intros rest. unfold read_next at 1. rewrite <-app_assoc, Hrh. cbn [out_bind]. rewrite Hrt.
  cbn [out_bind]. pose proof Hv as (Hne & _). apply valid_iff in Hv as (_ & -> & -> & Hroot & ->). destruct txs as [|tx txs]; [done|].
  cbn [negb out_bind]. rewrite Hroot. cbn [out_bind]. by rewrite bool_decide_true by done.
Qed.
End roundtrip.

(** * Signed microblocks *)
Section signing.
Context {V : Ed25519} {K : LibSecp256k1} {L : Secp256k1Laws K} {D : Digests} {DL : DigestLaws D} {Y : Layout}.

Lemma header_serializes (h : StacksMicroblockHeader) :
  microblock_header_ok h -> exists bs, microblock_header_serialize h true = Ok bs.
Proof.
  intros (Hv & Hs & Hp & Hm & _ & _). field_bytes u8_ok (mh_version h). field_bytes u16_ok (mh_sequence h).
  unfold microblock_header_serialize, write_next. rewrite Hw, Hw0. cbn. eauto.
Qed.
Lemma sign_then_verify (h : StacksMicroblockHeader) (k : Secp256k1PrivateKey) :
  microblock_header_ok h ->
  exists sig, microblock_header_sign h k = Ok (set_microblock_signatures h [sig]) /\ sig <> MessageSignature_empty /\
    microblock_header_verify (set_microblock_signatures h [sig]) (pubkey_hash (PublicKey_from_private k)) = Ok tt.
Proof using L DL.
  intros Hh. destruct (header_serializes h Hh) as [bs Hbs].
  assert (forall sigs, microblock_header_serialize (set_microblock_signatures h sigs) true = Ok bs) as Hany by (intros sigs; exact Hbs).
  destruct (sign_recover k (Sha512_256_digest bs) (Sha512_256_length _)) as (sig & Hs & _ & Hne & Hr). exists sig.
  unfold microblock_header_sign. rewrite Hany. cbn [expect out_bind]. rewrite Hs. cbn [map_err out_bind]. split; [done|]. split; [done|].
  unfold microblock_header_verify, check_recover_pubkey. rewrite Hany. cbn [expect out_bind mh_miner_signatures set_microblock_signatures try_map].
  rewrite Hr. cbn [map_err out_bind existsb]. by rewrite bool_decide_true.
Qed.
End signing.

(** C14: a well-formed block is read back from its bytes, whatever follows them: its
    header with the proof, the roots and the signatures of the miners, and its
    transactions.  Well-formed means that the parts can be written, that the
    transactions satisfy what the reader checks, and that the root in the header is
    that of their Merkle tree.  The same holds for microblocks. *)
Theorem blocks_roundtrip {V : Ed25519} {VL : Ed25519Laws V} {K : LibSecp256k1} {L : Secp256k1Laws K} {D : Digests}
    {DL : DigestLaws D} {Y : Layout} (b : StacksBlock) (m : StacksMicroblock) (rest : list byte) :
  block_ok b -> microblock_ok m ->
  (exists bs, consensus_serialize StacksBlock_codec b = Ok bs /\
     consensus_deserialize StacksBlock_codec (bs ++ rest) = Ok (b, rest)) /\
  (exists bs, consensus_serialize StacksMicroblock_codec m = Ok bs /\
     consensus_deserialize StacksMicroblock_codec (bs ++ rest) = Ok (m, rest)).
Proof. intros Hb Hm. split; [by apply (block_codec_ok b rest)|by apply (microblock_codec_ok m rest)]. Qed.

(** C23: every block that is read is in order, whatever the bytes were: it has a
    transaction; the first one and no other is a coinbase, which is on-chain only;
    none is off-chain only; their ids are pairwise different, and each of them has a
    Merkle proof that verifies against the root in the header. *)
Theorem blocks_read_are_valid {V : Ed25519} {K : LibSecp256k1} {D : Digests} {DL : DigestLaws D} {Y : Layout}
    (bs rest : list byte) (b : StacksBlock) :
  consensus_deserialize StacksBlock_codec bs = Ok (b, rest) ->
  exists coinbase txs ids, block_txs b = coinbase :: txs /\ get_coinbase_tx b = Some coinbase /\
    tx_anchor_mode coinbase = OnChainOnly /\ Forall (fun tx => is_coinbase tx = false) txs /\
    Forall (fun tx => tx_anchor_mode tx <> OffChainOnly) txs /\
    try_map (txid (E:=codec_error)) (block_txs b) = Ok ids /\ NoDup ids /\
    forall id, In id ids -> exists tree path, MerkleTree_new (H:=Sha512Trunc256Sum) ids = Some tree /\
      bh_tx_merkle_root (block_header b) = sum_bytes (root tree) /\
      MerkleTree_path (E:=Empty_set) tree id = Ok (Some path) /\ path_verify id path (root tree) = true.
Proof.
  intros Hr. apply block_read_valid in Hr as (Hne & Ha & (ids & tree & Hids & Hnd & Ht & Hroot) & Hc).
  unfold get_coinbase_tx. destruct (block_txs b) as [|tx txs]; [done|]. destruct Hc as (Hcb & Hon & Hno).
  exists tx, txs, ids. rewrite Hcb. do 4 (split; [done|]). apply Forall_cons in Ha as [_ Ha]. do 3 (split; [done|]).
  intros id Hid. destruct (leaf_has_proof (H:=Sha512Trunc256Sum) ids id Hid) as (tree' & path & Ht' & Hp). exists tree', path.
  split; [done|]. split; [congruence|done].
Qed.

(** A microblock signed by a key verifies for the hash of that key.  Signing
    replaces the signatures and nothing else, and needs nothing but a header that can
    be written. *)
Lemma signed_microblock_verifies {K : LibSecp256k1} {L : Secp256k1Laws K} {D : Digests} {DL : DigestLaws D} {Y : Layout}
    (b : StacksMicroblock) (k : Secp256k1PrivateKey) :
  microblock_header_ok (mb_header b) ->
  exists sig, microblock_sign b k = Ok (mkMicroblock (set_microblock_signatures (mb_header b) [sig]) (mb_txs b)) /\
    microblock_verify (mkMicroblock (set_microblock_signatures (mb_header b) [sig]) (mb_txs b))
      (pubkey_hash (PublicKey_from_private k)) = Ok tt.
Proof.
  intros Hh. destruct (sign_then_verify (mb_header b) k Hh) as (sig & Hs & _ & Hv). exists sig.
  unfold microblock_sign. by rewrite Hs.
Qed.

(** * Instances *)
(** A curve whose points and scalars are their encodings. *)
Definition toy_ed25519 : Ed25519 := {|
  EdwardsPoint := Sha512Trunc256Sum;
  Ed25519Scalar := Sha512Trunc256Sum;
  compress := sum_bytes;
  decompress := array32;
  is_small_order p := bool_decide (sum_bytes p = repeat x00 32);
  scalar_reduce s := s;
  scalar_to_bytes := sum_bytes;
  from_canonical_bytes := array32
|}.
Lemma toy_ed25519_laws : Ed25519Laws toy_ed25519.
Proof.
  split; cbn.
  - intros p. exact (bool_decide_eq_true_1 _ (sum_length p)).
  - apply array32_bytes.
  - intros p. exact (bool_decide_eq_true_1 _ (sum_length p)).
  - intros s _. apply array32_bytes.
Qed.

Definition sample_coinbase : StacksTransaction (K:=toy_secp256k1) :=
  mkTransaction Testnet 0x80000000 (tx_auth sample_tx) OnChainOnly Deny [] (Coinbase (repeat x05 32)).
Definition root_of_sample (txs : list (StacksTransaction (K:=toy_secp256k1))) : list byte :=
  match tx_merkle_root_of (K:=toy_secp256k1) (D:=mixing_digests) (DL:=mixing_digest_laws) (Y:=sample_layout) (E:=codec_error) txs with
  | Ok r => r | _ => [] end.
Definition sample_block : StacksBlock (V:=toy_ed25519) (K:=toy_secp256k1) :=
  mkBlock (V:=toy_ed25519) (K:=toy_secp256k1)
    (mkBlockHeader (V:=toy_ed25519) 0 (mkWorkScore 12 7)
       (mkProof (V:=toy_ed25519) (mkSha512Trunc256Sum (repeat x04 32) eq_refl)
          (mkSha512Trunc256Sum (repeat x06 16 ++ repeat x00 16) eq_refl) (mkSha512Trunc256Sum (repeat x08 32) eq_refl))
       (repeat x11 32) (repeat x00 32) 0 (root_of_sample [sample_coinbase; sample_tx]) (repeat x13 32) (repeat x14 32)
       (repeat x15 20) []) [sample_coinbase; sample_tx].
Definition sample_microblock : StacksMicroblock (K:=toy_secp256k1) :=
  mkMicroblock (K:=toy_secp256k1) (mkMicroblockHeader 0 3 (repeat x21 32) (root_of_sample [sample_tx]) []) [sample_tx].

Lemma within_bool {T : Type} (m : Z) (c : Codec T) (x : T) :
  match consensus_serialize c x with Ok bs => zlen bs <=? m | _ => false end = true -> encoded_within m c x.
Proof. intros Hb bs Hbs. rewrite Hbs in Hb. lia. Qed.
Lemma sample_coinbase_ok : transaction_ok (K:=toy_secp256k1) (D:=mixing_digests) (Y:=sample_layout) sample_coinbase.
Proof.
  destruct sample_tx_ok as (H1 & H2 & _). split; [done|]. split; [exact H2|]. split; [constructor|]. split; [by split|].
  split; [done|]. split; [done|]. apply within_bool. vm_compute. reflexivity.
Qed.

Lemma sample_valid (anchored : bool) (claimed : list byte) (txs : list (StacksTransaction (K:=toy_secp256k1))) :
  txs <> [] -> claimed = root_of_sample txs ->
  (match validate_transactions_unique (K:=toy_secp256k1) (D:=mixing_digests) (Y:=sample_layout) (E:=codec_error) txs,
         tx_merkle_root_of (K:=toy_secp256k1) (D:=mixing_digests) (DL:=mixing_digest_laws) (Y:=sample_layout) (E:=codec_error) txs with
   | Ok u, Ok _ => u && validate_anchor_mode txs anchored && validate_coinbase txs anchored
   | _, _ => false end = true) ->
  transactions_valid (D:=mixing_digests) (DL:=mixing_digest_laws) (Y:=sample_layout) anchored claimed txs.
Proof.
  intros Hne -> Hb. apply valid_iff. unfold root_of_sample.
  destruct (validate_transactions_unique txs) as [[]| |]; [|by destruct (tx_merkle_root_of txs)|done..]. destruct (tx_merkle_root_of txs) as [r| |]; [|done..].
  cbn [andb] in Hb. apply andb_true_iff in Hb as [-> ->]. by split_and!.
Qed.
Lemma sample_block_ok :
  block_ok (V:=toy_ed25519) (K:=toy_secp256k1) (D:=mixing_digests) (DL:=mixing_digest_laws) (Y:=sample_layout) sample_block.
Proof.
  split; [|split].
  - repeat split; try done; try (by vm_compute); constructor.
  - split; [constructor; [exact sample_coinbase_ok|constructor; [exact sample_tx_ok|constructor]]|]. split; [by split|]. apply within_bool. vm_compute. reflexivity.
  - apply sample_valid; [done|done|]. vm_compute. reflexivity.
Qed.
Lemma sample_microblock_ok :
  microblock_ok (K:=toy_secp256k1) (D:=mixing_digests) (DL:=mixing_digest_laws) (Y:=sample_layout) sample_microblock.
Proof.
  split; [|split].
  - repeat split; try done; try (by vm_compute); constructor.
  - split; [constructor; [exact sample_tx_ok|constructor]|]. split; [by split|]. apply within_bool. vm_compute. reflexivity.
  - apply sample_valid; [done|done|]. vm_compute. reflexivity.
Qed.

Lemma blocks_roundtrip_witness :
  (exists bs, consensus_serialize (StacksBlock_codec (V:=toy_ed25519) (D:=mixing_digests) (DL:=mixing_digest_laws) (Y:=sample_layout)) sample_block = Ok bs /\
     consensus_deserialize (StacksBlock_codec (V:=toy_ed25519) (D:=mixing_digests) (DL:=mixing_digest_laws) (Y:=sample_layout)) (bs ++ [x07])
       = Ok (sample_block, [x07])) /\
  (exists bs, consensus_serialize (StacksMicroblock_codec (D:=mixing_digests) (DL:=mixing_digest_laws) (Y:=sample_layout)) sample_microblock = Ok bs /\
     consensus_deserialize (StacksMicroblock_codec (D:=mixing_digests) (DL:=mixing_digest_laws) (Y:=sample_layout)) (bs ++ [x07])
       = Ok (sample_microblock, [x07])).
Proof. exact (blocks_roundtrip (VL:=toy_ed25519_laws) (L:=toy_laws) _ _ [x07] sample_block_ok sample_microblock_ok). Defined.

Lemma blocks_read_are_valid_witness :
  exists bs, consensus_deserialize (StacksBlock_codec (V:=toy_ed25519) (D:=mixing_digests) (DL:=mixing_digest_laws) (Y:=sample_layout)) bs
      = Ok (sample_block, []) /\
    exists coinbase txs, block_txs sample_block = coinbase :: txs /\ get_coinbase_tx sample_block = Some coinbase.
Proof.
  destruct (block_codec_ok (VL:=toy_ed25519_laws) (L:=toy_laws) sample_block [] sample_block_ok) as (bs & _ & Hr).
  exists (bs ++ []). split; [exact Hr|].
  destruct (blocks_read_are_valid _ _ _ Hr) as (coinbase & txs & ids & H1 & H2 & _). by exists coinbase, txs.
Defined.

Lemma signed_microblock_verifies_witness :
  exists sig, microblock_sign (D:=mixing_digests) sample_microblock toy_key_b =
      Ok (mkMicroblock (set_microblock_signatures (mb_header sample_microblock) [sig]) (mb_txs sample_microblock)) /\
    microblock_verify (D:=mixing_digests) (mkMicroblock (set_microblock_signatures (mb_header sample_microblock) [sig]) (mb_txs sample_microblock))
      (pubkey_hash (D:=mixing_digests) (PublicKey_from_private toy_key_b)) = Ok tt.
Proof.
  apply (signed_microblock_verifies (L:=toy_laws) (DL:=mixing_digest_laws) (Y:=sample_layout) sample_microblock toy_key_b).
  exact (proj1 sample_microblock_ok).
Defined.
