(* ===== verification/Contexts.v ===== *)
(** Contexts: expressions ([SymbolicExpression] of clarity/src/vm/representations.rs),
    defined functions (callables.rs) and the contexts in which expressions are
    evaluated: the context of a contract, the local context of a function, the
    call stack and the environment (contexts.rs).

    Expressions carry no identifiers and source positions: these serve the
    static analysis and diagnostics.  An [Environment] of the source also holds
    references to the global context and to the call stack, which the model
    passes as state. *)
From Stdlib Require Import ZArith Lia Strings.Byte Strings.String List Bool.
From stdpp Require Import base decidable list strings option gmap.
From S2P Require Import Prelude Bytes Codec Representations BTree Types Signatures Admission Values.
From S2P Require Import Hashes C32 Principals BackingStore RollbackWrapper ClarityDb ClarityState.
Open Scope Z_scope.

(** * Expressions *)
Inductive TraitDefinition :=
| Defined (t : TraitIdentifier)
| Imported (t : TraitIdentifier).

Inductive SymbolicExpression :=
| AtomValue (value : Value)
| Atom (name : string)
| ListExpr (children : list SymbolicExpression)
| LiteralValue (value : Value)
| Field (t : TraitIdentifier)
| TraitReference (name : string) (t : TraitDefinition).

Definition match_list (e : SymbolicExpression) : option (list SymbolicExpression) :=
  match e with ListExpr list => Some list | _ => None end.
Definition match_atom (e : SymbolicExpression) : option string :=
  match e with Atom value => Some value | _ => None end.
Definition match_atom_value (e : SymbolicExpression) : option Value :=
  match e with AtomValue value => Some value | _ => None end.
Definition match_literal_value (e : SymbolicExpression) : option Value :=
  match e with LiteralValue value => Some value | _ => None end.

(** * Functions *)
(** A [FunctionIdentifier] is its string. *)
Definition new_native_function (name : string) : string := ("_native_:" ++ name)%string.
Definition new_user_function (name context : string) : string := (context ++ ":" ++ name)%string.

Inductive DefineType := ReadOnly | Public | Private.
#[global] Instance DefineType_eq_dec : EqDecision DefineType.
Proof. solve_decision. Defined.

Record DefinedFunction := mkFunction {
  df_identifier : string;
  df_name : string;
  df_arg_types : list TypeSignature;
  df_define_type : DefineType;
  df_arguments : list string;
  df_body : SymbolicExpression
}.

Definition DefinedFunction_new (arguments : list (string * TypeSignature)) (body : SymbolicExpression)
    (define_type : DefineType) (name context_name : string) : DefinedFunction :=
  mkFunction (new_user_function name context_name) name (map snd arguments) define_type (map fst arguments) body.

Definition DefinedFunction_is_read_only (self : DefinedFunction) : bool :=
  bool_decide (df_define_type self = ReadOnly).
Definition DefinedFunction_is_public (self : DefinedFunction) : bool :=
  match df_define_type self with Public | ReadOnly => true | Private => false end.

(** * Contracts *)
#[global] Instance TraitIdentifier_countable : Countable TraitIdentifier.
Proof.
  apply (inj_countable' (fun t => (ti_name t, ti_contract_identifier t)) (fun '(n, c) => mkTraitId n c)). by intros [].
Defined.

Record ContractContext := mkContractContext {
  contract_identifier : QualifiedContractIdentifier;
  cc_variables : gmap string Value;
  cc_functions : gmap string DefinedFunction;
  defined_traits : gmap string (gmap string FunctionSignature);
  implemented_traits : gset TraitIdentifier;
  persisted_names : gset string;
  meta_data_map : gmap string DataMapMetadata;
  meta_data_var : gmap string DataVariableMetadata;
  meta_nft : gmap string NonFungibleTokenMetadata;
  meta_ft : gmap string FungibleTokenMetadata;
  data_size : Z
}.

Definition ContractContext_new (contract_identifier : QualifiedContractIdentifier) : ContractContext :=
  mkContractContext contract_identifier ∅ ∅ ∅ ∅ ∅ ∅ ∅ ∅ ∅ 0.
Definition cc_lookup_variable (self : ContractContext) (name : string) : option Value := cc_variables self !! name.
Definition lookup_defined_function (self : ContractContext) (name : string) : option DefinedFunction :=
  cc_functions self !! name.
Definition lookup_trait_definition (self : ContractContext) (name : string) : option (gmap string FunctionSignature) :=
  defined_traits self !! name.
Definition is_explicitly_implementing_trait (self : ContractContext) (trait_identifier : TraitIdentifier) : bool :=
  bool_decide (trait_identifier ∈ implemented_traits self).

(** What evaluation reads beside its state. *)
Record Environment := mkEnv {
  contract_context : ContractContext;
  env_sender : option PrincipalData;
  env_caller : option PrincipalData
}.

Definition nest_as_principal (self : Environment) (sender : PrincipalData) : Environment :=
  mkEnv (contract_context self) (Some sender) (Some sender).
Definition nest_with_caller (self : Environment) (caller : PrincipalData) : Environment :=
  mkEnv (contract_context self) (env_sender self) (Some caller).

(** * Local contexts *)
Definition MAX_CONTEXT_DEPTH : Z := 256.

(** [function_context] and [parent] are references to enclosing contexts. *)
Inductive LocalContext := mkLocal {
  lc_function_context : option LocalContext;
  lc_parent : option LocalContext;
  lc_variables : gmap string Value;
  callable_contracts : gmap string (QualifiedContractIdentifier * TraitIdentifier);
  lc_depth : Z
}.

Definition LocalContext_new : LocalContext := mkLocal None None ∅ ∅ 0.
Definition function_context (self : LocalContext) : LocalContext :=
  match lc_function_context self with Some context => context | None => self end.
Definition LocalContext_extend (self : LocalContext) : outcome VmError LocalContext :=
  if MAX_CONTEXT_DEPTH <=? lc_depth self then Err (Runtime RuntimeErr.MaxContextDepthReached)
  else Ok (mkLocal (Some (function_context self)) (Some self) ∅ ∅ (lc_depth self + 1)).
Fixpoint lc_lookup_variable (self : LocalContext) (name : string) : option Value :=
  match lc_variables self !! name with
  | Some value => Some value
  | None => match lc_parent self with Some parent => lc_lookup_variable parent name | None => None end
  end.
Definition lookup_callable_contract (self : LocalContext) (name : string)
  : option (QualifiedContractIdentifier * TraitIdentifier) :=
  callable_contracts (function_context self) !! name.

(** [context.variables.insert(name, value)] and the same for callable contracts. *)
Definition bind_variable (self : LocalContext) (name : string) (value : Value) : LocalContext :=
  mkLocal (lc_function_context self) (lc_parent self) (<[name := value]> (lc_variables self)) (callable_contracts self)
    (lc_depth self).
Definition bind_callable (self : LocalContext) (name : string) (c : QualifiedContractIdentifier * TraitIdentifier)
  : LocalContext :=
  mkLocal (lc_function_context self) (lc_parent self) (lc_variables self) (<[name := c]> (callable_contracts self))
    (lc_depth self).

(** * The call stack *)
(** The head of [cs_stack] is the innermost call. *)
Record CallStack := mkCallStack {
  cs_stack : list string;
  cs_set : gset string;
  apply_depth : Z
}.

Definition CallStack_new : CallStack := mkCallStack [] ∅ 0.
Definition CallStack_depth (self : CallStack) : Z := zlen (cs_stack self) + apply_depth self.
Definition CallStack_contains (self : CallStack) (function : string) : bool := bool_decide (function ∈ cs_set self).
Definition CallStack_insert (self : CallStack) (function : string) (track : bool) : CallStack :=
  mkCallStack (function :: cs_stack self) (if track then {[function]} ∪ cs_set self else cs_set self) (apply_depth self).
Definition incr_apply_depth (self : CallStack) : CallStack :=
  mkCallStack (cs_stack self) (cs_set self) (apply_depth self + 1).
Definition decr_apply_depth (self : CallStack) : CallStack :=
  mkCallStack (cs_stack self) (cs_set self) (apply_depth self - 1).
(** The stack is popped also when the call fails. *)
Definition CallStack_remove (self : CallStack) (function : string) (tracked : bool)
  : outcome (CallStack * VmError) CallStack :=
  match cs_stack self with
  | removed :: rest =>
      if negb (bool_decide (removed = function))
      then Err (mkCallStack rest (cs_set self) (apply_depth self),
        InterpreterErr (InterpErr.Interpreter "Tried to remove item from empty call stack."))
      else if tracked && negb (bool_decide (function ∈ cs_set self)) then Panic
      else Ok (mkCallStack rest (if tracked then cs_set self ∖ {[function]} else cs_set self) (apply_depth self))
  | [] => Err (self, InterpreterErr (InterpErr.Interpreter "Tried to remove item from empty call stack."))
  end.

(** A call that was inserted is removed, and leaves the stack as it was. *)
Lemma remove_insert (cs : CallStack) (f : string) (track : bool) :
  (track = true -> CallStack_contains cs f = false) ->
  CallStack_remove (CallStack_insert cs f track) f track = Ok cs.
Proof.
  intros Hf. unfold CallStack_remove, CallStack_insert. cbn [cs_stack cs_set apply_depth].
  rewrite bool_decide_eq_true_2 by done. cbn [negb]. destruct track; cbn [andb]; [|by destruct cs].
  rewrite bool_decide_eq_true_2 by set_solver. cbn [negb]. do 2 f_equal. destruct cs as [st set d]. simpl. f_equal.
  specialize (Hf eq_refl). unfold CallStack_contains in Hf. apply bool_decide_eq_false in Hf. simpl in Hf. set_solver.
Qed.
