(* ===== verification/Callables.v ===== *)
(** Callables: the functions an application can name ([CallableType] of
    clarity/src/vm/callables.rs): the native functions with their names, cost
    functions and kinds (functions/mod.rs), the reserved variables (variables.rs),
    and the functions contracts define.

    A special function is given by its tag; Interpreter.v has the code. *)
From Stdlib Require Import ZArith Lia Strings.Byte Strings.String List Bool.
From stdpp Require Import base decidable list strings option gmap.
From S2P Require Import Prelude Bytes Codec Representations BTree Types Signatures Admission Values.
From S2P Require Import Serialization Hashes Natives C32 Principals BackingStore RollbackWrapper ClarityDb ClarityState.
From S2P Require Import Costs Contexts.
Open Scope Z_scope.

(** * Native functions *)
Module NativeFn.
Inductive NativeFunctions :=
| Add | Subtract | Multiply | Divide | CmpGeq | CmpLeq | CmpLess | CmpGreater | ToInt | ToUInt | Modulo | Power
| Sqrti | Log2 | BitwiseXOR | And | Or | Not | Equals | If | Let | Map | Fold | Append | Concat | AsMaxLen | Len
| ElementAt | IndexOf | ListCons | FetchVar | SetVar | FetchEntry | SetEntry | InsertEntry | DeleteEntry
| TupleCons | TupleGet | TupleMerge | Begin | Hash160 | Sha256 | Sha512 | Sha512Trunc256 | Keccak256
| Secp256k1Recover | Secp256k1Verify | Print | ContractCall | AsContract | ContractOf | PrincipalOf | AtBlock
| GetBlockInfo | ConsError | ConsOkay | ConsSome | DefaultTo | Asserts | UnwrapRet | UnwrapErrRet | Unwrap
| UnwrapErr | Match | TryRet | IsOkay | IsNone | IsErr | IsSome | Filter | GetTokenBalance | GetAssetOwner
| TransferToken | TransferAsset | MintAsset | MintToken | GetTokenSupply | BurnToken | BurnAsset | GetStxBalance
| StxTransfer | StxBurn | StxWithdraw | WithdrawToken | WithdrawAsset.

Definition get_name (f : NativeFunctions) : string :=
  match f with
  | Add => "+"
  | Subtract => "-"
  | Multiply => "*"
  | Divide => "/"
  | CmpGeq => ">="
  | CmpLeq => "<="
  | CmpLess => "<"
  | CmpGreater => ">"
  | ToInt => "to-int"
  | ToUInt => "to-uint"
  | Modulo => "mod"
  | Power => "pow"
  | Sqrti => "sqrti"
  | Log2 => "log2"
  | BitwiseXOR => "xor"
  | And => "and"
  | Or => "or"
  | Not => "not"
  | Equals => "is-eq"
  | If => "if"
  | Let => "let"
  | Map => "map"
  | Fold => "fold"
  | Append => "append"
  | Concat => "concat"
  | AsMaxLen => "as-max-len?"
  | Len => "len"
  | ElementAt => "element-at"
  | IndexOf => "index-of"
  | ListCons => "list"
  | FetchVar => "var-get"
  | SetVar => "var-set"
  | FetchEntry => "map-get?"
  | SetEntry => "map-set"
  | InsertEntry => "map-insert"
  | DeleteEntry => "map-delete"
  | TupleCons => "tuple"
  | TupleGet => "get"
  | TupleMerge => "merge"
  | Begin => "begin"
  | Hash160 => "hash160"
  | Sha256 => "sha256"
  | Sha512 => "sha512"
  | Sha512Trunc256 => "sha512/256"
  | Keccak256 => "keccak256"
  | Secp256k1Recover => "secp256k1-recover?"
  | Secp256k1Verify => "secp256k1-verify"
  | Print => "print"
  | ContractCall => "contract-call?"
  | AsContract => "as-contract"
  | ContractOf => "contract-of"
  | PrincipalOf => "principal-of?"
  | AtBlock => "at-block"
  | GetBlockInfo => "get-block-info?"
  | ConsError => "err"
  | ConsOkay => "ok"
  | ConsSome => "some"
  | DefaultTo => "default-to"
  | Asserts => "asserts!"
  | UnwrapRet => "unwrap!"
  | UnwrapErrRet => "unwrap-err!"
  | Unwrap => "unwrap-panic"
  | UnwrapErr => "unwrap-err-panic"
  | Match => "match"
  | TryRet => "try!"
  | IsOkay => "is-ok"
  | IsNone => "is-none"
  | IsErr => "is-err"
  | IsSome => "is-some"
  | Filter => "filter"
  | GetTokenBalance => "ft-get-balance"
  | GetAssetOwner => "nft-get-owner?"
  | TransferToken => "ft-transfer?"
  | TransferAsset => "nft-transfer?"
  | MintAsset => "nft-mint?"
  | MintToken => "ft-mint?"
  | GetTokenSupply => "ft-get-supply"
  | BurnToken => "ft-burn?"
  | BurnAsset => "nft-burn?"
  | GetStxBalance => "stx-get-balance"
  | StxTransfer => "stx-transfer?"
  | StxBurn => "stx-burn?"
  | StxWithdraw => "stx-withdraw?"
  | WithdrawToken => "ft-withdraw?"
  | WithdrawAsset => "nft-withdraw?"
  end%string.

Definition ALL : list NativeFunctions :=
  [Add; Subtract; Multiply; Divide; CmpGeq; CmpLeq; CmpLess; CmpGreater; ToInt; ToUInt; Modulo; Power; Sqrti; Log2
   ; BitwiseXOR; And; Or; Not; Equals; If; Let; Map; Fold; Append; Concat; AsMaxLen; Len; ElementAt; IndexOf
   ; ListCons; FetchVar; SetVar; FetchEntry; SetEntry; InsertEntry; DeleteEntry; TupleCons; TupleGet; TupleMerge
   ; Begin; Hash160; Sha256; Sha512; Sha512Trunc256; Keccak256; Secp256k1Recover; Secp256k1Verify; Print
   ; ContractCall; AsContract; ContractOf; PrincipalOf; AtBlock; GetBlockInfo; ConsError; ConsOkay; ConsSome
   ; DefaultTo; Asserts; UnwrapRet; UnwrapErrRet; Unwrap; UnwrapErr; Match; TryRet; IsOkay; IsNone; IsErr; IsSome
   ; Filter; GetTokenBalance; GetAssetOwner; TransferToken; TransferAsset; MintAsset; MintToken; GetTokenSupply
   ; BurnToken; BurnAsset; GetStxBalance; StxTransfer; StxBurn; StxWithdraw; WithdrawToken; WithdrawAsset].

Definition lookup_by_name (name : string) : option NativeFunctions :=
  find (fun f => bool_decide (get_name f = name)) ALL.
End NativeFn.
Notation NativeFunctions := NativeFn.NativeFunctions.

Inductive CallableType :=
| UserFunction (f : DefinedFunction)
| NativeFunction (name : string) (function : NativeHandle) (cost_function : ClarityCostFunction)
| NativeFunction205 (name : string) (function : NativeHandle) (cost_function : ClarityCostFunction)
    (cost_input_handle : list Value -> outcome VmError Z)
| SpecialFunction (name : string) (function : NativeFunctions).

Definition get_identifier (self : CallableType) : string :=
  match self with
  | UserFunction f => df_identifier f
  | NativeFunction s _ _ => new_native_function s
  | SpecialFunction s _ => new_native_function s
  | NativeFunction205 s _ _ _ => new_native_function s
  end.

Definition cost_input_sized_vararg (args : list Value) : outcome VmError Z :=
  try_fold (fun sum value =>
    let? size := serialized_size value in
    map_err Error_from_cost (cost_overflow_add size sum)) 0 args.

Section reserved.
Context {D : Digests} {Q : IntegerSquareRoot}.

(** The callable of each native function. *)
Definition native_callable (native_function : NativeFunctions) : CallableType :=
  match native_function with
  | NativeFn.Add => NativeFunction "native_add" (MoreArg native_add) CostFunction.Add
  | NativeFn.Subtract => NativeFunction "native_sub" (MoreArg native_sub) CostFunction.Sub
  | NativeFn.Multiply => NativeFunction "native_mul" (MoreArg native_mul) CostFunction.Mul
  | NativeFn.Divide => NativeFunction "native_div" (MoreArg native_div) CostFunction.Div
  | NativeFn.CmpGeq => NativeFunction "native_geq" (DoubleArg native_geq) CostFunction.Geq
  | NativeFn.CmpLeq => NativeFunction "native_leq" (DoubleArg native_leq) CostFunction.Leq
  | NativeFn.CmpLess => NativeFunction "native_le" (DoubleArg native_le) CostFunction.Le
  | NativeFn.CmpGreater => NativeFunction "native_ge" (DoubleArg native_ge) CostFunction.Ge
  | NativeFn.ToInt => NativeFunction "native_to_int" (SingleArg native_to_int) CostFunction.IntCast
  | NativeFn.ToUInt => NativeFunction "native_to_uint" (SingleArg native_to_uint) CostFunction.IntCast
  | NativeFn.Modulo => NativeFunction "native_mod" (DoubleArg native_mod) CostFunction.Mod
  | NativeFn.Power => NativeFunction "native_pow" (DoubleArg native_pow) CostFunction.Pow
  | NativeFn.Sqrti => NativeFunction "native_sqrti" (SingleArg native_sqrti) CostFunction.Sqrti
  | NativeFn.Log2 => NativeFunction "native_log2" (SingleArg native_log2) CostFunction.Log2
  | NativeFn.BitwiseXOR => NativeFunction "native_xor" (DoubleArg native_xor) CostFunction.Xor
  | NativeFn.And => SpecialFunction "special_and" native_function
  | NativeFn.Or => SpecialFunction "special_or" native_function
  | NativeFn.Not => NativeFunction "native_not" (SingleArg native_not) CostFunction.Not
  | NativeFn.Equals => NativeFunction205 "native_eq" (MoreArg native_eq) CostFunction.Eq cost_input_sized_vararg
  | NativeFn.If => SpecialFunction "special_if" native_function
  | NativeFn.Let => SpecialFunction "special_let" native_function
  | NativeFn.Map => SpecialFunction "special_map" native_function
  | NativeFn.Fold => SpecialFunction "special_fold" native_function
  | NativeFn.Append => SpecialFunction "special_append" native_function
  | NativeFn.Concat => SpecialFunction "special_concat" native_function
  | NativeFn.AsMaxLen => SpecialFunction "special_as_max_len" native_function
  | NativeFn.Len => NativeFunction "native_len" (SingleArg native_len) CostFunction.Len
  | NativeFn.ElementAt => NativeFunction "native_element_at" (DoubleArg native_element_at) CostFunction.ElementAt
  | NativeFn.IndexOf => NativeFunction205 "native_index_of" (DoubleArg native_index_of) CostFunction.IndexOf cost_input_sized_vararg
  | NativeFn.ListCons => SpecialFunction "special_list_cons" native_function
  | NativeFn.FetchVar => SpecialFunction "special_var-get" native_function
  | NativeFn.SetVar => SpecialFunction "special_set-var" native_function
  | NativeFn.FetchEntry => SpecialFunction "special_map-get?" native_function
  | NativeFn.SetEntry => SpecialFunction "special_set-entry" native_function
  | NativeFn.InsertEntry => SpecialFunction "special_insert-entry" native_function
  | NativeFn.DeleteEntry => SpecialFunction "special_delete-entry" native_function
  | NativeFn.TupleCons => SpecialFunction "special_tuple" native_function
  | NativeFn.TupleGet => SpecialFunction "special_get-tuple" native_function
  | NativeFn.TupleMerge => NativeFunction205 "native_merge-tuple" (DoubleArg tuple_merge) CostFunction.TupleMerge cost_input_sized_vararg
  | NativeFn.Begin => NativeFunction "native_begin" (MoreArg native_begin) CostFunction.Begin
  | NativeFn.Hash160 => NativeFunction205 "native_hash160" (SingleArg native_hash160) CostFunction.Hash160 cost_input_sized_vararg
  | NativeFn.Sha256 => NativeFunction205 "native_sha256" (SingleArg native_sha256) CostFunction.Sha256 cost_input_sized_vararg
  | NativeFn.Sha512 => NativeFunction205 "native_sha512" (SingleArg native_sha512) CostFunction.Sha512 cost_input_sized_vararg
  | NativeFn.Sha512Trunc256 => NativeFunction205 "native_sha512trunc256" (SingleArg native_sha512trunc256) CostFunction.Sha512t256 cost_input_sized_vararg
  | NativeFn.Keccak256 => NativeFunction205 "native_keccak256" (SingleArg native_keccak256) CostFunction.Keccak256 cost_input_sized_vararg
  | NativeFn.Secp256k1Recover => SpecialFunction "native_secp256k1-recover" native_function
  | NativeFn.Secp256k1Verify => SpecialFunction "native_secp256k1-verify" native_function
  | NativeFn.Print => SpecialFunction "special_print" native_function
  | NativeFn.ContractCall => SpecialFunction "special_contract-call" native_function
  | NativeFn.AsContract => SpecialFunction "special_as-contract" native_function
  | NativeFn.ContractOf => SpecialFunction "special_contract-of" native_function
  | NativeFn.PrincipalOf => SpecialFunction "special_principal-of" native_function
  | NativeFn.AtBlock => SpecialFunction "special_at_block" native_function
  | NativeFn.GetBlockInfo => SpecialFunction "special_get_block_info" native_function
  | NativeFn.ConsError => NativeFunction "native_error" (SingleArg native_error) CostFunction.ErrCons
  | NativeFn.ConsOkay => NativeFunction "native_okay" (SingleArg native_okay) CostFunction.OkCons
  | NativeFn.ConsSome => NativeFunction "native_some" (SingleArg native_some) CostFunction.SomeCons
  | NativeFn.DefaultTo => NativeFunction "native_default_to" (DoubleArg native_default_to) CostFunction.DefaultTo
  | NativeFn.Asserts => SpecialFunction "special_asserts" native_function
  | NativeFn.UnwrapRet => NativeFunction "native_unwrap_ret" (DoubleArg native_unwrap_or_ret) CostFunction.UnwrapRet
  | NativeFn.UnwrapErrRet => NativeFunction "native_unwrap_err_ret" (DoubleArg native_unwrap_err_or_ret) CostFunction.UnwrapErrOrRet
  | NativeFn.Unwrap => NativeFunction "native_unwrap" (SingleArg native_unwrap) CostFunction.Unwrap
  | NativeFn.UnwrapErr => NativeFunction "native_unwrap_err" (SingleArg native_unwrap_err) CostFunction.UnwrapErr
  | NativeFn.Match => SpecialFunction "special_match" native_function
  | NativeFn.TryRet => NativeFunction "native_try_ret" (SingleArg native_try_ret) CostFunction.TryRet
  | NativeFn.IsOkay => NativeFunction "native_is_okay" (SingleArg native_is_okay) CostFunction.IsOkay
  | NativeFn.IsNone => NativeFunction "native_is_none" (SingleArg native_is_none) CostFunction.IsNone
  | NativeFn.IsErr => NativeFunction "native_is_err" (SingleArg native_is_err) CostFunction.IsErr
  | NativeFn.IsSome => NativeFunction "native_is_some" (SingleArg native_is_some) CostFunction.IsSome
  | NativeFn.Filter => SpecialFunction "special_filter" native_function
  | NativeFn.GetTokenBalance => SpecialFunction "special_get_balance" native_function
  | NativeFn.GetAssetOwner => SpecialFunction "special_get_owner" native_function
  | NativeFn.TransferToken => SpecialFunction "special_transfer_token" native_function
  | NativeFn.TransferAsset => SpecialFunction "special_transfer_asset" native_function
  | NativeFn.MintAsset => SpecialFunction "special_mint_asset" native_function
  | NativeFn.MintToken => SpecialFunction "special_mint_token" native_function
  | NativeFn.GetTokenSupply => SpecialFunction "special_get_token_supply" native_function
  | NativeFn.BurnToken => SpecialFunction "special_burn_token" native_function
  | NativeFn.BurnAsset => SpecialFunction "special_burn_asset" native_function
  | NativeFn.GetStxBalance => SpecialFunction "special_stx_balance" native_function
  | NativeFn.StxTransfer => SpecialFunction "special_stx_transfer" native_function
  | NativeFn.StxBurn => SpecialFunction "special_stx_burn" native_function
  | NativeFn.StxWithdraw => SpecialFunction "special_stx_withdraw" native_function
  | NativeFn.WithdrawToken => SpecialFunction "special_withdraw_token" native_function
  | NativeFn.WithdrawAsset => SpecialFunction "special_withdraw_asset" native_function
  end%string.

Definition lookup_reserved_functions (name : string) : option CallableType :=
  match NativeFn.lookup_by_name name with
  | Some native_function => Some (native_callable native_function)
  | None => None
  end.
End reserved.

(** * Reserved variables *)
Module NativeVar.
Inductive NativeVariables :=
| ContractCaller | TxSender | BlockHeight | BurnBlockHeight | NativeNone | NativeTrue | NativeFalse
| TotalLiquidMicroSTX | Regtest.

Definition get_name (v : NativeVariables) : string :=
  match v with
  | ContractCaller => "contract-caller"
  | TxSender => "tx-sender"
  | BlockHeight => "block-height"
  | BurnBlockHeight => "burn-block-height"
  | NativeNone => "none"
  | NativeTrue => "true"
  | NativeFalse => "false"
  | TotalLiquidMicroSTX => "stx-liquid-supply"
  | Regtest => "is-in-regtest"
  end%string.

Definition ALL : list NativeVariables :=
  [ContractCaller; TxSender; BlockHeight; BurnBlockHeight; NativeNone; NativeTrue; NativeFalse;
   TotalLiquidMicroSTX; Regtest].

Definition lookup_by_name (name : string) : option NativeVariables :=
  find (fun v => bool_decide (get_name v = name)) ALL.
End NativeVar.
Notation NativeVariables := NativeVar.NativeVariables.

Definition is_reserved_name (name : string) : bool := if NativeVar.lookup_by_name name then true else false.

Section names.
Context {D : Digests} {Q : IntegerSquareRoot}.

Definition is_reserved (name : string) : bool :=
  match lookup_reserved_functions name with
  | Some _ => true
  | None => if is_reserved_name name then true else false
  end.

Definition is_name_used (self : ContractContext) (name : string) : bool :=
  is_reserved name
  || bool_decide (is_Some (cc_variables self !! name))
  || bool_decide (is_Some (cc_functions self !! name))
  || bool_decide (name ∈ persisted_names self)
  || bool_decide (is_Some (defined_traits self !! name)).
End names.

(** * Traits *)
Definition check_trait_expectations (self : DefinedFunction) (contract_defining_trait : ContractContext)
    (trait_identifier : TraitIdentifier) : outcome VmError unit :=
  let trait_name := ti_name trait_identifier in
  let? constraining_trait :=
    ok_or (Unchecked (CheckErr.TraitReferenceUnknown trait_name))
      (lookup_trait_definition contract_defining_trait trait_name) in
  let? expected_sig :=
    ok_or (Unchecked (CheckErr.TraitMethodUnknown trait_name (df_name self))) (constraining_trait !! df_name self) in
  let? ok := check_args_trait_compliance expected_sig (df_arg_types self) in
  if negb ok then Err (Unchecked (CheckErr.BadTraitImplementation trait_name (df_name self))) else Ok tt.
