(* ===== verification/StxBalance.v ===== *)
(** StxBalance: STX accounts, their locked part and the operations on them
    ([STXBalance] and [STXBalanceSnapshot] of
    clarity/src/vm/database/structures.rs, the account functions of
    clarity_db.rs).  A snapshot holds a mutable reference to the database; the
    operations that use it take the database as an argument and return it. *)
From Stdlib Require Import ZArith Lia Strings.Byte Strings.String List Bool.
From stdpp Require Import base decidable list strings option gmap pretty.
From S2P Require Import Prelude Bytes Codec Representations BTree Types Signatures Admission Values.
From S2P Require Import Serialization Hashes C32 Principals BackingStore RollbackWrapper RollbackRefinement ClarityDb.
Open Scope Z_scope.

Record STXBalance := mkBalance {
  amount_unlocked : Z;
  amount_locked : Z;
  unlock_height : Z
}.
#[global] Instance STXBalance_eq_dec : EqDecision STXBalance.
Proof. solve_decision. Defined.

Record STXBalanceSnapshot := mkSnapshot {
  principal : PrincipalData;
  balance : STXBalance;
  burn_block_height : Z
}.

Definition STXBalance_size_of : nat := 40.
Definition STXBalance_zero : STXBalance := mkBalance 0 0 0.
Definition STXBalance_initial (amount_unlocked : Z) : STXBalance := mkBalance amount_unlocked 0 0.

Definition STXBalance_serialize (self : STXBalance) : string :=
  let buffer := to_be_bytes 16 (amount_unlocked self) in
  let buffer := buffer ++ to_be_bytes 16 (amount_locked self) in
  let buffer := buffer ++ to_be_bytes 8 (unlock_height self) in
  to_hex buffer.

Definition STXBalance_deserialize {E : Type} (input : string) : outcome E STXBalance :=
  let? bytes := expect (hex_bytes input) in
  if negb (Nat.eqb (length bytes) STXBalance_size_of) then Panic else
  let amount_unlocked := from_be_bytes (firstn 16 bytes) in
  let amount_locked := from_be_bytes (firstn 16 (skipn 16 bytes)) in
  let unlock_height := from_be_bytes (firstn 8 (skipn 32 bytes)) in
  Ok (mkBalance amount_unlocked amount_locked unlock_height).

(** * Methods of a balance *)
Definition has_locked_tokens_at_burn_block (self : STXBalance) (burn_block_height : Z) : bool :=
  (0 <? amount_locked self) && (burn_block_height <? unlock_height self).
Definition has_unlockable_tokens_at_burn_block (self : STXBalance) (burn_block_height : Z) : bool :=
  (0 <? amount_locked self) && (unlock_height self <=? burn_block_height).

Definition get_total_balance {E : Type} (self : STXBalance) : outcome E Z :=
  expect_some (checked_add u128_ty (amount_unlocked self) (amount_locked self)).

Definition get_available_balance_at_burn_block {E : Type} (self : STXBalance) (burn_block_height : Z) : outcome E Z :=
  if has_unlockable_tokens_at_burn_block self burn_block_height then get_total_balance self
  else Ok (amount_unlocked self).

Definition get_locked_balance_at_burn_block (self : STXBalance) (burn_block_height : Z) : Z * Z :=
  if has_unlockable_tokens_at_burn_block self burn_block_height then (0, 0)
  else (amount_locked self, unlock_height self).

Definition can_transfer_at_burn_block {E : Type} (self : STXBalance) (amount burn_block_height : Z) : outcome E bool :=
  let? available := get_available_balance_at_burn_block self burn_block_height in
  Ok (amount <=? available).

(** * Methods of a snapshot *)
Definition get_available_balance {E : Type} (self : STXBalanceSnapshot) : outcome E Z :=
  if has_unlockable_tokens_at_burn_block (balance self) (burn_block_height self)
  then get_total_balance (balance self)
  else Ok (amount_unlocked (balance self)).

Definition has_locked_tokens (self : STXBalanceSnapshot) : bool :=
  has_locked_tokens_at_burn_block (balance self) (burn_block_height self).
Definition has_unlockable_tokens (self : STXBalanceSnapshot) : bool :=
  has_unlockable_tokens_at_burn_block (balance self) (burn_block_height self).

Definition can_transfer {E : Type} (self : STXBalanceSnapshot) (amount : Z) : outcome E bool :=
  let? available := get_available_balance self in
  Ok (amount <=? available).

Definition set_balance (self : STXBalanceSnapshot) (balance : STXBalance) : STXBalanceSnapshot :=
  mkSnapshot (principal self) balance (burn_block_height self).

Definition unlock_available_tokens_if_any {E : Type} (self : STXBalanceSnapshot) : outcome E (Z * STXBalanceSnapshot) :=
  if negb (has_unlockable_tokens_at_burn_block (balance self) (burn_block_height self)) then Ok (0, self) else
  let unlocked := amount_locked (balance self) in
  let? amount_unlocked := expect_some (checked_add u128_ty (amount_unlocked (balance self)) unlocked) in
  Ok (unlocked, set_balance self (mkBalance amount_unlocked 0 0)).

Definition debit {E : Type} (self : STXBalanceSnapshot) (amount : Z) : outcome E STXBalanceSnapshot :=
  let? '(_, self) := unlock_available_tokens_if_any self in
  let b := balance self in
  let? amount_unlocked := expect_some (checked_sub u128_ty (amount_unlocked b) amount) in
  Ok (set_balance self (mkBalance amount_unlocked (amount_locked b) (unlock_height b))).

Definition credit {E : Type} (self : STXBalanceSnapshot) (amount : Z) : outcome E STXBalanceSnapshot :=
  let? '(_, self) := unlock_available_tokens_if_any self in
  let b := balance self in
  let? amount_unlocked := expect_some (checked_add u128_ty (amount_unlocked b) amount) in
  Ok (set_balance self (mkBalance amount_unlocked (amount_locked b) (unlock_height b))).

Definition lock_tokens {E : Type} (self : STXBalanceSnapshot) (amount_to_lock unlock_burn_height : Z)
  : outcome E STXBalanceSnapshot :=
  let? '(_, self) := unlock_available_tokens_if_any self in
  if negb (0 <? amount_to_lock) then Panic else
  if unlock_burn_height <=? burn_block_height self then Panic else
  if has_locked_tokens self then Panic else
  let? amount_unlocked := expect_some (checked_sub u128_ty (amount_unlocked (balance self)) amount_to_lock) in
  Ok (set_balance self (mkBalance amount_unlocked amount_to_lock unlock_burn_height)).

(** * Accounts in the database *)
Section accounts.
Context {D : Digests} {S : Type} `{KvStore S}.

Definition get_account_stx_balance (db : S) (principal : PrincipalData) : outcome VmError STXBalance :=
  let key := make_key_for_account_balance principal in
  let? result := db_get STXBalance_deserialize db key in
  match result with
  | None => Ok STXBalance_zero
  | Some balance => Ok balance
  end.

(** [get_stx_balance_snapshot], given the height the header database reports
    for the burnchain, and its variant for the genesis block. *)
Definition get_stx_balance_snapshot (db : S) (cur_burn_height : Z) (principal : PrincipalData)
  : outcome VmError STXBalanceSnapshot :=
  let? stx_balance := get_account_stx_balance db principal in
  Ok (mkSnapshot principal stx_balance cur_burn_height).
Definition get_stx_balance_snapshot_genesis (db : S) (principal : PrincipalData) : outcome VmError STXBalanceSnapshot :=
  let? stx_balance := get_account_stx_balance db principal in
  Ok (mkSnapshot principal stx_balance 0).

Definition save (self : STXBalanceSnapshot) (db : S) : outcome VmError S :=
  let key := make_key_for_account_balance (principal self) in
  db_put STXBalance_serialize db key (balance self).

Definition transfer_to (self : STXBalanceSnapshot) (db : S) (recipient : PrincipalData) (amount : Z)
  : outcome VmError S :=
  let? ok := can_transfer self amount in
  if negb ok then Err (InterpreterErr InterpErr.InsufficientBalance) else
  let recipient_key := make_key_for_account_balance recipient in
  let? recipient_balance := db_get STXBalance_deserialize db recipient_key in
  let recipient_balance := default STXBalance_zero recipient_balance in
  let? new_unlocked := ok_or (Runtime RuntimeErr.ArithmeticOverflow)
    (checked_add u128_ty (amount_unlocked recipient_balance) amount) in
  let recipient_balance := mkBalance new_unlocked (amount_locked recipient_balance) (unlock_height recipient_balance) in
  let? self := debit self amount in
  let? db := db_put STXBalance_serialize db recipient_key recipient_balance in
  save self db.
End accounts.

(** * Balances *)
Definition total (b : STXBalance) : Z := amount_unlocked b + amount_locked b.

(** Widths, and a total that does not overflow. *)
Definition STXBalance_wf (b : STXBalance) : Prop :=
  0 <= amount_unlocked b /\ 0 <= amount_locked b /\ 0 <= unlock_height b <= u64_max /\ total b <= u128_max.

(** What can be spent at a burn block height. *)
Definition spendable (b : STXBalance) (h : Z) : Z :=
  if has_unlockable_tokens_at_burn_block b h then total b else amount_unlocked b.

Lemma balance_roundtrip {E : Type} (b : STXBalance) :
  STXBalance_wf b -> STXBalance_deserialize (E:=E) (STXBalance_serialize b) = Ok b.
Proof.
  intros (H1 & H2 & H3 & H4). unfold STXBalance_deserialize, STXBalance_serialize, total in *.
  rewrite hex_bytes_to_hex. cbn [expect out_bind].
  rewrite !length_app, !length_to_be_bytes. cbn [Nat.eqb negb Nat.add STXBalance_size_of].
  set (a := to_be_bytes 16 (amount_unlocked b)). set (c := to_be_bytes 16 (amount_locked b)).
  set (d := to_be_bytes 8 (unlock_height b)).
  assert (length a = 16%nat) as La by apply length_to_be_bytes.
  assert (length c = 16%nat) as Lc by apply length_to_be_bytes.
  assert (length d = 8%nat) as Ld by apply length_to_be_bytes.
  rewrite (drop_app_length' (a ++ c) d 32), <-app_assoc by (rewrite length_app; lia).
  rewrite (take_app_length' a), (drop_app_length' a), (take_app_length' c) by done.
  rewrite <-Ld, firstn_all. subst a c d. unfold u64_max, u128_max in *.
  rewrite !from_to_be_bytes_small;
    [by destruct b|change (256 ^ Z.of_nat 8) with (2 ^ 64); lia|change (256 ^ Z.of_nat 16) with (2 ^ 128); lia..].
Qed.

Lemma unlock_spec {E : Type} (self : STXBalanceSnapshot) :
  STXBalance_wf (balance self) ->
  exists n b', unlock_available_tokens_if_any (E:=E) self = Ok (n, set_balance self b') /\
    STXBalance_wf b' /\ total b' = total (balance self) /\
    amount_unlocked b' = spendable (balance self) (burn_block_height self) /\
    has_unlockable_tokens_at_burn_block b' (burn_block_height self) = false /\
    (if has_unlockable_tokens_at_burn_block (balance self) (burn_block_height self)
     then b' = mkBalance (total (balance self)) 0 0 else b' = balance self).
Proof.
  destruct self as [p b h]. simpl. intros (H1 & H2 & H3 & H4).
  unfold unlock_available_tokens_if_any, spendable. cbn [balance burn_block_height].
  destruct (has_unlockable_tokens_at_burn_block b h) eqn:Hu; cbn [negb].
  - unfold checked_add. rewrite checked_ok by (unfold total, u128_max in *; simpl; unfold u128_max; lia).
    cbn [expect_some out_bind]. eexists _, (mkBalance (total b) 0 0). split; [done|].
    unfold STXBalance_wf, total, u64_max in *. simpl. repeat split; auto; lia.
  - exists 0, b. split; [done|]. repeat split; auto; lia.
Qed.

(** The part that stays locked at a burn block height. *)
Lemma spendable_locked (b : STXBalance) (h : Z) :
  spendable b h + fst (get_locked_balance_at_burn_block b h) = total b.
Proof. unfold spendable, get_locked_balance_at_burn_block, total. destruct (has_unlockable_tokens_at_burn_block b h); simpl; lia. Qed.

Lemma spendable_range (b : STXBalance) (h : Z) : STXBalance_wf b -> 0 <= spendable b h <= total b.
Proof. intros (H1 & H2 & _ & _). unfold spendable, total. destruct (has_unlockable_tokens_at_burn_block b h); lia. Qed.

(** [unlock_available_tokens_if_any] leaves the spendable and the locked part. *)
Lemma unlock_closed {E : Type} (self : STXBalanceSnapshot) :
  STXBalance_wf (balance self) ->
  let b := balance self in
  let h := burn_block_height self in
  exists n, unlock_available_tokens_if_any (E:=E) self =
    Ok (n, set_balance self (mkBalance (spendable b h) (fst (get_locked_balance_at_burn_block b h))
      (snd (get_locked_balance_at_burn_block b h)))).
Proof.
  intros Hwf b h. destruct (unlock_spec (E:=E) self Hwf) as (n & b' & -> & _ & _ & _ & _ & Hb'). exists n.
  subst b h. unfold spendable, get_locked_balance_at_burn_block.
  destruct (has_unlockable_tokens_at_burn_block _ _); rewrite Hb'; [done|]. by destruct (balance self).
Qed.

Lemma available_closed {E : Type} (self : STXBalanceSnapshot) :
  STXBalance_wf (balance self) ->
  get_available_balance (E:=E) self = Ok (spendable (balance self) (burn_block_height self)).
Proof.
  intros (H1 & H2 & _ & H4). unfold get_available_balance, get_total_balance, spendable, total in *.
  destruct (has_unlockable_tokens_at_burn_block _ _); [|done]. unfold checked_add.
  rewrite checked_ok; [done|]. simpl. lia.
Qed.

Lemma debit_closed {E : Type} (self : STXBalanceSnapshot) (amount : Z) :
  STXBalance_wf (balance self) -> 0 <= amount ->
  let b := balance self in
  let h := burn_block_height self in
  debit (E:=E) self amount =
    if amount <=? spendable b h then
      Ok (set_balance self (mkBalance (spendable b h - amount) (fst (get_locked_balance_at_burn_block b h))
        (snd (get_locked_balance_at_burn_block b h))))
    else Panic.
Proof.
  intros Hwf Ha b h. unfold debit. destruct (unlock_closed (E:=E) self Hwf) as [n ->]. cbn [out_bind].
  pose proof (spendable_range (balance self) (burn_block_height self) Hwf) as Hs. destruct Hwf as (_ & _ & _ & Ht).
  subst b h. unfold checked_sub. cbn [balance set_balance amount_unlocked amount_locked unlock_height].
  destruct (Z.leb_spec amount (spendable (balance self) (burn_block_height self))) as [Hle|Hgt].
  - rewrite checked_ok; [done|]. simpl. lia.
  - rewrite (proj2 (checked_None _ _)); [done|]. simpl. lia.
Qed.

Lemma credit_closed {E : Type} (self : STXBalanceSnapshot) (amount : Z) :
  STXBalance_wf (balance self) -> 0 <= amount ->
  let b := balance self in
  let h := burn_block_height self in
  credit (E:=E) self amount =
    if spendable b h + amount <=? u128_max then
      Ok (set_balance self (mkBalance (spendable b h + amount) (fst (get_locked_balance_at_burn_block b h))
        (snd (get_locked_balance_at_burn_block b h))))
    else Panic.
Proof.
  intros Hwf Ha b h. unfold credit. destruct (unlock_closed (E:=E) self Hwf) as [n ->]. cbn [out_bind].
  pose proof (spendable_range (balance self) (burn_block_height self) Hwf) as Hs.
  subst b h. unfold checked_add. cbn [balance set_balance amount_unlocked amount_locked unlock_height].
  destruct (Z.leb_spec (spendable (balance self) (burn_block_height self) + amount) u128_max) as [Hle|Hgt].
  - rewrite checked_ok; [done|]. simpl. lia.
  - rewrite (proj2 (checked_None _ _)); [done|]. simpl. lia.
Qed.

Lemma lock_closed {E : Type} (self : STXBalanceSnapshot) (amount unlock : Z) :
  STXBalance_wf (balance self) -> 0 <= burn_block_height self ->
  let b := balance self in
  let h := burn_block_height self in
  lock_tokens (E:=E) self amount unlock =
    if (0 <? amount) && (h <? unlock) && negb (has_locked_tokens self) && (amount <=? spendable b h) then
      Ok (set_balance self (mkBalance (spendable b h - amount) amount unlock))
    else Panic.
Proof.
  intros Hwf Hh b h. unfold lock_tokens. destruct (unlock_closed (E:=E) self Hwf) as [n ->]. cbn [out_bind].
  pose proof (spendable_range (balance self) (burn_block_height self) Hwf) as Hs. destruct Hwf as (Hu & Hl & _ & Ht).
  subst b h. cbn [balance set_balance burn_block_height amount_unlocked].
  destruct (Z.ltb_spec 0 amount) as [Ha|Ha]; cbn [negb andb]; [|done].
  rewrite Z.leb_antisym. destruct (Z.ltb_spec (burn_block_height self) unlock) as [Hb|Hb]; cbn [negb andb]; [|done].
  match goal with |- context [has_locked_tokens (set_balance self ?b')] =>
    assert (has_locked_tokens (set_balance self b') = has_locked_tokens self) as ->
  end.
  { unfold has_locked_tokens, has_locked_tokens_at_burn_block, get_locked_balance_at_burn_block,
      has_unlockable_tokens_at_burn_block. simpl.
    destruct (0 <? amount_locked (balance self)) eqn:El; simpl; [|by rewrite El].
    destruct (Z.leb_spec (unlock_height (balance self)) (burn_block_height self)); simpl; [|by rewrite El].
    symmetry. apply Z.ltb_ge. lia. }
  destruct (has_locked_tokens self); cbn [negb andb]; [done|]. unfold checked_sub.
  destruct (Z.leb_spec amount (spendable (balance self) (burn_block_height self))) as [Hle|Hgt].
  - rewrite checked_ok; [done|]. simpl. lia.
  - rewrite (proj2 (checked_None _ _)); [done|]. simpl. lia.
Qed.

(** The balance operations do exactly what their names say.  On a
    well-formed snapshot at burn height [h]: the available balance is the
    unlocked part plus the locked part once its lock has expired; debit takes
    from it or panics when it is short; credit adds to it or panics on
    overflow of the unlocked part; lock moves tokens from it to the locked
    part, and panics unless the amount is positive and available, the unlock
    height is in the future and nothing is locked; and available plus still
    locked is always the total. *)
Lemma snapshot_operations (self : STXBalanceSnapshot) (amount unlock : Z) :
  STXBalance_wf (balance self) -> 0 <= burn_block_height self -> 0 <= amount ->
  let b := balance self in
  let h := burn_block_height self in
  let '(locked, height) := get_locked_balance_at_burn_block b h in
  spendable b h + locked = total b /\
  get_available_balance (E:=VmError) self = Ok (spendable b h) /\
  debit (E:=VmError) self amount =
    (if amount <=? spendable b h then Ok (set_balance self (mkBalance (spendable b h - amount) locked height))
     else Panic) /\
  credit (E:=VmError) self amount =
    (if spendable b h + amount <=? u128_max then Ok (set_balance self (mkBalance (spendable b h + amount) locked height))
     else Panic) /\
  lock_tokens (E:=VmError) self amount unlock =
    (if (0 <? amount) && (h <? unlock) && negb (has_locked_tokens self) && (amount <=? spendable b h)
     then Ok (set_balance self (mkBalance (spendable b h - amount) amount unlock)) else Panic).
Proof.
  intros Hwf Hh Ha b h. pose proof (spendable_locked b h) as Hsl.
  pose proof (debit_closed (E:=VmError) self amount Hwf Ha) as Hd.
  pose proof (credit_closed (E:=VmError) self amount Hwf Ha) as Hc. subst b h. cbv zeta in Hd, Hc.
  destruct (get_locked_balance_at_burn_block (balance self) (burn_block_height self)) as [locked height].
  cbn [fst snd] in *. split; [done|]. split; [by apply available_closed|]. split; [exact Hd|]. split; [exact Hc|].
  by apply lock_closed.
Qed.

Lemma snapshot_operations_witness :
  lock_tokens (E:=VmError) (mkSnapshot (Standard StandardPrincipalData_transient) (mkBalance 100 50 10) 12) 120 20 =
  Ok (mkSnapshot (Standard StandardPrincipalData_transient) (mkBalance 30 120 20) 12).
Proof.
  apply (snapshot_operations (mkSnapshot (Standard StandardPrincipalData_transient) (mkBalance 100 50 10) 12) 120 20).
  - unfold STXBalance_wf, total, u64_max, u128_max. simpl. lia.
  - simpl. lia.
  - lia.
Defined.

(** A stored balance reads back: 40 bytes in hexadecimal, for every
    well-formed balance. *)
Lemma stx_balance_roundtrip (b : STXBalance) :
  STXBalance_wf b ->
  String.length (STXBalance_serialize b) = 80%nat /\
  STXBalance_deserialize (E:=VmError) (STXBalance_serialize b) = Ok b.
Proof.
  intros Hwf. split; [|by apply balance_roundtrip].
  unfold STXBalance_serialize. rewrite length_to_hex, !length_app, !length_to_be_bytes. done.
Qed.

Lemma stx_balance_roundtrip_witness :
  STXBalance_deserialize (E:=VmError) (STXBalance_serialize (mkBalance u128_max 0 7)) = Ok (mkBalance u128_max 0 7).
Proof. apply (stx_balance_roundtrip (mkBalance u128_max 0 7)). unfold STXBalance_wf, total, u64_max, u128_max. simpl. lia. Defined.

(** * Sums over keys *)
Section sums.
Context {K : Type} `{EqDecision K}.

Definition sum_over (f : K -> Z) (keys : list K) : Z := fold_right (fun k acc => f k + acc) 0 keys.

Lemma sum_over_ext (f g : K -> Z) (keys : list K) :
  (forall k, f k = g k) -> sum_over f keys = sum_over g keys.
Proof. intros Hfg. induction keys as [|k keys IH]; simpl; [done|]. by rewrite Hfg, IH. Qed.

Lemma sum_over_replace (f : K -> Z) (keys : list K) (a : K) (x : Z) :
  NoDup keys ->
  sum_over (fun k => if decide (k = a) then x else f k) keys =
  sum_over f keys + (if decide (a ∈ keys) then x - f a else 0).
Proof.
  induction 1 as [|k keys Hk Hnd IH]; [by rewrite decide_False by apply not_elem_of_nil|]. simpl. rewrite IH.
  destruct (decide (k = a)) as [->|Hne].
  - rewrite decide_False by done. rewrite decide_True by (constructor). lia.
  - destruct (decide (a ∈ keys)) as [Hin|Hin].
    + rewrite decide_True by by constructor. lia.
    + rewrite decide_False; [lia|]. by rewrite elem_of_cons; intros [->|?].
Qed.

Lemma sum_over_two (f : K -> Z) (keys : list K) (a b : K) (x y : Z) :
  NoDup keys -> a ∈ keys -> b ∈ keys -> a <> b ->
  sum_over (fun k => if decide (k = a) then x else if decide (k = b) then y else f k) keys =
  sum_over f keys - f a - f b + x + y.
Proof.
  intros Hnd Ha Hb Hab. rewrite (sum_over_replace (fun k => if decide (k = b) then y else f k)) by done.
  rewrite sum_over_replace by done. rewrite !decide_True by done. rewrite decide_False by done. lia.
Qed.

Lemma sum_over_nonneg (f : K -> Z) (keys : list K) : (forall k, 0 <= f k) -> 0 <= sum_over f keys.
Proof. intros Hf. induction keys as [|k keys IH]; simpl; [lia|]. specialize (Hf k). lia. Qed.
End sums.

(** * Accounts *)
Section account_lemmas.
Context {D : Digests} {S : Type} `{KvLaws S}.
Implicit Types (db : S).

(** The balance stored under a key. *)
Definition stored_balance db (key : string) : STXBalance :=
  match kv_view db key with
  | Some s => match STXBalance_deserialize (E:=VmError) s with Ok b => b | _ => STXBalance_zero end
  | None => STXBalance_zero
  end.

Definition account db (p : PrincipalData) : STXBalance := stored_balance db (make_key_for_account_balance p).

(** Ready, and every account holds a well-formed balance. *)
Definition db_ok db : Prop :=
  kv_ready db /\ forall p,
    match kv_view db (make_key_for_account_balance p) with
    | Some s => exists b, STXBalance_wf b /\ s = STXBalance_serialize b
    | None => True
    end.

Lemma zero_wf : STXBalance_wf STXBalance_zero.
Proof. unfold STXBalance_wf, total, u64_max, u128_max. simpl. lia. Qed.

Lemma account_wf db (p : PrincipalData) : db_ok db -> STXBalance_wf (account db p).
Proof.
  intros [_ Hall]. specialize (Hall p). unfold account, stored_balance.
  destruct (kv_view db _) as [s|]; [|apply zero_wf]. destruct Hall as (b & Hb & ->). by rewrite balance_roundtrip.
Qed.

Lemma db_get_balance db (p : PrincipalData) :
  db_ok db -> exists r, db_get STXBalance_deserialize db (make_key_for_account_balance p) = Ok r /\
    default STXBalance_zero r = account db p.
Proof.
  intros [Hready Hall]. specialize (Hall p). unfold db_get, account, stored_balance. rewrite kv_get_ok by done. cbn [out_bind].
  destruct (kv_view db _) as [s|]; [|by exists None]. destruct Hall as (b & Hb & ->). exists (Some b). cbn [decode_found].
  by rewrite !balance_roundtrip.
Qed.

Lemma get_account_ok db (p : PrincipalData) : db_ok db -> get_account_stx_balance db p = Ok (account db p).
Proof.
  intros Hok. unfold get_account_stx_balance. destruct (db_get_balance db p Hok) as (r & -> & Hr). cbn [out_bind].
  rewrite <-Hr. by destruct r.
Qed.

(** Storing a well-formed balance. *)
Lemma put_balance db (key : string) (b : STXBalance) :
  db_ok db -> STXBalance_wf b ->
  exists db', db_put STXBalance_serialize db key b = Ok db' /\ db_ok db' /\
    forall key', stored_balance db' key' = if decide (key' = key) then b else stored_balance db key'.
Proof.
  intros [Hready Hall] Hb. unfold db_put.
  destruct (kv_put_ok db key (STXBalance_serialize b) Hready) as (db' & -> & Hr' & Hv). exists db'.
  split; [done|]. split.
  - split; [done|]. intros p. rewrite Hv. destruct (decide _); [by exists b|apply Hall].
  - intros key'. unfold stored_balance. rewrite Hv. destruct (decide _); [by rewrite balance_roundtrip|done].
Qed.

(** The sender's balance after a transfer. *)
Definition debited (b : STXBalance) (h amount : Z) : STXBalance :=
  mkBalance (spendable b h - amount) (fst (get_locked_balance_at_burn_block b h))
    (snd (get_locked_balance_at_burn_block b h)).
Definition credited (b : STXBalance) (amount : Z) : STXBalance :=
  mkBalance (amount_unlocked b + amount) (amount_locked b) (unlock_height b).

Lemma debited_wf (b : STXBalance) (h amount : Z) :
  STXBalance_wf b -> 0 <= amount <= spendable b h -> STXBalance_wf (debited b h amount).
Proof.
  intros Hwf Ha. pose proof (spendable_locked b h) as Hsl. destruct Hwf as (H1 & H2 & H3 & H4).
  unfold STXBalance_wf, debited, total in *. simpl. unfold get_locked_balance_at_burn_block in *.
  destruct (has_unlockable_tokens_at_burn_block b h); simpl in *; repeat split; lia.
Qed.

Lemma debited_total (b : STXBalance) (h amount : Z) : total (debited b h amount) = total b - amount.
Proof. pose proof (spendable_locked b h). unfold total, debited in *. simpl. lia. Qed.

(** [transfer_to] on any two keys, equal or not. *)
Lemma transfer_to_spec db (from to : PrincipalData) (h amount : Z) :
  db_ok db -> 0 <= h -> 0 <= amount -> total (account db to) + amount <= u128_max ->
  let b := account db from in
  if amount <=? spendable b h then
    exists db', transfer_to (mkSnapshot from b h) db to amount = Ok db' /\ db_ok db' /\
      forall key, stored_balance db' key =
        if decide (key = make_key_for_account_balance from) then debited b h amount
        else if decide (key = make_key_for_account_balance to) then credited (account db to) amount
        else stored_balance db key
  else transfer_to (mkSnapshot from b h) db to amount = Err (InterpreterErr InterpErr.InsufficientBalance).
Proof.
  intros Hok Hh Ha Hfit b. pose proof (account_wf db from Hok) as Hwf. fold b in Hwf.
  unfold transfer_to, can_transfer. rewrite available_closed by done. cbn [out_bind balance burn_block_height].
  destruct (Z.leb_spec amount (spendable b h)) as [Hle|Hgt]; cbn [negb]; [|done].
  destruct (db_get_balance db to Hok) as (r & -> & Hr). cbn [out_bind]. rewrite Hr.
  destruct (account_wf db to Hok) as (T1 & T2 & T3 & T4). unfold total in Hfit.
  unfold checked_add. rewrite checked_ok by (simpl; lia). cbn [ok_or out_bind].
  rewrite debit_closed by done. cbn [balance burn_block_height]. rewrite (proj2 (Z.leb_le _ _) Hle). cbn [out_bind].
  fold (credited (account db to) amount).
  destruct (put_balance db (make_key_for_account_balance to) (credited (account db to) amount) Hok)
    as (db1 & -> & Hok1 & Hv1); [unfold STXBalance_wf, credited, total in *; simpl; repeat split; lia|].
  cbn [out_bind]. unfold save. cbn [principal balance set_balance].
  destruct (put_balance db1 (make_key_for_account_balance from) (debited b h amount) Hok1) as (db2 & Hput & Hok2 & Hv2);
    [by apply debited_wf|].
  exists db2. split; [exact Hput|]. split; [done|]. intros key. rewrite Hv2. destruct (decide _); [done|]. apply Hv1.
Qed.

(** What a list of accounts hold together. *)
Definition supply db (ps : list PrincipalData) : Z :=
  sum_over (fun k => total (stored_balance db k)) (map make_key_for_account_balance ps).
End account_lemmas.

Lemma stored_total_nonneg {D : Digests} {S : Type} `{KvLaws S} (db : S) (k : string) :
  0 <= total (stored_balance db k).
Proof.
  unfold stored_balance. destruct (kv_view db k) as [s|]; [|by vm_compute].
  unfold STXBalance_deserialize. destruct (hex_bytes s) as [l|e|]; [|by vm_compute..].
  cbn [expect out_bind]. destruct (negb _); [by vm_compute|]. unfold total. cbn [amount_unlocked amount_locked].
  pose proof (from_be_bytes_range (firstn 16 l)). pose proof (from_be_bytes_range (firstn 16 (skipn 16 l))). lia.
Qed.


(** A transfer between accounts that share a key destroys the amount.  Two
    different standard principals with unprintable versions (32 or more) have
    the same account key; a transfer from one to the other succeeds and lowers
    the balance both of them see, and every sum over accounts that counts it,
    by the amount. *)
Lemma transfer_between_unprintable_burns {D : Digests} {S : Type} `{KvLaws S}
    (db : S) (p q : StandardPrincipalData) (h amount : Z) :
  32 <= byte_to_Z (sp_version p) -> 32 <= byte_to_Z (sp_version q) ->
  db_ok db -> 0 <= h -> 0 <= amount <= spendable (account db (Standard p)) h ->
  total (account db (Standard p)) + amount <= u128_max ->
  account db (Standard q) = account db (Standard p) /\
  exists db', transfer_to (mkSnapshot (Standard p) (account db (Standard p)) h) db (Standard q) amount = Ok db' /\
    total (account db' (Standard p)) = total (account db (Standard p)) - amount /\
    total (account db' (Standard q)) = total (account db (Standard q)) - amount.
Proof.
  intros Hp Hq Hok Hh Ha Hfit.
  assert (make_key_for_account_balance (Standard q) = make_key_for_account_balance (Standard p)) as Hkey.
  { unfold make_key_for_account_balance, make_key_for_account. do 2 f_equal. simpl.
    unfold StandardPrincipalData_to_address, c32_address, c32_check_encode.
    by rewrite (proj2 (Z.leb_le _ _) Hp), (proj2 (Z.leb_le _ _) Hq). }
  assert (account db (Standard q) = account db (Standard p)) as Hacc by (unfold account; by rewrite Hkey).
  split; [done|]. rewrite <-Hacc in Hfit at 1.
  pose proof (transfer_to_spec db (Standard p) (Standard q) h amount Hok Hh ltac:(lia) Hfit) as Hspec. cbv zeta in Hspec.
  rewrite (proj2 (Z.leb_le _ _) (proj2 Ha)) in Hspec. destruct Hspec as (db' & Htr & Hok' & Hv).
  exists db'. split; [done|]. rewrite Hacc. unfold account at 1 3. rewrite Hkey, !Hv, !decide_True by done.
  by rewrite debited_total.
Qed.

(** * Instances *)
(** A wrapper with one open context over an empty in-memory store. *)
Definition example_db : RollbackWrapper (MemoryBackingStore Tables) := nest example_wrapper.

Lemma example_db_ok : db_ok (D:=mixing_digests) example_db.
Proof.
  split; [|done]. split; [done|]. split; [done|]. exists (mkJournal (mkMemory (mkTables ∅ ∅)) [mkFrame [] []] true).
  split; try done; by apply tracks_nil.
Qed.

Definition alice : StandardPrincipalData := mkStandard x16 (repeat x01 20).
Definition bob : StandardPrincipalData := mkStandard x16 (repeat x02 20).

(** [alice] with 100 tokens. *)
Lemma funded_db (p : PrincipalData) :
  exists db : RollbackWrapper (MemoryBackingStore Tables), db_ok (D:=mixing_digests) db /\
    forall key, stored_balance db key =
      if decide (key = make_key_for_account_balance (D:=mixing_digests) p) then mkBalance 100 0 0 else STXBalance_zero.
Proof.
  destruct (@put_balance mixing_digests _ _ _ example_db (make_key_for_account_balance (D:=mixing_digests) p)
    (mkBalance 100 0 0) example_db_ok) as (db & _ & Hok & Hv).
  - unfold STXBalance_wf, total, u64_max, u128_max. simpl. lia.
  - by exists db.
Qed.


Lemma transfer_between_unprintable_burns_witness :
  exists db db' : RollbackWrapper (MemoryBackingStore Tables),
    transfer_to (D:=mixing_digests) (mkSnapshot (Standard (mkStandard x20 (repeat x01 20))) (mkBalance 100 0 0) 5) db
      (Standard (mkStandard x21 (repeat x02 20))) 30 = Ok db' /\
    total (account (D:=mixing_digests) db' (Standard (mkStandard x21 (repeat x02 20)))) = 70.
Proof.
  destruct (funded_db (Standard (mkStandard x20 (repeat x01 20)))) as (db & Hok & Hv). exists db.
  assert (account (D:=mixing_digests) db (Standard (mkStandard x20 (repeat x01 20))) = mkBalance 100 0 0) as Ha
    by (unfold account; by rewrite Hv, decide_True).
  destruct (@transfer_between_unprintable_burns mixing_digests _ _ _ db (mkStandard x20 (repeat x01 20))
    (mkStandard x21 (repeat x02 20)) 5 30) as (Hq & db' & Htr & _ & Htot).
  - vm_compute. discriminate.
  - vm_compute. discriminate.
  - done.
  - lia.
  - rewrite Ha. vm_compute. split; discriminate.
  - rewrite Ha. vm_compute. discriminate.
  - exists db'. rewrite Ha in *. split; [exact Htr|]. rewrite Htot, Hq. reflexivity.
Defined.
