(* ===== verification/Assets.v ===== *)
(** Assets: the native functions that move STX, fungible and non-fungible
    tokens (clarity/src/vm/functions/assets.rs), on the execution context of
    GlobalContext.v and the database of ClarityState.v.

    A native function receives its arguments unevaluated.  An argument is
    modelled by the name it matches as an atom, if it does, and by what
    [eval] does to the context when it evaluates it. *)
From Stdlib Require Import ZArith Lia Strings.Byte Strings.String List Bool.
From stdpp Require Import base decidable list strings option gmap.
From S2P Require Import Prelude Bytes Codec Representations BTree Types Signatures Admission Values.
From S2P Require Import Serialization AssetMap Hashes C32 Principals BackingStore RollbackWrapper RollbackRefinement.
From S2P Require Import Events GlobalContext ClarityDb ClarityState StxBalance Costs Contexts.
Open Scope Z_scope.

(** * Error codes *)
Definition Mint_ALREADY_EXIST : Z := 1.
Definition MintToken_NON_POSITIVE_AMOUNT : Z := 1.
Definition TransferAsset_NOT_OWNED_BY : Z := 1.
Definition TransferAsset_SENDER_IS_RECIPIENT : Z := 2.
Definition TransferAsset_DOES_NOT_EXIST : Z := 3.
Definition TransferToken_NOT_ENOUGH_BALANCE : Z := 1.
Definition TransferToken_SENDER_IS_RECIPIENT : Z := 2.
Definition TransferToken_NON_POSITIVE_AMOUNT : Z := 3.
Definition BurnAsset_NOT_OWNED_BY : Z := 1.
Definition BurnAsset_DOES_NOT_EXIST : Z := 3.
Definition BurnToken_NOT_ENOUGH_BALANCE : Z := 1.
Definition WithdrawAsset_NOT_OWNED_BY : Z := 1.
Definition WithdrawAsset_DOES_NOT_EXIST : Z := 3.
Definition WithdrawAsset_ASSET_WITHDRAWAL_PROHIBITED : Z := 4.
Definition WithdrawToken_NOT_ENOUGH_BALANCE : Z := 1.
Definition WithdrawToken_NON_POSITIVE_AMOUNT : Z := 3.
Definition Stx_NOT_ENOUGH_BALANCE : Z := 1.
Definition Stx_SENDER_IS_RECIPIENT : Z := 2.
Definition Stx_NON_POSITIVE_AMOUNT : Z := 3.
Definition Stx_SENDER_IS_NOT_TX_SENDER : Z := 4.

Section natives.
Context {O : HashOrder} {D : Digests} {J : SerdeJson} {N : HeadersDB}.
Context {C S T : Type} `{Sqlite C} `{!ClarityBackingStore C S} `{!CostTracker T}.
Notation G := (GlobalContext S T).
Notation fallible A := (outcome (G * VmError) A).

(** A [SymbolicExpression] in argument position. *)
Record Arg := mkArg {
  arg_atom : option string;
  arg_eval : G -> fallible (G * Value)
}.

Definition check_argument_count {A : Type} (expected : nat) (args : list A) (self : G) : fallible unit :=
  if negb (Nat.eqb (length args) expected)
  then Err (self, Unchecked (CheckErr.IncorrectArgumentCount (Z.of_nat expected) (Z.of_nat (length args))))
  else Ok tt.

(** [args[i]], which panics out of range. *)
Definition arg (args : list Arg) (i : nat) : fallible Arg := expect_some (nth_error args i).
Definition eval_arg (args : list Arg) (i : nat) (self : G) : fallible (G * Value) :=
  let? a := arg args i in arg_eval a self.
Definition atom_arg (args : list Arg) (i : nat) (self : G) : fallible string :=
  let? a := arg args i in ok_or (self, Unchecked CheckErr.BadTokenName) (arg_atom a).

Definition set_tracker (self : G) (t : T) : G :=
  mkGlobal (asset_maps self) (event_batches self) (database self) (read_only self) t (mainnet self) (epoch_id self).
(** A method of the tracker, with [?]. *)
Definition track (self : G) (f : T -> outcome (T * CostErrors) T) : fallible G :=
  match f (cost_track self) with
  | Ok t => Ok (set_tracker self t)
  | Err (t, e) => Err (set_tracker self t, Error_from_cost e)
  | Panic => Panic
  end.
Definition env_runtime_cost (f : ClarityCostFunction) (self : G) (input : Z) : fallible G :=
  track self (fun t => runtime_cost f t input).
Definition env_add_memory (self : G) (mem : Z) : fallible G := track self (fun t => add_memory t mem).

(** A query of the database and an update of it, with [?]. *)
Definition read_db {A : Type} (self : G) (m : outcome VmError A) : fallible A := map_err (pair self) m.
Definition write_db (self : G) (m : outcome VmError (RollbackWrapper S)) : fallible G :=
  let? db := map_err (pair self) m in
  Ok (set_stacks self (asset_maps self) (event_batches self) db (read_only self)).

(** [clarity_ecode!] *)
Definition clarity_ecode (self : G) (code : Z) : fallible (G * Value) := Ok (self, Value_err_uint code).
Definition okay_true (self : G) : fallible (G * Value) := Ok (self, Value_okay_true).

Definition type_size_u64 (t : TypeSignature) : outcome VmError Z := TypeSignature_size t.

(** * STX *)
(** [get_stx_balance_snapshot] at the current height of the burnchain. *)
Definition stx_snapshot (self : G) (p : PrincipalData) : fallible STXBalanceSnapshot :=
  read_db self (
    let? h := get_current_burnchain_block_height (database self) in
    get_stx_balance_snapshot (database self) h p).

Definition special_stx_balance (args : list Arg) (env : Environment) (self : G) : fallible (G * Value) :=
  let? _ := check_argument_count 1 args self in
  let? self := env_runtime_cost CostFunction.StxBalance self 0 in
  let? '(self, owner) := eval_arg args 0 self in
  match owner with
  | VPrincipal principal =>
      let? snapshot := stx_snapshot self principal in
      let? balance := read_db self (get_available_balance snapshot) in
      Ok (self, VUInt balance)
  | _ => Err (self, Unchecked (CheckErr.TypeValueError PrincipalType owner))
  end.

Definition principal_size (self : G) : fallible Z := read_db self (type_size_u64 PrincipalType).
Definition uint_size (self : G) : fallible Z := read_db self (type_size_u64 UIntType).
(** [env.add_memory(TypeSignature::PrincipalType.size() as u64)?] *)
Definition charge_principal (self : G) : fallible G :=
  let? n := principal_size self in env_add_memory self n.
Definition charge_uint (self : G) : fallible G :=
  let? n := uint_size self in env_add_memory self n.
Definition charge_balance (self : G) : fallible G := env_add_memory self (Z.of_nat STXBalance_size_of).

Definition stx_transfer_consolidated (env : Environment) (self : G) (from to : PrincipalData) (amount : Z)
  : fallible (G * Value) :=
  if amount =? 0 then clarity_ecode self Stx_NON_POSITIVE_AMOUNT else
  if bool_decide (from = to) then clarity_ecode self Stx_SENDER_IS_RECIPIENT else
  if negb (bool_decide (Some from = env_sender env)) then clarity_ecode self Stx_SENDER_IS_NOT_TX_SENDER else
  let? self := charge_principal self in
  let? self := charge_principal self in
  let? self := charge_balance self in
  let? self := charge_balance self in
  let? sender_snapshot := stx_snapshot self from in
  let? ok := read_db self (can_transfer sender_snapshot amount) in
  if negb ok then clarity_ecode self Stx_NOT_ENOUGH_BALANCE else
  let? self := write_db self (transfer_to sender_snapshot (database self) to amount) in
  let? self := log_stx_transfer self from amount in
  let self := register_stx_transfer_event self from to amount in
  okay_true self.

Definition special_stx_transfer (args : list Arg) (env : Environment) (self : G) : fallible (G * Value) :=
  let? _ := check_argument_count 3 args self in
  let? self := env_runtime_cost CostFunction.StxTransfer self 0 in
  let? '(self, amount_val) := eval_arg args 0 self in
  let? '(self, from_val) := eval_arg args 1 self in
  let? '(self, to_val) := eval_arg args 2 self in
  match from_val, to_val, amount_val with
  | VPrincipal from, VPrincipal to, VUInt amount => stx_transfer_consolidated env self from to amount
  | _, _, _ => Err (self, Unchecked CheckErr.BadTransferSTXArguments)
  end.

(** The common body of [special_stx_burn] and [special_stx_withdraw], which differ
    in their cost function and their event. *)
Definition stx_destroy (cost : ClarityCostFunction) (register : G -> PrincipalData -> Z -> G)
    (args : list Arg) (env : Environment) (self : G) : fallible (G * Value) :=
  let? _ := check_argument_count 2 args self in
  let? self := env_runtime_cost cost self 0 in
  let? '(self, amount_val) := eval_arg args 0 self in
  let? '(self, from_val) := eval_arg args 1 self in
  match from_val, amount_val with
  | VPrincipal from, VUInt amount =>
      if amount =? 0 then clarity_ecode self Stx_NON_POSITIVE_AMOUNT else
      if negb (bool_decide (Some from = env_sender env)) then clarity_ecode self Stx_SENDER_IS_NOT_TX_SENDER else
      let? self := charge_principal self in
      let? self := charge_balance self in
      let? snapshot := stx_snapshot self from in
      let? ok := read_db self (can_transfer snapshot amount) in
      if negb ok then clarity_ecode self Stx_NOT_ENOUGH_BALANCE else
      let? snapshot := read_db self (debit snapshot amount) in
      let? self := write_db self (save snapshot (database self)) in
      let? self := write_db self (decrement_ustx_liquid_supply (database self) amount) in
      let? self := log_stx_burn self from amount in
      let self := register self from amount in
      okay_true self
  | _, _ => Err (self, Unchecked CheckErr.BadTransferSTXArguments)
  end.
Definition special_stx_burn := stx_destroy CostFunction.StxTransfer register_stx_burn_event.
Definition special_stx_withdraw :=
  stx_destroy CostFunction.StxWithdraw register_stx_withdraw_event.

(** * Fungible tokens *)
Definition self_contract (env : Environment) : QualifiedContractIdentifier := contract_identifier (contract_context env).

Definition ft_info (env : Environment) (self : G) (token_name : string) : fallible FungibleTokenMetadata :=
  ok_or (self, Unchecked (CheckErr.NoSuchFT token_name)) (meta_ft (contract_context env) !! token_name).

Definition special_mint_token (args : list Arg) (env : Environment) (self : G) : fallible (G * Value) :=
  let? _ := check_argument_count 3 args self in
  let? self := env_runtime_cost CostFunction.FtMint self 0 in
  let? token_name := atom_arg args 0 self in
  let? '(self, amount) := eval_arg args 1 self in
  let? '(self, to) := eval_arg args 2 self in
  match amount, to with
  | VUInt amount, VPrincipal to_principal =>
      if amount =? 0 then clarity_ecode self MintToken_NON_POSITIVE_AMOUNT else
      let? info := ft_info env self token_name in
      let? self := write_db self
        (checked_increase_token_supply (database self) (self_contract env) token_name amount info) in
      let? to_bal := read_db self
        (get_ft_balance (database self) (self_contract env) token_name to_principal (Some info)) in
      let? final_to_bal := expect_some (checked_add u128_ty to_bal amount) in
      let? self := charge_principal self in
      let? self := charge_uint self in
      let? self := write_db self
        (set_ft_balance (database self) (self_contract env) token_name to_principal final_to_bal) in
      let asset_identifier := mkAssetId (self_contract env) token_name in
      let self := register_ft_mint_event self to_principal amount asset_identifier in
      okay_true self
  | _, _ => Err (self, Unchecked CheckErr.BadMintFTArguments)
  end.

Definition special_transfer_token (args : list Arg) (env : Environment) (self : G) : fallible (G * Value) :=
  let? _ := check_argument_count 4 args self in
  let? self := env_runtime_cost CostFunction.FtTransfer self 0 in
  let? token_name := atom_arg args 0 self in
  let? '(self, amount) := eval_arg args 1 self in
  let? '(self, from) := eval_arg args 2 self in
  let? '(self, to) := eval_arg args 3 self in
  match amount, from, to with
  | VUInt amount, VPrincipal from_principal, VPrincipal to_principal =>
      if amount =? 0 then clarity_ecode self TransferToken_NON_POSITIVE_AMOUNT else
      if bool_decide (from_principal = to_principal) then clarity_ecode self TransferToken_SENDER_IS_RECIPIENT else
      let? info := ft_info env self token_name in
      let? from_bal := read_db self
        (get_ft_balance (database self) (self_contract env) token_name from_principal (Some info)) in
      if from_bal <? amount then clarity_ecode self TransferToken_NOT_ENOUGH_BALANCE else
      let final_from_bal := from_bal - amount in
      let? to_bal := read_db self
        (get_ft_balance (database self) (self_contract env) token_name to_principal (Some info)) in
      let? final_to_bal := ok_or (self, Runtime RuntimeErr.ArithmeticOverflow) (checked_add u128_ty to_bal amount) in
      let? self := charge_principal self in
      let? self := charge_principal self in
      let? self := charge_uint self in
      let? self := charge_uint self in
      let? self := write_db self
        (set_ft_balance (database self) (self_contract env) token_name from_principal final_from_bal) in
      let? self := write_db self
        (set_ft_balance (database self) (self_contract env) token_name to_principal final_to_bal) in
      let? self := log_token_transfer self from_principal (self_contract env) token_name amount in
      let asset_identifier := mkAssetId (self_contract env) token_name in
      let self := register_ft_transfer_event self from_principal to_principal amount asset_identifier in
      okay_true self
  | _, _, _ => Err (self, Unchecked CheckErr.BadTransferFTArguments)
  end.

Definition special_get_balance (args : list Arg) (env : Environment) (self : G) : fallible (G * Value) :=
  let? _ := check_argument_count 2 args self in
  let? self := env_runtime_cost CostFunction.FtBalance self 0 in
  let? token_name := atom_arg args 0 self in
  let? '(self, owner) := eval_arg args 1 self in
  match owner with
  | VPrincipal principal =>
      let? info := ft_info env self token_name in
      let? balance := read_db self
        (get_ft_balance (database self) (self_contract env) token_name principal (Some info)) in
      Ok (self, VUInt balance)
  | _ => Err (self, Unchecked (CheckErr.TypeValueError PrincipalType owner))
  end.

Definition special_get_token_supply (args : list Arg) (env : Environment) (self : G) : fallible (G * Value) :=
  let? _ := check_argument_count 1 args self in
  let? self := env_runtime_cost CostFunction.FtSupply self 0 in
  let? token_name := atom_arg args 0 self in
  let? supply := read_db self (get_ft_supply (database self) (self_contract env) token_name) in
  Ok (self, VUInt supply).

(** The common body of [special_burn_token] and [special_withdraw_token], which
    differ in their cost function, two error values and their event. *)
Definition ft_destroy (cost : ClarityCostFunction) (non_positive not_enough : Z) (bad : CheckErrors)
    (register : G -> PrincipalData -> Z -> AssetIdentifier -> G)
    (args : list Arg) (env : Environment) (self : G) : fallible (G * Value) :=
  let? _ := check_argument_count 3 args self in
  let? self := env_runtime_cost cost self 0 in
  let? token_name := atom_arg args 0 self in
  let? '(self, amount) := eval_arg args 1 self in
  let? '(self, from) := eval_arg args 2 self in
  match amount, from with
  | VUInt amount, VPrincipal burner =>
      if amount =? 0 then clarity_ecode self non_positive else
      let? burner_bal := read_db self (get_ft_balance (database self) (self_contract env) token_name burner None) in
      if burner_bal <? amount then clarity_ecode self not_enough else
      let? self := write_db self
        (checked_decrease_token_supply (database self) (self_contract env) token_name amount) in
      let final_burner_bal := burner_bal - amount in
      let? self := write_db self
        (set_ft_balance (database self) (self_contract env) token_name burner final_burner_bal) in
      let asset_identifier := mkAssetId (self_contract env) token_name in
      let self := register self burner amount asset_identifier in
      let? self := charge_principal self in
      let? self := charge_uint self in
      let? self := log_token_transfer self burner (self_contract env) token_name amount in
      okay_true self
  | _, _ => Err (self, Unchecked bad)
  end.
(** A burn of nothing reports the code of [MintTokenErrorCodes]. *)
Definition special_burn_token :=
  ft_destroy CostFunction.FtBurn MintToken_NON_POSITIVE_AMOUNT BurnToken_NOT_ENOUGH_BALANCE
    CheckErr.BadBurnFTArguments register_ft_burn_event.
Definition special_withdraw_token :=
  ft_destroy CostFunction.FtWithdraw WithdrawToken_NON_POSITIVE_AMOUNT WithdrawToken_NOT_ENOUGH_BALANCE
    CheckErr.BadWithdrawFTArguments register_ft_withdraw_event.

(** * Non-fungible tokens *)
(** The two versions of a function differ in the size they charge for the asset:
    the declared size in epoch 2.0, the serialized size from epoch 2.05 on. *)
Definition v200_size (t : TypeSignature) (asset : Value) : outcome VmError Z := type_size_u64 t.
Definition v205_size (t : TypeSignature) (asset : Value) : outcome VmError Z := serialized_size asset.

Definition expected_asset_type (env : Environment) (self : G) (asset_name : string) : fallible TypeSignature :=
  let? m := ok_or (self, Unchecked (CheckErr.NoSuchNFT asset_name)) (meta_nft (contract_context env) !! asset_name) in
  Ok (nft_key_type m).

(** [get_nft_owner], with its error for a missing token as [None]. *)
Definition nft_owner (env : Environment) (self : G) (asset_name : string) (asset : Value) (t : TypeSignature)
  : fallible (option PrincipalData) :=
  match get_nft_owner (database self) (self_contract env) asset_name asset t with
  | Ok owner => Ok (Some owner)
  | Err (Runtime RuntimeErr.NoSuchToken) => Ok None
  | Err e => Err (self, e)
  | Panic => Panic
  end.

Definition mint_asset (size : TypeSignature -> Value -> outcome VmError Z)
    (args : list Arg) (env : Environment) (self : G) : fallible (G * Value) :=
  let? _ := check_argument_count 3 args self in
  let? asset_name := atom_arg args 0 self in
  let? '(self, asset) := eval_arg args 1 self in
  let? '(self, to) := eval_arg args 2 self in
  let? t := expected_asset_type env self asset_name in
  let? asset_size := read_db self (size t asset) in
  let? self := env_runtime_cost CostFunction.NftMint self asset_size in
  let? _ := read_db self (check_admits t asset) in
  match to with
  | VPrincipal to_principal =>
      let? owner := nft_owner env self asset_name asset t in
      match owner with
      | Some _ => clarity_ecode self Mint_ALREADY_EXIST
      | None =>
          let? self := charge_principal self in
          let? self := env_add_memory self asset_size in
          let? self := write_db self (set_nft_owner (database self) (self_contract env) asset_name asset to_principal t) in
          let asset_identifier := mkAssetId (self_contract env) asset_name in
          let self := register_nft_mint_event self to_principal asset asset_identifier in
          okay_true self
      end
  | _ => Err (self, Unchecked (CheckErr.TypeValueError PrincipalType to))
  end.
Definition special_mint_asset_v200 := mint_asset v200_size.
Definition special_mint_asset_v205 := mint_asset v205_size.

Definition transfer_asset (size : TypeSignature -> Value -> outcome VmError Z)
    (args : list Arg) (env : Environment) (self : G) : fallible (G * Value) :=
  let? _ := check_argument_count 4 args self in
  let? asset_name := atom_arg args 0 self in
  let? '(self, asset) := eval_arg args 1 self in
  let? '(self, from) := eval_arg args 2 self in
  let? '(self, to) := eval_arg args 3 self in
  let? t := expected_asset_type env self asset_name in
  let? asset_size := read_db self (size t asset) in
  let? self := env_runtime_cost CostFunction.NftTransfer self asset_size in
  let? _ := read_db self (check_admits t asset) in
  match from, to with
  | VPrincipal from_principal, VPrincipal to_principal =>
      if bool_decide (from_principal = to_principal) then clarity_ecode self TransferAsset_SENDER_IS_RECIPIENT else
      let? owner := nft_owner env self asset_name asset t in
      match owner with
      | None => clarity_ecode self TransferAsset_DOES_NOT_EXIST
      | Some current_owner =>
          if negb (bool_decide (current_owner = from_principal)) then clarity_ecode self TransferAsset_NOT_OWNED_BY else
          let? self := charge_principal self in
          let? self := env_add_memory self asset_size in
          let? self := write_db self (set_nft_owner (database self) (self_contract env) asset_name asset to_principal t) in
          let? self := log_asset_transfer self from_principal (self_contract env) asset_name asset in
          let asset_identifier := mkAssetId (self_contract env) asset_name in
          let self := register_nft_transfer_event self from_principal to_principal asset asset_identifier in
          okay_true self
      end
  | _, _ => Err (self, Unchecked CheckErr.BadTransferNFTArguments)
  end.
Definition special_transfer_asset_v200 := transfer_asset v200_size.
Definition special_transfer_asset_v205 := transfer_asset v205_size.

Definition get_owner (size : TypeSignature -> Value -> outcome VmError Z)
    (args : list Arg) (env : Environment) (self : G) : fallible (G * Value) :=
  let? _ := check_argument_count 2 args self in
  let? asset_name := atom_arg args 0 self in
  let? '(self, asset) := eval_arg args 1 self in
  let? t := expected_asset_type env self asset_name in
  let? asset_size := read_db self (size t asset) in
  let? self := env_runtime_cost CostFunction.NftOwner self asset_size in
  let? _ := read_db self (check_admits t asset) in
  let? owner := nft_owner env self asset_name asset t in
  match owner with
  | Some owner => let? v := expect (Value_some (VPrincipal owner)) in Ok (self, v)
  | None => Ok (self, Value_none)
  end.
Definition special_get_owner_v200 := get_owner v200_size.
Definition special_get_owner_v205 := get_owner v205_size.

Definition burn_asset (size : TypeSignature -> Value -> outcome VmError Z)
    (args : list Arg) (env : Environment) (self : G) : fallible (G * Value) :=
  let? _ := check_argument_count 3 args self in
  let? self := env_runtime_cost CostFunction.NftBurn self 0 in
  let? asset_name := atom_arg args 0 self in
  let? '(self, asset) := eval_arg args 1 self in
  let? '(self, sender) := eval_arg args 2 self in
  let? t := expected_asset_type env self asset_name in
  let? asset_size := read_db self (size t asset) in
  let? self := env_runtime_cost CostFunction.NftBurn self asset_size in
  let? _ := read_db self (check_admits t asset) in
  match sender with
  | VPrincipal sender_principal =>
      let? owner := nft_owner env self asset_name asset t in
      match owner with
      | None => clarity_ecode self BurnAsset_DOES_NOT_EXIST
      | Some owner =>
          if negb (bool_decide (owner = sender_principal)) then clarity_ecode self BurnAsset_NOT_OWNED_BY else
          let? self := charge_principal self in
          let? self := env_add_memory self asset_size in
          let? self := write_db self (burn_nft (database self) (self_contract env) asset_name asset t) in
          let? self := log_asset_transfer self sender_principal (self_contract env) asset_name asset in
          let asset_identifier := mkAssetId (self_contract env) asset_name in
          let self := register_nft_burn_event self sender_principal asset asset_identifier in
          okay_true self
      end
  | _ => Err (self, Unchecked (CheckErr.TypeValueError PrincipalType sender))
  end.
Definition special_burn_asset_v200 := burn_asset v200_size.
Definition special_burn_asset_v205 := burn_asset v205_size.

Definition special_withdraw_asset (args : list Arg) (env : Environment) (self : G) : fallible (G * Value) :=
  let? _ := check_argument_count 3 args self in
  let? self := env_runtime_cost CostFunction.NftWithdraw self 0 in
  let? asset_name := atom_arg args 0 self in
  let? '(self, asset) := eval_arg args 1 self in
  let? '(self, sender) := eval_arg args 2 self in
  let? t := expected_asset_type env self asset_name in
  let? asset_size := read_db self (v205_size t asset) in
  let? self := env_runtime_cost CostFunction.NftWithdraw self asset_size in
  let? _ := read_db self (check_admits t asset) in
  match sender with
  | VPrincipal sender_principal =>
      let? owner := nft_owner env self asset_name asset t in
      match owner with
      | None => clarity_ecode self WithdrawAsset_DOES_NOT_EXIST
      | Some owner =>
          if negb (bool_decide (owner = sender_principal)) then clarity_ecode self WithdrawAsset_NOT_OWNED_BY else
          match asset with
          | VUInt id =>
              let? self := charge_principal self in
              let? self := env_add_memory self asset_size in
              let? self := write_db self (burn_nft (database self) (self_contract env) asset_name asset t) in
              let? self := log_asset_transfer self sender_principal (self_contract env) asset_name asset in
              let asset_identifier := mkAssetId (self_contract env) asset_name in
              let self := register_nft_withdraw_event self sender_principal id asset_identifier in
              okay_true self
          | _ => clarity_ecode self WithdrawAsset_ASSET_WITHDRAWAL_PROHIBITED
          end
      end
  | _ => Err (self, Unchecked (CheckErr.TypeValueError PrincipalType sender))
  end.

(** [switch_on_global_epoch!] *)
Definition switch_on_global_epoch {A B : Type} (v200 v205 : A -> B -> G -> fallible (G * Value))
    (a : A) (b : B) (self : G) : fallible (G * Value) :=
  match StacksEpochId_try_from (epoch_id self) with
  | Some Epoch20 => v200 a b self
  | Some Epoch2_05 => v205 a b self
  | _ => Panic
  end.
Definition special_mint_asset := switch_on_global_epoch special_mint_asset_v200 special_mint_asset_v205.
Definition special_transfer_asset := switch_on_global_epoch special_transfer_asset_v200 special_transfer_asset_v205.
Definition special_get_owner := switch_on_global_epoch special_get_owner_v200 special_get_owner_v205.
Definition special_burn_asset := switch_on_global_epoch special_burn_asset_v200 special_burn_asset_v205.
End natives.
