(* ===== verification/Machine.v ===== *)
(** Machine: the state the interpreter works on, and the operations by which it
    reads and changes that state.

    Evaluation threads the global context and the call stack.  The call stack
    travels beside the cost tracker, the other part of the state that the native
    functions only pass on, so that those of Assets.v apply as they are.  A
    computation of type [M A] changes the state and returns a value or an error;
    an error also returns the state, as [?] leaves every change in place. *)
From Stdlib Require Import ZArith Lia Strings.Byte Strings.String List Bool.
From stdpp Require Import base decidable list strings option gmap.
From S2P Require Import Prelude Bytes Codec Representations BTree Types Signatures Admission Values.
From S2P Require Import Serialization AssetMap Hashes C32 Principals BackingStore RollbackWrapper RollbackRefinement.
From S2P Require Import Events GlobalContext ClarityDb ClarityState StxBalance Costs Contexts Assets.
Open Scope Z_scope.

(** * State *)
Record Tracked (T : Type) := mkTracked { tracked : T; stack_of : CallStack }.
Arguments mkTracked {T} _ _.
Arguments tracked {T} _.
Arguments stack_of {T} _.

(** A method of the tracker leaves the call stack. *)
Definition on_tracker {T A B : Type} (cs : CallStack) (m : outcome (T * CostErrors) A) (f : A -> B)
  : outcome (Tracked T * CostErrors) B :=
  match m with
  | Ok a => Ok (f a)
  | Err (t, e) => Err (mkTracked t cs, e)
  | Panic => Panic
  end.

#[export] Instance Tracked_tracker {T : Type} `{CostTracker T} : CostTracker (Tracked T) := {|
  compute_cost self f input := on_tracker (stack_of self) (compute_cost (tracked self) f input)
    (fun '(t, c) => (mkTracked t (stack_of self), c));
  add_cost self c := on_tracker (stack_of self) (add_cost (tracked self) c) (fun t => mkTracked t (stack_of self));
  add_memory self n := on_tracker (stack_of self) (add_memory (tracked self) n) (fun t => mkTracked t (stack_of self));
  drop_memory self n := on_tracker (stack_of self) (drop_memory (tracked self) n) (fun t => mkTracked t (stack_of self));
  reset_memory self := mkTracked (reset_memory (tracked self)) (stack_of self);
  short_circuit_contract_call self c f input :=
    on_tracker (stack_of self) (short_circuit_contract_call (tracked self) c f input)
      (fun '(t, b) => (mkTracked t (stack_of self), b))
|}.

(** What the interpreter needs of its surroundings: how a contract is stored,
    the tracker that charges nothing, and the handler of the store for contract
    calls, which sees the global context but not the call stack. *)
Class Host (S T : Type) := {
  json_contract : json_codec ContractContext;
  free_tracker : T;
  get_cc_special_cases_handler : S -> option (GlobalContext S T -> option PrincipalData -> QualifiedContractIdentifier ->
    string -> Value -> outcome (GlobalContext S T * VmError) (GlobalContext S T))
}.

Section machine.
Context {O : HashOrder} {D : Digests} {J : SerdeJson} {N : HeadersDB}.
Context {C S T : Type} `{Sqlite C} `{!ClarityBackingStore C S} `{!CostTracker T} `{!Host S T}.
Notation G := (GlobalContext S (Tracked T)).

Definition call_stack (g : G) : CallStack := stack_of (cost_track g).
Definition with_stack (g : G) (cs : CallStack) : G := set_tracker g (mkTracked (tracked (cost_track g)) cs).
(** The global context without, and with, the call stack. *)
Definition without_stack (g : G) : GlobalContext S T :=
  mkGlobal (asset_maps g) (event_batches g) (database g) (read_only g) (tracked (cost_track g)) (mainnet g) (epoch_id g).
Definition add_stack (g : GlobalContext S T) (cs : CallStack) : G :=
  mkGlobal (asset_maps g) (event_batches g) (database g) (read_only g) (mkTracked (cost_track g) cs) (mainnet g) (epoch_id g).

(** * Computations *)
Definition M (A : Type) : Type := G -> outcome (G * VmError) (G * A).

Definition m_ret {A : Type} (a : A) : M A := fun g => Ok (g, a).
Definition m_bind {A B : Type} (m : M A) (k : A -> M B) : M B := fun g => let? '(g, a) := m g in k a g.
Definition raise {A : Type} (e : VmError) : M A := fun g => Err (g, e).
Definition check_failed {A : Type} (e : CheckErrors) : M A := raise (Unchecked e).
(** A computation without state. *)
Definition lift {A : Type} (m : outcome VmError A) : M A :=
  fun g => match m with Ok a => Ok (g, a) | Err e => Err (g, e) | Panic => Panic end.
(** The result of a computation, for code that goes on after an error. *)
Definition attempt {A : Type} (m : M A) : M (outcome VmError A) :=
  fun g => match m g with Ok (g, a) => Ok (g, Ok a) | Err (g, e) => Ok (g, Err e) | Panic => Panic end.
Definition update (f : G -> outcome (G * VmError) G) : M unit := fun g => let? g := f g in Ok (g, tt).

(** Queries and updates of the database. *)
Definition query {A : Type} (f : RollbackWrapper S -> outcome VmError A) : M A := fun g => lift (f (database g)) g.
Definition update_db {A : Type} (f : RollbackWrapper S -> outcome VmError (A * RollbackWrapper S)) : M A :=
  fun g => match f (database g) with
    | Ok (a, db) => Ok (set_stacks g (asset_maps g) (event_batches g) db (read_only g), a)
    | Err e => Err (g, e)
    | Panic => Panic
    end.

(** The cost tracker. *)
Definition cost (f : ClarityCostFunction) (input : Z) : M unit := update (fun g => env_runtime_cost f g input).
Definition use_memory (n : Z) : M unit := update (fun g => env_add_memory g n).
Definition free_memory (n : Z) : M unit := update (fun g => track g (fun t => drop_memory t n)).
(** [finally_drop_memory!] *)
Definition finally_free {A : Type} (n : Z) (m : M A) : M A :=
  fun g => m_bind (attempt m) (fun r => m_bind (free_memory n) (fun _ => lift r)) g.

(** The call stack. *)
Definition get_stack : M CallStack := fun g => Ok (g, call_stack g).
Definition push_call (f : string) (track : bool) : M unit :=
  fun g => Ok (with_stack g (CallStack_insert (call_stack g) f track), tt).
Definition pop_call (f : string) (tracked : bool) : M unit :=
  fun g => match CallStack_remove (call_stack g) f tracked with
    | Ok cs => Ok (with_stack g cs, tt)
    | Err (cs, e) => Err (with_stack g cs, e)
    | Panic => Panic
    end.
Definition incr_depth : M unit := fun g => Ok (with_stack g (incr_apply_depth (call_stack g)), tt).
Definition decr_depth : M unit := fun g => Ok (with_stack g (decr_apply_depth (call_stack g)), tt).

(** [env.epoch() >= Epoch2_05] *)
Definition at_least_2_05 (g : G) : bool :=
  match StacksEpochId_try_from (epoch_id g) with Some Epoch2_05 => true | _ => false end.

(** [run_free]: the tracker is put aside and restored, whatever happens. *)
Definition run_free {A : Type} (m : M A) : M A :=
  fun g =>
    let original_tracker := tracked (cost_track g) in
    let restore (g : G) := set_tracker g (mkTracked original_tracker (call_stack g)) in
    match m (set_tracker g (mkTracked free_tracker (call_stack g))) with
    | Ok (g, a) => Ok (restore g, a)
    | Err (g, e) => Err (restore g, e)
    | Panic => Panic
    end.

(** * Laws of the monad *)
Lemma bind_eq {A B : Type} (m : M A) (k k' : A -> M B) (g : G) :
  (forall g1 a, m g = Ok (g1, a) -> k a g1 = k' a g1) -> m_bind m k g = m_bind m k' g.
Proof. unfold m_bind. destruct (m g) as [[g1 a]| |]; simpl; auto. Qed.
Lemma bind_first {A B : Type} (m m' : M A) (k : A -> M B) (g : G) : m g = m' g -> m_bind m k g = m_bind m' k g.
Proof. unfold m_bind. by intros ->. Qed.
Lemma bind_assoc {A B B' : Type} (m : M A) (k : A -> M B) (k' : B -> M B') (g : G) :
  m_bind (m_bind m k) k' g = m_bind m (fun a => m_bind (k a) k') g.
Proof. unfold m_bind. by destruct (m g) as [[g1 a]| |]. Qed.

(** What a computation that succeeds yields. *)
Definition yields {A : Type} (m : M A) (P : A -> Prop) : Prop := forall g g' a, m g = Ok (g', a) -> P a.
Lemma yields_ret {A : Type} (a : A) (P : A -> Prop) : P a -> yields (m_ret a) P.
Proof. intros HP g g' b Hb. unfold m_ret in Hb. by simplify_eq. Qed.
Lemma yields_lift {A : Type} (m : outcome VmError A) (P : A -> Prop) : (forall a, m = Ok a -> P a) -> yields (lift m) P.
Proof. intros HP g g' b Hb. unfold lift in Hb. destruct m; simplify_eq. by apply HP. Qed.
Lemma yields_bind {A B : Type} (m : M A) (k : A -> M B) (P : A -> Prop) (R : B -> Prop) :
  yields m P -> (forall a, P a -> yields (k a) R) -> yields (m_bind m k) R.
Proof.
  intros Hm Hk g g' b Hb. unfold m_bind in Hb. destruct (m g) as [[g1 a]| |] eqn:E; simplify_eq/=.
  eapply Hk; [by eapply Hm|done].
Qed.
Lemma yields_any {A : Type} (m : M A) : yields m (fun _ => True).
Proof. done. Qed.
Lemma yields_failed {A : Type} (e : CheckErrors) (P : A -> Prop) : yields (check_failed e) P.
Proof. by intros g g' a. Qed.
End machine.

Declare Scope machine_scope.
Delimit Scope machine_scope with machine.
Notation "'let!' x ':=' m 'in' k" := (m_bind m (fun x => k))
  (at level 10, x name, m at level 100, k at level 200) : machine_scope.
Notation "'let!' ' p ':=' m 'in' k" := (m_bind m (fun x => match x with p => k end))
  (at level 10, p strict pattern, m at level 100, k at level 200) : machine_scope.
