(* ===== verification/Specials.v ===== *)
(** Specials: the special functions of Clarity, which evaluate their arguments
    themselves (clarity/src/vm/functions: mod.rs, boolean.rs, options.rs,
    sequences.rs, tuples.rs, crypto.rs).

    [eval] and [apply] are arguments: Interpreter.v ties the knot. *)
From Stdlib Require Import ZArith Lia Strings.Byte Strings.String List Bool.
From stdpp Require Import base decidable list strings option gmap.
From S2P Require Import Prelude Bytes Codec Representations BTree Types Signatures Admission Values.
From S2P Require Import Serialization AssetMap Hashes Keys Natives C32 Principals BackingStore RollbackWrapper RollbackRefinement.
From S2P Require Import Events GlobalContext ClarityDb ClarityState StxBalance Costs Contexts Callables Assets Machine.
Open Scope Z_scope.
Open Scope machine_scope.

Definition AS_CONTRACT_MEMORY : Z := 1.
Definition AT_BLOCK_MEMORY : Z := 1.

Definition BUFF_33 : TypeSignature := SequenceType (BufferType 33).
Definition BUFF_65 : TypeSignature := SequenceType (BufferType 65).

Section specials.
Context {O : HashOrder} {D : Digests} {J : SerdeJson} {N : HeadersDB} {Q : IntegerSquareRoot} {K : LibSecp256k1}.
Context {C S T : Type} `{Sqlite C} `{!ClarityBackingStore C S} `{!CostTracker T} `{!Host S T}.
Notation G := (GlobalContext S (Tracked T)).
Notation M := (M (S:=S) (T:=T)).

(** * Arguments *)
Definition count_is {A : Type} (expected : nat) (args : list A) : M unit :=
  fun g => let? _ := check_argument_count expected args g in Ok (g, tt).
(** [check_arguments_at_least] *)
Definition count_at_least {A : Type} (expected : nat) (args : list A) : M unit :=
  if Nat.ltb (length args) expected
  then check_failed (CheckErr.RequiresAtLeastArguments (Z.of_nat expected) (zlen args))
  else m_ret tt.
(** [args[i]] *)
Definition nth_arg (args : list SymbolicExpression) (i : nat) : M SymbolicExpression := lift (expect_some (nth_error args i)).
(** [e.match_atom().ok_or(err)?] *)
Definition atom_or (err : CheckErrors) (e : SymbolicExpression) : M string := lift (ok_or (Unchecked err) (match_atom e)).

(** [xs.iter().map(f).collect()] *)
Fixpoint m_map {A B : Type} (f : A -> M B) (xs : list A) : M (list B) :=
  match xs with
  | [] => m_ret []
  | x :: xs => let! y := f x in let! ys := m_map f xs in m_ret (y :: ys)
  end.
(** [xs.into_iter().try_fold(acc, f)] *)
Fixpoint m_fold {A B : Type} (f : A -> B -> M A) (acc : A) (xs : list B) : M A :=
  match xs with
  | [] => m_ret acc
  | x :: xs => let! acc := f acc x in m_fold f acc xs
  end.

Definition type_error (t : TypeSignature) (v : Value) : M Value := check_failed (CheckErr.TypeValueError t v).

Context (eval : SymbolicExpression -> Environment -> LocalContext -> M Value).
Context (apply : CallableType -> list SymbolicExpression -> Environment -> LocalContext -> M Value).

Definition eval_nth (args : list SymbolicExpression) (i : nat) (env : Environment) (context : LocalContext) : M Value :=
  let! e := nth_arg args i in eval e env context.

(** [vm::lookup_function] *)
Definition lookup_function (name : string) (env : Environment) : M CallableType :=
  let! _ := cost CostFunction.LookupFunction 0 in
  match lookup_reserved_functions name with
  | Some result => m_ret result
  | None =>
      lift (match lookup_defined_function (contract_context env) name with
        | Some user_function => Ok (UserFunction user_function)
        | None => Err (Unchecked (CheckErr.UndefinedFunction name))
        end)
  end.

Implicit Types (args : list SymbolicExpression) (env : Environment) (context : LocalContext).

(** * Control *)
Definition special_print args env context : M Value :=
  let! input := eval_nth args 0 env context in
  let! size := lift (Value_size input) in
  let! _ := cost CostFunction.Print size in
  let! _ := update (fun g => Ok (register_print_event g (contract_identifier (contract_context env)) input)) in
  m_ret input.

Definition special_if args env context : M Value :=
  let! _ := count_is 3 args in
  let! _ := cost CostFunction.If 0 in
  let! conditional := eval_nth args 0 env context in
  match conditional with
  | VBool result => if result then eval_nth args 1 env context else eval_nth args 2 env context
  | _ => type_error BoolType conditional
  end.

Definition special_asserts args env context : M Value :=
  let! _ := count_is 2 args in
  let! _ := cost CostFunction.Asserts 0 in
  let! conditional := eval_nth args 0 env context in
  match conditional with
  | VBool result =>
      if result then m_ret conditional else
      let! thrown := eval_nth args 1 env context in
      raise (ShortReturn (AssertionFailed thrown))
  | _ => type_error BoolType conditional
  end.

(** [acc] is what the closure [handler] captures.  The list stops at the first
    error, and the variables keep what earlier bindings put there. *)
Fixpoint handle_binding_list {A : Type} (handler : A -> string -> SymbolicExpression -> M A) (acc : A)
    (bindings : list SymbolicExpression) : M (A * outcome VmError unit) :=
  match bindings with
  | [] => m_ret (acc, Ok tt)
  | binding :: bindings =>
      let! r := attempt (
        let! binding_expression := lift (ok_or (Unchecked CheckErr.BadSyntaxBinding) (match_list binding)) in
        match binding_expression with
        | [name; var_sexp] =>
            let! var_name := atom_or CheckErr.BadSyntaxBinding name in
            handler acc var_name var_sexp
        | _ => check_failed CheckErr.BadSyntaxBinding
        end) in
      match r with
      | Ok acc => handle_binding_list handler acc bindings
      | Err e => m_ret (acc, Err e)
      | Panic => lift Panic
      end
  end.

Definition parse_eval_bindings (bindings : list SymbolicExpression) env context : M (list (string * Value)) :=
  let! '(result, r) := handle_binding_list (fun result var_name var_sexp =>
    let! value := eval var_sexp env context in
    m_ret (result ++ [(var_name, value)])) [] bindings in
  let! _ := lift r in
  m_ret result.

(** The name cannot be bound. *)
Definition name_taken (name : string) env context : bool :=
  is_reserved name
  || bool_decide (is_Some (lookup_defined_function (contract_context env) name))
  || bool_decide (is_Some (lc_lookup_variable context name)).

(** The closure of [special_let]: the inner context and [memory_use]. *)
Definition let_binding env (st : LocalContext * Z) (binding_name : string) (var_sexp : SymbolicExpression)
  : M (LocalContext * Z) :=
  let '(inner_context, memory_use) := st in
  if name_taken binding_name env inner_context then check_failed (CheckErr.NameAlreadyUsed binding_name) else
  let! binding_value := eval var_sexp env inner_context in
  let! bind_mem_use := lift (Value_size binding_value) in
  let! _ := use_memory bind_mem_use in
  m_ret (bind_variable inner_context binding_name binding_value, memory_use + bind_mem_use).

Fixpoint let_bodies (bodies : list SymbolicExpression) env context (last_result : option Value) : M Value :=
  match bodies with
  | [] => lift (expect_some last_result)
  | body :: bodies =>
      let! body_result := eval body env context in
      let_bodies bodies env context (Some body_result)
  end.

Definition special_let args env context : M Value :=
  let! _ := count_at_least 2 args in
  let! first := nth_arg args 0 in
  let! bindings := lift (ok_or (Unchecked CheckErr.BadLetSyntax) (match_list first)) in
  let! _ := cost CostFunction.Let (zlen bindings) in
  let! inner_context := lift (LocalContext_extend context) in
  let! '(inner_context, memory_use, r) := handle_binding_list (let_binding env) (inner_context, 0) bindings in
  finally_free memory_use (
    let! _ := lift r in
    let_bodies (tail args) env inner_context None).

Definition special_as_contract args env context : M Value :=
  let! _ := count_is 1 args in
  let! _ := use_memory AS_CONTRACT_MEMORY in
  let contract_principal := Contract (contract_identifier (contract_context env)) in
  finally_free AS_CONTRACT_MEMORY (eval_nth args 0 (nest_as_principal env contract_principal) context).

(** [get_contract(c).map_err(|_e| CheckErrors::NoSuchContract(c.to_string()))?] *)
Definition contract_or_missing (c : QualifiedContractIdentifier) : M ContractContext :=
  query (fun db => map_err (fun _ => Unchecked (CheckErr.NoSuchContract (QualifiedContractIdentifier_to_string c)))
    (get_contract json_contract db c)).

Definition special_contract_of args env context : M Value :=
  let! _ := count_is 1 args in
  let! _ := cost CostFunction.ContractOf 0 in
  let! e := nth_arg args 0 in
  match e with
  | Atom contract_ref =>
      match lookup_callable_contract context contract_ref with
      | Some (contract_identifier, _) =>
          let! _ := contract_or_missing contract_identifier in
          m_ret (VPrincipal (Contract contract_identifier))
      | None => check_failed CheckErr.ContractOfExpectsTrait
      end
  | _ => check_failed CheckErr.ContractOfExpectsTrait
  end.

(** * Booleans *)
(** The loops of [special_or] ([stop] is [true]) and [special_and]. *)
Fixpoint bool_loop (stop : bool) args env context : M Value :=
  match args with
  | [] => m_ret (VBool (negb stop))
  | arg :: args =>
      let! evaluated := eval arg env context in
      let! result := lift (type_force_bool evaluated) in
      if Bool.eqb result stop then m_ret (VBool stop) else bool_loop stop args env context
  end.

Definition special_or args env context : M Value :=
  let! _ := count_at_least 1 args in
  let! _ := cost CostFunction.Or (zlen args) in
  bool_loop true args env context.
Definition special_and args env context : M Value :=
  let! _ := count_at_least 1 args in
  let! _ := cost CostFunction.And (zlen args) in
  bool_loop false args env context.

(** * Matching *)
Definition eval_with_new_binding (body : SymbolicExpression) (bind_name : string) (bind_value : Value) env context : M Value :=
  let! inner_context := lift (LocalContext_extend context) in
  if name_taken bind_name env inner_context then check_failed (CheckErr.NameAlreadyUsed bind_name) else
  let! memory_use := lift (Value_size bind_value) in
  let! _ := use_memory memory_use in
  finally_free memory_use (eval body env (bind_variable inner_context bind_name bind_value)).

Definition special_match_opt (input : option Value) args env context : M Value :=
  match args with
  | [name; some_branch; none_branch] =>
      let! bind_name := atom_or (CheckErr.BadMatchOptionSyntax CheckErr.ExpectedName) name in
      match input with
      | Some data => eval_with_new_binding some_branch bind_name data env context
      | None => eval none_branch env context
      end
  | _ => check_failed (CheckErr.BadMatchOptionSyntax (CheckErr.IncorrectArgumentCount 4 (zlen args + 1)))
  end.

Definition special_match_resp (committed : bool) (data : Value) args env context : M Value :=
  match args with
  | [ok_name; ok_branch; err_name; err_branch] =>
      let! ok_bind_name := atom_or (CheckErr.BadMatchResponseSyntax CheckErr.ExpectedName) ok_name in
      let! err_bind_name := atom_or (CheckErr.BadMatchResponseSyntax CheckErr.ExpectedName) err_name in
      if committed then eval_with_new_binding ok_branch ok_bind_name data env context
      else eval_with_new_binding err_branch err_bind_name data env context
  | _ => check_failed (CheckErr.BadMatchResponseSyntax (CheckErr.IncorrectArgumentCount 5 (zlen args + 1)))
  end.

Definition special_match args env context : M Value :=
  let! _ := count_at_least 1 args in
  let! input := eval_nth args 0 env context in
  let! _ := cost CostFunction.Match 0 in
  match input with
  | VResponse committed data => special_match_resp committed data (tail args) env context
  | VOptional data => special_match_opt data (tail args) env context
  | _ => lift (let? t := type_of input in Err (Unchecked (CheckErr.BadMatchInput t)))
  end.

(** * Sequences *)
Definition list_cons args env context : M Value :=
  let! args := m_map (fun x => eval x env context) args in
  let! arg_size := lift (try_fold (fun arg_size a =>
    let? size := Value_size a in map_err Error_from_cost (cost_overflow_add arg_size size)) 0 args) in
  let! _ := cost CostFunction.ListCons arg_size in
  lift (list_from args).

(** The closure of [special_filter]. *)
Definition filter_item (function : CallableType) env context (g : G) (v : Value) : outcome (G * VmError) (bool * G) :=
  let? '(g, filter_eval) := apply function [AtomValue v] env context g in
  match filter_eval with
  | VBool include => Ok (include, g)
  | _ => Err (g, Unchecked (CheckErr.TypeValueError BoolType filter_eval))
  end.

Definition special_filter args env context : M Value :=
  let! _ := count_is 2 args in
  let! _ := cost CostFunction.Filter 0 in
  let! name := nth_arg args 0 in
  let! function_name := atom_or CheckErr.ExpectedName name in
  let! sequence := eval_nth args 1 env context in
  let! function := lookup_function function_name env in
  match sequence with
  | VSequence sequence_data => fun g =>
      let? '(sequence_data, g) := SequenceData_filter (filter_item function env context) sequence_data g in
      Ok (g, VSequence sequence_data)
  | _ => lift (expected_sequence sequence)
  end.

Definition special_fold args env context : M Value :=
  let! _ := count_is 3 args in
  let! _ := cost CostFunction.Fold 0 in
  let! name := nth_arg args 0 in
  let! function_name := atom_or CheckErr.ExpectedName name in
  let! function := lookup_function function_name env in
  let! sequence := eval_nth args 1 env context in
  let! initial := eval_nth args 2 env context in
  match sequence with
  | VSequence sequence_data =>
      let! values := lift (SequenceData_atom_values sequence_data) in
      m_fold (fun acc x => apply function [AtomValue x; AtomValue acc] env context) initial values
  | _ => lift (expected_sequence sequence)
  end.

(** The inner loop of [special_map]: the values of one sequence go to the rows
    of arguments. *)
Fixpoint place_values (min_args_len : Z) (apply_index : nat) (values : list Value) (mapped_func_args : list (list Value))
  : list (list Value) :=
  match values with
  | [] => mapped_func_args
  | value :: values =>
      if min_args_len <? Z.of_nat apply_index then mapped_func_args else
      place_values min_args_len (Datatypes.S apply_index) values
        (if Nat.leb (length mapped_func_args) apply_index then mapped_func_args ++ [[value]]
         else alter (fun row => row ++ [value]) apply_index mapped_func_args)
  end.

Fixpoint map_rows args env context (min_args_len : Z) (mapped_func_args : list (list Value)) : M (list (list Value)) :=
  match args with
  | [] => m_ret mapped_func_args
  | map_arg :: args =>
      let! sequence := eval map_arg env context in
      match sequence with
      | VSequence sequence_data =>
          let min_args_len := Z.min min_args_len (SequenceData_len sequence_data) in
          let! values := lift (SequenceData_atom_values sequence_data) in
          map_rows args env context min_args_len (place_values min_args_len 0 values mapped_func_args)
      | _ => lift (expected_sequence sequence)
      end
  end.

(** [previous_len] is the length of the rows before. *)
Fixpoint map_apply (function : CallableType) (mapped_func_args : list (list Value)) (previous_len : option nat) env context
  : M (list Value) :=
  match mapped_func_args with
  | [] => m_ret []
  | arguments :: rest =>
      if bool_decide (is_Some previous_len) && negb (bool_decide (previous_len = Some (length arguments))) then m_ret [] else
      let! res := apply function (map AtomValue arguments) env context in
      let! mapped_results := map_apply function rest (Some (length arguments)) env context in
      m_ret (res :: mapped_results)
  end.

Definition special_map args env context : M Value :=
  let! _ := count_at_least 2 args in
  let! _ := cost CostFunction.Map (zlen args) in
  let! name := nth_arg args 0 in
  let! function_name := atom_or CheckErr.ExpectedName name in
  let! function := lookup_function function_name env in
  let! mapped_func_args := map_rows (tail args) env context u64_max [] in
  let! mapped_results := map_apply function mapped_func_args None env context in
  lift (list_from mapped_results).

Definition special_append args env context : M Value :=
  let! _ := count_is 2 args in
  let! sequence := eval_nth args 0 env context in
  match sequence with
  | VSequence (SeqList list) =>
      let! element := eval_nth args 1 env context in
      let entry_type := entry_type (ld_type_signature list) in
      let size := max_len (ld_type_signature list) in
      let! element_type := lift (type_of element) in
      let! entry_size := lift (TypeSignature_size entry_type) in
      let! element_size := lift (TypeSignature_size element_type) in
      let! _ := cost CostFunction.Append (Z.max entry_size element_size) in
      if is_no_type entry_type then
        if negb (size =? 0) then lift Panic else lift (list_from [element])
      else
        match least_supertype entry_type element_type with
        | Ok next_entry_type =>
            let! next_type_signature := lift (unchecked (new_list next_entry_type (as_u32 (size + 1)))) in
            m_ret (VSequence (SeqList (mkListData (ld_data list ++ [element]) next_type_signature)))
        | Err _ => type_error entry_type element
        | Panic => lift Panic
        end
  | _ => check_failed CheckErr.ExpectedListApplication
  end.

(** The sum of two sizes as a cost input. *)
Definition cost_input_add (a b : Z) : M Z := lift (map_err Error_from_cost (cost_overflow_add a b)).

Definition special_concat_v200 args env context : M Value :=
  let! _ := count_is 2 args in
  let! wrapped_seq := eval_nth args 0 env context in
  let! other_wrapped_seq := eval_nth args 1 env context in
  let! size := lift (Value_size wrapped_seq) in
  let! other_size := lift (Value_size other_wrapped_seq) in
  let! input := cost_input_add size other_size in
  let! _ := cost CostFunction.Concat input in
  match wrapped_seq, other_wrapped_seq with
  | VSequence seq, VSequence other_seq =>
      let! seq := lift (SequenceData_append seq other_seq) in m_ret (VSequence seq)
  | _, _ => raise (Runtime RuntimeErr.BadTypeConstruction)
  end.

Definition special_concat_v205 args env context : M Value :=
  let! _ := count_is 2 args in
  let! wrapped_seq := eval_nth args 0 env context in
  let! other_wrapped_seq := eval_nth args 1 env context in
  match wrapped_seq, other_wrapped_seq with
  | VSequence seq, VSequence other_seq =>
      let! input := cost_input_add (SequenceData_len seq) (SequenceData_len other_seq) in
      let! _ := cost CostFunction.Concat input in
      let! seq := lift (SequenceData_append seq other_seq) in m_ret (VSequence seq)
  | _, _ =>
      let! _ := cost CostFunction.Concat 1 in
      raise (Runtime RuntimeErr.BadTypeConstruction)
  end.

(** [switch_on_global_epoch!] for special functions. *)
Definition switch_epoch (v200 v205 : list SymbolicExpression -> Environment -> LocalContext -> M Value)
    args env context : M Value :=
  fun g => switch_on_global_epoch (fun args env => v200 args env context) (fun args env => v205 args env context) args env g.
Definition special_concat := switch_epoch special_concat_v200 special_concat_v205.

Definition special_as_max_len args env context : M Value :=
  let! _ := count_is 2 args in
  let! sequence := eval_nth args 0 env context in
  let! _ := cost CostFunction.AsMaxLen 0 in
  let! e := nth_arg args 1 in
  match match_literal_value e with
  | Some (VUInt expected_len) =>
      match sequence with
      | VSequence sequence_data =>
          if expected_len <? SequenceData_len sequence_data then m_ret Value_none else
          lift (Value_some (VSequence
            match sequence_data with
            | SeqList list => SeqList (mkListData (ld_data list) (reduce_max_len (ld_type_signature list) (as_u32 expected_len)))
            | _ => sequence_data
            end))
      | _ => lift (expected_sequence sequence)
      end
  | _ =>
      let! actual_len := eval e env context in
      lift (let? t := type_of actual_len in Err (Unchecked (CheckErr.TypeError UIntType t)))
  end.

(** * Tuples *)
Definition tuple_cons args env context : M Value :=
  let! _ := count_at_least 1 args in
  let! bindings := parse_eval_bindings args env context in
  let! _ := cost CostFunction.TupleCons (zlen bindings) in
  lift (let? t := TupleData_from_data bindings in Ok (VTuple t)).

Definition tuple_get args env context : M Value :=
  let! _ := count_is 2 args in
  let! name := nth_arg args 0 in
  let! arg_name := atom_or CheckErr.ExpectedName name in
  let! value := eval_nth args 1 env context in
  match value with
  | VOptional (Some (VTuple tuple_data)) =>
      let! _ := cost CostFunction.TupleGet (zlen (td_data_map tuple_data)) in
      let! data := lift (TupleData_get_owned tuple_data arg_name) in
      lift (expect (Value_some data))
  | VOptional (Some data) => lift (expected_tuple data)
  | VOptional None => m_ret Value_none
  | VTuple tuple_data =>
      let! _ := cost CostFunction.TupleGet (zlen (td_data_map tuple_data)) in
      lift (TupleData_get_owned tuple_data arg_name)
  | _ => lift (expected_tuple value)
  end.

(** * Cryptography *)
(** A buffer of exactly [n] bytes. *)
Definition buffer_of (n : Z) (t : TypeSignature) (v : Value) : M (list byte) :=
  match v with
  | VSequence (SeqBuffer data) =>
      if negb (zlen data =? n) then check_failed (CheckErr.TypeValueError t v) else m_ret data
  | _ => check_failed (CheckErr.TypeValueError t v)
  end.
(** The last byte of a signature of 65 bytes is a recovery id. *)
Definition bad_recovery_id (data : list byte) : bool :=
  match nth_error data 64 with Some b => 3 <? byte_to_Z b | None => false end.

Definition special_principal_of args env context : M Value :=
  let! _ := count_is 1 args in
  let! _ := cost CostFunction.PrincipalOf 0 in
  let! param0 := eval_nth args 0 env context in
  let! pub_key := buffer_of 33 BUFF_33 param0 in
  match PublicKey_from_slice pub_key with
  | Ok pub_key =>
      lift (let? addr := StacksAddress_from_public_keys C32_ADDRESS_VERSION_TESTNET_SINGLESIG SerializeP2PKH 1 [pub_key] in
            let? addr := expect_some addr in
            expect (Value_okay (VPrincipal (StacksAddress_to_account_principal addr))))
  | _ => m_ret (Value_err_uint 1)
  end.

Definition special_secp256k1_recover args env context : M Value :=
  let! _ := count_is 2 args in
  let! _ := cost CostFunction.Secp256k1recover 0 in
  let! param0 := eval_nth args 0 env context in
  let! message := buffer_of 32 BUFF_32 param0 in
  let! param1 := eval_nth args 1 env context in
  match param1 with
  | VSequence (SeqBuffer data) =>
      if 65 <? zlen data then type_error BUFF_65 param1 else
      if (zlen data <? 65) || bad_recovery_id data then m_ret (Value_err_uint 2) else
      let! recovered := lift (secp256k1_recover message data) in
      match recovered with
      | Some pubkey => lift (let? b := expect (buff_from pubkey) in expect (Value_okay b))
      | None => m_ret (Value_err_uint 1)
      end
  | _ => type_error BUFF_65 param1
  end.

Definition special_secp256k1_verify args env context : M Value :=
  let! _ := count_is 3 args in
  let! _ := cost CostFunction.Secp256k1verify 0 in
  let! param0 := eval_nth args 0 env context in
  let! message := buffer_of 32 BUFF_32 param0 in
  let! param1 := eval_nth args 1 env context in
  match param1 with
  | VSequence (SeqBuffer data) =>
      if 65 <? zlen data then type_error BUFF_65 param1 else
      if zlen data <? 64 then m_ret (VBool false) else
      if (zlen data =? 65) && bad_recovery_id data then m_ret (VBool false) else
      let! param2 := eval_nth args 2 env context in
      let! pubkey := buffer_of 33 BUFF_33 param2 in
      let! verified := lift (secp256k1_verify message data pubkey) in
      m_ret (VBool verified)
  | _ => type_error BUFF_65 param1
  end.
End specials.
