(* ===== verification/TypeRepr.v ===== *)
(** TypeRepr: how types are written in contracts
    (clarity/src/vm/types/signatures.rs, "Parsing functions").

    [type_repr] writes a type as an expression; parsing it gives the type back
    and charges one step for each part of it. *)
From Stdlib Require Import ZArith Lia Strings.Byte Strings.String List Bool.
From stdpp Require Import base decidable list strings option gmap.
From S2P Require Import Prelude Bytes Codec Representations BTree Types Signatures Admission Values.
From S2P Require Import Serialization AssetMap Hashes Natives C32 Principals BackingStore RollbackWrapper RollbackRefinement.
From S2P Require Import Events GlobalContext ClarityDb ClarityState StxBalance Costs Contexts Callables Assets Machine Specials.
Open Scope Z_scope.
Open Scope machine_scope.

Definition parse_atom_type (typename : string) : outcome CheckErrors TypeSignature :=
  if (typename =? "int")%string then Ok IntType
  else if (typename =? "uint")%string then Ok UIntType
  else if (typename =? "bool")%string then Ok BoolType
  else if (typename =? "principal")%string then Ok PrincipalType
  else Err (CheckErr.UnknownTypeName typename).

(** The length that is the only argument of [buff], [string-ascii] and
    [string-utf8]. *)
Definition length_arg (type_args : list SymbolicExpression) : outcome CheckErrors Z :=
  match type_args with
  | [LiteralValue (VInt len)] => Ok len
  | _ => Err CheckErr.InvalidTypeDescription
  end.
Definition parse_buff_type_repr (type_args : list SymbolicExpression) : outcome CheckErrors TypeSignature :=
  let? buff_len := length_arg type_args in
  let? buff_len := BufferLength_try_from_i128 buff_len in
  Ok (SequenceType (BufferType buff_len)).
Definition parse_string_utf8_type_repr (type_args : list SymbolicExpression) : outcome CheckErrors TypeSignature :=
  let? utf8_len := length_arg type_args in
  let? utf8_len := StringUTF8Length_try_from_i128 utf8_len in
  Ok (SequenceType (StringType (UTF8 utf8_len))).
Definition parse_string_ascii_type_repr (type_args : list SymbolicExpression) : outcome CheckErrors TypeSignature :=
  let? buff_len := length_arg type_args in
  let? buff_len := BufferLength_try_from_i128 buff_len in
  Ok (SequenceType (StringType (ASCII buff_len))).

(** [(name type)] *)
Definition is_pair (e : SymbolicExpression) : bool :=
  match e with ListExpr [_; _] => true | _ => false end.

Section type_repr.
Context {C S T : Type} `{Sqlite C} `{!ClarityBackingStore C S} `{!CostTracker T}.
Notation G := (GlobalContext S (Tracked T)).
Notation M := (M (S:=S) (T:=T)).

Section parsing.
Context (parse_type_repr : SymbolicExpression -> M TypeSignature).

(** The second step of [parse_name_type_pairs], on pairs. *)
Fixpoint name_types (pairs : list SymbolicExpression) : M (list (string * TypeSignature)) :=
  match pairs with
  | [] => m_ret []
  | ListExpr [name_symbol; type_symbol] :: pairs =>
      let! name := atom_or CheckErr.BadSyntaxExpectedListOfPairs name_symbol in
      let! type_info := parse_type_repr type_symbol in
      let! key_types := name_types pairs in
      m_ret ((name, type_info) :: key_types)
  | _ :: _ => check_failed CheckErr.BadSyntaxExpectedListOfPairs
  end.
Definition parse_name_type_pairs_with (name_type_pairs : list SymbolicExpression) : M (list (string * TypeSignature)) :=
  if forallb is_pair name_type_pairs then name_types name_type_pairs
  else check_failed CheckErr.BadSyntaxExpectedListOfPairs.

Definition parse_tuple_type_repr (type_args : list SymbolicExpression) : M TypeSignature :=
  let! mapped_key_types := parse_name_type_pairs_with type_args in
  let! tuple_type_signature := lift (unchecked (TupleTypeSignature_try_from mapped_key_types)) in
  m_ret (TupleType tuple_type_signature).
Definition parse_list_type_repr (type_args : list SymbolicExpression) : M TypeSignature :=
  match type_args with
  | [LiteralValue (VInt max_len); atomic_type_arg] =>
      let! entry_type := parse_type_repr atomic_type_arg in
      let! max_len := lift (unchecked (ok_or CheckErr.ValueTooLarge (checked u32_ty max_len))) in
      let! l := lift (unchecked (new_list entry_type max_len)) in
      m_ret (SequenceType (ListType l))
  | _ => check_failed CheckErr.InvalidTypeDescription
  end.
Definition parse_optional_type_repr (type_args : list SymbolicExpression) : M TypeSignature :=
  match type_args with
  | [e] =>
      let! inner_type := parse_type_repr e in
      lift (unchecked (new_option inner_type))
  | _ => check_failed CheckErr.InvalidTypeDescription
  end.
Definition parse_response_type_repr (type_args : list SymbolicExpression) : M TypeSignature :=
  match type_args with
  | [ok; err] =>
      let! ok_type := parse_type_repr ok in
      let! err_type := parse_type_repr err in
      lift (unchecked (new_response ok_type err_type))
  | _ => check_failed CheckErr.InvalidTypeDescription
  end.
End parsing.

Fixpoint parse_type_repr (x : SymbolicExpression) : M TypeSignature :=
  let! _ := cost CostFunction.TypeParseStep 0 in
  match x with
  | Atom atom_type_str => lift (unchecked (parse_atom_type atom_type_str))
  | ListExpr (Atom compound_type :: rest) =>
      if (compound_type =? "list")%string then parse_list_type_repr parse_type_repr rest
      else if (compound_type =? "buff")%string then lift (unchecked (parse_buff_type_repr rest))
      else if (compound_type =? "string-utf8")%string then lift (unchecked (parse_string_utf8_type_repr rest))
      else if (compound_type =? "string-ascii")%string then lift (unchecked (parse_string_ascii_type_repr rest))
      else if (compound_type =? "tuple")%string then parse_tuple_type_repr parse_type_repr rest
      else if (compound_type =? "optional")%string then parse_optional_type_repr parse_type_repr rest
      else if (compound_type =? "response")%string then parse_response_type_repr parse_type_repr rest
      else check_failed CheckErr.InvalidTypeDescription
  | TraitReference _ (Defined trait_id) | TraitReference _ (Imported trait_id) => m_ret (TraitReferenceType trait_id)
  | _ => check_failed CheckErr.InvalidTypeDescription
  end.

Definition parse_name_type_pairs : list SymbolicExpression -> M (list (string * TypeSignature)) :=
  parse_name_type_pairs_with parse_type_repr.

(** One function of a trait.  Whatever error the type of the result has, it is
    reported as a bad signature. *)
Definition parse_trait_function (function_type : SymbolicExpression) : M (string * FunctionSignature) :=
  let! args := lift (unchecked (ok_or CheckErr.DefineTraitBadSignature (match_list function_type))) in
  match args with
  | [name; fn_args_exprs; fn_return] =>
      let! fn_name := atom_or CheckErr.DefineTraitBadSignature name in
      let! fn_args_exprs := lift (unchecked (ok_or CheckErr.DefineTraitBadSignature (match_list fn_args_exprs))) in
      let! fn_args := m_map parse_type_repr fn_args_exprs in
      let! fn_return := attempt (parse_type_repr fn_return) in
      match fn_return with
      | Ok (ResponseType ok err) => m_ret (fn_name, mkFunctionSignature fn_args (ResponseType ok err))
      | _ => check_failed CheckErr.DefineTraitBadSignature
      end
  | _ => check_failed CheckErr.InvalidTypeDescription
  end.
Definition parse_trait_type_repr (type_args : list SymbolicExpression) : M (gmap string FunctionSignature) :=
  let! e := nth_arg type_args 0 in
  let! functions_types := lift (unchecked (ok_or CheckErr.DefineTraitBadSignature (match_list e))) in
  m_fold (fun trait_signature function_type =>
    let! '(fn_name, signature) := parse_trait_function function_type in
    m_ret (<[fn_name := signature]> trait_signature)) ∅ functions_types.

(** * Writing types *)
(** Types without [NoType], which contracts cannot write. *)
Fixpoint expressible (t : TypeSignature) : bool :=
  match t with
  | NoType => false
  | SequenceType (ListType (mkListType _ t)) => expressible t
  | TupleType (mkTupleType m) => forallb (fun '(_, t) => expressible t) m
  | OptionalType t => expressible t
  | ResponseType t s => expressible t && expressible s
  | _ => true
  end.

Fixpoint type_repr (t : TypeSignature) : SymbolicExpression :=
  match t with
  | NoType => ListExpr []
  | IntType => Atom "int"
  | UIntType => Atom "uint"
  | BoolType => Atom "bool"
  | PrincipalType => Atom "principal"
  | SequenceType (BufferType n) => ListExpr [Atom "buff"; LiteralValue (VInt n)]
  | SequenceType (StringType (ASCII n)) => ListExpr [Atom "string-ascii"; LiteralValue (VInt n)]
  | SequenceType (StringType (UTF8 n)) => ListExpr [Atom "string-utf8"; LiteralValue (VInt n)]
  | SequenceType (ListType (mkListType n t)) => ListExpr [Atom "list"; LiteralValue (VInt n); type_repr t]
  | TupleType (mkTupleType m) => ListExpr (Atom "tuple" :: map (fun '(k, t) => ListExpr [Atom k; type_repr t]) m)
  | OptionalType t => ListExpr [Atom "optional"; type_repr t]
  | ResponseType t s => ListExpr [Atom "response"; type_repr t; type_repr s]
  | TraitReferenceType id => TraitReference (ti_name id) (Defined id)
  end.

(** The parts of a type, each of which is charged. *)
Fixpoint type_steps (t : TypeSignature) : nat :=
  match t with
  | SequenceType (ListType (mkListType _ t)) => 1 + type_steps t
  | TupleType (mkTupleType m) => 1 + list_sum (map (fun '(_, t) => type_steps t) m)
  | OptionalType t => 1 + type_steps t
  | ResponseType t s => 1 + (type_steps t + type_steps s)
  | _ => 1
  end.
Fixpoint charge_steps (n : nat) : M unit :=
  match n with
  | 0%nat => m_ret tt
  | Datatypes.S n => let! _ := cost CostFunction.TypeParseStep 0 in charge_steps n
  end.

Lemma charge_steps_add {B : Type} (n m : nat) (k : unit -> M B) (g : G) :
  (let! u := charge_steps (n + m) in k u) g = (let! _ := charge_steps n in let! u := charge_steps m in k u) g.
Proof.
  revert g. induction n as [|n IH]; intros g; [done|]. cbn [charge_steps Nat.add].
  rewrite !bind_assoc. apply bind_eq. intros g1 [] _. apply IH.
Qed.
Definition charged (n : nat) {A : Type} (a : A) : M A := let! _ := charge_steps n in m_ret a.

Lemma bind_charged {A B : Type} (m : M A) (n : nat) (a : A) (k : A -> M B) (g : G) :
  (forall g, m g = charged n a g) -> (let! x := m in k x) g = (let! _ := charge_steps n in k a) g.
Proof. intros Hm. rewrite (bind_first _ _ _ _ (Hm g)). unfold charged. by rewrite bind_assoc. Qed.
Lemma charged_then (n m : nat) {A : Type} (a : A) (k : M A) (g : G) :
  (forall g, k g = charged m a g) -> (let! _ := charge_steps n in k) g = charged (n + m) a g.
Proof.
  intros Hk. unfold charged. rewrite charge_steps_add. apply bind_eq. intros g1 [] _. apply Hk.
Qed.
Lemma charged_0 {A : Type} (a : A) (g : G) : charged 0 a g = m_ret a g.
Proof. done. Qed.
Lemma charged_step (n : nat) {A : Type} (a : A) (k : M A) (g : G) :
  (forall g, k g = charged n a g) ->
  (let! _ := cost CostFunction.TypeParseStep 0 in k) g = charged (1 + n) a g.
Proof.
  intros Hk. unfold charged. cbn [charge_steps Nat.add]. rewrite bind_assoc. apply bind_eq. intros g1 _ _. apply Hk.
Qed.

Lemma name_types_repr (m : list (string * TypeSignature)) (g : G) :
  Forall (fun e => forall g, parse_type_repr (type_repr (snd e)) g = charged (type_steps (snd e)) (snd e) g) m ->
  name_types parse_type_repr (map (fun '(k, t) => ListExpr [Atom k; type_repr t]) m) g =
  charged (list_sum (map (fun '(_, t) => type_steps t) m)) m g.
Proof.
  intros Hm. revert g. induction Hm as [|[k t] m Ht _ IH]; intros g; [done|].
  cbn [map name_types list_sum fold_right]. unfold atom_or. cbn [match_atom].
  change (m_bind (lift (ok_or _ (Some k))) ?f g) with (f k g). cbv beta.
  rewrite (bind_charged _ _ _ _ _ Ht). apply charged_then. intros g1. rewrite (bind_charged _ _ _ _ _ IH). done.
Qed.

Lemma try_from_sorted (m : BTreeMap TypeSignature) (s : TupleTypeSignature) :
  bt_sorted m -> TupleTypeSignature_try_from_map m = Ok s -> TupleTypeSignature_try_from m = Ok (mkTupleType m).
Proof.
  intros Hs Hm. pose proof (try_from_map_Ok _ _ Hm) as (-> & Hne & _). unfold TupleTypeSignature_try_from.
  destruct (Nat.eqb_spec (length m) 0) as [E|_]; [by destruct m|].
  enough (forall acc, (forall k, In k (map fst m) -> Forall (fun k' => key_lt k' k) (map fst acc)) ->
    try_fold (fun m '(name, type_info) => if bt_contains_key name m then Err (CheckErr.NameAlreadyUsed name)
      else Ok (bt_insert name type_info m)) acc m = Ok (acc ++ m)) as H0 by (rewrite (H0 []); [done|constructor]).
  clear Hm Hne. induction m as [|[k t] m IH]; intros acc Hacc; simpl; [by rewrite app_nil_r|].
  apply bt_sorted_cons in Hs as [Hs Hk]. pose proof (Hacc k (or_introl eq_refl)) as Hlt.
  assert (bt_contains_key k acc = false) as ->.
  { unfold bt_contains_key. destruct (bt_get k acc) eqn:E; [|done]. apply bt_get_In, (in_map fst) in E.
    rewrite List.Forall_forall in Hlt. by destruct (key_lt_irrefl k); apply Hlt. }
  simpl. rewrite bt_insert_last by done. rewrite (IH Hs (acc ++ [(k, t)])); [by rewrite <-app_assoc|].
  intros k' Hk'. rewrite map_app. apply List.Forall_app. split; [apply Hacc; simpl; auto|].
  repeat constructor. rewrite List.Forall_forall in Hk. by apply Hk.
Qed.

Lemma parse_buffer_length (n : Z) : 0 <= n <= MAX_VALUE_SIZE -> BufferLength_try_from_i128 n = Ok n.
Proof.
  unfold BufferLength_try_from_i128. intros Hn. destruct (Z.ltb_spec MAX_VALUE_SIZE n); [lia|].
  destruct (Z.ltb_spec n 0); [lia|]. unfold as_u32. rewrite Z.mod_small; [done|]. unfold MAX_VALUE_SIZE in *. lia.
Qed.
Lemma parse_utf8_length (n : Z) : 0 <= n -> 4 * n <= MAX_VALUE_SIZE -> StringUTF8Length_try_from_i128 n = Ok n.
Proof.
  unfold StringUTF8Length_try_from_i128. intros Hn Hm.
  assert (checked_mul i128_ty n 4 = Some (n * 4)) as -> by (apply checked_mul_Some; unfold MAX_VALUE_SIZE in *; int_lia).
  simpl. destruct (Z.ltb_spec MAX_VALUE_SIZE (n * 4)); [lia|]. destruct (Z.ltb_spec n 0); [lia|].
  unfold as_u32. rewrite Z.mod_small; [done|]. unfold MAX_VALUE_SIZE in *. lia.
Qed.

Lemma forallb_is_pair (m : list (string * TypeSignature)) :
  forallb is_pair (map (fun '(k, t) => ListExpr [Atom k; type_repr t]) m) = true.
Proof. by induction m as [|[k t] m IH]. Qed.

(** Parsing what was written. *)
Lemma parse_written (t : TypeSignature) (g : G) :
  TypeSignature_wf t = true -> expressible t = true -> parse_type_repr (type_repr t) g = charged (type_steps t) t g.
Proof.
  revert g. induction t as [| | | |n|n t IH|[n|n]| |m IH|t IH|t s IHt IHs|t] using TypeSignature_ind'; intros g Hwf He;
    try done; try (by apply (charged_step 0)).
  - apply (charged_step 0). intros g1. cbn [TypeSignature_wf] in Hwf. rewrite andb_true_iff, !Z.leb_le in Hwf.
    unfold parse_buff_type_repr, parse_string_ascii_type_repr. cbn -[MAX_VALUE_SIZE]. by rewrite parse_buffer_length by lia.
  - apply (charged_step (type_steps t)). intros g1. apply wf_list in Hwf as (Hn & Ht & l & Hl).
    cbn [expressible] in He. cbn -[parse_type_repr charged].
    rewrite (bind_charged _ _ _ _ _ (fun g => IH g Ht He)). apply bind_eq. intros g2 [] _.
    unfold m_bind, lift, unchecked. rewrite checked_ok by int_lia. cbn.
    rewrite Hl. apply new_list_Ok in Hl as (-> & _). done.
  - apply (charged_step 0). intros g1. cbn [TypeSignature_wf] in Hwf. rewrite andb_true_iff, !Z.leb_le in Hwf.
    unfold parse_buff_type_repr, parse_string_ascii_type_repr. cbn -[MAX_VALUE_SIZE]. by rewrite parse_buffer_length by lia.
  - apply (charged_step 0). intros g1. cbn [TypeSignature_wf] in Hwf. rewrite andb_true_iff, !Z.leb_le in Hwf.
    cbn -[StringUTF8Length_try_from_i128]. by rewrite parse_utf8_length by lia.
  - apply (charged_step (list_sum (map (fun '(_, t) => type_steps t) m))). intros g1.
    apply wf_tuple in Hwf as (Hs & Hm & r & Hr). apply bt_sortedb_iff in Hs. cbn [expressible] in He.
    change (parse_tuple_type_repr parse_type_repr (map (fun '(k, t) => ListExpr [Atom k; type_repr t]) m) g1 =
      charged (list_sum (map (fun '(_, t) => type_steps t) m)) (TupleType (mkTupleType m)) g1).
    unfold parse_tuple_type_repr, parse_name_type_pairs_with. rewrite forallb_is_pair.
    assert (Forall (fun e => forall g, parse_type_repr (type_repr (snd e)) g = charged (type_steps (snd e)) (snd e) g) m) as Hall.
    { rewrite List.Forall_forall in *. rewrite forallb_forall in He. intros [k t] Hin g2.
      apply (IH (k, t) Hin); [apply (Hm (k, t) Hin)|apply (He (k, t) Hin)]. }
    rewrite (bind_charged _ _ _ _ _ (fun g => name_types_repr m g Hall)).
    apply bind_eq. intros g2 [] _. unfold lift, m_bind, unchecked. by rewrite (try_from_sorted m r Hs Hr).
  - apply (charged_step (type_steps t)). intros g1. apply wf_option in Hwf as (Ht & r & Hr). cbn [expressible] in He.
    cbn -[parse_type_repr charged]. rewrite (bind_charged _ _ _ _ _ (fun g => IH g Ht He)). apply bind_eq. intros g2 [] _.
    unfold lift, unchecked. rewrite Hr. by apply new_option_Ok in Hr as (-> & _).
  - apply (charged_step (type_steps t + type_steps s)). intros g1. apply wf_response in Hwf as (Ht & Hs & r & Hr).
    cbn [expressible] in He. apply andb_true_iff in He as [Het Hes].
    cbn -[parse_type_repr charged]. rewrite (bind_charged _ _ _ _ _ (fun g => IHt g Ht Het)). apply charged_then. intros g2.
    rewrite (bind_charged _ _ _ _ _ (fun g => IHs g Hs Hes)). apply bind_eq. intros g3 [] _.
    unfold lift, unchecked. rewrite Hr. by apply new_response_Ok in Hr as (-> & _).
Qed.

(** * Parsed types are well-formed *)
(** Names of expressions are [ClarityName]s. *)
Fixpoint names_valid (e : SymbolicExpression) : bool :=
  match e with
  | Atom name => ClarityName_valid name
  | ListExpr children => forallb names_valid children
  | _ => true
  end.

Notation wf_ty := (fun t => TypeSignature_wf t = true).
Lemma unchecked_Ok {A : Type} (m : outcome CheckErrors A) (a : A) : unchecked m = Ok a -> m = Ok a.
Proof. unfold unchecked, map_err. destruct m; congruence. Qed.

Lemma SymbolicExpression_ind' (P : SymbolicExpression -> Prop) :
  (forall e, (forall l, e <> ListExpr l) -> P e) -> (forall l, Forall P l -> P (ListExpr l)) -> forall e, P e.
Proof.
  intros Hleaf Hlist. fix IH 1. intros [v|n|l|v|t|n t]; try (by apply Hleaf).
  apply Hlist. induction l as [|e l IHl]; constructor; [apply IH|apply IHl].
Qed.

Lemma yields_name_types (l : list SymbolicExpression) :
  Forall (fun e => forall n t, e = ListExpr [n; t] -> names_valid n = true /\ yields (parse_type_repr t) wf_ty) l ->
  yields (name_types parse_type_repr l) (Forall field_ok).
Proof.
  induction 1 as [|e l He _ IH]; [by apply yields_ret|].
  destruct e as [| |[|n [|t [|]]]| | |]; try apply yields_failed. destruct (He n t eq_refl) as [Hn Ht]. cbn [name_types].
  apply yields_bind with (P := fun name => ClarityName_valid name = true).
  { apply yields_lift. intros name. unfold ok_or. destruct n; simpl in *; try done. by intros [= ->]. }
  intros name Hname. eapply yields_bind; [exact Ht|]. intros ty Hty. eapply yields_bind; [exact IH|].
  intros tys Htys. apply yields_ret. by constructor.
Qed.

Lemma buffer_length_range (n m : Z) : BufferLength_try_from_i128 n = Ok m -> 0 <= m <= MAX_VALUE_SIZE.
Proof.
  unfold BufferLength_try_from_i128, as_u32. intros Hn. out_inv. bool_to_prop. unfold MAX_VALUE_SIZE in *.
  rewrite Z.mod_small by lia. lia.
Qed.
Lemma utf8_length_range (n m : Z) : StringUTF8Length_try_from_i128 n = Ok m -> 0 <= m /\ 4 * m <= MAX_VALUE_SIZE.
Proof.
  unfold StringUTF8Length_try_from_i128, as_u32. intros (len & [-> _]%ok_or_Ok%checked_mul_Some & Hn)%out_bind_Ok.
  out_inv. bool_to_prop. unfold MAX_VALUE_SIZE in *. rewrite Z.mod_small by lia. lia.
Qed.

(** What is known of the parts of an expression. *)
Definition parses_wf (e : SymbolicExpression) : Prop :=
  yields (parse_type_repr e) wf_ty /\
  forall n t, e = ListExpr [n; t] -> names_valid n = true /\ yields (parse_type_repr t) wf_ty.

Lemma yields_list (rest : list SymbolicExpression) :
  Forall parses_wf rest -> yields (parse_list_type_repr parse_type_repr rest) wf_ty.
Proof.
  intros Hrest. destruct rest as [|[| | |[max_len| | | | | | |]| |] [|e [|]]]; try apply yields_failed.
  apply Forall_cons in Hrest as [_ [[He _] _]%Forall_cons].
  eapply yields_bind; [exact He|]. intros t Ht.
  apply yields_bind with (P := fun n => 0 <= n <= u32_max).
  { apply yields_lift. intros n Hc%unchecked_Ok%ok_or_Ok%checked_in_ty. by apply in_ty_spec in Hc. }
  intros n Hn. eapply yields_bind with (P := fun l => new_list t n = Ok l); [by apply yields_lift; intros l ?%unchecked_Ok|].
  intros l Hl. apply yields_ret. by apply (new_list_wf t n l Ht Hn Hl).
Qed.

Lemma yields_tuple (rest : list SymbolicExpression) :
  Forall parses_wf rest -> yields (parse_tuple_type_repr parse_type_repr rest) wf_ty.
Proof.
  intros Hrest. eapply yields_bind with (P := Forall field_ok).
  { unfold parse_name_type_pairs_with. destruct (forallb is_pair rest); [|apply yields_failed].
    apply yields_name_types. eapply List.Forall_impl; [|exact Hrest]. by intros e [_ He]. }
  intros data Hdata. eapply yields_bind with (P := fun s => TypeSignature_wf (TupleType s) = true).
  { apply yields_lift. intros s Hs%unchecked_Ok. pose proof (try_from_wf data Hdata) as Hw. by rewrite Hs in Hw. }
  intros s Hs. by apply yields_ret.
Qed.

Lemma yields_optional (rest : list SymbolicExpression) :
  Forall parses_wf rest -> yields (parse_optional_type_repr parse_type_repr rest) wf_ty.
Proof.
  intros Hrest. destruct rest as [|e [|]]; try apply yields_failed. apply Forall_cons in Hrest as [[He _] _].
  eapply yields_bind; [exact He|]. intros t Ht. apply yields_lift. intros r Hr%unchecked_Ok. by apply (new_option_wf t r Ht Hr).
Qed.
Lemma yields_response (rest : list SymbolicExpression) :
  Forall parses_wf rest -> yields (parse_response_type_repr parse_type_repr rest) wf_ty.
Proof.
  intros Hrest. destruct rest as [|e [|e2 [|]]]; try apply yields_failed.
  apply Forall_cons in Hrest as [[He _] [[He2 _] _]%Forall_cons].
  eapply yields_bind; [exact He|]. intros t Ht. eapply yields_bind; [exact He2|]. intros s Hs.
  apply yields_lift. intros r Hr%unchecked_Ok. by apply (new_response_wf t s r Ht Hs Hr).
Qed.
Lemma yields_sized (rest : list SymbolicExpression) :
  yields (lift (S:=S) (T:=T) (unchecked (parse_buff_type_repr rest))) wf_ty /\
  yields (lift (S:=S) (T:=T) (unchecked (parse_string_utf8_type_repr rest))) wf_ty /\
  yields (lift (S:=S) (T:=T) (unchecked (parse_string_ascii_type_repr rest))) wf_ty.
Proof.
  unfold parse_buff_type_repr, parse_string_utf8_type_repr, parse_string_ascii_type_repr.
  split_and!; apply yields_lift; intros t Ht%unchecked_Ok; apply out_bind_Ok in Ht as (n & _ & (m & Hm & Ht)%out_bind_Ok);
    injection Ht as <-; cbn [TypeSignature_wf]; rewrite andb_true_iff, !Z.leb_le;
    (apply buffer_length_range in Hm || apply utf8_length_range in Hm); lia.
Qed.

Lemma parse_wf (e : SymbolicExpression) : names_valid e = true -> parses_wf e.
Proof.
  induction e as [e Hl|l IH] using SymbolicExpression_ind'; intros Hn; split; try (intros n t He; by destruct (Hl [n; t])).
  - destruct e as [v|n|l|v|t|n [t|t]]; [| |by destruct (Hl l)|..]; (eapply yields_bind; [apply yields_any|]; intros _ _);
      try apply yields_failed; try (by apply yields_ret).
    apply yields_lift. intros ty Hty%unchecked_Ok. unfold parse_atom_type in Hty. repeat case_match; by simplify_eq.
  - eapply yields_bind; [apply yields_any|]. intros _ _. destruct l as [|[v|c|l'|v|t|n t] rest]; try apply yields_failed.
    apply Forall_cons in IH as [_ IH]. cbn [names_valid forallb] in Hn. apply andb_true_iff in Hn as [_ Hn].
    assert (Forall parses_wf rest) as Hrest.
    { rewrite List.Forall_forall in *. rewrite forallb_forall in Hn. auto. }
    destruct (yields_sized rest) as (H1 & H2 & H3).
    repeat match goal with |- yields (if ?b then _ else _) _ => destruct b end; try apply yields_failed; try done;
      auto using yields_list, yields_tuple, yields_optional, yields_response.
  - intros n t [= ->]. cbn in Hn. rewrite !andb_true_iff in Hn. destruct Hn as (Hn & Ht & _).
    apply Forall_cons in IH as [_ [IH _]%Forall_cons]. split; [done|by apply IH].
Qed.
End type_repr.

(** C36: types are read as they are written.  Whatever a contract writes as a
    type, if it is accepted, is a well-formed type; every well-formed type that
    does not contain the type of nothing is accepted when it is written out, and
    parsing it charges exactly one step for each part of it. *)
Theorem types_parse_print {C S T : Type} `{Sqlite C} `{!ClarityBackingStore C S} `{!CostTracker T} :
  (forall e (g g' : GlobalContext S (Tracked T)) t, names_valid e = true -> parse_type_repr e g = Ok (g', t) -> TypeSignature_wf t = true) /\
  (forall t (g : GlobalContext S (Tracked T)), TypeSignature_wf t = true -> expressible t = true ->
     parse_type_repr (type_repr t) g = (let! _ := charge_steps (type_steps t) in m_ret t) g).
Proof.
  split.
  - intros e g g' t He. by apply parse_wf.
  - intros t g. apply parse_written.
Qed.
