(* ===== verification/DataNatives.v ===== *)
(** DataNatives: the functions on the data of contracts and on blocks
    (clarity/src/vm/functions/database.rs), the application of defined functions
    (callables.rs) and the calls of contracts (contexts.rs). *)
From Stdlib Require Import ZArith Lia Strings.Byte Strings.String List Bool.
From stdpp Require Import base decidable list strings option gmap.
From S2P Require Import Prelude Bytes Codec Representations BTree Types Signatures Admission Values.
From S2P Require Import Serialization AssetMap Hashes Keys Natives C32 Principals BackingStore RollbackWrapper RollbackRefinement.
From S2P Require Import Events GlobalContext ClarityDb ClarityState StxBalance Costs Contexts Callables Assets Machine Specials.
Open Scope Z_scope.
Open Scope machine_scope.

Module BlockInfo.
Inductive BlockInfoProperty :=
| Time | VrfSeed | HeaderHash | IdentityHeaderHash | BurnchainHeaderHash | MinerAddress.

Definition get_name (p : BlockInfoProperty) : string :=
  match p with
  | Time => "time"
  | VrfSeed => "vrf-seed"
  | HeaderHash => "header-hash"
  | IdentityHeaderHash => "id-header-hash"
  | BurnchainHeaderHash => "burnchain-header-hash"
  | MinerAddress => "miner-address"
  end%string.

Definition ALL : list BlockInfoProperty :=
  [Time; VrfSeed; HeaderHash; IdentityHeaderHash; BurnchainHeaderHash; MinerAddress].
Definition lookup_by_name (name : string) : option BlockInfoProperty :=
  find (fun p => bool_decide (get_name p = name)) ALL.
End BlockInfo.
Notation BlockInfoProperty := BlockInfo.BlockInfoProperty.

(** [Value::from(ShortReturnType)] *)
Definition Value_from_short_return (r : ShortReturnType) : Value :=
  match r with ExpectedValue v => v | AssertionFailed v => v end.

Section natives.
Context {O : HashOrder} {D : Digests} {J : SerdeJson} {N : HeadersDB} {Q : IntegerSquareRoot} {K : LibSecp256k1}.
Context {C S T : Type} `{Sqlite C} `{!ClarityBackingStore C S} `{!CostTracker T} `{!Host S T}.
Notation G := (GlobalContext S (Tracked T)).
Notation M := (M (S:=S) (T:=T)).

Context (eval : SymbolicExpression -> Environment -> LocalContext -> M Value).
Notation eval_nth := (eval_nth eval).

Implicit Types (args : list SymbolicExpression) (env : Environment) (context : LocalContext).

(** * Variables *)
(** [if is_read_only() { return Err(WriteAttemptedInReadOnly) }] *)
Definition check_writable : M unit :=
  fun g => if is_read_only g then Err (g, Unchecked CheckErr.WriteAttemptedInReadOnly) else Ok (g, tt).

Definition name_arg args (i : nat) : M string :=
  let! e := nth_arg args i in atom_or CheckErr.ExpectedName e.

Definition var_descriptor env (var_name : string) : M DataVariableMetadata :=
  lift (ok_or (Unchecked (CheckErr.NoSuchDataVariable var_name)) (meta_data_var (contract_context env) !! var_name)).
Definition map_descriptor env (map_name : string) : M DataMapMetadata :=
  lift (ok_or (Unchecked (CheckErr.NoSuchMap map_name)) (meta_data_map (contract_context env) !! map_name)).

(** [data_types.value_type.size() + data_types.key_type.size()], in 32 bits *)
Definition entry_type_size (data_types : DataMapMetadata) : outcome VmError Z :=
  let? value_size := TypeSignature_size (map_value_type data_types) in
  let? key_size := TypeSignature_size (map_key_type data_types) in
  Ok (as_u32 (value_size + key_size)).

(** The size charged in epoch 2.05: the stored size or, if the operation
    failed, the size of the type. *)
Definition result_size (result : outcome VmError ValueResult) (otherwise : outcome VmError Z) : M Z :=
  match result with
  | Ok data => m_ret (serialized_byte_len data)
  | Err _ => lift otherwise
  | Panic => lift Panic
  end.
Definition result_value (result : outcome VmError ValueResult) : M Value :=
  lift (let? data := result in Ok (vr_value data)).

Definition special_fetch_variable_v200 args env context : M Value :=
  let! _ := count_is 1 args in
  let! var_name := name_arg args 0 in
  let contract := contract_identifier (contract_context env) in
  let! data_types := var_descriptor env var_name in
  let! size := lift (TypeSignature_size (var_value_type data_types)) in
  let! _ := cost CostFunction.FetchVar size in
  query (fun db => lookup_variable db contract var_name data_types).

Definition special_fetch_variable_v205 args env context : M Value :=
  let! _ := count_is 1 args in
  let! var_name := name_arg args 0 in
  let contract := contract_identifier (contract_context env) in
  let! data_types := var_descriptor env var_name in
  let! result := attempt (query (fun db => lookup_variable_with_size db contract var_name data_types)) in
  let! size := result_size result (TypeSignature_size (var_value_type data_types)) in
  let! _ := cost CostFunction.FetchVar size in
  result_value result.

Definition special_set_variable_v200 args env context : M Value :=
  let! _ := check_writable in
  let! _ := count_is 2 args in
  let! value := eval_nth args 1 env context in
  let! var_name := name_arg args 0 in
  let contract := contract_identifier (contract_context env) in
  let! data_types := var_descriptor env var_name in
  let! size := lift (TypeSignature_size (var_value_type data_types)) in
  let! _ := cost CostFunction.SetVar size in
  let! memory_use := lift (Value_size value) in
  let! _ := use_memory memory_use in
  let! data := update_db (fun db => set_variable db contract var_name value data_types) in
  m_ret (vr_value data).

(** The end of the writing functions in epoch 2.05: [result] is charged after
    the fact. *)
Definition charge_result (result : outcome VmError ValueResult) (f : ClarityCostFunction) (otherwise : outcome VmError Z)
  : M Value :=
  let! size := result_size result otherwise in
  let! _ := cost f size in
  let! _ := use_memory size in
  result_value result.

Definition special_set_variable_v205 args env context : M Value :=
  let! _ := check_writable in
  let! _ := count_is 2 args in
  let! value := eval_nth args 1 env context in
  let! var_name := name_arg args 0 in
  let contract := contract_identifier (contract_context env) in
  let! data_types := var_descriptor env var_name in
  let! result := attempt (update_db (fun db => set_variable db contract var_name value data_types)) in
  charge_result result CostFunction.SetVar (TypeSignature_size (var_value_type data_types)).

(** * Maps *)
Definition special_fetch_entry_v200 args env context : M Value :=
  let! _ := count_is 2 args in
  let! map_name := name_arg args 0 in
  let! key := eval_nth args 1 env context in
  let contract := contract_identifier (contract_context env) in
  let! data_types := map_descriptor env map_name in
  let! size := lift (entry_type_size data_types) in
  let! _ := cost CostFunction.FetchEntry size in
  query (fun db => fetch_entry db contract map_name key data_types).

Definition special_fetch_entry_v205 args env context : M Value :=
  let! _ := count_is 2 args in
  let! map_name := name_arg args 0 in
  let! key := eval_nth args 1 env context in
  let contract := contract_identifier (contract_context env) in
  let! data_types := map_descriptor env map_name in
  let! result := attempt (query (fun db => fetch_entry_with_size db contract map_name key data_types)) in
  let! size := result_size result (entry_type_size data_types) in
  let! _ := cost CostFunction.FetchEntry size in
  result_value result.

(** [special_set_entry_v200] and [special_insert_entry_v200] differ in the
    operation of the database. *)
Definition put_entry_v200
    (put : RollbackWrapper S -> QualifiedContractIdentifier -> string -> Value -> Value -> DataMapMetadata ->
           outcome VmError (ValueResult * RollbackWrapper S)) args env context : M Value :=
  let! _ := check_writable in
  let! _ := count_is 3 args in
  let! key := eval_nth args 1 env context in
  let! value := eval_nth args 2 env context in
  let! map_name := name_arg args 0 in
  let contract := contract_identifier (contract_context env) in
  let! data_types := map_descriptor env map_name in
  let! size := lift (entry_type_size data_types) in
  let! _ := cost CostFunction.SetEntry size in
  let! key_use := lift (Value_size key) in
  let! _ := use_memory key_use in
  let! value_use := lift (Value_size value) in
  let! _ := use_memory value_use in
  let! data := update_db (fun db => put db contract map_name key value data_types) in
  m_ret (vr_value data).
Definition special_set_entry_v200 := put_entry_v200 set_entry.
Definition special_insert_entry_v200 := put_entry_v200 insert_entry.

Definition put_entry_v205
    (put : RollbackWrapper S -> QualifiedContractIdentifier -> string -> Value -> Value -> DataMapMetadata ->
           outcome VmError (ValueResult * RollbackWrapper S)) args env context : M Value :=
  let! _ := check_writable in
  let! _ := count_is 3 args in
  let! key := eval_nth args 1 env context in
  let! value := eval_nth args 2 env context in
  let! map_name := name_arg args 0 in
  let contract := contract_identifier (contract_context env) in
  let! data_types := map_descriptor env map_name in
  let! result := attempt (update_db (fun db => put db contract map_name key value data_types)) in
  charge_result result CostFunction.SetEntry (entry_type_size data_types).
Definition special_set_entry_v205 := put_entry_v205 set_entry.
Definition special_insert_entry_v205 := put_entry_v205 insert_entry.

Definition special_delete_entry_v200 args env context : M Value :=
  let! _ := check_writable in
  let! _ := count_is 2 args in
  let! key := eval_nth args 1 env context in
  let! map_name := name_arg args 0 in
  let contract := contract_identifier (contract_context env) in
  let! data_types := map_descriptor env map_name in
  let! size := lift (TypeSignature_size (map_key_type data_types)) in
  let! _ := cost CostFunction.SetEntry size in
  let! key_use := lift (Value_size key) in
  let! _ := use_memory key_use in
  let! data := update_db (fun db => delete_entry db contract map_name key data_types) in
  m_ret (vr_value data).

Definition special_delete_entry_v205 args env context : M Value :=
  let! _ := check_writable in
  let! _ := count_is 2 args in
  let! key := eval_nth args 1 env context in
  let! map_name := name_arg args 0 in
  let contract := contract_identifier (contract_context env) in
  let! data_types := map_descriptor env map_name in
  let! result := attempt (update_db (fun db => delete_entry db contract map_name key data_types)) in
  charge_result result CostFunction.SetEntry (TypeSignature_size (map_key_type data_types)).

Definition special_fetch_variable := switch_epoch special_fetch_variable_v200 special_fetch_variable_v205.
Definition special_set_variable := switch_epoch special_set_variable_v200 special_set_variable_v205.
Definition special_fetch_entry := switch_epoch special_fetch_entry_v200 special_fetch_entry_v205.
Definition special_set_entry := switch_epoch special_set_entry_v200 special_set_entry_v205.
Definition special_insert_entry := switch_epoch special_insert_entry_v200 special_insert_entry_v205.
Definition special_delete_entry := switch_epoch special_delete_entry_v200 special_delete_entry_v205.

(** * Blocks *)
(** [Environment::evaluate_at_block] *)
Definition evaluate_at_block (bhh : list byte) (closure : SymbolicExpression) env (local : LocalContext) : M Value :=
  let! _ := update (fun g => Ok (begin_read_only g)) in
  let! result := attempt (
    let! prior_bhh := update_db (fun db => set_block_hash db bhh false) in
    let! result := attempt (eval closure env local) in
    let! _ := update_db (fun db => expect (set_block_hash db prior_bhh true)) in
    lift result) in
  let! _ := update roll_back in
  lift result.

Definition special_at_block args env context : M Value :=
  let! _ := count_is 2 args in
  let! _ := cost CostFunction.AtBlock 0 in
  let! v := eval_nth args 0 env context in
  let! bhh :=
    match v with
    | VSequence (SeqBuffer data) =>
        if negb (zlen data =? 32) then raise (Runtime (RuntimeErr.BadBlockHash data)) else m_ret data
    | x => check_failed (CheckErr.TypeValueError BUFF_32 x)
    end in
  let! _ := use_memory AT_BLOCK_MEMORY in
  let! closure := nth_arg args 1 in
  finally_free AT_BLOCK_MEMORY (evaluate_at_block bhh closure env context).

Definition buffer_value (data : list byte) : Value := VSequence (SeqBuffer data).

Definition special_get_block_info args env context : M Value :=
  let! _ := cost CostFunction.BlockInfo 0 in
  let! _ := count_is 2 args in
  let! e := nth_arg args 0 in
  let! property_name := atom_or CheckErr.GetBlockInfoExpectPropertyName e in
  let! block_info_prop :=
    lift (ok_or (Unchecked CheckErr.GetBlockInfoExpectPropertyName) (BlockInfo.lookup_by_name property_name)) in
  let! height_eval := eval_nth args 1 env context in
  match height_eval with
  | VUInt height_value =>
      if u32_max <? height_value then m_ret Value_none else
      let! current_block_height := query db_current_block_height in
      if current_block_height <=? height_value then m_ret Value_none else
      let! result :=
        match block_info_prop with
        | BlockInfo.Time => query (fun db => let? t := get_block_time db height_value in Ok (VUInt t))
        | BlockInfo.VrfSeed => query (fun db => let? h := get_block_vrf_seed db height_value in Ok (buffer_value h))
        | BlockInfo.HeaderHash => query (fun db => let? h := get_block_header_hash db height_value in Ok (buffer_value h))
        | BlockInfo.BurnchainHeaderHash =>
            query (fun db => let? h := get_burnchain_block_header_hash db height_value in Ok (buffer_value h))
        | BlockInfo.IdentityHeaderHash =>
            query (fun db => let? h := get_index_block_header_hash db height_value in Ok (buffer_value h))
        | BlockInfo.MinerAddress =>
            query (fun db => let? a := get_miner_address db height_value in Ok (VPrincipal (Standard a)))
        end in
      lift (Value_some result)
  | x => type_error UIntType x
  end.

(** * Defined functions *)
Fixpoint charge_types (types : list TypeSignature) : M unit :=
  match types with
  | [] => m_ret tt
  | arg_type :: types =>
      let! size := lift (TypeSignature_size arg_type) in
      let! _ := cost CostFunction.InnerTypeCheckCost size in
      charge_types types
  end.

(** The loop of [execute_apply] that binds the arguments. *)
Fixpoint bind_args (arg_iterator : list ((string * TypeSignature) * Value)) context : outcome VmError LocalContext :=
  match arg_iterator with
  | [] => Ok context
  | ((name, type_sig), value) :: rest =>
      match type_sig, value with
      | TraitReferenceType trait_identifier, VPrincipal (Contract callee_contract_id) =>
          bind_args rest (bind_callable context name (callee_contract_id, trait_identifier))
      | _, _ =>
          let? ok := admits type_sig value in
          if negb ok then Err (Unchecked (CheckErr.TypeValueError type_sig value)) else
          match lc_variables context !! name with
          | Some _ => Err (Unchecked (CheckErr.NameAlreadyUsed name))
          | None => bind_args rest (bind_variable context name value)
          end
      end
  end.

(** A short return is the result of the function. *)
Definition catch_return (m : M Value) : M Value :=
  fun g => match m g with
    | Err (g, ShortReturn v) => Ok (g, Value_from_short_return v)
    | r => r
    end.

Definition execute_apply (self : DefinedFunction) (args : list Value) env : M Value :=
  let! _ := cost CostFunction.UserFunctionApplication (zlen (df_arguments self)) in
  let! _ := charge_types (df_arg_types self) in
  if negb (Nat.eqb (length args) (length (df_arguments self)))
  then check_failed (CheckErr.IncorrectArgumentCount (zlen (df_arguments self)) (zlen args)) else
  let! context := lift (bind_args (combine (combine (df_arguments self) (df_arg_types self)) args) LocalContext_new) in
  catch_return (eval (df_body self) env context).

(** [execute_function_as_transaction] with the environment of the call. *)
Definition run_function (function : DefinedFunction) (args : list Value) (next_contract_context : option ContractContext) env
  : M Value :=
  let nested_env := mkEnv (default (contract_context env) next_contract_context) (env_sender env) (env_caller env) in
  fun g => execute_function_as_transaction g (DefinedFunction_is_read_only function) (execute_apply function args nested_env).

Definition DefinedFunction_apply (self : DefinedFunction) (args : list Value) env : M Value :=
  match df_define_type self with
  | Private => execute_apply self args env
  | Public => run_function self args None env
  | ReadOnly => run_function self args None env
  end.

(** * Contract calls *)
(** [handler(&mut global_context, ..)?] *)
Definition run_special_case (contract_identifier : QualifiedContractIdentifier) (tx_name : string) (value : Value) env : M unit :=
  fun g => match get_cc_special_cases_handler (store (database g)) with
    | Some handler =>
        match handler (without_stack g) (env_sender env) contract_identifier tx_name value with
        | Ok g' => Ok (add_stack g' (call_stack g), tt)
        | Err (g', e) => Err (add_stack g' (call_stack g), e)
        | Panic => Panic
        end
    | None => Ok (g, tt)
    end.

Definition execute_contract (contract_identifier : QualifiedContractIdentifier) (tx_name : string) args (read_only : bool) env
  : M Value :=
  let! contract_size := query (fun db => get_contract_size db contract_identifier) in
  let! _ := cost CostFunction.LoadContract contract_size in
  let! _ := use_memory contract_size in
  finally_free contract_size (
    let! contract := query (fun db => get_contract json_contract db contract_identifier) in
    let! func := lift (ok_or (Unchecked (CheckErr.UndefinedFunction tx_name)) (lookup_defined_function contract tx_name)) in
    let contract_name := QualifiedContractIdentifier_to_string contract_identifier in
    if negb (DefinedFunction_is_public func) then check_failed (CheckErr.NoSuchPublicFunction contract_name tx_name) else
    if read_only && negb (DefinedFunction_is_read_only func)
    then check_failed (CheckErr.PublicFunctionNotReadOnly contract_name tx_name) else
    let! args := lift (try_map (fun arg =>
      ok_or (InterpreterErr (InterpErr.Interpreter ("Passed non-value expression to exec_tx on " ++ tx_name ++ "!")))
        (match_atom_value arg)) args) in
    let func_identifier := df_identifier func in
    let! cs := get_stack in
    if CallStack_contains cs func_identifier then check_failed (CheckErr.CircularReference [func_identifier]) else
    let! _ := push_call func_identifier true in
    let! res := attempt (run_function func args (Some contract) env) in
    let! _ := pop_call func_identifier true in
    let! value := lift res in
    let! _ := run_special_case contract_identifier tx_name value env in
    m_ret value).

(** The dynamic dispatch of [special_contract_call]: the contract a trait
    reference stands for, and the type its function must return. *)
Definition dynamic_dispatch (contract_ref function_name : string) env context
  : M (QualifiedContractIdentifier * option TypeSignature) :=
  match lookup_callable_contract context contract_ref with
  | Some (contract_id, trait_identifier) =>
      if bool_decide (contract_id = contract_identifier (contract_context env))
      then check_failed (CheckErr.CircularReference [qc_name contract_id]) else
      let! contract_context_to_check := contract_or_missing contract_id in
      if is_explicitly_implementing_trait contract_context_to_check trait_identifier then m_ret (contract_id, None) else
      let trait_name := ti_name trait_identifier in
      let! contract_context_defining_trait := contract_or_missing (ti_contract_identifier trait_identifier) in
      let! function_to_check :=
        lift (ok_or (Unchecked (CheckErr.BadTraitImplementation trait_name function_name))
          (lookup_defined_function contract_context_to_check function_name)) in
      let! _ := fun g =>
        if is_read_only g then Err (g, Unchecked CheckErr.TraitBasedContractCallInReadOnly) else Ok (g, tt) in
      if bool_decide (df_define_type function_to_check = Private)
      then check_failed (CheckErr.NoSuchPublicFunction (QualifiedContractIdentifier_to_string contract_id) function_name) else
      let! _ := lift (check_trait_expectations function_to_check contract_context_defining_trait trait_identifier) in
      let! constraining_trait :=
        lift (ok_or (Unchecked (CheckErr.TraitReferenceUnknown trait_name))
          (lookup_trait_definition contract_context_defining_trait trait_name)) in
      let! expected_sig :=
        lift (ok_or (Unchecked (CheckErr.TraitMethodUnknown trait_name function_name)) (constraining_trait !! function_name)) in
      m_ret (contract_id, Some (fs_returns expected_sig))
  | None => check_failed CheckErr.ContractCallExpectName
  end.

(** [env.short_circuit_contract_call(..)?] *)
Definition short_circuits (contract_identifier : QualifiedContractIdentifier) (function_name : string) (sizes : list Z) : M bool :=
  fun g => match short_circuit_contract_call (cost_track g) contract_identifier function_name sizes with
    | Ok (t, b) => Ok (set_tracker g t, b)
    | Err (t, e) => Err (set_tracker g t, Error_from_cost e)
    | Panic => Panic
    end.

Definition special_contract_call args env context : M Value :=
  let! _ := count_at_least 2 args in
  let! _ := cost CostFunction.ContractCall 0 in
  let! function_name := name_arg args 1 in
  let! evaluated := m_map (fun arg =>
    let! evaluated_arg := eval arg env context in
    let! size := lift (Value_size evaluated_arg) in
    m_ret (evaluated_arg, size)) (skipn 2 args) in
  let rest_args := map (fun e => AtomValue (fst e)) evaluated in
  let rest_args_sizes := map snd evaluated in
  let! first := nth_arg args 0 in
  let! '(contract_id, type_returns_constraint) :=
    match first with
    | LiteralValue (VPrincipal (Contract contract_id)) => m_ret (contract_id, None)
    | Atom contract_ref => dynamic_dispatch contract_ref function_name env context
    | _ => check_failed CheckErr.ContractCallExpectName
    end in
  let nested_env := nest_with_caller env (Contract (contract_identifier (contract_context env))) in
  let! short_circuit := short_circuits contract_id function_name rest_args_sizes in
  let! result :=
    if short_circuit then run_free (execute_contract contract_id function_name rest_args false nested_env)
    else execute_contract contract_id function_name rest_args false nested_env in
  match type_returns_constraint with
  | Some returns_type_signature =>
      let! actual_returns := lift (type_of result) in
      let! ok := lift (admits_type returns_type_signature actual_returns) in
      if negb ok then check_failed (CheckErr.ReturnTypesMustMatch returns_type_signature actual_returns) else m_ret result
  | None => m_ret result
  end.
End natives.
