(* ===== verification/Interpreter.v ===== *)
(** Interpreter: evaluation and application (clarity/src/vm/mod.rs, variables.rs)
    and the calls that start them (contexts.rs).

    The recursion of [apply] is on fuel; what happens without fuel is an
    argument, and Termination.v shows that it never matters. *)
From Stdlib Require Import ZArith Lia Strings.Byte Strings.String Strings.Ascii List Bool.
From stdpp Require Import base decidable list strings option gmap.
From S2P Require Import Prelude Bytes Codec Representations BTree Types Signatures Admission Values.
From S2P Require Import Serialization AssetMap Hashes Keys Natives C32 Principals BackingStore RollbackWrapper RollbackRefinement.
From S2P Require Import Events GlobalContext ClarityDb ClarityState StxBalance Costs Contexts Callables Assets Machine.
From S2P Require Import Specials DataNatives.
Open Scope Z_scope.
Open Scope machine_scope.

Definition MAX_CALL_STACK_DEPTH : Z := 64.

(** [name.starts_with(char::is_numeric) || name.starts_with('\'')], on ASCII. *)
Definition unexpected_name (name : string) : bool :=
  match name with
  | String c _ => is_ascii_digit c || Ascii.eqb c "'"
  | EmptyString => false
  end.

Section interpreter.
Context {O : HashOrder} {D : Digests} {J : SerdeJson} {N : HeadersDB} {Q : IntegerSquareRoot} {K : LibSecp256k1}.
Context {C S T : Type} `{Sqlite C} `{!ClarityBackingStore C S} `{!CostTracker T} `{!Host S T}.
Notation G := (GlobalContext S (Tracked T)).
Notation M := (M (S:=S) (T:=T)).
Implicit Types (args : list SymbolicExpression) (env : Environment) (context : LocalContext).

(** * Variables *)
(** [is_in_regtest] is [cfg!(test)]. *)
Definition is_in_regtest : bool := false.

Definition lookup_reserved_variable (name : string) env : M (option Value) :=
  match NativeVar.lookup_by_name name with
  | Some variable =>
      match variable with
      | NativeVar.TxSender =>
          let! sender := lift (ok_or (Runtime RuntimeErr.NoSenderInContext) (env_sender env)) in
          m_ret (Some (VPrincipal sender))
      | NativeVar.ContractCaller =>
          let! sender := lift (ok_or (Runtime RuntimeErr.NoSenderInContext) (env_caller env)) in
          m_ret (Some (VPrincipal sender))
      | NativeVar.BlockHeight =>
          let! _ := cost CostFunction.FetchVar 1 in
          let! block_height := query db_current_block_height in
          m_ret (Some (VUInt block_height))
      | NativeVar.BurnBlockHeight =>
          let! _ := cost CostFunction.FetchVar 1 in
          let! burn_block_height := query get_current_burnchain_block_height in
          m_ret (Some (VUInt burn_block_height))
      | NativeVar.NativeNone => m_ret (Some Value_none)
      | NativeVar.NativeTrue => m_ret (Some (VBool true))
      | NativeVar.NativeFalse => m_ret (Some (VBool false))
      | NativeVar.TotalLiquidMicroSTX =>
          let! _ := cost CostFunction.FetchVar 1 in
          let! liq := query get_total_liquid_ustx in
          m_ret (Some (VUInt liq))
      | NativeVar.Regtest => m_ret (Some (VBool is_in_regtest))
      end
  | None => m_ret None
  end.

(** [vm::lookup_variable] *)
Definition lookup_name (name : string) env context : M Value :=
  if unexpected_name name
  then raise (InterpreterErr (InterpErr.BadSymbolicRepresentation ("Unexpected variable name: " ++ name))) else
  let! reserved := lookup_reserved_variable name env in
  match reserved with
  | Some value => m_ret value
  | None =>
      let! _ := cost CostFunction.LookupVariableDepth (lc_depth context) in
      match lc_lookup_variable context name ∪ cc_lookup_variable (contract_context env) name with
      | Some value =>
          let! size := lift (Value_size value) in
          let! _ := cost CostFunction.LookupVariableSize size in
          m_ret value
      | None =>
          match lookup_callable_contract context name with
          | Some (contract_identifier, _) => m_ret (VPrincipal (Contract contract_identifier))
          | None => check_failed (CheckErr.UndefinedVariable name)
          end
      end
  end.

(** * Evaluation *)
Section knot.
Context (apply : CallableType -> list SymbolicExpression -> Environment -> LocalContext -> M Value).

(** [vm::eval]; the coverage reports are left out. *)
Definition eval_with (exp : SymbolicExpression) env context : M Value :=
  match exp with
  | AtomValue value | LiteralValue value => m_ret value
  | Atom value => lookup_name value env context
  | ListExpr children =>
      match children with
      | [] => check_failed CheckErr.NonFunctionApplication
      | function_variable :: rest =>
          let! function_name := atom_or CheckErr.BadFunctionName function_variable in
          let! f := lookup_function function_name env in
          apply f rest env context
      end
  | TraitReference _ _ | Field _ => lift Panic
  end.

(** The natives of Assets.v take their arguments as atoms and closures. *)
Definition asset_function (f : list Arg -> Environment -> G -> outcome (G * VmError) (G * Value)) args env context : M Value :=
  f (map (fun e => mkArg (match_atom e) (eval_with e env context)) args) env.

(** The code of a special function; a native function is not one. *)
Definition run_special (function : NativeFunctions) : list SymbolicExpression -> Environment -> LocalContext -> M Value :=
  match function with
  | NativeFn.And => special_and eval_with
  | NativeFn.Or => special_or eval_with
  | NativeFn.If => special_if eval_with
  | NativeFn.Let => special_let eval_with
  | NativeFn.Map => special_map eval_with apply
  | NativeFn.Filter => special_filter eval_with apply
  | NativeFn.Fold => special_fold eval_with apply
  | NativeFn.Append => special_append eval_with
  | NativeFn.Concat => special_concat eval_with
  | NativeFn.AsMaxLen => special_as_max_len eval_with
  | NativeFn.ListCons => list_cons eval_with
  | NativeFn.FetchVar => special_fetch_variable
  | NativeFn.SetVar => special_set_variable eval_with
  | NativeFn.FetchEntry => special_fetch_entry eval_with
  | NativeFn.SetEntry => special_set_entry eval_with
  | NativeFn.InsertEntry => special_insert_entry eval_with
  | NativeFn.DeleteEntry => special_delete_entry eval_with
  | NativeFn.TupleCons => tuple_cons eval_with
  | NativeFn.TupleGet => tuple_get eval_with
  | NativeFn.Secp256k1Recover => special_secp256k1_recover eval_with
  | NativeFn.Secp256k1Verify => special_secp256k1_verify eval_with
  | NativeFn.Print => special_print eval_with
  | NativeFn.ContractCall => special_contract_call eval_with
  | NativeFn.AsContract => special_as_contract eval_with
  | NativeFn.ContractOf => special_contract_of
  | NativeFn.PrincipalOf => special_principal_of eval_with
  | NativeFn.AtBlock => special_at_block eval_with
  | NativeFn.GetBlockInfo => special_get_block_info eval_with
  | NativeFn.Asserts => special_asserts eval_with
  | NativeFn.Match => special_match eval_with
  | NativeFn.GetTokenBalance => asset_function special_get_balance
  | NativeFn.GetAssetOwner => asset_function special_get_owner
  | NativeFn.TransferToken => asset_function special_transfer_token
  | NativeFn.TransferAsset => asset_function special_transfer_asset
  | NativeFn.MintAsset => asset_function special_mint_asset
  | NativeFn.MintToken => asset_function special_mint_token
  | NativeFn.GetTokenSupply => asset_function special_get_token_supply
  | NativeFn.BurnToken => asset_function special_burn_token
  | NativeFn.BurnAsset => asset_function special_burn_asset
  | NativeFn.GetStxBalance => asset_function special_stx_balance
  | NativeFn.StxTransfer => asset_function special_stx_transfer
  | NativeFn.StxBurn => asset_function special_stx_burn
  | NativeFn.StxWithdraw => asset_function special_stx_withdraw
  | NativeFn.WithdrawToken => asset_function special_withdraw_token
  | NativeFn.WithdrawAsset => asset_function special_withdraw_asset
  | _ => fun _ _ _ => lift Panic
  end.

(** The loop of [apply] over the arguments: it returns their values and the
    memory they use, or gives the memory back. *)
Fixpoint eval_args args env context (used_memory : Z) : M (list Value * Z) :=
  match args with
  | [] => m_ret ([], used_memory)
  | arg_x :: rest =>
      let! r := attempt (
        let! arg_value := eval_with arg_x env context in
        let! arg_use := lift (Value_size arg_value) in
        let! _ := use_memory arg_use in
        m_ret (arg_value, arg_use)) in
      match r with
      | Ok (arg_value, arg_use) =>
          let! '(evaluated_args, used_memory) := eval_args rest env context (used_memory + arg_use) in
          m_ret (arg_value :: evaluated_args, used_memory)
      | Err e =>
          let! _ := free_memory used_memory in
          let! _ := decr_depth in
          raise e
      | Panic => lift Panic
      end
  end.

Definition is_user_function (function : CallableType) : bool :=
  match function with UserFunction _ => true | _ => false end.

(** The input of the cost of a native function with its own size: it fails
    without undoing the call. *)
Definition native_cost_input (cost_input_handle : list Value -> outcome VmError Z) (evaluated_args : list Value) : M Z :=
  fun g => if at_least_2_05 g then lift (cost_input_handle evaluated_args) g else Ok (g, zlen evaluated_args).

(** [vm::apply]; the stack traces are left out. *)
Definition apply_body (function : CallableType) args env context : M Value :=
  let identifier := get_identifier function in
  let track_recursion := is_user_function function in
  let! cs := get_stack in
  if track_recursion && CallStack_contains cs identifier
  then check_failed (CheckErr.CircularReference [identifier]) else
  if MAX_CALL_STACK_DEPTH <=? CallStack_depth cs then raise (Runtime RuntimeErr.MaxStackDepthReached) else
  match function with
  | SpecialFunction _ function =>
      let! _ := push_call identifier track_recursion in
      let! resp := attempt (run_special function args env context) in
      let! _ := pop_call identifier track_recursion in
      lift resp
  | _ =>
      let! _ := incr_depth in
      let! '(evaluated_args, used_memory) := eval_args args env context 0 in
      let! _ := decr_depth in
      let! _ := push_call identifier track_recursion in
      let! resp :=
        match function with
        | NativeFunction _ function cost_function => attempt (
            let! _ := cost cost_function (zlen evaluated_args) in
            lift (NativeHandle_apply function evaluated_args))
        | NativeFunction205 _ function cost_function cost_input_handle =>
            let! cost_input := native_cost_input cost_input_handle evaluated_args in
            attempt (
              let! _ := cost cost_function cost_input in
              lift (NativeHandle_apply function evaluated_args))
        | UserFunction function => attempt (DefinedFunction_apply eval_with function evaluated_args env)
        | SpecialFunction _ _ => lift Panic
        end in
      let! _ := free_memory used_memory in
      let! _ := pop_call identifier track_recursion in
      lift resp
  end.
End knot.

Context (no_fuel : CallableType -> list SymbolicExpression -> Environment -> LocalContext -> M Value).

Fixpoint apply (fuel : nat) : CallableType -> list SymbolicExpression -> Environment -> LocalContext -> M Value :=
  match fuel with
  | 0%nat => no_fuel
  | Datatypes.S fuel => apply_body (apply fuel)
  end.
Definition eval (fuel : nat) : SymbolicExpression -> Environment -> LocalContext -> M Value := eval_with (apply fuel).

(** * Transactions *)
(** [OwnedEnvironment::execute_transaction]: the environment is that of
    [get_exec_environment]. *)
Definition execute_transaction (fuel : nat) (default_contract : ContractContext) (sender : PrincipalData)
    (contract_identifier : QualifiedContractIdentifier) (tx_name : string) args (self : G)
  : outcome (G * VmError) (G * (Value * AssetMap * list StacksTransactionEvent)) :=
  execute_in_env self
    (execute_contract (eval fuel) contract_identifier tx_name args false (mkEnv default_contract (Some sender) (Some sender))).
End interpreter.
