(* ===== verification/Define.v ===== *)
(** Define: the definition forms and the deployment of contracts
    (clarity/src/vm/functions/define.rs, vm/mod.rs, vm/contracts.rs and the calls
    of contexts.rs that start from a parsed contract).

    The parser is not modelled: a [ContractAST] is its list of expressions. *)
From Stdlib Require Import ZArith Lia Strings.Byte Strings.String List Bool.
From stdpp Require Import base decidable list strings option gmap.
From S2P Require Import Prelude Bytes Codec Representations BTree Types Signatures Admission Values.
From S2P Require Import Serialization AssetMap Hashes Keys Natives C32 Principals BackingStore RollbackWrapper RollbackRefinement.
From S2P Require Import Events GlobalContext ClarityDb ClarityState StxBalance Costs Contexts Callables Assets Machine Specials.
From S2P Require Import TypeRepr DataNatives Interpreter.
Open Scope Z_scope.
Open Scope machine_scope.

Module DefineFn.
Inductive DefineFunctions :=
| Constant | PrivateFunction | PublicFunction | ReadOnlyFunction | Map | PersistedVariable | FungibleToken
| NonFungibleToken | Trait | UseTrait | ImplTrait.

Definition get_name (f : DefineFunctions) : string :=
  match f with
  | Constant => "define-constant"
  | PrivateFunction => "define-private"
  | PublicFunction => "define-public"
  | ReadOnlyFunction => "define-read-only"
  | Map => "define-map"
  | PersistedVariable => "define-data-var"
  | FungibleToken => "define-fungible-token"
  | NonFungibleToken => "define-non-fungible-token"
  | Trait => "define-trait"
  | UseTrait => "use-trait"
  | ImplTrait => "impl-trait"
  end%string.
Definition ALL : list DefineFunctions :=
  [Constant; PrivateFunction; PublicFunction; ReadOnlyFunction; Map; PersistedVariable; FungibleToken; NonFungibleToken;
   Trait; UseTrait; ImplTrait].
Definition lookup_by_name (name : string) : option DefineFunctions :=
  find (fun f => bool_decide (get_name f = name)) ALL.

(** [DefineFunctions::try_parse] *)
Definition try_parse (expression : SymbolicExpression) : option (DefineFunctions * list SymbolicExpression) :=
  expression ← match_list expression;
  match expression with
  | [] => None
  | function_name :: args =>
      function_name ← match_atom function_name;
      define_type ← lookup_by_name function_name;
      Some (define_type, args)
  end.
End DefineFn.
Notation DefineFunctions := DefineFn.DefineFunctions.

Module Parsed.
Inductive DefineFunctionsParsed :=
| Constant (name : string) (value : SymbolicExpression)
| PrivateFunction (signature : list SymbolicExpression) (body : SymbolicExpression)
| ReadOnlyFunction (signature : list SymbolicExpression) (body : SymbolicExpression)
| PublicFunction (signature : list SymbolicExpression) (body : SymbolicExpression)
| NonFungibleToken (name : string) (nft_type : SymbolicExpression)
| BoundedFungibleToken (name : string) (max_supply : SymbolicExpression)
| UnboundedFungibleToken (name : string)
| Map (name : string) (key_type value_type : SymbolicExpression)
| PersistedVariable (name : string) (data_type initial : SymbolicExpression)
| Trait (name : string) (functions : list SymbolicExpression)
| UseTrait (name : string) (trait_identifier : TraitIdentifier)
| ImplTrait (trait_identifier : TraitIdentifier).
End Parsed.
Notation DefineFunctionsParsed := Parsed.DefineFunctionsParsed.

(** [check_argument_count], and the arguments once there are enough. *)
Definition args_1 (args : list SymbolicExpression) : outcome CheckErrors SymbolicExpression :=
  match args with [a] => Ok a | _ => Err (CheckErr.IncorrectArgumentCount 1 (zlen args)) end.
Definition args_2 (args : list SymbolicExpression) : outcome CheckErrors (SymbolicExpression * SymbolicExpression) :=
  match args with [a; b] => Ok (a, b) | _ => Err (CheckErr.IncorrectArgumentCount 2 (zlen args)) end.
Definition args_3 (args : list SymbolicExpression)
  : outcome CheckErrors (SymbolicExpression * SymbolicExpression * SymbolicExpression) :=
  match args with [a; b; c] => Ok (a, b, c) | _ => Err (CheckErr.IncorrectArgumentCount 3 (zlen args)) end.
Definition expect_name (e : SymbolicExpression) : outcome CheckErrors string := ok_or CheckErr.ExpectedName (match_atom e).
Definition expect_signature (e : SymbolicExpression) : outcome CheckErrors (list SymbolicExpression) :=
  ok_or CheckErr.DefineFunctionBadSignature (match_list e).
Definition expect_field (e : SymbolicExpression) : outcome CheckErrors TraitIdentifier :=
  match e with Field field => Ok field | _ => Err CheckErr.ExpectedTraitIdentifier end.

(** [DefineFunctionsParsed::try_parse] *)
Definition try_parse_define (expression : SymbolicExpression) : outcome CheckErrors (option DefineFunctionsParsed) :=
  match DefineFn.try_parse expression with
  | None => Ok None
  | Some (define_type, args) =>
      let? result :=
        match define_type with
        | DefineFn.Constant =>
            let? '(name, value) := args_2 args in
            let? name := expect_name name in
            Ok (Parsed.Constant name value)
        | DefineFn.PrivateFunction =>
            let? '(signature, body) := args_2 args in
            let? signature := expect_signature signature in
            Ok (Parsed.PrivateFunction signature body)
        | DefineFn.ReadOnlyFunction =>
            let? '(signature, body) := args_2 args in
            let? signature := expect_signature signature in
            Ok (Parsed.ReadOnlyFunction signature body)
        | DefineFn.PublicFunction =>
            let? '(signature, body) := args_2 args in
            let? signature := expect_signature signature in
            Ok (Parsed.PublicFunction signature body)
        | DefineFn.NonFungibleToken =>
            let? '(name, nft_type) := args_2 args in
            let? name := expect_name name in
            Ok (Parsed.NonFungibleToken name nft_type)
        | DefineFn.FungibleToken =>
            let? name := expect_some (nth_error args 0) in
            let? name := expect_name name in
            match args with
            | [_] => Ok (Parsed.UnboundedFungibleToken name)
            | [_; max_supply] => Ok (Parsed.BoundedFungibleToken name max_supply)
            | _ => Err (CheckErr.IncorrectArgumentCount 1 (zlen args))
            end
        | DefineFn.Map =>
            let? '(name, key_type, value_type) := args_3 args in
            let? name := expect_name name in
            Ok (Parsed.Map name key_type value_type)
        | DefineFn.PersistedVariable =>
            let? '(name, data_type, initial) := args_3 args in
            let? name := expect_name name in
            Ok (Parsed.PersistedVariable name data_type initial)
        | DefineFn.Trait =>
            let? '(name, functions) := args_2 args in
            let? name := expect_name name in
            Ok (Parsed.Trait name [functions])
        | DefineFn.UseTrait =>
            let? '(name, field) := args_2 args in
            let? name := expect_name name in
            let? trait_identifier := expect_field field in
            Ok (Parsed.UseTrait name trait_identifier)
        | DefineFn.ImplTrait =>
            let? field := args_1 args in
            let? trait_identifier := expect_field field in
            Ok (Parsed.ImplTrait trait_identifier)
        end in
      Ok (Some result)
  end.

Inductive DefineResult :=
| DRVariable (name : string) (value : Value)
| DRFunction (name : string) (function : DefinedFunction)
| DRMap (name : string) (key_type value_type : TypeSignature)
| DRPersistedVariable (name : string) (value_type : TypeSignature) (value : Value)
| DRFungibleToken (name : string) (total_supply : option Z)
| DRNonFungibleAsset (name : string) (asset_type : TypeSignature)
| DRTrait (name : string) (trait_type : gmap string FunctionSignature)
| DRUseTrait (name : string) (trait_identifier : TraitIdentifier)
| DRImplTrait (trait_identifier : TraitIdentifier)
| NoDefine.

Section define.
Context {O : HashOrder} {D : Digests} {J : SerdeJson} {N : HeadersDB} {Q : IntegerSquareRoot} {K : LibSecp256k1}.
Context {C S T : Type} `{Sqlite C} `{!ClarityBackingStore C S} `{!CostTracker T} `{!Host S T}.
Notation G := (GlobalContext S (Tracked T)).
Notation M := (M (S:=S) (T:=T)).
Context (eval : SymbolicExpression -> Environment -> LocalContext -> M Value).
Implicit Types (env : Environment) (cc : ContractContext).

Definition check_legal_define (name : string) cc : M unit :=
  if is_name_used cc name then check_failed (CheckErr.NameAlreadyUsed name) else m_ret tt.

Definition handle_define_variable (variable : string) (expression : SymbolicExpression) env : M DefineResult :=
  let! _ := check_legal_define variable (contract_context env) in
  let! value := eval expression env LocalContext_new in
  m_ret (DRVariable variable value).

Definition handle_define_function (signature : list SymbolicExpression) (expression : SymbolicExpression) env
    (define_type : DefineType) : M DefineResult :=
  match signature with
  | [] => check_failed CheckErr.DefineFunctionBadSignature
  | function_symbol :: arg_symbols =>
      let! function_name := atom_or CheckErr.ExpectedName function_symbol in
      let! _ := check_legal_define function_name (contract_context env) in
      let! arguments := parse_name_type_pairs arg_symbols in
      let! _ := m_map (fun '(argument, _) => check_legal_define argument (contract_context env)) arguments in
      let function := DefinedFunction_new arguments expression define_type function_name
        (QualifiedContractIdentifier_to_string (contract_identifier (contract_context env))) in
      m_ret (DRFunction function_name function)
  end.

Definition handle_define_persisted_variable (variable_str : string) (value_type value : SymbolicExpression) env : M DefineResult :=
  let! _ := check_legal_define variable_str (contract_context env) in
  let! value_type_signature := parse_type_repr value_type in
  let! value := eval value env LocalContext_new in
  m_ret (DRPersistedVariable variable_str value_type_signature value).

Definition handle_define_nonfungible_asset (asset_name : string) (key_type : SymbolicExpression) env : M DefineResult :=
  let! _ := check_legal_define asset_name (contract_context env) in
  let! key_type_signature := parse_type_repr key_type in
  m_ret (DRNonFungibleAsset asset_name key_type_signature).

Definition handle_define_fungible_token (asset_name : string) (total_supply : option SymbolicExpression) env : M DefineResult :=
  let! _ := check_legal_define asset_name (contract_context env) in
  match total_supply with
  | Some total_supply_expr =>
      let! total_supply_value := eval total_supply_expr env LocalContext_new in
      match total_supply_value with
      | VUInt total_supply_int => m_ret (DRFungibleToken asset_name (Some total_supply_int))
      | _ => check_failed (CheckErr.TypeValueError UIntType total_supply_value)
      end
  | None => m_ret (DRFungibleToken asset_name None)
  end.

Definition handle_define_map (map_str : string) (key_type value_type : SymbolicExpression) env : M DefineResult :=
  let! _ := check_legal_define map_str (contract_context env) in
  let! key_type_signature := parse_type_repr key_type in
  let! value_type_signature := parse_type_repr value_type in
  m_ret (DRMap map_str key_type_signature value_type_signature).

Definition handle_define_trait (name : string) (functions : list SymbolicExpression) env : M DefineResult :=
  let! _ := check_legal_define name (contract_context env) in
  let! trait_signature := parse_trait_type_repr functions in
  m_ret (DRTrait name trait_signature).

Definition handle_use_trait (name : string) (trait_identifier : TraitIdentifier) : M DefineResult :=
  m_ret (DRUseTrait name trait_identifier).
Definition handle_impl_trait (trait_identifier : TraitIdentifier) : M DefineResult := m_ret (DRImplTrait trait_identifier).

Definition evaluate_define (expression : SymbolicExpression) env : M DefineResult :=
  let! define_type := lift (unchecked (try_parse_define expression)) in
  match define_type with
  | Some (Parsed.Constant name value) => handle_define_variable name value env
  | Some (Parsed.PrivateFunction signature body) => handle_define_function signature body env Private
  | Some (Parsed.ReadOnlyFunction signature body) => handle_define_function signature body env ReadOnly
  | Some (Parsed.PublicFunction signature body) => handle_define_function signature body env Public
  | Some (Parsed.NonFungibleToken name nft_type) => handle_define_nonfungible_asset name nft_type env
  | Some (Parsed.BoundedFungibleToken name max_supply) => handle_define_fungible_token name (Some max_supply) env
  | Some (Parsed.UnboundedFungibleToken name) => handle_define_fungible_token name None env
  | Some (Parsed.Map name key_type value_type) => handle_define_map name key_type value_type env
  | Some (Parsed.PersistedVariable name data_type initial) => handle_define_persisted_variable name data_type initial env
  | Some (Parsed.Trait name functions) => handle_define_trait name functions env
  | Some (Parsed.UseTrait name trait_identifier) => handle_use_trait name trait_identifier
  | Some (Parsed.ImplTrait trait_identifier) => handle_impl_trait trait_identifier
  | None => m_ret NoDefine
  end.

(** * Whole contracts *)
(** Updates of a contract context. *)
Definition set_variables cc v : ContractContext :=
  mkContractContext (contract_identifier cc) v (cc_functions cc) (defined_traits cc) (implemented_traits cc) (persisted_names cc)
    (meta_data_map cc) (meta_data_var cc) (meta_nft cc) (meta_ft cc) (data_size cc).
Definition set_functions cc f : ContractContext :=
  mkContractContext (contract_identifier cc) (cc_variables cc) f (defined_traits cc) (implemented_traits cc) (persisted_names cc)
    (meta_data_map cc) (meta_data_var cc) (meta_nft cc) (meta_ft cc) (data_size cc).
Definition set_traits cc defined implemented : ContractContext :=
  mkContractContext (contract_identifier cc) (cc_variables cc) (cc_functions cc) defined implemented (persisted_names cc)
    (meta_data_map cc) (meta_data_var cc) (meta_nft cc) (meta_ft cc) (data_size cc).
(** [persisted_names.insert(name)], and the new metadata. *)
Definition add_persisted cc (name : string) maps vars nfts fts : ContractContext :=
  mkContractContext (contract_identifier cc) (cc_variables cc) (cc_functions cc) (defined_traits cc) (implemented_traits cc)
    ({[name]} ∪ persisted_names cc) maps vars nfts fts (data_size cc).
Definition set_data_size cc (n : Z) : ContractContext :=
  mkContractContext (contract_identifier cc) (cc_variables cc) (cc_functions cc) (defined_traits cc) (implemented_traits cc)
    (persisted_names cc) (meta_data_map cc) (meta_data_var cc) (meta_nft cc) (meta_ft cc) n.

(** [global_context.execute(|context| { let mut call_stack = CallStack::new(); .. })] *)
Definition with_new_stack {A : Type} (m : M A) : M A :=
  fun g =>
    match m (with_stack g CallStack_new) with
    | Ok (g', a) => Ok (with_stack g' (call_stack g), a)
    | Err (g', e) => Err (with_stack g' (call_stack g), e)
    | Panic => Panic
    end.
Definition execute_alone {A : Type} (m : M A) : M A := fun g => execute g (with_new_stack m).

(** [add_memory(t.type_size().expect(..) as u64)] *)
Definition use_type_memory (t : TypeSignature) : M unit :=
  let! n := lift (expect (type_size t)) in use_memory n.

(** One expression of a contract: the new context, the memory it holds on to,
    and the value of an expression that is not a definition. *)
Definition eval_top (publisher : PrincipalData) cc (exp : SymbolicExpression) : M (ContractContext * Z * option Value) :=
  let env := mkEnv cc (Some publisher) (Some publisher) in
  let id := contract_identifier cc in
  let! try_define := execute_alone (evaluate_define exp env) in
  match try_define with
  | DRVariable name value =>
      let! _ := cost CostFunction.BindName 0 in
      let! value_memory_use := lift (Value_size value) in
      let! _ := use_memory value_memory_use in
      m_ret (set_variables cc (<[name := value]> (cc_variables cc)), value_memory_use, None)
  | DRFunction name value =>
      let! _ := cost CostFunction.BindName 0 in
      m_ret (set_functions cc (<[name := value]> (cc_functions cc)), 0, None)
  | DRPersistedVariable name value_type value =>
      let! size := lift (TypeSignature_size value_type) in
      let! _ := cost CostFunction.CreateVar size in
      let! _ := use_type_memory value_type in
      let! size := lift (Value_size value) in
      let! _ := use_memory size in
      let! data_type := update_db (fun db => create_variable db id name value_type) in
      let! _ := update_db (fun db => set_variable db id name value data_type) in
      m_ret (add_persisted cc name (meta_data_map cc) (<[name := data_type]> (meta_data_var cc)) (meta_nft cc) (meta_ft cc), 0, None)
  | DRMap name key_type value_type =>
      let! key_size := lift (TypeSignature_size key_type) in
      let! value_size := lift (TypeSignature_size value_type) in
      let! size := lift (map_err Error_from_cost (cost_overflow_add key_size value_size)) in
      let! _ := cost CostFunction.CreateMap size in
      let! _ := use_type_memory key_type in
      let! _ := use_type_memory value_type in
      let! data_type := update_db (fun db => create_map db id name key_type value_type) in
      m_ret (add_persisted cc name (<[name := data_type]> (meta_data_map cc)) (meta_data_var cc) (meta_nft cc) (meta_ft cc), 0, None)
  | DRFungibleToken name total_supply =>
      let! _ := cost CostFunction.CreateFt 0 in
      let! _ := use_type_memory UIntType in
      let! data_type := update_db (fun db => create_fungible_token db id name total_supply) in
      m_ret (add_persisted cc name (meta_data_map cc) (meta_data_var cc) (meta_nft cc) (<[name := data_type]> (meta_ft cc)), 0, None)
  | DRNonFungibleAsset name asset_type =>
      let! size := lift (TypeSignature_size asset_type) in
      let! _ := cost CostFunction.CreateNft size in
      let! _ := use_type_memory asset_type in
      let! data_type := update_db (fun db => create_non_fungible_token db id name asset_type) in
      m_ret (add_persisted cc name (meta_data_map cc) (meta_data_var cc) (<[name := data_type]> (meta_nft cc)) (meta_ft cc), 0, None)
  | DRTrait name trait_type =>
      m_ret (set_traits cc (<[name := trait_type]> (defined_traits cc)) (implemented_traits cc), 0, None)
  | DRUseTrait _ _ => m_ret (cc, 0, None)
  | DRImplTrait trait_identifier =>
      m_ret (set_traits cc (defined_traits cc) ({[trait_identifier]} ∪ implemented_traits cc), 0, None)
  | NoDefine =>
      let! result := execute_alone (eval exp env LocalContext_new) in
      m_ret (cc, 0, Some result)
  end.

(** The loop of [eval_all]: the memory in use is known after errors too. *)
Fixpoint eval_tops (publisher : PrincipalData) cc (total_memory_use : Z) (last_executed : option Value)
    (expressions : list SymbolicExpression) : M (Z * outcome VmError (ContractContext * option Value)) :=
  match expressions with
  | [] => m_ret (total_memory_use, Ok (cc, last_executed))
  | exp :: expressions =>
      let! r := attempt (eval_top publisher cc exp) in
      match r with
      | Ok (cc, memory_use, executed) =>
          eval_tops publisher cc (total_memory_use + memory_use)
            (match executed with Some v => Some v | None => last_executed end) expressions
      | Err e => m_ret (total_memory_use, Err e)
      | Panic => lift Panic
      end
  end.

Definition eval_all (expressions : list SymbolicExpression) cc : M (ContractContext * option Value) :=
  let publisher := Standard (issuer (contract_identifier cc)) in
  let! '(total_memory_use, r) := eval_tops publisher cc 0 None expressions in
  let! _ := free_memory total_memory_use in
  let! '(cc, last_executed) := lift r in
  m_ret (set_data_size cc total_memory_use, last_executed).

(** [Contract::initialize_from_ast] *)
Definition initialize_from_ast (id : QualifiedContractIdentifier) (contract : list SymbolicExpression) : M ContractContext :=
  let! '(cc, _) := eval_all contract (ContractContext_new id) in
  m_ret cc.

(** The closure of [initialize_contract_from_ast]. *)
Definition deploy_body (id : QualifiedContractIdentifier) (contract_content : list SymbolicExpression) (contract_string : string)
  : M ContractContext :=
  let len := Z.of_nat (String.length contract_string) in
  let! _ := cost CostFunction.ContractStorage len in
  let! exists_already := query (fun db => has_contract db id) in
  if exists_already then check_failed (CheckErr.ContractAlreadyExists (QualifiedContractIdentifier_to_string id)) else
  let! _ := update_db (fun db => let? db := insert_contract_hash db id contract_string in Ok (tt, db)) in
  let! _ := use_memory len in
  finally_free len (initialize_from_ast id contract_content).

(** [Environment::initialize_contract_from_ast]: an error after the contract was
    initialized leaves the context open. *)
Definition initialize_contract_from_ast (id : QualifiedContractIdentifier) (contract_content : list SymbolicExpression)
    (contract_string : string) : M unit :=
  fun g =>
    match deploy_body id contract_content contract_string (begin g) with
    | Ok (g, contract) =>
        (let! _ := update_db (fun db => let? db := insert_contract json_contract db id contract in Ok (tt, db)) in
         let! _ := update_db (fun db => let? db := set_contract_data_size db id (data_size contract) in Ok (tt, db)) in
         update (fun g => let? '(g, _) := context_commit g in Ok g)) g
    | Err (g, e) => let? g := roll_back g in Err (g, e)
    | Panic => Panic
    end.

(** [OwnedEnvironment::initialize_contract_from_ast] *)
Definition deploy_contract (id : QualifiedContractIdentifier) (contract_content : list SymbolicExpression) (contract_string : string)
    (self : G) : outcome (G * VmError) (G * (unit * AssetMap * list StacksTransactionEvent)) :=
  execute_in_env self (initialize_contract_from_ast id contract_content contract_string).

(** * Other top-level calls *)
(** [Environment::stx_transfer] *)
Definition stx_transfer (from to : PrincipalData) (amount : Z) env : M Value :=
  fun g =>
    match stx_transfer_consolidated env (begin g) from to amount with
    | Ok (g, value) =>
        match value with
        | VResponse true _ => let? '(g, _) := context_commit g in Ok (g, value)
        | VResponse false _ => let? g := roll_back g in Err (g, InterpreterErr InterpErr.InsufficientBalance)
        | _ => Panic
        end
    | Err (g, e) => let? g := roll_back g in Err (g, e)
    | Panic => Panic
    end.
(** [OwnedEnvironment::stx_transfer] *)
Definition transfer_transaction (default_contract : ContractContext) (from to : PrincipalData) (amount : Z) (self : G)
  : outcome (G * VmError) (G * (Value * AssetMap * list StacksTransactionEvent)) :=
  execute_in_env self (stx_transfer from to amount (mkEnv default_contract (Some from) (Some from))).

(** [Environment::eval_read_only], on the expressions of the program: a contract
    that is not there leaves the context open. *)
Definition eval_read_only (id : QualifiedContractIdentifier) (parsed : list SymbolicExpression) env : M Value :=
  match parsed with
  | [] => raise (Runtime (RuntimeErr.ParseError "Expected a program of at least length 1"))
  | exp :: _ =>
      let! _ := update (fun g => Ok (begin g)) in
      let! contract := query (fun db => get_contract json_contract db id) in
      let! result := attempt (eval exp (mkEnv contract (env_sender env) (env_caller env)) LocalContext_new) in
      let! _ := update roll_back in
      lift result
  end.
(** [Environment::eval_raw] *)
Definition eval_raw (parsed : list SymbolicExpression) env : M Value :=
  match parsed with
  | [] => raise (Runtime (RuntimeErr.ParseError "Expected a program of at least length 1"))
  | exp :: _ => eval exp env LocalContext_new
  end.
End define.
