(* ===== verification/Ast.v ===== *)
(** Ast: the passes that turn the parsed expressions of a contract into the ones
    that are executed (clarity/src/vm/ast/): the check of the nesting depth, the
    numbering of expressions, the sorting of definitions, the resolution of
    traits, the expansion of sugar, and [build_ast], which composes them.

    Expressions carry no spans after the expansion, and no ids: nothing that is
    modelled reads them ([SymbolicExpression] of [Contexts]). *)
From Stdlib Require Import ZArith Lia Strings.String Strings.Ascii List Bool Arith.
From stdpp Require Import base decidable list strings option gmap relations.
From S2P Require Import Prelude Bytes Representations Types Values Hashes AssetMap Costs Contexts Callables Regex Lexer Parser.
From S2P Require Import Interpreter Define.
Open Scope Z_scope.

(** * Nesting depth (stack_depth_checker.rs) *)
Definition AST_CALL_STACK_DEPTH_BUFFER : Z := 5.

(** The body of [check] for one expression: only lists count as nesting. *)
Fixpoint check_expr (expression : PreSymbolicExpression) (depth : Z) : outcome ParseErrors unit :=
  match expression with
  | Pre.mkPre (Pre.List exprs) _ _ =>
      if AST_CALL_STACK_DEPTH_BUFFER + MAX_CALL_STACK_DEPTH <=? depth + 1 then Err ParseErr.ExpressionStackDepthTooDeep
      else (fix go l := match l with [] => Ok tt | e :: l => let? _ := check_expr e (depth + 1) in go l end) exprs
  | _ => Ok tt
  end.
Definition check (args : list PreSymbolicExpression) (depth : Z) : outcome ParseErrors unit :=
  if AST_CALL_STACK_DEPTH_BUFFER + MAX_CALL_STACK_DEPTH <=? depth then Err ParseErr.ExpressionStackDepthTooDeep
  else try_fold (fun _ e => check_expr e depth) tt args.

(** * Numbering (expression_identifier/mod.rs) *)
Definition next_id (n : Z) : outcome ParseErrors Z := ok_or ParseErr.TooManyExpressions (checked_add u64_ty n 1).

(** An expression numbered [current], and the next number: the parts of a list
    are numbered after it; the parts of a tuple are not numbered. *)
Fixpoint relabel_pre (e : PreSymbolicExpression) (current : Z) : outcome ParseErrors (PreSymbolicExpression * Z) :=
  match e with
  | Pre.mkPre (Pre.List exprs) _ s =>
      let? first := next_id current in
      let? '(exprs, current') :=
        (fix go l n := match l with
         | [] => Ok ([], n)
         | e :: l => let? '(e, n) := relabel_pre e n in let? '(l, n) := go l n in Ok (e :: l, n)
         end) exprs first in
      Ok (Pre.mkPre (Pre.List exprs) current s, current')
  | Pre.mkPre t _ s => let? n := next_id current in Ok (Pre.mkPre t current s, n)
  end.
Fixpoint relabel_pres (l : list PreSymbolicExpression) (n : Z) : outcome ParseErrors (list PreSymbolicExpression * Z) :=
  match l with
  | [] => Ok ([], n)
  | e :: l => let? '(e, n) := relabel_pre e n in let? '(l, n) := relabel_pres l n in Ok (e :: l, n)
  end.
(** [update_expression_id] *)
Definition update_pre_expression_id (exprs : list PreSymbolicExpression) : outcome ParseErrors (list PreSymbolicExpression) :=
  let? first := next_id 0 in
  let? '(exprs, _) := relabel_pres exprs first in
  Ok exprs.

(** The same on expressions, which carry no id: only the numbers are counted. *)
Fixpoint relabel_expr (e : SymbolicExpression) (current : Z) : outcome ParseErrors Z :=
  match e with
  | ListExpr exprs =>
      let? first := next_id current in
      (fix go l n := match l with [] => Ok n | e :: l => let? n := relabel_expr e n in go l n end) exprs first
  | _ => next_id current
  end.
Definition update_expression_id (exprs : list SymbolicExpression) : outcome ParseErrors unit :=
  let? first := next_id 0 in
  let? _ := try_fold (fun n e => relabel_expr e n) first exprs in
  Ok tt.

(** * Sorting of definitions (definition_sorter/mod.rs) *)
Record TopLevelExpressionIndex := mkTopLevel { expr_index : nat; atom_index : Z }.

(** The first argument of a definition form, or the first element of it if it is
    a list, is the name defined, with the id of its atom. *)
Definition find_expression_definition (exp : PreSymbolicExpression) : option (string * Z) :=
  exp ← Pre.match_list exp;
  match exp with
  | [] => None
  | function_name :: args =>
      function_name ← Pre.match_atom function_name;
      _ ← DefineFn.lookup_by_name function_name;
      arg ← nth_error args 0;
      defined_name ← match Pre.match_list arg with
                     | Some l => nth_error l 0
                     | None => Some arg
                     end;
      tle_name ← Pre.match_atom defined_name;
      Some (tle_name, Pre.id defined_name)
  end.

Section sorter.
Context (top_level_expressions_map : gmap string TopLevelExpressionIndex).

(** A name that is defined at the top level, other than the atom that defines it,
    is a dependency. *)
Definition dependency (name : string) (id : Z) : list nat :=
  match top_level_expressions_map !! name with
  | Some dep => if negb (atom_index dep =? id) then [expr_index dep] else []
  | None => []
  end.

(** [probe_for_dependencies]: the edges that are added from the top-level
    expression, in order.  Definition forms and some native functions are looked
    into in their own way; the keys of tuples are not references. *)
Fixpoint probe_for_dependencies (expr : PreSymbolicExpression) : list nat :=
  let probe_all := fix go l := match l with [] => [] | e :: l => probe_for_dependencies e ++ go l end in
  let probe_pairs := fix go l := match l with
    | [] => []
    | Pre.mkPre (Pre.List [_; value]) _ _ :: l => probe_for_dependencies value ++ go l
    | _ :: l => go l
    end in
  match expr with
  | Pre.mkPre (Pre.Atom name) id _ => dependency name id
  | Pre.mkPre (Pre.TraitReference name) id _ => dependency name id
  | Pre.mkPre (Pre.List exprs) _ _ =>
      match exprs with
      | Pre.mkPre (Pre.Atom function_name) _ _ :: function_args =>
          match DefineFn.lookup_by_name function_name, NativeFn.lookup_by_name function_name with
          | Some (DefineFn.PersistedVariable | DefineFn.Constant), _ =>
              match function_args with
              | _ :: rest => probe_all rest
              | [] => []
              end
          | Some (DefineFn.PublicFunction | DefineFn.PrivateFunction | DefineFn.ReadOnlyFunction), _ =>
              match function_args with
              | [Pre.mkPre (Pre.List (_ :: pairs)) _ _; body] => probe_pairs pairs ++ probe_for_dependencies body
              | [_; body] => probe_for_dependencies body
              | _ => []
              end
          | Some DefineFn.Map, _ =>
              match function_args with
              | [_; key; value] => probe_for_dependencies key ++ probe_for_dependencies value
              | _ => []
              end
          | Some DefineFn.Trait, _ =>
              match function_args with
              | [_; Pre.mkPre (Pre.List trait_sig) _ _] =>
                  (fix go l := match l with
                   | [] => []
                   | Pre.mkPre (Pre.List [_; args; ret]) _ _ :: l => probe_for_dependencies args ++ probe_for_dependencies ret ++ go l
                   | _ :: l => go l
                   end) trait_sig
              | _ => []
              end
          | Some (DefineFn.ImplTrait | DefineFn.UseTrait | DefineFn.NonFungibleToken), _ => []
          | Some DefineFn.FungibleToken, _ =>
              match function_args with
              | [_; supply] => probe_for_dependencies supply
              | _ => []
              end
          | None, Some NativeFn.ContractCall =>
              match function_args with
              | _ :: _ :: rest => probe_all rest
              | _ => []
              end
          | None, Some NativeFn.Let =>
              match function_args with
              | Pre.mkPre (Pre.List bindings) _ _ :: ((_ :: _) as rest) => probe_pairs bindings ++ probe_all rest
              | _ :: ((_ :: _) as rest) => probe_all rest
              | _ => []
              end
          | None, Some NativeFn.TupleGet =>
              match function_args with
              | [_; value] => probe_for_dependencies value
              | _ => []
              end
          | None, Some NativeFn.TupleCons => probe_pairs function_args
          | None, _ => probe_all exprs
          end
      | _ => probe_all exprs
      end
  | Pre.mkPre (Pre.Tuple exprs) _ _ =>
      (fix go l := match l with _ :: value :: l => probe_for_dependencies value ++ go l | _ => [] end) exprs
  | _ => []
  end.
End sorter.

(** ** Graphs *)
(** The adjacency lists of the nodes [0..]. *)
Notation Graph := (list (list nat)).
Definition nodes_count (graph : Graph) : nat := length graph.
Definition get_node_descendants (graph : Graph) (expr_index : nat) : outcome ParseErrors (list nat) :=
  expect_some (graph !! expr_index).
Definition has_node_descendants (graph : Graph) (expr_index : nat) : outcome ParseErrors bool :=
  let? l := expect_some (graph !! expr_index) in Ok (match l with [] => false | _ => true end).
Definition edges_count (graph : Graph) : outcome ParseErrors Z :=
  try_fold (fun total node => ok_or ParseErr.CostOverflow (checked_add u64_ty total (zlen node))) 0 graph.

(** [sort_dependencies_recursion]: a depth-first search in post-order, over the
    nodes seen and the order so far.  A node is entered once, so that one more
    than the number of nodes is fuel enough. *)
Fixpoint sort_dependencies_recursion (fuel : nat) (tle_index : nat) (graph : Graph) (st : gset nat * list nat)
  : outcome ParseErrors (gset nat * list nat) :=
  match fuel with
  | O => Panic
  | S fuel =>
      let '(seen, branch) := st in
      if decide (tle_index ∈ seen) then Ok (seen, branch)
      else
        let? '(seen, branch) :=
          match graph !! tle_index with
          | Some neighbors => try_fold (fun st neighbor => sort_dependencies_recursion fuel neighbor graph st) ({[tle_index]} ∪ seen, branch) neighbors
          | None => Ok ({[tle_index]} ∪ seen, branch)
          end in
        Ok (seen, branch ++ [tle_index])
  end.
Definition get_sorted_dependencies (graph : Graph) : outcome ParseErrors (list nat) :=
  let? '(_, sorted_indexes) :=
    try_fold (fun st expr_index => sort_dependencies_recursion (S (nodes_count graph)) expr_index graph st) (∅, [])
      (seq 0 (nodes_count graph)) in
  Ok sorted_indexes.

(** One node of [get_cycling_dependencies]: it is tainted if all it depends on is
    tainted or depends on nothing. *)
Definition taint_node (graph : Graph) (tainted : gset nat) (node : nat) : outcome ParseErrors (gset nat) :=
  let? descendants := get_node_descendants graph node in
  let? '(tainted, count) :=
    try_fold (fun '(tainted, count) descendant =>
      let? has_descendants := has_node_descendants graph descendant in
      if negb has_descendants || bool_decide (descendant ∈ tainted) then Ok ({[descendant]} ∪ tainted, S count)
      else Ok (tainted, count)) (tainted, O) descendants in
  Ok (if Nat.eqb count (length descendants) then {[node]} ∪ tainted else tainted).
Definition get_cycling_dependencies {Order : HashOrder} (graph : Graph) (sorted_indexes : list nat)
  : outcome ParseErrors (option (list nat)) :=
  let? tainted := try_fold (taint_node graph) ∅ sorted_indexes in
  if Nat.eqb (size tainted) (length sorted_indexes) then Ok None
  else
    let nodes : gset nat := list_to_set sorted_indexes in
    Ok (Some (map fst (drain (gset_to_gmap tt (nodes ∖ tainted))))).

(** * The tree of a contract (types.rs) *)
Record ContractAST := mkAST {
  ast_contract_identifier : QualifiedContractIdentifier;
  pre_expressions : list PreSymbolicExpression;
  expressions : list SymbolicExpression;
  top_level_expression_sorting : option (list nat);
  referenced_traits : gmap string TraitDefinition;
  ast_implemented_traits : gset TraitIdentifier
}.
Definition ContractAST_new (id : QualifiedContractIdentifier) (pre : list PreSymbolicExpression) : ContractAST :=
  mkAST id pre [] (Some []) ∅ ∅.

(** [From<CostErrors> for ParseError] *)
Definition ParseErrors_from_cost (err : CostErrors) : ParseErrors :=
  match err with
  | CostErr.CostOverflow => ParseErr.CostOverflow
  | CostErr.CostBalanceExceeded a b => ParseErr.CostBalanceExceeded a b
  | CostErr.MemoryBalanceExceeded a b => ParseErr.MemoryBalanceExceeded a b
  | CostErr.CostComputationFailed s => ParseErr.CostComputationFailed s
  | CostErr.CostContractLoadFailure => ParseErr.CostComputationFailed "Failed to load cost contract"
  end.

Section passes.
Context {Order : HashOrder}.

(** The definitions of the top level; the last one of a name counts. *)
Definition top_level_map (exprs : list PreSymbolicExpression) : gmap string TopLevelExpressionIndex :=
  fold_left (fun m '(expr_index, expr) =>
    match find_expression_definition expr with
    | Some (definition_name, atom_index) => <[definition_name := mkTopLevel expr_index atom_index]> m
    | None => m
    end) (zip (seq 0 (length exprs)) exprs) ∅.
Definition dependency_graph (exprs : list PreSymbolicExpression) : Graph :=
  map (probe_for_dependencies (top_level_map exprs)) exprs.

(** [DefinitionSorter::run]: the tracker is returned with errors too. *)
Definition sorter_run {T : Type} `{CostTracker T} (contract_ast : ContractAST) (accounting : T)
  : outcome (T * ParseErrors) (T * ContractAST) :=
  let exprs := pre_expressions contract_ast in
  let graph := dependency_graph exprs in
  let? edges := map_err (pair accounting) (edges_count graph) in
  let? accounting := map_err (fun '(t, e) => (t, ParseErrors_from_cost e)) (runtime_cost CostFunction.AstCycleDetection accounting edges) in
  let? sorted_indexes := map_err (pair accounting) (get_sorted_dependencies graph) in
  let? cycling := map_err (pair accounting) (get_cycling_dependencies graph sorted_indexes) in
  match cycling with
  | Some deps =>
      let? deps_props := map_err (pair accounting) (try_map (fun i =>
        let? exp := expect_some (exprs !! i) in Ok (find_expression_definition exp)) deps) in
      Err (accounting, ParseErr.CircularReference (map fst (omap Datatypes.id deps_props)))
  | None =>
      Ok (accounting, mkAST (ast_contract_identifier contract_ast) exprs (expressions contract_ast) (Some sorted_indexes)
                        (referenced_traits contract_ast) (ast_implemented_traits contract_ast))
  end.

(** * Traits (traits_resolver/mod.rs) *)
Definition try_parse_pre_expr (expression : PreSymbolicExpression) : option (DefineFunctions * list PreSymbolicExpression) :=
  expression ← Pre.match_list expression;
  match expression with
  | [] => None
  | function_name :: args =>
      function_name ← Pre.match_atom function_name;
      define_type ← DefineFn.lookup_by_name function_name;
      Some (define_type, args)
  end.

(** [probe_for_generics] on one expression: the traits it refers to. *)
Fixpoint probe_generic (should_reference : bool) (traits : gmap string PreSymbolicExpression) (expression : PreSymbolicExpression)
  : outcome ParseErrors (gmap string PreSymbolicExpression) :=
  let probe_all := fix go m l := match l with [] => Ok m | e :: l => let? m := probe_generic should_reference m e in go m l end in
  match expression with
  | Pre.mkPre (Pre.List l) _ _ => probe_all traits l
  | Pre.mkPre (Pre.TraitReference trait_name) _ _ =>
      if should_reference then Ok (<[trait_name := expression]> traits) else Err ParseErr.TraitReferenceNotAllowed
  | Pre.mkPre (Pre.Tuple atoms) _ _ => probe_all traits atoms
  | _ => Ok traits
  end.
Definition probe_for_generics (exprs : list PreSymbolicExpression) (traits : gmap string PreSymbolicExpression) (should_reference : bool)
  : outcome ParseErrors (gmap string PreSymbolicExpression) :=
  try_fold (probe_generic should_reference) traits exprs.

(** The trait a field expression names. *)
Definition field_trait (issuer : StandardPrincipalData) (e : PreSymbolicExpression) (err : ParseErrors) : outcome ParseErrors TraitIdentifier :=
  match Pre.pre_expr e with
  | Pre.SugaredFieldIdentifier contract_name name => Ok (mkTraitId name (mkContractId issuer contract_name))
  | Pre.FieldIdentifier trait_identifier => Ok trait_identifier
  | _ => Err err
  end.

(** The state of the pass: the traits declared, those implemented, and those
    referred to. *)
Record TraitState := mkTraits {
  declared : gmap string TraitDefinition;
  implemented : gset TraitIdentifier;
  referred : gmap string PreSymbolicExpression
}.
Definition resolve_expr (id : QualifiedContractIdentifier) (st : TraitState) (exp : PreSymbolicExpression) : outcome ParseErrors TraitState :=
  match try_parse_pre_expr exp with
  | None => Ok st
  | Some (define_type, args) =>
      match define_type with
      | DefineFn.Trait =>
          match args with
          | [Pre.mkPre (Pre.Atom trait_name) _ _; Pre.mkPre (Pre.List trait_definition) _ _] =>
              if bool_decide (is_Some (declared st !! trait_name)) then Err (ParseErr.NameAlreadyUsed trait_name) else
              let? referred := probe_for_generics trait_definition (referred st) true in
              Ok (mkTraits (<[trait_name := Defined (mkTraitId trait_name id)]> (declared st)) (implemented st) referred)
          | _ => Err ParseErr.DefineTraitBadSignature
          end
      | DefineFn.UseTrait =>
          match args with
          | [Pre.mkPre (Pre.Atom trait_name) _ _; field] =>
              if bool_decide (is_Some (declared st !! trait_name)) then Err (ParseErr.NameAlreadyUsed trait_name) else
              let? trait_id := field_trait (issuer id) field ParseErr.ImportTraitBadSignature in
              Ok (mkTraits (<[trait_name := Imported trait_id]> (declared st)) (implemented st) (referred st))
          | _ => Err ParseErr.ImportTraitBadSignature
          end
      | DefineFn.ImplTrait =>
          match args with
          | [field] =>
              let? trait_id := field_trait (issuer id) field ParseErr.ImplTraitBadSignature in
              Ok (mkTraits (declared st) ({[trait_id]} ∪ implemented st) (referred st))
          | _ => Err ParseErr.ImplTraitBadSignature
          end
      | DefineFn.PublicFunction | DefineFn.PrivateFunction | DefineFn.ReadOnlyFunction =>
          let? referred := probe_for_generics args (referred st) true in
          Ok (mkTraits (declared st) (implemented st) referred)
      | DefineFn.Constant | DefineFn.Map | DefineFn.PersistedVariable | DefineFn.FungibleToken | DefineFn.NonFungibleToken =>
          match args with
          | [] => Panic
          | _ :: args =>
              let? referred := probe_for_generics args (referred st) false in
              Ok (mkTraits (declared st) (implemented st) referred)
          end
      end
  end.
(** [TraitsResolver::run] *)
Definition resolver_run (contract_ast : ContractAST) : outcome ParseErrors ContractAST :=
  let? st := try_fold (resolve_expr (ast_contract_identifier contract_ast))
    (mkTraits (referenced_traits contract_ast) (ast_implemented_traits contract_ast) ∅) (pre_expressions contract_ast) in
  let? _ := try_fold (fun _ '(trait_reference, _) =>
    if bool_decide (is_Some (declared st !! trait_reference)) then Ok tt else Err (ParseErr.TraitReferenceUnknown trait_reference))
    tt (drain (referred st)) in
  Ok (mkAST (ast_contract_identifier contract_ast) (pre_expressions contract_ast) (expressions contract_ast)
        (top_level_expression_sorting contract_ast) (declared st) (implemented st)).

(** * Sugar (sugar_expander/mod.rs) *)
(** [PreExpressionsDrain]: the expressions in the order of the sorting, if there
    is one; an index that was used before, or is not there, ends the iteration. *)
Fixpoint drain_sorted (len : nat) (pre : gmap nat PreSymbolicExpression) (indirections : list nat)
  : outcome ParseErrors (list PreSymbolicExpression) :=
  match len, indirections with
  | O, _ => Ok []
  | S _, [] => Panic
  | S len, expr_index :: indirections =>
      match pre !! expr_index with
      | Some e => let? l := drain_sorted len (delete expr_index pre) indirections in Ok (e :: l)
      | None => Ok []
      end
  end.
Definition pre_expressions_drain (pre : list PreSymbolicExpression) (sorting : option (list nat))
  : outcome ParseErrors (list PreSymbolicExpression) :=
  match sorting with
  | Some ((_ :: _) as indirections) => drain_sorted (length pre) (map_seq 0 pre) indirections
  | _ => Ok pre
  end.

(** [chunks(2)], each a list *)
Fixpoint pair_up (l : list SymbolicExpression) : list SymbolicExpression :=
  match l with
  | a :: b :: l => ListExpr [a; b] :: pair_up l
  | [a] => [ListExpr [a]]
  | [] => []
  end.

Section expander.
Context (issuer : StandardPrincipalData) (traits : gmap string TraitDefinition).

(** [transform] on one expression. *)
Fixpoint transform_expr (pre : PreSymbolicExpression) : outcome ParseErrors SymbolicExpression :=
  let transform_all := fix go l := match l with
    | [] => Ok []
    | e :: l => let? e := transform_expr e in let? l := go l in Ok (e :: l)
    end in
  match pre with
  | Pre.mkPre (Pre.AtomValue content) _ _ => Ok (LiteralValue content)
  | Pre.mkPre (Pre.Atom content) _ _ => Ok (Atom content)
  | Pre.mkPre (Pre.List pre_exprs) _ _ => let? expression := transform_all pre_exprs in Ok (ListExpr expression)
  | Pre.mkPre (Pre.Tuple pre_exprs) _ _ =>
      let? expression := transform_all pre_exprs in Ok (ListExpr (Atom "tuple" :: pair_up expression))
  | Pre.mkPre (Pre.SugaredContractIdentifier contract_name) _ _ =>
      Ok (LiteralValue (VPrincipal (Contract (mkContractId issuer contract_name))))
  | Pre.mkPre (Pre.SugaredFieldIdentifier contract_name name) _ _ => Ok (Field (mkTraitId name (mkContractId issuer contract_name)))
  | Pre.mkPre (Pre.FieldIdentifier trait_identifier) _ _ => Ok (Field trait_identifier)
  | Pre.mkPre (Pre.TraitReference name) _ _ =>
      match traits !! name with
      | Some trait_reference => Ok (TraitReference name trait_reference)
      | None => Err (ParseErr.TraitReferenceUnknown name)
      end
  end.
Definition transform : list PreSymbolicExpression -> outcome ParseErrors (list SymbolicExpression) := try_map transform_expr.
End expander.

(** [SugarExpander::run]; the expressions before expansion are drained. *)
Definition expander_run (contract_ast : ContractAST) : outcome ParseErrors ContractAST :=
  let? drained := pre_expressions_drain (pre_expressions contract_ast) (top_level_expression_sorting contract_ast) in
  let? expressions := transform (issuer (ast_contract_identifier contract_ast)) (referenced_traits contract_ast) drained in
  Ok (mkAST (ast_contract_identifier contract_ast) [] expressions (top_level_expression_sorting contract_ast)
        (referenced_traits contract_ast) (ast_implemented_traits contract_ast)).

(** * All passes (ast/mod.rs) *)
Definition build_ast {D : Digests} {T : Type} `{CostTracker T} (contract_identifier : QualifiedContractIdentifier)
    (source_code : string) (cost_track : T) : outcome (T * ParseErrors) (T * ContractAST) :=
  let? cost_track := map_err (fun '(t, e) => (t, ParseErrors_from_cost e))
    (runtime_cost CostFunction.AstParse cost_track (str_len source_code)) in
  let fails {A : Type} : outcome ParseErrors A -> outcome (T * ParseErrors) A := map_err (pair cost_track) in
  let? pre := fails (parse source_code) in
  let? _ := fails (check pre 0) in
  let? pre := fails (update_pre_expression_id pre) in
  let? '(cost_track, contract_ast) := sorter_run (ContractAST_new contract_identifier pre) cost_track in
  let fails {A : Type} : outcome ParseErrors A -> outcome (T * ParseErrors) A := map_err (pair cost_track) in
  let? contract_ast := fails (resolver_run contract_ast) in
  let? contract_ast := fails (expander_run contract_ast) in
  let? _ := fails (update_expression_id (expressions contract_ast)) in
  Ok (cost_track, contract_ast).
End passes.
