(* ===== verification/DefinitionOrder.v ===== *)
(** DefinitionOrder: the sorting of the definitions of a contract is a
    topological sort.  It succeeds if and only if the dependencies have no cycle,
    and then lists every definition once, after those it depends on. *)
From Stdlib Require Import ZArith Lia Strings.Byte Strings.String List Bool Arith Permutation.
From stdpp Require Import base decidable list strings option gmap relations sets fin_sets.
From S2P Require Import Prelude Bytes Representations Types Values Hashes AssetMap Costs Contexts Callables Regex Lexer Parser.
From S2P Require Import Interpreter Define Ast.
Open Scope nat_scope.

(** [i] depends on [j]. *)
Definition depends (graph : Graph) (i j : nat) : Prop := exists l, graph !! i = Some l /\ j ∈ l.
(** All dependencies are nodes. *)
Definition closed (graph : Graph) : Prop := forall i j, depends graph i j -> j < length graph.
Definition acyclic (graph : Graph) : Prop := forall i, ~ tc (depends graph) i i.
(** [j] comes before [i] in the order. *)
Definition before (order : list nat) (j i : nat) : Prop := exists l1 l2, order = l1 ++ i :: l2 /\ j ∈ l1.

Section search.
Context (graph : Graph) (Hclosed : closed graph).
Notation n := (length graph).
Notation visit fuel i st := (sort_dependencies_recursion fuel i graph st).

(** The nodes seen are those that are finished, listed in [branch], and those
    that are being visited.  A dependency of a finished node was finished before
    it, or leads back to it. *)
Record searched (open : gset nat) (st : gset nat * list nat) : Prop := {
  seen_split : st.1 = open ∪ list_to_set st.2;
  open_unfinished : open ## list_to_set st.2;
  finished_once : NoDup st.2;
  nodes_only : forall i, i ∈ st.1 -> i < n;
  finished_after : forall l1 i l2 j, st.2 = l1 ++ i :: l2 -> depends graph i j -> j ∈ l1 \/ rtc (depends graph) j i
}.

(** Each step only adds to the order. *)
Definition extends (st st' : gset nat * list nat) : Prop := exists l, st'.2 = st.2 ++ l.

Definition unseen (seen : gset nat) : nat := size (list_to_set (seq 0 n) ∖ seen).

Lemma extends_refl st : extends st st.
Proof. exists []. by rewrite app_nil_r. Qed.
Lemma extends_trans st1 st2 st3 : extends st1 st2 -> extends st2 st3 -> extends st1 st3.
Proof. intros [l1 H1] [l2 H2]. exists (l1 ++ l2). by rewrite H2, H1, app_assoc. Qed.

Lemma unseen_mono seen seen' : seen ⊆ seen' -> unseen seen' <= unseen seen.
Proof. intros H. unfold unseen. apply subseteq_size. set_solver. Qed.
Lemma unseen_step i seen : i < n -> i ∉ seen -> S (unseen ({[i]} ∪ seen)) <= unseen seen.
Proof.
  intros Hi Hs. unfold unseen.
  replace (list_to_set (seq 0 n) ∖ ({[i]} ∪ seen)) with ((list_to_set (seq 0 n) ∖ seen) ∖ {[i]} : gset nat) by set_solver.
  assert (i ∈ (list_to_set (seq 0 n) ∖ seen : gset nat)) as Hin.
  { apply elem_of_difference. split; [|done]. apply elem_of_list_to_set, elem_of_seq. lia. }
  rewrite size_difference by set_solver. rewrite size_singleton.
  pose proof (subseteq_size {[i]} (list_to_set (seq 0 n) ∖ seen : gset nat)) as H. rewrite size_singleton in H.
  assert (1 <= size (list_to_set (seq 0 n) ∖ seen : gset nat)) by (apply H; set_solver). lia.
Qed.

(** A visit from a node that every open node leads to. *)
Definition visits (fuel : nat) : Prop := forall i open st,
  i < n -> searched open st -> (forall k, k ∈ open -> rtc (depends graph) k i) -> unseen st.1 < fuel ->
  exists st', visit fuel i st = Ok st' /\ searched open st' /\ extends st st' /\ i ∈ st'.1 /\ st.1 ⊆ st'.1.

Lemma visits_all fuel l i open st :
  visits fuel -> Forall (fun j => j < n /\ depends graph i j) l -> searched open st -> i ∈ open ->
  (forall k, k ∈ open -> rtc (depends graph) k i) -> unseen st.1 < fuel ->
  exists st', try_fold (fun st j => visit fuel j st) st l = Ok st' /\ searched open st' /\ extends st st' /\
    (forall j, j ∈ l -> j ∈ st'.1) /\ st.1 ⊆ st'.1.
Proof.
  intros Hv Hl. revert st. induction Hl as [|j l [Hj Hd] Hl IH]; intros st Hst Hi Hopen Hfuel.
  { exists st. repeat split; [apply Hst|apply Hst|apply Hst|apply Hst|apply Hst|apply extends_refl|set_solver|done]. }
  destruct (Hv j open st Hj Hst) as (st1 & Hrun & Hst1 & He1 & Hj1 & Hsub1); [|done|].
  { intros k Hk. eapply rtc_r; [by apply Hopen|done]. }
  destruct (IH st1 Hst1 Hi Hopen) as (st2 & Hrun2 & Hst2 & He2 & Hl2 & Hsub2).
  { pose proof (unseen_mono _ _ Hsub1). lia. }
  exists st2. cbn [try_fold]. rewrite Hrun. cbn [out_bind]. split; [done|]. split; [done|]. split; [by eapply extends_trans|].
  split; [|set_solver]. intros k Hk. apply elem_of_cons in Hk as [->|Hk]; [set_solver|auto].
Qed.

Lemma searched_open i open seen branch :
  searched open (seen, branch) -> i < n -> i ∉ seen -> searched ({[i]} ∪ open) ({[i]} ∪ seen, branch).
Proof.
  intros [Hsplit Hopen Hdup Hnodes Hafter] Hi Hs. simpl in *. split; simpl; [set_solver|set_solver|done| |done].
  intros k Hk. apply elem_of_union in Hk as [->%elem_of_singleton|Hk]; auto.
Qed.

Lemma searched_finish i open st :
  searched ({[i]} ∪ open) st -> i ∉ open -> (forall k, k ∈ open -> rtc (depends graph) k i) ->
  (forall j, depends graph i j -> j ∈ st.1) -> searched open (st.1, st.2 ++ [i]).
Proof.
  intros [Hsplit Hopen Hdup Hnodes Hafter] Hi Hlead Hdeps. destruct st as [seen branch]. simpl in *. split; simpl.
  - rewrite Hsplit, list_to_set_app_L. simpl. set_solver.
  - rewrite list_to_set_app_L. simpl. set_solver.
  - apply NoDup_app. split; [done|]. split; [set_solver|apply NoDup_singleton].
  - done.
  - intros l1 k l2 j Heq Hd. destruct l2 as [|x l2 _] using rev_ind.
    + apply app_inj_tail in Heq as [-> ->]. pose proof (Hdeps j Hd) as Hj. rewrite Hsplit in Hj.
      apply elem_of_union in Hj as [Hj|Hj]; [right|left; set_solver].
      apply elem_of_union in Hj as [->%elem_of_singleton|Hj]; [done|auto].
    + rewrite app_comm_cons, app_assoc in Heq. apply app_inj_tail in Heq as [-> _]. by eapply Hafter.
Qed.

Lemma visits_fuel fuel : visits fuel.
Proof.
  induction fuel as [|fuel IH]; intros i open [seen branch] Hi Hst Hopen Hfuel; [lia|]. simpl in Hfuel. cbn [sort_dependencies_recursion].
  destruct (decide (i ∈ seen)) as [Hin|Hout].
  { exists (seen, branch). split; [done|]. split; [done|]. split; [apply extends_refl|done]. }
  destruct (lookup_lt_is_Some_2 graph i Hi) as [l Hl].
  rewrite Hl.
  pose proof (unseen_step i seen Hi Hout) as Hstep.
  destruct (visits_all fuel l i ({[i]} ∪ open) ({[i]} ∪ seen, branch) IH) as (st & Hrun & Hst' & Hext & Hseen & Hsub).
  - apply Forall_forall. intros j Hj. assert (depends graph i j) as Hd by by exists l. split; [by eapply Hclosed|done].
  - by apply searched_open.
  - set_solver.
  - intros k Hk. apply elem_of_union in Hk as [->%elem_of_singleton|Hk]; [done|auto].
  - simpl. lia.
  - rewrite Hrun. destruct st as [seen' branch']. cbn [out_bind]. exists (seen', branch' ++ [i]). split; [done|].
    assert (i ∉ open) as Hio by (destruct Hst as [Hs _ _ _ _]; simpl in Hs; set_solver).
    split; [|split; [|split]].
    + apply (searched_finish i open (seen', branch')); [done|done|done|]. intros j (l' & Hl' & Hj). simpl. apply Hseen. by simplify_eq.
    + destruct Hext as [l' Hl']. simpl in *. exists (l' ++ [i]). simpl. by rewrite Hl', app_assoc.
    + simpl in *. set_solver.
    + simpl in *. set_solver.
Qed.

(** The search visits every node. *)
Lemma search_all l st :
  Forall (fun i => i < n) l -> searched ∅ st ->
  exists st', try_fold (fun st i => visit (S n) i st) st l = Ok st' /\ searched ∅ st' /\ (forall i, i ∈ l \/ i ∈ st.1 -> i ∈ st'.1).
Proof.
  intros Hl. revert st. induction Hl as [|i l Hi Hl IH]; intros st Hst; [exists st; split; [done|]; split; [done|set_solver]|].
  destruct (visits_fuel (S n) i ∅ st Hi Hst) as (st1 & Hrun & Hst1 & _ & Hi1 & Hsub); [set_solver| |].
  { unfold unseen. assert (size (list_to_set (seq 0 n) ∖ st.1 : gset nat) <= size (list_to_set (seq 0 n) : gset nat)) as H
      by (apply subseteq_size; set_solver).
    rewrite size_list_to_set in H by apply NoDup_seq. rewrite length_seq in H. lia. }
  destruct (IH st1 Hst1) as (st2 & Hrun2 & Hst2 & Hall). exists st2. cbn [try_fold]. rewrite Hrun. cbn [out_bind].
  split; [done|]. split; [done|]. intros k [Hk|Hk]; [apply elem_of_cons in Hk as [->|Hk]|]; apply Hall; set_solver.
Qed.

Lemma sorted_dependencies : exists order,
  get_sorted_dependencies graph = Ok order /\ order ≡ₚ seq 0 n /\
  forall l1 i l2 j, order = l1 ++ i :: l2 -> depends graph i j -> j ∈ l1 \/ rtc (depends graph) j i.
Proof.
  destruct (search_all (seq 0 n) (∅, [])) as ([seen order] & Hrun & [Hsplit _ Hdup Hnodes Hafter] & Hall).
  - apply Forall_forall. intros i Hi%elem_of_seq. lia.
  - split; simpl; [set_solver|set_solver|constructor|set_solver|]. intros l1 i l2 j H. by destruct l1.
  - exists order. unfold get_sorted_dependencies, nodes_count. rewrite Hrun. cbn [out_bind]. simpl in Hsplit, Hnodes, Hafter, Hdup, Hall. split; [done|]. split; [|done].
    apply NoDup_Permutation; [done|apply NoDup_seq|]. intros i. rewrite elem_of_seq. split.
    + intros Hi. pose proof (Hnodes i) as H. rewrite Hsplit in H. specialize (H ltac:(set_solver)). lia.
    + intros Hi. specialize (Hall i). rewrite elem_of_seq in Hall. rewrite Hsplit in Hall. specialize (Hall ltac:(lia)). set_solver.
Qed.
End search.

(** ** Cycles *)
Section cycles.
Context (graph : Graph) (Hclosed : closed graph).
Notation n := (length graph).

Lemma sn_acyclic i : sn (depends graph) i -> ~ tc (depends graph) i i.
Proof.
  induction 1 as [i _ IH]. intros Hi. inversion Hi as [? ? Hd|? j ? Hd Hj]; subst; [by apply (IH i)|].
  apply (IH j Hd). by eapply tc_r.
Qed.

Definition leaf (i : nat) : Prop := graph !! i = Some [].
(** Tainted nodes are nodes and are not on a cycle. *)
Definition sound_taint (tainted : gset nat) : Prop := forall i, i ∈ tainted -> i < n /\ sn (depends graph) i.

Lemma leaf_sn i : leaf i -> sn (depends graph) i.
Proof. intros Hi. constructor. intros j (l & Hl & Hj). unfold leaf in Hi. simplify_eq. set_solver. Qed.

Lemma taint_loop l tainted count :
  Forall (fun j => j < n) l -> sound_taint tainted ->
  exists tainted' c,
    try_fold (fun '(tainted, count) descendant =>
      let? has_descendants := has_node_descendants graph descendant in
      if negb has_descendants || bool_decide (descendant ∈ tainted) then Ok ({[descendant]} ∪ tainted, S count)
      else Ok (tainted, count)) (tainted, count) l = Ok (tainted', c + count) /\
    c <= length l /\ tainted ⊆ tainted' /\ sound_taint tainted' /\
    (c = length l -> forall j, j ∈ l -> j ∈ tainted') /\
    ((forall j, j ∈ l -> j ∈ tainted \/ leaf j) -> c = length l).
Proof.
  intros Hl. revert tainted count. induction Hl as [|j l Hj Hl IH]; intros tainted count Ht.
  { exists tainted, 0. split; [done|]. split; [done|]. split; [done|]. split; [done|]. split; [set_solver|done]. }
  cbn [try_fold]. destruct (lookup_lt_is_Some_2 graph j Hj) as [d Hd].
  unfold has_node_descendants at 1. rewrite Hd. cbn [expect_some out_bind].
  set (b := negb _ || _). destruct b eqn:Hb; subst b; cbn [out_bind].
  - assert (sn (depends graph) j) as Hsn.
    { apply orb_true_iff in Hb as [Hb|Hb]; [apply leaf_sn; unfold leaf; by destruct d|]. bool_to_prop. by apply Ht. }
    destruct (IH ({[j]} ∪ tainted) (S count)) as (tainted' & c & Hrun & Hc & Hsub & Ht' & Hall & Hfull).
    { intros i Hi. apply elem_of_union in Hi as [->%elem_of_singleton|Hi]; auto. }
    exists tainted', (S c). rewrite Hrun, Nat.add_succ_r. split; [done|]. split; [simpl; lia|]. split; [set_solver|]. split; [done|]. split.
    + intros [= Hc'] k Hk. apply elem_of_cons in Hk as [->|Hk]; [set_solver|auto].
    + intros H. simpl. f_equal. apply Hfull. intros k Hk. destruct (H k); [set_solver|left; set_solver|by right].
  - destruct (IH tainted count Ht) as (tainted' & c & Hrun & Hc & Hsub & Ht' & Hall & Hfull).
    exists tainted', c. split; [done|]. split; [simpl; lia|]. split; [done|]. split; [done|]. split.
    + simpl. lia.
    + intros H. exfalso. apply orb_false_iff in Hb as [Hb1 Hb2]. bool_to_prop.
      destruct (H j) as [Hj'|Hj']; [set_solver|done|]. unfold leaf in Hj'. simplify_eq.
Qed.

Lemma taint_node_ok i tainted :
  i < n -> sound_taint tainted ->
  exists tainted', taint_node graph tainted i = Ok tainted' /\ tainted ⊆ tainted' /\ sound_taint tainted' /\
    ((forall j, depends graph i j -> j ∈ tainted \/ leaf j) -> i ∈ tainted').
Proof.
  intros Hi Ht. unfold taint_node, get_node_descendants. destruct (lookup_lt_is_Some_2 graph i Hi) as [l Hl].
  rewrite Hl. cbn [expect_some out_bind].
  destruct (taint_loop l tainted 0) as (tainted' & c & Hrun & Hc & Hsub & Ht' & Hall & Hfull); [|done|].
  { apply Forall_forall. intros j Hj. apply (Hclosed i). by exists l. }
  rewrite Hrun, Nat.add_0_r. cbn [out_bind]. eexists. split; [done|]. destruct (Nat.eqb_spec c (length l)) as [Hcl|Hcl].
  - split; [set_solver|]. split; [|set_solver]. intros k Hk. apply elem_of_union in Hk as [->%elem_of_singleton|Hk]; [|auto].
    split; [done|]. constructor. intros j (l' & Hl' & Hj). simplify_eq. by apply Ht', Hall.
  - split; [done|]. split; [done|]. intros H. destruct Hcl. apply Hfull. intros j Hj. apply H. by exists l.
Qed.

Lemma taint_all order tainted :
  Forall (fun i => i < n) order -> sound_taint tainted ->
  exists tainted', try_fold (taint_node graph) tainted order = Ok tainted' /\ tainted ⊆ tainted' /\ sound_taint tainted' /\
    ((forall l1 i l2 j, order = l1 ++ i :: l2 -> depends graph i j -> j ∈ l1 \/ j ∈ tainted) -> forall i, i ∈ order -> i ∈ tainted').
Proof.
  intros Ho. revert tainted. induction Ho as [|i order Hi Ho IH]; intros tainted Ht.
  { exists tainted. split; [done|]. split; [done|]. split; [done|]. set_solver. }
  destruct (taint_node_ok i tainted Hi Ht) as (t1 & Hrun1 & Hsub1 & Ht1 & Hi1).
  destruct (IH t1 Ht1) as (t2 & Hrun2 & Hsub2 & Ht2 & Hall). exists t2. cbn [try_fold]. rewrite Hrun1. cbn [out_bind].
  split; [done|]. split; [set_solver|]. split; [done|]. intros Hdeps.
  assert (i ∈ t1) as Hit. { apply Hi1. intros j Hj. left. destruct (Hdeps [] i order j) as [H|H]; [done|done|set_solver|done]. }
  intros k Hk. apply elem_of_cons in Hk as [->|Hk]; [set_solver|]. apply Hall; [|done].
  intros l1 m l2 j Heq Hd. destruct (Hdeps (i :: l1) m l2 j) as [Hj|Hj]; [by rewrite Heq|done| |right; set_solver].
  apply elem_of_cons in Hj as [->|Hj]; [by right|by left].
Qed.

(** The check finds no cycle if and only if there is none. *)
Lemma cycle_check {Order : HashOrder} order :
  order ≡ₚ seq 0 n -> 
  (acyclic graph -> forall l1 i l2 j, order = l1 ++ i :: l2 -> depends graph i j -> j ∈ l1) ->
  exists r, get_cycling_dependencies graph order = Ok r /\ (r = None <-> acyclic graph).
Proof.
  intros Hperm Hafter. unfold get_cycling_dependencies.
  destruct (taint_all order ∅) as (t & Hrun & _ & Ht & Hall); [|intros i Hi; set_solver|].
  { apply Forall_forall. intros i Hi. rewrite Hperm, elem_of_seq in Hi. lia. }
  assert (NoDup order) as Hdup by (rewrite Hperm; apply NoDup_seq).
  assert (t ⊆ list_to_set order) as Hsub.
  { intros i Hi. apply elem_of_list_to_set. rewrite Hperm, elem_of_seq. destruct (Ht i Hi). lia. }
  rewrite Hrun. cbn [out_bind].
  assert (size t = length order <-> acyclic graph) as Hiff.
  { rewrite <-(size_list_to_set (C:=gset nat) order Hdup). split.
    - intros Hsize. assert (t = list_to_set order) as Heq by (apply set_eq; intros i; apply set_subseteq_size_equiv; [done|lia]).
      intros i Hi. assert (i < n) as Hin. { inversion Hi as [? ? (l & Hl & _)|? ? ? (l & Hl & _)]; subst; by eapply lookup_lt_Some. }
      assert (i ∈ t) as Hit by (rewrite Heq; apply elem_of_list_to_set; rewrite Hperm, elem_of_seq; lia).
      revert Hi. apply sn_acyclic. by apply Ht.
    - intros Hac. f_equal. apply set_eq. intros i. split; [apply Hsub|]. intros Hi%elem_of_list_to_set.
      apply Hall; [|done]. intros l1 k l2 j Heq Hd. left. by eapply Hafter. }
  destruct (Nat.eqb_spec (size t) (length order)); eexists; (split; [done|]); naive_solver.
Qed.
End cycles.

(** Sorting: the order, or the cycles, of the dependencies. *)
Lemma sorting_exact {Order : HashOrder} (graph : Graph) : closed graph -> exists order r,
  get_sorted_dependencies graph = Ok order /\ get_cycling_dependencies graph order = Ok r /\
  (r = None <-> acyclic graph) /\ order ≡ₚ seq 0 (length graph) /\
  (acyclic graph -> forall i j, depends graph i j -> before order j i).
Proof.
  intros Hclosed. destruct (sorted_dependencies graph Hclosed) as (order & Hsort & Hperm & Hafter).
  assert (acyclic graph -> forall l1 i l2 j, order = l1 ++ i :: l2 -> depends graph i j -> j ∈ l1) as Hfirst.
  { intros Hac l1 i l2 j Heq Hd. destruct (Hafter l1 i l2 j Heq Hd) as [Hj|Hj]; [done|].
    destruct (Hac i). eapply tc_rtc_r; [by apply tc_once|done]. }
  destruct (cycle_check graph Hclosed order Hperm Hfirst) as (r & Hr & Hiff).
  exists order, r. split; [done|]. split; [done|]. split; [done|]. split; [done|].
  intros Hac i j Hd. assert (i ∈ order) as Hi.
  { rewrite Hperm, elem_of_seq. destruct Hd as (l & Hl & _). apply lookup_lt_Some in Hl. lia. }
  apply list_elem_of_split in Hi as (l1 & l2 & ->). exists l1, l2. split; [done|]. by eapply Hfirst.
Qed.

(** ** The graph of a program is closed *)
Fixpoint pre_size (e : PreSymbolicExpression) : nat :=
  match Pre.pre_expr e with
  | Pre.List l | Pre.Tuple l => S (list_sum (map pre_size l))
  | _ => 1
  end.

Section probes.
Context (m : gmap string TopLevelExpressionIndex) (n : nat).
Hypothesis bounded : forall name dep, m !! name = Some dep -> expr_index dep < n.
Notation probe := (probe_for_dependencies m).
Notation ok l := (Forall (fun j => j < n) l).

Lemma dependency_bounded name id : ok (dependency m name id).
Proof. unfold dependency. destruct (m !! name) as [dep|] eqn:Hdep; [|constructor]. case_match; repeat constructor. by eapply bounded. Qed.

(** The probes of lists of expressions, where those of their parts are bounded. *)
Lemma probe_all_bounded l : (forall e, pre_size e <= list_sum (map pre_size l) -> ok (probe e)) ->
  ok ((fix go l := match l with [] => [] | e :: l => probe e ++ go l end) l).
Proof.
  induction l as [|e l IH]; intros H; [constructor|]. simpl in H. apply Forall_app. split; [apply H; lia|].
  apply IH. intros e' He'. apply H. lia.
Qed.
Lemma probe_pairs_bounded l : (forall e, pre_size e <= list_sum (map pre_size l) -> ok (probe e)) ->
  ok ((fix go l := match l with
       | [] => []
       | Pre.mkPre (Pre.List [_; value]) _ _ :: l => probe value ++ go l
       | _ :: l => go l
       end) l).
Proof.
  induction l as [|e l IH]; intros H; [constructor|].
  assert (ok ((fix go l := match l with
       | [] => []
       | Pre.mkPre (Pre.List [_; value]) _ _ :: l => probe value ++ go l
       | _ :: l => go l
       end) l)) as Hl by (apply IH; intros e' He'; apply H; simpl; lia).
  destruct e as [[| |[|x [|value [|]]]| | | | |] ? ?]; try exact Hl.
  apply Forall_app. split; [apply H; simpl; lia|exact Hl].
Qed.
Lemma probe_signatures_bounded l : (forall e, pre_size e <= list_sum (map pre_size l) -> ok (probe e)) ->
  ok ((fix go l := match l with
       | [] => []
       | Pre.mkPre (Pre.List [_; args; ret]) _ _ :: l => probe args ++ probe ret ++ go l
       | _ :: l => go l
       end) l).
Proof.
  induction l as [|e l IH]; intros H; [constructor|].
  assert (ok ((fix go l := match l with
       | [] => []
       | Pre.mkPre (Pre.List [_; args; ret]) _ _ :: l => probe args ++ probe ret ++ go l
       | _ :: l => go l
       end) l)) as Hl by (apply IH; intros e' He'; apply H; simpl; lia).
  destruct e as [[| |[|x [|args [|ret [|]]]]| | | | |] ? ?]; try exact Hl.
  apply Forall_app. split; [apply H; simpl; lia|]. apply Forall_app. split; [apply H; simpl; lia|exact Hl].
Qed.
Lemma probe_values_bounded len l : length l <= len -> (forall e, pre_size e <= list_sum (map pre_size l) -> ok (probe e)) ->
  ok ((fix go l := match l with _ :: value :: l => probe value ++ go l | _ => [] end) l).
Proof.
  revert l. induction len as [|len IH]; intros [|x [|v l]] Hlen H; try constructor; [simpl in Hlen; lia|].
  apply Forall_app. split; [apply H; simpl; lia|]. apply IH; [simpl in Hlen; lia|]. intros e' He'. apply H. simpl. lia.
Qed.

Lemma probe_bounded e : ok (probe e).
Proof.
  induction e as [e IH] using (induction_ltof1 _ pre_size). unfold ltof in IH.
  destruct e as [[v|name|l|l|name|c name|t|name] i s]; try constructor; try apply dependency_bounded.
  2: { apply (probe_values_bounded (length l)); [done|]. intros e' He'. apply IH. simpl. lia. }
  assert (ok ((fix go l := match l with [] => [] | e :: l => probe e ++ go l end) l)) as Hall.
  { apply probe_all_bounded. intros e' He'. apply IH. simpl. lia. }
  cbn [probe_for_dependencies]. destruct l as [|f args]; [exact Hall|].
  destruct f as [[| fname | | | | | |] fi fs]; try exact Hall.
  repeat case_match; subst; try exact Hall; try constructor;
    repeat (apply Forall_app; split);
    first [ apply probe_all_bounded | apply probe_pairs_bounded | apply probe_signatures_bounded | idtac ];
    intros; apply IH; simpl in *; lia.
Qed.
End probes.

Lemma top_level_bounded exprs name dep : top_level_map exprs !! name = Some dep -> expr_index dep < length exprs.
Proof.
  unfold top_level_map.
  set (f := fun m '(expr_index, expr) => match find_expression_definition expr with
    | Some (definition_name, atom_index) => <[definition_name := mkTopLevel expr_index atom_index]> m | None => m end).
  assert (forall l m, (forall i e, (i, e) ∈ l -> i < length exprs) ->
    (forall name dep, m !! name = Some dep -> expr_index dep < length exprs) ->
    forall name dep, fold_left f l m !! name = Some dep -> expr_index dep < length exprs) as H.
  { induction l as [|[i e] l IH]; intros m Hl Hm; [exact Hm|]. cbn [fold_left]. apply IH.
    - intros j e' Hj. apply (Hl j e'). set_solver.
    - intros x d. unfold f. destruct (find_expression_definition e) as [[y a]|]; [|apply Hm].
      intros [[<- <-]|[_ Hd]]%lookup_insert_Some; [|by eapply Hm]. apply (Hl i e). set_solver. }
  apply (H _ ∅); [|by intros ? ? []%lookup_empty_Some]. intros i e Hi%elem_of_zip_l%elem_of_seq. lia.
Qed.

Lemma dependency_graph_closed exprs : closed (dependency_graph exprs).
Proof.
  intros i j (l & Hl & Hj). unfold dependency_graph in *. rewrite length_map.
  change (map ?f ?l) with (f <$> l) in Hl. apply list_lookup_fmap_Some in Hl as (e & -> & _).
  pose proof (probe_bounded (top_level_map exprs) (length exprs) (top_level_bounded exprs) e) as H.
  rewrite Forall_forall in H. by apply H.
Qed.

(** ** The order of execution *)
Lemma drain_sorted_order (pre : gmap nat PreSymbolicExpression) (order : list nat) :
  NoDup order -> (forall i, i ∈ order -> is_Some (pre !! i)) ->
  exists l, drain_sorted (length order) pre order = Ok l /\ Forall2 (fun i e => pre !! i = Some e) order l.
Proof.
  intros Hdup. revert pre. induction Hdup as [|i order Hi _ IH]; intros pre Hpre; [exists []; split; [done|constructor]|].
  destruct (Hpre i) as [e He]; [set_solver|]. cbn [length drain_sorted]. rewrite He.
  destruct (IH (delete i pre)) as (l & -> & Hl).
  { intros j Hj. rewrite lookup_delete_ne by (intros ->; set_solver). apply Hpre. set_solver. }
  exists (e :: l). split; [done|]. constructor; [done|]. eapply Forall2_impl; [exact Hl|]. intros j e' H. simpl in H.
  by apply lookup_delete_Some in H as [_ H].
Qed.

Lemma lookup_all {A : Type} (l : list A) : Forall2 (fun i e => l !! i = Some e) (seq 0 (length l)) l.
Proof.
  apply Forall2_same_length_lookup_2; [by rewrite length_seq|]. intros k i e Hi He. apply lookup_seq in Hi as [-> _]. done.
Qed.

Lemma lookups_unique {A : Type} (l : list A) ix l1 l2 :
  Forall2 (fun i e => l !! i = Some e) ix l1 -> Forall2 (fun i e => l !! i = Some e) ix l2 -> l1 = l2.
Proof. intros H. revert l2. induction H as [|i e ix l1 He _ IH]; intros l2 H2; inversion H2; subst; [done|]. f_equal; [congruence|auto]. Qed.

Lemma try_map_total {E A B : Type} (f : A -> outcome E B) (l : list A) :
  (forall x, x ∈ l -> exists y, f x = Ok y) -> exists l', try_map f l = Ok l'.
Proof.
  induction l as [|x l IH]; intros H; [by exists []|]. destruct (H x) as [y Hy]; [set_solver|].
  destruct IH as [l' Hl']; [intros z Hz; apply H; set_solver|]. exists (y :: l'). simpl. by rewrite Hy, Hl'.
Qed.

(** The expressions are executed in the order of the sorting, each once. *)
Lemma drain_permutes (pre : list PreSymbolicExpression) (order : list nat) : order ≡ₚ seq 0 (length pre) ->
  exists l, pre_expressions_drain pre (Some order) = Ok l /\ Forall2 (fun i e => pre !! i = Some e) order l /\ l ≡ₚ pre.
Proof.
  intros Hperm. assert (length order = length pre) as Hlen by (by rewrite Hperm, length_seq).
  assert (NoDup order) as Hdup by (rewrite Hperm; apply NoDup_seq).
  destruct (drain_sorted_order (map_seq 0 pre) order Hdup) as (l & Hrun & Hl).
  { intros i Hi. rewrite Hperm, elem_of_seq in Hi. rewrite lookup_map_seq_0. apply lookup_lt_is_Some_2. lia. }
  assert (Forall2 (fun i e => pre !! i = Some e) order l) as Hl'.
  { eapply Forall2_impl; [exact Hl|]. intros i e H. simpl in H. by rewrite lookup_map_seq_0 in H. }
  exists l. split; [|split; [done|]].
  - unfold pre_expressions_drain. destruct order as [|i order]; [|by rewrite <-Hlen].
    inversion Hl; subst. destruct pre; [done|simpl in Hlen; lia].
  - destruct (Permutation_Forall2 Hperm Hl') as (l2 & -> & Hl2). rewrite (lookups_unique _ _ _ _ Hl2 (lookup_all pre)). done.
Qed.

(** The definitions reported as cyclic are among those sorted. *)
Lemma cycling_among {Order : HashOrder} graph order deps :
  get_cycling_dependencies graph order = Ok (Some deps) -> forall i, i ∈ deps -> i ∈ order.
Proof.
  unfold get_cycling_dependencies. intros H. apply out_bind_Ok in H as (t & _ & H). case_match; [done|]. injection H as <-.
  intros i Hi. change (map fst ?l) with (fst <$> l) in Hi. rewrite drain_perm in Hi.
  apply list_elem_of_fmap in Hi as ([k []] & -> & Hi). apply elem_of_map_to_list, lookup_gset_to_gmap_Some in Hi as [Hi _].
  apply elem_of_difference in Hi as [Hi _]. by apply elem_of_list_to_set in Hi.
Qed.

(** C24: the sorting of definitions is a topological sort.  If the definitions of
    a contract depend on each other in a cycle, the contract is refused with a
    circular reference.  Otherwise every top-level expression is executed exactly
    once, after all the definitions it refers to. *)
Theorem definitions_sorted {Order : HashOrder} {T : Type} `{CostTracker T} (contract_ast : ContractAST) (accounting accounting' : T) (edges : Z) :
  let exprs := pre_expressions contract_ast in
  let graph := dependency_graph exprs in
  edges_count graph = Ok edges -> runtime_cost CostFunction.AstCycleDetection accounting edges = Ok accounting' ->
  (acyclic graph /\ exists order sorted_ast drained,
     sorter_run contract_ast accounting = Ok (accounting', sorted_ast) /\
     pre_expressions_drain (pre_expressions sorted_ast) (top_level_expression_sorting sorted_ast) = Ok drained /\
     Forall2 (fun i e => exprs !! i = Some e) order drained /\ drained ≡ₚ exprs /\
     (forall i j, depends graph i j -> before order j i)) \/
  (~ acyclic graph /\ exists names, sorter_run contract_ast accounting = Err (accounting', ParseErr.CircularReference names)).
Proof.
  intros exprs graph Hedges Hcost. destruct (sorting_exact graph (dependency_graph_closed exprs)) as (order & r & Hsort & Hcyc & Hiff & Hperm & Hbefore).
  assert (length graph = length exprs) as Hlen by apply length_map. rewrite Hlen in Hperm.
  unfold sorter_run. fold exprs. fold graph. rewrite Hedges. cbn [map_err out_bind]. rewrite Hcost. cbn [map_err out_bind].
  rewrite Hsort. cbn [map_err out_bind]. rewrite Hcyc. cbn [map_err out_bind]. destruct r as [deps|].
  - right. split; [intros Hac; by apply Hiff in Hac|].
    destruct (try_map_total (E:=ParseErrors) (fun i => let? exp := expect_some (exprs !! i) in Ok (find_expression_definition exp)) deps) as [l Hl].
    { intros i Hi. apply (cycling_among _ _ _ Hcyc) in Hi. rewrite Hperm, elem_of_seq in Hi.
      destruct (lookup_lt_is_Some_2 exprs i) as [e ->]; [lia|]. by eexists. }
    rewrite Hl. by eexists.
  - left. assert (acyclic graph) as Hac by by apply Hiff. split; [done|].
    destruct (drain_permutes exprs order Hperm) as (l & Hrun & Hl & Hp). eexists order, _, l. split; [reflexivity|]. naive_solver.
Qed.

(** [(define-constant a b) (define-constant b 1)] *)
Definition two_constants : list PreSymbolicExpression :=
  let e t id := Pre.mkPre t id Span_zero in
  [e (Pre.List [e (Pre.Atom "define-constant") 2%Z; e (Pre.Atom "a") 3%Z; e (Pre.Atom "b") 4%Z]) 1%Z;
   e (Pre.List [e (Pre.Atom "define-constant") 6%Z; e (Pre.Atom "b") 7%Z; e (Pre.AtomValue (VInt 1)) 8%Z]) 5%Z].

Lemma definitions_sorted_witness :
  let ast := ContractAST_new (mkContractId (mkStandard x16 (repeat x07 20)) "c") two_constants in
  let graph := dependency_graph two_constants in
  (acyclic graph /\ exists order sorted_ast drained,
     sorter_run (Order:=listed_order) (T:=unit) ast tt = Ok (tt, sorted_ast) /\
     pre_expressions_drain (pre_expressions sorted_ast) (top_level_expression_sorting sorted_ast) = Ok drained /\
     Forall2 (fun i e => two_constants !! i = Some e) order drained /\ drained ≡ₚ two_constants /\
     (forall i j, depends graph i j -> before order j i)) \/
  (~ acyclic graph /\ exists names, sorter_run (Order:=listed_order) (T:=unit) ast tt = Err (tt, ParseErr.CircularReference names)).
Proof.
  apply (definitions_sorted (Order:=listed_order) (T:=unit) (ContractAST_new (mkContractId (mkStandard x16 (repeat x07 20)) "c") two_constants) tt tt 1%Z);
    vm_compute; reflexivity.
Defined.
