(* ===== verification/StateLayout.v ===== *)
(** StateLayout: how the state of contracts is laid out in the key-value store.

    A [slot] is a place of the contract state: a token's supply, a holder's
    balance, the owner of an asset, an account, a variable, an entry of a data
    map.  [slot_key] is the key the database uses for it; different slots have
    different keys.  [represents] relates a store to a typed state, a partial
    map from slots to cells, and the lemmas below say what the functions of
    ClarityState.v read and write in terms of it. *)
From Stdlib Require Import ZArith Lia Strings.Byte Strings.String Strings.Ascii List Bool.
From stdpp Require Import base decidable list strings option gmap pretty.
From S2P Require Import Prelude Bytes Codec Representations BTree Types Signatures Admission Values.
From S2P Require Import Serialization RoundTrip Deserialization Hashes C32 Principals BackingStore RollbackWrapper.
From S2P Require Import RollbackRefinement ClarityDb ClarityState StxBalance.
Open Scope Z_scope.

(** * Texts without separators *)
Definition no_colon (s : string) : bool := all_chars (fun x => negb (Ascii.eqb x ":"%char)) s.

Lemma colon_split (a b x y : string) :
  no_colon a = true -> no_colon b = true -> (a ++ "::" ++ x = b ++ "::" ++ y)%string -> a = b /\ x = y.
Proof.
  unfold no_colon. revert b. induction a as [|c a IH]; intros [|d b] Ha Hb Heq.
  - split; [done|]. simpl in Heq. by injection Heq.
  - simpl in Heq, Hb. injection Heq as <- _. done.
  - simpl in Heq, Ha. injection Heq as -> _. done.
  - rewrite !str_app_cons in Heq. injection Heq as -> Heq. cbn [all_chars] in Ha, Hb.
    apply andb_true_iff in Ha as [_ Ha]. apply andb_true_iff in Hb as [_ Hb].
    by destruct (IH b Ha Hb Heq) as [-> ->].
Qed.

Lemma no_colon_app (a b : string) : no_colon a = true -> no_colon b = true -> no_colon (a ++ b) = true.
Proof.
  unfold no_colon. induction a as [|c a IH]; intros Ha Hb; [done|]. rewrite str_app_cons. cbn [all_chars] in *.
  apply andb_true_iff in Ha as [-> Ha]. by rewrite IH.
Qed.

Lemma letter_then_no_colon (extra s : string) :
  one_of extra ":"%char = false -> letter_then extra s = true -> no_colon s = true.
Proof.
  intros He. assert (forall c, is_ascii_letter c || is_ascii_digit c || one_of extra c = true -> negb (Ascii.eqb c ":") = true) as Hc.
  { intros c Hc. apply negb_true_iff. destruct (Ascii.eqb_spec c ":"%char) as [->|]; [|done].
    by rewrite He in Hc. }
  destruct s as [|c s]; [done|]. cbn [letter_then]. intros [Hl Hs]%andb_true_iff.
  unfold no_colon. cbn [all_chars]. rewrite Hc by by rewrite Hl. by apply (all_chars_impl _ _ s Hc).
Qed.

Lemma ContractName_no_colon (s : string) : CONTRACT_NAME_REGEX s = true -> no_colon s = true.
Proof.
  unfold CONTRACT_NAME_REGEX. rewrite orb_true_iff. intros [Hl|Hs%String.eqb_eq]; [|by subst].
  by apply (letter_then_no_colon "-_").
Qed.

Lemma ClarityName_no_colon (s : string) : CLARITY_NAME_REGEX s = true -> no_colon s = true.
Proof.
  unfold CLARITY_NAME_REGEX. rewrite !orb_true_iff. intros [[Hl|Hs]|Hs].
  - by apply (letter_then_no_colon "-_!?+<>=/*").
  - destruct s as [|c [|]]; try done. unfold no_colon. cbn [all_chars one_of] in *.
    repeat (apply orb_true_iff in Hs as [->%Ascii.eqb_eq|Hs]; [done|]). done.
  - destruct s as [|c [|e [|]]]; try done; unfold no_colon; cbn [all_chars one_of] in *.
    + repeat (apply orb_true_iff in Hs as [->%Ascii.eqb_eq|Hs]; [done|]). done.
    + apply andb_true_iff in Hs as [Hs ->%Ascii.eqb_eq].
      repeat (apply orb_true_iff in Hs as [->%Ascii.eqb_eq|Hs]; [done|]). done.
Qed.

Section texts.
Context {D : Digests} {L : DigestLaws D}.

Lemma chars_no_colon (ds : list Z) : digits 32 ds -> no_colon (string_of_list_ascii (map c32_char ds)) = true.
Proof.
  assert (forall d, 0 <= d < 32 -> negb (Ascii.eqb (c32_char d) ":") = true) as Hc
    by (apply c32_digits_forall; by vm_compute).
  induction 1 as [|d ds Hd _ IH]; [done|]. unfold no_colon in *. cbn [map string_of_list_ascii all_chars].
  by rewrite Hc, IH.
Qed.

Lemma address_no_colon (p : StandardPrincipalData) :
  StandardPrincipalData_wf p = true -> no_colon (StandardPrincipalData_to_address p) = true.
Proof using L.
  unfold StandardPrincipalData_wf. intros Hlen%Nat.eqb_eq. pose proof (byte_to_Z_range (sp_version p)).
  unfold StandardPrincipalData_to_address. destruct (Z_lt_ge_dec (byte_to_Z (sp_version p)) 32) as [Hv|Hv].
  - destruct (c32_address_ok (byte_to_Z (sp_version p)) (sp_bytes p)) as (ds & -> & Hds & _);
      [lia|by intros E; rewrite E in Hlen|]. unfold no_colon. cbn [all_chars]. by apply chars_no_colon.
  - unfold c32_address, c32_check_encode. by rewrite (proj2 (Z.leb_le _ _)) by lia.
Qed.

Lemma contract_no_colon (c : QualifiedContractIdentifier) :
  QualifiedContractIdentifier_wf c = true -> no_colon (QualifiedContractIdentifier_to_string c) = true.
Proof using L.
  unfold QualifiedContractIdentifier_wf. intros [Hi Hn]%andb_true_iff. unfold QualifiedContractIdentifier_to_string.
  apply no_colon_app; [by apply address_no_colon|]. apply (no_colon_app "."); [done|].
  apply andb_true_iff in Hn as [_ Hn]. by apply ContractName_no_colon.
Qed.
End texts.

(** * Slots *)
(** Contracts and account owners are given by their texts. *)
Inductive slot :=
| SupplySlot (contract token : string)
| FtSlot (contract token : string) (holder : PrincipalData)
| NftSlot (contract asset id : string)
| VarSlot (contract name : string)
| EntrySlot (contract map key : string)
| AccountSlot (owner : string)
| NonceSlot (owner : string)
| LiquidSlot.

#[global] Instance slot_eq_dec : EqDecision slot.
Proof. solve_decision. Defined.

Section slots.
Context {J : SerdeJson}.

(** The texts [make_key_for_trip] and [make_key_for_quad] build. *)
Definition vm_key (contract : string) (data : StoreType) (rest : string) : string :=
  "vm::" ++ contract ++ "::" ++ pretty (StoreType_u8 data) ++ "::" ++ rest.
Definition account_key (owner : string) (data : StoreType) : string :=
  "vm-account::" ++ owner ++ "::" ++ pretty (StoreType_u8 data).

Definition slot_key (s : slot) : string :=
  match s with
  | SupplySlot c t => vm_key c ST_CirculatingSupply t
  | FtSlot c t p => vm_key c ST_FungibleToken (t ++ "::" ++ json_to_string json_principal p)
  | NftSlot c a id => vm_key c ST_NonFungibleToken (a ++ "::" ++ id)
  | VarSlot c n => vm_key c ST_Variable n
  | EntrySlot c m k => vm_key c ST_DataMap (m ++ "::" ++ k)
  | AccountSlot o => account_key o ST_STXBalance
  | NonceSlot o => account_key o ST_Nonce
  | LiquidSlot => ustx_liquid_supply_key
  end.

(** The names in a slot have no separator. *)
Definition slot_ok (s : slot) : bool :=
  match s with
  | SupplySlot c t | FtSlot c t _ | NftSlot c t _ | VarSlot c t | EntrySlot c t _ => no_colon c && no_colon t
  | AccountSlot _ | NonceSlot _ | LiquidSlot => true
  end.

Lemma vm_key_inj (c c' : string) (d d' : StoreType) (r r' : string) :
  no_colon c = true -> no_colon c' = true -> vm_key c d r = vm_key c' d' r' -> c = c' /\ d = d' /\ r = r'.
Proof.
  intros Hc Hc' Heq. unfold vm_key in Heq. apply str_app_inj_l in Heq.
  apply colon_split in Heq as [-> Heq]; [|done..].
  apply colon_split in Heq as [Hd ->]; [|by destruct d|by destruct d'].
  split; [done|]. split; [|done]. by destruct d, d'.
Qed.

Lemma account_key_split (o o' : string) (d d' : StoreType) :
  String.length (pretty (StoreType_u8 d)) = String.length (pretty (StoreType_u8 d')) ->
  account_key o d = account_key o' d' -> o = o' /\ d = d'.
Proof.
  intros Hlen Heq. unfold account_key in Heq. apply str_app_inj_l in Heq.
  assert (String.length o = String.length o') as Ho.
  { apply (f_equal String.length) in Heq. rewrite !length_str_app in Heq. lia. }
  revert o' Heq Ho. induction o as [|x o IH]; intros [|y o'] Heq Ho; try done.
  - apply (str_app_inj_l "::") in Heq. split; [done|]. by destruct d, d'.
  - rewrite !str_app_cons in Heq. injection Heq as -> Heq. injection Ho as Ho. by destruct (IH o' Heq Ho) as [-> ->].
Qed.

Context {JL : SerdeJsonLaws J}.

Lemma json_principal_inj (p q : PrincipalData) :
  json_to_string json_principal p = json_to_string json_principal q -> p = q.
Proof using JL.
  intros Heq. pose proof (json_principal_ok p I) as Hp. rewrite Heq, (json_principal_ok q I) in Hp. congruence.
Qed.

(** The kinds of keys start differently. *)
Lemma vm_not_account (c o : string) (d e : StoreType) (r : string) : vm_key c d r <> account_key o e.
Proof. unfold vm_key, account_key. simpl. intros Heq. by injection Heq. Qed.
Lemma vm_not_liquid (c : string) (d : StoreType) (r : string) : vm_key c d r <> ustx_liquid_supply_key.
Proof. unfold vm_key. simpl. intros Heq. by injection Heq. Qed.
Lemma account_not_liquid (o : string) (d : StoreType) : account_key o d <> ustx_liquid_supply_key.
Proof. unfold account_key. simpl. intros Heq. by injection Heq. Qed.

(** The keys of nonces, and keys that are none. *)
Definition nonce_key (k : string) : Prop := exists o, k = account_key o ST_Nonce.
Lemma trip_not_nonce {D : Digests} c d n : ~ nonce_key (make_key_for_trip c d n).
Proof using. intros [o Ho]. by apply (vm_not_account (QualifiedContractIdentifier_to_string c) o d ST_Nonce n). Qed.
Lemma quad_not_nonce {D : Digests} c d n k : ~ nonce_key (make_key_for_quad c d n k).
Proof using. intros [o Ho]. by apply (vm_not_account (QualifiedContractIdentifier_to_string c) o d ST_Nonce (n ++ "::" ++ k)). Qed.
Lemma nft_not_nonce {D : Digests} c n v k : nft_key c n v = Ok k -> ~ nonce_key k.
Proof using. unfold nft_key. intros Hk. out_inv. simplify_eq. apply quad_not_nonce. Qed.
Lemma balance_not_nonce {D : Digests} p : ~ nonce_key (make_key_for_account_balance p).
Proof using. intros [o Ho]. by apply (account_key_split (PrincipalData_to_string p) o ST_STXBalance ST_Nonce) in Ho as [_ ?]. Qed.
Lemma contract_hash_not_nonce {D : Digests} c : ~ nonce_key (make_contract_hash_key c).
Proof using. intros [o Ho]. unfold make_contract_hash_key, account_key in Ho. simpl in Ho. by injection Ho. Qed.
Lemma liquid_not_nonce : ~ nonce_key ustx_liquid_supply_key.
Proof using. intros [o Ho]. by eapply account_not_liquid. Qed.

Lemma slot_key_inj (a b : slot) :
  slot_ok a = true -> slot_ok b = true -> slot_key a = slot_key b -> a = b.
Proof using JL.
  intros Ha Hb Heq. destruct a as [c t|c t p|c t i|c t|c t k|o|o| ], b as [c' t'|c' t' p'|c' t' i'|c' t'|c' t' k'|o'|o'| ];
    cbn [slot_key slot_ok] in *;
    try (by destruct (vm_not_account _ _ _ _ _ Heq)); try (by destruct (vm_not_account _ _ _ _ _ (eq_sym Heq)));
    try (by destruct (vm_not_liquid _ _ _ Heq)); try (by destruct (vm_not_liquid _ _ _ (eq_sym Heq)));
    try (by destruct (account_not_liquid _ _ Heq)); try (by destruct (account_not_liquid _ _ (eq_sym Heq)));
    try (apply account_key_split in Heq as [-> ?]; [done|done]); try done;
    apply andb_true_iff in Ha as [Hc Ht]; apply andb_true_iff in Hb as [Hc' Ht'];
    apply vm_key_inj in Heq as (-> & Hd & Heq); try done; try (by subst).
  - apply colon_split in Heq as [-> Heq]; [|done..]. by apply json_principal_inj in Heq as ->.
  - by apply colon_split in Heq as [-> ->].
  - by apply colon_split in Heq as [-> ->].
Qed.
End slots.

(** * Keys of the source *)
Section source_keys.
Context {D : Digests} {L : DigestLaws D}.

(** A contract identifier whose text identifies it. *)
Definition contract_printable (c : QualifiedContractIdentifier) : Prop :=
  QualifiedContractIdentifier_wf c = true /\ byte_to_Z (sp_version (issuer c)) < 32.

Lemma contract_text_inj (c c' : QualifiedContractIdentifier) :
  contract_printable c -> contract_printable c' ->
  QualifiedContractIdentifier_to_string c = QualifiedContractIdentifier_to_string c' -> c = c'.
Proof using L.
  intros [Hc Vc] [Hc' Vc'] Heq. pose proof (contract_id_roundtrip c Hc Vc) as Rc.
  rewrite Heq, (contract_id_roundtrip c' Hc' Vc') in Rc. congruence.
Qed.

Lemma principal_no_colon (p : PrincipalData) : PrincipalData_wf p = true -> no_colon (PrincipalData_to_string p) = true.
Proof using L. destruct p as [p|c]; [apply address_no_colon|apply contract_no_colon]. Qed.

Lemma no_colon_not_app (n m k : string) : no_colon n = true -> n <> (m ++ "::" ++ k)%string.
Proof.
  unfold no_colon. intros Hn ->. induction m as [|c m IH]; [done|]. rewrite str_app_cons in Hn. cbn [all_chars] in Hn.
  apply andb_true_iff in Hn as [_ Hn]. auto.
Qed.

End source_keys.

