(* ===== verification/Discipline.v ===== *)
(** Discipline: what every evaluation respects.

    A discipline is a family of invariants of the state, indexed by worlds: each
    elementary step stays in its world, and each construct that opens something
    (a call, a transaction, an evaluation at another block) moves to another
    world and back.  The file shows once, for every native and special function
    and for the application of functions, that evaluation respects any
    discipline, and that two evaluations agree as long as the functions they
    call agree.  Termination.v and Isolation.v choose the disciplines. *)
From Stdlib Require Import ZArith Lia Strings.Byte Strings.String List Bool.
From stdpp Require Import base decidable list strings option gmap relations.
From S2P Require Import Prelude Bytes Codec Representations BTree Types Signatures Admission Values.
From S2P Require Import Serialization AssetMap Hashes Keys Natives C32 Principals BackingStore RollbackWrapper RollbackRefinement.
From S2P Require Import Events GlobalContext ClarityDb ClarityState StxBalance Costs Contexts Callables Assets Machine.
From S2P Require Import Specials DataNatives Interpreter StateLayout.
Open Scope Z_scope.
Open Scope machine_scope.

(** * Edits of the database *)
Section edits.
Context {D : Digests} {J : SerdeJson} {C S : Type} `{Sqlite C} `{!ClarityBackingStore C S}.
Notation W := (RollbackWrapper S).

(** The operations that write in the innermost context, but no nonce. *)
Definition is_edit (o : wrapper_op) : Prop :=
  match o with Put k _ => ~ nonce_key k | InsertMetadata _ _ _ | Prepare _ _ => True | _ => False end.
Definition edits (w w' : W) : Prop := exists ops, Forall is_edit ops /\ run_ops w ops = Ok w'.

Lemma edits_refl (w : W) : edits w w.
Proof. by exists []. Qed.
Lemma run_ops_app (w w1 : W) (ops ops' : list wrapper_op) :
  run_ops w ops = Ok w1 -> run_ops w (ops ++ ops') = run_ops w1 ops'.
Proof.
  unfold run_ops. revert w. induction ops as [|o ops IH]; intros w; cbn [app try_fold]; [by intros [= ->]|].
  destruct (run_op w o); [|done..]. cbn [out_bind]. apply IH.
Qed.
Lemma edits_trans (w w1 w2 : W) : edits w w1 -> edits w1 w2 -> edits w w2.
Proof.
  intros (ops & Hf & Hr) (ops' & Hf' & Hr'). exists (ops ++ ops'). split; [by apply Forall_app|]. by rewrite (run_ops_app w w1).
Qed.
Lemma edits_one (o : wrapper_op) (w w' : W) : is_edit o -> run_op w o = Ok w' -> edits w w'.
Proof. intros Ho Hr. exists [o]. split; [by constructor|]. unfold run_ops. cbn [try_fold]. by rewrite Hr. Qed.

Lemma edits_put (w w' : W) (k v : string) : ~ nonce_key k -> kv_put w k v = Ok w' -> edits w w'.
Proof. apply (edits_one (Put k v)). Qed.
Lemma edits_db_put {A : Type} (ser : A -> string) (w w' : W) (k : string) (v : A) :
  ~ nonce_key k -> db_put ser w k v = Ok w' -> edits w w'.
Proof. apply edits_put. Qed.
Lemma edits_put_value (w w' : W) (k : string) (v : Value) : ~ nonce_key k -> put_value w k v = Ok w' -> edits w w'.
Proof. unfold put_value. intros. out_inv. simplify_eq. eauto using edits_put. Qed.
Lemma edits_put_value_with_size (w w' : W) (k : string) (v : Value) (n : Z) :
  ~ nonce_key k -> put_value_with_size w k v = Ok (n, w') -> edits w w'.
Proof. unfold put_value_with_size. intros. out_inv. simplify_eq. eauto using edits_put. Qed.

(** The writing operations of the database make edits. *)
Ltac edits_tac := intros; out_inv; simplify_eq; repeat case_match; simplify_eq;
  eauto using edits_refl, edits_put, edits_db_put, edits_put_value, edits_put_value_with_size, edits_trans,
    trip_not_nonce, quad_not_nonce, nft_not_nonce, balance_not_nonce, liquid_not_nonce.

Lemma edits_set_variable (w w' : W) c n v d r : set_variable w c n v d = Ok (r, w') -> edits w w'.
Proof. unfold set_variable. edits_tac. Qed.
Lemma edits_inner_set_entry (w w' : W) c n k v b d r : inner_set_entry w c n k v b d = Ok (r, w') -> edits w w'.
Proof. unfold inner_set_entry. edits_tac. Qed.
Lemma edits_set_entry (w w' : W) c n k v d r : set_entry w c n k v d = Ok (r, w') -> edits w w'.
Proof. apply edits_inner_set_entry. Qed.
Lemma edits_insert_entry (w w' : W) c n k v d r : insert_entry w c n k v d = Ok (r, w') -> edits w w'.
Proof. apply edits_inner_set_entry. Qed.
Lemma edits_delete_entry (w w' : W) c n k d r : delete_entry w c n k d = Ok (r, w') -> edits w w'.
Proof. unfold delete_entry. edits_tac. Qed.
Lemma edits_set_ft_balance (w w' : W) c n p b : set_ft_balance w c n p b = Ok w' -> edits w w'.
Proof. unfold set_ft_balance. edits_tac. Qed.
Lemma edits_increase_supply (w w' : W) c n a d : checked_increase_token_supply w c n a d = Ok w' -> edits w w'.
Proof. unfold checked_increase_token_supply. edits_tac. Qed.
Lemma edits_decrease_supply (w w' : W) c n a : checked_decrease_token_supply w c n a = Ok w' -> edits w w'.
Proof. unfold checked_decrease_token_supply. edits_tac. Qed.
Lemma edits_set_nft_owner (w w' : W) c n a p t : set_nft_owner w c n a p t = Ok w' -> edits w w'.
Proof. unfold set_nft_owner. edits_tac. Qed.
Lemma edits_burn_nft (w w' : W) c n a t : burn_nft w c n a t = Ok w' -> edits w w'.
Proof. unfold burn_nft. edits_tac. Qed.
Lemma edits_save (w w' : W) x : save x w = Ok w' -> edits w w'.
Proof. unfold save. edits_tac. Qed.
Lemma edits_transfer_to (w w' : W) x p a : transfer_to x w p a = Ok w' -> edits w w'.
Proof. unfold transfer_to. intros. out_inv. eapply edits_trans; [eapply edits_db_put; [apply balance_not_nonce|done]|by eapply edits_save]. Qed.
Lemma edits_decrement_supply (w w' : W) a : decrement_ustx_liquid_supply w a = Ok w' -> edits w w'.
Proof. unfold decrement_ustx_liquid_supply, set_ustx_liquid_supply. edits_tac. Qed.
End edits.

Create HintDb walk discriminated.
#[export] Hint Constants Opaque : walk.
#[export] Hint Resolve edits_set_variable edits_set_entry edits_insert_entry edits_delete_entry edits_set_ft_balance
  edits_increase_supply edits_decrease_supply edits_set_nft_owner edits_burn_nft edits_save edits_transfer_to
  edits_decrement_supply : walk.

(** * Steps *)
(** [drop_memory] has no error. *)
Class MemoryLaws (T : Type) `{CostTracker T} := {
  drop_memory_total : forall (t : T) (m : Z) x, drop_memory t m <> Err x
}.

Section steps.
Context {O : HashOrder} {D : Digests} {C S T : Type} `{Sqlite C} `{!ClarityBackingStore C S}.
Notation G := (GlobalContext S (Tracked T)).

(** The elementary changes of the innermost context. *)
Inductive step : G -> G -> Prop :=
| step_tracker g t : step g (set_tracker g (mkTracked t (call_stack g)))
| step_edit g db : edits (database g) db -> step g (set_stacks g (asset_maps g) (event_batches g) db (read_only g))
| step_assets g f g' : with_asset_map g f = Ok g' -> step g g'
| step_event g e : step g (register_event g e).

Lemma step_stack (g g' : G) : step g g' -> call_stack g' = call_stack g.
Proof.
  intros [| |? f ? Hf|? e]; [done|done| |].
  - unfold with_asset_map in Hf. case_match; [done|]. out_inv. by simplify_eq.
  - unfold register_event. by case_match.
Qed.

Lemma roll_back_cases (g : G) : roll_back g = Panic \/ exists g', roll_back g = Ok g'.
Proof.
  unfold roll_back, db_roll_back, expect_some, expect, out_bind. repeat case_match; simplify_eq; eauto.
Qed.
End steps.

(** The handler of special cases changes the innermost context only. *)
Class HostLaws (S T : Type) {O : HashOrder} {D : Digests} {C : Type} `{Sqlite C} `{!ClarityBackingStore C S} `{!Host S T} := {
  handler_steps : forall (g : GlobalContext S (Tracked T)) handler sender contract name value,
    get_cc_special_cases_handler (store (database g)) = Some handler ->
    match handler (without_stack g) sender contract name value with
    | Ok g' | Err (g', _) => rtc step g (add_stack g' (call_stack g))
    | Panic => True
    end
}.

Definition is_short_return (e : VmError) : bool := match e with ShortReturn _ => true | _ => false end.
Definition must_return_response (e : VmError) : bool :=
  match e with Unchecked (CheckErr.PublicFunctionMustReturnResponse _) => true | _ => false end.

(** The errors that code outside the call that raised them may rely on: a short
    return is caught, and a missing response leaves a transaction open. *)
Definition passes (e : VmError) : bool := is_short_return e || must_return_response e.

Section disciplines.
Context {O : HashOrder} {D : Digests} {C S T : Type} `{Sqlite C} `{!ClarityBackingStore C S} `{!CostTracker T}.
Notation G := (GlobalContext S (Tracked T)).

(** [within w g]: the state belongs to the world; [failed w g e]: it may be left
    by the error [e].  [under w w']: [w'] can be reached from [w]; [called w w']:
    [w'] is entered by a call below the limit of the call stack. *)
Class Discipline (W : Type) := {
  within : W -> G -> Prop;
  failed : W -> G -> VmError -> Prop;
  under : W -> W -> Prop;
  called : W -> W -> Prop;
  under_order : PreOrder under;
  within_stack : forall w g g', within w g -> within w g' -> call_stack g = call_stack g';
  within_step : forall w g g', within w g -> step g g' -> within w g';
  within_failed : forall w g e, within w g -> failed w g e;
  failed_return : forall w g v, failed w g (ShortReturn v) -> within w g;
  failed_tracker : forall w g e t, failed w g e -> failed w (set_tracker g (mkTracked t (call_stack g))) e;
  enter_call : forall w g f track,
    within w g -> (track = true -> CallStack_contains (call_stack g) f = false) ->
    exists w', under w w' /\
      (CallStack_depth (call_stack g) < MAX_CALL_STACK_DEPTH -> called w w') /\
      within w' (with_stack g (CallStack_insert (call_stack g) f track)) /\
      (forall g', within w' g' -> match pop_call f track g' with
         | Ok (g', _) => within w g' | Err (g', e) => failed w g' e | Panic => True end) /\
      (forall g' e, failed w' g' e -> match pop_call f track g' with
         | Ok (g', _) => failed w g' e | Err (g', e) => failed w g' e | Panic => True end) /\
      (forall g' e, within w' g' -> passes e = false -> failed w g' e);
  enter_args : forall w g, within w g ->
    exists w', under w w' /\
      (CallStack_depth (call_stack g) < MAX_CALL_STACK_DEPTH -> called w w') /\
      within w' (with_stack g (incr_apply_depth (call_stack g))) /\
      (forall g', within w' g' -> within w (with_stack g' (decr_apply_depth (call_stack g')))) /\
      (forall g' e, failed w' g' e -> failed w (with_stack g' (decr_apply_depth (call_stack g'))) e);
  enter_frame : forall w g ro, within w g ->
    exists w', under w w' /\ within w' (begin_with g ro) /\
      (forall g', within w' g' -> match roll_back g' with Ok g' => within w g' | _ => True end) /\
      (forall g' e, failed w' g' e -> match roll_back g' with Ok g' => failed w g' e | _ => True end) /\
      (forall g', within w' g' -> match context_commit g' with
         | Ok (g', _) => within w g' | Err (g', e) => failed w g' e | Panic => True end) /\
      (forall g' e, within w' g' -> must_return_response e = true -> failed w g' e);
  enter_block : forall w g bhh prior db,
    within w g -> set_block_hash (database g) bhh false = Ok (prior, db) ->
    exists w', under w w' /\ within w' (set_stacks g (asset_maps g) (event_batches g) db (read_only g)) /\
      (forall g' x db', within w' g' -> set_block_hash (database g') prior true = Ok (x, db') ->
         within w (set_stacks g' (asset_maps g') (event_batches g') db' (read_only g'))) /\
      (forall g' e x db', failed w' g' e -> set_block_hash (database g') prior true = Ok (x, db') ->
         failed w (set_stacks g' (asset_maps g') (event_batches g') db' (read_only g')) e)
}.
End disciplines.

(** * Agreement *)
Section agreement.
Context {O : HashOrder} {D : Digests} {J : SerdeJson} {N : HeadersDB} {Q : IntegerSquareRoot} {K : LibSecp256k1}.
Context {C S T : Type} `{Sqlite C} `{!ClarityBackingStore C S} `{!CostTracker T} `{!Host S T}.
Context `{!MemoryLaws T} `{!HostLaws S T} {W : Type} {DW : Discipline (S:=S) (T:=T) W}.
Notation G := (GlobalContext S (Tracked T)).
Notation M := (M (S:=S) (T:=T)).
Implicit Types (w : W) (g : G).

(** Two results agree, satisfy [P] or leave the world by an error. *)
Definition rel {A : Type} w (P : A -> Prop) (r1 r2 : outcome (G * VmError) A) : Prop :=
  r1 = r2 /\ match r1 with Ok a => P a | Err (g, e) => failed w g e | Panic => True end.
Definition inside {A : Type} w (x : G * A) : Prop := within w (fst x).
Definition agree {A : Type} w (m1 m2 : M A) : Prop := forall g, within w g -> rel w (inside w) (m1 g) (m2 g).

Lemma rel_bind {A B : Type} w (P : A -> Prop) (R : B -> Prop) r1 r2 k1 k2 :
  rel w P r1 r2 -> (forall a, P a -> rel w R (k1 a) (k2 a)) -> rel w R (out_bind r1 k1) (out_bind r2 k2).
Proof. intros [<- Hr] Hk. destruct r1 as [a|[g e]|]; cbn [out_bind]; [by apply Hk|done..]. Qed.
Lemma rel_weaken {A : Type} w (P R : A -> Prop) r1 r2 : rel w P r1 r2 -> (forall a, P a -> R a) -> rel w R r1 r2.
Proof. intros [<- Hr] HPR. split; [done|]. destruct r1 as [a|[g e]|]; auto. Qed.
Lemma rel_ok {A : Type} w (P : A -> Prop) (a : A) : P a -> rel w P (Ok a) (Ok a).
Proof. by split. Qed.
Lemma rel_err {A : Type} w (P : A -> Prop) g e : within w g -> rel w P (Err (g, e)) (Err (g, e)).
Proof. split; [done|]. by apply within_failed. Qed.
Lemma rel_panic {A : Type} w (P : A -> Prop) : rel w P Panic Panic.
Proof. by split. Qed.
(** A computation on values, with [?]. *)
Lemma rel_map_err {A : Type} w g (m : outcome VmError A) : within w g -> rel w (fun _ => True) (map_err (pair g) m) (map_err (pair g) m).
Proof. intros Hg. split; [done|]. destruct m; simpl; auto using within_failed. Qed.
Lemma rel_ok_or {A : Type} w g e (m : option A) : within w g -> rel w (fun _ => True) (ok_or (g, e) m) (ok_or (g, e) m).
Proof. intros Hg. split; [done|]. destruct m; simpl; auto using within_failed. Qed.
Lemma rel_expect_some {A : Type} w (m : option A) : rel w (fun _ => True) (expect_some m) (expect_some m).
Proof. split; [done|]. by destruct m. Qed.
Lemma rel_expect {E A : Type} w (m : outcome E A) : rel w (fun _ => True) (expect m) (expect m).
Proof. split; [done|]. by destruct m. Qed.

Lemma within_steps w g g' : within w g -> rtc step g g' -> within w g'.
Proof. intros Hg Hs. induction Hs; eauto using within_step. Qed.

(** ** The tracker and the database *)
Lemma tracked_runtime_cost (f : ClarityCostFunction) (t : Tracked T) (n : Z) :
  match runtime_cost f t n with Ok t' | Err (t', _) => stack_of t' = stack_of t | Panic => True end.
Proof.
  unfold runtime_cost. destruct (checked u64_ty n) as [z|]; [|done]. cbn [ok_or out_bind]. simpl.
  destruct (compute_cost (tracked t) f [z]) as [[t1 c]|[t1 e]|]; cbn [on_tracker out_bind]; [|done..]. simpl.
  destruct (add_cost t1 c) as [t2|[t2 e]|]; done.
Qed.

Lemma rel_track w g (f : Tracked T -> outcome (Tracked T * CostErrors) (Tracked T)) :
  within w g ->
  match f (cost_track g) with Ok t' | Err (t', _) => stack_of t' = call_stack g | Panic => True end ->
  rel w (within w) (track g f) (track g f).
Proof.
  intros Hg Hf. split; [done|]. unfold track.
  destruct (f (cost_track g)) as [[t s]|[[t s] e]|]; simpl in Hf; subst; [|apply within_failed|done]; by eapply within_step, step_tracker.
Qed.
Lemma rel_cost w g f n : within w g -> rel w (within w) (env_runtime_cost f g n) (env_runtime_cost f g n).
Proof. intros Hg. apply rel_track; [done|]. apply tracked_runtime_cost. Qed.
Lemma rel_memory w g n : within w g -> rel w (within w) (env_add_memory g n) (env_add_memory g n).
Proof. intros Hg. apply rel_track; [done|]. simpl. by destruct (add_memory _ n) as [|[? ?]|]. Qed.

Lemma rel_write_db w g m :
  within w g -> (forall db, m = Ok db -> edits (database g) db) -> rel w (within w) (write_db g m) (write_db g m).
Proof.
  intros Hg Hm. split; [done|]. unfold write_db. destruct m as [db|e|]; cbn [map_err out_bind]; [|by apply within_failed|done].
  eapply within_step, step_edit; auto.
Qed.
Lemma rel_read_db {A : Type} w g (m : outcome VmError A) : within w g -> rel w (fun _ => True) (read_db g m) (read_db g m).
Proof. apply rel_map_err. Qed.
Lemma rel_with_asset_map w g f : within w g -> rel w (within w) (with_asset_map g f) (with_asset_map g f).
Proof.
  intros Hg. split; [done|]. destruct (with_asset_map g f) as [g'|[g' e]|] eqn:E; [by eapply within_step, step_assets| |done].
  unfold with_asset_map in E. case_match; [done|]. destruct (f _); cbn [map_err out_bind] in E; simplify_eq. by apply within_failed.
Qed.
Lemma within_event w g e : within w g -> within w (register_event g e).
Proof. intros Hg. eapply within_step, step_event. done. Qed.

(** ** Computations *)
Lemma agree_ret {A : Type} w (a : A) : agree w (m_ret a) (m_ret a).
Proof. intros g Hg. by apply rel_ok. Qed.
Lemma agree_raise {A : Type} w e : agree (A:=A) w (raise e) (raise e).
Proof. intros g Hg. by apply rel_err. Qed.
Lemma agree_lift {A : Type} w (m : outcome VmError A) : agree w (lift m) (lift m).
Proof. intros g Hg. unfold lift. destruct m; [by apply rel_ok|by apply rel_err|apply rel_panic]. Qed.
Lemma agree_bind {A B : Type} w (m1 m2 : M A) (k1 k2 : A -> M B) :
  agree w m1 m2 -> (forall a, agree w (k1 a) (k2 a)) -> agree w (m_bind m1 k1) (m_bind m2 k2).
Proof. intros Hm Hk g Hg. eapply rel_bind; [by apply Hm|]. intros [g' a] Hg'. by apply Hk. Qed.
Lemma agree_update w f : (forall g, within w g -> rel w (within w) (f g) (f g)) -> agree w (update f) (update f).
Proof. intros Hf g Hg. eapply rel_bind; [by apply Hf|]. intros g' Hg'. by apply rel_ok. Qed.
Lemma agree_cost w f n : agree w (cost f n) (cost f n).
Proof. apply agree_update. intros. by apply rel_cost. Qed.
Lemma agree_use_memory w n : agree w (use_memory n) (use_memory n).
Proof. apply agree_update. intros. by apply rel_memory. Qed.
Lemma agree_query {A : Type} w (f : RollbackWrapper S -> outcome VmError A) : agree w (query f) (query f).
Proof. intros g Hg. unfold query. by apply agree_lift. Qed.
Lemma agree_update_db {A : Type} w (f : RollbackWrapper S -> outcome VmError (A * RollbackWrapper S)) :
  (forall db a db', f db = Ok (a, db') -> edits db db') -> agree w (update_db f) (update_db f).
Proof.
  intros Hf g Hg. split; [done|]. unfold update_db. destruct (f (database g)) as [[a db]|e|] eqn:E; [|by apply within_failed|done].
  eapply within_step, step_edit; [done|]. by eapply Hf.
Qed.

(** What holds of the state does not matter to [attempt]. *)
Definition settled {A : Type} w (x : G * outcome VmError A) : Prop :=
  match snd x with Ok _ => within w (fst x) | Err e => failed w (fst x) e | Panic => True end.
Lemma rel_attempt {A : Type} w (m1 m2 : M A) g :
  rel w (inside w) (m1 g) (m2 g) -> rel w (settled w) (attempt m1 g) (attempt m2 g).
Proof. unfold attempt. intros [<- Hr]. split; [done|]. by destruct (m1 g) as [[g' a]|[g' e]|]. Qed.

(** Memory is given back after errors also. *)
Lemma free_memory_cases n g :
  free_memory n g = Panic \/ exists t, free_memory n g = Ok (set_tracker g (mkTracked t (call_stack g)), tt).
Proof.
  unfold free_memory, update, track. simpl. pose proof (drop_memory_total (tracked (cost_track g)) n) as Hd.
  destruct (drop_memory _ n) as [t|[t e]|]; [right|by destruct (Hd (t, e))|by left]. by exists t.
Qed.
Lemma agree_free_memory w n : agree w (free_memory n) (free_memory n).
Proof.
  intros g Hg. split; [done|]. destruct (free_memory_cases n g) as [->|[t ->]]; [done|]. by eapply within_step, step_tracker.
Qed.
Lemma rel_finally_free {A : Type} w n (m1 m2 : M A) g :
  rel w (inside w) (m1 g) (m2 g) -> rel w (inside w) (finally_free n m1 g) (finally_free n m2 g).
Proof.
  unfold finally_free. intros [Heq Hr]. unfold m_bind, attempt. rewrite <-Heq. split; [done|].
  destruct (m1 g) as [[g' a]|[g' e]|]; cbn [out_bind]; [| |done];
    (destruct (free_memory_cases n g') as [->|[t ->]]; [done|]); cbn [out_bind lift inside fst].
  - by eapply within_step, step_tracker.
  - by apply failed_tracker.
Qed.
Lemma agree_finally_free {A : Type} w n (m1 m2 : M A) : agree w m1 m2 -> agree w (finally_free n m1) (finally_free n m2).
Proof. intros Hm g Hg. by apply rel_finally_free, Hm. Qed.
End agreement.

#[export] Hint Resolve rel_map_err rel_ok_or rel_expect_some rel_expect rel_cost rel_memory rel_read_db rel_with_asset_map : walk.
#[export] Hint Extern 5 (within _ _) => apply within_event : walk.
#[export] Hint Resolve agree_ret agree_raise agree_lift agree_cost agree_use_memory agree_query agree_free_memory
  agree_finally_free : walk.
