(* ===== verification/Respect.v ===== *)
(** Respect: every native and special function respects every discipline, and so
    does the application of functions. *)
From Stdlib Require Import ZArith Lia Strings.Byte Strings.String List Bool.
From stdpp Require Import base decidable list strings option gmap relations.
From S2P Require Import Prelude Bytes Codec Representations BTree Types Signatures Admission Values.
From S2P Require Import Serialization AssetMap Hashes Keys Natives C32 Principals BackingStore RollbackWrapper RollbackRefinement.
From S2P Require Import Events GlobalContext ClarityDb ClarityState StxBalance Costs Contexts Callables Assets Machine.
From S2P Require Import Specials DataNatives Interpreter Discipline.
Open Scope Z_scope.
Open Scope machine_scope.

(** * Assets *)
Section assets.
Context {O : HashOrder} {D : Digests} {J : SerdeJson} {N : HeadersDB} {Q : IntegerSquareRoot} {K : LibSecp256k1}.
Context {C S T : Type} `{Sqlite C} `{!ClarityBackingStore C S} `{!CostTracker T} `{!Host S T}.
Context `{!MemoryLaws T} `{!HostLaws S T} {W : Type} {DW : Discipline (S:=S) (T:=T) W}.
Notation G := (GlobalContext S (Tracked T)).
Implicit Types (w : W) (g : G).

(** Two lists of arguments that agree. *)
Definition args_agree w (args1 args2 : list (Arg (S:=S) (T:=Tracked T))) : Prop :=
  Forall2 (fun a b => arg_atom a = arg_atom b /\ agree w (arg_eval a) (arg_eval b)) args1 args2.

Lemma rel_count {A B : Type} w g n (args1 : list A) (args2 : list B) :
  within w g -> length args1 = length args2 ->
  rel w (fun _ => True) (check_argument_count n args1 g) (check_argument_count n args2 g).
Proof.
  intros Hg Hl. unfold check_argument_count. rewrite <-Hl. destruct (negb _); [by apply rel_err|by apply rel_ok].
Qed.
Lemma args_agree_length w args1 args2 : args_agree w args1 args2 -> length args1 = length args2.
Proof. apply Forall2_length. Qed.

Lemma args_agree_nth w args1 args2 i : args_agree w args1 args2 ->
  match nth_error args1 i, nth_error args2 i with
  | Some a, Some b => arg_atom a = arg_atom b /\ agree w (arg_eval a) (arg_eval b)
  | None, None => True
  | _, _ => False
  end.
Proof. intros Ha. revert i. induction Ha as [|a b l1 l2 Hab _ IH]; intros [|i]; simpl; try done. apply IH. Qed.

Lemma rel_eval_arg w g args1 args2 i :
  args_agree w args1 args2 -> within w g -> rel w (inside w) (eval_arg args1 i g) (eval_arg args2 i g).
Proof.
  intros Ha Hg. unfold eval_arg, arg. pose proof (args_agree_nth w args1 args2 i Ha) as Hi.
  destruct (nth_error args1 i), (nth_error args2 i); try done. cbn [expect_some out_bind]. by apply Hi.
Qed.
Lemma rel_atom_arg w g args1 args2 i :
  args_agree w args1 args2 -> within w g -> rel w (fun _ => True) (atom_arg args1 i g) (atom_arg args2 i g).
Proof.
  intros Ha Hg. unfold atom_arg, arg. pose proof (args_agree_nth w args1 args2 i Ha) as Hi.
  destruct (nth_error args1 i), (nth_error args2 i); try done. cbn [expect_some out_bind].
  destruct Hi as [-> _]. by apply rel_ok_or.
Qed.

Lemma rel_charge_principal w g : within w g -> rel w (within w) (charge_principal g) (charge_principal g).
Proof. intros Hg. eapply rel_bind; [by apply rel_read_db|]. intros. by apply rel_memory. Qed.
Lemma rel_charge_uint w g : within w g -> rel w (within w) (charge_uint g) (charge_uint g).
Proof. intros Hg. eapply rel_bind; [by apply rel_read_db|]. intros. by apply rel_memory. Qed.
Lemma rel_stx_snapshot w g p : within w g -> rel w (fun _ => True) (stx_snapshot g p) (stx_snapshot g p).
Proof. intros Hg. by apply rel_read_db. Qed.
Lemma rel_ft_info w g env n : within w g -> rel w (fun _ => True) (ft_info env g n) (ft_info env g n).
Proof. intros Hg. by apply rel_ok_or. Qed.
Lemma rel_asset_type w g env n :
  within w g -> rel w (fun _ => True) (expected_asset_type env g n) (expected_asset_type env g n).
Proof. intros Hg. eapply rel_bind; [by apply rel_ok_or|]. intros. by apply rel_ok. Qed.
Lemma rel_nft_owner w g env n v t : within w g -> rel w (fun _ => True) (nft_owner env g n v t) (nft_owner env g n v t).
Proof. intros Hg. split; [done|]. unfold nft_owner. repeat case_match; simplify_eq; auto using within_failed. Qed.
Lemma rel_log_stx w g p n : within w g -> rel w (within w) (log_stx_transfer g p n) (log_stx_transfer g p n).
Proof. apply rel_with_asset_map. Qed.
Lemma rel_log_burn w g p n : within w g -> rel w (within w) (log_stx_burn g p n) (log_stx_burn g p n).
Proof. apply rel_with_asset_map. Qed.
Lemma rel_log_token w g p c a n : within w g -> rel w (within w) (log_token_transfer g p c a n) (log_token_transfer g p c a n).
Proof. apply rel_with_asset_map. Qed.
Lemma rel_log_asset w g p c a v : within w g -> rel w (within w) (log_asset_transfer g p c a v) (log_asset_transfer g p c a v).
Proof. apply rel_with_asset_map. Qed.
Lemma rel_ecode w g c : within w g -> rel w (inside w) (clarity_ecode g c) (clarity_ecode g c).
Proof. intros Hg. by apply rel_ok. Qed.
Lemma rel_okay_true w g : within w g -> rel w (inside w) (okay_true g) (okay_true g).
Proof. intros Hg. by apply rel_ok. Qed.
End assets.

#[export] Hint Resolve rel_count args_agree_length rel_eval_arg rel_atom_arg rel_charge_principal rel_charge_uint rel_stx_snapshot
  rel_ft_info rel_asset_type rel_nft_owner rel_log_stx rel_log_burn rel_log_token rel_log_asset rel_ecode
  rel_okay_true : walk.

(** One step through a function in direct style. *)
Ltac rel_step :=
  lazymatch goal with
  | |- rel _ _ (out_bind (write_db _ _) _) _ =>
      eapply rel_bind; [apply rel_write_db; [solve [eauto with walk]|intros ? ?; solve [eauto with walk]]|intros ? ?; cbn beta iota]
  | |- rel _ _ (out_bind _ _) _ =>
      eapply rel_bind; [solve [eauto with walk] | let a := fresh "a" in intros a ?;
        try match type of a with prod _ _ => destruct a; cbn [inside fst snd] in * end; cbn beta iota]
  | |- rel _ _ (Err _) _ => apply rel_err
  | |- rel _ _ (Ok _) _ => apply rel_ok; cbn [inside fst]
  | |- rel _ _ Panic _ => apply rel_panic
  | |- rel _ _ (if ?b then _ else _) _ => destruct b
  | |- rel _ _ (match ?x with _ => _ end) _ => destruct x
  end.

Tactic Notation "walk_args" reference(f) :=
  let Ha := fresh "Ha" in let Hg := fresh "Hg" in
  intros ? ? ? ? Ha ? Hg; unfold f; repeat rel_step; eauto with walk.

Section assets_respect.
Context {O : HashOrder} {D : Digests} {J : SerdeJson} {N : HeadersDB} {Q : IntegerSquareRoot} {K : LibSecp256k1}.
Context {C S T : Type} `{Sqlite C} `{!ClarityBackingStore C S} `{!CostTracker T} `{!Host S T}.
Context `{!MemoryLaws T} `{!HostLaws S T} {W : Type} {DW : Discipline (S:=S) (T:=T) W}.
Notation G := (GlobalContext S (Tracked T)).
Implicit Types (w : W) (g : G).

(** A native function of Assets.v. *)
Definition respects_args (f : list (Arg (S:=S) (T:=Tracked T)) -> Environment -> G -> outcome (G * VmError) (G * Value)) : Prop :=
  forall w args1 args2 env, args_agree w args1 args2 -> agree w (f args1 env) (f args2 env).

Lemma respects_stx_balance : respects_args special_stx_balance.
Proof. walk_args special_stx_balance. Qed.
Lemma respects_consolidated w env from to n :
  agree w (fun g => stx_transfer_consolidated env g from to n) (fun g => stx_transfer_consolidated env g from to n).
Proof. intros g Hg. unfold stx_transfer_consolidated, charge_balance. repeat rel_step; eauto with walk. Qed.
Lemma respects_stx_transfer : respects_args special_stx_transfer.
Proof.
  intros w args1 args2 env Ha g Hg. unfold special_stx_transfer, stx_transfer_consolidated, charge_balance.
  repeat rel_step; eauto with walk.
Qed.
Lemma respects_stx_destroy cost register :
  (forall w g p n, within w g -> within w (register g p n)) -> respects_args (stx_destroy cost register).
Proof.
  intros Hreg w args1 args2 env Ha g Hg. unfold stx_destroy, charge_balance. repeat rel_step; eauto with walk.
Qed.
Lemma respects_mint_token : respects_args special_mint_token.
Proof. walk_args special_mint_token. Qed.
Lemma respects_transfer_token : respects_args special_transfer_token.
Proof. walk_args special_transfer_token. Qed.
Lemma respects_get_balance : respects_args special_get_balance.
Proof. walk_args special_get_balance. Qed.
Lemma respects_get_token_supply : respects_args special_get_token_supply.
Proof. walk_args special_get_token_supply. Qed.
Lemma respects_ft_destroy cost a b c register :
  (forall w g p n i, within w g -> within w (register g p n i)) -> respects_args (ft_destroy cost a b c register).
Proof. intros Hreg. walk_args ft_destroy. Qed.
Lemma respects_mint_asset size : respects_args (mint_asset size).
Proof. walk_args mint_asset. Qed.
Lemma respects_transfer_asset size : respects_args (transfer_asset size).
Proof. walk_args transfer_asset. Qed.
Lemma respects_get_owner size : respects_args (get_owner size).
Proof. walk_args get_owner. Qed.
Lemma respects_burn_asset size : respects_args (burn_asset size).
Proof. walk_args burn_asset. Qed.
Lemma respects_withdraw_asset : respects_args special_withdraw_asset.
Proof. walk_args special_withdraw_asset. Qed.

Lemma respects_switch f1 f2 : respects_args f1 -> respects_args f2 -> respects_args (switch_on_global_epoch f1 f2).
Proof.
  intros H1 H2 w args1 args2 env Ha g Hg. unfold switch_on_global_epoch.
  destruct (StacksEpochId_try_from _) as [[]|]; [apply rel_panic|by apply H1|by apply H2|apply rel_panic].
Qed.
End assets_respect.

#[export] Hint Resolve respects_stx_balance respects_stx_transfer respects_mint_token respects_transfer_token
  respects_get_balance respects_get_token_supply respects_mint_asset respects_transfer_asset respects_get_owner
  respects_burn_asset respects_withdraw_asset respects_switch : walk.

(** * Special functions *)
(** The cost input of a native function fails for good. *)
Definition callable_ok (f : CallableType) : Prop :=
  match f with
  | NativeFunction205 _ _ _ cost_input_handle =>
      forall args e, cost_input_handle args = Err e -> passes e = false
  | _ => True
  end.

Lemma cost_input_ok (args : list Value) (e : VmError) : cost_input_sized_vararg args = Err e -> passes e = false.
Proof.
  unfold cost_input_sized_vararg. generalize 0. induction args as [|v args IH]; intros sum; [done|]. cbn [try_fold].
  unfold serialized_size. destruct (serialize_write v); cbn [out_bind expect]; try done.
  destruct (checked u32_ty _); cbn [out_bind expect_some]; [|done]. unfold cost_overflow_add.
  destruct (checked_add _ _ _); cbn [ok_or map_err out_bind]; [apply IH|by intros [= <-]].
Qed.

Lemma native_callable_ok {D : Digests} {Q : IntegerSquareRoot} (f : NativeFunctions) : callable_ok (native_callable f).
Proof. destruct f; simpl; try done; apply cost_input_ok. Qed.

Section specials.
Context {O : HashOrder} {D : Digests} {J : SerdeJson} {N : HeadersDB} {Q : IntegerSquareRoot} {K : LibSecp256k1}.
Context {C S T : Type} `{Sqlite C} `{!ClarityBackingStore C S} `{!CostTracker T} `{!Host S T}.
Context `{!MemoryLaws T} `{!HostLaws S T} {W : Type} {DW : Discipline (S:=S) (T:=T) W}.
Notation G := (GlobalContext S (Tracked T)).
Notation M := (M (S:=S) (T:=T)).
Implicit Types (w : W) (g : G).

Lemma agree_count_is {A : Type} w n (args : list A) : agree w (count_is n args) (count_is n args).
Proof. intros g Hg. eapply rel_bind; [by apply rel_count|]. intros. by apply rel_ok. Qed.
Lemma agree_count_at_least {A : Type} w n (args : list A) : agree w (count_at_least n args) (count_at_least n args).
Proof. unfold count_at_least, check_failed. case_match; auto with walk. Qed.
Lemma agree_nth_arg w args i : agree w (nth_arg args i) (nth_arg args i).
Proof. apply agree_lift. Qed.
Lemma agree_atom_or w e x : agree w (atom_or e x) (atom_or e x).
Proof. apply agree_lift. Qed.
Lemma agree_check_failed {A : Type} w e : agree (A:=A) w (check_failed e) (check_failed e).
Proof. apply agree_raise. Qed.
Lemma agree_type_error w t v : agree w (type_error t v) (type_error t v).
Proof. apply agree_raise. Qed.
Lemma agree_contract_or_missing w c : agree w (contract_or_missing c) (contract_or_missing c).
Proof. apply agree_query. Qed.
Lemma agree_cost_input_add w a b : agree w (cost_input_add a b) (cost_input_add a b).
Proof. apply agree_lift. Qed.
Lemma agree_buffer_of w n t v : agree w (buffer_of n t v) (buffer_of n t v).
Proof. unfold buffer_of. repeat case_match; auto using agree_check_failed with walk. Qed.
Lemma agree_print w c v :
  agree w (update (fun g => Ok (register_print_event g c v))) (update (fun g => Ok (register_print_event g c v))).
Proof. apply agree_update. intros g Hg. apply rel_ok. by apply within_event. Qed.

Lemma agree_m_map {A B : Type} w (f1 f2 : A -> M B) (xs : list A) :
  (forall x, agree w (f1 x) (f2 x)) -> agree w (m_map f1 xs) (m_map f2 xs).
Proof.
  intros Hf. induction xs as [|x xs IH]; cbn [m_map]; [apply agree_ret|].
  apply agree_bind; [done|]. intros y. apply agree_bind; [done|]. intros. apply agree_ret.
Qed.
Lemma agree_m_fold {A B : Type} w (f1 f2 : A -> B -> M A) (xs : list B) (acc : A) :
  (forall a x, agree w (f1 a x) (f2 a x)) -> agree w (m_fold f1 acc xs) (m_fold f2 acc xs).
Proof.
  intros Hf. revert acc. induction xs as [|x xs IH]; intros acc; cbn [m_fold]; [apply agree_ret|].
  apply agree_bind; [done|]. intros. apply IH.
Qed.

(** A looked-up function is fit to be applied. *)
Lemma agree_lookup_function {B : Type} w name env (k1 k2 : CallableType -> M B) :
  (forall f, callable_ok f -> agree w (k1 f) (k2 f)) ->
  agree w (m_bind (lookup_function name env) k1) (m_bind (lookup_function name env) k2).
Proof.
  intros Hk g Hg. unfold m_bind. eapply (rel_bind w (fun x => within w (fst x) /\ callable_ok (snd x))).
  - unfold lookup_function. eapply rel_bind; [by apply agree_cost|]. intros [g' u] Hg'. unfold lookup_reserved_functions.
    destruct (NativeFn.lookup_by_name name); [apply rel_ok; eauto using native_callable_ok|].
    destruct (lookup_defined_function _ _); [by apply rel_ok|by apply rel_err].
  - intros [g' f] [Hg' Hf]. by apply Hk.
Qed.
End specials.

#[export] Hint Resolve agree_count_is agree_count_at_least agree_nth_arg agree_atom_or agree_check_failed agree_type_error
  agree_contract_or_missing agree_cost_input_add agree_buffer_of agree_print agree_m_map agree_m_fold : walk.

(** One step through a computation. *)
Ltac agree_step :=
  lazymatch goal with
  | |- agree _ (m_bind (lookup_function _ _) _) _ => apply agree_lookup_function; intros ? ?
  | |- agree _ (m_bind _ _) _ => apply agree_bind; [solve [eauto with walk | repeat agree_step; eauto with walk] | intros ?; cbn beta iota zeta]
  | |- agree _ (if ?b then _ else _) _ => destruct b
  | |- agree _ (match ?x with _ => _ end) _ => destruct x
  end.
Ltac agree_walk := repeat agree_step; eauto with walk.

(** The type of a value is never an error. *)
Lemma type_of_no_error {E : Type} (v : Value) : type_of (E:=E) v = Panic \/ exists t, type_of (E:=E) v = Ok t.
Proof.
  revert v. fix IH 1.
  assert (forall (E' A : Type) (m : outcome E' A), expect (F:=E) m = Panic \/ exists a, expect (F:=E) m = Ok a) as He
    by (intros ? ? []; simpl; eauto).
  intros [| | |[data|l|[data|data]]| | |[v|]|committed v]; cbn [type_of]; eauto;
    try (destruct (IH v) as [->|[t ->]]; [by left|]; cbn [out_bind]);
    unfold OptionalData_type_signature, ResponseData_type_signature;
    match goal with |- context [expect ?m] => destruct (He _ _ m) as [->|[a ->]] end; cbn [out_bind]; eauto.
Qed.

Section knot.
Context {O : HashOrder} {D : Digests} {J : SerdeJson} {N : HeadersDB} {Q : IntegerSquareRoot} {K : LibSecp256k1}.
Context {C S T : Type} `{Sqlite C} `{!ClarityBackingStore C S} `{!CostTracker T} `{!Host S T}.
Context `{!MemoryLaws T} `{!HostLaws S T} {W : Type} {DW : Discipline (S:=S) (T:=T) W}.
Notation G := (GlobalContext S (Tracked T)).
Notation M := (M (S:=S) (T:=T)).
Implicit Types (w : W) (g : G) (args : list SymbolicExpression) (env : Environment) (context : LocalContext).

(** Two evaluators and two appliers that agree in the worlds of [U]. *)
Context (eval1 eval2 : SymbolicExpression -> Environment -> LocalContext -> M Value).
Context (apply1 apply2 : CallableType -> list SymbolicExpression -> Environment -> LocalContext -> M Value).
Context (U : W -> Prop) (Hup : forall w w', U w -> under w w' -> U w').
Context (Heval : forall w e env context, U w -> agree w (eval1 e env context) (eval2 e env context)).
Context (Happly : forall w f args env context, U w -> callable_ok f ->
  agree w (apply1 f args env context) (apply2 f args env context)).

Hint Resolve Heval Happly : walk.

Lemma agree_eval_nth w args i env context : U w -> agree w (eval_nth eval1 args i env context) (eval_nth eval2 args i env context).
Proof. intros Hw. unfold eval_nth. agree_walk. Qed.
Hint Resolve agree_eval_nth : walk.

Lemma respects_print w args env context : U w -> agree w (special_print eval1 args env context) (special_print eval2 args env context).
Proof. intros Hw. unfold special_print. agree_walk. Qed.
Lemma respects_if w args env context : U w -> agree w (special_if eval1 args env context) (special_if eval2 args env context).
Proof. intros Hw. unfold special_if. agree_walk. Qed.
Lemma respects_asserts w args env context : U w -> agree w (special_asserts eval1 args env context) (special_asserts eval2 args env context).
Proof. intros Hw. unfold special_asserts. agree_walk. Qed.

(** A list of bindings ends in the world, or with the error that left it. *)
Definition bound {A : Type} w (x : G * (A * outcome VmError unit)) : Prop :=
  match snd (snd x) with Ok _ => within w (fst x) | Err e => failed w (fst x) e | Panic => True end.

Lemma rel_binding_list {A : Type} w (h1 h2 : A -> string -> SymbolicExpression -> M A) bindings acc g :
  (forall acc n e, agree w (h1 acc n e) (h2 acc n e)) -> within w g ->
  rel w (bound w) (handle_binding_list h1 acc bindings g) (handle_binding_list h2 acc bindings g).
Proof.
  intros Hh. revert acc g. induction bindings as [|b bindings IH]; intros acc g Hg; cbn [handle_binding_list]; [by apply rel_ok|].
  unfold m_bind at 1 3. eapply rel_bind.
  - apply rel_attempt. revert g Hg. change (agree w
      (m_bind (lift (ok_or (Unchecked CheckErr.BadSyntaxBinding) (match_list b))) (fun binding_expression =>
        match binding_expression with
        | [name; var_sexp] => m_bind (atom_or CheckErr.BadSyntaxBinding name) (fun var_name => h1 acc var_name var_sexp)
        | _ => check_failed CheckErr.BadSyntaxBinding
        end))
      (m_bind (lift (ok_or (Unchecked CheckErr.BadSyntaxBinding) (match_list b))) (fun binding_expression =>
        match binding_expression with
        | [name; var_sexp] => m_bind (atom_or CheckErr.BadSyntaxBinding name) (fun var_name => h2 acc var_name var_sexp)
        | _ => check_failed CheckErr.BadSyntaxBinding
        end))). agree_walk.
  - intros [g' [acc'|e|]] Hg'; [by apply IH|by apply rel_ok|apply rel_panic].
Qed.

Lemma agree_parse_eval_bindings w bindings env context :
  U w -> agree w (parse_eval_bindings eval1 bindings env context) (parse_eval_bindings eval2 bindings env context).
Proof.
  intros Hw g Hg. unfold parse_eval_bindings. unfold m_bind at 1 4. eapply rel_bind; [apply rel_binding_list; [|done]|].
  - intros. agree_walk.
  - intros [g' [result [u|e|]]] Hr; [by apply rel_ok|by split|apply rel_panic].
Qed.

Lemma agree_let_binding w env st n e : U w -> agree w (let_binding eval1 env st n e) (let_binding eval2 env st n e).
Proof. intros Hw. unfold let_binding. agree_walk. Qed.

Lemma agree_let_bodies w bodies env context last :
  U w -> agree w (let_bodies eval1 bodies env context last) (let_bodies eval2 bodies env context last).
Proof.
  intros Hw. revert last. induction bodies as [|b bodies IH]; intros last; cbn [let_bodies]; [auto with walk|].
  apply agree_bind; auto.
Qed.

Lemma respects_let w args env context : U w -> agree w (special_let eval1 args env context) (special_let eval2 args env context).
Proof.
  intros Hw. unfold special_let. do 5 (apply agree_bind; [solve [auto with walk]|intros ?]). intros g Hg.
  eapply rel_bind; [apply rel_binding_list; [|done]|].
  - intros. by apply agree_let_binding.
  - intros [g' [[inner mem] r]] Hr. apply rel_finally_free. destruct r as [u|e|]; [|by split|apply rel_panic].
    by apply agree_let_bodies.
Qed.

Lemma respects_as_contract w args env context :
  U w -> agree w (special_as_contract eval1 args env context) (special_as_contract eval2 args env context).
Proof. intros Hw. unfold special_as_contract. agree_walk. Qed.
Lemma respects_contract_of w args env context : agree w (special_contract_of args env context) (special_contract_of args env context).
Proof. unfold special_contract_of. agree_walk. Qed.

Lemma agree_bool_loop w stop args env context : U w -> agree w (bool_loop eval1 stop args env context) (bool_loop eval2 stop args env context).
Proof. intros Hw. induction args as [|a args IH]; cbn [bool_loop]; agree_walk. Qed.
Hint Resolve agree_bool_loop agree_parse_eval_bindings : walk.
Lemma respects_or w args env context : U w -> agree w (special_or eval1 args env context) (special_or eval2 args env context).
Proof. intros Hw. unfold special_or. agree_walk. Qed.
Lemma respects_and w args env context : U w -> agree w (special_and eval1 args env context) (special_and eval2 args env context).
Proof. intros Hw. unfold special_and. agree_walk. Qed.

Lemma agree_new_binding w body n v env context :
  U w -> agree w (eval_with_new_binding eval1 body n v env context) (eval_with_new_binding eval2 body n v env context).
Proof. intros Hw. unfold eval_with_new_binding. agree_walk. Qed.
Hint Resolve agree_new_binding : walk.
Lemma respects_match w args env context : U w -> agree w (special_match eval1 args env context) (special_match eval2 args env context).
Proof. intros Hw. unfold special_match, special_match_opt, special_match_resp. agree_walk. Qed.

(** ** Sequences *)
Lemma respects_list_cons w args env context : U w -> agree w (list_cons eval1 args env context) (list_cons eval2 args env context).
Proof. intros Hw. unfold list_cons. agree_walk. Qed.

Lemma rel_drain_filter {A : Type} w (to_value : A -> outcome (G * VmError) Value) f env context fuel i data g :
  (forall x, match to_value x with Err _ => False | _ => True end) -> U w -> callable_ok f -> within w g ->
  rel w (fun x => within w (snd x))
    (drain_filter to_value (filter_item apply1 f env context) fuel i data g)
    (drain_filter to_value (filter_item apply2 f env context) fuel i data g).
Proof.
  intros Hv Hw Hf. revert i data g. induction fuel as [|fuel IH]; intros i data g Hg; cbn [drain_filter].
  - destruct (Nat.eqb _ _); [by apply rel_ok|apply rel_panic].
  - destruct (Nat.eqb _ _); [by apply rel_ok|]. eapply rel_bind; [apply rel_expect_some|]. intros x _.
    pose proof (Hv x) as Hx. destruct (to_value x) as [v| |]; [|done|apply rel_panic]. cbn [out_bind].
    eapply (rel_bind w (fun y => within w (snd y))).
    + unfold filter_item. eapply rel_bind; [by apply Happly|]. intros [g' r] Hg'. destruct r; try (by apply rel_err). by apply rel_ok.
    + intros [[] g'] Hg'; by apply IH.
Qed.
Lemma respects_filter w args env context :
  U w -> agree w (special_filter eval1 apply1 args env context) (special_filter eval2 apply2 args env context).
Proof.
  intros Hw. unfold special_filter. do 4 (apply agree_bind; [solve [auto with walk]|intros ?]).
  apply agree_bind; [solve [auto with walk]|intros sequence]. apply agree_lookup_function. intros f Hf.
  destruct sequence as [| | | |s| | |]; auto with walk. intros g Hg.
  eapply (rel_bind w (fun x => within w (snd x))); [|intros [s' g'] Hg'; by apply rel_ok]. unfold SequenceData_filter.
  destruct s as [data|l|[data|data]]; (eapply rel_bind; [apply rel_drain_filter; auto|intros [d g'] Hg'; by apply rel_ok]);
    intros x; unfold buff_item, ascii_item, utf8_item, expect; by repeat case_match.
Qed.
Lemma respects_fold w args env context :
  U w -> agree w (special_fold eval1 apply1 args env context) (special_fold eval2 apply2 args env context).
Proof. intros Hw. unfold special_fold. agree_walk. Qed.

Lemma agree_map_rows w args env context n rows :
  U w -> agree w (map_rows eval1 args env context n rows) (map_rows eval2 args env context n rows).
Proof. intros Hw. revert n rows. induction args as [|a args IH]; intros n rows; cbn [map_rows]; agree_walk. Qed.
Lemma agree_map_apply w f rows prev env context :
  U w -> callable_ok f -> agree w (map_apply apply1 f rows prev env context) (map_apply apply2 f rows prev env context).
Proof. intros Hw Hf. revert prev. induction rows as [|r rows IH]; intros prev; cbn [map_apply]; agree_walk. Qed.
Hint Resolve agree_map_rows agree_map_apply : walk.
Lemma respects_map w args env context :
  U w -> agree w (special_map eval1 apply1 args env context) (special_map eval2 apply2 args env context).
Proof. intros Hw. unfold special_map. agree_walk. Qed.
Lemma respects_append w args env context : U w -> agree w (special_append eval1 args env context) (special_append eval2 args env context).
Proof. intros Hw. unfold special_append. agree_walk. Qed.

Lemma agree_switch_epoch w f1 f2 h1 h2 args env context :
  agree w (f1 args env context) (f2 args env context) -> agree w (h1 args env context) (h2 args env context) ->
  agree w (switch_epoch f1 h1 args env context) (switch_epoch f2 h2 args env context).
Proof.
  intros Hf Hh g Hg. unfold switch_epoch, switch_on_global_epoch.
  destruct (StacksEpochId_try_from _) as [[]|]; [apply rel_panic|by apply Hf|by apply Hh|apply rel_panic].
Qed.
Lemma respects_concat w args env context : U w -> agree w (special_concat eval1 args env context) (special_concat eval2 args env context).
Proof. intros Hw. apply agree_switch_epoch; unfold special_concat_v200, special_concat_v205; agree_walk. Qed.
Lemma respects_as_max_len w args env context :
  U w -> agree w (special_as_max_len eval1 args env context) (special_as_max_len eval2 args env context).
Proof. intros Hw. unfold special_as_max_len. agree_walk. Qed.

(** ** Tuples and cryptography *)
Lemma respects_tuple_cons w args env context : U w -> agree w (tuple_cons eval1 args env context) (tuple_cons eval2 args env context).
Proof. intros Hw. unfold tuple_cons. agree_walk. Qed.
Lemma respects_tuple_get w args env context : U w -> agree w (tuple_get eval1 args env context) (tuple_get eval2 args env context).
Proof. intros Hw. unfold tuple_get. agree_walk. Qed.
Lemma respects_principal_of w args env context :
  U w -> agree w (special_principal_of eval1 args env context) (special_principal_of eval2 args env context).
Proof. intros Hw. unfold special_principal_of. agree_walk. Qed.
Lemma respects_recover w args env context :
  U w -> agree w (special_secp256k1_recover eval1 args env context) (special_secp256k1_recover eval2 args env context).
Proof. intros Hw. unfold special_secp256k1_recover. agree_walk. Qed.
Lemma respects_verify w args env context :
  U w -> agree w (special_secp256k1_verify eval1 args env context) (special_secp256k1_verify eval2 args env context).
Proof. intros Hw. unfold special_secp256k1_verify. agree_walk. Qed.

(** ** Data *)
Lemma agree_attempt_query {A : Type} w (f : RollbackWrapper S -> outcome VmError A) : agree w (attempt (query f)) (attempt (query f)).
Proof. intros g Hg. split; [done|]. unfold attempt, query, lift. by destruct (f (database g)). Qed.
Lemma agree_attempt_update_db {A : Type} w (f : RollbackWrapper S -> outcome VmError (A * RollbackWrapper S)) :
  (forall db a db', f db = Ok (a, db') -> edits db db') -> agree w (attempt (update_db f)) (attempt (update_db f)).
Proof.
  intros Hf g Hg. destruct (agree_update_db w f Hf g Hg) as [_ Hr]. split; [done|]. unfold attempt, update_db in *.
  destruct (f (database g)) as [[a db]|e|]; auto.
Qed.
Lemma agree_check_writable w : agree w check_writable check_writable.
Proof. intros g Hg. unfold check_writable. destruct (is_read_only g); [by apply rel_err|by apply rel_ok]. Qed.
Lemma agree_name_arg w args i : agree w (name_arg args i) (name_arg args i).
Proof. unfold name_arg. agree_walk. Qed.
Lemma agree_var_descriptor w env n : agree w (var_descriptor env n) (var_descriptor env n).
Proof. apply agree_lift. Qed.
Lemma agree_map_descriptor w env n : agree w (map_descriptor env n) (map_descriptor env n).
Proof. apply agree_lift. Qed.
Lemma agree_result_size w r o : agree w (result_size r o) (result_size r o).
Proof. unfold result_size. agree_walk. Qed.
Lemma agree_result_value w r : agree w (result_value r) (result_value r).
Proof. apply agree_lift. Qed.
Hint Resolve agree_attempt_query agree_check_writable agree_name_arg agree_var_descriptor agree_map_descriptor agree_result_size
  agree_result_value : walk.
Lemma agree_charge_result w r f o : agree w (charge_result r f o) (charge_result r f o).
Proof. unfold charge_result. agree_walk. Qed.
Hint Resolve agree_charge_result : walk.
Hint Extern 2 (agree _ (update_db _) _) => apply agree_update_db; eauto with walk : walk.
Hint Extern 2 (agree _ (attempt (update_db _)) _) => apply agree_attempt_update_db; eauto with walk : walk.

Lemma respects_fetch_variable w args env context : agree w (special_fetch_variable args env context) (special_fetch_variable args env context).
Proof. apply agree_switch_epoch; unfold special_fetch_variable_v200, special_fetch_variable_v205; agree_walk. Qed.
Lemma respects_set_variable w args env context :
  U w -> agree w (special_set_variable eval1 args env context) (special_set_variable eval2 args env context).
Proof. intros Hw. apply agree_switch_epoch; unfold special_set_variable_v200, special_set_variable_v205; agree_walk. Qed.
Lemma respects_fetch_entry w args env context :
  U w -> agree w (special_fetch_entry eval1 args env context) (special_fetch_entry eval2 args env context).
Proof. intros Hw. apply agree_switch_epoch; unfold special_fetch_entry_v200, special_fetch_entry_v205; agree_walk. Qed.
Lemma respects_set_entry w args env context :
  U w -> agree w (special_set_entry eval1 args env context) (special_set_entry eval2 args env context).
Proof.
  intros Hw. apply agree_switch_epoch; unfold special_set_entry_v200, special_set_entry_v205, put_entry_v200, put_entry_v205; agree_walk.
Qed.
Lemma respects_insert_entry w args env context :
  U w -> agree w (special_insert_entry eval1 args env context) (special_insert_entry eval2 args env context).
Proof.
  intros Hw. apply agree_switch_epoch; unfold special_insert_entry_v200, special_insert_entry_v205, put_entry_v200, put_entry_v205;
    agree_walk.
Qed.
Lemma respects_delete_entry w args env context :
  U w -> agree w (special_delete_entry eval1 args env context) (special_delete_entry eval2 args env context).
Proof. intros Hw. apply agree_switch_epoch; unfold special_delete_entry_v200, special_delete_entry_v205; agree_walk. Qed.
Lemma respects_get_block_info w args env context :
  U w -> agree w (special_get_block_info eval1 args env context) (special_get_block_info eval2 args env context).
Proof. intros Hw. unfold special_get_block_info. agree_walk. Qed.

(** ** Blocks *)
(** The evaluation of a closure at another block. *)
Definition shifted (ev : SymbolicExpression -> Environment -> LocalContext -> M Value) bhh e env context : M Value :=
  let! prior_bhh := update_db (fun db => set_block_hash db bhh false) in
  let! result := attempt (ev e env context) in
  let! _ := update_db (fun db => expect (set_block_hash db prior_bhh true)) in
  lift result.
Lemma agree_shifted w bhh e env context : U w -> agree w (shifted eval1 bhh e env context) (shifted eval2 bhh e env context).
Proof.
  intros Hw g Hg. unfold shifted, m_bind, update_db.
  destruct (set_block_hash (database g) bhh false) as [[prior db]|e'|] eqn:Eb; cbn [out_bind]; [|by apply rel_err|apply rel_panic].
  destruct (enter_block w _ bhh prior db Hg Eb) as (w2 & Hu2 & Hin2 & Hok & Hfail).
  destruct (Heval w2 e env context ltac:(eauto) _ Hin2) as [Heq Hr]. unfold attempt. rewrite <-Heq. split; [done|].
  destruct (eval1 e env context _) as [[g2 v]|[g2 e2]|]; cbn [out_bind]; [| |done];
    (destruct (set_block_hash (database g2) prior true) as [[x db']| |] eqn:Eb'; cbn [expect out_bind]; [|done..]).
  - by eapply Hok.
  - by eapply Hfail.
Qed.
Lemma agree_at_block w bhh e env context :
  U w -> agree w (evaluate_at_block eval1 bhh e env context) (evaluate_at_block eval2 bhh e env context).
Proof.
  intros Hw g Hg. destruct (enter_frame w g true Hg) as (w1 & Hu1 & Hin1 & Hback & Hfback & _ & _).
  change (begin_with g true) with (begin_read_only g) in Hin1.
  destruct (agree_shifted w1 bhh e env context ltac:(eauto) _ Hin1) as [Heq Hr].
  assert (forall ev, evaluate_at_block ev bhh e env context g =
    match shifted ev bhh e env context (begin_read_only g) with
    | Ok (g, v) => let? g := roll_back g in Ok (g, v)
    | Err (g, err) => let? g := roll_back g in Err (g, err)
    | Panic => Panic
    end) as Hrun.
  { intros ev. unfold evaluate_at_block. unfold m_bind at 1, update at 1. cbn [out_bind]. unfold m_bind at 1, attempt at 1.
    change (m_bind (update_db (fun db => set_block_hash db bhh false)) _) with (shifted ev bhh e env context).
    destruct (shifted ev bhh e env context (begin_read_only g)) as [[g1 v]|[g1 e1]|]; cbn [out_bind]; try done;
      unfold m_bind, update; by destruct (roll_back g1). }
  rewrite !Hrun, <-Heq. split; [done|]. destruct (shifted _ _ _ _ _ _) as [[g1 v]|[g1 e1]|]; [| |done].
  - specialize (Hback g1 Hr). destruct (roll_back_cases g1) as [E|[g' E]]; by rewrite E in *.
  - specialize (Hfback g1 e1 Hr). destruct (roll_back_cases g1) as [E|[g' E]]; by rewrite E in *.
Qed.
Hint Resolve agree_at_block : walk.
Lemma respects_at_block w args env context :
  U w -> agree w (special_at_block eval1 args env context) (special_at_block eval2 args env context).
Proof. intros Hw. unfold special_at_block. agree_walk. Qed.

(** ** Functions *)
Lemma agree_charge_types w types : agree w (charge_types types) (charge_types types).
Proof. induction types as [|t types IH]; cbn [charge_types]; agree_walk. Qed.
Hint Resolve agree_charge_types : walk.
Lemma agree_catch_return w m1 m2 : agree w m1 m2 -> agree w (catch_return m1) (catch_return m2).
Proof.
  intros Hm g Hg. destruct (Hm g Hg) as [Heq Hr]. unfold catch_return. rewrite <-Heq. split; [done|].
  destruct (m1 g) as [[g' v]|[g' []]|]; try done. by eapply failed_return.
Qed.
Hint Resolve agree_catch_return : walk.
Lemma agree_execute_apply w f (args : list Value) env : U w -> agree w (execute_apply eval1 f args env) (execute_apply eval2 f args env).
Proof. intros Hw. unfold execute_apply. agree_walk. Qed.

Lemma agree_transaction w ro m1 m2 :
  (forall w', under w w' -> agree w' m1 m2) ->
  agree w (fun g => execute_function_as_transaction g ro m1) (fun g => execute_function_as_transaction g ro m2).
Proof.
  intros Hm g Hg. unfold execute_function_as_transaction.
  assert ((if ro then begin_read_only g else begin g) = begin_with g (if ro then true else is_read_only g)) as -> by (by destruct ro).
  destruct (enter_frame w g (if ro then true else is_read_only g) Hg) as (w1 & Hu1 & Hin1 & Hback & Hfback & Hcommit & Hmust).
  destruct (Hm w1 Hu1 _ Hin1) as [Heq Hr]. rewrite <-Heq. split; [done|].
  destruct (m1 _) as [[g1 v]|[g1 e1]|]; [| |by destruct ro].
  - pose proof (Hback g1 Hr) as Hb. assert (match (let? g' := roll_back g1 in Ok (g', v)) with
      | Ok a => inside w a | Err (g', e) => failed w g' e | Panic => True end) as Hrb
      by (destruct (roll_back_cases g1) as [E|[g' E]]; by rewrite E in *).
    destruct ro; [done|]. unfold handle_tx_result.
    assert (match (let? ty := type_of v in Err (g1, Unchecked (CheckErr.PublicFunctionMustReturnResponse ty))) with
      | Ok a => inside (A:=Value) w a | Err (g', e) => failed w g' e | Panic => True end) as Hplain.
    { destruct (type_of_no_error (E:=G * VmError) v) as [E|[t E]]; rewrite E; cbn [out_bind]; [done|]. by apply Hmust. }
    destruct v as [| | | | | | |committed data]; try done. destruct committed; [|done].
    specialize (Hcommit g1 Hr). by destruct (context_commit g1) as [[g' x]|[g' e']|].
  - specialize (Hfback g1 e1 Hr). assert (match (let? g' := roll_back g1 in Err (g', e1)) with
      | Ok a => inside (A:=Value) w a | Err (g', e) => failed w g' e | Panic => True end) as Hrb
      by (destruct (roll_back_cases g1) as [E|[g' E]]; by rewrite E in *).
    by destruct ro.
Qed.

Lemma agree_run_function w f (args : list Value) c env : U w -> agree w (run_function eval1 f args c env) (run_function eval2 f args c env).
Proof. intros Hw. apply agree_transaction. intros w' Hu. apply agree_execute_apply. eauto. Qed.
Lemma agree_function_apply w f (args : list Value) env :
  U w -> agree w (DefinedFunction_apply eval1 f args env) (DefinedFunction_apply eval2 f args env).
Proof. intros Hw. unfold DefinedFunction_apply. destruct (df_define_type f); auto using agree_run_function, agree_execute_apply. Qed.

(** ** Contract calls *)
Lemma agree_special_case w c n v env : agree w (run_special_case c n v env) (run_special_case c n v env).
Proof.
  intros g Hg. split; [done|]. unfold run_special_case.
  destruct (get_cc_special_cases_handler (store (database g))) as [handler|] eqn:Eh; [|done].
  pose proof (handler_steps g handler (env_sender env) c n v Eh) as Hs.
  destruct (handler _ _ _ _ _) as [g'|[g' e]|]; [|apply within_failed|done]; by eapply within_steps.
Qed.
Hint Resolve agree_special_case : walk.

(** Between a push and a pop of the call stack. *)
Lemma agree_bracket {A : Type} w id track (m1 m2 : M A) g :
  within w g -> (track = true -> CallStack_contains (call_stack g) id = false) ->
  (forall w', under w w' -> (CallStack_depth (call_stack g) < MAX_CALL_STACK_DEPTH -> called w w') -> agree w' m1 m2) ->
  rel w (inside w)
    (m_bind (push_call id track) (fun _ => m_bind (attempt m1) (fun r => m_bind (pop_call id track) (fun _ => lift r))) g)
    (m_bind (push_call id track) (fun _ => m_bind (attempt m2) (fun r => m_bind (pop_call id track) (fun _ => lift r))) g).
Proof.
  intros Hg Ht Hm. destruct (enter_call w g id track Hg Ht) as (w1 & Hu & Hc & Hin & Hpop & Hfpop & _).
  unfold m_bind, push_call. cbn [out_bind]. destruct (Hm w1 Hu Hc _ Hin) as [Heq Hr]. unfold attempt. rewrite <-Heq.
  split; [done|]. destruct (m1 _) as [[g1 v]|[g1 e1]|]; cbn [out_bind]; [| |done].
  - specialize (Hpop g1 Hr). by destruct (pop_call id track g1) as [[g' u]|[g' e']|].
  - specialize (Hfpop g1 e1 Hr). by destruct (pop_call id track g1) as [[g' u]|[g' e']|].
Qed.

Lemma agree_get_stack {A : Type} w (k1 k2 : CallStack -> M A) :
  (forall g, within w g -> rel w (inside w) (k1 (call_stack g) g) (k2 (call_stack g) g)) ->
  agree w (m_bind get_stack k1) (m_bind get_stack k2).
Proof. intros Hk g Hg. by apply Hk. Qed.

Lemma agree_called_function w id f (args : list Value) c env g cid n :
  U w -> within w g -> CallStack_contains (call_stack g) id = false ->
  rel w (inside w)
    (m_bind (push_call id true) (fun _ => m_bind (attempt (run_function eval1 f args c env)) (fun res =>
      m_bind (pop_call id true) (fun _ => m_bind (lift res) (fun value =>
      m_bind (run_special_case cid n value env) (fun _ => m_ret value))))) g)
    (m_bind (push_call id true) (fun _ => m_bind (attempt (run_function eval2 f args c env)) (fun res =>
      m_bind (pop_call id true) (fun _ => m_bind (lift res) (fun value =>
      m_bind (run_special_case cid n value env) (fun _ => m_ret value))))) g).
Proof.
  intros Hw Hg Hcs.
  assert (forall (m : M Value) (k : Value -> M Value),
    m_bind (push_call id true) (fun _ => m_bind (attempt m) (fun res => m_bind (pop_call id true) (fun _ => m_bind (lift res) k))) g =
    m_bind (m_bind (push_call id true) (fun _ => m_bind (attempt m) (fun res => m_bind (pop_call id true) (fun _ => lift res)))) k g) as Ha.
  { intros m k. unfold m_bind, push_call. cbn [out_bind]. destruct (attempt m _) as [[g1 r]| |]; cbn [out_bind]; [|done..].
    by destruct (pop_call id true g1) as [[g2 u]| |]. }
  rewrite !Ha. eapply rel_bind.
  - apply agree_bracket; [done|done|]. intros w' Hu _. apply agree_run_function. eauto.
  - intros [g1 v] Hg1. apply (agree_bind w _ _ (fun _ => m_ret v) (fun _ => m_ret v)); auto with walk.
Qed.

Lemma agree_execute_contract w c n args ro env : U w -> agree w (execute_contract eval1 c n args ro env) (execute_contract eval2 c n args ro env).
Proof.
  intros Hw. unfold execute_contract. do 3 (apply agree_bind; [solve [auto with walk]|intros ?]). apply agree_finally_free.
  apply agree_bind; [solve [auto with walk]|intros contract]. apply agree_bind; [solve [auto with walk]|intros func].
  destruct (negb _); [auto with walk|]. destruct (_ && _); [auto with walk|].
  apply agree_bind; [solve [auto with walk]|intros vs]. apply agree_get_stack. intros g Hg.
  destruct (CallStack_contains (call_stack g) (df_identifier func)) eqn:Ec; [by apply rel_err|].
  by apply agree_called_function.
Qed.
Hint Resolve agree_execute_contract : walk.

Lemma agree_run_free {A : Type} w (m1 m2 : M A) : agree w m1 m2 -> agree w (run_free m1) (run_free m2).
Proof.
  intros Hm g Hg. unfold run_free.
  destruct (Hm (set_tracker g (mkTracked free_tracker (call_stack g)))) as [Heq Hr]; [by eapply within_step, step_tracker|].
  rewrite <-Heq. split; [done|]. destruct (m1 _) as [[g1 a]|[g1 e]|]; [| |done].
  - by eapply within_step, step_tracker.
  - by apply failed_tracker.
Qed.
Hint Resolve agree_run_free : walk.
Lemma agree_short_circuits w c n sizes : agree w (short_circuits c n sizes) (short_circuits c n sizes).
Proof.
  intros g Hg. split; [done|]. unfold short_circuits. simpl.
  destruct (short_circuit_contract_call (tracked (cost_track g)) c n sizes) as [[t b]|[t e]|]; [|apply within_failed|done];
    by eapply within_step, step_tracker.
Qed.
Lemma agree_dispatch w r n env context : agree w (dynamic_dispatch r n env context) (dynamic_dispatch r n env context).
Proof.
  unfold dynamic_dispatch. agree_walk. apply agree_bind; [|intros ?; agree_walk].
  intros g Hg. destruct (is_read_only g); [by apply rel_err|by apply rel_ok].
Qed.
Hint Resolve agree_short_circuits agree_dispatch : walk.
Lemma respects_contract_call w args env context :
  U w -> agree w (special_contract_call eval1 args env context) (special_contract_call eval2 args env context).
Proof.
  intros Hw. unfold special_contract_call. do 3 (apply agree_bind; [solve [auto with walk]|intros ?]).
  apply agree_bind; [apply agree_m_map; intros; agree_walk|intros ?]. agree_walk.
Qed.
End knot.

(** * Application *)
Section application.
Context {O : HashOrder} {D : Digests} {J : SerdeJson} {N : HeadersDB} {Q : IntegerSquareRoot} {K : LibSecp256k1}.
Context {C S T : Type} `{Sqlite C} `{!ClarityBackingStore C S} `{!CostTracker T} `{!Host S T}.
Context `{!MemoryLaws T} `{!HostLaws S T} {W : Type} {DW : Discipline (S:=S) (T:=T) W}.
Notation G := (GlobalContext S (Tracked T)).
Notation M := (M (S:=S) (T:=T)).
Implicit Types (w : W) (g : G) (args : list SymbolicExpression) (env : Environment) (context : LocalContext).
Context (apply1 apply2 : CallableType -> list SymbolicExpression -> Environment -> LocalContext -> M Value).

(** The functions agree in [w] and in every world reached from it. *)
Definition knot_agrees w : Prop :=
  forall w', under w w' -> forall f args env context, callable_ok f ->
    agree w' (apply1 f args env context) (apply2 f args env context).

Lemma knot_agrees_under w w' : knot_agrees w -> under w w' -> knot_agrees w'.
Proof. intros Hk Hu w2 Hu2. apply Hk. pose proof under_order. by transitivity w'. Qed.

Lemma agree_reserved_variable w name env : agree w (lookup_reserved_variable name env) (lookup_reserved_variable name env).
Proof. unfold lookup_reserved_variable. agree_walk. Qed.
Lemma agree_lookup_name w name env context : agree w (lookup_name name env context) (lookup_name name env context).
Proof. unfold lookup_name. agree_walk. apply agree_bind; [apply agree_reserved_variable|]. intros. agree_walk. Qed.

Lemma agree_eval_with w e env context :
  knot_agrees w -> agree w (eval_with apply1 e env context) (eval_with apply2 e env context).
Proof.
  intros Hk. pose proof under_order. destruct e as [v|n|[|f rest]|v|t|n t]; cbn [eval_with]; auto with walk.
  - apply agree_lookup_name.
  - apply agree_bind; [auto with walk|]. intros name. apply agree_lookup_function. intros fn Hf. by apply Hk.
Qed.

Lemma agree_asset_function w f args env context :
  knot_agrees w -> respects_args f -> agree w (asset_function apply1 f args env context) (asset_function apply2 f args env context).
Proof.
  intros Hk Hf. apply Hf. unfold args_agree. induction args as [|a args IH]; simpl; constructor; [|done].
  split; [done|]. by apply agree_eval_with.
Qed.

(** The lemma of each special function. *)
Ltac special_case :=
  match goal with
  | |- respects_args special_stx_burn => apply respects_stx_destroy; intros; by apply within_event
  | |- respects_args special_stx_withdraw => apply respects_stx_destroy; intros; by apply within_event
  | |- respects_args special_burn_token => apply respects_ft_destroy; intros; by apply within_event
  | |- respects_args special_withdraw_token => apply respects_ft_destroy; intros; by apply within_event
  | |- respects_args special_mint_asset => apply respects_switch; apply respects_mint_asset
  | |- respects_args special_transfer_asset => apply respects_switch; apply respects_transfer_asset
  | |- respects_args special_get_owner => apply respects_switch; apply respects_get_owner
  | |- respects_args special_burn_asset => apply respects_switch; apply respects_burn_asset
  | |- respects_args _ => solve [eauto with walk]
  | |- agree _ (special_fetch_variable _ _ _) _ => apply respects_fetch_variable
  | |- agree _ (special_contract_of _ _ _) _ => apply respects_contract_of
  | |- agree _ (special_and _ _ _ _) _ => eapply respects_and with (U := knot_agrees); eauto
  | |- agree _ (special_or _ _ _ _) _ => eapply respects_or with (U := knot_agrees); eauto
  | |- agree _ (special_if _ _ _ _) _ => eapply respects_if with (U := knot_agrees); eauto
  | |- agree _ (special_let _ _ _ _) _ => eapply respects_let with (U := knot_agrees); eauto
  | |- agree _ (special_map _ _ _ _ _) _ => eapply respects_map with (U := knot_agrees); eauto
  | |- agree _ (special_filter _ _ _ _ _) _ => eapply respects_filter with (U := knot_agrees); eauto
  | |- agree _ (special_fold _ _ _ _ _) _ => eapply respects_fold with (U := knot_agrees); eauto
  | |- agree _ (special_append _ _ _ _) _ => eapply respects_append with (U := knot_agrees); eauto
  | |- agree _ (special_concat _ _ _ _) _ => eapply respects_concat with (U := knot_agrees); eauto
  | |- agree _ (special_as_max_len _ _ _ _) _ => eapply respects_as_max_len with (U := knot_agrees); eauto
  | |- agree _ (list_cons _ _ _ _) _ => eapply respects_list_cons with (U := knot_agrees); eauto
  | |- agree _ (special_set_variable _ _ _ _) _ => eapply respects_set_variable with (U := knot_agrees); eauto
  | |- agree _ (special_fetch_entry _ _ _ _) _ => eapply respects_fetch_entry with (U := knot_agrees); eauto
  | |- agree _ (special_set_entry _ _ _ _) _ => eapply respects_set_entry with (U := knot_agrees); eauto
  | |- agree _ (special_insert_entry _ _ _ _) _ => eapply respects_insert_entry with (U := knot_agrees); eauto
  | |- agree _ (special_delete_entry _ _ _ _) _ => eapply respects_delete_entry with (U := knot_agrees); eauto
  | |- agree _ (tuple_cons _ _ _ _) _ => eapply respects_tuple_cons with (U := knot_agrees); eauto
  | |- agree _ (tuple_get _ _ _ _) _ => eapply respects_tuple_get with (U := knot_agrees); eauto
  | |- agree _ (special_secp256k1_recover _ _ _ _) _ => eapply respects_recover with (U := knot_agrees); eauto
  | |- agree _ (special_secp256k1_verify _ _ _ _) _ => eapply respects_verify with (U := knot_agrees); eauto
  | |- agree _ (special_print _ _ _ _) _ => eapply respects_print with (U := knot_agrees); eauto
  | |- agree _ (special_contract_call _ _ _ _) _ => eapply respects_contract_call with (U := knot_agrees); eauto
  | |- agree _ (special_as_contract _ _ _ _) _ => eapply respects_as_contract with (U := knot_agrees); eauto
  | |- agree _ (special_principal_of _ _ _ _) _ => eapply respects_principal_of with (U := knot_agrees); eauto
  | |- agree _ (special_at_block _ _ _ _) _ => eapply respects_at_block with (U := knot_agrees); eauto
  | |- agree _ (special_get_block_info _ _ _ _) _ => eapply respects_get_block_info with (U := knot_agrees); eauto
  | |- agree _ (special_asserts _ _ _ _) _ => eapply respects_asserts with (U := knot_agrees); eauto
  | |- agree _ (special_match _ _ _ _) _ => eapply respects_match with (U := knot_agrees); eauto
  end.

Lemma agree_run_special w f args env context :
  knot_agrees w -> agree w (run_special apply1 f args env context) (run_special apply2 f args env context).
Proof.
  intros Hk. pose proof under_order as Hpre.
  assert (forall w w', knot_agrees w -> under w w' -> knot_agrees w') as Hup by apply knot_agrees_under.
  assert (forall w e env context, knot_agrees w -> agree w (eval_with apply1 e env context) (eval_with apply2 e env context)) as Hev
    by apply agree_eval_with.
  assert (forall w f args env context, knot_agrees w -> callable_ok f ->
    agree w (apply1 f args env context) (apply2 f args env context)) as Hap by (intros ????? Hk'; by apply Hk').
  destruct f; cbn [run_special]; try apply agree_lift;
    try (apply agree_asset_function; [done|]); special_case.
Qed.

(** The evaluation of arguments, in the world [w1] entered from [w]; an error
    leaves [w1]. *)
Lemma rel_eval_args w w1 args env context used g :
  knot_agrees w1 -> (forall g e, failed w1 g e -> failed w (with_stack g (decr_apply_depth (call_stack g))) e) -> within w1 g ->
  rel w (inside w1) (eval_args apply1 args env context used g) (eval_args apply2 args env context used g).
Proof.
  intros Hk Hdecr. revert used g. induction args as [|a args IH]; intros used g Hg; cbn [eval_args]; [by apply rel_ok|].
  set (arg ap := let! arg_value := eval_with ap a env context in let! arg_use := lift (Value_size arg_value) in
    let! _ := use_memory arg_use in m_ret (arg_value, arg_use)).
  assert (agree w1 (arg apply1) (arg apply2)) as Harg.
  { apply agree_bind; [by apply agree_eval_with|]. intros. agree_walk. }
  change (rel w (inside w1)
    (m_bind (attempt (arg apply1)) (fun r => match r with
      | Ok (arg_value, arg_use) => m_bind (eval_args apply1 args env context (used + arg_use)) (fun '(vs, n) => m_ret (arg_value :: vs, n))
      | Err e => m_bind (free_memory used) (fun _ => m_bind decr_depth (fun _ => raise e))
      | Panic => lift Panic end) g)
    (m_bind (attempt (arg apply2)) (fun r => match r with
      | Ok (arg_value, arg_use) => m_bind (eval_args apply2 args env context (used + arg_use)) (fun '(vs, n) => m_ret (arg_value :: vs, n))
      | Err e => m_bind (free_memory used) (fun _ => m_bind decr_depth (fun _ => raise e))
      | Panic => lift Panic end) g)).
  destruct (Harg g Hg) as [Heq Hr]. unfold m_bind at 1 5, attempt. rewrite <-Heq.
  destruct (arg apply1 g) as [[g1 [v n]]|[g1 e]|]; cbn [out_bind].
  - eapply rel_bind; [by apply IH|]. intros [g2 [vs m]] Hg2. by apply rel_ok.
  - split; [done|]. unfold m_bind. destruct (free_memory_cases used g1) as [->|[t ->]]; [done|]. cbn [out_bind decr_depth raise].
    by apply Hdecr, failed_tracker.
  - by split.
Qed.

Lemma agree_native_cost_input w h vs : agree w (native_cost_input h vs) (native_cost_input h vs).
Proof. intros g Hg. unfold native_cost_input. destruct (at_least_2_05 g); [by apply agree_lift|by apply rel_ok]. Qed.

Lemma m_bind_assoc {A B E : Type} (m : M A) (k : A -> M B) (l : B -> M E) g :
  m_bind (m_bind m k) l g = m_bind m (fun a => m_bind (k a) l) g.
Proof. unfold m_bind. by destruct (m g) as [[g' a]| |]. Qed.

(** Between a push and a pop, when memory is given back before the pop. *)
Lemma rel_applied w w1 id track used (m1 m2 : M Value) g :
  within w1 g -> agree w1 m1 m2 ->
  (forall g', within w1 g' -> match pop_call id track g' with
     | Ok (g', _) => within w g' | Err (g', e) => failed w g' e | Panic => True end) ->
  (forall g' e, failed w1 g' e -> match pop_call id track g' with
     | Ok (g', _) => failed w g' e | Err (g', e) => failed w g' e | Panic => True end) ->
  rel w (inside w)
    (m_bind (attempt m1) (fun resp => m_bind (free_memory used) (fun _ => m_bind (pop_call id track) (fun _ => lift resp))) g)
    (m_bind (attempt m2) (fun resp => m_bind (free_memory used) (fun _ => m_bind (pop_call id track) (fun _ => lift resp))) g).
Proof.
  intros Hg Hm Hpop Hfpop. destruct (Hm g Hg) as [Heq Hr]. unfold m_bind, attempt. rewrite <-Heq. split; [done|].
  destruct (m1 g) as [[g1 v]|[g1 e]|]; cbn [out_bind]; [| |done];
    (destruct (free_memory_cases used g1) as [->|[t ->]]; [done|]; cbn [out_bind]).
  - specialize (Hpop _ (within_step w1 g1 _ Hr (step_tracker g1 t))).
    by destruct (pop_call id track _) as [[g' u]|[g' e']|].
  - specialize (Hfpop _ e (failed_tracker w1 g1 e t Hr)). by destruct (pop_call id track _) as [[g' u]|[g' e']|].
Qed.

(** [apply] after the evaluation of the arguments. *)
Definition apply_values (ap : CallableType -> list SymbolicExpression -> Environment -> LocalContext -> M Value)
    (function : CallableType) (vs : list Value) (used : Z) env : M Value :=
  let identifier := get_identifier function in
  let track_recursion := is_user_function function in
  let! _ := push_call identifier track_recursion in
  let! resp :=
    match function with
    | NativeFunction _ function cost_function =>
        attempt (let! _ := cost cost_function (zlen vs) in lift (NativeHandle_apply function vs))
    | NativeFunction205 _ function cost_function cost_input_handle =>
        let! cost_input := native_cost_input cost_input_handle vs in
        attempt (let! _ := cost cost_function cost_input in lift (NativeHandle_apply function vs))
    | UserFunction function => attempt (DefinedFunction_apply (eval_with ap) function vs env)
    | SpecialFunction _ _ => lift Panic
    end in
  let! _ := free_memory used in
  let! _ := pop_call identifier track_recursion in
  lift resp.

(** A native function whose cost depends on the size of its arguments. *)
Lemma rel_sized_native w w1 name h c ci vs used g :
  callable_ok (NativeFunction205 name h c ci) -> within w1 g ->
  (forall g', within w1 g' -> match pop_call (new_native_function name) false g' with
     | Ok (g', _) => within w g' | Err (g', e) => failed w g' e | Panic => True end) ->
  (forall g' e, failed w1 g' e -> match pop_call (new_native_function name) false g' with
     | Ok (g', _) => failed w g' e | Err (g', e) => failed w g' e | Panic => True end) ->
  (forall g' e, within w1 g' -> passes e = false -> failed w g' e) ->
  let run := m_bind (m_bind (native_cost_input ci vs) (fun n => attempt (m_bind (cost c n) (fun _ => lift (NativeHandle_apply h vs)))))
    (fun resp => m_bind (free_memory used) (fun _ => m_bind (pop_call (new_native_function name) false) (fun _ => lift resp))) in
  rel w (inside w) (run g) (run g).
Proof.
  intros Hf Hg Hpop Hfpop Hearly run. subst run. pose proof (agree_native_cost_input w1 ci vs g Hg) as [_ Hn].
  split; [done|]. rewrite m_bind_assoc. unfold m_bind at 1.
  destruct (native_cost_input ci vs g) as [[g2 n]|[g2 e]|] eqn:En; cbn [out_bind]; [| |done].
  - apply (rel_applied w w1 _ false used (m_bind (cost c n) (fun _ => lift (NativeHandle_apply h vs)))
      (m_bind (cost c n) (fun _ => lift (NativeHandle_apply h vs))) g2 Hn ltac:(agree_walk) Hpop Hfpop).
  - unfold native_cost_input, lift in En. destruct (at_least_2_05 g); [|done].
    destruct (ci vs) as [|e'|] eqn:Ec; simplify_eq. apply Hearly; [done|]. by eapply Hf.
Qed.

Lemma rel_apply_values w f vs used env g :
  callable_ok f -> within w g -> CallStack_depth (call_stack g) < MAX_CALL_STACK_DEPTH ->
  (is_user_function f = true -> CallStack_contains (call_stack g) (get_identifier f) = false) ->
  (forall w', called w w' -> knot_agrees w') ->
  rel w (inside w) (apply_values apply1 f vs used env g) (apply_values apply2 f vs used env g).
Proof.
  intros Hf Hg Hd Ht Hk.
  destruct (enter_call w g (get_identifier f) (is_user_function f) Hg Ht) as (w1 & Hu & Hc & Hin & Hpop & Hfpop & Hearly).
  specialize (Hc Hd). specialize (Hk w1 Hc). destruct f as [f|name h c|name h c ci|name f].
  - apply (rel_applied w w1 (df_identifier f) true used (DefinedFunction_apply (eval_with apply1) f vs env)
      (DefinedFunction_apply (eval_with apply2) f vs env)); auto.
    eapply agree_function_apply with (U := knot_agrees); eauto using knot_agrees_under, agree_eval_with.
  - apply (rel_applied w w1 (new_native_function name) false used (m_bind (cost c (zlen vs)) (fun _ => lift (NativeHandle_apply h vs)))
      (m_bind (cost c (zlen vs)) (fun _ => lift (NativeHandle_apply h vs)))); auto. agree_walk.
  - apply (rel_sized_native w w1 name h c ci vs used); auto.
  - by split.
Qed.

(** The application of a function respects the discipline if the functions
    agree in the worlds it calls into. *)
Lemma agree_apply_body w f args env context :
  callable_ok f -> (forall w', called w w' -> knot_agrees w') ->
  agree w (apply_body apply1 f args env context) (apply_body apply2 f args env context).
Proof.
  intros Hf Hk. unfold apply_body. apply agree_get_stack. intros g Hg.
  destruct (is_user_function f && CallStack_contains (call_stack g) (get_identifier f)) eqn:Et; [by apply rel_err|].
  destruct (MAX_CALL_STACK_DEPTH <=? CallStack_depth (call_stack g)) eqn:Ed; [by apply rel_err|].
  apply Z.leb_gt in Ed.
  assert (is_user_function f = true -> CallStack_contains (call_stack g) (get_identifier f) = false) as Ht
    by (intros E; by rewrite E in Et).
  assert (rel w (inside w)
    (m_bind incr_depth (fun _ => m_bind (eval_args apply1 args env context 0) (fun '(vs, used) =>
       m_bind decr_depth (fun _ => apply_values apply1 f vs used env))) g)
    (m_bind incr_depth (fun _ => m_bind (eval_args apply2 args env context 0) (fun '(vs, used) =>
       m_bind decr_depth (fun _ => apply_values apply2 f vs used env))) g)) as Hvalues.
  { destruct (enter_args w g Hg) as (w1 & Hu & Hc & Hin & Hdecr & Hfdecr). unfold m_bind at 1 4, incr_depth. cbn [out_bind].
    eapply rel_bind; [by apply (rel_eval_args w w1); auto|]. intros [g1 [vs used]] Hg1. unfold m_bind, decr_depth. cbn [out_bind].
    specialize (Hdecr g1 Hg1). pose proof (within_stack w _ _ Hdecr Hg) as Hs.
    apply rel_apply_values; auto; by rewrite Hs. }
  destruct f; try exact Hvalues. apply agree_bracket; [done|done|]. intros w' Hu Hc. apply agree_run_special. auto.
Qed.
End application.
