(* ===== verification/TypedState.v ===== *)
(** TypedState: the contract state as a partial map from slots to typed cells.

    [represents w l] says that the wrapper [w] stores exactly the state [l] in
    the slots of StateLayout.v.  The lemmas give, for every function of
    ClarityState.v that the native functions call, what it returns and which
    cells it changes. *)
From Stdlib Require Import ZArith Lia Strings.Byte Strings.String Strings.Ascii List Bool.
From stdpp Require Import base decidable list strings option gmap pretty.
From S2P Require Import Prelude Bytes Codec Representations BTree Types Signatures Admission Values.
From S2P Require Import Serialization RoundTrip Deserialization Hashes C32 Principals BackingStore RollbackWrapper.
From S2P Require Import RollbackRefinement ClarityDb ClarityState StxBalance StateLayout.
Open Scope Z_scope.

(** * Cells *)
Inductive cell :=
| Amount (n : Z)
| Owner (o : option PrincipalData)
| Account (b : STXBalance)
| Text (s : string).

Definition owner_value (o : option PrincipalData) : Value := VOptional (option_map VPrincipal o).

(** What a value is stored as. *)
Definition value_text (v : Value) : string :=
  match Value_serialize (E:=VmError) v with Ok s => s | _ => "" end.

(** The cells of a slot. *)
Definition cell_ok (s : slot) (c : cell) : Prop :=
  match s, c with
  | SupplySlot _ _, Amount n | FtSlot _ _ _, Amount n | LiquidSlot, Amount n => 0 <= n <= u128_max
  | NonceSlot _, Amount n => 0 <= n <= u64_max
  | NftSlot _ _ _, Owner o => forall p, o = Some p -> PrincipalData_wf p = true
  | AccountSlot _, Account b => STXBalance_wf b
  | VarSlot _ _, Text _ | EntrySlot _ _ _, Text _ => True
  | _, _ => False
  end.

Definition state := slot -> option cell.
Definition set_cell (l : state) (s : slot) (c : cell) : state := fun s' => if decide (s' = s) then Some c else l s'.

(** The value of an absent cell is zero, or no owner. *)
Definition amount_at (l : state) (s : slot) : Z := match l s with Some (Amount n) => n | _ => 0 end.
Definition owner_at (l : state) (s : slot) : option PrincipalData := match l s with Some (Owner o) => o | _ => None end.
Definition account_at (l : state) (s : slot) : STXBalance :=
  match l s with Some (Account b) => b | _ => STXBalance_zero end.

Lemma set_cell_eq (l : state) (s : slot) (c : cell) : set_cell l s c s = Some c.
Proof. unfold set_cell. by rewrite decide_True. Qed.
Lemma set_cell_ne (l : state) (s s' : slot) (c : cell) : s' <> s -> set_cell l s c s' = l s'.
Proof. intros Hne. unfold set_cell. by rewrite decide_False. Qed.

Lemma amount_set (l : state) (s s' : slot) (n : Z) :
  amount_at (set_cell l s (Amount n)) s' = if decide (s' = s) then n else amount_at l s'.
Proof. unfold amount_at, set_cell. by destruct (decide _). Qed.
Lemma amount_set_ne (l : state) (s s' : slot) (c : cell) : s' <> s -> amount_at (set_cell l s c) s' = amount_at l s'.
Proof. intros Hne. unfold amount_at. by rewrite set_cell_ne. Qed.
Lemma account_set (l : state) (s s' : slot) (b : STXBalance) :
  account_at (set_cell l s (Account b)) s' = if decide (s' = s) then b else account_at l s'.
Proof. unfold account_at, set_cell. by destruct (decide _). Qed.
Lemma account_set_ne (l : state) (s s' : slot) (c : cell) : s' <> s -> account_at (set_cell l s c) s' = account_at l s'.
Proof. intros Hne. unfold account_at. by rewrite set_cell_ne. Qed.

(** * Texts of values *)
Lemma to_hex_no_prefix (l : list byte) : String.prefix "0x" (to_hex l) = false.
Proof.
  destruct l as [|b l]; [done|]. unfold to_hex. cbn [flat_map hex_of_byte app string_of_list_ascii].
  set (c := hex_digit (byte_to_Z b / 16)). cbn [String.prefix]. destruct (ascii_dec "0" c); [|done].
  assert (hex_digit (byte_to_Z b mod 16) <> "x"%char) as Hx.
  { assert (0 <= byte_to_Z b mod 16 < 16) as Hr by (apply Z.mod_pos_bound; lia). revert Hr.
    generalize (byte_to_Z b mod 16). intros d Hd Heq. pose proof (to_digit16_hex_digit d Hd) as Ht.
    rewrite Heq in Ht. by vm_compute in Ht. }
  destruct (ascii_dec "x" _) as [E|]; [|done]. by destruct Hx.
Qed.

(** The stored owner of an asset reads back. *)
Lemma owner_text {E F : Type} (o : option PrincipalData) :
  (forall p, o = Some p -> PrincipalData_wf p = true) ->
  Value_serialize (E:=E) (owner_value o) = Ok (value_text (owner_value o)) /\
  Value_deserialize_untyped (E:=F) (value_text (owner_value o)) = Ok (owner_value o).
Proof.
  intros Ho. destruct (untyped_owner (R:=BoundReader) o 14 Ho) as (bs & Hbs & Hp). fold (owner_value o) in *.
  unfold value_text, Value_serialize. rewrite Hbs. cbn [expect out_bind]. split; [done|].
  unfold Value_deserialize_untyped, try_deserialize_hex_untyped. rewrite to_hex_no_prefix, hex_bytes_to_hex.
  cbn [map_err out_bind]. unfold try_deserialize_bytes_untyped, deserialize_read.
  assert (Value_wf (owner_value o) = true) as Hwf by (destruct o as [p|]; [simpl; by rewrite (Ho p)|done]).
  destruct (serialize_bound _ Hwf) as (bs' & Hbs' & Hlen). rewrite Hbs in Hbs'. injection Hbs' as <-.
  destruct (bound_reader_init bs bs [] (eq_sym (app_nil_r bs)) Hlen) as (rest' & Hr).
  destruct (Hp _ _ Hr) as (r' & Hread & _). by rewrite Hread.
Qed.

Lemma uint_text {E F : Type} (n : Z) :
  0 <= n <= u128_max ->
  Value_serialize (E:=E) (VUInt n) = Ok (value_text (VUInt n)) /\
  Value_deserialize (E:=F) (value_text (VUInt n)) UIntType = Ok (VUInt n).
Proof.
  intros Hn. assert (Value_wf (VUInt n) = true) as Hwf by (apply in_ty_spec; unfold_bounds; lia).
  destruct (reads_back_hex (E:=E) (F:=F) (VUInt n) UIntType) as (s & v' & Hs & Hd & Heq & _); try done; [simpl; lia|].
  assert (value_text (VUInt n) = s) as ->.
  { unfold value_text. unfold Value_serialize in *. cbn [serialize_write expect out_bind] in *. by injection Hs. }
  split; [done|]. rewrite Hd. destruct v'; try done. simpl in Heq. by apply Z.eqb_eq in Heq as ->.
Qed.

Section typed.
Context {D : Digests} {L : DigestLaws D} {J : SerdeJson} {JL : SerdeJsonLaws J}.
Context {C S : Type} `{Sqlite C} `{!ClarityBackingStore C S} `{!StoreLaws C S}.
Implicit Types (w : RollbackWrapper S) (l : state).

(** How a cell is stored. *)
Definition render (s : slot) (c : cell) : string :=
  match s, c with
  | LiquidSlot, Amount n => value_text (VUInt n)
  | NonceSlot _, Amount n => json_to_string json_u64 n
  | _, Amount n => json_to_string json_u128 n
  | _, Owner o => value_text (owner_value o)
  | _, Account b => STXBalance_serialize b
  | _, Text s => s
  end.

Definition represents w l : Prop :=
  kv_ready w /\ forall s, slot_ok s = true ->
    match l s with
    | Some c => cell_ok s c /\ kv_view w (slot_key s) = Some (render s c)
    | None => kv_view w (slot_key s) = None
    end.

(** Writing changes neither the metadata nor the store below. *)
Definition same_metadata w w' : Prop :=
  store w' = store w /\ metadata_lookup_map w' = metadata_lookup_map w /\
  query_pending_data w' = query_pending_data w /\ (stack w' = [] <-> stack w = []).

Lemma same_metadata_refl w : same_metadata w w.
Proof. by split_and!. Qed.

Lemma same_metadata_trans w1 w2 w3 : same_metadata w1 w2 -> same_metadata w2 w3 -> same_metadata w1 w3.
Proof. intros (H0 & H1 & H2 & H3) (H0' & H4 & H5 & H6). split_and!; [congruence..|tauto]. Qed.

Lemma get_metadata_same w w' (c : QualifiedContractIdentifier) (k : string) :
  same_metadata w w' -> get_metadata w' c k = get_metadata w c k.
Proof.
  intros (Hst & Hm & Hq & Hs). unfold get_metadata. rewrite Hst, Hm, Hq.
  destruct (stack w) as [|x y], (stack w') as [|x' y']; try done; naive_solver.
Qed.

Lemma put_same_metadata w w' (k v : string) : put w k v = Ok w' -> same_metadata w w'.
Proof.
  unfold put. destruct (stack w) as [|c rest] eqn:E; [done|]. intros Hp. out_inv. unfold same_metadata. simpl.
  rewrite E. done.
Qed.

(** Writing a cell. *)
Lemma write_slot w l (s : slot) (c : cell) :
  represents w l -> slot_ok s = true -> cell_ok s c ->
  exists w', kv_put w (slot_key s) (render s c) = Ok w' /\ represents w' (set_cell l s c) /\ same_metadata w w'.
Proof using JL.
  intros [Hready Hl] Hs Hc. destruct (kv_put_ok w (slot_key s) (render s c) Hready) as (w' & Hput & Hr' & Hv).
  exists w'. split; [done|]. split; [|exact (put_same_metadata w w' _ _ Hput)]. split; [done|]. intros s' Hs'. rewrite Hv.
  unfold set_cell. destruct (decide (s' = s)) as [->|Hne].
  - by rewrite decide_True.
  - rewrite decide_False; [by apply Hl|]. intros Heq. by apply slot_key_inj in Heq.
Qed.

Lemma represents_ready w l : represents w l -> kv_ready w.
Proof. by intros [H' _]. Qed.

(** * Amounts *)
Lemma read_u128 w l (s : slot) :
  represents w l -> slot_ok s = true ->
  match s with SupplySlot _ _ | FtSlot _ _ _ => True | _ => False end ->
  exists r, db_get (json_deserialize json_u128) w (slot_key s) = Ok r /\ default 0 r = amount_at l s /\
    (is_Some (l s) <-> is_Some r) /\ 0 <= amount_at l s <= u128_max.
Proof using JL.
  intros [Hready Hl] Hs Hk. specialize (Hl s Hs). unfold db_get, amount_at. rewrite kv_get_ok by done. cbn [out_bind].
  destruct (l s) as [c|].
  - destruct Hl as [Hc ->]. assert (exists n, c = Amount n /\ 0 <= n <= u128_max) as (n & -> & Hn)
      by (destruct s, c; try done; eauto).
    exists (Some n). unfold decode_found, json_deserialize.
    assert (render s (Amount n) = json_to_string json_u128 n) as -> by by destruct s.
    rewrite (json_u128_ok n Hn). split_and!; try done. all: lia.
  - rewrite Hl. exists None. by split_and!.
Qed.

Lemma write_u128 w l (s : slot) (n : Z) :
  represents w l -> slot_ok s = true ->
  match s with SupplySlot _ _ | FtSlot _ _ _ => True | _ => False end -> 0 <= n <= u128_max ->
  exists w', db_put (json_to_string json_u128) w (slot_key s) n = Ok w' /\
    represents w' (set_cell l s (Amount n)) /\ same_metadata w w'.
Proof using JL.
  intros Hrep Hs Hk Hn. destruct (write_slot w l s (Amount n) Hrep Hs) as (w' & Hput & ?); [by destruct s|].
  exists w'. split; [|done]. unfold db_put. rewrite <-Hput. by destruct s.
Qed.

(** * Fungible tokens *)
Notation text := QualifiedContractIdentifier_to_string.

Section tokens.
Context (c : QualifiedContractIdentifier) (t : string).
Hypothesis names_ok : no_colon (text c) = true /\ no_colon t = true.

Lemma ft_slot_ok (p : PrincipalData) : slot_ok (FtSlot (text c) t p) = true.
Proof using names_ok. simpl. by rewrite (proj1 names_ok), (proj2 names_ok). Qed.
Lemma supply_slot_ok : slot_ok (SupplySlot (text c) t) = true.
Proof using names_ok. simpl. by rewrite (proj1 names_ok), (proj2 names_ok). Qed.

Lemma get_ft_balance_ok w l (p : PrincipalData) (d : FungibleTokenMetadata) :
  represents w l -> get_ft_balance w c t p (Some d) = Ok (amount_at l (FtSlot (text c) t p)).
Proof using JL names_ok.
  intros Hrep. unfold get_ft_balance. cbn [out_bind].
  destruct (read_u128 w l (FtSlot (text c) t p) Hrep (ft_slot_ok p) I) as (r & Hr & Hd & _).
  change (ft_key c t p) with (slot_key (FtSlot (text c) t p)). rewrite Hr. cbn [out_bind]. rewrite <-Hd. by destruct r.
Qed.

(** Without a descriptor, the token must be defined. *)
Lemma get_ft_balance_loaded w l (p : PrincipalData) :
  represents w l ->
  get_ft_balance w c t p None = let? _ := load_ft w c t in Ok (amount_at l (FtSlot (text c) t p)).
Proof using JL names_ok.
  intros Hrep. pose proof (get_ft_balance_ok w l p (mkFtMeta None) Hrep) as Hb. unfold get_ft_balance in *.
  cbn [out_bind] in Hb. by destruct (load_ft w c t).
Qed.

Lemma set_ft_balance_ok w l (p : PrincipalData) (n : Z) :
  represents w l -> 0 <= n <= u128_max ->
  exists w', set_ft_balance w c t p n = Ok w' /\ represents w' (set_cell l (FtSlot (text c) t p) (Amount n)) /\
    same_metadata w w'.
Proof using JL names_ok.
  intros Hrep Hn. apply (write_u128 w l (FtSlot (text c) t p) n Hrep (ft_slot_ok p) I Hn).
Qed.

Notation supply := (SupplySlot (text c) t).

Lemma get_ft_supply_ok w l :
  represents w l -> is_Some (l supply) -> get_ft_supply w c t = Ok (amount_at l supply).
Proof using JL names_ok.
  intros Hrep Hs. unfold get_ft_supply. change (make_key_for_trip c ST_CirculatingSupply t) with (slot_key supply).
  destruct (read_u128 w l supply Hrep supply_slot_ok I) as (r & -> & <- & His & _). cbn [out_bind].
  destruct r as [n|]; [done|by destruct (proj1 His Hs)].
Qed.

Lemma increase_supply_ok w l (amount : Z) (d : FungibleTokenMetadata) :
  represents w l -> is_Some (l supply) -> 0 <= amount ->
  let new := amount_at l supply + amount in
  if u128_max <? new then checked_increase_token_supply w c t amount d = Err (Runtime RuntimeErr.ArithmeticOverflow)
  else match ft_total_supply d with
       | Some m => if m <? new then checked_increase_token_supply w c t amount d = Err (Runtime (RuntimeErr.SupplyOverflow new m))
           else exists w', checked_increase_token_supply w c t amount d = Ok w' /\
             represents w' (set_cell l supply (Amount new)) /\ same_metadata w w'
       | None => exists w', checked_increase_token_supply w c t amount d = Ok w' /\
           represents w' (set_cell l supply (Amount new)) /\ same_metadata w w'
       end.
Proof using JL names_ok.
  intros Hrep Hs Ha new. unfold checked_increase_token_supply.
  change (make_key_for_trip c ST_CirculatingSupply t) with (slot_key supply).
  destruct (read_u128 w l supply Hrep supply_slot_ok I) as (r & -> & Hd & His & Hrange). cbn [out_bind].
  destruct r as [n|]; [|by destruct (proj1 His Hs)]. cbn [default id expect_some out_bind] in Hd |- *. subst n. fold new.
  unfold checked_add. destruct (Z.ltb_spec u128_max new) as [Hlt|Hge].
  { rewrite (proj2 (checked_None _ _)); [done|]. subst new. unfold_bounds. lia. }
  rewrite checked_ok by (subst new; unfold_bounds; lia). cbn [ok_or out_bind]. fold new.
  assert (0 <= new <= u128_max) as Hn by (subst new; lia).
  destruct (ft_total_supply d) as [m|]; [destruct (m <? new); [done|]|];
    apply (write_u128 w l supply new Hrep supply_slot_ok I Hn).
Qed.

Lemma decrease_supply_ok w l (amount : Z) :
  represents w l -> is_Some (l supply) -> 0 <= amount <= amount_at l supply ->
  exists w', checked_decrease_token_supply w c t amount = Ok w' /\
    represents w' (set_cell l supply (Amount (amount_at l supply - amount))) /\ same_metadata w w'.
Proof using JL names_ok.
  intros Hrep Hs Ha. unfold checked_decrease_token_supply.
  change (make_key_for_trip c ST_CirculatingSupply t) with (slot_key supply).
  destruct (read_u128 w l supply Hrep supply_slot_ok I) as (r & -> & Hd & His & Hrange). cbn [out_bind].
  destruct r as [n|]; [|by destruct (proj1 His Hs)]. cbn [default id expect_some out_bind] in Hd |- *. subst n.
  rewrite (proj2 (Z.ltb_ge _ _)) by lia. apply (write_u128 w l supply _ Hrep supply_slot_ok I). lia.
Qed.
End tokens.

Lemma load_ft_same w w' (c : QualifiedContractIdentifier) (t : string) :
  same_metadata w w' -> load_ft w' c t = load_ft w c t.
Proof. intros Hm. unfold load_ft, fetch_metadata. by rewrite (get_metadata_same w w') by done. Qed.

(** * Assets *)
Lemma check_admits_ok (t : TypeSignature) (v : Value) :
  declared_type t = true -> Value_wf v = true ->
  check_admits t v = if admits_b t v then Ok tt else Err (Unchecked (CheckErr.TypeValueError t v)).
Proof.
  intros Hd Hv. destruct (type_of_wf v Hv) as (tv & Htv & _). unfold check_admits, admits_b, admits. rewrite !Htv.
  cbn [out_bind]. destruct (declared_admits_total (E:=VmError) t tv Hd) as [b ->]. by destruct b.
Qed.

Lemma serialize_text {E : Type} (v : Value) : Value_wf v = true -> Value_serialize (E:=E) v = Ok (value_text v).
Proof.
  intros Hv. destruct (serialize_bound v Hv) as (bs & Hbs & _). unfold value_text, Value_serialize. by rewrite Hbs.
Qed.

Lemma put_owner w l (c : QualifiedContractIdentifier) (a : string) (v : Value) (o : option PrincipalData) :
  represents w l -> no_colon (text c) = true -> no_colon a = true ->
  (forall p, o = Some p -> PrincipalData_wf p = true) ->
  exists w', put_value w (slot_key (NftSlot (text c) a (value_text v))) (owner_value o) = Ok w' /\
    represents w' (set_cell l (NftSlot (text c) a (value_text v)) (Owner o)) /\ same_metadata w w'.
Proof using JL.
  intros Hrep Hc Ha Ho. unfold put_value. rewrite (proj1 (owner_text (E:=VmError) (F:=VmError) o Ho)). cbn [out_bind].
  apply (write_slot w l (NftSlot (text c) a (value_text v)) (Owner o) Hrep); [|done]. simpl. by rewrite Hc, Ha.
Qed.

Section asset.
Context (c : QualifiedContractIdentifier) (a : string) (t : TypeSignature) (v : Value).
Hypothesis c_ok : no_colon (text c) = true.
Hypothesis a_ok : no_colon a = true.
Hypothesis t_ok : declared_type t = true.
Hypothesis v_ok : Value_wf v = true.
Hypothesis v_admitted : admits_b t v = true.
Notation place := (NftSlot (text c) a (value_text v)).

Lemma nft_place_key : nft_key c a v = Ok (slot_key place).
Proof using v_ok. unfold nft_key. by rewrite serialize_text. Qed.

Lemma get_nft_owner_ok w l :
  represents w l ->
  get_nft_owner w c a v t =
    match owner_at l place with Some p => Ok p | None => Err (Runtime RuntimeErr.NoSuchToken) end.
Proof using JL c_ok a_ok t_ok v_ok v_admitted.
  intros [Hready Hl]. unfold get_nft_owner. rewrite check_admits_ok, v_admitted by done. cbn [out_bind].
  rewrite nft_place_key. cbn [out_bind]. unfold db_get. rewrite kv_get_ok by done. cbn [out_bind].
  specialize (Hl place ltac:(simpl; by rewrite c_ok, a_ok)). unfold owner_at. destruct (l place) as [x|].
  - destruct Hl as [Hx ->]. destruct x as [n|o|b|s]; try done. cbn [decode_found render].
    rewrite (proj2 (owner_text (E:=VmError) (F:=VmError) o Hx)). cbn [out_bind]. by destruct o.
  - by rewrite Hl.
Qed.

Lemma set_nft_owner_ok w l (p : PrincipalData) :
  represents w l -> PrincipalData_wf p = true ->
  exists w', set_nft_owner w c a v p t = Ok w' /\ represents w' (set_cell l place (Owner (Some p))) /\ same_metadata w w'.
Proof using JL c_ok a_ok t_ok v_ok v_admitted.
  intros Hrep Hp. unfold set_nft_owner. rewrite check_admits_ok, v_admitted by done. cbn [out_bind].
  rewrite nft_place_key. cbn [out_bind].
  change (Value_some (VPrincipal p)) with (Ok (E:=VmError) (owner_value (Some p))). cbn [out_bind].
  apply put_owner; [done..|]. by intros q [= <-].
Qed.

Lemma burn_nft_ok w l :
  represents w l ->
  exists w', burn_nft w c a v t = Ok w' /\ represents w' (set_cell l place (Owner None)) /\ same_metadata w w'.
Proof using JL c_ok a_ok t_ok v_ok v_admitted.
  intros Hrep. unfold burn_nft. rewrite check_admits_ok, v_admitted by done. cbn [out_bind].
  rewrite nft_place_key. cbn [out_bind]. change Value_none with (owner_value None). by apply put_owner.
Qed.
End asset.

(** * Accounts *)
Notation account_of p := (AccountSlot (PrincipalData_to_string p)).

Lemma account_at_wf w l (s : string) : represents w l -> STXBalance_wf (account_at l (AccountSlot s)).
Proof.
  intros [_ Hl]. specialize (Hl (AccountSlot s) eq_refl). unfold account_at.
  destruct (l (AccountSlot s)) as [[n|o|b|x]|]; try apply zero_wf. apply Hl.
Qed.

Lemma read_account w l (p : PrincipalData) :
  represents w l -> exists r, db_get STXBalance_deserialize w (make_key_for_account_balance p) = Ok r /\
    default STXBalance_zero r = account_at l (account_of p).
Proof.
  intros [Hready Hl]. specialize (Hl (account_of p) eq_refl).
  change (make_key_for_account_balance p) with (slot_key (account_of p)). unfold db_get, account_at.
  rewrite kv_get_ok by done. cbn [out_bind]. destruct (l (account_of p)) as [x|].
  - destruct Hl as [Hx ->]. destruct x as [n|o|b|x]; try done. exists (Some b). cbn [decode_found render].
    by rewrite balance_roundtrip.
  - rewrite Hl. by exists None.
Qed.

Lemma get_account_at w l (p : PrincipalData) :
  represents w l -> get_account_stx_balance w p = Ok (account_at l (account_of p)).
Proof.
  intros Hrep. unfold get_account_stx_balance. destruct (read_account w l p Hrep) as (r & -> & <-). by destruct r.
Qed.

Lemma write_account w l (p : PrincipalData) (b : STXBalance) :
  represents w l -> STXBalance_wf b ->
  exists w', db_put STXBalance_serialize w (make_key_for_account_balance p) b = Ok w' /\
    represents w' (set_cell l (account_of p) (Account b)) /\ same_metadata w w'.
Proof using JL. intros Hrep Hb. apply (write_slot w l (account_of p) (Account b) Hrep eq_refl Hb). Qed.

Lemma transfer_to_ok w l (from to : PrincipalData) (h amount : Z) :
  let b := account_at l (account_of from) in
  let r := account_at l (account_of to) in
  represents w l -> 0 <= h -> 0 <= amount <= spendable b h -> total r + amount <= u128_max ->
  exists w', transfer_to (mkSnapshot from b h) w to amount = Ok w' /\
    represents w' (set_cell (set_cell l (account_of to) (Account (credited r amount)))
      (account_of from) (Account (debited b h amount))) /\ same_metadata w w'.
Proof using JL.
  intros b r Hrep Hh Ha Hfit. pose proof (account_at_wf w l (PrincipalData_to_string from) Hrep) as Hb. fold b in Hb.
  pose proof (account_at_wf w l (PrincipalData_to_string to) Hrep) as (R1 & R2 & R3 & R4). fold r in R1, R2, R3, R4.
  unfold transfer_to, can_transfer. rewrite available_closed by done. cbn [out_bind balance burn_block_height].
  rewrite (proj2 (Z.leb_le _ _)) by lia. cbn [negb].
  destruct (read_account w l to Hrep) as (x & -> & Hx). cbn [out_bind]. rewrite Hx. fold r. unfold total in *.
  unfold checked_add. rewrite checked_ok by (simpl; lia). cbn [ok_or out_bind].
  rewrite debit_closed by (done || lia). cbn [balance burn_block_height]. rewrite (proj2 (Z.leb_le _ _)) by lia.
  cbn [out_bind]. fold (credited r amount).
  destruct (write_account w l to (credited r amount) Hrep) as (w1 & -> & Hrep1 & M1);
    [unfold STXBalance_wf, credited, total; simpl; repeat split; lia|].
  cbn [out_bind]. unfold save. cbn [principal balance set_balance].
  destruct (write_account w1 _ from (debited b h amount) Hrep1) as (w2 & Hput & Hrep2 & M2); [by apply debited_wf|].
  exists w2. split; [exact Hput|]. split; [done|]. by eapply same_metadata_trans.
Qed.

(** * The liquid supply *)
Lemma get_value_view w (k : string) (t : TypeSignature) :
  kv_ready w -> get_value w k t =
    match kv_view w k with Some x => let? r := value_result t x in Ok (Some r) | None => Ok None end.
Proof.
  intros Hready. pose proof (kv_get_ok w k Hready) as Hg. cbn [kv_get RollbackWrapper_kv] in Hg.
  unfold get in Hg. unfold get_value. cbn [kv_view RollbackWrapper_kv_laws] in *. destruct (stack w); [done|].
  destruct (if query_pending_data w then _ else _) as [x|]; cbn [out_bind] in Hg.
  - injection Hg as <-. done.
  - destruct (store_get (store w) k) as [[x|]| |]; cbn [out_bind] in *; try done; injection Hg as <-; done.
Qed.

Lemma get_liquid_ok w l : represents w l -> get_total_liquid_ustx w = Ok (amount_at l LiquidSlot).
Proof.
  intros [Hready Hl]. specialize (Hl LiquidSlot eq_refl). unfold get_total_liquid_ustx, amount_at.
  rewrite get_value_view by done. change ustx_liquid_supply_key with (slot_key LiquidSlot).
  destruct (l LiquidSlot) as [x|].
  - destruct Hl as [Hx ->]. destruct x as [n|o|b|x]; try done. cbn [render]. unfold value_result.
    rewrite (proj2 (uint_text (E:=VmError) n Hx)). done.
  - by rewrite Hl.
Qed.

Lemma set_liquid_ok w l (n : Z) :
  represents w l -> 0 <= n <= u128_max ->
  exists w', set_ustx_liquid_supply w n = Ok w' /\ represents w' (set_cell l LiquidSlot (Amount n)) /\ same_metadata w w'.
Proof using JL.
  intros Hrep Hn. unfold set_ustx_liquid_supply, put_value. rewrite (proj1 (uint_text (F:=VmError) n Hn)). cbn [out_bind].
  apply (write_slot w l LiquidSlot (Amount n) Hrep eq_refl Hn).
Qed.

Lemma decrement_liquid_ok w l (n : Z) :
  represents w l -> 0 <= n <= amount_at l LiquidSlot ->
  exists w', decrement_ustx_liquid_supply w n = Ok w' /\
    represents w' (set_cell l LiquidSlot (Amount (amount_at l LiquidSlot - n))) /\ same_metadata w w'.
Proof using JL.
  intros Hrep Hn. unfold decrement_ustx_liquid_supply. rewrite (get_liquid_ok w l Hrep). cbn [out_bind].
  assert (amount_at l LiquidSlot <= u128_max) as Hmax.
  { destruct Hrep as [_ Hl]. specialize (Hl LiquidSlot eq_refl). unfold amount_at in *.
    destruct (l LiquidSlot) as [[m|o|b|x]|]; try (unfold u128_max; lia). apply Hl. }
  unfold checked_sub. rewrite checked_ok by (unfold_bounds; lia). cbn [ok_or out_bind].
  apply set_liquid_ok; [done|lia].
Qed.

(** * Metadata *)
Lemma insert_metadata_ok w l (c : QualifiedContractIdentifier) (k v : string) :
  represents w l ->
  exists w', insert_metadata w c k v = Ok w' /\ represents w' l /\ store w' = store w /\
    forall c' k', get_metadata w' c' k' = if decide ((c', k') = (c, k)) then Ok (Some v) else get_metadata w c' k'.
Proof.
  intros [(Hne & Hq & [s frames p] & Hinv) Hl]. pose proof (insert_metadata_refines w _ c k v Hinv) as Hins.
  destruct frames as [|f rest]; [by rewrite (inv_stack _ _ Hinv) in Hne|]. unfold out_rel in Hins. simpl in Hins.
  destruct (insert_metadata w c k v) as [w'|e|] eqn:E; [|done..]. exists w'. split; [done|].
  unfold insert_metadata in E. destruct (stack w) as [|cur rst] eqn:Hstack; [done|].
  apply out_bind_Ok in E as ([m es] & Hput & E). injection E as E.
  assert (lookup_map w' = lookup_map w /\ store w' = store w /\ query_pending_data w' = true /\ stack w' <> [] /\
    metadata_lookup_map w' = m) as (E1 & E2 & E3 & E4 & E5) by (subst w'; by split_and!).
  split_and!; [|done|].
  - split; [split_and!; [done|done|by eexists]|]. intros sl Hsl. specialize (Hl sl Hsl).
    cbn [kv_view RollbackWrapper_kv_laws] in *. unfold wrapper_view in *. by rewrite E1, E2.
  - intros c' k'. unfold get_metadata. rewrite E2, E3, E5, Hq, Hstack. destruct (stack w'); [done|].
    unfold inner_put in Hput. apply out_bind_Ok in Hput as (dq & Hdq & Hput). injection Hput as <- _.
    destruct (decide ((c', k') = (c, k))) as [[= -> ->]|Hk].
    + rewrite lookup_insert_eq. cbn [mbind option_bind]. by rewrite last_snoc.
    + rewrite lookup_insert_ne by congruence. destruct (metadata_lookup_map w !! (c, k)); [done|].
      by rewrite lookup_insert_ne by congruence.
Qed.

Lemma make_metadata_key_inj (d : StoreType) (n n' : string) : make_metadata_key d n = make_metadata_key d n' -> n = n'.
Proof. unfold make_metadata_key. rewrite <-!str_app_assoc. apply str_app_inj_l. Qed.

(** Defining a fungible token: it loads, with a supply of zero; others load as before. *)
Lemma create_ft_ok w l (c : QualifiedContractIdentifier) (t : string) (max : option Z) :
  represents w l -> no_colon (text c) = true -> no_colon t = true ->
  has_metadata_entry w c (make_metadata_key ST_FungibleTokenMeta t) = Ok false ->
  exists w', create_fungible_token w c t max = Ok (mkFtMeta max, w') /\
    represents w' (set_cell l (SupplySlot (text c) t) (Amount 0)) /\ store w' = store w /\
    load_ft w' c t = Ok (mkFtMeta max) /\ forall t', t' <> t -> load_ft w' c t' = load_ft w c t'.
Proof using JL.
  intros Hrep Hc Ht Hnew. unfold create_fungible_token, db_insert_metadata. rewrite Hnew. cbn [out_bind].
  destruct (insert_metadata_ok w l c (make_metadata_key ST_FungibleTokenMeta t) (json_to_string json_ft (mkFtMeta max)) Hrep)
    as (w1 & -> & Hrep1 & Hs1 & Hm1). cbn [out_bind].
  destruct (write_u128 w1 l (SupplySlot (text c) t) 0 Hrep1) as (w2 & Hput & Hrep2 & Hsame);
    [simpl; by rewrite Hc, Ht|done|unfold u128_max; lia|].
  change (make_key_for_trip c ST_CirculatingSupply t) with (slot_key (SupplySlot (text c) t)). rewrite Hput. cbn [out_bind].
  exists w2. split; [done|]. split; [done|]. split; [by rewrite (proj1 Hsame)|]. split.
  - rewrite (load_ft_same w1 w2) by done. unfold load_ft, fetch_metadata. rewrite Hm1, decide_True by done. cbn [out_bind].
    unfold json_deserialize. by rewrite (json_ft_ok (mkFtMeta max) I).
  - intros t' Hne. rewrite (load_ft_same w1 w2) by done. unfold load_ft, fetch_metadata.
    rewrite Hm1, decide_False; [done|]. intros Hk. apply (f_equal snd), make_metadata_key_inj in Hk. done.
Qed.
End typed.
