(* ===== verification/Ledger.v ===== *)
(** Ledger: what the asset natives of Assets.v do to the state of
    TypedState.v.

    [spec] is the specification: for each call, its answer, the new state, the
    asset movement it reports and the event it emits.  [native] is the call of
    the native function.  The two theorems are that every native refines its
    specification, and that no sequence of calls unbalances the books: the
    supply of a token is always what its holders hold together, and the liquid
    supply of STX what the accounts hold. *)
From Stdlib Require Import ZArith Lia Strings.Byte Strings.String Strings.Ascii List Bool.
From stdpp Require Import base decidable list strings option gmap pretty.
From S2P Require Import Prelude Bytes Codec Representations BTree Types Signatures Admission Values.
From S2P Require Import Serialization RoundTrip Deserialization AssetMap Hashes C32 Principals BackingStore.
From S2P Require Import RollbackWrapper RollbackRefinement Events GlobalContext ClarityDb ClarityState StxBalance.
From S2P Require Import Costs Contexts Assets StateLayout TypedState.
Open Scope Z_scope.

(** * Totals *)
(** [f] is zero but for finitely many keys, and sums to [n]. *)
Definition sums_to {K : Type} (f : K -> Z) (n : Z) : Prop :=
  exists ks, NoDup ks /\ (forall k, k ∉ ks -> f k = 0) /\ sum_over f ks = n.

Section totals.
Context {K : Type} `{EqDecision K}.
Implicit Types (f : K -> Z).

Lemma sums_to_ext f (g : K -> Z) (n : Z) : (forall k, g k = f k) -> sums_to f n -> sums_to g n.
Proof.
  intros Hfg (ks & Hnd & Hz & Hs). exists ks. split; [done|]. split; [intros k Hk; rewrite Hfg; auto|].
  rewrite <-Hs. by apply sum_over_ext.
Qed.

Lemma sums_to_set f (n : Z) (a : K) (x : Z) :
  sums_to f n -> sums_to (fun k => if decide (k = a) then x else f k) (n + x - f a).
Proof.
  intros (ks & Hnd & Hz & Hs). destruct (decide (a ∈ ks)) as [Hin|Hin].
  - exists ks. split; [done|]. split.
    + intros k Hk. rewrite decide_False by congruence. auto.
    + rewrite sum_over_replace, decide_True by done. lia.
  - exists (a :: ks). split; [by constructor|]. split.
    + intros k Hk. apply not_elem_of_cons in Hk as [Hk1 Hk2]. rewrite decide_False by done. auto.
    + cbn [sum_over fold_right]. rewrite decide_True by done. fold (sum_over (fun k => if decide (k = a) then x else f k) ks).
      rewrite sum_over_replace, decide_False by done. rewrite (Hz a Hin). lia.
Qed.

Lemma sums_to_le f (n : Z) (a : K) : (forall k, 0 <= f k) -> sums_to f n -> f a <= n.
Proof.
  intros Hpos Hs. apply (sums_to_set f n a 0) in Hs as (ks & _ & _ & Hs).
  assert (0 <= sum_over (fun k => if decide (k = a) then 0 else f k) ks); [|lia].
  apply sum_over_nonneg. intros k. destruct (decide _); [lia|auto].
Qed.

Lemma sums_to_le2 f (n : Z) (a b : K) : (forall k, 0 <= f k) -> a <> b -> sums_to f n -> f a + f b <= n.
Proof.
  intros Hpos Hab Hs. apply (sums_to_set f n a 0) in Hs.
  apply (sums_to_le _ _ b) in Hs; [cbv beta in Hs; rewrite decide_False in Hs by congruence; lia|].
  intros k. destruct (decide _); [lia|auto].
Qed.

(** Moving an amount from [a] to [b]. *)
Lemma sums_to_move f (n x : Z) (a b : K) :
  a <> b -> sums_to f n ->
  sums_to (fun k => if decide (k = b) then f b + x else if decide (k = a) then f a - x else f k) n.
Proof.
  intros Hab Hs. apply (sums_to_set f n a (f a - x)) in Hs.
  apply (sums_to_set _ _ b (f b + x)) in Hs. cbv beta in Hs. rewrite decide_False in Hs by congruence.
  eapply sums_to_ext; [|by replace n with (n + (f a - x) - f a + (f b + x) - f b) by lia]. done.
Qed.
End totals.

(** * Calls *)
Inductive call :=
| StxTransfer (amount : Z) (from to : PrincipalData)
| StxBurn (amount : Z) (from : PrincipalData)
| StxWithdraw (amount : Z) (from : PrincipalData)
| StxGetBalance (p : PrincipalData)
| FtMint (token : string) (amount : Z) (to : PrincipalData)
| FtTransfer (token : string) (amount : Z) (from to : PrincipalData)
| FtBurn (token : string) (amount : Z) (from : PrincipalData)
| FtWithdraw (token : string) (amount : Z) (from : PrincipalData)
| FtGetBalance (token : string) (p : PrincipalData)
| FtGetSupply (token : string)
| NftMint (asset : string) (id : Value) (to : PrincipalData)
| NftTransfer (asset : string) (id : Value) (from to : PrincipalData)
| NftBurn (asset : string) (id : Value) (from : PrincipalData)
| NftWithdraw (asset : string) (id : Value) (from : PrincipalData)
| NftGetOwner (asset : string) (id : Value).

(** Arguments are values of their types. *)
Definition amount_ok (n : Z) : Prop := 0 <= n <= u128_max.
Definition principal_ok (p : PrincipalData) : Prop := PrincipalData_wf p = true.

(** * Specification *)
Record answer := mkAnswer {
  a_value : Value;
  a_state : state;
  a_moved : option movement;
  a_event : option StacksTransactionEvent
}.

Section specification.
Context {D : Digests}.
Notation text := QualifiedContractIdentifier_to_string.
Notation account_of p := (AccountSlot (PrincipalData_to_string p)).

(** The call answers a value and changes nothing. *)
Definition answers (l : state) (v : Value) : outcome VmError answer := Ok (mkAnswer v l None None).
Definition refuses (l : state) (code : Z) : outcome VmError answer := answers l (Value_err_uint code).
Definition changes (l : state) (mv : option movement) (e : StacksTransactionEvent) : outcome VmError answer :=
  Ok (mkAnswer Value_okay_true l mv (Some e)).

Definition spec_stx_transfer (env : Environment) (h : Z) (l : state) (n : Z) (from to : PrincipalData) :=
  let b := account_at l (account_of from) in
  if n =? 0 then refuses l 3
  else if bool_decide (from = to) then refuses l 2
  else if negb (bool_decide (Some from = env_sender env)) then refuses l 4
  else if spendable b h <? n then refuses l 1
  else changes
    (set_cell (set_cell l (account_of to) (Account (credited (account_at l (account_of to)) n)))
      (account_of from) (Account (debited b h n)))
    (Some (MoveSTX from n)) (STXEvent (STXTransferEvent from to n)).

Definition spec_stx_destroy (env : Environment) (h : Z) (l : state) (n : Z) (from : PrincipalData) (e : STXEventType) :=
  let b := account_at l (account_of from) in
  if n =? 0 then refuses l 3
  else if negb (bool_decide (Some from = env_sender env)) then refuses l 4
  else if spendable b h <? n then refuses l 1
  else changes
    (set_cell (set_cell l (account_of from) (Account (debited b h n)))
      LiquidSlot (Amount (amount_at l LiquidSlot - n)))
    (Some (BurnSTX from n)) (STXEvent e).

Definition defined_ft (env : Environment) (t : string) : outcome VmError FungibleTokenMetadata :=
  ok_or (Unchecked (CheckErr.NoSuchFT t)) (meta_ft (contract_context env) !! t).

Definition spec_ft_mint (env : Environment) (l : state) (t : string) (n : Z) (to : PrincipalData) :=
  let c := self_contract env in
  let supply := SupplySlot (text c) t in
  let holder := FtSlot (text c) t to in
  let new := amount_at l supply + n in
  if n =? 0 then refuses l 1 else
  let? d := defined_ft env t in
  if u128_max <? new then Err (Runtime RuntimeErr.ArithmeticOverflow) else
  let? _ :=
    match ft_total_supply d with
    | Some m => if m <? new then Err (Runtime (RuntimeErr.SupplyOverflow new m)) else Ok tt
    | None => Ok tt
    end in
  changes (set_cell (set_cell l supply (Amount new)) holder (Amount (amount_at l holder + n))) None
    (FTEvent (FTMintEvent (mkAssetId c t) to n)).

Definition spec_ft_transfer (env : Environment) (l : state) (t : string) (n : Z) (from to : PrincipalData) :=
  let c := self_contract env in
  let a := FtSlot (text c) t from in
  let b := FtSlot (text c) t to in
  if n =? 0 then refuses l 3
  else if bool_decide (from = to) then refuses l 2 else
  let? _ := defined_ft env t in
  if amount_at l a <? n then refuses l 1
  else changes (set_cell (set_cell l a (Amount (amount_at l a - n))) b (Amount (amount_at l b + n)))
    (Some (MoveToken from (mkAssetId c t) n)) (FTEvent (FTTransferEvent (mkAssetId c t) from to n)).

(** [zero] is the error code for an amount of zero. *)
Definition spec_ft_destroy (env : Environment) (l : state) (t : string) (n : Z) (from : PrincipalData) (zero : Z)
    (e : FTEventType) :=
  let c := self_contract env in
  let supply := SupplySlot (text c) t in
  let a := FtSlot (text c) t from in
  if n =? 0 then refuses l zero else
  let? _ := defined_ft env t in
  if amount_at l a <? n then refuses l 1
  else changes (set_cell (set_cell l supply (Amount (amount_at l supply - n))) a (Amount (amount_at l a - n)))
    (Some (MoveToken from (mkAssetId c t) n)) (FTEvent e).

(** The declared type admits the asset. *)
Definition typed_asset (env : Environment) (a : string) (v : Value) : outcome VmError unit :=
  let? m := ok_or (Unchecked (CheckErr.NoSuchNFT a)) (meta_nft (contract_context env) !! a) in
  if admits_b (nft_key_type m) v then Ok tt else Err (Unchecked (CheckErr.TypeValueError (nft_key_type m) v)).

Definition spec (env : Environment) (h : Z) (l : state) (k : call) : outcome VmError answer :=
  let c := self_contract env in
  let place a v := NftSlot (text c) a (value_text v) in
  match k with
  | StxTransfer n from to => spec_stx_transfer env h l n from to
  | StxBurn n from => spec_stx_destroy env h l n from (STXBurnEvent from n)
  | StxWithdraw n from => spec_stx_destroy env h l n from (STXWithdrawEvent (mkStxWithdraw from n None))
  | StxGetBalance p => answers l (VUInt (spendable (account_at l (account_of p)) h))
  | FtMint t n to => spec_ft_mint env l t n to
  | FtTransfer t n from to => spec_ft_transfer env l t n from to
  | FtBurn t n from => spec_ft_destroy env l t n from 1 (FTBurnEvent (mkAssetId c t) from n)
  | FtWithdraw t n from => spec_ft_destroy env l t n from 3 (FTWithdrawEvent (mkFtWithdraw (mkAssetId c t) from n None))
  | FtGetBalance t p =>
      let? _ := defined_ft env t in answers l (VUInt (amount_at l (FtSlot (text c) t p)))
  | FtGetSupply t => answers l (VUInt (amount_at l (SupplySlot (text c) t)))
  | NftMint a v to =>
      let? _ := typed_asset env a v in
      match owner_at l (place a v) with
      | Some _ => refuses l 1
      | None => changes (set_cell l (place a v) (Owner (Some to))) None (NFTEvent (NFTMintEvent (mkAssetId c a) to v))
      end
  | NftTransfer a v from to =>
      let? _ := typed_asset env a v in
      if bool_decide (from = to) then refuses l 2 else
      match owner_at l (place a v) with
      | None => refuses l 3
      | Some owner =>
          if negb (bool_decide (owner = from)) then refuses l 1
          else changes (set_cell l (place a v) (Owner (Some to))) (Some (MoveAsset from (mkAssetId c a) v))
            (NFTEvent (NFTTransferEvent (mkAssetId c a) from to v))
      end
  | NftBurn a v from =>
      let? _ := typed_asset env a v in
      match owner_at l (place a v) with
      | None => refuses l 3
      | Some owner =>
          if negb (bool_decide (owner = from)) then refuses l 1
          else changes (set_cell l (place a v) (Owner None)) (Some (MoveAsset from (mkAssetId c a) v))
            (NFTEvent (NFTBurnEvent (mkAssetId c a) from v))
      end
  | NftWithdraw a v from =>
      let? _ := typed_asset env a v in
      match owner_at l (place a v) with
      | None => refuses l 3
      | Some owner =>
          if negb (bool_decide (owner = from)) then refuses l 1
          else match v with
               | VUInt id =>
                   changes (set_cell l (place a v) (Owner None)) (Some (MoveAsset from (mkAssetId c a) v))
                     (NFTEvent (NFTWithdrawEvent (mkNftWithdraw (mkAssetId c a) from id None)))
               | _ => refuses l 4
               end
      end
  | NftGetOwner a v =>
      let? _ := typed_asset env a v in
      answers l (owner_value (owner_at l (place a v)))
  end.
End specification.

(** * Natives *)
Section refinement.
Context {O : HashOrder} {D : Digests} {L : DigestLaws D} {J : SerdeJson} {JL : SerdeJsonLaws J} {N : HeadersDB}.
Context {C S T : Type} `{Sqlite C} `{!ClarityBackingStore C S} `{!StoreLaws C S} `{!CostTracker T} `{!TrackerLaws T}.
Notation G := (GlobalContext S T).
Notation fallible A := (outcome (G * VmError) A).
Notation text := QualifiedContractIdentifier_to_string.
Notation account_of p := (AccountSlot (PrincipalData_to_string p)).

(** A literal value, and a name that is not evaluated. *)
Definition value_arg (v : Value) : Arg (S:=S) (T:=T) := mkArg None (fun g => Ok (g, v)).
Definition name_arg (s : string) : Arg (S:=S) (T:=T) := mkArg (Some s) (fun _ => Panic).

Definition native (k : call) : Environment -> G -> fallible (G * Value) :=
  match k with
  | StxTransfer n from to => special_stx_transfer [value_arg (VUInt n); value_arg (VPrincipal from); value_arg (VPrincipal to)]
  | StxBurn n from => special_stx_burn [value_arg (VUInt n); value_arg (VPrincipal from)]
  | StxWithdraw n from => special_stx_withdraw [value_arg (VUInt n); value_arg (VPrincipal from)]
  | StxGetBalance p => special_stx_balance [value_arg (VPrincipal p)]
  | FtMint t n to => special_mint_token [name_arg t; value_arg (VUInt n); value_arg (VPrincipal to)]
  | FtTransfer t n from to =>
      special_transfer_token [name_arg t; value_arg (VUInt n); value_arg (VPrincipal from); value_arg (VPrincipal to)]
  | FtBurn t n from => special_burn_token [name_arg t; value_arg (VUInt n); value_arg (VPrincipal from)]
  | FtWithdraw t n from => special_withdraw_token [name_arg t; value_arg (VUInt n); value_arg (VPrincipal from)]
  | FtGetBalance t p => special_get_balance [name_arg t; value_arg (VPrincipal p)]
  | FtGetSupply t => special_get_token_supply [name_arg t]
  | NftMint a v to => special_mint_asset [name_arg a; value_arg v; value_arg (VPrincipal to)]
  | NftTransfer a v from to =>
      special_transfer_asset [name_arg a; value_arg v; value_arg (VPrincipal from); value_arg (VPrincipal to)]
  | NftBurn a v from => special_burn_asset [name_arg a; value_arg v; value_arg (VPrincipal from)]
  | NftWithdraw a v from => special_withdraw_asset [name_arg a; value_arg v; value_arg (VPrincipal from)]
  | NftGetOwner a v => special_get_owner [name_arg a; value_arg v]
  end.

(** * Stages of a call *)
(** [g] is [g0] but for the tracker, the cells of [l], and the given asset maps
    and event batches. *)
Record stage (g0 g : G) (l : state) (maps : list AssetMap) (batches : list EventBatch) : Prop := {
  st_maps : asset_maps g = maps;
  st_batches : event_batches g = batches;
  st_read_only : read_only g = read_only g0;
  st_mainnet : mainnet g = mainnet g0;
  st_epoch : epoch_id g = epoch_id g0;
  st_state : represents (database g) l;
  st_meta : same_metadata (database g0) (database g)
}.

Definition push_event (e : option StacksTransactionEvent) (batches : list EventBatch) : list EventBatch :=
  match e, batches with
  | Some e, b :: rest => mkEventBatch (batch_events b ++ [e]) :: rest
  | _, _ => batches
  end.

(** The movement is recorded in the innermost asset map. *)
Definition recorded (mv : option movement) (maps maps' : list AssetMap) : Prop :=
  match mv with
  | None => maps' = maps
  | Some mv => exists m rest m', maps = m :: rest /\ record_movement m mv = Ok m' /\ maps' = m' :: rest
  end.
Definition record_fails (mv : option movement) (maps : list AssetMap) (e : VmError) : Prop :=
  exists x m rest, mv = Some x /\ maps = m :: rest /\ record_movement m x = Err e.

Definition cost_failure (e : VmError) : Prop := exists ce, e = Error_from_cost ce.

(** [m], run from [g0], does what [ans] says: it returns the answer with the
    new state, movement and event; or it fails with the error of [ans], or for
    lack of budget, or because the sum of the movements overflows; it never
    panics. *)
Definition does (ans : outcome VmError answer) (g0 : G) (m : fallible (G * Value)) : Prop :=
  match m with
  | Ok (g, v) => exists a maps, ans = Ok a /\ v = a_value a /\
      stage g0 g (a_state a) maps (push_event (a_event a) (event_batches g0)) /\ recorded (a_moved a) (asset_maps g0) maps
  | Err (_, e) => ans = Err e \/ cost_failure e \/ exists a, ans = Ok a /\ record_fails (a_moved a) (asset_maps g0) e
  | Panic => False
  end.

Lemma does_track (ans : outcome VmError answer) (g0 g : G) (l : state) maps batches
    (f : T -> outcome (T * CostErrors) T) (k : G -> fallible (G * Value)) :
  stage g0 g l maps batches -> f (cost_track g) <> Panic ->
  (forall g1, stage g0 g1 l maps batches -> does ans g0 (k g1)) ->
  does ans g0 (let? g := track g f in k g).
Proof.
  intros [H1 H2 H3 H4 H5 H6 H7] Hf Hk. unfold track. destruct (f (cost_track g)) as [t|[t e]|]; cbn [out_bind]; [| |done].
  - apply Hk. by split.
  - right. left. by exists e.
Qed.

Lemma does_runtime (ans : outcome VmError answer) (g0 g : G) (l : state) maps batches
    (f : ClarityCostFunction) (n : Z) (k : G -> fallible (G * Value)) :
  stage g0 g l maps batches ->
  (forall g1, stage g0 g1 l maps batches -> does ans g0 (k g1)) ->
  does ans g0 (let? g := env_runtime_cost f g n in k g).
Proof using TrackerLaws0. intros Hst Hk. eapply does_track; [exact Hst|apply runtime_cost_safe|exact Hk]. Qed.

Lemma does_memory (ans : outcome VmError answer) (g0 g : G) (l : state) maps batches
    (n : Z) (k : G -> fallible (G * Value)) :
  stage g0 g l maps batches ->
  (forall g1, stage g0 g1 l maps batches -> does ans g0 (k g1)) ->
  does ans g0 (let? g := env_add_memory g n in k g).
Proof using TrackerLaws0. intros Hst Hk. eapply does_track; [exact Hst|apply add_memory_safe|exact Hk]. Qed.

Lemma does_charge_principal (ans : outcome VmError answer) (g0 g : G) (l : state) maps batches
    (k : G -> fallible (G * Value)) :
  stage g0 g l maps batches ->
  (forall g1, stage g0 g1 l maps batches -> does ans g0 (k g1)) ->
  does ans g0 (let? g := charge_principal g in k g).
Proof using TrackerLaws0. apply does_memory. Qed.

Lemma does_charge_uint (ans : outcome VmError answer) (g0 g : G) (l : state) maps batches
    (k : G -> fallible (G * Value)) :
  stage g0 g l maps batches ->
  (forall g1, stage g0 g1 l maps batches -> does ans g0 (k g1)) ->
  does ans g0 (let? g := charge_uint g in k g).
Proof using TrackerLaws0. apply does_memory. Qed.

Lemma does_read {A : Type} (ans : outcome VmError answer) (g0 g : G) (m : outcome VmError A) (x : A)
    (k : A -> fallible (G * Value)) :
  m = Ok x -> does ans g0 (k x) -> does ans g0 (let? x := read_db g m in k x).
Proof. by intros ->. Qed.

Lemma does_write (ans : outcome VmError answer) (g0 g : G) (l l' : state) maps batches
    (m : outcome VmError (RollbackWrapper S)) (k : G -> fallible (G * Value)) :
  stage g0 g l maps batches ->
  (exists w, m = Ok w /\ represents w l' /\ same_metadata (database g) w) ->
  (forall g1, stage g0 g1 l' maps batches -> does ans g0 (k g1)) ->
  does ans g0 (let? g := write_db g m in k g).
Proof.
  intros [H1 H2 H3 H4 H5 H6 H7] (w & -> & Hw & Hm) Hk. unfold write_db. cbn [map_err out_bind]. apply Hk.
  split; try done. by eapply same_metadata_trans.
Qed.

(** Recording a movement: the last step that may fail. *)
Lemma does_move (g0 g : G) (l : state) maps batches (mv : movement) (a : answer)
    (f : AssetMap -> outcome VmError AssetMap) (k : G -> fallible (G * Value)) :
  stage g0 g l maps batches -> maps = asset_maps g0 -> maps <> [] -> (forall m, f m = record_movement m mv) ->
  a_moved a = Some mv ->
  (forall g1 maps', stage g0 g1 l maps' batches -> recorded (Some mv) (asset_maps g0) maps' -> does (Ok a) g0 (k g1)) ->
  does (Ok a) g0 (let? g := with_asset_map g f in k g).
Proof.
  intros [H1 H2 H3 H4 H5 H6 H7] Hmaps Hne Hf Hmv Hk. unfold with_asset_map. rewrite H1.
  destruct maps as [|m rest]; [done|]. rewrite Hf.
  assert (record_movement m mv <> Panic) as Hnp.
  { destruct mv as [p n|p n|p i n|p i v]; cbn [record_movement]; [| | |done].
    - unfold add_stx_transfer, get_next_stx_amount. by destruct (checked_add _ _ _).
    - unfold add_stx_burn, get_next_stx_burn_amount. by destruct (checked_add _ _ _).
    - unfold add_token_transfer, get_next_amount. by destruct (checked_add _ _ _). }
  destruct (record_movement m mv) as [m'|e|] eqn:E; cbn [map_err out_bind]; [| |done].
  - apply (Hk _ (m' :: rest)); [by split|]. exists m, rest, m'. by rewrite <-Hmaps.
  - right. right. exists a. split; [done|]. exists mv, m, rest. by rewrite <-Hmaps.
Qed.

Lemma stage_event (g0 g : G) (l : state) maps (e : StacksTransactionEvent) :
  stage g0 g l maps (event_batches g0) -> stage g0 (register_event g e) l maps (push_event (Some e) (event_batches g0)).
Proof.
  intros [H1 H2 H3 H4 H5 H6 H7]. unfold register_event, push_event. rewrite H2.
  destruct (event_batches g0) as [|b rest]; by split.
Qed.

(** The last step of a call that changes the state. *)
Lemma does_end (g0 g : G) (a : answer) maps :
  a_value a = Value_okay_true ->
  stage g0 g (a_state a) maps (push_event (a_event a) (event_batches g0)) ->
  recorded (a_moved a) (asset_maps g0) maps ->
  does (Ok a) g0 (okay_true g).
Proof. intros Hv Hst Hr. exists a, maps. by rewrite Hv. Qed.

(** The last step of a call that changes nothing. *)
Lemma does_answer (g0 g : G) (l : state) (v : Value) :
  stage g0 g l (asset_maps g0) (event_batches g0) -> does (answers l v) g0 (Ok (g, v)).
Proof. intros Hst. by exists (mkAnswer v l None None), (asset_maps g0). Qed.

Lemma does_refuse (g0 g : G) (l : state) (code : Z) :
  stage g0 g l (asset_maps g0) (event_batches g0) -> does (refuses l code) g0 (clarity_ecode g code).
Proof. apply does_answer. Qed.
End refinement.
