(* ===== verification/LedgerRefinement.v ===== *)
(** LedgerRefinement: the asset natives refine the specification of Ledger.v,
    and keep the books balanced. *)
From Stdlib Require Import ZArith Lia Strings.Byte Strings.String Strings.Ascii List Bool.
From stdpp Require Import base decidable list strings option gmap pretty.
From S2P Require Import Prelude Bytes Codec Representations BTree Types Signatures Admission Values.
From S2P Require Import Serialization RoundTrip Deserialization AssetMap Hashes C32 Principals BackingStore.
From S2P Require Import RollbackWrapper RollbackRefinement Events GlobalContext ClarityDb ClarityState StxBalance.
From S2P Require Import Costs Contexts Assets StateLayout TypedState Ledger.
Open Scope Z_scope.

(** Steps over a charge to the tracker. *)
Ltac charge g Hst :=
  first [eapply does_runtime | eapply does_charge_principal | eapply does_charge_uint | eapply does_memory];
  [exact Hst|]; clear g Hst; intros g Hst.
(** Starts a call: the first charge, then literal arguments. *)
Ltac literal_args :=
  cbn [eval_arg atom_arg arg nth_error expect_some out_bind arg_eval value_arg name_arg arg_atom ok_or].

Section natives_refine.
Context {O : HashOrder} {D : Digests} {L : DigestLaws D} {J : SerdeJson} {JL : SerdeJsonLaws J} {N : HeadersDB}.
Context {C S T : Type} `{Sqlite C} `{!ClarityBackingStore C S} `{!StoreLaws C S} `{!CostTracker T} `{!TrackerLaws T}.
Notation G := (GlobalContext S T).
Notation text := QualifiedContractIdentifier_to_string.
Notation account_of p := (AccountSlot (PrincipalData_to_string p)).

(** Balanced books: every token's supply is held by its holders, and the liquid
    supply by the accounts. *)
Record books (l : state) : Prop := {
  bk_ft : forall c t, no_colon c = true -> no_colon t = true -> is_Some (l (SupplySlot c t)) ->
    sums_to (fun p => amount_at l (FtSlot c t p)) (amount_at l (SupplySlot c t));
  bk_stx : sums_to (fun o => total (account_at l (AccountSlot o))) (amount_at l LiquidSlot)
}.

(** The context of a running contract: open, in an epoch with Clarity, over a
    database that agrees with the tokens the contract defines. *)
Record ready (env : Environment) (h : Z) (g : G) (l : state) : Prop := {
  rd_state : represents (database g) l;
  rd_open : asset_maps g <> [];
  rd_epoch : exists e, StacksEpochId_try_from (epoch_id g) = Some e /\ e <> Epoch10;
  rd_height : get_current_burnchain_block_height (database g) = Ok h /\ 0 <= h;
  rd_contract : QualifiedContractIdentifier_wf (self_contract env) = true;
  rd_ft : forall t d, meta_ft (contract_context env) !! t = Some d ->
    no_colon t = true /\ is_Some (l (SupplySlot (text (self_contract env)) t)) /\
    forall m, ft_total_supply d = Some m -> amount_at l (SupplySlot (text (self_contract env)) t) <= m;
  rd_load : forall t, load_ft (database g) (self_contract env) t = defined_ft env t;
  rd_nft : forall a d, meta_nft (contract_context env) !! a = Some d ->
    no_colon a = true /\ TypeSignature_wf (nft_key_type d) = true /\ declared_type (nft_key_type d) = true;
  rd_books : books l
}.

(** The arguments are values; a supply is asked only of a defined token, as the
    static analysis checks. *)
Definition call_ok (env : Environment) (k : call) : Prop :=
  match k with
  | StxTransfer n from to => amount_ok n /\ printable from /\ printable to
  | StxBurn n p | StxWithdraw n p => amount_ok n
  | StxGetBalance p => True
  | FtMint t n p | FtBurn t n p | FtWithdraw t n p => amount_ok n
  | FtTransfer t n p q => amount_ok n
  | FtGetBalance t p => True
  | FtGetSupply t => is_Some (meta_ft (contract_context env) !! t)
  | NftMint a v p | NftBurn a v p | NftWithdraw a v p => Value_wf v = true /\ principal_ok p
  | NftTransfer a v p q => Value_wf v = true /\ principal_ok p /\ principal_ok q
  | NftGetOwner a v => Value_wf v = true
  end.

Section one_call.
Context (env : Environment) (h : Z) (g0 : G) (l : state) (R : ready env h g0 l).
Notation c := (self_contract env).
Notation maps0 := (asset_maps g0).
Notation batches0 := (event_batches g0).

Lemma stage_init : stage g0 g0 l maps0 batches0.
Proof using R. split; try done. apply R. Qed.

Lemma c_no_colon : no_colon (text c) = true.
Proof using L R. apply contract_no_colon, R. Qed.

Lemma ft_names (t : string) (d : FungibleTokenMetadata) :
  meta_ft (contract_context env) !! t = Some d -> no_colon (text c) = true /\ no_colon t = true.
Proof using L R. intros Hd. split; [apply c_no_colon|by eapply rd_ft]. Qed.

Lemma amount_nonneg (s : slot) : slot_ok s = true -> 0 <= amount_at l s <= u128_max.
Proof using R.
  intros Hs. destruct (rd_state _ _ _ _ R) as [_ Hl]. specialize (Hl s Hs). unfold amount_at.
  destruct (l s) as [[n|o|b|x]|]; try (unfold u128_max; lia). destruct Hl as [Hc _].
  unfold cell_ok in Hc. destruct s; unfold u128_max, u64_max in *; lia.
Qed.

Lemma account_total (o : string) : 0 <= total (account_at l (AccountSlot o)).
Proof using R. destruct (account_at_wf _ _ o (rd_state _ _ _ _ R)) as (? & ? & _). unfold total. lia. Qed.

(** ** STX *)
Lemma stage_snapshot (g : G) (l' : state) maps batches (p : PrincipalData) :
  stage g0 g l' maps batches -> stx_snapshot g p = Ok (mkSnapshot p (account_at l' (account_of p)) h).
Proof using R.
  intros Hst. unfold stx_snapshot, get_stx_balance_snapshot. rewrite (get_account_at _ _ p (st_state _ _ _ _ _ Hst)).
  assert (get_current_burnchain_block_height (database g) = Ok h) as ->; [|done].
  rewrite <-(proj1 (rd_height _ _ _ _ R)). destruct (st_meta _ _ _ _ _ Hst) as (Hs & _).
  unfold get_current_burnchain_block_height, db_current_block_height, get_index_block_header_hash. by rewrite Hs.
Qed.

Lemma can_transfer_ok (p : PrincipalData) (n : Z) :
  can_transfer (E:=VmError) (mkSnapshot p (account_at l (account_of p)) h) n =
  Ok (n <=? spendable (account_at l (account_of p)) h).
Proof using R.
  unfold can_transfer. rewrite available_closed by (eapply account_at_wf, R). done.
Qed.

Lemma stx_transfer_does (n : Z) (from to : PrincipalData) :
  amount_ok n -> printable from -> printable to ->
  does (spec env h l (StxTransfer n from to)) g0 (native (StxTransfer n from to) env g0).
Proof using L JL TrackerLaws0 R.
  intros Hn Hfrom Hto. cbn [spec native]. unfold special_stx_transfer. cbn [check_argument_count length Nat.eqb negb out_bind].
  eapply does_runtime; [apply stage_init|]. intros g Hst. literal_args.
  unfold stx_transfer_consolidated, spec_stx_transfer.
  destruct (Z.eqb_spec n 0); [by apply does_refuse|]. destruct (bool_decide_reflect (from = to)) as [|Hne]; [by apply does_refuse|].
  destruct (negb _); [by apply does_refuse|].
  do 4 charge g Hst.
  rewrite (stage_snapshot g l _ _ from Hst). cbn [out_bind]. eapply does_read; [apply can_transfer_ok|].
  rewrite Z.leb_antisym, negb_involutive. destruct (Z.ltb_spec (spendable (account_at l (account_of from)) h) n) as [|Hle];
    [by apply does_refuse|].
  assert (total (account_at l (account_of to)) + n <= u128_max) as Hfit.
  { assert (PrincipalData_to_string from <> PrincipalData_to_string to) as Htexts.
    { intros Heq. by apply PrincipalData_to_string_inj in Heq. }
    pose proof (sums_to_le2 _ _ _ _ account_total Htexts (bk_stx _ (rd_books _ _ _ _ R))) as Hle2. cbv beta in Hle2.
    pose proof (amount_nonneg LiquidSlot eq_refl). unfold amount_ok in Hn.
    pose proof (spendable_range (account_at l (account_of from)) h (account_at_wf _ _ _ (rd_state _ _ _ _ R))). lia. }
  eapply does_write; [exact Hst| |].
  { apply (transfer_to_ok (database g) l from to h n); [apply Hst|apply R|unfold amount_ok in Hn; lia|done]. }
  clear g Hst. intros g Hst.
  eapply (does_move _ _ _ _ _ (MoveSTX from n)); [exact Hst|done|apply R|by intros m|done|]. clear g Hst. intros g maps' Hst Hrec.
  eapply does_end; [done|by apply stage_event|done].
Qed.

(** [stx-burn?] and [stx-withdraw?] *)
Lemma stx_destroy_does (cost : ClarityCostFunction) (event : PrincipalData -> Z -> STXEventType) (n : Z) (from : PrincipalData) :
  amount_ok n ->
  does (spec_stx_destroy env h l n from (event from n)) g0
    (stx_destroy cost (fun g p k => register_event g (STXEvent (event p k))) [value_arg (VUInt n); value_arg (VPrincipal from)] env g0).
Proof using L JL TrackerLaws0 R.
  intros Hn. unfold stx_destroy. cbn [check_argument_count length Nat.eqb negb out_bind].
  eapply does_runtime; [apply stage_init|]. intros g Hst. literal_args. unfold spec_stx_destroy.
  destruct (Z.eqb_spec n 0); [by apply does_refuse|]. destruct (negb _); [by apply does_refuse|]. do 2 charge g Hst.
  rewrite (stage_snapshot g l _ _ from Hst). cbn [out_bind]. eapply does_read; [apply can_transfer_ok|].
  rewrite Z.leb_antisym, negb_involutive. set (b := account_at l (account_of from)).
  pose proof (account_at_wf _ _ (PrincipalData_to_string from) (rd_state _ _ _ _ R)) as Hb. fold b in Hb.
  destruct (Z.ltb_spec (spendable b h) n) as [|Hle]; [by apply does_refuse|]. unfold amount_ok in Hn.
  assert (debit (E:=VmError) (mkSnapshot from b h) n = Ok (mkSnapshot from (debited b h n) h)) as Hdebit.
  { rewrite debit_closed by (done || lia). cbn [balance burn_block_height]. by rewrite (proj2 (Z.leb_le _ _)) by lia. }
  eapply does_read; [exact Hdebit|].
  assert (n <= amount_at l LiquidSlot) as Hliquid.
  { pose proof (sums_to_le _ _ (PrincipalData_to_string from) account_total (bk_stx _ (rd_books _ _ _ _ R))) as Ht.
    cbv beta in Ht. fold b in Ht. pose proof (spendable_range b h Hb). lia. }
  eapply does_write; [exact Hst|apply (write_account (database g) l from (debited b h n));
    [apply Hst|apply debited_wf; [done|lia]]|]. clear g Hst. intros g Hst.
  eapply does_write; [exact Hst|apply (decrement_liquid_ok (database g)); [apply Hst|rewrite amount_set_ne by done; lia]|].
  clear g Hst. intros g Hst. rewrite amount_set_ne in Hst by done.
  eapply (does_move _ _ _ _ _ (BurnSTX from n)); [exact Hst|done|apply R|by intros m|done|].
  clear g Hst. intros g maps' Hst Hrec. eapply does_end; [done|by apply stage_event|done].
Qed.

Lemma stx_balance_does (p : PrincipalData) :
  does (spec env h l (StxGetBalance p)) g0 (native (StxGetBalance p) env g0).
Proof using TrackerLaws0 R.
  cbn [spec native]. unfold special_stx_balance. cbn [check_argument_count length Nat.eqb negb out_bind].
  eapply does_runtime; [apply stage_init|]. intros g Hst. literal_args.
  rewrite (stage_snapshot g l _ _ p Hst). cbn [out_bind].
  eapply does_read; [apply available_closed; eapply account_at_wf, R|]. by apply does_answer.
Qed.

(** ** Fungible tokens *)
(** The part of a mint after its supply check. *)
Lemma ft_mint_credit (g : G) (t : string) (n : Z) (to : PrincipalData) (d : FungibleTokenMetadata) :
  let supply := SupplySlot (text c) t in
  let new := amount_at l supply + n in
  let holder := FtSlot (text c) t to in
  let event := FTEvent (FTMintEvent (mkAssetId c t) to n) in
  stage g0 g l maps0 batches0 -> meta_ft (contract_context env) !! t = Some d -> 0 <= n -> new <= u128_max ->
  (exists w', checked_increase_token_supply (database g) c t n d = Ok w' /\
    represents w' (set_cell l supply (Amount new)) /\ same_metadata (database g) w') ->
  does (changes (set_cell (set_cell l supply (Amount new)) holder (Amount (amount_at l holder + n))) None event) g0
    (let? self := write_db g (checked_increase_token_supply (database g) c t n d) in
     let? to_bal := read_db self (get_ft_balance (database self) c t to (Some d)) in
     let? final_to_bal := expect_some (checked_add u128_ty to_bal n) in
     let? self := charge_principal self in
     let? self := charge_uint self in
     let? self := write_db self (set_ft_balance (database self) c t to final_to_bal) in
     okay_true (register_event self event)).
Proof using L JL TrackerLaws0 R.
  intros supply new holder event Hst Hd Hn Hfit Hw. subst supply new holder event. pose proof (ft_names t d Hd) as Hnames.
  destruct (rd_ft _ _ _ _ R t d Hd) as (Ht & Hs & _).
  eapply does_write; [exact Hst|exact Hw|]. clear g Hst Hw. intros g Hst.
  eapply does_read; [eapply (get_ft_balance_ok c t Hnames (database g)), Hst|]. rewrite amount_set_ne by done.
  assert (0 <= amount_at l (FtSlot (text c) t to) + n <= u128_max) as Hto.
  { pose proof (amount_nonneg _ (ft_slot_ok c t Hnames to)).
    pose proof (sums_to_le _ _ to (fun q => proj1 (amount_nonneg _ (ft_slot_ok c t Hnames q)))
      (bk_ft _ (rd_books _ _ _ _ R) (text c) t (proj1 Hnames) Ht Hs)) as Hle. cbv beta in Hle.
    lia. }
  unfold checked_add. rewrite checked_ok by (unfold_bounds; lia). cbn [expect_some out_bind]. do 2 charge g Hst.
  eapply does_write; [exact Hst|apply (set_ft_balance_ok c t Hnames (database g)); [apply Hst|done]|].
  clear g Hst. intros g Hst. eapply does_end; [done|by apply stage_event|done].
Qed.

Lemma ft_mint_does (t : string) (n : Z) (to : PrincipalData) :
  amount_ok n -> does (spec env h l (FtMint t n to)) g0 (native (FtMint t n to) env g0).
Proof using L JL TrackerLaws0 R.
  intros Hn. cbn [spec native]. unfold special_mint_token, spec_ft_mint. cbn [check_argument_count length Nat.eqb negb out_bind].
  eapply does_runtime; [apply stage_init|]. intros g Hst. literal_args.
  destruct (Z.eqb_spec n 0); [by apply does_refuse|]. unfold ft_info, defined_ft.
  destruct (meta_ft (contract_context env) !! t) as [d|] eqn:Hd; cbn [ok_or out_bind]; [|by left].
  destruct (rd_ft _ _ _ _ R t d Hd) as (_ & Hs & _). unfold amount_ok in Hn.
  pose proof (increase_supply_ok c t (ft_names t d Hd) (database g) l n d (st_state _ _ _ _ _ Hst) Hs ltac:(lia)) as Hinc.
  cbv zeta in Hinc. destruct (Z.ltb_spec u128_max (amount_at l (SupplySlot (text c) t) + n)) as [|Hfit]; [rewrite Hinc; by left|].
  destruct (ft_total_supply d) as [m|]; [destruct (m <? _); [rewrite Hinc; by left|]|]; cbn [out_bind];
    apply ft_mint_credit; (done || lia).
Qed.

Lemma ft_transfer_does (t : string) (n : Z) (from to : PrincipalData) :
  amount_ok n -> does (spec env h l (FtTransfer t n from to)) g0 (native (FtTransfer t n from to) env g0).
Proof using L JL TrackerLaws0 R.
  intros Hn. cbn [spec native]. unfold special_transfer_token, spec_ft_transfer. cbn [check_argument_count length Nat.eqb negb out_bind].
  eapply does_runtime; [apply stage_init|]. intros g Hst. literal_args.
  destruct (Z.eqb_spec n 0); [by apply does_refuse|].
  destruct (bool_decide_reflect (from = to)) as [|Hne]; [by apply does_refuse|]. unfold ft_info, defined_ft.
  destruct (meta_ft (contract_context env) !! t) as [d|] eqn:Hd; cbn [ok_or out_bind]; [|by left].
  pose proof (ft_names t d Hd) as Hnames. destruct (rd_ft _ _ _ _ R t d Hd) as (Ht & Hs & _). unfold amount_ok in Hn.
  set (a := FtSlot (text c) t from). set (b := FtSlot (text c) t to).
  eapply does_read; [eapply (get_ft_balance_ok c t Hnames (database g)), Hst|]. fold a.
  destruct (Z.ltb_spec (amount_at l a) n) as [|Hle]; [by apply does_refuse|].
  eapply does_read; [eapply (get_ft_balance_ok c t Hnames (database g)), Hst|]. fold b.
  pose proof (amount_nonneg a (ft_slot_ok c t Hnames from)). pose proof (amount_nonneg b (ft_slot_ok c t Hnames to)).
  pose proof (amount_nonneg _ (supply_slot_ok c t Hnames)).
  pose proof (sums_to_le2 _ _ from to (fun q => proj1 (amount_nonneg _ (ft_slot_ok c t Hnames q))) Hne
    (bk_ft _ (rd_books _ _ _ _ R) (text c) t (proj1 Hnames) Ht Hs)) as Hsum. cbv beta in Hsum. fold a b in Hsum.
  unfold checked_add. rewrite checked_ok by (unfold_bounds; lia). cbn [ok_or out_bind]. do 4 charge g Hst.
  eapply does_write; [exact Hst|apply (set_ft_balance_ok c t Hnames (database g)); [apply Hst|lia]|].
  clear g Hst. intros g Hst.
  eapply does_write; [exact Hst|apply (set_ft_balance_ok c t Hnames (database g)); [apply Hst|lia]|].
  clear g Hst. intros g Hst.
  eapply (does_move _ _ _ _ _ (MoveToken from (mkAssetId c t) n)); [exact Hst|done|apply R|by intros m|done|].
  clear g Hst. intros g maps' Hst Hrec. eapply does_end; [done|by apply stage_event|done].
Qed.

(** [ft-burn?] and [ft-withdraw?] *)
Lemma ft_destroy_does (cost : ClarityCostFunction) (zero : Z) (bad : CheckErrors)
    (event : AssetIdentifier -> PrincipalData -> Z -> FTEventType) (t : string) (n : Z) (from : PrincipalData) :
  amount_ok n ->
  does (spec_ft_destroy env l t n from zero (event (mkAssetId c t) from n)) g0
    (ft_destroy cost zero 1 bad (fun g p k a => register_event g (FTEvent (event a p k))) [name_arg t; value_arg (VUInt n); value_arg (VPrincipal from)] env g0).
Proof using L JL TrackerLaws0 R.
  intros Hn. unfold ft_destroy, spec_ft_destroy. cbn [check_argument_count length Nat.eqb negb out_bind].
  eapply does_runtime; [apply stage_init|]. intros g Hst. literal_args.
  destruct (Z.eqb_spec n 0); [by apply does_refuse|].
  pose proof (load_ft_same _ _ c t (st_meta _ _ _ _ _ Hst)) as Hload. rewrite (rd_load _ _ _ _ R) in Hload.
  destruct (meta_ft (contract_context env) !! t) as [d|] eqn:Hd.
  2:{ unfold defined_ft in *. rewrite Hd in *. unfold read_db, get_ft_balance. rewrite Hload. by left. }
  pose proof (ft_names t d Hd) as Hnames. destruct (rd_ft _ _ _ _ R t d Hd) as (Ht & Hs & _). unfold amount_ok in Hn.
  unfold defined_ft in *. rewrite Hd in *. cbn [ok_or out_bind] in *.
  eapply does_read; [rewrite (get_ft_balance_loaded c t Hnames (database g) l from (st_state _ _ _ _ _ Hst)), Hload; done|].
  set (a := FtSlot (text c) t from). set (sup := SupplySlot (text c) t).
  destruct (Z.ltb_spec (amount_at l a) n) as [|Hle]; [by apply does_refuse|].
  pose proof (amount_nonneg a (ft_slot_ok c t Hnames from)).
  pose proof (sums_to_le _ _ from (fun q => proj1 (amount_nonneg _ (ft_slot_ok c t Hnames q)))
    (bk_ft _ (rd_books _ _ _ _ R) (text c) t (proj1 Hnames) Ht Hs)) as Hsum. cbv beta in Hsum. fold a sup in Hsum.
  eapply does_write; [exact Hst|apply (decrease_supply_ok c t Hnames (database g) l n); [apply Hst|done|fold sup; lia]|].
  clear g Hst Hload. intros g Hst.
  eapply does_write; [exact Hst|apply (set_ft_balance_ok c t Hnames (database g)); [apply Hst|lia]|].
  clear g Hst. intros g Hst.
  apply (stage_event _ _ _ _ (FTEvent (event (mkAssetId c t) from n))) in Hst.
  generalize dependent (register_event g (FTEvent (event (mkAssetId c t) from n))). clear g. intros g Hst. do 2 charge g Hst.
  eapply (does_move _ _ _ _ _ (MoveToken from (mkAssetId c t) n)); [exact Hst|done|apply R|by intros m|done|].
  clear g Hst. intros g maps' Hst Hrec. by eapply does_end.
Qed.

Lemma ft_balance_does (t : string) (p : PrincipalData) :
  does (spec env h l (FtGetBalance t p)) g0 (native (FtGetBalance t p) env g0).
Proof using L JL TrackerLaws0 R.
  cbn [spec native]. unfold special_get_balance. cbn [check_argument_count length Nat.eqb negb out_bind].
  eapply does_runtime; [apply stage_init|]. intros g Hst. literal_args. unfold ft_info, defined_ft.
  destruct (meta_ft (contract_context env) !! t) as [d|] eqn:Hd; cbn [ok_or out_bind]; [|by left].
  eapply does_read; [eapply (get_ft_balance_ok c t (ft_names t d Hd) (database g)), Hst|]. by apply does_answer.
Qed.

Lemma ft_supply_does (t : string) :
  is_Some (meta_ft (contract_context env) !! t) ->
  does (spec env h l (FtGetSupply t)) g0 (native (FtGetSupply t) env g0).
Proof using L JL TrackerLaws0 R.
  intros [d Hd]. cbn [spec native]. unfold special_get_token_supply. cbn [check_argument_count length Nat.eqb negb out_bind].
  eapply does_runtime; [apply stage_init|]. intros g Hst. literal_args. destruct (rd_ft _ _ _ _ R t d Hd) as (_ & Hs & _).
  eapply does_read; [eapply (get_ft_supply_ok c t (ft_names t d Hd) (database g) l); [apply Hst|done]|]. by apply does_answer.
Qed.

(** ** Non-fungible tokens *)
Definition size_ok (size : TypeSignature -> Value -> outcome VmError Z) : Prop :=
  forall t v, TypeSignature_wf t = true -> Value_wf v = true -> exists n, size t v = Ok n.

Lemma does_typed (size : TypeSignature -> Value -> outcome VmError Z) (f : ClarityCostFunction) (a : string) (v : Value)
    (g : G) (ans : outcome VmError answer) (k : G -> TypeSignature -> Z -> outcome (G * VmError) (G * Value)) :
  size_ok size -> Value_wf v = true -> stage g0 g l maps0 batches0 ->
  (forall g1 d n, stage g0 g1 l maps0 batches0 -> meta_nft (contract_context env) !! a = Some d ->
    admits_b (nft_key_type d) v = true -> does ans g0 (k g1 (nft_key_type d) n)) ->
  does (let? _ := typed_asset env a v in ans) g0
    (let? t := expected_asset_type env g a in
     let? n := read_db g (size t v) in
     let? g := env_runtime_cost f g n in
     let? _ := read_db g (check_admits t v) in
     k g t n).
Proof using TrackerLaws0 R.
  intros Hsize Hv Hst Hk. unfold expected_asset_type, typed_asset.
  destruct (meta_nft (contract_context env) !! a) as [d|] eqn:Hd; cbn [ok_or out_bind]; [|by left].
  destruct (rd_nft _ _ _ _ R a d Hd) as (_ & Hwf & Hdecl). destruct (Hsize (nft_key_type d) v Hwf Hv) as [n Hn].
  eapply does_read; [exact Hn|]. charge g Hst. rewrite check_admits_ok by done.
  destruct (admits_b (nft_key_type d) v) eqn:Ha; cbn [read_db map_err out_bind]; [by apply Hk|by left].
Qed.

Lemma nft_owner_does (g : G) (a : string) (v : Value) (d : NonFungibleTokenMetadata) maps batches
    (ans : outcome VmError answer) (k : option PrincipalData -> outcome (G * VmError) (G * Value)) :
  stage g0 g l maps batches -> Value_wf v = true -> meta_nft (contract_context env) !! a = Some d ->
  admits_b (nft_key_type d) v = true ->
  does ans g0 (k (owner_at l (NftSlot (text c) a (value_text v)))) ->
  does ans g0 (let? o := nft_owner env g a v (nft_key_type d) in k o).
Proof using L JL R.
  intros Hst Hv Hd Ha Hk. destruct (rd_nft _ _ _ _ R a d Hd) as (Hcol & _ & Hdecl). unfold nft_owner.
  rewrite (get_nft_owner_ok c a (nft_key_type d) v c_no_colon Hcol Hdecl Hv Ha (database g) l (st_state _ _ _ _ _ Hst)).
  by destruct (owner_at l _).
Qed.

Section sized.
Context (size : TypeSignature -> Value -> outcome VmError Z) (Hsize : size_ok size).
Context (a : string) (v : Value) (Hv : Value_wf v = true).

Lemma mint_asset_does (to : PrincipalData) :
  principal_ok to ->
  does (spec env h l (NftMint a v to)) g0 (mint_asset size [name_arg a; value_arg v; value_arg (VPrincipal to)] env g0).
Proof using L JL TrackerLaws0 R Hsize Hv.
  intros Hto. cbn [spec]. unfold mint_asset. cbn [check_argument_count length Nat.eqb negb out_bind]. literal_args.
  apply (does_typed size); [done..|apply stage_init|]. intros g d n Hst Hd Ha.
  eapply nft_owner_does; [done..|]. destruct (owner_at l _) as [p|]; [by apply does_refuse|]. do 2 charge g Hst.
  destruct (rd_nft _ _ _ _ R a d Hd) as (Hcol & _ & Hdecl).
  eapply does_write; [exact Hst|apply (set_nft_owner_ok c a (nft_key_type d) v c_no_colon Hcol Hdecl Hv Ha (database g) l to);
    [apply Hst|done]|].
  clear g Hst. intros g Hst. eapply does_end; [done|by apply stage_event|done].
Qed.

Lemma transfer_asset_does (from to : PrincipalData) :
  principal_ok to ->
  does (spec env h l (NftTransfer a v from to)) g0
    (transfer_asset size [name_arg a; value_arg v; value_arg (VPrincipal from); value_arg (VPrincipal to)] env g0).
Proof using L JL TrackerLaws0 R Hsize Hv.
  intros Hto. cbn [spec]. unfold transfer_asset. cbn [check_argument_count length Nat.eqb negb out_bind]. literal_args.
  apply (does_typed size); [done..|apply stage_init|]. intros g d n Hst Hd Ha.
  destruct (bool_decide _); [by apply does_refuse|].
  eapply nft_owner_does; [done..|]. destruct (owner_at l _) as [p|]; [|by apply does_refuse].
  destruct (negb _); [by apply does_refuse|]. do 2 charge g Hst. destruct (rd_nft _ _ _ _ R a d Hd) as (Hcol & _ & Hdecl).
  eapply does_write; [exact Hst|apply (set_nft_owner_ok c a (nft_key_type d) v c_no_colon Hcol Hdecl Hv Ha (database g) l to);
    [apply Hst|done]|]. clear g Hst. intros g Hst.
  eapply (does_move _ _ _ _ _ (MoveAsset from (mkAssetId c a) v)); [exact Hst|done|apply R|by intros m|done|].
  clear g Hst. intros g maps' Hst Hrec. eapply does_end; [done|by apply stage_event|done].
Qed.

Lemma get_owner_does :
  does (spec env h l (NftGetOwner a v)) g0 (get_owner size [name_arg a; value_arg v] env g0).
Proof using L JL TrackerLaws0 R Hsize Hv.
  cbn [spec]. unfold get_owner. cbn [check_argument_count length Nat.eqb negb out_bind]. literal_args.
  apply (does_typed size); [done..|apply stage_init|]. intros g d n Hst Hd Ha.
  eapply nft_owner_does; [done..|]. by destruct (owner_at l _) as [p|]; apply does_answer.
Qed.

Lemma burn_asset_does (from : PrincipalData) :
  does (spec env h l (NftBurn a v from)) g0 (burn_asset size [name_arg a; value_arg v; value_arg (VPrincipal from)] env g0).
Proof using L JL TrackerLaws0 R Hsize Hv.
  cbn [spec]. unfold burn_asset. cbn [check_argument_count length Nat.eqb negb out_bind].
  eapply does_runtime; [apply stage_init|]. intros g Hst. literal_args.
  apply (does_typed size); [done..|]. clear g Hst. intros g d n Hst Hd Ha.
  eapply nft_owner_does; [done..|]. destruct (owner_at l _) as [p|]; [|by apply does_refuse].
  destruct (negb _); [by apply does_refuse|]. do 2 charge g Hst. destruct (rd_nft _ _ _ _ R a d Hd) as (Hcol & _ & Hdecl).
  eapply does_write; [exact Hst|apply (burn_nft_ok c a (nft_key_type d) v c_no_colon Hcol Hdecl Hv Ha (database g) l), Hst|].
  clear g Hst. intros g Hst.
  eapply (does_move _ _ _ _ _ (MoveAsset from (mkAssetId c a) v)); [exact Hst|done|apply R|by intros m|done|].
  clear g Hst. intros g maps' Hst Hrec. eapply does_end; [done|by apply stage_event|done].
Qed.
End sized.

Lemma v200_size_ok : size_ok v200_size.
Proof using. intros t v (n & Hn & _)%wf_size _. exists n. unfold v200_size, type_size_u64, TypeSignature_size. by rewrite Hn. Qed.

Lemma v205_size_ok : size_ok v205_size.
Proof using.
  intros t v _ Hv. destruct (serialize_bound v Hv) as (bs & Hbs & Hlen). exists (zlen bs).
  unfold v205_size, serialized_size. rewrite Hbs. cbn [expect out_bind]. rewrite checked_ok; [done|].
  pose proof (zlen_nonneg bs). unfold BOUND_VALUE_SERIALIZATION_BYTES, MAX_VALUE_SIZE in Hlen. unfold_bounds. lia.
Qed.

Lemma withdraw_asset_does (a : string) (v : Value) (from : PrincipalData) :
  Value_wf v = true ->
  does (spec env h l (NftWithdraw a v from)) g0 (native (NftWithdraw a v from) env g0).
Proof using L JL TrackerLaws0 R.
  intros Hv. cbn [spec native]. unfold special_withdraw_asset. cbn [check_argument_count length Nat.eqb negb out_bind].
  eapply does_runtime; [apply stage_init|]. intros g Hst. literal_args.
  apply (does_typed v205_size); [apply v205_size_ok|done..|]. clear g Hst. intros g d n Hst Hd Ha.
  eapply nft_owner_does; [done..|]. destruct (owner_at l _) as [p|]; [|by apply does_refuse].
  destruct (negb _); [by apply does_refuse|]. destruct v as [i|id|b|q|pr|o|[] r|d']; try (by apply does_refuse).
  do 2 charge g Hst. destruct (rd_nft _ _ _ _ R a d Hd) as (Hcol & _ & Hdecl).
  eapply does_write; [exact Hst|apply (burn_nft_ok c a (nft_key_type d) _ c_no_colon Hcol Hdecl Hv Ha (database g) l), Hst|].
  clear g Hst. intros g Hst.
  eapply (does_move _ _ _ _ _ (MoveAsset from (mkAssetId c a) (VUInt id))); [exact Hst|done|apply R|by intros m|done|].
  clear g Hst. intros g maps' Hst Hrec. eapply does_end; [done|by apply stage_event|done].
Qed.

Lemma epoch_switch_does {A B : Type} (v200 v205 : A -> B -> G -> outcome (G * VmError) (G * Value)) (x : A) (y : B)
    (ans : outcome VmError answer) :
  does ans g0 (v200 x y g0) -> does ans g0 (v205 x y g0) -> does ans g0 (switch_on_global_epoch v200 v205 x y g0).
Proof using R.
  intros H1 H2. unfold switch_on_global_epoch. destruct (rd_epoch _ _ _ _ R) as (e & -> & He). by destruct e.
Qed.

Lemma call_does (k : call) : call_ok env k -> does (spec env h l k) g0 (native k env g0).
Proof using L JL TrackerLaws0 R.
  destruct k as [n f t|n f|n f|p|t n q|t n f q|t n f|t n f|t p|t|a v q|a v f q|a v f|a v f|a v]; cbn [call_ok].
  - intros (? & ? & ?). by apply stx_transfer_does.
  - apply (stx_destroy_does CostFunction.StxTransfer STXBurnEvent).
  - apply (stx_destroy_does CostFunction.StxWithdraw (fun s m => STXWithdrawEvent (mkStxWithdraw s m None))).
  - intros _. apply stx_balance_does.
  - apply ft_mint_does.
  - apply ft_transfer_does.
  - apply (ft_destroy_does CostFunction.FtBurn 1 CheckErr.BadBurnFTArguments FTBurnEvent).
  - apply (ft_destroy_does CostFunction.FtWithdraw 3 CheckErr.BadWithdrawFTArguments
      (fun i s m => FTWithdrawEvent (mkFtWithdraw i s m None))).
  - intros _. apply ft_balance_does.
  - apply ft_supply_does.
  - intros [Hv Hq]. apply epoch_switch_does; apply mint_asset_does; auto using v200_size_ok, v205_size_ok.
  - intros (Hv & _ & Hq). apply epoch_switch_does; apply transfer_asset_does; auto using v200_size_ok, v205_size_ok.
  - intros [Hv _]. apply epoch_switch_does; apply burn_asset_does; auto using v200_size_ok, v205_size_ok.
  - intros [Hv _]. by apply withdraw_asset_does.
  - intros Hv. apply epoch_switch_does; apply get_owner_does; auto using v200_size_ok, v205_size_ok.
Qed.

(** * Books *)
(** The limits of the contract's own tokens. *)
Definition supplies_ok (l' : state) : Prop :=
  forall t d, meta_ft (contract_context env) !! t = Some d ->
    is_Some (l' (SupplySlot (text c) t)) /\
    forall m, ft_total_supply d = Some m -> amount_at l' (SupplySlot (text c) t) <= m.

Lemma supplies_init : supplies_ok l.
Proof using R. intros t d Hd. by destruct (rd_ft _ _ _ _ R t d Hd) as (_ & ?). Qed.

(** Cells other than amounts and accounts do not count. *)
Lemma books_owner (s : slot) (o : option PrincipalData) :
  (exists x y z, s = NftSlot x y z) -> books (set_cell l s (Owner o)) /\ supplies_ok (set_cell l s (Owner o)).
Proof using R.
  intros (x & y & z & ->). split.
  - destruct (rd_books _ _ _ _ R) as [Hft Hstx]. split.
    + intros c' t Hc Ht Hs. rewrite set_cell_ne in Hs by done. rewrite amount_set_ne by done.
      eapply sums_to_ext; [|by apply Hft]. intros p. by rewrite amount_set_ne.
    + rewrite amount_set_ne by done. eapply sums_to_ext; [|exact Hstx]. intros o'. by rewrite account_set_ne.
  - intros t d Hd. rewrite set_cell_ne, amount_set_ne by done. by apply supplies_init.
Qed.

(** A holder's balance and the supply change together. *)
Lemma books_issue (t : string) (d : FungibleTokenMetadata) (p : PrincipalData) (x : Z) :
  let sup := SupplySlot (text c) t in
  let held := FtSlot (text c) t p in
  let l' := set_cell (set_cell l sup (Amount (amount_at l sup + x))) held (Amount (amount_at l held + x)) in
  meta_ft (contract_context env) !! t = Some d ->
  (forall m, ft_total_supply d = Some m -> amount_at l sup + x <= m) ->
  books l' /\ supplies_ok l'.
Proof using R.
  intros sup held l' Hd Hmax. destruct (rd_ft _ _ _ _ R t d Hd) as (_ & Hdef & _). split.
  - destruct (rd_books _ _ _ _ R) as [Hft Hstx]. split.
    + intros c' t' Hc Ht Hs. destruct (decide (SupplySlot c' t' = sup)) as [[= -> ->]|Hne].
      * specialize (Hft _ _ Hc Ht Hdef). apply (sums_to_set _ _ p (amount_at l held + x)) in Hft. cbv beta in Hft.
        fold held sup in Hft. subst l'. rewrite amount_set_ne, amount_set, decide_True by done.
        replace (amount_at l sup + x) with (amount_at l sup + (amount_at l held + x) - amount_at l held) by lia.
        eapply sums_to_ext; [|exact Hft]. intros q. cbv beta. rewrite amount_set.
        destruct (decide (q = p)) as [->|Hqp]; [by rewrite decide_True|].
        rewrite decide_False by (subst held; congruence). by rewrite amount_set_ne.
      * subst l'. rewrite !set_cell_ne in Hs by done. rewrite !amount_set_ne by done.
        eapply sums_to_ext; [|by apply Hft]. intros q. rewrite !amount_set_ne; try done. subst held sup. congruence.
    + subst l'. rewrite !amount_set_ne by done. eapply sums_to_ext; [|exact Hstx]. intros o'. by rewrite !account_set_ne.
  - intros t' d' Hd'. subst l'. rewrite set_cell_ne, amount_set_ne, amount_set by done. unfold set_cell.
    destruct (decide (SupplySlot (text c) t' = sup)) as [[= ->]|Hne]; [|by apply supplies_init].
    split; [done|]. rewrite Hd in Hd'. injection Hd' as <-. exact Hmax.
Qed.

(** A transfer between holders. *)
Lemma books_move (t : string) (p q : PrincipalData) (x : Z) :
  let a := FtSlot (text c) t p in
  let b := FtSlot (text c) t q in
  let l' := set_cell (set_cell l a (Amount (amount_at l a - x))) b (Amount (amount_at l b + x)) in
  p <> q -> books l' /\ supplies_ok l'.
Proof using R.
  intros a b l' Hpq. split.
  - destruct (rd_books _ _ _ _ R) as [Hft Hstx]. split.
    + intros c' t' Hc Ht Hs. subst l'. rewrite !set_cell_ne in Hs by done. rewrite !amount_set_ne by done.
      specialize (Hft _ _ Hc Ht Hs). destruct (decide (c' = text c /\ t' = t)) as [[-> ->]|Hne].
      * apply (sums_to_move _ _ x p q Hpq) in Hft. cbv beta in Hft. fold a b in Hft.
        eapply sums_to_ext; [|exact Hft]. intros r. cbv beta. rewrite !amount_set. subst a b.
        repeat destruct (decide _); congruence.
      * eapply sums_to_ext; [|exact Hft]. intros r. rewrite !amount_set_ne; [done|subst a b; naive_solver..].
    + subst l'. rewrite !amount_set_ne by done. eapply sums_to_ext; [|exact Hstx]. intros o'. by rewrite !account_set_ne.
  - intros t' d' Hd'. subst l'. rewrite !set_cell_ne, !amount_set_ne by done. by apply supplies_init.
Qed.

(** A transfer between accounts. *)
Lemma books_stx_move (p q : string) (x : Z) :
  let l' := set_cell (set_cell l (AccountSlot q) (Account (credited (account_at l (AccountSlot q)) x)))
    (AccountSlot p) (Account (debited (account_at l (AccountSlot p)) h x)) in
  p <> q -> books l' /\ supplies_ok l'.
Proof using R.
  intros l' Hpq. split.
  - destruct (rd_books _ _ _ _ R) as [Hft Hstx]. split.
    + intros c' t' Hc Ht Hs. subst l'. rewrite !set_cell_ne in Hs by done. rewrite !amount_set_ne by done.
      eapply sums_to_ext; [|by apply Hft]. intros r. by rewrite !amount_set_ne.
    + subst l'. rewrite !amount_set_ne by done. apply (sums_to_move _ _ x p q Hpq) in Hstx. cbv beta in Hstx.
      eapply sums_to_ext; [|exact Hstx]. intros o. cbv beta. rewrite !account_set.
      destruct (decide (AccountSlot o = AccountSlot p)) as [[= ->]|Hp].
      * rewrite decide_False, decide_True by done. apply debited_total.
      * rewrite (decide_False (P := o = p)) by congruence.
        destruct (decide (AccountSlot o = AccountSlot q)) as [[= ->]|Hq]; [rewrite decide_True by done|by rewrite decide_False by congruence].
        unfold total, credited. simpl. lia.
  - intros t' d' Hd'. subst l'. rewrite !set_cell_ne, !amount_set_ne by done. by apply supplies_init.
Qed.

(** A burn of STX. *)
Lemma books_stx_destroy (p : string) (x : Z) :
  let l' := set_cell (set_cell l (AccountSlot p) (Account (debited (account_at l (AccountSlot p)) h x)))
    LiquidSlot (Amount (amount_at l LiquidSlot - x)) in
  books l' /\ supplies_ok l'.
Proof using R.
  intros l'. split.
  - destruct (rd_books _ _ _ _ R) as [Hft Hstx]. split.
    + intros c' t' Hc Ht Hs. subst l'. rewrite !set_cell_ne in Hs by done. rewrite !amount_set_ne by done.
      eapply sums_to_ext; [|by apply Hft]. intros r. by rewrite !amount_set_ne.
    + subst l'. rewrite amount_set, decide_True by done.
      apply (sums_to_set _ _ p (total (debited (account_at l (AccountSlot p)) h x))) in Hstx. cbv beta in Hstx.
      rewrite debited_total in Hstx. match type of Hstx with sums_to _ ?n => replace (amount_at l LiquidSlot - x) with n by lia end.
      eapply sums_to_ext; [|exact Hstx]. intros o. cbv beta. rewrite account_set_ne, account_set by done.
      destruct (decide (AccountSlot o = AccountSlot p)) as [[= ->]|Hp]; [by rewrite decide_True, debited_total|].
      by rewrite decide_False by congruence.
  - intros t' d' Hd'. subst l'. rewrite !set_cell_ne, !amount_set_ne by done. by apply supplies_init.
Qed.

Lemma ft_destroy_keeps (t : string) (n zero : Z) (from : PrincipalData) (e : FTEventType) (a : answer) :
  amount_ok n -> spec_ft_destroy env l t n from zero e = Ok a -> books (a_state a) /\ supplies_ok (a_state a).
Proof using R.
  intros Hn. unfold spec_ft_destroy, defined_ft.
  assert (books l /\ supplies_ok l) as Hsame by (split; [apply R|apply supplies_init]).
  destruct (n =? 0); [by intros [= <-]|].
  destruct (meta_ft (contract_context env) !! t) as [d|] eqn:Hd; [|done]. cbn [ok_or out_bind].
  destruct (_ <? n); [by intros [= <-]|]. intros [= <-]. apply (books_issue t d from (- n) Hd).
  intros m Hm. destruct (supplies_init t d Hd) as [_ Hmax]. specialize (Hmax m Hm). unfold amount_ok in Hn. lia.
Qed.

Lemma spec_keeps (k : call) (a : answer) :
  call_ok env k -> spec env h l k = Ok a -> books (a_state a) /\ supplies_ok (a_state a).
Proof using L R.
  assert (books l /\ supplies_ok l) as Hsame by (split; [apply R|apply supplies_init]).
  assert (forall v, answers l v = Ok a -> books (a_state a) /\ supplies_ok (a_state a)) as Hans by (intros v [= <-]; done).
  assert (forall n, refuses l n = Ok a -> books (a_state a) /\ supplies_ok (a_state a)) as Href by (intros n; apply Hans).
  intros Hok. destruct k as [n f t|n f|n f|p|t n q|t n f q|t n f|t n f|t p|t|b v q|b v f q|b v f|b v f|b v]; cbn [spec].
  - unfold spec_stx_transfer. destruct (n =? 0); [apply Href|]. destruct (bool_decide_reflect (f = t)); [apply Href|].
    destruct (negb _); [apply Href|]. destruct (_ <? n); [apply Href|]. intros [= <-]. apply books_stx_move.
    intros Heq. destruct Hok as (_ & Hf & Ht). by apply PrincipalData_to_string_inj in Heq.
  - unfold spec_stx_destroy. destruct (n =? 0); [apply Href|]. destruct (negb _); [apply Href|].
    destruct (_ <? n); [apply Href|]. intros [= <-]. apply books_stx_destroy.
  - unfold spec_stx_destroy. destruct (n =? 0); [apply Href|]. destruct (negb _); [apply Href|].
    destruct (_ <? n); [apply Href|]. intros [= <-]. apply books_stx_destroy.
  - apply Hans.
  - unfold spec_ft_mint, defined_ft. destruct (n =? 0); [apply Href|].
    destruct (meta_ft (contract_context env) !! t) as [d|] eqn:Hd; [|done]. cbn [ok_or out_bind].
    destruct (u128_max <? _); [done|]. intros [u [Hmax Ha]]%out_bind_Ok. injection Ha as <-.
    apply (books_issue t d q n Hd). intros m Hm. rewrite Hm in Hmax.
    destruct (Z.ltb_spec m (amount_at l (SupplySlot (text c) t) + n)); [done|lia].
  - unfold spec_ft_transfer, defined_ft. destruct (n =? 0); [apply Href|]. destruct (bool_decide_reflect (f = q)); [apply Href|].
    destruct (meta_ft (contract_context env) !! t) as [d|] eqn:Hd; [|done]. cbn [ok_or out_bind].
    destruct (_ <? n); [apply Href|]. intros [= <-]. by apply books_move.
  - by apply ft_destroy_keeps.
  - by apply ft_destroy_keeps.
  - intros [d [_ Ha]]%out_bind_Ok. by apply Hans in Ha.
  - apply Hans.
  - intros [u [_ Ha]]%out_bind_Ok. destruct (owner_at l _); [by apply Href in Ha|]. injection Ha as <-. apply books_owner. eauto.
  - intros [u [_ Ha]]%out_bind_Ok. destruct (bool_decide _); [by apply Href in Ha|].
    destruct (owner_at l _); [|by apply Href in Ha]. destruct (negb _); [by apply Href in Ha|]. injection Ha as <-.
    apply books_owner. eauto.
  - intros [u [_ Ha]]%out_bind_Ok. destruct (owner_at l _); [|by apply Href in Ha].
    destruct (negb _); [by apply Href in Ha|]. injection Ha as <-. apply books_owner. eauto.
  - intros [u [_ Ha]]%out_bind_Ok. destruct (owner_at l _); [|by apply Href in Ha].
    destruct (negb _); [by apply Href in Ha|]. destruct v; try (by apply Href in Ha). injection Ha as <-. apply books_owner. eauto.
  - intros [d [_ Ha]]%out_bind_Ok. by apply Hans in Ha.
Qed.

(** A call that succeeds leaves a context ready for the next. *)
Lemma ready_after (k : call) (g : G) (v : Value) :
  call_ok env k -> native k env g0 = Ok (g, v) -> exists l', ready env h g l'.
Proof using L JL TrackerLaws0 R.
  intros Hok Hrun. pose proof (call_does k Hok) as Hdo. rewrite Hrun in Hdo.
  destruct Hdo as (a & maps & Hspec & _ & Hst & Hrec). destruct (spec_keeps k a Hok Hspec) as [Hbooks Hsup].
  exists (a_state a). destruct R as [R1 R2 R3 R4 R5 R6 R7 R8 R9]. pose proof Hst as [H1 H2 H3 H4 H5 H6 H7]. split; try done.
  - rewrite H1. unfold recorded in Hrec. destruct (a_moved a) as [mv|]; [|by subst]. destruct Hrec as (m & rest & m' & _ & _ & ->). done.
  - by rewrite H5.
  - destruct H7 as (Hs & _). split; [|apply R4]. rewrite <-(proj1 R4).
    unfold get_current_burnchain_block_height, db_current_block_height, get_index_block_header_hash. by rewrite Hs.
  - intros t d Hd. split; [by eapply R6|]. by apply Hsup.
  - intros t. rewrite <-R7. by apply load_ft_same.
Qed.
End one_call.
End natives_refine.


(** Calls one after the other, up to the first that fails. *)
Fixpoint native_all {O : HashOrder} {D : Digests} {J : SerdeJson} {N : HeadersDB} {C S T : Type} `{Sqlite C}
    `{!ClarityBackingStore C S} `{!CostTracker T} (env : Environment) (ks : list call) (g : GlobalContext S T)
  : outcome (GlobalContext S T * VmError) (GlobalContext S T) :=
  match ks with
  | [] => Ok g
  | k :: ks => let? '(g, _) := native k env g in native_all env ks g
  end.

Lemma ready_after_all {O : HashOrder} {D : Digests} {L : DigestLaws D} {J : SerdeJson} {JL : SerdeJsonLaws J}
    {N : HeadersDB} {C S T : Type} `{Sqlite C} `{!ClarityBackingStore C S} `{!StoreLaws C S} `{!CostTracker T}
    `{!TrackerLaws T} (env : Environment) (h : Z) (ks : list call) (g g' : GlobalContext S T) (l : state) :
  ready env h g l -> Forall (call_ok env) ks -> native_all env ks g = Ok g' -> exists l', ready env h g' l'.
Proof.
  intros R Hks. revert g l R. induction Hks as [|k ks Hk Hks IH]; intros g l R Hrun; cbn [native_all] in Hrun.
  - injection Hrun as <-. by exists l.
  - apply out_bind_Ok in Hrun as ([g1 v] & Hk1 & Hrun). destruct (ready_after env h g l R k g1 v Hk Hk1) as [l1 R1].
    by apply (IH g1 l1).
Qed.


(** * Instances *)
(** Any countable type has a codec: the bits of its number. *)
Fixpoint bits_to_string (p : positive) : string :=
  match p with xH => "" | xO p => String "0" (bits_to_string p) | xI p => String "1" (bits_to_string p) end.
Fixpoint bits_of_string (s : string) : positive :=
  match s with EmptyString => xH | String c s => if Ascii.eqb c "0" then xO (bits_of_string s) else xI (bits_of_string s) end.
Lemma bits_roundtrip (p : positive) : bits_of_string (bits_to_string p) = p.
Proof. induction p as [p IH|p IH|]; simpl; [by rewrite IH..|done]. Qed.

Definition countable_json {A : Type} `{Countable A} : json_codec A :=
  mkJson (fun x => bits_to_string (encode x)) (fun s => decode (bits_of_string s)).
Lemma countable_json_ok {A : Type} `{Countable A} (P : A -> Prop) : json_inverse countable_json P.
Proof. intros x _. simpl. by rewrite bits_roundtrip, decode_encode. Qed.

Definition bits_json : SerdeJson := {|
  json_u128 := countable_json;
  json_u64 := countable_json;
  json_principal := countable_json;
  json_ft := mkJson (fun m => bits_to_string (encode (ft_total_supply m)))
    (fun s => mkFtMeta <$> decode (bits_of_string s));
  json_nft := mkJson (fun _ => "") (fun _ => None);
  json_map := mkJson (fun _ => "") (fun _ => None);
  json_var := mkJson (fun _ => "") (fun _ => None)
|}.
Lemma bits_json_laws : SerdeJsonLaws bits_json.
Proof.
  split; try apply countable_json_ok. intros [m] _. simpl. by rewrite bits_roundtrip, decode_encode.
Qed.

(** A contract that defines a token of at most 1000 units. *)
Definition vault : QualifiedContractIdentifier := mkContractId (mkStandard x20 (repeat x01 20)) "vault".
Definition vault_env : Environment :=
  mkEnv (mkContractContext vault ∅ ∅ ∅ ∅ ∅ ∅ ∅ ∅ {["coin" := mkFtMeta (Some 1000)]} 0) (Some (Standard alice)) (Some (Standard alice)).
Definition vault_db : RollbackWrapper (MemoryBackingStore Tables) :=
  match create_fungible_token (D:=mixing_digests) (J:=bits_json) example_db vault "coin" (Some 1000) with
  | Ok (_, w) => w
  | _ => example_db
  end.
Definition vault_context : GlobalContext (MemoryBackingStore Tables) unit :=
  mkGlobal [AssetMap_new] [EventBatch_new] vault_db [false] tt false (StacksEpochId_to_u32 Epoch2_05).

(** [example_db] stores nothing. *)
Lemma example_represents : represents (J:=bits_json) example_db (fun _ => None).
Proof. split; [apply example_db_ok|]. done. Qed.

Definition vault_text : string := QualifiedContractIdentifier_to_string (D:=mixing_digests) vault.
Definition vault_state : state := set_cell (fun _ => None) (SupplySlot vault_text "coin") (Amount 0).

Lemma vault_no_entry (t : string) : load_ft (D:=mixing_digests) (J:=bits_json) example_db vault t = Err (Unchecked (CheckErr.NoSuchFT t)).
Proof. done. Qed.

Lemma vault_ready :
  ready (D:=mixing_digests) (J:=bits_json) (N:=NullHeadersDB (D:=mixing_digests)) vault_env 0 vault_context vault_state.
Proof.
  destruct (create_ft_ok (D:=mixing_digests) (J:=bits_json) (JL:=bits_json_laws) example_db _ vault "coin" (Some 1000)
    example_represents eq_refl eq_refl eq_refl) as (w & Hw & Hrep & Hstore & Hload & Hother).
  assert (vault_db = w) as Hdb by (unfold vault_db; by rewrite Hw). split; cbn [database vault_context asset_maps].
  - by rewrite Hdb.
  - done.
  - by exists Epoch2_05.
  - split; [|done]. unfold get_current_burnchain_block_height, db_current_block_height. rewrite Hdb, Hstore. by vm_compute.
  - done.
  - intros t d Hd. cbn in Hd. apply lookup_singleton_Some in Hd as [<- <-]. split_and!; [done|done|]. by intros m [= <-].
  - intros t. rewrite Hdb. unfold defined_ft. cbn [contract_context vault_env meta_ft].
    change (self_contract vault_env) with vault.
    destruct (decide (t = "coin")) as [->|Hne].
    + by rewrite lookup_singleton_eq.
    + rewrite lookup_singleton_ne by done. rewrite Hother by done. apply vault_no_entry.
  - intros a d Hd. done.
  - split.
    + intros c t _ _ Hs. unfold vault_state, set_cell in Hs. destruct (decide _) as [E|]; [|by destruct Hs].
      exists []. split; [constructor|]. split; [done|]. by rewrite E.
    + exists []. split; [constructor|]. done.
Qed.


Definition vault_calls : list call :=
  [FtMint "coin" 5 (Standard alice); FtTransfer "coin" 2 (Standard alice) (Standard bob); FtBurn "coin" 1 (Standard bob)].

