(* ===== verification/Termination.v ===== *)
(** Termination: evaluation ends, whatever the contracts do.

    Nothing in the language bounds recursion but the call stack: [apply] refuses
    to go deeper than [MAX_CALL_STACK_DEPTH].  The discipline is that of the call
    stack: every construct leaves it as it found it, unless it fails for good,
    and every nested application finds it higher. *)
From Stdlib Require Import ZArith Lia Strings.Byte Strings.String List Bool.
From stdpp Require Import base decidable list strings option gmap relations.
From S2P Require Import Prelude Bytes Codec Representations BTree Types Signatures Admission Values.
From S2P Require Import Serialization AssetMap Hashes Keys Natives C32 Principals BackingStore RollbackWrapper RollbackRefinement.
From S2P Require Import Events GlobalContext ClarityDb ClarityState StxBalance Costs Contexts Callables Assets Machine.
From S2P Require Import Specials DataNatives Interpreter Discipline Respect LedgerRefinement.
Open Scope Z_scope.
Open Scope machine_scope.

Section stack.
Context {O : HashOrder} {D : Digests} {J : SerdeJson} {N : HeadersDB} {Q : IntegerSquareRoot} {K : LibSecp256k1}.
Context {C S T : Type} `{Sqlite C} `{!ClarityBackingStore C S} `{!CostTracker T} `{!Host S T}.
Notation G := (GlobalContext S (Tracked T)).
Implicit Types (g : G) (cs : CallStack).

Definition stack_within cs g : Prop := call_stack g = cs.
Definition stack_failed cs g (e : VmError) : Prop := passes e = true -> call_stack g = cs.
Definition stack_under cs cs' : Prop := CallStack_depth cs <= CallStack_depth cs'.
Definition stack_called cs cs' : Prop :=
  CallStack_depth cs < CallStack_depth cs' /\ CallStack_depth cs' <= MAX_CALL_STACK_DEPTH.

Lemma insert_depth cs f track : CallStack_depth (CallStack_insert cs f track) = CallStack_depth cs + 1.
Proof. unfold CallStack_depth, CallStack_insert, zlen. simpl. lia. Qed.

Lemma decr_incr cs : decr_apply_depth (incr_apply_depth cs) = cs.
Proof. destruct cs as [s t d]. unfold decr_apply_depth, incr_apply_depth. simpl. f_equal. lia. Qed.

Lemma pop_errors f track g g' e : pop_call f track g = Err (g', e) -> passes e = false.
Proof.
  unfold pop_call, CallStack_remove. intros Hp. repeat case_match; simplify_eq; done.
Qed.

Lemma pop_inserted cs f track g :
  (track = true -> CallStack_contains cs f = false) -> call_stack g = CallStack_insert cs f track ->
  exists g', pop_call f track g = Ok (g', tt) /\ call_stack g' = cs.
Proof. intros Ht Hg. unfold pop_call. rewrite Hg, remove_insert by done. by eexists. Qed.

Lemma stack_call cs g f track :
  stack_within cs g -> (track = true -> CallStack_contains (call_stack g) f = false) ->
  exists cs', stack_under cs cs' /\
    (CallStack_depth (call_stack g) < MAX_CALL_STACK_DEPTH -> stack_called cs cs') /\
    stack_within cs' (with_stack g (CallStack_insert (call_stack g) f track)) /\
    (forall g', stack_within cs' g' -> match pop_call f track g' with
       | Ok (g', _) => stack_within cs g' | Err (g', e) => stack_failed cs g' e | Panic => True end) /\
    (forall g' e, stack_failed cs' g' e -> match pop_call f track g' with
       | Ok (g', _) => stack_failed cs g' e | Err (g', e) => stack_failed cs g' e | Panic => True end) /\
    (forall g' e, stack_within cs' g' -> passes e = false -> stack_failed cs g' e).
Proof.
  intros <- Ht. exists (CallStack_insert (call_stack g) f track). unfold stack_under, stack_called. rewrite insert_depth.
  split; [lia|]. split; [lia|]. split; [done|]. split; [|split].
  - intros g' Hg'. by destruct (pop_inserted _ f track g' Ht Hg') as (g2 & -> & Hg2).
  - intros g' e He. destruct (passes e) eqn:Es.
    + destruct (pop_inserted _ f track g' Ht (He Es)) as (g2 & -> & Hg2). by intros _.
    + destruct (pop_call f track g') as [[g2 u]|[g2 e2]|] eqn:Ep; [by intros Hs; rewrite Es in Hs| |done].
      intros Hs. by rewrite (pop_errors _ _ _ _ _ Ep) in Hs.
  - intros g' e _ Hs Hs'. by rewrite Hs in Hs'.
Qed.

Lemma begin_stack g ro : call_stack (begin_with g ro) = call_stack g.
Proof. done. Qed.
Lemma roll_back_stack g g' : roll_back g = Ok g' -> call_stack g' = call_stack g.
Proof. unfold roll_back. intros. out_inv. by simplify_eq. Qed.
Lemma commit_stack g : match context_commit g with Ok (g', _) | Err (g', _) => call_stack g' = call_stack g | Panic => True end.
Proof.
  unfold context_commit, db_roll_back, db_commit. destruct (asset_maps g) as [|m ms]; [done|]. cbn [expect_some out_bind].
  destruct (event_batches g) as [|b bs]; [done|]. cbn [expect_some out_bind].
  destruct (rollback (database g)), (commit (database g)), bs as [|b1 bs]; cbn [expect out_bind];
    (destruct ms as [|m1 ms]; [done|by destruct (commit_other m1 m)]).
Qed.

#[export] Instance stack_discipline : Discipline (S:=S) (T:=T) CallStack.
Proof.
  refine {| within := stack_within; failed := stack_failed; under := stack_under; called := stack_called;
    enter_call := stack_call |}.
  - split; [intros cs; unfold stack_under; lia|]. intros cs1 cs2 cs3. unfold stack_under. lia.
  - intros cs g g' Hg Hg'. unfold stack_within in *. congruence.
  - intros cs g g' Hg Hs. unfold stack_within in *. by rewrite (step_stack _ _ Hs).
  - intros cs g e Hg _. done.
  - intros cs g v Hg. by apply Hg.
  - intros cs g e t Hg Hs. by apply Hg.
  - intros cs g <-. exists (incr_apply_depth (call_stack g)).
    assert (CallStack_depth (incr_apply_depth (call_stack g)) = CallStack_depth (call_stack g) + 1) as Hd
      by (unfold CallStack_depth; simpl; lia).
    unfold stack_under, stack_called, stack_within, stack_failed. rewrite Hd.
    split_and!; [lia|lia|done|intros g' Hg'|intros g' e Hg' Hs]; (etrans; [|apply decr_incr]); [by rewrite <-Hg'|by rewrite <-(Hg' Hs)].
  - intros cs g ro <-. exists (call_stack g). unfold stack_under, stack_within, stack_failed.
    split_and!; [done|done|intros g' Hg'|intros g' e Hg'|intros g' Hg'|intros g' e Hg' _ _].
    + destruct (roll_back g') as [g2| |] eqn:E; [|done..]. by rewrite (roll_back_stack _ _ E).
    + destruct (roll_back g') as [g2| |] eqn:E; [|done..]. by rewrite (roll_back_stack _ _ E).
    + pose proof (commit_stack g') as Hc. destruct (context_commit g') as [[g2 x]|[g2 e]|]; [|intros _|done]; congruence.
    + done.
  - intros cs g bhh prior db <- _. exists (call_stack g). by unfold stack_under, stack_within, stack_failed.
Defined.
End stack.

Section termination.
Context {O : HashOrder} {D : Digests} {J : SerdeJson} {N : HeadersDB} {Q : IntegerSquareRoot} {K : LibSecp256k1}.
Context {C S T : Type} `{Sqlite C} `{!ClarityBackingStore C S} `{!CostTracker T} `{!Host S T}.
Context `{!MemoryLaws T} `{!HostLaws S T}.
Notation G := (GlobalContext S (Tracked T)).
Notation M := (M (S:=S) (T:=T)).
Notation applier := (CallableType -> list SymbolicExpression -> Environment -> LocalContext -> M Value).
Implicit Types (g : G) (cs : CallStack).

(** At this depth the fuel lasts until the call stack is full. *)
Definition enough (n : nat) cs : Prop := (1 <= n)%nat /\ MAX_CALL_STACK_DEPTH < CallStack_depth cs + Z.of_nat n.

Lemma apply_agrees (no_fuel1 no_fuel2 : applier) (n m : nat) cs f args env context :
  enough n cs -> enough m cs -> callable_ok f ->
  agree cs (apply no_fuel1 n f args env context) (apply no_fuel2 m f args env context).
Proof.
  revert m cs f args env context. induction n as [|n IH]; intros m cs f args env context [Hn1 Hn] [Hm1 Hm] Hf; [lia|].
  destruct m as [|m]; [lia|]. cbn [apply]. apply agree_apply_body; [done|].
  intros cs1 [Hc Hmax] cs2 Hu f' args' env' context' Hf'. unfold under in Hu; cbn in Hu. unfold stack_under in Hu.
  apply IH; [split; lia|split; lia|done].
Qed.

Lemma eval_agrees (no_fuel1 no_fuel2 : applier) (n m : nat) cs e env context :
  enough n cs -> enough m cs -> agree cs (eval no_fuel1 n e env context) (eval no_fuel2 m e env context).
Proof.
  intros Hn Hm. apply agree_eval_with. intros cs1 Hu f args env' context' Hf. unfold under in Hu; cbn in Hu.
  unfold stack_under in Hu. apply apply_agrees; unfold enough in *; [lia|lia|done].
Qed.

Lemma enough_65 (n : nat) cs : (65 <= n)%nat -> 0 <= CallStack_depth cs -> enough n cs.
Proof. unfold enough, MAX_CALL_STACK_DEPTH. lia. Qed.

Lemma contract_agrees (no_fuel1 no_fuel2 : applier) (n m : nat) cs c name args ro env :
  (65 <= n)%nat -> (65 <= m)%nat -> 0 <= CallStack_depth cs ->
  agree cs (execute_contract (eval no_fuel1 n) c name args ro env) (execute_contract (eval no_fuel2 m) c name args ro env).
Proof.
  intros Hn Hm Hcs. eapply agree_execute_contract with (U := fun cs => 0 <= CallStack_depth cs); [|intros|done].
  - intros cs1 cs2 H1 Hu. unfold under in Hu; cbn in Hu. unfold stack_under in Hu. lia.
  - apply eval_agrees; by apply enough_65.
Qed.
End termination.

(** C7: evaluation terminates.  With fuel for 65 nested applications, one more
    than the call stack allows, no expression of any contract ever runs out of
    fuel: the result does not depend on the fuel, nor on what would happen
    without it; the same holds of whole contract-call transactions.  And an
    evaluation that returns a value leaves the call stack as it found it. *)
Theorem evaluation_terminates {O : HashOrder} {D : Digests} {J : SerdeJson} {N : HeadersDB} {Q : IntegerSquareRoot} {K : LibSecp256k1}
    {C S T : Type} `{Sqlite C} `{!ClarityBackingStore C S} `{!CostTracker T} `{!Host S T} `{!MemoryLaws T} `{!HostLaws S T}
    (no_fuel1 no_fuel2 : CallableType -> list SymbolicExpression -> Environment -> LocalContext -> M (S:=S) (T:=T) Value)
    (n m : nat) (g : GlobalContext S (Tracked T)) :
  (65 <= n)%nat -> (65 <= m)%nat -> 0 <= CallStack_depth (call_stack g) ->
  (forall e env context, eval no_fuel1 n e env context g = eval no_fuel2 m e env context g) /\
  (forall c sender contract name args,
     execute_transaction no_fuel1 n c sender contract name args g = execute_transaction no_fuel2 m c sender contract name args g) /\
  (forall e env context g' v, eval no_fuel1 n e env context g = Ok (g', v) -> call_stack g' = call_stack g).
Proof.
  intros Hn Hm Hg. pose proof (fun e env context => eval_agrees no_fuel1 no_fuel2 n m (call_stack g) e env context
    (enough_65 n _ Hn Hg) (enough_65 m _ Hm Hg) g eq_refl) as Heval.
  split; [intros; apply Heval|]. split.
  - intros c sender contract name args. unfold execute_transaction, execute_in_env.
    destruct (negb (is_top_level g)); [done|].
    pose proof (contract_agrees no_fuel1 no_fuel2 n m (call_stack g) contract name args false
      (mkEnv c (Some sender) (Some sender)) Hn Hm Hg (begin g) eq_refl) as [Heq _]. by rewrite Heq.
  - intros e env context g' v Hv. destruct (Heval e env context) as [_ Hr]. by rewrite Hv in Hr.
Qed.

(** * Instances *)
(** A contract with one public function, [(define-public (bump (n int)) (ok (+ n 1)))]. *)
Definition calc : QualifiedContractIdentifier := mkContractId (mkStandard x20 (repeat x03 20)) "calc".
Definition bump_body : SymbolicExpression :=
  ListExpr [Atom "ok"; ListExpr [Atom "+"; Atom "n"; LiteralValue (VInt 1)]].
Definition calc_context : ContractContext :=
  let empty := ContractContext_new calc in
  mkContractContext calc ∅
    {["bump" := DefinedFunction_new [("n", IntType)] bump_body Public "bump" (QualifiedContractIdentifier_to_string (D:=mixing_digests) calc)]}
    ∅ ∅ ∅ ∅ ∅ ∅ ∅ 0.

(** A host that knows this contract only, and handles no special cases. *)
Definition calc_host : Host (MemoryBackingStore Tables) unit := {|
  json_contract := mkJson (fun _ => "calc") (fun _ => Some calc_context);
  free_tracker := tt;
  get_cc_special_cases_handler _ := None
|}.
#[export] Instance unit_memory_laws : MemoryLaws unit.
Proof. by split. Qed.
#[export] Instance calc_host_laws : HostLaws (Host0:=calc_host) (O:=listed_order) (D:=mixing_digests) (MemoryBackingStore Tables) unit.
Proof. by split. Qed.

(** The state after the contract was stored. *)
Definition calc_db : RollbackWrapper (MemoryBackingStore Tables) :=
  match
    (let? w := insert_contract_hash (D:=mixing_digests) (J:=bits_json) example_db calc "(define-public (bump (n int)) (ok (+ n 1)))" in
     let? w := insert_contract (D:=mixing_digests) (@json_contract _ _ calc_host) w calc calc_context in
     let? w := set_contract_data_size (D:=mixing_digests) (J:=bits_json) w calc 0 in
     commit (D:=mixing_digests) w)
  with
  | Ok w => w
  | _ => example_db
  end.
Definition calc_global : GlobalContext (MemoryBackingStore Tables) (Tracked unit) :=
  GlobalContext_new false calc_db (mkTracked tt CallStack_new) (StacksEpochId_to_u32 Epoch2_05).

Definition calc_run (no_fuel : CallableType -> list SymbolicExpression -> Environment -> LocalContext ->
    M (S:=MemoryBackingStore Tables) (T:=unit) Value) (fuel : nat) (arg : Z) :=
  execute_transaction (O:=listed_order) (D:=mixing_digests) (J:=bits_json) (N:=NullHeadersDB (D:=mixing_digests))
    (Q:=Z_square_root) (K:=toy_secp256k1) (Host0:=calc_host) no_fuel fuel (ContractContext_new calc) (Standard alice) calc "bump"
    [AtomValue (VInt arg)] calc_global.

Lemma evaluation_terminates_witness :
  calc_run (fun _ _ _ _ _ => Panic) 65 41 = calc_run (fun _ _ _ _ => raise (Runtime RuntimeErr.UnwrapFailure)) 1000 41 /\
  match calc_run (fun _ _ _ _ _ => Panic) 65 41 with Ok (_, (v, _, _)) => v | _ => VBool false end = VResponse true (VInt 42).
Proof.
  split; [|by vm_compute].
  destruct (evaluation_terminates (O:=listed_order) (D:=mixing_digests) (J:=bits_json) (N:=NullHeadersDB (D:=mixing_digests))
    (Q:=Z_square_root) (K:=toy_secp256k1) (Host0:=calc_host) (fun _ _ _ _ _ => Panic)
    (fun _ _ _ _ => raise (Runtime RuntimeErr.UnwrapFailure)) 65 1000 calc_global) as (_ & Hrun & _); [lia|lia|done|].
  exact (Hrun (ContractContext_new calc) (Standard alice) calc "bump" [AtomValue (VInt 41)]).
Defined.
