(* ===== verification/Isolation.v ===== *)
(** Isolation: what the code of contracts cannot touch.

    A context is a stack of layers: the asset map, the events, the read-only flag
    and the pending writes of each open transaction.  The discipline is that
    evaluation changes the top layer only, keeps its read-only flag, and leaves
    the store where it was; the layers below come back as they were. *)
From Stdlib Require Import ZArith Lia Strings.Byte Strings.String List Bool.
From stdpp Require Import base decidable list strings option gmap relations.
From S2P Require Import Prelude Bytes Codec Representations BTree Types Signatures Admission Values.
From S2P Require Import Serialization AssetMap Hashes Keys Natives C32 Principals BackingStore RollbackWrapper RollbackRefinement.
From S2P Require Import Events GlobalContext ClarityDb ClarityState StxBalance Costs Contexts Callables Assets Machine.
From S2P Require Import Specials DataNatives Interpreter StateLayout Discipline Respect LedgerRefinement Termination.
Open Scope Z_scope.
Open Scope machine_scope.

Record Layer := mkLayer { l_map : AssetMap; l_batch : EventBatch; l_read_only : bool; l_db : Frame }.

(** What the layers stand on: the store, and frames of the database that were open
    before the context was made. *)
Record Bottom (S : Type) := mkBottom { b_store : S; b_frames : list Frame }.
Arguments mkBottom {S} _ _.
Arguments b_store {S} _.
Arguments b_frames {S} _.

(** No nonce is written. *)
Definition frame_clean (f : Frame) : Prop := Forall (fun e => ~ nonce_key (fst e)) (writes f).

(** Going to another block and back leads to the same store. *)
Class BlockLaws (C S : Type) `{ClarityBackingStore C S} := {
  block_hash_restored : forall (s s' s'' : S) (bhh prior x : list byte),
    store_set_block_hash bhh s = Ok (prior, s') -> store_set_block_hash prior s' = Ok (x, s'') -> s'' = s
}.

Section layers.
Context {O : HashOrder} {D : Digests} {J : SerdeJson} {N : HeadersDB} {Q : IntegerSquareRoot} {K : LibSecp256k1}.
Context {C S T : Type} `{Sqlite C} `{!ClarityBackingStore C S} `{!CostTracker T} `{!Host S T}.
Notation G := (GlobalContext S (Tracked T)).
Implicit Types (g : G) (ls : list Layer) (s : Bottom S) (p : bool).

Record holds g ls s p : Prop := {
  holds_maps : asset_maps g = map l_map ls;
  holds_batches : event_batches g = map l_batch ls;
  holds_read_only : read_only g = map l_read_only ls;
  holds_database : wrapper_inv (database g) (mkJournal (b_store s) (map l_db ls ++ b_frames s) p);
  holds_clean : Forall (fun l => frame_clean (l_db l)) ls
}.

(** Layers determine a context up to its tracker. *)
Definition same_state g g' : Prop :=
  asset_maps g' = asset_maps g /\ event_batches g' = event_batches g /\ read_only g' = read_only g /\ database g' = database g.
Lemma holds_unique g g' ls s p : holds g ls s p -> holds g' ls s p -> same_state g g'.
Proof.
  intros [H1 H2 H3 H4 _] [K1 K2 K3 K4 _]. repeat split; [congruence..|]. by eapply wrapper_inv_unique.
Qed.

Lemma holds_tracker g ls s p t : holds g ls s p -> holds (set_tracker g t) ls s p.
Proof. by intros []. Qed.

(** Edits change the top frame. *)
Lemma spec_edits (ops : list wrapper_op) (s : S) (f : Frame) (fs : list Frame) p j :
  Forall is_edit ops -> spec_ops (mkJournal s (f :: fs) p) ops = Ok j ->
  exists f', j = mkJournal s (f' :: fs) p /\ (frame_clean f -> frame_clean f').
Proof.
  unfold spec_ops. intros Hops. revert f. induction Hops as [|o ops Ho _ IH]; intros f Hj; cbn [try_fold] in Hj.
  { simplify_eq. eauto. }
  assert (forall ws ms f1, frame_clean (mkFrame ws ms) -> (frame_clean (mkFrame (writes f ++ ws) (metadata_writes f ++ ms)) -> frame_clean f1) ->
    frame_clean f -> frame_clean f1) as Hclean by (intros ws ms f1 Hw Hf1 Hf; apply Hf1, Forall_app; by split).
  destruct o as [|k v|c k v|c h| | |]; try done; cbn [spec_op spec_write j_frames j_store j_pending out_bind] in Hj.
  - apply IH in Hj as (f' & -> & Hf'). exists f'. split; [done|]. eapply Hclean, Hf'. by constructor.
  - apply IH in Hj as (f' & -> & Hf'). exists f'. split; [done|]. eapply Hclean, Hf'. by constructor.
  - destruct (make_contract_commitment s h) as [x| |]; [|done..]. cbn [out_bind] in Hj.
    apply IH in Hj as (f' & -> & Hf'). exists f'. split; [done|]. eapply Hclean, Hf'. constructor; [|by constructor].
    apply contract_hash_not_nonce.
Qed.

Lemma holds_edit g l ls s p db :
  holds g (l :: ls) s p -> edits (database g) db ->
  exists f, holds (set_stacks g (asset_maps g) (event_batches g) db (read_only g))
    (mkLayer (l_map l) (l_batch l) (l_read_only l) f :: ls) s p.
Proof.
  intros [H1 H2 H3 H4 H5] (ops & Hops & Hrun). pose proof (run_ops_refines ops _ _ H4) as Hr. rewrite Hrun in Hr.
  destruct (spec_ops _ ops) as [j| |] eqn:Ej; [|done..]. apply spec_edits in Ej as (f & -> & Hf); [|done]. exists f.
  apply Forall_cons in H5 as [Hl Hls]. split; [done..|]. constructor; [by apply Hf|done].
Qed.

(** A step changes the top layer, and not its flag. *)
Lemma holds_step g g' l ls s p :
  holds g (l :: ls) s p -> step g g' -> exists l', holds g' (l' :: ls) s p /\ l_read_only l' = l_read_only l.
Proof.
  intros Hh Hs. destruct Hs as [g t|g db Hdb|g f g' Hf|g e].
  - exists l. split; [by apply holds_tracker|done].
  - destruct (holds_edit g l ls s p db Hh Hdb) as [f Hf]. by eexists.
  - destruct Hh as [H1 H2 H3 H4 H5]. unfold with_asset_map in Hf. rewrite H1 in Hf. cbn [map] in Hf. out_inv. simplify_eq.
    exists (mkLayer a (l_batch l) (l_read_only l) (l_db l)). split; [|done]. apply Forall_cons in H5 as [? ?]. split; [done..|by constructor].
  - destruct Hh as [H1 H2 H3 H4 H5]. unfold register_event. rewrite H2. cbn [map].
    exists (mkLayer (l_map l) (mkEventBatch (batch_events (l_batch l) ++ [e])) (l_read_only l) (l_db l)). split; [|done].
    apply Forall_cons in H5 as [? ?]. split; [done..|by constructor].
Qed.

(** ** Transactions *)
Definition fresh_layer (ro : bool) : Layer := mkLayer AssetMap_new EventBatch_new ro (mkFrame [] []).

Lemma holds_begin g ls s p ro : holds g ls s p -> holds (begin_with g ro) (fresh_layer ro :: ls) s p.
Proof.
  intros [H1 H2 H3 H4 H5]. split; simpl; [by rewrite H1|by rewrite H2|by rewrite H3| |].
  - exact (run_op_refines (database g) (mkJournal (b_store s) (map l_db ls ++ b_frames s) p) Nest H4).
  - by repeat constructor.
Qed.

Lemma holds_roll_back g l ls s p : holds g (l :: ls) s p -> exists g', roll_back g = Ok g' /\ holds g' ls s p.
Proof.
  intros [H1 H2 H3 H4 H5]. unfold roll_back, db_roll_back. rewrite H1, H2, H3. cbn [map expect_some out_bind].
  pose proof (rollback_refines (database g) _ H4) as Hr. simpl in Hr. apply Forall_cons in H5 as [_ H5].
  destruct (rollback (database g)) as [db| |]; [|done..]. eexists. split; [done|]. by split.
Qed.

Lemma holds_commit g l l1 ls s p :
  holds g (l :: l1 :: ls) s p ->
  match context_commit g with
  | Ok (g', _) => exists l', holds g' (l' :: ls) s p /\ l_read_only l' = l_read_only l1
  | Err (g', e) => holds g' (l1 :: ls) s p
  | Panic => True
  end.
Proof.
  intros [H1 H2 H3 H4 H5]. unfold context_commit, db_commit, db_roll_back. rewrite H1, H2, H3. cbn [map expect_some out_bind tail].
  pose proof (commit_refines (database g) _ H4) as Hc. pose proof (rollback_refines (database g) _ H4) as Hr. simpl in Hc, Hr.
  apply Forall_cons in H5 as [Hl [Hl1 H5]%Forall_cons].
  destruct (commit (database g)) as [dbc| |]; [|done..]. destruct (rollback (database g)) as [dbr| |]; [|done..].
  destruct (commit_other (l_map l1) (l_map l)) as [m|e|]; cbn [expect out_bind]; [|split; [done..|by constructor]|done].
  exists (mkLayer m (mkEventBatch (batch_events (l_batch l1) ++ batch_events (l_batch l))) (l_read_only l1)
    (mkFrame (writes (l_db l1) ++ writes (l_db l)) (metadata_writes (l_db l1) ++ metadata_writes (l_db l)))).
  split; [|done]. split; [done..|]. constructor; [|done]. by apply Forall_app.
Qed.

Lemma holds_with_stack g ls s p cs : holds g ls s p -> holds (with_stack g cs) ls s p.
Proof. apply holds_tracker. Qed.
Lemma holds_pop g ls s p f track :
  holds g ls s p -> match pop_call f track g with Ok (g', _) | Err (g', _) => holds g' ls s p | Panic => True end.
Proof. intros Hh. unfold pop_call. destruct (CallStack_remove _ _ _) as [cs|[cs e]|]; auto using holds_with_stack. Qed.

(** ** The discipline *)
Record World := mkWorld {
  w_stack : CallStack;
  w_read_only : bool;
  w_below : list Layer;
  w_store : Bottom S;
  w_pending : bool
}.
Implicit Types w : World.

(** [query_pending_data] may have been switched on. *)
Definition pending_ok w p : Prop := p = w_pending w \/ p = true.
Definition iso_within w g : Prop :=
  stack_within (w_stack w) g /\
  exists l p, holds g (l :: w_below w) (w_store w) p /\ l_read_only l = w_read_only w /\ pending_ok w p.
(** After an error the transactions of unanswered calls are still open. *)
Definition iso_failed w g (e : VmError) : Prop :=
  stack_failed (w_stack w) g e /\
  exists extra l p, holds g (extra ++ l :: w_below w) (w_store w) p /\ l_read_only l = w_read_only w /\ pending_ok w p /\
    (extra = [] \/ must_return_response e = true).

Lemma iso_call w g f track :
  iso_within w g -> (track = true -> CallStack_contains (call_stack g) f = false) ->
  exists w', stack_under (w_stack w) (w_stack w') /\
    (CallStack_depth (call_stack g) < MAX_CALL_STACK_DEPTH -> stack_called (w_stack w) (w_stack w')) /\
    iso_within w' (with_stack g (CallStack_insert (call_stack g) f track)) /\
    (forall g', iso_within w' g' -> match pop_call f track g' with
       | Ok (g', _) => iso_within w g' | Err (g', e) => iso_failed w g' e | Panic => True end) /\
    (forall g' e, iso_failed w' g' e -> match pop_call f track g' with
       | Ok (g', _) => iso_failed w g' e | Err (g', e) => iso_failed w g' e | Panic => True end) /\
    (forall g' e, iso_within w' g' -> passes e = false -> iso_failed w g' e).
Proof.
  intros [Hs (l & p & Hh & Hro & Hp)] Ht. destruct (stack_call _ g f track Hs Ht) as (cs' & Hu & Hc & Hin & Hpop & Hfpop & Hearly).
  exists (mkWorld cs' (w_read_only w) (w_below w) (w_store w) (w_pending w)). simpl. split; [done|]. split; [done|].
  split; [|split; [|split]].
  - split; [done|]. exists l, p. auto using holds_with_stack.
  - intros g' [Hs' (l' & p' & Hh' & Hrest)]. specialize (Hpop g' Hs'). pose proof (holds_pop _ _ _ _ f track Hh') as Hh2.
    destruct (pop_call f track g') as [[g2 u]|[g2 e]|]; [by split; eauto| |done].
    split; [done|]. exists [], l', p'. tauto.
  - intros g' e [Hs' (ex & l' & p' & Hh' & Hro' & Hp' & Hex)]. specialize (Hfpop g' e Hs').
    pose proof (holds_pop _ _ _ _ f track Hh') as Hh2. destruct (must_return_response e) eqn:Em.
    + assert (call_stack g' = cs') as Hcs by (apply Hs'; unfold passes; by rewrite Em, orb_true_r).
      specialize (Hpop g' Hcs). destruct (pop_call f track g') as [[g2 u]|[g2 e2]|] eqn:Ep; [|exfalso|done].
      * split; [done|]. exists ex, l', p'. simpl in Hh2. tauto.
      * unfold stack_within in Hin. simpl in Hin. unfold pop_call in Ep. rewrite Hcs in Ep. rewrite <-Hin in Ep. simpl in Ep.
        unfold call_stack, with_stack in Ep. simpl in Ep. by rewrite remove_insert in Ep.
    + destruct Hex as [-> |]; [|done]. destruct (pop_call f track g') as [[g2 u]|[g2 e2]|]; [| |done];
        (split; [done|]; exists [], l', p'; simpl in Hh2; tauto).
  - intros g' e [Hs' (l' & p' & Hh' & Hrest)] He. split; [by apply Hearly|]. exists [], l', p'. tauto.
Qed.

(** The world of a transaction opened on the layers [ls]. *)
Definition opened cs (ro : bool) ls s p : World := mkWorld cs ro ls s p.

Lemma opened_within g ls s p ro : holds g ls s p -> iso_within (opened (call_stack g) ro ls s p) (begin_with g ro).
Proof.
  intros Hh. split; [done|]. exists (fresh_layer ro), p. split; [by apply holds_begin|]. split; [done|by left].
Qed.
Lemma opened_roll_back g cs ro ls s p :
  iso_within (opened cs ro ls s p) g ->
  exists g' p', roll_back g = Ok g' /\ holds g' ls s p' /\ (p' = p \/ p' = true) /\ call_stack g' = cs.
Proof.
  intros [Hs (l & p' & Hh & _ & Hp)]. destruct (holds_roll_back _ _ _ _ _ Hh) as (g' & Hr & Hh').
  exists g', p'. rewrite (roll_back_stack _ _ Hr). auto.
Qed.

Lemma iso_frame w g ro : iso_within w g ->
  exists w', stack_under (w_stack w) (w_stack w') /\ iso_within w' (begin_with g ro) /\
    (forall g', iso_within w' g' -> match roll_back g' with Ok g' => iso_within w g' | _ => True end) /\
    (forall g' e, iso_failed w' g' e -> match roll_back g' with Ok g' => iso_failed w g' e | _ => True end) /\
    (forall g', iso_within w' g' -> match context_commit g' with
       | Ok (g', _) => iso_within w g' | Err (g', e) => iso_failed w g' e | Panic => True end) /\
    (forall g' e, iso_within w' g' -> must_return_response e = true -> iso_failed w g' e).
Proof.
  intros [Hst (l & p & Hh & Hro & Hp)]. unfold stack_within in Hst. exists (opened (call_stack g) ro (l :: w_below w) (w_store w) p).
  assert (forall p', pending_ok (opened (call_stack g) ro (l :: w_below w) (w_store w) p) p' -> pending_ok w p') as Hpp
    by (unfold pending_ok in *; simpl; intros p' [-> | ->]; auto).
  unfold stack_under. cbn [w_stack opened]. rewrite <-Hst. split; [lia|]. split; [by apply opened_within|]. split; [|split; [|split]].
  - intros g' Hg'. destruct (opened_roll_back _ _ _ _ _ _ Hg') as (g2 & p2 & -> & Hh2 & Hp2 & Hs2).
    split; [unfold stack_within; congruence|]. exists l, p2. auto.
  - intros g' e [Hs (ex & l' & p' & Hh' & _ & Hp' & Hex)]. cbn [w_below opened w_store] in Hh'.
    assert (exists g2, roll_back g' = Ok g2 /\ exists ex2, holds g2 (ex2 ++ l :: w_below w) (w_store w) p' /\
      (ex2 = [] \/ must_return_response e = true)) as (g2 & Hr & ex2 & Hh2 & Hex2).
    { destruct ex as [|x ex]; cbn [app] in Hh'; destruct (holds_roll_back _ _ _ _ _ Hh') as (g2 & Hr & Hh2);
        exists g2; (split; [done|]).
      - exists []. auto.
      - exists (ex ++ [l']). rewrite <-app_assoc. simpl. split; [done|]. destruct Hex as [|]; [done|auto]. }
    rewrite Hr. split; [unfold stack_failed; rewrite (roll_back_stack _ _ Hr), <-Hst; exact Hs|]. exists ex2, l, p'. auto.
  - intros g' [Hs (l' & p' & Hh' & _ & Hp')]. unfold stack_within in Hs. cbn [w_stack w_below opened w_store] in Hs, Hh'. pose proof (holds_commit _ _ _ _ _ _ Hh') as Hc.
    pose proof (commit_stack g') as Hcs. destruct (context_commit g') as [[g2 x]|[g2 e]|]; [| |done].
    + destruct Hc as (l2 & Hh2 & Hro2). split; [unfold stack_within; congruence|]. exists l2, p'. rewrite Hro2. auto.
    + split; [intros _; congruence|]. exists [], l, p'. auto.
  - intros g' e [Hs (l' & p' & Hh' & _ & Hp')] He. unfold stack_within in Hs. cbn [w_stack opened] in Hs.
    split; [intros _; congruence|]. exists [l'], l, p'. simpl. auto.
Qed.

Context `{!BlockLaws C S}.

(** The bottom with another store. *)
Definition with_store s (t : S) : Bottom S := mkBottom t (b_frames s).
Lemma holds_block g ls s p bhh q x db :
  holds g ls s p -> set_block_hash (database g) bhh q = Ok (x, db) ->
  exists t : S, store_set_block_hash bhh (b_store s) = Ok (x, t) /\
    holds (set_stacks g (asset_maps g) (event_batches g) db (read_only g)) ls (with_store s t) q.
Proof.
  intros [H1 H2 H3 H4 H5] Hb. pose proof (run_op_refines _ _ (SetBlockHash bhh q) H4) as Hr. simpl in Hr.
  unfold set_block_hash in Hb. rewrite (inv_store _ _ H4) in Hb. simpl in Hb. out_inv. simplify_eq.
  rewrite H0 in Hr. unfold set_block_hash in Hr. rewrite (inv_store _ _ H4) in Hr. simpl in Hr. rewrite H0 in Hr. simpl in Hr.
  eexists. split; [done|]. by split.
Qed.
Lemma with_store_twice s (t t' : S) : t' = b_store s -> with_store (with_store s t) t' = s.
Proof. intros ->. by destruct s. Qed.

Lemma iso_block w g bhh prior db :
  iso_within w g -> set_block_hash (database g) bhh false = Ok (prior, db) ->
  exists w', stack_under (w_stack w) (w_stack w') /\
    iso_within w' (set_stacks g (asset_maps g) (event_batches g) db (read_only g)) /\
    (forall g' x db', iso_within w' g' -> set_block_hash (database g') prior true = Ok (x, db') ->
       iso_within w (set_stacks g' (asset_maps g') (event_batches g') db' (read_only g'))) /\
    (forall g' e x db', iso_failed w' g' e -> set_block_hash (database g') prior true = Ok (x, db') ->
       iso_failed w (set_stacks g' (asset_maps g') (event_batches g') db' (read_only g')) e).
Proof.
  intros [Hs (l & p & Hh & Hro & Hp)] Hb. destruct (holds_block _ _ _ _ _ _ _ _ Hh Hb) as (s' & Hset & Hh1).
  exists (mkWorld (w_stack w) (w_read_only w) (w_below w) (with_store (w_store w) s') false). cbn [w_stack]. unfold stack_under. split; [lia|].
  split; [|split].
  - split; [done|]. exists l, false. split; [done|]. split; [done|by left].
  - intros g' x db' [Hs' (l' & p' & Hh' & Hro' & _)] Hb'. cbn [w_below w_store] in Hh'.
    destruct (holds_block _ _ _ _ _ _ _ _ Hh' Hb') as (s'' & Hset' & Hh2).
    rewrite (with_store_twice _ _ _ (block_hash_restored _ _ _ _ _ _ Hset Hset')) in Hh2. split; [done|]. exists l', true. unfold pending_ok. auto.
  - intros g' e x db' [Hs' (ex & l' & p' & Hh' & Hro' & _ & Hex)] Hb'. cbn [w_below w_store] in Hh'.
    destruct (holds_block _ _ _ _ _ _ _ _ Hh' Hb') as (s'' & Hset' & Hh2).
    rewrite (with_store_twice _ _ _ (block_hash_restored _ _ _ _ _ _ Hset Hset')) in Hh2. split; [done|]. exists ex, l', true. unfold pending_ok. auto.
Qed.

#[export] Instance isolation : Discipline (S:=S) (T:=T) World.
Proof.
  refine {| within := iso_within; failed := iso_failed;
    under w w' := stack_under (w_stack w) (w_stack w'); called w w' := stack_called (w_stack w) (w_stack w');
    enter_call := iso_call; enter_frame := iso_frame; enter_block := iso_block |}.
  - split; [intros w; unfold stack_under; lia|]. intros w1 w2 w3. unfold stack_under. lia.
  - intros w g g' [Hs _] [Hs' _]. unfold stack_within in *. congruence.
  - intros w g g' [Hs (l & p & Hh & Hro & Hp)] Hst. split; [unfold stack_within; by rewrite (step_stack _ _ Hst)|].
    destruct (holds_step _ _ _ _ _ _ Hh Hst) as (l' & Hh' & Hro'). exists l', p. rewrite Hro'. auto.
  - intros w g e [Hs (l & p & Hh & Hro & Hp)]. split; [by intros _|]. exists [], l, p. auto.
  - intros w g v [Hs (ex & l & p & Hh & Hro & Hp & [-> |])]; [|done]. split; [by apply Hs|]. eauto.
  - intros w g e t [Hs (ex & l & p & Hh & Hrest)]. split; [done|]. exists ex, l, p. auto using holds_tracker.
  - intros w g [Hs (l & p & Hh & Hro & Hp)].
    destruct (enter_args (Discipline:=stack_discipline) (w_stack w) g Hs) as (cs' & Hu & Hc & Hin & Hd & Hfd).
    exists (mkWorld cs' (w_read_only w) (w_below w) (w_store w) (w_pending w)). cbn [w_stack].
    split; [done|]. split; [done|]. split; [|split].
    + split; [done|]. exists l, p. auto using holds_with_stack.
    + intros g' [Hs' (l' & p' & Hh' & Hrest)]. split; [by apply Hd|]. exists l', p'. auto using holds_with_stack.
    + intros g' e [Hs' (ex & l' & p' & Hh' & Hrest)]. split; [by apply Hfd|]. exists ex, l', p'. auto using holds_with_stack.
Defined.
End layers.

(** * Calls *)
Section calls.
Context {O : HashOrder} {D : Digests} {J : SerdeJson} {N : HeadersDB} {Q : IntegerSquareRoot} {K : LibSecp256k1}.
Context {C S T : Type} `{Sqlite C} `{!ClarityBackingStore C S} `{!CostTracker T} `{!Host S T}.
Context `{!MemoryLaws T} `{!HostLaws S T} `{!BlockLaws C S}.
Notation G := (GlobalContext S (Tracked T)).
Notation M := (M (S:=S) (T:=T)).
Notation applier := (CallableType -> list SymbolicExpression -> Environment -> LocalContext -> M Value).
Implicit Types (g : G) (ls : list Layer) (s : Bottom S) (p : bool).

Definition panic_without_fuel : applier := fun _ _ _ _ => lift Panic.

Lemma apply_isolated (n : nat) (w : World) f args env context :
  callable_ok f -> agree w (apply panic_without_fuel n f args env context) (apply panic_without_fuel n f args env context).
Proof.
  revert w f args env context. induction n as [|n IH]; intros w f args env context Hf; cbn [apply].
  - apply agree_lift.
  - apply agree_apply_body; [done|]. intros w1 _ w2 _ f' args' env' context' Hf'. by apply IH.
Qed.
Lemma eval_isolated (n : nat) (w : World) e env context :
  agree w (eval panic_without_fuel n e env context) (eval panic_without_fuel n e env context).
Proof. apply agree_eval_with. intros w1 _ f args env' context' Hf. by apply apply_isolated. Qed.

(** With enough fuel, the body of a function stays in its transaction. *)
Lemma body_isolated (no_fuel : applier) (n : nat) f args env g ls s p ro :
  (65 <= n)%nat -> 0 <= CallStack_depth (call_stack g) -> holds g ls s p ->
  match execute_apply (eval no_fuel n) f args env (begin_with g ro) with
  | Ok (g', _) => within (opened (call_stack g) ro ls s p) g'
  | Err (g', e) => failed (opened (call_stack g) ro ls s p) g' e
  | Panic => True
  end.
Proof.
  intros Hn Hd Hh.
  assert (execute_apply (eval no_fuel n) f args env (begin_with g ro) =
    execute_apply (eval panic_without_fuel n) f args env (begin_with g ro)) as ->.
  { eapply (agree_execute_apply (DW:=stack_discipline) _ _ (fun cs => 0 <= CallStack_depth cs)
      (fun cs e env context Hcs => eval_agrees no_fuel panic_without_fuel n n cs e env context
         (enough_65 n _ Hn Hcs) (enough_65 n _ Hn Hcs)) (call_stack g) f args env Hd). exact (begin_stack g ro). }
  pose proof (agree_execute_apply (eval panic_without_fuel n) (eval panic_without_fuel n) (fun _ => True)
    (fun w e env context _ => eval_isolated n w e env context) (opened (call_stack g) ro ls s p) f args env Logic.I
    (begin_with g ro) (opened_within _ _ _ _ _ Hh)) as [_ Hr].
  by destruct (execute_apply _ _ _ _ _) as [[g' v]|[g' e]|].
Qed.

(** What a call leaves behind. *)
Definition call_outcome (f : DefinedFunction) g (l : Layer) ls s (r : outcome (G * VmError) (G * Value)) : Prop :=
  match r with
  | Ok (g', v) =>
      if DefinedFunction_is_read_only f then same_state g g' else
      match v with
      | VResponse true _ => exists l', holds g' (l' :: ls) s true /\ l_read_only l' = l_read_only l
      | VResponse false _ => same_state g g'
      | _ => False
      end
  | Err (g', e) => must_return_response e = true \/ same_state g g'
  | Panic => True
  end.

Lemma run_function_isolated (no_fuel : applier) (n : nat) f args c env g l ls s :
  (65 <= n)%nat -> 0 <= CallStack_depth (call_stack g) -> holds g (l :: ls) s true ->
  call_outcome f g l ls s (run_function (eval no_fuel n) f args c env g).
Proof.
  intros Hn Hd Hh. unfold run_function, execute_function_as_transaction. set (ro := DefinedFunction_is_read_only f).
  assert ((if ro then begin_read_only g else begin g) = begin_with g (if ro then true else is_read_only g)) as -> by (by destruct ro).
  pose proof (body_isolated no_fuel n f args (mkEnv (default (contract_context env) c) (env_sender env) (env_caller env)) g (l :: ls) s
    true (if ro then true else is_read_only g) Hn Hd Hh) as Hbody.
  destruct (execute_apply _ _ _ _ _) as [[g1 v]|[g1 e]|]; [| |by destruct ro].
  - destruct (opened_roll_back _ _ _ _ _ _ Hbody) as (g2 & p2 & Hr & Hh2 & Hp2 & _).
    assert (p2 = true) as -> by tauto. pose proof (holds_unique _ _ _ _ _ Hh Hh2) as Hsame. subst ro. unfold call_outcome.
    destruct (DefinedFunction_is_read_only f) eqn:Hro; [by rewrite Hr|]. unfold handle_tx_result.
    assert (match (let? ty := type_of v in Err (g1, Unchecked (CheckErr.PublicFunctionMustReturnResponse ty))) : outcome (G * VmError) (G * Value) with
      | Ok _ => False | Err (g', e) => must_return_response e = true \/ same_state g g' | Panic => True end) as Hplain.
    { destruct (type_of_no_error (E:=G * VmError) v) as [E|[t E]]; rewrite E; cbn [out_bind]; [done|]. by left. }
    destruct v as [| | | | | | |[] d]; try (by destruct (out_bind _ _) as [[]|[]|]); [|by rewrite Hr].
    destruct Hbody as [_ (l' & p' & Hh' & _ & Hp')]. assert (p' = true) as -> by (destruct Hp'; tauto).
    pose proof (holds_commit _ _ _ _ _ _ Hh') as Hc. destruct (context_commit g1) as [[g3 x]|[g3 e]|]; cbn [out_bind]; [done| |done].
    right. by eapply holds_unique.
  - assert (match (let? g' := roll_back g1 in Err (g', e)) : outcome (G * VmError) (G * Value) with
      | Ok _ => False | Err (g', e) => must_return_response e = true \/ same_state g g' | Panic => True end) as Hfail.
    { destruct Hbody as [_ (ex & l' & p' & Hh' & _ & Hp' & Hex)]. destruct Hex as [-> |He].
      - assert (p' = true) as -> by (destruct Hp'; tauto). destruct (holds_roll_back _ _ _ _ _ Hh') as (g2 & -> & Hh2).
        cbn [out_bind]. right. by eapply holds_unique.
      - destruct (roll_back_cases g1) as [-> |[g2 ->]]; [done|]. by left. }
    unfold call_outcome, handle_tx_result. destruct ro; by destruct (out_bind _ _) as [[]|[]|].
Qed.

(** ** Whole transactions *)
Lemma holds_same g g' ls s p : holds g ls s p -> same_state g g' -> holds g' ls s p.
Proof. intros [H1 H2 H3 H4 H5] (K1 & K2 & K3 & K4). split; congruence. Qed.
Lemma same_state_trans g g1 g2 : same_state g g1 -> same_state g1 g2 -> same_state g g2.
Proof. unfold same_state. intuition congruence. Qed.

(** A computation that changes at most the tracker. *)
Definition calm {A : Type} (m : M A) : Prop :=
  forall g g' a, m g = Ok (g', a) -> same_state g g' /\ call_stack g' = call_stack g.
Lemma calm_lift {A : Type} (m : outcome VmError A) : calm (lift m).
Proof. intros g g' a Hm. unfold lift in Hm. by destruct m; simplify_eq. Qed.
Lemma calm_query {A : Type} (f : RollbackWrapper S -> outcome VmError A) : calm (query f).
Proof. intros g g' a Hm. by eapply calm_lift. Qed.
Lemma track_same (f : Tracked T -> outcome (Tracked T * CostErrors) (Tracked T)) g g' : track g f = Ok g' -> same_state g g'.
Proof. unfold track. destruct (f (cost_track g)) as [t|[t e]|]; [|done..]. by intros [= <-]. Qed.
Lemma calm_cost f n : calm (cost f n).
Proof.
  intros g g' a Hm. split.
  - unfold cost, update, env_runtime_cost in Hm. out_inv. simplify_eq. by eapply track_same.
  - pose proof (agree_cost (call_stack g) f n g eq_refl) as [_ Hr]. by rewrite Hm in Hr.
Qed.
Lemma calm_use_memory n : calm (use_memory n).
Proof.
  intros g g' a Hm. split.
  - unfold use_memory, update, env_add_memory in Hm. out_inv. simplify_eq. by eapply track_same.
  - pose proof (agree_use_memory (call_stack g) n g eq_refl) as [_ Hr]. by rewrite Hm in Hr.
Qed.
Lemma pop_same id track g g' a : pop_call id track g = Ok (g', a) -> same_state g g'.
Proof. intros Hm. unfold pop_call in Hm. by destruct (CallStack_remove _ _ _) as [|[]|]; simplify_eq. Qed.

Lemma bind_inv {A B : Type} (m : M A) (k : A -> M B) g g' b :
  m_bind m k g = Ok (g', b) -> exists g1 a, m g = Ok (g1, a) /\ k a g1 = Ok (g', b).
Proof. unfold m_bind. destruct (m g) as [[g1 a]| |]; [|done..]. cbn [out_bind]. eauto. Qed.
Lemma calm_inv {A B : Type} (m : M A) (k : A -> M B) g g' b :
  calm m -> m_bind m k g = Ok (g', b) -> exists g1 a, same_state g g1 /\ call_stack g1 = call_stack g /\ k a g1 = Ok (g', b).
Proof. intros Hc Hm. apply bind_inv in Hm as (g1 & a & H1 & H2). destruct (Hc _ _ _ H1). eauto 6. Qed.
Lemma finally_inv {A : Type} (n : Z) (m : M A) g g' a :
  finally_free n m g = Ok (g', a) -> exists g1, m g = Ok (g1, a) /\ same_state g1 g'.
Proof.
  unfold finally_free, m_bind, attempt. destruct (m g) as [[g1 a1]|[g1 e]|]; cbn [out_bind]; [| |done];
    (destruct (free_memory_cases n g1) as [-> |[t ->]]; [done|]); cbn [out_bind lift]; [|done].
  intros [= <- <-]. by exists g1.
Qed.

(** A contract call that returns an error value leaves the state. *)
Lemma rejected_call (no_fuel : applier) (n : nat) c name args ro env g g' l ls s d :
  (65 <= n)%nat -> 0 <= CallStack_depth (call_stack g) -> holds g (l :: ls) s true ->
  get_cc_special_cases_handler (b_store s) = None ->
  execute_contract (eval no_fuel n) c name args ro env g = Ok (g', VResponse false d) -> same_state g g'.
Proof.
  intros Hn Hd Hh Hhandler Hrun. unfold execute_contract in Hrun.
  apply (calm_inv _ _ _ _ _ (calm_query _)) in Hrun as (g1 & size & S1 & Q1 & Hrun).
  apply (calm_inv _ _ _ _ _ (calm_cost _ _)) in Hrun as (g2 & [] & S2 & Q2 & Hrun).
  apply (calm_inv _ _ _ _ _ (calm_use_memory _)) in Hrun as (g3 & [] & S3 & Q3 & Hrun).
  apply finally_inv in Hrun as (g7 & Hrun & S8).
  apply (calm_inv _ _ _ _ _ (calm_query _)) in Hrun as (g4 & contract & S4 & Q4 & Hrun).
  apply (calm_inv _ _ _ _ _ (calm_lift _)) in Hrun as (g5 & func & S5 & Q5 & Hrun).
  destruct (negb _); [done|]. destruct (_ && _); [done|].
  apply (calm_inv _ _ _ _ _ (calm_lift _)) in Hrun as (g6 & vs & S6 & Q6 & Hrun).
  assert (same_state g g6) as Sg by (repeat (eapply same_state_trans; [eassumption|]); done).
  assert (call_stack g6 = call_stack g) as Qg by congruence. clear - Hn Hd Hh Hhandler Hrun S8 Sg Qg MemoryLaws0 HostLaws0 BlockLaws0.
  unfold m_bind at 1, get_stack in Hrun. cbn [out_bind] in Hrun. destruct (CallStack_contains _ _); [done|].
  unfold m_bind at 1, push_call in Hrun. cbn [out_bind] in Hrun. set (gp := with_stack g6 _) in Hrun.
  assert (holds gp (l :: ls) s true) as Hhp by (apply holds_with_stack; by eapply holds_same).
  assert (0 <= CallStack_depth (call_stack gp)) as Hdp.
  { change (call_stack gp) with (CallStack_insert (call_stack g6) (df_identifier func) true). rewrite insert_depth, Qg. lia. }
  pose proof (run_function_isolated no_fuel n func vs (Some contract) env gp l ls s Hn Hdp Hhp) as Hcall.
  unfold m_bind at 1, attempt in Hrun. destruct (run_function _ _ _ _ _ gp) as [[ga v]|[ga e]|]; cbn [out_bind] in Hrun; [| |done].
  - apply bind_inv in Hrun as (gb & [] & Hpop & Hrun). unfold m_bind, lift in Hrun. cbn [out_bind] in Hrun.
    apply pop_same in Hpop. assert (v = VResponse false d) as ->.
    { destruct (run_special_case c name v env gb) as [[gc u]| |]; cbn [out_bind] in Hrun; unfold m_ret in Hrun; by simplify_eq. }
    assert (same_state gp ga) as Sa by (simpl in Hcall; by destruct (DefinedFunction_is_read_only func)).
    assert (store (database gb) = b_store s) as Hs.
    { destruct Hpop as (_ & _ & _ & ->), Sa as (_ & _ & _ & ->). apply (inv_store _ _ (holds_database _ _ _ _ Hhp)). }
    unfold run_special_case in Hrun. rewrite Hs, Hhandler in Hrun. cbn [out_bind] in Hrun. unfold m_ret in Hrun. simplify_eq.
    unfold same_state in *. simpl in Sa. intuition congruence.
  - apply bind_inv in Hrun as (gb & [] & Hpop & Hrun). done.
Qed.

(** The last commit hands the writes of the transaction down: to the frame below, if
    there is one, and otherwise to the store. *)
Definition stored s (f : Frame) s' : Prop :=
  spec_op (mkJournal (b_store s) (f :: b_frames s) true) Commit = Ok (mkJournal (b_store s') (b_frames s') true).
Lemma stored_nothing s s' : stored s (mkFrame [] []) s' -> s' = s.
Proof.
  unfold stored. destruct s as [s [|[ws ms] fs]], s' as [s' fs']; cbn; [by intros [= -> ->]|]. rewrite !app_nil_r. by intros [= -> ->].
Qed.

Lemma holds_commit_bottom g l s :
  holds g [l] s true ->
  match context_commit g with
  | Ok (g', (m, b)) => m = Some (l_map l) /\ b = Some (l_batch l) /\ exists s', stored s (l_db l) s' /\ holds g' [] s' true
  | Err _ => False
  | Panic => True
  end.
Proof.
  intros [H1 H2 H3 H4 H5]. unfold context_commit, db_commit. rewrite H1, H2, H3. cbn [map expect_some out_bind tail].
  pose proof (commit_refines (database g) _ H4) as Hc. cbn [map app] in Hc. unfold out_rel in Hc.
  destruct (commit (database g)) as [db| |]; [|done..]. cbn [expect out_bind]. destruct (spec_op _ _) as [j| |] eqn:Ej; [|done..].
  split; [done|]. split; [done|]. assert (j_pending j = true) as Hp.
  { clear - Ej. simpl in Ej. destruct (b_frames s); out_inv; by simplify_eq. }
  exists (mkBottom (j_store j) (j_frames j)). destruct j as [js jf jp]. simpl in *. subst jp. split; [exact Ej|]. by split.
Qed.

(** A top-level call whose body writes no nonce hands down what it wrote, or fails and
    leaves the store and the frames below as they were. *)
Lemma env_isolated {A : Type} g s (m : M A) :
  holds g [] s true ->
  match m (begin g) with
  | Ok (g', _) => exists l, holds g' [l] s true
  | Err (g', _) => exists l ls, holds g' (l :: ls) s true
  | Panic => True
  end ->
  match execute_in_env g m with
  | Ok (g', _) => exists f s', frame_clean f /\ stored s f s' /\ holds g' [] s' true
  | Err (g', _) => exists ls, holds g' ls s true
  | Panic => True
  end.
Proof.
  intros Hh Hm. unfold execute_in_env. destruct (negb (is_top_level g)); [done|].
  destruct (m (begin g)) as [[g1 a]|[g1 e]|]; [| |done].
  - destruct Hm as [l Hl]. pose proof (holds_commit_bottom _ _ _ Hl) as Hc.
    destruct (context_commit g1) as [[g2 [x y]]|x|]; [|done|done]. destruct Hc as (-> & -> & s' & Hs & Hh2). cbn [out_bind ok_or].
    exists (l_db l), s'. pose proof (holds_clean _ _ _ _ Hl) as Hcl. by apply Forall_cons in Hcl as [? _].
  - destruct Hm as (l & ls & Hl). destruct (holds_roll_back _ _ _ _ _ Hl) as (g2 & -> & Hh2). by exists ls.
Qed.

(** The layers left by a discipline of isolation. *)
Lemma isolated_layers {A : Type} cs ro s (r : outcome (G * VmError) (G * A)) :
  match r with
  | Ok (g', _) => within (opened cs ro [] s true) g'
  | Err (g', e) => failed (opened cs ro [] s true) g' e
  | Panic => True
  end ->
  match r with
  | Ok (g', _) => exists l, holds g' [l] s true
  | Err (g', _) => exists l ls, holds g' (l :: ls) s true
  | Panic => True
  end.
Proof.
  destruct r as [[g' a]|[g' e]|]; [| |done].
  - intros [_ (l & p & Hh & _ & Hp)]. assert (p = true) as -> by (destruct Hp; tauto). by exists l.
  - intros [_ (ex & l & p & Hh & _ & Hp & _)]. assert (p = true) as -> by (destruct Hp; tauto).
    destruct ex as [|x ex]; eauto.
Qed.

Lemma transaction_body (no_fuel : applier) (n : nat) c name args env g s :
  (65 <= n)%nat -> 0 <= CallStack_depth (call_stack g) -> holds g [] s true ->
  match execute_contract (eval no_fuel n) c name args false env (begin g) with
  | Ok (g', _) => within (opened (call_stack g) (is_read_only g) [] s true) g'
  | Err (g', e) => failed (opened (call_stack g) (is_read_only g) [] s true) g' e
  | Panic => True
  end.
Proof.
  intros Hn Hd Hh.
  assert (execute_contract (eval no_fuel n) c name args false env (begin g) =
    execute_contract (eval panic_without_fuel n) c name args false env (begin g)) as ->.
  { apply (contract_agrees no_fuel panic_without_fuel n n (call_stack g) c name args false env Hn Hn Hd). exact (begin_stack g _). }
  pose proof (agree_execute_contract (eval panic_without_fuel n) (eval panic_without_fuel n) (fun _ => True) (fun _ _ _ _ => Logic.I)
    (fun w e env context _ => eval_isolated n w e env context) (opened (call_stack g) (is_read_only g) [] s true) c name args false env
    Logic.I (begin g) (opened_within _ _ _ _ _ Hh)) as [_ Hr].
  by destruct (execute_contract _ _ _ _ _ _ _) as [[g' v]|[g' e]|].
Qed.
Lemma contract_call_isolated (no_fuel : applier) (n : nat) c sender contract name args g s :
  (65 <= n)%nat -> 0 <= CallStack_depth (call_stack g) -> holds g [] s true ->
  match execute_transaction no_fuel n c sender contract name args g with
  | Ok (g', _) => exists f s', frame_clean f /\ stored s f s' /\ holds g' [] s' true
  | Err (g', _) => exists ls, holds g' ls s true
  | Panic => True
  end.
Proof.
  intros Hn Hd Hh. apply env_isolated; [done|]. eapply isolated_layers, transaction_body; done.
Qed.
End calls.



(** * Instances *)
#[export] Instance memory_block_laws {C : Type} `{Sqlite C} : BlockLaws C (MemoryBackingStore C).
Proof. by split. Qed.

Lemma calc_db_inv : wrapper_inv calc_db (mkJournal (store calc_db) [] true).
Proof.
  split; [done|by vm_compute|by vm_compute|..].
  - rewrite (map_size_empty_inv (lookup_map calc_db)) by (by vm_compute). by apply tracks_nil.
  - rewrite (map_size_empty_inv (metadata_lookup_map calc_db)) by (by vm_compute). by apply tracks_nil.
Qed.
Lemma calc_holds : holds calc_global [] (mkBottom (store calc_db) []) true.
Proof. split; [done|done|done|exact calc_db_inv|constructor]. Qed.


