(* ===== verification/Deployment.v ===== *)
(** Deployment: what a deployed contract is.

    Names of a contract are unique and not reserved, and its declared types are
    well-formed; a deployment is all or nothing. *)
From Stdlib Require Import ZArith Lia Strings.Byte Strings.String List Bool.
From stdpp Require Import base decidable list strings option gmap.
From S2P Require Import Prelude Bytes Codec Representations BTree Types Signatures Admission Values.
From S2P Require Import Serialization AssetMap Hashes Keys Natives C32 Principals BackingStore RollbackWrapper RollbackRefinement.
From S2P Require Import Events GlobalContext ClarityDb ClarityState StxBalance Costs Contexts Callables Assets Machine Specials.
From S2P Require Import TypeRepr DataNatives Interpreter Define StateLayout Discipline Respect.
From S2P Require Import Ledger LedgerRefinement Termination Isolation.
Open Scope Z_scope.
Open Scope machine_scope.

(** * Names *)
Section names.
Context {O : HashOrder} {D : Digests} {J : SerdeJson} {N : HeadersDB} {Q : IntegerSquareRoot} {K : LibSecp256k1}.
Context {C S T : Type} `{Sqlite C} `{!ClarityBackingStore C S} `{!CostTracker T} `{!Host S T}.
Notation G := (GlobalContext S (Tracked T)).
Notation M := (M (S:=S) (T:=T)).
Context (eval : SymbolicExpression -> Environment -> LocalContext -> M Value).
Implicit Types (cc : ContractContext) (name : string).

(** In how many tables of the contract a name is bound. *)
Definition bound_in {A : Type} (m : gmap string A) name : nat := if decide (is_Some (m !! name)) then 1%nat else 0%nat.
Definition data_bindings cc name : nat :=
  (bound_in (meta_data_var cc) name + bound_in (meta_data_map cc) name + bound_in (meta_nft cc) name + bound_in (meta_ft cc) name)%nat.
Definition bindings cc name : nat :=
  (bound_in (cc_variables cc) name + bound_in (cc_functions cc) name + bound_in (defined_traits cc) name + data_bindings cc name)%nat.

Record well_named cc : Prop := {
  wn_unique : forall name, (bindings cc name <= if is_reserved name then 0 else 1)%nat;
  wn_persisted : forall name, name ∈ persisted_names cc <-> data_bindings cc name = 1%nat;
  wn_functions : forall name f, cc_functions cc !! name = Some f ->
    df_name f = name /\ df_identifier f = new_user_function name (QualifiedContractIdentifier_to_string (contract_identifier cc)) /\
    Forall (fun t => TypeSignature_wf t = true) (df_arg_types f);
  wn_variables : forall name d, meta_data_var cc !! name = Some d -> TypeSignature_wf (var_value_type d) = true;
  wn_maps : forall name d, meta_data_map cc !! name = Some d ->
    TypeSignature_wf (map_key_type d) = true /\ TypeSignature_wf (map_value_type d) = true;
  wn_nfts : forall name d, meta_nft cc !! name = Some d -> TypeSignature_wf (nft_key_type d) = true
}.

Lemma well_named_new (id : QualifiedContractIdentifier) : well_named (ContractContext_new id).
Proof. split; try done. intros name. change (0 <= if is_reserved name then 0 else 1)%nat. destruct (is_reserved name); lia. Qed.

(** ** Definitions are legal *)
Definition unused cc name : Prop := is_name_used cc name = false.
Definition function_ok cc name (f : DefinedFunction) : Prop :=
  df_name f = name /\ df_identifier f = new_user_function name (QualifiedContractIdentifier_to_string (contract_identifier cc)) /\
  Forall (fun t => TypeSignature_wf t = true) (df_arg_types f).
Definition legal cc (r : DefineResult) : Prop :=
  match r with
  | DRVariable name _ | DRFungibleToken name _ | DRTrait name _ => unused cc name
  | DRFunction name f => unused cc name /\ function_ok cc name f
  | DRMap name key_type value_type =>
      unused cc name /\ TypeSignature_wf key_type = true /\ TypeSignature_wf value_type = true
  | DRPersistedVariable name value_type _ => unused cc name /\ TypeSignature_wf value_type = true
  | DRNonFungibleAsset name asset_type => unused cc name /\ TypeSignature_wf asset_type = true
  | _ => True
  end.

Lemma yields_check_legal name cc : yields (S:=S) (T:=T) (check_legal_define name cc) (fun _ => unused cc name).
Proof. unfold check_legal_define. destruct (is_name_used cc name) eqn:E; [apply yields_failed|by apply yields_ret]. Qed.
Lemma yields_type (e : SymbolicExpression) :
  names_valid e = true -> yields (S:=S) (T:=T) (parse_type_repr e) (fun t => TypeSignature_wf t = true).
Proof. intros He. by apply parse_wf. Qed.

Lemma yields_arguments (l : list SymbolicExpression) :
  forallb names_valid l = true -> yields (S:=S) (T:=T) (parse_name_type_pairs l) (Forall field_ok).
Proof.
  intros Hl. unfold parse_name_type_pairs, parse_name_type_pairs_with. destruct (forallb is_pair l); [|apply yields_failed].
  apply yields_name_types. rewrite forallb_forall in Hl. apply List.Forall_forall. intros e He. by apply parse_wf, Hl.
Qed.

Lemma yields_define_function (signature : list SymbolicExpression) (body : SymbolicExpression) env ty :
  forallb names_valid signature = true ->
  yields (S:=S) (T:=T) (handle_define_function signature body env ty) (legal (contract_context env)).
Proof.
  intros Hs. destruct signature as [|f args]; [apply yields_failed|]. cbn [forallb] in Hs. apply andb_true_iff in Hs as [_ Hs].
  eapply yields_bind; [apply yields_any|]. intros name _. eapply yields_bind; [apply yields_check_legal|]. intros [] Hname.
  eapply yields_bind; [by apply yields_arguments|]. intros arguments Hargs. eapply yields_bind; [apply yields_any|]. intros _ _.
  apply yields_ret. split; [done|]. split; [done|]. split; [done|]. cbn. rewrite List.Forall_map.
  eapply List.Forall_impl; [|exact Hargs]. by intros e [].
Qed.

(** The parts of a definition have valid names. *)
Definition parts_valid (d : DefineFunctionsParsed) : bool :=
  match d with
  | Parsed.PrivateFunction signature _ | Parsed.ReadOnlyFunction signature _ | Parsed.PublicFunction signature _ =>
      forallb names_valid signature
  | Parsed.NonFungibleToken _ t | Parsed.PersistedVariable _ t _ => names_valid t
  | Parsed.Map _ k v => names_valid k && names_valid v
  | _ => true
  end.

Lemma try_parse_valid (e : SymbolicExpression) (d : DefineFunctionsParsed) :
  names_valid e = true -> try_parse_define e = Ok (Some d) -> parts_valid d = true.
Proof.
  unfold try_parse_define. intros He Hd. destruct (DefineFn.try_parse e) as [[ty args]|] eqn:Ep; [|done].
  assert (forallb names_valid args = true) as Hargs.
  { unfold DefineFn.try_parse in Ep. destruct e as [| |[|f l]| | |]; try done. simpl in Ep, He.
    apply andb_true_iff in He as [_ He]. destruct (match_atom f); [|done]. simpl in Ep.
    destruct (DefineFn.lookup_by_name s); simpl in Ep; congruence. }
  apply out_bind_Ok in Hd as (d' & Hd & [= ->]).
  destruct ty, args as [|a1 [|a2 [|a3 [|]]]]; simpl in Hd, Hargs; try done; rewrite ?andb_true_iff in Hargs; out_inv; simpl in *;
    try done; rewrite ?andb_true_iff; try tauto.
  all: match goal with Hm : expect_signature ?x = Ok _ |- _ => destruct x; try discriminate Hm; cbn in Hm; injection Hm as <-; apply Hargs end.
Qed.

Lemma yields_evaluate_define (e : SymbolicExpression) env :
  names_valid e = true -> yields (S:=S) (T:=T) (evaluate_define eval e env) (legal (contract_context env)).
Proof.
  intros He. eapply yields_bind with (P := fun d => forall d', d = Some d' -> parts_valid d' = true).
  { apply yields_lift. intros d Hd%unchecked_Ok d' ->. by eapply try_parse_valid. }
  intros [d|] Hd; [|by apply yields_ret]. specialize (Hd d eq_refl).
  destruct d; cbn [parts_valid] in Hd; rewrite ?andb_true_iff in Hd; try (by apply yields_define_function); try (by apply yields_ret);
    (eapply yields_bind; [apply yields_check_legal|]; intros [] Hname);
    repeat (eapply yields_bind; [(apply yields_type; tauto) || apply yields_any|]; intros ? ?);
    try (by apply yields_ret).
  match goal with |- yields (match ?v with _ => _ end) _ => destruct v end; try apply yields_failed; by apply yields_ret.
Qed.

Lemma yields_execute_alone {A : Type} (m : M A) (P : A -> Prop) : yields m P -> yields (execute_alone m) P.
Proof.
  intros Hm g g' a Hr. unfold execute_alone, execute, with_new_stack in Hr.
  destruct (m (with_stack (begin g) CallStack_new)) as [[g1 a1]|[g1 e]|] eqn:E; [| |done].
  - apply out_bind_Ok in Hr as ([g2 x] & _ & [= <- <-]). by eapply Hm.
  - by apply out_bind_Ok in Hr as (g2 & _ & Hr).
Qed.

(** ** Preservation *)
Lemma bound_insert {A : Type} (m : gmap string A) n v name :
  bound_in (<[n := v]> m) name = if decide (name = n) then 1%nat else bound_in m name.
Proof.
  unfold bound_in. destruct (decide (name = n)) as [-> |Hne]; [by rewrite lookup_insert_eq|]. by rewrite lookup_insert_ne.
Qed.
Lemma unused_bindings cc name :
  well_named cc -> unused cc name -> is_reserved name = false /\ bindings cc name = 0%nat /\ name ∉ persisted_names cc.
Proof.
  intros Hcc Hu. unfold unused, is_name_used in Hu. rewrite !orb_false_iff, !bool_decide_eq_false in Hu.
  destruct Hu as ((((Hr & Hv) & Hf) & Hp) & Ht). split; [done|]. split; [|done].
  pose proof (wn_persisted _ Hcc name) as Hpers. pose proof (wn_unique _ Hcc name) as Hun. rewrite Hr in Hun.
  assert (data_bindings cc name <= 1)%nat as Hd by (unfold bindings in Hun; lia).
  assert (data_bindings cc name <> 1%nat) as Hd1 by (intros E; by apply Hp, Hpers).
  unfold bindings. unfold bound_in at 1 2 3. rewrite !decide_False by done. lia.
Qed.

(** A new name in one of the tables. *)
Ltac new_name :=
  let n := fresh "n" in intros n; unfold bindings, data_bindings in *; cbn; rewrite ?bound_insert;
  destruct (decide (n = _)) as [-> |]; [lia|done].

Lemma unique_after cc cc' name :
  well_named cc -> is_reserved name = false ->
  (forall n, bindings cc' n = if decide (n = name) then 1%nat else bindings cc n) ->
  forall n, (bindings cc' n <= if is_reserved n then 0 else 1)%nat.
Proof.
  intros Hcc Hr Hb n. rewrite Hb. destruct (decide (n = name)) as [-> |]; [by rewrite Hr|]. apply (wn_unique _ Hcc).
Qed.
Lemma persisted_after cc cc' name :
  well_named cc -> name ∉ persisted_names cc -> persisted_names cc' = {[name]} ∪ persisted_names cc ->
  (forall n, data_bindings cc' n = if decide (n = name) then 1%nat else data_bindings cc n) ->
  forall n, n ∈ persisted_names cc' <-> data_bindings cc' n = 1%nat.
Proof.
  intros Hcc Hn -> Hb n. rewrite Hb. destruct (decide (n = name)) as [-> |]; [set_solver|].
  rewrite <-(wn_persisted _ Hcc). set_solver.
Qed.
Lemma lookup_after {A : Type} (P : string -> A -> Prop) (m : gmap string A) name v :
  (forall n d, m !! n = Some d -> P n d) -> P name v -> forall n d, <[name := v]> m !! n = Some d -> P n d.
Proof. intros Hm Hv n d [[<- <-]|[_ Hd]]%lookup_insert_Some; auto. Qed.

Lemma add_variable cc name v : well_named cc -> unused cc name -> well_named (set_variables cc (<[name := v]> (cc_variables cc))).
Proof.
  intros Hcc Hu. destruct (unused_bindings cc name Hcc Hu) as (Hr & Hb & Hp). pose proof Hcc as [H1 H2 H3 H4 H5 H6].
  split; try done. apply (unique_after cc _ name Hcc Hr). new_name.
Qed.
Lemma add_function cc name f :
  well_named cc -> unused cc name -> function_ok cc name f -> well_named (set_functions cc (<[name := f]> (cc_functions cc))).
Proof.
  intros Hcc Hu Hf. destruct (unused_bindings cc name Hcc Hu) as (Hr & Hb & Hp). pose proof Hcc as [H1 H2 H3 H4 H5 H6].
  split; try done.
  - apply (unique_after cc _ name Hcc Hr). new_name.
  - cbn. by apply (lookup_after (fun n f => function_ok cc n f)).
Qed.
Lemma add_trait cc name t :
  well_named cc -> unused cc name -> well_named (set_traits cc (<[name := t]> (defined_traits cc)) (implemented_traits cc)).
Proof.
  intros Hcc Hu. destruct (unused_bindings cc name Hcc Hu) as (Hr & Hb & Hp). pose proof Hcc as [H1 H2 H3 H4 H5 H6].
  split; try done. apply (unique_after cc _ name Hcc Hr). new_name.
Qed.
Lemma add_data_var cc name d :
  well_named cc -> unused cc name -> TypeSignature_wf (var_value_type d) = true ->
  well_named (add_persisted cc name (meta_data_map cc) (<[name := d]> (meta_data_var cc)) (meta_nft cc) (meta_ft cc)).
Proof.
  intros Hcc Hu Hd. destruct (unused_bindings cc name Hcc Hu) as (Hr & Hb & Hp). pose proof Hcc as [H1 H2 H3 H4 H5 H6].
  split; try done.
  - apply (unique_after cc _ name Hcc Hr). new_name.
  - apply (persisted_after cc _ name Hcc Hp); [done|]. new_name.
  - cbn. by apply (lookup_after (fun _ d => TypeSignature_wf (var_value_type d) = true)).
Qed.
Lemma add_data_map cc name d :
  well_named cc -> unused cc name -> TypeSignature_wf (map_key_type d) = true /\ TypeSignature_wf (map_value_type d) = true ->
  well_named (add_persisted cc name (<[name := d]> (meta_data_map cc)) (meta_data_var cc) (meta_nft cc) (meta_ft cc)).
Proof.
  intros Hcc Hu Hd. destruct (unused_bindings cc name Hcc Hu) as (Hr & Hb & Hp). pose proof Hcc as [H1 H2 H3 H4 H5 H6].
  split; try done.
  - apply (unique_after cc _ name Hcc Hr). new_name.
  - apply (persisted_after cc _ name Hcc Hp); [done|]. new_name.
  - cbn. by apply (lookup_after (fun _ d => TypeSignature_wf (map_key_type d) = true /\ TypeSignature_wf (map_value_type d) = true)).
Qed.
Lemma add_nft cc name d :
  well_named cc -> unused cc name -> TypeSignature_wf (nft_key_type d) = true ->
  well_named (add_persisted cc name (meta_data_map cc) (meta_data_var cc) (<[name := d]> (meta_nft cc)) (meta_ft cc)).
Proof.
  intros Hcc Hu Hd. destruct (unused_bindings cc name Hcc Hu) as (Hr & Hb & Hp). pose proof Hcc as [H1 H2 H3 H4 H5 H6].
  split; try done.
  - apply (unique_after cc _ name Hcc Hr). new_name.
  - apply (persisted_after cc _ name Hcc Hp); [done|]. new_name.
  - cbn. by apply (lookup_after (fun _ d => TypeSignature_wf (nft_key_type d) = true)).
Qed.
Lemma add_ft cc name d :
  well_named cc -> unused cc name ->
  well_named (add_persisted cc name (meta_data_map cc) (meta_data_var cc) (meta_nft cc) (<[name := d]> (meta_ft cc))).
Proof.
  intros Hcc Hu. destruct (unused_bindings cc name Hcc Hu) as (Hr & Hb & Hp). pose proof Hcc as [H1 H2 H3 H4 H5 H6].
  split; try done.
  - apply (unique_after cc _ name Hcc Hr). new_name.
  - apply (persisted_after cc _ name Hcc Hp); [done|]. new_name.
Qed.

Lemma yields_update_db {A : Type} (f : RollbackWrapper S -> outcome VmError (A * RollbackWrapper S)) (P : A -> Prop) :
  (forall db a db', f db = Ok (a, db') -> P a) -> yields (S:=S) (T:=T) (update_db f) P.
Proof.
  intros Hf g g' a Ha. unfold update_db in Ha. destruct (f (database g)) as [[a1 db]| |] eqn:E; simplify_eq. by eapply Hf.
Qed.

Definition named_as (id : QualifiedContractIdentifier) cc : Prop := well_named cc /\ contract_identifier cc = id.
Lemma yields_eval_top publisher cc id (exp : SymbolicExpression) :
  named_as id cc -> names_valid exp = true ->
  yields (S:=S) (T:=T) (eval_top eval publisher cc exp) (fun r => named_as id (fst (fst r))).
Proof.
  intros [Hcc Hid] He. eapply yields_bind; [by apply yields_execute_alone, yields_evaluate_define|].
  intros r Hr. cbn [contract_context] in Hr.
  destruct r; cbn [legal] in Hr; unfold named_as;
    repeat match goal with
    | |- yields (m_bind (update_db (fun db => create_variable db _ ?n ?t)) _) _ =>
        eapply yields_bind with (P := fun d => var_value_type d = t); [|intros ? ?]
    | |- yields (m_bind (update_db (fun db => create_map db _ ?n ?t ?u)) _) _ =>
        eapply yields_bind with (P := fun d => map_key_type d = t /\ map_value_type d = u); [|intros ? ?]
    | |- yields (m_bind (update_db (fun db => create_non_fungible_token db _ ?n ?t)) _) _ =>
        eapply yields_bind with (P := fun d => nft_key_type d = t); [|intros ? ?]
    | |- yields (m_bind _ _) _ => eapply yields_bind; [apply yields_any|intros ? ?]
    end; try apply yields_ret; cbn [fst].
  all: try (apply yields_update_db; intros db d db' Hd; unfold create_variable, create_map, create_non_fungible_token in Hd;
    out_inv; by simplify_eq).
  all: split; [|exact Hid].
  - by apply add_variable.
  - apply add_function; tauto.
  - apply add_data_map; [done|tauto|]. naive_solver.
  - apply add_data_var; [done|tauto|]. naive_solver.
  - by apply add_ft.
  - apply add_nft; [done|tauto|]. naive_solver.
  - by apply add_trait.
  - done.
  - by destruct Hcc; split.
  - done.
Qed.

Lemma yields_attempt {A : Type} (m : M A) (P : A -> Prop) : yields m P -> yields (attempt m) (fun r => forall a, r = Ok a -> P a).
Proof.
  intros Hm g g' r Hr. unfold attempt in Hr. destruct (m g) as [[g1 a1]|[g1 e]|] eqn:E; simplify_eq; intros a Ha; simplify_eq.
  by eapply Hm.
Qed.
Lemma yields_eval_tops publisher cc id total last (exps : list SymbolicExpression) :
  named_as id cc -> forallb names_valid exps = true ->
  yields (S:=S) (T:=T) (eval_tops eval publisher cc total last exps)
    (fun r => forall cc' v, snd r = Ok (cc', v) -> named_as id cc').
Proof.
  revert cc total last. induction exps as [|exp exps IH]; intros cc total last Hcc He; cbn [eval_tops].
  - apply yields_ret. by intros cc' v [= <- <-].
  - cbn [forallb] in He. apply andb_true_iff in He as [He Hes].
    eapply yields_bind; [by apply yields_attempt, yields_eval_top|]. intros [[[cc' m] v]|e|] Hr.
    + apply IH; [|done]. exact (Hr _ eq_refl).
    + apply yields_ret. by intros cc' v.
    + by intros g g' a.
Qed.
End names.

(** The names of a contract are unique.  However a contract is written, if
    it can be initialized then each name is bound in at most one of its tables
    of constants, functions, traits, variables, maps and tokens, no bound name
    is reserved, the names of persisted data are exactly those with metadata,
    every function carries its own name and identifier, and all declared types
    are well-formed. *)
Lemma contract_names_unique {O : HashOrder} {D : Digests} {J : SerdeJson} {N : HeadersDB} {Q : IntegerSquareRoot} {K : LibSecp256k1}
    {C S T : Type} `{Sqlite C} `{!ClarityBackingStore C S} `{!CostTracker T} `{!Host S T}
    (eval : SymbolicExpression -> Environment -> LocalContext -> M (S:=S) (T:=T) Value)
    (id : QualifiedContractIdentifier) (contract : list SymbolicExpression) (g g' : GlobalContext S (Tracked T)) (cc : ContractContext) :
  forallb names_valid contract = true -> initialize_from_ast eval id contract g = Ok (g', cc) ->
  well_named cc /\ contract_identifier cc = id.
Proof.
  intros He. unfold initialize_from_ast, eval_all. revert g g' cc.
  eapply yields_bind with (P := fun r => named_as id (fst r)); [|intros [cc v] Hcc; by apply yields_ret].
  eapply yields_bind; [by apply (yields_eval_tops eval _ _ id); [split; [apply well_named_new|]|]|].
  intros [total r] Hr. eapply yields_bind; [apply yields_any|]. intros _ _.
  eapply yields_bind; [apply (yields_lift r (fun x => named_as id (fst x)))|].
  - intros [cc v] ->. by eapply Hr.
  - intros [cc v] [[]]. apply yields_ret. by split; [split|].
Qed.

(** * Atomicity *)
Section staying.
Context {O : HashOrder} {D : Digests} {J : SerdeJson} {N : HeadersDB} {Q : IntegerSquareRoot} {K : LibSecp256k1}.
Context {C S T : Type} `{Sqlite C} `{!ClarityBackingStore C S} `{!CostTracker T} `{!Host S T}.
Context `{!MemoryLaws T} `{!HostLaws S T} {W : Type} {DW : Discipline (S:=S) (T:=T) W}.
Notation G := (GlobalContext S (Tracked T)).
Notation M := (M (S:=S) (T:=T)).
Implicit Types (w : W) (g : G).

(** A computation that stays in its world, also when it fails. *)
Definition stays {A : Type} w (m : M A) : Prop :=
  forall g, within w g -> match m g with Ok (g', _) | Err (g', _) => within w g' | Panic => True end.
Lemma stays_ret {A : Type} w (a : A) : stays w (m_ret a).
Proof. by intros g. Qed.
Lemma stays_failed {A : Type} w e : stays (A:=A) w (check_failed e).
Proof. by intros g. Qed.
Lemma stays_lift {A : Type} w (m : outcome VmError A) : stays w (lift m).
Proof. intros g Hg. unfold lift. by destruct m. Qed.
Lemma stays_cost w f n : stays w (cost f n).
Proof.
  intros g Hg. unfold cost, update, env_runtime_cost, track. pose proof (tracked_runtime_cost f (cost_track g) n) as Ht.
  destruct (runtime_cost f (cost_track g) n) as [[t s]|[[t s] e]|]; cbn in *; subst; try done; by eapply within_step, step_tracker.
Qed.
Lemma stays_bind {A B : Type} w (m : M A) (k : A -> M B) : stays w m -> (forall a, stays w (k a)) -> stays w (m_bind m k).
Proof.
  intros Hm Hk g Hg. unfold m_bind. specialize (Hm g Hg). destruct (m g) as [[g' a]|[g' e]|]; cbn; [by apply Hk|done|done].
Qed.
Lemma stays_map {A B : Type} w (f : A -> M B) (l : list A) : (forall a, In a l -> stays w (f a)) -> stays w (m_map f l).
Proof.
  induction l as [|a l IH]; intros Hf; cbn [m_map]; [apply stays_ret|]. apply stays_bind; [apply Hf; by left|]. intros b.
  apply stays_bind; [apply IH; intros; apply Hf; by right|]. intros. apply stays_ret.
Qed.
Lemma stays_agree {A : Type} w (m : M A) : stays w m -> agree w m m.
Proof.
  intros Hm g Hg. split; [done|]. specialize (Hm g Hg). destruct (m g) as [[g' a]|[g' e]|]; [done|by apply within_failed|done].
Qed.
Lemma stays_attempt {A : Type} w (m : M A) : stays w m -> stays w (attempt m).
Proof. intros Hm g Hg. specialize (Hm g Hg). unfold attempt. by destruct (m g) as [[g' a]|[g' e]|]. Qed.

Hint Resolve stays_ret stays_failed stays_lift stays_cost : core.
Ltac stays_walk := repeat first
  [ progress intros
  | apply stays_bind
  | match goal with |- stays _ (match ?x with _ => _ end) => destruct x end
  | solve [auto] ].

Definition type_stays w (e : SymbolicExpression) : Prop :=
  stays w (parse_type_repr e) /\ forall n t, e = ListExpr [n; t] -> stays w (parse_type_repr t).
Lemma stays_name_types w (l : list SymbolicExpression) : Forall (type_stays w) l -> stays w (name_types parse_type_repr l).
Proof.
  induction 1 as [|e l [_ He] _ IH]; cbn [name_types]; [done|].
  destruct e as [| |[|n [|t [|]]]| | |]; try done. specialize (He n t eq_refl). unfold atom_or. stays_walk.
Qed.
Lemma parse_stays w (e : SymbolicExpression) : type_stays w e.
Proof.
  induction e as [e Hl|l IH] using SymbolicExpression_ind'; split; try (intros n t He; by destruct (Hl [n; t])).
  - destruct e as [v|n|l|v|t|n [t|t]]; [| |by destruct (Hl l)|..]; cbn [parse_type_repr]; stays_walk.
  - cbn [parse_type_repr]. apply stays_bind; [done|]. intros _. destruct l as [|[v|c|l'|v|t|n t] rest]; try done.
    apply Forall_cons in IH as [_ IH].
    assert (forall e, In e rest -> stays w (parse_type_repr e)) as Hrest by (rewrite List.Forall_forall in IH; intros e He; by apply IH).
    unfold parse_list_type_repr, parse_tuple_type_repr, parse_name_type_pairs_with, parse_optional_type_repr, parse_response_type_repr.
    pose proof (stays_name_types w rest IH) as Hnames.
    stays_walk; try apply Hrest; simpl; auto.
  - intros n t [= ->]. by apply Forall_cons in IH as [_ [[IH _] _]%Forall_cons].
Qed.
Lemma stays_type w (e : SymbolicExpression) : stays w (parse_type_repr e).
Proof. apply parse_stays. Qed.
Lemma stays_pairs w (l : list SymbolicExpression) : stays w (parse_name_type_pairs l).
Proof.
  unfold parse_name_type_pairs, parse_name_type_pairs_with. destruct (forallb is_pair l); [|done].
  apply stays_name_types. apply List.Forall_forall. intros. apply parse_stays.
Qed.
Lemma stays_trait w (l : list SymbolicExpression) : stays w (parse_trait_type_repr l).
Proof.
  unfold parse_trait_type_repr, nth_arg. apply stays_bind; [done|]. intros e. apply stays_bind; [done|]. intros functions.
  generalize (∅ : gmap string FunctionSignature). induction functions as [|f functions IH]; intros acc; cbn [m_fold]; [done|].
  apply stays_bind; [|done]. apply stays_bind; [|by intros [n signature]].
  unfold parse_trait_function, atom_or. apply stays_bind; [done|]. intros args. destruct args as [|a1 [|a2 [|a3 [|]]]]; try done.
  apply stays_bind; [done|]. intros n. apply stays_bind; [done|]. intros l2. apply stays_bind; [apply stays_map; intros; apply stays_type|].
  intros types. apply stays_bind; [apply stays_attempt, stays_type|]. intros [[]| |]; done.
Qed.
End staying.

Section agreeing.
Context {O : HashOrder} {D : Digests} {J : SerdeJson} {N : HeadersDB} {Q : IntegerSquareRoot} {K : LibSecp256k1}.
Context {C S T : Type} `{Sqlite C} `{!ClarityBackingStore C S} `{!CostTracker T} `{!Host S T}.
Context `{!MemoryLaws T} `{!HostLaws S T} {W : Type} {DW : Discipline (S:=S) (T:=T) W}.
Notation G := (GlobalContext S (Tracked T)).
Notation M := (M (S:=S) (T:=T)).
Implicit Types (w : W) (g : G).
Context (eval1 eval2 : SymbolicExpression -> Environment -> LocalContext -> M Value).

Lemma agree_check_legal w n cc : agree w (check_legal_define n cc) (check_legal_define n cc).
Proof. unfold check_legal_define. destruct (is_name_used cc n); auto with walk. Qed.
Lemma agree_type w e : agree w (parse_type_repr e) (parse_type_repr e).
Proof. apply stays_agree, stays_type. Qed.
Lemma agree_pairs w l : agree w (parse_name_type_pairs l) (parse_name_type_pairs l).
Proof. apply stays_agree, stays_pairs. Qed.
Lemma agree_trait w l : agree w (parse_trait_type_repr l) (parse_trait_type_repr l).
Proof. apply stays_agree, stays_trait. Qed.
Lemma agree_legal_args w cc (l : list (string * TypeSignature)) :
  agree w (m_map (fun '(argument, _) => check_legal_define argument cc) l) (m_map (fun '(argument, _) => check_legal_define argument cc) l).
Proof. apply stays_agree, stays_map. intros [n t] _. unfold check_legal_define. destruct (is_name_used cc n); [apply stays_failed|apply stays_ret]. Qed.
Hint Resolve agree_check_legal agree_type agree_pairs agree_trait agree_legal_args : walk.

Lemma agree_evaluate_define w e env :
  (forall e env context, agree w (eval1 e env context) (eval2 e env context)) ->
  agree w (evaluate_define eval1 e env) (evaluate_define eval2 e env).
Proof.
  intros Heval. unfold evaluate_define. apply agree_bind; [auto with walk|]. intros d.
  destruct d as [[]|]; unfold handle_define_variable, handle_define_function, handle_define_nonfungible_asset,
    handle_define_fungible_token, handle_define_map, handle_define_persisted_variable, handle_define_trait, handle_use_trait,
    handle_impl_trait, atom_or; agree_walk.
Qed.

Lemma agree_execute {A : Type} w (m1 m2 : M A) :
  (forall w', under w w' -> agree w' m1 m2) -> agree w (fun g => execute g m1) (fun g => execute g m2).
Proof.
  intros Hm g Hg. unfold execute. destruct (enter_frame w g (is_read_only g) Hg) as (w1 & Hu & Hin & _ & Hfback & Hcommit & _).
  destruct (Hm w1 Hu _ Hin) as [Heq Hr]. change (begin g) with (begin_with g (is_read_only g)). rewrite <-Heq. split; [done|].
  destruct (m1 _) as [[g1 a]|[g1 e]|]; [| |done].
  - specialize (Hcommit g1 Hr). by destruct (context_commit g1) as [[g' x]|[g' e']|].
  - specialize (Hfback g1 e Hr). destruct (roll_back_cases g1) as [E|[g' E]]; by rewrite E in *.
Qed.
End agreeing.

(** A failed deployment. *)
Section deploying.
Context {O : HashOrder} {D : Digests} {J : SerdeJson} {N : HeadersDB} {Q : IntegerSquareRoot} {K : LibSecp256k1}.
Context {C S T : Type} `{Sqlite C} `{!ClarityBackingStore C S} `{!CostTracker T} `{!Host S T}.
Context `{!MemoryLaws T} `{!HostLaws S T} `{!BlockLaws C S}.
Notation G := (GlobalContext S (Tracked T)).
Notation M := (M (S:=S) (T:=T)).
Notation applier := (CallableType -> list SymbolicExpression -> Environment -> LocalContext -> M Value).
Implicit Types (g : G) (ls : list Layer) (s : Bottom S) (p : bool) (w : World (S:=S)).

(** ** Fuel *)
Lemma new_stack_fuel (no_fuel : applier) (n : nat) cc publisher exp g :
  (65 <= n)%nat ->
  eval_top (eval no_fuel n) publisher cc exp g = eval_top (eval panic_without_fuel n) publisher cc exp g.
Proof.
  intros Hn.
  assert (forall e env context, agree CallStack_new (eval no_fuel n e env context) (eval panic_without_fuel n e env context)) as Heval.
  { intros. apply eval_agrees; by apply enough_65. }
  assert (forall {A} (m1 m2 : M A), agree CallStack_new m1 m2 -> forall g, execute_alone m1 g = execute_alone m2 g) as Halone.
  { intros A m1 m2 Hm g1. unfold execute_alone, execute, with_new_stack. destruct (Hm (with_stack (begin g1) CallStack_new) eq_refl) as [-> _]. done. }
  unfold eval_top. rewrite (bind_first _ _ _ _ (Halone _ _ _ (agree_evaluate_define _ _ CallStack_new exp _ Heval) g)).
  apply bind_eq. intros g1 r _. destruct r; try done. apply bind_first, Halone, Heval.
Qed.
Lemma eval_tops_fuel (no_fuel : applier) (n : nat) publisher exps cc total last g :
  (65 <= n)%nat ->
  eval_tops (eval no_fuel n) publisher cc total last exps g = eval_tops (eval panic_without_fuel n) publisher cc total last exps g.
Proof.
  intros Hn. revert cc total last g. induction exps as [|e exps IH]; intros cc total last g; [done|]. cbn [eval_tops].
  assert (attempt (eval_top (eval no_fuel n) publisher cc e) g = attempt (eval_top (eval panic_without_fuel n) publisher cc e) g) as Ha
    by (unfold attempt; by rewrite new_stack_fuel).
  rewrite (bind_first _ _ _ _ Ha). apply bind_eq. intros g1 [[[cc' m] v]| |] _; [apply IH|done..].
Qed.
Lemma deploy_body_fuel (no_fuel : applier) (n : nat) id contract source g :
  (65 <= n)%nat -> deploy_body (eval no_fuel n) id contract source g = deploy_body (eval panic_without_fuel n) id contract source g.
Proof.
  intros Hn. unfold deploy_body. apply bind_eq. intros g1 _ _. apply bind_eq. intros g2 b _. destruct b; [done|].
  do 2 (apply bind_eq; intros ? ? _). unfold finally_free. apply bind_first. unfold attempt.
  assert (forall g, initialize_from_ast (eval no_fuel n) id contract g = initialize_from_ast (eval panic_without_fuel n) id contract g) as ->; [|done].
  intros g5. apply bind_first. unfold eval_all. apply bind_first. by apply eval_tops_fuel.
Qed.

(** ** Isolation *)
Definition restacked w (cs : CallStack) : World := mkWorld cs (w_read_only w) (w_below w) (w_store w) (w_pending w).
Lemma agree_new_stack {A : Type} w (m : M A) :
  agree (restacked w CallStack_new) m m -> agree w (with_new_stack m) (with_new_stack m).
Proof.
  intros Hm g [Hs (l & p & Hh & Hrest)]. split; [done|]. unfold with_new_stack.
  destruct (Hm (with_stack g CallStack_new)) as [_ Hr].
  { split; [done|]. exists l, p. split; [by apply holds_with_stack|exact Hrest]. }
  destruct (m _) as [[g1 a]|[g1 e]|]; [| |done].
  - destruct Hr as [_ (l' & p' & Hh' & Hrest')]. split; [done|]. exists l', p'. split; [by apply holds_with_stack|exact Hrest'].
  - destruct Hr as [_ (ex & l' & p' & Hh' & Hrest')]. split; [by intros _|]. exists ex, l', p'. split; [by apply holds_with_stack|exact Hrest'].
Qed.
Lemma agree_execute_alone {A : Type} w (m : M A) : (forall w, agree w m m) -> agree w (execute_alone m) (execute_alone m).
Proof. intros Hm. apply agree_execute. intros w' _. by apply agree_new_stack. Qed.

Lemma edits_metadata (db db' : RollbackWrapper S) id k v : db_insert_metadata db id k v = Ok db' -> edits db db'.
Proof.
  unfold db_insert_metadata. intros (b & _ & Hm)%out_bind_Ok. destruct b; [done|]. by apply (edits_one (InsertMetadata id k v)).
Qed.
Lemma edits_create_variable (db db' : RollbackWrapper S) id n t d : create_variable db id n t = Ok (d, db') -> edits db db'.
Proof. unfold create_variable. intros. out_inv. simplify_eq. eauto using edits_metadata. Qed.
Lemma edits_create_map (db db' : RollbackWrapper S) id n t u d : create_map db id n t u = Ok (d, db') -> edits db db'.
Proof. unfold create_map. intros. out_inv. simplify_eq. eauto using edits_metadata. Qed.
Lemma edits_create_nft (db db' : RollbackWrapper S) id n t d : create_non_fungible_token db id n t = Ok (d, db') -> edits db db'.
Proof. unfold create_non_fungible_token. intros. out_inv. simplify_eq. eauto using edits_metadata. Qed.
Lemma edits_create_ft (db db' : RollbackWrapper S) id n o d : create_fungible_token db id n o = Ok (d, db') -> edits db db'.
Proof. unfold create_fungible_token. intros. out_inv. simplify_eq. eauto using edits_metadata, edits_trans, edits_db_put, trip_not_nonce. Qed.
Lemma edits_insert_contract {A : Type} (c : json_codec A) (db db' : RollbackWrapper S) id x : insert_contract c db id x = Ok db' -> edits db db'.
Proof. apply edits_metadata. Qed.
Lemma edits_data_size (db db' : RollbackWrapper S) id n : set_contract_data_size db id n = Ok db' -> edits db db'.
Proof. unfold set_contract_data_size. intros. out_inv. eauto using edits_metadata. Qed.

Lemma agree_eval_top (n : nat) w publisher cc exp :
  agree w (eval_top (eval panic_without_fuel n) publisher cc exp) (eval_top (eval panic_without_fuel n) publisher cc exp).
Proof.
  pose proof (fun w => eval_isolated (S:=S) (T:=T) n w) as Heval. unfold eval_top.
  apply agree_bind; [apply agree_execute_alone; intros w1; by apply agree_evaluate_define|].
  assert (forall t, agree w (use_type_memory t) (use_type_memory t)) as Hmem by (intros; unfold use_type_memory; agree_walk).
  intros r. destruct r; repeat (apply agree_bind; [|intros ?]); eauto with walk.
  all: try (by apply agree_execute_alone).
  all: apply agree_update_db; intros db d db' Hd;
    eauto using edits_set_variable, edits_create_variable, edits_create_map, edits_create_nft, edits_create_ft.
Qed.

Lemma rel_eval_tops (n : nat) w publisher exps cc total last g :
  within w g ->
  rel w (fun x => settled w (fst x, snd (snd x))) (eval_tops (eval panic_without_fuel n) publisher cc total last exps g)
    (eval_tops (eval panic_without_fuel n) publisher cc total last exps g).
Proof.
  revert cc total last g. induction exps as [|e exps IH]; intros cc total last g Hg; cbn [eval_tops]; [by apply rel_ok|].
  unfold m_bind. eapply rel_bind; [apply rel_attempt; by apply agree_eval_top|].
  intros [g1 [[[cc' m] v]|e'|]] Hg1; [by apply IH|by apply rel_ok|apply rel_panic].
Qed.
Lemma agree_eval_all (n : nat) w exps cc :
  agree w (eval_all (eval panic_without_fuel n) exps cc) (eval_all (eval panic_without_fuel n) exps cc).
Proof.
  intros g Hg. unfold eval_all, m_bind. eapply rel_bind; [by apply rel_eval_tops|]. intros [g1 [total r]] Hg1.
  split; [done|]. cbn [fst snd] in Hg1. destruct (free_memory_cases total g1) as [-> |[t ->]]; [done|]. cbn [out_bind].
  destruct r as [[cc' v]|e|]; unfold lift, m_ret; cbn [out_bind]; [|by apply failed_tracker|done]. by eapply within_step, step_tracker.
Qed.
Lemma edits_contract_hash (db db' : RollbackWrapper S) id source : insert_contract_hash db id source = Ok db' -> edits db db'.
Proof.
  unfold insert_contract_hash. intros (db1 & H1 & (db2 & H2 & H3)%out_bind_Ok)%out_bind_Ok.
  eapply edits_trans; [by eapply (edits_one (Prepare id _))|]. eauto using edits_trans, edits_metadata.
Qed.
Lemma agree_deploy_body (n : nat) w id contract source :
  agree w (deploy_body (eval panic_without_fuel n) id contract source) (deploy_body (eval panic_without_fuel n) id contract source).
Proof.
  unfold deploy_body. apply agree_bind; [auto with walk|]. intros _. apply agree_bind; [auto with walk|]. intros [|]; [auto with walk|].
  apply agree_bind.
  { apply agree_update_db. intros db a db' (db1 & Hi & [= <- <-])%out_bind_Ok. by eapply edits_contract_hash. }
  intros _. apply agree_bind; [auto with walk|]. intros _. apply agree_finally_free.
  unfold initialize_from_ast. apply agree_bind; [apply agree_eval_all|]. intros [cc v]. auto with walk.
Qed.

(** The end of a deployment, in the transaction of the contract. *)
Definition finish_deployment (id : QualifiedContractIdentifier) (contract : ContractContext) : M unit :=
  let! _ := update_db (fun db => let? db := insert_contract json_contract db id contract in Ok (tt, db)) in
  let! _ := update_db (fun db => let? db := set_contract_data_size db id (data_size contract) in Ok (tt, db)) in
  update (fun g => let? '(g, _) := context_commit g in Ok g).
(** The data size of a contract could not be stored. *)
Definition size_failed (id : QualifiedContractIdentifier) (e : VmError) : Prop :=
  exists (db : RollbackWrapper S) (n : Z), set_contract_data_size db id n = Err e.

Lemma finish_isolated id contract g l l1 ls s :
  holds g (l :: l1 :: ls) s true ->
  match finish_deployment id contract g with
  | Ok (g', _) => exists l', holds g' (l' :: ls) s true
  | Err (g', e) => exists x xs, holds g' (x :: xs) s true /\ (size_failed id e \/ x :: xs = l1 :: ls)
  | Panic => True
  end.
Proof.
  intros Hh. unfold finish_deployment, m_bind, update_db, update.
  assert (forall db e, insert_contract json_contract db id contract <> Err e) as Hins.
  { intros db e. unfold insert_contract, db_insert_metadata, has_metadata_entry, insert_metadata, inner_put, expect_some, out_bind.
    destruct (get_metadata db id _) as [[]| |]; try done; destruct (stack db); try done; by repeat case_match. }
  destruct (insert_contract json_contract (database g) id contract) as [db1|e|] eqn:E1; cbn [out_bind]; [|by destruct (Hins _ _ E1)|done].
  destruct (holds_edit _ _ _ _ _ _ Hh (edits_insert_contract _ _ _ _ _ E1)) as [f1 Hh1].
  destruct (set_contract_data_size _ id (data_size contract)) as [db2|e|] eqn:E2; cbn [out_bind]; [|exists (mkLayer (l_map l) (l_batch l) (l_read_only l) f1), (l1 :: ls); split; [exact Hh1|left; by eexists _, _]|done].
  destruct (holds_edit _ _ _ _ _ _ Hh1 (edits_data_size _ _ _ _ E2)) as [f2 Hh2].
  pose proof (holds_commit _ _ _ _ _ _ Hh2) as Hc. cbn in Hc |- *. destruct (context_commit _) as [[g' x]|[g' e]|]; cbn; [|exists l1, ls; auto|done].
  destruct Hc as (l' & Hc & _). by exists l'.
Qed.

Lemma deployment_isolated (no_fuel : applier) (n : nat) id contract source g l ls s :
  (65 <= n)%nat -> holds g (l :: ls) s true ->
  match initialize_contract_from_ast (eval no_fuel n) id contract source g with
  | Ok (g', _) => exists l', holds g' (l' :: ls) s true
  | Err (g', e) => exists x xs, holds g' (x :: xs) s true /\ (must_return_response e = true \/ size_failed id e \/ x :: xs = l :: ls)
  | Panic => True
  end.
Proof.
  intros Hn Hh. unfold initialize_contract_from_ast. rewrite deploy_body_fuel by done.
  destruct (agree_deploy_body n (opened (call_stack g) (is_read_only g) (l :: ls) s true) id contract source (begin g)
    (opened_within _ _ _ _ _ Hh)) as [_ Hr].
  destruct (deploy_body _ _ _ _ _) as [[g1 cc]|[g1 e]|]; [| |done].
  - destruct Hr as [_ (l' & p' & Hh' & _ & Hp')]. cbn [fst w_below opened w_store] in Hh'.
    assert (p' = true) as -> by (destruct Hp'; tauto).
    pose proof (finish_isolated id cc g1 l' l ls s Hh') as Hf. unfold finish_deployment in Hf.
    destruct (m_bind _ _ g1) as [[g2 u]|[g2 e]|]; [done| |done]. destruct Hf as (x & xs & ? & ?). exists x, xs. tauto.
  - destruct Hr as [_ (ex & l' & p' & Hh' & _ & Hp' & Hex)]. cbn [w_below opened w_store] in Hh'.
    assert (p' = true) as -> by (destruct Hp'; tauto). destruct ex as [|x ex].
    + destruct (holds_roll_back _ _ _ _ _ Hh') as (g2 & -> & Hh2). exists l, ls. auto.
    + destruct Hex as [|He]; [done|]. destruct (holds_roll_back _ _ _ _ _ Hh') as (g2 & -> & Hh2). cbn.
      destruct ex as [|y ex]; eexists _, _; (split; [exact Hh2|auto]).
Qed.
Lemma deployment_left (no_fuel : applier) (n : nat) id contract source g l ls s :
  (65 <= n)%nat -> holds g (l :: ls) s true ->
  match initialize_contract_from_ast (eval no_fuel n) id contract source g with
  | Ok (g', _) => exists l', holds g' (l' :: ls) s true
  | Err (g', e) => must_return_response e = true \/ size_failed id e \/ holds g' (l :: ls) s true
  | Panic => True
  end.
Proof.
  intros Hn Hh. pose proof (deployment_isolated no_fuel n id contract source g l ls s Hn Hh) as Hd.
  destruct (initialize_contract_from_ast _ _ _ _ _) as [[g1 u]|[g1 e1]|]; [done| |done].
  destruct Hd as (x & xs & Hd & [?|[?|Heq]]); [by left|by right; left|]. rewrite Heq in Hd. by right; right.
Qed.
End deploying.

(** A top-level call whose body keeps to its own layer sends what it wrote in one
    batch, or leaves the context as it was, unless it fails with an error that
    [leaks]. *)
Lemma transaction_isolated {O : HashOrder} {D : Digests} {C S T : Type} `{Sqlite C} `{!ClarityBackingStore C S} `{!BlockLaws C S} {A : Type}
    (g : GlobalContext S (Tracked T)) (s : Bottom S) (m : M (S:=S) (T:=T) A) (leaks : VmError -> Prop) :
  holds g [] s true ->
  (forall l, holds (begin g) [l] s true ->
     match m (begin g) with
     | Ok (g', _) => exists l', holds g' [l'] s true
     | Err (g', e) => leaks e \/ holds g' [l] s true
     | Panic => True
     end) ->
  match execute_in_env g m with
  | Ok (g', _) => exists f s', frame_clean f /\ stored s f s' /\ holds g' [] s' true
  | Err (g', e) => leaks e \/ same_state g g'
  | Panic => True
  end.
Proof.
  intros Hh Hm. unfold execute_in_env. destruct (negb (is_top_level g)); [done|].
  pose proof (holds_begin g [] s true (is_read_only g) Hh) as Hb. specialize (Hm _ Hb).
  destruct (m (begin g)) as [[g1 u]|[g1 e]|]; [| |done].
  - destruct Hm as [l' Hd]. pose proof (holds_commit_bottom _ _ _ Hd) as Hc.
    destruct (context_commit g1) as [[g2 [a b]]|x|]; cbn; [|done|done]. destruct Hc as (-> & -> & s' & Hs & Hh2).
    exists (l_db l'), s'. pose proof (holds_clean _ _ _ _ Hd) as Hcl. by apply Forall_cons in Hcl as [? _].
  - destruct Hm as [Hl|Hd].
    + destruct (roll_back_cases g1) as [-> |[g2 ->]]; cbn; tauto.
    + destruct (holds_roll_back _ _ _ _ _ Hd) as (g2 & -> & Hh2). cbn. right. by eapply holds_unique.
Qed.

(** A deployment is atomic.  The deployment of a contract, whatever its
    code, on a context with nothing pending, either succeeds, sends one batch of
    writes to the store and leaves nothing pending, or fails and leaves the
    context as it was.  The exceptions are the two errors after which the code
    leaves a context open: a public function that returns no response, and a
    data size that cannot be stored. *)
Lemma deployment_atomic {O : HashOrder} {D : Digests} {J : SerdeJson} {N : HeadersDB} {Q : IntegerSquareRoot} {K : LibSecp256k1}
    {C S T : Type} `{Sqlite C} `{!ClarityBackingStore C S} `{!CostTracker T} `{!Host S T} `{!MemoryLaws T} `{!HostLaws S T}
    `{!BlockLaws C S}
    (no_fuel : CallableType -> list SymbolicExpression -> Environment -> LocalContext -> M (S:=S) (T:=T) Value)
    (n : nat) (id : QualifiedContractIdentifier) (contract : list SymbolicExpression) (source : string)
    (g : GlobalContext S (Tracked T)) (s : Bottom S) :
  (65 <= n)%nat -> holds g [] s true ->
  match deploy_contract (eval no_fuel n) id contract source g with
  | Ok (g', _) => exists f s', frame_clean f /\ stored s f s' /\ holds g' [] s' true
  | Err (g', e) => must_return_response e = true \/ size_failed (S:=S) id e \/ same_state g g'
  | Panic => True
  end.
Proof.
  intros Hn Hh. pose proof (transaction_isolated g s (initialize_contract_from_ast (eval no_fuel n) id contract source)
    (fun e => must_return_response e = true \/ size_failed (S:=S) id e) Hh) as Ht.
  unfold deploy_contract. destruct (execute_in_env g _) as [[g' x]|[g' e]|]; [apply Ht|apply or_assoc, Ht|done]; intros l Hl;
    pose proof (deployment_left no_fuel n id contract source (begin g) _ _ _ Hn Hl) as Hd;
    destruct (initialize_contract_from_ast _ _ _ _ _) as [[g1 u]|[g1 e1]|]; tauto.
Qed.
Lemma deploy_isolated {O : HashOrder} {D : Digests} {J : SerdeJson} {N : HeadersDB} {Q : IntegerSquareRoot} {K : LibSecp256k1}
    {C S T : Type} `{Sqlite C} `{!ClarityBackingStore C S} `{!CostTracker T} `{!Host S T} `{!MemoryLaws T} `{!HostLaws S T}
    `{!BlockLaws C S}
    (no_fuel : CallableType -> list SymbolicExpression -> Environment -> LocalContext -> M (S:=S) (T:=T) Value)
    (n : nat) (id : QualifiedContractIdentifier) (contract : list SymbolicExpression) (source : string)
    (g : GlobalContext S (Tracked T)) (s : Bottom S) :
  (65 <= n)%nat -> holds g [] s true ->
  match deploy_contract (eval no_fuel n) id contract source g with
  | Ok (g', _) => exists f s', frame_clean f /\ stored s f s' /\ holds g' [] s' true
  | Err (g', _) => exists ls, holds g' ls s true
  | Panic => True
  end.
Proof.
  intros Hn Hh. apply env_isolated; [done|]. pose proof (holds_begin g [] s true (is_read_only g) Hh) as Hb.
  pose proof (deployment_isolated no_fuel n id contract source (begin g) _ _ _ Hn Hb) as Hd.
  destruct (initialize_contract_from_ast _ _ _ _ _) as [[g1 u]|[g1 e1]|]; [done| |done].
  destruct Hd as (x & xs & Hd & _). by exists x, xs.
Qed.

(** * Instances *)
Definition bank : QualifiedContractIdentifier := mkContractId (mkStandard x20 (repeat x03 20)) "bank".
(** [(define-constant one 1) (define-data-var total int 0) (define-public (bump (n int)) (ok (+ n 1)))] *)
Definition bank_contract : list SymbolicExpression :=
  [ListExpr [Atom "define-constant"; Atom "one"; LiteralValue (VInt 1)];
   ListExpr [Atom "define-data-var"; Atom "total"; Atom "int"; LiteralValue (VInt 0)];
   ListExpr [Atom "define-public"; ListExpr [Atom "bump"; ListExpr [Atom "n"; Atom "int"]]; bump_body]].
(** [(define-data-var total uint 0)] *)
Definition bad_contract : list SymbolicExpression :=
  [ListExpr [Atom "define-data-var"; Atom "total"; Atom "uint"; LiteralValue (VInt 0)]].

Definition calc_evaluator : SymbolicExpression -> Environment -> LocalContext -> M (S:=MemoryBackingStore Tables) (T:=unit) Value :=
  eval (O:=listed_order) (D:=mixing_digests) (J:=bits_json) (N:=NullHeadersDB (D:=mixing_digests))
    (Q:=Z_square_root) (K:=toy_secp256k1) (Host0:=calc_host) (fun _ _ _ _ _ => Panic) 65.

Lemma deployment_atomic_witness :
  match deploy_contract (O:=listed_order) (D:=mixing_digests) (J:=bits_json) (Q:=Z_square_root) (Host0:=calc_host)
    calc_evaluator bank bad_contract "(define-data-var total uint 0)" calc_global with
  | Err (g', e) => e = Unchecked (CheckErr.TypeValueError UIntType (VInt 0)) /\ (size_failed (D:=mixing_digests) (J:=bits_json) (S:=MemoryBackingStore Tables) bank e \/ same_state calc_global g')
  | _ => False
  end.
Proof.
  pose proof (deployment_atomic (O:=listed_order) (D:=mixing_digests) (J:=bits_json) (N:=NullHeadersDB (D:=mixing_digests))
    (Q:=Z_square_root) (K:=toy_secp256k1) (Host0:=calc_host) (fun _ _ _ _ _ => Panic) 65 bank bad_contract
    "(define-data-var total uint 0)" calc_global (mkBottom (store calc_db) []) ltac:(lia) calc_holds) as Ht.
  set (r := deploy_contract _ _ _ _ _) in *.
  assert (match r with Err (_, e) => e = Unchecked (CheckErr.TypeValueError UIntType (VInt 0)) | _ => False end) as Hr
    by (subst r; by vm_compute).
  change (deploy_contract _ _ _ _ _) with r.
  destruct r as [|[g' e]|]; [done| |done]. split; [done|]. destruct Ht as [Ht|Ht]; [by rewrite Hr in Ht|done].
Defined.

Lemma contract_names_unique_witness :
  exists g' cc, initialize_from_ast (O:=listed_order) (D:=mixing_digests) (J:=bits_json) (Q:=Z_square_root)
    calc_evaluator calc bank_contract (begin calc_global) = Ok (g', cc) /\
  well_named (D:=mixing_digests) (Q:=Z_square_root) cc /\
  cc_variables cc !! "one" = Some (VInt 1) /\ bindings cc "total" = 1%nat /\ bindings cc "bump" = 1%nat.
Proof.
  pose proof (contract_names_unique (O:=listed_order) (D:=mixing_digests) (J:=bits_json) (N:=NullHeadersDB (D:=mixing_digests))
    (Q:=Z_square_root) (K:=toy_secp256k1) (Host0:=calc_host) calc_evaluator calc bank_contract (begin calc_global)) as Ht.
  set (r := initialize_from_ast _ _ _ _) in *.
  assert (match r with Ok (_, cc) => cc_variables cc !! "one" = Some (VInt 1) /\ bindings cc "total" = 1%nat /\ bindings cc "bump" = 1%nat | _ => False end)
    as Hr by (subst r; by vm_compute).
  destruct r as [[g' cc]| |]; [|done..]. exists g', cc. split; [done|]. split; [|exact Hr].
  by apply (Ht g' cc).
Defined.

(** [(tuple (a int) (b (list 10 bool)))] *)
Lemma types_parse_print_witness :
  match parse_type_repr (ListExpr [Atom "tuple"; ListExpr [Atom "a"; Atom "int"];
      ListExpr [Atom "b"; ListExpr [Atom "list"; LiteralValue (VInt 10); Atom "bool"]]]) calc_global with
  | Ok (_, t) => t = TupleType (mkTupleType [("a", IntType); ("b", SequenceType (ListType (mkListType 10 BoolType)))])
  | _ => False
  end.
Proof.
  destruct (types_parse_print (S:=MemoryBackingStore Tables) (T:=unit)) as [_ Hp].
  pose proof (Hp (TupleType (mkTupleType [("a", IntType); ("b", SequenceType (ListType (mkListType 10 BoolType)))])) calc_global
    ltac:(by vm_compute) ltac:(by vm_compute)) as Ht.
  cbn [type_repr map] in Ht. rewrite Ht. by vm_compute.
Defined.
