(* ===== verification/Source.v ===== *)
(** Source: contracts and programs given as text ([initialize_contract],
    [eval_read_only] and [eval_raw] of clarity/src/vm/contexts.rs), from
    [build_ast] to the interpreter.

    Whatever text is deployed, the names of the contract are well-formed and
    unique, and the deployment is all or nothing. *)
From Stdlib Require Import ZArith Lia Strings.Byte Strings.String Strings.Ascii List Bool Arith.
From stdpp Require Import base decidable list strings option gmap pretty.
From S2P Require Import Prelude Bytes Codec Representations BTree Types Signatures Admission Values.
From S2P Require Import Serialization AssetMap Hashes Keys Natives C32 Principals BackingStore RollbackWrapper RollbackRefinement.
From S2P Require Import Events GlobalContext ClarityDb ClarityState StxBalance Costs Contexts Callables Assets Machine Specials.
From S2P Require Import TypeRepr DataNatives Interpreter Define Discipline Respect.
From S2P Require Import Ledger LedgerRefinement Termination Isolation Deployment.
From S2P Require Import Regex Lexer Parser Ast DefinitionOrder.
Open Scope Z_scope.
Open Scope machine_scope.

(** * Error messages (ast/errors.rs) *)
(** A member of the text of a cost. *)
Definition json_member (name : string) (n : Z) : string :=
  (String quote name ++ String quote (": " ++ pretty n))%string.
(** [Display] for [ExecutionCost] (costs/mod.rs) *)
Definition ExecutionCost_to_string (c : ExecutionCost) : string :=
  ("{" ++ String.concat ", " [json_member "runtime" (runtime c); json_member "write_len" (write_length c);
     json_member "write_cnt" (write_count c); json_member "read_len" (read_length c); json_member "read_cnt" (read_count c)] ++ "}")%string.

(** [message] of [DiagnosableError] *)
Definition ParseErrors_message (e : ParseErrors) : string :=
  match e with
  | ParseErr.CostOverflow => "Used up cost budget during the parse"
  | ParseErr.CostBalanceExceeded bal used =>
      "Used up cost budget during the parse: " ++ ExecutionCost_to_string bal ++ " balance, " ++ ExecutionCost_to_string used ++ " used"
  | ParseErr.MemoryBalanceExceeded bal used =>
      "Used up memory budget during the parse: " ++ pretty bal ++ " balance, " ++ pretty used ++ " used"
  | ParseErr.TooManyExpressions => "Too many expressions"
  | ParseErr.FailedCapturingInput => "Failed to capture value from input"
  | ParseErr.SeparatorExpected found => "Expected whitespace or a close parens. Found: '" ++ found ++ "'"
  | ParseErr.SeparatorExpectedAfterColon found => "Whitespace expected after colon (:), Found: '" ++ found ++ "'"
  | ParseErr.ProgramTooLarge => "Program too large to parse"
  | ParseErr.IllegalContractName contract_name => "Illegal contract name: '" ++ contract_name ++ "'"
  | ParseErr.IllegalVariableName var_name => "Illegal variable name: '" ++ var_name ++ "'"
  | ParseErr.UnknownQuotedValue value => "Unknown 'quoted value '" ++ value ++ "'"
  | ParseErr.FailedParsingIntValue value => "Failed to parse int literal '" ++ value ++ "'"
  | ParseErr.FailedParsingHexValue value x => "Invalid hex-string literal " ++ value ++ ": " ++ x
  | ParseErr.FailedParsingPrincipal value => "Invalid principal literal: " ++ value
  | ParseErr.FailedParsingBuffer value => "Invalid buffer literal: " ++ value
  | ParseErr.FailedParsingField value => "Invalid field literal: " ++ value
  | ParseErr.FailedParsingRemainder remainder => "Failed to lex input remainder: '" ++ remainder ++ "'"
  | ParseErr.ClosingParenthesisUnexpected => "Tried to close list which isn't open."
  | ParseErr.ClosingParenthesisExpected => "List expressions (..) left opened."
  | ParseErr.ClosingTupleLiteralUnexpected => "Tried to close tuple literal which isn't open."
  | ParseErr.ClosingTupleLiteralExpected => "Tuple literal {..} left opened."
  | ParseErr.ColonSeparatorUnexpected => "Misplaced colon."
  | ParseErr.CommaSeparatorUnexpected => "Misplaced comma."
  | ParseErr.TupleColonExpected i => "Tuple literal construction expects a colon at index " ++ pretty i
  | ParseErr.TupleCommaExpected i => "Tuple literal construction expects a comma at index " ++ pretty i
  | ParseErr.TupleItemExpected i => "Tuple literal construction expects a key or value at index " ++ pretty i
  | ParseErr.CircularReference function_names => "detected interdependent functions (" ++ String.concat ", " function_names ++ ")"
  | ParseErr.NameAlreadyUsed name => "defining '" ++ name ++ "' conflicts with previous value"
  | ParseErr.ImportTraitBadSignature => "(use-trait ...) expects a trait name and a trait identifier"
  | ParseErr.DefineTraitBadSignature => "(define-trait ...) expects a trait name and a trait definition"
  | ParseErr.ImplTraitBadSignature => "(impl-trait ...) expects a trait identifier"
  | ParseErr.TraitReferenceNotAllowed => "trait references can not be stored"
  | ParseErr.TraitReferenceUnknown trait_name => "use of undeclared trait <" ++ trait_name ++ ">"
  | ParseErr.ExpressionStackDepthTooDeep =>
      "AST has too deep of an expression nesting. The maximum stack depth is " ++ pretty MAX_CALL_STACK_DEPTH
  | ParseErr.InvalidCharactersDetected => "invalid characters detected"
  | ParseErr.InvalidEscaping => "invalid escaping detected in string"
  | ParseErr.CostComputationFailed s => "Cost computation failed: " ++ s
  end%string.
(** [From<ParseError> for Error]; of the error, the message is kept. *)
Definition Error_from_parse (e : ParseErrors) : VmError := Runtime (RuntimeErr.ASTError (ParseErrors_message e)).

(** * Text in the environment (contexts.rs) *)
Section source.
Context {O : HashOrder} {D : Digests} {J : SerdeJson} {N : HeadersDB} {Q : IntegerSquareRoot} {K : LibSecp256k1}.
Context {C S T : Type} `{Sqlite C} `{!ClarityBackingStore C S} `{!CostTracker T} `{!Host S T}.
Notation G := (GlobalContext S (Tracked T)).
Notation M := (M (S:=S) (T:=T)).
Context (eval : SymbolicExpression -> Environment -> LocalContext -> M Value).

(** [ast::build_ast(contract_identifier, program, self)?] *)
Definition build_ast_in_env (id : QualifiedContractIdentifier) (program : string) : M ContractAST :=
  fun g =>
    match build_ast id program (cost_track g) with
    | Ok (t, ast) => Ok (set_tracker g t, ast)
    | Err (t, e) => Err (set_tracker g t, Error_from_parse e)
    | Panic => Panic
    end.

(** [Environment::initialize_contract] *)
Definition initialize_contract (id : QualifiedContractIdentifier) (contract_content : string) : M unit :=
  let! contract_ast := build_ast_in_env id contract_content in
  initialize_contract_from_ast eval id (expressions contract_ast) contract_content.
(** [OwnedEnvironment::initialize_contract] *)
Definition deploy_source (id : QualifiedContractIdentifier) (contract_content : string) (self : G)
  : outcome (G * VmError) (G * (unit * AssetMap * list StacksTransactionEvent)) :=
  execute_in_env self (initialize_contract id contract_content).

(** [Environment::eval_read_only] and [eval_raw] *)
Definition eval_read_only_source (id : QualifiedContractIdentifier) (program : string) (env : Environment) : M Value :=
  let! parsed := build_ast_in_env id program in
  eval_read_only eval id (expressions parsed) env.
Definition eval_raw_source (program : string) (env : Environment) : M Value :=
  let! contract_id := lift (map_err Runtime QualifiedContractIdentifier_transient) in
  let! parsed := build_ast_in_env contract_id program in
  eval_raw eval (expressions parsed) env.
(** [OwnedEnvironment::eval_read_only] and [eval_raw] *)
Definition owned_eval_read_only (default_contract : ContractContext) (id : QualifiedContractIdentifier) (program : string) (self : G)
  : outcome (G * VmError) (G * (Value * AssetMap * list StacksTransactionEvent)) :=
  let transient := Standard StandardPrincipalData_transient in
  execute_in_env self (eval_read_only_source id program (mkEnv default_contract (Some transient) (Some transient))).
Definition owned_eval_raw (default_contract : ContractContext) (program : string) (self : G)
  : outcome (G * VmError) (G * (Value * AssetMap * list StacksTransactionEvent)) :=
  let transient := Standard StandardPrincipalData_transient in
  execute_in_env self (eval_raw_source program (mkEnv default_contract (Some transient) (Some transient))).
End source.

(** * Names *)
(** The atoms of an expression are [ClarityName]s. *)
Fixpoint pre_names_valid (e : PreSymbolicExpression) : bool :=
  match Pre.pre_expr e with
  | Pre.Atom name => ClarityName_valid name
  | Pre.List l | Pre.Tuple l => forallb pre_names_valid l
  | _ => true
  end.

(** The parser returns such expressions only. *)
Lemma spells_names :
  (forall toks e, spells toks e -> pre_names_valid e = true) /\
  (forall toks es, spells_all toks es -> forallb pre_names_valid es = true) /\
  (forall b toks es, spells_pairs b toks es -> forallb pre_names_valid es = true).
Proof.
  apply spells_mutind; try done.
  - intros toks e toks' es _ IH1 _ IH2. cbn [forallb]. by rewrite IH1, IH2.
  - intros b toks e _ IH. cbn [forallb]. by rewrite IH.
  - intros b toks e toks' es _ IH1 _ IH2. cbn [forallb]. by rewrite IH1, IH2.
Qed.

Lemma parse_names {D : Digests} input es : parse input = Ok es -> forallb pre_names_valid es = true.
Proof.
  unfold parse. intros H. apply out_bind_Ok in H as (lexed & _ & H). apply parse_lexed_sound in H.
  by apply (proj1 (proj2 spells_names)) in H.
Qed.

(** Numbering keeps the names. *)
Lemma relabel_names : forall e n e' n', relabel_pre e n = Ok (e', n') -> pre_names_valid e = true -> pre_names_valid e' = true.
Proof.
  fix IH 1. intros [t i s] n e' n' H Hv.
  destruct t; cbn [relabel_pre] in H; try (out_inv; by subst).
  apply out_bind_Ok in H as (first & _ & H). apply out_bind_Ok in H as ([l m] & Hl & H). injection H as <- <-.
  cbn [pre_names_valid Pre.pre_expr] in *. revert first l m Hl Hv. revert exprs. fix IHs 1. intros [|e es] first l m Hl Hv.
  - injection Hl as <- <-. done.
  - apply out_bind_Ok in Hl as ([e1 n1] & He & Hl). apply out_bind_Ok in Hl as ([l1 n2] & Hl & Heq). injection Heq as <- <-.
    cbn [forallb] in *. apply andb_true_iff in Hv as [Hv1 Hv2]. rewrite (IH e first e1 n1 He Hv1). by apply (IHs es n1 l1 n2 Hl Hv2).
Qed.
Lemma relabels_names es n es' n' : relabel_pres es n = Ok (es', n') -> forallb pre_names_valid es = true -> forallb pre_names_valid es' = true.
Proof.
  revert n es' n'. induction es as [|e es IH]; intros n es' n' H Hv; cbn [relabel_pres] in H; [by injection H as <- <-|].
  apply out_bind_Ok in H as ([e1 n1] & He & H). apply out_bind_Ok in H as ([l1 n2] & Hl & H). injection H as <- <-.
  cbn [forallb] in *. apply andb_true_iff in Hv as [Hv1 Hv2]. rewrite (relabel_names _ _ _ _ He Hv1). by eapply IH.
Qed.

(** The sorting takes expressions from the program. *)
Lemma drain_names len pre order l : (forall i e, pre !! i = Some e -> pre_names_valid e = true) ->
  drain_sorted len pre order = Ok l -> forallb pre_names_valid l = true.
Proof.
  revert pre order l. induction len as [|len IH]; intros pre order l Hpre H; cbn [drain_sorted] in H; [by injection H as <-|].
  destruct order as [|i order]; [done|]. destruct (pre !! i) as [e|] eqn:He; [|by injection H as <-].
  apply out_bind_Ok in H as (l1 & H & Heq). injection Heq as <-. cbn [forallb]. rewrite (Hpre i e He).
  apply (IH (delete i pre) order l1); [|done]. intros j e' [_ Hj]%lookup_delete_Some. by eapply Hpre.
Qed.
Lemma pre_drain_names pre sorting l : forallb pre_names_valid pre = true -> pre_expressions_drain pre sorting = Ok l -> forallb pre_names_valid l = true.
Proof.
  intros Hpre H. unfold pre_expressions_drain in H.
  assert (forall i e, (map_seq 0 pre : gmap nat _) !! i = Some e -> pre_names_valid e = true) as Hp.
  { intros i e He. rewrite lookup_map_seq_0 in He. rewrite forallb_forall in Hpre. apply Hpre. apply list_elem_of_In. by eapply list_elem_of_lookup_2. }
  destruct sorting as [[|i order]|]; [by injection H as <-|by eapply drain_names|by injection H as <-].
Qed.

(** The expansion keeps the names, and adds that of [tuple]. *)
Lemma pair_up_names n l : (length l <= n)%nat -> forallb names_valid l = true -> forallb names_valid (pair_up l) = true.
Proof.
  revert l. induction n as [|n IH]; intros [|a [|b l]] Hn Hv; cbn [pair_up forallb names_valid length] in *; try done; try lia; [by rewrite Hv|].
  apply andb_true_iff in Hv as [Ha Hv]. apply andb_true_iff in Hv as [Hb Hv]. rewrite Ha, Hb. cbn [andb]. apply IH; [lia|done].
Qed.
Lemma transform_names issuer traits : forall e e', transform_expr issuer traits e = Ok e' -> pre_names_valid e = true -> names_valid e' = true.
Proof.
  fix IH 1. intros [t i s] e' H Hv.
  assert (forall l l', (fix go l := match l with
    | [] => Ok []
    | e :: l => let? e := transform_expr issuer traits e in let? l := go l in Ok (e :: l)
    end) l = Ok l' -> forallb pre_names_valid l = true -> forallb names_valid l' = true) as IHs.
  { fix IHs 1. intros [|e l] l' Hl Hv'; [by injection Hl as <-|]. apply out_bind_Ok in Hl as (e1 & He & Hl).
    apply out_bind_Ok in Hl as (l1 & Hl & Heq). injection Heq as <-. cbn [forallb] in *. apply andb_true_iff in Hv' as [Hv1 Hv2].
    rewrite (IH e e1 He Hv1). by apply (IHs l l1 Hl Hv2). }
  destruct t; cbn [transform_expr pre_names_valid Pre.pre_expr] in *.
  - by injection H as <-.
  - by injection H as <-.
  - apply out_bind_Ok in H as (l & Hl & H). injection H as <-. cbn [names_valid]. by eapply IHs.
  - apply out_bind_Ok in H as (l & Hl & H). injection H as <-. cbn [names_valid forallb].
    change (ClarityName_valid "tuple") with true. apply (pair_up_names (length l)); [done|]. by eapply IHs.
  - by injection H as <-.
  - by injection H as <-.
  - by injection H as <-.
  - case_match; by out_inv.
Qed.
Lemma transforms_names issuer traits l l' : transform issuer traits l = Ok l' -> forallb pre_names_valid l = true -> forallb names_valid l' = true.
Proof.
  revert l'. induction l as [|e l IH]; intros l' H Hv; cbn in H; [by injection H as <-|].
  apply out_bind_Ok in H as (e1 & He & H). apply out_bind_Ok in H as (l1 & Hl & Heq). injection Heq as <-.
  cbn [forallb] in *. apply andb_true_iff in Hv as [Hv1 Hv2]. rewrite (transform_names _ _ _ _ He Hv1). by apply IH.
Qed.

Lemma sorter_keeps {O : HashOrder} {T : Type} `{CostTracker T} ast (t t' : T) ast' :
  sorter_run ast t = Ok (t', ast') -> pre_expressions ast' = pre_expressions ast.
Proof.
  unfold sorter_run. intros Hs. do 4 (apply out_bind_Ok in Hs as (? & _ & Hs)). case_match; [by apply out_bind_Ok in Hs as (? & _ & Hs)|by injection Hs as <- <-].
Qed.
Lemma resolver_keeps {O : HashOrder} ast ast' : resolver_run ast = Ok ast' -> pre_expressions ast' = pre_expressions ast.
Proof. unfold resolver_run. intros H. do 2 (apply out_bind_Ok in H as (? & _ & H)). by injection H as <-. Qed.

(** The names of a contract that was built are valid. *)
Lemma build_ast_names {O : HashOrder} {D : Digests} {T : Type} `{CostTracker T} id source (t t' : T) ast :
  build_ast id source t = Ok (t', ast) -> forallb names_valid (expressions ast) = true.
Proof.
  unfold build_ast. intros Hb. apply out_bind_Ok in Hb as (t1 & _ & Hb).
  apply out_bind_Ok in Hb as (pre & Hp & Hb). apply map_err_Ok, parse_names in Hp.
  apply out_bind_Ok in Hb as (? & _ & Hb). apply out_bind_Ok in Hb as (pre' & Hu & Hb). apply map_err_Ok in Hu.
  unfold update_pre_expression_id in Hu. apply out_bind_Ok in Hu as (first & _ & Hu). apply out_bind_Ok in Hu as ([es n] & Hr & Hu).
  injection Hu as ->. pose proof (relabels_names _ _ _ _ Hr Hp) as Hv.
  apply out_bind_Ok in Hb as ([t2 a1] & Hs & Hb). apply sorter_keeps in Hs. cbn [pre_expressions ContractAST_new] in Hs.
  apply out_bind_Ok in Hb as (a2 & Hres & Hb). apply map_err_Ok, resolver_keeps in Hres.
  apply out_bind_Ok in Hb as (a3 & He & Hb). apply map_err_Ok in He. apply out_bind_Ok in Hb as (? & _ & Hb). injection Hb as <- <-.
  unfold expander_run in He. apply out_bind_Ok in He as (drained & Hd & He). apply out_bind_Ok in He as (exprs & Ht & He). injection He as <-.
  cbn [expressions]. eapply transforms_names; [exact Ht|]. eapply pre_drain_names; [|exact Hd]. by rewrite Hres, Hs.
Qed.

(** C32: the names of a deployed contract are unique, whatever its text.  If the
    text of a contract can be parsed and the contract initialized, then each name
    is bound in at most one of its tables of constants, functions, traits,
    variables, maps and tokens, no bound name is reserved, the names of persisted
    data are exactly those with metadata, every function carries its own name and
    identifier, and all declared types are well-formed. *)
Theorem source_names_unique {O : HashOrder} {D : Digests} {J : SerdeJson} {N : HeadersDB} {Q : IntegerSquareRoot} {K : LibSecp256k1}
    {C S T : Type} `{Sqlite C} `{!ClarityBackingStore C S} `{!CostTracker T} `{!Host S T}
    (eval : SymbolicExpression -> Environment -> LocalContext -> M (S:=S) (T:=T) Value)
    (id : QualifiedContractIdentifier) (text : string) (g g1 g2 g' : GlobalContext S (Tracked T)) (ast : ContractAST) (cc : ContractContext) :
  build_ast_in_env id text g = Ok (g1, ast) -> initialize_from_ast eval id (expressions ast) g2 = Ok (g', cc) ->
  well_named cc /\ contract_identifier cc = id.
Proof.
  unfold build_ast_in_env. intros Hb Hi. destruct (build_ast id text (cost_track g)) as [[t a]|[t e]|] eqn:Ha; [|done..].
  injection Hb as <- <-. apply build_ast_names in Ha. by eapply contract_names_unique.
Qed.

(** C15: a deployment is atomic.  The deployment of any text, on a context with
    nothing pending, over whatever frames of the database are open below it, either
    succeeds and hands down one batch of writes without a nonce, to the frame below
    or else to the store, or fails and leaves the context as it was.  The exceptions
    are the two errors after which the code leaves a context open: a public function
    that returns no response, and a data size that cannot be stored. *)
Theorem source_deployment_atomic {O : HashOrder} {D : Digests} {J : SerdeJson} {N : HeadersDB} {Q : IntegerSquareRoot} {K : LibSecp256k1}
    {C S T : Type} `{Sqlite C} `{!ClarityBackingStore C S} `{!CostTracker T} `{!Host S T} `{!MemoryLaws T} `{!HostLaws S T}
    `{!BlockLaws C S}
    (no_fuel : CallableType -> list SymbolicExpression -> Environment -> LocalContext -> M (S:=S) (T:=T) Value)
    (n : nat) (id : QualifiedContractIdentifier) (text : string) (g : GlobalContext S (Tracked T)) (s : Bottom S) :
  (65 <= n)%nat -> holds g [] s true ->
  match deploy_source (eval no_fuel n) id text g with
  | Ok (g', _) => exists f s', frame_clean f /\ stored s f s' /\ holds g' [] s' true
  | Err (g', e) => must_return_response e = true \/ size_failed (S:=S) id e \/ same_state g g'
  | Panic => True
  end.
Proof.
  intros Hn Hh. pose proof (transaction_isolated g s (initialize_contract (eval no_fuel n) id text)
    (fun e => must_return_response e = true \/ size_failed (S:=S) id e) Hh) as Ht.
  unfold deploy_source. destruct (execute_in_env g _) as [[g' x]|[g' e]|]; [apply Ht|apply or_assoc, Ht|done]; intros l Hl; clear Ht;
    unfold initialize_contract, build_ast_in_env, m_bind;
    (destruct (build_ast id text _) as [[t ast]|[t e1]|]; cbn [out_bind]; [|right; by apply holds_tracker|done]);
    pose proof (deployment_left no_fuel n id (expressions ast) text _ _ _ _ Hn (holds_tracker _ _ _ _ t Hl)) as Hd;
    destruct (initialize_contract_from_ast _ _ _ _ _) as [[g1 u]|[g1 e1]|]; tauto.
Qed.

(** * Evaluation of a program *)
Section evaluating.
Context {O : HashOrder} {D : Digests} {J : SerdeJson} {N : HeadersDB} {Q : IntegerSquareRoot} {K : LibSecp256k1}.
Context {C S T : Type} `{Sqlite C} `{!ClarityBackingStore C S} `{!CostTracker T} `{!Host S T}.
Context `{!MemoryLaws T} `{!HostLaws S T} `{!BlockLaws C S}.
Notation G := (GlobalContext S (Tracked T)).
Notation M := (M (S:=S) (T:=T)).
Notation applier := (CallableType -> list SymbolicExpression -> Environment -> LocalContext -> M Value).
Implicit Types (g : G) (ls : list Layer) (s : Bottom S) (p : bool).

(** Parsing charges the tracker and leaves the call stack. *)
Definition same_stack {A : Type} (t : Tracked T) (r : outcome (Tracked T * ParseErrors) (Tracked T * A)) : Prop :=
  match r with Ok (t', _) | Err (t', _) => stack_of t' = stack_of t | Panic => True end.
Lemma same_stack_bind {A B : Type} t (m : outcome ParseErrors A) (k : A -> outcome (Tracked T * ParseErrors) (Tracked T * B)) :
  (forall a, same_stack t (k a)) -> same_stack t (let? a := map_err (pair t) m in k a).
Proof using. intros Hk. destruct m; cbn; [apply Hk|done|done]. Qed.
Lemma same_stack_cost {A : Type} f t n (k : Tracked T -> outcome (Tracked T * ParseErrors) (Tracked T * A)) :
  (forall t', stack_of t' = stack_of t -> same_stack t' (k t')) ->
  same_stack t (let? t' := map_err (fun '(t, e) => (t, ParseErrors_from_cost e)) (runtime_cost f t n) in k t').
Proof using.
  intros Hk. pose proof (tracked_runtime_cost f t n) as Ht. destruct (runtime_cost f t n) as [t'|[t' e]|]; cbn; [|done|done].
  specialize (Hk t' Ht). unfold same_stack in *. rewrite Ht in Hk. done.
Qed.
Lemma sorter_stack ast t : same_stack t (sorter_run ast t).
Proof using.
  unfold sorter_run. apply same_stack_bind. intros edges. apply same_stack_cost. intros t1 _.
  apply same_stack_bind. intros sorted. apply same_stack_bind. intros [deps|]; [|done]. by apply same_stack_bind.
Qed.
Lemma build_ast_stack id program t : same_stack t (build_ast id program t).
Proof using.
  unfold build_ast. apply same_stack_cost. intros t1 _. apply same_stack_bind. intros pre. apply same_stack_bind. intros _.
  apply same_stack_bind. intros pre'. pose proof (sorter_stack (ContractAST_new id pre') t1) as Hs.
  destruct (sorter_run _ t1) as [[t2 ast]|[t2 e]|]; cbn in *; [|done|done].
  assert (forall A (r : outcome (Tracked T * ParseErrors) (Tracked T * A)), same_stack t2 r -> same_stack t1 r) as Hr
    by (unfold same_stack; by rewrite Hs).
  apply Hr. do 3 (apply same_stack_bind; intros ?). done.
Qed.

(** The evaluation of an expression in a transaction of its own. *)
Lemma eval_in_transaction (no_fuel : applier) (n : nat) e env context g ls s :
  (65 <= n)%nat -> 0 <= CallStack_depth (call_stack g) -> holds g ls s true ->
  match eval no_fuel n e env context (begin g) with
  | Ok (g', _) => exists l', holds g' (l' :: ls) s true
  | Err (g', e) => must_return_response e = true \/ exists l', holds g' (l' :: ls) s true
  | Panic => True
  end.
Proof using All.
  intros Hn Hd Hh.
  assert (eval no_fuel n e env context (begin g) = eval panic_without_fuel n e env context (begin g)) as ->.
  { apply (eval_agrees no_fuel panic_without_fuel n n (call_stack g) e env context (enough_65 _ _ Hn Hd) (enough_65 _ _ Hn Hd)).
    exact (begin_stack g _). }
  pose proof (eval_isolated n (opened (call_stack g) (is_read_only g) ls s true) e env context (begin g) (opened_within _ _ _ _ _ Hh)) as [_ Hr].
  destruct (eval _ _ _ _ _ _) as [[g1 v]|[g1 x]|]; [| |done].
  - destruct Hr as [_ (l' & p' & Hh' & _ & Hp')]. assert (p' = true) as -> by (destruct Hp'; tauto). by exists l'.
  - destruct Hr as [_ (ex & l' & p' & Hh' & _ & Hp' & Hex)]. destruct Hex as [-> |He]; [|by left].
    assert (p' = true) as -> by (destruct Hp'; tauto). right. by exists l'.
Qed.

(** The contract is not there. *)
Definition contract_missing id g (e : VmError) : Prop := get_contract json_contract (database (begin g)) id = Err e.

Lemma read_only_isolated (no_fuel : applier) (n : nat) id parsed env g l ls s :
  (65 <= n)%nat -> 0 <= CallStack_depth (call_stack g) -> holds g (l :: ls) s true ->
  match eval_read_only (eval no_fuel n) id parsed env g with
  | Ok (g', _) => holds g' (l :: ls) s true
  | Err (g', e) => must_return_response e = true \/ holds g' (l :: ls) s true \/
      (contract_missing id g e /\ exists l', holds g' (l' :: l :: ls) s true)
  | Panic => True
  end.
Proof using All.
  intros Hn Hd Hh. unfold eval_read_only. destruct parsed as [|exp parsed]; [by right; left|].
  unfold m_bind, update, query, lift. cbn [out_bind].
  destruct (get_contract json_contract (database (begin g)) id) as [contract|e|] eqn:Hc; cbn [out_bind]; [|right; right|done].
  2: { split; [done|]. eexists. by apply holds_begin. }
  pose proof (eval_in_transaction no_fuel n exp (mkEnv contract (env_sender env) (env_caller env)) LocalContext_new g _ s Hn Hd Hh) as He.
  unfold attempt. destruct (eval no_fuel n exp _ _ _) as [[g1 v]|[g1 x]|]; cbn [out_bind]; [| |done].
  - destruct He as [l' He]. destruct (holds_roll_back _ _ _ _ _ He) as (g2 & -> & Hh2). done.
  - destruct He as [Hx|[l' He]].
    + destruct (roll_back_cases g1) as [-> |[g2 ->]]; cbn; tauto.
    + destruct (holds_roll_back _ _ _ _ _ He) as (g2 & -> & Hh2). cbn. tauto.
Qed.
End evaluating.


(** * Instances *)
Definition bank_text : string := "(define-data-var total int one) (define-constant one 1)".
Lemma source_names_unique_witness :
  match build_ast_in_env (O:=listed_order) (D:=mixing_digests) calc bank_text calc_global with
  | Ok (g1, ast) =>
      match initialize_from_ast (O:=listed_order) (D:=mixing_digests) (J:=bits_json) (Q:=Z_square_root)
        calc_evaluator calc (expressions ast) (begin calc_global) with
      | Ok (_, cc) => well_named (D:=mixing_digests) (Q:=Z_square_root) cc
      | _ => False
      end
  | _ => False
  end.
Proof.
  pose proof (source_names_unique (O:=listed_order) (D:=mixing_digests) (J:=bits_json) (N:=NullHeadersDB (D:=mixing_digests))
    (Q:=Z_square_root) (K:=toy_secp256k1) (Host0:=calc_host) calc_evaluator calc bank_text calc_global) as Ht.
  assert (match build_ast_in_env (O:=listed_order) (D:=mixing_digests) calc bank_text calc_global with
    | Ok (_, ast) => match initialize_from_ast (O:=listed_order) (D:=mixing_digests) (J:=bits_json) (Q:=Z_square_root)
        calc_evaluator calc (expressions ast) (begin calc_global) with Ok _ => True | _ => False end
    | _ => False end) as Hr by (vm_compute; exact Logic.I).
  destruct (build_ast_in_env calc bank_text calc_global) as [[g1 ast]| |]; [|done..].
  specialize (fun g' cc => Ht g1 (begin calc_global) g' ast cc eq_refl).
  destruct (initialize_from_ast _ _ _ _) as [[g' cc]| |]; [|done..]. by apply (Ht g' cc).
Defined.

Lemma source_deployment_atomic_witness :
  match deploy_source (O:=listed_order) (D:=mixing_digests) (J:=bits_json) (Q:=Z_square_root) (Host0:=calc_host)
    calc_evaluator bank "(define-data-var total uint 0)" calc_global with
  | Err (g', e) => e = Unchecked (CheckErr.TypeValueError UIntType (VInt 0)) /\ (size_failed (D:=mixing_digests) (J:=bits_json) (S:=MemoryBackingStore Tables) bank e \/ same_state calc_global g')
  | _ => False
  end.
Proof.
  pose proof (source_deployment_atomic (O:=listed_order) (D:=mixing_digests) (J:=bits_json) (N:=NullHeadersDB (D:=mixing_digests))
    (Q:=Z_square_root) (K:=toy_secp256k1) (Host0:=calc_host) (fun _ _ _ _ _ => Panic) 65 bank
    "(define-data-var total uint 0)" calc_global (mkBottom (store calc_db) []) ltac:(lia) calc_holds) as Ht.
  set (r := deploy_source _ _ _ _) in *.
  assert (match r with Err (_, e) => e = Unchecked (CheckErr.TypeValueError UIntType (VInt 0)) | _ => False end) as Hr
    by (subst r; by vm_compute).
  change (deploy_source _ _ _ _) with r.
  destruct r as [|[g' e]|]; [done| |done]. split; [done|]. destruct Ht as [Ht|Ht]; [by rewrite Hr in Ht|done].
Defined.

