(* ===== verification/Connection.v ===== *)
(** Connection: how a node drives the virtual machine within a block
    (src/clarity_vm/clarity.rs and clarity/src/vm/clarity.rs).

    A block connection holds the store of the block and its cost tracker.  A
    transaction connection adds a log of pending writes, kept apart from the store
    between calls: each call rebuilds a database from store and log, works in a
    context of its own, and takes the log back.  Committing the connection hands the
    log to the store, dropping it forgets the log.

    The passes of the static analysis are an interface, [Analyzer]: they read the
    database and charge the tracker. *)
From Stdlib Require Import ZArith Lia Strings.Byte Strings.String List Bool.
From stdpp Require Import base decidable list strings option gmap.
From S2P Require Import Prelude Bytes Codec Representations BTree Types Signatures Admission Values.
From S2P Require Import Serialization AssetMap Hashes Keys Natives C32 Principals BackingStore RollbackWrapper RollbackRefinement.
From S2P Require Import Events GlobalContext ClarityDb ClarityState StxBalance Costs Contexts Callables Assets Machine Specials.
From S2P Require Import TypeRepr DataNatives Interpreter Define Lexer Ast PostConditions Transaction Authorization.
Open Scope Z_scope.

(** * Errors *)
Definition ClarityError_from_check (e : CheckErrors) : ClarityError :=
  match e with
  | CheckErr.CostOverflow => CostError ExecutionCost_max_value ExecutionCost_max_value
  | CheckErr.CostBalanceExceeded a b => CostError a b
  | CheckErr.MemoryBalanceExceeded _ _ => CostError ExecutionCost_max_value ExecutionCost_max_value
  | _ => Analysis e
  end.
Definition ClarityError_from_interpreter (e : VmError) : ClarityError :=
  match e with
  | Unchecked (CheckErr.CostBalanceExceeded a b) => CostError a b
  | Unchecked CheckErr.CostOverflow => CostError ExecutionCost_max_value ExecutionCost_max_value
  | _ => Interpreter e
  end.
Definition ClarityError_from_parse (e : ParseErrors) : ClarityError :=
  match e with
  | ParseErr.CostOverflow => CostError ExecutionCost_max_value ExecutionCost_max_value
  | ParseErr.CostBalanceExceeded a b => CostError a b
  | ParseErr.MemoryBalanceExceeded _ _ => CostError ExecutionCost_max_value ExecutionCost_max_value
  | _ => Parse e
  end.

(** * Interfaces *)
(** [LimitedCostTracker::get_total] and [LimitedCostTracker::new_free] *)
Class TotalCost (T : Type) := { tracker_total : T -> ExecutionCost; tracker_free : T }.
#[export] Instance limited_total {K : Type} : TotalCost (LimitedCostTracker K) := {| tracker_total := get_total; tracker_free := new_free |}.
#[export] Instance unit_total : TotalCost unit := {| tracker_total _ := ExecutionCost_zero; tracker_free := tt |}.

(** The passes of [run_analysis] on the expressions of a contract. *)
Class Analyzer (S T : Type) := {
  ContractAnalysis : Type;
  json_analysis : json_codec ContractAnalysis;
  run_passes : QualifiedContractIdentifier -> list SymbolicExpression -> RollbackWrapper S -> T ->
    outcome (T * CheckErrors) (T * ContractAnalysis)
}.

(** * Connections *)
Record ClarityBlockConnection (S T : Type) := mkBlockConnection {
  datastore : S;
  block_cost_track : option T;
  block_mainnet : bool;
  block_epoch : StacksEpochId
}.
Arguments mkBlockConnection {S T} _ _ _ _.
Arguments datastore {S T} _.
Arguments block_cost_track {S T} _.
Arguments block_mainnet {S T} _.
Arguments block_epoch {S T} _.

Record ClarityTransactionConnection (S T : Type) := mkConnection {
  log : option RollbackWrapperPersistedLog;
  conn_store : S;
  conn_cost_track : option T;
  conn_mainnet : bool;
  conn_epoch : StacksEpochId
}.
Arguments mkConnection {S T} _ _ _ _ _.
Arguments log {S T} _.
Arguments conn_store {S T} _.
Arguments conn_cost_track {S T} _.
Arguments conn_mainnet {S T} _.
Arguments conn_epoch {S T} _.

(** [using!]: the object is taken and put back. *)
Definition using_object {E A R : Type} (to_use : option A) (exec : A -> outcome E (A * R)) : outcome E (option A * R) :=
  let? object := expect_some to_use in
  let? '(object, result) := exec object in
  Ok (Some object, result).

Section connection.
Context {O : HashOrder} {D : Digests} {J : SerdeJson} {N : HeadersDB} {Q : IntegerSquareRoot} {K : LibSecp256k1}.
Context {C S T : Type} `{Sqlite C} `{!ClarityBackingStore C S} `{!CostTracker T} `{!Host S T}.
Context `{!TotalCost T} `{!Analyzer S T}.
Notation G := (GlobalContext S (Tracked T)).
Notation M := (M (S:=S) (T:=T)).
Notation W := (RollbackWrapper S).
Notation Block := (ClarityBlockConnection S T).
Notation Conn := (ClarityTransactionConnection S T).

(** ** Blocks *)
Definition block_cost_so_far (self : Block) : ExecutionCost :=
  match block_cost_track self with Some track => tracker_total track | None => ExecutionCost_zero end.

Definition set_cost_tracker {E : Type} (self : Block) (tracker : T) : outcome E (Block * T) :=
  let? old := expect_some (block_cost_track self) in
  Ok (mkBlockConnection (datastore self) (Some tracker) (block_mainnet self) (block_epoch self), old).

(** [ClarityConnection for ClarityBlockConnection]: read something. *)
Definition block_with_clarity_db_readonly {E R : Type} (self : Block) (to_do : W -> outcome VmError R) : outcome E R :=
  let db := nest (RollbackWrapper_new (datastore self)) in
  let? result := expect (to_do db) in
  let? _ := expect (rollback db) in
  Ok result.

Definition start_transaction_processing (self : Block) : Conn :=
  mkConnection (Some (PersistedLog_nest PersistedLog_new)) (datastore self) (block_cost_track self) (block_mainnet self)
    (block_epoch self).

(** The block when its transaction connection is gone: it lent its store and tracker. *)
Definition return_to_block (self : Block) (c : Conn) : Block :=
  mkBlockConnection (conn_store c) (conn_cost_track c) (block_mainnet self) (block_epoch self).

(** ** Transactions *)
Definition with_log (self : Conn) (l : option RollbackWrapperPersistedLog) (s : S) : Conn :=
  mkConnection l s (conn_cost_track self) (conn_mainnet self) (conn_epoch self).
Definition with_tracker (self : Conn) (t : option T) : Conn :=
  mkConnection (log self) (conn_store self) t (conn_mainnet self) (conn_epoch self).

(** [with_clarity_db_readonly]: what is read cannot fail, except by a panic. *)
Definition with_clarity_db_readonly {E R : Type} (self : Conn) (to_do : W -> outcome VmError R) : outcome E (Conn * R) :=
  let? '(l, (s, r)) := using_object (log self) (fun log =>
    let db := nest (from_persisted_log (conn_store self) log) in
    let? r := expect (to_do db) in
    let? db := expect (rollback db) in
    Ok (persisted_log db, (store db, r))) in
  Ok (with_log self l s, r).

(** [with_clarity_db]; an error of [to_do] comes with the database. *)
Definition with_clarity_db {R : Type} (self : Conn) (to_do : W -> outcome (W * ClarityError) (W * R))
  : outcome (Conn * ClarityError) (Conn * R) :=
  let? '(l, (s, result)) := using_object (log self) (fun log =>
    let db := nest (from_persisted_log (conn_store self) log) in
    match to_do db with
    | Ok (db, r) => let? db := expect (commit db) in Ok (persisted_log db, (store db, inr r))
    | Err (db, e) => let? db := expect (rollback db) in Ok (persisted_log db, (store db, inl e))
    | Panic => Panic
    end) in
  match result with
  | inr r => Ok (with_log self l s, r)
  | inl e => Err (with_log self l s, e)
  end.

(** [OwnedEnvironment::new_cost_limited] and [destruct] *)
Definition new_cost_limited (mainnet : bool) (database : W) (cost_tracker : T) (epoch : StacksEpochId) : G :=
  GlobalContext_new mainnet database (mkTracked cost_tracker CallStack_new) (StacksEpochId_to_u32 epoch).
Definition context_destruct (self : G) : option (W * T) :=
  if is_top_level self then Some (database self, tracked (cost_track self)) else None.

Definition with_abort_callback {R : Type} (self : Conn)
    (to_do : G -> outcome (G * ClarityError) (G * (R * AssetMap * list StacksTransactionEvent)))
    (abort_call_back : AssetMap -> outcome Empty_set bool)
  : outcome (Conn * ClarityError) (Conn * (R * AssetMap * list StacksTransactionEvent * bool)) :=
  let? '(l, (t, (s, result))) := using_object (log self) (fun log =>
    let? '(t, (log, r)) := using_object (conn_cost_track self) (fun cost_track =>
      let db := nest (from_persisted_log (conn_store self) log) in
      let vm_env := new_cost_limited (conn_mainnet self) db cost_track (conn_epoch self) in
      match to_do vm_env with
      | Ok (vm_env, (value, asset_map, events)) =>
          let? '(db, cost_track) := expect_some (context_destruct vm_env) in
          let? aborted := expect (abort_call_back asset_map) in
          let? db := expect (if (aborted : bool) then rollback db else commit db) in
          Ok (cost_track, (persisted_log db, (store db, inr (value, asset_map, events, aborted))))
      | Err (vm_env, e) =>
          let? '(db, cost_track) := expect_some (context_destruct vm_env) in
          let? db := expect (rollback db) in
          Ok (cost_track, (persisted_log db, (store db, inl e)))
      | Panic => Panic
      end) in
    Ok (log, (t, r))) in
  let self := with_tracker (with_log self l s) t in
  match result with
  | inr r => Ok (self, r)
  | inl e => Err (self, e)
  end.

(** [with_analysis_db] *)
Definition with_analysis_db {E R : Type} (self : Conn) (to_do : W -> T -> outcome (W * T * E) (W * T * R))
  : outcome (Conn * E) (Conn * R) :=
  let? '(t, (l, (s, result))) := using_object (conn_cost_track self) (fun cost_track =>
    let? '(l, (t, r)) := using_object (log self) (fun log =>
      match to_do (from_persisted_log (conn_store self) log) cost_track with
      | Ok (db, t, r) => Ok (persisted_log db, (t, (store db, inr r)))
      | Err (db, t, e) => Ok (persisted_log db, (t, (store db, inl e)))
      | Panic => Panic
      end) in
    Ok (t, (l, r))) in
  let self := with_tracker (with_log self l s) t in
  match result with
  | inr r => Ok (self, r)
  | inl e => Err (self, e)
  end.

Definition cost_so_far (self : Conn) : ExecutionCost :=
  match conn_cost_track self with Some track => tracker_total track | None => ExecutionCost_zero end.

(** [commit], which consumes the connection. *)
Definition connection_commit {E : Type} (self : Conn) : outcome E Conn :=
  let? l := expect_some (log self) in
  let rollback_wrapper := from_persisted_log (conn_store self) l in
  if negb (Nat.eqb (depth rollback_wrapper) 1) then Panic else
  let? db := expect (commit rollback_wrapper) in
  let? t := expect_some (conn_cost_track self) in
  Ok (with_tracker (with_log self None (store db)) (Some (reset_memory t))).

(** [Drop::drop], while no panic unwinds. *)
Definition connection_drop {E : Type} (self : Conn) : outcome E Conn :=
  let? t := expect_some (conn_cost_track self) in
  Ok (with_tracker self (Some (reset_memory t))).

(** [as_transaction]; committed connections are dropped as well. *)
Definition as_transaction {E R : Type} (self : Block) (todo : Conn -> outcome E (Conn * R)) : outcome E (Block * R) :=
  let tx := start_transaction_processing self in
  let? '(tx, r) := todo tx in
  let? tx := connection_commit tx in
  let? tx := connection_drop tx in
  Ok (return_to_block self tx, r).

(** ** The operations of [TransactionConnection] *)
Context (no_fuel : CallableType -> list SymbolicExpression -> Environment -> LocalContext -> M Value) (fuel : nat).

(** [ContractContext::new(QualifiedContractIdentifier::transient())] *)
Definition default_contract {E : Type} : outcome E ContractContext :=
  let? id := expect QualifiedContractIdentifier_transient in
  Ok (ContractContext_new id).

(** [.map_err(Error::from)] *)
Definition from_interpreter {A : Type} (m : outcome (G * VmError) A) : outcome (G * ClarityError) A :=
  map_err (fun '(g, e) => (g, ClarityError_from_interpreter e)) m.

(** The analysis database works in a context of its own; nothing is saved. *)
Definition run_analysis (id : QualifiedContractIdentifier) (exprs : list SymbolicExpression) (db : W) (cost_tracker : T)
  : outcome (W * T * CheckErrors) (W * T * ContractAnalysis) :=
  let db := nest db in
  match run_passes id exprs db cost_tracker with
  | Ok (t, analysis) => let? db := expect (commit db) in Ok (db, t, analysis)
  | Err (t, e) => let? db := expect (rollback db) in Err (db, t, e)
  | Panic => Panic
  end.

Definition analyze_smart_contract (self : Conn) (id : QualifiedContractIdentifier) (contract_content : string)
  : outcome (Conn * ClarityError) (Conn * (ContractAST * ContractAnalysis)) :=
  with_analysis_db self (fun db cost_track =>
    match build_ast id contract_content cost_track with
    | Err (cost_track, e) => Err (db, cost_track, ClarityError_from_parse e)
    | Panic => Panic
    | Ok (cost_track, contract_ast) =>
        match run_analysis id (expressions contract_ast) db cost_track with
        | Ok (db, cost_track, analysis) => Ok (db, cost_track, (contract_ast, analysis))
        | Err (db, cost_track, e) => Err (db, cost_track, ClarityError_from_check e)
        | Panic => Panic
        end
    end).

(** [AnalysisDatabase::insert_contract] *)
Definition insert_analysis (db : W) (id : QualifiedContractIdentifier) (analysis : ContractAnalysis)
  : outcome CheckErrors W :=
  let? exists_already := expect (has_metadata_entry db id analysis_storage_key) in
  if (exists_already : bool) then Err (CheckErr.ContractAlreadyExists (QualifiedContractIdentifier_to_string id))
  else expect (insert_metadata db id analysis_storage_key (json_to_string json_analysis analysis)).

Definition save_analysis (self : Conn) (id : QualifiedContractIdentifier) (analysis : ContractAnalysis)
  : outcome (Conn * CheckErrors) (Conn * unit) :=
  with_analysis_db self (fun db cost_tracker =>
    let db := nest db in
    match insert_analysis db id analysis with
    | Ok db => let? db := expect (commit db) in Ok (db, cost_tracker, tt)
    | Err e => let? db := expect (rollback db) in Err (db, cost_tracker, e)
    | Panic => Panic
    end).

Definition run_stx_transfer (self : Conn) (from to : PrincipalData) (amount : Z)
  : outcome (Conn * ClarityError) (Conn * (Value * AssetMap * list StacksTransactionEvent)) :=
  let? c := default_contract in
  let? '(self, (r, _)) := with_abort_callback self
    (fun vm_env => from_interpreter (transfer_transaction c from to amount vm_env)) (fun _ => Ok false) in
  Ok (self, r).

Definition run_contract_call (self : Conn) (sender : PrincipalData) (contract : QualifiedContractIdentifier)
    (public_function : string) (args : list Value) (abort_call_back : AssetMap -> outcome Empty_set bool)
  : outcome (Conn * ClarityError) (Conn * (Value * AssetMap * list StacksTransactionEvent)) :=
  let? c := default_contract in
  let expr_args := map AtomValue args in
  let? '(self, (value, assets, events, aborted)) := with_abort_callback self
    (fun vm_env => from_interpreter (execute_transaction no_fuel fuel c sender contract public_function expr_args vm_env))
    abort_call_back in
  if (aborted : bool) then Err (self, AbortedByCallback (Some value) assets events)
  else Ok (self, (value, assets, events)).

Definition initialize_smart_contract (self : Conn) (id : QualifiedContractIdentifier) (contract_ast : ContractAST)
    (contract_str : string) (abort_call_back : AssetMap -> outcome Empty_set bool)
  : outcome (Conn * ClarityError) (Conn * (AssetMap * list StacksTransactionEvent)) :=
  let? '(self, (_, asset_map, events, aborted)) := with_abort_callback self
    (fun vm_env => from_interpreter
       (deploy_contract (eval no_fuel fuel) id (expressions contract_ast) contract_str vm_env))
    abort_call_back in
  if (aborted : bool) then Err (self, AbortedByCallback None asset_map events)
  else Ok (self, (asset_map, events)).
End connection.
