(* ===== verification/ConnectionRefinement.v ===== *)
(** ConnectionRefinement: a transaction connection as a store and one frame of
    pending writes.

    [conn_at c s f]: the connection [c] stands on the store [s] with the writes [f]
    pending.  Each operation of Connection.v leaves the store alone and adds to the
    frame; what contracts do, by a call, a deployment or a transfer, adds no nonce
    ([grows]), and what fails adds nothing. *)
From Stdlib Require Import ZArith Lia Strings.Byte Strings.String List Bool.
From stdpp Require Import base decidable list strings option gmap relations.
From S2P Require Import Prelude Bytes Codec Representations BTree Types Signatures Admission Values.
From S2P Require Import Serialization AssetMap Hashes Keys Natives C32 Principals BackingStore RollbackWrapper RollbackRefinement.
From S2P Require Import Events GlobalContext ClarityDb ClarityState StxBalance Costs Contexts Callables Assets Machine Specials.
From S2P Require Import TypeRepr DataNatives Interpreter Define Lexer Ast PostConditions Transaction Authorization.
From S2P Require Import StateLayout Discipline Respect Termination Isolation Deployment Connection.
Open Scope Z_scope.

(** * Frames *)
Definition frame_app (f g : Frame) : Frame := mkFrame (writes f ++ writes g) (metadata_writes f ++ metadata_writes g).
Lemma frame_app_nil f : frame_app f (mkFrame [] []) = f.
Proof. destruct f. unfold frame_app. cbn. by rewrite !app_nil_r. Qed.
Lemma frame_app_nil_l f : frame_app (mkFrame [] []) f = f.
Proof. by destruct f. Qed.
Lemma frame_app_assoc f g h : frame_app f (frame_app g h) = frame_app (frame_app f g) h.
Proof. unfold frame_app. cbn. by rewrite !app_assoc. Qed.

(** More writes, no nonce among them. *)
Definition grows (f f' : Frame) : Prop := exists g, frame_clean g /\ f' = frame_app f g.
#[export] Instance grows_preorder : PreOrder grows.
Proof.
  split.
  - intros f. exists (mkFrame [] []). split; [constructor|by rewrite frame_app_nil].
  - intros f1 f2 f3 (g & Hg & ->) (h & Hh & ->). exists (frame_app g h). split; [by apply Forall_app|by rewrite frame_app_assoc].
Qed.

Section frames.
Context {O : HashOrder} {D : Digests} {J : SerdeJson} {N : HeadersDB} {Q : IntegerSquareRoot} {K : LibSecp256k1}.
Context {C S T : Type} `{Sqlite C} `{!ClarityBackingStore C S} `{!CostTracker T} `{!Host S T}.
Context `{!TotalCost T} `{!Analyzer S T}.
Notation G := (GlobalContext S (Tracked T)).
Notation W := (RollbackWrapper S).
Notation Conn := (ClarityTransactionConnection S T).
Implicit Types (c : Conn) (s : S) (f : Frame).

Definition conn_at c s f : Prop :=
  conn_store c = s /\ exists l, log c = Some l /\ wrapper_inv (from_persisted_log s l) (mkJournal s [f] true).

(** The database of a call in the connection, in a context of its own. *)
Definition working s f (g : Frame) (db : W) : Prop := wrapper_inv db (mkJournal s [g; f] true).

Lemma working_nest s f l :
  wrapper_inv (from_persisted_log s l) (mkJournal s [f] true) -> working s f (mkFrame [] []) (nest (from_persisted_log s l)).
Proof. exact (run_op_refines _ (mkJournal s [f] true) Nest). Qed.
Lemma persisted_inv (db : W) s f :
  wrapper_inv db (mkJournal s [f] true) ->
  store db = s /\ wrapper_inv (from_persisted_log s (persisted_log db)) (mkJournal s [f] true).
Proof. intros Hi. split; [apply Hi|]. by destruct Hi as [H1 H2 H3 H4 H5]. Qed.
Lemma working_commit s f g (db db' : W) :
  working s f g db -> commit db = Ok db' -> wrapper_inv db' (mkJournal s [frame_app f g] true).
Proof. intros Hw Hc. pose proof (commit_refines _ _ Hw) as Hr. by rewrite Hc in Hr. Qed.
Lemma working_rollback s f g (db db' : W) :
  working s f g db -> rollback db = Ok db' -> wrapper_inv db' (mkJournal s [f] true).
Proof. intros Hw Hc. pose proof (rollback_refines _ _ Hw) as Hr. by rewrite Hc in Hr. Qed.

Lemma conn_at_tracker c s f t : conn_at c s f -> conn_at (with_tracker c t) s f.
Proof. done. Qed.
Lemma conn_at_log c s f (db : W) :
  wrapper_inv db (mkJournal s [f] true) -> conn_at (with_log c (Some (persisted_log db)) (store db)) s f.
Proof. intros Hi. apply persisted_inv in Hi as [Hs Hi]. split; [done|]. eauto. Qed.

Lemma start_at (b : ClarityBlockConnection S T) : conn_at (start_transaction_processing b) (datastore b) (mkFrame [] []).
Proof.
  split; [done|]. eexists. split; [done|]. exact (run_op_refines _ (mkJournal (datastore b) [] true) Nest (new_inv (datastore b))).
Qed.

(** ** The ways into a connection *)
Lemma readonly_at {E R : Type} c s f (to_do : W -> outcome VmError R) :
  conn_at c s f ->
  match with_clarity_db_readonly (E:=E) c to_do with
  | Ok (c', r) => conn_at c' s f /\ exists db, working s f (mkFrame [] []) db /\ to_do db = Ok r
  | Err _ => False
  | Panic => True
  end.
Proof.
  intros (<- & l & Hl & Hi). unfold with_clarity_db_readonly, using_object. rewrite Hl. cbn [expect_some out_bind].
  pose proof (working_nest _ _ _ Hi) as Hw. destruct (to_do _) as [r| |] eqn:Er; cbn [expect out_bind]; [|done..].
  destruct (rollback _) as [db| |] eqn:Eb; cbn [expect out_bind]; [|done..].
  split; [by eapply conn_at_log, working_rollback|]. eauto.
Qed.

(** What [to_do] may do to its database: write [g]. *)
Lemma clarity_db_at {R : Type} c s f (P : Frame -> R -> Prop) (to_do : W -> outcome (W * ClarityError) (W * R)) :
  conn_at c s f ->
  (forall db, working s f (mkFrame [] []) db ->
     match to_do db with
     | Ok (db', r) => exists g, working s f g db' /\ P g r
     | Err (db', _) => exists g, working s f g db'
     | Panic => True
     end) ->
  match with_clarity_db c to_do with
  | Ok (c', r) => exists g, conn_at c' s (frame_app f g) /\ P g r
  | Err (c', _) => conn_at c' s f
  | Panic => True
  end.
Proof.
  intros (<- & l & Hl & Hi) Hdo. unfold with_clarity_db, using_object. rewrite Hl. cbn [expect_some out_bind].
  specialize (Hdo _ (working_nest _ _ _ Hi)). destruct (to_do _) as [[db r]|[db e]|]; [| |done].
  - destruct Hdo as (g & Hg & HP). destruct (commit db) as [db'| |] eqn:Eb; cbn [expect out_bind]; [|done..].
    exists g. split; [by eapply conn_at_log, working_commit|done].
  - destruct Hdo as (g & Hg). destruct (rollback db) as [db'| |] eqn:Eb; cbn [expect out_bind]; [|done..].
    by eapply conn_at_log, working_rollback.
Qed.

(** A call of the virtual machine that hands down writes without nonces, or nothing. *)
Definition isolated {A : Type} (to_do : G -> outcome (G * ClarityError) (G * A)) : Prop :=
  forall (g : G) (b : Bottom S), 0 <= CallStack_depth (call_stack g) -> holds g [] b true ->
  match to_do g with
  | Ok (g', _) => exists f b', frame_clean f /\ stored b f b' /\ holds g' [] b' true
  | Err (g', _) => exists ls, holds g' ls b true
  | Panic => True
  end.

Lemma working_holds c s f (db : W) (t : T) :
  working s f (mkFrame [] []) db ->
  holds (new_cost_limited (conn_mainnet c) db t (conn_epoch c)) [] (mkBottom s [mkFrame [] []; f]) true.
Proof. by split. Qed.
Lemma new_depth (mainnet : bool) (db : W) (t : T) epoch : 0 <= CallStack_depth (call_stack (new_cost_limited mainnet db t epoch)).
Proof. done. Qed.
Lemma destruct_holds (g : G) (ls : list Layer) (b : Bottom S) db t :
  context_destruct g = Some (db, t) -> holds g ls b true -> wrapper_inv db (mkJournal (b_store b) (b_frames b) true).
Proof.
  unfold context_destruct, is_top_level. intros Hd [H1 _ _ H4 _]. rewrite H1, length_map in Hd.
  destruct ls; cbn in Hd; [|done]. by simplify_eq.
Qed.

Lemma abort_callback_at {R : Type} c s f
    (to_do : G -> outcome (G * ClarityError) (G * (R * AssetMap * list StacksTransactionEvent))) abort :
  conn_at c s f -> isolated to_do ->
  match with_abort_callback c to_do abort with
  | Ok (c', (_, _, aborted)) => exists f', grows f f' /\ conn_at c' s f' /\ (aborted = true -> f' = f)
  | Err (c', _) => conn_at c' s f
  | Panic => True
  end.
Proof.
  intros (<- & l & Hl & Hi) Hdo. unfold with_abort_callback, using_object. rewrite Hl. cbn [expect_some out_bind].
  destruct (conn_cost_track c) as [t|]; cbn [expect_some out_bind]; [|done].
  pose proof (working_nest _ _ _ Hi) as Hw. pose proof (Hdo _ _ (new_depth _ _ _ _) (working_holds c _ _ _ t Hw)) as Hrun.
  destruct (to_do _) as [[g [[v m] evs]]|[g e]|]; [| |done];
    destruct (context_destruct g) as [[db t']|] eqn:Ed; cbn [expect_some out_bind]; try done.
  - destruct Hrun as (fr & b' & Hc & Hst & Hh). pose proof (destruct_holds _ _ _ _ _ Ed Hh) as Hdb.
    unfold stored in Hst. cbn in Hst. injection Hst as Hs Hf. rewrite <-Hs, <-Hf in Hdb.
    change (working (conn_store c) f (frame_app (mkFrame [] []) fr) db) in Hdb. rewrite frame_app_nil_l in Hdb.
    destruct (abort m) as [[|]| |]; cbn [expect out_bind]; [| |done..].
    + destruct (rollback db) as [db'| |] eqn:Er; cbn [expect out_bind]; [|done..].
      exists f. split; [done|]. split; [|done]. by eapply conn_at_tracker, conn_at_log, working_rollback.
    + destruct (commit db) as [db'| |] eqn:Er; cbn [expect out_bind]; [|done..].
      exists (frame_app f fr). split; [by exists fr|]. split; [|done]. by eapply conn_at_tracker, conn_at_log, working_commit.
  - destruct Hrun as [ls Hh]. pose proof (destruct_holds _ _ _ _ _ Ed Hh) as Hdb.
    destruct (rollback db) as [db'| |] eqn:Er; cbn [expect out_bind]; [|done..].
    by eapply conn_at_tracker, conn_at_log, working_rollback.
Qed.

Lemma analysis_db_at {E R : Type} c s f (P : Frame -> Prop) (to_do : W -> T -> outcome (W * T * E) (W * T * R)) :
  conn_at c s f ->
  (forall db t, wrapper_inv db (mkJournal s [f] true) ->
     match to_do db t with
     | Ok (db', _, _) => exists g, P g /\ wrapper_inv db' (mkJournal s [frame_app f g] true)
     | Err (db', _, _) => wrapper_inv db' (mkJournal s [f] true)
     | Panic => True
     end) ->
  match with_analysis_db c to_do with
  | Ok (c', _) => exists g, P g /\ conn_at c' s (frame_app f g)
  | Err (c', _) => conn_at c' s f
  | Panic => True
  end.
Proof.
  intros (<- & l & Hl & Hi) Hdo. unfold with_analysis_db, using_object. rewrite Hl.
  destruct (conn_cost_track c) as [t|]; cbn [expect_some out_bind]; [|done]. specialize (Hdo _ t Hi).
  destruct (to_do _ t) as [[[db t'] r]|[[db t'] e]|]; cbn [expect_some out_bind]; [| |done].
  - destruct Hdo as (g & Hg & Hdb). exists g. split; [done|]. by apply conn_at_tracker, conn_at_log.
  - by apply conn_at_tracker, conn_at_log.
Qed.

(** ** What contracts do *)
Context `{!MemoryLaws T} `{!HostLaws S T} `{!BlockLaws C S}.
Context (no_fuel : CallableType -> list SymbolicExpression -> Environment -> LocalContext -> M (S:=S) (T:=T) Value).
Context (fuel : nat) (enough : (65 <= fuel)%nat).

Lemma isolated_interpreter {A : Type} (m : G -> outcome (G * VmError) (G * A)) :
  (forall g (b : Bottom S), 0 <= CallStack_depth (call_stack g) -> holds g [] b true ->
   match m g with
   | Ok (g', _) => exists f b', frame_clean f /\ stored b f b' /\ holds g' [] b' true
   | Err (g', _) => exists ls, holds g' ls b true
   | Panic => True
   end) -> isolated (fun g => from_interpreter (m g)).
Proof.
  intros Hm g b Hd Hh. specialize (Hm g b Hd Hh). unfold from_interpreter.
  by destruct (m g) as [[g' a]|[g' e]|].
Qed.
Lemma isolated_call cc sender contract name args :
  isolated (fun g => from_interpreter (execute_transaction no_fuel fuel cc sender contract name args g)).
Proof using enough HostLaws0 MemoryLaws0 BlockLaws0.
  apply isolated_interpreter. intros g b Hd Hh. by apply contract_call_isolated.
Qed.
Lemma isolated_deployment id contract source :
  isolated (fun g => from_interpreter (deploy_contract (eval no_fuel fuel) id contract source g)).
Proof using enough HostLaws0 MemoryLaws0 BlockLaws0.
  apply isolated_interpreter. intros g b Hd Hh. by apply deploy_isolated.
Qed.

Lemma isolated_transfer cc from to amount : isolated (fun g => from_interpreter (transfer_transaction cc from to amount g)).
Proof using HostLaws0 MemoryLaws0 BlockLaws0.
  apply isolated_interpreter. intros g b Hd Hh. apply env_isolated; [done|].
  pose proof (holds_begin _ _ _ _ (is_read_only g) Hh) as Hb. unfold stx_transfer.
  set (w := opened (call_stack (begin g)) (is_read_only (begin g)) [fresh_layer (is_read_only g)] b true).
  destruct (respects_consolidated (DW:=isolation) w (mkEnv cc (Some from) (Some from)) from to amount (begin (begin g))
    (opened_within (begin g) _ _ _ (is_read_only (begin g)) Hb)) as [_ Hr].
  destruct (stx_transfer_consolidated _ _ _ _ _) as [[g1 v]|[g1 e]|]; [| |done].
  - change (iso_within w g1) in Hr. destruct (opened_roll_back _ _ _ _ _ _ Hr) as (g2 & p & Hroll & Hh2 & Hp & _). assert (p = true) as -> by tauto.
    destruct Hr as [_ (l & p & Hh1 & _ & Hp1)]. assert (p = true) as -> by (destruct Hp1; tauto). cbn [w opened w_below w_store] in Hh1.
    destruct v as [| | | | | | |[|] d]; try done.
    + pose proof (holds_commit _ _ _ _ _ _ Hh1) as Hc. destruct (context_commit g1) as [[g3 x]|[g3 e]|]; cbn [out_bind]; [| |done].
      * destruct Hc as (l' & Hc & _). by exists l'.
      * eauto.
    + rewrite Hroll. cbn [out_bind]. eauto.
  - change (iso_failed w g1 e) in Hr. destruct Hr as [_ (ex & l & p & Hh1 & _ & Hp1 & _)]. assert (p = true) as -> by (destruct Hp1; tauto).
    cbn [w opened w_below w_store] in Hh1. destruct ex as [|x ex]; cbn [app] in Hh1;
      destruct (holds_roll_back _ _ _ _ _ Hh1) as (g2 & -> & Hh2); cbn [out_bind]; [eauto|]. destruct ex; cbn in Hh2; eauto.
Qed.

(** ** The operations of a connection *)
(** Success adds writes without nonces, failure nothing. *)
Definition clean_effect {E A : Type} s f (m : outcome (Conn * E) (Conn * A)) : Prop :=
  match m with
  | Ok (c', _) => exists f', grows f f' /\ conn_at c' s f'
  | Err (c', _) => conn_at c' s f
  | Panic => True
  end.

Lemma run_stx_transfer_at c s f from to amount : conn_at c s f -> clean_effect s f (run_stx_transfer c from to amount).
Proof using HostLaws0 MemoryLaws0 BlockLaws0.
  intros Hc. unfold run_stx_transfer, default_contract. destruct (expect _) as [id| |] eqn:Ei; cbn [out_bind]; [|by destruct QualifiedContractIdentifier_transient|done].
  pose proof (abort_callback_at _ _ _ _ (fun _ => Ok false) Hc (isolated_transfer (ContractContext_new id) from to amount)) as Ha.
  destruct (with_abort_callback _ _ _) as [[c' [[[v m] evs] a]]|[c' e]|]; cbn [out_bind clean_effect]; [|done|done].
  destruct Ha as (f' & ? & ? & _). eauto.
Qed.
Lemma run_contract_call_at c s f sender contract name args abort :
  conn_at c s f -> clean_effect s f (run_contract_call no_fuel fuel c sender contract name args abort).
Proof using enough HostLaws0 MemoryLaws0 BlockLaws0.
  intros Hc. unfold run_contract_call, default_contract. destruct (expect _) as [id| |] eqn:Ei; cbn [out_bind]; [|by destruct QualifiedContractIdentifier_transient|done].
  pose proof (abort_callback_at _ _ _ _ abort Hc (isolated_call (ContractContext_new id) sender contract name (map AtomValue args))) as Ha.
  destruct (with_abort_callback _ _ _) as [[c' [[[v m] evs] a]]|[c' e]|]; cbn [out_bind clean_effect]; [|done|done].
  destruct Ha as (f' & ? & Hc' & Hf). destruct a; cbn; [by rewrite Hf in Hc'|eauto].
Qed.
Lemma initialize_smart_contract_at c s f id ast source abort :
  conn_at c s f -> clean_effect s f (initialize_smart_contract no_fuel fuel c id ast source abort).
Proof using enough HostLaws0 MemoryLaws0 BlockLaws0.
  intros Hc. unfold initialize_smart_contract.
  pose proof (abort_callback_at _ _ _ _ abort Hc (isolated_deployment id (expressions ast) source)) as Ha.
  destruct (with_abort_callback _ _ _) as [[c' [[[v m] evs] a]]|[c' e]|]; cbn [out_bind clean_effect]; [|done|done].
  destruct Ha as (f' & ? & Hc' & Hf). destruct a; cbn; [by rewrite Hf in Hc'|eauto].
Qed.

(** The analysis reads; what it found is saved as metadata. *)
Lemma run_analysis_at s f id exprs (db : W) t :
  wrapper_inv db (mkJournal s [f] true) ->
  match run_analysis id exprs db t with
  | Ok (db', _, _) | Err (db', _, _) => wrapper_inv db' (mkJournal s [f] true)
  | Panic => True
  end.
Proof.
  intros Hi. unfold run_analysis. assert (working s f (mkFrame [] []) (nest db)) as Hw by exact (run_op_refines _ (mkJournal s [f] true) Nest Hi).
  destruct (run_passes _ _ _ _) as [[t' a]|[t' e]|]; [| |done].
  - destruct (commit _) as [db'| |] eqn:Ec; cbn [expect out_bind]; [|done..]. rewrite <-(frame_app_nil f). by eapply working_commit.
  - destruct (rollback _) as [db'| |] eqn:Ec; cbn [expect out_bind]; [|done..]. by eapply working_rollback.
Qed.
Lemma analyze_smart_contract_at c s f id source :
  conn_at c s f ->
  match analyze_smart_contract c id source with Ok (c', _) | Err (c', _) => conn_at c' s f | Panic => True end.
Proof.
  intros Hc. unfold analyze_smart_contract. set (todo := fun (db : W) (t : T) => _).
  assert (forall db t, wrapper_inv db (mkJournal s [f] true) -> match todo db t with
    | Ok (db', _, _) => exists g, g = mkFrame [] [] /\ wrapper_inv db' (mkJournal s [frame_app f g] true)
    | Err (db', _, _) => wrapper_inv db' (mkJournal s [f] true)
    | Panic => True end) as Hdo.
  { intros db t Hi. subst todo. cbv beta. destruct (build_ast id source t) as [[t' ast]|[t' e]|]; [|done|done].
    pose proof (run_analysis_at s f id (expressions ast) db t' Hi) as Hr.
    destruct (run_analysis _ _ _ _) as [[[db' t2] a]|[[db' t2] e]|]; [|done|done].
    exists (mkFrame [] []). by rewrite frame_app_nil. }
  pose proof (analysis_db_at c s f (fun g => g = mkFrame [] []) todo Hc Hdo) as Ha.
  destruct (with_analysis_db _ _) as [[c' x]|[c' e]|]; [|done|done]. destruct Ha as (g & -> & Hc'). by rewrite frame_app_nil in Hc'.
Qed.

Lemma insert_analysis_at s f (db db' : W) id analysis :
  working s f (mkFrame [] []) db -> insert_analysis db id analysis = Ok db' -> exists g, frame_clean g /\ working s f g db'.
Proof.
  intros Hw Hi. unfold insert_analysis in Hi. apply out_bind_Ok in Hi as ([] & _ & Hi); [done|].
  destruct (insert_metadata _ _ _ _) as [db1| |] eqn:Em; [|done..]. injection Hi as ->.
  pose proof (insert_metadata_refines _ _ id analysis_storage_key (json_to_string json_analysis analysis) Hw) as Hr. rewrite Em in Hr.
  cbn in Hr. eexists. split; [|exact Hr]. by constructor.
Qed.
Lemma save_analysis_at c s f id analysis : conn_at c s f -> clean_effect s f (save_analysis c id analysis).
Proof.
  intros Hc. unfold save_analysis. set (todo := fun (db : W) (t : T) => _).
  assert (forall db t, wrapper_inv db (mkJournal s [f] true) -> match todo db t with
    | Ok (db', _, _) => exists g, frame_clean g /\ wrapper_inv db' (mkJournal s [frame_app f g] true)
    | Err (db', _, _) => wrapper_inv db' (mkJournal s [f] true)
    | Panic => True end) as Hdo.
  { intros db t Hi. subst todo. cbv beta zeta.
    assert (working s f (mkFrame [] []) (nest db)) as Hw by exact (run_op_refines _ (mkJournal s [f] true) Nest Hi).
    destruct (insert_analysis _ _ _) as [db1|e|] eqn:Ei; [| |done].
    - destruct (insert_analysis_at _ _ _ _ _ _ Hw Ei) as (g & Hg & Hw1).
      destruct (commit db1) as [db2| |] eqn:Ec; cbn [expect out_bind]; [|done..]. exists g. split; [done|]. by eapply working_commit.
    - destruct (rollback _) as [db2| |] eqn:Ec; cbn [expect out_bind]; [|done..]. by eapply working_rollback. }
  pose proof (analysis_db_at c s f frame_clean todo Hc Hdo) as Ha.
  destruct (with_analysis_db _ _) as [[c' x]|[c' e]|]; [|done|done]. destruct Ha as (g & Hg & Hc'). eexists. split; [by exists g|done].
Qed.

(** ** The end of a connection *)
Context `{!StoreLaws C S}.
Lemma commit_publishes_frame {E : Type} c s f :
  conn_at c s f ->
  match connection_commit (E:=E) c with
  | Ok c' => forall k, contents (conn_store c') k = match last_write k (writes f) with Some v => Some v | None => contents s k end
  | Err _ => False
  | Panic => True
  end.
Proof.
  intros (<- & l & Hl & Hi). unfold connection_commit. rewrite Hl. cbn [expect_some out_bind]. destruct (negb _); [done|].
  pose proof (commit_refines _ _ Hi) as Hc. cbn [spec_op j_frames j_store j_pending] in Hc.
  destruct (commit _) as [db| |]; cbn [expect out_bind]; [|done..]. destruct (conn_cost_track c); cbn [expect_some out_bind]; [|done].
  assert (exists s1, match writes f with [] => Ok (conn_store c) | ws => put_all ws (conn_store c) end = Ok s1 /\
    forall k, contents s1 k = match last_write k (writes f) with Some v => Some v | None => contents (conn_store c) k end)
    as (s1 & Hs1 & Hcont).
  { destruct (writes f) as [|e ws]; [by eexists|apply put_all_ok]. }
  rewrite Hs1 in Hc. cbn [out_bind] in Hc.
  destruct (match metadata_writes f with [] => Ok s1 | ms => put_all_metadata ms s1 end) as [s2| |] eqn:Hs2; [|done..].
  cbn in Hc |- *. rewrite (inv_store _ _ Hc). cbn. intros k. rewrite <-Hcont.
  assert (contents s2 = contents s1) as ->; [|done].
  destruct (metadata_writes f); [congruence|]. by eapply put_all_metadata_contents.
Qed.
End frames.
