(* ===== verification/Processing.v ===== *)
(** Processing: how the node processes a transaction
    (src/chainstate/stacks/db/transactions.rs), with the accounts of
    src/chainstate/stacks/db/accounts.rs and the contracts of db/contracts.rs.

    A transaction is checked by itself, then against the nonces of its accounts; its
    payload is executed, the fee is paid, and the nonces go up by one.  All of it
    happens in one transaction connection of the block, which is committed at the
    end; on an error it is dropped. *)
From Stdlib Require Import ZArith Lia Strings.Byte Strings.String List Bool.
From stdpp Require Import base decidable list strings option gmap pretty.
From S2P Require Import Prelude Bytes Codec Representations BTree Types Signatures Admission Values.
From S2P Require Import Serialization AssetMap Hashes Keys Natives C32 Principals BackingStore RollbackWrapper RollbackRefinement.
From S2P Require Import Events GlobalContext ClarityDb ClarityState StxBalance Costs Contexts Callables Assets Machine Specials.
From S2P Require Import TypeRepr DataNatives Interpreter Define Lexer Ast PostConditions Transaction Authorization Receipts Connection.
Open Scope Z_scope.

(** * Data *)
Record StacksAccount := mkAccount {
  sacc_principal : PrincipalData;
  sacc_nonce : Z;
  sacc_stx_balance : STXBalance
}.
#[global] Instance StacksAccount_eq_dec : EqDecision StacksAccount.
Proof. solve_decision. Defined.

Record DBConfig := mkConfig {
  config_version : string;
  config_mainnet : bool;
  config_chain_id : Z
}.

Record TransactionNonceMismatch := mkMismatch {
  expected : Z;
  actual : Z;
  mismatch_txid : list byte;
  mismatch_principal : PrincipalData;
  is_origin : bool;
  mismatch_quiet : bool
}.

Inductive ClarityRuntimeTxError :=
| Acceptable (error : ClarityError) (err_type : string)
| RuntimeAborted (value : option Value) (assets : AssetMap) (events : list StacksTransactionEvent)
| RuntimeCost (cost budget : ExecutionCost)
| Rejectable (error : ClarityError).

Definition handle_clarity_runtime_error (error : ClarityError) : ClarityRuntimeTxError :=
  match error with
  | Interpreter (Runtime _) => Acceptable error "runtime error"
  | Interpreter (ShortReturn _) => Acceptable error "short return/panic"
  | AbortedByCallback val assets events => RuntimeAborted val assets events
  | CostError cost budget => RuntimeCost cost budget
  | unhandled_error => Rejectable unhandled_error
  end.

Section processing.
Context {O : HashOrder} {D : Digests} {J : SerdeJson} {N : HeadersDB} {Q : IntegerSquareRoot} {K : LibSecp256k1} {Y : Layout}.
Context {C S T : Type} `{Sqlite C} `{!ClarityBackingStore C S} `{!CostTracker T} `{!Host S T}.
Context `{!TotalCost T} `{!Analyzer S T}.
Context (no_fuel : CallableType -> list SymbolicExpression -> Environment -> LocalContext -> M (S:=S) (T:=T) Value) (fuel : nat).
Notation W := (RollbackWrapper S).
Notation Block := (ClarityBlockConnection S T).
Notation Conn := (ClarityTransactionConnection S T).
Notation Receipt := (StacksTransactionReceipt ContractAnalysis).

Definition mismatch_to_string (self : TransactionNonceMismatch) : string :=
  let acct_type := if is_origin self then "origin" else "sponsor" in
  "Bad nonce: " ++ acct_type ++ " account " ++ PrincipalData_to_string (mismatch_principal self) ++ " nonce of tx "
  ++ to_hex (mismatch_txid self) ++ " is " ++ pretty (actual self) ++ " (expected " ++ pretty (expected self) ++ ")".

(** * Accounts *)
Definition read_account (principal : PrincipalData) (db : W) : outcome VmError StacksAccount :=
  let? stx_balance := get_account_stx_balance db principal in
  let? nonce := get_account_nonce db principal in
  Ok (mkAccount principal nonce stx_balance).

Definition get_account {E : Type} (clarity_tx : Conn) (principal : PrincipalData) : outcome E (Conn * StacksAccount) :=
  with_clarity_db_readonly clarity_tx (read_account principal).
Definition block_get_account {E : Type} (clarity_tx : Block) (principal : PrincipalData) : outcome E StacksAccount :=
  block_with_clarity_db_readonly clarity_tx (read_account principal).

(** A closure of [with_clarity_db] that always returns [Ok]. *)
Definition always_ok {R : Type} (m : outcome VmError (W * R)) : outcome (W * ClarityError) (W * R) := expect m.

Definition account_debit {E : Type} (clarity_tx : Conn) (principal : PrincipalData) (amount : Z) : outcome E Conn :=
  let? '(clarity_tx, _) := expect (with_clarity_db clarity_tx (fun db => always_ok
    (let? height := get_current_burnchain_block_height db in
     let? snapshot := get_stx_balance_snapshot db height principal in
     let? ok := can_transfer snapshot amount in
     if negb ok then Panic else
     let? snapshot := debit snapshot amount in
     let? db := save snapshot db in
     Ok (db, tt)))) in
  Ok clarity_tx.

Definition account_credit {E : Type} (clarity_tx : Conn) (principal : PrincipalData) (amount : Z) : outcome E Conn :=
  let? '(clarity_tx, _) := expect (with_clarity_db clarity_tx (fun db => always_ok
    (let? height := get_current_burnchain_block_height db in
     let? snapshot := get_stx_balance_snapshot db height principal in
     let? snapshot := credit snapshot amount in
     let? _ := get_available_balance snapshot in
     let? db := save snapshot db in
     Ok (db, tt)))) in
  Ok clarity_tx.

Definition account_genesis_credit {E : Type} (clarity_tx : Conn) (principal : PrincipalData) (amount : Z) : outcome E Conn :=
  let? '(clarity_tx, _) := expect (with_clarity_db clarity_tx (fun db => always_ok
    (let balance := STXBalance_initial amount in
     let? snapshot := get_stx_balance_snapshot_genesis db principal in
     let existing_balance := amount_unlocked (StxBalance.balance snapshot) in
     let? amount_unlocked :=
       if 0 <? existing_balance then expect_some (checked_add u128_ty (amount_unlocked balance) existing_balance)
       else Ok (amount_unlocked balance) in
     let balance := mkBalance amount_unlocked (amount_locked balance) (unlock_height balance) in
     let? db := save (set_balance snapshot balance) db in
     Ok (db, tt)))) in
  Ok clarity_tx.

Definition update_account_nonce {E : Type} (clarity_tx : Conn) (principal : PrincipalData) (cur_nonce : Z) : outcome E Conn :=
  let? '(clarity_tx, _) := expect (with_clarity_db clarity_tx (fun db => always_ok
    (let? next_nonce := expect_some (checked_add u64_ty cur_nonce 1) in
     let? db := set_account_nonce db principal next_nonce in
     Ok (db, tt)))) in
  Ok clarity_tx.

(** [StacksChainState::get_contract] *)
Definition chain_get_contract (clarity_tx : Conn) (contract_id : QualifiedContractIdentifier)
  : outcome (Conn * chainstate_error) (Conn * option ContractContext) :=
  let? '(clarity_tx, r) := with_clarity_db_readonly clarity_tx (fun db =>
    match get_contract json_contract db contract_id with
    | Ok c => Ok (inr (Some c))
    | Err (Unchecked (CheckErr.NoSuchContract _)) => Ok (inr None)
    | Err e => Ok (inl (Interpreter e))
    | Panic => Panic
    end) in
  match r with
  | inr c => Ok (clarity_tx, c)
  | inl e => Err (clarity_tx, ClarityErr e)
  end.

(** * Checks *)
Definition get_payer_account {E : Type} (clarity_tx : Conn) (tx : StacksTransaction) : outcome E (Conn * StacksAccount) :=
  match sponsor_address tx with
  | Some sponsor_address => get_account clarity_tx (StacksAddress_to_account_principal sponsor_address)
  | None => get_account clarity_tx (StacksAddress_to_account_principal (origin_address tx))
  end.

Definition check_transaction_nonces (clarity_tx : Conn) (tx : StacksTransaction) (quiet : bool)
  : outcome (Conn * (TransactionNonceMismatch * (StacksAccount * StacksAccount))) (Conn * (StacksAccount * StacksAccount)) :=
  let origin := auth_origin (tx_auth tx) in
  let? '(clarity_tx, origin_account) := get_account clarity_tx (StacksAddress_to_account_principal (origin_address tx)) in
  let? '(clarity_tx, payer_account) :=
    match sponsor_address tx with
    | Some sponsor_address =>
        let payer := get_payer tx in
        let? '(clarity_tx, payer_account) := get_account clarity_tx (StacksAddress_to_account_principal sponsor_address) in
        if negb (condition_nonce payer =? sacc_nonce payer_account) then
          let? id := txid tx in
          Err (clarity_tx, (mkMismatch (sacc_nonce payer_account) (condition_nonce payer) id (sacc_principal payer_account) false quiet,
            (origin_account, payer_account)))
        else Ok (clarity_tx, payer_account)
    | None => Ok (clarity_tx, origin_account)
    end in
  if negb (condition_nonce origin =? sacc_nonce origin_account) then
    let? id := txid tx in
    Err (clarity_tx, (mkMismatch (sacc_nonce origin_account) (condition_nonce origin) id (sacc_principal origin_account) true quiet,
      (origin_account, payer_account)))
  else Ok (clarity_tx, (origin_account, payer_account)).

(** [From<(TransactionNonceMismatch, T)> for Error] *)
Definition from_mismatch {A : Type} (e : TransactionNonceMismatch * A) : chainstate_error :=
  InvalidStacksTransaction (mismatch_to_string (fst e)) (mismatch_quiet (fst e)).

Definition pay_transaction_fee (clarity_tx : Conn) (fee : Z) (payer_account : StacksAccount)
  : outcome (Conn * chainstate_error) (Conn * Z) :=
  let? '(clarity_tx, cur_burn_block_height) := with_clarity_db_readonly clarity_tx get_current_burnchain_block_height in
  let? consolidated_balance := get_available_balance_at_burn_block (sacc_stx_balance payer_account) cur_burn_block_height in
  if consolidated_balance <? fee then Err (clarity_tx, InvalidFee) else
  let? clarity_tx := account_debit clarity_tx (sacc_principal payer_account) fee in
  Ok (clarity_tx, fee).

Definition process_transaction_precheck (config : DBConfig) (tx : StacksTransaction) : outcome chainstate_error unit :=
  let? _ := map_err NetError (transaction_verify tx) in
  if negb (config_chain_id config =? tx_chain_id tx) then
    let? id := txid tx in
    Err (InvalidStacksTransaction ("Invalid tx " ++ to_hex id ++ ": invalid chain ID " ++ pretty (tx_chain_id tx)
      ++ " (expected " ++ pretty (config_chain_id config) ++ ")") false)
  else
    match tx_version tx with
    | Mainnet =>
        if negb (config_mainnet config) then
          let? id := txid tx in
          Err (InvalidStacksTransaction ("Invalid tx " ++ to_hex id ++ ": on testnet; got mainnet") false)
        else Ok tt
    | Testnet =>
        if config_mainnet config then
          let? id := txid tx in
          Err (InvalidStacksTransaction ("Invalid tx " ++ to_hex id ++ ": on mainnet; got testnet") false)
        else Ok tt
    end.

(** * The payload *)
(** [total_cost.sub(&cost_before).expect(..)] *)
Definition cost_since {E : Type} (clarity_tx : Conn) (cost_before : ExecutionCost) : outcome E ExecutionCost :=
  expect (ExecutionCost_sub (cost_so_far clarity_tx) cost_before).

(** The callback that aborts a transaction by its post-conditions. *)
Definition postconditions_abort {E : Type} (tx : StacksTransaction) (origin_account : StacksAccount) (asset_map : AssetMap)
  : outcome E bool :=
  let? ok := check_transaction_postconditions (tx_post_conditions tx) (tx_post_condition_mode tx)
               (sacc_principal origin_account) asset_map in
  Ok (negb ok).

(** The connection and the [Result] of a call that goes on after an error. *)
Definition attempt_call {E A : Type} (m : outcome (Conn * ClarityError) (Conn * A))
  : outcome E (Conn * (ClarityError + A)) :=
  match m with
  | Ok (c, a) => Ok (c, inr a)
  | Err (c, e) => Ok (c, inl e)
  | Panic => Panic
  end.

Definition process_token_transfer (clarity_tx : Conn) (tx : StacksTransaction) (origin_account : StacksAccount)
    (addr : PrincipalData) (amount : Z) : outcome (Conn * chainstate_error) (Conn * Receipt) :=
  if negb (bool_decide (tx_post_conditions tx = [])) then
    Err (clarity_tx, InvalidStacksTransaction
      "Invalid Stacks transaction: TokenTransfer transactions do not support post-conditions" false)
  else if bool_decide (addr = sacc_principal origin_account) then
    Err (clarity_tx, InvalidStacksTransaction "Invalid TokenTransfer: address tried to send to itself" false)
  else
    let cost_before := cost_so_far clarity_tx in
    let? '(clarity_tx, (value, _, events)) := map_err (fun '(c, e) => (c, ClarityErr e))
      (run_stx_transfer clarity_tx (sacc_principal origin_account) addr amount) in
    let? total_cost := cost_since clarity_tx cost_before in
    Ok (clarity_tx, from_stx_transfer tx events value total_cost).

Definition process_contract_call (clarity_tx : Conn) (tx : StacksTransaction) (origin_account : StacksAccount)
    (contract_call : TransactionContractCall) : outcome (Conn * chainstate_error) (Conn * Receipt) :=
  let contract_id := to_clarity_contract_id contract_call in
  let cost_before := cost_so_far clarity_tx in
  let? '(clarity_tx, contract_call_resp) := attempt_call
    (run_contract_call no_fuel fuel clarity_tx (sacc_principal origin_account) contract_id
      (cc_function_name contract_call) (cc_function_args contract_call) (postconditions_abort tx origin_account)) in
  let? total_cost := cost_since clarity_tx cost_before in
  let receipt (result : Value) (asset_map : AssetMap) (events : list StacksTransactionEvent) :=
    let? burned := get_stx_burned_total asset_map in
    Ok (clarity_tx, from_contract_call tx events result burned total_cost) in
  match contract_call_resp with
  | inr (return_value, asset_map, events) => receipt return_value asset_map events
  | inl e =>
      match handle_clarity_runtime_error e with
      | Acceptable _ _ => receipt Value_err_none AssetMap_new []
      | RuntimeAborted value assets events =>
          let? value := expect_some value in
          let? burned := get_stx_burned_total assets in
          Ok (clarity_tx, from_condition_aborted_contract_call tx events value burned total_cost)
      | RuntimeCost cost_after budget => Err (clarity_tx, CostOverflowError cost_before cost_after budget)
      | Rejectable e => Err (clarity_tx, ClarityErr e)
      end
  end.

Definition process_smart_contract (clarity_tx : Conn) (tx : StacksTransaction) (origin_account : StacksAccount)
    (smart_contract : TransactionSmartContract) : outcome (Conn * chainstate_error) (Conn * Receipt) :=
  let? issuer_principal := match sacc_principal origin_account with Standard p => Ok p | _ => Panic end in
  let contract_id := mkContractId issuer_principal (sc_name smart_contract) in
  let? contract_code_str := expect_some (string_from_utf8 (sc_code_body smart_contract)) in
  let? '(clarity_tx, existing) := chain_get_contract clarity_tx contract_id in
  if bool_decide (is_Some existing) then
    Err (clarity_tx, InvalidStacksTransaction
      ("Duplicate contract '" ++ QualifiedContractIdentifier_to_string contract_id ++ "'") false)
  else
  let cost_before := cost_so_far clarity_tx in
  let? '(clarity_tx, analysis_resp) := attempt_call (analyze_smart_contract clarity_tx contract_id contract_code_str) in
  match analysis_resp with
  | inl (CostError cost_after budget) => Err (clarity_tx, CostOverflowError cost_before cost_after budget)
  | inl _ =>
      let? analysis_cost := cost_since clarity_tx cost_before in
      Ok (clarity_tx, from_analysis_failure tx analysis_cost)
  | inr (contract_ast, contract_analysis) =>
      let? _ := cost_since clarity_tx cost_before in
      let? '(clarity_tx, initialize_resp) := attempt_call
        (initialize_smart_contract no_fuel fuel clarity_tx contract_id contract_ast contract_code_str
          (postconditions_abort tx origin_account)) in
      let? total_cost := cost_since clarity_tx cost_before in
      let receipt (clarity_tx : Conn) (asset_map : AssetMap) (events : list StacksTransactionEvent) :=
        let? burned := get_stx_burned_total asset_map in
        Ok (clarity_tx, from_smart_contract tx events burned contract_analysis total_cost) in
      match initialize_resp with
      | inr (asset_map, events) =>
          let? '(clarity_tx, _) := expect (save_analysis clarity_tx contract_id contract_analysis) in
          receipt clarity_tx asset_map events
      | inl e =>
          match handle_clarity_runtime_error e with
          | Acceptable _ _ => receipt clarity_tx AssetMap_new []
          | RuntimeAborted _ assets events =>
              let? burned := get_stx_burned_total assets in
              Ok (clarity_tx, from_condition_aborted_smart_contract tx events burned contract_analysis total_cost)
          | RuntimeCost cost_after budget => Err (clarity_tx, CostOverflowError cost_before cost_after budget)
          | Rejectable e => Err (clarity_tx, ClarityErr e)
          end
      end
  end.

Definition process_transaction_payload (clarity_tx : Conn) (tx : StacksTransaction) (origin_account : StacksAccount)
  : outcome (Conn * chainstate_error) (Conn * Receipt) :=
  match tx_payload tx with
  | TokenTransfer addr amount _ => process_token_transfer clarity_tx tx origin_account addr amount
  | PayloadContractCall contract_call => process_contract_call clarity_tx tx origin_account contract_call
  | PayloadSmartContract smart_contract => process_smart_contract clarity_tx tx origin_account smart_contract
  | PoisonMicroblock _ _ => Panic
  | Coinbase _ => Ok (clarity_tx, from_coinbase tx)
  end.

(** * The transaction *)
(** Everything between opening the connection and its commit. *)
Definition process_in_connection (transaction : Conn) (tx : StacksTransaction) (quiet : bool)
  : outcome (Conn * chainstate_error) (Conn * (Z * Receipt)) :=
  let? '(transaction, (origin_account, payer_account)) :=
    map_err (fun '(c, e) => (c, from_mismatch e)) (check_transaction_nonces transaction tx quiet) in
  let? '(transaction, tx_receipt) := process_transaction_payload transaction tx origin_account in
  let? '(transaction, new_payer_account) := get_payer_account transaction tx in
  let fee := auth_get_tx_fee (tx_auth tx) in
  let? '(transaction, _) := pay_transaction_fee transaction fee new_payer_account in
  let? transaction := update_account_nonce transaction (sacc_principal origin_account) (sacc_nonce origin_account) in
  let? transaction :=
    if negb (bool_decide (origin_account = payer_account)) then
      update_account_nonce transaction (sacc_principal payer_account) (sacc_nonce payer_account)
    else Ok transaction in
  Ok (transaction, (fee, tx_receipt)).

Definition process_transaction (config : DBConfig) (clarity_block : Block) (tx : StacksTransaction) (quiet : bool)
  : outcome (Block * chainstate_error) (Block * (Z * Receipt)) :=
  let? _ := map_err (pair clarity_block) (process_transaction_precheck config tx) in
  let transaction := start_transaction_processing clarity_block in
  match process_in_connection transaction tx quiet with
  | Ok (transaction, r) =>
      let? transaction := connection_commit transaction in
      let? transaction := connection_drop transaction in
      Ok (return_to_block clarity_block transaction, r)
  | Err (transaction, e) =>
      let? transaction := connection_drop transaction in
      Err (return_to_block clarity_block transaction, e)
  | Panic => Panic
  end.
End processing.
