(* ===== verification/Nonces.v ===== *)
(** Nonces: processing a transaction is all or nothing, and counts it once.

    A block keeps a nonce for each account.  Transactions are the only thing that
    changes nonces: one that is processed was signed for the current nonces of its
    origin and its payer and raises them by one; one that is refused changes nothing
    at all.  Hence no transaction is processed twice. *)
From Stdlib Require Import ZArith Lia Strings.Byte Strings.String List Bool.
From stdpp Require Import base decidable list strings option gmap relations.
From S2P Require Import Prelude Bytes Codec Representations BTree Types Signatures Admission Values.
From S2P Require Import Serialization AssetMap Hashes Keys Natives C32 Principals BackingStore RollbackWrapper RollbackRefinement.
From S2P Require Import Events GlobalContext ClarityDb ClarityState StxBalance Costs Contexts Callables Assets Machine Specials.
From S2P Require Import TypeRepr DataNatives Interpreter Define Lexer Ast PostConditions Transaction Authorization Receipts.
From S2P Require Import StateLayout Discipline Respect Termination Isolation Deployment Connection ConnectionRefinement Processing.
Open Scope Z_scope.

(** * Code that returns no error *)
Definition no_err {E A : Type} (m : outcome E A) : Prop := forall e, m <> Err e.
Lemma no_err_expect {E F A : Type} (m : outcome E A) : no_err (expect (F:=F) m).
Proof. by destruct m. Qed.
Lemma no_err_expect_some {E A : Type} (m : option A) : no_err (expect_some (E:=E) m).
Proof. by destruct m. Qed.
Lemma no_err_bind {E A B : Type} (m : outcome E A) (k : A -> outcome E B) :
  no_err m -> (forall a, no_err (k a)) -> no_err (out_bind m k).
Proof. intros Hm Hk. destruct m as [a|e|]; [apply Hk|by destruct (Hm e)|done]. Qed.
Lemma no_err_try_fold {E A B : Type} (g : A -> B -> outcome E A) (a : A) (l : list B) :
  (forall a b, no_err (g a b)) -> no_err (try_fold g a l).
Proof. intros Hg. revert a. induction l as [|b l IH]; intros a; [done|]. cbn [try_fold]. by apply no_err_bind. Qed.
Lemma no_err_burned {O : HashOrder} {E : Type} (m : AssetMap) : no_err (get_stx_burned_total (E:=E) m).
Proof. apply no_err_try_fold. intros a [p n]. apply no_err_expect_some. Qed.
Lemma no_err_txid {Y : Layout} {D : Digests} {K : LibSecp256k1} {E : Type} (tx : StacksTransaction) : no_err (txid (E:=E) tx).
Proof. unfold txid. apply no_err_bind; [apply no_err_expect|done]. Qed.
Lemma no_err_available {E : Type} (b : STXBalance) (h : Z) : no_err (get_available_balance_at_burn_block (E:=E) b h).
Proof.
  unfold get_available_balance_at_burn_block, get_total_balance. destruct (has_unlockable_tokens_at_burn_block b h); [|done].
  apply no_err_expect_some.
Qed.

Lemma last_write_app {A : Type} `{EqDecision A} (k : A) (l l' : list (A * string)) :
  last_write k (l ++ l') = match last_write k l' with Some v => Some v | None => last_write k l end.
Proof. unfold last_write, values. rewrite flat_map_app, last_app. by destruct (last (flat_map _ l')). Qed.
Lemma last_write_clean (k : string) (f : Frame) : nonce_key k -> frame_clean f -> last_write k (writes f) = None.
Proof.
  intros Hk Hf. unfold frame_clean in Hf. induction Hf as [|[k' v] l Hkv _ IH]; [done|].
  rewrite last_write_cons, IH, decide_False; [done|]. cbn in Hkv. by intros ->.
Qed.

Section nonces.
Context {O : HashOrder} {D : Digests} {J : SerdeJson} {N : HeadersDB} {Q : IntegerSquareRoot} {K : LibSecp256k1} {Y : Layout}.
Context {C S T : Type} `{Sqlite C} `{!ClarityBackingStore C S} `{!CostTracker T} `{!Host S T}.
Context `{!TotalCost T} `{!Analyzer S T} `{!StoreLaws C S} `{!SerdeJsonLaws J}.
Notation W := (RollbackWrapper S).
Notation Block := (ClarityBlockConnection S T).
Notation Conn := (ClarityTransactionConnection S T).
Implicit Types (c : Conn) (s : S) (f : Frame) (p : PrincipalData).

(** * Reading nonces *)
(** The nonce kept in a store with pending writes. *)
Definition nonce_in s f p : outcome VmError Z :=
  let k := make_key_for_account_nonce p in
  match (match last_write k (writes f) with Some v => Some v | None => contents s k end) with
  | Some v => json_deserialize json_u64 v
  | None => Ok 0
  end.

Lemma nonce_key_of p : nonce_key (make_key_for_account_nonce p).
Proof. by exists (PrincipalData_to_string p). Qed.
Lemma read_nonce_frames s (fs : list Frame) (db : W) p :
  fs <> [] -> wrapper_inv db (mkJournal s fs true) -> get_account_nonce db p = nonce_in s (mkFrame (pending_writes fs) []) p.
Proof.
  intros Hfs Hi. unfold get_account_nonce, db_get. change (kv_get db ?k) with (get Ok db k). rewrite (get_refines _ _ _ _ Hi).
  unfold spec_lookup, nonce_in. cbn [j_frames j_pending j_store writes]. destruct fs as [|f fs]; [done|].
  assert (forall v, (let? r := (let? r := decode_found Ok (Some v) in decode_found (json_deserialize json_u64) r) in
    match r with None => Ok 0 | Some n => Ok n end) = json_deserialize (E:=VmError) json_u64 v) as Hv
    by (intros v; cbn; by destruct (json_deserialize json_u64 v)).
  destruct (last_write _ _) as [v|]; [exact (Hv v)|]. rewrite store_get_ok. cbn [out_bind].
  destruct (contents s _) as [v|]; [exact (Hv v)|done].
Qed.
Lemma read_nonce s f (db : W) p : working s f (mkFrame [] []) db -> get_account_nonce db p = nonce_in s f p.
Proof.
  intros Hw. rewrite (read_nonce_frames s [mkFrame [] []; f]) by done. unfold nonce_in. cbn [writes].
  by rewrite !pending_writes_cons, app_nil_r.
Qed.
Lemma nonce_grows s f f' p : grows f f' -> nonce_in s f' p = nonce_in s f p.
Proof.
  intros (g & Hg & ->). unfold nonce_in. cbn [frame_app writes]. rewrite last_write_app, last_write_clean; [done|apply nonce_key_of|done].
Qed.

(** Accounts are told apart by their texts. *)
Definition same_account p q : bool := String.eqb (PrincipalData_to_string p) (PrincipalData_to_string q).
Definition nonce_write p (n : Z) : Frame := mkFrame [(make_key_for_account_nonce p, json_to_string json_u64 n)] [].
Lemma nonce_written s f p q n :
  0 <= n <= u64_max ->
  nonce_in s (frame_app f (nonce_write q n)) p = if same_account p q then Ok n else nonce_in s f p.
Proof using SerdeJsonLaws0.
  intros Hn. unfold nonce_in, same_account. cbn [frame_app writes nonce_write]. rewrite last_write_app, last_write_cons.
  unfold last_write at 1, values. cbn [flat_map last]. destruct (String.eqb_spec (PrincipalData_to_string p) (PrincipalData_to_string q)) as [Heq|Hne].
  - rewrite decide_True by (unfold make_key_for_account_nonce, make_key_for_account; by rewrite Heq).
    unfold json_deserialize. by rewrite json_u64_ok.
  - rewrite decide_False; [done|]. intros Hk. apply Hne. symmetry.
    by apply (account_key_split (PrincipalData_to_string q) (PrincipalData_to_string p) ST_Nonce ST_Nonce) in Hk as [? _].
Qed.

(** The nonce of an account in a block. *)
Definition block_nonce {E : Type} (b : Block) p : outcome E Z :=
  block_with_clarity_db_readonly b (fun db => get_account_nonce db p).
Lemma block_nonce_in {E : Type} (b : Block) p : block_nonce (E:=E) b p = expect (nonce_in (datastore b) (mkFrame [] []) p).
Proof.
  unfold block_nonce, block_with_clarity_db_readonly.
  assert (wrapper_inv (nest (RollbackWrapper_new (datastore b))) (mkJournal (datastore b) [mkFrame [] []] true)) as Hi
    by exact (run_op_refines _ (mkJournal (datastore b) [] true) Nest (new_inv (datastore b))).
  rewrite (read_nonce_frames _ [mkFrame [] []] _ p ltac:(done) Hi). cbn [pending_writes rev map concat app writes].
  pose proof (rollback_refines _ _ Hi) as Hr. destruct (rollback _) as [db| |]; [|done..].
  by destruct (nonce_in _ _ p).
Qed.

(** * The steps of a transaction *)
Lemma account_read_at {E : Type} c s f p :
  conn_at c s f ->
  match get_account (E:=E) c p with
  | Ok (c', a) => conn_at c' s f /\ sacc_principal a = p /\ nonce_in s f p = Ok (sacc_nonce a)
  | Err _ => False
  | Panic => True
  end.
Proof.
  intros Hc. unfold get_account. pose proof (readonly_at (E:=E) c s f (read_account p) Hc) as Hr.
  destruct (with_clarity_db_readonly _ _) as [[c' a]| |]; [|done..]. destruct Hr as (Hc' & db & Hw & Hdo). split; [done|].
  unfold read_account in Hdo. out_inv. simplify_eq. cbn. split; [done|]. by rewrite <-(read_nonce s f db).
Qed.

Lemma working_edits s f (db db' : W) :
  working s f (mkFrame [] []) db -> edits db db' -> exists g, frame_clean g /\ working s f g db'.
Proof.
  intros Hw (ops & Hops & Hrun). pose proof (run_ops_refines ops _ _ Hw) as Hr. rewrite Hrun in Hr.
  destruct (spec_ops _ ops) as [j| |] eqn:Ej; [|done..]. apply spec_edits in Ej as (g & -> & Hg); [|done].
  exists g. split; [|done]. apply Hg. constructor.
Qed.
(** A closure of [with_clarity_db] that edits. *)
Lemma edits_at {R : Type} c s f (m : W -> outcome (W * ClarityError) (W * R)) :
  conn_at c s f -> (forall db db' r, m db = Ok (db', r) -> edits db db') -> (forall db, no_err (m db)) ->
  match with_clarity_db c m with
  | Ok (c', _) => exists f', grows f f' /\ conn_at c' s f'
  | Err _ => True
  | Panic => True
  end.
Proof.
  intros Hc Hm Hne. pose proof (clarity_db_at c s f (fun g _ => frame_clean g) m Hc) as Hr.
  destruct (with_clarity_db _ _) as [[c' r]|e|]; [|done..]. destruct Hr as (g & Hc' & Hg).
  - intros db Hw. destruct (m db) as [[db' r']|e|] eqn:Em; [|by destruct (Hne db e)|done].
    destruct (working_edits _ _ _ _ Hw (Hm _ _ _ Em)) as (g & ? & ?). by exists g.
  - exists (frame_app f g). split; [by exists g|done].
Qed.
Lemma always_ok_Ok {R : Type} (m : outcome VmError (W * R)) x : always_ok m = Ok x -> m = Ok x.
Proof. unfold always_ok. destruct m; cbn; congruence. Qed.
Lemma account_debit_at {E : Type} c s f p (n : Z) :
  conn_at c s f ->
  match account_debit (E:=E) c p n with Ok c' => exists f', grows f f' /\ conn_at c' s f' | Err _ => False | Panic => True end.
Proof.
  intros Hc. unfold account_debit.
  match goal with |- context [with_clarity_db c ?m] => pose proof (edits_at c s f m Hc) as Hr; destruct (with_clarity_db c m) as [[c' r]|e|] end;
    cbn [expect out_bind]; [|done..]. apply Hr; [|intros db; apply no_err_expect].
  intros db db' r' Hm%always_ok_Ok. out_inv. simplify_eq. by eapply edits_save.
Qed.
Lemma account_credit_at {E : Type} c s f p (n : Z) :
  conn_at c s f ->
  match account_credit (E:=E) c p n with Ok c' => exists f', grows f f' /\ conn_at c' s f' | Err _ => False | Panic => True end.
Proof.
  intros Hc. unfold account_credit.
  match goal with |- context [with_clarity_db c ?m] => pose proof (edits_at c s f m Hc) as Hr; destruct (with_clarity_db c m) as [[c' r]|e|] end;
    cbn [expect out_bind]; [|done..]. apply Hr; [|intros db; apply no_err_expect].
  intros db db' r' Hm%always_ok_Ok. out_inv. simplify_eq. by eapply edits_save.
Qed.
Lemma update_nonce_at {E : Type} c s f p (n : Z) :
  conn_at c s f ->
  match update_account_nonce (E:=E) c p n with
  | Ok c' => 0 <= n + 1 <= u64_max /\ conn_at c' s (frame_app f (nonce_write p (n + 1)))
  | Err _ => False
  | Panic => True
  end.
Proof.
  intros Hc. unfold update_account_nonce. 
  match goal with |- context [with_clarity_db c ?m] =>
    pose proof (clarity_db_at c s f (fun g _ => 0 <= n + 1 <= u64_max /\ g = nonce_write p (n + 1)) m Hc) as Hr;
    destruct (with_clarity_db c m) as [[c' r]|e|] end; cbn [expect out_bind]; [|done..].
  destruct Hr as (g & Hc' & Hn & ->); [|done]. intros db Hw. unfold always_ok.
  destruct (checked_add u64_ty n 1) as [n'|] eqn:En; cbn [expect_some out_bind expect]; [|done].
  destruct (set_account_nonce db p n') as [db'| |] eqn:Es; cbn [out_bind expect]; [|done..].
  apply checked_add_Some in En as [-> Hn]. cbn in Hn.
  exists (nonce_write p (n + 1)). split; [|split; [|done]].
  - pose proof (put_refines _ _ (make_key_for_account_nonce p) (json_to_string json_u64 (n + 1)) Hw) as Hp.
    change (put db (make_key_for_account_nonce p) (json_to_string json_u64 (n + 1))) with (set_account_nonce db p (n + 1)) in Hp.
    by rewrite Es in Hp.
  - done.
Qed.

(** ** Sequences of steps *)
(** Success adds writes without nonces; failure leaves the store. *)
Definition keeps {E A : Type} s f (m : outcome (Conn * E) (Conn * A)) : Prop :=
  match m with
  | Ok (c', _) => exists f', grows f f' /\ conn_at c' s f'
  | Err (c', _) => exists f', conn_at c' s f'
  | Panic => True
  end.
Lemma keeps_ret {E A : Type} s f c (a : A) : conn_at c s f -> keeps (E:=E) s f (Ok (c, a)).
Proof. by exists f. Qed.
Lemma keeps_fail {E A : Type} s f c (e : E) : conn_at c s f -> keeps (A:=A) s f (Err (c, e)).
Proof. by exists f. Qed.
Lemma keeps_bind {E A B : Type} s f (m : outcome (Conn * E) (Conn * A)) (k : Conn * A -> outcome (Conn * E) (Conn * B)) :
  keeps s f m -> (forall c f' a, conn_at c s f' -> keeps s f' (k (c, a))) -> keeps s f (out_bind m k).
Proof.
  intros Hm Hk. destruct m as [[c a]|[c e]|]; cbn [out_bind]; [|done|done]. destruct Hm as (f1 & Hg & Hc).
  specialize (Hk c f1 a Hc). destruct (k (c, a)) as [[c' b]|[c' e]|]; [|done|done]. destruct Hk as (f2 & Hg2 & Hc2).
  exists f2. split; [by etrans|done].
Qed.
Lemma keeps_pure {E A B : Type} s f (m : outcome (Conn * E) A) (k : A -> outcome (Conn * E) (Conn * B)) :
  no_err m -> (forall a, keeps s f (k a)) -> keeps s f (out_bind m k).
Proof. intros Hm Hk. destruct m as [a|e|]; [apply Hk|by destruct (Hm e)|done]. Qed.
Lemma clean_effect_keeps {E A : Type} s f (m : outcome (Conn * E) (Conn * A)) : clean_effect s f m -> keeps s f m.
Proof. destruct m as [[c a]|[c e]|]; [done| |done]. by exists f. Qed.
Lemma clean_attempt {E A : Type} s f (m : outcome (Conn * ClarityError) (Conn * A)) :
  clean_effect s f m -> keeps (E:=E) s f (attempt_call m).
Proof. destruct m as [[c a]|[c e]|]; [done| |done]. by exists f. Qed.
Lemma keeps_map_err {E F A : Type} s f (m : outcome (Conn * E) (Conn * A)) (g : E -> F) :
  keeps s f m -> keeps s f (map_err (fun '(c, e) => (c, g e)) m).
Proof. by destruct m as [[c a]|[c e]|]. Qed.

Lemma no_err_cost {E : Type} c before : no_err (cost_since (E:=E) c before).
Proof. apply no_err_expect. Qed.

Lemma chain_get_contract_at c s f id : conn_at c s f -> keeps s f (chain_get_contract c id).
Proof.
  intros Hc. unfold chain_get_contract.
  match goal with |- context [with_clarity_db_readonly c ?m] =>
    pose proof (readonly_at (E:=Conn * chainstate_error) c s f m Hc) as Hr; destruct (with_clarity_db_readonly c m) as [[c' r]| |] end;
    cbn [out_bind]; [|done..]. destruct Hr as [Hc' _]. destruct r; by exists f.
Qed.
Lemma get_account_keeps {E : Type} c s f p : conn_at c s f -> keeps s f (get_account (E:=Conn * E) c p).
Proof.
  intros Hc. pose proof (account_read_at (E:=Conn * E) c s f p Hc) as Hr.
  destruct (get_account c p) as [[c' a]| |]; [|done..]. exists f. by destruct Hr.
Qed.

Context `{!MemoryLaws T} `{!HostLaws S T} `{!BlockLaws C S}.
Context (no_fuel : CallableType -> list SymbolicExpression -> Environment -> LocalContext -> M (S:=S) (T:=T) Value).
Context (fuel : nat) (enough : (65 <= fuel)%nat).

(** ** The payload *)
Lemma token_transfer_at c s f tx origin to amount : conn_at c s f -> keeps s f (process_token_transfer c tx origin to amount).
Proof using HostLaws0 MemoryLaws0 BlockLaws0.
  intros Hc. unfold process_token_transfer. destruct (negb _); [by apply keeps_fail|]. destruct (bool_decide _); [by apply keeps_fail|].
  apply keeps_bind; [by apply keeps_map_err, clean_effect_keeps, run_stx_transfer_at|].
  intros c' f' [[v m] evs] Hc'. apply keeps_pure; [apply no_err_cost|]. intros cost. by apply keeps_ret.
Qed.
Lemma contract_call_at c s f tx origin call : conn_at c s f -> keeps s f (process_contract_call no_fuel fuel c tx origin call).
Proof using enough HostLaws0 MemoryLaws0 BlockLaws0.
  intros Hc. unfold process_contract_call. apply keeps_bind; [by apply clean_attempt, run_contract_call_at|].
  intros c' f' r Hc'. apply keeps_pure; [apply no_err_cost|]. intros cost. cbv zeta.
  destruct r as [e|[[v m] evs]]; [destruct (handle_clarity_runtime_error e) as [| [v|] m evs| |]|];
    repeat (apply keeps_pure; [apply no_err_burned || apply no_err_expect_some|intros ?]);
    first [by apply keeps_ret|by apply keeps_fail|done].
Qed.
Lemma smart_contract_at c s f tx origin contract :
  conn_at c s f -> keeps s f (process_smart_contract no_fuel fuel c tx origin contract).
Proof using enough HostLaws0 MemoryLaws0 BlockLaws0.
  intros Hc. unfold process_smart_contract. apply keeps_pure; [by destruct (sacc_principal origin)|]. intros issuer.
  apply keeps_pure; [apply no_err_expect_some|]. intros code. apply keeps_bind; [by apply chain_get_contract_at|].
  intros c1 f1 existing H1. destruct (bool_decide _); [by apply keeps_fail|]. cbv zeta. apply keeps_bind.
  { pose proof (analyze_smart_contract_at c1 s f1 (mkContractId issuer (sc_name contract)) code H1) as Ha.
    destruct (analyze_smart_contract _ _ _) as [[c' x]|[c' e]|]; [by exists f1..|done]. }
  intros c2 f2 [[]|[ast analysis]] H2; try (apply keeps_pure; [apply no_err_cost|intros ?]);
    try (first [by apply keeps_ret|by apply keeps_fail]).
  apply keeps_bind; [by apply clean_attempt, initialize_smart_contract_at|]. intros c3 f3 r H3.
  apply keeps_pure; [apply no_err_cost|intros cost]. destruct r as [e|[m evs]].
  - destruct (handle_clarity_runtime_error e) as [| [v|] m evs| |];
      repeat (apply keeps_pure; [apply no_err_burned || apply no_err_expect_some|intros ?]);
      first [by apply keeps_ret|by apply keeps_fail|done].
  - apply keeps_bind.
    + pose proof (save_analysis_at c3 s f3 (mkContractId issuer (sc_name contract)) analysis H3) as Hs.
      by destruct (save_analysis _ _ _) as [[c' x]|[c' e]|].
    + intros c4 f4 [] H4. apply keeps_pure; [apply no_err_burned|intros ?]. by apply keeps_ret.
Qed.
Lemma payload_at c s f tx origin : conn_at c s f -> keeps s f (process_transaction_payload no_fuel fuel c tx origin).
Proof using enough HostLaws0 MemoryLaws0 BlockLaws0.
  intros Hc. unfold process_transaction_payload.
  destruct (tx_payload tx); auto using token_transfer_at, contract_call_at, smart_contract_at, keeps_ret. done.
Qed.

Lemma pay_fee_at c s f fee payer : conn_at c s f -> keeps s f (pay_transaction_fee c fee payer).
Proof.
  intros Hc. unfold pay_transaction_fee.
  pose proof (readonly_at (E:=Conn * chainstate_error) c s f get_current_burnchain_block_height Hc) as Hr.
  destruct (with_clarity_db_readonly _ _) as [[c' h]| |]; cbn [out_bind]; [|done..]. destruct Hr as [Hc' _].
  apply keeps_pure; [apply no_err_available|]. intros n. case_match; [by apply keeps_fail|].
  pose proof (account_debit_at (E:=Conn * chainstate_error) c' s f (sacc_principal payer) fee Hc') as Hd.
  by destruct (account_debit _ _ _) as [c2| |].
Qed.

(** ** The accounts of a transaction *)
Definition origin_principal (tx : StacksTransaction) : PrincipalData := StacksAddress_to_account_principal (origin_address tx).
Definition payer_principal (tx : StacksTransaction) : PrincipalData :=
  match sponsor_address tx with Some a => StacksAddress_to_account_principal a | None => origin_principal tx end.
Definition origin_nonce (tx : StacksTransaction) : Z := condition_nonce (auth_origin (tx_auth tx)).
Definition payer_nonce (tx : StacksTransaction) : Z := condition_nonce (get_payer tx).
(** The account takes part in the transaction, as its origin or as its payer. *)
Definition touches (tx : StacksTransaction) p : bool := same_account p (origin_principal tx) || same_account p (payer_principal tx).

Definition nonces_match s f (tx : StacksTransaction) : Prop :=
  nonce_in s f (origin_principal tx) = Ok (origin_nonce tx) /\ nonce_in s f (payer_principal tx) = Ok (payer_nonce tx).
Lemma check_nonces_at c s f tx quiet :
  conn_at c s f ->
  match check_transaction_nonces c tx quiet with
  | Ok (c', (o, q)) => conn_at c' s f /\ nonces_match s f tx /\
      sacc_principal o = origin_principal tx /\ sacc_nonce o = origin_nonce tx /\
      sacc_principal q = payer_principal tx /\ sacc_nonce q = payer_nonce tx
  | Err (c', _) => conn_at c' s f
  | Panic => True
  end.
Proof.
  intros Hc. unfold check_transaction_nonces, nonces_match, payer_principal, payer_nonce, get_payer, sponsor_address.
  set (E := (Conn * (TransactionNonceMismatch * (StacksAccount * StacksAccount)))%type).
  pose proof (account_read_at (E:=E) c s f (origin_principal tx) Hc) as Ho. unfold origin_principal at 1 in Ho.
  destruct (get_account c _) as [[c1 o]| |]; cbn [out_bind]; [|done..]. destruct Ho as (H1 & Hp & Hn).
  pose proof (no_err_txid (E:=E) tx) as Ht.
  destruct (auth_sponsor (tx_auth tx)) as [sp|] eqn:Esp; cbn [fmap option_fmap option_map].
  - pose proof (account_read_at (E:=E) c1 s f (StacksAddress_to_account_principal (address_of (tx_version tx) sp)) H1) as Hq.
    destruct (get_account c1 _) as [[c2 q]| |]; cbn [out_bind]; [|done..]. destruct Hq as (H2 & Hqp & Hqn).
    destruct (condition_nonce sp =? sacc_nonce q) eqn:E1; cbn [negb out_bind];
      [|by destruct (txid tx) as [id|e|]; [|destruct (Ht e)|]].
    apply Z.eqb_eq in E1. destruct (_ =? sacc_nonce o) eqn:E2; cbn [negb out_bind];
      [|by destruct (txid tx) as [id|e|]; [|destruct (Ht e)|]].
    apply Z.eqb_eq in E2. unfold origin_nonce. rewrite E1, E2. auto 10.
  - cbn [out_bind]. destruct (_ =? sacc_nonce o) eqn:E2; cbn [negb]; [|by destruct (txid tx) as [id|e|]; [|destruct (Ht e)|]].
    apply Z.eqb_eq in E2. unfold origin_nonce. rewrite E2. auto 10.
Qed.

Lemma nonce_in_same s f p q : same_account p q = true -> nonce_in s f p = nonce_in s f q.
Proof.
  intros Heq%String.eqb_eq. unfold nonce_in, make_key_for_account_nonce, make_key_for_account. by rewrite Heq.
Qed.

(** What a processed transaction does to the nonces. *)
Definition counted s f (tx : StacksTransaction) s' f' : Prop :=
  nonces_match s f tx /\
  forall p, nonce_in s' f' p = let? n := nonce_in s f p in Ok (if touches tx p then n + 1 else n).
Lemma counted_writes s f f1 (tx : StacksTransaction) o q :
  nonces_match s f tx -> grows f f1 -> o = origin_principal tx -> q = payer_principal tx ->
  0 <= origin_nonce tx + 1 <= u64_max -> 0 <= payer_nonce tx + 1 <= u64_max ->
  counted s f tx s (frame_app (frame_app f1 (nonce_write o (origin_nonce tx + 1))) (nonce_write q (payer_nonce tx + 1))).
Proof using SerdeJsonLaws0.
  intros Hm Hg -> -> Ho Hq. split; [done|]. destruct Hm as [Hmo Hmq]. intros p. rewrite !nonce_written, (nonce_grows _ _ _ _ Hg) by done.
  unfold touches. destruct (same_account p (payer_principal tx)) eqn:Eq.
  - rewrite orb_true_r, (nonce_in_same _ _ _ _ Eq), Hmq. done.
  - rewrite orb_false_r. destruct (same_account p (origin_principal tx)) eqn:Eo.
    + by rewrite (nonce_in_same _ _ _ _ Eo), Hmo.
    + by destruct (nonce_in s f p).
Qed.
Lemma counted_write s f f1 (tx : StacksTransaction) o :
  nonces_match s f tx -> grows f f1 -> o = origin_principal tx -> payer_principal tx = origin_principal tx ->
  0 <= origin_nonce tx + 1 <= u64_max -> counted s f tx s (frame_app f1 (nonce_write o (origin_nonce tx + 1))).
Proof using SerdeJsonLaws0.
  intros Hm Hg -> Hq Ho. split; [done|]. destruct Hm as [Hmo _]. intros p. rewrite !nonce_written, (nonce_grows _ _ _ _ Hg) by done.
  unfold touches. rewrite Hq, orb_diag. destruct (same_account p (origin_principal tx)) eqn:Eo.
  - by rewrite (nonce_in_same _ _ _ _ Eo), Hmo.
  - by destruct (nonce_in s f p).
Qed.

(** ** The whole transaction *)
Lemma get_payer_at c s f tx : conn_at c s f -> keeps s f (get_payer_account (E:=Conn * chainstate_error) c tx).
Proof. intros Hc. unfold get_payer_account. destruct (sponsor_address tx); by apply get_account_keeps. Qed.

Lemma in_connection_at c s f tx quiet :
  conn_at c s f ->
  match process_in_connection no_fuel fuel c tx quiet with
  | Ok (c', (fee, _)) => fee = auth_get_tx_fee (tx_auth tx) /\ exists f', conn_at c' s f' /\ counted s f tx s f'
  | Err (c', _) => exists f', conn_at c' s f'
  | Panic => True
  end.
Proof using enough HostLaws0 MemoryLaws0 BlockLaws0 SerdeJsonLaws0.
  intros Hc. unfold process_in_connection. pose proof (check_nonces_at c s f tx quiet Hc) as Hn.
  destruct (check_transaction_nonces c tx quiet) as [[c1 [o q]]|[c1 e]|]; cbn [map_err out_bind]; [|by exists f|done].
  destruct Hn as (H1 & Hm & Hop & Hon & Hqp & Hqn).
  pose proof (payload_at c1 s f tx o H1) as H2.
  destruct (process_transaction_payload _ _ _ _ _) as [[c2 r]|[c2 e]|]; cbn [out_bind]; [|done|done]. destruct H2 as (f2 & G2 & H2).
  pose proof (get_payer_at c2 s f2 tx H2) as H3.
  destruct (get_payer_account c2 tx) as [[c3 a]|[c3 e]|]; cbn [out_bind]; [|done|done]. destruct H3 as (f3 & G3 & H3).
  pose proof (pay_fee_at c3 s f3 (auth_get_tx_fee (tx_auth tx)) a H3) as H4.
  destruct (pay_transaction_fee c3 _ a) as [[c4 x]|[c4 e]|]; cbn [out_bind]; [|done|done]. destruct H4 as (f4 & G4 & H4).
  pose proof (update_nonce_at (E:=Conn * chainstate_error) c4 s f4 (sacc_principal o) (sacc_nonce o) H4) as H5.
  destruct (update_account_nonce c4 _ _) as [c5|e|]; cbn [out_bind]; [|done|done]. destruct H5 as [R5 H5]. rewrite Hon in R5, H5.
  assert (grows f f4) as G by (etrans; [exact G2|by etrans]).
  destruct (bool_decide (o = q)) eqn:Eoq; cbn [negb out_bind].
  - apply bool_decide_eq_true in Eoq as <-. split; [done|]. eexists. split; [exact H5|]. apply counted_write; [done..|congruence|done].
  - pose proof (update_nonce_at (E:=Conn * chainstate_error) c5 s _ (sacc_principal q) (sacc_nonce q) H5) as H6.
    destruct (update_account_nonce c5 _ _) as [c6|e|]; cbn [out_bind]; [|done|done]. destruct H6 as [R6 H6]. rewrite Hqn in R6, H6.
    split; [done|]. eexists. split; [exact H6|]. by apply counted_writes.
Qed.

Notation no_frame := (mkFrame [] []).
Lemma nonce_published s s' f p :
  (forall k, contents s' k = match last_write k (writes f) with Some v => Some v | None => contents s k end) ->
  nonce_in s' no_frame p = nonce_in s f p.
Proof. intros Hs. unfold nonce_in. cbn. by rewrite Hs. Qed.
Lemma transaction_effect config (b : Block) tx quiet :
  match process_transaction no_fuel fuel config b tx quiet with
  | Ok (b', (fee, _)) => fee = auth_get_tx_fee (tx_auth tx) /\ counted (datastore b) no_frame tx (datastore b') no_frame
  | Err (b', _) => datastore b' = datastore b
  | Panic => True
  end.
Proof using enough HostLaws0 MemoryLaws0 BlockLaws0 SerdeJsonLaws0.
  unfold process_transaction. destruct (process_transaction_precheck config tx) as [[]|e|]; cbn [map_err out_bind]; [|done|done].
  pose proof (in_connection_at _ _ _ tx quiet (start_at b)) as H1.
  destruct (process_in_connection _ _ _ _ _) as [[c1 [fee r]]|[c1 e]|]; [| |done].
  - destruct H1 as (Hf & f1 & H1 & [Hm Hc]). pose proof (commit_publishes_frame (E:=Block * chainstate_error) c1 _ _ H1) as H2.
    destruct (connection_commit c1) as [c2|e|]; cbn [out_bind]; [|done|done].
    unfold connection_drop. destruct (conn_cost_track c2); cbn [expect_some out_bind]; [|done].
    split; [done|]. split; [done|]. intros p. rewrite <-Hc. by apply nonce_published.
  - destruct H1 as (f1 & <- & _). unfold connection_drop. by destruct (conn_cost_track c1).
Qed.
End nonces.
