(* ===== verification/Rewards.v ===== *)
(** Rewards: what miners are paid (src/chainstate/stacks/db/accounts.rs, with the
    schedule of coinbases of db/blocks.rs and the records of db/mod.rs).

    A block's reward matures after [MINER_REWARD_MATURITY] blocks.  Its coinbase is
    shared among the miner and the users that supported it, in proportion to what
    each of them burned; the miner gets the fees of the anchored block, and the fees
    of a microblock stream are shared by its producer and the one who confirms it. *)
From Stdlib Require Import ZArith Lia Strings.Byte Strings.String List Bool.
From stdpp Require Import base decidable sets list strings option.
From S2P Require Import Prelude Bytes Codec Representations BTree Types Signatures Admission Values.
From S2P Require Import Serialization AssetMap Hashes Keys Natives C32 Principals BackingStore RollbackWrapper RollbackRefinement.
From S2P Require Import Events GlobalContext ClarityDb ClarityState StxBalance Costs Contexts Callables Assets Machine Specials.
From S2P Require Import TypeRepr DataNatives Interpreter Define Lexer Ast PostConditions Transaction Authorization Blocks Connection.
Open Scope Z_scope.

#[global] Instance StacksAddress_eq_dec : EqDecision StacksAddress.
Proof. solve_decision. Defined.

(** * Data *)
Record MinerPaymentSchedule := mkSchedule {
  address : StacksAddress;
  sched_block_hash : list byte;
  sched_consensus_hash : list byte;
  sched_parent_block_hash : list byte;
  sched_parent_consensus_hash : list byte;
  sched_coinbase : Z;
  sched_fees_anchored : Z;
  tx_fees_streamed : Z;
  stx_burns : Z;
  burnchain_commit_burn : Z;
  burnchain_sortition_burn : Z;
  miner : bool;
  stacks_block_height : Z;
  sched_vtxindex : Z
}.

Record MinerReward := mkReward {
  reward_address : StacksAddress;
  reward_coinbase : Z;
  tx_fees_anchored : Z;
  tx_fees_streamed_produced : Z;
  tx_fees_streamed_confirmed : Z;
  reward_vtxindex : Z
}.
Record MinerRewardInfo := mkRewardInfo {
  from_block_consensus_hash : list byte;
  from_stacks_block_hash : list byte
}.

Definition MINER_REWARD_MATURITY : Z := 100.
Definition POISON_MICROBLOCK_COMMISSION_FRACTION : Z := 5.
Definition MICROSTACKS_PER_STACKS : Z := 1000000.

(** Arithmetic of [u128] that panics on overflow. *)
Definition add_u128 {E : Type} (a b : Z) : outcome E Z := expect_some (checked_add u128_ty a b).
Definition mul_u128 {E : Type} (a b : Z) : outcome E Z := expect_some (checked_mul u128_ty a b).
Definition div_u128 {E : Type} (a b : Z) : outcome E Z := expect_some (checked_div u128_ty a b).

Definition reward_total {E : Type} (self : MinerReward) : outcome E Z :=
  let? n := add_u128 (reward_coinbase self) (tx_fees_anchored self) in
  let? n := add_u128 n (tx_fees_streamed_produced self) in
  add_u128 n (tx_fees_streamed_confirmed self).

Definition streamed_tx_fees_confirmed {E : Type} (self : MinerPaymentSchedule) : outcome E Z :=
  let? n := mul_u128 (tx_fees_streamed self) 3 in
  div_u128 n 5.
Definition streamed_tx_fees_produced {E : Type} (self : MinerPaymentSchedule) : outcome E Z :=
  let? n := mul_u128 (tx_fees_streamed self) 2 in
  div_u128 n 5.

Definition genesis_schedule (mainnet : bool) : MinerPaymentSchedule :=
  mkSchedule (StacksAddress_burn_address mainnet) FIRST_STACKS_BLOCK_HASH FIRST_BURNCHAIN_CONSENSUS_HASH
    FIRST_STACKS_BLOCK_HASH FIRST_BURNCHAIN_CONSENSUS_HASH 0 0 0 0 0 0 true 0 0.

(** * Schedules *)
(** The literals are of type [u64]. *)
Definition get_coinbase_reward {E : Type} (burn_block_height first_burn_block_height : Z) : outcome E Z :=
  let effective_ht := Z.max 0 (burn_block_height - first_burn_block_height) in
  let blocks_per_year := 52596 in
  let stx_reward :=
    if effective_ht <? blocks_per_year * 4 then 1000
    else if effective_ht <? blocks_per_year * 8 then 500
    else if effective_ht <? blocks_per_year * 12 then 250
    else 125 in
  mul_u128 stx_reward MICROSTACKS_PER_STACKS.

Section schedules.
Context {V : Ed25519} {K : LibSecp256k1} {D : Digests} {Y : Layout}.

Definition make_scheduled_miner_reward (mainnet : bool) (parent_block_hash parent_consensus_hash : list byte)
    (block : StacksBlock) (block_consensus_hash : list byte) (block_height anchored_fees streamed_fees stx_burns
    burnchain_commit_burn burnchain_sortition_burn coinbase_reward_ustx : Z) : outcome chainstate_error MinerPaymentSchedule :=
  let? coinbase_tx := ok_or (InvalidStacksBlock "No coinbase transaction") (get_coinbase_tx block) in
  let miner_auth := auth_origin (tx_auth coinbase_tx) in
  let miner_addr := address_of (if mainnet then Mainnet else Testnet) miner_auth in
  let? hash := block_hash block in
  Ok (mkSchedule miner_addr hash block_consensus_hash parent_block_hash parent_consensus_hash coinbase_reward_ustx
        anchored_fees streamed_fees stx_burns burnchain_commit_burn burnchain_sortition_burn true block_height 0).
End schedules.

(** * Rewards *)
Definition poison_microblock_commission {E : Type} (coinbase : Z) : outcome E Z :=
  let? n := mul_u128 coinbase POISON_MICROBLOCK_COMMISSION_FRACTION in
  div_u128 n 100.

(** The loop body over the supporting users. *)
Definition user_step {E : Type} (participant : MinerPaymentSchedule) (acc : Z * Z) (u : MinerPaymentSchedule) : outcome E (Z * Z) :=
  let '(this_user, total_other) := acc in
  if negb (bool_decide (address u = address participant)) then
    let? total_other := add_u128 total_other (burnchain_commit_burn u) in Ok (this_user, total_other)
  else Ok (burnchain_commit_burn u, total_other).
(** What the participant burned, and what the others did. *)
Definition burn_totals {E : Type} (participant miner_sched : MinerPaymentSchedule) (users : list MinerPaymentSchedule)
  : outcome E (Z * Z) :=
  if miner participant then
    let? total_user := try_fold (fun total_user user_support =>
      add_u128 total_user (burnchain_commit_burn user_support)) 0 users in
    Ok (burnchain_commit_burn participant, total_user)
  else
    try_fold (user_step participant) (0, burnchain_commit_burn miner_sched) users.

Definition calculate_miner_reward {E : Type} (mainnet : bool) (participant miner_sched : MinerPaymentSchedule)
    (users : list MinerPaymentSchedule) (parent : MinerPaymentSchedule) (poison_reporter_opt : option StacksAddress)
  : outcome E (MinerReward * MinerReward) :=
  let? '(this_burn_total, other_burn_total) := burn_totals participant miner_sched users in
  let? burn_total := add_u128 other_burn_total this_burn_total in
  let? product := mul_u128 (sched_coinbase participant) this_burn_total in
  let? coinbase_reward := div_u128 product burn_total in
  let? '(recipient, coinbase_reward, punished) :=
    match poison_reporter_opt with
    | Some reporter_address =>
        if miner participant then
          let? commission := poison_microblock_commission coinbase_reward in
          Ok (reporter_address, commission, true)
        else Ok (StacksAddress_burn_address mainnet, coinbase_reward, false)
    | None => Ok (address participant, coinbase_reward, false)
    end in
  let? '(tx_fees_anchored, parent_tx_fees_streamed_produced, tx_fees_streamed_confirmed) :=
    if miner participant then
      let? produced := streamed_tx_fees_produced parent in
      let? confirmed := if negb punished then streamed_tx_fees_confirmed participant else Ok 0 in
      Ok (if negb punished then sched_fees_anchored participant else 0, produced, confirmed)
    else Ok (0, 0, 0) in
  Ok (mkReward (address parent) 0 0 parent_tx_fees_streamed_produced 0 (sched_vtxindex parent),
      mkReward recipient coinbase_reward tx_fees_anchored 0 tx_fees_streamed_confirmed (sched_vtxindex miner_sched)).

Section maturing.
Context {C S T : Type} `{Sqlite C} `{!ClarityBackingStore C S}.
Notation Block := (ClarityBlockConnection S T).

(** [height as u32] *)
Definition get_poison_microblock_report {E : Type} (clarity_tx : Block) (height : Z)
  : outcome E (option (StacksAddress * Z)) :=
  let? principal_seq_opt := block_with_clarity_db_readonly clarity_tx
    (fun db => get_microblock_poison_report db (as_u32 height)) in
  Ok ((fun '(principal, seq) => (mkAddress (sp_version principal) (sp_bytes principal), seq)) <$> principal_seq_opt).

(** The rewards of the users, whose parent gets nothing. *)
Definition user_rewards_of {E : Type} (mainnet : bool) (miner_sched : MinerPaymentSchedule) (users : list MinerPaymentSchedule)
    (parent_miner : MinerPaymentSchedule) (poison_recipient_opt : option StacksAddress) : outcome E (list MinerReward) :=
  try_map (fun user_reward =>
    let? '(parent_reward, reward) := calculate_miner_reward mainnet user_reward miner_sched users parent_miner poison_recipient_opt in
    let? total := reward_total parent_reward in
    if negb (total =? 0) then Panic else Ok reward) users.

Definition find_mature_miner_rewards {E : Type} (clarity_tx : Block) (mainnet : bool) (tip_height : Z)
    (latest_matured_miners : list MinerPaymentSchedule) (parent_miner : MinerPaymentSchedule)
  : outcome E (option (MinerReward * list MinerReward * MinerReward * MinerRewardInfo)) :=
  if tip_height <=? MINER_REWARD_MATURITY then Ok None else
  let reward_height := tip_height - MINER_REWARD_MATURITY in
  match latest_matured_miners with
  | [] => Panic
  | miner_sched :: users =>
      if negb (sched_vtxindex miner_sched =? 0) then Panic else
      if negb (miner miner_sched) then Panic else
      let reward_info := mkRewardInfo (sched_consensus_hash miner_sched) (sched_block_hash miner_sched) in
      let? report := get_poison_microblock_report clarity_tx reward_height in
      let poison_recipient_opt := fst <$> report in
      let? '(parent_miner_reward, miner_reward) :=
        calculate_miner_reward mainnet miner_sched miner_sched users parent_miner poison_recipient_opt in
      let? user_rewards := user_rewards_of mainnet miner_sched users parent_miner poison_recipient_opt in
      Ok (Some (miner_reward, user_rewards, parent_miner_reward, reward_info))
  end.
End maturing.

(** * The shares of a coinbase *)
Definition zsum (l : list Z) : Z := fold_right Z.add 0 l.
Lemma zsum_cons (x : Z) (l : list Z) : zsum (x :: l) = x + zsum l.
Proof. done. Qed.
Lemma add_u128_Ok {E : Type} (a b n : Z) : add_u128 (E:=E) a b = Ok n -> n = a + b.
Proof. unfold add_u128. destruct (checked_add u128_ty a b) as [x|] eqn:Ex; [|done]. intros [= <-]. by apply checked_add_Some in Ex as [-> _]. Qed.
Lemma mul_u128_Ok {E : Type} (a b n : Z) : mul_u128 (E:=E) a b = Ok n -> n = a * b.
Proof. unfold mul_u128. destruct (checked_mul u128_ty a b) as [x|] eqn:Ex; [|done]. intros [= <-]. by apply checked_mul_Some in Ex as [-> _]. Qed.
Lemma div_u128_Ok {E : Type} (a b n : Z) : 0 <= a -> 0 <= b -> div_u128 (E:=E) a b = Ok n -> 0 < b /\ n = a / b.
Proof.
  intros Ha Hb. unfold div_u128, checked_div. destruct (Z.eqb_spec b 0); [done|].
  destruct (checked _ _) as [x|] eqn:Ex; [|done]. intros [= <-]. apply checked_Some in Ex as [-> _].
  split; [lia|]. apply Z.quot_div_nonneg; lia.
Qed.

Notation burns us := (map burnchain_commit_burn us).
Lemma miner_burns {E : Type} (us : list MinerPaymentSchedule) (a n : Z) :
  try_fold (fun total u => add_u128 (E:=E) total (burnchain_commit_burn u)) a us = Ok n -> n = a + zsum (burns us).
Proof.
  revert a. induction us as [|u us IH]; intros a Hf; cbn [try_fold] in Hf; [injection Hf as <-; cbn; lia|].
  apply out_bind_Ok in Hf as (x & Hx & Hf). apply add_u128_Ok in Hx as ->. apply IH in Hf. cbn [map]. rewrite zsum_cons. lia.
Qed.

Lemma user_burns_other {E : Type} p us t o r :
  address p ∉ map address us -> try_fold (user_step (E:=E) p) (t, o) us = Ok r -> r = (t, o + zsum (burns us)).
Proof.
  revert o. induction us as [|u us IH]; intros o Hni Hf; cbn [try_fold] in Hf; [injection Hf as <-; cbn; f_equal; lia|].
  cbn [map] in Hni. apply not_elem_of_cons in Hni as [Hne Hni]. unfold user_step at 1 in Hf. rewrite bool_decide_false in Hf by congruence.
  cbn [negb] in Hf. out_inv. match goal with Ha : add_u128 _ _ = Ok _ |- _ => apply add_u128_Ok in Ha as -> end.
  apply IH in Hf as ->; [|done]. cbn [map]. rewrite zsum_cons. f_equal. lia.
Qed.
(** A user that is listed once: its burn, and that of all others. *)
Lemma user_burns {E : Type} p us o r :
  NoDup (map address us) -> p ∈ us -> try_fold (user_step (E:=E) p) (0, o) us = Ok r ->
  r = (burnchain_commit_burn p, o + zsum (burns us) - burnchain_commit_burn p).
Proof.
  revert o. induction us as [|u us IH]; intros o Hnd Hin Hf; [by apply not_elem_of_nil in Hin|]. cbn [try_fold map] in *.
  pose proof (NoDup_cons_1_1 _ _ Hnd) as Hni. apply NoDup_cons_1_2 in Hnd. unfold user_step at 1 in Hf. case_bool_decide as Heq; cbn [negb out_bind] in Hf.
  - apply user_burns_other in Hf; [|by rewrite <-Heq]. apply elem_of_cons in Hin as [->|Hin].
    + rewrite Hf, zsum_cons. f_equal. lia.
    + destruct Hni. rewrite Heq. by apply list_elem_of_fmap_2.
  - apply elem_of_cons in Hin as [->|Hin]; [done|]. out_inv.
    match goal with Ha : add_u128 _ _ = Ok _ |- _ => apply add_u128_Ok in Ha as -> end. apply IH in Hf as ->; [|done|done]. rewrite zsum_cons. f_equal. lia.
Qed.

(** What a participant gets, from its burn [t] and that of the others. *)
Definition commission (n : Z) : Z := n * 5 / 100.
Definition reward_spec (mainnet : bool) (p parent : MinerPaymentSchedule) (reporter : option StacksAddress) (share : Z)
    (parent_reward reward : MinerReward) : Prop :=
  parent_reward = mkReward (address parent) 0 0 (if miner p then tx_fees_streamed parent * 2 / 5 else 0) 0 (sched_vtxindex parent) /\
  tx_fees_streamed_produced reward = 0 /\
  if miner p then
    match reporter with
    | None => reward_address reward = address p /\ reward_coinbase reward = share /\
        tx_fees_anchored reward = sched_fees_anchored p /\ tx_fees_streamed_confirmed reward = tx_fees_streamed p * 3 / 5
    | Some r => reward_address reward = r /\ reward_coinbase reward = commission share /\
        tx_fees_anchored reward = 0 /\ tx_fees_streamed_confirmed reward = 0
    end
  else reward_address reward = (if reporter then StacksAddress_burn_address mainnet else address p) /\
    reward_coinbase reward = share /\ tx_fees_anchored reward = 0 /\ tx_fees_streamed_confirmed reward = 0.

Definition schedule_ok (p : MinerPaymentSchedule) : Prop :=
  0 <= sched_coinbase p /\ 0 <= burnchain_commit_burn p /\ 0 <= tx_fees_streamed p.

Lemma streamed_ok {E : Type} (p : MinerPaymentSchedule) n :
  schedule_ok p ->
  (streamed_tx_fees_produced (E:=E) p = Ok n -> n = tx_fees_streamed p * 2 / 5) /\
  (streamed_tx_fees_confirmed (E:=E) p = Ok n -> n = tx_fees_streamed p * 3 / 5).
Proof.
  intros (_ & _ & Hs). unfold streamed_tx_fees_produced, streamed_tx_fees_confirmed.
  split; intros (x & ->%mul_u128_Ok & Hd)%out_bind_Ok; apply div_u128_Ok in Hd as [_ ->]; lia.
Qed.

Lemma calculate_spec {E : Type} mainnet p m us parent reporter t o pr r :
  schedule_ok p -> schedule_ok parent -> 0 <= t -> 0 <= o -> burn_totals (E:=E) p m us = Ok (t, o) ->
  calculate_miner_reward (E:=E) mainnet p m us parent reporter = Ok (pr, r) ->
  0 < o + t /\ reward_spec mainnet p parent reporter (sched_coinbase p * t / (o + t)) pr r.
Proof.
  intros Hp Hpar Ht Ho Hb Hc. pose proof Hp as (Hcb & _ & _). unfold calculate_miner_reward in Hc. rewrite Hb in Hc. cbn [out_bind] in Hc.
  apply out_bind_Ok in Hc as (b & ->%add_u128_Ok & Hc). apply out_bind_Ok in Hc as (x & ->%mul_u128_Ok & Hc).
  apply out_bind_Ok in Hc as (share & Hs & Hc). apply div_u128_Ok in Hs as [Hpos ->]; [|lia|lia]. split; [done|].
  set (share := sched_coinbase p * t / (o + t)) in *. assert (0 <= share) by (apply Z.div_pos; lia).
  unfold reward_spec. destruct (miner p); cbn [out_bind] in Hc.
  - apply out_bind_Ok in Hc as ([[rc cb] pun] & Hrep & Hc). apply out_bind_Ok in Hc as ([[fa prod] conf] & Hfees & Hc).
    apply out_bind_Ok in Hfees as (produced & Hprod & Hfees). apply out_bind_Ok in Hfees as (confirmed & Hconf & Hfees).
    apply (proj1 (streamed_ok _ _ Hpar)) in Hprod as ->. destruct reporter as [rep|].
    + apply out_bind_Ok in Hrep as (cm & Hcm & Hrep). apply out_bind_Ok in Hcm as (y & ->%mul_u128_Ok & Hcm).
      change POISON_MICROBLOCK_COMMISSION_FRACTION with 5 in Hcm. apply div_u128_Ok in Hcm as [_ ->]; [|lia|lia].
      simplify_eq. cbn [negb] in Hconf. simplify_eq. cbn. by split_and!.
    + simplify_eq. cbn [negb] in Hconf. apply (proj2 (streamed_ok _ _ Hp)) in Hconf as ->. simplify_eq. cbn. by split_and!.
  - destruct reporter as [rep|]; cbn [out_bind] in Hc; simplify_eq; cbn; by split_and!.
Qed.

Lemma shares_bounds (c B : Z) (bs : list Z) :
  0 <= c -> 0 < B -> Forall (Z.le 0) bs ->
  B * zsum (map (fun b => c * b / B) bs) <= c * zsum bs <= B * zsum (map (fun b => c * b / B) bs) + (B - 1) * Z.of_nat (length bs).
Proof.
  intros Hc HB Hbs. induction Hbs as [|b bs Hb _ IH]; [cbn; lia|]. cbn [map length]. rewrite !zsum_cons, Nat2Z.inj_succ.
  pose proof (Z.div_mod (c * b) B ltac:(lia)). pose proof (Z.mod_pos_bound (c * b) B HB). nia.
Qed.

Section shared.
Context (mainnet : bool) (m : MinerPaymentSchedule) (us : list MinerPaymentSchedule) (parent : MinerPaymentSchedule)
  (reporter : option StacksAddress).
Context (is_miner : miner m = true) (m_ok : schedule_ok m) (parent_ok : schedule_ok parent).
Context (users_ok : Forall (fun u => miner u = false /\ schedule_ok u /\ sched_coinbase u = sched_coinbase m) us).
Context (once : NoDup (map address us)).
Notation B := (burnchain_commit_burn m + zsum (burns us)).
Notation c := (sched_coinbase m).

Lemma users_burn : Forall (Z.le 0) (burns us).
Proof using users_ok. apply Forall_map. revert users_ok. apply Forall_impl. by intros u (_ & (_ & ? & _) & _). Qed.
Lemma zsum_nonneg (l : list Z) : Forall (Z.le 0) l -> 0 <= zsum l.
Proof. induction 1; [done|]. rewrite zsum_cons. lia. Qed.

Lemma zsum_elem (l : list Z) x : Forall (Z.le 0) l -> x ∈ l -> x <= zsum l.
Proof.
  induction 1 as [|y l Hy Hl IH]; intros Hx; [by apply not_elem_of_nil in Hx|]. rewrite zsum_cons. pose proof (zsum_nonneg l Hl).
  apply elem_of_cons in Hx as [->|Hx]; [lia|]. specialize (IH Hx). lia.
Qed.

Lemma miner_share {E : Type} pr r :
  calculate_miner_reward (E:=E) mainnet m m us parent reporter = Ok (pr, r) ->
  0 < B /\ reward_spec mainnet m parent reporter (c * burnchain_commit_burn m / B) pr r.
Proof using m_ok parent_ok users_ok is_miner.
  intros Hr. pose proof m_ok as (_ & Hm & _). pose proof (zsum_nonneg _ users_burn) as Hu.
  destruct (burn_totals (E:=E) m m us) as [[t o]|e|] eqn:Hb; [|by unfold calculate_miner_reward in Hr; rewrite Hb in Hr..].
  assert (t = burnchain_commit_burn m /\ o = zsum (burns us)) as [-> ->].
  { unfold burn_totals in Hb. rewrite is_miner in Hb. apply out_bind_Ok in Hb as (n & Hn & Hb). apply miner_burns in Hn. by simplify_eq. }
  destruct (calculate_spec _ _ _ _ _ _ _ _ _ _ m_ok parent_ok Hm Hu Hb Hr) as [Hp Hs]. rewrite Z.add_comm in Hp, Hs. done.
Qed.
Lemma user_share {E : Type} u pr r :
  u ∈ us -> calculate_miner_reward (E:=E) mainnet u m us parent reporter = Ok (pr, r) ->
  reward_coinbase r = c * burnchain_commit_burn u / B /\ tx_fees_anchored r = 0 /\ tx_fees_streamed_confirmed r = 0.
Proof using m_ok parent_ok users_ok once.
  intros Hu Hr. pose proof m_ok as (_ & Hm & _). pose proof (zsum_nonneg _ users_burn) as Hs.
  destruct (proj1 (List.Forall_forall _ _) users_ok u (proj1 (list_elem_of_In _ _) Hu)) as (Hnm & Hok & Hcb). pose proof Hok as (_ & Hub & _).
  destruct (burn_totals (E:=E) u m us) as [[t o]|e|] eqn:Hb; [|by unfold calculate_miner_reward in Hr; rewrite Hb in Hr..].
  assert (t = burnchain_commit_burn u /\ o + t = B /\ 0 <= o) as (-> & HB & Ho).
  { unfold burn_totals in Hb. rewrite Hnm in Hb. change (try_fold (user_step (E:=E) u) (0, burnchain_commit_burn m) us = Ok (t, o)) in Hb.
    apply user_burns in Hb; [|done|done]. simplify_eq. split; [done|]. split; [lia|].
    pose proof (zsum_elem _ (burnchain_commit_burn u) users_burn ltac:(by apply list_elem_of_fmap_2)). lia. }
  destruct (calculate_spec _ _ _ _ _ _ _ _ _ _ Hok parent_ok Hub Ho Hb Hr) as [_ (_ & _ & Hs')]. rewrite Hnm, HB, Hcb in Hs'. tauto.
Qed.

Lemma rewards_of {E : Type} us' rs :
  Forall (fun u => u ∈ us) us' ->
  try_map (fun u => let? '(parent_reward, reward) := calculate_miner_reward (E:=E) mainnet u m us parent reporter in
    let? total := reward_total parent_reward in if negb (total =? 0) then Panic else Ok reward) us' = Ok rs ->
  map reward_coinbase rs = map (fun b => c * b / B) (burns us') /\
  Forall (fun r => tx_fees_anchored r = 0 /\ tx_fees_streamed_confirmed r = 0) rs.
Proof using m_ok parent_ok users_ok once.
  intros Hin Hr%try_map_Ok. revert rs Hr.
  induction Hin as [|u us' Hu _ IH]; intros rs Hr; inversion Hr as [|? r ? rs' Hur Hrs]; subst; [by split|].
  destruct (IH rs' Hrs) as [Hm Hf]. apply out_bind_Ok in Hur as ([pr r'] & Hc & Hur). apply out_bind_Ok in Hur as (t & _ & Hur).
  destruct (negb _); [done|]. injection Hur as ->. destruct (user_share u pr r Hu Hc) as (H1 & H2 & H3).
  split; [cbn [map]; by rewrite H1, Hm|]. by constructor.
Qed.
Lemma user_rewards_shares {E : Type} rs :
  user_rewards_of (E:=E) mainnet m us parent reporter = Ok rs ->
  map reward_coinbase rs = map (fun b => c * b / B) (burns us) /\
  Forall (fun r => tx_fees_anchored r = 0 /\ tx_fees_streamed_confirmed r = 0) rs.
Proof using m_ok parent_ok users_ok once. apply rewards_of, List.Forall_forall. intros x. apply list_elem_of_In. Qed.

(** Rounding loses less than one for each participant. *)
Lemma coinbase_bounds {E : Type} pr r rs :
  calculate_miner_reward (E:=E) mainnet m m us parent reporter = Ok (pr, r) ->
  user_rewards_of (E:=E) mainnet m us parent reporter = Ok rs ->
  let paid := reward_coinbase r + zsum (map reward_coinbase rs) in
  paid <= c /\ (reporter = None -> c - Z.of_nat (length us) <= paid).
Proof using m_ok parent_ok users_ok once is_miner.
  intros Hr Hrs. destruct (miner_share pr r Hr) as (HB & _ & _ & Hspec). destruct (user_rewards_shares rs Hrs) as [-> _].
  rewrite is_miner in Hspec. pose proof m_ok as (Hc & Hm & _).
  pose proof (shares_bounds c B (burnchain_commit_burn m :: burns us) Hc HB ltac:(constructor; [done|exact users_burn])) as Hsh.
  cbn [map length] in Hsh. rewrite !zsum_cons, length_map, Nat2Z.inj_succ in Hsh. cbv zeta.
  set (share := c * burnchain_commit_burn m / B) in *. set (rest := zsum (map _ (burns us))) in *.
  assert (0 <= share) by (apply Z.div_pos; lia). assert (share + rest <= c) by nia.
  destruct reporter as [rep|]; destruct Hspec as (_ & -> & _).
  - split; [|done]. unfold commission. assert (share * 5 / 100 <= share) by (apply Z.div_le_upper_bound; lia). lia.
  - split; [done|]. intros _. nia.
Qed.
End shared.


(** * Instances *)
Definition reward_block : ClarityBlockConnection (MemoryBackingStore Tables) unit :=
  mkBlockConnection (store example_wrapper) (Some tt) false Epoch2_05.
Definition schedule (id : byte) (coinbase fees streamed burn : Z) (is_miner : bool) : MinerPaymentSchedule :=
  mkSchedule (mkAddress x1a (repeat id 20)) (repeat x01 32) (repeat x02 20) (repeat x03 32) (repeat x04 20) coinbase fees streamed 0
    burn 10 is_miner 7 (if is_miner then 0 else 1).
Definition the_miner : MinerPaymentSchedule := schedule x0a 1000 70 50 3 true.
Definition the_users : list MinerPaymentSchedule := [schedule x0b 1000 0 0 2 false; schedule x0c 1000 0 0 2 false].
Definition the_parent : MinerPaymentSchedule := schedule x0d 1000 0 20 5 true.


(** A user that is listed twice is paid twice, from a total in which its first burn
    does not count: more than the coinbase is given out. *)
Lemma supporter_listed_twice :
  exists r rs pr info,
    find_mature_miner_rewards (E:=chainstate_error) reward_block false 107
      [the_miner; schedule x0b 1000 0 0 1 false; schedule x0b 1000 0 0 9 false] the_parent = Ok (Some (r, rs, pr, info)) /\
    reward_coinbase r + zsum (map reward_coinbase rs) = 1730.
Proof. vm_compute. by eexists _, _, _, _. Qed.
