(* ===== verification/MapFunction.v ===== *)
(** MapFunction: [map] over several sequences (clarity/src/vm/functions/sequences.rs).

    [special_map] rearranges the sequences into rows of arguments in one pass
    over each, and stops at the first row of another length.  Against the
    specification, the rows up to the length of the shortest sequence, it is
    right as long as no sequence is empty. *)
From Stdlib Require Import ZArith Lia Strings.Byte Strings.String List Bool.
From stdpp Require Import base decidable list strings option gmap.
From S2P Require Import Prelude Bytes Codec Representations BTree Types Signatures Admission Values.
From S2P Require Import Serialization AssetMap Hashes Keys Natives C32 Principals BackingStore RollbackWrapper RollbackRefinement.
From S2P Require Import Events GlobalContext ClarityDb ClarityState StxBalance Costs Contexts Callables Assets Machine Specials.
From S2P Require Import Interpreter Ledger LedgerRefinement Termination.
Open Scope Z_scope.
Open Scope machine_scope.

(** The rows that [map_rows] builds from the values of the sequences. *)
Definition rows_of (columns : list (list Value)) : list (list Value) :=
  snd (fold_left (fun '(min_args_len, rows) values =>
    let min_args_len := Z.min min_args_len (zlen values) in
    (min_args_len, place_values min_args_len 0 values rows)) columns (u64_max, [])).

(** The specification: the [i]th values of all sequences, for every [i] below
    the length of the shortest. *)
Definition row (columns : list (list Value)) (i : nat) : list Value := omap (fun c : list Value => c !! i) columns.
Definition shortest (columns : list (list Value)) : nat :=
  match columns with [] => 0 | c :: cs => fold_left (fun m (c : list Value) => Nat.min m (length c)) cs (length c) end.
Definition zipped (columns : list (list Value)) : list (list Value) := map (row columns) (seq 0 (shortest columns)).

(** * Placing one sequence *)
Lemma lookup_place_values (m : Z) (values : list Value) (rows : list (list Value)) (j i : nat) :
  (j <= length rows)%nat ->
  place_values m j values rows !! i =
  if decide ((j <= i)%nat /\ Z.of_nat i <= m) then
    match values !! (i - j)%nat with Some v => Some (default [] (rows !! i) ++ [v]) | None => rows !! i end
  else rows !! i.
Proof.
  revert rows j. induction values as [|v values IH]; intros rows j Hj; cbn [place_values].
  { rewrite lookup_nil. by case_decide. }
  destruct (m <? Z.of_nat j) eqn:Em; [apply Z.ltb_lt in Em; rewrite decide_False by lia; done|apply Z.ltb_ge in Em].
  set (rows' := if Nat.leb (length rows) j then _ else _).
  assert (rows' !! i = if decide (i = j) then Some (default [] (rows !! i) ++ [v]) else rows !! i) as Hrows'.
  { subst rows'. destruct (Nat.leb (length rows) j) eqn:El.
    - apply Nat.leb_le in El. assert (j = length rows) as -> by lia. destruct (decide (i = length rows)) as [-> |Hi].
      + rewrite lookup_app_r, Nat.sub_diag by lia. by rewrite (lookup_ge_None_2 rows) by lia.
      + destruct (decide (i < length rows)%nat); [by rewrite lookup_app_l|].
        rewrite !lookup_ge_None_2; [done|..]; rewrite ?length_app; simpl; lia.
    - apply Nat.leb_gt in El. destruct (decide (i = j)) as [-> |Hi].
      + rewrite list_lookup_alter_eq. destruct (lookup_lt_is_Some_2 rows j El) as [r ->]. done.
      + by rewrite list_lookup_alter_ne. }
  assert ((Datatypes.S j <= length rows')%nat) as Hlen.
  { subst rows'. destruct (Nat.leb (length rows) j) eqn:El.
    - apply Nat.leb_le in El. rewrite length_app. simpl. lia.
    - apply Nat.leb_gt in El. rewrite length_alter. lia. }
  rewrite IH, Hrows' by done. destruct (decide (i = j)) as [-> |Hi].
  - rewrite decide_False by lia. rewrite decide_True, Nat.sub_diag by lia. done.
  - repeat case_decide; try lia; try done. replace (i - j)%nat with (Datatypes.S (i - Datatypes.S j)) by lia. done.
Qed.

(** * All sequences *)
(** The first [m] rows are complete, and the others are shorter. *)
Record rows_ok (columns : list (list Value)) (m : nat) (rows : list (list Value)) : Prop := {
  rows_enough : (m <= length rows)%nat;
  rows_complete : forall i, (i < m)%nat -> rows !! i = Some (row columns i);
  rows_shorter : forall i r, (m <= i)%nat -> rows !! i = Some r -> (length r < length columns)%nat
}.

Lemma row_snoc columns c i : row (columns ++ [c]) i = row columns i ++ match c !! i with Some v => [v] | None => [] end.
Proof. unfold row. rewrite omap_app. simpl. by destruct (c !! i). Qed.
Lemma row_cons columns c i : row (c :: columns) i = match c !! i with Some v => v :: row columns i | None => row columns i end.
Proof. done. Qed.
Lemma row_length_le columns i : (length (row columns i) <= length columns)%nat.
Proof. induction columns as [|c cs IH]; [done|]. rewrite row_cons. destruct (c !! i); simpl; lia. Qed.
Lemma row_length columns i : Forall (fun c => i < length c)%nat columns -> length (row columns i) = length columns.
Proof.
  induction 1 as [|c cs Hc _ IH]; [done|]. rewrite row_cons. destruct (lookup_lt_is_Some_2 c i Hc) as [v ->]. simpl. by rewrite IH.
Qed.
Lemma length_at_least (rows : list (list Value)) (m : nat) : (forall i, (i < m)%nat -> is_Some (rows !! i)) -> (m <= length rows)%nat.
Proof.
  intros Hr. destruct m as [|m]; [lia|]. specialize (Hr m ltac:(lia)). apply lookup_lt_is_Some in Hr. lia.
Qed.

Lemma rows_ok_first c : zlen c <= u64_max -> rows_ok [c] (length c) (place_values (Z.min u64_max (zlen c)) 0 c []).
Proof.
  intros Hc. rewrite Z.min_r by done.
  assert (forall i, place_values (zlen c) 0 c [] !! i = match c !! i with Some v => Some [v] | None => None end) as Hl.
  { intros i. rewrite lookup_place_values by lia. rewrite lookup_nil, Nat.sub_0_r. case_decide as Hi; [done|].
    rewrite lookup_ge_None_2; [done|]. unfold zlen in Hi. lia. }
  split.
  - apply length_at_least. intros i Hi. rewrite Hl. by destruct (lookup_lt_is_Some_2 c i Hi) as [v ->].
  - intros i Hi. rewrite Hl. unfold row. simpl. by destruct (lookup_lt_is_Some_2 c i Hi) as [v ->].
  - intros i r Hi. by rewrite Hl, lookup_ge_None_2.
Qed.

Lemma rows_ok_next columns m rows c :
  rows_ok columns m rows -> columns <> [] ->
  rows_ok (columns ++ [c]) (Nat.min m (length c)) (place_values (Z.min (Z.of_nat m) (zlen c)) 0 c rows).
Proof.
  intros [He Hc Hs] Hne. set (m' := Nat.min m (length c)).
  assert (Z.min (Z.of_nat m) (zlen c) = Z.of_nat m') as -> by (unfold zlen; lia).
  assert (forall i, place_values (Z.of_nat m') 0 c rows !! i = if decide (i <= m')%nat then
      match c !! i with Some v => Some (default [] (rows !! i) ++ [v]) | None => rows !! i end else rows !! i) as Hl.
  { intros i. rewrite lookup_place_values, Nat.sub_0_r by lia. repeat case_decide; try done; lia. }
  assert (forall i r, rows !! i = Some r -> (length r <= length columns)%nat) as Hle.
  { intros i r Hr. destruct (decide (i < m)%nat) as [Hi|Hi].
    - rewrite Hc in Hr by done. simplify_eq. apply row_length_le.
    - specialize (Hs i r ltac:(lia) Hr). lia. }
  assert (forall i, (i < m')%nat -> place_values (Z.of_nat m') 0 c rows !! i = Some (row (columns ++ [c]) i)) as Hfull.
  { intros i Hi. rewrite Hl, decide_True, row_snoc, Hc by lia. by destruct (lookup_lt_is_Some_2 c i ltac:(lia)) as [v ->]. }
  split; [apply length_at_least; intros i Hi; by rewrite Hfull|done|].
  intros i r Hi Hr. rewrite Hl in Hr. rewrite length_app. simpl.
  assert (0 < length columns)%nat by (destruct columns; [done|simpl; lia]).
  case_decide as Hd; [|specialize (Hle i r Hr); lia]. assert (i = m') as -> by lia.
  destruct (c !! m') as [v|] eqn:Ev; [|specialize (Hle m' r Hr); lia].
  apply lookup_lt_Some in Ev. assert (m' = m) as Em by lia. rewrite Em in Hr.
  destruct (rows !! m) as [r0|] eqn:E0; simplify_eq; rewrite ?length_app; simpl; [|lia].
  specialize (Hs m r0 ltac:(lia) E0). lia.
Qed.

Lemma rows_ok_all columns c : Forall (fun c => zlen c <= u64_max) (c :: columns) ->
  rows_ok (c :: columns) (shortest (c :: columns)) (rows_of (c :: columns)).
Proof.
  intros [Hc _]%Forall_cons. unfold rows_of, shortest. cbn [fold_left].
  pose proof (rows_ok_first c Hc) as Hok. rewrite Z.min_r in * by done.
  assert (zlen c = Z.of_nat (length c)) as Hz by done. rewrite Hz in *. clear Hz Hc.
  revert Hok. generalize (place_values (Z.of_nat (length c)) 0 c []) as rows. generalize (length c) as m.
  assert ([c] <> []) as Hne by done. change (c :: columns) with ([c] ++ columns). revert Hne. generalize [c] as pre.
  induction columns as [|c2 cs IH]; intros pre Hne m rows Hok; cbn [fold_left]; [by rewrite app_nil_r|].
  pose proof (rows_ok_next _ _ _ c2 Hok Hne) as Hok2.
  assert (Z.min (Z.of_nat m) (zlen c2) = Z.of_nat (Nat.min m (length c2))) as Hz by (unfold zlen; lia). rewrite Hz in *.
  specialize (IH (pre ++ [c2]) ltac:(by destruct pre) _ _ Hok2). by rewrite <-app_assoc in IH.
Qed.

Lemma take_complete columns m rows : rows_ok columns m rows -> take m rows = map (row columns) (seq 0 m).
Proof.
  intros [He Hc _]. apply list_eq. intros i. destruct (decide (i < m)%nat) as [Hi|Hi].
  - rewrite lookup_take_lt, Hc by lia. rewrite list_lookup_fmap, lookup_seq_lt by lia. done.
  - rewrite !lookup_ge_None_2; [done|..]; rewrite ?length_map, ?length_seq, ?length_take; lia.
Qed.

(** * The function *)
Section map_function.
Context {O : HashOrder} {D : Digests} {J : SerdeJson} {N : HeadersDB} {Q : IntegerSquareRoot} {K : LibSecp256k1}.
Context {C S T : Type} `{Sqlite C} `{!ClarityBackingStore C S} `{!CostTracker T} `{!Host S T}.
Notation G := (GlobalContext S (Tracked T)).
Notation M := (M (S:=S) (T:=T)).
Context (eval : SymbolicExpression -> Environment -> LocalContext -> M Value).
Context (apply : CallableType -> list SymbolicExpression -> Environment -> LocalContext -> M Value).
Implicit Types (args : list SymbolicExpression) (env : Environment) (context : LocalContext) (g : G).

(** The values of the sequence an argument evaluates to. *)
Definition column env context (arg : SymbolicExpression) : M (list Value) :=
  let! sequence := eval arg env context in
  match sequence with
  | VSequence sequence_data => lift (SequenceData_atom_values sequence_data)
  | _ => lift (expected_sequence sequence)
  end.
Definition usable_column (values : list Value) : Prop := values <> [] /\ zlen values <= u64_max.

(** [map] as the documentation describes it: the function is applied to each
    row of [zipped]. *)
Definition map_spec args env context : M Value :=
  let! _ := count_at_least 2 args in
  let! _ := cost CostFunction.Map (zlen args) in
  let! name := nth_arg args 0 in
  let! function_name := atom_or CheckErr.ExpectedName name in
  let! function := lookup_function function_name env in
  let! columns := m_map (column env context) (tail args) in
  let! mapped_results := m_map (fun row => apply function (map AtomValue row) env context) (zipped columns) in
  lift (list_from mapped_results).

Lemma atom_values_length {E : Type} (s : SequenceData) (values : list Value) :
  SequenceData_atom_values (E:=E) s = Ok values -> SequenceData_len s = zlen values.
Proof.
  unfold SequenceData_len, zlen. destruct s as [b|l|[a|u]]; simpl; intros Hs; out_inv;
    try (apply try_map_Ok in Hs; apply Forall2_length in Hs); congruence.
Qed.

Lemma map_rows_columns args env context (min_args_len : Z) (rows : list (list Value)) g :
  map_rows eval args env context min_args_len rows g =
  (let! columns := m_map (column env context) args in
   m_ret (snd (fold_left (fun '(min_args_len, rows) values =>
     let min_args_len := Z.min min_args_len (zlen values) in
     (min_args_len, place_values min_args_len 0 values rows)) columns (min_args_len, rows)))) g.
Proof.
  revert min_args_len rows g. induction args as [|arg args IH]; intros min_args_len rows g; [done|].
  cbn [map_rows m_map]. unfold column at 1. rewrite !bind_assoc. apply bind_eq. intros g1 v _.
  destruct v as [| | |s| | | |]; try (unfold lift, m_bind, expected_sequence; by destruct (type_of _)). apply bind_eq. intros g2 values Hv.
  unfold lift in Hv. destruct (SequenceData_atom_values s) eqn:Ev; simplify_eq. apply atom_values_length in Ev. rewrite Ev.
  rewrite IH, ?bind_assoc. apply bind_eq. done.
Qed.

Lemma map_apply_complete function (good rest : list (list Value)) (k : nat) env context g :
  Forall (fun r => length r = k) good -> (forall r, head rest = Some r -> length r <> k) ->
  map_apply apply function (good ++ rest) (Some k) env context g =
  m_map (fun row => apply function (map AtomValue row) env context) good g.
Proof.
  intros Hgood Hrest. revert g. induction Hgood as [|r good Hr _ IH]; intros g.
  - destruct rest as [|r rest]; [done|]. simpl.
    specialize (Hrest r eq_refl). rewrite bool_decide_eq_false_2 by congruence. done.
  - cbn [map_apply m_map app]. rewrite (bool_decide_eq_true_2 (Some k = _)) by congruence. rewrite andb_false_r.
    apply bind_eq. intros g1 v _. unfold m_bind. rewrite Hr, IH. done.
Qed.

Lemma shortest_le columns c : c ∈ columns -> (shortest columns <= length c)%nat.
Proof.
  unfold shortest. destruct columns as [|c0 cs]; [by intros ?%elem_of_nil|].
  assert (forall l m, (fold_left (fun m (c : list Value) => Nat.min m (length c)) l m <= m)%nat) as Hm.
  { induction l as [|x l IH]; intros m; simpl; [done|]. specialize (IH (Nat.min m (length x))). lia. }
  intros [-> |Hc]%elem_of_cons; [apply Hm|]. revert Hc. generalize (length c0) as m.
  induction cs as [|x cs IH]; intros m Hc; [by apply elem_of_nil in Hc|]. simpl. apply elem_of_cons in Hc as [-> |Hc].
  - specialize (Hm cs (Nat.min m (length x))). lia.
  - by apply IH.
Qed.
Lemma shortest_positive c columns : Forall (fun c => c <> []) (c :: columns) -> (0 < shortest (c :: columns))%nat.
Proof.
  intros [Hc Hcs]%Forall_cons. unfold shortest. assert (0 < length c)%nat as Hm by (destruct c; [done|simpl; lia]).
  revert Hm. generalize (length c) as m. induction Hcs as [|x cs Hx _ IH]; intros m Hm; simpl; [done|].
  apply IH. destruct x; [done|simpl; lia].
Qed.

Lemma map_apply_zipped function columns env context g :
  Forall usable_column columns ->
  map_apply apply function (rows_of columns) None env context g =
  m_map (fun row => apply function (map AtomValue row) env context) (zipped columns) g.
Proof.
  intros Hcs. destruct columns as [|c cs]; [done|].
  pose proof (shortest_positive c cs ltac:(eapply Forall_impl; [done|by intros ? []])) as Hpos.
  pose proof (rows_ok_all cs c ltac:(eapply Forall_impl; [done|by intros ? []])) as Hok.
  pose proof (take_complete _ _ _ Hok) as Ht. unfold zipped. rewrite <-Ht.
  set (columns := c :: cs) in *. set (rows := rows_of columns) in *. set (m := shortest columns) in *.
  assert (Forall (fun r => length r = length columns) (take m rows)) as Hgood.
  { rewrite Ht. apply Forall_map, Forall_seq. intros i Hi. apply row_length, Forall_forall. intros x Hx%shortest_le. lia. }
  assert (forall r, head (drop m rows) = Some r -> length r <> length columns) as Hrest.
  { intros r. rewrite head_lookup, lookup_drop, Nat.add_0_r. intros Hr. pose proof (rows_shorter _ _ _ Hok m r (le_n _) Hr). lia. }
  rewrite <-(take_drop m rows) at 1. rewrite <-(map_apply_complete function _ _ (length columns) env context g Hgood Hrest).
  destruct (take m rows) as [|r0 good] eqn:E0.
  - apply (f_equal length) in E0. rewrite length_take in E0. simpl in E0. pose proof (rows_enough _ _ _ Hok). lia.
  - apply Forall_cons in Hgood as [Hr0 _]. cbn [map_apply app]. rewrite (bool_decide_eq_true_2 (Some (length columns) = _)) by congruence.
    rewrite andb_false_r. done.
Qed.

End map_function.

(** [(map + (list 1 2 3) (list 10 20))] is [(list 11 22)]. *)
Definition int_list (l : list Z) : SymbolicExpression :=
  AtomValue (match list_from (map VInt l) with Ok v => v | _ => VBool false end).
Definition calc_apply : CallableType -> list SymbolicExpression -> Environment -> LocalContext -> M Value :=
  apply (O:=listed_order) (D:=mixing_digests) (J:=bits_json) (N:=NullHeadersDB (D:=mixing_digests))
    (Q:=Z_square_root) (K:=toy_secp256k1) (Host0:=calc_host) (fun _ _ _ _ _ => Panic) 65.
Definition calc_eval : SymbolicExpression -> Environment -> LocalContext -> M Value :=
  eval_with (D:=mixing_digests) (N:=NullHeadersDB (D:=mixing_digests)) (Q:=Z_square_root) calc_apply.
Definition calc_map (args : list SymbolicExpression) : option SymbolicExpression :=
  match calc_eval (ListExpr (Atom "map" :: Atom "+" :: args)) (mkEnv calc_context None None) LocalContext_new calc_global with
  | Ok (_, v) => Some (AtomValue v)
  | _ => None
  end.


(** With an empty list the addition is applied to one argument. *)
Lemma map_over_empty_list :
  calc_map [int_list [1; 2; 3]; int_list [10; 20]] = Some (int_list [11; 22]) /\
  calc_map [int_list []; int_list [1; 2]] = Some (int_list [1]) /\
  calc_map [int_list [1; 2]; int_list []] = Some (int_list [1; 2]).
Proof. by vm_compute. Qed.
