(* ===== verification/Withdrawal.v ===== *)
(** Withdrawal: the withdrawals a subnet block commits to
    (src/clarity_vm/withdrawal.rs): the key of each withdraw event, their
    numbering across the receipts of a block and the Merkle tree over them.
    Events are those of clarity/src/vm/events.rs, receipts those of
    src/chainstate/stacks/events.rs. *)
From Stdlib Require Import ZArith Lia Strings.Byte Strings.String List Bool.
From stdpp Require Import base decidable list strings option.
From S2P Require Import Prelude Bytes Utf8 Codec Representations BTree Types Signatures Admission Values.
From S2P Require Import Serialization RoundTrip Injectivity Hashes Keys Merkle Events Costs.
From S2P Require Import Transaction TransactionRoundTrip Authorization Receipts.
Open Scope Z_scope.

(** * Keys *)
Section keys.
Context {K : LibSecp256k1} {A E : Type}.
Notation StacksTransactionReceipt := (StacksTransactionReceipt A).

Definition clarity_ascii_str (input : string) : outcome E Value :=
  expect (string_ascii_from_bytes (as_bytes input)).

Definition buffer_from_hash (hash : list byte) : outcome E Value := expect (buff_from hash).

Definition make_key_for_stx_withdrawal (recipient : PrincipalData) (withdrawal_id amount block_height : Z)
  : outcome E Value :=
  let? ty := clarity_ascii_str "stx" in
  let? t := expect (TupleData_from_data
    [("type", ty); ("height", VUInt block_height); ("withdrawal-id", VUInt withdrawal_id);
     ("recipient", VPrincipal recipient); ("amount", VUInt amount)]%string) in
  Ok (VTuple t).

Definition make_key_for_nft_withdrawal (sender : PrincipalData) (withdrawal_id : Z) (asset_identifier : AssetIdentifier)
    (id block_height : Z) : outcome E Value :=
  let asset_contract := VPrincipal (Contract (ai_contract_identifier asset_identifier)) in
  let? ty := clarity_ascii_str "nft" in
  let? t := expect (TupleData_from_data
    [("type", ty); ("asset-contract", asset_contract); ("height", VUInt block_height);
     ("withdrawal-id", VUInt withdrawal_id); ("recipient", VPrincipal sender); ("nft-id", VUInt id)]%string) in
  Ok (VTuple t).

Definition make_key_for_ft_withdrawal (sender : PrincipalData) (withdrawal_id : Z) (asset_identifier : AssetIdentifier)
    (amount block_height : Z) : outcome E Value :=
  let asset_contract := VPrincipal (Contract (ai_contract_identifier asset_identifier)) in
  let? ty := clarity_ascii_str "ft" in
  let? t := expect (TupleData_from_data
    [("type", ty); ("asset-contract", asset_contract); ("height", VUInt block_height);
     ("withdrawal-id", VUInt withdrawal_id); ("recipient", VPrincipal sender); ("amount", VUInt amount)]%string) in
  Ok (VTuple t).

Definition make_key_for_ft_withdrawal_event (data : FTWithdrawEventData) (block_height : Z) : outcome E Value :=
  let? withdrawal_id := expect_some (fw_withdrawal_id data) in
  make_key_for_ft_withdrawal (fw_sender data) withdrawal_id (fw_asset_identifier data) (fw_amount data) block_height.

Definition make_key_for_nft_withdrawal_event (data : NFTWithdrawEventData) (block_height : Z) : outcome E Value :=
  let? withdrawal_id := expect_some (nw_withdrawal_id data) in
  make_key_for_nft_withdrawal (nw_sender data) withdrawal_id (nw_asset_identifier data) (nw_id data) block_height.

Definition make_key_for_stx_withdrawal_event (data : STXWithdrawEventData) (block_height : Z) : outcome E Value :=
  let? withdrawal_id := expect_some (sw_withdrawal_id data) in
  make_key_for_stx_withdrawal (sw_sender data) withdrawal_id (sw_amount data) block_height.

(** The event is updated in place: it comes back with its withdrawal id. *)
Definition generate_key_from_event (event : StacksTransactionEvent) (withdrawal_id block_height : Z)
  : outcome E (option Value * StacksTransactionEvent) :=
  match event with
  | NFTEvent (NFTWithdrawEvent data) =>
      let data := mkNftWithdraw (nw_asset_identifier data) (nw_sender data) (nw_id data) (Some withdrawal_id) in
      let? key := make_key_for_nft_withdrawal_event data block_height in
      Ok (Some key, NFTEvent (NFTWithdrawEvent data))
  | FTEvent (FTWithdrawEvent data) =>
      let data := mkFtWithdraw (fw_asset_identifier data) (fw_sender data) (fw_amount data) (Some withdrawal_id) in
      let? key := make_key_for_ft_withdrawal_event data block_height in
      Ok (Some key, FTEvent (FTWithdrawEvent data))
  | STXEvent (STXWithdrawEvent data) =>
      let data := mkStxWithdraw (sw_sender data) (sw_amount data) (Some withdrawal_id) in
      let? key := make_key_for_stx_withdrawal_event data block_height in
      Ok (Some key, STXEvent (STXWithdrawEvent data))
  | _ => Ok (None, event)
  end.

Definition convert_withdrawal_key_to_bytes (key : Value) : outcome E (list byte) := expect (serialize_write key).

(** The loops of [generate_withdrawal_keys]: over the events of a receipt and
    over the receipts; [withdrawal_id] is a [u32]. *)
Fixpoint keys_of_events (evs : list StacksTransactionEvent) (withdrawal_id block_height : Z)
  : outcome E (list (list byte) * list StacksTransactionEvent * Z) :=
  match evs with
  | [] => Ok ([], [], withdrawal_id)
  | event :: evs =>
      let? '(key, event) := generate_key_from_event event withdrawal_id block_height in
      match key with
      | Some key =>
          let? withdrawal_id := expect_some (checked_add u32_ty withdrawal_id 1) in
          let? bytes := convert_withdrawal_key_to_bytes key in
          let? '(items, evs, withdrawal_id) := keys_of_events evs withdrawal_id block_height in
          Ok (bytes :: items, event :: evs, withdrawal_id)
      | None =>
          let? '(items, evs, withdrawal_id) := keys_of_events evs withdrawal_id block_height in
          Ok (items, event :: evs, withdrawal_id)
      end
  end.

Fixpoint keys_of_receipts (tx_receipts : list StacksTransactionReceipt) (withdrawal_id block_height : Z)
  : outcome E (list (list byte) * list StacksTransactionReceipt) :=
  match tx_receipts with
  | [] => Ok ([], [])
  | receipt :: tx_receipts =>
      let? '(items, evs, withdrawal_id) := keys_of_events (events receipt) withdrawal_id block_height in
      let receipt := set_events receipt evs in
      let? '(items', tx_receipts) := keys_of_receipts tx_receipts withdrawal_id block_height in
      Ok (items ++ items', receipt :: tx_receipts)
  end.

Definition generate_withdrawal_keys (tx_receipts : list StacksTransactionReceipt) (block_height : Z)
  : outcome E (list (list byte) * list StacksTransactionReceipt) :=
  keys_of_receipts tx_receipts 0 block_height.

Definition create_withdrawal_merkle_tree {H : Type} `{MerkleHashFunc H}
    (tx_receipts : list StacksTransactionReceipt) (block_height : Z)
  : outcome E (option (MerkleTree H) * list StacksTransactionReceipt) :=
  let? '(items, tx_receipts) := generate_withdrawal_keys tx_receipts block_height in
  Ok (MerkleTree_new items, tx_receipts).
End keys.

(** * What a block withdraws *)
(** A withdrawal as its key records it: the asset name is not part of it. *)
Inductive withdrawal :=
| WithdrawStx (recipient : PrincipalData) (amount : Z)
| WithdrawNft (asset_contract : QualifiedContractIdentifier) (recipient : PrincipalData) (id : Z)
| WithdrawFt (asset_contract : QualifiedContractIdentifier) (recipient : PrincipalData) (amount : Z).

Definition withdrawal_of (event : StacksTransactionEvent) : option withdrawal :=
  match event with
  | STXEvent (STXWithdrawEvent d) => Some (WithdrawStx (sw_sender d) (sw_amount d))
  | NFTEvent (NFTWithdrawEvent d) =>
      Some (WithdrawNft (ai_contract_identifier (nw_asset_identifier d)) (nw_sender d) (nw_id d))
  | FTEvent (FTWithdrawEvent d) =>
      Some (WithdrawFt (ai_contract_identifier (fw_asset_identifier d)) (fw_sender d) (fw_amount d))
  | _ => None
  end.

Definition withdrawals_of (evs : list StacksTransactionEvent) : list withdrawal := omap withdrawal_of evs.

(** The withdrawals of a block, in the order of the receipts and their events. *)
Definition withdrawals {K : LibSecp256k1} {A : Type} (tx_receipts : list (StacksTransactionReceipt A)) : list withdrawal :=
  flat_map (fun r => withdrawals_of (events r)) tx_receipts.

Definition withdrawal_wf (w : withdrawal) : Prop :=
  match w with
  | WithdrawStx p n => PrincipalData_wf p = true /\ in_ty u128_ty n = true
  | WithdrawNft c p n | WithdrawFt c p n =>
      QualifiedContractIdentifier_wf c = true /\ PrincipalData_wf p = true /\ in_ty u128_ty n = true
  end.

(** The fields of a key, in the order of the map. *)
Definition key_fields (w : withdrawal) (id height : Z) : list (string * Value) :=
  let ascii s := VSequence (SeqString (CharASCII (as_bytes s))) in
  match w with
  | WithdrawStx p n =>
      [("amount", VUInt n); ("height", VUInt height); ("recipient", VPrincipal p);
       ("type", ascii "stx"); ("withdrawal-id", VUInt id)]%string
  | WithdrawNft c p n =>
      [("asset-contract", VPrincipal (Contract c)); ("height", VUInt height); ("nft-id", VUInt n);
       ("recipient", VPrincipal p); ("type", ascii "nft"); ("withdrawal-id", VUInt id)]%string
  | WithdrawFt c p n =>
      [("amount", VUInt n); ("asset-contract", VPrincipal (Contract c)); ("height", VUInt height);
       ("recipient", VPrincipal p); ("type", ascii "ft"); ("withdrawal-id", VUInt id)]%string
  end.

Definition key_type (w : withdrawal) : TupleTypeSignature :=
  let ascii n := SequenceType (StringType (ASCII n)) in
  mkTupleType
  match w with
  | WithdrawStx _ _ =>
      [("amount", UIntType); ("height", UIntType); ("recipient", PrincipalType);
       ("type", ascii 3); ("withdrawal-id", UIntType)]%string
  | WithdrawNft _ _ _ =>
      [("asset-contract", PrincipalType); ("height", UIntType); ("nft-id", UIntType);
       ("recipient", PrincipalType); ("type", ascii 3); ("withdrawal-id", UIntType)]%string
  | WithdrawFt _ _ _ =>
      [("amount", UIntType); ("asset-contract", PrincipalType); ("height", UIntType);
       ("recipient", PrincipalType); ("type", ascii 2); ("withdrawal-id", UIntType)]%string
  end.

Definition key_value (w : withdrawal) (id height : Z) : Value :=
  VTuple (mkTupleData (key_type w) (key_fields w id height)).

Lemma stx_key_ok {E : Type} (p : PrincipalData) (id n height : Z) :
  make_key_for_stx_withdrawal (E:=E) p id n height = Ok (key_value (WithdrawStx p n) id height).
Proof. reflexivity. Qed.

Lemma nft_key_ok {E : Type} (p : PrincipalData) (id n height : Z) (a : AssetIdentifier) :
  make_key_for_nft_withdrawal (E:=E) p id a n height = Ok (key_value (WithdrawNft (ai_contract_identifier a) p n) id height).
Proof. reflexivity. Qed.

Lemma ft_key_ok {E : Type} (p : PrincipalData) (id n height : Z) (a : AssetIdentifier) :
  make_key_for_ft_withdrawal (E:=E) p id a n height = Ok (key_value (WithdrawFt (ai_contract_identifier a) p n) id height).
Proof. reflexivity. Qed.

Lemma key_wf (w : withdrawal) (id height : Z) :
  withdrawal_wf w -> in_ty u128_ty id = true -> in_ty u128_ty height = true -> Value_wf (key_value w id height) = true.
Proof.
  intros Hw Hid Hh. pose proof (from_data_wf (key_fields w id height)) as Hd.
  assert (TupleData_from_data (key_fields w id height) = Ok (mkTupleData (key_type w) (key_fields w id height))) as Hok
    by by destruct w.
  rewrite Hok in Hd. apply Hd. destruct w; simpl in Hw; destruct_and!;
    repeat (apply List.Forall_cons; [split; [reflexivity|simpl; try done]|]); apply List.Forall_nil.
Qed.

(** The bytes of the key of a withdrawal. *)
Definition key_bytes (w : withdrawal) (id height : Z) : list byte :=
  match serialize_write (key_value w id height) with Ok bs => bs | _ => [] end.

Lemma key_bytes_ok (w : withdrawal) (id height : Z) :
  withdrawal_wf w -> in_ty u128_ty id = true -> in_ty u128_ty height = true ->
  serialize_write (key_value w id height) = Ok (key_bytes w id height).
Proof.
  intros Hw Hid Hh. destruct (serialize_bound _ (key_wf w id height Hw Hid Hh)) as (bs & Hbs & _).
  unfold key_bytes. by rewrite Hbs.
Qed.

(** Keys of different withdrawals, ids or heights have different bytes. *)
Lemma key_bytes_inj (w w' : withdrawal) (id id' height height' : Z) :
  withdrawal_wf w -> withdrawal_wf w' -> in_ty u128_ty id = true -> in_ty u128_ty id' = true ->
  in_ty u128_ty height = true -> in_ty u128_ty height' = true ->
  key_bytes w id height = key_bytes w' id' height' -> w = w' /\ id = id' /\ height = height'.
Proof.
  intros Hw Hw' Hid Hid' Hh Hh' Heq.
  destruct (serialize_separates (key_value w id height) (key_value w' id' height')
    (key_bytes w id height) (key_bytes w' id' height') [] []) as [He _]; auto using key_wf, key_bytes_ok; [by rewrite Heq|].
  destruct w, w'; cbn in He; try done; repeat (apply andb_true_iff in He as [? He] || apply andb_true_iff in He as [He ?]);
    repeat match goal with
    | H : bool_decide (_ = _) = true |- _ => apply bool_decide_eq_true_1 in H
    | H : (_ =? _) = true |- _ => apply Z.eqb_eq in H
    | H : _ && _ = true |- _ => apply andb_true_iff in H as [? ?]
    end; by simplify_eq.
Qed.

(** Keys of consecutive ids from [id] on. *)
Fixpoint numbered_keys (ws : list withdrawal) (id height : Z) : list (list byte) :=
  match ws with
  | [] => []
  | w :: ws => key_bytes w id height :: numbered_keys ws (id + 1) height
  end.

Lemma numbered_keys_app (ws ws' : list withdrawal) (id height : Z) :
  numbered_keys (ws ++ ws') id height = numbered_keys ws id height ++ numbered_keys ws' (id + Z.of_nat (length ws)) height.
Proof.
  revert id. induction ws as [|w ws IH]; intros id; simpl; [by rewrite Z.add_0_r|]. rewrite IH. do 2 f_equal. f_equal. lia.
Qed.

Lemma numbered_keys_lookup (ws : list withdrawal) (id height : Z) (i : nat) :
  numbered_keys ws id height !! i = (fun w => key_bytes w (id + Z.of_nat i) height) <$> ws !! i.
Proof.
  revert id i. induction ws as [|w ws IH]; intros id [|i]; simpl; [done..|by rewrite Z.add_0_r|].
  rewrite IH. destruct (ws !! i); simpl; [|done]. do 2 f_equal. lia.
Qed.

Lemma numbered_keys_length (ws : list withdrawal) (id height : Z) : length (numbered_keys ws id height) = length ws.
Proof. revert id. induction ws as [|w ws IH]; intros id; simpl; [done|]. by rewrite IH. Qed.

(** The event with its id. *)
Definition with_id (event : StacksTransactionEvent) (id : Z) : StacksTransactionEvent :=
  match event with
  | NFTEvent (NFTWithdrawEvent d) => NFTEvent (NFTWithdrawEvent (mkNftWithdraw (nw_asset_identifier d) (nw_sender d) (nw_id d) (Some id)))
  | FTEvent (FTWithdrawEvent d) => FTEvent (FTWithdrawEvent (mkFtWithdraw (fw_asset_identifier d) (fw_sender d) (fw_amount d) (Some id)))
  | STXEvent (STXWithdrawEvent d) => STXEvent (STXWithdrawEvent (mkStxWithdraw (sw_sender d) (sw_amount d) (Some id)))
  | e => e
  end.

Lemma generate_key_ok {E : Type} (event : StacksTransactionEvent) (id height : Z) :
  generate_key_from_event (E:=E) event id height =
  Ok ((fun w => key_value w id height) <$> withdrawal_of event, with_id event id).
Proof. by destruct event as [d|[]|[]|[]]. Qed.

Lemma keys_of_events_ok {E : Type} (evs : list StacksTransactionEvent) (id height : Z) :
  Forall withdrawal_wf (withdrawals_of evs) -> 0 <= id -> id + Z.of_nat (length (withdrawals_of evs)) <= u32_max ->
  0 <= height <= u64_max ->
  exists evs', keys_of_events (E:=E) evs id height =
    Ok (numbered_keys (withdrawals_of evs) id height, evs', id + Z.of_nat (length (withdrawals_of evs))) /\
    withdrawals_of evs' = withdrawals_of evs.
Proof.
  unfold withdrawals_of. revert id. induction evs as [|e evs IH]; intros id Hwf Hid Hmax Hh.
  { exists []. simpl. by rewrite Z.add_0_r. }
  cbn [keys_of_events]. rewrite generate_key_ok. cbn [out_bind]. cbn [omap list_omap] in *.
  assert (withdrawal_of (with_id e id) = withdrawal_of e) as Hsame by by destruct e as [d|[]|[]|[]].
  destruct (withdrawal_of e) as [w|] eqn:Hw; cbn [fmap option_fmap option_map].
  - apply Forall_cons_1 in Hwf as [Hw1 Hwf]. cbn [length] in Hmax. unfold checked_add.
    rewrite checked_ok by (simpl; lia). cbn [expect_some out_bind]. unfold convert_withdrawal_key_to_bytes.
    rewrite key_bytes_ok; [|done|apply in_ty_spec; unfold u32_max, u64_max in *; simpl; unfold u128_max; lia..].
    cbn [expect out_bind]. destruct (IH (id + 1) Hwf ltac:(lia) ltac:(lia) Hh) as (evs' & -> & Hevs').
    exists (with_id e id :: evs'). cbn [out_bind numbered_keys length omap list_omap]. rewrite Hsame.
    split; [do 2 f_equal; lia|by rewrite Hevs'].
  - destruct (IH id Hwf Hid Hmax Hh) as (evs' & -> & Hevs'). exists (with_id e id :: evs').
    cbn [out_bind omap list_omap]. by rewrite Hsame.
Qed.

Lemma keys_of_receipts_ok {K : LibSecp256k1} {A E : Type} (rs : list (StacksTransactionReceipt A)) (id height : Z) :
  Forall withdrawal_wf (withdrawals rs) -> 0 <= id -> id + Z.of_nat (length (withdrawals rs)) <= u32_max ->
  0 <= height <= u64_max ->
  exists rs', keys_of_receipts (E:=E) rs id height = Ok (numbered_keys (withdrawals rs) id height, rs') /\
    withdrawals rs' = withdrawals rs.
Proof.
  unfold withdrawals. revert id. induction rs as [|r rs IH]; intros id Hwf Hid Hmax Hh; [by exists []|].
  cbn [keys_of_receipts flat_map] in *. apply Forall_app in Hwf as [Hr Hwf]. rewrite length_app in Hmax.
  destruct (keys_of_events_ok (E:=E) (events r) id height Hr Hid ltac:(lia) Hh) as (evs' & -> & Hevs). cbn [out_bind].
  destruct (IH (id + Z.of_nat (length (withdrawals_of (events r)))) Hwf ltac:(lia) ltac:(lia) Hh) as (rs' & -> & Hrs).
  eexists. cbn [out_bind]. rewrite numbered_keys_app. split; [done|]. cbn [flat_map events set_events]. by rewrite Hevs, Hrs.
Qed.

(** Withdrawals are numbered in order and never confused.  For receipts
    whose withdraw events are well-formed and fewer than [u32::MAX],
    [generate_withdrawal_keys] does not panic; the [i]-th withdraw event of the
    block yields exactly the serialization of its key with withdrawal id [i];
    the keys are pairwise different; and a key of this block is the key of
    another withdrawal, id and height only if they are the same. *)
Lemma withdrawal_keys_numbered {K : LibSecp256k1} {A : Type} (rs : list (StacksTransactionReceipt A)) (height : Z) :
  Forall withdrawal_wf (withdrawals rs) -> Z.of_nat (length (withdrawals rs)) <= u32_max -> 0 <= height <= u64_max ->
  exists items rs', generate_withdrawal_keys (E:=VmError) rs height = Ok (items, rs') /\
    withdrawals rs' = withdrawals rs /\ length items = length (withdrawals rs) /\
    (forall i w, withdrawals rs !! i = Some w ->
       exists bs, items !! i = Some bs /\ serialize_write (key_value w (Z.of_nat i) height) = Ok bs) /\
    NoDup items /\
    (forall i bs w id height', items !! i = Some bs -> withdrawal_wf w -> 0 <= id <= u32_max -> 0 <= height' <= u64_max ->
       serialize_write (key_value w id height') = Ok bs ->
       withdrawals rs !! i = Some w /\ id = Z.of_nat i /\ height' = height).
Proof.
  intros Hwf Hmax Hh. destruct (keys_of_receipts_ok (E:=VmError) rs 0 height Hwf ltac:(lia) ltac:(lia) Hh) as (rs' & Hk & Hrs).
  exists (numbered_keys (withdrawals rs) 0 height), rs'. split; [exact Hk|]. split; [done|].
  assert (forall i w, withdrawals rs !! i = Some w -> withdrawal_wf w /\ in_ty u128_ty (Z.of_nat i) = true) as Hi.
  { intros i w Hw. split; [by apply (Forall_lookup_1 _ _ _ _ Hwf Hw)|].
    apply lookup_lt_Some in Hw. apply in_ty_spec. unfold u32_max in *. simpl. unfold u128_max. lia. }
  assert (in_ty u128_ty height = true) as Hh' by (apply in_ty_spec; unfold u64_max in *; simpl; unfold u128_max; lia).
  split; [apply numbered_keys_length|]. split.
  { intros i w Hw. destruct (Hi i w Hw) as [Hw1 Hi1]. exists (key_bytes w (Z.of_nat i) height).
    rewrite numbered_keys_lookup, Hw. split; [done|]. by apply key_bytes_ok. }
  assert (forall i bs, numbered_keys (withdrawals rs) 0 height !! i = Some bs ->
    exists w, withdrawals rs !! i = Some w /\ bs = key_bytes w (Z.of_nat i) height) as Hat.
  { intros i bs. rewrite numbered_keys_lookup. destruct (withdrawals rs !! i) as [w|]; [|done].
    intros [= <-]. by exists w. }
  split.
  - apply NoDup_alt. intros i j bs (w & Ei & ->)%Hat (w' & Ej & Heq)%Hat.
    destruct (Hi i w Ei) as [Hw1 Hi1]. destruct (Hi j w' Ej) as [Hw2 Hi2].
    apply key_bytes_inj in Heq as (_ & Heq & _); [lia|done..].
  - intros i bs w id height' (w' & Ei & ->)%Hat Hw Hid Hhe Hser. destruct (Hi i w' Ei) as [Hw1 Hi1].
    assert (in_ty u128_ty id = true) as Hid' by (apply in_ty_spec; unfold u32_max in *; simpl; unfold u128_max; lia).
    assert (in_ty u128_ty height' = true) as Hhe' by (apply in_ty_spec; unfold u64_max in *; simpl; unfold u128_max; lia).
    rewrite key_bytes_ok in Hser by done. apply (inj Ok) in Hser.
    apply key_bytes_inj in Hser as (-> & -> & ->); done.
Qed.



(** * Instances *)
Definition sample_events : list StacksTransactionEvent :=
  [STXEvent (STXBurnEvent (Standard (mkStandard x16 (repeat x07 20))) 3);
   STXEvent (STXWithdrawEvent (mkStxWithdraw (Standard (mkStandard x16 (repeat x07 20))) 100 None))].

Lemma sample_events_wf : Forall withdrawal_wf (withdrawals_of sample_events).
Proof. repeat constructor. Qed.

Lemma withdrawal_keys_numbered_witness :
  exists items rs', generate_withdrawal_keys (E:=VmError) [from_contract_call (A:=unit) sample_tx sample_events (VBool true) 0 ExecutionCost_zero] 5 = Ok (items, rs') /\
    NoDup items.
Proof.
  destruct (withdrawal_keys_numbered [from_contract_call (A:=unit) sample_tx sample_events (VBool true) 0 ExecutionCost_zero] 5) as (items & rs' & Hg & _ & _ & _ & Hnd & _).
  - exact sample_events_wf.
  - vm_compute. discriminate.
  - vm_compute. split; discriminate.
  - by exists items, rs'.
Defined.


