(* ===== verification/BlockProcessing.v ===== *)
(** BlockProcessing: how the node processes a block (src/chainstate/stacks/db/blocks.rs,
    with [ClarityTx] of db/mod.rs): deposits from the main chain, the transactions of
    microblocks and of the block, the rewards that mature, and the comparison of the
    resulting state and withdrawals with what the header claims.

    The root of the state index is an interface, [StateIndex]. *)
From Stdlib Require Import ZArith Lia Strings.Byte Strings.String List Bool.
From stdpp Require Import base decidable list strings option gmap pretty.
From S2P Require Import Prelude Bytes Codec Representations BTree Types Signatures Admission Values.
From S2P Require Import Serialization AssetMap Hashes Merkle Keys Natives C32 Principals BackingStore RollbackWrapper RollbackRefinement.
From S2P Require Import Events GlobalContext ClarityDb ClarityState StxBalance Costs Contexts Callables Assets Machine Specials.
From S2P Require Import TypeRepr DataNatives Interpreter Define Lexer Ast PostConditions Transaction Authorization Receipts Blocks.
From S2P Require Import Connection Processing Rewards Withdrawal.
Open Scope Z_scope.

(** * Operations from the main chain *)
Record DepositStxOp := mkDepositStx {
  stx_txid : list byte;
  stx_burn_header_hash : list byte;
  stx_amount : Z;
  stx_sender : PrincipalData
}.
Record DepositFtOp := mkDepositFt {
  ft_txid : list byte;
  ft_burn_header_hash : list byte;
  ft_l1_contract_id : QualifiedContractIdentifier;
  ft_subnet_contract_id : QualifiedContractIdentifier;
  ft_subnet_function_name : string;
  ft_name : string;
  ft_amount : Z;
  ft_sender : PrincipalData
}.
Record DepositNftOp := mkDepositNft {
  nft_txid : list byte;
  nft_burn_header_hash : list byte;
  nft_l1_contract_id : QualifiedContractIdentifier;
  nft_subnet_contract_id : QualifiedContractIdentifier;
  nft_subnet_function_name : string;
  nft_id : Z;
  nft_sender : PrincipalData
}.
Record TransferStxOp := mkTransferStx {
  transfer_sender : StacksAddress;
  transfer_recipient : StacksAddress;
  transfered_ustx : Z;
  transfer_memo : list byte;
  transfer_txid : list byte;
  vtxindex : Z;
  transfer_block_height : Z;
  transfer_burn_header_hash : list byte
}.

(** [sort_by_key], which is stable. *)
Fixpoint insert_by_key {A : Type} (key : A -> Z) (x : A) (l : list A) : list A :=
  match l with
  | [] => [x]
  | y :: l => if key x <? key y then x :: y :: l else y :: insert_by_key key x l
  end.
Definition sort_by_key {A : Type} (key : A -> Z) (l : list A) : list A :=
  fold_left (fun sorted x => insert_by_key key x sorted) l [].

(** [TrieHash] of the store, once everything is written. *)
Class StateIndex (S : Type) := { seal : S -> S * list byte }.

Section processing.
Context {O : HashOrder} {D : Digests} {DL : DigestLaws D} {J : SerdeJson} {N : HeadersDB} {Q : IntegerSquareRoot}.
Context {K : LibSecp256k1} {V : Ed25519} {Y : Layout}.
Context {C S T : Type} `{Sqlite C} `{!ClarityBackingStore C S} `{!CostTracker T} `{!Host S T}.
Context `{!TotalCost T} `{!Analyzer S T} `{!StateIndex S}.
Context (no_fuel : CallableType -> list SymbolicExpression -> Environment -> LocalContext -> M (S:=S) (T:=T) Value) (fuel : nat).
Notation W := (RollbackWrapper S).
Notation Block := (ClarityBlockConnection S T).
Notation Conn := (ClarityTransactionConnection S T).
Notation Receipt := (StacksTransactionReceipt ContractAnalysis).

(** ** [ClarityTx] *)
Definition with_temporary_cost_tracker {E R : Type} (self : Block) (new_tracker : T) (todo : Block -> outcome E (Block * R))
  : outcome E (Block * (R * T)) :=
  let? '(self, original_tracker) := set_cost_tracker self new_tracker in
  let? '(self, result) := todo self in
  let? '(self, new_tracker) := set_cost_tracker self original_tracker in
  Ok (self, (result, new_tracker)).

(** A [Result] of the transaction, which is committed either way. *)
Definition as_transaction_result {E R : Type} (self : Block) (todo : Conn -> outcome (Conn * ClarityError) (Conn * R))
  : outcome E (Block * (ClarityError + R)) :=
  as_transaction self (fun tx => attempt_call (todo tx)).

Definition tx_increment_liquid_supply {E : Type} (self : Block) (incr_by : Z) : outcome E Block :=
  let? '(self, r) := as_transaction_result self (fun tx => with_clarity_db tx (fun db =>
    match increment_ustx_liquid_supply db incr_by with
    | Ok db => Ok (db, tt)
    | Err e => Err (db, ClarityError_from_interpreter e)
    | Panic => Panic
    end)) in
  match r with inr _ => Ok self | inl _ => Panic end.

(** A receipt of an operation of the main chain. *)
Definition burn_receipt (txid : list byte) (events : list StacksTransactionEvent) (result : Value) (cost : ExecutionCost) : Receipt :=
  mkReceipt (OriginBurn txid) events false result 0 None cost None 0.

(** The receipts of operations that are processed one after the other; [None] is none. *)
Fixpoint filter_map_ops {E A : Type} (step : Block -> A -> outcome E (Block * option Receipt)) (clarity_tx : Block) (ops : list A)
  : outcome E (Block * list Receipt) :=
  match ops with
  | [] => Ok (clarity_tx, [])
  | op :: ops =>
      let? '(clarity_tx, r) := step clarity_tx op in
      let? '(clarity_tx, rs) := filter_map_ops step clarity_tx ops in
      Ok (clarity_tx, match r with Some r => r :: rs | None => rs end)
  end.

(** ** Deposits and transfers *)
Definition address_principal (a : StacksAddress) : PrincipalData := Standard (mkStandard (sa_version a) (sa_bytes a)).

Definition transfer_op {E : Type} (clarity_tx : Block) (op : TransferStxOp) : outcome E (Block * option Receipt) :=
  let? '(clarity_tx, result) := as_transaction_result clarity_tx (fun tx =>
    run_stx_transfer tx (address_principal (transfer_sender op)) (address_principal (transfer_recipient op)) (transfered_ustx op)) in
  match result with
  | inr (value, _, events) => Ok (clarity_tx, Some (burn_receipt (transfer_txid op) events value ExecutionCost_zero))
  | inl _ => Ok (clarity_tx, None)
  end.
Definition process_transfer_ops {E : Type} (clarity_tx : Block) (operations : list TransferStxOp) : outcome E (Block * list Receipt) :=
  let operations := sort_by_key vtxindex operations in
  let? '(clarity_tx, (all_receipts, _)) := with_temporary_cost_tracker clarity_tx tracker_free (fun clarity_tx =>
    filter_map_ops transfer_op clarity_tx operations) in
  Ok (clarity_tx, all_receipts).

(** The account is credited with [amount as u64]. *)
Definition deposit_stx_op {E : Type} (clarity_tx : Block) (op : DepositStxOp) : outcome E (Block * option Receipt) :=
  let? '(clarity_tx, result) := as_transaction clarity_tx (fun tx =>
    let? tx := account_credit tx (stx_sender op) (as_u64 (stx_amount op)) in
    Ok (tx, STXEvent (STXMintEvent (stx_sender op) (stx_amount op)))) in
  let? clarity_tx := tx_increment_liquid_supply clarity_tx (stx_amount op) in
  Ok (clarity_tx, Some (burn_receipt (stx_txid op) [result] Value_okay_true ExecutionCost_zero)).
Definition process_deposit_stx_ops {E : Type} (clarity_tx : Block) (operations : list DepositStxOp) : outcome E (Block * list Receipt) :=
  let? '(clarity_tx, (all_receipts, _)) := with_temporary_cost_tracker clarity_tx tracker_free (fun clarity_tx =>
    filter_map_ops deposit_stx_op clarity_tx operations) in
  Ok (clarity_tx, all_receipts).

(** A call of the subnet contract on behalf of the depositor. *)
Definition deposit_call {E : Type} (cost_so_far : ExecutionCost) (clarity_tx : Block) (txid : list byte) (sender : PrincipalData)
    (contract : QualifiedContractIdentifier) (function_name : string) (args : list Value) : outcome E (Block * option Receipt) :=
  let? '(clarity_tx, result) := as_transaction_result clarity_tx (fun tx =>
    run_contract_call no_fuel fuel tx sender contract function_name args (fun _ => Ok false)) in
  let? execution_cost := expect (ExecutionCost_sub (block_cost_so_far clarity_tx) cost_so_far) in
  match result with
  | inr (value, _, events) => Ok (clarity_tx, Some (burn_receipt txid events value execution_cost))
  | inl _ => Ok (clarity_tx, None)
  end.
Definition process_deposit_ft_ops {E : Type} (clarity_tx : Block) (operations : list DepositFtOp) : outcome E (Block * list Receipt) :=
  let cost_so_far := block_cost_so_far clarity_tx in
  filter_map_ops (fun clarity_tx op =>
    deposit_call cost_so_far clarity_tx (ft_txid op) (ft_sender op) (ft_subnet_contract_id op) (ft_subnet_function_name op)
      [VUInt (ft_amount op); VPrincipal (ft_sender op)]) clarity_tx operations.
Definition process_deposit_nft_ops {E : Type} (clarity_tx : Block) (operations : list DepositNftOp) : outcome E (Block * list Receipt) :=
  let cost_so_far := block_cost_so_far clarity_tx in
  filter_map_ops (fun clarity_tx op =>
    deposit_call cost_so_far clarity_tx (nft_txid op) (nft_sender op) (nft_subnet_contract_id op) (nft_subnet_function_name op)
      [VUInt (nft_id op); VPrincipal (nft_sender op)]) clarity_tx operations.

(** ** Transactions *)
Definition set_tx_index (self : Receipt) (i : Z) : Receipt :=
  mkReceipt (transaction self) (events self) (post_condition_aborted self) (result self) (stx_burned self)
    (contract_analysis self) (execution_cost self) (microblock_header self) i.
Definition set_microblock_header (self : Receipt) (h : StacksMicroblockHeader) : Receipt :=
  mkReceipt (transaction self) (events self) (post_condition_aborted self) (result self) (stx_burned self)
    (contract_analysis self) (execution_cost self) (Some h) (tx_index self).

Context (config : DBConfig).

(** [(fees, burns, receipts)] so far *)
Notation totals := (Z * Z * list Receipt)%type.
Definition block_transaction_step (acc : Block * totals * Z) (tx : StacksTransaction)
  : outcome (Block * chainstate_error) (Block * totals * Z) :=
  let '(clarity_tx, (fees, burns, receipts), tx_index) := acc in
  let? '(clarity_tx, (tx_fee, tx_receipt)) := process_transaction no_fuel fuel config clarity_tx tx false in
  let? fees := add_u128 fees tx_fee in
  let tx_receipt := set_tx_index tx_receipt tx_index in
  let? burns := add_u128 burns (stx_burned tx_receipt) in
  let? tx_index := expect_some (checked_add u32_ty tx_index 1) in
  Ok (clarity_tx, (fees, burns, receipts ++ [tx_receipt]), tx_index).
Definition process_block_transactions (clarity_tx : Block) (block : StacksBlock) (tx_index : Z)
  : outcome (Block * chainstate_error) (Block * totals) :=
  let? '(clarity_tx, t, _) := try_fold block_transaction_step (clarity_tx, (0, 0, []), tx_index) (block_txs block) in
  Ok (clarity_tx, t).

(** [tx_index as u32] of a counter of type [usize]. *)
Definition microblock_transaction_step (microblock : StacksMicroblock) (acc : Block * totals * Z) (tx : StacksTransaction)
  : outcome (Block * (chainstate_error * list byte)) (Block * totals * Z) :=
  let '(clarity_tx, (fees, burns, receipts), tx_index) := acc in
  let? hash := microblock_hash microblock in
  let? '(clarity_tx, (tx_fee, tx_receipt)) := map_err (fun '(b, e) => (b, (e, hash)))
    (process_transaction no_fuel fuel config clarity_tx tx false) in
  let tx_receipt := set_tx_index (set_microblock_header tx_receipt (mb_header microblock)) (as_u32 tx_index) in
  let? fees := add_u128 fees tx_fee in
  let? burns := add_u128 burns (stx_burned tx_receipt) in
  Ok (clarity_tx, (fees, burns, receipts ++ [tx_receipt]), tx_index + 1).
Definition microblock_step (acc : Block * totals) (microblock : StacksMicroblock)
  : outcome (Block * (chainstate_error * list byte)) (Block * totals) :=
  let? '(clarity_tx, t, _) := try_fold (microblock_transaction_step microblock) (fst acc, snd acc, 0) (mb_txs microblock) in
  Ok (clarity_tx, t).
Definition process_microblocks_transactions (clarity_tx : Block) (microblocks : list StacksMicroblock)
  : outcome (Block * (chainstate_error * list byte)) (Block * totals) :=
  try_fold microblock_step (clarity_tx, (0, 0, [])) microblocks.

(** ** Rewards and unlocks *)
Definition process_matured_miner_reward {E : Type} (clarity_tx : Block) (miner_reward : MinerReward)
  : outcome E (Block * (chainstate_error + unit)) :=
  let? miner_reward_total := reward_total miner_reward in
  let? '(clarity_tx, r) := as_transaction_result clarity_tx (fun x => with_clarity_db x (fun db => always_ok
    (let miner_principal := address_principal (reward_address miner_reward) in
     let? height := get_current_burnchain_block_height db in
     let? snapshot := get_stx_balance_snapshot db height miner_principal in
     let? snapshot := credit snapshot miner_reward_total in
     let? _ := get_available_balance snapshot in
     let? db := save snapshot db in
     Ok (db, tt)))) in
  Ok (clarity_tx, match r with inr _ => inr tt | inl e => inl (ClarityErr e) end).

(** [?] on the reward: the block is left as it is. *)
Definition grant_reward (clarity_tx : Block) (miner_reward : MinerReward) : outcome (Block * chainstate_error) Block :=
  let? '(clarity_tx, r) := process_matured_miner_reward clarity_tx miner_reward in
  match r with inr _ => Ok clarity_tx | inl e => Err (clarity_tx, e) end.
Definition grant_user_reward (acc : Block * Z) (reward : MinerReward) : outcome (Block * chainstate_error) (Block * Z) :=
  let '(clarity_tx, coinbase_reward) := acc in
  let? coinbase_reward := add_u128 coinbase_reward (reward_coinbase reward) in
  let? clarity_tx := grant_reward clarity_tx reward in
  Ok (clarity_tx, coinbase_reward).
Definition process_matured_miner_rewards (clarity_tx : Block) (miner_share : MinerReward) (users_share : list MinerReward)
    (parent_share : MinerReward) : outcome (Block * chainstate_error) (Block * Z) :=
  let coinbase_reward := reward_coinbase miner_share in
  let? clarity_tx := grant_reward clarity_tx miner_share in
  let? '(clarity_tx, coinbase_reward) := try_fold grant_user_reward (clarity_tx, coinbase_reward) users_share in
  let? parent_total := reward_total parent_share in
  if negb (parent_total =? tx_fees_streamed_produced parent_share) then Panic else
  let? clarity_tx := grant_reward clarity_tx parent_share in
  Ok (clarity_tx, coinbase_reward).

Definition boot_code_addr (mainnet : bool) : StacksAddress := StacksAddress_burn_address mainnet.
Definition boot_code_id {E : Type} (name : string) (mainnet : bool) : outcome E QualifiedContractIdentifier :=
  let? name := expect (ContractName_try_from name) in
  Ok (mkContractId (mkStandard (sa_version (boot_code_addr mainnet)) (sa_bytes (boot_code_addr mainnet))) name).

(** One entry of the lockup schedule. *)
Definition unlock_entry {E : Type} (acc : Conn * (Z * list StacksTransactionEvent)) (entry : Value)
  : outcome E (Conn * (Z * list StacksTransactionEvent)) :=
  let '(tx_connection, (total_minted, events)) := acc in
  let? schedule := expect_tuple entry in
  let? amount := expect (TupleData_get schedule "amount") in
  let? amount := expect_u128 amount in
  let? recipient := expect (TupleData_get schedule "recipient") in
  let? recipient := expect_principal recipient in
  let? total_minted := add_u128 total_minted amount in
  let? tx_connection := account_credit tx_connection recipient (as_u64 amount) in
  Ok (tx_connection, (total_minted, events ++ [STXEvent (STXMintEvent recipient amount)])).
Definition unlock_in_connection (lockup_contract_id : QualifiedContractIdentifier) (tx_connection : Conn)
  : outcome (Conn * ClarityError) (Conn * (Z * list StacksTransactionEvent)) :=
  let? '(tx_connection, result) := with_clarity_db tx_connection (fun db =>
    match (let? height := db_current_block_height db in
           fetch_entry_unknown_descriptor db lockup_contract_id "lockups" (VUInt height)) with
    | Ok res => Ok (db, res)
    | Err e => Err (db, ClarityError_from_interpreter e)
    | Panic => Panic
    end) in
  match result with
  | VOptional (Some (VSequence (SeqList entries))) => try_fold unlock_entry (tx_connection, (0, [])) (ld_data entries)
  | _ => Ok (tx_connection, (0, []))
  end.
Definition process_stx_unlocks (clarity_tx : Block) : outcome (Block * chainstate_error) (Block * (Z * list StacksTransactionEvent)) :=
  let? lockup_contract_id := boot_code_id "lockup" (config_mainnet config) in
  let? '(clarity_tx, r) := as_transaction_result clarity_tx (unlock_in_connection lockup_contract_id) in
  match r with inr x => Ok (clarity_tx, x) | inl e => Err (clarity_tx, ClarityErr e) end.

(** ** Microblock keys *)
Definition insert_microblock_pubkey_hash {E : Type} (clarity_tx : Block) (height : Z) (mblock_pubkey_hash : list byte) : outcome E Block :=
  let? '(clarity_tx, r) := as_transaction_result clarity_tx (fun tx => with_clarity_db tx (fun db => always_ok
    (let? db := insert_microblock_pubkey_hash_height db mblock_pubkey_hash height in
     Ok (db, tt)))) in
  match r with inr _ => Ok clarity_tx | inl _ => Panic end.
Definition has_microblock_pubkey_hash {E : Type} (clarity_tx : Block) (mblock_pubkey_hash : list byte) : outcome E (option Z) :=
  block_with_clarity_db_readonly clarity_tx (fun db => get_microblock_pubkey_hash_height db mblock_pubkey_hash).

(** ** The block *)
Definition finish_block (clarity_tx : Block) (miner_payouts : option (MinerReward * list MinerReward * MinerReward))
    (block_height : Z) (mblock_pubkey_hash : list byte) : outcome (Block * chainstate_error) (Block * list StacksTransactionEvent) :=
  let? clarity_tx :=
    match miner_payouts with
    | Some (miner_reward, user_rewards, parent_reward) =>
        let? '(clarity_tx, matured_ustx) := process_matured_miner_rewards clarity_tx miner_reward user_rewards parent_reward in
        tx_increment_liquid_supply clarity_tx matured_ustx
    | None => Ok clarity_tx
    end in
  let? '(clarity_tx, (new_unlocked_ustx, lockup_events)) := process_stx_unlocks clarity_tx in
  let? clarity_tx := tx_increment_liquid_supply clarity_tx new_unlocked_ustx in
  let? clarity_tx := insert_microblock_pubkey_hash clarity_tx block_height mblock_pubkey_hash in
  Ok (clarity_tx, lockup_events).

(** What [setup_block] does for deposits. *)
Definition process_deposits {E : Type} (clarity_tx : Block) (deposit_stx_ops : list DepositStxOp) (deposit_ft_ops : list DepositFtOp)
    (deposit_nft_ops : list DepositNftOp) : outcome E (Block * list Receipt) :=
  let? '(clarity_tx, stx) := process_deposit_stx_ops clarity_tx deposit_stx_ops in
  let? '(clarity_tx, ft) := process_deposit_ft_ops clarity_tx deposit_ft_ops in
  let? '(clarity_tx, nft) := process_deposit_nft_ops clarity_tx deposit_nft_ops in
  Ok (clarity_tx, stx ++ ft ++ nft).

(** Lockup events go to the first receipt, if it is a coinbase's. *)
Definition attach_lockup_events (tx_receipts : list Receipt) (lockup_events : list StacksTransactionEvent) : list Receipt :=
  match lockup_events, tx_receipts with
  | _ :: _, receipt :: tx_receipts =>
      (if is_coinbase_tx receipt then set_events receipt (events receipt ++ lockup_events) else receipt) :: tx_receipts
  | _, _ => tx_receipts
  end.

(** The rewards for the receipt, and those that are paid: [Vec::append] empties [user_rewards]. *)
Definition split_rewards (matured : option (MinerReward * list MinerReward * MinerReward * MinerRewardInfo))
  : list MinerReward * option MinerRewardInfo * option (MinerReward * list MinerReward * MinerReward) :=
  match matured with
  | Some (miner_reward, user_rewards, parent_reward, reward_ptr) =>
      (miner_reward :: user_rewards ++ [parent_reward], Some reward_ptr, Some (miner_reward, [], parent_reward))
  | None => ([], None, None)
  end.

(** [Debug] of errors *)
Context (debug_error : chainstate_error -> string).
Definition invalid_block {A : Type} (msg : string) : outcome chainstate_error A := Err (InvalidStacksBlock msg).

(** [append_block] from its set-up to the check of the roots; on an error the block is rolled back. *)
Definition append_block_checked (chain_tip_consensus_hash : list byte) (clarity_tx : Block) (tx_receipts microblock_txs_receipts : list Receipt)
    (microblock_burns : Z) (matured : option (MinerReward * list MinerReward * MinerReward * MinerRewardInfo)) (block : StacksBlock)
  : outcome chainstate_error (Block * (Z * Z * ExecutionCost * list Receipt * MerkleTree Sha512Trunc256Sum)) :=
  let? hash := block_hash block in
  let header := block_header block in
  let pubkey_hash := microblock_pubkey_hash header in
  let? used := has_microblock_pubkey_hash clarity_tx pubkey_hash in
  match used with
  | Some height =>
      invalid_block ("Invalid stacks block " ++ to_hex chain_tip_consensus_hash ++ "/" ++ to_hex hash
        ++ " -- already used microblock pubkey hash " ++ to_hex pubkey_hash ++ " at height " ++ pretty height)
  | None =>
      match process_block_transactions clarity_tx block (as_u32 (Z.of_nat (length microblock_txs_receipts))) with
      | Panic => Panic
      | Err (_, e) => invalid_block ("Invalid Stacks block " ++ to_hex hash ++ ": " ++ debug_error e)
      | Ok (clarity_tx, (block_fees, block_burns, txs_receipts)) =>
          let tx_receipts := tx_receipts ++ txs_receipts in
          let block_cost := block_cost_so_far clarity_tx in
          let '(_, _, miner_payouts_opt) := split_rewards matured in
          let? total_burnt := add_u128 block_burns microblock_burns in
          let? '(clarity_tx, lockup_events) := map_err snd
            (finish_block clarity_tx miner_payouts_opt (as_u32 (work (total_work header))) pubkey_hash) in
          let tx_receipts := attach_lockup_events tx_receipts lockup_events ++ microblock_txs_receipts in
          let '(store, root_hash) := seal (datastore clarity_tx) in
          let clarity_tx := mkBlockConnection store (block_cost_track clarity_tx) (block_mainnet clarity_tx) (block_epoch clarity_tx) in
          if negb (bool_decide (root_hash = state_index_root header)) then
            invalid_block ("Block " ++ to_hex hash ++ " state root mismatch: expected " ++ to_hex (state_index_root header)
              ++ ", got " ++ to_hex root_hash)
          else
          let? '(withdrawal_tree, tx_receipts) := create_withdrawal_merkle_tree tx_receipts (work (total_work header)) in
          let? withdrawal_tree := expect_some withdrawal_tree in
          let withdrawal_root_hash := sum_bytes (root withdrawal_tree) in
          if negb (bool_decide (withdrawal_root_hash = withdrawal_merkle_root header)) then
            invalid_block ("Block " ++ to_hex hash ++ " withdrawal root mismatch: expected " ++ to_hex withdrawal_root_hash
              ++ ", got " ++ to_hex (withdrawal_merkle_root header))
          else Ok (clarity_tx, (block_fees, total_burnt, block_cost, tx_receipts, withdrawal_tree))
      end
  end.

Definition check_block_attachment {E : Type} (parent_block_header block_header : StacksBlockHeader) : outcome E bool :=
  let? next := expect_some (checked_add u64_ty (work (total_work parent_block_header)) 1) in
  if negb (next =? work (total_work block_header)) then Ok false else
  let? hash := header_block_hash parent_block_header in
  Ok (bool_decide (hash = parent_block block_header)).
End processing.
