(* ===== verification/BlockNonces.v ===== *)
(** BlockNonces: nonces through the processing of blocks, and that no transaction is
    processed twice.

    Deposits, transfers from the main chain, rewards and unlocks leave every nonce as
    it is; a block raises the nonce of an account by the number of its transactions the
    account takes part in.  Nonces never go down, so that a nonce is used once. *)
From Stdlib Require Import ZArith Lia Strings.Byte Strings.String List Bool.
From stdpp Require Import base decidable list strings option gmap relations.
From S2P Require Import Prelude Bytes Codec Representations BTree Types Signatures Admission Values.
From S2P Require Import Serialization AssetMap Hashes Merkle Keys Natives C32 Principals BackingStore RollbackWrapper RollbackRefinement.
From S2P Require Import Events GlobalContext ClarityDb ClarityState StxBalance Costs Contexts Callables Assets Machine Specials.
From S2P Require Import TypeRepr DataNatives Interpreter Define Lexer Ast PostConditions Transaction TransactionRoundTrip Authorization Signing Receipts Blocks BlockRoundTrip.
From S2P Require Import StateLayout Discipline Respect Termination Isolation Deployment Connection ConnectionRefinement Processing Nonces.
From S2P Require Import LedgerRefinement Rewards Withdrawal BlockProcessing.
Open Scope Z_scope.

Section block_nonces.
Context {O : HashOrder} {D : Digests} {DL : DigestLaws D} {J : SerdeJson} {N : HeadersDB} {Q : IntegerSquareRoot}.
Context {K : LibSecp256k1} {V : Ed25519} {Y : Layout}.
Context {C S T : Type} `{Sqlite C} `{!ClarityBackingStore C S} `{!CostTracker T} `{!Host S T}.
Context `{!TotalCost T} `{!Analyzer S T} `{!StoreLaws C S} `{!SerdeJsonLaws J}.
Context `{!MemoryLaws T} `{!HostLaws S T} `{!BlockLaws C S}.
Context (no_fuel : CallableType -> list SymbolicExpression -> Environment -> LocalContext -> M (S:=S) (T:=T) Value).
Context (fuel : nat) (enough : (65 <= fuel)%nat).
Notation W := (RollbackWrapper S).
Notation Block := (ClarityBlockConnection S T).
Notation Conn := (ClarityTransactionConnection S T).
Notation no_frame := (mkFrame [] []).
Implicit Types (b : Block) (c : Conn) (s : S) (f : Frame) (p : PrincipalData) (tx : StacksTransaction).

(** * What leaves the nonces *)
(** No entry is lost. *)
Definition keeps_entries s s' : Prop := forall k, is_Some (contents s k) -> is_Some (contents s' k).
(** Nonces are as before, and no entry is lost. *)
Definition same_nonces b b' : Prop :=
  (forall p, nonce_in (datastore b') no_frame p = nonce_in (datastore b) no_frame p) /\ keeps_entries (datastore b) (datastore b').
#[local] Instance same_nonces_preorder : PreOrder same_nonces.
Proof. split; [by split; [|intros k]|]. intros b1 b2 b3 [H1 K1] [H2 K2]. split; [intros p; by rewrite H2|]. intros k Hk. by apply K2, K1. Qed.
Lemma same_store b b' : datastore b' = datastore b -> same_nonces b b'.
Proof. intros Hb. unfold same_nonces. rewrite Hb. by split; [|intros k]. Qed.

(** A closure of [with_clarity_db] that edits, or fails without edits. *)
Lemma edits_effect {R : Type} c s f (m : W -> outcome (W * ClarityError) (W * R)) :
  conn_at c s f -> (forall db db' r, m db = Ok (db', r) -> edits db db') -> (forall db db' e, m db = Err (db', e) -> db' = db) ->
  clean_effect s f (with_clarity_db c m).
Proof.
  intros Hc Hm He. pose proof (clarity_db_at c s f (fun g _ => frame_clean g) m Hc) as Hr.
  assert (forall db, working s f no_frame db -> match m db with
    | Ok (db', r) => exists g, working s f g db' /\ frame_clean g
    | Err (db', _) => exists g, working s f g db'
    | Panic => True end) as Hdo.
  { intros db Hw. destruct (m db) as [[db' r]|[db' e]|] eqn:Em; [| |done].
    - destruct (working_edits _ _ _ _ Hw (Hm _ _ _ Em)) as (g & ? & ?). by exists g.
    - rewrite (He _ _ _ Em). by exists no_frame. }
  specialize (Hr Hdo). destruct (with_clarity_db c m) as [[c' r]|[c' e]|]; [|done|done].
  destruct Hr as (g & Hc' & Hg). exists (frame_app f g). split; [by exists g|done].
Qed.
Lemma edits_always_ok {R : Type} c s f (m : W -> outcome VmError (W * R)) :
  conn_at c s f -> (forall db db' r, m db = Ok (db', r) -> edits db db') -> clean_effect s f (with_clarity_db c (fun db => always_ok (m db))).
Proof.
  intros Hc Hm. apply edits_effect; [done| |].
  - intros db db' r Hdb%always_ok_Ok. by eapply Hm.
  - intros db db' e Hdb. by destruct (no_err_expect (F:=W * ClarityError) (m db) (db', e)).
Qed.

Lemma as_transaction_keeps {E R : Type} b b' (todo : Conn -> outcome E (Conn * R)) r :
  (match todo (start_transaction_processing b) with
   | Ok (c, _) => exists f, grows no_frame f /\ conn_at c (datastore b) f
   | _ => True end) ->
  as_transaction b todo = Ok (b', r) -> same_nonces b b'.
Proof.
  intros Ht Ha. unfold as_transaction in Ha. apply out_bind_Ok in Ha as ([c1 r1] & Hdo & Ha). rewrite Hdo in Ht.
  destruct Ht as (f & Hg & Hc). apply out_bind_Ok in Ha as (c2 & Hcom & Ha).
  pose proof (commit_publishes_frame (E:=E) c1 _ _ Hc) as Hp. rewrite Hcom in Hp.
  unfold connection_drop in Ha. out_inv. simplify_eq. split; cbn [return_to_block datastore conn_store with_tracker].
  - intros p. rewrite (nonce_published _ _ _ _ Hp). by apply nonce_grows.
  - intros k Hk. rewrite Hp. by destruct (last_write k (writes f)).
Qed.
Lemma as_transaction_result_keeps {E R : Type} b b' (todo : Conn -> outcome (Conn * ClarityError) (Conn * R)) r :
  clean_effect (datastore b) no_frame (todo (start_transaction_processing b)) ->
  as_transaction_result (E:=E) b todo = Ok (b', r) -> same_nonces b b'.
Proof.
  intros Ht. apply as_transaction_keeps. destruct (todo _) as [[c a]|[c e]|]; [done| |done].
  by exists no_frame.
Qed.
Lemma temporary_tracker_keeps {E R : Type} b b' t (todo : Block -> outcome E (Block * R)) x :
  (forall b1 b2 r, todo b1 = Ok (b2, r) -> same_nonces b1 b2) ->
  with_temporary_cost_tracker b t todo = Ok (b', x) -> same_nonces b b'.
Proof.
  intros Ht Hw. unfold with_temporary_cost_tracker, set_cost_tracker in Hw. out_inv. simplify_eq.
  match goal with Hdo : todo _ = Ok _ |- _ => apply Ht in Hdo; exact Hdo end.
Qed.
Lemma filter_map_ops_keeps {E A : Type} (step : Block -> A -> outcome E (Block * option (StacksTransactionReceipt ContractAnalysis))) ops :
  (forall b b' op r, step b op = Ok (b', r) -> same_nonces b b') ->
  forall b b' rs, filter_map_ops step b ops = Ok (b', rs) -> same_nonces b b'.
Proof.
  intros Hs. induction ops as [|op ops IH]; intros b b' rs Hf; cbn [filter_map_ops] in Hf; [by simplify_eq|].
  out_inv. simplify_eq. etrans; [by eapply Hs|by eapply IH].
Qed.

Lemma increment_not_nonce (db db' : W) n : increment_ustx_liquid_supply db n = Ok db' -> edits db db'.
Proof. unfold increment_ustx_liquid_supply, set_ustx_liquid_supply. intros. out_inv. eapply edits_put_value; [apply liquid_not_nonce|done]. Qed.
Lemma liquid_supply_keeps {E : Type} b b' n : tx_increment_liquid_supply (E:=E) b n = Ok b' -> same_nonces b b'.
Proof.
  intros Hi. unfold tx_increment_liquid_supply in Hi. apply out_bind_Ok in Hi as ([b1 r] & Ha & Hi).
  destruct r; [done|]. simplify_eq. eapply as_transaction_result_keeps; [|exact Ha].
  apply edits_effect; [apply start_at| |].
  - intros db db' [] Hm. destruct (increment_ustx_liquid_supply db n) eqn:E1; [|done..]. simplify_eq. by eapply increment_not_nonce.
  - intros db db' e Hm. by destruct (increment_ustx_liquid_supply db n); simplify_eq.
Qed.

(** ** Deposits and transfers *)
Lemma transfers_keep {E : Type} b b' ops rs : process_transfer_ops (E:=E) b ops = Ok (b', rs) -> same_nonces b b'.
Proof using HostLaws0 MemoryLaws0 BlockLaws0 StoreLaws0.
  intros Hp. unfold process_transfer_ops in Hp. apply out_bind_Ok in Hp as ([b1 [rs1 t]] & Hp & Heq). simplify_eq.
  eapply temporary_tracker_keeps; [|exact Hp]. apply filter_map_ops_keeps.
  intros b1 b2 op r Ht. unfold transfer_op in Ht. apply out_bind_Ok in Ht as ([b3 x] & Ha & Ht).
  assert (b2 = b3) as -> by (destruct x as [|[[? ?] ?]]; by simplify_eq).
  eapply as_transaction_result_keeps; [|exact Ha]. apply run_stx_transfer_at, start_at.
Qed.
Lemma stx_deposits_keep {E : Type} b b' ops rs : process_deposit_stx_ops (E:=E) b ops = Ok (b', rs) -> same_nonces b b'.
Proof.
  intros Hp. unfold process_deposit_stx_ops in Hp. apply out_bind_Ok in Hp as ([b1 [rs1 t]] & Hp & Heq). simplify_eq.
  eapply temporary_tracker_keeps; [|exact Hp]. apply filter_map_ops_keeps.
  intros b1 b2 op r Ht. unfold deposit_stx_op in Ht. apply out_bind_Ok in Ht as ([b3 x] & Ha & Ht).
  apply out_bind_Ok in Ht as (b4 & Hi & Heq). simplify_eq. etrans; [|by eapply liquid_supply_keeps].
  eapply as_transaction_keeps; [|exact Ha].
  pose proof (account_credit_at (E:=E) _ _ _ (stx_sender op) (as_u64 (stx_amount op)) (start_at b1)) as Hc.
  cbv beta. destruct (account_credit _ _ _) as [c| |]; cbn [out_bind]; [exact Hc|done|done].
Qed.
Lemma deposit_call_keeps {E : Type} cost b b' id sender contract name args r :
  deposit_call no_fuel fuel (E:=E) cost b id sender contract name args = Ok (b', r) -> same_nonces b b'.
Proof using HostLaws0 MemoryLaws0 BlockLaws0 StoreLaws0 enough.
  intros Hp. unfold deposit_call in Hp. apply out_bind_Ok in Hp as ([b1 x] & Ha & Hp). apply out_bind_Ok in Hp as (cost' & _ & Hp).
  assert (b' = b1) as -> by (destruct x as [|[[? ?] ?]]; by simplify_eq).
  eapply as_transaction_result_keeps; [|exact Ha]. apply run_contract_call_at; [done|]. apply start_at.
Qed.
Lemma deposits_keep {E : Type} b b' stx ft nft rs : process_deposits no_fuel fuel (E:=E) b stx ft nft = Ok (b', rs) -> same_nonces b b'.
Proof using HostLaws0 MemoryLaws0 BlockLaws0 StoreLaws0 enough.
  intros Hp. unfold process_deposits in Hp. apply out_bind_Ok in Hp as ([b1 r1] & H1 & Hp). apply out_bind_Ok in Hp as ([b2 r2] & H2 & Hp).
  apply out_bind_Ok in Hp as ([b3 r3] & H3 & Hp). simplify_eq.
  transitivity b1; [exact (stx_deposits_keep _ _ _ _ H1)|].
  unfold process_deposit_ft_ops in H2. unfold process_deposit_nft_ops in H3.
  transitivity b2; [eapply filter_map_ops_keeps; [|exact H2]|eapply filter_map_ops_keeps; [|exact H3]];
    intros b4 b5 op r Hd; exact (deposit_call_keeps _ _ _ _ _ _ _ _ _ Hd).
Qed.

(** ** The end of a block *)
Lemma reward_keeps b b' r : grant_reward b r = Ok b' -> same_nonces b b'.
Proof.
  intros Hg. unfold grant_reward, process_matured_miner_reward in Hg. apply out_bind_Ok in Hg as ([b1 x] & Hg & Hx).
  apply out_bind_Ok in Hg as (total & _ & Hg). apply out_bind_Ok in Hg as ([b2 y] & Ha & Hg). simplify_eq.
  assert (b' = b1) as -> by (destruct y; by simplify_eq).
  eapply as_transaction_result_keeps; [|exact Ha]. apply edits_always_ok; [apply start_at|].
  intros db db' [] Hm. out_inv. simplify_eq. by eapply edits_save.
Qed.
Lemma user_rewards_keep us : forall b b' n n', try_fold grant_user_reward (b, n) us = Ok (b', n') -> same_nonces b b'.
Proof.
  induction us as [|u us IH]; intros b b' n n' Hf; cbn [try_fold] in Hf; [by simplify_eq|].
  apply out_bind_Ok in Hf as ([b1 n1] & Hg & Hf). unfold grant_user_reward in Hg. out_inv. simplify_eq.
  etrans; [by eapply reward_keeps|by eapply IH].
Qed.
Lemma rewards_keep b b' m us q n : process_matured_miner_rewards b m us q = Ok (b', n) -> same_nonces b b'.
Proof.
  intros Hp. unfold process_matured_miner_rewards in Hp. apply out_bind_Ok in Hp as (b1 & H1 & Hp).
  apply out_bind_Ok in Hp as ([b2 n2] & H2 & Hp). apply out_bind_Ok in Hp as (total & _ & Hp). destruct (negb _); [done|].
  apply out_bind_Ok in Hp as (b3 & H3 & Hp). simplify_eq.
  etrans; [by eapply reward_keeps|]. etrans; [by eapply user_rewards_keep|by eapply reward_keeps].
Qed.
Lemma no_err_unlock {E : Type} acc (v : Value) : no_err (unlock_entry (E:=E) (T:=T) acc v).
Proof.
  destruct acc as [c [n evs]]. unfold unlock_entry.
  repeat (apply no_err_bind; [|intros ?]);
    first [apply no_err_expect|apply no_err_expect_some|by destruct v|by match goal with x : Value |- _ => destruct x end
      |by match goal with x : prod _ _ |- _ => destruct x end|done].
Qed.
Lemma unlock_entries_at s entries : forall c f acc,
  conn_at c s f -> clean_effect s f (try_fold (unlock_entry (E:=Conn * ClarityError)) (c, acc) entries).
Proof.
  induction entries as [|v entries IH]; intros c f [n evs] Hc; cbn [try_fold]; [by exists f|].
  destruct (unlock_entry (c, (n, evs)) v) as [[c1 acc1]|x|] eqn:Eu; cbn [out_bind];
    [|by destruct (no_err_unlock (E:=Conn * ClarityError) (c, (n, evs)) v x)|done].
  unfold unlock_entry in Eu. out_inv. simplify_eq.
  match goal with Hc' : account_credit c ?a ?m = Ok c1 |- _ =>
    pose proof (account_credit_at (E:=Conn * ClarityError) c s f a m Hc) as Ha; rewrite Hc' in Ha end.
  destruct Ha as (f1 & Hg & Hc1).
  match goal with |- context [try_fold _ (c1, ?a) _] =>
    specialize (IH c1 f1 a Hc1); pose proof (no_err_try_fold (unlock_entry (E:=Conn * ClarityError)) (c1, a) entries) as Hne;
    destruct (try_fold _ (c1, a) _) as [[c2 y]|e|] end;
    [|by destruct (Hne no_err_unlock e)|done].
  destruct IH as (f2 & Hg2 & Hc2). exists f2. split; [by etrans|done].
Qed.
Lemma unlock_at s f c id : conn_at c s f -> clean_effect s f (unlock_in_connection id c).
Proof.
  intros Hc. unfold unlock_in_connection.
  match goal with |- context [with_clarity_db c ?m] =>
    assert (clean_effect s f (with_clarity_db c m)) as Hr; [|destruct (with_clarity_db c m) as [[c1 v]|[c1 e]|]] end;
    cbn [out_bind]; [|destruct Hr as (f1 & Hg & Hc1)|done|done].
  - apply edits_effect; [done| |]; intros db db' x Hm; destruct (let? _ := _ in _); simplify_eq; [apply edits_refl|done].
  - assert (forall acc entries, clean_effect s f (try_fold (unlock_entry (E:=Conn * ClarityError)) (c1, acc) entries)) as Hall.
    { intros acc entries. pose proof (unlock_entries_at s entries c1 f1 acc Hc1) as Hu.
      pose proof (no_err_try_fold (unlock_entry (E:=Conn * ClarityError)) (c1, acc) entries) as Hne.
      destruct (try_fold _ _ _) as [[c2 y]|e|]; [|by destruct (Hne no_err_unlock e)|done].
      destruct Hu as (f2 & Hg2 & Hc2). exists f2. split; [by etrans|done]. }
    repeat case_match; try (apply Hall); by exists f1.
Qed.
Lemma microblock_key_not_nonce h : ~ nonce_key (make_microblock_pubkey_height_key h).
Proof. intros [o Ho]. discriminate Ho. Qed.
Lemma finish_keeps config b b' payouts height key evs : finish_block config b payouts height key = Ok (b', evs) -> same_nonces b b'.
Proof.
  intros Hf. unfold finish_block in Hf. apply out_bind_Ok in Hf as (b1 & H1 & Hf). apply out_bind_Ok in Hf as ([b2 [n2 evs2]] & H2 & Hf).
  apply out_bind_Ok in Hf as (b3 & H3 & Hf). apply out_bind_Ok in Hf as (b4 & H4 & Hf). simplify_eq.
  transitivity b1; [|transitivity b2; [|transitivity b3; [by eapply liquid_supply_keeps|]]].
  - destruct payouts as [[[m us] q]|]; [|by simplify_eq]. apply out_bind_Ok in H1 as ([b0 n0] & H0 & H1).
    etrans; [by eapply rewards_keep|by eapply liquid_supply_keeps].
  - unfold process_stx_unlocks in H2. apply out_bind_Ok in H2 as (id & _ & H2). apply out_bind_Ok in H2 as ([b0 r] & Ha & H2).
    assert (b2 = b0) as -> by (destruct r; by simplify_eq). eapply as_transaction_result_keeps; [|exact Ha]. apply unlock_at, start_at.
  - unfold insert_microblock_pubkey_hash in H4. apply out_bind_Ok in H4 as ([b0 r] & Ha & H4).
    assert (b' = b0) as -> by (destruct r; by simplify_eq). eapply as_transaction_result_keeps; [|exact Ha].
    apply edits_always_ok; [apply start_at|]. intros db db' [] Hm. out_inv. simplify_eq.
    eapply edits_put; [apply microblock_key_not_nonce|done].
Qed.

(** * Transactions *)
(** How many of the transactions an account takes part in. *)
Definition taking_part (txs : list StacksTransaction) p : Z := Z.of_nat (length (List.filter (fun tx => touches tx p) txs)).
Lemma taking_part_app txs txs' p : taking_part (txs ++ txs') p = taking_part txs p + taking_part txs' p.
Proof. unfold taking_part. rewrite List.filter_app, length_app. lia. Qed.
Lemma taking_part_one tx p : taking_part [tx] p = if touches tx p then 1 else 0.
Proof. unfold taking_part. cbn. by destruct (touches tx p). Qed.

(** The nonces after some transactions, and the nonces those were signed for. *)
Definition all_counted s (txs : list StacksTransaction) s' : Prop :=
  (forall p, nonce_in s' no_frame p = let? n := nonce_in s no_frame p in Ok (n + taking_part txs p)) /\
  forall before tx after, txs = before ++ tx :: after ->
    nonce_in s no_frame (origin_principal tx) = Ok (origin_nonce tx - taking_part before (origin_principal tx)) /\
    nonce_in s no_frame (payer_principal tx) = Ok (payer_nonce tx - taking_part before (payer_principal tx)).
Lemma all_counted_nil s : all_counted s [] s.
Proof.
  split; [|by intros []]. intros p. unfold taking_part. cbn. destruct (nonce_in s no_frame p) as [n| |]; cbn; [by rewrite Z.add_0_r|done|done].
Qed.
Lemma shifted {E : Type} (m : outcome E Z) (k n : Z) : (let? x := m in Ok (x + k)) = Ok n -> m = Ok (n - k).
Proof. destruct m as [x| |]; cbn; [|done..]. intros [= <-]. f_equal. lia. Qed.
Lemma all_counted_snoc s txs s1 tx s2 :
  all_counted s txs s1 -> counted s1 no_frame tx s2 no_frame -> all_counted s (txs ++ [tx]) s2.
Proof.
  intros [Hn Hm] [[Ho Hq] Hc]. split.
  - intros p. rewrite Hc, Hn, taking_part_app, taking_part_one.
    destruct (nonce_in s no_frame p) as [n| |]; cbn [out_bind]; [|done..]. f_equal. destruct (touches tx p); lia.
  - intros before tx' after Heq. destruct after as [|a after _] using rev_ind.
    + apply app_inj_tail in Heq as [<- <-]. rewrite Hn in Ho, Hq. split; by apply shifted.
    + rewrite app_comm_cons, app_assoc in Heq. apply app_inj_tail in Heq as [Heq _]. by eapply Hm.
Qed.

Lemma block_transactions_at config txs : forall s0 before b t i b' t' i',
  all_counted s0 before (datastore b) ->
  try_fold (block_transaction_step no_fuel fuel config) (b, t, i) txs = Ok (b', t', i') ->
  all_counted s0 (before ++ txs) (datastore b').
Proof using enough HostLaws0 MemoryLaws0 BlockLaws0 SerdeJsonLaws0 StoreLaws0.
  induction txs as [|tx txs IH]; intros s0 before b t i b' t' i' Hb Hf; cbn [try_fold] in Hf; [simplify_eq; by rewrite app_nil_r|].
  apply out_bind_Ok in Hf as ([[b1 t1] i1] & Hs & Hf). unfold block_transaction_step in Hs. destruct t as [[fees burns] receipts].
  apply out_bind_Ok in Hs as ([b2 [fee r]] & Hp & Hs).
  pose proof (transaction_effect no_fuel fuel enough config b tx false) as He. rewrite Hp in He. destruct He as [_ He].
  out_inv. simplify_eq. rewrite cons_middle, app_assoc. eapply IH; [|exact Hf]. by eapply all_counted_snoc.
Qed.
Lemma microblock_transactions_at config mb txs : forall s0 before b t i b' t' i',
  all_counted s0 before (datastore b) ->
  try_fold (microblock_transaction_step no_fuel fuel config mb) (b, t, i) txs = Ok (b', t', i') ->
  all_counted s0 (before ++ txs) (datastore b').
Proof using enough HostLaws0 MemoryLaws0 BlockLaws0 SerdeJsonLaws0 StoreLaws0.
  induction txs as [|tx txs IH]; intros s0 before b t i b' t' i' Hb Hf; cbn [try_fold] in Hf; [simplify_eq; by rewrite app_nil_r|].
  apply out_bind_Ok in Hf as ([[b1 t1] i1] & Hs & Hf). unfold microblock_transaction_step in Hs. destruct t as [[fees burns] receipts].
  apply out_bind_Ok in Hs as (hash & _ & Hs). apply out_bind_Ok in Hs as ([b2 [fee r]] & Hp & Hs).
  pose proof (transaction_effect no_fuel fuel enough config b tx false) as He.
  destruct (process_transaction _ _ _ _ _ _) as [[b3 [fee' r']]|[]|]; [|done|done]. cbn [map_err] in Hp. simplify_eq. destruct He as [_ He].
  out_inv. simplify_eq. rewrite cons_middle, app_assoc. eapply IH; [|exact Hf]. by eapply all_counted_snoc.
Qed.
Lemma microblocks_at config mbs : forall s0 before b t b' t',
  all_counted s0 before (datastore b) ->
  try_fold (microblock_step no_fuel fuel config) (b, t) mbs = Ok (b', t') ->
  all_counted s0 (before ++ flat_map mb_txs mbs) (datastore b').
Proof using enough HostLaws0 MemoryLaws0 BlockLaws0 SerdeJsonLaws0 StoreLaws0.
  induction mbs as [|mb mbs IH]; intros s0 before b t b' t' Hb Hf; cbn [try_fold flat_map] in *; [simplify_eq; by rewrite app_nil_r|].
  apply out_bind_Ok in Hf as ([b1 t1] & Hs & Hf). unfold microblock_step in Hs. apply out_bind_Ok in Hs as ([[b2 t2] i2] & Hm & Hs).
  simplify_eq. rewrite app_assoc. eapply IH; [|exact Hf]. eapply microblock_transactions_at; [|exact Hm]. exact Hb.
Qed.

Lemma block_nonce_of {E : Type} b p n : nonce_in (datastore b) no_frame p = Ok n -> block_nonce (E:=E) b p = Ok n.
Proof. intros Hn. by rewrite block_nonce_in, Hn. Qed.
Lemma nonce_of_block {E : Type} b p n : block_nonce (E:=E) b p = Ok n -> nonce_in (datastore b) no_frame p = Ok n.
Proof. rewrite block_nonce_in. destruct (nonce_in _ _ p); cbn; congruence. Qed.
Lemma block_nonce_shift {E : Type} b b' p (g : Z -> Z) :
  nonce_in (datastore b') no_frame p = (let? n := nonce_in (datastore b) no_frame p in Ok (g n)) ->
  block_nonce (E:=E) b' p = let? n := block_nonce b p in Ok (g n).
Proof. intros Hn. rewrite !block_nonce_in, Hn. by destruct (nonce_in (datastore b) no_frame p). Qed.

Lemma transaction_keeps_entries config b tx quiet b' r :
  process_transaction no_fuel fuel config b tx quiet = Ok (b', r) -> keeps_entries (datastore b) (datastore b').
Proof using enough HostLaws0 MemoryLaws0 BlockLaws0 SerdeJsonLaws0 StoreLaws0.
  intros Hp. unfold process_transaction in Hp. apply out_bind_Ok in Hp as ([] & _ & Hp).
  pose proof (in_connection_at no_fuel fuel enough _ _ _ tx quiet (start_at b)) as H1.
  destruct (process_in_connection _ _ _ _ _) as [[c1 [fee x]]|[c1 e]|]; [| |done].
  - destruct H1 as (_ & f1 & H1 & _). apply out_bind_Ok in Hp as (c2 & Hc & Hp).
    pose proof (commit_publishes_frame (E:=Block * chainstate_error) c1 _ _ H1) as H2. rewrite Hc in H2.
    unfold connection_drop in Hp. out_inv. simplify_eq. intros k Hk. cbn [return_to_block datastore conn_store with_tracker].
    rewrite H2. by destruct (last_write k (writes f1)).
  - unfold connection_drop in Hp. by destruct (conn_cost_track c1).
Qed.

(** ** Histories *)
(** What may happen to the state of a chain, one step at a time. *)
Inductive chain_step : Block -> Block -> Prop :=
| ChainProcessed config b tx quiet b' r : process_transaction no_fuel fuel config b tx quiet = Ok (b', r) -> chain_step b b'
| ChainRefused config b tx quiet b' e : process_transaction no_fuel fuel config b tx quiet = Err (b', e) -> chain_step b b'
| ChainTransfers b ops b' rs : process_transfer_ops (E:=Empty_set) b ops = Ok (b', rs) -> chain_step b b'
| ChainDeposits b stx ft nft b' rs : process_deposits no_fuel fuel (E:=Empty_set) b stx ft nft = Ok (b', rs) -> chain_step b b'
| ChainFinished config b payouts height key b' evs : finish_block config b payouts height key = Ok (b', evs) -> chain_step b b'
| ChainTracker b t b' t' : set_cost_tracker (E:=Empty_set) b t = Ok (b', t') -> chain_step b b'.

Lemma chain_step_nonce b b' p n :
  chain_step b b' -> nonce_in (datastore b) no_frame p = Ok n -> exists n', nonce_in (datastore b') no_frame p = Ok n' /\ n <= n'.
Proof using enough HostLaws0 MemoryLaws0 BlockLaws0 SerdeJsonLaws0 StoreLaws0.
  intros Hs Hn. assert (same_nonces b b' -> exists n', nonce_in (datastore b') no_frame p = Ok n' /\ n <= n') as Hsame
    by (intros [Hb _]; exists n; by rewrite Hb).
  destruct Hs as [config b tx quiet b' [fee r] Hp|config b tx quiet b' e Hp|b ops b' rs Hp|b stx ft nft b' rs Hp
                 |config b payouts height key b' evs Hp|b t b' t' Hp].
  - pose proof (transaction_effect no_fuel fuel enough config b tx quiet) as He. rewrite Hp in He. destruct He as [_ [_ He]].
    rewrite He, Hn. cbn [out_bind]. eexists. split; [done|]. destruct (touches tx p); lia.
  - pose proof (transaction_effect no_fuel fuel enough config b tx quiet) as He. rewrite Hp in He. rewrite He. by exists n.
  - apply Hsame. by eapply transfers_keep.
  - apply Hsame. by eapply deposits_keep.
  - apply Hsame. by eapply finish_keeps.
  - apply Hsame, same_store. unfold set_cost_tracker in Hp. out_inv. by simplify_eq.
Qed.
Lemma chain_nonce b b' p n :
  rtc chain_step b b' -> nonce_in (datastore b) no_frame p = Ok n -> exists n', nonce_in (datastore b') no_frame p = Ok n' /\ n <= n'.
Proof using enough HostLaws0 MemoryLaws0 BlockLaws0 SerdeJsonLaws0 StoreLaws0.
  intros Hr. revert n. induction Hr as [b|b b1 b2 Hs _ IH]; intros n Hn; [by exists n|].
  destruct (chain_step_nonce _ _ _ _ Hs Hn) as (n1 & Hn1 & Hle). destruct (IH n1 Hn1) as (n2 & Hn2 & Hle2). exists n2. split; [done|lia].
Qed.

Lemma chain_step_entries b b' : chain_step b b' -> keeps_entries (datastore b) (datastore b').
Proof using enough HostLaws0 MemoryLaws0 BlockLaws0 SerdeJsonLaws0 StoreLaws0.
  intros [config b0 tx quiet b1 r Hp|config b0 tx quiet b1 e Hp|b0 ops b1 rs Hp|b0 stx ft nft b1 rs Hp
         |config b0 payouts height key b1 evs Hp|b0 t b1 t' Hp].
  - by eapply transaction_keeps_entries.
  - pose proof (transaction_effect no_fuel fuel enough config b0 tx quiet) as He. rewrite Hp in He. rewrite He. by intros k.
  - eapply transfers_keep. exact Hp.
  - eapply deposits_keep. exact Hp.
  - eapply finish_keeps. exact Hp.
  - apply same_store. unfold set_cost_tracker in Hp. out_inv. by simplify_eq.
Qed.
Lemma chain_entries b b' : rtc chain_step b b' -> keeps_entries (datastore b) (datastore b').
Proof using enough HostLaws0 MemoryLaws0 BlockLaws0 SerdeJsonLaws0 StoreLaws0.
  induction 1 as [b|b b1 b2 Hs _ IH]; [by intros k|]. intros k Hk. by apply IH, (chain_step_entries _ _ Hs).
Qed.

(** The transaction is signed for a nonce of an account. *)
Definition spends tx p (n : Z) : Prop :=
  (p = origin_principal tx /\ n = origin_nonce tx) \/ (p = payer_principal tx /\ n = payer_nonce tx).
Lemma spends_nonce s f tx p n : nonces_match s f tx -> spends tx p n -> nonce_in s f p = Ok n.
Proof. by intros [Ho Hq] [[-> ->]|[-> ->]]. Qed.
Lemma spends_touches tx p n : spends tx p n -> touches tx p = true.
Proof. unfold touches, same_account. intros [[-> _]|[-> _]]; rewrite String.eqb_refl; [done|by rewrite orb_true_r]. Qed.



(** C3: a nonce of an account is used once.  After a transaction was processed, and
    after any further transactions, processed or refused, deposits and transfers from
    the main chain, payments of rewards and unlocks, no transaction signed for the
    same nonce of the same account is processed, as origin or as payer; in particular
    no transaction is processed twice. *)
Theorem nonces_are_used_once config b tx quiet b1 r b2 p n :
  process_transaction no_fuel fuel config b tx quiet = Ok (b1, r) -> spends tx p n -> rtc chain_step b1 b2 ->
  forall config' tx' quiet', spends tx' p n -> forall x, process_transaction no_fuel fuel config' b2 tx' quiet' <> Ok x.
Proof using enough HostLaws0 MemoryLaws0 BlockLaws0 SerdeJsonLaws0 StoreLaws0.
  intros Hp Hs Hr config' tx' quiet' Hs' [b3 [fee' r']] Hp'.
  pose proof (transaction_effect no_fuel fuel enough config b tx quiet) as He. rewrite Hp in He. destruct r, He as (_ & Hm & Hc).
  pose proof (transaction_effect no_fuel fuel enough config' b2 tx' quiet') as He'. rewrite Hp' in He'. destruct He' as (_ & Hm' & _).
  pose proof (spends_nonce _ _ _ _ _ Hm Hs) as Hn. pose proof (spends_nonce _ _ _ _ _ Hm' Hs') as Hn'.
  specialize (Hc p). rewrite Hn, (spends_touches _ _ _ Hs) in Hc. cbn [out_bind] in Hc.
  destruct (chain_nonce _ _ _ _ Hr Hc) as (n2 & Hn2 & Hle). rewrite Hn' in Hn2. injection Hn2. lia.
Qed.
End block_nonces.

(** * A history *)
(** An analysis that accepts every contract. *)
Definition no_analysis : Analyzer (MemoryBackingStore Tables) unit := {|
  ContractAnalysis := unit;
  json_analysis := mkJson (fun _ => "null") (fun _ => Some tt);
  run_passes _ _ _ t := Ok (t, tt)
|}.
Notation toy_block := (ClarityBlockConnection (MemoryBackingStore Tables) unit).
Definition toy_no_fuel : CallableType -> list SymbolicExpression -> Environment -> LocalContext ->
  M (S:=MemoryBackingStore Tables) (T:=unit) Value := fun _ _ _ _ _ => Panic.
Definition toy_config : DBConfig := mkConfig "subnet" false 0.
Notation toy_process b tx := (process_transaction (O:=listed_order) (D:=mixing_digests) (J:=bits_json) (N:=NullHeadersDB (D:=mixing_digests))
  (Q:=Z_square_root) (K:=toy_secp256k1) (Y:=sample_layout) (Host0:=calc_host) (Analyzer0:=no_analysis)
  toy_no_fuel 65 toy_config b tx false).

Definition signed_by_toy (tx : StacksTransaction (K:=toy_secp256k1)) : StacksTransaction (K:=toy_secp256k1) :=
  match
    (let? s := signer_new (D:=mixing_digests) (Y:=sample_layout) (E:=net_error) tx in
     let? s := origin_session (D:=mixing_digests) s toy_steps in
     get_tx (E:=net_error) s)
  with
  | Ok (Some tx) => tx
  | _ => tx
  end.
(** A transfer of 1000 with a fee of 180, signed for the first nonce of an account. *)
Definition toy_payment : StacksTransaction (K:=toy_secp256k1) := Eval vm_compute in
  signed_by_toy (toy_transfer (StandardAuth (set_tx_fee (set_nonce toy_account 0) 180))).
Definition toy_origin : PrincipalData := origin_principal toy_payment.

(** The account has deposited 5000 on the main chain. *)
Definition empty_block : toy_block := mkBlockConnection (store example_db) (Some tt) false Epoch2_05.
Definition funded_block : toy_block :=
  match process_deposits (O:=listed_order) (D:=mixing_digests) (J:=bits_json) (N:=NullHeadersDB (D:=mixing_digests))
    (Q:=Z_square_root) (K:=toy_secp256k1) (Host0:=calc_host) (Analyzer0:=no_analysis) (E:=Empty_set)
    toy_no_fuel 65 empty_block [mkDepositStx (repeat x01 32) (repeat x02 32) 5000 toy_origin] [] [] with
  | Ok (b, _) => b
  | _ => empty_block
  end.
Definition paid_block : toy_block := match toy_process funded_block toy_payment with Ok (b, _) => b | _ => empty_block end.
Definition refused_block : toy_block := match toy_process paid_block toy_payment with Err (b, _) => b | _ => empty_block end.

Lemma taken_Ok {E A B : Type} (m : outcome E (A * B)) (d : A) :
  match m with Ok _ => true | _ => false end = true -> exists r, m = Ok (match m with Ok (a, _) => a | _ => d end, r).
Proof. destruct m as [[a r]| |]; [by exists r|done..]. Qed.
Lemma taken_Err {E A B : Type} (m : outcome (A * E) B) (d : A) :
  match m with Err _ => true | _ => false end = true -> exists e, m = Err (match m with Err (a, _) => a | _ => d end, e).
Proof. destruct m as [|[a e]|]; [done|by exists e|done]. Qed.
Lemma toy_processed : exists r, toy_process funded_block toy_payment = Ok (paid_block, r).
Proof. refine (taken_Ok (toy_process funded_block toy_payment) empty_block _). vm_compute. reflexivity. Qed.
Lemma toy_refused : exists e, toy_process paid_block toy_payment = Err (refused_block, e).
Proof. refine (taken_Err (toy_process paid_block toy_payment) empty_block _). vm_compute. reflexivity. Qed.


Lemma nonces_are_used_once_witness :
  (exists r, toy_process funded_block toy_payment = Ok (paid_block, r)) /\ ~ exists x, toy_process refused_block toy_payment = Ok x.
Proof.
  split; [exact toy_processed|]. intros [x Hx]. destruct toy_processed as [r Hp], toy_refused as [e He]. revert x Hx.
  eapply (nonces_are_used_once (O:=listed_order) (D:=mixing_digests) (J:=bits_json) (N:=NullHeadersDB (D:=mixing_digests))
    (Q:=Z_square_root) (K:=toy_secp256k1) (Y:=sample_layout) (Host0:=calc_host) (Analyzer0:=no_analysis) (SerdeJsonLaws0:=bits_json_laws) toy_no_fuel 65 ltac:(lia)
    toy_config funded_block toy_payment false paid_block r refused_block toy_origin 0 Hp).
  - left. split; vm_compute; reflexivity.
  - apply rtc_once. exact (ChainRefused _ _ _ _ _ _ _ _ He).
  - left. split; vm_compute; reflexivity.
Defined.

Notation toy_process_block b txs := (process_block_transactions (O:=listed_order) (D:=mixing_digests) (J:=bits_json)
  (N:=NullHeadersDB (D:=mixing_digests)) (Q:=Z_square_root) (K:=toy_secp256k1) (V:=toy_ed25519) (Y:=sample_layout) (Host0:=calc_host)
  (Analyzer0:=no_analysis) toy_no_fuel 65 toy_config b (mkBlock (block_header sample_block) txs) 0).
Definition processed_block : toy_block :=
  match toy_process_block funded_block [toy_payment] with Ok (b, _) => b | _ => empty_block end.
Lemma toy_block_processed : exists t, toy_process_block funded_block [toy_payment] = Ok (processed_block, t).
Proof. refine (taken_Ok (toy_process_block funded_block [toy_payment]) empty_block _). vm_compute. reflexivity. Qed.
