(* ===== verification/BlockAcceptance.v ===== *)
(** BlockAcceptance: what it means that a block was appended
    ([append_block], src/chainstate/stacks/db/blocks.rs).

    The state and the withdrawals of the block are those its header commits to, its
    transactions were counted and their fees collected, and its microblock key is not
    accepted again by any block that builds on it. *)
From Stdlib Require Import ZArith Lia Strings.Byte Strings.String List Bool.
From stdpp Require Import base decidable list strings option gmap relations pretty.
From S2P Require Import Prelude Bytes Codec Representations BTree Types Signatures Admission Values.
From S2P Require Import Serialization AssetMap Hashes Merkle Keys Natives C32 Principals BackingStore RollbackWrapper RollbackRefinement.
From S2P Require Import Events GlobalContext ClarityDb ClarityState StxBalance Costs Contexts Callables Assets Machine Specials.
From S2P Require Import TypeRepr DataNatives Interpreter Define Lexer Ast PostConditions Transaction TransactionRoundTrip Authorization Signing Receipts Blocks BlockRoundTrip.
From S2P Require Import StateLayout Discipline Respect Termination Isolation Deployment Connection ConnectionRefinement Processing Nonces.
From S2P Require Import LedgerRefinement Rewards Withdrawal BlockProcessing BlockNonces.
Open Scope Z_scope.

(** Computing the root changes nothing that is stored. *)
Class StateIndexLaws (S : Type) {C : Type} `{Sqlite C} `{!ClarityBackingStore C S} `{!StoreLaws C S} `{!StateIndex S} := {
  seal_contents : forall (s : S) k, contents (fst (seal s)) k = contents s k
}.

Section acceptance.
Context {O : HashOrder} {D : Digests} {DL : DigestLaws D} {J : SerdeJson} {N : HeadersDB} {Q : IntegerSquareRoot}.
Context {K : LibSecp256k1} {V : Ed25519} {Y : Layout}.
Context {C S T : Type} `{Sqlite C} `{!ClarityBackingStore C S} `{!CostTracker T} `{!Host S T}.
Context `{!TotalCost T} `{!Analyzer S T} `{!StoreLaws C S} `{!SerdeJsonLaws J} `{!StateIndex S} `{!StateIndexLaws S}.
Context `{!MemoryLaws T} `{!HostLaws S T} `{!BlockLaws C S}.
Context (no_fuel : CallableType -> list SymbolicExpression -> Environment -> LocalContext -> M (S:=S) (T:=T) Value).
Context (fuel : nat) (enough : (65 <= fuel)%nat).
Context (debug_error : chainstate_error -> string).
Notation W := (RollbackWrapper S).
Notation Block := (ClarityBlockConnection S T).
Notation Receipt := (StacksTransactionReceipt ContractAnalysis).
Notation no_frame := (mkFrame [] []).
Implicit Types (b : Block) (s : S) (f : Frame) (p : PrincipalData) (tx : StacksTransaction).

(** * Fees *)
Definition total_fees (txs : list StacksTransaction) : Z := fold_right (fun tx n => auth_get_tx_fee (tx_auth tx) + n) 0 txs.
Lemma block_fees config txs : forall b fees burns rs i b' fees' burns' rs' i',
  try_fold (block_transaction_step no_fuel fuel config) (b, (fees, burns, rs), i) txs = Ok (b', (fees', burns', rs'), i') ->
  fees' = fees + total_fees txs.
Proof using enough HostLaws0 MemoryLaws0 BlockLaws0 SerdeJsonLaws0 StoreLaws0.
  induction txs as [|tx txs IH]; intros b fees burns rs i b' fees' burns' rs' i' Hf; cbn [try_fold total_fees fold_right] in *; [simplify_eq; lia|].
  apply out_bind_Ok in Hf as ([[b1 [[fees1 burns1] rs1]] i1] & Hs & Hf). apply IH in Hf as ->.
  unfold block_transaction_step in Hs. apply out_bind_Ok in Hs as ([b2 [fee r]] & Hp & Hs).
  pose proof (transaction_effect no_fuel fuel enough config b tx false) as He. rewrite Hp in He. destruct He as [-> _].
  apply out_bind_Ok in Hs as (fees2 & Ha & Hs). unfold add_u128 in Ha. destruct (checked_add _ _ _) eqn:Ec; [|done].
  apply checked_add_Some in Ec as [-> _]. out_inv. simplify_eq. fold (total_fees txs). lia.
Qed.

(** * Microblock keys *)
Definition key_entry (pubkey_hash : list byte) : string := make_microblock_pubkey_height_key pubkey_hash.
Lemma key_used {E : Type} b h : is_Some (contents (datastore b) (key_entry h)) -> has_microblock_pubkey_hash (E:=E) b h <> Ok None.
Proof.
  intros [v Hv] Hh. unfold has_microblock_pubkey_hash, block_with_clarity_db_readonly in Hh. apply out_bind_Ok in Hh as (r & Hr & Hh).
  assert (wrapper_inv (nest (RollbackWrapper_new (datastore b))) (mkJournal (datastore b) [no_frame] true)) as Hi
    by exact (run_op_refines _ (mkJournal (datastore b) [] true) Nest (new_inv (datastore b))).
  out_inv. simplify_eq. revert Hr. unfold get_microblock_pubkey_hash_height, db_get. change (kv_get ?w ?k) with (get Ok w k).
  rewrite (get_refines _ _ _ _ Hi). unfold spec_lookup. cbn [j_frames j_pending j_store pending_writes rev map concat app writes].
  change (last_write _ []) with (@None string). rewrite store_get_ok. fold (key_entry h). rewrite Hv. cbn.
  by destruct (parse_u32 v).
Qed.
Lemma put_published c s k v : conn_at (T:=T) c s no_frame ->
  match with_clarity_db c (fun db => always_ok (let? db := kv_put db k v in Ok (db, tt))) with
  | Ok (c', _) => exists f, conn_at c' s f /\ last_write k (writes f) = Some v
  | _ => True
  end.
Proof.
  intros Hc. set (m := fun db => _). pose proof (clarity_db_at c s no_frame (fun g _ => last_write k (writes g) = Some v) m Hc) as Hr.
  assert (forall db, working s no_frame no_frame db -> match m db with
    | Ok (db', r) => exists g, working s no_frame g db' /\ last_write k (writes g) = Some v
    | Err (db', _) => exists g, working s no_frame g db'
    | Panic => True end) as Hdo.
  { intros db Hw. subst m. cbv beta. pose proof (put_refines _ _ k v Hw) as Hp. change (kv_put db k v) with (put db k v).
    destruct (put db k v) as [db'| |]; cbn [out_bind always_ok expect]; [|done|done]. cbn in Hp.
    eexists. split; [exact Hp|]. cbn. rewrite last_write_cons, decide_True by done. done. }
  specialize (Hr Hdo). destruct (with_clarity_db c m) as [[c' r]|[c' e]|] ; [|done|done].
  destruct Hr as (g & Hc' & Hg). exists (frame_app no_frame g). by rewrite frame_app_nil_l in *.
Qed.
Lemma key_recorded {E : Type} b height h b' :
  insert_microblock_pubkey_hash (E:=E) b height h = Ok b' -> is_Some (contents (datastore b') (key_entry h)).
Proof.
  intros Hi. unfold insert_microblock_pubkey_hash in Hi. apply out_bind_Ok in Hi as ([b1 r] & Ha & Hi).
  destruct r as [e|[]]; [done|]. simplify_eq. unfold as_transaction_result, as_transaction in Ha.
  apply out_bind_Ok in Ha as ([c1 r1] & Hdo & Ha).
  pose proof (put_published _ _ (key_entry h) (pretty height) (start_at b)) as Hp. unfold insert_microblock_pubkey_hash_height in Hdo.
  change (make_microblock_pubkey_height_key h) with (key_entry h) in Hdo.
  destruct (with_clarity_db _ _) as [[c2 x]|[c2 e]|]; cbn [attempt_call] in Hdo; [| |done]; simplify_eq; [|out_inv; by simplify_eq].
  destruct Hp as (f & Hc & Hw). apply out_bind_Ok in Ha as (c3 & Hcom & Ha).
  pose proof (commit_publishes_frame (E:=E) _ _ _ Hc) as Hpub. rewrite Hcom in Hpub. unfold connection_drop in Ha. out_inv. simplify_eq.
  cbn [return_to_block datastore conn_store with_tracker]. rewrite Hpub, Hw. by exists (pretty height).
Qed.
Lemma finish_records config b payouts height key b' evs :
  finish_block config b payouts height key = Ok (b', evs) -> is_Some (contents (datastore b') (key_entry key)).
Proof.
  intros Hf. unfold finish_block in Hf. apply out_bind_Ok in Hf as (b1 & _ & Hf). apply out_bind_Ok in Hf as ([b2 [n2 evs2]] & _ & Hf).
  apply out_bind_Ok in Hf as (b3 & _ & Hf). apply out_bind_Ok in Hf as (b4 & H4 & Hf). simplify_eq. by eapply key_recorded.
Qed.

(** * Appending a block *)
Notation append config consensus_hash b rs mrs burns matured block :=
  (append_block_checked no_fuel fuel config debug_error consensus_hash b rs mrs burns matured block).

(** The steps of a block that was appended. *)
Lemma append_inv config ch b rs mrs burns matured block b' fees burnt cost receipts tree :
  append config ch b rs mrs burns matured block = Ok (b', (fees, burnt, cost, receipts, tree)) ->
  has_microblock_pubkey_hash (E:=chainstate_error) b (microblock_pubkey_hash (block_header block)) = Ok None /\
  exists b1 block_burns txs_receipts b2 lockups,
    process_block_transactions no_fuel fuel config b block (as_u32 (Z.of_nat (length mrs))) = Ok (b1, (fees, block_burns, txs_receipts)) /\
    finish_block config b1 (snd (split_rewards matured)) (as_u32 (work (total_work (block_header block))))
      (microblock_pubkey_hash (block_header block)) = Ok (b2, lockups) /\
    seal (datastore b2) = (datastore b', state_index_root (block_header block)) /\
    create_withdrawal_merkle_tree (E:=chainstate_error) (attach_lockup_events (rs ++ txs_receipts) lockups ++ mrs)
      (work (total_work (block_header block))) = Ok (Some tree, receipts) /\
    sum_bytes (root tree) = withdrawal_merkle_root (block_header block).
Proof.
  intros Ha. unfold append_block_checked in Ha. apply out_bind_Ok in Ha as (hash & _ & Ha). cbv zeta in Ha.
  apply out_bind_Ok in Ha as (used & Hused & Ha). destruct used; [done|]. split; [done|].
  destruct (process_block_transactions _ _ _ _ _ _) as [[b1 [[fees1 burns1] txs_receipts]]|[b1 e]|] eqn:Ep; [|done|done].
  destruct (split_rewards matured) as [[rewards info] payouts] eqn:Er. cbn [snd].
  apply out_bind_Ok in Ha as (total & _ & Ha). apply out_bind_Ok in Ha as ([b2 lockups] & Hf & Ha).
  destruct (seal (datastore b2)) as [s2 root_hash] eqn:Es.
  destruct (bool_decide (root_hash = _)) eqn:Eroot; cbn [negb] in Ha; [|done]. apply bool_decide_eq_true in Eroot.
  apply out_bind_Ok in Ha as ([tree_opt receipts'] & Ht & Ha). apply out_bind_Ok in Ha as (tree' & Htree & Ha).
  destruct tree_opt; [|done]. cbn in Htree. injection Htree as ->.
  destruct (bool_decide (_ = withdrawal_merkle_root _)) eqn:Ew; cbn [negb] in Ha; [|done]. apply bool_decide_eq_true in Ew.
  simplify_eq. exists b1, burns1, txs_receipts, b2, lockups. split_and!; [done| |by rewrite Es|done|done].
  destruct (finish_block _ _ _ _ _) as [[b3 l3]|[b3 e]|]; cbn [map_err] in Hf; by simplify_eq.
Qed.

Lemma sealed_nonce s s' r p : seal s = (s', r) -> nonce_in s' no_frame p = nonce_in s no_frame p.
Proof using StateIndexLaws0.
  intros Hs. pose proof (seal_contents s) as Hc. rewrite Hs in Hc. unfold nonce_in. cbn. by rewrite Hc.
Qed.

(** C6: a block that was appended is what its header says.  The root of the state
    after its transactions, rewards and unlocks is the header's state root; the root
    of the tree of the withdrawals in all its receipts, at its height, is the
    header's withdrawal root; each nonce went up by the number of its transactions
    the account takes part in; the fees collected are those its transactions state;
    and its microblock key was new. *)
Theorem accepted_block config ch b rs mrs burns matured block b' fees burnt cost receipts tree :
  append config ch b rs mrs burns matured block = Ok (b', (fees, burnt, cost, receipts, tree)) ->
  (exists s, seal s = (datastore b', state_index_root (block_header block))) /\
  (exists txs_receipts lockups,
    create_withdrawal_merkle_tree (E:=chainstate_error) (attach_lockup_events (rs ++ txs_receipts) lockups ++ mrs)
      (work (total_work (block_header block))) = Ok (Some tree, receipts)) /\
  sum_bytes (root tree) = withdrawal_merkle_root (block_header block) /\
  (forall p, block_nonce (E:=VmError) b' p = let? n := block_nonce b p in Ok (n + taking_part (block_txs block) p)) /\
  fees = total_fees (block_txs block) /\
  has_microblock_pubkey_hash (E:=chainstate_error) b (microblock_pubkey_hash (block_header block)) = Ok None.
Proof using enough HostLaws0 MemoryLaws0 BlockLaws0 SerdeJsonLaws0 StoreLaws0 StateIndexLaws0.
  intros Ha. apply append_inv in Ha as (Hk & b1 & bb & trs & b2 & evs & Hp & Hf & Hs & Ht & Hw).
  split_and!; [by eexists|by eexists _, _|done| | |done].
  - intros p. apply (block_nonce_shift b b' p (fun n => n + taking_part (block_txs block) p)).
    rewrite (sealed_nonce _ _ _ p Hs). apply finish_keeps in Hf as [Hn _]. rewrite Hn.
    unfold process_block_transactions in Hp. apply out_bind_Ok in Hp as ([[b3 t3] i3] & Hp & Heq). simplify_eq.
    by destruct (block_transactions_at no_fuel fuel enough config _ _ [] _ _ _ _ _ _ (all_counted_nil (datastore b)) Hp) as [Hc _].
  - unfold process_block_transactions in Hp. apply out_bind_Ok in Hp as ([[b3 t3] i3] & Hp & Heq). simplify_eq.
    apply block_fees in Hp. lia.
Qed.

(** C22: a microblock key is used once.  After a block was appended, and whatever
    transactions, deposits, transfers and ends of blocks follow, no block with the
    same microblock key is appended. *)
Theorem microblock_keys_used_once config ch b rs mrs burns matured block b1 x b2 :
  append config ch b rs mrs burns matured block = Ok (b1, x) -> rtc (chain_step no_fuel fuel) b1 b2 ->
  forall config' ch' rs' mrs' burns' matured' block' y,
    microblock_pubkey_hash (block_header block') = microblock_pubkey_hash (block_header block) ->
    append config' ch' b2 rs' mrs' burns' matured' block' <> Ok y.
Proof using enough HostLaws0 MemoryLaws0 BlockLaws0 SerdeJsonLaws0 StoreLaws0 StateIndexLaws0.
  destruct x as [[[[fees burnt] cost] receipts] tree]. intros Ha Hr config' ch' rs' mrs' burns' matured' block' [b3 [[[[f3 u3] c3] r3] t3]] Hkey Ha'.
  apply append_inv in Ha as (_ & b4 & bb & trs & b5 & evs & _ & Hf & Hs & _). apply append_inv in Ha' as (Hk & _).
  rewrite Hkey in Hk. revert Hk. apply key_used. apply (chain_entries no_fuel fuel enough _ _ Hr).
  pose proof (seal_contents (datastore b5)) as Hc. rewrite Hs in Hc. cbn in Hc. rewrite Hc. by eapply finish_records.
Qed.
End acceptance.

(** * An accepted block *)
(** A chain whose boot contract [lockup] schedules nothing. *)
Definition lockup_json : SerdeJson := {|
  json_u128 := countable_json;
  json_u64 := countable_json;
  json_principal := countable_json;
  json_ft := @json_ft bits_json;
  json_nft := @json_nft bits_json;
  json_map := mkJson (fun _ => "{}") (fun _ => Some (mkMapMeta UIntType UIntType));
  json_var := @json_var bits_json
|}.
Lemma lockup_json_laws : SerdeJsonLaws lockup_json.
Proof. destruct bits_json_laws. split; try apply countable_json_ok. done. Qed.
Definition lockup_contract : QualifiedContractIdentifier :=
  match boot_code_id (E:=Empty_set) "lockup" false with Ok id => id | _ => calc end.
Definition lockup_store : MemoryBackingStore Tables :=
  match
    (let? w := insert_contract_hash (D:=mixing_digests) (J:=lockup_json) example_db lockup_contract "(define-map lockups uint uint)" in
     let? '(_, w) := create_map (D:=mixing_digests) (J:=lockup_json) w lockup_contract "lockups" UIntType UIntType in
     commit (D:=mixing_digests) w)
  with
  | Ok w => store w
  | _ => store example_db
  end.
(** An index whose root is a constant. *)
Definition constant_index : StateIndex (MemoryBackingStore Tables) := {| seal s := (s, repeat x13 32) |}.
Lemma constant_index_laws : StateIndexLaws (StateIndex0:=constant_index) (MemoryBackingStore Tables).
Proof. by split. Qed.

Notation toy_append b rs block := (append_block_checked (O:=listed_order) (D:=mixing_digests) (DL:=mixing_digest_laws) (J:=lockup_json)
  (N:=NullHeadersDB (D:=mixing_digests)) (Q:=Z_square_root) (K:=toy_secp256k1) (V:=toy_ed25519) (Y:=sample_layout) (Host0:=calc_host)
  (Analyzer0:=no_analysis) (StateIndex0:=constant_index) toy_no_fuel 65 toy_config (fun _ => "error") (repeat x31 20) b rs [] 0 None block).
(** The block with the transfer, on top of a deposit. *)
Definition deposited :=
  process_deposits (O:=listed_order) (D:=mixing_digests) (J:=lockup_json) (N:=NullHeadersDB (D:=mixing_digests))
    (Q:=Z_square_root) (K:=toy_secp256k1) (Host0:=calc_host) (Analyzer0:=no_analysis) (E:=Empty_set)
    toy_no_fuel 65 (mkBlockConnection lockup_store (Some tt) false Epoch2_05)
    [mkDepositStx (repeat x01 32) (repeat x02 32) 5000 toy_origin] [] [].
Definition opened_block : toy_block := match deposited with Ok (b, _) => b | _ => empty_block end.
Definition opened_receipts := match deposited with Ok (_, rs) => rs | _ => [] end.
Definition payment_block : StacksBlock (V:=toy_ed25519) (K:=toy_secp256k1) :=
  let h := block_header sample_block in
  mkBlock (mkBlockHeader (bh_version h) (total_work h) (proof h) (parent_block h) (parent_microblock h) (parent_microblock_sequence h)
    (bh_tx_merkle_root h) (repeat x13 32) (repeat x00 32) (microblock_pubkey_hash h) (bh_miner_signatures h)) [toy_payment].
Definition appended_block : toy_block :=
  match toy_append opened_block opened_receipts payment_block with Ok (b, _) => b | _ => empty_block end.
Lemma toy_appended : exists x, toy_append opened_block opened_receipts payment_block = Ok (appended_block, x).
Proof. refine (taken_Ok (toy_append opened_block opened_receipts payment_block) empty_block _). vm_compute. reflexivity. Qed.

Lemma accepted_block_witness :
  exists fees burnt cost receipts tree,
    toy_append opened_block opened_receipts payment_block = Ok (appended_block, (fees, burnt, cost, receipts, tree)) /\
    fees = total_fees (block_txs payment_block) /\
    block_nonce (D:=mixing_digests) (J:=lockup_json) (E:=VmError) appended_block toy_origin =
      (let? n := block_nonce (D:=mixing_digests) (J:=lockup_json) opened_block toy_origin in
       Ok (n + taking_part (D:=mixing_digests) (block_txs payment_block) toy_origin)).
Proof.
  destruct toy_appended as [[[[[fees burnt] cost] receipts] tree] Ha]. exists fees, burnt, cost, receipts, tree. split; [exact Ha|].
  destruct (accepted_block (O:=listed_order) (D:=mixing_digests) (DL:=mixing_digest_laws) (J:=lockup_json)
    (N:=NullHeadersDB (D:=mixing_digests)) (Q:=Z_square_root) (K:=toy_secp256k1) (V:=toy_ed25519) (Y:=sample_layout) (Host0:=calc_host)
    (Analyzer0:=no_analysis) (SerdeJsonLaws0:=lockup_json_laws) (StateIndexLaws0:=constant_index_laws) toy_no_fuel 65 ltac:(lia)
    _ _ _ _ _ _ _ _ _ _ _ _ _ _ _ Ha) as (_ & _ & _ & Hn & Hf & _).
  split; [exact Hf|exact (Hn toy_origin)].
Defined.

Lemma microblock_keys_used_once_witness :
  (exists x, toy_append opened_block opened_receipts payment_block = Ok (appended_block, x)) /\
  ~ exists y, toy_append appended_block [] payment_block = Ok y.
Proof.
  split; [exact toy_appended|]. intros [y Hy]. destruct toy_appended as [x Ha].
  exact (microblock_keys_used_once (O:=listed_order) (D:=mixing_digests) (DL:=mixing_digest_laws) (J:=lockup_json)
    (N:=NullHeadersDB (D:=mixing_digests)) (Q:=Z_square_root) (K:=toy_secp256k1) (V:=toy_ed25519) (Y:=sample_layout) (Host0:=calc_host)
    (Analyzer0:=no_analysis) (SerdeJsonLaws0:=lockup_json_laws) (StateIndexLaws0:=constant_index_laws) toy_no_fuel 65 ltac:(lia)
    _ _ _ _ _ _ _ _ _ _ _ appended_block Ha (rtc_refl _ _) _ _ _ _ _ _ payment_block y eq_refl Hy).
Defined.
