(* ===== verification/Payments.v ===== *)
(** Payments: a transfer of STX that can be paid for is processed.

    The state of the accounts is followed through the whole of [process_transaction]:
    when the transaction is authentic, its nonce is the current one and the sender can
    spend the amount and the fee, it is not refused and nothing panics; the balances
    and the nonce change as they should, and nothing else does. *)
From Stdlib Require Import ZArith Lia Strings.Byte Strings.String List Bool.
From stdpp Require Import base decidable list strings option gmap relations.
From S2P Require Import Prelude Bytes Codec Representations BTree Types Signatures Admission Values.
From S2P Require Import Serialization AssetMap Hashes Keys Natives C32 Principals BackingStore RollbackWrapper RollbackRefinement.
From S2P Require Import Events GlobalContext ClarityDb ClarityState StxBalance Costs Contexts Callables Assets Machine Specials.
From S2P Require Import TypeRepr DataNatives Interpreter Define Lexer Ast PostConditions Transaction TransactionRoundTrip Authorization Receipts.
From S2P Require Import StateLayout TypedState Connection ConnectionRefinement Processing Nonces.
From S2P Require Import Termination Signing Blocks BlockRoundTrip Isolation Deployment LedgerRefinement Rewards Withdrawal BlockProcessing BlockNonces.
Open Scope Z_scope.

Section payments.
Context {O : HashOrder} {D : Digests} {L : DigestLaws D} {J : SerdeJson} {JL : SerdeJsonLaws J} {N : HeadersDB} {Q : IntegerSquareRoot} {K : LibSecp256k1} {Y : Layout}.
Context {C S T : Type} `{Sqlite C} `{!ClarityBackingStore C S} `{!CostTracker T} `{!Host S T}.
Context `{!TotalCost T} `{!Analyzer S T} `{!StoreLaws C S}.
Notation G := (GlobalContext S (Tracked T)).
Notation W := (RollbackWrapper S).
Notation Block := (ClarityBlockConnection S T).
Notation Conn := (ClarityTransactionConnection S T).
Notation no_frame := (mkFrame [] []).
Implicit Types (db : W) (c : Conn) (s : S) (f : Frame) (fs : list Frame) (l : state) (p : PrincipalData).

(** * Databases that show a state *)
(** What a store keeps, slot by slot. *)
Definition stored_state s l : Prop :=
  forall x, slot_ok x = true ->
    match l x with
    | Some v => cell_ok x v /\ contents s (slot_key x) = Some (render x v)
    | None => contents s (slot_key x) = None
    end.

(** A database over the store with pending writes, none of them of metadata. *)
Record shows db s fs l : Prop := {
  shows_inv : wrapper_inv db (mkJournal s fs true);
  shows_open : fs <> [];
  shows_plain : Forall (fun f => metadata_writes f = []) fs;
  shows_state : represents db l
}.

Lemma ready_frames db s fs : wrapper_inv db (mkJournal s fs true) -> fs <> [] -> kv_ready db.
Proof.
  intros Hi Hf. split; [|split; [apply Hi|by eexists]]. rewrite (inv_stack _ _ Hi). cbn [j_frames]. by destruct fs.
Qed.
Lemma view_frames db s fs k :
  wrapper_inv db (mkJournal s fs true) ->
  kv_view db k = match last_write k (pending_writes fs) with Some v => Some v | None => contents s k end.
Proof.
  intros Hi. cbn [kv_view RollbackWrapper_kv_laws]. unfold wrapper_view. rewrite (tracks_last _ _ k (inv_lookup _ _ Hi)), (inv_store _ _ Hi).
  done.
Qed.
Lemma represents_view db db' l : kv_ready db' -> (forall k, kv_view db' k = kv_view db k) -> represents db l -> represents db' l.
Proof. intros Hr Hv [_ Hl]. split; [done|]. intros x Hx. rewrite Hv. by apply Hl. Qed.

Lemma shows_frames db s fs db' fs' l :
  shows db s fs l -> wrapper_inv db' (mkJournal s fs' true) -> fs' <> [] -> Forall (fun f => metadata_writes f = []) fs' ->
  pending_writes fs' = pending_writes fs -> shows db' s fs' l.
Proof.
  intros [Hi _ _ Hl] Hi' Hne Hp Hw. split; [done..|]. eapply represents_view; [by eapply ready_frames| |exact Hl].
  intros k. by rewrite (view_frames _ _ _ _ Hi), (view_frames _ _ _ _ Hi'), Hw.
Qed.
Lemma shows_nest db s fs l : shows db s fs l -> shows (nest db) s (no_frame :: fs) l.
Proof.
  intros Hs. eapply shows_frames; [exact Hs|exact (run_op_refines _ _ Nest (shows_inv _ _ _ _ Hs))|done| |].
  - constructor; [done|apply Hs].
  - by rewrite pending_writes_cons, app_nil_r.
Qed.
Lemma shows_commit db s g f fs l :
  shows db s (g :: f :: fs) l -> exists db' f', commit db = Ok db' /\ shows db' s (f' :: fs) l.
Proof.
  intros Hs. pose proof (commit_refines _ _ (shows_inv _ _ _ _ Hs)) as Hc. cbn [spec_op j_frames j_store j_pending] in Hc.
  destruct (commit db) as [db'| |] eqn:E; [|done..]. exists db'. eexists. split; [done|].
  pose proof (shows_plain _ _ _ _ Hs) as Hp. rewrite !List.Forall_cons_iff in Hp. destruct Hp as (H1 & H2 & H3).
  eapply shows_frames; [exact Hs|exact Hc|done| |].
  - constructor; [cbn; by rewrite H1, H2|done].
  - rewrite !pending_writes_cons. cbn [writes]. by rewrite app_assoc.
Qed.
Lemma shows_rollback db s f fs l : shows db s (no_frame :: f :: fs) l -> exists db', rollback db = Ok db' /\ shows db' s (f :: fs) l.
Proof.
  intros Hs. pose proof (rollback_refines _ _ (shows_inv _ _ _ _ Hs)) as Hc. cbn [spec_op j_frames j_store j_pending] in Hc.
  destruct (rollback db) as [db'| |] eqn:E; [|done..]. exists db'. split; [done|].
  eapply shows_frames; [exact Hs|exact Hc|done| |].
  - pose proof (shows_plain _ _ _ _ Hs) as Hp. by apply List.Forall_cons_iff in Hp as [_ Hp].
  - by rewrite (pending_writes_cons no_frame), app_nil_r.
Qed.
Lemma plain_put db db' s f fs k v :
  wrapper_inv db (mkJournal s (f :: fs) true) -> metadata_writes f = [] -> put db k v = Ok db' ->
  exists f', wrapper_inv db' (mkJournal s (f' :: fs) true) /\ metadata_writes f' = [].
Proof.
  intros Hi Hm Hp. pose proof (put_refines _ _ k v Hi) as Hr. rewrite Hp in Hr. cbn in Hr. eexists. split; [exact Hr|]. cbn. by rewrite Hm.
Qed.
Lemma shows_top db db' s f f' fs l l' :
  shows db s (f :: fs) l -> wrapper_inv db' (mkJournal s (f' :: fs) true) -> metadata_writes f' = [] -> represents db' l' ->
  shows db' s (f' :: fs) l'.
Proof.
  intros Hs Hi Hm Hl. split; [done|done| |done]. pose proof (shows_plain _ _ _ _ Hs) as Hp.
  apply List.Forall_cons_iff in Hp as [_ Hp]. by constructor.
Qed.
Lemma shows_plain_top db s f fs l : shows db s (f :: fs) l -> metadata_writes f = [].
Proof. intros Hs. pose proof (shows_plain _ _ _ _ Hs) as Hp. by apply List.Forall_cons_iff in Hp as [Hp _]. Qed.
Lemma shows_put db db' s f fs l l' k v :
  shows db s (f :: fs) l -> put db k v = Ok db' -> represents db' l' -> exists f', shows db' s (f' :: fs) l'.
Proof.
  intros Hs Hp Hl. destruct (plain_put _ _ _ _ _ _ _ (shows_inv _ _ _ _ Hs) (shows_plain_top _ _ _ _ _ Hs) Hp) as (f' & Hi & Hm).
  exists f'. by eapply shows_top.
Qed.
Lemma shows_store db s fs l : shows db s fs l -> store db = s.
Proof. intros Hs. exact (inv_store _ _ (shows_inv _ _ _ _ Hs)). Qed.

Lemma shows_new s l : stored_state s l -> shows (nest (RollbackWrapper_new s)) s [no_frame] l.
Proof.
  intros Hs. pose proof (run_op_refines _ (mkJournal s [] true) Nest (new_inv s)) as Hi. split; [exact Hi|done|by constructor|].
  split; [eapply ready_frames; [exact Hi|done]|]. intros x Hx. rewrite (view_frames _ _ _ _ Hi). exact (Hs x Hx).
Qed.
Lemma shows_publish db s f l : shows db s [f] l -> exists db', commit db = Ok db' /\ stored_state (store db') l.
Proof.
  intros Hs. pose proof (commit_refines _ _ (shows_inv _ _ _ _ Hs)) as Hc. cbn [spec_op j_frames j_store j_pending] in Hc.
  pose proof (shows_plain _ _ _ _ Hs) as Hm. apply List.Forall_cons_iff in Hm as [Hm _]. rewrite Hm in Hc.
  assert (exists s1, match writes f with [] => Ok s | ws => put_all ws s end = Ok s1 /\
    forall k, contents s1 k = match last_write k (writes f) with Some v => Some v | None => contents s k end) as (s1 & Hs1 & Hk).
  { destruct (writes f) as [|e ws]; [by exists s|apply put_all_ok]. }
  rewrite Hs1 in Hc. cbn [out_bind] in Hc. destruct (commit db) as [db'| |]; [|done..]. exists db'. split; [done|].
  intros x Hx. rewrite (inv_store _ _ Hc). cbn [j_store]. rewrite Hk. pose proof (shows_state _ _ _ _ Hs) as [_ Hl].
  specialize (Hl x Hx). by rewrite (view_frames _ _ _ _ (shows_inv _ _ _ _ Hs)), pending_writes_cons in Hl.
Qed.

(** * Connections that show a state *)
Definition conn_shows c s t l : Prop :=
  conn_store c = s /\ conn_cost_track c = Some t /\
  exists lg f, log c = Some lg /\ shows (from_persisted_log s lg) s [f] l.

Lemma persist_shows c t db s f l :
  shows db s [f] l -> conn_shows (with_tracker (with_log c (Some (persisted_log db)) (store db)) (Some t)) s t l.
Proof.
  intros Hs. split; [by apply (shows_store _ _ _ _ Hs)|]. split; [done|]. exists (persisted_log db), f. split; [done|].
  assert (from_persisted_log s (persisted_log db) = db) as ->; [|done].
  eapply wrapper_inv_unique; [|apply Hs]. apply (persisted_inv db s f), Hs.
Qed.
Lemma with_log_tracker c t lg s : conn_cost_track c = Some t -> with_log c lg s = with_tracker (with_log c lg s) (Some t).
Proof. intros Ht. destruct c. cbn in *. by subst. Qed.

(** Something is read. *)
Lemma readonly_shows {E R : Type} c s t l (m : W -> outcome VmError R) (r : R) :
  conn_shows c s t l -> (forall db fs, shows db s fs l -> m db = Ok r) ->
  exists c', with_clarity_db_readonly (E:=E) c m = Ok (c', r) /\ conn_shows c' s t l.
Proof.
  intros (Hs & Ht & lg & f & Hl & Hf) Hm. unfold with_clarity_db_readonly, using_object. rewrite Hl, Hs. cbn [expect_some out_bind].
  pose proof (shows_nest _ _ _ _ Hf) as Hn. rewrite (Hm _ _ Hn). cbn [expect out_bind].
  destruct (shows_rollback _ _ _ _ _ Hn) as (db' & -> & Hd). cbn [expect out_bind].
  eexists. split; [done|]. rewrite (with_log_tracker _ t) by done. by eapply persist_shows.
Qed.
(** Something is written. *)
Lemma clarity_db_shows {R : Type} c s t l l' (m : W -> outcome (W * ClarityError) (W * R)) (r : R) :
  conn_shows c s t l ->
  (forall db f fs, shows db s (f :: fs) l -> exists db' f', m db = Ok (db', r) /\ shows db' s (f' :: fs) l') ->
  exists c', with_clarity_db c m = Ok (c', r) /\ conn_shows c' s t l'.
Proof.
  intros (Hs & Ht & lg & f & Hl & Hf) Hm. unfold with_clarity_db, using_object. rewrite Hl, Hs. cbn [expect_some out_bind].
  destruct (Hm _ _ _ (shows_nest _ _ _ _ Hf)) as (db1 & f1 & -> & H1).
  destruct (shows_commit _ _ _ _ _ _ H1) as (db2 & f2 & -> & H2). cbn [expect out_bind].
  eexists. split; [done|]. rewrite (with_log_tracker _ t) by done. by eapply persist_shows.
Qed.

(** * The operations of a payment *)
Notation account_slot p := (AccountSlot (PrincipalData_to_string p)).
Notation nonce_slot p := (NonceSlot (PrincipalData_to_string p)).

(** The height of the main chain is a matter of the store. *)
Definition burn_height s (h : Z) : Prop := 0 <= h /\ get_current_burnchain_block_height (RollbackWrapper_new s) = Ok h.
Lemma burn_height_shows db s fs l h : shows db s fs l -> burn_height s h -> get_current_burnchain_block_height db = Ok h.
Proof.
  intros Hs [_ <-]. unfold get_current_burnchain_block_height, db_current_block_height, get_index_block_header_hash.
  by rewrite (shows_store _ _ _ _ Hs).
Qed.

Lemma nonce_shows db s fs l p : shows db s fs l -> get_account_nonce db p = Ok (amount_at l (nonce_slot p)).
Proof using JL.
  intros Hs. destruct (shows_state _ _ _ _ Hs) as [Hr Hl]. specialize (Hl (nonce_slot p) eq_refl).
  unfold get_account_nonce, db_get, amount_at. change (make_key_for_account_nonce p) with (slot_key (nonce_slot p)).
  rewrite kv_get_ok by done. cbn [out_bind]. destruct (l (nonce_slot p)) as [v|]; [|by rewrite Hl].
  destruct Hl as [Hv ->]. destruct v as [n| | |]; try done. cbn [decode_found render]. unfold json_deserialize.
  by rewrite (json_u64_ok n Hv).
Qed.
Lemma get_account_shows {E : Type} c s t l p :
  conn_shows c s t l ->
  exists c', get_account (E:=E) c p = Ok (c', mkAccount p (amount_at l (nonce_slot p)) (account_at l (account_slot p))) /\ conn_shows c' s t l.
Proof using JL.
  intros Hc. apply readonly_shows; [done|]. intros db fs Hs. unfold Processing.read_account.
  rewrite (get_account_at _ _ p (shows_state _ _ _ _ Hs)), (nonce_shows _ _ _ _ p Hs). done.
Qed.

Lemma save_shows db s f fs l p b h :
  shows db s (f :: fs) l -> STXBalance_wf b ->
  exists db' f', save (mkSnapshot p b h) db = Ok db' /\ shows db' s (f' :: fs) (set_cell l (account_slot p) (Account b)).
Proof using JL.
  intros Hs Hb. destruct (write_account db l p b (shows_state _ _ _ _ Hs) Hb) as (db' & Hp & Hl & _).
  destruct (shows_put _ _ _ _ _ _ _ _ _ Hs Hp Hl) as (f' & Hf). by exists db', f'.
Qed.
Lemma account_debit_shows {E : Type} c s t l p (n h : Z) :
  let b := account_at l (account_slot p) in
  conn_shows c s t l -> burn_height s h -> 0 <= n <= spendable b h ->
  exists c', account_debit (E:=E) c p n = Ok c' /\ conn_shows c' s t (set_cell l (account_slot p) (Account (debited b h n))).
Proof using JL.
  intros b Hc Hh Hn. unfold account_debit.
  match goal with |- context [with_clarity_db c ?m] =>
    destruct (clarity_db_shows c s t l (set_cell l (account_slot p) (Account (debited b h n))) m tt Hc) as (c' & -> & Hc') end.
  - intros db f fs Hs. pose proof (account_at_wf db l (PrincipalData_to_string p) (shows_state _ _ _ _ Hs)) as Hb. fold b in Hb.
    rewrite (burn_height_shows _ _ _ _ _ Hs Hh). cbn [out_bind]. unfold get_stx_balance_snapshot.
    rewrite (get_account_at _ _ p (shows_state _ _ _ _ Hs)). cbn [out_bind]. fold b.
    unfold can_transfer. rewrite available_closed by done. cbn [out_bind balance burn_block_height].
    rewrite (proj2 (Z.leb_le _ _)) by lia. cbn [negb out_bind].
    rewrite debit_closed by (done || lia). cbn [balance burn_block_height]. rewrite (proj2 (Z.leb_le _ _)) by lia. cbn [out_bind].
    destruct (save_shows db s f fs l p (debited b h n) h Hs) as (db' & f' & Hsave & Hf); [apply debited_wf; [done|lia]|].
    exists db', f'. split; [|done]. unfold set_balance, always_ok. cbn [principal burn_block_height]. fold (debited b h n). by rewrite Hsave.
  - by exists c'.
Qed.
Lemma update_nonce_shows {E : Type} c s t l p (n : Z) :
  conn_shows c s t l -> 0 <= n < u64_max ->
  exists c', update_account_nonce (E:=E) c p n = Ok c' /\ conn_shows c' s t (set_cell l (nonce_slot p) (Amount (n + 1))).
Proof using JL.
  intros Hc Hn. unfold update_account_nonce.
  match goal with |- context [with_clarity_db c ?m] =>
    destruct (clarity_db_shows c s t l (set_cell l (nonce_slot p) (Amount (n + 1))) m tt Hc) as (c' & -> & Hc') end.
  - intros db f fs Hs. unfold checked_add. rewrite checked_ok by (cbn; lia). cbn [expect_some out_bind].
    destruct (write_slot db l (nonce_slot p) (Amount (n + 1)) (shows_state _ _ _ _ Hs) eq_refl) as (db' & Hp & Hl & _); [cbn; lia|].
    destruct (shows_put _ _ _ _ _ _ _ _ _ Hs Hp Hl) as (f' & Hf). exists db', f'. split; [|done].
    change (set_account_nonce db p (n + 1)) with (kv_put db (slot_key (nonce_slot p)) (render (nonce_slot p) (Amount (n + 1)))).
    by rewrite Hp.
  - by exists c'.
Qed.

(** ** The transfer *)
Lemma drain_empty {A B : Type} `{Countable A} : drain (∅ : gmap A B) = [].
Proof. apply Permutation_nil_r. by rewrite drain_perm, map_to_list_empty. Qed.
Lemma drain_singleton {A B : Type} `{Countable A} (a : A) (x : B) : drain (<[a := x]> ∅ : gmap A B) = [(a, x)].
Proof. apply Permutation_singleton_r. rewrite drain_perm, insert_empty. by rewrite map_to_list_singleton. Qed.
(** The asset map of the call is merged into that of the transaction. *)
Lemma commit_one_transfer p n :
  0 <= n <= u128_max -> exists m, commit_other AssetMap_new (mkAssetMap (<[p := n]> ∅) ∅ ∅ ∅) = Ok m.
Proof.
  intros Hn. unfold commit_other, drain2. cbn [stx_map burn_map token_map asset_map]. rewrite !drain_empty, drain_singleton.
  cbn [flat_map try_map out_bind]. unfold get_next_stx_amount, checked_add. cbn [AssetMap_new stx_map]. rewrite lookup_empty. cbn [default].
  rewrite checked_ok by (cbn; lia). cbn [ok_or out_bind]. by eexists.
Qed.

(** The memory of two principals and two balances is charged. *)
Definition principal_bytes : Z := match type_size_u64 PrincipalType with Ok n => n | _ => 0 end.
Definition room (t t' : T) : Prop :=
  tracker_total t' = tracker_total t /\
  exists t1 t2 t3, add_memory t principal_bytes = Ok t1 /\ add_memory t1 principal_bytes = Ok t2 /\
    add_memory t2 (Z.of_nat STXBalance_size_of) = Ok t3 /\ add_memory t3 (Z.of_nat STXBalance_size_of) = Ok t'.

(** The accounts after a transfer, without a fee. *)
Definition transferred l (from to : PrincipalData) (h amount : Z) : state :=
  set_cell (set_cell l (account_slot to) (Account (credited (account_at l (account_slot to)) amount)))
    (account_slot from) (Account (debited (account_at l (account_slot from)) h amount)).

Lemma charge_ok (g : G) n t : add_memory (tracked (cost_track g)) n = Ok t ->
  env_add_memory g n = Ok (set_tracker g (mkTracked t (stack_of (cost_track g)))).
Proof. intros Ha. unfold env_add_memory, track. cbn [add_memory Tracked_tracker]. by rewrite Ha. Qed.
Lemma charge_principal_ok (g : G) t : add_memory (tracked (cost_track g)) principal_bytes = Ok t ->
  charge_principal g = Ok (set_tracker g (mkTracked t (stack_of (cost_track g)))).
Proof. intros Ha. unfold charge_principal, principal_size, read_db. by apply charge_ok. Qed.

Lemma transfer_to_shows db s f fs l from to h amount :
  shows db s (f :: fs) l -> 0 <= h -> 0 <= amount <= spendable (account_at l (account_slot from)) h ->
  total (account_at l (account_slot to)) + amount <= u128_max ->
  exists db' f', transfer_to (mkSnapshot from (account_at l (account_slot from)) h) db to amount = Ok db' /\
    shows db' s (f' :: fs) (transferred l from to h amount).
Proof using JL.
  intros Hs Hh Ha Hfit. destruct (transfer_to_ok db l from to h amount (shows_state _ _ _ _ Hs) Hh Ha Hfit) as (db' & Ht & Hl & _).
  pose proof Ht as Htr. unfold transfer_to in Htr. out_inv. repeat case_match; try done. out_inv.
  match goal with H1 : db_put _ db _ _ = Ok ?d1, H2 : save _ ?d1 = Ok db' |- _ => rename H1 into P1; rename H2 into P2; rename d1 into d end.
  destruct (plain_put _ _ _ _ _ _ _ (shows_inv _ _ _ _ Hs) (shows_plain_top _ _ _ _ _ Hs) P1) as (f1 & I1 & M1).
  destruct (plain_put _ _ _ _ _ _ _ I1 M1 P2) as (f2 & I2 & M2). exists db', f2. split; [done|]. by eapply shows_top.
Qed.

Lemma consolidated_shows env (g : G) s f fs l from to h amount t' ms bt bts :
  asset_maps g = AssetMap_new :: ms -> event_batches g = bt :: bts -> shows (database g) s (f :: fs) l ->
  env_sender env = Some from -> room (tracked (cost_track g)) t' -> burn_height s h -> from <> to ->
  0 < amount <= spendable (account_at l (account_slot from)) h -> total (account_at l (account_slot to)) + amount <= u128_max ->
  exists db' f', stx_transfer_consolidated env g from to amount =
      Ok (mkGlobal (mkAssetMap (<[from := amount]> ∅) ∅ ∅ ∅ :: ms)
            (mkEventBatch (batch_events bt ++ [STXEvent (STXTransferEvent from to amount)]) :: bts) db' (read_only g)
            (mkTracked t' (stack_of (cost_track g))) (mainnet g) (epoch_id g), Value_okay_true) /\
    shows db' s (f' :: fs) (transferred l from to h amount).
Proof using JL.
  intros Hms Hbs Hs Hsender (_ & t1 & t2 & t3 & H1 & H2 & H3 & H4) Hh Hne Ha Hfit.
  destruct (transfer_to_shows (database g) s f fs l from to h amount Hs) as (db' & f' & Ht & Hf); [apply Hh|lia|done|].
  exists db', f'. split; [|done]. unfold stx_transfer_consolidated.
  rewrite (proj2 (Z.eqb_neq amount 0)), (bool_decide_eq_false_2 _ Hne), Hsender, (bool_decide_eq_true_2 (Some from = Some from)) by (done || lia).
  cbn [negb]. rewrite (charge_principal_ok _ _ H1). cbn [out_bind]. erewrite charge_principal_ok by exact H2. cbn [out_bind].
  unfold charge_balance. erewrite charge_ok by exact H3. cbn [out_bind]. erewrite charge_ok by exact H4. cbn [out_bind].
  unfold stx_snapshot, read_db. cbn [database set_tracker]. rewrite (burn_height_shows _ _ _ _ _ Hs Hh). cbn [out_bind].
  unfold get_stx_balance_snapshot. rewrite (get_account_at _ _ from (shows_state _ _ _ _ Hs)). cbn [out_bind map_err].
  unfold can_transfer. rewrite available_closed by (eapply account_at_wf, Hs). cbn [out_bind map_err balance burn_block_height].
  rewrite (proj2 (Z.leb_le _ _)) by lia. cbn [negb]. unfold write_db. rewrite Ht. cbn [map_err out_bind].
  unfold log_stx_transfer, with_asset_map. cbn [asset_maps set_stacks set_tracker]. rewrite Hms. unfold add_stx_transfer, get_next_stx_amount.
  cbn [AssetMap_new stx_map]. rewrite lookup_empty. cbn [default]. unfold checked_add.
  rewrite checked_ok; [|cbn; pose proof (account_at_wf _ _ (PrincipalData_to_string to) (shows_state _ _ _ _ Hs)) as (? & ? & _); unfold total in *; lia].
  cbn [ok_or out_bind map_err]. unfold register_stx_transfer_event, register_event. cbn [event_batches set_stacks set_tracker]. rewrite Hbs. done.
Qed.

Lemma commit_inner (m0 m1 m : AssetMap) ms b0 b1 bs (db db' : W) ro ct mn ep :
  commit_other m1 m0 = Ok m -> commit db = Ok db' ->
  context_commit (T:=Tracked T) (mkGlobal (m0 :: m1 :: ms) (b0 :: b1 :: bs) db ro ct mn ep) =
    Ok (mkGlobal (m :: ms) (mkEventBatch (batch_events b1 ++ batch_events b0) :: bs) db' (tail ro) ct mn ep, (None, None)).
Proof. intros Hm Hd. unfold context_commit, db_commit. cbn. by rewrite Hm, Hd. Qed.
Lemma commit_outer (m0 : AssetMap) b0 (db db' : W) ro ct mn ep :
  commit db = Ok db' ->
  context_commit (T:=Tracked T) (mkGlobal [m0] [b0] db ro ct mn ep) = Ok (mkGlobal [] [] db' (tail ro) ct mn ep, (Some m0, Some b0)).
Proof. intros Hd. unfold context_commit, db_commit. cbn. by rewrite Hd. Qed.

Lemma run_stx_transfer_shows c s t t' l from to h amount :
  conn_shows c s t l -> room t t' -> burn_height s h -> from <> to ->
  0 < amount <= spendable (account_at l (account_slot from)) h -> total (account_at l (account_slot to)) + amount <= u128_max ->
  exists c' m, run_stx_transfer c from to amount = Ok (c', (Value_okay_true, m, [STXEvent (STXTransferEvent from to amount)])) /\
    conn_shows c' s t' (transferred l from to h amount).
Proof using JL.
  intros (Hst & Htr & lg & f & Hl & Hf) Hroom Hh Hne Ha Hfit. unfold run_stx_transfer, default_contract.
  destruct (expect QualifiedContractIdentifier_transient) as [id| |] eqn:Eid; [|by vm_compute in Eid..]. cbn [out_bind].
  unfold with_abort_callback, using_object. rewrite Hl, Htr, Hst. cbn [expect_some out_bind].
  pose proof (shows_nest _ _ _ _ Hf) as Hn. set (db := nest (from_persisted_log s lg)) in *.
  pose proof (shows_nest _ _ _ _ (shows_nest _ _ _ _ Hn)) as Hnn.
  unfold transfer_transaction, execute_in_env, stx_transfer. cbn [is_top_level new_cost_limited GlobalContext_new asset_maps length Nat.eqb negb].
  destruct (consolidated_shows (mkEnv (ContractContext_new id) (Some from) (Some from)) (begin (begin (new_cost_limited (conn_mainnet c) db t (conn_epoch c))))
    s _ _ l from to h amount t' _ _ _ eq_refl eq_refl Hnn eq_refl Hroom Hh Hne Ha Hfit) as (db1 & f1 & -> & H1).
  cbn [Value_okay_true]. destruct (commit_one_transfer from amount) as (m & Hm);
    [pose proof (account_at_wf _ _ (PrincipalData_to_string to) (shows_state _ _ _ _ Hn)) as (? & ? & _); unfold total in *; lia|].
  destruct (shows_commit _ _ _ _ _ _ H1) as (db2 & f2 & Hc2 & H2). destruct (shows_commit _ _ _ _ _ _ H2) as (db3 & f3 & Hc3 & H3).
  cbn [begin begin_with new_cost_limited GlobalContext_new set_stacks asset_maps event_batches read_only cost_track mainnet epoch_id].
  erewrite commit_inner by (exact Hm || exact Hc2). cbn [out_bind]. erewrite commit_outer by exact Hc3.
  cbn [out_bind ok_or from_interpreter map_err].
  unfold context_destruct. cbn [is_top_level asset_maps set_stacks length Nat.eqb expect_some out_bind database cost_track tracked expect].
  destruct (shows_commit _ _ _ _ _ _ H3) as (db4 & f4 & Hc4 & H4). rewrite Hc4. cbn [expect out_bind].
  eexists _, m. split; [done|]. by eapply persist_shows.
Qed.

(** * The payment *)
Context (no_fuel : CallableType -> list SymbolicExpression -> Environment -> LocalContext -> M (S:=S) (T:=T) Value) (fuel : nat).

Lemma start_shows (b : Block) l t :
  stored_state (datastore b) l -> block_cost_track b = Some t -> conn_shows (start_transaction_processing b) (datastore b) t l.
Proof. intros Hs Ht. split; [done|]. split; [done|]. eexists _, _. split; [done|]. exact (shows_new _ _ Hs). Qed.
Lemma commit_shows {E : Type} c s t l :
  conn_shows c s t l -> exists c', connection_commit (E:=E) c = Ok c' /\ conn_cost_track c' = Some (reset_memory t) /\ stored_state (conn_store c') l.
Proof.
  intros (Hs & Ht & lg & f & Hl & Hf). unfold connection_commit. rewrite Hl, Hs, Ht. cbn [expect_some out_bind].
  unfold depth. rewrite (inv_stack _ _ (shows_inv _ _ _ _ Hf)). cbn [j_frames map length Nat.eqb negb].
  destruct (shows_publish _ _ _ _ Hf) as (db' & -> & Hp). cbn [expect out_bind]. by eexists.
Qed.

(** What the fee can be paid from is what the transfer left to spend. *)
Lemma spendable_debited (b : STXBalance) (h n : Z) : spendable (debited b h n) h = spendable b h - n.
Proof.
  unfold debited, get_locked_balance_at_burn_block. generalize (spendable b h - n). intros z.
  destruct (has_unlockable_tokens_at_burn_block b h) eqn:E; [reflexivity|]. unfold spendable, has_unlockable_tokens_at_burn_block in *. cbn [fst snd amount_locked unlock_height amount_unlocked]. by rewrite E.
Qed.
Lemma no_cost (x : ExecutionCost) : exists y, ExecutionCost_sub x x = Ok y.
Proof.
  destruct x as [w1 w2 r1 r2 r]. unfold ExecutionCost_sub, cost_zip, cost_overflow_sub, checked_sub.
  repeat (cbn; rewrite Z.sub_diag). cbn. by eexists.
Qed.
Lemma account_at_set l x b : account_at (set_cell l x (Account b)) x = b.
Proof. unfold account_at. by rewrite set_cell_eq. Qed.

Lemma check_nonces_shows c s t l tx quiet :
  let a := mkAccount (origin_principal tx) (amount_at l (nonce_slot (origin_principal tx))) (account_at l (account_slot (origin_principal tx))) in
  conn_shows c s t l -> sponsor_address tx = None -> origin_nonce tx = amount_at l (nonce_slot (origin_principal tx)) ->
  exists c', check_transaction_nonces c tx quiet = Ok (c', (a, a)) /\ conn_shows c' s t l.
Proof using JL.
  intros a Hc Hsp Hn. unfold check_transaction_nonces. fold (origin_principal tx) (origin_nonce tx). rewrite Hsp.
  destruct (get_account_shows (E:=Conn * (TransactionNonceMismatch * (StacksAccount * StacksAccount))) c s t l (origin_principal tx) Hc)
    as (c' & -> & Hc'). cbn [out_bind sacc_nonce].
  rewrite (proj2 (Z.eqb_eq _ _) Hn). by exists c'.
Qed.
Lemma token_transfer_shows c s t t' l tx a to h amount :
  conn_shows c s t l -> room t t' -> burn_height s h -> tx_post_conditions tx = [] -> sacc_principal a <> to ->
  0 < amount <= spendable (account_at l (account_slot (sacc_principal a))) h -> total (account_at l (account_slot to)) + amount <= u128_max ->
  exists c' cost, process_token_transfer c tx a to amount =
      Ok (c', from_stx_transfer tx [STXEvent (STXTransferEvent (sacc_principal a) to amount)] Value_okay_true cost) /\
    conn_shows c' s t' (transferred l (sacc_principal a) to h amount).
Proof using JL.
  intros Hc Hroom Hh Hpc Hne Ha Hfit. unfold process_token_transfer.
  rewrite (bool_decide_eq_true_2 _ Hpc), bool_decide_eq_false_2 by congruence. cbn [negb].
  destruct (run_stx_transfer_shows c s t t' l (sacc_principal a) to h amount Hc Hroom Hh Hne Ha Hfit) as (c' & m & -> & Hc').
  cbn [map_err out_bind]. destruct (no_cost (tracker_total t)) as (y & Hy). exists c', y. split; [|done].
  unfold cost_since, cost_so_far. destruct Hc as (_ & -> & _). destruct Hc' as (_ & -> & _). destruct Hroom as (-> & _). by rewrite Hy.
Qed.
Lemma pay_fee_shows c s t l a h fee :
  let b := account_at l (account_slot (sacc_principal a)) in
  conn_shows c s t l -> burn_height s h -> sacc_stx_balance a = b -> 0 <= fee <= spendable b h ->
  exists c', pay_transaction_fee c fee a = Ok (c', fee) /\
    conn_shows c' s t (set_cell l (account_slot (sacc_principal a)) (Account (debited b h fee))).
Proof using JL.
  intros b Hc Hh Hb Hfee. unfold pay_transaction_fee.
  destruct (readonly_shows (E:=Conn * chainstate_error) c s t l get_current_burnchain_block_height h Hc) as (c' & -> & Hc'); [by eauto using burn_height_shows|].
  cbn [out_bind]. destruct Hc' as (? & ? & lg & f & ? & Hf). rewrite Hb.
  change (get_available_balance_at_burn_block b h) with (get_available_balance (E:=Conn * chainstate_error) (mkSnapshot (sacc_principal a) b h)).
  rewrite available_closed by (eapply account_at_wf, Hf). cbn [out_bind balance burn_block_height].
  rewrite (proj2 (Z.ltb_ge _ _)) by lia. 
  destruct (account_debit_shows (E:=Conn * chainstate_error) c' s t l (sacc_principal a) fee h) as (c2 & -> & Hc2); [|done..|by exists c2].
  split; [done|]. split; [done|]. by exists lg, f.
Qed.

(** The state a payment leads to. *)
Definition settled l (from to : PrincipalData) (h amount fee : Z) : state :=
  set_cell (set_cell (transferred l from to h amount) (account_slot from)
      (Account (debited (debited (account_at l (account_slot from)) h amount) h fee)))
    (nonce_slot from) (Amount (amount_at l (nonce_slot from) + 1)).

Lemma payment_in_connection c s t t' l tx quiet to amount memo h :
  let from := origin_principal tx in
  let fee := auth_get_tx_fee (tx_auth tx) in
  conn_shows c s t l -> room t t' -> burn_height s h ->
  tx_payload tx = TokenTransfer to amount memo -> tx_post_conditions tx = [] -> sponsor_address tx = None -> from <> to ->
  origin_nonce tx = amount_at l (nonce_slot from) -> 0 <= origin_nonce tx < u64_max ->
  0 < amount -> 0 <= fee -> amount + fee <= spendable (account_at l (account_slot from)) h ->
  total (account_at l (account_slot to)) + amount <= u128_max ->
  exists c' cost, process_in_connection no_fuel fuel c tx quiet =
      Ok (c', (fee, from_stx_transfer tx [STXEvent (STXTransferEvent from to amount)] Value_okay_true cost)) /\
    conn_shows c' s t' (settled l from to h amount fee).
Proof using JL.
  intros from fee Hc Hroom Hh Hp Hpc Hsp Hne Hn Hr Ha Hf Hspend Hfit. unfold process_in_connection.
  destruct (check_nonces_shows c s t l tx quiet Hc Hsp Hn) as (c1 & -> & H1). fold from. cbn [map_err out_bind].
  unfold process_transaction_payload. rewrite Hp. set (a := mkAccount from _ _).
  destruct (token_transfer_shows c1 s t t' l tx a to h amount H1 Hroom Hh Hpc Hne) as (c2 & cost & -> & H2); [change (sacc_principal a) with from; lia|done|]. change (sacc_principal a) with from in *.
  cbn [out_bind]. unfold get_payer_account. rewrite Hsp. fold (origin_principal tx). fold from.
  destruct (get_account_shows (E:=Conn * chainstate_error) c2 s t' _ from H2) as (c3 & -> & H3). cbn [out_bind]. fold fee.
  match goal with |- context [pay_transaction_fee c3 fee ?x] => destruct (pay_fee_shows c3 s t' _ x h fee H3 Hh eq_refl) as (c4 & -> & H4) end.
  { cbn [sacc_principal]. unfold transferred. rewrite account_at_set, spendable_debited. lia. }
  cbn [out_bind sacc_principal] in *. change (sacc_nonce a) with (amount_at l (nonce_slot from)). rewrite <- Hn.
  destruct (update_nonce_shows (E:=Conn * chainstate_error) c4 s t' _ from (origin_nonce tx) H4 Hr) as (c5 & -> & H5). cbn [out_bind].
  rewrite bool_decide_eq_true_2 by done. cbn [negb out_bind]. exists c5, cost. split; [done|].
  unfold settled. rewrite <- Hn. unfold transferred in H5 at 2. by rewrite account_at_set in H5.
Qed.

(** C10: A transfer of STX that can be paid for is processed.  The transaction passes the
    checks of its signatures, chain and network, has no post-conditions and no sponsor,
    moves a positive amount to another principal whose balance can hold it, and bears the
    current nonce of its origin, which is not the last; the origin can spend the amount
    and the fee at this burn height, and the tracker has room for the memory of two
    principals and two balances.  Then [process_transaction] neither refuses it nor
    panics: it charges the fee, its receipt reports the transfer as its only event, and
    the store of the block holds the state in which the amount has moved, the fee is
    paid and the nonce is counted, every other cell being unchanged; the block has its
    cost tracker back. *)
Theorem payment_is_processed config (b : Block) tx quiet to amount memo l h t t' :
  let from := origin_principal tx in
  let fee := auth_get_tx_fee (tx_auth tx) in
  stored_state (datastore b) l -> block_cost_track b = Some t -> room t t' -> burn_height (datastore b) h ->
  process_transaction_precheck config tx = Ok tt ->
  tx_payload tx = TokenTransfer to amount memo -> tx_post_conditions tx = [] -> sponsor_address tx = None -> from <> to ->
  origin_nonce tx = amount_at l (nonce_slot from) -> 0 <= origin_nonce tx < u64_max ->
  0 < amount -> 0 <= fee -> amount + fee <= spendable (account_at l (account_slot from)) h ->
  total (account_at l (account_slot to)) + amount <= u128_max ->
  exists b' cost, process_transaction no_fuel fuel config b tx quiet =
      Ok (b', (fee, from_stx_transfer tx [STXEvent (STXTransferEvent from to amount)] Value_okay_true cost)) /\
    is_Some (block_cost_track b') /\ stored_state (datastore b') (settled l from to h amount fee).
Proof using JL.
  intros from fee Hs Ht Hroom Hh Hpre Hp Hpc Hsp Hne Hn Hr Ha Hf Hspend Hfit. unfold process_transaction. rewrite Hpre. cbn [map_err out_bind].
  destruct (payment_in_connection _ _ t t' l tx quiet to amount memo h (start_shows b l t Hs Ht) Hroom Hh Hp Hpc Hsp Hne Hn Hr Ha Hf Hspend Hfit)
    as (c & cost & -> & Hc).
  destruct (commit_shows (E:=Block * chainstate_error) c _ _ _ Hc) as (c' & -> & Ht' & Hs'). cbn [out_bind].
  unfold connection_drop. rewrite Ht'. cbn [expect_some out_bind]. eexists _, cost. split; [done|]. split; [by eexists|]. exact Hs'.
Qed.
End payments.

(** * A payment *)
(** The state in which an account has 5000 to spend. *)
Definition purse : state :=
  set_cell (fun _ => None) (AccountSlot (PrincipalData_to_string (D:=mixing_digests) toy_origin)) (Account (mkBalance 5000 0 0)).
Lemma purse_stored : exists s : MemoryBackingStore Tables, stored_state (J:=bits_json) s purse.
Proof.
  pose proof (shows_new (D:=mixing_digests) (J:=bits_json) (store example_db) (fun _ => None)) as H0. specialize (H0 ltac:(done)).
  destruct (save_shows (D:=mixing_digests) (JL:=bits_json_laws) _ _ _ _ _ toy_origin (mkBalance 5000 0 0) 0 H0) as (db & f & _ & H1); [done|].
  destruct (shows_publish (D:=mixing_digests) _ _ _ _ H1) as (db' & _ & Hs). by exists (store db').
Qed.

Definition toy_payee : PrincipalData := Standard (mkStandard x1a (repeat x44 20)).
Lemma payment_is_processed_witness :
  exists (b b' : toy_block) cost,
    toy_process b toy_payment =
      Ok (b', (180, from_stx_transfer toy_payment [STXEvent (STXTransferEvent toy_origin toy_payee 1000)] Value_okay_true cost)) /\
    stored_state (J:=bits_json) (datastore b') (settled (D:=mixing_digests) purse toy_origin toy_payee 0 1000 180).
Proof.
  destruct purse_stored as (s & Hs). exists (mkBlockConnection s (Some tt) false Epoch2_05).
  destruct (payment_is_processed (O:=listed_order) (D:=mixing_digests) (J:=bits_json) (JL:=bits_json_laws) (N:=NullHeadersDB (D:=mixing_digests))
    (Q:=Z_square_root) (K:=toy_secp256k1) (Y:=sample_layout) (Host0:=calc_host) (Analyzer0:=no_analysis)
    toy_no_fuel 65 toy_config (mkBlockConnection s (Some tt) false Epoch2_05) toy_payment false toy_payee 1000 (repeat x00 34) purse 0 tt tt)
    as (b' & cost & Hp & _ & Hs'); cbn [datastore block_cost_track].
  - exact Hs.
  - reflexivity.
  - split; [reflexivity|]. by exists tt, tt, tt.
  - split; [lia|reflexivity].
  - vm_compute. reflexivity.
  - reflexivity.
  - reflexivity.
  - reflexivity.
  - apply (bool_decide_unpack (origin_principal toy_payment <> toy_payee)). vm_compute. exact I.
  - vm_compute. reflexivity.
  - vm_compute. split; congruence.
  - lia.
  - vm_compute. congruence.
  - vm_compute. congruence.
  - vm_compute. congruence.
  - exists b', cost. split; [exact Hp|exact Hs'].
Defined.
